(* ===== verification/_CoqProject ===== *)
-Q . S2P
Prelude.v
Decimal.v
Denom.v
Coins.v
Bank.v
CoinKeeper.v
Token.v
Swap.v
SwapProps.v
OrderBook.v
DecStr.v
Order.v
OrderProps.v
OrderRun.v
OrderBlock.v
OrderChain.v
Farm.v
FarmProps.v
FarmRun.v
Staking.v
StakingVals.v
StakingVotes.v
StakingProps.v
StakingMsgs.v
StakingFrame.v
StakingSet.v
StakingElect.v
StakingEnd.v
Slashing.v
SlashingProps.v
StakingRun.v
StakingBank.v
StakingTheorems.v
StakingDemo.v
Gov.v
Params.v
GovProps.v
GovTally.v
ParamsProps.v
GovRun.v
GovBank.v
GovDemo.v
Distribution.v
DistrProps.v
DistrKeeper.v
DistrInv.v
DistrHooks.v
DistrLaws.v
DistrStaking.v
DistrMsgs.v
DistrEnd.v
DistrOpen.v
DistrPays.v
DistrRun.v
DistrReturns.v
DistrTheorems.v
DistrDemo.v
