(* ===== verification/Prelude.v ===== *)
(** * A verification of the core of exchain

    exchain is a Go blockchain application on the Cosmos SDK whose own logic
    is an exchange: coins and accounts, a token registry, an automated market
    maker, an order book with a periodic auction, liquidity mining, staking,
    governance.
    This library models that logic from the sources and proves what makes it
    correct.  All paths below are under [src/]; [SDK] is
    [libs/cosmos-sdk].

    ** Parts of the program and where they are modelled

    - [Prelude.v] (this file): results of Go code, the state monad, the order
      on strings, sums over stores, truncated division.
    - [Decimal.v]: [sdk.Int] and [sdk.Dec] ([SDK/types/int.go],
      [decimal.go]) and [common.MulAndQuo].  A decimal is the integer it
      stores, 10^18 times its value; every operation checks its range as the
      code does and panics beyond it.
    - [Denom.v]: denominations ([SDK/types/aliase_coin_exchain.go],
      [coin.go]) with an executable matcher for the regular expressions, and
      the names of pool tokens ([x/ammswap/types/swap.go]).
    - [Coins.v]: [DecCoin] and [DecCoins] ([SDK/types/dec_coin.go],
      [coin.go]).  A coin set is the slice that Go has, in its order.
    - [Bank.v]: accounts, the bank keeper ([SDK/x/bank]) and the supply keeper
      ([SDK/x/supply]) over one store, with their messages and the registered
      supply invariant.
    - [CoinKeeper.v]: the class that the modules above the bank use it
      through, with its laws, and the instance that discharges them.
    - [Token.v]: [x/token], the registry of tokens, locked coins and the
      message handlers, over any coin keeper.
    - [Swap.v], [SwapProps.v]: [x/ammswap], pools, messages, handlers, queries
      and genesis, over the token module; and its theorems.
    - [OrderBook.v]: the depth book and the price rules of the periodic
      auction ([x/order/types/depth_book.go],
      [x/order/match/periodicauction/match.go]).
    - [DecStr.v]: decimals as strings and the keys and identifiers that are
      made from them ([SDK/types/decimal.go], [x/order/types/keys.go]).
    - [Order.v]: orders, the cache and the store of the order keeper, fees,
      messages and handlers, filling at the auction price, expiry
      ([x/order/types], [x/order/keeper], [x/order/handler.go],
      [x/order/match/periodicauction/fill.go]).  [OrderProps.v] proves the
      filling of queues and books, [OrderRun.v] the invariant of the order
      keeper over runs of its operations.
    - [OrderBlock.v]: the start and the end of a block of the order module
      ([beginblocker.go], [endblocker.go], [match.go]: cleanup, expiry,
      matching, writing the cache to the store); [OrderChain.v]: chains of
      blocks.
    - [Farm.v]: [x/farm], pools, locks, reward periods, messages, the
      allocation of minted tokens, the whitelist and the registered
      invariants; [FarmProps.v]: the invariant and its preservation by every
      operation; [FarmRun.v]: runs, and what holds along them.

    - [Staking.v]: [x/staking], delegators, votes, proxies, undelegations,
      validators and their indices, messages, the election and the end of a
      block, and the registered invariants.  [StakingVals.v] proves the order
      of the power index and the invariant of validators, [StakingVotes.v]
      the loops that move votes, [StakingProps.v] and [StakingMsgs.v] that
      messages preserve the invariant, [StakingFrame.v] what staking code does
      to the stores of others, [StakingSet.v], [StakingElect.v] and
      [StakingEnd.v] the validator set and the end of a block.
    - [Slashing.v]: [x/slashing] and [x/evidence], the signing window, jail,
      double signing, and the slashing hooks; [SlashingProps.v]: its
      invariant.
    - [StakingRun.v]: blocks of both; [StakingBank.v]: the bank as the keeper
      below them; [StakingTheorems.v]: the theorems on chains of blocks;
      [StakingDemo.v]: a chain with two validators and the concrete instances.
    - [Gov.v]: [x/gov], proposals, deposits, votes, the queues, the tally and
      the end of a block, over any handlers of proposals; [Params.v]:
      [x/params], parameter changes and upgrade proposals, their checks and
      the queue of changes that wait for a height.  [GovProps.v] proves that
      every operation of gov preserves its invariant, [GovTally.v] that the
      tally is a reference count, [ParamsProps.v] the laws of the handlers of
      [x/params] and that they are handlers as gov expects them, [GovRun.v]
      the theorems on runs, [GovBank.v] that the bank pays deposits out, and
      [GovDemo.v] has the concrete instances.
    - [Distribution.v]: [x/distribution], the allocation of the fees of a
      block, commissions, reward periods, withdrawals, proposals, and the
      hooks that staking calls; it is the module behind the hooks of
      [Staking.v].  [DistrProps.v] states the invariant of the records and what
      sums over them do, [DistrKeeper.v] proves what the operations on periods
      and votes do to it, [DistrInv.v] the allocation and the commissions,
      [DistrHooks.v] withdrawals, messages, proposals and hooks, [DistrLaws.v]
      that the hooks keep to the laws that staking asks for.  [DistrStaking.v],
      [DistrMsgs.v] and [DistrEnd.v] prove that every message of staking, and
      the start and the end of a block, keep votes and rewards together;
      [DistrOpen.v] that rewards go to accounts that may be paid, [DistrPays.v]
      that the payments of the module return.  [DistrRun.v] has the blocks of
      the three modules, [DistrReturns.v] proves that they end,
      [DistrTheorems.v] has the theorems on rewards, [DistrDemo.v] a chain that
      pays them.

    The modules call each other downwards: a farm handler reads pools of the
    market maker, an order handler locks coins, a swap handler calls the token
    keeper and, through the [CoinKeeper] class, the supply keeper, which calls
    the bank keeper, which reads and writes accounts.  A handler is a function
    of the monad [M] over the state of its module, which contains the state of
    the module below ([zoom]).

    ** Conventions

    A Go function that may fail returns an [outcome]: a value, an error by
    name, or a panic.  In [M] a failing call keeps the writes it has made, as
    Go does; that the application discards the writes of a failed message is
    the function [deliver] of [Bank.v].  Definitions keep the Go names, with
    the receiver as prefix where a name is used twice.  An address is a
    string, the empty one being the nil address; a store is a [gmap], and an
    iterator over it returns the entries in key order.  Integers of machine
    width are [Z] with the wrap-around or the range check written out.  Gas,
    events, logging, metrics, caches that only save time, and the encoding of
    values in stores are left out.

    ** What the theorems show

    - Arithmetic: products, quotients and rounding of decimals are exact up to
      the documented rounding ([Dec_Mul_half_even], [Dec_Quo_error],
      [MulAndQuo_exact]); powers terminate and are
      exact on whole numbers.
    - Coin sets: addition, subtraction, scaling and truncation are the
      pointwise operations on amounts, keep the stored form (sorted, positive)
      and detect a negative result; the binary search of [AmountOf] is
      correct.
    - Bank and supply: after any run of transfers, multi-sends, delegations,
      mints and burns every account holds a stored coin set and the sum of all
      balances is the recorded supply, except for what undelegations to the
      account of the module itself have created ([bank_run_invariant],
      [UndelegateCoins_self]); the registered invariant decides exactly whether
      the two agree ([TotalSupply_decides]); a transfer succeeds when it can be
      paid and otherwise changes nothing.
    - Tokens: locked coins stay backed by the module account; minting is
      bounded; ownership moves only to the address that was named.
    - Market maker: after any run of messages the module account holds what
      the pools record ([swap_run_backed]); swaps never lower the product of
      the reserves; the quote of a query is what a swap pays; adding and
      removing liquidity gives no profit and does not dilute the other
      providers beyond one smallest unit.
    - Auction: the depth book stays sorted and records the quantities placed;
      the price of the auction lets the largest volume trade among all prices,
      and ties are broken as documented; what is bought at this price is what
      is sold, and the earlier order is filled first.
    - Orders: along every run of messages, fills and expiries, over any number
      of heights, books, queues and orders agree, closed orders stay closed and
      no identifier is given out twice ([order_run_invariant]); the same over
      chains of blocks ([chain_invariant]), where every order is closed after its
      life ([orders_expire]) and a restart in between makes no difference
      ([restart_equivalent]).
    - Farming: along every run in which no pool is destroyed whose name begins
      that of another one, the accounts of the module hold what its records say
      and the registered invariants on them hold ([farm_run_invariant]; what
      happens otherwise is [destroy_strands_lockers]); what all lockers are shown as earned is covered
      ([earnings_covered]), and a claim pays what is shown
      ([claim_pays_earnings]).

    - Staking: along every chain of blocks, in which parameters may change and
      votes on blocks are of validators that have not finished unbonding, votes,
      proxies, indices, pools and the undelegation queue fit together
      ([staking_chain_invariant]), so the
      registered invariants hold ([registered_invariants_kept]); an epoch ends
      with the best validators in the set ([epoch_elects_best]); the updates
      of every block take the consensus engine to the recorded set
      ([updates_reach_engine]); with the hooks of penalties and rewards the end
      of a block returns ([EndBlocker_returns]) and pays what is due
      ([undelegation_paid]).
    - Penalties: the counter of missed blocks is the number of the bits that
      are set, and at most the longest window there was
      ([missed_counter_exact]); who misses too many is jailed
      ([downtime_jails]) and leaves the set with the block
      ([kicked_out_leaves]).
    - Governance: along every run the deposits that are recorded are those of
      live proposals, add up to their totals, and are what the module account
      holds ([gov_run_invariant]); each depositor is paid back, or each deposit
      goes to the collector of fees, when a proposal ends ([deposits_settled]); the tally is the
      stake-weighted count in which a vote overrides the validator's
      ([Tally_exact]); the end of a block passes, rejects or drops every
      proposal that is due ([gov_EndBlocker_decides]).
    - Rewards: along every chain of blocks with staking, penalties, rewards and
      proposals, the account of the module holds exactly what its records owe,
      each vote has earned no more than is outstanding for its validator, and
      the registered invariants hold ([distr_run_solvent]); a withdrawal pays what the query shows
      ([withdrawal_pays_query]); the fees of a block are given out to the last
      unit ([fees_conserved]); the switch to rewards for delegators loses
      nothing ([switch_on_chain]); when everybody who signed is jailed, the
      next block does not start ([jailed_voters_halt]).
    - Parameters: a change that fails at its height is tried again in every
      block after it ([failed_change_repeats]); an upgrade that the binary is
      ready for takes effect at the height it names, and one that it is not
      ready for does not ([upgrade_effective_at_expected]).

    Theorems that state a defect of the code, or a difference from its
    comments, say so in their comment.

    ** Bounds and fuel

    Recursion is structural except for the bisections: [AmountOf] and
    [sort.Search] run on fuel equal to the length of the slice, which is
    enough because every step halves the range (the theorems show the result,
    not only what holds if there is one).  Statements that a function returns
    ask for amounts within a range far above any supply (2^100 for reserves,
    2^300 for the total of a book), where no intermediate value overflows.
    Runs of the farm module are shorter than 2^64 steps, so that the counter
    of periods does not wrap; chains of blocks start above height one, and
    orders live for at least one block, as the parameters have it.
    The vote weight of an amount grows with time by a floating-point power;
    the power, as the string that the code prints, is a parameter of the
    staking configuration, and it is at least one ([weights_ok]).  In
    [StakingRun.v] the hooks of other modules than slashing are a parameter
    too, which [DistrLaws.v] instantiates.  Where a theorem says that the end of
    a block returns, or that a commission can be withdrawn, what exists of a
    denomination is below 2^314 units and has a name that the bank accepts
    ([payable]), and there are at most 2^100 validators.  No signing window
    along a chain is longer than [windowBound], which may be any number.  Reward periods and heights stay far
    below 2^64.  In governance the shares of all validators add up to
    less than 2^315 and the supply of a coin is less than 2^314, so that no
    sum of the tally or of a payment leaves the range of a decimal; heights
    are less than 2^63.  The subspaces of parameters, the range of heights
    that a change may name, and the callback of an upgrade belong to other
    modules and are parameters.

    ** Not modelled, and why

    Token issuing (the suffix of a symbol comes from a transaction hash),
    parsing and printing of coins, vesting accounts, gas and fees of
    transactions; statistics, fee details and queries of the order module,
    genesis of the order, farm, staking, slashing, gov and params modules;
    queries of gov and params, and the block configuration that [x/params]
    stores for the node; [x/dex] beyond the trading pair; the check of who may
    submit a proposal of [x/distribution], its queries of single records, and
    the conversion of messages from contracts; the virtual
    machines and bridges, whose semantics is in third-party code; and the
    vendored framework, consensus, storage and networking code. *)
From stdpp Require Export base tactics gmap strings list fin_maps sorting.
From Stdlib Require Export ZArith Lia.
From Stdlib Require Import Zquot OrderedTypeEx.

#[global] Open Scope Z_scope.
Set Warnings "-clear-no-such-hyp".

(** * Errors, panics and outcomes *)

(** A Go [error] value: the name of the constructor that made it, or the
    name of the constructor that wrapped another error. *)
Inductive error :=
  | E (name : string)
  | Wrap (name : string) (cause : error).

(** What a Go function call ends in: a value, an [error] result, or a
    panic. *)
Inductive outcome (A : Type) :=
  | Ok (a : A)
  | Err (e : error)
  | Panic (msg : string).
Arguments Ok {A} _.
Arguments Err {A} _.
Arguments Panic {A} _.

#[global] Instance error_eq_dec : EqDecision error.
Proof. solve_decision. Defined.

#[global] Instance outcome_eq_dec {A} `{EqDecision A} : EqDecision (outcome A).
Proof. solve_decision. Defined.

#[global] Instance outcome_ret : MRet outcome := λ A a, Ok a.
#[global] Instance outcome_bind : MBind outcome := λ A B f m,
  match m with
  | Ok a => f a
  | Err e => Err e
  | Panic p => Panic p
  end.

(** Stateful code: the store is threaded through, and it is returned
    also when the call fails, because a Go function that returns an error
    has already made the writes that precede the error. *)
Definition M (S A : Type) : Type := S → outcome A * S.

#[global] Instance M_ret {S} : MRet (M S) := λ A a s, (Ok a, s).
#[global] Instance M_bind {S} : MBind (M S) := λ A B f m s,
  match m s with
  | (Ok a, s') => f a s'
  | (Err e, s') => (Err e, s')
  | (Panic p, s') => (Panic p, s')
  end.

Section MonadOps.
Context {S A : Type}.

(** A call of pure code that may fail. *)
Definition lift (o : outcome A) : M S A := λ s, (o, s).

(** Read from, and write to, the store. *)
Definition gets (f : S → A) : M S A := λ s, (Ok (f s), s).
Definition modify (f : S → S) : M S unit := λ s, (Ok tt, f s).

(** [return err] and [panic]. *)
Definition fail (name : string) : M S A := λ s, (Err (E name), s).
Definition panic (msg : string) : M S A := λ s, (Panic msg, s).

(** [if err != nil { return ErrX(err) }] after a call. *)
Definition wrapErr (name : string) (m : M S A) : M S A := λ s,
  match m s with
  | (Err e, s') => (Err (Wrap name e), s')
  | r => r
  end.
End MonadOps.

(** [if cond { return ErrX }] and [if cond { panic(msg) }]. *)
Definition guard_not {S} (cond : bool) (name : string) : M S unit :=
  if cond then fail name else mret ().
Definition panic_if {S} (cond : bool) (msg : string) : M S unit :=
  if cond then panic msg else mret ().

(** A call of another keeper, whose store is a part of this one. *)
Definition zoom {W S A} (get : W → S) (set : S → W → W) (m : M S A) : M W A := λ w,
  let '(o, s) := m (get w) in (o, set s w).

(** The code returns normally, with a value that has the property. *)
Definition returns {A} (o : outcome A) (P : A → Prop) : Prop :=
  match o with Ok a => P a | _ => False end.
Definition is_ok {A} (o : outcome A) : bool :=
  match o with Ok _ => true | _ => false end.
Definition is_panic {A} (o : outcome A) : bool :=
  match o with Panic _ => true | _ => false end.

(** ** Inversion of successful runs *)

Section Inversion.
Context {S A B : Type}.

Lemma outcome_bind_Ok (m : outcome A) (f : A → outcome B) b :
  m ≫= f = Ok b ↔ ∃ a, m = Ok a ∧ f a = Ok b.
Proof. destruct m; cbn; naive_solver. Qed.

Lemma M_bind_Ok (m : M S A) (f : A → M S B) b s s' :
  (m ≫= f) s = (Ok b, s') ↔ ∃ a s1, m s = (Ok a, s1) ∧ f a s1 = (Ok b, s').
Proof.
  unfold mbind, M_bind. destruct (m s) as [[a|e|p] s1]; naive_solver.
Qed.

Lemma M_bind_Err (m : M S A) (f : A → M S B) e s s' :
  (m ≫= f) s = (Err e, s') →
  m s = (Err e, s') ∨ ∃ a s1, m s = (Ok a, s1) ∧ f a s1 = (Err e, s').
Proof. unfold mbind, M_bind. destruct (m s) as [[a|x|p] s1]; naive_solver. Qed.

Lemma M_bind_run (m : M S A) (f : A → M S B) a s s1 :
  m s = (Ok a, s1) → (m ≫= f) s = f a s1.
Proof. intros H. unfold mbind, M_bind. by rewrite H. Qed.

Lemma lift_Ok (o : outcome A) a (s s' : S) :
  lift o s = (Ok a, s') ↔ o = Ok a ∧ s' = s.
Proof. unfold lift. naive_solver. Qed.

Lemma wrapErr_Ok name (m : M S A) a s s' :
  wrapErr name m s = (Ok a, s') ↔ m s = (Ok a, s').
Proof. unfold wrapErr. destruct (m s) as [[?|?|?] ?]; naive_solver. Qed.

Lemma gets_Ok (f : S → A) a s s' : gets f s = (Ok a, s') ↔ a = f s ∧ s' = s.
Proof. unfold gets. naive_solver. Qed.

Lemma modify_Ok (f : S → S) u s s' : modify f s = (Ok u, s') ↔ s' = f s.
Proof. unfold modify. destruct u. naive_solver. Qed.

Lemma mret_Ok (a a' : A) (s s' : S) :
  (mret a : M S A) s = (Ok a', s') ↔ a' = a ∧ s' = s.
Proof. unfold mret, M_ret. naive_solver. Qed.

Lemma mret_outcome_Ok (a a' : A) : (mret a : outcome A) = Ok a' ↔ a' = a.
Proof. unfold mret, outcome_ret. naive_solver. Qed.

Lemma fail_Ok name (a : A) (s s' : S) : fail name s = (Ok a, s') ↔ False.
Proof. unfold fail. naive_solver. Qed.

Lemma panic_Ok msg (a : A) (s s' : S) : panic msg s = (Ok a, s') ↔ False.
Proof. unfold panic. naive_solver. Qed.

Lemma guard_not_Ok c name u (s s' : S) :
  guard_not c name s = (Ok u, s') ↔ c = false ∧ s' = s.
Proof.
  destruct c, u; cbn; unfold fail, mret, M_ret; split; intros; destruct_and?; by simplify_eq.
Qed.

Lemma panic_if_Ok c msg u (s s' : S) :
  panic_if c msg s = (Ok u, s') ↔ c = false ∧ s' = s.
Proof.
  destruct c, u; cbn; unfold panic, mret, M_ret; split; intros; destruct_and?; by simplify_eq.
Qed.

Lemma zoom_Ok {W} (get : W → S) (set : S → W → W) (m : M S A) a w w' :
  zoom get set m w = (Ok a, w') ↔ ∃ s', m (get w) = (Ok a, s') ∧ w' = set s' w.
Proof. unfold zoom. destruct (m (get w)) as [o s]. naive_solver. Qed.
End Inversion.

(** Decompose a hypothesis that a composed call returned normally into the
    results of its parts. *)
Ltac inv_ok_step H :=
  lazymatch type of H with
  | (_ ≫= _) = Ok _ => apply outcome_bind_Ok in H as (? & ? & H); cbn beta in H
  | (_ ≫= _) _ = (Ok _, _) =>
      apply M_bind_Ok in H as (? & ? & ? & H); cbn beta in H
  | lift _ _ = (Ok _, _) => apply lift_Ok in H as [H ->]
  | wrapErr _ _ _ = (Ok _, _) => apply wrapErr_Ok in H
  | gets _ _ = (Ok _, _) => apply gets_Ok in H as [-> ->]
  | modify _ _ = (Ok _, _) => apply modify_Ok in H; subst
  | mret _ _ = (Ok _, _) => apply mret_Ok in H as [-> ->]
  | mret _ = Ok _ => apply mret_outcome_Ok in H as ->
  | fail _ _ = (Ok _, _) => apply fail_Ok in H as []
  | panic _ _ = (Ok _, _) => apply panic_Ok in H as []
  | guard_not _ _ _ = (Ok _, _) => apply guard_not_Ok in H as [H ->]
  | panic_if _ _ _ = (Ok _, _) => apply panic_if_Ok in H as [H ->]
  | zoom _ _ _ _ = (Ok _, _) => apply zoom_Ok in H as (? & H & ->)
  | Ok _ = Ok _ => injection H as H; subst
  | (Ok _, _) = (Ok _, _) => injection H as H; subst
  | Err _ = Ok _ => discriminate H
  | Panic _ = Ok _ => discriminate H
  | (Err _, _) = (Ok _, _) => discriminate H
  | (Panic _, _) = (Ok _, _) => discriminate H
  | (if ?c then _ else _) _ = (Ok _, _) => destruct c eqn:?
  | (if ?c then _ else _) = (Ok _, _) => destruct c eqn:?
  | (if ?c then _ else _) = Ok _ => destruct c eqn:?
  | match ?c with _ => _ end _ = (Ok _, _) => destruct c eqn:?
  | match ?c with _ => _ end = Ok _ => destruct c eqn:?
  | match ?c with _ => _ end = (Ok _, _) => destruct c eqn:?
  end.

Ltac inv_ok := repeat match goal with H : _ |- _ => inv_ok_step H end.

(** ** Loops *)

(** [for _, a := range l { ... }], where an error ends the loop. *)
Fixpoint for_each {S A} (f : A → M S unit) (l : list A) : M S unit :=
  match l with
  | [] => mret ()
  | a :: l => _ ← f a; for_each f l
  end.

Lemma for_each_inv {S A} (P : S → Prop) (f : A → M S unit) l s u s' :
  (∀ a s u s', a ∈ l → P s → f a s = (Ok u, s') → P s') →
  P s → for_each f l s = (Ok u, s') → P s'.
Proof.
  revert s. induction l as [|a l IH]; intros s Hf HP; cbn [for_each].
  - by intros [_ ->]%mret_Ok.
  - intros (u1 & s1 & H1 & H)%M_bind_Ok. apply IH in H; [done| |].
    + intros b t u2 t' Hb. apply Hf. by apply list_elem_of_further.
    + eapply Hf; [apply list_elem_of_here|done|exact H1].
Qed.

(** A loop whose body is related by [R] to its start and establishes [Q] for
    its element, where [Q] survives [R]. *)
Lemma for_each_each {S A} (R : S → S → Prop) (I : S → Prop) (Q : A → S → Prop) (f : A → M S unit) l s u s' :
  (∀ s, I s → R s s) → (∀ s1 s2 s3, R s1 s2 → R s2 s3 → R s1 s3) → (∀ s1 s2, R s1 s2 → I s2) →
  (∀ a s1 s2, Q a s1 → R s1 s2 → Q a s2) →
  (∀ a s u s', a ∈ l → I s → f a s = (Ok u, s') → R s s' ∧ Q a s') →
  I s → for_each f l s = (Ok u, s') → R s s' ∧ ∀ a, a ∈ l → Q a s'.
Proof.
  intros Hrefl Htrans HI HQ. revert s. induction l as [|a l IH]; intros s Hf Hs; cbn [for_each].
  - intros [_ ->]%mret_Ok. split; [auto|]. by intros a ?%not_elem_of_nil.
  - intros (u1 & s1 & H1 & H)%M_bind_Ok. apply Hf in H1 as [HR Hq]; [|apply list_elem_of_here|done].
    apply IH in H as [HR' Hl]; [| |by eapply HI].
    + split; [by eapply Htrans|]. intros b [->|Hb]%elem_of_cons; eauto.
    + intros b t u2 t' Hb. apply Hf. by apply list_elem_of_further.
Qed.

(** ** Frames *)

Section Frames.
Context {W : Type} (R : relation W) `{!PreOrder R}.

(** Whatever a computation returns, the states before and after are
    related. *)
Definition frames {A} (m : M W A) : Prop := ∀ s, R s (m s).2.

Lemma frames_bind {A B} (m : M W A) (f : A → M W B) :
  frames m → (∀ a, frames (f a)) → frames (m ≫= f).
Proof.
  intros Hm Hf s. specialize (Hm s). unfold mbind, M_bind.
  destruct (m s) as [[a|e|p] s1]; [|done..]. cbn in Hm. transitivity s1; [done|]. apply Hf.
Qed.
Lemma frames_mret {A} (a : A) : frames (mret a).
Proof. intros s. by cbn. Qed.
Lemma frames_lift {A} (o : outcome A) : frames (lift o).
Proof. intros s. by cbn. Qed.
Lemma frames_gets {A} (f : W → A) : frames (gets f).
Proof. intros s. by cbn. Qed.
Lemma frames_fail {A} name : frames (fail (A := A) name).
Proof. intros s. by cbn. Qed.
Lemma frames_panic {A} name : frames (panic (A := A) name).
Proof. intros s. by cbn. Qed.
Lemma frames_guard c name : frames (guard_not c name).
Proof. intros s. by destruct c. Qed.
Lemma frames_wrapErr {A} name (m : M W A) : frames m → frames (wrapErr name m).
Proof. intros H s. specialize (H s). unfold wrapErr. by destruct (m s) as [[?|?|?] ?]. Qed.
Lemma frames_modify f : (∀ s, R s (f s)) → frames (modify f).
Proof. intros H s. apply H. Qed.
Lemma frames_for_each {A} (f : A → M W unit) l : (∀ a, frames (f a)) → frames (for_each f l).
Proof.
  intros Hf. induction l as [|a l IH]; cbn [for_each]; [apply frames_mret|].
  apply frames_bind; [done|by intros _].
Qed.
Lemma frames_run {A} (m : M W A) s r s' : frames m → m s = (r, s') → R s s'.
Proof. intros H E. specialize (H s). by rewrite E in H. Qed.

End Frames.

Create HintDb frames.
#[export] Hint Resolve frames_mret frames_lift frames_gets frames_fail frames_panic frames_guard : frames.

Ltac frame_step :=
  lazymatch goal with
  | |- frames _ (_ ≫= _) => apply frames_bind; [try exact _| |intros ?]
  | |- frames _ (wrapErr _ _) => apply frames_wrapErr
  | |- frames _ (if ?c then _ else _) => destruct c
  | |- frames _ (match ?c with _ => _ end) => destruct c
  | |- frames _ _ => by eauto with frames typeclass_instances
  end.
Ltac frame_tac := repeat frame_step.

(** Booleans of the code to propositions. *)
Ltac bool_prop :=
  repeat match goal with
  | H : andb _ _ = true |- _ => apply andb_true_iff in H as [? ?]
  | H : orb _ _ = false |- _ => apply orb_false_iff in H as [? ?]
  | H : negb _ = true |- _ => apply negb_true_iff in H
  | H : negb _ = false |- _ => apply negb_false_iff in H
  | H : Is_true _ |- _ => apply Is_true_true in H
  | H : bool_decide _ = true |- _ => apply bool_decide_eq_true in H
  | H : bool_decide _ = false |- _ => apply bool_decide_eq_false in H
  | H : Z.eqb _ _ = true |- _ => apply Z.eqb_eq in H
  | H : Z.eqb _ _ = false |- _ => apply Z.eqb_neq in H
  | H : Z.ltb _ _ = true |- _ => apply Z.ltb_lt in H
  | H : Z.ltb _ _ = false |- _ => apply Z.ltb_ge in H
  | H : Z.leb _ _ = true |- _ => apply Z.leb_le in H
  | H : Z.leb _ _ = false |- _ => apply Z.leb_gt in H
  | H : Z.gtb _ _ = _ |- _ => rewrite Z.gtb_ltb in H
  | H : Z.geb _ _ = _ |- _ => rewrite Z.geb_leb in H
  end.

(** * Strings in Go's byte order *)

Definition str_lt (a b : string) : Prop := String.ltb a b = true.

#[global] Instance str_lt_dec a b : Decision (str_lt a b).
Proof. unfold str_lt. apply _. Defined.

Section StringOrder.
Lemma str_lt_cmp a b : str_lt a b ↔ String.compare a b = Lt.
Proof. unfold str_lt, String.ltb. destruct (String.compare a b); naive_solver. Qed.

Lemma str_compare_refl a : String.compare a a = Eq.
Proof.
  destruct (String.compare a a) eqn:H; [done|exfalso..];
    pose proof (String.compare_antisym a a) as H'; rewrite H in H'; done.
Qed.

Lemma str_compare_Eq a b : String.compare a b = Eq ↔ a = b.
Proof. split; [apply String.compare_eq_iff|intros ->; apply str_compare_refl]. Qed.

Lemma str_compare_Gt a b : String.compare a b = Gt ↔ str_lt b a.
Proof.
  rewrite str_lt_cmp, (String.compare_antisym a b).
  destruct (String.compare b a); naive_solver.
Qed.

Lemma str_lt_irrefl a : ¬ str_lt a a.
Proof. rewrite str_lt_cmp, str_compare_refl. done. Qed.

Lemma str_lt_trans a b c : str_lt a b → str_lt b c → str_lt a c.
Proof.
  rewrite !str_lt_cmp. intros H1 H2.
  apply String_as_OT.cmp_lt in H1, H2. apply String_as_OT.cmp_lt.
  eapply String_as_OT.lt_trans; eauto.
Qed.

Lemma str_lt_ne a b : str_lt a b → a ≠ b.
Proof. intros H ->. by apply str_lt_irrefl in H. Qed.

Lemma str_lt_asym a b : str_lt a b → ¬ str_lt b a.
Proof. intros H1 H2. eapply str_lt_irrefl, str_lt_trans; eauto. Qed.

Lemma str_lt_total a b : str_lt a b ∨ a = b ∨ str_lt b a.
Proof.
  destruct (String.compare a b) eqn:H.
  - right; left. by apply str_compare_Eq.
  - left. by apply str_lt_cmp.
  - right; right. by apply str_compare_Gt.
Qed.
End StringOrder.

#[global] Instance str_lt_transitive : Transitive str_lt.
Proof. intros a b c. apply str_lt_trans. Qed.

(** * Sums over finite maps *)

Section MapSum.
Context {K : Type} `{Countable K} {V : Type} (f : V → Z).

(** The sum of [f] over the values of a store. *)
Definition map_sum (m : gmap K V) : Z := map_fold (λ _ v acc, f v + acc) 0 m.

(** What a key contributes to the sum. *)
Definition at_key (o : option V) : Z := match o with Some v => f v | None => 0 end.

Lemma map_sum_empty : map_sum ∅ = 0.
Proof. apply map_fold_empty. Qed.

Lemma map_sum_fresh m k v : m !! k = None → map_sum (<[k:=v]> m) = f v + map_sum m.
Proof. intros Hk. unfold map_sum. rewrite map_fold_insert_L; [done|lia|done]. Qed.

Lemma map_sum_delete m k : map_sum (delete k m) = map_sum m - at_key (m !! k).
Proof.
  destruct (m !! k) as [v|] eqn:Hk; cbn.
  - rewrite <- (insert_delete_id m k v) at 2 by done.
    rewrite map_sum_fresh by apply lookup_delete_eq. lia.
  - rewrite delete_id by done. lia.
Qed.

Lemma map_sum_insert m k v :
  map_sum (<[k:=v]> m) = map_sum m - at_key (m !! k) + f v.
Proof.
  rewrite <- insert_delete_eq, map_sum_fresh by apply lookup_delete_eq.
  rewrite map_sum_delete. lia.
Qed.

Lemma map_sum_singleton k v : map_sum {[ k := v ]} = f v.
Proof. rewrite <- insert_empty, map_sum_fresh, map_sum_empty by apply lookup_empty. lia. Qed.

Lemma map_sum_nonneg m : (∀ k v, m !! k = Some v → 0 ≤ f v) → 0 ≤ map_sum m.
Proof.
  induction m as [|k v m Hk IH] using map_ind; intros Hall.
  - rewrite map_sum_empty. lia.
  - rewrite map_sum_fresh by done.
    assert (0 ≤ f v) by (eapply (Hall k); apply lookup_insert_eq).
    assert (0 ≤ map_sum m); [|lia].
    apply IH. intros k' v' Hk'. apply (Hall k').
    rewrite lookup_insert_ne; [done|]. naive_solver.
Qed.

Lemma map_sum_ge m k v :
  (∀ k v, m !! k = Some v → 0 ≤ f v) → m !! k = Some v → f v ≤ map_sum m.
Proof.
  intros Hall Hk. rewrite <- (insert_delete_id m k v) by done.
  rewrite map_sum_fresh by apply lookup_delete_eq.
  assert (0 ≤ map_sum (delete k m)); [|lia].
  apply map_sum_nonneg. intros k' v' Hk'. apply (Hall k').
  apply lookup_delete_Some in Hk'. naive_solver.
Qed.
End MapSum.

Lemma map_sum_ext {K} `{Countable K} {V} (f g : V → Z) (m : gmap K V) :
  (∀ k v, m !! k = Some v → f v = g v) → map_sum f m = map_sum g m.
Proof.
  induction m as [|k v m Hk IH] using map_ind; intros Hall; [done|].
  rewrite !map_sum_fresh by done. f_equal.
  - apply (Hall k), lookup_insert_eq.
  - apply IH. intros k' v' Hk'. apply (Hall k').
    rewrite lookup_insert_ne; [done|]. naive_solver.
Qed.

Lemma map_sum_le {K} `{Countable K} {V} (f g : V → Z) (m : gmap K V) :
  (∀ k v, m !! k = Some v → f v ≤ g v) → map_sum f m ≤ map_sum g m.
Proof.
  induction m as [|k v m Hk IH] using map_ind; intros Hle; [done|]. rewrite !map_sum_fresh by done.
  apply Z.add_le_mono; [apply (Hle k), lookup_insert_eq|]. apply IH. intros k' v' Hk'. apply (Hle k').
  rewrite lookup_insert_ne; [done|congruence].
Qed.
Lemma map_sum_add {K} `{Countable K} {V} (f g : V → Z) (m : gmap K V) :
  map_sum (λ v, f v + g v) m = map_sum f m + map_sum g m.
Proof.
  induction m as [|k v m Hk IH] using map_ind; [done|]. rewrite !map_sum_fresh by done. lia.
Qed.
Lemma map_sum_scale {K} `{Countable K} {V} (f : V → Z) c (m : gmap K V) :
  map_sum (λ v, f v * c) m = map_sum f m * c.
Proof.
  induction m as [|k v m Hk IH] using map_ind; [by rewrite !map_sum_empty|].
  rewrite !map_sum_fresh by done. lia.
Qed.

(** Sums whose terms depend on the key: those over a store in which every
    value has its key beside it. *)
Section KeySum.
Context {K : Type} `{Countable K} {V : Type}.
Implicit Types (f g : K → V → Z) (m : gmap K V).

Definition keyed m : gmap K (K * V) := map_imap (λ k v, Some (k, v)) m.
Definition key_sum f m : Z := map_sum (λ x, f x.1 x.2) (keyed m).
Definition at_pair f (k : K) (o : option V) : Z := match o with Some v => f k v | None => 0 end.

Lemma lookup_keyed m k x : keyed m !! k = Some x ↔ x.1 = k ∧ m !! k = Some x.2.
Proof. destruct x. unfold keyed. rewrite map_lookup_imap. destruct (m !! k); naive_solver. Qed.
Lemma at_keyed f m k : at_key (λ x, f x.1 x.2) (keyed m !! k) = at_pair f k (m !! k).
Proof. unfold keyed. rewrite map_lookup_imap. by destruct (m !! k). Qed.

Lemma key_sum_empty f : key_sum f ∅ = 0.
Proof. done. Qed.
Lemma key_sum_insert f m k v : key_sum f (<[k := v]> m) = key_sum f m - at_pair f k (m !! k) + f k v.
Proof.
  unfold key_sum. replace (keyed (<[k := v]> m)) with (<[k := (k, v)]> (keyed m)).
  - by rewrite map_sum_insert, at_keyed.
  - symmetry. unfold keyed. by apply map_imap_insert_Some.
Qed.
Lemma key_sum_delete f m k : key_sum f (delete k m) = key_sum f m - at_pair f k (m !! k).
Proof.
  unfold key_sum. replace (keyed (delete k m)) with (delete k (keyed m)).
  - by rewrite map_sum_delete, at_keyed.
  - symmetry. apply map_imap_delete.
Qed.
Lemma key_sum_ext f g m : (∀ k v, m !! k = Some v → f k v = g k v) → key_sum f m = key_sum g m.
Proof. intros Hfg. apply map_sum_ext. intros k x [<- Hx]%lookup_keyed. auto. Qed.
Lemma key_sum_le f g m : (∀ k v, m !! k = Some v → f k v ≤ g k v) → key_sum f m ≤ key_sum g m.
Proof. intros Hfg. apply map_sum_le. intros k x [<- Hx]%lookup_keyed. auto. Qed.
Lemma key_sum_nonneg f m : (∀ k v, m !! k = Some v → 0 ≤ f k v) → 0 ≤ key_sum f m.
Proof. intros Hf. apply map_sum_nonneg. intros k x [<- Hx]%lookup_keyed. auto. Qed.
Lemma key_sum_ge f m k v : (∀ k v, m !! k = Some v → 0 ≤ f k v) → m !! k = Some v → f k v ≤ key_sum f m.
Proof.
  intros Hf Hk. apply (map_sum_ge (λ x, f x.1 x.2) (keyed m) k (k, v)).
  - intros k' x [<- Hx]%lookup_keyed. auto.
  - by apply lookup_keyed.
Qed.
Lemma key_sum_add f g m : key_sum (λ k v, f k v + g k v) m = key_sum f m + key_sum g m.
Proof. unfold key_sum. by rewrite <- map_sum_add. Qed.
Lemma key_sum_scale f c m : key_sum (λ k v, f k v * c) m = key_sum f m * c.
Proof. unfold key_sum. by rewrite <- map_sum_scale. Qed.
End KeySum.

(** * Sums over lists *)

Definition sum_over {A} (f : A → Z) (l : list A) : Z := foldr (λ x acc, f x + acc) 0 l.

Section ListSum.
Context {A : Type}.
Implicit Types (f h : A → Z) (l : list A).

Lemma sum_over_cons f x l : sum_over f (x :: l) = f x + sum_over f l.
Proof. done. Qed.
Lemma sum_over_app f l1 l2 : sum_over f (l1 ++ l2) = sum_over f l1 + sum_over f l2.
Proof. induction l1 as [|x l1 IH]; [done|]. cbn [app]. rewrite !sum_over_cons. lia. Qed.
Lemma sum_over_perm f l1 l2 : l1 ≡ₚ l2 → sum_over f l1 = sum_over f l2.
Proof. induction 1; rewrite ?sum_over_cons; lia. Qed.
Lemma sum_over_ext f h l : (∀ x, x ∈ l → f x = h x) → sum_over f l = sum_over h l.
Proof.
  induction l as [|x l IH]; intros Hf; [done|]. rewrite !sum_over_cons.
  rewrite IH by (intros; apply Hf; by right). by rewrite (Hf x) by left.
Qed.
Lemma sum_over_add f h l : sum_over (λ x, f x + h x) l = sum_over f l + sum_over h l.
Proof. induction l as [|x l IH]; [done|]. rewrite !sum_over_cons. lia. Qed.
Lemma sum_over_le f h l : (∀ x, x ∈ l → f x ≤ h x) → sum_over f l ≤ sum_over h l.
Proof.
  induction l as [|x l IH]; intros Hf; [done|]. rewrite !sum_over_cons.
  apply Z.add_le_mono; [apply Hf; by left|]. apply IH. intros; apply Hf; by right.
Qed.
Lemma sum_over_zero f l : (∀ x, x ∈ l → f x = 0) → sum_over f l = 0.
Proof.
  induction l as [|x l IH]; intros Hf; [done|]. rewrite sum_over_cons, (Hf x), IH; [done| |by left].
  intros; apply Hf; by right.
Qed.
Lemma sum_over_nonneg f l : (∀ x, x ∈ l → 0 ≤ f x) → 0 ≤ sum_over f l.
Proof. intros Hf. rewrite <- (sum_over_zero (λ _, 0) l) by done. by apply sum_over_le. Qed.
Lemma sum_over_ge f l x : (∀ y, y ∈ l → 0 ≤ f y) → x ∈ l → f x ≤ sum_over f l.
Proof.
  intros Hf [l1 [l2 ->]]%list_elem_of_split. rewrite sum_over_app, sum_over_cons.
  assert (0 ≤ sum_over f l1) by (apply sum_over_nonneg; intros; apply Hf, elem_of_app; by left).
  assert (0 ≤ sum_over f l2) by (apply sum_over_nonneg; intros; apply Hf, elem_of_app; right; by right). lia.
Qed.
End ListSum.

Lemma sum_over_swap {A B} (g : A → B → Z) (l : list A) (m : list B) :
  sum_over (λ x, sum_over (g x) m) l = sum_over (λ y, sum_over (λ x, g x y) l) m.
Proof.
  induction l as [|x l IH]; [symmetry; by apply sum_over_zero|].
  rewrite sum_over_cons, IH, <- sum_over_add. done.
Qed.

Lemma sum_over_fmap {A B} (f : B → Z) (g : A → B) l : sum_over f (g <$> l) = sum_over (λ x, f (g x)) l.
Proof. induction l as [|x l IH]; [done|]. rewrite fmap_cons, !sum_over_cons. by rewrite IH. Qed.

Lemma map_sum_list {K} `{Countable K} {V} (f : V → Z) (m : gmap K V) :
  map_sum f m = sum_over (λ x, f x.2) (map_to_list m).
Proof. unfold map_sum. rewrite map_fold_foldr. induction (map_to_list m) as [|[k v] l IH]; [done|]. cbn. by rewrite IH. Qed.

(** What distinct keys contribute to the sum over a store. *)
Lemma sum_over_keys {V} (f : V → Z) (m : gmap string V) (l : list string) :
  (∀ k v, m !! k = Some v → 0 ≤ f v) → NoDup l → sum_over (λ k, at_key f (m !! k)) l ≤ map_sum f m.
Proof.
  revert m. induction l as [|k l IH]; intros m Hf Hd; [by apply map_sum_nonneg|].
  rewrite sum_over_cons. inversion Hd as [|? ? Hn Hd']; subst.
  specialize (IH (delete k m)). rewrite map_sum_delete in IH.
  rewrite (sum_over_ext _ (λ k', at_key f (delete k m !! k'))).
  - cut (sum_over (λ k', at_key f (delete k m !! k')) l ≤ map_sum f m - at_key f (m !! k)); [lia|].
    apply IH; [|done]. intros k' v [_ Hv]%lookup_delete_Some. eauto.
  - intros x Hx. rewrite lookup_delete_ne; [done|]. by intros ->.
Qed.

(** * Truncated division *)

Section Division.
Lemma quot_bounds a b : 0 ≤ a → 0 < b → 0 ≤ a - Z.quot a b * b < b.
Proof.
  intros. pose proof (Z.quot_rem' a b). pose proof (Z.rem_bound_pos a b). nia.
Qed.

Lemma quot_nonneg a b : 0 ≤ a → 0 < b → 0 ≤ Z.quot a b.
Proof. intros. apply Z.quot_pos; lia. Qed.

Lemma quot_quot a b c : 0 ≤ a → 0 < b → 0 < c → Z.quot (Z.quot a b) c = Z.quot a (b * c).
Proof. intros. apply Z.quot_quot; lia. Qed.

Lemma quot_unique_pos a b q : 0 ≤ a → 0 < b → q * b ≤ a < q * b + b → Z.quot a b = q.
Proof. intros. symmetry. apply Z.quot_unique with (a - q * b); lia. Qed.
End Division.
