(* ===== verification/Decimal.v ===== *)
(** * Fixed-point decimals and bounded integers

    [libs/cosmos-sdk/types/int.go] and [libs/cosmos-sdk/types/decimal.go]:
    [sdk.Int] is a [big.Int] bounded to 255 bits and [sdk.Dec] a [big.Int]
    that stands for its value divided by 10^18, bounded to 315 bits by the
    operations that check.  Both are integers here; an operation that can
    panic returns an [outcome].  The nil [Dec] of Go (a [Dec] whose pointer
    was never set) is not a value of the model. *)
From S2P Require Import Prelude.

(** Arbitrary-precision integers, as [math/big] has them. *)
Abbreviation Int := Z (only parsing).
Abbreviation Dec := Z (only parsing).

Definition BitLen (x : Z) : Z := if x =? 0 then 0 else Z.log2 (Z.abs x) + 1.
Definition IsInt64 (x : Z) : bool := (-(2^63) <=? x) && (x <? 2^63).
Definition IsUint64 (x : Z) : bool := (0 <=? x) && (x <? 2^64).

(** [big.Int.Quo]: truncated, panics on a zero divisor. *)
Definition big_Quo (x y : Z) : outcome Z :=
  if y =? 0 then Panic "division by zero" else Ok (Z.quot x y).

(** ** sdk.Int *)

Definition maxBitLen : Z := 255.

Definition NewIntFromBigInt (i : Z) : outcome Int :=
  if BitLen i >? maxBitLen then Panic "NewIntFromBigInt() out of bound" else Ok i.

Definition NewIntWithDecimal (n dec : Z) : outcome Int :=
  if dec <? 0 then Panic "NewIntWithDecimal() decimal is negative" else
  let i := n * 10 ^ dec in
  if BitLen i >? maxBitLen then Panic "NewIntWithDecimal() out of bound" else Ok i.

Definition Int_Int64 (i : Int) : outcome Z :=
  if IsInt64 i then Ok i else Panic "Int64() out of bound".
Definition Int_Uint64 (i : Int) : outcome Z :=
  if IsUint64 i then Ok i else Panic "Uint64() out of bounds".

Definition Int_IsNegative (i : Int) : bool := Z.sgn i =? -1.

Definition Int_Add (i i2 : Int) : outcome Int :=
  let res := i + i2 in
  if BitLen res >? maxBitLen then Panic "Int overflow" else Ok res.

Definition Int_Sub (i i2 : Int) : outcome Int :=
  let res := i - i2 in
  if BitLen res >? maxBitLen then Panic "Int overflow" else Ok res.

Definition Int_Mul (i i2 : Int) : outcome Int :=
  if BitLen i + BitLen i2 - 1 >? maxBitLen then Panic "Int overflow" else
  let res := i * i2 in
  if BitLen res >? maxBitLen then Panic "Int overflow" else Ok res.

Definition Int_Quo (i i2 : Int) : outcome Int :=
  if Z.sgn i2 =? 0 then Panic "Division by zero" else Ok (Z.quot i i2).

(** [big.Int.Mod] is the Euclidean remainder. *)
Definition Int_Mod (i i2 : Int) : outcome Int :=
  if Z.sgn i2 =? 0 then Panic "division-by-zero" else Ok (i mod Z.abs i2).

Definition Int_Neg (i : Int) : Int := - i.

Definition MinInt (i1 i2 : Int) : Int := if i1 >? i2 then i2 else i1.
Definition MaxInt (i i2 : Int) : Int := if i <? i2 then i2 else i.

(** ** sdk.Dec *)

Definition Precision : Z := 18.
Definition DecimalPrecisionBits : Z := 60.
Definition maxApproxRootIterations : nat := 100.
Definition precisionReuse : Z := 10 ^ 18.
Definition fivePrecision : Z := Z.quot precisionReuse 2.

Definition ZeroDec : Dec := 0.
Definition OneDec : Dec := precisionReuse.
Definition SmallestDec : Dec := 1.

(** The table [precisionMultipliers] has the indices 0..18; any other
    index is refused, by the explicit check or by Go's bounds check. *)
Definition precisionMultiplier (prec : Z) : outcome Z :=
  if prec >? Precision then Panic "too much precision"
  else if prec <? 0 then Panic "index out of range"
  else Ok (10 ^ (Precision - prec)).

Definition NewDecWithPrec (i prec : Z) : outcome Dec :=
  m ← precisionMultiplier prec; Ok (i * m).
Definition NewDec (i : Z) : outcome Dec := NewDecWithPrec i 0.
Definition NewDecFromBigIntWithPrec (i prec : Z) : outcome Dec :=
  m ← precisionMultiplier prec; Ok (i * m).
Definition NewDecFromBigInt (i : Z) : outcome Dec := NewDecFromBigIntWithPrec i 0.
Definition NewDecFromIntWithPrec (i : Int) (prec : Z) : outcome Dec :=
  m ← precisionMultiplier prec; Ok (i * m).
Definition NewDecFromInt (i : Int) : outcome Dec := NewDecFromIntWithPrec i 0.
Definition Int_ToDec (i : Int) : outcome Dec := NewDecFromInt i.

Definition Dec_IsZero (d : Dec) : bool := Z.sgn d =? 0.
Definition Dec_IsNegative (d : Dec) : bool := Z.sgn d =? -1.
Definition Dec_IsPositive (d : Dec) : bool := Z.sgn d =? 1.
Definition Dec_Equal (d d2 : Dec) : bool := d =? d2.
Definition Dec_GT (d d2 : Dec) : bool := d >? d2.
Definition Dec_GTE (d d2 : Dec) : bool := d >=? d2.
Definition Dec_LT (d d2 : Dec) : bool := d <? d2.
Definition Dec_LTE (d d2 : Dec) : bool := d <=? d2.
Definition Dec_Neg (d : Dec) : Dec := - d.
Definition Dec_Abs (d : Dec) : Dec := Z.abs d.

(** The range check that ends every checked operation. *)
Definition checkDec (res : Z) : outcome Dec :=
  if BitLen res >? 255 + DecimalPrecisionBits then Panic "Int overflow" else Ok res.

(** Bankers' rounding of the digits below the unit. *)
Definition chopPrecisionAndRound_nonneg (d : Z) : Z :=
  let quo := Z.quot d precisionReuse in
  let rem := Z.rem d precisionReuse in
  if Z.sgn rem =? 0 then quo else
  match rem ?= fivePrecision with
  | Lt => quo
  | Gt => quo + 1
  | Eq => if Z.testbit quo 0 then quo + 1 else quo
  end.
Definition chopPrecisionAndRound (d : Z) : Z :=
  if Z.sgn d =? -1 then - chopPrecisionAndRound_nonneg (- d)
  else chopPrecisionAndRound_nonneg d.

Definition chopPrecisionAndTruncate (d : Z) : Z := Z.quot d precisionReuse.

Definition chopPrecisionAndRoundUp (d : Z) : Z :=
  if Z.sgn d =? -1 then - chopPrecisionAndTruncate (- d) else
  let quo := Z.quot d precisionReuse in
  let rem := Z.rem d precisionReuse in
  if Z.sgn rem =? 0 then quo else quo + 1.

Definition Dec_Add (d d2 : Dec) : outcome Dec := checkDec (d + d2).
Definition Dec_Sub (d d2 : Dec) : outcome Dec := checkDec (d - d2).
Definition Dec_Mul (d d2 : Dec) : outcome Dec := checkDec (chopPrecisionAndRound (d * d2)).
Definition Dec_MulTruncate (d d2 : Dec) : outcome Dec :=
  checkDec (chopPrecisionAndTruncate (d * d2)).
Definition Dec_MulInt (d : Dec) (i : Int) : outcome Dec := checkDec (d * i).
Definition Dec_MulInt64 (d : Dec) (i : Z) : outcome Dec := checkDec (d * i).

Definition Dec_Quo (d d2 : Dec) : outcome Dec :=
  quo ← big_Quo (d * precisionReuse * precisionReuse) d2;
  checkDec (chopPrecisionAndRound quo).
Definition Dec_QuoTruncate (d d2 : Dec) : outcome Dec :=
  quo ← big_Quo (d * precisionReuse * precisionReuse) d2;
  checkDec (chopPrecisionAndTruncate quo).
Definition Dec_QuoRoundUp (d d2 : Dec) : outcome Dec :=
  quo ← big_Quo (d * precisionReuse * precisionReuse) d2;
  checkDec (chopPrecisionAndRoundUp quo).
Definition Dec_QuoInt (d : Dec) (i : Int) : outcome Dec := big_Quo d i.
Definition Dec_QuoInt64 (d : Dec) (i : Z) : outcome Dec := big_Quo d i.

(** [Power]: the loop halves [i] until it is 1, so it recurses on the
    binary digits of the exponent. *)
Fixpoint Dec_Power_loop (i : positive) (d tmp : Dec) : outcome (Dec * Dec) :=
  match i with
  | xH => Ok (d, tmp)
  | xO i' => d' ← Dec_Mul d d; Dec_Power_loop i' d' tmp
  | xI i' => tmp' ← Dec_Mul tmp d; d' ← Dec_Mul d d; Dec_Power_loop i' d' tmp'
  end.
Definition Dec_Power (d : Dec) (power : N) : outcome Dec :=
  match power with
  | N0 => Ok OneDec
  | Npos i => '(d', tmp) ← Dec_Power_loop i d OneDec; Dec_Mul d' tmp
  end.

(** [ApproxRoot]: at most [maxApproxRootIterations] Newton steps; a panic
    inside the body is recovered into an error.  The [guess] Go returns next
    to that error is not part of the result here. *)
Fixpoint Dec_ApproxRoot_loop (iter : nat) (d : Dec) (root : N) (guess delta : Dec)
    : outcome Dec :=
  match iter with
  | O => Ok guess
  | S iter' =>
      if Dec_GT (Dec_Abs delta) SmallestDec then
        prev ← Dec_Power guess (root - 1);
        let prev := if Dec_IsZero prev then SmallestDec else prev in
        delta ← Dec_Quo d prev;
        delta ← Dec_Sub delta guess;
        delta ← Dec_QuoInt delta (Z.of_N root);
        guess ← Dec_Add guess delta;
        Dec_ApproxRoot_loop iter' d root guess delta
      else Ok guess
  end.
Definition recoverPanic {A} (o : outcome A) : outcome A :=
  match o with Panic _ => Err (E "out of bounds") | r => r end.
Definition Dec_ApproxRoot_nonneg (d : Dec) (root : N) : outcome Dec :=
  recoverPanic
    (if (root =? 1)%N || Dec_IsZero d || Dec_Equal d OneDec then Ok d
     else if (root =? 0)%N then Ok OneDec
     else Dec_ApproxRoot_loop maxApproxRootIterations d root OneDec OneDec).
Definition Dec_ApproxRoot (d : Dec) (root : N) : outcome Dec :=
  if Dec_IsNegative d then
    recoverPanic (d' ← Dec_MulInt64 d (-1);
                  absRoot ← Dec_ApproxRoot_nonneg d' root;
                  Dec_MulInt64 absRoot (-1))
  else Dec_ApproxRoot_nonneg d root.
Definition Dec_ApproxSqrt (d : Dec) : outcome Dec := Dec_ApproxRoot d 2.

Definition Dec_IsInteger (d : Dec) : bool := Z.sgn (Z.rem d precisionReuse) =? 0.

Definition Dec_RoundInt64 (d : Dec) : outcome Z :=
  let chopped := chopPrecisionAndRound d in
  if IsInt64 chopped then Ok chopped else Panic "Int64() out of bound".
Definition Dec_RoundInt (d : Dec) : outcome Int := NewIntFromBigInt (chopPrecisionAndRound d).
Definition Dec_TruncateInt64 (d : Dec) : outcome Z :=
  let chopped := chopPrecisionAndTruncate d in
  if IsInt64 chopped then Ok chopped else Panic "Int64() out of bound".
Definition Dec_TruncateInt (d : Dec) : outcome Int :=
  NewIntFromBigInt (chopPrecisionAndTruncate d).
Definition Dec_TruncateWithPrec (d : Dec) (prec : Z) : outcome Int :=
  one ← NewDecWithPrec 1 prec; q ← big_Quo d one; NewIntFromBigInt q.
Definition Dec_TruncateDec (d : Dec) : outcome Dec :=
  NewDecFromBigInt (chopPrecisionAndTruncate d).

Definition Dec_Ceil (d : Dec) : outcome Dec :=
  let quo := Z.quot d precisionReuse in
  let rem := Z.rem d precisionReuse in
  if rem =? 0 then NewDecFromBigInt quo
  else if Z.sgn rem =? -1 then NewDecFromBigInt quo
  else NewDecFromBigInt (quo + 1).

Fixpoint DecsEqual (d1s d2s : list Dec) : bool :=
  match d1s, d2s with
  | [], [] => true
  | d1 :: r1, d2 :: r2 => Dec_Equal d1 d2 && DecsEqual r1 r2
  | _, _ => false
  end.

Definition MinDec (d1 d2 : Dec) : Dec := if Dec_LT d1 d2 then d1 else d2.
Definition MaxDec (d1 d2 : Dec) : Dec := if Dec_LT d1 d2 then d2 else d1.

(** [aliase_coin_exchain.go]: rounding to a number of decimals. [big.Int.Exp]
    of a non-positive exponent is 1. *)
Definition big_Exp10 (p : Z) : Z := if p <=? 0 then 1 else 10 ^ p.
Definition Dec_RoundDecimal (d : Dec) (precision : Z) : outcome Dec :=
  precisionMul ← NewIntFromBigInt (big_Exp10 precision);
  x ← Dec_MulInt d precisionMul;
  r ← Dec_RoundInt x;
  y ← NewDecFromInt r;
  Dec_QuoInt y precisionMul.

(** [x/common/util.go]: [MulAndQuo] is [a * b / c] with 18 more digits kept
    in between. *)
Definition MulAndQuo (a b c : Dec) : outcome Dec :=
  auxiliaryDec ← NewDecFromBigInt (10 ^ Precision);
  a ← Dec_MulTruncate a auxiliaryDec;
  ab ← Dec_MulTruncate a b;
  q ← Dec_QuoTruncate ab c;
  Dec_QuoTruncate q auxiliaryDec.

(** ** Facts about the arithmetic *)

(** A value that every checked operation accepts. *)
Definition dec_fits (x : Z) : Prop := Z.abs x < 2 ^ 315.

(** [q] is [n / d] rounded to the nearest integer, ties to even. *)
Definition is_half_even (n d q : Z) : Prop :=
  2 * Z.abs (n - q * d) ≤ d ∧ (2 * Z.abs (n - q * d) = d → Z.even q = true).

Section DecFacts.
Lemma BitLen_le x n : 0 ≤ n → BitLen x ≤ n ↔ Z.abs x < 2 ^ n.
Proof.
  intros Hn. unfold BitLen. destruct (Z.eqb_spec x 0) as [->|Hx].
  - pose proof (Z.pow_pos_nonneg 2 n). lia.
  - rewrite Z.log2_lt_pow2 by lia. lia.
Qed.

Lemma checkDec_Ok x y : checkDec x = Ok y ↔ y = x ∧ dec_fits x.
Proof.
  unfold checkDec, dec_fits. change (255 + DecimalPrecisionBits) with 315.
  rewrite Z.gtb_ltb. pose proof (BitLen_le x 315).
  destruct (Z.ltb_spec 315 (BitLen x)); naive_solver lia.
Qed.

Lemma checkDec_fits x : dec_fits x → checkDec x = Ok x.
Proof. intros. by apply checkDec_Ok. Qed.

Lemma NewIntFromBigInt_Ok x y : NewIntFromBigInt x = Ok y ↔ y = x ∧ Z.abs x < 2 ^ 255.
Proof.
  unfold NewIntFromBigInt, maxBitLen. rewrite Z.gtb_ltb.
  pose proof (BitLen_le x 255). destruct (Z.ltb_spec 255 (BitLen x)); naive_solver lia.
Qed.

Lemma big_Quo_Ok x y q : big_Quo x y = Ok q ↔ y ≠ 0 ∧ q = Z.quot x y.
Proof. unfold big_Quo. destruct (Z.eqb_spec y 0); naive_solver. Qed.

Lemma NewDec_eq i : NewDec i = Ok (i * 10 ^ 18).
Proof. reflexivity. Qed.
Lemma NewDecFromBigInt_eq i : NewDecFromBigInt i = Ok (i * 10 ^ 18).
Proof. reflexivity. Qed.
Lemma NewDecFromInt_eq i : NewDecFromInt i = Ok (i * 10 ^ 18).
Proof. reflexivity. Qed.

Lemma Dec_Add_Ok a b c : Dec_Add a b = Ok c ↔ c = a + b ∧ dec_fits (a + b).
Proof. apply checkDec_Ok. Qed.
Lemma Dec_Sub_Ok a b c : Dec_Sub a b = Ok c ↔ c = a - b ∧ dec_fits (a - b).
Proof. apply checkDec_Ok. Qed.
Lemma Dec_MulTruncate_Ok a b c :
  Dec_MulTruncate a b = Ok c ↔
  c = Z.quot (a * b) precisionReuse ∧ dec_fits (Z.quot (a * b) precisionReuse).
Proof. apply checkDec_Ok. Qed.

(** The two-step truncation is the truncation of the exact quotient. *)
Lemma quot_twice a b :
  b ≠ 0 →
  Z.quot (Z.quot (a * precisionReuse * precisionReuse) b) precisionReuse
  = Z.quot (a * precisionReuse) b.
Proof.
  intros Hb. rewrite Z.quot_quot by (done || lia).
  rewrite Z.quot_mul_cancel_r by (done || lia). done.
Qed.

Lemma Dec_QuoTruncate_Ok a b c :
  Dec_QuoTruncate a b = Ok c ↔
  b ≠ 0 ∧ c = Z.quot (a * precisionReuse) b ∧ dec_fits (Z.quot (a * precisionReuse) b).
Proof.
  unfold Dec_QuoTruncate. rewrite outcome_bind_Ok. setoid_rewrite big_Quo_Ok.
  setoid_rewrite checkDec_Ok. unfold chopPrecisionAndTruncate. split.
  - intros (q & (Hb & ->) & -> & Hf). rewrite quot_twice in * by done. done.
  - intros (Hb & -> & Hf). eexists. split; [done|]. rewrite quot_twice by done. done.
Qed.

Lemma sgn_neg d : (Z.sgn d =? -1) = (d <? 0).
Proof. destruct d; reflexivity. Qed.
Lemma sgn_zero d : (Z.sgn d =? 0) = (d =? 0).
Proof. destruct d; reflexivity. Qed.
Lemma sgn_pos d : (Z.sgn d =? 1) = (0 <? d).
Proof. destruct d; reflexivity. Qed.

Lemma Dec_IsZero_eq d : Dec_IsZero d = (d =? 0).
Proof. apply sgn_zero. Qed.
Lemma Dec_IsNegative_eq d : Dec_IsNegative d = (d <? 0).
Proof. apply sgn_neg. Qed.
Lemma Dec_IsPositive_eq d : Dec_IsPositive d = (0 <? d).
Proof. apply sgn_pos. Qed.

Lemma chop_nonneg_half_even d :
  0 ≤ d → is_half_even d precisionReuse (chopPrecisionAndRound_nonneg d).
Proof.
  intros Hd. unfold chopPrecisionAndRound_nonneg, is_half_even.
  rewrite sgn_zero. change fivePrecision with 500000000000000000.
  change precisionReuse with 1000000000000000000.
  set (q := Z.quot d 1000000000000000000). set (r := Z.rem d 1000000000000000000).
  assert (d = 1000000000000000000 * q + r) by apply Z.quot_rem'.
  assert (0 ≤ r < 1000000000000000000) by (apply Z.rem_bound_pos; lia).
  destruct (Z.eqb_spec r 0); [lia|].
  destruct (Z.compare_spec r 500000000000000000); [|lia..].
  rewrite Z.bit0_odd. destruct (Z.odd q) eqn:Ho.
  - split; [lia|]. intros _. change (q + 1) with (Z.succ q). by rewrite Z.even_succ.
  - split; [lia|]. intros _. rewrite <- Z.negb_odd, Ho. done.
Qed.

Lemma chop_half_even d : is_half_even d precisionReuse (chopPrecisionAndRound d).
Proof.
  unfold chopPrecisionAndRound. rewrite sgn_neg. destruct (Z.ltb_spec d 0).
  - destruct (chop_nonneg_half_even (- d)) as [H1 H2]; [lia|].
    split; [lia|]. rewrite Z.even_opp. intros. apply H2. lia.
  - by apply chop_nonneg_half_even.
Qed.

Lemma half_even_unique n d q q' :
  is_half_even n d q → is_half_even n d q' → 0 < d → q = q'.
Proof.
  intros [H1 H2] [H3 H4] Hd.
  destruct (decide (q = q')) as [|Hne]; [done|exfalso].
  assert (q = q' + 1 ∨ q' = q + 1) as Hq by nia.
  assert (2 * Z.abs (n - q * d) = d ∧ 2 * Z.abs (n - q' * d) = d) as [Ha Hb] by nia.
  specialize (H2 Ha). specialize (H4 Hb).
  destruct Hq as [Hq|Hq].
  - rewrite Hq, Z.even_add, H4 in H2. done.
  - rewrite Hq, Z.even_add, H2 in H4. done.
Qed.

Lemma half_even_exact q d : 0 < d → is_half_even (q * d) d q.
Proof. intros. split; [lia|]. lia. Qed.

Lemma half_even_scale n d q k :
  0 < k → is_half_even (n * k) (d * k) q ↔ is_half_even n d q.
Proof.
  intros Hk. unfold is_half_even.
  replace (n * k - q * (d * k)) with ((n - q * d) * k) by ring.
  rewrite Z.abs_mul, (Z.abs_eq k) by lia. split; intros [H1 H2]; split; nia || intros; apply H2; nia.
Qed.

Lemma chop_unit k : chopPrecisionAndRound (k * precisionReuse) = k.
Proof.
  eapply half_even_unique; [apply chop_half_even|by apply half_even_exact|done].
Qed.

Lemma chop_nonneg d : 0 ≤ d → 0 ≤ chopPrecisionAndRound d.
Proof.
  intros Hd. destruct (chop_half_even d) as [H _].
  change precisionReuse with 1000000000000000000 in H. lia.
Qed.

Lemma Dec_Mul_Ok a b c :
  Dec_Mul a b = Ok c ↔
  c = chopPrecisionAndRound (a * b) ∧ dec_fits (chopPrecisionAndRound (a * b)).
Proof. apply checkDec_Ok. Qed.
End DecFacts.

(** ** Properties of the arithmetic *)

Section DecProperties.
(** Inversion of [MulAndQuo]: the 18 extra digits make it the exact
    truncated quotient. *)
Lemma MulAndQuo_Ok a b c r :
  MulAndQuo a b c = Ok r ↔
  c ≠ 0 ∧ r = Z.quot (a * b) c ∧ dec_fits (a * 10 ^ 18) ∧ dec_fits (a * b)
  ∧ dec_fits (Z.quot (a * b * 10 ^ 18) c) ∧ dec_fits (Z.quot (a * b) c).
Proof.
  unfold MulAndQuo. rewrite NewDecFromBigInt_eq. cbn [mbind outcome_bind].
  assert (Z.quot (a * (10 ^ Precision * 10 ^ 18)) precisionReuse = a * 10 ^ 18) as E1.
  { change (10 ^ Precision * 10 ^ 18) with (10 ^ 18 * precisionReuse).
    rewrite Z.mul_assoc, Z.quot_mul; done. }
  assert (Z.quot (a * 10 ^ 18 * b) precisionReuse = a * b) as E2.
  { replace (a * 10 ^ 18 * b) with (a * b * precisionReuse)
      by (change precisionReuse with (10 ^ 18); ring).
    by rewrite Z.quot_mul. }
  assert (∀ q, Z.quot (q * precisionReuse) (10 ^ Precision * 10 ^ 18)
               = Z.quot q (10 ^ 18)) as E3.
  { intros q. by rewrite Z.quot_mul_cancel_r. }
  assert (c ≠ 0 → Z.quot (Z.quot (a * b * precisionReuse) c) (10 ^ 18)
                  = Z.quot (a * b) c) as E4.
  { intros Hc. rewrite Z.quot_quot by done. by rewrite Z.quot_mul_cancel_r. }
  split.
  - intros H. apply outcome_bind_Ok in H as (x & H1 & H).
    apply outcome_bind_Ok in H as (y & H2 & H).
    apply outcome_bind_Ok in H as (z & H3 & H).
    apply Dec_MulTruncate_Ok in H1 as [-> F1]. rewrite E1 in *.
    apply Dec_MulTruncate_Ok in H2 as [-> F2]. rewrite E2 in *.
    apply Dec_QuoTruncate_Ok in H3 as (Hc & -> & F3).
    apply Dec_QuoTruncate_Ok in H as (_ & -> & F4). rewrite E3, E4 in * by done. done.
  - intros (Hc & -> & F1 & F2 & F3 & F4).
    rewrite (proj2 (Dec_MulTruncate_Ok a _ (a * 10 ^ 18))) by (rewrite E1; done).
    cbn [mbind outcome_bind].
    rewrite (proj2 (Dec_MulTruncate_Ok _ b (a * b))) by (rewrite E2; done).
    cbn [mbind outcome_bind].
    rewrite (proj2 (Dec_QuoTruncate_Ok _ c (Z.quot (a * b * precisionReuse) c))) by done.
    cbn [mbind outcome_bind].
    apply Dec_QuoTruncate_Ok. rewrite E3, E4 by done. done.
Qed.

(** [MulAndQuo a b c] (x/common) is exactly [a * b / c] truncated
    toward zero, whenever its intermediate products fit the 315-bit range
    that the checked operations accept; in particular it then does not
    panic. *)
Theorem MulAndQuo_exact a b c :
  c ≠ 0 → dec_fits (a * 10 ^ 18) → dec_fits (a * b) →
  dec_fits (Z.quot (a * b * 10 ^ 18) c) →
  MulAndQuo a b c = Ok (Z.quot (a * b) c).
Proof.
  intros Hc F1 F2 F3. apply MulAndQuo_Ok. repeat split; try done.
  unfold dec_fits in *. pose proof (Z.quot_abs (a * b) c Hc).
  assert (Z.quot (Z.abs (a * b)) (Z.abs c) ≤ Z.abs (a * b)); [|lia].
  destruct (decide (a * b = 0)) as [->|]; [by rewrite Z.quot_0_l by lia|].
  apply Z.quot_le_upper_bound; nia.
Qed.

Lemma MulAndQuo_exact_witness :
  MulAndQuo 3000000000000000000 7 2 = Ok 10500000000000000000.
Proof. apply MulAndQuo_exact; unfold dec_fits; vm_compute; congruence. Defined.

(** [Dec.Quo] errs by less than half a unit of the last place plus
    10^-18 of that unit: it truncates at 36 digits and then rounds half to
    even. *)
Theorem Dec_Quo_error a b q :
  Dec_Quo a b = Ok q →
  2 * precisionReuse * Z.abs (q * b - a * precisionReuse)
  < Z.abs b * (precisionReuse + 2).
Proof.
  unfold Dec_Quo. intros H. inv_ok. apply big_Quo_Ok in H0 as [Hb ->].
  apply checkDec_Ok in H as [-> _].
  set (x := Z.quot (a * precisionReuse * precisionReuse) b).
  destruct (chop_half_even x) as [Hr _].
  pose proof (Z.quot_rem' (a * precisionReuse * precisionReuse) b) as Hx. fold x in Hx.
  pose proof (Z.rem_bound_abs (a * precisionReuse * precisionReuse) b Hb) as Hm.
  set (m := Z.rem _ _) in *. set (c := chopPrecisionAndRound x) in *.
  change precisionReuse with 1000000000000000000 in *. nia.
Qed.

Lemma Dec_Quo_error_witness :
  2 * precisionReuse * Z.abs (333333333333333333 * 3000000000000000000
                              - 1000000000000000000 * precisionReuse)
  < Z.abs 3000000000000000000 * (precisionReuse + 2).
Proof. apply Dec_Quo_error. reflexivity. Defined.

(** [Dec.Mul] is the exact product rounded half to even (bankers'
    rounding, including for negative products), and it panics exactly when
    the rounded product needs more than 315 bits. *)
Theorem Dec_Mul_half_even a b :
  ∃ c, is_half_even (a * b) precisionReuse c ∧
  Dec_Mul a b = (if decide (dec_fits c) then Ok c else Panic "Int overflow").
Proof.
  exists (chopPrecisionAndRound (a * b)). split; [apply chop_half_even|].
  unfold Dec_Mul. case_decide as Hf; [by apply checkDec_fits|].
  unfold checkDec. change (255 + DecimalPrecisionBits) with 315.
  destruct (BitLen (chopPrecisionAndRound (a * b)) >? 315) eqn:E; [done|].
  exfalso. apply Hf. apply BitLen_le; [done|]. bool_prop. lia.
Qed.

Lemma Dec_Mul_units k l :
  dec_fits (k * l * precisionReuse) →
  Dec_Mul (k * precisionReuse) (l * precisionReuse) = Ok (k * l * precisionReuse).
Proof.
  intros Hf. apply Dec_Mul_Ok.
  replace (k * precisionReuse * (l * precisionReuse))
    with ((k * l * precisionReuse) * precisionReuse) by ring.
  by rewrite chop_unit.
Qed.

Lemma fits_le x y : dec_fits y → Z.abs x ≤ Z.abs y → dec_fits x.
Proof. unfold dec_fits. lia. Qed.

(** A factor of a product that fits does fit. *)
Lemma fits_factor x y : x ≠ 0 → dec_fits (x * y * precisionReuse) →
  dec_fits (y * precisionReuse).
Proof.
  intros Hx H. eapply fits_le; [exact H|].
  rewrite !Z.abs_mul. change (Z.abs precisionReuse) with (10 ^ 18). nia.
Qed.

(** The base of a power that fits does fit. *)
Lemma fits_base x i y : x ≠ 0 → y ≠ 0 → dec_fits (x ^ Zpos i * y * precisionReuse) →
  dec_fits (x * precisionReuse).
Proof.
  intros Hx Hy H.
  assert (dec_fits (x ^ Zpos i * precisionReuse)) as H'.
  { apply (fits_factor y); [done|]. by rewrite (Z.mul_comm y). }
  eapply fits_le; [exact H'|].
  assert (Z.abs x ≤ Z.abs (x ^ Zpos i)).
  { rewrite Z.abs_pow. rewrite <- (Z.pow_1_r (Z.abs x)) at 1.
    apply Z.pow_le_mono_r; lia. }
  rewrite !Z.abs_mul. change (Z.abs precisionReuse) with (10 ^ 18). nia.
Qed.

(** The square-and-multiply loop on whole numbers. *)
Lemma Dec_Power_loop_units i : ∀ k t,
  k ≠ 0 → t ≠ 0 → dec_fits (k ^ Zpos i * t * precisionReuse) →
  ∃ d tmp, Dec_Power_loop i (k * precisionReuse) (t * precisionReuse)
             = Ok (d * precisionReuse, tmp * precisionReuse)
         ∧ d * tmp = k ^ Zpos i * t.
Proof.
  induction i as [i IH|i IH|]; intros k t Hk Ht Hf.
  - assert (k ^ Zpos (xI i) * t = (k * k) ^ Zpos i * (t * k)) as E.
    { rewrite Pos2Z.inj_xI, Z.pow_add_r, Z.pow_mul_r, Z.pow_2_r, Z.pow_1_r by lia. ring. }
    rewrite E in Hf |- *. cbn [Dec_Power_loop].
    rewrite (Dec_Mul_units t k)
      by (eapply fits_factor; [|exact Hf]; apply Z.pow_nonzero; lia).
    cbn [mbind outcome_bind].
    rewrite (Dec_Mul_units k k) by (eapply fits_base; [| |exact Hf]; lia).
    cbn [mbind outcome_bind]. apply IH; [lia..|done].
  - assert (k ^ Zpos (xO i) * t = (k * k) ^ Zpos i * t) as E.
    { rewrite Pos2Z.inj_xO, Z.pow_mul_r, Z.pow_2_r by lia. ring. }
    rewrite E in Hf |- *. cbn [Dec_Power_loop].
    rewrite (Dec_Mul_units k k) by (eapply fits_base; [| |exact Hf]; lia).
    cbn [mbind outcome_bind]. apply IH; [lia..|done].
  - exists k, t. rewrite Z.pow_1_r. done.
Qed.

(** [Dec.Power] terminates and is exact on whole numbers: for a
    nonzero whole [k], [Power] of [k] and [n] is [k^n] whenever that result
    fits, and no intermediate square overflows. *)
Theorem Dec_Power_exact k n :
  k ≠ 0 → dec_fits (k ^ Z.of_N n * precisionReuse) →
  Dec_Power (k * precisionReuse) n = Ok (k ^ Z.of_N n * precisionReuse).
Proof.
  intros Hk Hf. destruct n as [|i]; [done|]. cbn [Dec_Power Z.of_N] in *.
  destruct (Dec_Power_loop_units i k 1) as (d & tmp & H & E); [done|done| |].
  { rewrite Z.mul_1_r. done. }
  rewrite Z.mul_1_l, Z.mul_1_r in *. change OneDec with precisionReuse. rewrite H.
  cbn [mbind outcome_bind]. rewrite <- E in *. by apply Dec_Mul_units.
Qed.

Lemma Dec_Power_exact_witness :
  Dec_Power (3 * precisionReuse) 5 = Ok (3 ^ Z.of_N 5 * precisionReuse).
Proof. apply Dec_Power_exact; unfold dec_fits; vm_compute; congruence. Defined.

(** [Dec.QuoRoundUp] is documented as "quotient, round up", and it is
    not: the quotient of two positive decimals can come out as zero, below
    the exact value, because the dividend is truncated before the rounding
    up looks at the remainder. *)
Theorem Dec_QuoRoundUp_not_up :
  ∃ a b q, 0 < a ∧ 0 < b ∧ Dec_QuoRoundUp a b = Ok q ∧ q * b < a * precisionReuse.
Proof. exists 1, (2 * 10 ^ 36), 0. vm_compute. repeat split. Qed.

Lemma Dec_Ceil_spec d : ∃ k, Dec_Ceil d = Ok (k * precisionReuse)
  ∧ d ≤ k * precisionReuse < d + precisionReuse.
Proof.
  unfold Dec_Ceil. rewrite sgn_neg.
  pose proof (Z.quot_rem' d precisionReuse) as Hq.
  pose proof (Z.rem_bound_abs d precisionReuse) as Hr.
  set (q := Z.quot _ _) in *. set (r := Z.rem _ _) in *.
  change (Z.abs precisionReuse) with precisionReuse in Hr.
  assert (0 < precisionReuse) by done.
  destruct (Z.eqb_spec r 0); [|destruct (Z.ltb_spec r 0)].
  - exists q. split; [done|]. lia.
  - exists q. split; [done|]. lia.
  - exists (q + 1). split; [done|]. lia.
Qed.

Lemma Dec_RoundDecimal_value d p :
  0 ≤ p ≤ 18 → dec_fits (d * 10 ^ p) →
  Z.abs (chopPrecisionAndRound (d * 10 ^ p)) < 2 ^ 255 →
  Dec_RoundDecimal d p = Ok (chopPrecisionAndRound (d * 10 ^ p) * 10 ^ (18 - p)).
Proof.
  intros Hp Hf Hi.
  assert (big_Exp10 p = 10 ^ p) as E10.
  { unfold big_Exp10. destruct (Z.leb_spec p 0); [|done]. by replace p with 0 by lia. }
  assert (0 < 10 ^ p) by (apply Z.pow_pos_nonneg; lia).
  assert (precisionReuse = 10 ^ (18 - p) * 10 ^ p) as E.
  { rewrite <- Z.pow_add_r by lia. by replace (18 - p + p) with 18 by lia. }
  unfold Dec_RoundDecimal. rewrite E10.
  rewrite (proj2 (NewIntFromBigInt_Ok _ (10 ^ p))); cycle 1.
  { split; [done|]. rewrite Z.abs_eq by lia.
    apply Z.le_lt_trans with (10 ^ 18); [apply Z.pow_le_mono_r; lia|done]. }
  cbn [mbind outcome_bind]. unfold Dec_MulInt. rewrite checkDec_fits by done.
  cbn [mbind outcome_bind]. unfold Dec_RoundInt.
  rewrite (proj2 (NewIntFromBigInt_Ok _ (chopPrecisionAndRound (d * 10 ^ p)))) by done.
  cbn [mbind outcome_bind]. rewrite NewDecFromInt_eq. cbn [mbind outcome_bind].
  unfold Dec_QuoInt. apply big_Quo_Ok. split; [lia|].
  fold precisionReuse. rewrite E, Z.mul_assoc, Z.quot_mul; [done|lia].
Qed.

(** Rounding moves a number by at most half a unit. *)
Lemma chop_bound x : Z.abs (chopPrecisionAndRound x) ≤ Z.abs x.
Proof.
  destruct (chop_half_even x) as [H _]. set (q := chopPrecisionAndRound x) in *.
  assert (2 ≤ precisionReuse) by done. nia.
Qed.

(** [Dec.RoundDecimal] (used on every order price) rounds half to even
    at the requested number of decimals: the result is a multiple of
    10^(18-p) and it is the bankers' rounding of the input at that digit.
    It panics only if the intermediate product or integer is out of range. *)
Theorem Dec_RoundDecimal_spec d p :
  0 ≤ p ≤ 18 → dec_fits (d * 10 ^ p) →
  Z.abs (chopPrecisionAndRound (d * 10 ^ p)) < 2 ^ 255 →
  ∃ q, Dec_RoundDecimal d p = Ok (q * 10 ^ (18 - p))
     ∧ is_half_even d (10 ^ (18 - p)) q.
Proof.
  intros Hp Hf Hi. exists (chopPrecisionAndRound (d * 10 ^ p)).
  split; [by apply Dec_RoundDecimal_value|].
  assert (precisionReuse = 10 ^ (18 - p) * 10 ^ p) as E.
  { rewrite <- Z.pow_add_r by lia. by replace (18 - p + p) with 18 by lia. }
  apply (half_even_scale _ _ _ (10 ^ p)); [apply Z.pow_pos_nonneg; lia|].
  rewrite <- E. apply chop_half_even.
Qed.

Lemma Dec_RoundDecimal_spec_witness :
  ∃ q, Dec_RoundDecimal 1234565000000000000 5 = Ok (q * 10 ^ (18 - 5))
     ∧ is_half_even 1234565000000000000 (10 ^ (18 - 5)) q.
Proof.
  apply Dec_RoundDecimal_spec; [lia|unfold dec_fits; vm_compute; congruence..].
Defined.
End DecProperties.

Create HintDb dec.
#[export] Hint Resolve quot_nonneg chop_nonneg checkDec_fits : dec.
