(* ===== verification/Denom.v ===== *)
(** * Coin denominations

    The regular expressions of [libs/cosmos-sdk/types] that decide which
    strings name a coin ([aliase_coin_exchain.go], [coin.go],
    [coin_ibc.go], [ibc_adapter.go]), and the pool token names that
    [x/ammswap/types/swap.go] builds from two denominations.

    A regular expression is a function from the input to the list of inputs
    that can remain after it matched a prefix; [^re$] matches when some
    remainder is empty.  Strings are bytes, as in Go. *)
From S2P Require Import Prelude.
From Stdlib Require Import Ascii.

(** ** The matcher *)

Definition regex := string → list string.

Definition re_char (p : ascii → bool) : regex := λ s,
  match s with
  | String c s' => if p c then [s'] else []
  | EmptyString => []
  end.
Definition re_seq (r1 r2 : regex) : regex := λ s, s' ← r1 s; r2 s'.
Definition re_opt (r : regex) : regex := λ s, s :: r s.

(** [p{lo,hi}] for one character. *)
Fixpoint re_upto (p : ascii → bool) (hi : nat) : regex :=
  match hi with
  | O => λ s, [s]
  | S hi' => re_opt (re_seq (re_char p) (re_upto p hi'))
  end.
Fixpoint re_rep (p : ascii → bool) (lo more : nat) : regex :=
  match lo with
  | O => re_upto p more
  | S lo' => re_seq (re_char p) (re_rep p lo' more)
  end.
Fixpoint re_lit (l : string) : regex :=
  match l with
  | EmptyString => λ s, [s]
  | String c l' => re_seq (re_char (Ascii.eqb c)) (re_lit l')
  end.

(** [^re$]. *)
Definition MatchString (r : regex) (s : string) : bool :=
  existsb (String.eqb "") (r s).

(** Character classes. *)
Definition in_range (lo hi c : ascii) : bool :=
  (N_of_ascii lo <=? N_of_ascii c)%N && (N_of_ascii c <=? N_of_ascii hi)%N.
Definition is_az (c : ascii) : bool := in_range "a" "z" c.
Definition is_AZ (c : ascii) : bool := in_range "A" "Z" c.
Definition is_af (c : ascii) : bool := in_range "a" "f" c.
Definition is_digit (c : ascii) : bool := in_range "0" "9" c.

(** ** The expressions of the source *)

Definition DefaultBondDenom : string := "okt".

Definition reDnmString : regex :=
  re_seq (re_char is_az)
    (re_seq (re_rep (λ c, is_az c || is_digit c) 0 9)
       (re_opt (re_seq (re_lit "-") (re_rep (λ c, is_af c || is_digit c) 3 0)))).
Definition rePoolTokenDnmString : regex :=
  re_seq (re_lit "ammswap_") (re_seq reDnmString (re_seq (re_lit "_") reDnmString)).
Definition ibcReDnmString : regex :=
  re_seq (re_char (λ c, is_az c || is_AZ c))
    (re_rep (λ c, is_az c || is_AZ c || is_digit c
                  || Ascii.eqb c "/" || Ascii.eqb c "-") 2 125).

Definition validIBCCoinDenom (denom : string) : bool := MatchString ibcReDnmString denom.

Definition ValidateDenom (denom : string) : outcome unit :=
  if String.eqb denom DefaultBondDenom then Ok ()
  else if negb (MatchString reDnmString denom)
          && negb (MatchString rePoolTokenDnmString denom) then
    if String.prefix "ibc" denom && validIBCCoinDenom denom then Ok ()
    else Err (E "invalid denom")
  else Ok ().

(** [ValidateDenom(denom) == nil]. *)
Definition validDenom (denom : string) : bool := is_ok (ValidateDenom denom).

Definition mustValidateDenom (denom : string) : outcome unit :=
  match ValidateDenom denom with
  | Err _ => Panic "invalid denom"
  | r => r
  end.

(** [strings.ToLower], on ASCII. *)
Definition lower_ascii (c : ascii) : ascii :=
  if is_AZ c then ascii_of_N (N_of_ascii c + 32) else c.
Fixpoint ToLower (s : string) : string :=
  match s with
  | EmptyString => EmptyString
  | String c s' => String (lower_ascii c) (ToLower s')
  end.

(** ** Pool token names *)

Definition PoolTokenPrefix : string := "ammswap_".

Definition GetBaseQuoteTokenName (token0 token1 : string) : string * string :=
  if decide (str_lt token0 token1) then (token0, token1) else (token1, token0).
Definition GetSwapTokenPairName (token0 token1 : string) : string :=
  let '(base, quote) := GetBaseQuoteTokenName token0 token1 in
  base +:+ "_" +:+ quote.
Definition GetPoolTokenName (token1 token2 : string) : string :=
  PoolTokenPrefix +:+ GetSwapTokenPairName token1 token2.

(** ** Facts *)

Section DenomFacts.

Lemma mustValidateDenom_Ok d u : mustValidateDenom d = Ok u ↔ validDenom d = true.
Proof.
  unfold mustValidateDenom, validDenom. destruct u, (ValidateDenom d) as [[]|?|?]; naive_solver.
Qed.

Lemma mustValidateDenom_valid d : validDenom d = true → mustValidateDenom d = Ok ().
Proof. by rewrite mustValidateDenom_Ok. Qed.

Lemma re_seq_elem (r1 r2 : regex) s t :
  t ∈ re_seq r1 r2 s ↔ ∃ u, u ∈ r1 s ∧ t ∈ r2 u.
Proof. unfold re_seq. rewrite list_elem_of_bind. naive_solver. Qed.

Lemma re_char_elem p s t : t ∈ re_char p s ↔ ∃ c, s = String c t ∧ p c = true.
Proof.
  destruct s as [|c s]; cbn; [rewrite elem_of_nil; split; [done|by intros (? & ? & _)]|].
  destruct (p c) eqn:Hp; [rewrite list_elem_of_singleton|rewrite elem_of_nil]; split.
  - intros ->. eauto.
  - intros (? & [= <- <-] & _). done.
  - done.
  - intros (? & [= <- <-] & ?). congruence.
Qed.

Lemma re_opt_elem (r : regex) s t : t ∈ re_opt r s ↔ t = s ∨ t ∈ r s.
Proof. unfold re_opt. by rewrite elem_of_cons. Qed.

Lemma re_lit_elem l s t : t ∈ re_lit l s ↔ s = l +:+ t.
Proof.
  revert s. induction l as [|c l IH]; intros s; cbn [re_lit].
  - rewrite list_elem_of_singleton. naive_solver.
  - rewrite re_seq_elem. setoid_rewrite re_char_elem. setoid_rewrite IH. split.
    + intros (u & (c' & -> & Hc) & ->). apply Ascii.eqb_eq in Hc as ->. done.
    + intros ->. exists (l +:+ t). split; [|done]. exists c. by rewrite Ascii.eqb_refl.
Qed.

Lemma MatchString_elem r s : MatchString r s = true ↔ "" ∈ r s.
Proof.
  unfold MatchString. rewrite existsb_exists. setoid_rewrite String.eqb_eq.
  rewrite list_elem_of_In. naive_solver.
Qed.

(** [r] consumes exactly the characters of a class. *)
Definition re_within (p : ascii → Prop) (r : regex) : Prop :=
  ∀ s t, t ∈ r s → ∃ u, s = u +:+ t ∧ Forall p (String.list_ascii_of_string u).

Lemma re_within_char (p : ascii → Prop) q :
  (∀ c, q c = true → p c) → re_within p (re_char q).
Proof.
  intros Hq s t (c & -> & Hc)%re_char_elem. exists (String c ""). cbn. eauto.
Qed.

Lemma str_app_cons c (u v : string) : String c u +:+ v = String c (u +:+ v).
Proof. done. Qed.

Lemma list_ascii_app u v :
  String.list_ascii_of_string (u +:+ v)
  = String.list_ascii_of_string u ++ String.list_ascii_of_string v.
Proof. induction u as [|c u IH]; [done|]. rewrite str_app_cons. cbn. by rewrite IH. Qed.

Lemma str_app_assoc (u v w : string) : (u +:+ v) +:+ w = u +:+ (v +:+ w).
Proof. induction u as [|c u IH]; [done|]. by rewrite !str_app_cons, IH. Qed.

Lemma str_app_nil_r (u : string) : u +:+ "" = u.
Proof. induction u as [|c u IH]; [done|]. by rewrite !str_app_cons, IH. Qed.

(** Prefixes. *)
Lemma prefix_app p s : String.prefix p s = true → ∃ t, s = p +:+ t.
Proof.
  revert s. induction p as [|c p IH]; intros s Hp; [by exists s|].
  destruct s as [|c' s]; [done|]. cbn in Hp. destruct (Ascii.ascii_dec c c') as [<-|]; [|done].
  destruct (IH s Hp) as [t ->]. by exists t.
Qed.

Lemma prefix_app_intro p t : String.prefix p (p +:+ t) = true.
Proof.
  induction p as [|c p IH]; [by destruct t|]. rewrite str_app_cons. cbn.
  by destruct (Ascii.ascii_dec c c).
Qed.

Lemma re_within_seq p r1 r2 : re_within p r1 → re_within p r2 → re_within p (re_seq r1 r2).
Proof.
  intros H1 H2 s t (u & Hu & Ht)%re_seq_elem.
  apply H1 in Hu as (a & -> & Ha). apply H2 in Ht as (b & -> & Hb).
  exists (a +:+ b). rewrite str_app_assoc, list_ascii_app. split; [done|].
  by apply Forall_app_2.
Qed.

Lemma re_within_opt p r : re_within p r → re_within p (re_opt r).
Proof.
  intros H s t [->|Ht]%re_opt_elem; [|by apply H]. by exists "".
Qed.

Lemma re_within_upto p q n :
  (∀ c, q c = true → p c) → re_within p (re_upto q n).
Proof.
  intros Hq. induction n as [|n IH]; cbn [re_upto].
  - intros s t ->%list_elem_of_singleton. by exists "".
  - apply re_within_opt, re_within_seq; [by apply re_within_char|done].
Qed.

Lemma re_within_rep p q n m :
  (∀ c, q c = true → p c) → re_within p (re_rep q n m).
Proof.
  intros Hq. induction n as [|n IH]; cbn [re_rep]; [by apply re_within_upto|].
  apply re_within_seq; [by apply re_within_char|done].
Qed.

Lemma re_within_lit (p : ascii → Prop) l :
  Forall p (String.list_ascii_of_string l) → re_within p (re_lit l).
Proof. intros Hl s t ->%re_lit_elem. eauto. Qed.

(** A name in which the separator of pool token names does not occur. *)
Definition no_underscore (s : string) : Prop :=
  Forall (λ c, c ≠ "_"%char) (String.list_ascii_of_string s).

#[global] Instance no_underscore_dec s : Decision (no_underscore s).
Proof. unfold no_underscore. apply _. Defined.

Lemma in_range_ne lo hi c d : in_range lo hi c = true → in_range lo hi d = false → c ≠ d.
Proof. congruence. Qed.

Lemma is_ok_if {A} (c : bool) (x y : outcome A) :
  is_ok (if c then x else y) = if c then is_ok x else is_ok y.
Proof. by destruct c. Qed.

Lemma reDnm_no_underscore s : MatchString reDnmString s = true → no_underscore s.
Proof.
  intros H%MatchString_elem.
  assert (re_within (λ c, c ≠ "_"%char) reDnmString) as Hw.
  { assert (∀ c, is_az c || is_digit c = true → c ≠ "_"%char) as H1.
    { intros c [?|?]%orb_true_iff; eapply in_range_ne; done. }
    unfold reDnmString. apply re_within_seq; [|apply re_within_seq;
      [|apply re_within_opt, re_within_seq]].
    - apply re_within_char. intros c Hc. apply H1. by rewrite Hc.
    - by apply re_within_rep.
    - apply re_within_lit. by repeat constructor.
    - apply re_within_rep. intros c [?|?]%orb_true_iff; eapply in_range_ne; done. }
  destruct (Hw _ _ H) as (u & -> & Hu). by rewrite str_app_nil_r.
Qed.

Lemma split_underscore a b c d :
  no_underscore a → no_underscore c →
  a +:+ "_" +:+ b = c +:+ "_" +:+ d → a = c ∧ b = d.
Proof.
  unfold no_underscore. revert c. induction a as [|x a IH]; intros [|y c] Ha Hc H.
  - by injection H.
  - injection H as <- _. apply Forall_cons in Hc as [Hc _]. done.
  - injection H as -> _. apply Forall_cons in Ha as [Ha _]. done.
  - injection H as -> H. cbn in Ha, Hc. apply Forall_cons in Ha as [_ Ha], Hc as [_ Hc].
    destruct (IH c Ha Hc H) as [-> ->]. done.
Qed.

Lemma str_app_inj u v w : u +:+ v = u +:+ w → v = w.
Proof. induction u as [|c u IH]; [done|]. intros [= H]. by apply IH. Qed.

Lemma GetBaseQuoteTokenName_cases a b :
  (GetBaseQuoteTokenName a b = (a, b) ∨ GetBaseQuoteTokenName a b = (b, a)).
Proof. unfold GetBaseQuoteTokenName. case_decide; auto. Qed.

Lemma GetBaseQuoteTokenName_comm a b : GetBaseQuoteTokenName a b = GetBaseQuoteTokenName b a.
Proof.
  unfold GetBaseQuoteTokenName. repeat case_decide; try done.
  - by eapply str_lt_asym in H0.
  - destruct (str_lt_total a b) as [?|[->|?]]; done.
Qed.

End DenomFacts.

Section DenomProperties.

(** Pool token names identify the pair: two pairs of token names without
    an underscore (which every denomination of the form letters-digits-suffix
    is) have the same pool token name exactly when they are the same pair, in
    either order.  So two pools never share a liquidity token. *)
Theorem GetPoolTokenName_injective a b c d :
  no_underscore a → no_underscore b → no_underscore c → no_underscore d →
  GetPoolTokenName a b = GetPoolTokenName c d ↔
  (a = c ∧ b = d) ∨ (a = d ∧ b = c).
Proof.
  intros Ha Hb Hc Hd. unfold GetPoolTokenName, GetSwapTokenPairName. split.
  - destruct (GetBaseQuoteTokenName_cases a b) as [->| ->],
      (GetBaseQuoteTokenName_cases c d) as [->| ->];
      intros H%str_app_inj; apply split_underscore in H; naive_solver.
  - intros [[-> ->]|[-> ->]]; [done|]. by rewrite GetBaseQuoteTokenName_comm.
Qed.

Lemma GetPoolTokenName_injective_witness :
  GetPoolTokenName "btc-001" "okt" = GetPoolTokenName "okt" "btc-001" ↔
  ("btc-001" = "okt" ∧ "okt" = "btc-001") ∨ ("btc-001" = "btc-001" ∧ "okt" = "okt").
Proof.
  apply GetPoolTokenName_injective; apply (bool_decide_unpack _); vm_compute; exact I.
Defined.

Lemma re_seq_lit l (r : regex) s t : t ∈ r s → t ∈ re_seq (re_lit l) r (l +:+ s).
Proof. intros H. apply re_seq_elem. exists s. split; [by apply re_lit_elem|done]. Qed.

(** A matcher that consumes a whole string also consumes it as a prefix. *)
Definition re_local (r : regex) : Prop := ∀ s t u, t ∈ r s → t +:+ u ∈ r (s +:+ u).

Lemma re_local_char p : re_local (re_char p).
Proof. intros s t u (c & -> & Hc)%re_char_elem. apply re_char_elem. eauto. Qed.
Lemma re_local_seq r1 r2 : re_local r1 → re_local r2 → re_local (re_seq r1 r2).
Proof. intros H1 H2 s t u (v & Hv & Ht)%re_seq_elem. apply re_seq_elem. eauto. Qed.
Lemma re_local_opt r : re_local r → re_local (re_opt r).
Proof. intros H s t u Ht. apply re_opt_elem in Ht as [->|Ht]; apply re_opt_elem; auto. Qed.
Lemma re_local_upto p n : re_local (re_upto p n).
Proof.
  induction n as [|n IH]; cbn [re_upto].
  - intros s t u ->%list_elem_of_singleton. by apply list_elem_of_singleton.
  - apply re_local_opt, re_local_seq; [apply re_local_char|done].
Qed.
Lemma re_local_rep p n m : re_local (re_rep p n m).
Proof.
  induction n as [|n IH]; cbn [re_rep]; [apply re_local_upto|].
  apply re_local_seq; [apply re_local_char|done].
Qed.
Lemma re_local_lit l : re_local (re_lit l).
Proof. intros s t u ->%re_lit_elem. apply re_lit_elem. by rewrite str_app_assoc. Qed.
Lemma reDnm_local : re_local reDnmString.
Proof.
  unfold reDnmString. apply re_local_seq, re_local_seq, re_local_opt, re_local_seq;
    auto using re_local_char, re_local_rep, re_local_lit.
Qed.

(** The pool token name of two plain denominations. *)
Lemma GetPoolTokenName_match a b :
  MatchString reDnmString a = true → MatchString reDnmString b = true →
  MatchString rePoolTokenDnmString (GetPoolTokenName a b) = true.
Proof.
  rewrite !MatchString_elem. intros Ha Hb. unfold GetPoolTokenName, GetSwapTokenPairName.
  assert (∀ x y, "" ∈ reDnmString x → "" ∈ reDnmString y →
    "" ∈ rePoolTokenDnmString ("ammswap_" +:+ (x +:+ "_" +:+ y))) as H.
  { intros x y Hx Hy. apply re_seq_lit, re_seq_elem. exists ("_" +:+ y).
    split; [by apply (reDnm_local _ "")|]. by apply re_seq_lit. }
  destruct (GetBaseQuoteTokenName_cases a b) as [->| ->]; by apply H.
Qed.

End DenomProperties.
