(* ===== verification/Coins.v ===== *)
(** * Coin sets

    [libs/cosmos-sdk/types/dec_coin.go], the live part of [coin.go] and
    [aliase_coin_exchain.go] (where [Coin] is an alias of [DecCoin] and
    [Coins] of [DecCoins]).  A coin set is a slice of denomination and amount;
    most operations rely on it being sorted by denomination without
    duplicates.  Nil and empty slices are not told apart, and the in-place
    effect of [Sort] on the caller's slice is not modelled: every operation
    returns its result. *)
From S2P Require Import Prelude Decimal Denom.

(** ** One coin *)

Record DecCoin := mkDecCoin { Denom : string; Amount : Dec }.

#[global] Instance DecCoin_eq_dec : EqDecision DecCoin.
Proof. solve_decision. Defined.

Definition DecCoin_validate (denom : string) (amount : Int) : outcome unit :=
  _ ← ValidateDenom denom;
  if Int_IsNegative amount then Err (E "negative coin amount") else Ok ().

Definition NewDecCoin (denom : string) (amount : Int) : outcome DecCoin :=
  match DecCoin_validate denom amount with
  | Ok _ => a ← Int_ToDec amount; Ok (mkDecCoin denom a)
  | Err _ => Panic "invalid coin"
  | Panic p => Panic p
  end.

Definition NewDecCoinFromDec (denom : string) (amount : Dec) : outcome DecCoin :=
  _ ← mustValidateDenom denom;
  if Dec_IsNegative amount then Panic "negative decimal coin amount"
  else Ok (mkDecCoin denom amount).

(** The dynamic type of the amount that [NewCoin] is given. *)
Inductive coin_amount := AInt (i : Int) | ADec (d : Dec) | AOther.
Definition NewCoin (denom : string) (amount : coin_amount) : outcome DecCoin :=
  match amount with
  | AInt i => NewDecCoin denom i
  | ADec d => NewDecCoinFromDec denom d
  | AOther => Panic "Invalid amount"
  end.

Definition DecCoin_IsZero (c : DecCoin) : bool := Dec_IsZero (Amount c).
Definition DecCoin_IsPositive (c : DecCoin) : bool := Dec_IsPositive (Amount c).
Definition DecCoin_IsNegative (c : DecCoin) : bool := Z.sgn (Amount c) =? -1.

Definition sameDenom (c d : DecCoin) : bool := String.eqb (Denom c) (Denom d).
Definition DecCoin_IsGTE (c other : DecCoin) : outcome bool :=
  if negb (sameDenom c other) then Panic "invalid coin denominations"
  else Ok (negb (Dec_LT (Amount c) (Amount other))).
Definition DecCoin_IsLT (c other : DecCoin) : outcome bool :=
  if negb (sameDenom c other) then Panic "invalid coin denominations"
  else Ok (Dec_LT (Amount c) (Amount other)).
Definition DecCoin_IsEqual (c other : DecCoin) : outcome bool :=
  if negb (sameDenom c other) then Panic "invalid coin denominations"
  else Ok (Dec_Equal (Amount c) (Amount other)).

Definition DecCoin_Add (c cB : DecCoin) : outcome DecCoin :=
  if negb (sameDenom c cB) then Panic "coin denom different"
  else a ← Dec_Add (Amount c) (Amount cB); Ok (mkDecCoin (Denom c) a).
Definition DecCoin_Sub (c cB : DecCoin) : outcome DecCoin :=
  if negb (sameDenom c cB) then Panic "coin denom different" else
  a ← Dec_Sub (Amount c) (Amount cB);
  let res := mkDecCoin (Denom c) a in
  if DecCoin_IsNegative res then Panic "negative decimal coin amount" else Ok res.

Definition DecCoin_TruncateDecimal (c : DecCoin) : outcome (DecCoin * DecCoin) :=
  truncated ← Dec_TruncateInt (Amount c);
  t ← Int_ToDec truncated;
  change ← Dec_Sub (Amount c) t;
  a ← NewCoin (Denom c) (AInt truncated);
  b ← NewDecCoinFromDec (Denom c) change;
  Ok (a, b).

Definition DecCoin_TruncateWithPrec (c : DecCoin) (prec : Z) : outcome (DecCoin * DecCoin) :=
  if (prec <? 0) || (prec >? Precision) then Panic "prec range error" else
  tempTruncated ← Dec_TruncateWithPrec (Amount c) prec;
  truncated ← NewDecFromIntWithPrec tempTruncated prec;
  change ← Dec_Sub (Amount c) truncated;
  a ← NewCoin (Denom c) (ADec truncated);
  b ← NewDecCoinFromDec (Denom c) change;
  Ok (a, b).

Definition DecCoin_IsValid (c : DecCoin) : bool :=
  validDenom (Denom c) && negb (DecCoin_IsNegative c).

(** ** Coin sets *)

Abbreviation DecCoins := (list DecCoin) (only parsing).

(** [removeZeroDecCoins] and [removeZeroCoins] return the slice itself when
    no amount is zero, and a filtered copy otherwise. *)
Definition removeZeroDecCoins (coins : DecCoins) : DecCoins :=
  base.filter (λ c, negb (DecCoin_IsZero c)) coins.

(** [sort.Sort] by denomination. *)
Definition denom_le (c d : DecCoin) : Prop := ¬ str_lt (Denom d) (Denom c).
#[global] Instance denom_le_dec c d : Decision (denom_le c d).
Proof. unfold denom_le. apply _. Defined.
Definition DecCoins_Sort (coins : DecCoins) : DecCoins := merge_sort denom_le coins.

(** The index of the first coin whose denomination equals its
    predecessor's; Go returns -1 for none. *)
Fixpoint findDup_loop (prev : string) (coins : DecCoins) (i : Z) : Z :=
  match coins with
  | [] => -1
  | c :: rest => if String.eqb (Denom c) prev then i else findDup_loop (Denom c) rest (i + 1)
  end.
Definition findDup (coins : DecCoins) : Z :=
  match coins with
  | [] | [_] => -1
  | c :: rest => findDup_loop (Denom c) rest 1
  end.

Fixpoint DecCoins_IsValid_loop (lowDenom : string) (coins : DecCoins) : bool :=
  match coins with
  | [] => true
  | c :: rest =>
      if negb (String.eqb (ToLower (Denom c)) (Denom c)) then false
      else if negb (bool_decide (str_lt lowDenom (Denom c))) then false
      else if negb (DecCoin_IsPositive c) then false
      else DecCoins_IsValid_loop (Denom c) rest
  end.
Definition DecCoins_IsValid (coins : DecCoins) : bool :=
  match coins with
  | [] => true
  | c :: rest =>
      if negb (validDenom (Denom c)) then false
      else if negb (DecCoin_IsPositive c) then false
      else DecCoins_IsValid_loop (Denom c) rest
  end.

Definition NewDecCoins (decCoins : DecCoins) : outcome DecCoins :=
  match removeZeroDecCoins decCoins with
  | [] => Ok []
  | newDecCoins =>
      let newDecCoins := DecCoins_Sort newDecCoins in
      if negb (findDup newDecCoins =? -1) then Panic "find duplicate denom"
      else if negb (DecCoins_IsValid newDecCoins) then Panic "invalid coin set"
      else Ok newDecCoins
  end.
Definition NewCoins (coins : DecCoins) : outcome DecCoins :=
  match removeZeroDecCoins coins with
  | [] => Ok []
  | newCoins =>
      let newCoins := if bool_decide (1 < length newCoins)%nat
                      then DecCoins_Sort newCoins else newCoins in
      if negb (findDup newCoins =? -1) then Panic "find duplicate denom"
      else if negb (DecCoins_IsValid newCoins) then Panic "invalid coin set"
      else Ok newCoins
  end.

Definition NewDecCoinsFromDec (denom : string) (amount : Dec) : outcome DecCoins :=
  c ← NewDecCoinFromDec denom amount; Ok [c].
Definition DecCoin_ToCoins (c : DecCoin) : outcome DecCoins := NewCoins [c].

(** The slice that [NewDecCoinsFromCoins] makes has the length of its
    argument; [None] is an element that stays the zero [DecCoin{}], with an
    empty denomination and a nil amount. *)
Definition NewDecCoinsFromCoins (coins : DecCoins) : outcome (list (option DecCoin)) :=
  newCoins ← NewCoins coins;
  Ok ((Some <$> newCoins) ++ replicate (length coins - length newCoins) None).

(** The two-index merge loop of [safeAdd]. *)
Fixpoint DecCoins_safeAdd (coins : DecCoins) : DecCoins → outcome DecCoins :=
  fix merge_b (coinsB : DecCoins) : outcome DecCoins :=
  match coins, coinsB with
  | [], _ => Ok (removeZeroDecCoins coinsB)
  | _, [] => Ok (removeZeroDecCoins coins)
  | coinA :: coins', coinB :: coinsB' =>
      match String.compare (Denom coinA) (Denom coinB) with
      | Lt =>
          sum ← DecCoins_safeAdd coins' coinsB;
          Ok (if DecCoin_IsZero coinA then sum else coinA :: sum)
      | Eq =>
          res ← DecCoin_Add coinA coinB;
          sum ← DecCoins_safeAdd coins' coinsB';
          Ok (if DecCoin_IsZero res then sum else res :: sum)
      | Gt =>
          sum ← merge_b coinsB';
          Ok (if DecCoin_IsZero coinB then sum else coinB :: sum)
      end
  end.
Definition DecCoins_Add (coins coinsB : DecCoins) : outcome DecCoins :=
  DecCoins_safeAdd coins coinsB.
Definition DecCoins_Add2 (coins coinsB : DecCoins) : outcome DecCoins :=
  DecCoins_safeAdd coins coinsB.

Definition DecCoins_negative (coins : DecCoins) : DecCoins :=
  (λ c, mkDecCoin (Denom c) (Dec_Neg (Amount c))) <$> coins.
Definition DecCoins_IsAnyNegative (coins : DecCoins) : bool :=
  existsb DecCoin_IsNegative coins.
Definition DecCoins_SafeSub (coins coinsB : DecCoins) : outcome (DecCoins * bool) :=
  diff ← DecCoins_safeAdd coins (DecCoins_negative coinsB);
  Ok (diff, DecCoins_IsAnyNegative diff).
Definition DecCoins_Sub (coins coinsB : DecCoins) : outcome DecCoins :=
  '(diff, hasNeg) ← DecCoins_SafeSub coins coinsB;
  if (hasNeg : bool) then Panic "negative coin amount" else Ok diff.

Definition DecCoins_Empty (coins : DecCoins) : bool :=
  match coins with [] => true | _ => false end.

(** [AmountOf] recurses on halves of the slice; the length of the slice
    bounds the depth. *)
Fixpoint DecCoins_AmountOf_search (fuel : nat) (coins : DecCoins) (denom : string) : Dec :=
  match fuel with
  | O => ZeroDec
  | S fuel' =>
      match coins with
      | [] => ZeroDec
      | [c] => if String.eqb (Denom c) denom then Amount c else ZeroDec
      | c0 :: _ =>
          let midIdx := (length coins / 2)%nat in
          match coins !! midIdx with
          | None => ZeroDec
          | Some c =>
              match String.compare denom (Denom c) with
              | Lt => DecCoins_AmountOf_search fuel' (take midIdx coins) denom
              | Eq => Amount c
              | Gt => DecCoins_AmountOf_search fuel' (drop (S midIdx) coins) denom
              end
          end
      end
  end.
Definition DecCoins_AmountOf (coins : DecCoins) (denom : string) : outcome Dec :=
  _ ← mustValidateDenom denom;
  Ok (DecCoins_AmountOf_search (length coins) coins denom).

Definition DecCoins_IsZero (coins : DecCoins) : bool :=
  forallb (λ c, Dec_IsZero (Amount c)) coins.
Definition DecCoins_IsAllPositive (coins : DecCoins) : bool :=
  negb (DecCoins_Empty coins) && forallb DecCoin_IsPositive coins.

Fixpoint DecCoins_IsEqual_loop (coins coinsB : DecCoins) : outcome bool :=
  match coins, coinsB with
  | a :: coins', b :: coinsB' =>
      e ← DecCoin_IsEqual a b;
      if (e : bool) then DecCoins_IsEqual_loop coins' coinsB' else Ok false
  | _, _ => Ok true
  end.
Definition DecCoins_IsEqual (coins coinsB : DecCoins) : outcome bool :=
  if negb (bool_decide (length coins = length coinsB)) then Ok false
  else DecCoins_IsEqual_loop (DecCoins_Sort coins) (DecCoins_Sort coinsB).

(** Comparisons of sets; [AmountOf] panics on an invalid denomination. *)
Fixpoint DecCoins_DenomsSubsetOf_loop (coins coinsB : DecCoins) : outcome bool :=
  match coins with
  | [] => Ok true
  | c :: rest =>
      a ← DecCoins_AmountOf coinsB (Denom c);
      if Dec_IsZero a then Ok false else DecCoins_DenomsSubsetOf_loop rest coinsB
  end.
Definition DecCoins_DenomsSubsetOf (coins coinsB : DecCoins) : outcome bool :=
  if bool_decide (length coinsB < length coins)%nat then Ok false
  else DecCoins_DenomsSubsetOf_loop coins coinsB.

Fixpoint DecCoins_IsAllGT_loop (coins coinsB : DecCoins) : outcome bool :=
  match coinsB with
  | [] => Ok true
  | cB :: rest =>
      amountA ← DecCoins_AmountOf coins (Denom cB);
      if negb (Dec_GT amountA (Amount cB)) then Ok false else DecCoins_IsAllGT_loop coins rest
  end.
Definition DecCoins_IsAllGT (coins coinsB : DecCoins) : outcome bool :=
  if DecCoins_Empty coins then Ok false
  else if DecCoins_Empty coinsB then Ok true
  else
    s ← DecCoins_DenomsSubsetOf coinsB coins;
    if negb s then Ok false else DecCoins_IsAllGT_loop coins coinsB.

Fixpoint DecCoins_IsAllGTE_loop (coins coinsB : DecCoins) : outcome bool :=
  match coinsB with
  | [] => Ok true
  | cB :: rest =>
      amountA ← DecCoins_AmountOf coins (Denom cB);
      if Dec_GT (Amount cB) amountA then Ok false else DecCoins_IsAllGTE_loop coins rest
  end.
Definition DecCoins_IsAllGTE (coins coinsB : DecCoins) : outcome bool :=
  if DecCoins_Empty coinsB then Ok true
  else if DecCoins_Empty coins then Ok false
  else DecCoins_IsAllGTE_loop coins coinsB.
Definition DecCoins_IsAllLT (coins coinsB : DecCoins) : outcome bool :=
  DecCoins_IsAllGT coinsB coins.
Definition DecCoins_IsAllLTE (coins coinsB : DecCoins) : outcome bool :=
  DecCoins_IsAllGTE coinsB coins.

Fixpoint DecCoins_IsAnyGT_loop (coins coinsB : DecCoins) : outcome bool :=
  match coins with
  | [] => Ok false
  | c :: rest =>
      amt ← DecCoins_AmountOf coinsB (Denom c);
      if Dec_GT (Amount c) amt && negb (Dec_IsZero amt) then Ok true
      else DecCoins_IsAnyGT_loop rest coinsB
  end.
Definition DecCoins_IsAnyGT (coins coinsB : DecCoins) : outcome bool :=
  if DecCoins_Empty coinsB then Ok false else DecCoins_IsAnyGT_loop coins coinsB.

Fixpoint DecCoins_IsAnyGTE_loop (coins coinsB : DecCoins) : outcome bool :=
  match coins with
  | [] => Ok false
  | c :: rest =>
      amt ← DecCoins_AmountOf coinsB (Denom c);
      if Dec_GTE (Amount c) amt && negb (Dec_IsZero amt) then Ok true
      else DecCoins_IsAnyGTE_loop rest coinsB
  end.
Definition DecCoins_IsAnyGTE (coins coinsB : DecCoins) : outcome bool :=
  if DecCoins_Empty coinsB then Ok false else DecCoins_IsAnyGTE_loop coins coinsB.

(** [Intersect]: the minimum of the amounts, denomination by denomination. *)
Fixpoint DecCoins_Intersect_loop (coins coinsB : DecCoins) : outcome DecCoins :=
  match coins with
  | [] => Ok []
  | c :: rest =>
      a ← DecCoins_AmountOf coinsB (Denom c);
      res ← DecCoins_Intersect_loop rest coinsB;
      Ok (mkDecCoin (Denom c) (MinDec (Amount c) a) :: res)
  end.
Definition DecCoins_Intersect (coins coinsB : DecCoins) : outcome DecCoins :=
  res ← DecCoins_Intersect_loop coins coinsB; Ok (removeZeroDecCoins res).

(** The loop of [MulDec], [MulDecTruncate], [QuoDec] and [QuoDecTruncate]:
    a function applied to every amount, the non-zero results added up. *)
Fixpoint DecCoins_mapAdd (f : Dec → outcome Dec) (coins res : DecCoins) : outcome DecCoins :=
  match coins with
  | [] => Ok res
  | c :: rest =>
      a ← f (Amount c);
      let product := mkDecCoin (Denom c) a in
      res ← (if negb (DecCoin_IsZero product) then DecCoins_Add res [product] else Ok res);
      DecCoins_mapAdd f rest res
  end.
Definition DecCoins_MulDec (coins : DecCoins) (d : Dec) : outcome DecCoins :=
  DecCoins_mapAdd (λ a, Dec_Mul a d) coins [].
Definition DecCoins_MulDecTruncate (coins : DecCoins) (d : Dec) : outcome DecCoins :=
  DecCoins_mapAdd (λ a, Dec_MulTruncate a d) coins [].
Definition DecCoins_QuoDec (coins : DecCoins) (d : Dec) : outcome DecCoins :=
  if Dec_IsZero d then Panic "invalid zero decimal"
  else DecCoins_mapAdd (λ a, Dec_Quo a d) coins [].
Definition DecCoins_QuoDecTruncate (coins : DecCoins) (d : Dec) : outcome DecCoins :=
  if Dec_IsZero d then Panic "invalid zero decimal"
  else DecCoins_mapAdd (λ a, Dec_QuoTruncate a d) coins [].

(** The loop of [TruncateDecimal] and [TruncateWithPrec]. *)
Fixpoint DecCoins_splitLoop (f : DecCoin → outcome (DecCoin * DecCoin))
    (coins truncatedCoins changeCoins : DecCoins) : outcome (DecCoins * DecCoins) :=
  match coins with
  | [] => Ok (truncatedCoins, changeCoins)
  | c :: rest =>
      '(truncated, change) ← f c;
      t ← (if negb (DecCoin_IsZero truncated) then DecCoins_Add truncatedCoins [truncated]
           else Ok truncatedCoins);
      ch ← (if negb (DecCoin_IsZero change) then DecCoins_Add changeCoins [change]
            else Ok changeCoins);
      DecCoins_splitLoop f rest t ch
  end.
Definition DecCoins_TruncateDecimal (coins : DecCoins) : outcome (DecCoins * DecCoins) :=
  DecCoins_splitLoop DecCoin_TruncateDecimal coins [] [].
Definition DecCoins_TruncateWithPrec (coins : DecCoins) (prec : Z)
    : outcome (DecCoins * DecCoins) :=
  DecCoins_splitLoop (λ c, DecCoin_TruncateWithPrec c prec) coins [] [].

(** ** Specification of coin sets *)

(** What a coin set holds of a denomination, however the slice is arranged. *)
Definition amount_of (coins : DecCoins) (d : string) : Z :=
  foldr (λ c acc, (if String.eqb (Denom c) d then Amount c else 0) + acc) 0 coins.

(** Sorted by denomination without duplicates; amounts all non-zero, all
    positive. *)
Definition coins_sorted (coins : DecCoins) : Prop :=
  StronglySorted (λ a b, str_lt (Denom a) (Denom b)) coins.
Definition coins_nonzero (coins : DecCoins) : Prop := Forall (λ c, Amount c ≠ 0) coins.
Definition coins_pos (coins : DecCoins) : Prop := Forall (λ c, 0 < Amount c) coins.

(** The form in which the store keeps coins. *)
Definition wf_coins (coins : DecCoins) : Prop := coins_sorted coins ∧ coins_pos coins.

Section AmountFacts.

Lemma amount_of_nil d : amount_of [] d = 0.
Proof. done. Qed.

Lemma amount_of_cons c l d :
  amount_of (c :: l) d = (if String.eqb (Denom c) d then Amount c else 0) + amount_of l d.
Proof. done. Qed.

Lemma amount_of_app l k d : amount_of (l ++ k) d = amount_of l d + amount_of k d.
Proof.
  induction l as [|c l IH]; [done|]. rewrite <- app_comm_cons, !amount_of_cons, IH. lia.
Qed.

Lemma amount_of_perm l k d : l ≡ₚ k → amount_of l d = amount_of k d.
Proof.
  induction 1; rewrite ?amount_of_cons; lia.
Qed.

Lemma amount_of_one c d : amount_of [c] d = if String.eqb (Denom c) d then Amount c else 0.
Proof. rewrite amount_of_cons, amount_of_nil. lia. Qed.

(** A denomination below the first one of a sorted set is not in it. *)
Lemma amount_of_lt l d : Forall (λ c, str_lt d (Denom c)) l → amount_of l d = 0.
Proof.
  induction 1 as [|c l Hc _ IH]; [done|]. rewrite amount_of_cons, IH.
  destruct (String.eqb_spec (Denom c) d) as [<-|]; [by apply str_lt_irrefl in Hc|lia].
Qed.

Lemma amount_of_gt l d : Forall (λ c, str_lt (Denom c) d) l → amount_of l d = 0.
Proof.
  induction 1 as [|c l Hc _ IH]; [done|]. rewrite amount_of_cons, IH.
  destruct (String.eqb_spec (Denom c) d) as [<-|]; [by apply str_lt_irrefl in Hc|lia].
Qed.

Lemma amount_of_nonneg l d : Forall (λ c, 0 ≤ Amount c) l → 0 ≤ amount_of l d.
Proof.
  induction 1 as [|c l Hc _ IH]; [done|]. rewrite amount_of_cons.
  destruct (String.eqb _ _); lia.
Qed.

Lemma coins_pos_nonneg l : coins_pos l → Forall (λ c, 0 ≤ Amount c) l.
Proof. intros H. eapply Forall_impl; [exact H|]. cbn. intros; lia. Qed.

Lemma wf_amount_nonneg l d : wf_coins l → 0 ≤ amount_of l d.
Proof. intros [_ ?]. by apply amount_of_nonneg, coins_pos_nonneg. Qed.

Lemma coins_sorted_inv c l :
  coins_sorted (c :: l) → coins_sorted l ∧ Forall (λ x, str_lt (Denom c) (Denom x)) l.
Proof. intros H. by inversion H. Qed.

Lemma coins_sorted_nil : coins_sorted [].
Proof. constructor. Qed.

Lemma coins_sorted_one c : coins_sorted [c].
Proof. constructor; [constructor|done]. Qed.

Lemma wf_coins_nil : wf_coins [].
Proof. split; constructor. Qed.

(** In a sorted set the amount of a member's denomination is its amount. *)
Lemma amount_of_head c l : coins_sorted (c :: l) → amount_of (c :: l) (Denom c) = Amount c.
Proof.
  intros [_ H]%coins_sorted_inv. rewrite amount_of_cons, String.eqb_refl, amount_of_lt by done.
  lia.
Qed.

Lemma amount_of_elem c l : coins_sorted l → c ∈ l → amount_of l (Denom c) = Amount c.
Proof.
  induction l as [|x l IH]; intros Hs Hc; [by apply elem_of_nil in Hc|].
  apply elem_of_cons in Hc as [->|Hc]; [by apply amount_of_head|].
  apply coins_sorted_inv in Hs as [Hs Hl]. rewrite amount_of_cons, IH by done.
  destruct (String.eqb_spec (Denom x) (Denom c)) as [E|]; [|lia].
  rewrite Forall_forall in Hl. apply Hl in Hc. rewrite E in Hc. by apply str_lt_irrefl in Hc.
Qed.

Lemma amount_of_absent l d : amount_of l d ≠ 0 → ∃ c, c ∈ l ∧ Denom c = d.
Proof.
  induction l as [|x l IH]; [done|]. rewrite amount_of_cons.
  destruct (String.eqb_spec (Denom x) d) as [<-|].
  - intros _. exists x. by split; [left|].
  - intros H. destruct IH as (c & Hc & <-); [lia|]. exists c. by split; [right|].
Qed.

(** Two sorted sets without zero amounts that hold the same are the same
    slice. *)
Lemma coins_ext l k :
  coins_sorted l → coins_sorted k → coins_nonzero l → coins_nonzero k →
  (∀ d, amount_of l d = amount_of k d) → l = k.
Proof.
  revert k. induction l as [|c l IH]; intros [|e k] Sl Sk Nl Nk H.
  - done.
  - specialize (H (Denom e)). rewrite amount_of_head in H by done.
    apply Forall_cons in Nk as [Nk _]. done.
  - specialize (H (Denom c)). rewrite amount_of_head in H by done.
    apply Forall_cons in Nl as [Nl _]. done.
  - pose proof (coins_sorted_inv _ _ Sl) as [Sl' Hl].
    pose proof (coins_sorted_inv _ _ Sk) as [Sk' Hk].
    pose proof (proj1 (Forall_cons _ _ _) Nl) as [Nc Nl'].
    pose proof (proj1 (Forall_cons _ _ _) Nk) as [Ne Nk'].
    assert (∀ x y xs ys, coins_sorted (x :: xs) → coins_sorted (y :: ys) → Amount x ≠ 0 →
      (∀ d, amount_of (x :: xs) d = amount_of (y :: ys) d) →
      ¬ str_lt (Denom x) (Denom y)) as Hlt.
    { intros x y xs ys Sx Sy Nx E L. specialize (E (Denom x)).
      rewrite amount_of_head in E by done. rewrite amount_of_lt in E; [done|].
      apply coins_sorted_inv in Sy as [_ Sy]. constructor; [done|].
      eapply Forall_impl; [exact Sy|]. intros z Hz. by eapply str_lt_trans. }
    destruct (str_lt_total (Denom c) (Denom e)) as [L|[E|L]].
    + by eapply Hlt in L.
    + pose proof (H (Denom c)) as Ha. rewrite amount_of_head in Ha by done.
      rewrite E in Ha. rewrite amount_of_head in Ha by done.
      assert (c = e) as -> by (destruct c, e; cbn in *; congruence).
      f_equal. apply IH; try done. intros d. specialize (H d).
      rewrite !amount_of_cons in H. lia.
    + by eapply Hlt in L.
Qed.

Lemma coins_pos_nonzero l : coins_pos l → coins_nonzero l.
Proof. intros H. eapply Forall_impl; [exact H|]. cbn. intros; lia. Qed.

Lemma wf_coins_ext l k :
  wf_coins l → wf_coins k → (∀ d, amount_of l d = amount_of k d) → l = k.
Proof. intros [? ?] [? ?] ?. apply coins_ext; auto using coins_pos_nonzero. Qed.

End AmountFacts.

(** ** Addition and subtraction *)

Section SafeAddFacts.

Lemma DecCoin_IsZero_eq c : DecCoin_IsZero c = (Amount c =? 0).
Proof. apply sgn_zero. Qed.
Lemma DecCoin_IsNegative_eq c : DecCoin_IsNegative c = (Amount c <? 0).
Proof. apply sgn_neg. Qed.
Lemma DecCoin_IsPositive_eq c : DecCoin_IsPositive c = (0 <? Amount c).
Proof. apply sgn_pos. Qed.

Lemma removeZero_cons c l :
  removeZeroDecCoins (c :: l)
  = if DecCoin_IsZero c then removeZeroDecCoins l else c :: removeZeroDecCoins l.
Proof.
  unfold removeZeroDecCoins. rewrite filter_cons. by destruct (DecCoin_IsZero c).
Qed.

Lemma removeZero_amount l d : amount_of (removeZeroDecCoins l) d = amount_of l d.
Proof.
  induction l as [|c l IH]; [done|]. rewrite removeZero_cons, DecCoin_IsZero_eq.
  rewrite amount_of_cons. destruct (Z.eqb_spec (Amount c) 0) as [->|];
    rewrite ?amount_of_cons, IH; [by destruct (String.eqb _ _)|done].
Qed.

Lemma removeZero_sub l : removeZeroDecCoins l `sublist_of` l.
Proof. apply sublist_filter. Qed.

Lemma removeZero_nonzero l : coins_nonzero (removeZeroDecCoins l).
Proof.
  apply Forall_forall. intros c [Hc _]%list_elem_of_filter.
  rewrite DecCoin_IsZero_eq in Hc. bool_prop. done.
Qed.

Lemma removeZero_Forall (P : DecCoin → Prop) l : Forall P l → Forall P (removeZeroDecCoins l).
Proof. rewrite !Forall_forall. intros H c [_ Hc]%list_elem_of_filter. auto. Qed.

Lemma removeZero_sorted l : coins_sorted l → coins_sorted (removeZeroDecCoins l).
Proof.
  induction l as [|c l IH]; intros H; [done|]. rewrite removeZero_cons.
  apply coins_sorted_inv in H as [Hs Hl]. destruct (DecCoin_IsZero c); [by apply IH|].
  constructor; [by apply IH|by apply removeZero_Forall].
Qed.

Lemma removeZero_id l : coins_nonzero l → removeZeroDecCoins l = l.
Proof.
  induction 1 as [|c l Hc _ IH]; [done|]. rewrite removeZero_cons, IH, DecCoin_IsZero_eq.
  by destruct (Z.eqb_spec (Amount c) 0).
Qed.

Lemma safeAdd_nil_l B : DecCoins_safeAdd [] B = Ok (removeZeroDecCoins B).
Proof. by destruct B. Qed.

Lemma safeAdd_nil_r A : DecCoins_safeAdd A [] = Ok (removeZeroDecCoins A).
Proof. by destruct A. Qed.

Lemma safeAdd_cons a A b B :
  DecCoins_safeAdd (a :: A) (b :: B) =
  match String.compare (Denom a) (Denom b) with
  | Lt => sum ← DecCoins_safeAdd A (b :: B);
          Ok (if DecCoin_IsZero a then sum else a :: sum)
  | Eq => res ← DecCoin_Add a b; sum ← DecCoins_safeAdd A B;
          Ok (if DecCoin_IsZero res then sum else res :: sum)
  | Gt => sum ← DecCoins_safeAdd (a :: A) B;
          Ok (if DecCoin_IsZero b then sum else b :: sum)
  end.
Proof. done. Qed.

(** Induction along the merge. *)
Lemma merge_induction (P : DecCoins → DecCoins → Prop) :
  (∀ B, P [] B) → (∀ A, P A []) →
  (∀ a A b B, str_lt (Denom a) (Denom b) → P A (b :: B) → P (a :: A) (b :: B)) →
  (∀ a A b B, Denom a = Denom b → P A B → P (a :: A) (b :: B)) →
  (∀ a A b B, str_lt (Denom b) (Denom a) → P (a :: A) B → P (a :: A) (b :: B)) →
  ∀ A B, P A B.
Proof.
  intros Hl Hr Hlt Heq Hgt A. induction A as [|a A IHA]; intros B; [done|].
  induction B as [|b B IHB]; [done|].
  destruct (str_lt_total (Denom a) (Denom b)) as [?|[?|?]]; auto.
Qed.

Lemma str_compare_lt a b : str_lt a b → String.compare a b = Lt.
Proof. apply str_lt_cmp. Qed.
Lemma str_compare_gt a b : str_lt b a → String.compare a b = Gt.
Proof. apply str_compare_Gt. Qed.

Lemma DecCoin_Add_Ok a b c :
  DecCoin_Add a b = Ok c ↔
  Denom a = Denom b ∧ c = mkDecCoin (Denom a) (Amount a + Amount b)
  ∧ dec_fits (Amount a + Amount b).
Proof.
  unfold DecCoin_Add, sameDenom. destruct (String.eqb_spec (Denom a) (Denom b)); cbn [negb].
  - rewrite outcome_bind_Ok. setoid_rewrite Dec_Add_Ok. naive_solver.
  - naive_solver.
Qed.
Lemma DecCoin_Sub_Ok a b c :
  DecCoin_Sub a b = Ok c →
  Denom a = Denom b ∧ c = mkDecCoin (Denom a) (Amount a - Amount b) ∧ Amount b ≤ Amount a.
Proof.
  unfold DecCoin_Sub, sameDenom. destruct (String.eqb_spec (Denom a) (Denom b)); [|done].
  cbn [negb]. intros H1. apply outcome_bind_Ok in H1 as (x & Hx & H1).
  apply Dec_Sub_Ok in Hx as [-> _]. rewrite DecCoin_IsNegative_eq in H1. cbn in H1.
  destruct (Z.ltb_spec (Amount a - Amount b) 0); [done|]. injection H1 as <-. split; [done|].
  split; [done|lia].
Qed.

(** Everything the callers use about a sum that was computed. *)
Lemma safeAdd_amount A B C d :
  DecCoins_safeAdd A B = Ok C → amount_of C d = amount_of A d + amount_of B d.
Proof.
  revert C. pattern A, B. apply merge_induction; clear A B.
  - intros B C. rewrite safeAdd_nil_l. intros [= <-]. by rewrite removeZero_amount.
  - intros A C. rewrite safeAdd_nil_r. intros [= <-]. rewrite removeZero_amount. cbn. lia.
  - intros a A b B Hlt IH C. rewrite safeAdd_cons, (str_compare_lt _ _ Hlt).
    intros (s & Hs & [= <-])%outcome_bind_Ok. apply IH in Hs.
    rewrite (amount_of_cons a), DecCoin_IsZero_eq.
    destruct (Z.eqb_spec (Amount a) 0) as [->|]; rewrite ?(amount_of_cons a);
      destruct (String.eqb (Denom a) d); lia.
  - intros a A b B Heq IH C. rewrite safeAdd_cons, Heq, str_compare_refl.
    intros (r & Hr & (s & Hs & [= <-])%outcome_bind_Ok)%outcome_bind_Ok.
    apply DecCoin_Add_Ok in Hr as (_ & -> & _).
    apply IH in Hs. rewrite (amount_of_cons a), (amount_of_cons b), Heq, DecCoin_IsZero_eq.
    cbn [Amount]. destruct (Z.eqb_spec (Amount a + Amount b) 0);
      rewrite ?amount_of_cons; cbn [Denom Amount]; destruct (String.eqb _ _); lia.
  - intros a A b B Hlt IH C. rewrite safeAdd_cons, (str_compare_gt _ _ Hlt).
    intros (s & Hs & [= <-])%outcome_bind_Ok. apply IH in Hs. rewrite (amount_of_cons b), DecCoin_IsZero_eq.
    destruct (Z.eqb_spec (Amount b) 0) as [->|]; rewrite ?(amount_of_cons b);
      destruct (String.eqb (Denom b) d); lia.
Qed.

Lemma safeAdd_nonzero A B C : DecCoins_safeAdd A B = Ok C → coins_nonzero C.
Proof.
  revert C. pattern A, B. apply merge_induction; clear A B.
  - intros B C. rewrite safeAdd_nil_l. intros [= <-]. apply removeZero_nonzero.
  - intros A C. rewrite safeAdd_nil_r. intros [= <-]. apply removeZero_nonzero.
  - intros a A b B Hlt IH C. rewrite safeAdd_cons, (str_compare_lt _ _ Hlt), DecCoin_IsZero_eq.
    intros (s & Hs & [= <-])%outcome_bind_Ok. apply IH in Hs.
    case_match; bool_prop; [done|by constructor].
  - intros a A b B Heq IH C. rewrite safeAdd_cons, Heq, str_compare_refl.
    intros (r & _ & (s & Hs & [= <-])%outcome_bind_Ok)%outcome_bind_Ok.
    apply IH in Hs. rewrite DecCoin_IsZero_eq. case_match; bool_prop; [done|by constructor].
  - intros a A b B Hlt IH C. rewrite safeAdd_cons, (str_compare_gt _ _ Hlt), DecCoin_IsZero_eq.
    intros (s & Hs & [= <-])%outcome_bind_Ok. apply IH in Hs.
    case_match; bool_prop; [done|by constructor].
Qed.

Lemma safeAdd_denoms (P : string → Prop) A B C :
  Forall (λ c, P (Denom c)) A → Forall (λ c, P (Denom c)) B →
  DecCoins_safeAdd A B = Ok C → Forall (λ c, P (Denom c)) C.
Proof.
  revert C. pattern A, B. apply merge_induction; clear A B.
  - intros B C _ HB. rewrite safeAdd_nil_l. intros [= <-]. by apply removeZero_Forall.
  - intros A C HA _. rewrite safeAdd_nil_r. intros [= <-]. by apply removeZero_Forall.
  - intros a A b B Hlt IH C HA HB. rewrite safeAdd_cons, (str_compare_lt _ _ Hlt).
    apply Forall_cons in HA as [Ha HA].
    intros (s & Hs & [= <-])%outcome_bind_Ok. destruct (DecCoin_IsZero a); eauto.
  - intros a A b B Heq IH C HA HB. rewrite safeAdd_cons, Heq, str_compare_refl.
    apply Forall_cons in HA as [Ha HA], HB as [Hb HB].
    intros (r & Hr & (s & Hs & [= <-])%outcome_bind_Ok)%outcome_bind_Ok.
    apply DecCoin_Add_Ok in Hr as (_ & -> & _). destruct (DecCoin_IsZero _); eauto.
  - intros a A b B Hlt IH C HA HB. rewrite safeAdd_cons, (str_compare_gt _ _ Hlt).
    apply Forall_cons in HB as [Hb HB].
    intros (s & Hs & [= <-])%outcome_bind_Ok. destruct (DecCoin_IsZero b); eauto.
Qed.

Lemma sorted_cons_if (z : bool) c l :
  coins_sorted l → Forall (λ x, str_lt (Denom c) (Denom x)) l →
  coins_sorted (if z then l else c :: l).
Proof. destruct z; [done|]. by constructor. Qed.

Lemma sorted_above a b B :
  str_lt a (Denom b) → coins_sorted (b :: B) → Forall (λ x, str_lt a (Denom x)) (b :: B).
Proof.
  intros L [_ H]%coins_sorted_inv. constructor; [done|].
  eapply Forall_impl; [exact H|]. intros x. by apply str_lt_trans.
Qed.

Lemma safeAdd_sorted A B C :
  coins_sorted A → coins_sorted B → DecCoins_safeAdd A B = Ok C → coins_sorted C.
Proof.
  revert C. pattern A, B. apply merge_induction; clear A B.
  - intros B C _ HB. rewrite safeAdd_nil_l. intros [= <-]. by apply removeZero_sorted.
  - intros A C HA _. rewrite safeAdd_nil_r. intros [= <-]. by apply removeZero_sorted.
  - intros a A b B Hlt IH C HA HB. rewrite safeAdd_cons, (str_compare_lt _ _ Hlt).
    pose proof (coins_sorted_inv _ _ HA) as [HA' Ha].
    intros (s & Hs & [= <-])%outcome_bind_Ok.
    apply sorted_cons_if; [eauto|]. eapply (safeAdd_denoms (str_lt (Denom a))); [| |done]; [done|].
    by apply sorted_above.
  - intros a A b B Heq IH C HA HB. rewrite safeAdd_cons, Heq, str_compare_refl.
    pose proof (coins_sorted_inv _ _ HA) as [HA' Ha].
    pose proof (coins_sorted_inv _ _ HB) as [HB' Hb].
    intros (r & Hr & (s & Hs & [= <-])%outcome_bind_Ok)%outcome_bind_Ok.
    apply DecCoin_Add_Ok in Hr as (_ & -> & _). apply sorted_cons_if; [eauto|]. cbn [Denom].
    eapply (safeAdd_denoms (str_lt (Denom a))); [| |done]; [done|by rewrite Heq].
  - intros a A b B Hlt IH C HA HB. rewrite safeAdd_cons, (str_compare_gt _ _ Hlt).
    pose proof (coins_sorted_inv _ _ HB) as [HB' Hb].
    intros (s & Hs & [= <-])%outcome_bind_Ok.
    apply sorted_cons_if; [eauto|]. eapply (safeAdd_denoms (str_lt (Denom b))); [| |done]; [|done].
    by apply sorted_above.
Qed.

(** On sorted sets the sum is computed as soon as every denomination's total
    is in range. *)
Lemma safeAdd_total A B :
  coins_sorted A → coins_sorted B →
  (∀ d, dec_fits (amount_of A d + amount_of B d)) →
  ∃ C, DecCoins_safeAdd A B = Ok C.
Proof.
  pattern A, B. apply merge_induction; clear A B.
  - intros B _ _ _. rewrite safeAdd_nil_l. eauto.
  - intros A _ _ _. rewrite safeAdd_nil_r. eauto.
  - intros a A b B Hlt IH HA HB HF. rewrite safeAdd_cons, (str_compare_lt _ _ Hlt).
    pose proof (coins_sorted_inv _ _ HA) as [HA' Ha]. destruct IH as [C ->]; [done..| |eauto].
    intros d. specialize (HF d). rewrite (amount_of_cons a) in HF.
    destruct (String.eqb_spec (Denom a) d) as [E|]; [subst d|by rewrite Z.add_0_l in HF].
    rewrite !amount_of_lt by (done || by apply sorted_above). done.
  - intros a A b B Heq IH HA HB HF. rewrite safeAdd_cons, Heq, str_compare_refl.
    pose proof (coins_sorted_inv _ _ HA) as [HA' Ha].
    pose proof (coins_sorted_inv _ _ HB) as [HB' Hb].
    assert (dec_fits (Amount a + Amount b)) as F.
    { specialize (HF (Denom a)). rewrite amount_of_head in HF by done.
      rewrite Heq, amount_of_head in HF by done. done. }
    rewrite (proj2 (DecCoin_Add_Ok a b _)) by done. cbn [mbind outcome_bind].
    destruct IH as [C ->]; [done..| |cbn; eauto].
    intros d. specialize (HF d). rewrite (amount_of_cons a), (amount_of_cons b) in HF.
    rewrite Heq in HF, Ha. destruct (String.eqb_spec (Denom b) d) as [E|].
    + subst d. rewrite !amount_of_lt by done. done.
    + by rewrite !Z.add_0_l in HF.
  - intros a A b B Hlt IH HA HB HF. rewrite safeAdd_cons, (str_compare_gt _ _ Hlt).
    pose proof (coins_sorted_inv _ _ HB) as [HB' Hb]. destruct IH as [C ->]; [done..| |cbn; eauto].
    intros d. specialize (HF d). rewrite (amount_of_cons b) in HF.
    destruct (String.eqb_spec (Denom b) d) as [E|]; [subst d|by rewrite Z.add_0_l in HF].
    rewrite !amount_of_lt by (done || by apply sorted_above). done.
Qed.

Lemma negative_amount l d : amount_of (DecCoins_negative l) d = - amount_of l d.
Proof.
  induction l as [|c l IH]; [done|]. cbn [DecCoins_negative fmap list_fmap].
  rewrite !amount_of_cons. fold (DecCoins_negative l). rewrite IH. cbn.
  unfold Dec_Neg. destruct (String.eqb _ _); lia.
Qed.

Lemma negative_sorted l : coins_sorted l → coins_sorted (DecCoins_negative l).
Proof.
  induction 1 as [|c l _ IH Hc]; [constructor|]. constructor; [done|]. apply Forall_fmap.
  eapply Forall_impl; [exact Hc|]. done.
Qed.

Lemma IsAnyNegative_spec l : DecCoins_IsAnyNegative l = true ↔ ∃ c, c ∈ l ∧ Amount c < 0.
Proof.
  unfold DecCoins_IsAnyNegative. rewrite existsb_exists.
  setoid_rewrite DecCoin_IsNegative_eq. setoid_rewrite Z.ltb_lt.
  setoid_rewrite list_elem_of_In. done.
Qed.

Lemma IsAnyNegative_amount l :
  coins_sorted l → DecCoins_IsAnyNegative l = true ↔ ∃ d, amount_of l d < 0.
Proof.
  intros Hs. rewrite IsAnyNegative_spec. split.
  - intros (c & Hc & Hn). exists (Denom c). by rewrite amount_of_elem.
  - intros (d & Hd). destruct (amount_of_absent l d) as (c & Hc & <-); [lia|].
    exists c. split; [done|]. by rewrite amount_of_elem in Hd.
Qed.

End SafeAddFacts.

(** ** Lookup, validity and constructors *)

Section LookupFacts.

Lemma coins_sorted_app l k :
  coins_sorted (l ++ k) → coins_sorted l ∧ coins_sorted k
  ∧ ∀ x y, x ∈ l → y ∈ k → str_lt (Denom x) (Denom y).
Proof.
  induction l as [|c l IH]; intros H.
  - split; [constructor|]. split; [done|]. intros x y Hx. by apply elem_of_nil in Hx.
  - apply coins_sorted_inv in H as [H Hc]. apply IH in H as (Hl & Hk & Hlk).
    apply Forall_app in Hc as [Hcl Hck]. split; [by constructor|]. split; [done|].
    intros x y [->|Hx]%elem_of_cons Hy; [|auto]. by eapply Forall_forall in Hck.
Qed.

(** A split of a sorted set around the coin at an index. *)
Lemma coins_split coins i c :
  coins_sorted coins → coins !! i = Some c →
  let l := take i coins in let r := drop (S i) coins in
  coins_sorted l ∧ coins_sorted r ∧
  (∀ d, amount_of coins d
        = amount_of l d + (if String.eqb (Denom c) d then Amount c else 0) + amount_of r d) ∧
  Forall (λ x, str_lt (Denom x) (Denom c)) l ∧ Forall (λ x, str_lt (Denom c) (Denom x)) r.
Proof.
  intros Hs Hi l r. pose proof (take_drop_middle coins i c Hi) as E. fold l r in E.
  rewrite <- E in Hs. apply coins_sorted_app in Hs as (Hl & Hcr & Hlt).
  apply coins_sorted_inv in Hcr as [Hr Hc]. split; [done|]. split; [done|]. split.
  - intros d. rewrite <- E, amount_of_app, amount_of_cons. lia.
  - split; [|done]. apply Forall_forall. intros x Hx. apply Hlt; [done|]. left.
Qed.

Lemma AmountOf_search_correct fuel : ∀ coins denom,
  coins_sorted coins → (length coins ≤ fuel)%nat →
  DecCoins_AmountOf_search fuel coins denom = amount_of coins denom.
Proof.
  induction fuel as [|fuel IH]; intros [|c0 [|c1 rest]] denom Hs Hlen; cbn in Hlen; try lia; try done.
  - rewrite amount_of_one. done.
  - cbn [DecCoins_AmountOf_search]. set (coins := c0 :: c1 :: rest) in *.
    assert (length coins = S (S (length rest))) as L by done.
    set (m := (length coins / 2)%nat).
    assert (1 ≤ m < length coins)%nat as Hm.
    { subst m. split; [apply Nat.div_le_lower_bound; lia|apply Nat.div_lt; lia]. }
    destruct (lookup_lt_is_Some_2 coins m) as [c Hc]; [lia|]. rewrite Hc.
    destruct (coins_split coins m c Hs Hc) as (Hl & Hr & Ha & Fl & Fr).
    destruct (String.compare denom (Denom c)) eqn:Hcmp; rewrite Ha.
    + apply str_compare_Eq in Hcmp as ->.
      rewrite String.eqb_refl, amount_of_gt, amount_of_lt by done. lia.
    + apply str_lt_cmp in Hcmp. rewrite IH by (done || rewrite length_take; lia).
      rewrite (amount_of_lt (drop _ _)).
      2: { eapply Forall_impl; [exact Fr|]. intros x. by apply str_lt_trans. }
      destruct (String.eqb_spec (Denom c) denom) as [E|]; [|lia].
      subst. by apply str_lt_irrefl in Hcmp.
    + apply str_compare_Gt in Hcmp. rewrite IH by (done || rewrite length_drop; lia).
      rewrite (amount_of_gt (take _ _)).
      2: { eapply Forall_impl; [exact Fl|]. intros x Hx. exact (str_lt_trans _ _ _ Hx Hcmp). }
      destruct (String.eqb_spec (Denom c) denom) as [E|]; [|lia].
      subst. by apply str_lt_irrefl in Hcmp.
Qed.

Lemma AmountOf_eq coins denom :
  coins_sorted coins → validDenom denom = true →
  DecCoins_AmountOf coins denom = Ok (amount_of coins denom).
Proof.
  intros Hs Hd. unfold DecCoins_AmountOf. rewrite mustValidateDenom_valid by done.
  cbn. by rewrite AmountOf_search_correct.
Qed.

Lemma AmountOf_Ok coins denom a :
  coins_sorted coins → DecCoins_AmountOf coins denom = Ok a →
  a = amount_of coins denom ∧ validDenom denom = true.
Proof.
  intros Hs H. unfold DecCoins_AmountOf in H. inv_ok.
  rewrite AmountOf_search_correct by done. split; [done|]. by eapply mustValidateDenom_Ok.
Qed.

(** [IsValid] guarantees the stored form. *)
Lemma IsValid_loop_wf low coins :
  DecCoins_IsValid_loop low coins = true →
  wf_coins coins ∧ Forall (λ c, str_lt low (Denom c)) coins.
Proof.
  revert low. induction coins as [|c l IH]; intros low H; cbn in H.
  - split; [apply wf_coins_nil|constructor].
  - repeat case_match; try done; bool_prop.
    rewrite DecCoin_IsPositive_eq in *. bool_prop. destruct (IH _ H) as [[Hs Hp] Hl].
    split; [split; by constructor|]. constructor; [done|].
    eapply Forall_impl; [exact Hl|]. intros x. by apply str_lt_trans.
Qed.

Lemma IsValid_wf coins : DecCoins_IsValid coins = true → wf_coins coins.
Proof.
  destruct coins as [|c l]; intros H; [apply wf_coins_nil|]. cbn in H.
  repeat case_match; try done; bool_prop. rewrite DecCoin_IsPositive_eq in *. bool_prop.
  apply IsValid_loop_wf in H as [[Hs Hp] Hl]. split; by constructor.
Qed.

Lemma Sort_perm coins : DecCoins_Sort coins ≡ₚ coins.
Proof. apply merge_sort_Permutation. Qed.

Lemma NewCoins_cases coins c :
  NewCoins coins = Ok c →
  c = [] ∧ removeZeroDecCoins coins = []
  ∨ c ≡ₚ removeZeroDecCoins coins ∧ DecCoins_IsValid c = true.
Proof.
  unfold NewCoins. destruct (removeZeroDecCoins coins) as [|x l] eqn:E; [naive_solver|].
  intros H. right. case_bool_decide; cbn beta zeta in H;
    (repeat case_match; try done; bool_prop; injection H as <-); split; try done.
  apply Sort_perm.
Qed.

(** What [NewCoins] returns, when it does not panic, is a stored form that
    holds the same amounts. *)
Lemma NewCoins_wf coins c : NewCoins coins = Ok c → wf_coins c.
Proof.
  intros [[-> _]|[_ H]]%NewCoins_cases; [apply wf_coins_nil|by apply IsValid_wf].
Qed.

Lemma NewCoins_amount coins c d : NewCoins coins = Ok c → amount_of c d = amount_of coins d.
Proof.
  intros [[-> E]|[H _]]%NewCoins_cases; rewrite <- (removeZero_amount coins).
  - by rewrite E.
  - by apply amount_of_perm.
Qed.

Lemma NewDecCoinFromDec_Ok denom amount c :
  NewDecCoinFromDec denom amount = Ok c ↔
  validDenom denom = true ∧ 0 ≤ amount ∧ c = mkDecCoin denom amount.
Proof.
  unfold NewDecCoinFromDec. rewrite outcome_bind_Ok. setoid_rewrite mustValidateDenom_Ok.
  rewrite Dec_IsNegative_eq. destruct (Z.ltb_spec amount 0); naive_solver lia.
Qed.

Lemma NewDecCoin_Ok denom amount c :
  NewDecCoin denom amount = Ok c ↔
  validDenom denom = true ∧ 0 ≤ amount ∧ c = mkDecCoin denom (amount * 10 ^ 18).
Proof.
  unfold NewDecCoin, DecCoin_validate, validDenom, Int_IsNegative. rewrite sgn_neg.
  destruct (ValidateDenom denom) as [u|e|p]; cbn; [|naive_solver..].
  destruct (Z.ltb_spec amount 0); cbn; [naive_solver lia|].
  change (10 ^ (Precision - 0)) with (10 ^ 18). naive_solver.
Qed.

(** One coin as a set. *)
Lemma NewCoins_one denom amount c cs :
  NewDecCoinFromDec denom amount = Ok c → NewCoins [c] = Ok cs →
  cs = if amount =? 0 then [] else [c].
Proof.
  intros (Hd & Ha & ->)%NewDecCoinFromDec_Ok H.
  apply NewCoins_cases in H. rewrite removeZero_cons, DecCoin_IsZero_eq in H.
  cbn [Amount] in *. destruct (Z.eqb_spec amount 0); destruct H as [[-> E]|[E V]]; try done.
  - symmetry in E. by apply Permutation_nil in E.
  - by apply Permutation_singleton_r in E.
Qed.

Lemma NewCoins_one_total denom amount :
  validDenom denom = true → 0 ≤ amount →
  NewCoins [mkDecCoin denom amount]
  = Ok (if amount =? 0 then [] else [mkDecCoin denom amount]).
Proof.
  intros Hd Ha. unfold NewCoins. rewrite removeZero_cons, DecCoin_IsZero_eq. cbn [Amount].
  destruct (Z.eqb_spec amount 0); [done|]. rewrite bool_decide_false by (cbn; lia).
  cbn [findDup Z.eqb negb DecCoins_IsValid Denom]. rewrite Hd, DecCoin_IsPositive_eq. cbn.
  destruct (Z.ltb_spec 0 amount); [done|lia].
Qed.

End LookupFacts.

(** ** Sums and differences of stored forms *)

Section StoredForm.

Lemma coins_pos_amounts l :
  coins_sorted l → coins_nonzero l → (∀ d, 0 ≤ amount_of l d) → coins_pos l.
Proof.
  intros Hs Hn Ha. apply Forall_forall. intros c Hc. specialize (Ha (Denom c)).
  rewrite amount_of_elem in Ha by done. eapply Forall_forall in Hn; [|done]. lia.
Qed.

Lemma safeAdd_wf A B C :
  wf_coins A → wf_coins B → DecCoins_safeAdd A B = Ok C → wf_coins C.
Proof.
  intros HA HB H. assert (coins_sorted C) by (eapply safeAdd_sorted; [| |done]; [apply HA|apply HB]).
  split; [done|]. apply coins_pos_amounts; [done|by eapply safeAdd_nonzero|].
  intros d. erewrite safeAdd_amount by done.
  pose proof (wf_amount_nonneg A d HA). pose proof (wf_amount_nonneg B d HB). lia.
Qed.

Lemma safeAdd_wf_nonneg A B C :
  wf_coins A → coins_sorted B → Forall (λ c, 0 ≤ Amount c) B → DecCoins_safeAdd A B = Ok C → wf_coins C.
Proof.
  intros HA HB Hn H. assert (coins_sorted C) by (eapply safeAdd_sorted; [apply HA|exact HB|exact H]).
  split; [done|]. apply coins_pos_amounts; [done|by eapply safeAdd_nonzero|].
  intros d. erewrite safeAdd_amount by done.
  pose proof (wf_amount_nonneg A d HA). pose proof (amount_of_nonneg B d Hn). lia.
Qed.

Lemma SafeSub_Ok A B D neg :
  coins_sorted A → coins_sorted B → DecCoins_SafeSub A B = Ok (D, neg) →
  coins_sorted D ∧ coins_nonzero D ∧
  (∀ d, amount_of D d = amount_of A d - amount_of B d) ∧
  (neg = true ↔ ∃ d, amount_of A d < amount_of B d).
Proof.
  intros HA HB H. unfold DecCoins_SafeSub in H. apply outcome_bind_Ok in H as (x & Hx & H).
  injection H as <- <-.
  assert (coins_sorted x) as Hs by (apply (safeAdd_sorted A (DecCoins_negative B)); auto using negative_sorted).
  assert (∀ d, amount_of x d = amount_of A d - amount_of B d) as Ha.
  { intros d. erewrite safeAdd_amount by done. rewrite negative_amount. lia. }
  split; [done|]. split; [by eapply safeAdd_nonzero|]. split; [done|].
  rewrite IsAnyNegative_amount by done. setoid_rewrite Ha.
  split; intros [d Hd]; exists d; lia.
Qed.

Lemma SafeSub_wf A B D :
  coins_sorted A → coins_sorted B → DecCoins_SafeSub A B = Ok (D, false) → wf_coins D.
Proof.
  intros HA HB H. apply SafeSub_Ok in H as (Hs & Hn & Ha & Hneg); [|done..].
  split; [done|]. apply coins_pos_amounts; [done..|]. intros d. rewrite Ha.
  destruct (decide (amount_of A d < amount_of B d)) as [L|]; [|lia].
  assert (false = true) by (apply Hneg; eauto). done.
Qed.

End StoredForm.

(** ** Properties of coin sets *)

Section CoinsProperties.

(** Adding two stored coin sets: as long as every denomination's total is
    in range, [Add] returns a stored coin set (sorted, positive) that holds
    for every denomination exactly the sum of what the two sets hold. *)
Theorem DecCoins_Add_spec A B :
  wf_coins A → wf_coins B → (∀ d, dec_fits (amount_of A d + amount_of B d)) →
  ∃ C, DecCoins_Add A B = Ok C ∧ wf_coins C
     ∧ ∀ d, amount_of C d = amount_of A d + amount_of B d.
Proof.
  intros HA HB HF. destruct (safeAdd_total A B) as [C HC]; [apply HA|apply HB|done|].
  exists C. split; [done|]. split; [exact (safeAdd_wf A B C HA HB HC)|].
  intros d. by apply safeAdd_amount.
Qed.

Lemma wf_coins_one denom a : 0 < a → wf_coins [mkDecCoin denom a].
Proof. intros. split; [apply coins_sorted_one|by repeat constructor]. Qed.

Lemma fits_small x : Z.abs x < 2 ^ 300 → dec_fits x.
Proof. unfold dec_fits. intros. lia. Qed.

Lemma DecCoins_Add_spec_witness :
  ∃ C, DecCoins_Add [mkDecCoin "btc" 5] [mkDecCoin "okt" 7] = Ok C ∧ wf_coins C
     ∧ ∀ d, amount_of C d
            = amount_of [mkDecCoin "btc" 5] d + amount_of [mkDecCoin "okt" 7] d.
Proof.
  apply DecCoins_Add_spec; [by apply wf_coins_one|by apply wf_coins_one|].
  intros d. apply fits_small. rewrite !amount_of_one. cbn [Denom Amount].
  destruct (String.eqb "btc" d), (String.eqb "okt" d); vm_compute; reflexivity.
Defined.

(** Subtracting coin sets: [SafeSub] returns the exact difference of every
    denomination, its flag says exactly whether some denomination was
    insufficient, and when the flag is clear the result is a stored coin
    set. *)
Theorem DecCoins_SafeSub_spec A B :
  wf_coins A → wf_coins B → (∀ d, dec_fits (amount_of A d - amount_of B d)) →
  ∃ D hasNeg, DecCoins_SafeSub A B = Ok (D, hasNeg)
  ∧ (∀ d, amount_of D d = amount_of A d - amount_of B d)
  ∧ (hasNeg = true ↔ ∃ d, amount_of A d < amount_of B d)
  ∧ (hasNeg = false → wf_coins D).
Proof.
  intros HA HB HF.
  destruct (safeAdd_total A (DecCoins_negative B)) as [C HC];
    [apply HA|apply negative_sorted, HB| |].
  { intros d. rewrite negative_amount. apply HF. }
  exists C, (DecCoins_IsAnyNegative C).
  assert (DecCoins_SafeSub A B = Ok (C, DecCoins_IsAnyNegative C)) as H
    by (unfold DecCoins_SafeSub; rewrite HC; done).
  split; [done|]. pose proof (SafeSub_Ok _ _ _ _ (proj1 HA) (proj1 HB) H) as (_ & _ & ? & ?).
  split; [done|]. split; [done|]. intros E. rewrite E in H.
  exact (SafeSub_wf A B C (proj1 HA) (proj1 HB) H).
Qed.

Lemma DecCoins_SafeSub_spec_witness :
  ∃ D hasNeg, DecCoins_SafeSub [mkDecCoin "okt" 5] [mkDecCoin "okt" 7] = Ok (D, hasNeg)
  ∧ (∀ d, amount_of D d
          = amount_of [mkDecCoin "okt" 5] d - amount_of [mkDecCoin "okt" 7] d)
  ∧ (hasNeg = true ↔ ∃ d, amount_of [mkDecCoin "okt" 5] d < amount_of [mkDecCoin "okt" 7] d)
  ∧ (hasNeg = false → wf_coins D).
Proof.
  apply DecCoins_SafeSub_spec; [by apply wf_coins_one|by apply wf_coins_one|].
  intros d. apply fits_small. rewrite !amount_of_one. cbn [Denom Amount].
  destruct (String.eqb "okt" d); vm_compute; reflexivity.
Defined.

(** The binary search of [AmountOf] terminates within the length of the
    slice and finds, in a sorted set, exactly what a scan of the whole slice
    would; an invalid denomination panics. *)
Theorem DecCoins_AmountOf_correct coins denom :
  coins_sorted coins →
  DecCoins_AmountOf coins denom
  = if validDenom denom then Ok (amount_of coins denom) else Panic "invalid denom".
Proof.
  intros Hs. destruct (validDenom denom) eqn:Hd; [by apply AmountOf_eq|].
  unfold DecCoins_AmountOf, mustValidateDenom, validDenom in *.
  assert (∀ p, ValidateDenom denom ≠ Panic p).
  { unfold ValidateDenom. intros p. by repeat case_match. }
  destruct (ValidateDenom denom); naive_solver.
Qed.

Lemma DecCoins_AmountOf_correct_witness :
  DecCoins_AmountOf [mkDecCoin "btc" 5; mkDecCoin "eth" 6; mkDecCoin "okt" 7] "okt"
  = if validDenom "okt"
    then Ok (amount_of [mkDecCoin "btc" 5; mkDecCoin "eth" 6; mkDecCoin "okt" 7] "okt")
    else Panic "invalid denom".
Proof.
  apply DecCoins_AmountOf_correct. unfold coins_sorted.
  repeat (constructor; [|by repeat constructor]). constructor.
Defined.

Lemma IsZero_wf l : wf_coins l → DecCoins_IsZero l = true → l = [].
Proof.
  intros [_ Hp] Hz. destruct l as [|c l]; [done|]. cbn in Hz. apply andb_true_iff in Hz as [Hz _].
  rewrite Dec_IsZero_eq in Hz. apply Z.eqb_eq in Hz. apply Forall_cons in Hp as [Hp _]. lia.
Qed.
Lemma nonzero_wf l : wf_coins l → (if DecCoins_IsZero l then [] else l) = l.
Proof. intros W. destruct (DecCoins_IsZero l) eqn:Hz; [|done]. by rewrite (IsZero_wf _ W Hz). Qed.

(** ** Loops that rebuild a set coin by coin *)

Lemma Add_nonzero_Ok res p R d :
  (if negb (DecCoin_IsZero p) then DecCoins_Add res [p] else Ok res) = Ok R →
  amount_of R d = amount_of res d + (if String.eqb (Denom p) d then Amount p else 0).
Proof.
  rewrite DecCoin_IsZero_eq. destruct (Z.eqb_spec (Amount p) 0) as [->|]; cbn [negb].
  - intros [= ->]. destruct (String.eqb _ _); lia.
  - intros H%(safeAdd_amount _ _ _ d). by rewrite amount_of_one in H.
Qed.

Lemma Add_nonzero_wf res p R :
  wf_coins res → 0 ≤ Amount p →
  (if negb (DecCoin_IsZero p) then DecCoins_Add res [p] else Ok res) = Ok R → wf_coins R.
Proof.
  rewrite DecCoin_IsZero_eq. intros Hr Hp.
  destruct (Z.eqb_spec (Amount p) 0); cbn [negb]; [by intros [= ->]|].
  apply safeAdd_wf; [done|]. destruct p as [dn a]. apply wf_coins_one. cbn in *. lia.
Qed.

Lemma mapAdd_amount f coins : ∀ res R d,
  f 0 = Ok 0 → coins_sorted coins → DecCoins_mapAdd f coins res = Ok R →
  ∃ v, f (amount_of coins d) = Ok v ∧ amount_of R d = amount_of res d + v.
Proof.
  induction coins as [|c l IH]; intros res R d H0 Hs H; cbn in H.
  - injection H as <-. exists 0. by rewrite Z.add_0_r.
  - pose proof (coins_sorted_inv _ _ Hs) as [Hl Hc].
    apply outcome_bind_Ok in H as (a & Ha & H). apply outcome_bind_Ok in H as (r & Hr & H).
    apply (Add_nonzero_Ok _ _ _ d) in Hr. cbn [Denom Amount] in Hr.
    destruct (IH r R d H0 Hl H) as (v & Hv & E). rewrite amount_of_cons.
    destruct (String.eqb_spec (Denom c) d) as [Ed|].
    + subst d. rewrite amount_of_lt in * by done. rewrite H0 in Hv. injection Hv as <-.
      exists a. rewrite Z.add_0_r. split; [done|]. lia.
    + exists v. rewrite Z.add_0_l. split; [done|]. lia.
Qed.

Lemma mapAdd_wf f coins : ∀ res R,
  (∀ a v, 0 ≤ a → f a = Ok v → 0 ≤ v) → coins_pos coins → wf_coins res →
  DecCoins_mapAdd f coins res = Ok R → wf_coins R.
Proof.
  induction coins as [|c l IH]; intros res R Hf Hp Hr H; cbn in H; [by injection H as <-|].
  apply outcome_bind_Ok in H as (a & Ha & H). apply outcome_bind_Ok in H as (r & Hadd & H).
  apply Forall_cons in Hp as [Hc Hp]. eapply IH; [done|done| |exact H].
  eapply Add_nonzero_wf; [exact Hr| |exact Hadd]. cbn. eapply Hf; [|exact Ha]. lia.
Qed.

(** [MulDecTruncate] multiplies what a sorted set holds of every
    denomination, truncating each product toward zero. *)
Theorem DecCoins_MulDecTruncate_spec coins x R d :
  coins_sorted coins → DecCoins_MulDecTruncate coins x = Ok R →
  amount_of R d = Z.quot (amount_of coins d * x) precisionReuse.
Proof.
  intros Hs H. eapply (mapAdd_amount _ _ _ _ d) in H as (v & Hv & ->); [|done..].
  apply Dec_MulTruncate_Ok in Hv as [-> _]. done.
Qed.

Lemma DecCoins_MulDecTruncate_spec_witness :
  amount_of [mkDecCoin "okt" 3] "okt"
  = Z.quot (amount_of [mkDecCoin "okt" 7] "okt" * 500000000000000000) precisionReuse.
Proof.
  eapply DecCoins_MulDecTruncate_spec; [apply coins_sorted_one|vm_compute; reflexivity].
Defined.

(** A splitting function that keeps the denomination and the total. *)
Definition splits (f : DecCoin → outcome (DecCoin * DecCoin)) : Prop :=
  ∀ c t ch, f c = Ok (t, ch) →
    Denom t = Denom c ∧ Denom ch = Denom c ∧ Amount t + Amount ch = Amount c
    ∧ 0 ≤ Amount t ∧ 0 ≤ Amount ch.

Lemma splitLoop_spec f coins : ∀ t0 ch0 t ch,
  splits f → wf_coins t0 → wf_coins ch0 → DecCoins_splitLoop f coins t0 ch0 = Ok (t, ch) →
  wf_coins t ∧ wf_coins ch ∧ ∀ d,
  amount_of t d + amount_of ch d = amount_of t0 d + amount_of ch0 d + amount_of coins d.
Proof.
  induction coins as [|c l IH]; intros t0 ch0 t ch Hf Ht Hch H; cbn in H.
  - injection H as -> ->. split; [done|]. split; [done|]. intros d. cbn. lia.
  - apply outcome_bind_Ok in H as ([tc cc] & Hc & H). cbn beta iota in H.
    apply outcome_bind_Ok in H as (t1 & H1 & H). apply outcome_bind_Ok in H as (ch1 & H2 & H).
    apply Hf in Hc as (D1 & D2 & Hsum & P1 & P2).
    destruct (IH t1 ch1 t ch Hf) as (Wt & Wc & E);
      [eapply Add_nonzero_wf; [| |exact H1]; done|eapply Add_nonzero_wf; [| |exact H2]; done|done|].
    split; [done|]. split; [done|]. intros d. specialize (E d).
    apply (Add_nonzero_Ok _ _ _ d) in H1, H2. rewrite D1 in H1. rewrite D2 in H2.
    rewrite amount_of_cons. destruct (String.eqb (Denom c) d); lia.
Qed.

Lemma DecCoin_TruncateDecimal_Ok c t ch :
  DecCoin_TruncateDecimal c = Ok (t, ch) →
  0 ≤ Amount c - Z.quot (Amount c) precisionReuse * precisionReuse ∧
  0 ≤ Z.quot (Amount c) precisionReuse ∧
  t = mkDecCoin (Denom c) (Z.quot (Amount c) precisionReuse * precisionReuse) ∧
  ch = mkDecCoin (Denom c) (Amount c - Z.quot (Amount c) precisionReuse * precisionReuse).
Proof.
  unfold DecCoin_TruncateDecimal. intros H.
  apply outcome_bind_Ok in H as (q & H1 & H). apply outcome_bind_Ok in H as (e & H2 & H).
  apply outcome_bind_Ok in H as (r & H3 & H). apply outcome_bind_Ok in H as (x & H4 & H).
  apply outcome_bind_Ok in H as (y & H5 & H). injection H as <- <-.
  apply NewIntFromBigInt_Ok in H1 as [-> _]. injection H2 as <-.
  apply Dec_Sub_Ok in H3 as [-> _]. apply NewDecCoin_Ok in H4 as (_ & ? & ->).
  apply NewDecCoinFromDec_Ok in H5 as (_ & ? & ->). done.
Qed.

Lemma TruncateDecimal_splits : splits DecCoin_TruncateDecimal.
Proof.
  intros c t ch (? & ? & -> & ->)%DecCoin_TruncateDecimal_Ok. cbn.
  assert (0 < precisionReuse) by done. repeat split; lia.
Qed.

(** [TruncateDecimal] loses nothing: the truncated coins and the change
    are stored coin sets that hold, for every denomination, together exactly
    what the argument held. *)
Theorem DecCoins_TruncateDecimal_conserves coins t ch :
  DecCoins_TruncateDecimal coins = Ok (t, ch) →
  wf_coins t ∧ wf_coins ch ∧ ∀ d, amount_of t d + amount_of ch d = amount_of coins d.
Proof.
  intros H. eapply splitLoop_spec in H as (? & ? & E);
    [|apply TruncateDecimal_splits|apply wf_coins_nil..].
  split; [done|]. split; [done|]. intros d. rewrite E. cbn. lia.
Qed.

Lemma DecCoins_TruncateDecimal_conserves_witness :
  let coins := [mkDecCoin "btc" 1500000000000000000; mkDecCoin "okt" 7] in
  let t := [mkDecCoin "btc" 1000000000000000000] in
  let ch := [mkDecCoin "btc" 500000000000000000; mkDecCoin "okt" 7] in
  wf_coins t ∧ wf_coins ch ∧ ∀ d, amount_of t d + amount_of ch d = amount_of coins d.
Proof. cbv zeta. apply DecCoins_TruncateDecimal_conserves. vm_compute. reflexivity. Defined.

(** Subtracting what was added gives back the original slice. *)
Theorem DecCoins_Add_Sub_roundtrip A B C :
  wf_coins A → wf_coins B → (∀ d, dec_fits (amount_of A d)) →
  DecCoins_Add A B = Ok C → DecCoins_Sub C B = Ok A.
Proof.
  intros HA HB HF H. pose proof (safeAdd_wf _ _ _ HA HB H) as HC.
  pose proof (λ d, safeAdd_amount _ _ _ d H) as E.
  destruct (safeAdd_total C (DecCoins_negative B)) as [D HD];
    [apply HC|apply negative_sorted, HB| |].
  { intros d. rewrite negative_amount, E.
    replace (amount_of A d + amount_of B d + - amount_of B d) with (amount_of A d) by lia. done. }
  unfold DecCoins_Sub, DecCoins_SafeSub. rewrite HD. cbn [mbind outcome_bind].
  assert (D = A) as ->.
  { apply coins_ext; [eapply (safeAdd_sorted C (DecCoins_negative B));
      [apply HC|apply negative_sorted, HB|done]|apply HA|exact (safeAdd_nonzero _ _ _ HD)
      |apply coins_pos_nonzero, HA|].
    intros d. erewrite safeAdd_amount by done. rewrite negative_amount, E. lia. }
  destruct (DecCoins_IsAnyNegative A) eqn:Hn; [|done].
  apply IsAnyNegative_amount in Hn as [d Hd]; [|apply HA].
  pose proof (wf_amount_nonneg A d HA). lia.
Qed.

Lemma DecCoins_Add_Sub_roundtrip_witness :
  DecCoins_Sub [mkDecCoin "btc" 5; mkDecCoin "okt" 7] [mkDecCoin "okt" 7]
  = Ok [mkDecCoin "btc" 5].
Proof.
  apply DecCoins_Add_Sub_roundtrip;
    [by apply wf_coins_one|by apply wf_coins_one| |vm_compute; reflexivity].
  intros d. apply fits_small. rewrite amount_of_one. cbn [Denom Amount].
  destruct (String.eqb "btc" d); vm_compute; reflexivity.
Defined.

(** The documented contract of [Add], that [IsValid] always holds of the
    result, fails: two one-coin sets that are valid can add up to a set that
    [IsValid] refuses, because the lower-case rule is applied only from the
    second coin on, and an "ibc" denomination may have capitals. *)
Theorem DecCoins_Add_not_valid :
  ∃ A B C, DecCoins_IsValid A = true ∧ DecCoins_IsValid B = true
  ∧ DecCoins_Add A B = Ok C ∧ DecCoins_IsValid C = false.
Proof.
  exists [mkDecCoin "btc" 1], [mkDecCoin "ibc/AB" 1],
    [mkDecCoin "btc" 1; mkDecCoin "ibc/AB" 1].
  vm_compute. repeat split.
Qed.

(** [NewDecCoinsFromCoins] leaves a zero-value element for every coin that
    [NewCoins] dropped. *)
Lemma NewDecCoinsFromCoins_nil_element :
  NewDecCoinsFromCoins [mkDecCoin "btc" 0; mkDecCoin "okt" 1]
  = Ok [Some (mkDecCoin "okt" 1); None].
Proof. vm_compute. reflexivity. Qed.

End CoinsProperties.
