(* ===== verification/Bank.v ===== *)
(** * Accounts, the bank keeper and the supply keeper

    [libs/cosmos-sdk/x/bank/internal/keeper/keeper.go] (transfers between
    accounts, the bank messages) and [libs/cosmos-sdk/x/supply/internal/keeper]
    (module accounts, minting, burning and the total supply).

    The store is one map from addresses to accounts and one map from
    denominations to supplied amounts.  An account carries its coins and, for
    a module account, its permissions.  Addresses are byte strings; account
    numbers, sequences, public keys, gas, events and the inner-transaction
    recorder are not modelled, nor are vesting accounts: the spendable coins
    of an account are its coins.  The per-transaction account cache of the
    context is only switched on inside the ante handler, so the handlers
    modelled here read the store. *)
From S2P Require Import Prelude Decimal Denom Coins.

(** ** State *)

Record Account := mkAccount {
  AccCoins : list DecCoin;
  AccPermissions : option (list string) }.

Record Bank := mkBank {
  accounts : gmap string Account;
  supplies : gmap string Dec;
  sendEnabled : bool }.

(** What the application fixes when it builds the keepers: the registered
    module accounts (name, address, permissions) and the addresses that may
    not receive transfers. *)
Class BankConfig := mkBankConfig {
  permAddrs : gmap string (string * list string);
  blacklistedAddrs : gmap string bool }.

Definition Minter : string := "minter".
Definition Burner : string := "burner".
Definition Staking : string := "staking".

Definition with_accounts (f : gmap string Account → gmap string Account) (s : Bank) : Bank :=
  mkBank (f (accounts s)) (supplies s) (sendEnabled s).
Definition with_supplies (f : gmap string Dec → gmap string Dec) (s : Bank) : Bank :=
  mkBank (accounts s) (f (supplies s)) (sendEnabled s).

(** ** The account keeper's interface *)

Definition GetAccount (addr : string) : M Bank (option Account) := gets (λ s, accounts s !! addr).
Definition SetAccount (addr : string) (acc : Account) : M Bank unit :=
  modify (with_accounts <[addr := acc]>).
Definition NewAccountWithAddress : Account := mkAccount [] None.
Definition Account_SetCoins (acc : Account) (amt : list DecCoin) : Account :=
  mkAccount amt (AccPermissions acc).

(** ** The bank keeper *)

(** [keeper.getAccount]: the account that was passed, or the stored one. *)
Definition bank_getAccount (addr : string) (acc : option Account) : M Bank (option Account) :=
  match acc with
  | Some a => mret (Some a)
  | None => GetAccount addr
  end.

Definition setCoinsToAccount (addr : string) (acc : option Account) (amt : list DecCoin)
    : M Bank unit :=
  _ ← guard_not (negb (DecCoins_IsValid amt)) "ErrInvalidCoins";
  acc ← bank_getAccount addr acc;
  let acc := default NewAccountWithAddress acc in
  SetAccount addr (Account_SetCoins acc amt).

Definition subtractCoins (addr : string) (acc : option Account) (amt : list DecCoin)
    : M Bank (list DecCoin) :=
  let oldCoins := match acc with Some a => AccCoins a | None => [] end in
  let spendableCoins := match acc with Some a => AccCoins a | None => [] end in
  '(_, hasNeg) ← lift (DecCoins_SafeSub spendableCoins amt);
  _ ← guard_not hasNeg "ErrInsufficientFunds";
  newCoins ← lift (DecCoins_Sub oldCoins amt);
  _ ← setCoinsToAccount addr acc newCoins;
  mret newCoins.

Definition addCoins (addr : string) (acc : option Account) (amt : list DecCoin)
    : M Bank (list DecCoin) :=
  let oldCoins := match acc with Some a => AccCoins a | None => [] end in
  newCoins ← lift (DecCoins_Add oldCoins amt);
  _ ← guard_not (DecCoins_IsAnyNegative newCoins) "ErrInsufficientFunds";
  _ ← setCoinsToAccount addr acc newCoins;
  mret newCoins.

Definition SubtractCoins (addr : string) (amt : list DecCoin) : M Bank (list DecCoin) :=
  _ ← guard_not (negb (DecCoins_IsValid amt)) "ErrInvalidCoins";
  acc ← GetAccount addr;
  subtractCoins addr acc amt.

Definition AddCoins (addr : string) (amt : list DecCoin) : M Bank (list DecCoin) :=
  _ ← guard_not (negb (DecCoins_IsValid amt)) "ErrInvalidCoins";
  acc ← GetAccount addr;
  addCoins addr acc amt.

(** [SetCoins] builds an error for invalid coins but does not return it. *)
Definition SetCoins (addr : string) (amt : list DecCoin) : M Bank unit :=
  acc ← GetAccount addr;
  let acc := default NewAccountWithAddress acc in
  SetAccount addr (Account_SetCoins acc amt).

Definition SendCoins (fromAddr toAddr : string) (amt : list DecCoin) : M Bank unit :=
  _ ← guard_not (negb (DecCoins_IsValid amt)) "ErrInvalidCoins";
  fromAcc ← GetAccount fromAddr;
  _ ← subtractCoins fromAddr fromAcc amt;
  toAcc ← GetAccount toAddr;
  _ ← addCoins toAddr toAcc amt;
  mret ().

Definition GetCoins (addr : string) : M Bank (list DecCoin) :=
  acc ← GetAccount addr;
  mret (match acc with Some a => AccCoins a | None => [] end).
Definition HasCoins (addr : string) (amt : list DecCoin) : M Bank bool :=
  coins ← GetCoins addr; lift (DecCoins_IsAllGTE coins amt).

(** [trackDelegation] and [trackUndelegation] for accounts without vesting. *)
Definition trackDelegation (acc : Account) (amt : list DecCoin) : outcome Account :=
  c ← DecCoins_Sub (AccCoins acc) amt; Ok (Account_SetCoins acc c).
Definition trackUndelegation (acc : Account) (amt : list DecCoin) : outcome Account :=
  c ← DecCoins_Add (AccCoins acc) amt; Ok (Account_SetCoins acc c).

Definition DelegateCoins (delegatorAddr moduleAccAddr : string) (amt : list DecCoin)
    : M Bank unit :=
  delegatorAcc ← GetAccount delegatorAddr;
  match delegatorAcc with
  | None => fail "ErrUnknownAddress"
  | Some delegatorAcc =>
      moduleAcc ← GetAccount moduleAccAddr;
      match moduleAcc with
      | None => fail "ErrUnknownAddress"
      | Some _ =>
          _ ← guard_not (negb (DecCoins_IsValid amt)) "ErrInvalidCoins";
          '(_, hasNeg) ← lift (DecCoins_SafeSub (AccCoins delegatorAcc) amt);
          _ ← guard_not hasNeg "ErrInsufficientFunds";
          delegatorAcc ← lift (trackDelegation delegatorAcc amt);
          _ ← SetAccount delegatorAddr delegatorAcc;
          _ ← AddCoins moduleAccAddr amt;
          mret ()
      end
  end.

(** The delegator's account is read before the module account is written. *)
Definition UndelegateCoins (moduleAccAddr delegatorAddr : string) (amt : list DecCoin)
    : M Bank unit :=
  delegatorAcc ← GetAccount delegatorAddr;
  match delegatorAcc with
  | None => fail "ErrUnknownAddress"
  | Some delegatorAcc =>
      moduleAcc ← GetAccount moduleAccAddr;
      match moduleAcc with
      | None => fail "ErrUnknownAddress"
      | Some moduleAcc =>
          _ ← guard_not (negb (DecCoins_IsValid amt)) "ErrInvalidCoins";
          '(newCoins, hasNeg) ← lift (DecCoins_SafeSub (AccCoins moduleAcc) amt);
          _ ← guard_not hasNeg "ErrInsufficientFunds";
          _ ← SetCoins moduleAccAddr newCoins;
          delegatorAcc ← lift (trackUndelegation delegatorAcc amt);
          SetAccount delegatorAddr delegatorAcc
      end
  end.

(** *** Multi-party transfers *)

Record InOut := mkInOut { IOAddress : string; IOCoins : list DecCoin }.

Definition InOut_ValidateBasic (x : InOut) : outcome unit :=
  if String.eqb (IOAddress x) "" then Err (E "ErrInvalidAddress")
  else if negb (DecCoins_IsValid (IOCoins x)) then Err (E "ErrInvalidCoins")
  else if negb (DecCoins_IsAllPositive (IOCoins x)) then Err (E "ErrInvalidCoins")
  else Ok ().

Fixpoint InOut_total (l : list InOut) (total : list DecCoin) : outcome (list DecCoin) :=
  match l with
  | [] => Ok total
  | x :: l' =>
      _ ← InOut_ValidateBasic x;
      total ← DecCoins_Add total (IOCoins x);
      InOut_total l' total
  end.

Definition ValidateInputsOutputs (inputs outputs : list InOut) : outcome unit :=
  totalIn ← InOut_total inputs [];
  totalOut ← InOut_total outputs [];
  e ← DecCoins_IsEqual totalIn totalOut;
  if negb e then Err (E "ErrInputOutputMismatch") else Ok ().

Fixpoint subtractInputs (inputs : list InOut) : M Bank unit :=
  match inputs with
  | [] => mret ()
  | x :: l => _ ← SubtractCoins (IOAddress x) (IOCoins x); subtractInputs l
  end.

Fixpoint addOutputs (outputs : list InOut) : M Bank unit :=
  match outputs with
  | [] => mret ()
  | x :: l =>
      _ ← AddCoins (IOAddress x) (IOCoins x);
      acc ← GetAccount (IOAddress x);
      _ ← (match acc with
           | None => SetAccount (IOAddress x) NewAccountWithAddress
           | Some _ => mret ()
           end : M Bank unit);
      addOutputs l
  end.

Definition InputOutputCoins (inputs outputs : list InOut) : M Bank unit :=
  _ ← lift (ValidateInputsOutputs inputs outputs);
  _ ← subtractInputs inputs;
  addOutputs outputs.

(** ** The supply keeper *)

Section SupplyKeeper.
Context {cfg : BankConfig}.

Definition BlacklistedAddr (addr : string) : bool := default false (blacklistedAddrs !! addr).

Definition GetModuleAddress (moduleName : string) : option string :=
  match permAddrs !! moduleName with
  | None => None
  | Some (addr, _) => Some addr
  end.

Definition HasPermission (perms : list string) (permission : string) : bool :=
  existsb (λ perm, String.eqb perm permission) perms.

(** [GetModuleAccount]: the address and stored account of a registered
    module; a missing account is created, an account that is not a module
    account panics, and an unregistered module gives nil. *)
Definition GetModuleAccount (moduleName : string)
    : M Bank (option (string * list string)) :=
  match permAddrs !! moduleName with
  | None => mret None
  | Some (addr, perms) =>
      acc ← GetAccount addr;
      match acc with
      | Some a =>
          match AccPermissions a with
          | Some ps => mret (Some (addr, ps))
          | None => panic "account is not a module account"
          end
      | None =>
          _ ← SetAccount addr (mkAccount [] (Some perms));
          mret (Some (addr, perms))
      end
  end.

Definition SendCoinsFromModuleToAccount (senderModule recipientAddr : string)
    (amt : list DecCoin) : M Bank unit :=
  _ ← guard_not (BlacklistedAddr recipientAddr) "ErrUnknownAddress";
  match GetModuleAddress senderModule with
  | None => panic "module account does not exist"
  | Some senderAddr => SendCoins senderAddr recipientAddr amt
  end.

Definition SendCoinsFromModuleToModule (senderModule recipientModule : string)
    (amt : list DecCoin) : M Bank unit :=
  match GetModuleAddress senderModule with
  | None => panic "module account does not exist"
  | Some senderAddr =>
      recipientAcc ← GetModuleAccount recipientModule;
      match recipientAcc with
      | None => panic "module account does not exist"
      | Some (addr, _) => SendCoins senderAddr addr amt
      end
  end.

Definition SendCoinsFromAccountToModule (senderAddr recipientModule : string)
    (amt : list DecCoin) : M Bank unit :=
  recipientAcc ← GetModuleAccount recipientModule;
  match recipientAcc with
  | None => panic "module account does not exist"
  | Some (addr, _) => SendCoins senderAddr addr amt
  end.

Definition DelegateCoinsFromAccountToModule (senderAddr recipientModule : string)
    (amt : list DecCoin) : M Bank unit :=
  recipientAcc ← GetModuleAccount recipientModule;
  match recipientAcc with
  | None => panic "module account does not exist"
  | Some (addr, perms) =>
      _ ← panic_if (negb (HasPermission perms Staking)) "ErrUnauthorized";
      DelegateCoins senderAddr addr amt
  end.

Definition UndelegateCoinsFromModuleToAccount (senderModule recipientAddr : string)
    (amt : list DecCoin) : M Bank unit :=
  acc ← GetModuleAccount senderModule;
  match acc with
  | None => panic "module account does not exist"
  | Some (addr, perms) =>
      _ ← panic_if (negb (HasPermission perms Staking)) "ErrUnauthorized";
      UndelegateCoins addr recipientAddr amt
  end.

Definition GetSupplyByDenom (denom : string) : M Bank Dec :=
  gets (λ s, default ZeroDec (supplies s !! denom)).
Definition setTokenSupplyAmount (tokenSymbol : string) (supplyAmount : Dec) : M Bank unit :=
  modify (with_supplies <[tokenSymbol := supplyAmount]>).

Definition inflate (tokenSymbol : string) (amount : Dec) : M Bank unit :=
  if Dec_Equal amount ZeroDec then mret () else
  originalSupplyAmount ← GetSupplyByDenom tokenSymbol;
  n ← lift (Dec_Add originalSupplyAmount amount);
  setTokenSupplyAmount tokenSymbol n.

Definition deflate (tokenSymbol : string) (deflationAmount : Dec) : M Bank unit :=
  currentSupplyAmount ← GetSupplyByDenom tokenSymbol;
  supplyAmount ← lift (Dec_Sub currentSupplyAmount deflationAmount);
  _ ← guard_not (Dec_IsNegative supplyAmount) "ErrInvalidDeflation";
  setTokenSupplyAmount tokenSymbol supplyAmount.

Fixpoint inflateAll (amt : list DecCoin) : M Bank unit :=
  match amt with
  | [] => mret ()
  | c :: l => _ ← inflate (Denom c) (Amount c); inflateAll l
  end.
Fixpoint deflateAll (amt : list DecCoin) : M Bank unit :=
  match amt with
  | [] => mret ()
  | c :: l => _ ← deflate (Denom c) (Amount c); deflateAll l
  end.

Definition MintCoins (moduleName : string) (amt : list DecCoin) : M Bank unit :=
  acc ← GetModuleAccount moduleName;
  match acc with
  | None => panic "module account does not exist"
  | Some (addr, perms) =>
      _ ← panic_if (negb (HasPermission perms Minter)) "ErrUnauthorized";
      _ ← AddCoins addr amt;
      inflateAll amt
  end.

Definition BurnCoins (moduleName : string) (amt : list DecCoin) : M Bank unit :=
  acc ← GetModuleAccount moduleName;
  match acc with
  | None => panic "module account does not exist"
  | Some (addr, perms) =>
      _ ← panic_if (negb (HasPermission perms Burner)) "ErrUnauthorized";
      _ ← SubtractCoins addr amt;
      deflateAll amt
  end.

(** ** The bank messages *)

Definition handleMsgSend (fromAddress toAddress : string) (amount : list DecCoin)
    : M Bank unit :=
  enabled ← gets sendEnabled;
  _ ← guard_not (negb enabled) "ErrSendDisabled";
  _ ← guard_not (BlacklistedAddr toAddress) "ErrUnauthorized";
  SendCoins fromAddress toAddress amount.

Definition handleMsgMultiSend (inputs outputs : list InOut) : M Bank unit :=
  enabled ← gets sendEnabled;
  _ ← guard_not (negb enabled) "ErrSendDisabled";
  _ ← guard_not (existsb (λ o, BlacklistedAddr (IOAddress o)) outputs) "ErrUnauthorized";
  InputOutputCoins inputs outputs.

End SupplyKeeper.

(** ** The registered invariant *)

(** Entries of a store in key order, as an iterator returns them. *)
Definition key_le {V} (a b : string * V) : Prop := ¬ str_lt (fst b) (fst a).
#[global] Instance key_le_dec {V} (a b : string * V) : Decision (key_le a b).
Proof. unfold key_le. apply _. Defined.
Definition store_iterate {V} (m : gmap string V) : list (string * V) :=
  merge_sort key_le (map_to_list m).

Fixpoint GetSupply_loop (l : list (string * Dec)) : outcome (list DecCoin) :=
  match l with
  | [] => Ok []
  | (denom, amount) :: rest =>
      c ← NewCoin denom (ADec amount);
      r ← GetSupply_loop rest;
      Ok (c :: r)
  end.
Definition GetSupply (s : Bank) : outcome (list DecCoin) :=
  GetSupply_loop (store_iterate (supplies s)).

Fixpoint sumAccounts (l : list (string * Account)) (total : list DecCoin)
    : outcome (list DecCoin) :=
  match l with
  | [] => Ok total
  | (_, a) :: rest => t ← DecCoins_Add total (AccCoins a); sumAccounts rest t
  end.
Fixpoint sumSupply (l : list DecCoin) (total : list DecCoin) : outcome (list DecCoin) :=
  match l with
  | [] => Ok total
  | c :: rest =>
      t ← (if negb (Dec_IsZero (Amount c)) then DecCoins_Add total [c] else Ok total);
      sumSupply rest t
  end.

(** [TotalSupply] returns whether the invariant is broken. *)
Definition TotalSupply (s : Bank) : outcome bool :=
  supply ← GetSupply s;
  expectedTotal ← sumAccounts (store_iterate (accounts s)) [];
  supplyCoins ← sumSupply supply [];
  e ← DecCoins_IsEqual expectedTotal supplyCoins;
  Ok (negb e).

(** ** Observations and the effect of one write *)

Definition acc_coins (o : option Account) : list DecCoin :=
  match o with Some a => AccCoins a | None => [] end.
Definition balance (s : Bank) (a d : string) : Z := amount_of (acc_coins (accounts s !! a)) d.
Definition supply_of (s : Bank) (d : string) : Z := default 0 (supplies s !! d).

(** What all accounts together hold of a denomination. *)
Definition total_of (s : Bank) (d : string) : Z :=
  map_sum (λ acc, amount_of (AccCoins acc) d) (accounts s).

(** Every account holds a stored coin set. *)
Definition bank_wf (s : Bank) : Prop := map_Forall (λ _ acc, wf_coins (AccCoins acc)) (accounts s).

(** The supply records exactly what the accounts hold. *)
Definition supply_inv (s : Bank) : Prop := ∀ d, supply_of s d = total_of s d.

(** The state differs in one account, whose coins changed by [g]. *)
Definition one_account (s s' : Bank) (a : string) (g : string → Z) : Prop :=
  ∃ acc, s' = with_accounts <[a := acc]> s ∧ wf_coins (AccCoins acc)
  ∧ (∀ d, amount_of (AccCoins acc) d = balance s a d + g d)
  ∧ AccPermissions acc = (accounts s !! a ≫= AccPermissions).

Section BankFacts.

Lemma balance_at_key s a d :
  at_key (λ acc, amount_of (AccCoins acc) d) (accounts s !! a) = balance s a d.
Proof. unfold balance. by destruct (accounts s !! a). Qed.

Lemma balance_Some s a acc d :
  accounts s !! a = Some acc → balance s a d = amount_of (AccCoins acc) d.
Proof. intros H. unfold balance. by rewrite H. Qed.

Lemma one_account_balance s s' a g x d :
  one_account s s' a g → balance s' x d = balance s x d + (if decide (x = a) then g d else 0).
Proof.
  intros (acc & -> & _ & H & _). unfold balance in *. cbn. case_decide; subst.
  - rewrite lookup_insert_eq. apply H.
  - rewrite lookup_insert_ne by done. lia.
Qed.

Lemma one_account_total s s' a g d :
  one_account s s' a g → total_of s' d = total_of s d + g d.
Proof.
  intros (acc & -> & _ & H & _). unfold total_of. cbn.
  rewrite map_sum_insert, balance_at_key, H. lia.
Qed.

Lemma one_account_wf s s' a g : one_account s s' a g → bank_wf s → bank_wf s'.
Proof. intros (acc & -> & Hwf & _) Hs. by apply map_Forall_insert_2. Qed.

Lemma one_account_supply s s' a g : one_account s s' a g → supplies s' = supplies s.
Proof. by intros (acc & -> & _). Qed.

Lemma one_account_set s a amt :
  wf_coins amt →
  one_account s
    (with_accounts <[a := Account_SetCoins (default NewAccountWithAddress (accounts s !! a)) amt]> s)
    a (λ d, amount_of amt d - balance s a d).
Proof.
  intros Hw. eexists. split; [done|]. split; [done|]. split.
  - intros d. cbn [AccCoins Account_SetCoins]. lia.
  - by destruct (accounts s !! a).
Qed.

Lemma setCoinsToAccount_Ok addr acc amt s s' u :
  setCoinsToAccount addr acc amt s = (Ok u, s') → acc = accounts s !! addr →
  one_account s s' addr (λ d, amount_of amt d - balance s addr d).
Proof.
  unfold setCoinsToAccount, bank_getAccount. intros H ->. inv_ok; bool_prop;
  match goal with V : DecCoins_IsValid _ = true |- _ => apply IsValid_wf in V as W end.
  all: destruct u; unfold GetAccount, SetAccount in *; inv_ok.
  - rewrite <- Heqo. by apply one_account_set.
  - by apply one_account_set.
Qed.

Lemma one_account_ext s s' a g g' :
  (∀ d, g d = g' d) → one_account s s' a g → one_account s s' a g'.
Proof.
  intros E (acc & -> & Hw & Ha & Hp). exists acc. split; [done|]. split; [done|].
  split; [|done]. intros d. rewrite <- E. apply Ha.
Qed.

Lemma acc_coins_match (o : option Account) :
  match o with Some a => AccCoins a | None => [] end = acc_coins o.
Proof. done. Qed.

(** A debit writes one account, and the account had the coins. *)
Lemma subtractCoins_Ok addr acc amt s s' c :
  subtractCoins addr acc amt s = (Ok c, s') → acc = accounts s !! addr → coins_sorted amt →
  one_account s s' addr (λ d, - amount_of amt d)
  ∧ (bank_wf s → ∀ d, amount_of amt d ≤ balance s addr d).
Proof.
  unfold subtractCoins. rewrite !acc_coins_match. intros H -> Hs.
  apply M_bind_Ok in H as ([diff neg] & s1 & H1 & H). apply lift_Ok in H1 as [H1 ->].
  apply M_bind_Ok in H as (u & s1 & H2 & H). apply guard_not_Ok in H2 as [-> ->].
  apply M_bind_Ok in H as (n & s1 & H2 & H). apply lift_Ok in H2 as [H2 ->].
  apply M_bind_Ok in H as (u' & s1 & H3 & H). apply mret_Ok in H as [_ ->].
  assert (n = diff) as ->.
  { unfold DecCoins_Sub in H2. rewrite H1 in H2. by injection H2. }
  assert (∀ d, amount_of diff d = balance s addr d - amount_of amt d) as E.
  { intros d. unfold DecCoins_SafeSub in H1. apply outcome_bind_Ok in H1 as (x & Hx & H1).
    injection H1 as -> _. erewrite safeAdd_amount by done. rewrite negative_amount.
    unfold balance. lia. }
  split.
  - apply setCoinsToAccount_Ok in H3; [|done]. eapply one_account_ext; [|exact H3].
    intros d. cbn. rewrite E. lia.
  - intros Hwf d. eapply SafeSub_wf in H1; [|shelve|done].
    pose proof (wf_amount_nonneg diff d H1). rewrite E in *. lia.
    Unshelve. unfold acc_coins. destruct (accounts s !! addr) eqn:Ha; [|constructor].
    apply Hwf in Ha. apply Ha.
Qed.

(** A credit writes one account. *)
Lemma addCoins_Ok addr acc amt s s' c :
  addCoins addr acc amt s = (Ok c, s') → acc = accounts s !! addr →
  one_account s s' addr (λ d, amount_of amt d).
Proof.
  unfold addCoins. rewrite !acc_coins_match. intros H ->.
  apply M_bind_Ok in H as (n & s1 & H1 & H). apply lift_Ok in H1 as [H1 ->].
  apply M_bind_Ok in H as (u & s1 & H2 & H). apply guard_not_Ok in H2 as [_ ->].
  apply M_bind_Ok in H as (u' & s1 & H3 & H). apply mret_Ok in H as [_ ->].
  apply setCoinsToAccount_Ok in H3; [|done]. eapply one_account_ext; [|exact H3].
  intros d. cbn. erewrite safeAdd_amount by done. unfold balance. lia.
Qed.

Lemma SubtractCoins_Ok addr amt s s' c :
  SubtractCoins addr amt s = (Ok c, s') →
  wf_coins amt ∧ one_account s s' addr (λ d, - amount_of amt d)
  ∧ (bank_wf s → ∀ d, amount_of amt d ≤ balance s addr d).
Proof.
  unfold SubtractCoins. intros H.
  apply M_bind_Ok in H as (u & s1 & H2 & H). apply guard_not_Ok in H2 as [V ->].
  apply M_bind_Ok in H as (o & s1 & H2 & H). apply gets_Ok in H2 as [-> ->].
  bool_prop. apply IsValid_wf in V. split; [done|].
  eapply subtractCoins_Ok; [exact H|done|apply V].
Qed.

Lemma AddCoins_Ok addr amt s s' c :
  AddCoins addr amt s = (Ok c, s') →
  wf_coins amt ∧ one_account s s' addr (λ d, amount_of amt d).
Proof.
  unfold AddCoins. intros H.
  apply M_bind_Ok in H as (u & s1 & H2 & H). apply guard_not_Ok in H2 as [V ->].
  apply M_bind_Ok in H as (o & s1 & H2 & H). apply gets_Ok in H2 as [-> ->].
  bool_prop. split; [by apply IsValid_wf|]. by eapply addCoins_Ok.
Qed.

(** A transfer is a debit and a credit. *)
Lemma SendCoins_Ok a b amt s s' u :
  SendCoins a b amt s = (Ok u, s') →
  wf_coins amt ∧ (bank_wf s → ∀ d, amount_of amt d ≤ balance s a d) ∧
  ∃ s1, one_account s s1 a (λ d, - amount_of amt d) ∧ one_account s1 s' b (λ d, amount_of amt d).
Proof.
  unfold SendCoins. intros H.
  apply M_bind_Ok in H as (u1 & s1 & H2 & H). apply guard_not_Ok in H2 as [V ->].
  apply M_bind_Ok in H as (o & s1 & H2 & H). apply gets_Ok in H2 as [-> ->].
  apply M_bind_Ok in H as (c & s1 & H2 & H).
  apply M_bind_Ok in H as (o & s2 & H3 & H). apply gets_Ok in H3 as [-> ->].
  apply M_bind_Ok in H as (c' & s2 & H3 & H). apply mret_Ok in H as [_ ->].
  bool_prop. apply IsValid_wf in V. split; [done|].
  apply subtractCoins_Ok in H2 as [H2 ?]; [|done|apply V]. split; [done|].
  exists s1. split; [done|]. by eapply addCoins_Ok.
Qed.

End BankFacts.

(** ** Effects

    The difference that a call makes to what can be observed: per account and
    denomination, in total, and in the recorded supply. *)

Record effect (s s' : Bank) (δ : string → string → Z) (τ σ : string → Z) : Prop := mkEffect {
  eff_wf : bank_wf s → bank_wf s';
  eff_balance x d : balance s' x d = balance s x d + δ x d;
  eff_total d : total_of s' d = total_of s d + τ d;
  eff_supply d : supply_of s' d = supply_of s d + σ d }.

(** The coins [amt] put at the address [a]. *)
Definition at_addr (a : string) (amt : list DecCoin) (x d : string) : Z :=
  if decide (x = a) then amount_of amt d else 0.

Section EffectFacts.

Lemma effect_refl s : effect s s (λ _ _, 0) (λ _, 0) (λ _, 0).
Proof. split; auto with lia. Qed.

Lemma effect_trans s s1 s2 δ τ σ δ' τ' σ' :
  effect s s1 δ τ σ → effect s1 s2 δ' τ' σ' →
  effect s s2 (λ x d, δ x d + δ' x d) (λ d, τ d + τ' d) (λ d, σ d + σ' d).
Proof.
  intros [W B T S] [W' B' T' S']. split; [auto|..].
  - intros. rewrite B', B. lia.
  - intros. rewrite T', T. lia.
  - intros. rewrite S', S. lia.
Qed.

Lemma effect_ext s s' δ τ σ δ' τ' σ' :
  effect s s' δ τ σ → (∀ x d, δ x d = δ' x d) → (∀ d, τ d = τ' d) → (∀ d, σ d = σ' d) →
  effect s s' δ' τ' σ'.
Proof.
  intros [W B T S] Eδ Eτ Eσ. split; [done|..]; intros; rewrite <- ?Eδ, <- ?Eτ, <- ?Eσ; auto.
Qed.

Lemma one_account_effect s s' a g :
  one_account s s' a g →
  effect s s' (λ x d, if decide (x = a) then g d else 0) g (λ _, 0).
Proof.
  intros H. split.
  - by eapply one_account_wf.
  - intros. by apply one_account_balance.
  - intros. by eapply one_account_total.
  - intros d. unfold supply_of. rewrite (one_account_supply _ _ _ _ H). lia.
Qed.

Lemma SendCoins_effect a b amt s s' u :
  SendCoins a b amt s = (Ok u, s') →
  effect s s' (λ x d, at_addr b amt x d - at_addr a amt x d) (λ _, 0) (λ _, 0).
Proof.
  intros (_ & _ & s1 & H1%one_account_effect & H2%one_account_effect)%SendCoins_Ok.
  eapply effect_ext; [exact (effect_trans _ _ _ _ _ _ _ _ _ H1 H2)|..]; cbn; intros;
    unfold at_addr; repeat case_decide; lia.
Qed.

Context {cfg : BankConfig}.

Lemma GetModuleAccount_Ok name s s' r :
  GetModuleAccount name s = (Ok r, s') →
  fst <$> r = GetModuleAddress name ∧ effect s s' (λ _ _, 0) (λ _, 0) (λ _, 0).
Proof.
  unfold GetModuleAccount, GetModuleAddress. destruct (permAddrs !! name) as [[addr perms]|].
  2: { intros [-> ->]%mret_Ok. split; [done|apply effect_refl]. }
  intros H. apply M_bind_Ok in H as (o & s1 & H2 & H). apply gets_Ok in H2 as [-> ->].
  destruct (accounts s !! addr) as [acc|] eqn:Hacc.
  - destruct (AccPermissions acc); [|by apply panic_Ok in H].
    apply mret_Ok in H as [-> ->]. split; [done|apply effect_refl].
  - apply M_bind_Ok in H as (u & s1 & H2 & H). apply modify_Ok in H2 as ->.
    apply mret_Ok in H as [-> ->]. split; [done|]. split.
    + intros Hw. apply map_Forall_insert_2; [apply wf_coins_nil|done].
    + intros x d. unfold balance. cbn. destruct (decide (x = addr)) as [->|].
      * rewrite lookup_insert_eq, Hacc. done.
      * rewrite lookup_insert_ne by done. lia.
    + intros d. unfold total_of. cbn. rewrite map_sum_insert, Hacc. cbn. lia.
    + intros d. unfold supply_of. cbn. lia.
Qed.

Lemma GetModuleAccount_Some name s s' addr perms :
  GetModuleAccount name s = (Ok (Some (addr, perms)), s') →
  GetModuleAddress name = Some addr ∧ effect s s' (λ _ _, 0) (λ _, 0) (λ _, 0).
Proof. intros [H ?]%GetModuleAccount_Ok. done. Qed.

Lemma inflate_effect d0 a s s' u :
  inflate d0 a s = (Ok u, s') →
  effect s s' (λ _ _, 0) (λ _, 0) (λ d, if String.eqb d0 d then a else 0).
Proof.
  unfold inflate, Dec_Equal. destruct (Z.eqb_spec a ZeroDec) as [->|].
  - intros [_ ->]%mret_Ok. eapply effect_ext; [apply effect_refl|done..|].
    intros d. by destruct (String.eqb d0 d).
  - intros H. apply M_bind_Ok in H as (o & s1 & H2 & H). apply gets_Ok in H2 as [-> ->].
    apply M_bind_Ok in H as (n' & s1 & H2 & H). apply lift_Ok in H2 as [H2 ->].
    apply modify_Ok in H as ->. apply Dec_Add_Ok in H2 as [-> _].
    split; [done|intros; unfold balance; cbn; lia|intros; unfold total_of; cbn; lia|].
    intros d. unfold supply_of. cbn. destruct (String.eqb_spec d0 d) as [->|].
    + rewrite lookup_insert_eq. done.
    + rewrite lookup_insert_ne by done. lia.
Qed.

Lemma deflate_effect d0 a s s' u :
  deflate d0 a s = (Ok u, s') →
  effect s s' (λ _ _, 0) (λ _, 0) (λ d, - if String.eqb d0 d then a else 0).
Proof.
  unfold deflate.
  intros H. apply M_bind_Ok in H as (o & s1 & H2 & H). apply gets_Ok in H2 as [-> ->].
  apply M_bind_Ok in H as (n' & s1 & H2 & H). apply lift_Ok in H2 as [H2 ->].
  apply M_bind_Ok in H as (u' & s1 & H3 & H). apply guard_not_Ok in H3 as [_ ->].
  apply modify_Ok in H as ->. apply Dec_Sub_Ok in H2 as [-> _].
  split; [done|intros; unfold balance; cbn; lia|intros; unfold total_of; cbn; lia|].
  intros d. unfold supply_of. cbn. destruct (String.eqb_spec d0 d) as [->|].
  - rewrite lookup_insert_eq. cbn. change ZeroDec with 0. lia.
  - rewrite lookup_insert_ne by done. lia.
Qed.

Lemma inflateAll_effect amt : ∀ s s' u,
  inflateAll amt s = (Ok u, s') → effect s s' (λ _ _, 0) (λ _, 0) (amount_of amt).
Proof.
  induction amt as [|c l IH]; intros s s' u H; cbn in H.
  - apply mret_Ok in H as [_ ->]. apply effect_refl.
  - apply M_bind_Ok in H as (u' & s1 & H1 & H). apply inflate_effect in H1. apply IH in H.
    eapply effect_ext; [exact (effect_trans _ _ _ _ _ _ _ _ _ H1 H)|done..].
Qed.

Lemma deflateAll_effect amt : ∀ s s' u,
  deflateAll amt s = (Ok u, s') → effect s s' (λ _ _, 0) (λ _, 0) (λ d, - amount_of amt d).
Proof.
  induction amt as [|c l IH]; intros s s' u H; cbn in H.
  - apply mret_Ok in H as [_ ->]. apply effect_refl.
  - apply M_bind_Ok in H as (u' & s1 & H1 & H). apply deflate_effect in H1. apply IH in H.
    eapply effect_ext; [exact (effect_trans _ _ _ _ _ _ _ _ _ H1 H)|done..|].
    intros d. cbn beta. rewrite amount_of_cons. lia.
Qed.

Lemma MintCoins_effect m amt s s' u :
  MintCoins m amt s = (Ok u, s') →
  ∃ addr, GetModuleAddress m = Some addr ∧ wf_coins amt
  ∧ effect s s' (at_addr addr amt) (amount_of amt) (amount_of amt).
Proof.
  unfold MintCoins. intros H. apply M_bind_Ok in H as ([[addr perms]|] & s1 & H1 & H);
    [|by apply panic_Ok in H].
  apply GetModuleAccount_Some in H1 as [Ha E1].
  apply M_bind_Ok in H as (u' & s2 & H2 & H). apply panic_if_Ok in H2 as [_ ->].
  apply M_bind_Ok in H as (c & s2 & H2 & H). apply AddCoins_Ok in H2 as [Hw E2%one_account_effect].
  apply inflateAll_effect in H. exists addr. split; [done|]. split; [done|].
  pose proof (effect_trans _ _ _ _ _ _ _ _ _ E1 (effect_trans _ _ _ _ _ _ _ _ _ E2 H)) as E.
  eapply effect_ext; [exact E|..]; cbn; intros; unfold at_addr; repeat case_decide; lia.
Qed.

Lemma BurnCoins_effect m amt s s' u :
  BurnCoins m amt s = (Ok u, s') →
  ∃ addr, GetModuleAddress m = Some addr ∧ wf_coins amt
  ∧ effect s s' (λ x d, - at_addr addr amt x d) (λ d, - amount_of amt d) (λ d, - amount_of amt d)
  ∧ (bank_wf s → ∀ d, amount_of amt d ≤ balance s addr d).
Proof.
  unfold BurnCoins. intros H. apply M_bind_Ok in H as ([[addr perms]|] & s1 & H1 & H);
    [|by apply panic_Ok in H].
  apply GetModuleAccount_Some in H1 as [Ha E1].
  apply M_bind_Ok in H as (u' & s2 & H2 & H). apply panic_if_Ok in H2 as [_ ->].
  apply M_bind_Ok in H as (c & s2 & H2 & H).
  apply SubtractCoins_Ok in H2 as (Hw & E2%one_account_effect & Hle).
  apply deflateAll_effect in H. exists addr. split; [done|]. split; [done|]. split.
  - pose proof (effect_trans _ _ _ _ _ _ _ _ _ E1 (effect_trans _ _ _ _ _ _ _ _ _ E2 H)) as E.
    eapply effect_ext; [exact E|..]; cbn; intros; unfold at_addr; repeat case_decide; lia.
  - intros Hs d. specialize (Hle (eff_wf _ _ _ _ _ E1 Hs) d).
    rewrite (eff_balance _ _ _ _ _ E1) in Hle. lia.
Qed.

Lemma SendCoinsFromModuleToAccount_effect m a amt s s' u :
  SendCoinsFromModuleToAccount m a amt s = (Ok u, s') →
  ∃ addr, GetModuleAddress m = Some addr ∧ SendCoins addr a amt s = (Ok u, s')
  ∧ BlacklistedAddr a = false.
Proof.
  unfold SendCoinsFromModuleToAccount. intros H.
  apply M_bind_Ok in H as (u' & s2 & H2 & H). apply guard_not_Ok in H2 as [? ->].
  destruct (GetModuleAddress m) as [addr|]; [|by apply panic_Ok in H]. eauto.
Qed.

Lemma SendCoinsFromAccountToModule_effect a m amt s s' u :
  SendCoinsFromAccountToModule a m amt s = (Ok u, s') →
  ∃ addr s1, GetModuleAddress m = Some addr
  ∧ effect s s1 (λ _ _, 0) (λ _, 0) (λ _, 0) ∧ SendCoins a addr amt s1 = (Ok u, s').
Proof.
  unfold SendCoinsFromAccountToModule. intros H.
  apply M_bind_Ok in H as ([[addr perms]|] & s1 & H1 & H); [|by apply panic_Ok in H].
  apply GetModuleAccount_Some in H1 as [Ha E1]. eauto.
Qed.

Lemma SendCoinsFromModuleToModule_effect m n amt s s' u :
  SendCoinsFromModuleToModule m n amt s = (Ok u, s') →
  ∃ a b s1, GetModuleAddress m = Some a ∧ GetModuleAddress n = Some b
  ∧ effect s s1 (λ _ _, 0) (λ _, 0) (λ _, 0) ∧ SendCoins a b amt s1 = (Ok u, s').
Proof.
  unfold SendCoinsFromModuleToModule. intros H.
  destruct (GetModuleAddress m) as [a|]; [|by apply panic_Ok in H].
  apply M_bind_Ok in H as ([[addr perms]|] & s1 & H1 & H); [|by apply panic_Ok in H].
  apply GetModuleAccount_Some in H1 as [Ha E1]. naive_solver.
Qed.

End EffectFacts.

(** ** Equality of coin sets and multi-party transfers *)

Section InputOutputFacts.

Lemma IsEqual_loop_amount A : ∀ B d,
  length A = length B → DecCoins_IsEqual_loop A B = Ok true → amount_of A d = amount_of B d.
Proof.
  induction A as [|a A IH]; intros [|b B] d L H; try done. cbn in H, L.
  apply outcome_bind_Ok in H as (e & He & H). destruct e; [|done].
  unfold DecCoin_IsEqual, sameDenom, Dec_Equal in He.
  destruct (String.eqb_spec (Denom a) (Denom b)) as [E|]; [|done]. injection He as He. bool_prop.
  rewrite !amount_of_cons, E, He, (IH B d) by (done || lia). done.
Qed.

Lemma IsEqual_amount A B d :
  DecCoins_IsEqual A B = Ok true → amount_of A d = amount_of B d.
Proof.
  unfold DecCoins_IsEqual. case_bool_decide as L; cbn [negb]; [|done]. intros H.
  apply (IsEqual_loop_amount _ _ d) in H.
  - by rewrite !(amount_of_perm _ _ d (Sort_perm _)) in H.
  - by rewrite !(Permutation_length (Sort_perm _)).
Qed.

Lemma IsEqual_loop_refl A : DecCoins_IsEqual_loop A A = Ok true.
Proof.
  induction A as [|a A IH]; [done|]. cbn. unfold DecCoin_IsEqual, sameDenom, Dec_Equal.
  by rewrite String.eqb_refl, Z.eqb_refl.
Qed.

Lemma IsEqual_wf A B b :
  wf_coins A → wf_coins B → (∀ d, amount_of A d = amount_of B d) → DecCoins_IsEqual A B = Ok b → b = true.
Proof.
  intros WA WB E. rewrite (wf_coins_ext _ _ WA WB E). unfold DecCoins_IsEqual. rewrite bool_decide_true by done.
  cbn [negb]. rewrite IsEqual_loop_refl. by intros [= <-].
Qed.

(** What the parties of one side move together. *)
Definition io_amount (l : list InOut) (d : string) : Z :=
  foldr (λ x acc, amount_of (IOCoins x) d + acc) 0 l.
Definition io_at (l : list InOut) (a d : string) : Z :=
  foldr (λ x acc, at_addr (IOAddress x) (IOCoins x) a d + acc) 0 l.

Lemma io_amount_cons x l d : io_amount (x :: l) d = amount_of (IOCoins x) d + io_amount l d.
Proof. done. Qed.
Lemma io_at_cons x l a d :
  io_at (x :: l) a d = at_addr (IOAddress x) (IOCoins x) a d + io_at l a d.
Proof. done. Qed.

Lemma InOut_total_amount l : ∀ t T d,
  InOut_total l t = Ok T → amount_of T d = amount_of t d + io_amount l d.
Proof.
  induction l as [|x l IH]; intros t T d H; cbn in H.
  - injection H as <-. cbn. lia.
  - apply outcome_bind_Ok in H as (u & _ & H). apply outcome_bind_Ok in H as (t' & Ht & H).
    apply (safeAdd_amount _ _ _ d) in Ht. apply (IH _ _ d) in H.
    rewrite io_amount_cons. lia.
Qed.

Lemma subtractInputs_effect l : ∀ s s' u,
  subtractInputs l s = (Ok u, s') →
  effect s s' (λ x d, - io_at l x d) (λ d, - io_amount l d) (λ _, 0).
Proof.
  induction l as [|x l IH]; intros s s' u H; cbn in H.
  - apply mret_Ok in H as [_ ->]. apply effect_refl.
  - apply M_bind_Ok in H as (c & s1 & H1 & H). apply IH in H.
    apply SubtractCoins_Ok in H1 as (_ & E%one_account_effect & _).
    eapply effect_ext; [exact (effect_trans _ _ _ _ _ _ _ _ _ E H)|..]; cbn beta; intros;
      rewrite ?io_at_cons, ?io_amount_cons; unfold at_addr; repeat case_decide; lia.
Qed.

Lemma addOutputs_effect l : ∀ s s' u,
  addOutputs l s = (Ok u, s') → effect s s' (io_at l) (io_amount l) (λ _, 0).
Proof.
  induction l as [|x l IH]; intros s s' u H; cbn in H.
  - apply mret_Ok in H as [_ ->]. apply effect_refl.
  - apply M_bind_Ok in H as (c & s1 & H1 & H). apply AddCoins_Ok in H1 as [_ H1].
    apply M_bind_Ok in H as (o & s2 & H2 & H). apply gets_Ok in H2 as [-> ->].
    assert (∃ a, accounts s1 !! IOAddress x = Some a) as [a Ha].
    { destruct H1 as (acc & -> & _). exists acc. apply lookup_insert_eq. }
    rewrite Ha in H. apply M_bind_Ok in H as (u' & s2 & H2 & H). apply mret_Ok in H2 as [_ ->].
    apply one_account_effect in H1. apply IH in H.
    eapply effect_ext; [exact (effect_trans _ _ _ _ _ _ _ _ _ H1 H)|..]; cbn beta; intros;
      rewrite ?io_at_cons, ?io_amount_cons; unfold at_addr; repeat case_decide; lia.
Qed.

Lemma InputOutputCoins_effect ins outs s s' u :
  InputOutputCoins ins outs s = (Ok u, s') →
  effect s s' (λ x d, io_at outs x d - io_at ins x d) (λ _, 0) (λ _, 0).
Proof.
  unfold InputOutputCoins. intros H.
  apply M_bind_Ok in H as (u1 & s1 & H1 & H). apply lift_Ok in H1 as [V ->].
  apply M_bind_Ok in H as (u2 & s1 & H1 & H). apply subtractInputs_effect in H1.
  apply addOutputs_effect in H.
  assert (∀ d, io_amount ins d = io_amount outs d) as E.
  { intros d. unfold ValidateInputsOutputs in V.
    apply outcome_bind_Ok in V as (ti & Hi & V). apply outcome_bind_Ok in V as (to & Ho & V).
    apply outcome_bind_Ok in V as (e & He & V). destruct e; [|done].
    apply (IsEqual_amount _ _ d) in He.
    apply (InOut_total_amount _ _ _ d) in Hi, Ho. rewrite amount_of_nil in Hi, Ho. lia. }
  eapply effect_ext; [exact (effect_trans _ _ _ _ _ _ _ _ _ H1 H)|..]; cbn beta; intros;
    rewrite ?E; lia.
Qed.

Lemma DelegateCoins_effect a m amt s s' u :
  DelegateCoins a m amt s = (Ok u, s') →
  bank_wf s →
  effect s s' (λ x d, at_addr m amt x d - at_addr a amt x d) (λ _, 0) (λ _, 0).
Proof.
  unfold DelegateCoins. intros H Hwf.
  apply M_bind_Ok in H as (o & s1 & H1 & H). apply gets_Ok in H1 as [-> ->].
  destruct (accounts s !! a) as [acc|] eqn:Ha; [|by apply fail_Ok in H].
  apply M_bind_Ok in H as (o & s1 & H1 & H). apply gets_Ok in H1 as [-> ->].
  destruct (accounts s !! m) as [macc|]; [|by apply fail_Ok in H].
  apply M_bind_Ok in H as (u1 & s1 & H1 & H). apply guard_not_Ok in H1 as [V ->]. bool_prop.
  apply M_bind_Ok in H as ([diff neg] & s1 & H1 & H). apply lift_Ok in H1 as [H1 ->].
  apply M_bind_Ok in H as (u2 & s1 & H2 & H). apply guard_not_Ok in H2 as [-> ->].
  apply M_bind_Ok in H as (acc' & s1 & H2 & H). apply lift_Ok in H2 as [H2 ->].
  apply M_bind_Ok in H as (u3 & s1 & H3 & H). apply modify_Ok in H3 as ->.
  apply M_bind_Ok in H as (c & s1 & H3 & H). apply mret_Ok in H as [_ ->].
  apply AddCoins_Ok in H3 as [_ E2%one_account_effect].
  unfold trackDelegation, DecCoins_Sub in H2. rewrite H1 in H2. cbn in H2. injection H2 as <-.
  apply IsValid_wf in V. pose proof (Hwf _ _ Ha) as Hacc.
  pose proof (SafeSub_wf _ _ _ (proj1 Hacc) (proj1 V) H1) as Wd.
  apply SafeSub_Ok in H1 as (_ & _ & Hd & _); [|apply Hacc|apply V].
  pose proof (one_account_set s a diff Wd) as E1%one_account_effect. rewrite Ha in E1. cbn in E1.
  eapply effect_ext; [exact (effect_trans _ _ _ _ _ _ _ _ _ E1 E2)|..]; cbn beta; intros;
    unfold at_addr; rewrite ?Hd, ?(balance_Some _ _ _ _ Ha); repeat case_decide; lia.
Qed.

(** The module account must not be the delegator: its account is read before
    the write, and a stale copy would be written back. *)
Lemma UndelegateCoins_effect m a amt s s' u :
  UndelegateCoins m a amt s = (Ok u, s') → bank_wf s → a ≠ m →
  effect s s' (λ x d, at_addr a amt x d - at_addr m amt x d) (λ _, 0) (λ _, 0).
Proof.
  unfold UndelegateCoins. intros H Hwf Hne.
  apply M_bind_Ok in H as (o & s1 & H1 & H). apply gets_Ok in H1 as [-> ->].
  destruct (accounts s !! a) as [acc|] eqn:Ha; [|by apply fail_Ok in H].
  apply M_bind_Ok in H as (o & s1 & H1 & H). apply gets_Ok in H1 as [-> ->].
  destruct (accounts s !! m) as [macc|] eqn:Hm; [|by apply fail_Ok in H].
  apply M_bind_Ok in H as (u1 & s1 & H1 & H). apply guard_not_Ok in H1 as [V ->]. bool_prop.
  apply M_bind_Ok in H as ([diff neg] & s1 & H1 & H). apply lift_Ok in H1 as [H1 ->].
  apply M_bind_Ok in H as (u2 & s1 & H2 & H). apply guard_not_Ok in H2 as [-> ->].
  apply M_bind_Ok in H as (u3 & s1 & H2 & H).
  unfold SetCoins in H2. apply M_bind_Ok in H2 as (o & s2 & H3 & H2).
  apply gets_Ok in H3 as [-> ->]. apply modify_Ok in H2.
  apply M_bind_Ok in H as (acc' & s2 & H3 & H). apply lift_Ok in H3 as [H3 ->].
  apply modify_Ok in H.
  apply outcome_bind_Ok in H3 as (c & Hc & H3). injection H3 as <-.
  apply IsValid_wf in V. pose proof (Hwf _ _ Hm) as Hmw. pose proof (Hwf _ _ Ha) as Haw.
  pose proof (SafeSub_wf _ _ _ (proj1 Hmw) (proj1 V) H1) as Wd.
  apply SafeSub_Ok in H1 as (_ & _ & Hd & _); [|apply Hmw|apply V].
  pose proof (safeAdd_wf _ _ _ Haw V Hc) as Wc.
  pose proof (one_account_set s m diff Wd) as E1%one_account_effect. rewrite <- H2 in E1.
  assert (accounts s1 !! a = Some acc) as Ha1 by (rewrite H2; cbn; by rewrite lookup_insert_ne).
  pose proof (one_account_set s1 a c Wc) as E2%one_account_effect.
  rewrite Ha1 in E2. change (default NewAccountWithAddress (Some acc)) with acc in E2.
  rewrite <- H in E2.
  eapply effect_ext; [exact (effect_trans _ _ _ _ _ _ _ _ _ E1 E2)|..]; cbn beta; intros;
    unfold at_addr; rewrite ?Hd, ?(safeAdd_amount _ _ _ _ Hc), ?(balance_Some _ _ _ _ Ha1),
      ?(balance_Some _ _ _ _ Hm); repeat case_decide; lia.
Qed.

(** To the module's own account: the balance that is written last was read
    before the coins were taken out, so the account gains the amount. *)
Lemma UndelegateCoins_self m amt s s' u :
  UndelegateCoins m m amt s = (Ok u, s') → bank_wf s →
  effect s s' (at_addr m amt) (amount_of amt) (λ _, 0).
Proof.
  unfold UndelegateCoins. intros H Hwf.
  apply M_bind_Ok in H as (o & s1 & H1 & H). apply gets_Ok in H1 as [-> ->].
  destruct (accounts s !! m) as [acc|] eqn:Ha; [|by apply fail_Ok in H].
  apply M_bind_Ok in H as (o & s1 & H1 & H). apply gets_Ok in H1 as [-> ->]. rewrite Ha in H.
  apply M_bind_Ok in H as (u1 & s1 & H1 & H). apply guard_not_Ok in H1 as [V ->]. bool_prop.
  apply M_bind_Ok in H as ([diff neg] & s1 & H1 & H). apply lift_Ok in H1 as [H1 ->].
  apply M_bind_Ok in H as (u2 & s1 & H2 & H). apply guard_not_Ok in H2 as [_ ->].
  apply M_bind_Ok in H as (u3 & s1 & H2 & H).
  unfold SetCoins in H2. apply M_bind_Ok in H2 as (o & s2 & H3 & H2).
  apply gets_Ok in H3 as [-> ->]. apply modify_Ok in H2. rewrite Ha in H2. cbn [default] in H2.
  apply M_bind_Ok in H as (acc' & s2 & H3 & H). apply lift_Ok in H3 as [H3 ->].
  apply modify_Ok in H. apply outcome_bind_Ok in H3 as (c & Hc & H3). injection H3 as <-.
  apply IsValid_wf in V. pose proof (safeAdd_wf _ _ _ (Hwf _ _ Ha) V Hc) as Wc.
  pose proof (one_account_set s m c Wc) as E%one_account_effect. rewrite Ha in E. cbn [default] in E.
  assert (s' = with_accounts <[m := Account_SetCoins acc c]> s) as ->.
  { rewrite H, H2. unfold with_accounts. cbn. f_equal. apply insert_insert_eq. }
  eapply effect_ext; [exact E|..]; cbn beta; intros; unfold at_addr;
    rewrite ?(safeAdd_amount _ _ _ _ Hc), ?(balance_Some _ _ _ _ Ha); repeat case_decide; subst; lia.
Qed.

End InputOutputFacts.

(** ** Runs of the bank and supply operations *)

(** Every operation of the two keepers that changes the store. *)
Inductive bank_op :=
  | OpSend (a b : string) (amt : list DecCoin)
  | OpMultiSend (ins outs : list InOut)
  | OpModuleToAccount (m a : string) (amt : list DecCoin)
  | OpModuleToModule (m n : string) (amt : list DecCoin)
  | OpAccountToModule (a m : string) (amt : list DecCoin)
  | OpDelegate (a m : string) (amt : list DecCoin)
  | OpUndelegate (m a : string) (amt : list DecCoin)
  | OpMint (m : string) (amt : list DecCoin)
  | OpBurn (m : string) (amt : list DecCoin).

Section BankRuns.
Context {cfg : BankConfig}.

Definition bank_exec (op : bank_op) : M Bank unit :=
  match op with
  | OpSend a b amt => handleMsgSend a b amt
  | OpMultiSend ins outs => handleMsgMultiSend ins outs
  | OpModuleToAccount m a amt => SendCoinsFromModuleToAccount m a amt
  | OpModuleToModule m n amt => SendCoinsFromModuleToModule m n amt
  | OpAccountToModule a m amt => SendCoinsFromAccountToModule a m amt
  | OpDelegate a m amt => DelegateCoinsFromAccountToModule a m amt
  | OpUndelegate m a amt => UndelegateCoinsFromModuleToAccount m a amt
  | OpMint m amt => MintCoins m amt
  | OpBurn m amt => BurnCoins m amt
  end.

(** The application keeps the writes of a call only when it succeeds. *)
Definition deliver {S A} (m : M S A) (s : S) : S :=
  match m s with
  | (Ok _, s') => s'
  | _ => s
  end.

Definition bank_inv (s : Bank) : Prop := bank_wf s ∧ supply_inv s.

Lemma effect_inv s s' δ τ : effect s s' δ τ τ → bank_inv s → bank_inv s'.
Proof.
  intros [W B T S] [Hw Hs]. split; [auto|]. intros d. rewrite S, T, Hs. done.
Qed.

(** What an operation adds to the accounts without recording it as supply:
    coins that a module undelegates to its own account. *)
Definition unrecorded (op : bank_op) (s : Bank) (d : string) : Z :=
  match op with
  | OpUndelegate m a amt =>
      if bool_decide (GetModuleAddress m = Some a) && is_ok (bank_exec op s).1 then amount_of amt d else 0
  | _ => 0
  end.
Fixpoint unrecorded_in (ops : list bank_op) (s : Bank) (d : string) : Z :=
  match ops with
  | [] => 0
  | op :: ops => unrecorded op s d + unrecorded_in ops (deliver (bank_exec op) s) d
  end.

(** Every other operation changes the recorded supply by exactly what it
    changes the total of the accounts by. *)
Lemma bank_exec_effect op s s' u :
  bank_exec op s = (Ok u, s') → bank_wf s → ∃ δ τ, effect s s' δ (λ d, τ d + unrecorded op s d) τ.
Proof.
  intros H Hwf.
  assert (∀ s' δ τ, effect s s' δ τ τ → (∀ d, unrecorded op s d = 0) →
    ∃ δ τ, effect s s' δ (λ d, τ d + unrecorded op s d) τ) as Hplain.
  { intros s0 δ τ E Hz. exists δ, τ. eapply effect_ext; [exact E|..]; intros; rewrite ?Hz; lia. }
  destruct op; cbn [bank_exec] in H.
  - unfold handleMsgSend in H. inv_ok. eapply Hplain; [|done]. by eapply SendCoins_effect.
  - unfold handleMsgMultiSend in H. inv_ok. eapply Hplain; [|done]. by eapply InputOutputCoins_effect.
  - apply SendCoinsFromModuleToAccount_effect in H as (? & _ & H & _).
    eapply Hplain; [|done]. by eapply SendCoins_effect.
  - apply SendCoinsFromModuleToModule_effect in H as (? & ? & ? & _ & _ & E & H).
    apply SendCoins_effect in H. eapply Hplain; [|done]. exact (effect_trans _ _ _ _ _ _ _ _ _ E H).
  - apply SendCoinsFromAccountToModule_effect in H as (? & ? & _ & E & H).
    apply SendCoins_effect in H. eapply Hplain; [|done]. exact (effect_trans _ _ _ _ _ _ _ _ _ E H).
  - apply M_bind_Ok in H as ([[addr perms]|] & s1 & H1 & H); [|by apply panic_Ok in H].
    apply GetModuleAccount_Some in H1 as [_ E].
    apply M_bind_Ok in H as (? & ? & H1 & H). apply panic_if_Ok in H1 as [_ ->].
    apply DelegateCoins_effect in H; [|by apply (eff_wf _ _ _ _ _ E)].
    eapply Hplain; [|done]. exact (effect_trans _ _ _ _ _ _ _ _ _ E H).
  - assert (is_ok (bank_exec (OpUndelegate m a amt) s).1 = true) as Hok by (cbn [bank_exec]; by rewrite H).
    apply M_bind_Ok in H as ([[addr perms]|] & s1 & H1 & H); [|by apply panic_Ok in H].
    apply GetModuleAccount_Some in H1 as [Ha E].
    apply M_bind_Ok in H as (? & ? & H1 & H). apply panic_if_Ok in H1 as [_ ->].
    destruct (decide (a = addr)) as [->|Hne].
    + apply UndelegateCoins_self in H; [|by apply (eff_wf _ _ _ _ _ E)]. eexists _, (λ _, 0).
      eapply effect_ext; [exact (effect_trans _ _ _ _ _ _ _ _ _ E H)|done|..]; cbn beta; [|done].
      intros d. unfold unrecorded. rewrite Hok, bool_decide_true by done. cbn. lia.
    + apply UndelegateCoins_effect in H; [|by apply (eff_wf _ _ _ _ _ E)|done].
      eapply Hplain; [exact (effect_trans _ _ _ _ _ _ _ _ _ E H)|]. intros d. unfold unrecorded.
      by rewrite bool_decide_false by congruence.
  - apply MintCoins_effect in H as (? & _ & _ & E). by eapply Hplain.
  - apply BurnCoins_effect in H as (? & _ & _ & E & _). by eapply Hplain.
Qed.

Lemma bank_deliver_effect op s :
  bank_wf s → bank_wf (deliver (bank_exec op) s) ∧
  ∀ d, total_of (deliver (bank_exec op) s) d - supply_of (deliver (bank_exec op) s) d
    = total_of s d - supply_of s d + unrecorded op s d.
Proof.
  intros Hw. unfold deliver. destruct (bank_exec op s) as [o s1] eqn:H. destruct o as [u|e|p].
  - destruct (bank_exec_effect op s s1 u H Hw) as (δ & τ & [W _ T S]). split; [auto|]. intros d. rewrite T, S. lia.
  - split; [done|]. intros d. destruct op; cbn [unrecorded]; rewrite ?H; cbn; rewrite ?andb_false_r; lia.
  - split; [done|]. intros d. destruct op; cbn [unrecorded]; rewrite ?H; cbn; rewrite ?andb_false_r; lia.
Qed.

Definition bank_run : Bank → list bank_op → Bank := foldl (λ s op, deliver (bank_exec op) s).

Lemma bank_run_effect ops : ∀ s, bank_wf s →
  bank_wf (bank_run s ops) ∧
  ∀ d, total_of (bank_run s ops) d - supply_of (bank_run s ops) d
    = total_of s d - supply_of s d + unrecorded_in ops s d.
Proof.
  induction ops as [|op ops IH]; intros s Hw; [split; [done|]; cbn; lia|]. cbn [unrecorded_in].
  destruct (bank_deliver_effect op s Hw) as [Hw1 Hd1]. destruct (IH _ Hw1) as [Hw2 Hd2].
  split; [done|]. intros d. change (bank_run s (op :: ops)) with (bank_run (deliver (bank_exec op) s) ops).
  rewrite Hd2, Hd1. lia.
Qed.

Lemma unrecorded_none ops d :
  (∀ m a amt, OpUndelegate m a amt ∈ ops → GetModuleAddress m ≠ Some a) → ∀ s, unrecorded_in ops s d = 0.
Proof.
  induction ops as [|op ops IH]; intros Hno s; [done|]. cbn [unrecorded_in].
  rewrite IH by (intros m a amt Hin; apply (Hno m a amt); by right). rewrite Z.add_0_r. destruct op; try done.
  cbn [unrecorded]. rewrite bool_decide_false; [done|]. apply (Hno _ _ amt). by left.
Qed.

(** C21: whatever sequence of transfers, multi-sends, delegations,
    undelegations, mints and burns is delivered, successful or not, every
    account keeps a well-formed coin set, and the sum over all accounts of a
    denomination is the recorded supply and what modules have undelegated to
    their own accounts: with no such undelegation the two are equal.  (The
    undelegation reads the balance of the account before the coins are taken
    out of it, and so creates them when both accounts are the same.) *)
Theorem bank_run_invariant ops s :
  bank_inv s →
  bank_wf (bank_run s ops) ∧
  (∀ d, total_of (bank_run s ops) d = supply_of (bank_run s ops) d + unrecorded_in ops s d) ∧
  ((∀ m a amt, OpUndelegate m a amt ∈ ops → GetModuleAddress m ≠ Some a) → bank_inv (bank_run s ops)).
Proof.
  intros [Hw Hs]. destruct (bank_run_effect ops s Hw) as [Hw' Hd]. split_and!; [done|..].
  - intros d. specialize (Hd d). rewrite (Hs d) in Hd. lia.
  - intros Hno. split; [done|]. intros d. specialize (Hd d). rewrite (Hs d), unrecorded_none in Hd by done. lia.
Qed.

(** ** Minting needs the permission *)

Lemma GetModuleAccount_registered name s addr perms :
  permAddrs !! name = Some (addr, perms) →
  (∀ acc, accounts s !! addr = Some acc → AccPermissions acc = Some perms) →
  ∃ s', GetModuleAccount name s = (Ok (Some (addr, perms)), s').
Proof.
  intros Hp Ha. unfold GetModuleAccount. rewrite Hp. unfold mbind, M_bind, GetAccount, gets.
  destruct (accounts s !! addr) as [acc|]; [rewrite (Ha acc) by done|]; by eexists.
Qed.

(** A module without the minter permission cannot mint and one without
    the burner permission cannot burn: the call panics, so nothing of it is
    kept. *)
Theorem MintBurn_unauthorized name addr perms amt s :
  permAddrs !! name = Some (addr, perms) →
  (∀ acc, accounts s !! addr = Some acc → AccPermissions acc = Some perms) →
  (HasPermission perms Minter = false →
     is_panic (fst (MintCoins name amt s)) = true ∧ deliver (MintCoins name amt) s = s) ∧
  (HasPermission perms Burner = false →
     is_panic (fst (BurnCoins name amt s)) = true ∧ deliver (BurnCoins name amt) s = s).
Proof.
  intros Hp Ha. destruct (GetModuleAccount_registered name s addr perms Hp Ha) as [s' E].
  unfold deliver, MintCoins, BurnCoins, mbind, M_bind. rewrite E.
  split; intros ->; done.
Qed.

End BankRuns.

Section BankWitnesses.

Definition demo_bank_config : BankConfig :=
  mkBankConfig {[ "mint" := ("addr_mint", ["minter"]); "swap" := ("addr_swap", []);
    "stake" := ("addr_stake", ["staking"]) ]} ∅.
Definition demo_bank : Bank :=
  mkBank {[ "alice" := mkAccount [mkDecCoin "okt" 10] None ]} {[ "okt" := 10 ]} true.

Lemma demo_bank_inv : bank_inv demo_bank.
Proof.
  split.
  - apply map_Forall_singleton. by apply wf_coins_one.
  - intros d. unfold supply_of, total_of, demo_bank. cbn [supplies accounts].
    rewrite map_sum_singleton. cbn [AccCoins]. rewrite amount_of_one. cbn [Denom Amount].
    destruct (String.eqb_spec "okt" d) as [<-|Hne].
    + by rewrite lookup_singleton_eq.
    + by rewrite lookup_singleton_ne.
Qed.

Definition demo_bank_ops : list bank_op :=
  [OpMint "mint" [mkDecCoin "btc" 5]; OpSend "alice" "bob" [mkDecCoin "okt" 4];
   OpSend "bob" "alice" [mkDecCoin "okt" 100]].
Definition demo_self_ops : list bank_op :=
  [OpAccountToModule "alice" "stake" [mkDecCoin "okt" 4]; OpUndelegate "stake" "addr_stake" [mkDecCoin "okt" 3]].
#[local] Abbreviation demo_bank_run := (bank_run (cfg := demo_bank_config) demo_bank).

Lemma demo_self_unrecorded :
  unrecorded_in (cfg := demo_bank_config) demo_self_ops demo_bank "okt" = 3.
Proof. vm_compute. reflexivity. Qed.

Lemma bank_run_invariant_witness :
  bank_inv (demo_bank_run demo_bank_ops) ∧
  total_of (demo_bank_run demo_self_ops) "okt" = supply_of (demo_bank_run demo_self_ops) "okt" + 3.
Proof.
  split.
  - apply (bank_run_invariant (cfg := demo_bank_config) demo_bank_ops demo_bank demo_bank_inv).
    intros m a amt [?|[?|[?|?%elem_of_nil]%elem_of_cons]%elem_of_cons]%elem_of_cons; done.
  - pose proof (bank_run_invariant (cfg := demo_bank_config) demo_self_ops demo_bank demo_bank_inv) as (_ & Ht & _).
    specialize (Ht "okt"). rewrite demo_self_unrecorded in Ht. exact Ht.
Defined.

Lemma MintBurn_unauthorized_witness :
  (HasPermission [] Minter = false →
     is_panic (fst (MintCoins (cfg := demo_bank_config) "swap" [] demo_bank)) = true ∧
     deliver (MintCoins (cfg := demo_bank_config) "swap" []) demo_bank = demo_bank) ∧
  (HasPermission [] Burner = false →
     is_panic (fst (BurnCoins (cfg := demo_bank_config) "swap" [] demo_bank)) = true ∧
     deliver (BurnCoins (cfg := demo_bank_config) "swap" []) demo_bank = demo_bank).
Proof.
  apply (MintBurn_unauthorized (cfg := demo_bank_config) "swap" "addr_swap" []);
    [reflexivity|]. intros acc H. vm_compute in H. discriminate H.
Defined.

End BankWitnesses.

(** ** Transfers, both outcomes *)

(** Denominations that [IsValid] accepts at every position. *)
Definition good_denoms (coins : list DecCoin) : Prop :=
  Forall (λ c, validDenom (Denom c) = true ∧ ToLower (Denom c) = Denom c) coins.
Definition bank_good (s : Bank) : Prop :=
  map_Forall (λ _ acc, wf_coins (AccCoins acc) ∧ good_denoms (AccCoins acc)) (accounts s).

Section Transfers.

Lemma IsValid_loop_good low coins :
  wf_coins coins → good_denoms coins → Forall (λ c, str_lt low (Denom c)) coins →
  DecCoins_IsValid_loop low coins = true.
Proof.
  revert low. induction coins as [|c l IH]; intros low [Hs Hp] Hg Hl; [done|]. cbn.
  apply Forall_cons in Hg as [[_ Hg] Hgs], Hl as [Hl _], Hp as [Hp Hps].
  apply coins_sorted_inv in Hs as [Hs Hc].
  rewrite Hg, String.eqb_refl, bool_decide_true, DecCoin_IsPositive_eq by done. cbn.
  destruct (Z.ltb_spec 0 (Amount c)); [cbn|lia]. by apply IH.
Qed.

Lemma IsValid_good coins : wf_coins coins → good_denoms coins → DecCoins_IsValid coins = true.
Proof.
  destruct coins as [|c l]; intros [Hs Hp] Hg; [done|]. cbn.
  apply Forall_cons in Hg as [[Hv _] Hgs], Hp as [Hp Hps].
  apply coins_sorted_inv in Hs as [Hs Hc].
  rewrite Hv, DecCoin_IsPositive_eq. cbn. destruct (Z.ltb_spec 0 (Amount c)); [cbn|lia].
  by apply IsValid_loop_good.
Qed.

Lemma bank_good_acc s a :
  bank_good s → wf_coins (acc_coins (accounts s !! a)) ∧ good_denoms (acc_coins (accounts s !! a)).
Proof.
  intros H. destruct (accounts s !! a) as [acc|] eqn:Ha; cbn.
  - by apply (H a acc).
  - split; [apply wf_coins_nil|constructor].
Qed.

Lemma setCoinsToAccount_total s a amt :
  wf_coins amt → good_denoms amt →
  setCoinsToAccount a (accounts s !! a) amt s =
  (Ok (), with_accounts
     <[a := Account_SetCoins (default NewAccountWithAddress (accounts s !! a)) amt]> s).
Proof.
  intros Hw Hg. unfold setCoinsToAccount, guard_not. rewrite IsValid_good by done. cbn.
  unfold mbind, M_bind, bank_getAccount. destruct (accounts s !! a) eqn:Ha; cbn; [done|].
  by rewrite Ha.
Qed.

Lemma bank_good_set s a amt :
  bank_good s → wf_coins amt → good_denoms amt →
  bank_good (with_accounts
     <[a := Account_SetCoins (default NewAccountWithAddress (accounts s !! a)) amt]> s).
Proof. intros Hs Hw Hg. by apply map_Forall_insert_2. Qed.

Lemma negative_good amt : good_denoms amt → good_denoms (DecCoins_negative amt).
Proof. intros H. apply Forall_fmap. eapply Forall_impl; [exact H|]. done. Qed.

(** The debit of a sufficient balance. *)
Lemma subtractCoins_total s a amt :
  bank_good s → wf_coins amt → good_denoms amt →
  (∀ d, amount_of amt d ≤ balance s a d) → (∀ d, dec_fits (balance s a d)) →
  ∃ c s', subtractCoins a (accounts s !! a) amt s = (Ok c, s') ∧ bank_good s'.
Proof.
  intros Hs Hw Hg Hle Hf. destruct (bank_good_acc s a Hs) as [Aw Ag].
  destruct (safeAdd_total (acc_coins (accounts s !! a)) (DecCoins_negative amt)) as [D HD];
    [apply Aw|apply negative_sorted, Hw| |].
  { intros d. rewrite negative_amount. fold (balance s a d). eapply fits_le; [apply (Hf d)|].
    specialize (Hle d). pose proof (wf_amount_nonneg amt d Hw). lia. }
  set (neg := DecCoins_IsAnyNegative D).
  assert (DecCoins_SafeSub (acc_coins (accounts s !! a)) amt = Ok (D, neg)) as H
    by (unfold DecCoins_SafeSub; rewrite HD; done).
  assert (neg = false) as Hneg.
  { pose proof (SafeSub_Ok _ _ _ _ (proj1 Aw) (proj1 Hw) H) as (_ & _ & _ & Hn).
    destruct neg; [|done]. destruct (proj1 Hn eq_refl) as [d Hd].
    specialize (Hle d). unfold balance in Hle. lia. }
  rewrite Hneg in H. pose proof (SafeSub_wf _ _ _ (proj1 Aw) (proj1 Hw) H) as Dw.
  assert (good_denoms D) as Dg.
  { apply (safeAdd_denoms (λ n, validDenom n = true ∧ ToLower n = n) _ _ _ Ag
      (negative_good _ Hg) HD). }
  eexists D, _. split; [|by apply (bank_good_set s a D)].
  unfold subtractCoins. rewrite acc_coins_match. unfold mbind, M_bind, lift, DecCoins_Sub.
  rewrite H. cbn. by rewrite setCoinsToAccount_total.
Qed.

Lemma addCoins_total s a amt :
  bank_good s → wf_coins amt → good_denoms amt →
  (∀ d, dec_fits (balance s a d + amount_of amt d)) →
  ∃ c s', addCoins a (accounts s !! a) amt s = (Ok c, s') ∧ bank_good s'.
Proof.
  intros Hs Hw Hg Hf. destruct (bank_good_acc s a Hs) as [Aw Ag].
  destruct (safeAdd_total (acc_coins (accounts s !! a)) amt) as [D HD];
    [apply Aw|apply Hw|done|].
  pose proof (safeAdd_wf _ _ _ Aw Hw HD) as Dw.
  assert (good_denoms D) as Dg
    by exact (safeAdd_denoms (λ n, validDenom n = true ∧ ToLower n = n) _ _ _ Ag Hg HD).
  assert (DecCoins_IsAnyNegative D = false) as Hn.
  { destruct (DecCoins_IsAnyNegative D) eqn:E; [|done].
    apply IsAnyNegative_amount in E as [d Hd]; [|apply Dw].
    pose proof (wf_amount_nonneg D d Dw). lia. }
  eexists D, _. split; [|by apply (bank_good_set s a D)].
  unfold addCoins. rewrite acc_coins_match. unfold mbind, M_bind, lift, DecCoins_Add.
  rewrite HD, Hn. cbn. by rewrite setCoinsToAccount_total.
Qed.

(** A transfer that the sender can pay succeeds: it moves exactly the
    coins from the sender to the recipient, touches no other account, and
    leaves all coins well formed; also when sender and recipient are the same
    account. *)
Theorem SendCoins_spec s a b amt :
  bank_good s → wf_coins amt → good_denoms amt →
  (∀ d, amount_of amt d ≤ balance s a d) →
  (∀ x d, dec_fits (balance s x d + amount_of amt d)) →
  ∃ s', SendCoins a b amt s = (Ok (), s') ∧ bank_good s'
  ∧ ∀ x d, balance s' x d = balance s x d + at_addr b amt x d - at_addr a amt x d.
Proof.
  intros Hs Hw Hg Hle Hf.
  assert (∀ d, 0 ≤ amount_of amt d) as Hamt by (intros; by apply wf_amount_nonneg).
  assert (∀ x d, 0 ≤ balance s x d) as Hbal.
  { intros x d. apply wf_amount_nonneg, (bank_good_acc s x Hs). }
  assert (DecCoins_IsValid amt = true) as V by by apply IsValid_good.
  destruct (subtractCoins_total s a amt) as (c & s1 & H1 & G1); [done..| |].
  { intros d. eapply fits_le; [apply (Hf a d)|]. specialize (Hamt d). specialize (Hbal a d). lia. }
  destruct (subtractCoins_Ok _ _ _ _ _ _ H1 eq_refl (proj1 Hw)) as [E1 _].
  destruct (addCoins_total s1 b amt) as (c' & s2 & H2 & G2); [done..| |].
  { intros d. rewrite (one_account_balance _ _ _ _ b d E1). eapply fits_le; [apply (Hf b d)|].
    specialize (Hamt d). specialize (Hbal b d). specialize (Hle d).
    case_decide; subst; lia. }
  assert (SendCoins a b amt s = (Ok (), s2)) as H.
  { unfold SendCoins, guard_not. rewrite V. cbn [negb].
    unfold mbind, M_bind, mret, M_ret, GetAccount, gets. rewrite H1, H2. done. }
  exists s2. split; [done|]. split; [done|]. intros x d.
  rewrite (eff_balance _ _ _ _ _ (SendCoins_effect _ _ _ _ _ _ H)). lia.
Qed.

(** A transfer that the sender cannot pay returns an error and changes
    nothing. *)
Theorem SendCoins_insufficient s a b amt d :
  bank_good s → wf_coins amt → good_denoms amt →
  (∀ x e, dec_fits (balance s x e - amount_of amt e)) →
  balance s a d < amount_of amt d →
  SendCoins a b amt s = (Err (E "ErrInsufficientFunds"), s).
Proof.
  intros Hs Hw Hg Hf Hlt. destruct (bank_good_acc s a Hs) as [Aw Ag].
  destruct (safeAdd_total (acc_coins (accounts s !! a)) (DecCoins_negative amt)) as [D HD];
    [apply Aw|apply negative_sorted, Hw| |].
  { intros e. rewrite negative_amount. apply Hf. }
  assert (DecCoins_SafeSub (acc_coins (accounts s !! a)) amt
          = Ok (D, DecCoins_IsAnyNegative D)) as H
    by (unfold DecCoins_SafeSub; rewrite HD; done).
  assert (DecCoins_IsAnyNegative D = true) as Hneg.
  { pose proof (SafeSub_Ok _ _ _ _ (proj1 Aw) (proj1 Hw) H) as (_ & _ & _ & Hn).
    apply Hn. by exists d. }
  unfold SendCoins, guard_not, mbind, M_bind, GetAccount, gets.
  rewrite (IsValid_good amt) by done. cbn.
  unfold subtractCoins. rewrite acc_coins_match. unfold mbind, M_bind, lift. rewrite H, Hneg. done.
Qed.

(** [SetCoins] has no validity check: the error it builds for invalid
    coins is dropped, and the coins are stored (here, of a negative amount). *)
Theorem SetCoins_accepts_invalid s a :
  ∃ amt s', DecCoins_IsValid amt = false ∧ SetCoins a amt s = (Ok (), s')
  ∧ balance s' a "okt" = -5.
Proof.
  exists [mkDecCoin "okt" (-5)]. eexists.
  split; [vm_compute; reflexivity|]. split.
  { unfold SetCoins, mbind, M_bind, GetAccount, gets, SetAccount, modify. reflexivity. }
  unfold balance, with_accounts. cbn [accounts]. by rewrite lookup_insert_eq.
Qed.

Lemma demo_bank_good : bank_good demo_bank.
Proof.
  apply map_Forall_singleton. split; [by apply wf_coins_one|].
  repeat constructor; vm_compute; reflexivity.
Qed.

Lemma demo_balance x d :
  balance demo_bank x d = if decide (x = "alice") then amount_of [mkDecCoin "okt" 10] d else 0.
Proof.
  unfold balance, demo_bank. cbn [accounts]. case_decide as H.
  - subst. by rewrite lookup_singleton_eq.
  - by rewrite lookup_singleton_ne.
Qed.

Lemma good_okt n : good_denoms [mkDecCoin "okt" n].
Proof. repeat constructor; vm_compute; reflexivity. Qed.

Lemma SendCoins_spec_witness :
  ∃ s', SendCoins "alice" "bob" [mkDecCoin "okt" 4] demo_bank = (Ok (), s') ∧ bank_good s'
  ∧ ∀ x d, balance s' x d = balance demo_bank x d
      + at_addr "bob" [mkDecCoin "okt" 4] x d - at_addr "alice" [mkDecCoin "okt" 4] x d.
Proof.
  apply SendCoins_spec; [exact demo_bank_good|by apply wf_coins_one|apply good_okt| |].
  - intros d. rewrite demo_balance, decide_True, !amount_of_one by done. cbn [Denom Amount].
    destruct (String.eqb "okt" d); lia.
  - intros x d. apply fits_small. rewrite demo_balance, !amount_of_one. cbn [Denom Amount].
    destruct (String.eqb "okt" d); case_decide; vm_compute; reflexivity.
Defined.

Lemma SendCoins_insufficient_witness :
  SendCoins "alice" "bob" [mkDecCoin "okt" 11] demo_bank
  = (Err (E "ErrInsufficientFunds"), demo_bank).
Proof.
  apply (SendCoins_insufficient demo_bank "alice" "bob" [mkDecCoin "okt" 11] "okt");
    [exact demo_bank_good|by apply wf_coins_one|apply good_okt| |vm_compute; reflexivity].
  intros x d. apply fits_small. rewrite demo_balance, !amount_of_one. cbn [Denom Amount].
  destruct (String.eqb "okt" d); case_decide; vm_compute; reflexivity.
Defined.

End Transfers.

(** ** The registered invariant decides the supply equation *)

Section TotalSupplyFacts.

Lemma foldr_sum_perm {A} (f : A → Z) l k :
  l ≡ₚ k → foldr (λ x acc, f x + acc) 0 l = foldr (λ x acc, f x + acc) 0 k.
Proof. induction 1; cbn; lia. Qed.

Lemma store_iterate_perm {V} (m : gmap string V) : store_iterate m ≡ₚ map_to_list m.
Proof. apply merge_sort_Permutation. Qed.
Lemma elem_of_store_iterate {V} (m : gmap string V) k x : (k, x) ∈ store_iterate m ↔ m !! k = Some x.
Proof. unfold store_iterate. rewrite merge_sort_Permutation. apply elem_of_map_to_list. Qed.

(** Summing along an iterator is summing over the store. *)
Lemma store_iterate_sum {V} (f : V → Z) (m : gmap string V) :
  foldr (λ x acc, f (snd x) + acc) 0 (store_iterate m) = map_sum f m.
Proof.
  rewrite (foldr_sum_perm _ _ _ (store_iterate_perm m)). unfold map_sum.
  rewrite map_fold_foldr. induction (map_to_list m) as [|[k v] l IH]; cbn; [done|by rewrite IH].
Qed.

Lemma sumAccounts_amount l : ∀ t T d,
  sumAccounts l t = Ok T →
  amount_of T d
  = amount_of t d + foldr (λ x acc, amount_of (AccCoins (snd x)) d + acc) 0 l.
Proof.
  induction l as [|[k a] l IH]; intros t T d H; cbn in H.
  - injection H as <-. cbn. lia.
  - apply outcome_bind_Ok in H as (t' & Ht & H). apply (safeAdd_amount _ _ _ d) in Ht.
    apply (IH _ _ d) in H. cbn [foldr snd]. lia.
Qed.

Lemma sumAccounts_wf l : ∀ t T,
  Forall (λ x, wf_coins (AccCoins (snd x))) l → wf_coins t → sumAccounts l t = Ok T → wf_coins T.
Proof.
  induction l as [|[k a] l IH]; intros t T Hl Ht H; cbn in H.
  - by injection H as <-.
  - apply outcome_bind_Ok in H as (t' & Ht' & H). apply Forall_cons in Hl as [Hc Hl].
    eapply IH; [exact Hl| |exact H]. exact (safeAdd_wf _ _ _ Ht Hc Ht').
Qed.

Lemma sumSupply_amount l : ∀ t T d,
  sumSupply l t = Ok T → amount_of T d = amount_of t d + amount_of l d.
Proof.
  induction l as [|c l IH]; intros t T d H; cbn in H.
  - injection H as <-. cbn. lia.
  - apply outcome_bind_Ok in H as (t' & Ht & H).
    apply (Add_nonzero_Ok _ c _ d) in Ht. apply (IH _ _ d) in H.
    rewrite amount_of_cons. lia.
Qed.

Lemma sumSupply_wf l : ∀ t T,
  Forall (λ c, 0 ≤ Amount c) l → wf_coins t → sumSupply l t = Ok T → wf_coins T.
Proof.
  induction l as [|c l IH]; intros t T Hl Ht H; cbn in H.
  - by injection H as <-.
  - apply outcome_bind_Ok in H as (t' & Ht' & H). apply Forall_cons in Hl as [Hc Hl].
    eapply IH; [exact Hl| |exact H]. by eapply Add_nonzero_wf.
Qed.

Lemma GetSupply_loop_Ok l : ∀ cs,
  GetSupply_loop l = Ok cs →
  cs = (λ x, mkDecCoin (fst x) (snd x)) <$> l ∧ Forall (λ c, 0 ≤ Amount c) cs.
Proof.
  induction l as [|[k a] l IH]; intros cs H; cbn in H.
  - injection H as <-. by split.
  - apply outcome_bind_Ok in H as (c & Hc & H). apply outcome_bind_Ok in H as (r & Hr & H).
    injection H as <-. apply NewDecCoinFromDec_Ok in Hc as (_ & Ha & ->).
    apply IH in Hr as [-> Hn]. split; [done|]. by constructor.
Qed.

Lemma amount_of_entries (l : list (string * Dec)) d :
  amount_of ((λ x, mkDecCoin (fst x) (snd x)) <$> l) d
  = foldr (λ x acc, (if String.eqb (fst x) d then snd x else 0) + acc) 0 l.
Proof. induction l as [|x l IH]; [done|]. rewrite fmap_cons, amount_of_cons, IH. done. Qed.

Lemma supply_entries_amount s d :
  foldr (λ x acc, (if String.eqb (fst x) d then snd x else 0) + acc) 0
    (store_iterate (supplies s)) = supply_of s d.
Proof.
  rewrite (foldr_sum_perm (λ x, if String.eqb (fst x) d then snd x else 0) _ _
             (store_iterate_perm (supplies s))).
  unfold supply_of. generalize (supplies s) as m. clear s.
  induction m as [|k v m Hk IH] using map_ind; [by rewrite map_to_list_empty|].
  rewrite (foldr_sum_perm (λ x, if String.eqb (fst x) d then snd x else 0) _ _
             (map_to_list_insert m k v Hk)). cbn [foldr fst snd]. rewrite IH.
  destruct (String.eqb_spec k d) as [->|].
  - rewrite lookup_insert_eq, Hk. cbn. lia.
  - rewrite lookup_insert_ne by done. lia.
Qed.

(** The registered invariant [TotalSupply] is a correct check: whenever
    it returns a verdict on a store with well-formed coins, the verdict is
    "not broken" exactly when the recorded supply of every denomination equals
    the sum over all accounts. *)
Theorem TotalSupply_decides s broken :
  bank_wf s → TotalSupply s = Ok broken → (broken = false ↔ supply_inv s).
Proof.
  intros Hwf H. unfold TotalSupply, GetSupply in H.
  apply outcome_bind_Ok in H as (sup & H1 & H). apply outcome_bind_Ok in H as (et & H2 & H).
  apply outcome_bind_Ok in H as (sc & H3 & H). apply outcome_bind_Ok in H as (e & H4 & H).
  injection H as <-. apply GetSupply_loop_Ok in H1 as [-> Hnn].
  assert (∀ d, amount_of et d = total_of s d) as Et.
  { intros d. rewrite (sumAccounts_amount _ _ _ d H2), amount_of_nil.
    apply (store_iterate_sum (λ acc, amount_of (AccCoins acc) d)). }
  assert (∀ d, amount_of sc d = supply_of s d) as Es.
  { intros d. rewrite (sumSupply_amount _ _ _ d H3), amount_of_nil, amount_of_entries.
    apply supply_entries_amount. }
  split.
  - intros He%negb_false_iff. subst e. intros d. rewrite <- Et, <- Es. symmetry.
    by apply IsEqual_amount.
  - intros Hinv. assert (et = sc) as ->.
    { apply wf_coins_ext.
      - eapply sumAccounts_wf; [|apply wf_coins_nil|exact H2]. rewrite store_iterate_perm.
        apply Forall_forall. intros [k a] Hk%elem_of_map_to_list. by apply (Hwf k a).
      - eapply sumSupply_wf; [exact Hnn|apply wf_coins_nil|exact H3].
      - intros d. rewrite Et, Es. by symmetry. }
    unfold DecCoins_IsEqual in H4. rewrite bool_decide_true in H4 by done. cbn in H4.
    rewrite IsEqual_loop_refl in H4. by injection H4 as <-.
Qed.

Lemma TotalSupply_decides_witness : false = false ↔ supply_inv demo_bank.
Proof.
  apply TotalSupply_decides; [exact (proj1 demo_bank_inv)|vm_compute; reflexivity].
Defined.

End TotalSupplyFacts.
