(* ===== verification/CoinKeeper.v ===== *)
(** * The interface between the coin keepers and their clients

    The modules above the bank ([x/token], [x/ammswap], [x/farm], [x/order])
    see it through the Go interfaces of their [expected_keepers.go].  The
    class [CoinKeeper] has the operations of those interfaces over an
    abstract store, together with what can be observed of the store;
    [CoinKeeperLaws] states what the clients rely on.  The clients' theorems
    are proved against the laws, and the instance at the end discharges them
    for the bank and supply keepers. *)
From S2P Require Import Prelude Decimal Denom Coins Bank.

Class CoinKeeper (S : Type) := {
  (** observations *)
  ck_balance : S → string → string → Z;
  ck_supply : S → string → Z;
  ck_wf : S → Prop;
  ck_modaddr : string → option string;
  ck_Blacklisted : string → bool;
  (** operations *)
  ck_GetCoins : string → M S (list DecCoin);
  ck_GetSendEnabled : M S bool;
  ck_GetSupplyByDenom : string → M S Dec;
  ck_SendCoins : string → string → list DecCoin → M S unit;
  ck_SendCoinsFromModuleToAccount : string → string → list DecCoin → M S unit;
  ck_SendCoinsFromAccountToModule : string → string → list DecCoin → M S unit;
  ck_SendCoinsFromModuleToModule : string → string → list DecCoin → M S unit;
  ck_MintCoins : string → list DecCoin → M S unit;
  ck_BurnCoins : string → list DecCoin → M S unit }.

(** Coins moved from [a] to [b], and nothing else observable changed. *)
Record kmove {S} `{CoinKeeper S} (s s' : S) (a b : string) (amt : list DecCoin) : Prop := {
  km_amt : wf_coins amt;
  km_wf : ck_wf s → ck_wf s';
  km_balance x d : ck_balance s' x d = ck_balance s x d + at_addr b amt x d - at_addr a amt x d;
  km_supply d : ck_supply s' d = ck_supply s d;
  km_funds : ck_wf s → ∀ d, amount_of amt d ≤ ck_balance s a d }.

(** Coins created at [a]. *)
Record kmint {S} `{CoinKeeper S} (s s' : S) (a : string) (amt : list DecCoin) : Prop := {
  kt_amt : wf_coins amt;
  kt_wf : ck_wf s → ck_wf s';
  kt_balance x d : ck_balance s' x d = ck_balance s x d + at_addr a amt x d;
  kt_supply d : ck_supply s' d = ck_supply s d + amount_of amt d }.

(** Coins destroyed at [a]. *)
Record kburn {S} `{CoinKeeper S} (s s' : S) (a : string) (amt : list DecCoin) : Prop := {
  kb_amt : wf_coins amt;
  kb_wf : ck_wf s → ck_wf s';
  kb_balance x d : ck_balance s' x d = ck_balance s x d - at_addr a amt x d;
  kb_supply d : ck_supply s' d = ck_supply s d - amount_of amt d;
  kb_funds : ck_wf s → ∀ d, amount_of amt d ≤ ck_balance s a d }.

Class CoinKeeperLaws (S : Type) `{CoinKeeper S} := {
  law_nonneg s a d : ck_wf s → 0 ≤ ck_balance s a d;
  law_GetCoins a s c s' :
    ck_GetCoins a s = (Ok c, s') →
    s' = s ∧ (∀ d, amount_of c d = ck_balance s a d) ∧ (ck_wf s → wf_coins c);
  law_GetSendEnabled s b s' : ck_GetSendEnabled s = (Ok b, s') → s' = s;
  law_GetSupplyByDenom d s : ck_GetSupplyByDenom d s = (Ok (ck_supply s d), s);
  law_SendCoins a b amt s s' u :
    ck_SendCoins a b amt s = (Ok u, s') → kmove s s' a b amt;
  law_ModuleToAccount m a amt s s' u :
    ck_SendCoinsFromModuleToAccount m a amt s = (Ok u, s') →
    ck_Blacklisted a = false ∧ ∃ addr, ck_modaddr m = Some addr ∧ kmove s s' addr a amt;
  law_AccountToModule a m amt s s' u :
    ck_SendCoinsFromAccountToModule a m amt s = (Ok u, s') →
    ∃ addr, ck_modaddr m = Some addr ∧ kmove s s' a addr amt;
  law_ModuleToModule m n amt s s' u :
    ck_SendCoinsFromModuleToModule m n amt s = (Ok u, s') →
    ∃ a b, ck_modaddr m = Some a ∧ ck_modaddr n = Some b ∧ kmove s s' a b amt;
  law_MintCoins m amt s s' u :
    ck_MintCoins m amt s = (Ok u, s') →
    ∃ addr, ck_modaddr m = Some addr ∧ kmint s s' addr amt;
  law_BurnCoins m amt s s' u :
    ck_BurnCoins m amt s = (Ok u, s') →
    ∃ addr, ck_modaddr m = Some addr ∧ kburn s s' addr amt }.

(** ** Coins in a larger store

    A module that keeps a store of its own beside the coins hands the coin
    keeper on: it does not see that store. *)

Section Zoomed.
Context {C K : Type} `{CoinKeeper C} (get : K → C) (set : C → K → K).

Definition zoomed_keeper : CoinKeeper K := {|
  ck_balance k := ck_balance (get k);
  ck_supply k := ck_supply (get k);
  ck_wf k := ck_wf (get k);
  ck_modaddr := ck_modaddr (S := C);
  ck_Blacklisted := ck_Blacklisted (S := C);
  ck_GetCoins a := zoom get set (ck_GetCoins a);
  ck_GetSendEnabled := zoom get set ck_GetSendEnabled;
  ck_GetSupplyByDenom d := zoom get set (ck_GetSupplyByDenom d);
  ck_SendCoins a b amt := zoom get set (ck_SendCoins a b amt);
  ck_SendCoinsFromModuleToAccount m a amt := zoom get set (ck_SendCoinsFromModuleToAccount m a amt);
  ck_SendCoinsFromAccountToModule a m amt := zoom get set (ck_SendCoinsFromAccountToModule a m amt);
  ck_SendCoinsFromModuleToModule m n amt := zoom get set (ck_SendCoinsFromModuleToModule m n amt);
  ck_MintCoins m amt := zoom get set (ck_MintCoins m amt);
  ck_BurnCoins m amt := zoom get set (ck_BurnCoins m amt) |}.

Hypothesis get_set : ∀ c k, get (set c k) = c.
Hypothesis set_get : ∀ k, set (get k) k = k.

Lemma kmove_zoomed k c' a b amt :
  kmove (get k) c' a b amt → kmove (H := zoomed_keeper) k (set c' k) a b amt.
Proof. intros []. split; cbn; rewrite ?get_set; done. Qed.

Lemma zoomed_laws `{!CoinKeeperLaws C} : CoinKeeperLaws (H := zoomed_keeper) K.
Proof.
  split; cbn.
  - intros k a d. apply law_nonneg.
  - intros a k c k' (x & Hx & ->)%zoom_Ok. apply law_GetCoins in Hx as (-> & H1 & H2). by rewrite set_get.
  - intros k b k' (x & Hx & ->)%zoom_Ok. apply law_GetSendEnabled in Hx as ->. by rewrite set_get.
  - intros d k. unfold zoom. rewrite law_GetSupplyByDenom. by rewrite set_get.
  - intros a b amt k k' u (x & Hx & ->)%zoom_Ok. eapply kmove_zoomed, law_SendCoins. exact Hx.
  - intros m a amt k k' u (x & Hx & ->)%zoom_Ok. apply law_ModuleToAccount in Hx as (H1 & addr & H2 & H3).
    split; [done|]. exists addr. split; [done|]. by apply kmove_zoomed.
  - intros a m amt k k' u (x & Hx & ->)%zoom_Ok. apply law_AccountToModule in Hx as (addr & H2 & H3).
    exists addr. split; [done|]. by apply kmove_zoomed.
  - intros m n amt k k' u (x & Hx & ->)%zoom_Ok. apply law_ModuleToModule in Hx as (a & b & H1 & H2 & H3).
    exists a, b. split; [done|]. split; [done|]. by apply kmove_zoomed.
  - intros m amt k k' u (x & Hx & ->)%zoom_Ok. apply law_MintCoins in Hx as (addr & H1 & []).
    exists addr. split; [done|]. split; cbn; rewrite ?get_set; done.
  - intros m amt k k' u (x & Hx & ->)%zoom_Ok. apply law_BurnCoins in Hx as (addr & H1 & []).
    exists addr. split; [done|]. split; cbn; rewrite ?get_set; done.
Qed.
End Zoomed.

(** ** The bank and supply keepers implement the interface *)

Section BankInstance.
Context {cfg : BankConfig}.

#[global] Instance bank_coin_keeper : CoinKeeper Bank := {|
  ck_balance := balance;
  ck_supply := supply_of;
  ck_wf := bank_wf;
  ck_modaddr := GetModuleAddress;
  ck_Blacklisted := BlacklistedAddr;
  ck_GetCoins := GetCoins;
  ck_GetSendEnabled := gets sendEnabled;
  ck_GetSupplyByDenom := GetSupplyByDenom;
  ck_SendCoins := SendCoins;
  ck_SendCoinsFromModuleToAccount := SendCoinsFromModuleToAccount;
  ck_SendCoinsFromAccountToModule := SendCoinsFromAccountToModule;
  ck_SendCoinsFromModuleToModule := SendCoinsFromModuleToModule;
  ck_MintCoins := MintCoins;
  ck_BurnCoins := BurnCoins |}.

Lemma bank_wf_coins s a : bank_wf s → wf_coins (acc_coins (accounts s !! a)).
Proof.
  intros H. destruct (accounts s !! a) eqn:Ha; [by apply (H a)|apply wf_coins_nil].
Qed.

Lemma SendCoins_kmove a b amt s s' u : SendCoins a b amt s = (Ok u, s') → kmove s s' a b amt.
Proof.
  intros H. pose proof (SendCoins_effect _ _ _ _ _ _ H) as E.
  apply SendCoins_Ok in H as (Hw & Hf & _). split.
  - done.
  - apply (eff_wf _ _ _ _ _ E).
  - intros x d. cbn. rewrite (eff_balance _ _ _ _ _ E). lia.
  - intros d. cbn. rewrite (eff_supply _ _ _ _ _ E). lia.
  - exact Hf.
Qed.

(** A call that only creates an empty account before a move. *)
Lemma kmove_before s s1 s' a b amt :
  effect s s1 (λ _ _, 0) (λ _, 0) (λ _, 0) → kmove s1 s' a b amt → kmove s s' a b amt.
Proof.
  intros E [A W B S F]. cbn in *. split; cbn.
  - done.
  - intros Hs. apply W, (eff_wf _ _ _ _ _ E), Hs.
  - intros x d. rewrite B, (eff_balance _ _ _ _ _ E). lia.
  - intros d. rewrite S, (eff_supply _ _ _ _ _ E). lia.
  - intros Hs d. specialize (F (eff_wf _ _ _ _ _ E Hs) d).
    rewrite (eff_balance _ _ _ _ _ E) in F. lia.
Qed.

#[global] Instance bank_coin_keeper_laws : CoinKeeperLaws Bank.
Proof.
  split; cbn.
  - intros s a d H. by apply wf_amount_nonneg, bank_wf_coins.
  - intros a s c s' H. unfold GetCoins in H. apply M_bind_Ok in H as (o & s1 & H1 & H).
    apply gets_Ok in H1 as [-> ->]. apply mret_Ok in H as [-> ->]. rewrite acc_coins_match.
    split; [done|]. split; [done|]. by apply bank_wf_coins.
  - intros s b s' H. by apply gets_Ok in H as [_ ->].
  - done.
  - intros a b amt s s' u. apply SendCoins_kmove.
  - intros m a amt s s' u (addr & Ha & H & Hb)%SendCoinsFromModuleToAccount_effect.
    split; [done|]. exists addr. split; [done|]. by eapply SendCoins_kmove.
  - intros a m amt s s' u (addr & s1 & Ha & E & H)%SendCoinsFromAccountToModule_effect.
    exists addr. split; [done|]. eapply kmove_before; [done|]. by eapply SendCoins_kmove.
  - intros m n amt s s' u (a & b & s1 & Ha & Hb & E & H)%SendCoinsFromModuleToModule_effect.
    exists a, b. split; [done|]. split; [done|].
    eapply kmove_before; [done|]. by eapply SendCoins_kmove.
  - intros m amt s s' u (addr & Ha & Hw & E)%MintCoins_effect. exists addr. split; [done|].
    split; cbn; [done|apply (eff_wf _ _ _ _ _ E)|apply (eff_balance _ _ _ _ _ E)|
                 apply (eff_supply _ _ _ _ _ E)].
  - intros m amt s s' u (addr & Ha & Hw & E & Hf)%BurnCoins_effect. exists addr. split; [done|].
    split; cbn; [done|apply (eff_wf _ _ _ _ _ E)| | |done].
    + intros x d. rewrite (eff_balance _ _ _ _ _ E). lia.
    + intros d. rewrite (eff_supply _ _ _ _ _ E). lia.
Qed.

End BankInstance.
