(* ===== verification/Token.v ===== *)
(** * The token module

    [x/token/keeper.go] and [x/token/handler.go]: the registry of issued
    tokens, coins locked for open orders, ownership transfer, and the
    messages that mint, burn, send and modify.  The coins themselves are kept
    by a [CoinKeeper].  Logs, events and the fee-detail cache of the backend
    are not modelled, nor is [MsgTokenIssue].  Time is a number. *)
From S2P Require Import Prelude Decimal Denom Coins Bank CoinKeeper.

(** ** Data *)

Record Token := mkToken {
  Tk_Description : string;
  Tk_Symbol : string;
  Tk_OriginalSymbol : string;
  Tk_WholeName : string;
  Tk_OriginalTotalSupply : Dec;
  Tk_Type : Z;
  Tk_Owner : string;
  Tk_Mintable : bool }.

(** The zero [Token{}] that [GetTokenInfo] returns for an unknown symbol. *)
Definition noToken : Token := mkToken "" "" "" "" 0 0 "" false.

Record ConfirmOwnership := mkConfirm {
  Co_Symbol : string; Co_Address : string; Co_Expire : Z }.

Record TokenParams := mkTokenParams {
  FeeIssue : DecCoin; FeeMint : DecCoin; FeeBurn : DecCoin;
  FeeModify : DecCoin; FeeChown : DecCoin; OwnershipConfirmWindow : Z }.

(** The stores of the module, next to the coin store.  [ts_contracts] are the
    accounts with contract code, which the evm module owns. *)
Record TokenState (S : Type) := mkTokenState {
  ts_coins : S;
  ts_tokens : gmap string Token;
  ts_userTokens : gset (string * string);
  ts_tokenNumber : Z;
  ts_locked : gmap string (list DecCoin);
  ts_lockedFee : gmap string (list DecCoin);
  ts_confirm : gmap string ConfirmOwnership;
  ts_params : TokenParams;
  ts_contracts : gset string }.
Arguments mkTokenState {S}.
Arguments ts_coins {S}.
Arguments ts_tokens {S}.
Arguments ts_userTokens {S}.
Arguments ts_tokenNumber {S}.
Arguments ts_locked {S}.
Arguments ts_lockedFee {S}.
Arguments ts_confirm {S}.
Arguments ts_params {S}.
Arguments ts_contracts {S}.

Definition TokenModuleName : string := "token".
Definition LockCoinsTypeQuantity : Z := 1.
Definition LockCoinsTypeFee : Z := 2.
Definition TotalSupplyUpperbound : Z := 9 * 10 ^ 10.
Definition NotAllowedOriginSymbol (name : string) : bool := String.prefix "ammswap" name.

(** 20 zero bytes. *)
Definition BlackHoleAddress : string :=
  String.string_of_list_ascii (replicate 20 Ascii.zero).

Section TokenKeeper.
Context {S : Type} `{CoinKeeper S} (feeCollectorName : string).

Definition ts_set_coins (c : S) (s : TokenState S) : TokenState S :=
  mkTokenState c (ts_tokens s) (ts_userTokens s) (ts_tokenNumber s) (ts_locked s)
    (ts_lockedFee s) (ts_confirm s) (ts_params s) (ts_contracts s).
Definition ts_set_tokens (t : gmap string Token) (u : gset (string * string)) (n : Z)
    (s : TokenState S) : TokenState S :=
  mkTokenState (ts_coins s) t u n (ts_locked s)
    (ts_lockedFee s) (ts_confirm s) (ts_params s) (ts_contracts s).
Definition ts_set_locks (l f : gmap string (list DecCoin)) (s : TokenState S) : TokenState S :=
  mkTokenState (ts_coins s) (ts_tokens s) (ts_userTokens s) (ts_tokenNumber s) l f
    (ts_confirm s) (ts_params s) (ts_contracts s).
Definition ts_set_confirm (c : gmap string ConfirmOwnership) (s : TokenState S) : TokenState S :=
  mkTokenState (ts_coins s) (ts_tokens s) (ts_userTokens s) (ts_tokenNumber s) (ts_locked s)
    (ts_lockedFee s) c (ts_params s) (ts_contracts s).

(** A call of the coin keeper. *)
Definition on_coins {A} (m : M S A) : M (TokenState S) A := zoom ts_coins ts_set_coins m.

(** ** The registry *)

Definition Token_GetTokenInfo (symbol : string) : M (TokenState S) Token :=
  gets (λ s, default noToken (ts_tokens s !! symbol)).
Definition Token_TokenExist (symbol : string) : M (TokenState S) bool :=
  gets (λ s, bool_decide (is_Some (ts_tokens s !! symbol))).
Definition Token_NewToken (token : Token) : M (TokenState S) unit :=
  modify (λ s, ts_set_tokens (<[Tk_Symbol token := token]> (ts_tokens s))
    ({[ (Tk_Owner token, Tk_Symbol token) ]} ∪ ts_userTokens s)
    ((ts_tokenNumber s + 1) mod 2 ^ 64) s).
Definition Token_UpdateToken (token : Token) : M (TokenState S) unit :=
  modify (λ s, ts_set_tokens (<[Tk_Symbol token := token]> (ts_tokens s))
    (ts_userTokens s) (ts_tokenNumber s) s).
Definition Token_DeleteUserToken (owner symbol : string) : M (TokenState S) unit :=
  modify (λ s, ts_set_tokens (ts_tokens s) (ts_userTokens s ∖ {[ (owner, symbol) ]})
    (ts_tokenNumber s) s).
Definition Token_GetCoins (addr : string) : M (TokenState S) (list DecCoin) :=
  on_coins (ck_GetCoins addr).

Definition GetConfirmOwnership (symbol : string) : M (TokenState S) (option ConfirmOwnership) :=
  gets (λ s, ts_confirm s !! symbol).
Definition SetConfirmOwnership (c : ConfirmOwnership) : M (TokenState S) unit :=
  modify (λ s, ts_set_confirm (<[Co_Symbol c := c]> (ts_confirm s)) s).
Definition DeleteConfirmOwnership (symbol : string) : M (TokenState S) unit :=
  modify (λ s, ts_set_confirm (delete symbol (ts_confirm s)) s).

(** ** Transfers and locks *)

Definition IsContractAddress (addr : string) : M (TokenState S) bool :=
  gets (λ s, bool_decide (addr ∈ ts_contracts s)).

Definition SendCoinsFromAccountToAccount (from to : string) (amt : list DecCoin)
    : M (TokenState S) unit :=
  _ ← guard_not (ck_Blacklisted to) "ErrBlockedRecipient";
  isContract ← IsContractAddress to;
  _ ← guard_not isContract "ErrBlockedContractRecipient";
  on_coins (ck_SendCoins from to amt).

(** The store that a lock type selects. *)
Definition get_locks (lockCoinsType : Z) (s : TokenState S) : gmap string (list DecCoin) :=
  if lockCoinsType =? LockCoinsTypeQuantity then ts_locked s else ts_lockedFee s.
Definition set_locks (lockCoinsType : Z) (m : gmap string (list DecCoin)) (s : TokenState S)
    : TokenState S :=
  if lockCoinsType =? LockCoinsTypeQuantity then ts_set_locks m (ts_lockedFee s) s
  else ts_set_locks (ts_locked s) m s.

Definition updateLockedCoins (addr : string) (coins : list DecCoin) (doAdd : bool)
    (lockCoinsType : Z) : M (TokenState S) unit :=
  _ ← guard_not (negb ((lockCoinsType =? LockCoinsTypeQuantity)
                       || (lockCoinsType =? LockCoinsTypeFee))) "ErrUnrecognizedLockCoinsType";
  locks ← gets (get_locks lockCoinsType);
  newCoins ←
    (if doAdd then
       match locks !! addr with
       | None => mret coins
       | Some oldCoins => lift (DecCoins_Add2 oldCoins coins)
       end
     else
       match locks !! addr with
       | None => fail "ErrFailedToUnlockAddress"
       | Some oldCoins =>
           '(newCoins, isNegative) ← lift (DecCoins_SafeSub oldCoins coins);
           _ ← guard_not isNegative "ErrFailedToUnlockAddress";
           mret newCoins
       end : M (TokenState S) (list DecCoin));
  let newCoins := DecCoins_Sort newCoins in
  modify (set_locks lockCoinsType
    (match newCoins with [] => delete addr locks | _ => <[addr := newCoins]> locks end)).

Definition LockCoins (addr : string) (coins : list DecCoin) (lockCoinsType : Z)
    : M (TokenState S) unit :=
  _ ← wrapErr "ErrSendCoinsFromAccountToModuleFailed"
        (on_coins (ck_SendCoinsFromAccountToModule addr TokenModuleName coins));
  updateLockedCoins addr coins true lockCoinsType.

Definition UnlockCoins (addr : string) (coins : list DecCoin) (lockCoinsType : Z)
    : M (TokenState S) unit :=
  _ ← updateLockedCoins addr coins false lockCoinsType;
  wrapErr "ErrSendCoinsFromModuleToAccountFailed"
    (on_coins (ck_SendCoinsFromModuleToAccount TokenModuleName addr coins)).

Definition GetLockedCoins (addr : string) : M (TokenState S) (list DecCoin) :=
  gets (λ s, default [] (ts_locked s !! addr)).

Definition BalanceAccount (addr : string) (outputCoins inputCoins : list DecCoin)
    : M (TokenState S) unit :=
  _ ← (if negb (DecCoins_IsZero outputCoins)
       then wrapErr "ErrUpdateLockedCoins"
              (updateLockedCoins addr outputCoins false LockCoinsTypeQuantity)
       else mret ());
  if negb (DecCoins_IsZero inputCoins)
  then on_coins (ck_SendCoinsFromModuleToAccount TokenModuleName addr inputCoins)
  else mret ().

(** ** Messages *)

(** The fee that ends most handlers. *)
Definition deductFee (from : string) (fee : TokenParams → DecCoin) : M (TokenState S) unit :=
  p ← gets ts_params;
  feeDecCoins ← lift (DecCoin_ToCoins (fee p));
  wrapErr "ErrSendCoinsFromAccountToModuleFailed"
    (on_coins (ck_SendCoinsFromAccountToModule from feeCollectorName feeDecCoins)).

Definition handleMsgTokenBurn (owner : string) (amount : DecCoin) : M (TokenState S) unit :=
  token ← Token_GetTokenInfo (Denom amount);
  _ ← guard_not (negb (String.eqb (Tk_Owner token) owner)) "ErrInputOwnerIsNotEqualTokenOwner";
  subCoins ← lift (DecCoin_ToCoins amount);
  _ ← wrapErr "ErrSendCoinsFromAccountToModuleFailed"
        (on_coins (ck_SendCoinsFromAccountToModule owner TokenModuleName subCoins));
  _ ← wrapErr "ErrBurnCoinsFailed" (on_coins (ck_BurnCoins TokenModuleName subCoins));
  deductFee owner FeeBurn.

Definition handleMsgTokenMint (owner : string) (amount : DecCoin) : M (TokenState S) unit :=
  token ← Token_GetTokenInfo (Denom amount);
  _ ← guard_not (negb (String.eqb (Tk_Owner token) owner)) "ErrInputOwnerIsNotEqualTokenOwner";
  _ ← guard_not (negb (Tk_Mintable token)) "ErrTokenIsNotMintable";
  supply ← on_coins (ck_GetSupplyByDenom (Denom amount));
  totalSupplyAfterMint ← lift (Dec_Add supply (Amount amount));
  upper ← lift (NewDec TotalSupplyUpperbound);
  _ ← guard_not (Dec_GT totalSupplyAfterMint upper) "ErrCodeTotalsupplyExceedsTheUpperLimit";
  mintCoins ← lift (DecCoin_ToCoins amount);
  _ ← wrapErr "ErrMintCoinsFailed" (on_coins (ck_MintCoins TokenModuleName mintCoins));
  _ ← wrapErr "ErrSendCoinsFromModuleToAccountFailed"
        (on_coins (ck_SendCoinsFromModuleToAccount TokenModuleName owner mintCoins));
  deductFee owner FeeMint.

Fixpoint sendTransfers (from : string) (transfers : list InOut) : M (TokenState S) unit :=
  match transfers with
  | [] => mret ()
  | t :: rest =>
      _ ← wrapErr "ErrSendCoinsFromAccountToAccountFailed"
            (SendCoinsFromAccountToAccount from (IOAddress t) (IOCoins t));
      sendTransfers from rest
  end.
Definition Token_handleMsgMultiSend (from : string) (transfers : list InOut)
    : M (TokenState S) unit :=
  enabled ← on_coins ck_GetSendEnabled;
  _ ← guard_not (negb enabled) "ErrSendDisabled";
  sendTransfers from transfers.

Definition Token_handleMsgSend (from to : string) (amount : list DecCoin) : M (TokenState S) unit :=
  enabled ← on_coins ck_GetSendEnabled;
  _ ← guard_not (negb enabled) "ErrSendDisabled";
  wrapErr "ErrSendCoinsFromAccountToAccountFailed"
    (SendCoinsFromAccountToAccount from to amount).

Definition set_owner (t : Token) (owner : string) : Token :=
  mkToken (Tk_Description t) (Tk_Symbol t) (Tk_OriginalSymbol t) (Tk_WholeName t)
    (Tk_OriginalTotalSupply t) (Tk_Type t) owner (Tk_Mintable t).

Definition handleMsgTransferOwnership (blockTime : Z) (from to symbol : string)
    : M (TokenState S) unit :=
  tokenInfo ← Token_GetTokenInfo symbol;
  _ ← guard_not (negb (String.eqb (Tk_Owner tokenInfo) from))
        "ErrCodeinputFromAddressIsNotEqualTokenInfoOwner";
  confirmOwnership ← GetConfirmOwnership symbol;
  _ ← guard_not (match confirmOwnership with
                 | Some c => negb (blockTime >? Co_Expire c)
                 | None => false
                 end) "ErrConfirmOwnershipNotExistOrBlockTimeAfter";
  _ ← (if String.eqb to BlackHoleAddress then
         _ ← Token_DeleteUserToken (Tk_Owner tokenInfo) (Tk_Symbol tokenInfo);
         Token_NewToken (set_owner tokenInfo to)
       else
         p ← gets ts_params;
         SetConfirmOwnership (mkConfirm symbol to (blockTime + OwnershipConfirmWindow p)));
  deductFee from FeeChown.

Definition handleMsgConfirmOwnership (blockTime : Z) (address symbol : string)
    : M (TokenState S) unit :=
  confirmOwnership ← GetConfirmOwnership symbol;
  match confirmOwnership with
  | None => fail "ErrGetConfirmOwnership"
  | Some c =>
      if blockTime >? Co_Expire c then
        _ ← DeleteConfirmOwnership (Co_Symbol c);
        fail "ErrConfirmOwnershipNotExistOrBlockTimeAfter"
      else
        _ ← guard_not (negb (String.eqb (Co_Address c) address))
              "ErrCodeConfirmOwnershipAddressNotEqualsMsgAddress";
        tokenInfo ← Token_GetTokenInfo symbol;
        _ ← Token_DeleteUserToken (Tk_Owner tokenInfo) (Tk_Symbol tokenInfo);
        _ ← Token_NewToken (set_owner tokenInfo address);
        DeleteConfirmOwnership (Co_Symbol c)
  end.

Definition handleMsgTokenModify (owner symbol wholeName description : string)
    (isWholeNameModified isDescriptionModified : bool) : M (TokenState S) unit :=
  token ← Token_GetTokenInfo symbol;
  _ ← guard_not (negb (String.eqb (Tk_Owner token) owner)) "ErrInputOwnerIsNotEqualTokenOwner";
  _ ← guard_not (negb isWholeNameModified && negb isDescriptionModified)
        "ErrWholeNameAndDescriptionIsNotModified";
  _ ← Token_UpdateToken
        (mkToken (if isDescriptionModified then description else Tk_Description token)
           (Tk_Symbol token) (Tk_OriginalSymbol token)
           (if isWholeNameModified then wholeName else Tk_WholeName token)
           (Tk_OriginalTotalSupply token) (Tk_Type token) (Tk_Owner token) (Tk_Mintable token));
  deductFee owner FeeModify.

End TokenKeeper.

(** ** Locked coins are backed by the module account *)

(** What a lock store promises of a denomination, over all addresses. *)
Definition lock_total (m : gmap string (list DecCoin)) (d : string) : Z :=
  map_sum (λ c, amount_of c d) m.
Definition lock_amount (m : gmap string (list DecCoin)) (a d : string) : Z :=
  amount_of (default [] (m !! a)) d.

Section TokenFacts.
Context {S : Type} `{CoinKeeperLaws S}.

Definition locked_total (s : TokenState S) (d : string) : Z :=
  lock_total (ts_locked s) d + lock_total (ts_lockedFee s) d.

(** What the module account holds beyond the coins it has locked. *)
Definition module_surplus (modaddr : string) (s : TokenState S) (d : string) : Z :=
  ck_balance (ts_coins s) modaddr d - locked_total s d.

Lemma lock_set_total m a c d :
  lock_total (match c with [] => delete a m | _ => <[a := c]> m end) d
  = lock_total m d - lock_amount m a d + amount_of c d.
Proof.
  assert (at_key (λ c, amount_of c d) (m !! a) = lock_amount m a d) as E
    by (unfold lock_amount; by destruct (m !! a)).
  unfold lock_total. destruct c.
  - rewrite map_sum_delete, E, amount_of_nil. lia.
  - rewrite map_sum_insert, E. done.
Qed.

Lemma set_get_locks t m (s : TokenState S) :
  ts_coins (set_locks t m s) = ts_coins s ∧
  ∀ d, locked_total (set_locks t m s) d
       = locked_total s d - lock_total (get_locks t s) d + lock_total m d.
Proof.
  unfold set_locks, get_locks, locked_total. destruct (t =? LockCoinsTypeQuantity); cbn;
    (split; [done|]); intros d; lia.
Qed.

(** A lock or unlock changes only the lock store, by exactly the coins; an
    unlock needs the coins to be locked by that address. *)
Lemma updateLockedCoins_Ok addr coins (doAdd : bool) t (s s' : TokenState S) u :
  updateLockedCoins addr coins doAdd t s = (Ok u, s') →
  ts_coins s' = ts_coins s ∧
  ∀ d, locked_total s' d
       = locked_total s d + (if doAdd then amount_of coins d else - amount_of coins d).
Proof.
  unfold updateLockedCoins. intros H1.
  apply M_bind_Ok in H1 as (u1 & s1 & H2 & H1). apply guard_not_Ok in H2 as [_ ->].
  apply M_bind_Ok in H1 as (l & s1 & H2 & H1). apply gets_Ok in H2 as [-> ->].
  apply M_bind_Ok in H1 as (n & s1 & H2 & H1). apply modify_Ok in H1 as ->.
  assert (s1 = s ∧ ∀ d, amount_of n d = lock_amount (get_locks t s) addr d
            + (if doAdd then amount_of coins d else - amount_of coins d)) as [-> E].
  { unfold lock_amount. destruct doAdd, (get_locks t s !! addr) as [old|] eqn:Ho; cbn [default].
    - apply lift_Ok in H2 as [H2 ->]. split; [done|]. intros d. by apply safeAdd_amount.
    - apply mret_Ok in H2 as [-> ->]. split; [done|]. intros d. cbn. lia.
    - apply M_bind_Ok in H2 as ([x neg] & s2 & H3 & H2). apply lift_Ok in H3 as [H3 ->].
      apply M_bind_Ok in H2 as (u2 & s2 & H4 & H2). apply guard_not_Ok in H4 as [_ ->].
      apply mret_Ok in H2 as [-> ->]. split; [done|]. intros d.
      unfold DecCoins_SafeSub in H3. apply outcome_bind_Ok in H3 as (y & Hy & H3).
      injection H3 as <- _. erewrite safeAdd_amount by done. by rewrite negative_amount.
    - by apply fail_Ok in H2. }
  destruct (set_get_locks t (match DecCoins_Sort n with
    | [] => delete addr (get_locks t s)
    | _ => <[addr:=DecCoins_Sort n]> (get_locks t s) end) s) as [E1 E2].
  split; [done|]. intros d. rewrite E2, lock_set_total, (amount_of_perm _ _ d (Sort_perm n)), E.
  lia.
Qed.

Lemma on_coins_Ok {A} (m : M S A) (a : A) (s s' : TokenState S) :
  on_coins m s = (Ok a, s') → ∃ c, m (ts_coins s) = (Ok a, c) ∧ s' = ts_set_coins c s.
Proof. apply zoom_Ok. Qed.

(** Locking and unlocking keep the locked coins backed: whatever the
    token module account holds beyond the coins recorded as locked (for
    orders or for fees) is unchanged by [LockCoins] and [UnlockCoins], and
    settling an order with [BalanceAccount] changes it by exactly what is
    given up minus what is paid out. *)
Theorem locks_backed modaddr addr coins t outs ins (s s' : TokenState S) u :
  ck_modaddr TokenModuleName = Some modaddr → addr ≠ modaddr →
  (LockCoins addr coins t s = (Ok u, s') →
     ∀ d, module_surplus modaddr s' d = module_surplus modaddr s d) ∧
  (UnlockCoins addr coins t s = (Ok u, s') →
     ∀ d, module_surplus modaddr s' d = module_surplus modaddr s d) ∧
  (BalanceAccount addr outs ins s = (Ok u, s') →
     ∀ d, module_surplus modaddr s' d
          = module_surplus modaddr s d + amount_of outs d - amount_of ins d).
Proof.
  intros Hm Hne. unfold module_surplus. split; [|split].
  - unfold LockCoins. intros H1. apply M_bind_Ok in H1 as (u1 & s1 & H2 & H1).
    apply wrapErr_Ok, on_coins_Ok in H2 as (c & H2 & ->).
    apply law_AccountToModule in H2 as (a & Ha & K). rewrite Hm in Ha. injection Ha as <-.
    apply updateLockedCoins_Ok in H1 as [E1 E2]. intros d. rewrite E1, E2. cbn.
    rewrite (km_balance _ _ _ _ _ K). unfold at_addr. rewrite decide_True, decide_False by done.
    unfold locked_total. cbn. lia.
  - unfold UnlockCoins. intros H1. apply M_bind_Ok in H1 as (u1 & s1 & H2 & H1).
    apply wrapErr_Ok, on_coins_Ok in H1 as (c & H1 & ->).
    apply law_ModuleToAccount in H1 as (_ & a & Ha & K). rewrite Hm in Ha. injection Ha as <-.
    apply updateLockedCoins_Ok in H2 as [E1 E2]. intros d. cbn. rewrite (km_balance _ _ _ _ _ K), E1.
    unfold at_addr. rewrite decide_False, decide_True by done.
    change (locked_total (ts_set_coins c s1) d) with (locked_total s1 d). rewrite E2. lia.
  - unfold BalanceAccount. intros H1. apply M_bind_Ok in H1 as (u1 & s1 & H2 & H1).
    assert (∀ l, DecCoins_IsZero l = true → ∀ d, amount_of l d = 0) as Hz.
    { induction l as [|c l IH]; intros Hl d; [done|]. cbn in Hl. bool_prop.
      rewrite Dec_IsZero_eq in *. bool_prop. rewrite amount_of_cons, IH by done.
      destruct (String.eqb _ _); lia. }
    assert (ts_coins s1 = ts_coins s ∧ ∀ d, locked_total s1 d = locked_total s d - amount_of outs d)
      as [E1 E2].
    { destruct (DecCoins_IsZero outs) eqn:Ho; cbn [negb] in H2.
      - apply mret_Ok in H2 as [_ ->]. split; [done|]. intros d. rewrite Hz by done. lia.
      - apply wrapErr_Ok, updateLockedCoins_Ok in H2 as [? E]. split; [done|].
        intros d. rewrite E. lia. }
    intros d. destruct (DecCoins_IsZero ins) eqn:Hi; cbn [negb] in H1.
    + apply mret_Ok in H1 as [_ ->]. rewrite E1, E2, (Hz ins) by done. lia.
    + apply on_coins_Ok in H1 as (c & H1 & ->).
      apply law_ModuleToAccount in H1 as (_ & a & Ha & K). rewrite Hm in Ha. injection Ha as <-.
      cbn. rewrite (km_balance _ _ _ _ _ K), E1. unfold at_addr.
      rewrite decide_False, decide_True by done.
      change (locked_total (ts_set_coins c s1) d) with (locked_total s1 d). rewrite E2. lia.
Qed.

End TokenFacts.

(** ** Supply and ownership *)

Section TokenProperties.
Context {S : Type} `{CoinKeeperLaws S} (feeCollectorName : string).

Lemma ToCoins_amount c cs d :
  DecCoin_ToCoins c = Ok cs → amount_of cs d = if String.eqb (Denom c) d then Amount c else 0.
Proof. intros E%(NewCoins_amount _ _ d). by rewrite E, amount_of_one. Qed.

Lemma deductFee_supply from fee (s s' : TokenState S) u d :
  deductFee feeCollectorName from fee s = (Ok u, s') →
  ck_supply (ts_coins s') d = ck_supply (ts_coins s) d.
Proof.
  unfold deductFee. intros H1. apply M_bind_Ok in H1 as (p & s1 & H2 & H1).
  apply gets_Ok in H2 as [-> ->]. apply M_bind_Ok in H1 as (c & s1 & H2 & H1).
  apply lift_Ok in H2 as [_ ->]. apply wrapErr_Ok, on_coins_Ok in H1 as (c' & H1 & ->).
  apply law_AccountToModule in H1 as (a & _ & K). cbn. apply (km_supply _ _ _ _ _ K).
Qed.

(** Minting is limited to the owner of a mintable token and bounded: a
    mint that succeeds was signed by the token's owner, raises the supply of
    that denomination by exactly the amount and of no other, and leaves it at
    or below ninety billion. *)
Theorem TokenMint_bounded owner amount (s s' : TokenState S) u :
  handleMsgTokenMint feeCollectorName owner amount s = (Ok u, s') →
  (∃ t, default noToken (ts_tokens s !! Denom amount) = t
        ∧ Tk_Owner t = owner ∧ Tk_Mintable t = true) ∧
  ck_supply (ts_coins s') (Denom amount) ≤ TotalSupplyUpperbound * 10 ^ 18 ∧
  ∀ d, ck_supply (ts_coins s') d
       = ck_supply (ts_coins s) d + (if String.eqb (Denom amount) d then Amount amount else 0).
Proof.
  unfold handleMsgTokenMint. intros H1.
  apply M_bind_Ok in H1 as (t & s1 & H2 & H1). apply gets_Ok in H2 as [-> ->].
  apply M_bind_Ok in H1 as (? & s1 & H2 & H1). apply guard_not_Ok in H2 as [Ho ->].
  apply M_bind_Ok in H1 as (? & s1 & H2 & H1). apply guard_not_Ok in H2 as [Hmint ->].
  apply M_bind_Ok in H1 as (sup & s1 & H2 & H1). apply on_coins_Ok in H2 as (c1 & H2 & ->).
  rewrite law_GetSupplyByDenom in H2. injection H2 as <- <-.
  apply M_bind_Ok in H1 as (tot & s1 & H2 & H1). apply lift_Ok in H2 as [H2 ->].
  apply M_bind_Ok in H1 as (up & s1 & H3 & H1). apply lift_Ok in H3 as [H3 ->].
  apply M_bind_Ok in H1 as (? & s1 & H4 & H1). apply guard_not_Ok in H4 as [Hb ->].
  apply M_bind_Ok in H1 as (mc & s1 & H4 & H1). apply lift_Ok in H4 as [H4 ->].
  apply M_bind_Ok in H1 as (? & s1 & H5 & H1). apply wrapErr_Ok, on_coins_Ok in H5 as (c2 & H5 & ->).
  apply M_bind_Ok in H1 as (? & s1 & H6 & H1). apply wrapErr_Ok, on_coins_Ok in H6 as (c3 & H6 & ->).
  apply law_MintCoins in H5 as (a & _ & K1). apply law_ModuleToAccount in H6 as (_ & b & _ & K2).
  rewrite NewDec_eq in H3. injection H3 as <-. apply Dec_Add_Ok in H2 as [-> _].
  unfold Dec_GT in Hb. bool_prop. apply String.eqb_eq in Ho.
  assert (∀ d, ck_supply (ts_coins s') d = ck_supply (ts_coins s) d
    + (if String.eqb (Denom amount) d then Amount amount else 0)) as E.
  { intros d. rewrite (deductFee_supply _ _ _ _ _ d H1). cbn.
    rewrite (km_supply _ _ _ _ _ K2), (kt_supply _ _ _ _ K1). cbn.
    by rewrite (ToCoins_amount _ _ d H4). }
  split; [by eexists|]. split; [|done]. rewrite E, String.eqb_refl. lia.
Qed.

(** Ownership passes only to the address the owner named, and in time:
    a confirmation that succeeds comes from the recorded address no later
    than the recorded expiry, makes that address the owner, changes no other
    token and removes the pending record. *)
Theorem ConfirmOwnership_spec blockTime address symbol tok (s s' : TokenState S) u :
  ts_tokens s !! symbol = Some tok → Tk_Symbol tok = symbol →
  (∀ c, ts_confirm s !! symbol = Some c → Co_Symbol c = symbol) →
  handleMsgConfirmOwnership blockTime address symbol s = (Ok u, s') →
  (∃ c, ts_confirm s !! symbol = Some c ∧ Co_Address c = address ∧ blockTime ≤ Co_Expire c) ∧
  ts_tokens s' = <[symbol := set_owner tok address]> (ts_tokens s) ∧
  ts_confirm s' = delete symbol (ts_confirm s) ∧ ts_coins s' = ts_coins s.
Proof.
  intros Ht Hsym Hc. unfold handleMsgConfirmOwnership. intros H1.
  apply M_bind_Ok in H1 as (o & s1 & H2 & H1). apply gets_Ok in H2 as [-> ->].
  destruct (ts_confirm s !! symbol) as [c|] eqn:Hcs; [|by apply fail_Ok in H1].
  destruct (blockTime >? Co_Expire c) eqn:Hexp.
  { apply M_bind_Ok in H1 as (? & ? & _ & H1). by apply fail_Ok in H1. }
  apply M_bind_Ok in H1 as (? & s1 & H2 & H1). apply guard_not_Ok in H2 as [Ha ->].
  apply M_bind_Ok in H1 as (t & s1 & H2 & H1). apply gets_Ok in H2 as [-> ->].
  apply M_bind_Ok in H1 as (? & s1 & H2 & H1). apply modify_Ok in H2 as ->.
  apply M_bind_Ok in H1 as (? & s1 & H2 & H1). apply modify_Ok in H2 as ->.
  apply modify_Ok in H1 as ->. bool_prop. apply String.eqb_eq in Ha. rewrite Ht. cbn.
  rewrite Hsym, (Hc c eq_refl). split; [|done]. exists c. split; [done|]. split; [done|lia].
Qed.

(** The token counter drifts: completing an ownership transfer counts the
    token again, so after it the counter is one higher while the registry has
    the same symbols. *)
Theorem ConfirmOwnership_recounts blockTime address symbol tok (s s' : TokenState S) u :
  ts_tokens s !! symbol = Some tok → Tk_Symbol tok = symbol →
  handleMsgConfirmOwnership blockTime address symbol s = (Ok u, s') →
  dom (ts_tokens s') = dom (ts_tokens s) ∧
  ts_tokenNumber s' = (ts_tokenNumber s + 1) mod 2 ^ 64.
Proof.
  intros Ht Hsym. unfold handleMsgConfirmOwnership. intros H1.
  apply M_bind_Ok in H1 as (o & s1 & H2 & H1). apply gets_Ok in H2 as [-> ->].
  destruct (ts_confirm s !! symbol) as [c|] eqn:Hcs; [|by apply fail_Ok in H1].
  destruct (blockTime >? Co_Expire c).
  { apply M_bind_Ok in H1 as (? & ? & _ & H1). by apply fail_Ok in H1. }
  apply M_bind_Ok in H1 as (? & s1 & H2 & H1). apply guard_not_Ok in H2 as [Ha ->].
  apply M_bind_Ok in H1 as (t & s1 & H2 & H1). apply gets_Ok in H2 as [-> ->].
  apply M_bind_Ok in H1 as (? & s1 & H2 & H1). apply modify_Ok in H2 as ->.
  apply M_bind_Ok in H1 as (? & s1 & H2 & H1). apply modify_Ok in H2 as ->.
  apply modify_Ok in H1 as ->. rewrite Ht. cbn. rewrite Hsym. split; [|done].
  rewrite dom_insert_L. apply (elem_of_dom_2 (D := gset string)) in Ht. set_solver.
Qed.

End TokenProperties.

Section TokenWitnesses.

Definition demo_token_config : BankConfig :=
  mkBankConfig {[ "token" := ("addr_token", ["minter"; "burner"]);
                  "fee_collector" := ("addr_fee", []) ]} {[ "addr_token" := true ]}.
Definition demo_token : Token := mkToken "" "abc" "abc" "abc" 100 0 "alice" true.
Definition demo_fee : DecCoin := mkDecCoin "okt" 1.
Definition demo_tstate : TokenState Bank :=
  mkTokenState demo_bank {[ "abc" := demo_token ]} {[ ("alice", "abc") ]} 1 ∅ ∅
    {[ "abc" := mkConfirm "abc" "bob" 50 ]}
    (mkTokenParams demo_fee demo_fee demo_fee demo_fee demo_fee 10) ∅.

#[local] Existing Instance demo_token_config.

Lemma locks_backed_witness :
  let s := demo_tstate in
  let s1 := snd (LockCoins "alice" [mkDecCoin "okt" 4] LockCoinsTypeQuantity s) in
  let s2 := snd (UnlockCoins "alice" [mkDecCoin "okt" 4] LockCoinsTypeQuantity s1) in
  module_surplus "addr_token" s1 "okt" = module_surplus "addr_token" s "okt"
  ∧ module_surplus "addr_token" s2 "okt" = module_surplus "addr_token" s1 "okt".
Proof.
  intros s s1 s2. split.
  - refine (proj1 (locks_backed "addr_token" "alice" [mkDecCoin "okt" 4] LockCoinsTypeQuantity
      [] [] s s1 () eq_refl _) _ "okt"); [done|vm_compute; reflexivity].
  - refine (proj1 (proj2 (locks_backed "addr_token" "alice" [mkDecCoin "okt" 4]
      LockCoinsTypeQuantity [] [] s1 s2 () eq_refl _)) _ "okt"); [done|vm_compute; reflexivity].
Defined.

Lemma TokenMint_bounded_witness :
  let s' := snd (handleMsgTokenMint "fee_collector" "alice" (mkDecCoin "abc" 7) demo_tstate) in
  ck_supply (ts_coins s') "abc" ≤ TotalSupplyUpperbound * 10 ^ 18.
Proof.
  intros s'. apply (TokenMint_bounded "fee_collector" "alice" (mkDecCoin "abc" 7)
    demo_tstate s' ()). vm_compute. reflexivity.
Defined.

Lemma ConfirmOwnership_spec_witness :
  let s' := snd (handleMsgConfirmOwnership 50 "bob" "abc" demo_tstate) in
  ts_tokens s' = <["abc" := set_owner demo_token "bob"]> (ts_tokens demo_tstate).
Proof.
  intros s'. apply (ConfirmOwnership_spec 50 "bob" "abc" demo_token demo_tstate s' ());
    [reflexivity|reflexivity| |vm_compute; reflexivity].
  intros c H. vm_compute in H. by injection H as <-.
Defined.

Lemma ConfirmOwnership_recounts_witness :
  let s' := snd (handleMsgConfirmOwnership 50 "bob" "abc" demo_tstate) in
  ts_tokenNumber s' = (ts_tokenNumber demo_tstate + 1) mod 2 ^ 64.
Proof.
  intros s'. apply (ConfirmOwnership_recounts 50 "bob" "abc" demo_token demo_tstate s' ());
    [reflexivity|reflexivity|vm_compute; reflexivity].
Defined.

End TokenWitnesses.
