(* ===== verification/Swap.v ===== *)
(** * The automated market maker

    [x/ammswap]: token-pair pools with a constant-product price.  The state is
    the pair store next to the token module's state (which holds the coins);
    the handlers, message checks, keeper functions, queries and genesis of the
    module are modelled.  Events, the performance recorder and the observers
    of the backend ([OnSwapToken], [OnCreateExchange]) are not.  A query is
    modelled from its decoded parameters to the value that is encoded. *)
From S2P Require Import Prelude Decimal Denom Coins Bank CoinKeeper Token.

(** ** Data *)

Record SwapTokenPair := mkPair {
  QuotePooledCoin : DecCoin;
  BasePooledCoin : DecCoin;
  PoolTokenName : string }.

Record SwapState (S : Type) := mkSwapState {
  sw_token : TokenState S;
  sw_pairs : gmap string SwapTokenPair;
  sw_feeRate : Dec }.
Arguments mkSwapState {S}.
Arguments sw_token {S}.
Arguments sw_pairs {S}.
Arguments sw_feeRate {S}.

Definition SwapModuleName : string := "ammswap".
Definition GenerateTokenType : Z := 2.
Definition defaultFeeRate : outcome Dec := NewDecWithPrec 3 3.

Definition validateFeeRate (v : Dec) : outcome unit :=
  if Dec_IsNegative v then Err (E "fee rate cannot be negative")
  else if Dec_GT v OneDec then Err (E "fee rate too large")
  else Ok ().

Definition NewSwapPair (token0 token1 : string) : outcome SwapTokenPair :=
  let '(base, quote) := GetBaseQuoteTokenName token0 token1 in
  q ← NewDecCoinFromDec quote ZeroDec;
  b ← NewDecCoinFromDec base ZeroDec;
  Ok (mkPair q b (GetPoolTokenName token0 token1)).

Definition TokenPairName (p : SwapTokenPair) : string :=
  Denom (BasePooledCoin p) +:+ "_" +:+ Denom (QuotePooledCoin p).

Definition InitPoolToken (moduleAddress poolTokenName : string) : outcome Token :=
  z ← NewDec 0;
  Ok (mkToken poolTokenName poolTokenName poolTokenName poolTokenName z
        GenerateTokenType moduleAddress true).

Definition ValidateSwapAmountName (amountName : string) : outcome unit :=
  if negb (validDenom amountName) then Err (E "ErrValidateDenom")
  else if NotAllowedOriginSymbol amountName then Err (E "ErrNotAllowedOriginSymbol")
  else Ok ().

Definition ValidateBaseAndQuoteAmount (baseAmountName quoteAmountName : string) : outcome unit :=
  match String.compare baseAmountName quoteAmountName with
  | Gt => Err (E "ErrBaseAmountNameBiggerThanQuoteAmountName")
  | Eq => Err (E "ErrBaseNameEqualQuoteName")
  | Lt =>
      _ ← ValidateSwapAmountName baseAmountName;
      ValidateSwapAmountName quoteAmountName
  end.

(** ** Messages *)

Record MsgAddLiquidity := mkMsgAdd {
  Ma_MinLiquidity : Dec; Ma_MaxBaseAmount : DecCoin; Ma_QuoteAmount : DecCoin;
  Ma_Deadline : Z; Ma_Sender : string }.
Definition MsgAddLiquidity_ValidateBasic (msg : MsgAddLiquidity) : outcome unit :=
  if String.eqb (Ma_Sender msg) "" then Err (E "ErrAddressIsRequire")
  else if Dec_IsNegative (Ma_MinLiquidity msg) then Err (E "ErrMinLiquidityIsNegative")
  else if negb (DecCoin_IsPositive (Ma_MaxBaseAmount msg)
                && DecCoin_IsPositive (Ma_QuoteAmount msg))
  then Err (E "ErrMaxBaseAmountOrQuoteAmountIsNegative")
  else if negb (DecCoin_IsValid (Ma_MaxBaseAmount msg)) then Err (E "ErrMaxBaseAmount")
  else if negb (DecCoin_IsValid (Ma_QuoteAmount msg)) then Err (E "ErrQuoteAmount")
  else ValidateBaseAndQuoteAmount (Denom (Ma_MaxBaseAmount msg)) (Denom (Ma_QuoteAmount msg)).
Definition MsgAddLiquidity_pair (msg : MsgAddLiquidity) : string :=
  GetSwapTokenPairName (Denom (Ma_MaxBaseAmount msg)) (Denom (Ma_QuoteAmount msg)).

Record MsgRemoveLiquidity := mkMsgRemove {
  Mr_Liquidity : Dec; Mr_MinBaseAmount : DecCoin; Mr_MinQuoteAmount : DecCoin;
  Mr_Deadline : Z; Mr_Sender : string }.
Definition MsgRemoveLiquidity_ValidateBasic (msg : MsgRemoveLiquidity) : outcome unit :=
  if String.eqb (Mr_Sender msg) "" then Err (E "ErrAddressIsRequire")
  else if negb (Dec_IsPositive (Mr_Liquidity msg)) then Err (E "ErrMinLiquidityIsNegative")
  else if negb (DecCoin_IsValid (Mr_MinBaseAmount msg)) then Err (E "ErrMinBaseAmount")
  else if negb (DecCoin_IsValid (Mr_MinQuoteAmount msg)) then Err (E "ErrMinQuoteAmount")
  else ValidateBaseAndQuoteAmount (Denom (Mr_MinBaseAmount msg)) (Denom (Mr_MinQuoteAmount msg)).
Definition MsgRemoveLiquidity_pair (msg : MsgRemoveLiquidity) : string :=
  GetSwapTokenPairName (Denom (Mr_MinBaseAmount msg)) (Denom (Mr_MinQuoteAmount msg)).

Record MsgCreateExchange := mkMsgCreate {
  Mc_Token0Name : string; Mc_Token1Name : string; Mc_Sender : string }.
Definition MsgCreateExchange_ValidateBasic (msg : MsgCreateExchange) : outcome unit :=
  if String.eqb (Mc_Sender msg) "" then Err (E "ErrAddressIsRequire") else
  _ ← ValidateSwapAmountName (Mc_Token0Name msg);
  _ ← ValidateSwapAmountName (Mc_Token1Name msg);
  if String.eqb (Mc_Token0Name msg) (Mc_Token1Name msg)
  then Err (E "ErrToken0NameEqualToken1Name") else Ok ().
Definition MsgCreateExchange_pair (msg : MsgCreateExchange) : string :=
  GetSwapTokenPairName (Mc_Token0Name msg) (Mc_Token1Name msg).

Record MsgTokenToToken := mkMsgSwap {
  Mt_SoldTokenAmount : DecCoin; Mt_MinBoughtTokenAmount : DecCoin;
  Mt_Deadline : Z; Mt_Recipient : string; Mt_Sender : string }.
Definition MsgTokenToToken_ValidateBasic (msg : MsgTokenToToken) : outcome unit :=
  if String.eqb (Mt_Sender msg) "" then Err (E "ErrAddressIsRequire")
  else if String.eqb (Mt_Recipient msg) "" then Err (E "ErrAddressIsRequire")
  else if negb (DecCoin_IsPositive (Mt_SoldTokenAmount msg)) then Err (E "ErrSoldTokenAmountIsNegative")
  else if negb (DecCoin_IsValid (Mt_SoldTokenAmount msg)) then Err (E "ErrSoldTokenAmount")
  else if negb (DecCoin_IsValid (Mt_MinBoughtTokenAmount msg)) then Err (E "ErrMinBoughtTokenAmount")
  else
    let '(baseAmountName, quoteAmountName) :=
      GetBaseQuoteTokenName (Denom (Mt_SoldTokenAmount msg)) (Denom (Mt_MinBoughtTokenAmount msg)) in
    ValidateBaseAndQuoteAmount baseAmountName quoteAmountName.
Definition MsgTokenToToken_pair (msg : MsgTokenToToken) : string :=
  GetSwapTokenPairName (Denom (Mt_MinBoughtTokenAmount msg)) (Denom (Mt_SoldTokenAmount msg)).

(** ** Price *)

Definition GetInputPrice (inputAmount inputReserve outputReserve feeRate : Dec) : outcome Dec :=
  oneMinusFee ← Dec_Sub OneDec feeRate;
  thousand ← NewDec 1000;
  f ← Dec_MulTruncate oneMinusFee thousand;
  inputAmountWithFee ← Dec_MulTruncate inputAmount f;
  r ← Dec_MulTruncate inputReserve thousand;
  denominator ← Dec_Add r inputAmountWithFee;
  MulAndQuo inputAmountWithFee outputReserve denominator.

Definition CalculateTokenToBuy (swapTokenPair : SwapTokenPair) (sellToken : DecCoin)
    (buyTokenDenom : string) (feeRate : Dec) : outcome DecCoin :=
  let '(inputReserve, outputReserve) :=
    if decide (str_lt buyTokenDenom (Denom sellToken))
    then (Amount (QuotePooledCoin swapTokenPair), Amount (BasePooledCoin swapTokenPair))
    else (Amount (BasePooledCoin swapTokenPair), Amount (QuotePooledCoin swapTokenPair)) in
  tokenBuyAmt ← GetInputPrice (Amount sellToken) inputReserve outputReserve feeRate;
  NewDecCoinFromDec buyTokenDenom tokenBuyAmt.

(** [common.HasSufficientCoins]. *)
Definition HasSufficientCoins (availableCoins amt : list DecCoin) : outcome unit :=
  if negb (DecCoins_IsValid amt) then Err (E "ErrInvalidCoins")
  else if negb (DecCoins_IsValid availableCoins) then Err (E "ErrInvalidCoins")
  else
    '(_, hasNeg) ← DecCoins_SafeSub availableCoins amt;
    if (hasNeg : bool) then Err (E "ErrInsufficientFunds") else Ok ().

Definition coinSort (coins : list DecCoin) : list DecCoin :=
  DecCoins_Sort (base.filter (λ c, Dec_IsPositive (Amount c)) coins).

(** ** Keeper *)

Section SwapKeeper.
Context {S : Type} `{CoinKeeper S}.

Definition on_token {A} (m : M (TokenState S) A) : M (SwapState S) A :=
  zoom sw_token (λ t s, mkSwapState t (sw_pairs s) (sw_feeRate s)) m.
Definition on_supply {A} (m : M S A) : M (SwapState S) A := on_token (on_coins m).

Definition GetSwapTokenPair (tokenPairName : string) : M (SwapState S) SwapTokenPair :=
  o ← gets (λ s, sw_pairs s !! tokenPairName);
  match o with
  | Some p => mret p
  | None => fail "ErrNonExistSwapTokenPair"
  end.
Definition SetSwapTokenPair (tokenPairName : string) (p : SwapTokenPair) : M (SwapState S) unit :=
  modify (λ s, mkSwapState (sw_token s) (<[tokenPairName := p]> (sw_pairs s)) (sw_feeRate s)).
Definition DeleteSwapTokenPair (tokenPairName : string) : M (SwapState S) unit :=
  modify (λ s, mkSwapState (sw_token s) (delete tokenPairName (sw_pairs s)) (sw_feeRate s)).
Definition GetSwapTokenPairs : M (SwapState S) (list SwapTokenPair) :=
  gets (λ s, snd <$> store_iterate (sw_pairs s)).

Definition NewPoolToken (symbol : string) : M (SwapState S) unit :=
  poolToken ← lift (InitPoolToken (default "" (ck_modaddr SwapModuleName)) symbol);
  on_token (Token_NewToken poolToken).
Definition GetPoolTokenInfo (symbol : string) : M (SwapState S) Token :=
  poolToken ← on_token (Token_GetTokenInfo symbol);
  _ ← guard_not (String.eqb (Tk_Owner poolToken) "") "ErrNonExistPoolToken";
  mret poolToken.
Definition GetPoolTokenAmount (poolTokenName : string) : M (SwapState S) Dec :=
  on_supply (ck_GetSupplyByDenom poolTokenName).
Definition MintPoolCoinsToUser (coins : list DecCoin) (addr : string) : M (SwapState S) unit :=
  _ ← wrapErr "ErrCodeMinCoinsFailed" (on_supply (ck_MintCoins SwapModuleName coins));
  on_supply (ck_SendCoinsFromModuleToAccount SwapModuleName addr coins).
Definition BurnPoolCoinsFromUser (coins : list DecCoin) (addr : string) : M (SwapState S) unit :=
  _ ← wrapErr "ErrSendCoinsFromAccountToModule"
        (on_supply (ck_SendCoinsFromAccountToModule addr SwapModuleName coins));
  on_supply (ck_BurnCoins SwapModuleName coins).
Definition SendCoinsToPool (coins : list DecCoin) (addr : string) : M (SwapState S) unit :=
  on_supply (ck_SendCoinsFromAccountToModule addr SwapModuleName coins).
Definition SendCoinsFromPoolToAccount (coins : list DecCoin) (addr : string)
    : M (SwapState S) unit :=
  on_supply (ck_SendCoinsFromModuleToAccount SwapModuleName addr coins).

Definition IsTokenExist (token : string) : M (SwapState S) unit :=
  isExist ← on_token (Token_TokenExist token);
  _ ← guard_not (negb isExist) "ErrTokenNotExist";
  t ← on_token (Token_GetTokenInfo token);
  guard_not (Tk_Type t =? GenerateTokenType) "ErrInvalidCoins".

Definition GetRedeemableAssets (baseAmountName quoteAmountName : string) (liquidity : Dec)
    : M (SwapState S) (DecCoin * DecCoin) :=
  _ ← match ValidateBaseAndQuoteAmount baseAmountName quoteAmountName with
      | Err _ => fail "ErrValidateSwapAmountName"
      | r => lift r
      end;
  swapTokenPair ← GetSwapTokenPair (GetSwapTokenPairName baseAmountName quoteAmountName);
  poolTokenAmount ← GetPoolTokenAmount (PoolTokenName swapTokenPair);
  _ ← guard_not (Dec_LT poolTokenAmount liquidity) "ErrInsufficientPoolToken";
  baseDec ← lift (MulAndQuo (Amount (BasePooledCoin swapTokenPair)) liquidity poolTokenAmount);
  quoteDec ← lift (MulAndQuo (Amount (QuotePooledCoin swapTokenPair)) liquidity poolTokenAmount);
  baseAmount ← lift (NewDecCoinFromDec (Denom (BasePooledCoin swapTokenPair)) baseDec);
  quoteAmount ← lift (NewDecCoinFromDec (Denom (QuotePooledCoin swapTokenPair)) quoteDec);
  mret (baseAmount, quoteAmount).

(** ** Handlers *)

Definition handleMsgCreateExchange (msg : MsgCreateExchange) : M (SwapState S) unit :=
  _ ← IsTokenExist (Mc_Token0Name msg);
  _ ← IsTokenExist (Mc_Token1Name msg);
  let tokenPairName := MsgCreateExchange_pair msg in
  o ← gets (λ s, sw_pairs s !! tokenPairName);
  _ ← guard_not (bool_decide (is_Some o)) "ErrSwapTokenPairExist";
  let poolTokenName := GetPoolTokenName (Mc_Token0Name msg) (Mc_Token1Name msg) in
  t ← on_token (Token_GetTokenInfo poolTokenName);
  _ ← guard_not (negb (String.eqb (Tk_Owner t) "")) "ErrPoolTokenPairExist";
  _ ← NewPoolToken poolTokenName;
  swapTokenPair ← lift (NewSwapPair (Mc_Token0Name msg) (Mc_Token1Name msg));
  SetSwapTokenPair tokenPairName swapTokenPair.

(** The amounts of a deposit: the base coins to take and the pool tokens to
    mint. *)
Definition addLiquidityAmounts (msg : MsgAddLiquidity) (swapTokenPair : SwapTokenPair)
    : M (SwapState S) (Dec * Dec) :=
  let Q := QuotePooledCoin swapTokenPair in
  let B := BasePooledCoin swapTokenPair in
  if Dec_IsZero (Amount Q) && Dec_IsZero (Amount B) then
    one ← lift (NewDec 1);
    mret (Amount (Ma_MaxBaseAmount msg), one)
  else if DecCoin_IsPositive B && DecCoin_IsPositive Q then
    baseTokens ← lift (MulAndQuo (Amount (Ma_QuoteAmount msg)) (Amount B) (Amount Q));
    totalSupply ← GetPoolTokenAmount (PoolTokenName swapTokenPair);
    smallest ← lift (NewDecWithPrec 1 Precision);
    let baseTokens := if Dec_IsZero baseTokens then smallest else baseTokens in
    _ ← guard_not (Dec_IsZero totalSupply) "ErrIsZeroValue";
    liquidity ← lift (MulAndQuo (Amount (Ma_QuoteAmount msg)) totalSupply (Amount Q));
    _ ← guard_not (Dec_IsZero liquidity) "ErrIsZeroValue";
    mret (baseTokens, liquidity)
  else fail "ErrInvalidTokenPair".

Definition handleMsgAddLiquidity (blockTime : Z) (msg : MsgAddLiquidity) : M (SwapState S) unit :=
  _ ← guard_not (Ma_Deadline msg <? blockTime) "ErrBlockTimeBigThanDeadline";
  swapTokenPair ← GetSwapTokenPair (MsgAddLiquidity_pair msg);
  baseTokens ← lift (NewDecCoinFromDec (Denom (Ma_MaxBaseAmount msg)) ZeroDec);
  poolToken ← GetPoolTokenInfo (PoolTokenName swapTokenPair);
  '(baseAmt, liquidity) ← addLiquidityAmounts msg swapTokenPair;
  let baseTokens := mkDecCoin (Denom baseTokens) baseAmt in
  _ ← guard_not (Dec_GT (Amount baseTokens) (Amount (Ma_MaxBaseAmount msg)))
        "ErrBaseTokensAmountBiggerThanMax";
  _ ← guard_not (Dec_LT liquidity (Ma_MinLiquidity msg)) "ErrLessThan";
  let coins := coinSort [Ma_QuoteAmount msg; baseTokens] in
  _ ← wrapErr "ErrSendCoinsFailed" (SendCoinsToPool coins (Ma_Sender msg));
  q ← lift (DecCoin_Add (QuotePooledCoin swapTokenPair) (Ma_QuoteAmount msg));
  b ← lift (DecCoin_Add (BasePooledCoin swapTokenPair) baseTokens);
  _ ← SetSwapTokenPair (MsgAddLiquidity_pair msg) (mkPair q b (PoolTokenName swapTokenPair));
  poolCoins ← lift (NewDecCoinFromDec (Tk_Symbol poolToken) liquidity);
  wrapErr "ErrMintPoolTokenFailed" (MintPoolCoinsToUser [poolCoins] (Ma_Sender msg)).

Definition handleMsgRemoveLiquidity (blockTime : Z) (msg : MsgRemoveLiquidity)
    : M (SwapState S) unit :=
  _ ← guard_not (Mr_Deadline msg <? blockTime) "ErrMsgDeadlineLessThanBlockTime";
  swapTokenPair ← GetSwapTokenPair (MsgRemoveLiquidity_pair msg);
  let liquidity := Mr_Liquidity msg in
  poolTokenAmount ← GetPoolTokenAmount (PoolTokenName swapTokenPair);
  _ ← guard_not (Dec_LT poolTokenAmount liquidity) "ErrLessThan";
  baseDec ← lift (MulAndQuo (Amount (BasePooledCoin swapTokenPair)) liquidity poolTokenAmount);
  quoteDec ← lift (MulAndQuo (Amount (QuotePooledCoin swapTokenPair)) liquidity poolTokenAmount);
  baseAmount ← lift (NewDecCoinFromDec (Denom (BasePooledCoin swapTokenPair)) baseDec);
  quoteAmount ← lift (NewDecCoinFromDec (Denom (QuotePooledCoin swapTokenPair)) quoteDec);
  lt ← lift (DecCoin_IsLT baseAmount (Mr_MinBaseAmount msg));
  _ ← guard_not lt "ErrLessThan";
  lt ← lift (DecCoin_IsLT quoteAmount (Mr_MinQuoteAmount msg));
  _ ← guard_not lt "ErrLessThan";
  let coins := coinSort [baseAmount; quoteAmount] in
  _ ← wrapErr "ErrSendCoinsFromPoolToAccountFailed"
        (SendCoinsFromPoolToAccount coins (Mr_Sender msg));
  q ← lift (DecCoin_Sub (QuotePooledCoin swapTokenPair) quoteAmount);
  b ← lift (DecCoin_Sub (BasePooledCoin swapTokenPair) baseAmount);
  _ ← SetSwapTokenPair (MsgRemoveLiquidity_pair msg) (mkPair q b (PoolTokenName swapTokenPair));
  poolCoins ← lift (NewDecCoinFromDec (PoolTokenName swapTokenPair) liquidity);
  wrapErr "ErrBurnPoolTokenFailed" (BurnPoolCoinsFromUser [poolCoins] (Mr_Sender msg)).

Definition swapTokenNativeToken (swapTokenPair : SwapTokenPair) (tokenBuy : DecCoin)
    (msg : MsgTokenToToken) : M (SwapState S) unit :=
  _ ← wrapErr "ErrSendCoinsToPoolFailed"
        (SendCoinsToPool [Mt_SoldTokenAmount msg] (Mt_Sender msg));
  _ ← wrapErr "ErrSendCoinsFromPoolToAccountFailed"
        (SendCoinsFromPoolToAccount [tokenBuy] (Mt_Recipient msg));
  '(q, b) ←
    lift (if decide (str_lt (Denom (Mt_MinBoughtTokenAmount msg)) (Denom (Mt_SoldTokenAmount msg)))
          then
            q ← DecCoin_Add (QuotePooledCoin swapTokenPair) (Mt_SoldTokenAmount msg);
            b ← DecCoin_Sub (BasePooledCoin swapTokenPair) tokenBuy;
            Ok (q, b)
          else
            q ← DecCoin_Sub (QuotePooledCoin swapTokenPair) tokenBuy;
            b ← DecCoin_Add (BasePooledCoin swapTokenPair) (Mt_SoldTokenAmount msg);
            Ok (q, b));
  SetSwapTokenPair (MsgTokenToToken_pair msg) (mkPair q b (PoolTokenName swapTokenPair)).

(** [HasSufficientCoins] of the sender, and the pool with both reserves
    non-zero, as both swap handlers check them. *)
Definition checkSender (msg : MsgTokenToToken) : M (SwapState S) unit :=
  coins ← on_token (Token_GetCoins (Mt_Sender msg));
  wrapErr "ErrInsufficientCoins" (lift (HasSufficientCoins coins [Mt_SoldTokenAmount msg])).
Definition checkReserves (p : SwapTokenPair) : M (SwapState S) unit :=
  guard_not (DecCoin_IsZero (BasePooledCoin p) || DecCoin_IsZero (QuotePooledCoin p))
    "ErrIsZeroValue".

Definition swapToken (blockTime : Z) (msg : MsgTokenToToken) : M (SwapState S) unit :=
  _ ← checkSender msg;
  _ ← guard_not (Mt_Deadline msg <? blockTime) "ErrBlockTimeBigThanDeadline";
  swapTokenPair ← GetSwapTokenPair (MsgTokenToToken_pair msg);
  _ ← checkReserves swapTokenPair;
  feeRate ← gets sw_feeRate;
  tokenBuy ← lift (CalculateTokenToBuy swapTokenPair (Mt_SoldTokenAmount msg)
                     (Denom (Mt_MinBoughtTokenAmount msg)) feeRate);
  _ ← guard_not (DecCoin_IsZero tokenBuy) "ErrIsZeroValue";
  _ ← guard_not (Dec_LT (Amount tokenBuy) (Amount (Mt_MinBoughtTokenAmount msg))) "ErrLessThan";
  swapTokenNativeToken swapTokenPair tokenBuy msg.

Definition set_MinBought (msg : MsgTokenToToken) (c : DecCoin) : MsgTokenToToken :=
  mkMsgSwap (Mt_SoldTokenAmount msg) c (Mt_Deadline msg) (Mt_Recipient msg) (Mt_Sender msg).
Definition set_Sold (msg : MsgTokenToToken) (c : DecCoin) : MsgTokenToToken :=
  mkMsgSwap c (Mt_MinBoughtTokenAmount msg) (Mt_Deadline msg) (Mt_Recipient msg) (Mt_Sender msg).

Definition swapTokenByRouter (blockTime : Z) (msg : MsgTokenToToken) : M (SwapState S) unit :=
  _ ← guard_not (Mt_Deadline msg <? blockTime) "ErrBlockTimeBigThanDeadline";
  _ ← checkSender msg;
  swapTokenPairOne ←
    GetSwapTokenPair (GetSwapTokenPairName (Denom (Mt_SoldTokenAmount msg)) DefaultBondDenom);
  _ ← checkReserves swapTokenPairOne;
  swapTokenPairTwo ←
    GetSwapTokenPair (GetSwapTokenPairName (Denom (Mt_MinBoughtTokenAmount msg)) DefaultBondDenom);
  _ ← checkReserves swapTokenPairTwo;
  nativeAmount ← lift (NewDecCoinFromDec DefaultBondDenom ZeroDec);
  feeRate ← gets sw_feeRate;
  let msgOne := set_MinBought msg nativeAmount in
  tokenNative ← lift (CalculateTokenToBuy swapTokenPairOne (Mt_SoldTokenAmount msgOne)
                        (Denom (Mt_MinBoughtTokenAmount msgOne)) feeRate);
  _ ← guard_not (DecCoin_IsZero tokenNative) "ErrIsZeroValue";
  let msgTwo := set_Sold msg tokenNative in
  tokenBuy ← lift (CalculateTokenToBuy swapTokenPairTwo (Mt_SoldTokenAmount msgTwo)
                     (Denom (Mt_MinBoughtTokenAmount msgTwo)) feeRate);
  _ ← guard_not (DecCoin_IsZero tokenBuy) "ErrIsZeroValue";
  _ ← guard_not (Dec_LT (Amount tokenBuy) (Amount (Mt_MinBoughtTokenAmount msg))) "ErrLessThan";
  _ ← swapTokenNativeToken swapTokenPairOne tokenNative msgOne;
  swapTokenNativeToken swapTokenPairTwo tokenBuy msgTwo.

Definition handleMsgTokenToToken (blockTime : Z) (msg : MsgTokenToToken) : M (SwapState S) unit :=
  o ← gets (λ s, sw_pairs s !! MsgTokenToToken_pair msg);
  match o with
  | None => swapTokenByRouter blockTime msg
  | Some _ => swapToken blockTime msg
  end.

(** ** Queries and genesis *)

Definition queryBuyAmount (tokenToBuy : string) (soldToken : DecCoin) : M (SwapState S) Dec :=
  _ ← lift (ValidateSwapAmountName tokenToBuy);
  _ ← lift (ValidateSwapAmountName (Denom soldToken));
  feeRate ← gets sw_feeRate;
  o ← gets (λ s, sw_pairs s !! GetSwapTokenPairName (Denom soldToken) tokenToBuy);
  match o with
  | Some tokenPair =>
      _ ← checkReserves tokenPair;
      c ← lift (CalculateTokenToBuy tokenPair soldToken tokenToBuy feeRate);
      mret (Amount c)
  | None =>
      tokenPair1 ← GetSwapTokenPair (GetSwapTokenPairName (Denom soldToken) DefaultBondDenom);
      _ ← checkReserves tokenPair1;
      tokenPair2 ← GetSwapTokenPair (GetSwapTokenPairName tokenToBuy DefaultBondDenom);
      _ ← checkReserves tokenPair2;
      nativeToken ← lift (CalculateTokenToBuy tokenPair1 soldToken DefaultBondDenom feeRate);
      c ← lift (CalculateTokenToBuy tokenPair2 nativeToken tokenToBuy feeRate);
      mret (Amount c)
  end.

Definition queryRedeemableAssets (tokenPairName : string) (liquidity : Dec)
    : M (SwapState S) (list DecCoin) :=
  swapTokenPair ← GetSwapTokenPair tokenPairName;
  '(baseToken, quoteToken) ← GetRedeemableAssets (Denom (BasePooledCoin swapTokenPair))
                               (Denom (QuotePooledCoin swapTokenPair)) liquidity;
  mret [baseToken; quoteToken].

(** The answer of the add-liquidity quote: base amount, pool share,
    liquidity. *)
Definition querySwapAddLiquidityQuote (baseToken : string) (queryTokenAmount : DecCoin)
    : M (SwapState S) (Dec * Dec * Dec) :=
  _ ← guard_not (String.eqb baseToken "") "ErrQueryParamsBaseTokenIsEmpty";
  swapTokenPair ← GetSwapTokenPair (GetSwapTokenPairName baseToken (Denom queryTokenAmount));
  let B := BasePooledCoin swapTokenPair in
  let Q := QuotePooledCoin swapTokenPair in
  _ ← guard_not (Dec_IsZero (Amount B) && Dec_IsZero (Amount Q)) "ErrIsZeroValue";
  totalSupply ← GetPoolTokenAmount (PoolTokenName swapTokenPair);
  _ ← guard_not (Dec_IsZero totalSupply) "ErrIsZeroValue";
  '(addAmount, liquidity) ←
    lift (if String.eqb (Denom B) (Denom queryTokenAmount) then
            addAmount ← MulAndQuo (Amount queryTokenAmount) (Amount Q) (Amount B);
            liquidity ← MulAndQuo addAmount totalSupply (Amount Q);
            Ok (addAmount, liquidity)
          else
            addAmount ← MulAndQuo (Amount queryTokenAmount) (Amount B) (Amount Q);
            liquidity ← MulAndQuo (Amount queryTokenAmount) totalSupply (Amount Q);
            Ok (addAmount, liquidity));
  total ← lift (Dec_Add totalSupply liquidity);
  poolShare ← lift (Dec_Quo liquidity total);
  mret (addAmount, poolShare, liquidity).

(** The quote of a swap.  [Sq_PriceImpact] is [None] where Go leaves the
    decimal nil. *)
Record SwapBuyInfo := mkSwapBuyInfo {
  Sq_BuyAmount : Dec; Sq_Price : Dec; Sq_PriceImpact : option Dec; Sq_Fee : DecCoin;
  Sq_Route : string }.

(** The reserve ratio seen from the denomination that is sold. *)
Definition reserveRatio (p : SwapTokenPair) (sold : string) : outcome Dec :=
  if String.eqb (Denom (BasePooledCoin p)) sold
  then Dec_Quo (Amount (QuotePooledCoin p)) (Amount (BasePooledCoin p))
  else Dec_Quo (Amount (BasePooledCoin p)) (Amount (QuotePooledCoin p)).

Definition quotePriceImpact (marketPrice price : Dec) : outcome (option Dec) :=
  if Dec_IsPositive marketPrice then
    diff ← (if Dec_GT marketPrice price then Dec_Sub marketPrice price
            else Dec_Sub price marketPrice);
    q ← Dec_Quo diff marketPrice;
    Ok (Some q)
  else Ok None.

Definition querySwapQuoteInfo (sellAmount : DecCoin) (buyToken : string)
    : M (SwapState S) SwapBuyInfo :=
  _ ← guard_not (String.eqb buyToken "") "ErrSellAmountOrBuyTokenIsEmpty";
  _ ← guard_not (String.eqb (Denom sellAmount) buyToken) "ErrSellAmountEqualBuyToken";
  feeRate ← gets sw_feeRate;
  o ← gets (λ s, sw_pairs s !! GetSwapTokenPairName (Denom sellAmount) buyToken);
  '(buyAmount, marketPrice, fee, route) ←
    (match o with
     | Some tokenPair =>
         _ ← checkReserves tokenPair;
         c ← lift (CalculateTokenToBuy tokenPair sellAmount buyToken feeRate);
         marketPrice ← lift (reserveRatio tokenPair (Denom sellAmount));
         f ← lift (Dec_Mul (Amount sellAmount) feeRate);
         fee ← lift (NewDecCoinFromDec (Denom sellAmount) f);
         mret (Amount c, marketPrice, fee, "")
     | None =>
         tokenPair1 ← GetSwapTokenPair (GetSwapTokenPairName (Denom sellAmount) DefaultBondDenom);
         _ ← checkReserves tokenPair1;
         tokenPair2 ← GetSwapTokenPair (GetSwapTokenPairName buyToken DefaultBondDenom);
         _ ← checkReserves tokenPair2;
         nativeToken ← lift (CalculateTokenToBuy tokenPair1 sellAmount DefaultBondDenom feeRate);
         c ← lift (CalculateTokenToBuy tokenPair2 nativeToken buyToken feeRate);
         sellTokenMarketPrice ← lift (reserveRatio tokenPair1 (Denom sellAmount));
         routeTokenMarketPrice ← lift (reserveRatio tokenPair2 DefaultBondDenom);
         marketPrice ← lift (if Dec_IsPositive routeTokenMarketPrice
                                && Dec_IsPositive sellTokenMarketPrice
                             then Dec_Mul sellTokenMarketPrice routeTokenMarketPrice
                             else Ok ZeroDec);
         f1 ← lift (Dec_Mul (Amount sellAmount) feeRate);
         fee1 ← lift (NewDecCoinFromDec (Denom sellAmount) f1);
         rf ← lift (Dec_Mul (Amount nativeToken) feeRate);
         routeTokenFee ← lift (NewDecCoinFromDec DefaultBondDenom rf);
         fee2 ← lift (CalculateTokenToBuy tokenPair1 routeTokenFee (Denom sellAmount) feeRate);
         fee ← lift (DecCoin_Add fee1 fee2);
         mret (Amount c, marketPrice, fee, DefaultBondDenom)
     end : M (SwapState S) (Dec * Dec * DecCoin * string));
  price ← lift (if Dec_IsPositive (Amount sellAmount)
                then Dec_Quo buyAmount (Amount sellAmount) else Ok ZeroDec);
  impact ← lift (quotePriceImpact marketPrice price);
  mret (mkSwapBuyInfo buyAmount price impact fee route).

Definition Swap_ValidateGenesis (records : list SwapTokenPair) : bool :=
  forallb (λ r, DecCoin_IsValid (QuotePooledCoin r) && DecCoin_IsValid (BasePooledCoin r)
                && NotAllowedOriginSymbol (PoolTokenName r)) records.

Fixpoint InitGenesis_pairs (records : list SwapTokenPair) : M (SwapState S) unit :=
  match records with
  | [] => mret ()
  | r :: rest => _ ← SetSwapTokenPair (TokenPairName r) r; InitGenesis_pairs rest
  end.
Definition Swap_InitGenesis (feeRate : Dec) (records : list SwapTokenPair) : M (SwapState S) unit :=
  _ ← modify (λ s, mkSwapState (sw_token s) (sw_pairs s) feeRate);
  InitGenesis_pairs records.
Definition Swap_ExportGenesis : M (SwapState S) (Dec * list SwapTokenPair) :=
  feeRate ← gets sw_feeRate;
  records ← GetSwapTokenPairs;
  mret (feeRate, records).

End SwapKeeper.
