(* ===== verification/SwapProps.v ===== *)
(** * Correctness of the automated market maker

    The price formula never pays out more than the constant product allows;
    deposits and withdrawals do not take value from the other liquidity
    providers beyond rounding; and every handler keeps the module account
    backing the pooled amounts that the pair store records. *)
From S2P Require Import Prelude Decimal Denom Coins Bank CoinKeeper Token Swap.
From Stdlib Require Import Ascii.

(** ** The price formula *)

Section Price.

Lemma mul_thousand a : Z.quot (a * (1000 * 10 ^ 18)) precisionReuse = a * 1000.
Proof.
  replace (a * (1000 * 10 ^ 18)) with (a * 1000 * precisionReuse)
    by (change precisionReuse with (10 ^ 18); ring).
  by rewrite Z.quot_mul.
Qed.

(** The input that counts after the fee, in thousandths. *)
Definition input_with_fee (i f : Z) : Z := Z.quot (i * ((OneDec - f) * 1000)) precisionReuse.

Lemma input_with_fee_bounds i f :
  0 ≤ i → 0 ≤ f ≤ OneDec → 0 ≤ input_with_fee i f ≤ 1000 * i.
Proof.
  intros Hi Hf. unfold input_with_fee.
  assert (0 ≤ (OneDec - f) * 1000 ≤ 1000 * precisionReuse) as Hb
    by (change OneDec with precisionReuse in *; lia).
  assert (0 < precisionReuse) by done. set (m := (OneDec - f) * 1000) in *.
  split; [apply quot_nonneg; nia|]. apply Z.quot_le_upper_bound; [done|]. nia.
Qed.

Lemma GetInputPrice_Ok i x y f out :
  GetInputPrice i x y f = Ok out →
  x * 1000 + input_with_fee i f ≠ 0 ∧
  out = Z.quot (input_with_fee i f * y) (x * 1000 + input_with_fee i f).
Proof.
  unfold GetInputPrice. intros H.
  apply outcome_bind_Ok in H as (omf & H1 & H). apply Dec_Sub_Ok in H1 as [-> _].
  rewrite NewDec_eq in H. cbn [mbind outcome_bind] in H.
  apply outcome_bind_Ok in H as (g & H1 & H). apply Dec_MulTruncate_Ok in H1 as [-> _].
  apply outcome_bind_Ok in H as (w & H1 & H). apply Dec_MulTruncate_Ok in H1 as [-> _].
  apply outcome_bind_Ok in H as (r & H1 & H). apply Dec_MulTruncate_Ok in H1 as [-> _].
  apply outcome_bind_Ok in H as (den & H1 & H). apply Dec_Add_Ok in H1 as [-> _].
  rewrite !mul_thousand in H. apply MulAndQuo_Ok in H as (Hd & -> & _). done.
Qed.

Lemma price_bound w i x y out :
  0 ≤ w ≤ 1000 * i → 0 < x → 0 < y → out = Z.quot (w * y) (x * 1000 + w) →
  0 ≤ out < y ∧ x * y ≤ (x + i) * (y - out).
Proof.
  intros Hw Hx Hy ->. set (out := Z.quot _ _).
  assert (0 ≤ w * y - out * (x * 1000 + w) < x * 1000 + w) as Hq by (apply quot_bounds; nia).
  assert (0 ≤ out) by (apply quot_nonneg; nia).
  assert (out < y) by nia.
  split; [lia|]. assert (out * (x * 1000) ≤ w * (y - out)) by nia.
  assert (w * (y - out) ≤ 1000 * i * (y - out)) by nia. nia.
Qed.

Lemma price_total i x y f :
  0 ≤ i < 2 ^ 100 → 0 < x < 2 ^ 100 → 0 < y < 2 ^ 100 → 0 ≤ f ≤ OneDec →
  ∃ out, GetInputPrice i x y f = Ok out.
Proof.
  intros Hi Hx Hy Hf. pose proof (input_with_fee_bounds i f (proj1 Hi) Hf) as Hw.
  unfold GetInputPrice, Dec_Sub, Dec_Add, Dec_MulTruncate, chopPrecisionAndTruncate.
  rewrite checkDec_fits by (unfold dec_fits; change OneDec with 1000000000000000000 in *; lia).
  cbn [mbind outcome_bind]. rewrite NewDec_eq. cbn [mbind outcome_bind].
  rewrite !mul_thousand.
  assert (0 ≤ (OneDec - f) * 1000 < 2 ^ 100) as Hm
    by (change OneDec with 1000000000000000000 in *; lia).
  rewrite (checkDec_fits (x * 1000)) by (unfold dec_fits; lia). cbn [mbind outcome_bind].
  rewrite (checkDec_fits ((OneDec - f) * 1000)) by (unfold dec_fits; lia).
  cbn [mbind outcome_bind]. fold (input_with_fee i f). set (w := input_with_fee i f) in *.
  rewrite (checkDec_fits w) by (unfold dec_fits; lia). cbn [mbind outcome_bind].
  rewrite (checkDec_fits (x * 1000 + w)) by (unfold dec_fits; lia). cbn [mbind outcome_bind].
  eexists. apply MulAndQuo_Ok. split; [lia|]. split; [reflexivity|].
  assert (0 ≤ w * y < 2 ^ 110 * 2 ^ 100) as Hwy by (split; [nia|]; apply Z.mul_lt_mono_nonneg; lia).
  assert (0 ≤ w * y * 10 ^ 18 < 2 ^ 271) as Hb by lia.
  assert (∀ a, 0 ≤ a < 2 ^ 271 → dec_fits (Z.quot a (x * 1000 + w))) as Hq.
  { intros a Ha. unfold dec_fits. rewrite Z.abs_eq by (apply quot_nonneg; lia).
    apply Z.le_lt_trans with a; [|lia].
    apply Z.quot_le_upper_bound; [lia|]. nia. }
  split; [unfold dec_fits; lia|]. split; [unfold dec_fits; lia|]. split; apply Hq; lia.
Qed.

(** The price never gives the pool away: for a fee rate between 0 and 1
    and reserves and input within the range the tokens can reach,
    [GetInputPrice] returns an output strictly below the output reserve such
    that the product of the reserves after the swap is at least what it was
    before. *)
Theorem GetInputPrice_constant_product i x y f :
  0 ≤ i < 2 ^ 100 → 0 < x < 2 ^ 100 → 0 < y < 2 ^ 100 → 0 ≤ f ≤ OneDec →
  ∃ out, GetInputPrice i x y f = Ok out ∧ 0 ≤ out < y ∧ x * y ≤ (x + i) * (y - out).
Proof.
  intros Hi Hx Hy Hf. destruct (price_total i x y f Hi Hx Hy Hf) as [out H].
  exists out. split; [done|]. apply GetInputPrice_Ok in H as [_ ->].
  eapply price_bound; [apply (input_with_fee_bounds i f)|..]; done || lia.
Qed.

Lemma GetInputPrice_constant_product_witness :
  ∃ out, GetInputPrice 1000 100000 200000 3000000000000000 = Ok out
  ∧ 0 ≤ out < 200000 ∧ 100000 * 200000 ≤ (100000 + 1000) * (200000 - out).
Proof.
  apply GetInputPrice_constant_product; [lia..|]. change OneDec with 1000000000000000000. lia.
Defined.

End Price.

(** ** Names of pairs *)

Section PairNames.

Lemma GetSwapTokenPairName_comm a b : GetSwapTokenPairName a b = GetSwapTokenPairName b a.
Proof. unfold GetSwapTokenPairName. by rewrite GetBaseQuoteTokenName_comm. Qed.

Lemma ibc_no_underscore s : MatchString ibcReDnmString s = true → no_underscore s.
Proof.
  intros H%MatchString_elem.
  assert (re_within (λ c, c ≠ "_"%char) ibcReDnmString) as Hw.
  { unfold ibcReDnmString. apply re_within_seq; [apply re_within_char|apply re_within_rep];
      intros c Hc ->; vm_compute in Hc; discriminate. }
  destruct (Hw _ _ H) as (u & -> & Hu). by rewrite str_app_nil_r.
Qed.

Lemma pool_name_prefix s :
  MatchString rePoolTokenDnmString s = true → String.prefix "ammswap" s = true.
Proof.
  intros H%MatchString_elem. apply re_seq_elem in H as (u & H & _).
  apply re_lit_elem in H as ->. change "ammswap_" with ("ammswap" +:+ "_").
  rewrite str_app_assoc. apply prefix_app_intro.
Qed.

(** The names that a swap message may carry have no separator in them. *)
Lemma swap_name_no_underscore n : ValidateSwapAmountName n = Ok () → no_underscore n.
Proof.
  unfold ValidateSwapAmountName, NotAllowedOriginSymbol. intros H.
  destruct (validDenom n) eqn:Hv; [|done]. cbn [negb] in H.
  destruct (String.prefix "ammswap" n) eqn:Hp; [done|].
  unfold validDenom, ValidateDenom in Hv.
  destruct (String.eqb_spec n DefaultBondDenom) as [E|].
  { rewrite E. unfold no_underscore. by repeat constructor. }
  destruct (MatchString reDnmString n) eqn:Hd; [by apply reDnm_no_underscore|].
  destruct (MatchString rePoolTokenDnmString n) eqn:Hpool.
  { apply pool_name_prefix in Hpool. congruence. }
  cbn [negb andb] in Hv. destruct (String.prefix "ibc" n); [|done]. cbn [andb] in Hv.
  destruct (validIBCCoinDenom n) eqn:Hi; [by apply ibc_no_underscore|done].
Qed.

Lemma pair_name_inj a b c :
  no_underscore a → no_underscore b → no_underscore c →
  GetSwapTokenPairName a c = GetSwapTokenPairName b c → a = b ∨ (a = c ∧ b = c).
Proof.
  intros Ha Hb Hc H.
  assert (GetPoolTokenName a c = GetPoolTokenName b c) as E
    by (unfold GetPoolTokenName; by rewrite H).
  unfold GetPoolTokenName, GetSwapTokenPairName in E.
  destruct (GetBaseQuoteTokenName_cases a c) as [H1|H1],
    (GetBaseQuoteTokenName_cases b c) as [H2|H2]; rewrite H1, H2 in E;
    apply str_app_inj, split_underscore in E; naive_solver.
Qed.

Lemma swap_denoms msg :
  MsgTokenToToken_ValidateBasic msg = Ok () →
  no_underscore (Denom (Mt_SoldTokenAmount msg)) ∧
  no_underscore (Denom (Mt_MinBoughtTokenAmount msg)) ∧
  Denom (Mt_SoldTokenAmount msg) ≠ Denom (Mt_MinBoughtTokenAmount msg).
Proof.
  unfold MsgTokenToToken_ValidateBasic. intros H.
  destruct (GetBaseQuoteTokenName _ _) as [b q] eqn:E.
  repeat match type of H with (if ?c then _ else _) = _ => destruct c; [done|] end.
  unfold ValidateBaseAndQuoteAmount in H. destruct (String.compare b q) eqn:Hc; try done.
  apply outcome_bind_Ok in H as ([] & N1 & N2).
  apply swap_name_no_underscore in N1, N2. apply str_lt_cmp, str_lt_ne in Hc.
  destruct (GetBaseQuoteTokenName_cases (Denom (Mt_SoldTokenAmount msg))
    (Denom (Mt_MinBoughtTokenAmount msg))) as [E'|E']; rewrite E' in E; naive_solver.
Qed.

End PairNames.

(** ** What the pools hold *)

(** The amounts that a pair records, of a denomination. *)
Definition pair_total (p : SwapTokenPair) (d : string) : Z :=
  amount_of [QuotePooledCoin p; BasePooledCoin p] d.

Section Handlers.
Context {S : Type} `{CoinKeeperLaws S}.

Definition sw_coins (s : SwapState S) : S := ts_coins (sw_token s).
Definition sw_with (c : S) (s : SwapState S) : SwapState S :=
  mkSwapState (ts_set_coins c (sw_token s)) (sw_pairs s) (sw_feeRate s).

(** All pools together. *)
Definition pooled (s : SwapState S) (d : string) : Z :=
  map_sum (λ p, pair_total p d) (sw_pairs s).

(** What the module account holds beyond the pooled amounts. *)
Definition pool_surplus (modaddr : string) (s : SwapState S) (d : string) : Z :=
  ck_balance (sw_coins s) modaddr d - pooled s d.

Lemma on_supply_Ok {A} (m : M S A) (a : A) s s' :
  on_supply m s = (Ok a, s') → ∃ c, m (sw_coins s) = (Ok a, c) ∧ s' = sw_with c s.
Proof.
  unfold on_supply, on_token. intros (t & Ht & ->)%zoom_Ok.
  apply on_coins_Ok in Ht as (c & Hc & ->). by exists c.
Qed.

Lemma GetSwapTokenPair_Ok name p (s s' : SwapState S) :
  GetSwapTokenPair name s = (Ok p, s') → sw_pairs s !! name = Some p ∧ s' = s.
Proof.
  unfold GetSwapTokenPair. intros H1. apply M_bind_Ok in H1 as (o & s1 & H2 & H1).
  apply gets_Ok in H2 as [-> ->]. destruct (sw_pairs s !! name); [|by apply fail_Ok in H1].
  by apply mret_Ok in H1 as [-> ->].
Qed.

Lemma GetPoolTokenAmount_Ok name x (s s' : SwapState S) :
  GetPoolTokenAmount name s = (Ok x, s') → x = ck_supply (sw_coins s) name ∧ s' = s.
Proof.
  intros (c & Hc & ->)%on_supply_Ok. rewrite law_GetSupplyByDenom in Hc. injection Hc as <- <-.
  split; [done|]. by destruct s as [[] ? ?].
Qed.

Lemma pooled_insert s name p q d :
  sw_pairs s !! name = Some p →
  map_sum (λ p, pair_total p d) (<[name := q]> (sw_pairs s))
  = pooled s d - pair_total p d + pair_total q d.
Proof. intros Hp. rewrite map_sum_insert, Hp. done. Qed.

Lemma coinSort_amount l d :
  Forall (λ c, 0 ≤ Amount c) l → amount_of (coinSort l) d = amount_of l d.
Proof.
  intros Hl. unfold coinSort. rewrite (amount_of_perm _ _ d (Sort_perm _)).
  induction Hl as [|c l Hc Hl IH]; [done|].
  rewrite filter_cons, amount_of_cons. case_decide as Hp.
  - by rewrite amount_of_cons, IH.
  - rewrite IH. rewrite Dec_IsPositive_eq in Hp. destruct (Z.ltb_spec 0 (Amount c)); [done|].
    replace (Amount c) with 0 by lia. destruct (String.eqb _ _); lia.
Qed.

(** The part of a swap that moves coins and updates the pair: it takes what
    is sold, pays what is bought, and records exactly that. *)
Lemma swapTokenNativeToken_Ok p tokenBuy msg (s s' : SwapState S) u :
  swapTokenNativeToken p tokenBuy msg s = (Ok u, s') →
  ∃ modaddr c1 q',
  ck_modaddr SwapModuleName = Some modaddr ∧ ck_Blacklisted (Mt_Recipient msg) = false ∧
  kmove (sw_coins s) c1 (Mt_Sender msg) modaddr [Mt_SoldTokenAmount msg] ∧
  kmove c1 (sw_coins s') modaddr (Mt_Recipient msg) [tokenBuy] ∧
  sw_pairs s' = <[MsgTokenToToken_pair msg := q']> (sw_pairs s) ∧
  sw_feeRate s' = sw_feeRate s ∧ PoolTokenName q' = PoolTokenName p ∧
  (∀ d, pair_total q' d = pair_total p d + amount_of [Mt_SoldTokenAmount msg] d
                          - amount_of [tokenBuy] d).
Proof.
  unfold swapTokenNativeToken. intros H1.
  apply M_bind_Ok in H1 as (? & s1 & H2 & H1). apply wrapErr_Ok, on_supply_Ok in H2 as (c1 & H2 & ->).
  apply M_bind_Ok in H1 as (? & s1 & H3 & H1). apply wrapErr_Ok, on_supply_Ok in H3 as (c2 & H3 & ->).
  apply M_bind_Ok in H1 as ([q b] & s1 & H4 & H1). apply lift_Ok in H4 as [H4 ->].
  apply modify_Ok in H1 as ->.
  apply law_AccountToModule in H2 as (m1 & Hm1 & K1).
  apply law_ModuleToAccount in H3 as (Hb & m2 & Hm2 & K2).
  rewrite Hm1 in Hm2. injection Hm2 as <-.
  exists m1, c1, (mkPair q b (PoolTokenName p)). do 7 (split; [done|]). intros d.
  unfold pair_total. cbn [QuotePooledCoin BasePooledCoin]. rewrite !amount_of_cons, amount_of_nil.
  case_decide.
  - apply outcome_bind_Ok in H4 as (q1 & A1%DecCoin_Add_Ok & H4).
    apply outcome_bind_Ok in H4 as (b1 & B1%DecCoin_Sub_Ok & H4). injection H4 as -> ->.
    destruct A1 as (E1 & -> & _), B1 as (E2 & -> & _). cbn [Denom Amount].
    rewrite <- E1, <- E2. destruct (String.eqb _ _), (String.eqb _ _); lia.
  - apply outcome_bind_Ok in H4 as (q1 & A1%DecCoin_Sub_Ok & H4).
    apply outcome_bind_Ok in H4 as (b1 & B1%DecCoin_Add_Ok & H4). injection H4 as -> ->.
    destruct A1 as (E1 & -> & _), B1 as (E2 & -> & _). cbn [Denom Amount].
    rewrite <- E1, <- E2. destruct (String.eqb _ _), (String.eqb _ _); lia.
Qed.

(** Balance of the module account across moves in and out. *)
Lemma kmove_in (c c' : S) a m amt d :
  kmove c c' a m amt → a ≠ m → ck_balance c' m d = ck_balance c m d + amount_of amt d.
Proof.
  intros K Hne. rewrite (km_balance _ _ _ _ _ K). unfold at_addr.
  rewrite decide_True, decide_False by done. lia.
Qed.
Lemma kmove_out (c c' : S) a m amt d :
  kmove c c' m a amt → a ≠ m → ck_balance c' m d = ck_balance c m d - amount_of amt d.
Proof.
  intros K Hne. rewrite (km_balance _ _ _ _ _ K). unfold at_addr.
  rewrite decide_False, decide_True by done. lia.
Qed.

(** A deposit: what it takes and mints, and the new pair. *)
Definition deposit_amounts (p : SwapTokenPair) (maxBase q T base liq : Z) : Prop :=
  let Q := Amount (QuotePooledCoin p) in
  let B := Amount (BasePooledCoin p) in
  (Q = 0 ∧ B = 0 ∧ base = maxBase ∧ liq = 10 ^ 18) ∨
  (0 < B ∧ 0 < Q ∧ T ≠ 0 ∧ liq = Z.quot (q * T) Q ∧ liq ≠ 0 ∧
   base = if Z.quot (q * B) Q =? 0 then 1 else Z.quot (q * B) Q).

Lemma addLiquidityAmounts_Ok msg p base liq (s s' : SwapState S) :
  addLiquidityAmounts msg p s = (Ok (base, liq), s') →
  s' = s ∧ deposit_amounts p (Amount (Ma_MaxBaseAmount msg)) (Amount (Ma_QuoteAmount msg))
             (ck_supply (sw_coins s) (PoolTokenName p)) base liq.
Proof.
  unfold addLiquidityAmounts, deposit_amounts. rewrite !Dec_IsZero_eq, !DecCoin_IsPositive_eq.
  intros H1. destruct ((Amount (QuotePooledCoin p) =? 0) && _) eqn:Hz;
    [|destruct ((0 <? Amount (BasePooledCoin p)) && _) eqn:Hp; [|by apply fail_Ok in H1]].
  - apply andb_true_iff in Hz as [Hz1%Z.eqb_eq Hz2%Z.eqb_eq].
    apply M_bind_Ok in H1 as (one & s1 & H2 & H1). apply lift_Ok in H2 as [H2 ->].
    rewrite NewDec_eq in H2. injection H2 as <-. apply mret_Ok in H1 as [H1 ->].
    injection H1 as -> ->. split; [done|]. left. done.
  - apply andb_true_iff in Hp as [Hp1%Z.ltb_lt Hp2%Z.ltb_lt].
    apply M_bind_Ok in H1 as (bt & s1 & H2 & H1). apply lift_Ok in H2 as [H2 ->].
    apply MulAndQuo_Ok in H2 as (_ & -> & _).
    apply M_bind_Ok in H1 as (T & s1 & H2 & H1). apply GetPoolTokenAmount_Ok in H2 as [-> ->].
    apply M_bind_Ok in H1 as (sm & s1 & H2 & H1). apply lift_Ok in H2 as [H2 ->].
    injection H2 as <-.
    apply M_bind_Ok in H1 as (? & s1 & H2 & H1). apply guard_not_Ok in H2 as [HT ->].
    apply M_bind_Ok in H1 as (lq & s1 & H2 & H1). apply lift_Ok in H2 as [H2 ->].
    apply MulAndQuo_Ok in H2 as (_ & -> & _).
    apply M_bind_Ok in H1 as (? & s1 & H2 & H1). apply guard_not_Ok in H2 as [HL ->].
    apply mret_Ok in H1 as [H1 ->]. injection H1 as -> ->. rewrite Dec_IsZero_eq in *. bool_prop.
    split; [done|]. right. done.
Qed.

Lemma GetPoolTokenInfo_Ok name t (s s' : SwapState S) :
  GetPoolTokenInfo name s = (Ok t, s') →
  t = default noToken (ts_tokens (sw_token s) !! name) ∧ s' = s.
Proof.
  unfold GetPoolTokenInfo. intros H1. apply M_bind_Ok in H1 as (x & s1 & H2 & H1).
  apply zoom_Ok in H2 as (t1 & H2 & ->). apply gets_Ok in H2 as [-> ->].
  apply M_bind_Ok in H1 as (? & s1 & H2 & H1). apply guard_not_Ok in H2 as [_ ->].
  apply mret_Ok in H1 as [-> ->]. split; [done|]. by destruct s.
Qed.

Lemma handleMsgAddLiquidity_Ok t msg (s s' : SwapState S) u :
  handleMsgAddLiquidity t msg s = (Ok u, s') →
  ∃ p base liq modaddr c1 c2,
  sw_pairs s !! MsgAddLiquidity_pair msg = Some p ∧ t ≤ Ma_Deadline msg ∧
  base ≤ Amount (Ma_MaxBaseAmount msg) ∧ Ma_MinLiquidity msg ≤ liq ∧
  deposit_amounts p (Amount (Ma_MaxBaseAmount msg)) (Amount (Ma_QuoteAmount msg))
    (ck_supply (sw_coins s) (PoolTokenName p)) base liq ∧
  ck_modaddr SwapModuleName = Some modaddr ∧ ck_Blacklisted (Ma_Sender msg) = false ∧
  kmove (sw_coins s) c1 (Ma_Sender msg) modaddr
    (coinSort [Ma_QuoteAmount msg; mkDecCoin (Denom (Ma_MaxBaseAmount msg)) base]) ∧
  kmint c1 c2 modaddr
    [mkDecCoin (Tk_Symbol (default noToken (ts_tokens (sw_token s) !! PoolTokenName p))) liq] ∧
  kmove c2 (sw_coins s') modaddr (Ma_Sender msg)
    [mkDecCoin (Tk_Symbol (default noToken (ts_tokens (sw_token s) !! PoolTokenName p))) liq] ∧
  Denom (QuotePooledCoin p) = Denom (Ma_QuoteAmount msg) ∧
  Denom (BasePooledCoin p) = Denom (Ma_MaxBaseAmount msg) ∧
  sw_feeRate s' = sw_feeRate s ∧ ts_tokens (sw_token s') = ts_tokens (sw_token s) ∧
  sw_pairs s' = <[MsgAddLiquidity_pair msg :=
    mkPair (mkDecCoin (Denom (QuotePooledCoin p))
              (Amount (QuotePooledCoin p) + Amount (Ma_QuoteAmount msg)))
           (mkDecCoin (Denom (BasePooledCoin p)) (Amount (BasePooledCoin p) + base))
           (PoolTokenName p)]> (sw_pairs s).
Proof.
  unfold handleMsgAddLiquidity. intros H1.
  apply M_bind_Ok in H1 as (? & s1 & H2 & H1). apply guard_not_Ok in H2 as [Ht ->].
  apply M_bind_Ok in H1 as (p & s1 & H2 & H1). apply GetSwapTokenPair_Ok in H2 as [Hp ->].
  apply M_bind_Ok in H1 as (bt & s1 & H2 & H1). apply lift_Ok in H2 as [H2 ->].
  apply NewDecCoinFromDec_Ok in H2 as (_ & _ & ->).
  apply M_bind_Ok in H1 as (tk & s1 & H2 & H1). apply GetPoolTokenInfo_Ok in H2 as [-> ->].
  apply M_bind_Ok in H1 as ([base liq] & s1 & H2 & H1).
  apply addLiquidityAmounts_Ok in H2 as [-> Hd].
  apply M_bind_Ok in H1 as (? & s1 & H2 & H1). apply guard_not_Ok in H2 as [Hmax ->].
  apply M_bind_Ok in H1 as (? & s1 & H2 & H1). apply guard_not_Ok in H2 as [Hmin ->].
  apply M_bind_Ok in H1 as (? & s1 & H2 & H1). apply wrapErr_Ok, on_supply_Ok in H2 as (c1 & H2 & ->).
  apply law_AccountToModule in H2 as (m & Hm & K1).
  apply M_bind_Ok in H1 as (q & s1 & H2 & H1). apply lift_Ok in H2 as [H2 ->].
  apply DecCoin_Add_Ok in H2 as (E1 & -> & _).
  apply M_bind_Ok in H1 as (b & s1 & H2 & H1). apply lift_Ok in H2 as [H2 ->].
  apply DecCoin_Add_Ok in H2 as (E2 & -> & _).
  apply M_bind_Ok in H1 as (? & s1 & H2 & H1). apply modify_Ok in H2 as ->.
  apply M_bind_Ok in H1 as (pc & s1 & H2 & H1). apply lift_Ok in H2 as [H2 ->].
  apply NewDecCoinFromDec_Ok in H2 as (_ & _ & ->).
  apply wrapErr_Ok in H1. unfold MintPoolCoinsToUser in H1.
  apply M_bind_Ok in H1 as (? & s1 & H2 & H1). apply wrapErr_Ok, on_supply_Ok in H2 as (c2 & H2 & ->).
  apply on_supply_Ok in H1 as (c3 & H1 & ->). apply law_MintCoins in H2 as (m2 & Hm2 & K2).
  apply law_ModuleToAccount in H1 as (Hb & m3 & Hm3 & K3).
  rewrite Hm in Hm2, Hm3. injection Hm2 as <-. injection Hm3 as <-.
  unfold Dec_GT, Dec_LT in *. bool_prop.
  exists p, base, liq, m, c1, c2. split_and!; done.
Qed.

Lemma handleMsgRemoveLiquidity_Ok t msg (s s' : SwapState S) u :
  handleMsgRemoveLiquidity t msg s = (Ok u, s') →
  ∃ p base quote modaddr c1 c2,
  sw_pairs s !! MsgRemoveLiquidity_pair msg = Some p ∧ t ≤ Mr_Deadline msg ∧
  let T := ck_supply (sw_coins s) (PoolTokenName p) in
  Mr_Liquidity msg ≤ T ∧ T ≠ 0 ∧
  base = Z.quot (Amount (BasePooledCoin p) * Mr_Liquidity msg) T ∧
  quote = Z.quot (Amount (QuotePooledCoin p) * Mr_Liquidity msg) T ∧
  0 ≤ base ≤ Amount (BasePooledCoin p) ∧ 0 ≤ quote ≤ Amount (QuotePooledCoin p) ∧
  Amount (Mr_MinBaseAmount msg) ≤ base ∧ Amount (Mr_MinQuoteAmount msg) ≤ quote ∧
  ck_modaddr SwapModuleName = Some modaddr ∧ ck_Blacklisted (Mr_Sender msg) = false ∧
  kmove (sw_coins s) c1 modaddr (Mr_Sender msg)
    (coinSort [mkDecCoin (Denom (BasePooledCoin p)) base;
               mkDecCoin (Denom (QuotePooledCoin p)) quote]) ∧
  kmove c1 c2 (Mr_Sender msg) modaddr [mkDecCoin (PoolTokenName p) (Mr_Liquidity msg)] ∧
  kburn c2 (sw_coins s') modaddr [mkDecCoin (PoolTokenName p) (Mr_Liquidity msg)] ∧
  sw_feeRate s' = sw_feeRate s ∧ ts_tokens (sw_token s') = ts_tokens (sw_token s) ∧
  sw_pairs s' = <[MsgRemoveLiquidity_pair msg :=
    mkPair (mkDecCoin (Denom (QuotePooledCoin p)) (Amount (QuotePooledCoin p) - quote))
           (mkDecCoin (Denom (BasePooledCoin p)) (Amount (BasePooledCoin p) - base))
           (PoolTokenName p)]> (sw_pairs s).
Proof.
  unfold handleMsgRemoveLiquidity. intros H1.
  apply M_bind_Ok in H1 as (? & s1 & H2 & H1). apply guard_not_Ok in H2 as [Ht ->].
  apply M_bind_Ok in H1 as (p & s1 & H2 & H1). apply GetSwapTokenPair_Ok in H2 as [Hp ->].
  apply M_bind_Ok in H1 as (T & s1 & H2 & H1). apply GetPoolTokenAmount_Ok in H2 as [-> ->].
  apply M_bind_Ok in H1 as (? & s1 & H2 & H1). apply guard_not_Ok in H2 as [Hle ->].
  apply M_bind_Ok in H1 as (bd & s1 & H2 & H1). apply lift_Ok in H2 as [H2 ->].
  apply MulAndQuo_Ok in H2 as (HT & Hbd & _).
  apply M_bind_Ok in H1 as (qd & s1 & H2 & H1). apply lift_Ok in H2 as [H2 ->].
  apply MulAndQuo_Ok in H2 as (_ & Hqd & _).
  apply M_bind_Ok in H1 as (ba & s1 & H2 & H1). apply lift_Ok in H2 as [H2 ->].
  apply NewDecCoinFromDec_Ok in H2 as (_ & Hb0 & ->).
  apply M_bind_Ok in H1 as (qa & s1 & H2 & H1). apply lift_Ok in H2 as [H2 ->].
  apply NewDecCoinFromDec_Ok in H2 as (_ & Hq0 & ->).
  apply M_bind_Ok in H1 as (lt & s1 & H2 & H1). apply lift_Ok in H2 as [H2 ->].
  apply M_bind_Ok in H1 as (? & s1 & H3 & H1). apply guard_not_Ok in H3 as [-> ->].
  apply M_bind_Ok in H1 as (lt & s1 & H3 & H1). apply lift_Ok in H3 as [H3 ->].
  apply M_bind_Ok in H1 as (? & s1 & H4 & H1). apply guard_not_Ok in H4 as [-> ->].
  apply M_bind_Ok in H1 as (? & s1 & H4 & H1). apply wrapErr_Ok, on_supply_Ok in H4 as (c1 & H4 & ->).
  apply law_ModuleToAccount in H4 as (Hbl & m & Hm & K1).
  apply M_bind_Ok in H1 as (q & s1 & H4 & H1). apply lift_Ok in H4 as [H4 ->].
  apply DecCoin_Sub_Ok in H4 as (_ & -> & Hq1).
  apply M_bind_Ok in H1 as (b & s1 & H4 & H1). apply lift_Ok in H4 as [H4 ->].
  apply DecCoin_Sub_Ok in H4 as (_ & -> & Hb1).
  apply M_bind_Ok in H1 as (? & s1 & H4 & H1). apply modify_Ok in H4 as ->.
  apply M_bind_Ok in H1 as (pc & s1 & H4 & H1). apply lift_Ok in H4 as [H4 ->].
  apply NewDecCoinFromDec_Ok in H4 as (_ & _ & ->).
  apply wrapErr_Ok in H1. unfold BurnPoolCoinsFromUser in H1.
  apply M_bind_Ok in H1 as (? & s1 & H4 & H1). apply wrapErr_Ok, on_supply_Ok in H4 as (c2 & H4 & ->).
  apply on_supply_Ok in H1 as (c3 & H1 & ->). apply law_AccountToModule in H4 as (m2 & Hm2 & K2).
  apply law_BurnCoins in H1 as (m3 & Hm3 & K3).
  rewrite Hm in Hm2, Hm3. injection Hm2 as <-. injection Hm3 as <-.
  unfold DecCoin_IsLT, sameDenom, Dec_LT in *. cbn [Denom Amount] in *.
  destruct (String.eqb _ _) in H2; [|done]. destruct (String.eqb _ _) in H3; [|done].
  injection H2 as H2. injection H3 as H3. bool_prop.
  exists p, bd, qd, m, c1, c2. cbv zeta. split_and!; done.
Qed.

(** A direct swap: it runs [swapTokenNativeToken] on the stored pair with
    the price of the formula, at least the minimum. *)
Lemma swapToken_Ok t msg (s s' : SwapState S) u :
  swapToken t msg s = (Ok u, s') →
  ∃ p tokenBuy, sw_pairs s !! MsgTokenToToken_pair msg = Some p ∧ t ≤ Mt_Deadline msg ∧
  Amount (BasePooledCoin p) ≠ 0 ∧ Amount (QuotePooledCoin p) ≠ 0 ∧
  CalculateTokenToBuy p (Mt_SoldTokenAmount msg) (Denom (Mt_MinBoughtTokenAmount msg))
    (sw_feeRate s) = Ok tokenBuy ∧
  Amount tokenBuy ≠ 0 ∧ Amount (Mt_MinBoughtTokenAmount msg) ≤ Amount tokenBuy ∧
  swapTokenNativeToken p tokenBuy msg s = (Ok u, s').
Proof.
  unfold swapToken, checkSender, checkReserves. intros H1.
  apply M_bind_Ok in H1 as (? & s1 & H2 & H1).
  apply M_bind_Ok in H2 as (c & s2 & H3 & H2). apply wrapErr_Ok, lift_Ok in H2 as [_ ->].
  assert (s2 = s) as ->.
  { apply zoom_Ok in H3 as (ts & H3 & ->). apply on_coins_Ok in H3 as (cx & H3 & ->).
    apply law_GetCoins in H3 as (-> & _). by destruct s as [[] ? ?]. }
  apply M_bind_Ok in H1 as (? & s1 & H2 & H1). apply guard_not_Ok in H2 as [Ht ->].
  apply M_bind_Ok in H1 as (p & s1 & H2 & H1). apply GetSwapTokenPair_Ok in H2 as [Hp ->].
  apply M_bind_Ok in H1 as (? & s1 & H2 & H1). apply guard_not_Ok in H2 as [Hz ->].
  apply M_bind_Ok in H1 as (f & s1 & H2 & H1). apply gets_Ok in H2 as [-> ->].
  apply M_bind_Ok in H1 as (tb & s1 & H2 & H1). apply lift_Ok in H2 as [H2 ->].
  apply M_bind_Ok in H1 as (? & s1 & H4 & H1). apply guard_not_Ok in H4 as [Hb ->].
  apply M_bind_Ok in H1 as (? & s1 & H4 & H1). apply guard_not_Ok in H4 as [Hmin ->].
  apply orb_false_iff in Hz as [Hz1 Hz2]. rewrite DecCoin_IsZero_eq in *. unfold Dec_LT in *.
  bool_prop. exists p, tb. split_and!; done.
Qed.

(** Both reserves are there, as [checkReserves] asks. *)
Definition has_reserves (p : SwapTokenPair) : Prop :=
  Amount (BasePooledCoin p) ≠ 0 ∧ Amount (QuotePooledCoin p) ≠ 0.

(** A routed swap: two steps over the pools with the native token, the second
    one on the pair read before the first. *)
Lemma swapTokenByRouter_Ok t msg (s s' : SwapState S) u :
  swapTokenByRouter t msg s = (Ok u, s') →
  ∃ p1 p2 native tokenBuy s1 u1,
  sw_pairs s !! GetSwapTokenPairName (Denom (Mt_SoldTokenAmount msg)) DefaultBondDenom = Some p1 ∧
  sw_pairs s !! GetSwapTokenPairName (Denom (Mt_MinBoughtTokenAmount msg)) DefaultBondDenom
    = Some p2 ∧ has_reserves p1 ∧ has_reserves p2 ∧
  CalculateTokenToBuy p1 (Mt_SoldTokenAmount msg) DefaultBondDenom (sw_feeRate s) = Ok native ∧
  CalculateTokenToBuy p2 native (Denom (Mt_MinBoughtTokenAmount msg)) (sw_feeRate s)
    = Ok tokenBuy ∧
  Amount native ≠ 0 ∧ Amount tokenBuy ≠ 0 ∧
  Amount (Mt_MinBoughtTokenAmount msg) ≤ Amount tokenBuy ∧
  swapTokenNativeToken p1 native (set_MinBought msg (mkDecCoin DefaultBondDenom 0)) s
    = (Ok u1, s1) ∧
  swapTokenNativeToken p2 tokenBuy (set_Sold msg native) s1 = (Ok u, s').
Proof.
  unfold swapTokenByRouter, checkSender, checkReserves. intros H1.
  apply M_bind_Ok in H1 as (? & s1 & H2 & H1). apply guard_not_Ok in H2 as [Ht ->].
  apply M_bind_Ok in H1 as (? & s1 & H2 & H1).
  apply M_bind_Ok in H2 as (c & s2 & H3 & H2). apply wrapErr_Ok, lift_Ok in H2 as [_ ->].
  assert (s2 = s) as ->.
  { apply zoom_Ok in H3 as (ts & H3 & ->). apply on_coins_Ok in H3 as (cx & H3 & ->).
    apply law_GetCoins in H3 as (-> & _). by destruct s as [[] ? ?]. }
  apply M_bind_Ok in H1 as (p1 & s1 & H2 & H1). apply GetSwapTokenPair_Ok in H2 as [Hp1 ->].
  apply M_bind_Ok in H1 as (? & s1 & H2 & H1). apply guard_not_Ok in H2 as [[R1 R2]%orb_false_iff ->].
  apply M_bind_Ok in H1 as (p2 & s1 & H2 & H1). apply GetSwapTokenPair_Ok in H2 as [Hp2 ->].
  apply M_bind_Ok in H1 as (? & s1 & H2 & H1). apply guard_not_Ok in H2 as [[R3 R4]%orb_false_iff ->].
  apply M_bind_Ok in H1 as (na & s1 & H2 & H1). apply lift_Ok in H2 as [H2 ->].
  apply NewDecCoinFromDec_Ok in H2 as (_ & _ & ->).
  apply M_bind_Ok in H1 as (f & s1 & H2 & H1). apply gets_Ok in H2 as [-> ->].
  apply M_bind_Ok in H1 as (tn & s1 & H2 & H1). apply lift_Ok in H2 as [H2 ->].
  apply M_bind_Ok in H1 as (? & s1 & H4 & H1). apply guard_not_Ok in H4 as [Hn ->].
  apply M_bind_Ok in H1 as (tb & s1 & H4 & H1). apply lift_Ok in H4 as [H4 ->].
  apply M_bind_Ok in H1 as (? & s1 & H5 & H1). apply guard_not_Ok in H5 as [Hb ->].
  apply M_bind_Ok in H1 as (? & s1 & H5 & H1). apply guard_not_Ok in H5 as [Hmin ->].
  apply M_bind_Ok in H1 as (u1 & s1 & H5 & H1).
  rewrite DecCoin_IsZero_eq in *. unfold Dec_LT in *. bool_prop.
  exists p1, p2, tn, tb, s1, u1. split_and!; done.
Qed.

Context (modaddr : string) (Hmod : ck_modaddr SwapModuleName = Some modaddr)
        (Hblack : ck_Blacklisted modaddr = true).

Lemma not_module a : ck_Blacklisted a = false → a ≠ modaddr.
Proof using Hblack. congruence. Qed.

Lemma native_surplus p tokenBuy msg (s s' : SwapState S) u d :
  swapTokenNativeToken p tokenBuy msg s = (Ok u, s') →
  sw_pairs s !! MsgTokenToToken_pair msg = Some p → Mt_Sender msg ≠ modaddr →
  pool_surplus modaddr s' d = pool_surplus modaddr s d.
Proof using All.
  intros (m & c1 & q & Hm & Hb & K1 & K2 & Hp & _ & _ & Ht)%swapTokenNativeToken_Ok Hpair Hs.
  rewrite Hmod in Hm. injection Hm as <-. unfold pool_surplus.
  rewrite (kmove_out _ _ _ _ _ d K2) by (by apply not_module).
  rewrite (kmove_in _ _ _ _ _ d K1) by done.
  unfold pooled at 1. rewrite Hp, (pooled_insert s _ p) by done. rewrite Ht. lia.
Qed.

Lemma deposit_nonneg p mx q T base liq :
  deposit_amounts p mx q T base liq → 0 < mx → 0 < q → 0 ≤ base.
Proof using.
  intros [(_ & _ & -> & _)|(HB & HQ & _ & _ & _ & ->)] Hmx Hq; [lia|].
  destruct (Z.eqb_spec (Z.quot (q * Amount (BasePooledCoin p)) (Amount (QuotePooledCoin p))) 0);
    [lia|]. apply quot_nonneg; nia.
Qed.

Lemma add_valid msg :
  MsgAddLiquidity_ValidateBasic msg = Ok () →
  0 < Amount (Ma_MaxBaseAmount msg) ∧ 0 < Amount (Ma_QuoteAmount msg).
Proof using.
  unfold MsgAddLiquidity_ValidateBasic. rewrite !DecCoin_IsPositive_eq. intros H1.
  do 2 (match type of H1 with (if ?c then _ else _) = _ => destruct c; [done|] end).
  destruct (0 <? Amount (Ma_MaxBaseAmount msg)) eqn:E1; [|done].
  destruct (0 <? Amount (Ma_QuoteAmount msg)) eqn:E2; [|done]. bool_prop. done.
Qed.

Lemma add_surplus t msg (s s' : SwapState S) u d :
  handleMsgAddLiquidity t msg s = (Ok u, s') → MsgAddLiquidity_ValidateBasic msg = Ok () →
  Ma_Sender msg ≠ modaddr → pool_surplus modaddr s' d = pool_surplus modaddr s d.
Proof using All.
  intros (p & base & liq & m & c1 & c2 & Hp & _ & _ & _ & Hd & Hm & _ & K1 & K2 & K3 & E1 & E2
          & _ & _ & Hps)%handleMsgAddLiquidity_Ok [V1 V2]%add_valid Hs.
  rewrite Hmod in Hm. injection Hm as <-. unfold pool_surplus.
  rewrite (kmove_out _ _ _ _ _ d K3), (kt_balance _ _ _ _ K2) by done.
  rewrite (kmove_in _ _ _ _ _ d K1) by done. unfold at_addr. rewrite decide_True by done.
  unfold pooled at 1. rewrite Hps, (pooled_insert s _ p) by done.
  rewrite coinSort_amount.
  2: { pose proof (deposit_nonneg _ _ _ _ _ _ Hd V1 V2). repeat constructor; cbn; lia. }
  unfold pair_total. cbn [QuotePooledCoin BasePooledCoin].
  rewrite !amount_of_cons, amount_of_nil. cbn [Denom Amount]. rewrite <- E1, <- E2.
  destruct (String.eqb (Denom (QuotePooledCoin p)) d), (String.eqb (Denom (BasePooledCoin p)) d);
    lia.
Qed.

Lemma remove_surplus t msg (s s' : SwapState S) u d :
  handleMsgRemoveLiquidity t msg s = (Ok u, s') → Mr_Sender msg ≠ modaddr →
  pool_surplus modaddr s' d = pool_surplus modaddr s d.
Proof using All.
  intros (p & base & quote & m & c1 & c2 & Hp & _ & _ & _ & _ & _ & Hb & Hq & _ & _ & Hm & _
          & K1 & K2 & K3 & _ & _ & Hps)%handleMsgRemoveLiquidity_Ok Hs.
  rewrite Hmod in Hm. injection Hm as <-. unfold pool_surplus.
  rewrite (kb_balance _ _ _ _ K3), (kmove_in _ _ _ _ _ d K2), (kmove_out _ _ _ _ _ d K1) by done.
  unfold at_addr. rewrite decide_True by done.
  unfold pooled at 1. rewrite Hps, (pooled_insert s _ p) by done.
  rewrite coinSort_amount by (repeat constructor; cbn; lia).
  unfold pair_total. cbn [QuotePooledCoin BasePooledCoin].
  rewrite !amount_of_cons, amount_of_nil. cbn [Denom Amount].
  destruct (String.eqb (Denom (QuotePooledCoin p)) d), (String.eqb (Denom (BasePooledCoin p)) d);
    lia.
Qed.

End Handlers.

(** ** Runs of the module *)

Inductive swap_msg :=
  | SCreate (msg : MsgCreateExchange)
  | SAdd (msg : MsgAddLiquidity)
  | SRemove (msg : MsgRemoveLiquidity)
  | SSwap (msg : MsgTokenToToken).

Definition swap_validate (m : swap_msg) : outcome unit :=
  match m with
  | SCreate msg => MsgCreateExchange_ValidateBasic msg
  | SAdd msg => MsgAddLiquidity_ValidateBasic msg
  | SRemove msg => MsgRemoveLiquidity_ValidateBasic msg
  | SSwap msg => MsgTokenToToken_ValidateBasic msg
  end.
Definition swap_sender (m : swap_msg) : string :=
  match m with
  | SCreate msg => Mc_Sender msg
  | SAdd msg => Ma_Sender msg
  | SRemove msg => Mr_Sender msg
  | SSwap msg => Mt_Sender msg
  end.

Section SwapRuns.
Context {S : Type} `{CoinKeeperLaws S}.

(** [NewHandler]. *)
Definition swap_exec (t : Z) (m : swap_msg) : M (SwapState S) unit :=
  match m with
  | SCreate msg => handleMsgCreateExchange msg
  | SAdd msg => handleMsgAddLiquidity t msg
  | SRemove msg => handleMsgRemoveLiquidity t msg
  | SSwap msg => handleMsgTokenToToken t msg
  end.

(** A message is checked, then handled; a failure leaves the state. *)
Definition swap_deliver (s : SwapState S) (tm : Z * swap_msg) : SwapState S :=
  match swap_validate (snd tm) with
  | Ok _ => deliver (swap_exec (fst tm) (snd tm)) s
  | _ => s
  end.

Lemma CalculateTokenToBuy_denom p c d f b :
  CalculateTokenToBuy p c d f = Ok b → Denom b = d ∧ 0 ≤ Amount b.
Proof.
  unfold CalculateTokenToBuy. intros H1. destruct (if decide _ then _ else _) as [x y].
  apply outcome_bind_Ok in H1 as (a & _ & H1). by apply NewDecCoinFromDec_Ok in H1 as (_ & ? & ->).
Qed.

Lemma create_surplus modaddr msg (s s' : SwapState S) u d :
  handleMsgCreateExchange msg s = (Ok u, s') →
  pool_surplus modaddr s' d = pool_surplus modaddr s d.
Proof.
  assert (∀ n u (s s' : SwapState S), IsTokenExist n s = (Ok u, s') → s' = s) as Hte.
  { clear. intros n u s s' H1. unfold IsTokenExist in H1.
    apply M_bind_Ok in H1 as (? & s1 & H2 & H1). apply zoom_Ok in H2 as (t & H2 & ->).
    apply gets_Ok in H2 as [-> ->].
    apply M_bind_Ok in H1 as (? & s1 & H2 & H1). apply guard_not_Ok in H2 as [_ ->].
    apply M_bind_Ok in H1 as (? & s1 & H2 & H1). apply zoom_Ok in H2 as (t & H2 & ->).
    apply gets_Ok in H2 as [-> ->]. apply guard_not_Ok in H1 as [_ ->]. by destruct s. }
  unfold handleMsgCreateExchange. intros H1.
  apply M_bind_Ok in H1 as (? & s1 & H2%Hte & H1). subst s1.
  apply M_bind_Ok in H1 as (? & s1 & H2%Hte & H1). subst s1.
  apply M_bind_Ok in H1 as (o & s1 & H2 & H1). apply gets_Ok in H2 as [-> ->].
  apply M_bind_Ok in H1 as (? & s1 & H2 & H1). apply guard_not_Ok in H2 as [Hn ->].
  apply M_bind_Ok in H1 as (? & s1 & H2 & H1). apply zoom_Ok in H2 as (t & H2 & ->).
  apply gets_Ok in H2 as [-> ->].
  apply M_bind_Ok in H1 as (? & s1 & H2 & H1). apply guard_not_Ok in H2 as [_ ->].
  apply M_bind_Ok in H1 as (? & s1 & H2 & H1). unfold NewPoolToken in H2.
  apply M_bind_Ok in H2 as (? & s2 & H3 & H2). apply lift_Ok in H3 as [_ ->].
  apply zoom_Ok in H2 as (t & H2 & ->). apply modify_Ok in H2 as ->.
  apply M_bind_Ok in H1 as (p & s1 & H2 & H1). apply lift_Ok in H2 as [H2 ->].
  apply modify_Ok in H1 as ->. unfold pool_surplus, pooled, sw_coins.
  cbn [sw_pairs sw_token ts_coins]. rewrite map_sum_insert.
  destruct (sw_pairs s !! MsgCreateExchange_pair msg) eqn:Hp.
  { by rewrite bool_decide_true in Hn by eauto. }
  unfold NewSwapPair in H2. destruct (GetBaseQuoteTokenName _ _) as [b q].
  apply outcome_bind_Ok in H2 as (c1 & H3 & H2). apply NewDecCoinFromDec_Ok in H3 as (_ & _ & ->).
  apply outcome_bind_Ok in H2 as (c2 & H3 & H2). apply NewDecCoinFromDec_Ok in H3 as (_ & _ & ->).
  injection H2 as <-. unfold pair_total. cbn [QuotePooledCoin BasePooledCoin at_key].
  rewrite !amount_of_cons, amount_of_nil. cbn [Denom Amount]. change ZeroDec with 0.
  unfold ts_set_tokens. cbn [ts_coins]. destruct (String.eqb q d), (String.eqb b d); lia.
Qed.

(** The pools of the two steps of a routed swap are different ones. *)
Lemma router_names msg native :
  Denom native = DefaultBondDenom → MsgTokenToToken_ValidateBasic msg = Ok () →
  let one := GetSwapTokenPairName (Denom (Mt_SoldTokenAmount msg)) DefaultBondDenom in
  let two := GetSwapTokenPairName (Denom (Mt_MinBoughtTokenAmount msg)) DefaultBondDenom in
  MsgTokenToToken_pair (set_MinBought msg (mkDecCoin DefaultBondDenom 0)) = one ∧
  MsgTokenToToken_pair (set_Sold msg native) = two ∧ one ≠ two.
Proof.
  intros Dn (U1 & U2 & Hne)%swap_denoms one two.
  split; [apply GetSwapTokenPairName_comm|]. split.
  { unfold MsgTokenToToken_pair. cbn [set_Sold Mt_SoldTokenAmount Mt_MinBoughtTokenAmount].
    by rewrite Dn. }
  intros E. apply pair_name_inj in E as [?|[? ?]]; [congruence..|done|done|].
  unfold no_underscore. by repeat constructor.
Qed.

Lemma router_surplus modaddr t msg (s s' : SwapState S) u d :
  ck_modaddr SwapModuleName = Some modaddr → ck_Blacklisted modaddr = true →
  swapTokenByRouter t msg s = (Ok u, s') → MsgTokenToToken_ValidateBasic msg = Ok () →
  Mt_Sender msg ≠ modaddr → pool_surplus modaddr s' d = pool_surplus modaddr s d.
Proof.
  intros Hm Hb (p1 & p2 & nat & tb & s1 & u1 & Hp1 & Hp2 & _ & _ & C1 & C2 & _ & _ & _
    & N1 & N2)
    %swapTokenByRouter_Ok V Hs.
  apply CalculateTokenToBuy_denom in C1 as [Dn _].
  destruct (router_names msg nat Dn V) as (E1 & E2 & E3).
  rewrite (native_surplus modaddr Hm Hb _ _ _ _ _ _ d N2).
  - apply (native_surplus modaddr Hm Hb _ _ _ _ _ _ d N1); [by rewrite E1|done].
  - apply swapTokenNativeToken_Ok in N1 as (_ & _ & q & _ & _ & _ & _ & Hps & _).
    by rewrite Hps, E1, E2, lookup_insert_ne.
  - done.
Qed.

Lemma exec_surplus modaddr t m (s s' : SwapState S) u d :
  ck_modaddr SwapModuleName = Some modaddr → ck_Blacklisted modaddr = true →
  swap_exec t m s = (Ok u, s') → swap_validate m = Ok () → swap_sender m ≠ modaddr →
  pool_surplus modaddr s' d = pool_surplus modaddr s d.
Proof.
  intros Hm Hb H1 V Hs. destruct m as [msg|msg|msg|msg]; cbn in *.
  - by eapply create_surplus.
  - by eapply add_surplus.
  - by eapply remove_surplus.
  - unfold handleMsgTokenToToken in H1. apply M_bind_Ok in H1 as (o & s1 & H2 & H1).
    apply gets_Ok in H2 as [-> ->].
    destruct (sw_pairs s !! MsgTokenToToken_pair msg) as [p|] eqn:Hp.
    + apply swapToken_Ok in H1 as (p' & tb & Hp' & _ & _ & _ & _ & _ & _ & H1).
      by eapply (native_surplus modaddr Hm Hb p' tb msg).
    + by eapply router_surplus.
Qed.

(** C1: the pools are always backed: whatever sequence of create, add, remove
    and swap messages is delivered (failing ones included, senders other than
    the module itself), the difference between what the module account holds
    and what the pair store records stays the same for every denomination.
    Pools that start fully backed stay fully backed. *)
Theorem swap_run_backed modaddr msgs (s : SwapState S) d :
  ck_modaddr SwapModuleName = Some modaddr → ck_Blacklisted modaddr = true →
  Forall (λ tm, swap_sender (snd tm) ≠ modaddr) msgs →
  pool_surplus modaddr (foldl swap_deliver s msgs) d = pool_surplus modaddr s d.
Proof.
  intros Hm Hb Hall. revert s. induction Hall as [|[t m] msgs Hs _ IH]; intros s; [done|].
  cbn [foldl]. rewrite IH. unfold swap_deliver, deliver. cbn [fst snd] in *.
  destruct (swap_validate m) as [[]|?|?] eqn:V; [|done..].
  destruct (swap_exec t m s) as [[u|e|p] s'] eqn:E; [|done..]. by eapply exec_surplus.
Qed.

End SwapRuns.

(** ** Trades *)

Section SwapTrades.
Context {S : Type} `{CoinKeeperLaws S}.

Lemma swap_valid_names msg :
  MsgTokenToToken_ValidateBasic msg = Ok () →
  ValidateSwapAmountName (Denom (Mt_SoldTokenAmount msg)) = Ok () ∧
  ValidateSwapAmountName (Denom (Mt_MinBoughtTokenAmount msg)) = Ok () ∧
  0 < Amount (Mt_SoldTokenAmount msg).
Proof.
  unfold MsgTokenToToken_ValidateBasic. intros H1.
  destruct (GetBaseQuoteTokenName _ _) as [b q] eqn:E1.
  rewrite DecCoin_IsPositive_eq in H1. destruct (Z.ltb_spec 0 (Amount (Mt_SoldTokenAmount msg)));
    cbn [negb] in H1.
  2: by do 2 (match type of H1 with (if ?c then _ else _) = _ => destruct c; [done|] end).
  repeat match type of H1 with (if ?c then _ else _) = _ => destruct c; [done|] end.
  unfold ValidateBaseAndQuoteAmount in H1. destruct (String.compare b q) eqn:Hc; try done.
  apply outcome_bind_Ok in H1 as ([] & N1 & N2).
  destruct (GetBaseQuoteTokenName_cases (Denom (Mt_SoldTokenAmount msg))
    (Denom (Mt_MinBoughtTokenAmount msg))) as [E'|E']; rewrite E' in E1;
    injection E1 as <- <-; done.
Qed.

(** The two amounts of the pair after a step of a swap. *)
Lemma swapTokenNativeToken_pair p tokenBuy msg (s s' : SwapState S) u :
  swapTokenNativeToken p tokenBuy msg s = (Ok u, s') →
  ∃ q', sw_pairs s' = <[MsgTokenToToken_pair msg := q']> (sw_pairs s) ∧
  let sold := Amount (Mt_SoldTokenAmount msg) in
  if decide (str_lt (Denom (Mt_MinBoughtTokenAmount msg)) (Denom (Mt_SoldTokenAmount msg)))
  then Amount (QuotePooledCoin q') = Amount (QuotePooledCoin p) + sold ∧
       Amount (BasePooledCoin q') = Amount (BasePooledCoin p) - Amount tokenBuy
  else Amount (QuotePooledCoin q') = Amount (QuotePooledCoin p) - Amount tokenBuy ∧
       Amount (BasePooledCoin q') = Amount (BasePooledCoin p) + sold.
Proof.
  unfold swapTokenNativeToken. intros H1.
  apply M_bind_Ok in H1 as (? & s1 & H2 & H1). apply wrapErr_Ok, on_supply_Ok in H2 as (c1 & H2 & ->).
  apply M_bind_Ok in H1 as (? & s1 & H3 & H1). apply wrapErr_Ok, on_supply_Ok in H3 as (c2 & H3 & ->).
  apply M_bind_Ok in H1 as ([q b] & s1 & H4 & H1). apply lift_Ok in H4 as [H4 ->].
  apply modify_Ok in H1 as ->. exists (mkPair q b (PoolTokenName p)). split; [done|].
  cbv zeta. case_decide.
  - apply outcome_bind_Ok in H4 as (q1 & A1%DecCoin_Add_Ok & H4).
    apply outcome_bind_Ok in H4 as (b1 & B1%DecCoin_Sub_Ok & H4). injection H4 as -> ->.
    by destruct A1 as (E1 & -> & _), B1 as (E2 & -> & _).
  - apply outcome_bind_Ok in H4 as (q1 & A1%DecCoin_Sub_Ok & H4).
    apply outcome_bind_Ok in H4 as (b1 & B1%DecCoin_Add_Ok & H4). injection H4 as -> ->.
    by destruct A1 as (E1 & -> & _), B1 as (E2 & -> & _).
Qed.

(** The invariant of a pool: both reserves positive, their product at least
    that of an earlier state. *)
Definition pool_grows (p q : SwapTokenPair) : Prop :=
  0 < Amount (QuotePooledCoin q) ∧ 0 < Amount (BasePooledCoin q) ∧
  Amount (QuotePooledCoin p) * Amount (BasePooledCoin p)
    ≤ Amount (QuotePooledCoin q) * Amount (BasePooledCoin q).

Lemma native_product p tokenBuy msg f (s s' : SwapState S) u :
  swapTokenNativeToken p tokenBuy msg s = (Ok u, s') →
  CalculateTokenToBuy p (Mt_SoldTokenAmount msg) (Denom (Mt_MinBoughtTokenAmount msg)) f
    = Ok tokenBuy →
  0 ≤ f ≤ OneDec → 0 ≤ Amount (Mt_SoldTokenAmount msg) →
  0 < Amount (QuotePooledCoin p) → 0 < Amount (BasePooledCoin p) →
  ∃ q', sw_pairs s' = <[MsgTokenToToken_pair msg := q']> (sw_pairs s) ∧ pool_grows p q'.
Proof.
  intros (q' & Hq & Ha)%swapTokenNativeToken_pair HC Hf Hs HQ HB. exists q'. split; [done|].
  unfold CalculateTokenToBuy in HC. cbv zeta in Ha. unfold pool_grows.
  pose proof (input_with_fee_bounds (Amount (Mt_SoldTokenAmount msg)) f Hs Hf) as Hw.
  case_decide; destruct Ha as [-> ->]; apply outcome_bind_Ok in HC as (a & Hp & HC);
    apply GetInputPrice_Ok in Hp as [_ Hp]; apply NewDecCoinFromDec_Ok in HC as (_ & _ & ->);
    cbn [Amount]; apply (price_bound _ _ _ _ _ Hw) in Hp as [? ?]; try done; nia.
Qed.

Lemma native_recipient modaddr p tokenBuy msg (s s' : SwapState S) u d :
  swapTokenNativeToken p tokenBuy msg s = (Ok u, s') →
  ck_modaddr SwapModuleName = Some modaddr → ck_Blacklisted modaddr = true →
  d ≠ Denom (Mt_SoldTokenAmount msg) →
  ck_balance (sw_coins s') (Mt_Recipient msg) d
  = ck_balance (sw_coins s) (Mt_Recipient msg) d + amount_of [tokenBuy] d.
Proof.
  intros (m & c1 & q & Hm & Hb & K1 & K2 & _)%swapTokenNativeToken_Ok Hm' Hbl Hd.
  rewrite Hm' in Hm. injection Hm as <-. assert (Mt_Recipient msg ≠ modaddr) by congruence.
  rewrite (kmove_in _ _ _ _ _ d K2) by done. rewrite (km_balance _ _ _ _ _ K1).
  assert (amount_of [Mt_SoldTokenAmount msg] d = 0) as Hz.
  { rewrite amount_of_one. destruct (String.eqb_spec (Denom (Mt_SoldTokenAmount msg)) d); congruence. }
  unfold at_addr. rewrite Hz. repeat case_decide; lia.
Qed.

(** A pair that does not exist directly is routed only between two
    denominations other than the native one. *)
Lemma router_not_native msg p1 p2 (s : SwapState S) :
  sw_pairs s !! MsgTokenToToken_pair msg = None →
  sw_pairs s !! GetSwapTokenPairName (Denom (Mt_SoldTokenAmount msg)) DefaultBondDenom = Some p1 →
  sw_pairs s !! GetSwapTokenPairName (Denom (Mt_MinBoughtTokenAmount msg)) DefaultBondDenom
    = Some p2 →
  Denom (Mt_SoldTokenAmount msg) ≠ DefaultBondDenom ∧
  Denom (Mt_MinBoughtTokenAmount msg) ≠ DefaultBondDenom.
Proof.
  unfold MsgTokenToToken_pair. intros Hn H1 H2. split; intros E1.
  - rewrite E1 in Hn. congruence.
  - rewrite E1, GetSwapTokenPairName_comm in Hn. congruence.
Qed.

Lemma query_reserves (p : SwapTokenPair) (s : SwapState S) :
  Amount (BasePooledCoin p) ≠ 0 → Amount (QuotePooledCoin p) ≠ 0 →
  checkReserves p s = (Ok (), s).
Proof.
  intros H1 H2. unfold checkReserves. rewrite !DecCoin_IsZero_eq.
  destruct (Z.eqb_spec (Amount (BasePooledCoin p)) 0); [done|].
  by destruct (Z.eqb_spec (Amount (QuotePooledCoin p)) 0).
Qed.

(** A swap never shrinks a pool: after a successful swap message, direct
    or routed over the native token, every pool that had both reserves
    positive still has, and the product of its reserves is at least what it
    was, for any fee rate between 0 and 1. *)
Theorem swap_pools_grow t msg (s s' : SwapState S) u name p :
  handleMsgTokenToToken t msg s = (Ok u, s') → MsgTokenToToken_ValidateBasic msg = Ok () →
  0 ≤ sw_feeRate s ≤ OneDec →
  sw_pairs s !! name = Some p → 0 < Amount (QuotePooledCoin p) → 0 < Amount (BasePooledCoin p) →
  (∀ n q, sw_pairs s !! n = Some q →
     0 ≤ Amount (QuotePooledCoin q) ∧ 0 ≤ Amount (BasePooledCoin q)) →
  ∃ p', sw_pairs s' !! name = Some p' ∧ pool_grows p p'.
Proof.
  intros H1 V Hf Hname HQ HB Hall. pose proof (swap_valid_names _ V) as (_ & _ & Hs).
  assert (∀ n q (s1 : SwapState S), sw_pairs s1 = <[n := q]> (sw_pairs s) →
    (∀ r, sw_pairs s !! n = Some r → pool_grows r q) →
    ∃ p', sw_pairs s1 !! name = Some p' ∧ pool_grows p p') as Hone.
  { intros n q s1 -> Hg. destruct (decide (n = name)) as [->|].
    - exists q. rewrite lookup_insert, decide_True by done. eauto.
    - exists p. rewrite lookup_insert_ne by done. split; [done|]. by split_and!. }
  unfold handleMsgTokenToToken in H1. apply M_bind_Ok in H1 as (o & s1 & H2 & H1).
  apply gets_Ok in H2 as [-> ->].
  destruct (sw_pairs s !! MsgTokenToToken_pair msg) as [p0|] eqn:Hp.
  - apply swapToken_Ok in H1 as (p' & tb & Hp' & _ & Hb0 & Hq0 & HC & _ & _ & H1).
    destruct (Hall _ _ Hp'). rewrite Hp in Hp'. injection Hp' as <-.
    destruct (native_product _ _ _ _ _ _ _ H1 HC Hf) as (q & Hq & Hg); [lia..|].
    apply (Hone _ _ _ Hq). congruence.
  - apply swapTokenByRouter_Ok in H1
      as (p1 & p2 & nt & tb & s1 & u1 & Hp1 & Hp2 & [R1 R2] & [R3 R4] & C1 & C2 & _ & _ & _ & N1 & N2).
    destruct (router_not_native msg p1 p2 s Hp Hp1 Hp2) as [D1 D2].
    destruct (Hall _ _ Hp1), (Hall _ _ Hp2). destruct (CalculateTokenToBuy_denom _ _ _ _ _ C1).
    destruct (native_product _ _ _ _ _ _ _ N1 C1 Hf) as (q1 & Hq1 & Hg1); [cbn;lia..|].
    destruct (native_product _ _ _ _ _ _ _ N2 C2 Hf) as (q2 & Hq2 & Hg2); [cbn;lia..|].
    destruct (router_names msg nt) as (E1 & E2 & E3); [done|done|].
    rewrite E1 in Hq1. rewrite E2 in Hq2.
    destruct (decide (GetSwapTokenPairName (Denom (Mt_MinBoughtTokenAmount msg))
      DefaultBondDenom = name)) as [<-|Hn].
    + exists q2. rewrite Hq2, lookup_insert, decide_True by done. split; [done|]. congruence.
    + rewrite Hq2, lookup_insert_ne by done. apply (Hone _ _ _ Hq1). congruence.
Qed.

Lemma GetSwapTokenPair_run name p (s : SwapState S) :
  sw_pairs s !! name = Some p → GetSwapTokenPair name s = (Ok p, s).
Proof. intros Hp. unfold GetSwapTokenPair, mbind, M_bind, gets. by rewrite Hp. Qed.

Lemma amount_of_denom c d : Denom c = d → amount_of [c] d = Amount c.
Proof. intros <-. rewrite amount_of_one. by rewrite String.eqb_refl. Qed.
Lemma amount_of_other c d : Denom c ≠ d → amount_of [c] d = 0.
Proof. intros Hd. rewrite amount_of_one. by destruct (String.eqb_spec (Denom c) d). Qed.

(** C34: the quote is what a trader gets: when a valid swap message succeeds,
    [queryBuyAmount] asked before it returns an amount that is at least the
    minimum of the message, and the recipient's balance of the bought
    denomination grows by exactly that amount, on the direct and on the routed
    path. *)
Theorem swap_pays_quote modaddr t msg (s s' : SwapState S) u :
  ck_modaddr SwapModuleName = Some modaddr → ck_Blacklisted modaddr = true →
  MsgTokenToToken_ValidateBasic msg = Ok () → handleMsgTokenToToken t msg s = (Ok u, s') →
  let bought := Denom (Mt_MinBoughtTokenAmount msg) in
  ∃ out, queryBuyAmount bought (Mt_SoldTokenAmount msg) s = (Ok out, s) ∧
  Amount (Mt_MinBoughtTokenAmount msg) ≤ out ∧
  ck_balance (sw_coins s') (Mt_Recipient msg) bought
  = ck_balance (sw_coins s) (Mt_Recipient msg) bought + out.
Proof.
  intros Hm Hb V H1 bought. pose proof (swap_valid_names _ V) as (V1 & V2 & Hs).
  pose proof (swap_denoms _ V) as (_ & _ & Hne).
  unfold handleMsgTokenToToken in H1. apply M_bind_Ok in H1 as (o & s1 & H2 & H1).
  apply gets_Ok in H2 as [-> ->]. unfold queryBuyAmount. fold bought in V2 |- *.
  rewrite V2, V1. do 2 erewrite M_bind_run by reflexivity.
  do 2 (erewrite M_bind_run by (unfold gets; reflexivity)).
  rewrite GetSwapTokenPairName_comm.
  change (GetSwapTokenPairName bought (Denom (Mt_SoldTokenAmount msg)))
    with (MsgTokenToToken_pair msg).
  destruct (sw_pairs s !! MsgTokenToToken_pair msg) as [p|] eqn:Hp.
  - apply swapToken_Ok in H1 as (p' & tb & Hp' & _ & Hb0 & Hq0 & HC & _ & Hmin & H1).
    rewrite Hp in Hp'. injection Hp' as <-. exists (Amount tb).
    cbv beta iota. erewrite M_bind_run by by apply query_reserves.
    erewrite M_bind_run by (apply lift_Ok; split; [exact HC|reflexivity]).
    split; [done|]. split; [done|]. rewrite (native_recipient modaddr _ _ _ _ _ _ _ H1) by done.
    apply CalculateTokenToBuy_denom in HC as [Hd _]. by rewrite amount_of_denom.
  - apply swapTokenByRouter_Ok in H1
      as (p1 & p2 & nt & tb & s1 & u1 & Hp1 & Hp2 & [R1 R2] & [R3 R4] & C1 & C2 & _ & _ & Hmin & N1 & N2).
    destruct (router_not_native msg p1 p2 s Hp Hp1 Hp2) as [D1 D2]. exists (Amount tb).
    cbv beta iota. erewrite M_bind_run by exact (GetSwapTokenPair_run _ _ _ Hp1).
    erewrite M_bind_run by by apply query_reserves.
    erewrite M_bind_run by exact (GetSwapTokenPair_run _ _ _ Hp2).
    erewrite M_bind_run by by apply query_reserves.
    erewrite M_bind_run by (apply lift_Ok; split; [exact C1|reflexivity]).
    erewrite M_bind_run by (apply lift_Ok; split; [exact C2|reflexivity]).
    split; [done|]. split; [done|].
    apply CalculateTokenToBuy_denom in C1 as [Hd1 _], C2 as [Hd2 _].
    pose proof (native_recipient modaddr _ _ _ _ _ _ bought N2 Hm Hb) as B2.
    pose proof (native_recipient modaddr _ _ _ _ _ _ bought N1 Hm Hb) as B1.
    cbn [set_Sold set_MinBought Mt_SoldTokenAmount Mt_Recipient] in B1, B2.
    unfold bought in *. rewrite B2, B1, (amount_of_denom tb), (amount_of_other nt) by congruence.
    lia.
Qed.

(** A routed swap to somebody else takes the native token twice: the
    first step pays it to the recipient, the second takes it from the sender.
    The recipient keeps the native coins besides the bought ones, and the
    sender loses native coins that the message never mentions. *)
Theorem router_charges_sender modaddr t msg (s s' : SwapState S) u :
  ck_modaddr SwapModuleName = Some modaddr → ck_Blacklisted modaddr = true →
  MsgTokenToToken_ValidateBasic msg = Ok () →
  sw_pairs s !! MsgTokenToToken_pair msg = None →
  Mt_Sender msg ≠ Mt_Recipient msg → Mt_Sender msg ≠ modaddr →
  handleMsgTokenToToken t msg s = (Ok u, s') →
  ∃ native, 0 < native ∧
  ck_balance (sw_coins s') (Mt_Sender msg) DefaultBondDenom
  = ck_balance (sw_coins s) (Mt_Sender msg) DefaultBondDenom - native ∧
  ck_balance (sw_coins s') (Mt_Recipient msg) DefaultBondDenom
  = ck_balance (sw_coins s) (Mt_Recipient msg) DefaultBondDenom + native.
Proof.
  intros Hm Hb V Hp Hsr Hsm H1. unfold handleMsgTokenToToken in H1.
  apply M_bind_Ok in H1 as (o & s1 & H2 & H1). apply gets_Ok in H2 as [-> ->]. rewrite Hp in H1.
  apply swapTokenByRouter_Ok in H1
    as (p1 & p2 & nt & tb & s1 & u1 & Hp1 & Hp2 & _ & _ & C1 & C2 & Hnz & _ & _ & N1 & N2).
  destruct (router_not_native msg p1 p2 s Hp Hp1 Hp2) as [D1 D2].
  apply CalculateTokenToBuy_denom in C1 as [Hd1 Hnn], C2 as [Hd2 _].
  exists (Amount nt). split; [lia|].
  apply swapTokenNativeToken_Ok in N1 as (m1 & c1 & q1 & Hm1 & Hb1 & K1 & K2 & _).
  apply swapTokenNativeToken_Ok in N2 as (m2 & c2 & q2 & Hm2 & Hb2 & K3 & K4 & _).
  cbn [set_Sold set_MinBought Mt_SoldTokenAmount Mt_Recipient Mt_Sender] in *.
  rewrite Hm in Hm1, Hm2. injection Hm1 as <-. injection Hm2 as <-.
  assert (Mt_Recipient msg ≠ modaddr) by congruence.
  rewrite !(km_balance _ _ _ _ _ K4), !(km_balance _ _ _ _ _ K3), !(km_balance _ _ _ _ _ K2),
    !(km_balance _ _ _ _ _ K1). unfold at_addr.
  rewrite (amount_of_denom nt), (amount_of_other tb), (amount_of_other (Mt_SoldTokenAmount msg))
    by congruence.
  repeat case_decide; try congruence; lia.
Qed.

End SwapTrades.

(** ** Liquidity *)

Section SwapLiquidity.
Context {S : Type} `{CoinKeeperLaws S}.

(** A deposit into a pool with reserves mints at most the part of the shares
    that the deposit is of the quote reserve, and of the base reserve up to
    one smallest unit. *)
Lemma deposit_share p mx q T base liq :
  deposit_amounts p mx q T base liq → 0 < T → 0 < mx → 0 < q → 0 < Amount (QuotePooledCoin p) →
  0 < liq ∧ 0 ≤ base ∧ Amount (QuotePooledCoin p) * liq ≤ q * T ∧
  Amount (BasePooledCoin p) * liq < (base + 1) * T.
Proof.
  unfold deposit_amounts. cbv zeta. intros Hd HT Hmx Hq HQ0.
  set (Q := Amount (QuotePooledCoin p)) in *. set (B := Amount (BasePooledCoin p)) in *.
  destruct Hd as [(E1 & _)|(HB & _ & HT' & HL & HL' & Hbase)]; [lia|].
  assert (0 ≤ q * T - liq * Q < Q) as Hl by (rewrite HL; apply quot_bounds; nia).
  assert (0 < liq) by (assert (0 ≤ liq) by (rewrite HL; apply quot_nonneg; nia); lia).
  assert (0 ≤ q * B - Z.quot (q * B) Q * Q < Q) as Hb by (apply quot_bounds; nia).
  set (b0 := Z.quot (q * B) Q) in *.
  assert (0 ≤ b0) by (apply quot_nonneg; nia).
  assert (b0 ≤ base) by (rewrite Hbase; destruct (Z.eqb_spec b0 0); lia).
  split_and!; [lia..|nia|]. assert (B * liq * Q ≤ q * B * T) by nia.
  assert (q * B * T < (b0 + 1) * Q * T) by nia.
  assert (B * liq < (b0 + 1) * T) by nia. nia.
Qed.

(** A share of the pool never buys more than its part: the arithmetic of a
    deposit followed by the withdrawal of the shares it minted. *)
Lemma deposit_withdraw p mx q T base liq :
  deposit_amounts p mx q T base liq → 0 ≤ T → 0 < mx → 0 < q →
  Z.quot ((Amount (QuotePooledCoin p) + q) * liq) (T + liq) ≤ q ∧
  Z.quot ((Amount (BasePooledCoin p) + base) * liq) (T + liq) ≤ base.
Proof.
  intros Hd HT Hmx Hq. pose proof Hd as [(E1 & E2 & -> & ->)|(HB & HQ & HT' & _)].
  - rewrite E1, E2, !Z.add_0_l. split; apply Z.quot_le_upper_bound; nia.
  - destruct (deposit_share _ _ _ _ _ _ Hd) as (Hl & Hb & H1 & H2); [lia..|].
    split; [apply Z.quot_le_upper_bound; [lia|nia]|].
    apply Z.lt_succ_r, Z.quot_lt_upper_bound; [nia|lia|nia].
Qed.

(** The registry files a token under its symbol. *)
Definition registry_wf (s : SwapState S) : Prop :=
  ∀ n t, ts_tokens (sw_token s) !! n = Some t → Tk_Symbol t = n.

Lemma pool_symbol t msg (s s' : SwapState S) u p :
  handleMsgAddLiquidity t msg s = (Ok u, s') → registry_wf s →
  sw_pairs s !! MsgAddLiquidity_pair msg = Some p →
  Tk_Symbol (default noToken (ts_tokens (sw_token s) !! PoolTokenName p)) = PoolTokenName p.
Proof.
  unfold handleMsgAddLiquidity. intros H1 Hr Hp.
  apply M_bind_Ok in H1 as (? & s1 & H2 & H1). apply guard_not_Ok in H2 as [Ht ->].
  apply M_bind_Ok in H1 as (p' & s1 & H2 & H1). apply GetSwapTokenPair_Ok in H2 as [Hp' ->].
  apply M_bind_Ok in H1 as (bt & s1 & H2 & H1). apply lift_Ok in H2 as [H2 ->].
  apply M_bind_Ok in H1 as (tk & s1 & H3 & _). rewrite Hp in Hp'. injection Hp' as <-.
  unfold GetPoolTokenInfo in H3. apply M_bind_Ok in H3 as (y & s2 & H4 & H3).
  apply zoom_Ok in H4 as (t1 & H4 & ->). apply gets_Ok in H4 as [-> ->].
  apply M_bind_Ok in H3 as (? & s3 & H4 & _). apply guard_not_Ok in H4 as [Hno ->].
  destruct (ts_tokens (sw_token s) !! PoolTokenName p) eqn:E1; [by apply Hr in E1|done].
Qed.

(** C25: nobody profits from adding liquidity and taking it out again: after a
    deposit and the withdrawal of exactly the pool tokens it minted, the
    provider has in no denomination more than before, and the pool and its
    shares have not lost anything: both reserves are at least what they were
    and the supply of the pool token is the same. *)
Theorem liquidity_no_profit modaddr t t' msg rmsg (s s1 s2 : SwapState S) u u' p :
  ck_modaddr SwapModuleName = Some modaddr → ck_Blacklisted modaddr = true →
  MsgAddLiquidity_ValidateBasic msg = Ok () → registry_wf s →
  sw_pairs s !! MsgAddLiquidity_pair msg = Some p → 0 ≤ ck_supply (sw_coins s) (PoolTokenName p) →
  handleMsgAddLiquidity t msg s = (Ok u, s1) →
  MsgRemoveLiquidity_pair rmsg = MsgAddLiquidity_pair msg → Mr_Sender rmsg = Ma_Sender msg →
  Mr_Liquidity rmsg
  = ck_supply (sw_coins s1) (PoolTokenName p) - ck_supply (sw_coins s) (PoolTokenName p) →
  handleMsgRemoveLiquidity t' rmsg s1 = (Ok u', s2) →
  (∀ d, ck_balance (sw_coins s2) (Ma_Sender msg) d ≤ ck_balance (sw_coins s) (Ma_Sender msg) d) ∧
  ck_supply (sw_coins s2) (PoolTokenName p) = ck_supply (sw_coins s) (PoolTokenName p) ∧
  ∃ p2, sw_pairs s2 !! MsgAddLiquidity_pair msg = Some p2 ∧
  Amount (QuotePooledCoin p) ≤ Amount (QuotePooledCoin p2) ∧
  Amount (BasePooledCoin p) ≤ Amount (BasePooledCoin p2).
Proof.
  intros Hm Hb V Hr Hp HT H1 Hpair Hsend HL H2.
  pose proof (pool_symbol _ _ _ _ _ _ H1 Hr Hp) as Hsym. apply add_valid in V as [V1 V2].
  apply handleMsgAddLiquidity_Ok in H1 as (p' & base & liq & m & c1 & c2 & Hp' & _ & _ & _ & Hd & Hm'
    & Hbl & K1 & K2 & K3 & E1 & E2 & _ & _ & Hps).
  rewrite Hp in Hp'. injection Hp' as <-. rewrite Hm in Hm'. injection Hm' as <-.
  rewrite Hsym in K2, K3. clear Hsym Hr.
  assert (ck_supply (sw_coins s1) (PoolTokenName p)
          = ck_supply (sw_coins s) (PoolTokenName p) + liq) as HS1.
  { rewrite (km_supply _ _ _ _ _ K3), (kt_supply _ _ _ _ K2), (km_supply _ _ _ _ _ K1).
    by rewrite amount_of_denom. }
  assert (Mr_Liquidity rmsg = liq) as HL' by lia. clear HL.
  apply handleMsgRemoveLiquidity_Ok in H2 as (r & b & q & m & d1 & d2 & Hr & _ & Hrem).
  rewrite Hpair, Hps, lookup_insert, decide_True in Hr by done. injection Hr as <-.
  cbn [QuotePooledCoin BasePooledCoin PoolTokenName Denom Amount] in Hrem.
  rewrite HL', Hsend, Hpair, HS1 in Hrem.
  destruct Hrem as (_ & _ & Hbq & Hqq & Hb0 & Hq0 & _ & _ & Hm' & _ & R1 & R2 & R3 & _ & _ & Hps2).
  rewrite Hm in Hm'. injection Hm' as <-. assert (Ma_Sender msg ≠ modaddr) as Hne by congruence.
  destruct (deposit_withdraw _ _ _ _ _ _ Hd HT V1 V2) as [Hq1 Hb1].
  rewrite <- Hbq in Hb1. rewrite <- Hqq in Hq1.
  pose proof (deposit_nonneg _ _ _ _ _ _ Hd V1 V2) as Hbase.
  split; [|split].
  - intros d. rewrite (kb_balance _ _ _ _ R3). unfold at_addr. rewrite decide_False by done.
    rewrite (kmove_out _ _ _ _ _ d R2), (kmove_in _ _ _ _ _ d R1),
      (kmove_in _ _ _ _ _ d K3), (kt_balance _ _ _ _ K2) by done.
    unfold at_addr. rewrite decide_False by done. rewrite (kmove_out _ _ _ _ _ d K1) by done.
    rewrite !coinSort_amount by (repeat constructor; cbn [Amount]; lia).
    rewrite !amount_of_cons, amount_of_nil. cbn [Denom Amount]. rewrite <- E1, <- E2.
    destruct (String.eqb (Denom (QuotePooledCoin p)) d), (String.eqb (Denom (BasePooledCoin p)) d),
      (String.eqb (PoolTokenName p) d); lia.
  - rewrite (kb_supply _ _ _ _ R3), (km_supply _ _ _ _ _ R2), (km_supply _ _ _ _ _ R1), HS1.
    rewrite amount_of_denom by done. cbn [Amount]. lia.
  - rewrite Hps2, lookup_insert, decide_True by done. eexists. split; [done|].
    cbn [QuotePooledCoin BasePooledCoin Amount]. lia.
Qed.

(** The shares of the other providers keep their worth: a deposit does
    not lower the quote coins per pool token, and lowers the base coins per
    pool token by less than one smallest unit of the reserve; a withdrawal
    lowers neither. *)
Theorem shares_not_diluted t msg rmsg (s s' : SwapState S) u name p p' :
  let T := ck_supply (sw_coins s) (PoolTokenName p) in
  let T' := ck_supply (sw_coins s') (PoolTokenName p) in
  sw_pairs s !! name = Some p → sw_pairs s' !! name = Some p' → 0 < T →
  0 < Amount (QuotePooledCoin p) → 0 < Amount (BasePooledCoin p) → registry_wf s →
  (handleMsgAddLiquidity t msg s = (Ok u, s') → MsgAddLiquidity_ValidateBasic msg = Ok () →
   MsgAddLiquidity_pair msg = name →
   Amount (QuotePooledCoin p) * T' ≤ Amount (QuotePooledCoin p') * T ∧
   Amount (BasePooledCoin p) * T' < (Amount (BasePooledCoin p') + 1) * T) ∧
  (handleMsgRemoveLiquidity t rmsg s = (Ok u, s') → 0 < Mr_Liquidity rmsg →
   MsgRemoveLiquidity_pair rmsg = name →
   Amount (QuotePooledCoin p) * T' ≤ Amount (QuotePooledCoin p') * T ∧
   Amount (BasePooledCoin p) * T' ≤ Amount (BasePooledCoin p') * T).
Proof.
  intros T T' Hp Hp' HT HQ HB Hr. split.
  - intros H1 V <-. pose proof (pool_symbol _ _ _ _ _ _ H1 Hr Hp) as Hsym.
    apply add_valid in V as [V1 V2].
    apply handleMsgAddLiquidity_Ok in H1 as (r & base & liq & m & c1 & c2 & Hr' & _ & _ & _ & Hd & _
      & _ & K1 & K2 & K3 & _ & _ & _ & _ & Hps).
    rewrite Hp in Hr'. injection Hr' as <-. rewrite Hsym in K2.
    rewrite Hps, lookup_insert, decide_True in Hp' by done. injection Hp' as <-.
    assert (T' = T + liq) as ->.
    { unfold T'. rewrite (km_supply _ _ _ _ _ K3), (kt_supply _ _ _ _ K2), (km_supply _ _ _ _ _ K1).
      by rewrite amount_of_denom. }
    cbn [QuotePooledCoin BasePooledCoin Amount]. fold T in Hd.
    destruct (deposit_share _ _ _ _ _ _ Hd HT V1 V2 HQ). lia.
  - intros H1 HL <-.
    apply handleMsgRemoveLiquidity_Ok in H1 as (r & b & q & m & d1 & d2 & Hr' & _ & Hrem).
    rewrite Hp in Hr'. injection Hr' as <-. cbv zeta in Hrem. fold T in Hrem.
    destruct Hrem as (_ & _ & Hbq & Hqq & _ & _ & _ & _ & _ & _ & R1 & R2 & R3 & _ & _ & Hps).
    rewrite Hps, lookup_insert, decide_True in Hp' by done. injection Hp' as <-.
    assert (T' = T - Mr_Liquidity rmsg) as ->.
    { unfold T'. rewrite (kb_supply _ _ _ _ R3), (km_supply _ _ _ _ _ R2), (km_supply _ _ _ _ _ R1).
      by rewrite amount_of_denom. }
    cbn [QuotePooledCoin BasePooledCoin Amount].
    assert (0 ≤ Amount (QuotePooledCoin p) * Mr_Liquidity rmsg - q * T < T)
      by (rewrite Hqq; apply quot_bounds; nia).
    assert (0 ≤ Amount (BasePooledCoin p) * Mr_Liquidity rmsg - b * T < T)
      by (rewrite Hbq; apply quot_bounds; nia).
    split; nia.
Qed.

End SwapLiquidity.

(** ** Genesis *)

Section SwapGenesis.
Context {S : Type} `{CoinKeeper S}.

Lemma InitGenesis_pairs_run (l : list (string * SwapTokenPair)) (s : SwapState S) :
  NoDup (l.*1) → Forall (λ x, TokenPairName (snd x) = fst x) l →
  InitGenesis_pairs (l.*2) s
  = (Ok (), mkSwapState (sw_token s) (list_to_map l ∪ sw_pairs s) (sw_feeRate s)).
Proof.
  intros Hnd Hall. revert s Hnd. induction Hall as [|[k v] l Hk _ IH]; intros s Hnd.
  { cbn. rewrite (left_id_L ∅ (∪)). by destruct s. }
  cbn in Hk. rewrite fmap_cons in Hnd. apply NoDup_cons in Hnd as [Hin Hnd].
  cbn [fmap list_fmap InitGenesis_pairs]. unfold SetSwapTokenPair.
  erewrite M_bind_run by (unfold modify; reflexivity). rewrite IH by done.
  cbn [sw_pairs sw_token sw_feeRate snd]. rewrite Hk. f_equal. f_equal.
  cbn [list_to_map fst snd]. rewrite <- insert_union_r, insert_union_l; [done|].
  by apply not_elem_of_list_to_map_1.
Qed.

(** Exporting the module and starting from the export gives back the
    same pools and fee rate, for a store whose pools are filed under their own
    pair name. *)
Theorem swap_genesis_roundtrip (s : SwapState S) (tk : TokenState S) f0 :
  (∀ n p, sw_pairs s !! n = Some p → TokenPairName p = n) →
  ∃ f rs, Swap_ExportGenesis s = (Ok (f, rs), s) ∧
  Swap_InitGenesis f rs (mkSwapState tk ∅ f0)
  = (Ok (), mkSwapState tk (sw_pairs s) (sw_feeRate s)).
Proof.
  intros Hk. exists (sw_feeRate s), ((store_iterate (sw_pairs s)).*2). split; [done|].
  unfold Swap_InitGenesis. erewrite M_bind_run by (unfold modify; reflexivity).
  pose proof (store_iterate_perm (sw_pairs s)) as Hp.
  assert (NoDup ((store_iterate (sw_pairs s)).*1)) as Hnd
    by (rewrite Hp; apply NoDup_fst_map_to_list).
  rewrite InitGenesis_pairs_run; [|done|].
  - cbn [sw_pairs sw_token sw_feeRate]. rewrite (right_id_L ∅ (∪)). f_equal. f_equal.
    rewrite (list_to_map_proper _ _ Hnd Hp). apply list_to_map_to_list.
  - rewrite Hp. apply Forall_forall. intros [n p] Hin%elem_of_map_to_list. by apply Hk.
Qed.

End SwapGenesis.

Section SwapWitnesses.

Definition demo_swap_config : BankConfig :=
  mkBankConfig {[ "ammswap" := ("addr_swap", ["minter"; "burner"]) ]} {[ "addr_swap" := true ]}.
#[local] Existing Instance demo_swap_config.

Definition demo_unit : Z := 10 ^ 18.
Definition demo_pool (d : string) : SwapTokenPair :=
  mkPair (mkDecCoin "okt" (100 * demo_unit)) (mkDecCoin d (200 * demo_unit)) ("ammswap_" +:+ d +:+ "_okt").
Definition demo_pool_token (n : string) : Token := mkToken n n n n 0 GenerateTokenType "addr_swap" true.
Definition demo_swap_bank : Bank :=
  mkBank {[ "alice" := mkAccount [mkDecCoin "aaa" (50 * demo_unit); mkDecCoin "ammswap_aaa_okt" demo_unit;
                                  mkDecCoin "ammswap_bbb_okt" demo_unit; mkDecCoin "okt" (50 * demo_unit)] None;
            "addr_swap" := mkAccount [mkDecCoin "aaa" (200 * demo_unit); mkDecCoin "bbb" (200 * demo_unit);
                                      mkDecCoin "okt" (200 * demo_unit)] (Some ["minter"; "burner"]) ]}
         {[ "aaa" := 250 * demo_unit; "bbb" := 200 * demo_unit; "okt" := 250 * demo_unit;
            "ammswap_aaa_okt" := demo_unit; "ammswap_bbb_okt" := demo_unit ]} true.
Definition demo_swap : SwapState Bank :=
  mkSwapState
    (mkTokenState demo_swap_bank
       {[ "ammswap_aaa_okt" := demo_pool_token "ammswap_aaa_okt";
          "ammswap_bbb_okt" := demo_pool_token "ammswap_bbb_okt" ]} ∅ 2 ∅ ∅ ∅
       (mkTokenParams demo_fee demo_fee demo_fee demo_fee demo_fee 10) ∅)
    {[ "aaa_okt" := demo_pool "aaa"; "bbb_okt" := demo_pool "bbb" ]} 3000000000000000.
Definition demo_direct : MsgTokenToToken :=
  mkMsgSwap (mkDecCoin "aaa" demo_unit) (mkDecCoin "okt" 1) 100 "alice" "alice".
Definition demo_routed : MsgTokenToToken :=
  mkMsgSwap (mkDecCoin "aaa" demo_unit) (mkDecCoin "bbb" 1) 100 "bob" "alice".
Definition demo_add : MsgAddLiquidity :=
  mkMsgAdd 1 (mkDecCoin "aaa" (10 * demo_unit)) (mkDecCoin "okt" demo_unit) 100 "alice".
Definition demo_remove : MsgRemoveLiquidity :=
  mkMsgRemove (demo_unit / 100) (mkDecCoin "aaa" 0) (mkDecCoin "okt" 0) 100 "alice".

Lemma swap_run_backed_witness :
  pool_surplus "addr_swap" (foldl swap_deliver demo_swap
    [(5, SSwap demo_direct); (200, SSwap demo_direct); (6, SAdd demo_add); (7, SSwap demo_routed);
     (8, SRemove demo_remove)]) "okt" = pool_surplus "addr_swap" demo_swap "okt".
Proof. apply swap_run_backed; [done|done|]. by repeat constructor. Defined.

Lemma swap_pools_grow_witness :
  ∃ p', sw_pairs (snd (handleMsgTokenToToken 5 demo_routed demo_swap)) !! "bbb_okt" = Some p'
  ∧ pool_grows (demo_pool "bbb") p'.
Proof.
  apply (swap_pools_grow 5 demo_routed demo_swap _ () "bbb_okt" (demo_pool "bbb"));
    [vm_compute; reflexivity|vm_compute; reflexivity|by vm_compute|vm_compute; reflexivity
    |by vm_compute|by vm_compute|].
  intros n q Hq. unfold demo_swap in Hq. cbn [sw_pairs] in Hq.
  rewrite lookup_insert_Some, lookup_singleton_Some in Hq.
  destruct Hq as [[_ <-]|[_ [_ <-]]]; vm_compute; done.
Defined.

Lemma swap_pays_quote_witness :
  ∃ out, queryBuyAmount "okt" (mkDecCoin "aaa" demo_unit) demo_swap = (Ok out, demo_swap) ∧ 1 ≤ out ∧
  ck_balance (sw_coins (snd (handleMsgTokenToToken 5 demo_direct demo_swap))) "alice" "okt"
  = ck_balance (sw_coins demo_swap) "alice" "okt" + out.
Proof.
  apply (swap_pays_quote "addr_swap" 5 demo_direct demo_swap _ ()); [done|done|vm_compute; reflexivity|].
  vm_compute. reflexivity.
Defined.

Lemma router_charges_sender_witness :
  ∃ native, 0 < native ∧
  ck_balance (sw_coins (snd (handleMsgTokenToToken 5 demo_routed demo_swap))) "alice" "okt"
  = ck_balance (sw_coins demo_swap) "alice" "okt" - native ∧
  ck_balance (sw_coins (snd (handleMsgTokenToToken 5 demo_routed demo_swap))) "bob" "okt"
  = ck_balance (sw_coins demo_swap) "bob" "okt" + native.
Proof.
  apply (router_charges_sender "addr_swap" 5 demo_routed demo_swap _ ());
    [done|done|vm_compute; reflexivity|vm_compute; reflexivity|done|done|vm_compute; reflexivity].
Defined.

Lemma demo_registry : registry_wf demo_swap.
Proof.
  intros n t Hn. unfold demo_swap in Hn. cbn [sw_token ts_tokens] in Hn.
  rewrite lookup_insert_Some, lookup_singleton_Some in Hn. by destruct Hn as [[<- <-]|[_ [<- <-]]].
Qed.

Lemma liquidity_no_profit_witness :
  let s1 := snd (handleMsgAddLiquidity 5 demo_add demo_swap) in
  let s2 := snd (handleMsgRemoveLiquidity 6 demo_remove s1) in
  (∀ d, ck_balance (sw_coins s2) "alice" d ≤ ck_balance (sw_coins demo_swap) "alice" d) ∧
  ck_supply (sw_coins s2) "ammswap_aaa_okt" = ck_supply (sw_coins demo_swap) "ammswap_aaa_okt" ∧
  ∃ p2, sw_pairs s2 !! "aaa_okt" = Some p2 ∧
  100 * demo_unit ≤ Amount (QuotePooledCoin p2) ∧ 200 * demo_unit ≤ Amount (BasePooledCoin p2).
Proof.
  intros s1 s2. apply (liquidity_no_profit "addr_swap" 5 6 demo_add demo_remove demo_swap s1 s2 () ()
    (demo_pool "aaa")); [done|done|vm_compute; reflexivity|exact demo_registry| |done|..];
    vm_compute; reflexivity.
Defined.

Lemma shares_not_diluted_witness :
  let s' := snd (handleMsgAddLiquidity 5 demo_add demo_swap) in
  let T' := ck_supply (sw_coins s') "ammswap_aaa_okt" in
  100 * demo_unit * T' ≤ 101 * demo_unit * demo_unit ∧
  200 * demo_unit * T' < (202 * demo_unit + 1) * demo_unit.
Proof.
  intros s' T'.
  refine (proj1 (shares_not_diluted 5 demo_add demo_remove demo_swap s' () "aaa_okt" (demo_pool "aaa")
    (mkPair (mkDecCoin "okt" (101 * demo_unit)) (mkDecCoin "aaa" (202 * demo_unit)) "ammswap_aaa_okt")
    _ _ _ _ _ demo_registry) _ _ _);
    vm_compute; reflexivity.
Defined.

Lemma swap_genesis_roundtrip_witness :
  ∃ f rs, Swap_ExportGenesis demo_swap = (Ok (f, rs), demo_swap) ∧
  Swap_InitGenesis f rs (mkSwapState demo_tstate ∅ 0)
  = (Ok (), mkSwapState demo_tstate (sw_pairs demo_swap) (sw_feeRate demo_swap)).
Proof.
  apply swap_genesis_roundtrip. intros n q Hq. unfold demo_swap in Hq. cbn [sw_pairs] in Hq.
  rewrite lookup_insert_Some, lookup_singleton_Some in Hq.
  by destruct Hq as [[<- <-]|[_ [<- <-]]].
Defined.

End SwapWitnesses.
