(* ===== verification/OrderBook.v ===== *)
(** * The depth book and the auction price

    [x/order/types/depth_book.go] and the price part of
    [x/order/match/periodicauction/match.go].  A depth book is the slice of
    price levels of a product, highest price first.  At the end of a block the
    periodic auction picks one price at which the orders of the block trade:
    the price with the largest executable volume, then the least imbalance,
    then the one nearest to a reference price.

    The theorems show that a book stays sorted and holds exactly the
    quantities that were put in, and that the price which the four rules
    compute does maximise the volume over all prices, not only over the prices
    in the book. *)
From S2P Require Import Prelude Decimal Coins.

(** ** Data *)

Definition BuyOrder : string := "BUY".
Definition SellOrder : string := "SELL".

(** The fields of an order; the transaction hash and the extra information
    are for display and left out. *)
Record Order := mkOrder {
  Od_OrderID : string; Od_Sender : string; Od_Product : string; Od_Side : string;
  Od_Price : Dec; Od_Quantity : Dec; Od_Status : Z; Od_FilledAvgPrice : Dec;
  Od_RemainQuantity : Dec; Od_RemainLocked : Dec; Od_Timestamp : Z;
  Od_OrderExpireBlocks : Z; Od_FeePerBlock : DecCoin }.

Record DepthBookItem := mkItem {
  Bi_Price : Dec; Bi_BuyQuantity : Dec; Bi_SellQuantity : Dec }.

Abbreviation DepthBook := (list DepthBookItem).

(** Reading a slice at an index; out of range Go panics. *)
Definition idx {A} (l : list A) (i : nat) : outcome A :=
  match l !! i with
  | Some x => Ok x
  | None => Panic "index out of range"
  end.

(** [sort.Search]: the smallest index in [0, n) at which [f] holds, or [n],
    by bisection. *)
Fixpoint sort_Search_loop (fuel : nat) (f : nat → bool) (i j : nat) : nat :=
  match fuel with
  | O => i
  | S fuel =>
      if (i <? j)%nat then
        let h := ((i + j) / 2)%nat in
        if f h then sort_Search_loop fuel f i h else sort_Search_loop fuel f (S h) j
      else i
  end.
Definition sort_Search (n : nat) (f : nat → bool) : nat := sort_Search_loop n f 0 n.

(** The first level whose price is at most [price]. *)
Definition book_search (book : DepthBook) (price : Dec) : nat :=
  sort_Search (length book)
    (λ i, match book !! i with Some it => Dec_GTE price (Bi_Price it) | None => false end).

(** ** Operations of the book *)

Definition InsertOrder (book : DepthBook) (order : Order) : outcome DepthBook :=
  let newItem :=
    if String.eqb (Od_Side order) BuyOrder
    then mkItem (Od_Price order) (Od_RemainQuantity order) ZeroDec
    else mkItem (Od_Price order) ZeroDec (Od_RemainQuantity order) in
  if match last book with
     | None => true
     | Some it => Dec_LT (Od_Price order) (Bi_Price it)
     end
  then Ok (book ++ [newItem])
  else
    let index := book_search book (Od_Price order) in
    it ← idx book index;
    if Dec_Equal (Od_Price order) (Bi_Price it) then
      if String.eqb (Od_Side order) BuyOrder then
        q ← Dec_Add (Bi_BuyQuantity it) (Od_RemainQuantity order);
        Ok (<[index := mkItem (Bi_Price it) q (Bi_SellQuantity it)]> book)
      else
        q ← Dec_Add (Bi_SellQuantity it) (Od_RemainQuantity order);
        Ok (<[index := mkItem (Bi_Price it) (Bi_BuyQuantity it) q]> book)
    else Ok (take index book ++ newItem :: drop index book).

Definition DepthBook_Sub (book : DepthBook) (index : nat) (num : Dec) (side : string)
    : outcome DepthBook :=
  if String.eqb side BuyOrder then
    it ← idx book index;
    q ← Dec_Sub (Bi_BuyQuantity it) num;
    Ok (<[index := mkItem (Bi_Price it) q (Bi_SellQuantity it)]> book)
  else if String.eqb side SellOrder then
    it ← idx book index;
    q ← Dec_Sub (Bi_SellQuantity it) num;
    Ok (<[index := mkItem (Bi_Price it) (Bi_BuyQuantity it) q]> book)
  else Ok book.

Definition RemoveIfEmpty (book : DepthBook) (index : nat) : outcome (bool * DepthBook) :=
  it ← idx book index;
  let res := Dec_IsZero (Bi_BuyQuantity it) && Dec_IsZero (Bi_SellQuantity it) in
  Ok (res, if res then take index book ++ drop (S index) book else book).

Definition RemoveOrder (book : DepthBook) (order : Order) : outcome DepthBook :=
  let index := book_search book (Od_Price order) in
  match book !! index with
  | Some it =>
      if Dec_Equal (Bi_Price it) (Od_Price order) then
        book1 ← DepthBook_Sub book index (Od_RemainQuantity order) (Od_Side order);
        '(_, book2) ← RemoveIfEmpty book1 index;
        Ok book2
      else Ok book
  | None => Ok book
  end.

(** ** The auction price *)

Fixpoint buyAmountSum_loop (sum : Dec) (items : list DepthBookItem) : outcome (list Dec) :=
  match items with
  | [] => Ok []
  | it :: rest =>
      s ← Dec_Add sum (Bi_BuyQuantity it);
      r ← buyAmountSum_loop s rest;
      Ok (s :: r)
  end.
Fixpoint sellAmountSum_loop (items : list DepthBookItem) : outcome (list Dec) :=
  match items with
  | [] => Ok []
  | [it] => Ok [Bi_SellQuantity it]
  | it :: rest =>
      r ← sellAmountSum_loop rest;
      next ← idx r 0;
      s ← Dec_Add next (Bi_SellQuantity it);
      Ok (s :: r)
  end.
Definition preMatchProcessing (book : DepthBook) : outcome (list Dec * list Dec) :=
  match book with
  | [] => Ok ([], [])
  | it :: rest =>
      buys ← buyAmountSum_loop (Bi_BuyQuantity it) rest;
      sells ← sellAmountSum_loop book;
      Ok (Bi_BuyQuantity it :: buys, sells)
  end.

Definition execRule0 (buyAmountSum sellAmountSum : list Dec) : Dec * list Dec :=
  let execution := zip_with MinDec buyAmountSum sellAmountSum in
  (foldl (λ m e, MaxDec e m) ZeroDec execution, execution).

Fixpoint execRule1_loop (i : nat) (maxExecution : Dec) (execution : list Dec) : list nat :=
  match execution with
  | [] => []
  | e :: rest =>
      if Dec_Equal e maxExecution then i :: execRule1_loop (S i) maxExecution rest
      else execRule1_loop (S i) maxExecution rest
  end.
Definition execRule1 (maxExecution : Dec) (execution : list Dec) : list nat :=
  execRule1_loop 0 maxExecution execution.

Fixpoint imbalances (buyAmountSum sellAmountSum : list Dec) (indexes : list nat)
    : outcome (list Dec) :=
  match indexes with
  | [] => Ok []
  | i :: rest =>
      b ← idx buyAmountSum i;
      s ← idx sellAmountSum i;
      d ← Dec_Sub b s;
      r ← imbalances buyAmountSum sellAmountSum rest;
      Ok (d :: r)
  end.
Fixpoint execRule2_select (minAbs : Dec) (indexes : list nat) (imbalance : list Dec) : list nat :=
  match indexes, imbalance with
  | i :: indexes, d :: imbalance =>
      if Dec_Equal (Dec_Abs d) minAbs then i :: execRule2_select minAbs indexes imbalance
      else execRule2_select minAbs indexes imbalance
  | _, _ => []
  end.
Definition execRule2 (buyAmountSum sellAmountSum : list Dec) (indexesRule1 : list nat)
    : outcome (list nat * list Dec) :=
  imbalance ← imbalances buyAmountSum sellAmountSum indexesRule1;
  d ← idx imbalance 0;
  let minAbsImbalance := foldl (λ m d, MinDec m (Dec_Abs d)) (Dec_Abs d) (tail imbalance) in
  Ok (execRule2_select minAbsImbalance indexesRule1 imbalance, imbalance).

(** The bounds are passed highest price first. *)
Definition bestPriceFromRefPrice (minPrice maxPrice refPrice : Dec) : Dec :=
  if Dec_LTE minPrice refPrice then minPrice
  else if Dec_GTE maxPrice refPrice then maxPrice
  else refPrice.

(** [imbalance\[i - offset\]]. *)
Definition idx_off (l : list Dec) (i offset : nat) : outcome Dec :=
  if (i <? offset)%nat then Panic "index out of range" else idx l (i - offset).

(** The constants 1.05 and 0.95. *)
Definition upperFactor : Dec := 1050000000000000000.
Definition lowerFactor : Dec := 950000000000000000.

Definition execRule3 (book : DepthBook) (offset : nat) (refPrice : Dec) (pricePrecision : Z)
    (indexesRule2 : list nat) (imbalance : list Dec) : outcome Dec :=
  first ← idx indexesRule2 0;
  final ← idx indexesRule2 (length indexesRule2 - 1);
  dFirst ← idx_off imbalance first offset;
  newRefPrice ←
    (if Dec_GT dFirst ZeroDec then
       r ← Dec_Mul refPrice upperFactor;
       Dec_RoundDecimal r pricePrecision
     else
       dLast ← idx_off imbalance final offset;
       if Dec_LT dLast ZeroDec then
         r ← Dec_Mul refPrice lowerFactor;
         Dec_RoundDecimal r pricePrecision
       else Dec_RoundDecimal refPrice pricePrecision);
  hi ← idx book first;
  lo ← idx book final;
  Ok (bestPriceFromRefPrice (Bi_Price hi) (Bi_Price lo) newRefPrice).

(** The price and the volume. *)
Definition periodicAuctionMatchPrice (book : DepthBook) (pricePrecision : Z) (refPrice : Dec)
    : outcome (Dec * Dec) :=
  '(buyAmountSum, sellAmountSum) ← preMatchProcessing book;
  if (length buyAmountSum =? 0)%nat then Ok (ZeroDec, ZeroDec)
  else
    let '(maxExecution, execution) := execRule0 buyAmountSum sellAmountSum in
    if Dec_IsZero maxExecution then Ok (refPrice, maxExecution)
    else
      let indexesRule1 := execRule1 maxExecution execution in
      if (length indexesRule1 =? 1)%nat then
        i ← idx indexesRule1 0;
        it ← idx book i;
        Ok (Bi_Price it, maxExecution)
      else
        '(indexesRule2, imbalance) ← execRule2 buyAmountSum sellAmountSum indexesRule1;
        if (length indexesRule2 =? 1)%nat then
          i ← idx indexesRule2 0;
          it ← idx book i;
          Ok (Bi_Price it, maxExecution)
        else
          offset ← idx indexesRule1 0;
          bestPrice ← execRule3 book offset refPrice pricePrecision indexesRule2 imbalance;
          Ok (bestPrice, maxExecution).

(** ** Sorted books *)

(** Highest price first, no price twice. *)
Definition book_sorted (book : DepthBook) : Prop :=
  StronglySorted (λ a b, Bi_Price b < Bi_Price a) book.

(** A quantity summed over the levels. *)
Definition book_sum (f : DepthBookItem → Z) (book : DepthBook) : Z :=
  foldr (λ it acc, f it + acc) 0 book.

Definition side_qty (side : string) (it : DepthBookItem) : Z :=
  if String.eqb side BuyOrder then Bi_BuyQuantity it else Bi_SellQuantity it.

(** What the book offers on a side at a price. *)
Definition level_qty (side : string) (book : DepthBook) (p : Dec) : Z :=
  book_sum (λ it, if Bi_Price it =? p then side_qty side it else 0) book.

Section BookFacts.

Lemma book_sum_app f a b : book_sum f (a ++ b) = book_sum f a + book_sum f b.
Proof. induction a as [|it a IH]; [done|]. cbn [book_sum foldr app] in *. unfold book_sum in *. lia. Qed.
Lemma book_sum_cons f it b : book_sum f (it :: b) = f it + book_sum f b.
Proof. done. Qed.
Lemma book_sum_nonneg f b : Forall (λ it, 0 ≤ f it) b → 0 ≤ book_sum f b.
Proof. induction 1; [done|]. rewrite book_sum_cons. lia. Qed.
Lemma book_sum_ext f g b : Forall (λ it, f it = g it) b → book_sum f b = book_sum g b.
Proof. induction 1; [done|]. rewrite !book_sum_cons. lia. Qed.
Lemma book_sum_zero f b : Forall (λ it, f it = 0) b → book_sum f b = 0.
Proof. induction 1; [done|]. rewrite !book_sum_cons. lia. Qed.

Lemma sort_Search_loop_spec fuel f n i j :
  (∀ a b, (a ≤ b < n)%nat → f a = true → f b = true) →
  (j - i ≤ fuel)%nat → (i ≤ j ≤ n)%nat →
  (∀ k, (k < i)%nat → f k = false) → (∀ k, (j ≤ k < n)%nat → f k = true) →
  let r := sort_Search_loop fuel f i j in
  (i ≤ r ≤ j)%nat ∧ (∀ k, (k < r)%nat → f k = false) ∧ (∀ k, (r ≤ k < n)%nat → f k = true).
Proof.
  intros Hmono. revert i j. induction fuel as [|fuel IH]; intros i j Hfuel Hij Hlo Hhi;
    cbn [sort_Search_loop]; cbv zeta.
  { assert (i = j) as -> by lia. done. }
  destruct (Nat.ltb_spec i j) as [Hlt|Hge].
  - assert (i ≤ (i + j) / 2 < j)%nat as Hh.
    { split; [apply Nat.div_le_lower_bound; lia|apply Nat.Div0.div_lt_upper_bound; lia]. }
    destruct (f ((i + j) / 2)%nat) eqn:Hf.
    + destruct (IH i ((i + j) / 2)%nat) as (? & ? & ?); [lia|lia|done| |split_and!; [lia..|done|done]].
      intros k Hk. apply (Hmono ((i + j) / 2)%nat); [lia|done].
    + destruct (IH (S ((i + j) / 2)) j) as (? & ? & ?); [lia|lia| |done|split_and!; [lia..|done|done]].
      intros k Hk. destruct (f k) eqn:Hk'; [|done].
      rewrite (Hmono k ((i + j) / 2)%nat) in Hf; [done|lia|done].
  - assert (i = j) as -> by lia. split_and!; [lia..|done|done].
Qed.

Lemma sorted_lookup b i j x y :
  book_sorted b → b !! i = Some x → b !! j = Some y → (i < j)%nat → Bi_Price y < Bi_Price x.
Proof.
  intros Hs. revert i j. induction Hs as [|it b Hs IH Hall]; intros i j Hx Hy Hij; [done|].
  destruct j as [|j]; [lia|]. destruct i as [|i]; cbn in *.
  - injection Hx as ->. rewrite Forall_forall in Hall. apply Hall. by eapply list_elem_of_lookup_2.
  - apply (IH i j); [done|done|lia].
Qed.

(** The bisection splits a sorted book at the price. *)
Lemma book_search_split b p :
  book_sorted b →
  Forall (λ it, p < Bi_Price it) (take (book_search b p) b) ∧
  Forall (λ it, Bi_Price it ≤ p) (drop (book_search b p) b).
Proof.
  intros Hs. unfold book_search, sort_Search. set (f := λ i : nat, _).
  destruct (sort_Search_loop_spec (length b) f (length b) 0 (length b)) as (Hr & Hlo & Hhi).
  { intros x y Hxy. unfold f. destruct (b !! x) as [itx|] eqn:Ex; [|done].
    destruct (b !! y) as [ity|] eqn:Ey; [|apply lookup_ge_None in Ey; lia].
    unfold Dec_GTE. rewrite !Z.geb_le. intros Hp.
    destruct (decide (x = y)) as [->|]; [congruence|].
    pose proof (sorted_lookup _ _ _ _ _ Hs Ex Ey). lia. }
  { lia. } { lia. } { lia. } { lia. }
  set (r := sort_Search_loop (length b) f 0 (length b)) in *. clearbody r.
  split; apply Forall_lookup; intros i it Hit.
  - apply lookup_take_Some in Hit as [Hit Hi]. specialize (Hlo i Hi). unfold f in Hlo.
    rewrite Hit in Hlo. unfold Dec_GTE in Hlo. rewrite Z.geb_leb in Hlo. by apply Z.leb_gt in Hlo.
  - rewrite lookup_drop in Hit. pose proof (lookup_lt_Some _ _ _ Hit) as Hl.
    specialize (Hhi _ (conj (Nat.le_add_r _ _) Hl)). unfold f in Hhi. rewrite Hit in Hhi.
    unfold Dec_GTE in Hhi. by rewrite Z.geb_leb, Z.leb_le in Hhi.
Qed.

Lemma sorted_app a b :
  book_sorted (a ++ b) ↔ book_sorted a ∧ book_sorted b ∧
    Forall (λ x, Forall (λ y, Bi_Price y < Bi_Price x) b) a.
Proof.
  unfold book_sorted. induction a as [|it a IH]; cbn.
  - split; [intros; split_and!; [constructor|done|constructor]|by intros (_ & ? & _)].
  - split.
    + intros H. apply StronglySorted_inv in H as [H1 H2]. apply IH in H1 as (H3 & H4 & H5).
      apply Forall_app in H2 as [H6 H7]. split_and!; [by constructor|done|by constructor].
    + intros (H1 & H2 & H3). apply StronglySorted_inv in H1 as [H4 H5].
      apply Forall_cons in H3 as [H6 H7]. constructor; [by apply IH|]. by apply Forall_app.
Qed.

Lemma level_qty_other side b p :
  Forall (λ it, Bi_Price it ≠ p) b → level_qty side b p = 0.
Proof.
  intros H. apply book_sum_zero. eapply Forall_impl; [exact H|]. intros it Hne. cbn.
  by destruct (Z.eqb_spec (Bi_Price it) p).
Qed.

End BookFacts.

(** ** Insertion and removal *)

Section BookProperties.

(** The level that a new order makes, or joins. *)
Definition new_level (o : Order) : DepthBookItem :=
  if String.eqb (Od_Side o) BuyOrder then mkItem (Od_Price o) (Od_RemainQuantity o) ZeroDec
  else mkItem (Od_Price o) ZeroDec (Od_RemainQuantity o).
Definition join_level (it : DepthBookItem) (o : Order) : DepthBookItem :=
  if String.eqb (Od_Side o) BuyOrder
  then mkItem (Bi_Price it) (Bi_BuyQuantity it + Od_RemainQuantity o) (Bi_SellQuantity it)
  else mkItem (Bi_Price it) (Bi_BuyQuantity it) (Bi_SellQuantity it + Od_RemainQuantity o).

(** Where a price belongs in a sorted book. *)
Inductive book_place (book : DepthBook) (p : Dec) : DepthBook → DepthBook → Prop :=
  | place_new pre post :
      book = pre ++ post → Forall (λ it, p < Bi_Price it) pre →
      Forall (λ it, Bi_Price it < p) post → book_place book p pre post
  | place_level pre it post :
      book = pre ++ it :: post → Bi_Price it = p → Forall (λ it, p < Bi_Price it) pre →
      Forall (λ it, Bi_Price it < p) post → book_place book p pre (it :: post).

Lemma book_place_search book p :
  book_sorted book →
  book_place book p (take (book_search book p) book) (drop (book_search book p) book).
Proof.
  intros Hs. destruct (book_search_split book p Hs) as [Hlo Hhi].
  set (r := book_search book p) in *. pose proof (take_drop r book) as Htd.
  destruct (drop r book) as [|it post] eqn:Hd.
  { apply place_new; [by rewrite Htd|done|constructor]. }
  assert (book_sorted (take r book ++ it :: post)) as Hs' by (by rewrite Htd).
  apply sorted_app in Hs' as (_ & Hs' & _). apply StronglySorted_inv in Hs' as [_ Hall].
  apply Forall_cons in Hhi as [Hit Hpost]. destruct (decide (Bi_Price it = p)) as [E|Hne].
  - apply place_level; [by rewrite Htd|done|done|]. by rewrite <- E.
  - apply place_new; [by rewrite Htd|done|]. constructor; [lia|].
    eapply Forall_impl; [exact Hall|]. cbn. lia.
Qed.

(** [InsertOrder] puts the order where its price belongs. *)
Lemma InsertOrder_shape book o :
  book_sorted book →
  ∃ pre post, book_place book (Od_Price o) pre post ∧
  InsertOrder book o
  = match post with
    | it :: rest =>
        if Bi_Price it =? Od_Price o
        then _ ← Dec_Add (side_qty (Od_Side o) it) (Od_RemainQuantity o);
             Ok (pre ++ join_level it o :: rest)
        else Ok (pre ++ new_level o :: post)
    | [] => Ok (pre ++ [new_level o])
    end.
Proof.
  intros Hs. unfold InsertOrder. fold (new_level o).
  destruct (match last book with None => true | Some it => _ end) eqn:Hlast.
  - exists book, []. split; [|done]. apply place_new; [by rewrite app_nil_r| |constructor].
    destruct (last book) as [it|] eqn:Hl; [|by apply last_None in Hl as ->].
    apply Z.ltb_lt in Hlast. apply last_Some in Hl as [pre ->].
    apply sorted_app in Hs as (_ & _ & Hall). apply Forall_app. split; [|by constructor].
    eapply Forall_impl; [exact Hall|]. intros x Hx. apply Forall_inv in Hx. lia.
  - pose proof (book_place_search book (Od_Price o) Hs) as Hp.
    set (r := book_search book (Od_Price o)) in *. exists (take r book), (drop r book).
    split; [done|]. destruct (drop r book) as [|it post] eqn:Hd.
    { exfalso. destruct (last book) as [it|] eqn:Hl; [|done]. apply Z.ltb_ge in Hlast.
      apply last_Some_elem_of in Hl. inversion Hp as [? ? E1 Hpre _|]; subst.
      rewrite app_nil_r in E1. rewrite <- E1 in Hpre. rewrite Forall_forall in Hpre.
      specialize (Hpre _ Hl). lia. }
    assert (book !! r = Some it) as Hr.
    { rewrite <- (Nat.add_0_r r), <- lookup_drop, Hd. done. }
    assert (∀ x, <[r := x]> book = take r book ++ x :: post) as Hins.
    { intros x. rewrite insert_take_drop by by eapply lookup_lt_Some.
      f_equal. f_equal. change (S r) with (1 + r)%nat. rewrite Nat.add_comm, <- drop_drop, Hd. done. }
    unfold idx. rewrite Hr. cbn [mbind outcome_bind]. unfold Dec_Equal. rewrite (Z.eqb_sym (Bi_Price it)).
    unfold side_qty, join_level. destruct (Od_Price o =? Bi_Price it); [|done].
    destruct (String.eqb (Od_Side o) BuyOrder); unfold Dec_Add;
      destruct (checkDec _) as [q|e|m] eqn:Hc; cbn [mbind outcome_bind]; try done;
      apply checkDec_Ok in Hc as [-> _]; by rewrite Hins.
Qed.

Lemma InsertOrder_place book o :
  book_sorted book →
  (∀ it, it ∈ book → dec_fits (side_qty (Od_Side o) it + Od_RemainQuantity o)) →
  ∃ pre post, book_place book (Od_Price o) pre post ∧
  InsertOrder book o = Ok (pre ++
    match post with
    | it :: rest => if Bi_Price it =? Od_Price o then join_level it o :: rest else new_level o :: post
    | [] => [new_level o]
    end).
Proof.
  intros Hs Hfit. destruct (InsertOrder_shape book o Hs) as (pre & post & Hp & ->).
  exists pre, post. split; [done|]. destruct post as [|it rest]; [done|].
  destruct (Bi_Price it =? Od_Price o); [|done].
  assert (it ∈ book) as Hin by (inversion Hp; subst; set_solver).
  unfold Dec_Add. by rewrite checkDec_fits by by apply Hfit.
Qed.

Lemma place_sorted book p pre post it :
  book_sorted book → book_place book p pre post → Bi_Price it = p →
  book_sorted (pre ++ it :: match post with
                            | x :: rest => if Bi_Price x =? p then rest else post
                            | [] => []
                            end).
Proof.
  intros Hs Hp E.
  assert (∃ rest, Forall (λ x, Bi_Price x < p) rest ∧ book_sorted rest ∧ book_sorted pre ∧
    Forall (λ x, p < Bi_Price x) pre ∧
    match post with x :: rest => if Bi_Price x =? p then rest else post | [] => [] end = rest)
    as (rest & Hr & Hs1 & Hs2 & Hpre & ->).
  { inversion Hp as [? ? -> H1 H2|? x rest -> H0 H1 H2]; subst; apply sorted_app in Hs as (H3 & H4 & _).
    - exists post. split_and!; try done. destruct H2 as [|x post Hx _]; [done|].
      cbn in Hx. destruct (Z.eqb_spec (Bi_Price x) (Bi_Price it)); [lia|done].
    - exists rest. apply StronglySorted_inv in H4 as [H5 _]. by rewrite H0, Z.eqb_refl. }
  apply sorted_app. split_and!; [done| |].
  - constructor; [done|]. by rewrite E.
  - eapply Forall_impl; [exact Hpre|]. intros x Hx. cbn in Hx. constructor; [lia|].
    eapply Forall_impl; [exact Hr|]. cbn. lia.
Qed.

Lemma place_qty side book p pre post :
  book_place book p pre post →
  level_qty side book p
  = match post with x :: _ => if Bi_Price x =? p then side_qty side x else 0 | [] => 0 end ∧
  ∀ it p', Bi_Price it = p →
    level_qty side (pre ++ it :: match post with
                            | x :: rest => if Bi_Price x =? p then rest else post
                            | [] => []
                            end) p'
    = if p' =? p then side_qty side it else level_qty side book p'.
Proof.
  intros Hp.
  assert (∀ l, Forall (λ x, p < Bi_Price x) l → level_qty side l p = 0) as Habove.
  { intros l Hl. apply level_qty_other. eapply Forall_impl; [exact Hl|]. cbn. lia. }
  assert (∀ l, Forall (λ x, Bi_Price x < p) l → level_qty side l p = 0) as Hbelow.
  { intros l Hl. apply level_qty_other. eapply Forall_impl; [exact Hl|]. cbn. lia. }
  unfold level_qty in *.
  assert (∀ pre it rest p', Forall (λ x, p < Bi_Price x) pre → Forall (λ x, Bi_Price x < p) rest →
    Bi_Price it = p →
    book_sum (λ it, if Bi_Price it =? p' then side_qty side it else 0) (pre ++ it :: rest)
    = if p' =? p then side_qty side it else
      book_sum (λ it, if Bi_Price it =? p' then side_qty side it else 0) (pre ++ rest)) as Hsum.
  { intros l1 it l2 p' H1 H2 E. rewrite !book_sum_app, book_sum_cons, E, (Z.eqb_sym p).
    destruct (Z.eqb_spec p' p) as [->|]; [rewrite Habove, Hbelow by done; lia|lia]. }
  inversion Hp as [? ? -> H1 H2|? x rest -> H0 H1 H2]; subst.
  - assert (match post with x :: rest => if Bi_Price x =? p then rest else post | [] => [] end = post
      ∧ match post with x :: _ => if Bi_Price x =? p then side_qty side x else 0 | [] => 0 end = 0)
      as [-> ->].
    { destruct H2 as [|x post' Hx _]; [done|].
      cbn in Hx. by destruct (Z.eqb_spec (Bi_Price x) p) as [E|]; [lia|]. }
    split; [by rewrite book_sum_app, Habove, Hbelow|]. intros it p' E. by apply Hsum.
  - rewrite Z.eqb_refl. split; [by rewrite Hsum, Z.eqb_refl|].
    intros it p' E. rewrite Hsum by done. destruct (Z.eqb_spec p' (Bi_Price x)); [done|].
    rewrite Hsum by done. by destruct (Z.eqb_spec p' (Bi_Price x)).
Qed.

Definition valid_side (side : string) : Prop := side = BuyOrder ∨ side = SellOrder.

Lemma InsertOrder_Ok book o book' :
  book_sorted book → valid_side (Od_Side o) → InsertOrder book o = Ok book' →
  book_sorted book' ∧
  ∀ side p, valid_side side →
    level_qty side book' p = level_qty side book p
      + (if decide (side = Od_Side o ∧ p = Od_Price o) then Od_RemainQuantity o else 0).
Proof.
  intros Hs Hv Hrun. destruct (InsertOrder_shape book o Hs) as (pre & post & Hp & HI).
  set (it := match post with
             | x :: _ => if Bi_Price x =? Od_Price o then join_level x o else new_level o
             | [] => new_level o
             end).
  assert (Bi_Price it = Od_Price o) as Hit.
  { unfold it, join_level, new_level. destruct post as [|x ?]; [by destruct (String.eqb _ _)|].
    destruct (Z.eqb_spec (Bi_Price x) (Od_Price o)); by destruct (String.eqb _ _). }
  assert (book' = pre ++ it :: match post with
      | x :: rest => if Bi_Price x =? Od_Price o then rest else post | [] => [] end) as ->.
  { rewrite HI in Hrun. unfold it. destruct post as [|x rest]; [by injection Hrun|].
    destruct (Bi_Price x =? _); [|by injection Hrun].
    apply outcome_bind_Ok in Hrun as (? & _ & Hrun). by injection Hrun. }
  split; [by eapply place_sorted|]. intros side p Hside.
  destruct (place_qty side _ _ _ _ Hp) as [Hq1 Hq2]. rewrite Hq2 by done.
  destruct (Z.eqb_spec p (Od_Price o)) as [->|Hne]; [|rewrite decide_False by naive_solver; lia].
  rewrite Hq1. unfold it, join_level, new_level, side_qty.
  destruct Hv as [->| ->], Hside as [->| ->]; cbn; destruct post as [|x ?]; cbn;
    try destruct (Z.eqb_spec (Bi_Price x) (Od_Price o)); cbn [Bi_BuyQuantity Bi_SellQuantity];
    change ZeroDec with 0; (destruct (decide _) as [[Hd _]|Hd]; [try done; lia|try lia; by destruct Hd]).
Qed.

(** Placing an order in the book: in a sorted book [InsertOrder] keeps
    the levels sorted by price without duplicates, adds the remaining quantity
    of the order to what the book offers on the order's side at its price, and
    changes no other quantity. *)
Theorem InsertOrder_spec book o :
  book_sorted book → valid_side (Od_Side o) →
  (∀ it, it ∈ book → dec_fits (side_qty (Od_Side o) it + Od_RemainQuantity o)) →
  ∃ book', InsertOrder book o = Ok book' ∧ book_sorted book' ∧
  ∀ side p, valid_side side →
    level_qty side book' p = level_qty side book p
      + (if decide (side = Od_Side o ∧ p = Od_Price o) then Od_RemainQuantity o else 0).
Proof.
  intros Hs Hv Hfit. destruct (InsertOrder_place book o Hs Hfit) as (pre & post & _ & HI).
  eexists. split; [exact HI|]. by apply InsertOrder_Ok.
Qed.

Lemma search_length book p pre it post :
  book_sorted book → book = pre ++ it :: post → Bi_Price it = p →
  Forall (λ x, p < Bi_Price x) pre → book_search book p = length pre.
Proof.
  intros Hs E Hit Hpre. destruct (book_search_split book p Hs) as [Hlo Hhi].
  set (r := book_search book p) in *. clearbody r. rewrite Forall_lookup in Hlo, Hhi, Hpre.
  destruct (Nat.lt_trichotomy r (length pre)) as [Hlt|[|Hgt]]; [|done|].
  - destruct (lookup_lt_is_Some_2 pre r Hlt) as [x Hx]. specialize (Hpre r x Hx).
    specialize (Hhi 0%nat x). rewrite lookup_drop, Nat.add_0_r, E, lookup_app_l in Hhi by done.
    specialize (Hhi Hx). cbn in *. lia.
  - specialize (Hlo (length pre) it). rewrite lookup_take_lt, E, list_lookup_middle in Hlo by done.
    specialize (Hlo eq_refl). cbn in *. lia.
Qed.

(** A level with something on offer. *)
Definition level_live (it : DepthBookItem) : Prop :=
  Bi_BuyQuantity it ≠ 0 ∨ Bi_SellQuantity it ≠ 0.

Lemma RemoveOrder_at pre it post o :
  book_sorted (pre ++ it :: post) → Bi_Price it = Od_Price o → valid_side (Od_Side o) →
  Forall (λ x, Od_Price o < Bi_Price x) pre →
  dec_fits (side_qty (Od_Side o) it - Od_RemainQuantity o) →
  let it' := if String.eqb (Od_Side o) BuyOrder
    then mkItem (Bi_Price it) (Bi_BuyQuantity it - Od_RemainQuantity o) (Bi_SellQuantity it)
    else mkItem (Bi_Price it) (Bi_BuyQuantity it) (Bi_SellQuantity it - Od_RemainQuantity o) in
  RemoveOrder (pre ++ it :: post) o
  = Ok (pre ++ if (Bi_BuyQuantity it' =? 0) && (Bi_SellQuantity it' =? 0) then post else it' :: post).
Proof.
  intros Hs E Hv Hpre Hfit it'. unfold RemoveOrder.
  rewrite (search_length _ (Od_Price o) pre it post Hs) by done. rewrite list_lookup_middle by done.
  unfold Dec_Equal. rewrite E, Z.eqb_refl.
  assert (DepthBook_Sub (pre ++ it :: post) (length pre) (Od_RemainQuantity o) (Od_Side o)
          = Ok (pre ++ it' :: post)) as ->.
  { unfold DepthBook_Sub, idx, side_qty, Dec_Sub in *. rewrite list_lookup_middle by done.
    cbn [mbind outcome_bind]. unfold it'.
    destruct Hv as [Hv|Hv]; rewrite Hv in *;
      [change (String.eqb BuyOrder BuyOrder) with true in *
      |change (String.eqb SellOrder BuyOrder) with false in *;
       change (String.eqb SellOrder SellOrder) with true in *]; cbv iota in *;
      rewrite checkDec_fits by done; cbn [mbind outcome_bind];
      by rewrite insert_app_r_alt, Nat.sub_diag by done. }
  cbn [mbind outcome_bind]. unfold RemoveIfEmpty, idx. rewrite list_lookup_middle by done.
  cbn [mbind outcome_bind]. rewrite !Dec_IsZero_eq. destruct (_ && _); [|done].
  rewrite take_app_length. f_equal. f_equal.
  replace (S (length pre)) with (length (pre ++ [it'])) by (rewrite length_app; cbn; lia).
  change (it' :: post) with ([it'] ++ post). rewrite app_assoc. by rewrite drop_app_length.
Qed.

(** C36: taking an order out of the book undoes placing it: a sorted book
    without empty levels is the same slice again after [InsertOrder] and
    [RemoveOrder] of an order with something left. *)
Theorem InsertOrder_RemoveOrder_roundtrip book o :
  book_sorted book → Forall level_live book → valid_side (Od_Side o) →
  0 < Od_RemainQuantity o →
  (∀ it, it ∈ book → dec_fits (side_qty (Od_Side o) it) ∧
                     dec_fits (side_qty (Od_Side o) it + Od_RemainQuantity o)) →
  ∃ book', InsertOrder book o = Ok book' ∧ RemoveOrder book' o = Ok book.
Proof.
  intros Hs Hlive Hv Hq Hfit.
  destruct (InsertOrder_place book o Hs) as (pre & post & Hp & HI); [by intros ? []%Hfit|].
  exists (pre ++ match post with
    | it :: rest => if Bi_Price it =? Od_Price o then join_level it o :: rest else new_level o :: post
    | [] => [new_level o]
    end). split; [done|].
  assert (book_sorted (pre ++ new_level o :: post) ∨ ∃ x rest, post = x :: rest ∧ Bi_Price x = Od_Price o)
    as Hs'.
  { pose proof (place_sorted _ _ _ _ (new_level o) Hs Hp) as H1.
    destruct post as [|x rest]; [left; apply H1; unfold new_level; by destruct (String.eqb _ _)|].
    destruct (Z.eqb_spec (Bi_Price x) (Od_Price o)); [right; eauto|left].
    apply H1. unfold new_level. by destruct (String.eqb _ _). }
  inversion Hp as [? ? -> H1 H2|? x rest -> H0 H1 H2]; subst.
  - assert (match post with
      | it :: rest => if Bi_Price it =? Od_Price o then join_level it o :: rest else new_level o :: post
      | [] => [new_level o] end = new_level o :: post) as ->.
    { destruct H2 as [|x rest Hx _]; [done|]. cbn in Hx.
      destruct (Z.eqb_spec (Bi_Price x) (Od_Price o)); [lia|done]. }
    destruct Hs' as [Hs'|(x & rest & -> & E)]; [|apply Forall_inv in H2; lia].
    rewrite RemoveOrder_at; [|done|unfold new_level; by destruct (String.eqb _ _)|done|done|].
    + f_equal. f_equal. unfold new_level.
      destruct (String.eqb (Od_Side o) BuyOrder); cbn; rewrite Z.sub_diag; done.
    + unfold new_level, side_qty. destruct (String.eqb (Od_Side o) BuyOrder); cbn;
        rewrite Z.sub_diag; unfold dec_fits; lia.
  - rewrite H0, Z.eqb_refl.
    assert (book_sorted (pre ++ join_level x o :: rest)) as Hs2.
    { pose proof (place_sorted _ _ _ _ (join_level x o) Hs Hp) as H3. cbn in H3.
      rewrite H0, Z.eqb_refl in H3. apply H3. unfold join_level. by destruct (String.eqb _ _). }
    assert (Hx : level_live x) by (rewrite Forall_app, Forall_cons in Hlive; tauto).
    destruct (Hfit x) as [Hf _]; [set_solver|].
    rewrite RemoveOrder_at; [|done|unfold join_level; by destruct (String.eqb _ _)|done|done|].
    + f_equal. f_equal. unfold join_level, level_live in *. destruct x as [xp xb xs]. cbn in *.
      destruct (String.eqb (Od_Side o) BuyOrder); cbn; rewrite Z.add_simpl_r;
        destruct (Z.eqb_spec xb 0), (Z.eqb_spec xs 0); cbn; done || tauto.
    + unfold join_level, side_qty in *. destruct (String.eqb (Od_Side o) BuyOrder); cbn;
        by rewrite Z.add_simpl_r.
Qed.

End BookProperties.

(** ** What the auction price achieves *)

(** Buyers who accept a price, sellers who accept it, and what can trade. *)
Definition buys_at_least (book : DepthBook) (p : Dec) : Z :=
  book_sum (λ it, if p <=? Bi_Price it then Bi_BuyQuantity it else 0) book.
Definition sells_at_most (book : DepthBook) (p : Dec) : Z :=
  book_sum (λ it, if Bi_Price it <=? p then Bi_SellQuantity it else 0) book.
Definition volume (book : DepthBook) (p : Dec) : Z :=
  Z.min (buys_at_least book p) (sells_at_most book p).
Definition imbalance_at (book : DepthBook) (p : Dec) : Z :=
  buys_at_least book p - sells_at_most book p.

(** Quantities are not negative and the totals are in range. *)
Record book_bounded (book : DepthBook) : Prop := {
  bb_nonneg : Forall (λ it, 0 ≤ Bi_BuyQuantity it ∧ 0 ≤ Bi_SellQuantity it) book;
  bb_buys : book_sum Bi_BuyQuantity book < 2 ^ 300;
  bb_sells : book_sum Bi_SellQuantity book < 2 ^ 300 }.

Section Auction.

(** Cumulated quantities at an index: buyers from the top, sellers from the
    bottom. *)
Definition cum_buy (b : DepthBook) (i : nat) : Z := book_sum Bi_BuyQuantity (take (S i) b).
Definition cum_sell (b : DepthBook) (i : nat) : Z := book_sum Bi_SellQuantity (drop i b).
Definition exec_at (b : DepthBook) (i : nat) : Z := Z.min (cum_buy b i) (cum_sell b i).
Definition diff_at (b : DepthBook) (i : nat) : Z := cum_buy b i - cum_sell b i.

Lemma buy_nonneg b : book_bounded b → Forall (λ it, 0 ≤ Bi_BuyQuantity it) b.
Proof. intros [H _ _]. eapply Forall_impl; [exact H|]. by intros ? []. Qed.
Lemma sell_nonneg b : book_bounded b → Forall (λ it, 0 ≤ Bi_SellQuantity it) b.
Proof. intros [H _ _]. eapply Forall_impl; [exact H|]. by intros ? []. Qed.

Lemma book_sum_take_le f b i j :
  Forall (λ it, 0 ≤ f it) b → (i ≤ j)%nat → book_sum f (take i b) ≤ book_sum f (take j b).
Proof.
  intros Hb Hij. replace j with (i + (j - i))%nat by lia. rewrite <- take_take_drop, book_sum_app.
  assert (0 ≤ book_sum f (take (j - i) (drop i b))); [|lia].
  apply book_sum_nonneg. by apply Forall_take, Forall_drop.
Qed.
Lemma book_sum_drop_le f b i j :
  Forall (λ it, 0 ≤ f it) b → (i ≤ j)%nat → book_sum f (drop j b) ≤ book_sum f (drop i b).
Proof.
  intros Hb Hij. rewrite <- (take_drop (j - i) (drop i b)), book_sum_app, drop_drop.
  replace (i + (j - i))%nat with j by lia.
  assert (0 ≤ book_sum f (take (j - i) (drop i b))); [|lia].
  apply book_sum_nonneg. by apply Forall_take, Forall_drop.
Qed.

Lemma cum_bounds b i :
  book_bounded b →
  0 ≤ cum_buy b i ≤ book_sum Bi_BuyQuantity b ∧ 0 ≤ cum_sell b i ≤ book_sum Bi_SellQuantity b.
Proof.
  intros H. pose proof (buy_nonneg _ H) as Hb. pose proof (sell_nonneg _ H) as Hs. split; split.
  - by apply book_sum_nonneg, Forall_take.
  - unfold cum_buy. rewrite <- (take_drop (S i) b) at 2. rewrite book_sum_app.
    assert (0 ≤ book_sum Bi_BuyQuantity (drop (S i) b)) by by apply book_sum_nonneg, Forall_drop. lia.
  - by apply book_sum_nonneg, Forall_drop.
  - unfold cum_sell. rewrite <- (take_drop i b) at 2. rewrite book_sum_app.
    assert (0 ≤ book_sum Bi_SellQuantity (take i b)) by by apply book_sum_nonneg, Forall_take. lia.
Qed.

Lemma cum_mono b i j :
  book_bounded b → (i ≤ j)%nat → cum_buy b i ≤ cum_buy b j ∧ cum_sell b j ≤ cum_sell b i.
Proof.
  intros H Hij. split; [apply book_sum_take_le|apply book_sum_drop_le];
    [by apply buy_nonneg|lia|by apply sell_nonneg|done].
Qed.

(** *** The running sums *)

Lemma buyAmountSum_loop_spec items sum :
  Forall (λ it, 0 ≤ Bi_BuyQuantity it) items → 0 ≤ sum →
  sum + book_sum Bi_BuyQuantity items < 2 ^ 300 →
  ∃ l, buyAmountSum_loop sum items = Ok l ∧ length l = length items ∧
  ∀ i, (i < length items)%nat →
    l !! i = Some (sum + book_sum Bi_BuyQuantity (take (S i) items)).
Proof.
  intros Hall. revert sum. induction Hall as [|it items Hit Hall IH]; intros sum Hs Hb.
  { exists []. split; [done|]. split; [done|]. cbn. lia. }
  pose proof (book_sum_nonneg _ _ Hall). rewrite book_sum_cons in Hb.
  destruct (IH (sum + Bi_BuyQuantity it)) as (l & El & Hl & Hi); [lia|lia|].
  exists ((sum + Bi_BuyQuantity it) :: l). cbn [buyAmountSum_loop]. unfold Dec_Add.
  rewrite checkDec_fits by (unfold dec_fits; lia). cbn [mbind outcome_bind]. rewrite El.
  cbn [mbind outcome_bind]. split; [done|]. cbn [length]. split; [lia|].
  intros [|i] Hlt; cbn [lookup list_lookup take]; rewrite book_sum_cons.
  - change (book_sum Bi_BuyQuantity (take 0 items)) with 0. f_equal. lia.
  - rewrite Hi by lia. f_equal. lia.
Qed.

Lemma sellAmountSum_loop_spec items :
  Forall (λ it, 0 ≤ Bi_SellQuantity it) items → book_sum Bi_SellQuantity items < 2 ^ 300 →
  ∃ l, sellAmountSum_loop items = Ok l ∧ length l = length items ∧
  ∀ i, (i < length items)%nat → l !! i = Some (book_sum Bi_SellQuantity (drop i items)).
Proof.
  induction 1 as [|it items Hit Hall IH]; intros Hb.
  { exists []. split; [done|]. split; [done|]. cbn. lia. }
  pose proof (book_sum_nonneg _ _ Hall). rewrite book_sum_cons in Hb.
  destruct IH as (l & El & Hl & Hi); [lia|].
  destruct items as [|it2 items].
  { exists [Bi_SellQuantity it]. split; [done|]. split; [done|].
    intros [|i] Hlt; [|cbn in Hlt; lia]. cbn [lookup list_lookup drop].
    rewrite book_sum_cons. change (book_sum Bi_SellQuantity []) with 0. f_equal. lia. }
  exists ((book_sum Bi_SellQuantity (it2 :: items) + Bi_SellQuantity it) :: l).
  change (sellAmountSum_loop (it :: it2 :: items))
    with (r ← sellAmountSum_loop (it2 :: items);
          next ← idx r 0; s ← Dec_Add next (Bi_SellQuantity it); Ok (s :: r)).
  rewrite El. cbn [mbind outcome_bind]. unfold idx. rewrite Hi by (cbn; lia).
  cbn [mbind outcome_bind]. change (drop 0 (it2 :: items)) with (it2 :: items). unfold Dec_Add.
  rewrite checkDec_fits by (unfold dec_fits; lia). cbn [mbind outcome_bind]. split; [done|].
  split; [cbn [length] in *; lia|]. intros [|i] Hlt.
  - cbn [lookup list_lookup drop]. rewrite (book_sum_cons _ it). f_equal. lia.
  - cbn [lookup list_lookup drop]. apply Hi. cbn [length] in *. lia.
Qed.

Lemma preMatchProcessing_spec b :
  book_bounded b → b ≠ [] →
  ∃ bs ss, preMatchProcessing b = Ok (bs, ss) ∧ length bs = length b ∧ length ss = length b ∧
  ∀ i, (i < length b)%nat → bs !! i = Some (cum_buy b i) ∧ ss !! i = Some (cum_sell b i).
Proof.
  intros H Hne. pose proof (buy_nonneg _ H) as Hb. pose proof (sell_nonneg _ H) as Hs.
  destruct H as [_ B S]. destruct b as [|it b]; [done|]. unfold preMatchProcessing.
  apply Forall_cons in Hb as [Hb1 Hb2]. rewrite book_sum_cons in B.
  destruct (buyAmountSum_loop_spec b (Bi_BuyQuantity it)) as (l & -> & Hl & Hi); [done|done|lia|].
  destruct (sellAmountSum_loop_spec (it :: b)) as (l' & -> & Hl' & Hi'); [done|done|].
  cbn [mbind outcome_bind]. eexists _, _. split; [done|]. split; [cbn; lia|]. split; [done|].
  intros i Hlt. split; [|by apply Hi']. unfold cum_buy. cbn [take]. rewrite book_sum_cons.
  destruct i as [|i]; cbn [lookup list_lookup].
  { change (book_sum Bi_BuyQuantity (take 0 b)) with 0. f_equal. lia. }
  apply Hi. cbn in Hlt. lia.
Qed.

(** *** The rules *)

Lemma foldl_max_spec l a :
  let m := foldl (λ m e, MaxDec e m) a l in
  a ≤ m ∧ Forall (λ e, e ≤ m) l ∧ (m = a ∨ m ∈ l).
Proof.
  revert a. induction l as [|e l IH]; intros a; cbn [foldl].
  { split; [done|]. split; [constructor|]. by left. }
  destruct (IH (MaxDec e a)) as (H1 & H2 & H3). cbv zeta in *. set (m := foldl _ _ l) in *.
  assert (a ≤ MaxDec e a ∧ e ≤ MaxDec e a ∧ (MaxDec e a = a ∨ MaxDec e a = e)) as (H4 & H5 & H6).
  { unfold MaxDec, Dec_LT. destruct (Z.ltb_spec e a); lia. }
  split; [lia|]. split; [constructor; [lia|done]|].
  destruct H3 as [->|H3]; [destruct H6 as [->| ->]; [by left|right; left]|right; by right].
Qed.

Lemma foldl_min_spec l a :
  let m := foldl (λ m d, MinDec m (Dec_Abs d)) a l in
  m ≤ a ∧ Forall (λ d, m ≤ Z.abs d) l ∧ (m = a ∨ ∃ d, d ∈ l ∧ m = Z.abs d).
Proof.
  revert a. induction l as [|e l IH]; intros a; cbn [foldl].
  { split; [done|]. split; [constructor|]. by left. }
  destruct (IH (MinDec a (Dec_Abs e))) as (H1 & H2 & H3). cbv zeta in *. set (m := foldl _ _ l) in *.
  assert (MinDec a (Dec_Abs e) ≤ a ∧ MinDec a (Dec_Abs e) ≤ Z.abs e ∧
    (MinDec a (Dec_Abs e) = a ∨ MinDec a (Dec_Abs e) = Z.abs e)) as (H4 & H5 & H6).
  { unfold MinDec, Dec_LT, Dec_Abs. destruct (Z.ltb_spec a (Z.abs e)); lia. }
  split; [lia|]. split; [constructor; [lia|done]|].
  destruct H3 as [->|(d & H3 & ->)]; [|right; exists d; split; [by right|done]].
  destruct H6 as [->| ->]; [by left|]. right. exists e. split; [left|done].
Qed.

(** The indices at which a list has a value are an interval when the list
    has it between any two. *)
Lemma execRule1_loop_interval M l k :
  (∀ a b c, (a ≤ b ≤ c)%nat → l !! a = Some M → l !! c = Some M → l !! b = Some M) →
  ∃ off len, execRule1_loop k M l = seq (k + off) len ∧
  ∀ i, (off ≤ i < off + len)%nat ↔ l !! i = Some M.
Proof.
  revert k. induction l as [|e l IH]; intros k Hc.
  { exists 0%nat, 0%nat. split; [done|]. intros i. split; [lia|done]. }
  destruct (IH (S k)) as (off & len & El & Hi).
  { intros a b c Hab Ha Hb. apply (Hc (S a) (S b) (S c)); [lia|done|done]. }
  cbn [execRule1_loop]. unfold Dec_Equal. destruct (Z.eqb_spec e M) as [->|Hne]; rewrite El.
  - assert (len = 0 ∨ off = 0)%nat as Ho.
    { destruct len as [|len]; [by left|right].
      destruct (decide (off = 0%nat)); [done|exfalso].
      assert (l !! off = Some M) as H1 by (apply Hi; lia).
      assert (l !! 0%nat = Some M) as H2 by (apply (Hc 0 1 (S off))%nat; [lia|done|done]).
      apply Hi in H2. lia. }
    exists 0%nat, (S len). split.
    { cbn [seq]. rewrite Nat.add_0_r. f_equal. destruct Ho as [->| ->]; [done|].
      f_equal. lia. }
    intros [|i]; cbn [lookup list_lookup]; [split; [done|lia]|]. split.
    + intros Hlt. apply Hi. lia.
    + intros H1. apply Hi in H1. lia.
  - exists (S off), len. split; [f_equal; lia|].
    intros [|i]; cbn [lookup list_lookup]; [split; [lia|naive_solver]|]. rewrite <- Hi. lia.
Qed.

Lemma imbalances_spec bs ss (D : nat → Z) idxs :
  Forall (λ i, ∃ x y, bs !! i = Some x ∧ ss !! i = Some y ∧ D i = x - y ∧ dec_fits (x - y)) idxs →
  imbalances bs ss idxs = Ok (D <$> idxs).
Proof.
  induction 1 as [|i idxs (x & y & Hx & Hy & HD & Hf) _ IH]; [done|].
  cbn [imbalances]. unfold idx. rewrite Hx, Hy. cbn [mbind outcome_bind]. unfold Dec_Sub.
  rewrite checkDec_fits by done. cbn [mbind outcome_bind]. rewrite IH. cbn. by rewrite HD.
Qed.

Lemma execRule2_select_spec m (D : nat → Z) idxs :
  execRule2_select m idxs (D <$> idxs) = base.filter (λ i, Z.abs (D i) = m) idxs.
Proof.
  induction idxs as [|i idxs IH]; [done|]. cbn [fmap list_fmap execRule2_select].
  unfold Dec_Equal, Dec_Abs in *. rewrite filter_cons.
  destruct (Z.eqb_spec (Z.abs (D i)) m); [rewrite decide_True by done|rewrite decide_False by done];
    [by rewrite <- IH|exact IH].
Qed.

(** The ends of an ascending list of indices. *)
Lemma filter_seq_ends (P : nat → Prop) `{∀ i, Decision (P i)} a n :
  base.filter P (seq a n) ≠ [] →
  ∃ f g, base.filter P (seq a n) !! 0%nat = Some f ∧
  base.filter P (seq a n) !! (length (base.filter P (seq a n)) - 1)%nat = Some g ∧
  ∀ i, i ∈ base.filter P (seq a n) → (f ≤ i ≤ g)%nat.
Proof.
  revert a. induction n as [|n IH]; intros a Hne; [done|].
  cbn [seq] in *. rewrite filter_cons in *. case_decide as Ha; [|by apply IH].
  destruct (decide (base.filter P (seq (S a) n) = [])) as [->|Hne'].
  { exists a, a. split; [done|]. split; [done|]. intros i ->%list_elem_of_singleton. lia. }
  destruct (IH (S a) Hne') as (f & g & Hf & Hg & Hall).
  exists a, g. split; [done|]. split.
  { destruct (base.filter P (seq (S a) n)) as [|x l] eqn:E; [done|]. cbn [length] in *.
    replace (S (S (length l)) - 1)%nat with (S (S (length l) - 1)) by lia. done. }
  intros i [->|Hi]%elem_of_cons.
  - split; [done|]. apply list_elem_of_lookup_2 in Hg. apply list_elem_of_filter in Hg as [_ Hg].
    apply elem_of_seq in Hg. lia.
  - pose proof (Hall i Hi). apply list_elem_of_lookup_2 in Hf.
    apply list_elem_of_filter in Hf as [_ Hf]. apply elem_of_seq in Hf. lia.
Qed.

(** The reference price that the market pressure selects. *)
Definition pressure_ref (dFirst dLast : Z) (refPrice : Dec) (pricePrecision : Z) : outcome Dec :=
  if 0 <? dFirst then r ← Dec_Mul refPrice upperFactor; Dec_RoundDecimal r pricePrecision
  else if dLast <? 0 then r ← Dec_Mul refPrice lowerFactor; Dec_RoundDecimal r pricePrecision
  else Dec_RoundDecimal refPrice pricePrecision.

Lemma round_total r prec : 0 ≤ prec ≤ 18 → 0 ≤ r < 2 ^ 190 → ∃ q, Dec_RoundDecimal r prec = Ok q.
Proof.
  intros Hp Hr. eexists. apply Dec_RoundDecimal_value; [done|..].
  all: assert (0 < 10 ^ prec ≤ 10 ^ 18) by (split; [apply Z.pow_pos_nonneg; lia|apply Z.pow_le_mono_r; lia]).
  all: assert (0 ≤ r * 10 ^ prec < 2 ^ 250) by nia.
  - unfold dec_fits. lia.
  - eapply Z.le_lt_trans; [apply chop_bound|]. lia.
Qed.

Lemma pressure_ref_total df dg ref prec :
  0 ≤ prec ≤ 18 → 0 ≤ ref < 2 ^ 128 → ∃ ref', pressure_ref df dg ref prec = Ok ref'.
Proof.
  intros Hp Hr. unfold pressure_ref.
  assert (∀ f, 0 ≤ f < 2 ^ 61 → ∃ q, (r ← Dec_Mul ref f; Dec_RoundDecimal r prec) = Ok q) as Hmul.
  { intros f Hf. assert (0 ≤ ref * f < 2 ^ 189) by nia.
    pose proof (chop_bound (ref * f)). assert (0 ≤ chopPrecisionAndRound (ref * f)).
    { apply chop_nonneg. lia. }
    unfold Dec_Mul. rewrite checkDec_fits by (unfold dec_fits; lia). cbn [mbind outcome_bind].
    apply round_total; lia. }
  destruct (0 <? df); [by apply Hmul|]. destruct (dg <? 0); [by apply Hmul|]. apply round_total; lia.
Qed.

Lemma execution_spec b bs ss :
  length bs = length b → length ss = length b →
  (∀ i, (i < length b)%nat → bs !! i = Some (cum_buy b i) ∧ ss !! i = Some (cum_sell b i)) →
  ∀ i x, zip_with MinDec bs ss !! i = Some x ↔ (i < length b)%nat ∧ x = exec_at b i.
Proof.
  intros Hl1 Hl2 Hi i x. rewrite lookup_zip_with. split.
  - intros H. destruct (decide (i < length b)%nat) as [Hlt|Hge].
    + destruct (Hi i Hlt) as [H1 H2]. rewrite H1, H2 in H. cbn in H. injection H as <-.
      split; [done|]. unfold exec_at, MinDec, Dec_LT. destruct (Z.ltb_spec (cum_buy b i) (cum_sell b i)); lia.
    + rewrite (proj2 (lookup_ge_None bs i)) in H by lia. done.
  - intros [Hlt ->]. destruct (Hi i Hlt) as [-> ->]. cbn. f_equal.
    unfold exec_at, MinDec, Dec_LT. destruct (Z.ltb_spec (cum_buy b i) (cum_sell b i)); lia.
Qed.

(** The volume is at its maximum on an interval of levels. *)
Definition best_interval (b : DepthBook) (M : Z) (off len : nat) : Prop :=
  ∀ i, (off ≤ i < off + len)%nat ↔ (i < length b)%nat ∧ exec_at b i = M.

(** Of these, [f] and [g] are the first and the last with the least
    imbalance. *)
Record least_imbalance (b : DepthBook) (off len f g : nat) : Prop := {
  li_f : (off ≤ f < off + len)%nat;
  li_g : (off ≤ g < off + len)%nat;
  li_min i : (off ≤ i < off + len)%nat → Z.abs (diff_at b f) ≤ Z.abs (diff_at b i);
  li_eq : Z.abs (diff_at b g) = Z.abs (diff_at b f);
  li_ends i : (off ≤ i < off + len)%nat → Z.abs (diff_at b i) = Z.abs (diff_at b f) → (f ≤ i ≤ g)%nat }.

Lemma execRule2_spec b bs ss M off len :
  book_bounded b → best_interval b M off len → (0 < len)%nat →
  (∀ i, (i < length b)%nat → bs !! i = Some (cum_buy b i) ∧ ss !! i = Some (cum_sell b i)) →
  ∃ idxs f g, execRule2 bs ss (seq off len) = Ok (idxs, diff_at b <$> seq off len) ∧
  idxs !! 0%nat = Some f ∧ idxs !! (length idxs - 1)%nat = Some g ∧ least_imbalance b off len f g.
Proof.
  intros Hb Hint Hlen Hi.
  assert (imbalances bs ss (seq off len) = Ok (diff_at b <$> seq off len)) as Him.
  { apply imbalances_spec. apply Forall_forall. intros i Hin%elem_of_seq. apply Hint in Hin as [Hlt _].
    destruct (Hi i Hlt) as [H1 H2]. exists (cum_buy b i), (cum_sell b i). split_and!; [done..|].
    destruct (cum_bounds b i Hb) as [? ?], Hb. unfold dec_fits. lia. }
  unfold execRule2. rewrite Him. cbn [mbind outcome_bind].
  destruct len as [|len]; [lia|]. cbn [seq fmap list_fmap idx lookup list_lookup tail].
  cbn [mbind outcome_bind]. set (m := foldl _ _ _).
  destruct (foldl_min_spec (diff_at b <$> seq (S off) len) (Dec_Abs (diff_at b off))) as (H1 & H2 & H3).
  fold m in H1, H2, H3. unfold Dec_Abs in H1, H3.
  assert (∀ i, (off ≤ i < off + S len)%nat → m ≤ Z.abs (diff_at b i)) as Hmin.
  { intros i Hr. destruct (decide (i = off)) as [->|]; [done|].
    rewrite Forall_fmap in H2. rewrite Forall_forall in H2. apply (H2 i). apply elem_of_seq. lia. }
  assert (∃ k, (off ≤ k < off + S len)%nat ∧ m = Z.abs (diff_at b k)) as (k & Hk & Hmk).
  { destruct H3 as [H3|(d & Hd & H3)]; [exists off; split; [lia|done]|].
    apply list_elem_of_fmap in Hd as (k & -> & Hk%elem_of_seq). exists k. split; [lia|done]. }
  rewrite <- (fmap_cons (diff_at b) off (seq (S off) len)).
  change (off :: seq (S off) len) with (seq off (S len)).
  rewrite execRule2_select_spec.
  destruct (filter_seq_ends (λ i, Z.abs (diff_at b i) = m) off (S len)) as (f & g & Hf & Hg & Hall).
  { intros E. assert (k ∈ base.filter (λ i, Z.abs (diff_at b i) = m) (seq off (S len))) as Hin.
    { apply list_elem_of_filter. split; [done|]. by apply elem_of_seq. }
    rewrite E in Hin. by apply not_elem_of_nil in Hin. }
  eexists _, f, g. split; [done|]. split; [done|]. split; [done|].
  pose proof (list_elem_of_lookup_2 _ _ _ Hf) as [Hf1 Hf2%elem_of_seq]%list_elem_of_filter.
  pose proof (list_elem_of_lookup_2 _ _ _ Hg) as [Hg1 Hg2%elem_of_seq]%list_elem_of_filter.
  split; [done|done| | |].
  - intros i Hr. rewrite Hf1. by apply Hmin.
  - congruence.
  - intros i Hr E. apply Hall. apply list_elem_of_filter. split; [congruence|]. by apply elem_of_seq.
Qed.

Lemma idx_Some {A} (l : list A) i x : l !! i = Some x → idx l i = Ok x.
Proof. intros H. unfold idx. by rewrite H. Qed.

Lemma convex_exec b M a i c :
  book_bounded b → (∀ i, (i < length b)%nat → exec_at b i ≤ M) →
  (a ≤ i ≤ c)%nat → (c < length b)%nat → exec_at b a = M → exec_at b c = M → exec_at b i = M.
Proof.
  intros Hb Hmax Hord Hc Ha Hcc. assert (exec_at b i ≤ M) by (apply Hmax; lia).
  destruct (cum_mono b a i Hb), (cum_mono b i c Hb); [lia..|]. unfold exec_at in *. lia.
Qed.

Lemma execRule3_spec b off len f g idxs ref prec :
  (f < length b)%nat → (g < length b)%nat →
  idxs !! 0%nat = Some f → idxs !! (length idxs - 1)%nat = Some g →
  (off ≤ f < off + len)%nat → (off ≤ g < off + len)%nat →
  0 ≤ prec ≤ 18 → 0 ≤ ref < 2 ^ 128 →
  ∃ hi lo ref', b !! f = Some hi ∧ b !! g = Some lo ∧
  pressure_ref (diff_at b f) (diff_at b g) ref prec = Ok ref' ∧
  execRule3 b off ref prec idxs (diff_at b <$> seq off len)
  = Ok (bestPriceFromRefPrice (Bi_Price hi) (Bi_Price lo) ref').
Proof.
  intros Hfl Hgl Hf Hg Hfi Hgi Hp Hr.
  destruct (lookup_lt_is_Some_2 b f Hfl) as [hi Hhi]. destruct (lookup_lt_is_Some_2 b g Hgl) as [lo Hlo].
  destruct (pressure_ref_total (diff_at b f) (diff_at b g) ref prec Hp Hr) as [ref' Href].
  exists hi, lo, ref'. split_and!; [done..|].
  assert (∀ i, (off ≤ i < off + len)%nat →
    idx_off (diff_at b <$> seq off len) i off = Ok (diff_at b i)) as Hoff.
  { intros i Hi. unfold idx_off. destruct (Nat.ltb_spec i off); [lia|]. unfold idx.
    rewrite list_lookup_fmap, lookup_seq_lt by lia. cbn. do 2 f_equal. lia. }
  unfold execRule3. rewrite (idx_Some _ _ _ Hf), (idx_Some _ _ _ Hg). cbn [mbind outcome_bind].
  rewrite (Hoff f), (Hoff g) by done. cbn [mbind outcome_bind].
  unfold Dec_GT. rewrite Z.gtb_ltb. cbn [mbind outcome_bind]. unfold Dec_LT. change ZeroDec with 0.
  unfold pressure_ref in Href. rewrite Href. cbn [mbind outcome_bind].
  by rewrite (idx_Some _ _ _ Hhi), (idx_Some _ _ _ Hlo).
Qed.

(** The computation, level by level: the volume is the largest one, and the
    price lies between two levels of the interval in which it is reached. *)
Lemma auction_core b prec ref :
  book_bounded b → b ≠ [] → 0 ≤ prec ≤ 18 → 0 ≤ ref < 2 ^ 128 →
  ∃ M best, periodicAuctionMatchPrice b prec ref = Ok (best, M) ∧ 0 ≤ M ∧
  (∀ i, (i < length b)%nat → exec_at b i ≤ M) ∧
  (M = 0 ∧ best = ref ∨
   0 < M ∧ ∃ off len f g hi lo ref', best_interval b M off len ∧ least_imbalance b off len f g ∧
   b !! f = Some hi ∧ b !! g = Some lo ∧
   best = bestPriceFromRefPrice (Bi_Price hi) (Bi_Price lo) ref' ∧
   (f = g ∨ pressure_ref (diff_at b f) (diff_at b g) ref prec = Ok ref')).
Proof.
  intros Hb Hne Hp Hr. unfold periodicAuctionMatchPrice.
  destruct (preMatchProcessing_spec b Hb Hne) as (bs & ss & -> & Hl1 & Hl2 & Hi).
  cbn [mbind outcome_bind]. destruct (Nat.eqb_spec (length bs) 0) as [E|_].
  { rewrite Hl1 in E. by apply nil_length_inv in E. }
  pose proof (execution_spec b bs ss Hl1 Hl2 Hi) as Hex. unfold execRule0.
  set (ex := zip_with MinDec bs ss) in *. destruct (foldl_max_spec ex ZeroDec) as (H1 & H2 & H3).
  set (M := foldl _ ZeroDec ex) in *. clearbody M. exists M. change ZeroDec with 0 in *.
  assert (∀ i, (i < length b)%nat → exec_at b i ≤ M) as Hmax.
  { intros i Hlt. rewrite Forall_lookup in H2. apply (H2 i). by apply Hex. }
  rewrite Dec_IsZero_eq. destruct (Z.eqb_spec M 0) as [->|HM].
  { exists ref. split_and!; [done..|]. by left. }
  destruct H3 as [->|H3]; [lia|]. apply list_elem_of_lookup in H3 as [k Hk].
  destruct (execRule1_loop_interval M ex 0) as (off & len & Hx & Hint).
  { intros a i c Hord Ha Hc. apply Hex in Ha as [Ha1 Ha2], Hc as [Hc1 Hc2]. apply Hex.
    split; [lia|]. symmetry. by apply (convex_exec b M a i c). }
  assert (best_interval b M off len) as HI.
  { intros i. rewrite Hint, Hex. naive_solver. }
  assert (0 < len)%nat as Hlen by (apply Hint in Hk; lia).
  unfold execRule1. rewrite Hx. clear Hx Hint Hk. cbn [Nat.add].
  destruct (execRule2_spec b bs ss M off len Hb HI Hlen Hi) as (idxs & f & g & H4 & Hf & Hg & HL).
  assert (f < length b ∧ g < length b)%nat as [Hfl Hgl].
  { destruct HL as [Hf1 Hg1 _ _ _]. apply HI in Hf1, Hg1. lia. }
  destruct (execRule3_spec b off len f g idxs ref prec) as (hi & lo & ref' & Hhi & Hlo & Href & H5);
    [done..|apply HL|apply HL|done|done|].
  assert (f = g → Bi_Price lo = Bi_Price hi) as Hsame by congruence.
  rewrite length_seq. destruct (Nat.eqb_spec len 1) as [->|Hlen1].
  - assert (f = off ∧ g = off) as [-> ->] by (destruct HL; lia).
    cbn [seq]. rewrite (idx_Some _ 0 off) by done. cbn [mbind outcome_bind]. rewrite (idx_Some _ _ _ Hhi).
    cbn [mbind outcome_bind]. exists (Bi_Price hi). split_and!; [done..|]. right. split; [lia|].
    exists off, 1%nat, off, off, hi, lo, (Bi_Price hi). split_and!; try done; [|by left].
    unfold bestPriceFromRefPrice, Dec_LTE. by rewrite Z.leb_refl.
  - rewrite H4. cbn [mbind outcome_bind]. destruct (Nat.eqb_spec (length idxs) 1) as [E|_].
    + rewrite E in Hg. change (1 - 1)%nat with 0%nat in Hg.
      assert (f = g) as <- by congruence. rewrite (idx_Some _ _ _ Hf). cbn [mbind outcome_bind].
      rewrite (idx_Some _ _ _ Hhi). cbn [mbind outcome_bind]. exists (Bi_Price hi).
      split_and!; [done..|]. right. split; [lia|].
      exists off, len, f, f, hi, lo, (Bi_Price hi). split_and!; try done; [|by left].
      unfold bestPriceFromRefPrice, Dec_LTE. by rewrite Z.leb_refl.
    + rewrite (idx_Some _ 0 off) by (rewrite lookup_seq_lt by lia; by rewrite Nat.add_0_r). cbn [mbind outcome_bind].
      rewrite H5. cbn [mbind outcome_bind]. eexists. split_and!; [done..|]. right. split; [lia|].
      exists off, len, f, g, hi, lo, ref'. split_and!; try done. by right.
Qed.

(** *** From levels to prices *)

Lemma sums_split b pre post p :
  b = pre ++ post → Forall (λ it, p < Bi_Price it) pre → Forall (λ it, Bi_Price it ≤ p) post →
  sells_at_most b p = book_sum Bi_SellQuantity post ∧
  buys_at_least b p = book_sum Bi_BuyQuantity pre
    + book_sum (λ it, if p <=? Bi_Price it then Bi_BuyQuantity it else 0) post.
Proof.
  intros -> H1 H2. unfold sells_at_most, buys_at_least. rewrite !book_sum_app. split.
  - rewrite (book_sum_zero _ pre), Z.add_0_l.
    + apply book_sum_ext. eapply Forall_impl; [exact H2|]. intros it Hit. cbn in *.
      by destruct (Z.leb_spec (Bi_Price it) p); [|lia].
    + eapply Forall_impl; [exact H1|]. intros it Hit. cbn in *.
      by destruct (Z.leb_spec (Bi_Price it) p); [lia|].
  - f_equal. apply book_sum_ext. eapply Forall_impl; [exact H1|]. intros it Hit. cbn in *.
    by destruct (Z.leb_spec p (Bi_Price it)); [|lia].
Qed.

(** At the price of a level the cumulated quantities are those of the
    level. *)
Lemma level_sums b i it :
  book_sorted b → b !! i = Some it →
  buys_at_least b (Bi_Price it) = cum_buy b i ∧ sells_at_most b (Bi_Price it) = cum_sell b i.
Proof.
  intros Hs Hi. pose proof (take_drop_middle b i it Hi) as E.
  assert (book_sorted (take i b ++ it :: drop (S i) b)) as Hs' by (by rewrite E).
  apply sorted_app in Hs' as (_ & H2 & H3). apply StronglySorted_inv in H2 as [_ H2].
  assert (drop i b = it :: drop (S i) b) as Ed by by apply drop_S.
  destruct (sums_split b (take i b) (it :: drop (S i) b) (Bi_Price it)) as [S1 S2].
  - done.
  - eapply Forall_impl; [exact H3|]. intros x Hx. by apply Forall_inv in Hx.
  - constructor; [done|]. eapply Forall_impl; [exact H2|]. cbn. lia.
  - rewrite S1, S2. unfold cum_buy, cum_sell. rewrite Ed, (take_S_r _ _ _ Hi), book_sum_app.
    split; [|done]. f_equal. rewrite !book_sum_cons, Z.leb_refl. change (book_sum Bi_BuyQuantity []) with 0.
    f_equal. apply book_sum_zero. eapply Forall_impl; [exact H2|]. intros x Hx. cbn in *.
    by destruct (Z.leb_spec (Bi_Price it) (Bi_Price x)); [lia|].
Qed.

(** Any price, seen from the levels around it. *)
Lemma price_sums b p :
  book_sorted b →
  (∃ i it, b !! i = Some it ∧ Bi_Price it = p) ∨
  ∃ L, (L ≤ length b)%nat ∧ buys_at_least b p = book_sum Bi_BuyQuantity (take L b) ∧
    sells_at_most b p = book_sum Bi_SellQuantity (drop L b) ∧
    (∀ i it, b !! i = Some it → Bi_Price it ≠ p ∧ (p < Bi_Price it ↔ (i < L)%nat)).
Proof.
  intros Hs. pose proof (book_place_search b p Hs) as Hp. set (r := book_search b p) in *.
  inversion Hp as [? ? E1 H1 H2|? x rest E1 H0 H1 H2 E2]; subst.
  - right. exists (length (take r b)). split; [rewrite length_take; lia|].
    destruct (sums_split b (take r b) (drop r b) p) as [S1 S2]; [done|done| |].
    { eapply Forall_impl; [exact H2|]. cbn. lia. }
    rewrite S1, S2. rewrite (book_sum_zero _ (drop r b)), Z.add_0_r.
    2: { eapply Forall_impl; [exact H2|]. intros it Hit. cbn in *.
         by destruct (Z.leb_spec p (Bi_Price it)); [lia|]. }
    assert (∀ pre post, b = pre ++ post → take (length pre) b = pre ∧ drop (length pre) b = post)
      as Hcut by (intros ? ? ->; by rewrite take_app_length, drop_app_length).
    destruct (Hcut _ _ E1) as [-> ->].
    split_and!; [done..|]. intros i it Hit.
    assert (Bi_Price it ≠ p).
    { assert (it ∈ take r b ++ drop r b) as [Hin|Hin]%elem_of_app
        by (rewrite <- E1; by eapply list_elem_of_lookup_2).
      - rewrite Forall_forall in H1. specialize (H1 _ Hin). cbn in H1. lia.
      - rewrite Forall_forall in H2. specialize (H2 _ Hin). cbn in H2. lia. }
    split; [done|]. rewrite Forall_lookup in H1, H2. split.
    + intros Hlt. destruct (decide (i < length (take r b))%nat) as [|Hge]; [done|exfalso].
      rewrite E1, lookup_app_r in Hit by lia. specialize (H2 _ _ Hit). cbn in H2. lia.
    + intros Hlt. rewrite E1, lookup_app_l in Hit by done. by apply (H1 _ _ Hit).
  - left. exists (length (take r b)), x. split; [|done].
    assert (∀ pre, b = pre ++ x :: rest → b !! length pre = Some x) as Hcut
      by (intros ? ->; by rewrite list_lookup_middle). by apply Hcut.
Qed.

Lemma volume_le b M p :
  book_sorted b → book_bounded b → 0 ≤ M → (∀ i, (i < length b)%nat → exec_at b i ≤ M) →
  volume b p ≤ M.
Proof.
  intros Hs Hb HM Hmax. unfold volume.
  destruct (price_sums b p Hs) as [(i & it & Hi & <-)|(L & HL & -> & -> & _)].
  - destruct (level_sums b i it Hs Hi) as [-> ->]. apply (Hmax i). by eapply lookup_lt_Some.
  - destruct L as [|L]; [change (book_sum Bi_BuyQuantity (take 0 b)) with 0; lia|]. specialize (Hmax L). unfold exec_at, cum_buy, cum_sell in Hmax.
    pose proof (book_sum_drop_le Bi_SellQuantity b L (S L) (sell_nonneg _ Hb)). lia.
Qed.

(** Between two levels of the interval the volume is the same. *)
Lemma volume_between b M off len f g hi lo p :
  book_sorted b → book_bounded b → best_interval b M off len →
  (off ≤ f < off + len)%nat → (off ≤ g < off + len)%nat →
  b !! f = Some hi → b !! g = Some lo → Bi_Price lo ≤ p ≤ Bi_Price hi → M ≤ volume b p.
Proof.
  intros Hs Hb HI Hf Hg Hhi Hlo Hp. unfold volume.
  assert (∀ i j it it', b !! i = Some it → b !! j = Some it' → Bi_Price it ≤ Bi_Price it' → (j ≤ i)%nat)
    as Hord.
  { intros i j it it' H1 H2 Hle. destruct (decide (j ≤ i)%nat) as [|Hn]; [done|].
    pose proof (sorted_lookup _ _ _ _ _ Hs H1 H2). lia. }
  destruct (price_sums b p Hs) as [(i & it & Hi & <-)|(L & HL & -> & -> & Hlt)].
  - destruct (level_sums b i it Hs Hi) as [-> ->].
    assert (f ≤ i ≤ g)%nat as Hfg by (split; eapply Hord; done || lia).
    assert (off ≤ i < off + len)%nat as [_ He]%HI by lia. unfold exec_at in He. lia.
  - destruct (Hlt _ _ Hlo) as [_ HgL], (Hlt _ _ Hhi) as [Hne HfL].
    assert (¬ (g < L)%nat) by (rewrite <- HgL; lia).
    assert (f < L)%nat by (apply HfL; lia).
    assert (off ≤ L - 1 < off + len)%nat as [_ H1]%HI by lia.
    assert (off ≤ L < off + len)%nat as [_ H2]%HI by lia.
    unfold exec_at, cum_buy, cum_sell in *. replace (S (L - 1)) with L in H1 by lia. lia.
Qed.

Lemma ends_prices b off len f g hi lo :
  book_sorted b → least_imbalance b off len f g → b !! f = Some hi → b !! g = Some lo →
  Bi_Price lo ≤ Bi_Price hi.
Proof.
  intros Hs HL Hf Hg. assert (f ≤ g)%nat as Hfg by by apply (li_ends _ _ _ _ _ HL f (li_f _ _ _ _ _ HL)).
  destruct (decide (f = g)) as [->|]; [assert (lo = hi) as -> by congruence; lia|].
  pose proof (sorted_lookup b f g hi lo Hs Hf Hg). lia.
Qed.

Lemma bestPrice_clamp hi lo ref :
  lo ≤ hi → bestPriceFromRefPrice hi lo ref = Z.max lo (Z.min hi ref).
Proof.
  intros H. unfold bestPriceFromRefPrice, Dec_LTE, Dec_GTE. rewrite Z.geb_leb.
  destruct (Z.leb_spec hi ref), (Z.leb_spec ref lo); lia.
Qed.

(** The volume is traded at the returned price. *)
Lemma match_price_volume b prec ref best M :
  book_sorted b → book_bounded b → 0 ≤ prec ≤ 18 → 0 ≤ ref < 2 ^ 128 →
  periodicAuctionMatchPrice b prec ref = Ok (best, M) → 0 < M → volume b best = M.
Proof.
  intros Hs Hb Hp Hr Hrun HM. assert (b ≠ []) as Hne.
  { intros ->. cbn in Hrun. injection Hrun as <- <-. done. }
  destruct (auction_core b prec ref Hb Hne Hp Hr) as (M' & best' & E & HM0 & Hmax & Hcase).
  rewrite E in Hrun. injection Hrun as -> ->. apply Z.le_antisymm; [by apply volume_le|].
  destruct Hcase as [[-> _]|(_ & off & len & f & g & hi & lo & ref' & HI & HL & Hf & Hg & -> & _)]; [lia|].
  pose proof (ends_prices _ _ _ _ _ _ _ Hs HL Hf Hg) as Hlh.
  apply (volume_between b M off len f g hi lo); [done|done|exact HI|apply HL|apply HL|done|done|].
  rewrite bestPrice_clamp by done. lia.
Qed.

(** C2: the auction price maximises the trade: on a sorted book with
    quantities in range [periodicAuctionMatchPrice] returns a price and a
    volume such that no price at all, in the book or between two levels, lets
    more be traded, and when anything can be traded the returned price lets
    exactly that volume be traded. *)
Theorem match_price_optimal b prec ref :
  book_sorted b → book_bounded b → b ≠ [] → 0 ≤ prec ≤ 18 → 0 ≤ ref < 2 ^ 128 →
  ∃ best M, periodicAuctionMatchPrice b prec ref = Ok (best, M) ∧
  (∀ p, volume b p ≤ M) ∧ (0 < M → volume b best = M).
Proof.
  intros Hs Hb Hne Hp Hr.
  destruct (auction_core b prec ref Hb Hne Hp Hr) as (M & best & E & HM & Hmax & Hcase).
  exists best, M. split; [done|]. split; [intros p; by apply volume_le|].
  intros HM'. by apply (match_price_volume b prec ref).
Qed.

(** The levels that the first two rules leave: largest volume, and among
    these the least imbalance. *)
Definition is_candidate (b : DepthBook) (M : Z) (it : DepthBookItem) : Prop :=
  it ∈ b ∧ volume b (Bi_Price it) = M ∧
  ∀ it', it' ∈ b → volume b (Bi_Price it') = M →
    Z.abs (imbalance_at b (Bi_Price it)) ≤ Z.abs (imbalance_at b (Bi_Price it')).

Lemma level_volume b i it :
  book_sorted b → b !! i = Some it →
  volume b (Bi_Price it) = exec_at b i ∧ imbalance_at b (Bi_Price it) = diff_at b i.
Proof.
  intros Hs Hi. unfold volume, imbalance_at, exec_at, diff_at.
  by destruct (level_sums b i it Hs Hi) as [-> ->].
Qed.

Lemma candidate_iff b M off len f g i it :
  book_sorted b → best_interval b M off len → least_imbalance b off len f g → b !! i = Some it →
  is_candidate b M it ↔ (off ≤ i < off + len)%nat ∧ Z.abs (diff_at b i) = Z.abs (diff_at b f).
Proof.
  intros Hs HI HL Hi. destruct (level_volume b i it Hs Hi) as [Hv Hd].
  pose proof (lookup_lt_Some _ _ _ Hi) as Hlt. unfold is_candidate. rewrite Hv, Hd. split.
  - intros (_ & He & Hmin). assert (off ≤ i < off + len)%nat as Hr by by apply HI. split; [done|].
    pose proof (li_min _ _ _ _ _ HL i Hr). destruct (proj1 (HI f) (li_f _ _ _ _ _ HL)) as [Hfl Hfe].
    destruct (lookup_lt_is_Some_2 b f Hfl) as [x Hx]. destruct (level_volume b f x Hs Hx) as [Hv' Hd'].
    specialize (Hmin x (list_elem_of_lookup_2 _ _ _ Hx)). rewrite Hv', Hd' in Hmin.
    specialize (Hmin Hfe). lia.
  - intros [Hr He]. split; [by eapply list_elem_of_lookup_2|]. split; [by apply HI|].
    intros x [j Hj]%list_elem_of_lookup Hvx. destruct (level_volume b j x Hs Hj) as [Hv' Hd'].
    rewrite Hv' in Hvx. rewrite Hd'. rewrite He. apply (li_min _ _ _ _ _ HL). apply HI.
    split; [by eapply lookup_lt_Some|done].
Qed.

(** C35: ties are broken as documented: the price lies between the lowest and
    the highest candidate level (largest volume, then least absolute
    imbalance), and it is the nearest price in that range to a reference:
    the last price plus 5% if all candidates have more buyers, minus 5% if
    all have more sellers, and the last price itself otherwise, rounded to the
    price digits of the product. *)
Theorem match_price_rules b prec ref best M :
  book_sorted b → book_bounded b → 0 ≤ prec ≤ 18 → 0 ≤ ref < 2 ^ 128 →
  periodicAuctionMatchPrice b prec ref = Ok (best, M) → 0 < M →
  ∃ hi lo ref', is_candidate b M hi ∧ is_candidate b M lo ∧
  (∀ it, is_candidate b M it → Bi_Price lo ≤ Bi_Price it ≤ Bi_Price hi) ∧
  best = Z.max (Bi_Price lo) (Z.min (Bi_Price hi) ref') ∧
  (Bi_Price hi = Bi_Price lo ∨
   (∀ it, is_candidate b M it → 0 < imbalance_at b (Bi_Price it)) ∧
     (r ← Dec_Mul ref upperFactor; Dec_RoundDecimal r prec) = Ok ref' ∨
   (∀ it, is_candidate b M it → imbalance_at b (Bi_Price it) < 0) ∧
     (r ← Dec_Mul ref lowerFactor; Dec_RoundDecimal r prec) = Ok ref' ∨
   imbalance_at b (Bi_Price hi) ≤ 0 ≤ imbalance_at b (Bi_Price lo) ∧
     Dec_RoundDecimal ref prec = Ok ref').
Proof.
  intros Hs Hb Hp Hr Hrun HM. assert (b ≠ []) as Hne.
  { intros ->. cbn in Hrun. injection Hrun as <- <-. done. }
  destruct (auction_core b prec ref Hb Hne Hp Hr) as (M' & best' & E & _ & _ & Hcase).
  rewrite E in Hrun. injection Hrun as -> ->.
  destruct Hcase as [[-> _]|(_ & off & len & f & g & hi & lo & ref' & HI & HL & Hf & Hg & -> & Href)]; [lia|].
  exists hi, lo, ref'. destruct (level_volume b f hi Hs Hf) as [_ Df].
  destruct (level_volume b g lo Hs Hg) as [_ Dg].
  pose proof (ends_prices _ _ _ _ _ _ _ Hs HL Hf Hg) as Hlh.
  assert (∀ it, is_candidate b M it → ∃ i, b !! i = Some it ∧ (f ≤ i ≤ g)%nat) as Hends.
  { intros it Hc. assert (it ∈ b) as Hin by apply Hc. apply list_elem_of_lookup in Hin as [i Hi].
    exists i. split; [done|].
    destruct (proj1 (candidate_iff b M off len f g i it Hs HI HL Hi) Hc) as [? ?]. by apply (li_ends _ _ _ _ _ HL). }
  split_and!.
  - apply (candidate_iff b M off len f g f hi Hs HI HL Hf). split; [apply HL|done].
  - apply (candidate_iff b M off len f g g lo Hs HI HL Hg). split; apply HL.
  - intros it (i & Hi & Hfi)%Hends. split.
    + destruct (decide (i = g)) as [->|]; [assert (it = lo) as -> by congruence; lia|].
      pose proof (sorted_lookup b i g it lo Hs Hi Hg). lia.
    + destruct (decide (i = f)) as [->|]; [assert (it = hi) as -> by congruence; lia|].
      pose proof (sorted_lookup b f i hi it Hs Hf Hi). lia.
  - by apply bestPrice_clamp.
  - destruct Href as [->|Href]; [left; congruence|right]. unfold pressure_ref in Href. rewrite Df, Dg.
    assert (∀ i j, (i ≤ j)%nat → diff_at b i ≤ diff_at b j) as Hmono.
    { intros i j Hij. destruct (cum_mono b i j Hb Hij). unfold diff_at. lia. }
    destruct (Z.ltb_spec 0 (diff_at b f)).
    + left. split; [|done]. intros it (i & Hi & Hfi)%Hends.
      destruct (level_volume b i it Hs Hi) as [_ ->]. pose proof (Hmono f i). lia.
    + right. destruct (Z.ltb_spec (diff_at b g) 0); [left|right]; split; try done.
      intros it (i & Hi & Hfi)%Hends. destruct (level_volume b i it Hs Hi) as [_ ->].
      pose proof (Hmono i g). lia.
Qed.

End Auction.

(** ** Examples *)

Section BookWitnesses.

Definition demo_book : DepthBook :=
  [mkItem 12 5 0; mkItem 11 0 0; mkItem 10 3 1; mkItem 9 0 4; mkItem 8 1 2].
Definition demo_order (side : string) (p q : Z) : Order :=
  mkOrder "ID0000000001-1" "alice" "aaa_okt" side p q 0 0 q q 0 10 (mkDecCoin "okt" 0).

Lemma demo_book_sorted : book_sorted demo_book.
Proof. unfold book_sorted. repeat constructor. Qed.
Lemma demo_book_bounded : book_bounded demo_book.
Proof. split; [by repeat constructor|by vm_compute..]. Qed.

Lemma InsertOrder_spec_witness :
  ∃ book', InsertOrder demo_book (demo_order BuyOrder 10 4) = Ok book' ∧ book_sorted book' ∧
  ∀ side p, valid_side side →
    level_qty side book' p = level_qty side demo_book p
      + (if decide (side = BuyOrder ∧ p = 10) then 4 else 0).
Proof.
  apply (InsertOrder_spec demo_book (demo_order BuyOrder 10 4)); [exact demo_book_sorted|by left|].
  intros it Hin. unfold demo_book in Hin. unfold dec_fits.
  repeat (apply elem_of_cons in Hin as [->|Hin]; [by vm_compute|]). by apply not_elem_of_nil in Hin.
Defined.

Lemma InsertOrder_RemoveOrder_roundtrip_witness :
  let b := [mkItem 12 5 0; mkItem 10 3 1] in
  ∃ book', InsertOrder b (demo_order SellOrder 11 4) = Ok book' ∧
    RemoveOrder book' (demo_order SellOrder 11 4) = Ok b.
Proof.
  intros b. apply (InsertOrder_RemoveOrder_roundtrip b (demo_order SellOrder 11 4)).
  - unfold book_sorted. repeat constructor.
  - repeat constructor; cbn; lia.
  - by right.
  - done.
  - intros it Hin. unfold b in Hin. unfold dec_fits.
    repeat (apply elem_of_cons in Hin as [->|Hin]; [by vm_compute|]). by apply not_elem_of_nil in Hin.
Defined.

Lemma match_price_optimal_witness :
  ∃ best M, periodicAuctionMatchPrice demo_book 18 10 = Ok (best, M) ∧
  (∀ p, volume demo_book p ≤ M) ∧ (0 < M → volume demo_book best = M).
Proof.
  apply match_price_optimal; [exact demo_book_sorted|exact demo_book_bounded|done|lia|lia].
Defined.

Lemma match_price_rules_witness :
  ∃ hi lo ref', is_candidate demo_book 7 hi ∧ is_candidate demo_book 7 lo ∧
  (∀ it, is_candidate demo_book 7 it → Bi_Price lo ≤ Bi_Price it ≤ Bi_Price hi) ∧
  10 = Z.max (Bi_Price lo) (Z.min (Bi_Price hi) ref').
Proof.
  destruct (match_price_rules demo_book 18 10 10 7) as (hi & lo & ref' & H1 & H2 & H3 & H4 & _);
    [exact demo_book_sorted|exact demo_book_bounded|lia|lia|vm_compute; reflexivity|done|].
  exists hi, lo, ref'. done.
Defined.

End BookWitnesses.
