(* ===== verification/DecStr.v ===== *)
(** * Decimals as text

    Parsing and printing of [sdk.Dec] ([SDK/types/decimal.go]), the store keys
    and identifiers of the order module that are built from them, and the Go
    library functions these use ([strings.Split], [big.Int.SetString],
    [fmt.Sprintf] and [fmt.Sscanf] of decimal numbers).

    The theorems show that parsing inverts printing and that the keys of
    different price levels are different. *)
From stdpp Require Import pretty.
From Stdlib Require Import Ascii.
From S2P Require Import Prelude Decimal Denom.
#[local] Open Scope Z_scope.

(** ** Strings *)

(** [strings.Split] at a one-character separator. *)
Fixpoint Split (sep : ascii) (s : string) : string * list string :=
  match s with
  | EmptyString => ("", [])
  | String c s =>
      let '(first, rest) := Split sep s in
      if Ascii.eqb c sep then ("", first :: rest) else (String c first, rest)
  end.

Fixpoint repeat_char (n : nat) (c : ascii) : string :=
  match n with O => EmptyString | S n => String c (repeat_char n c) end.

(** The value of a decimal digit. *)
Definition digit (c : ascii) : option Z :=
  if is_digit c then Some (Z.of_nat (nat_of_ascii c) - 48) else None.

(** The value of a run of digits after [acc]. *)
Fixpoint digits (acc : Z) (s : string) : option Z :=
  match s with
  | EmptyString => Some acc
  | String c s => d ← digit c; digits (acc * 10 + d) s
  end.

(** [big.Int.SetString(s, 10)]: an optional sign and at least one digit. *)
Definition nat_SetString (s : string) : option Z :=
  match s with EmptyString => None | _ => digits 0 s end.
Definition big_SetString (s : string) : option Z :=
  match s with
  | String c rest =>
      if Ascii.eqb c "-" then v ← nat_SetString rest; Some (- v)
      else if Ascii.eqb c "+" then nat_SetString rest
      else nat_SetString s
  | EmptyString => None
  end.

(** ** Parsing and printing decimals *)

Definition NewDecFromStr (str : string) : outcome Dec :=
  if (String.length str =? 0)%nat then Err (E "ErrEmptyDecimalStr") else
  let '(neg, str) :=
    match str with
    | String c rest => if Ascii.eqb c "-" then (true, rest) else (false, str)
    | EmptyString => (false, str)
    end in
  if (String.length str =? 0)%nat then Err (E "ErrEmptyDecimalStr") else
  '(combinedStr, lenDecs) ←
    match Split "." str with
    | (whole, []) => Ok (whole, 0%nat)
    | (whole, [decs]) =>
        if (String.length decs =? 0)%nat || (String.length whole =? 0)%nat
        then Err (E "ErrInvalidDecimalLength")
        else Ok (whole +:+ decs, String.length decs)
    | _ => Err (E "ErrInvalidDecimalStr")
    end;
  if (18 <? lenDecs)%nat then Err (E "invalid precision") else
  let combinedStr := combinedStr +:+ repeat_char (18 - lenDecs) "0" in
  match big_SetString combinedStr with
  | None => Err (E "failed to set decimal string")
  | Some combined =>
      if BitLen combined >? maxBitLen then Err (E "decimal out of range")
      else Ok (if neg : bool then - combined else combined)
  end.

Definition MustNewDecFromStr (s : string) : outcome Dec :=
  match NewDecFromStr s with
  | Err e => Panic "MustNewDecFromStr"
  | r => r
  end.

Fixpoint str_take (n : nat) (s : string) : string :=
  match n, s with
  | S n, String c s => String c (str_take n s)
  | _, _ => EmptyString
  end.
Fixpoint str_drop (n : nat) (s : string) : string :=
  match n, s with
  | S n, String _ s => str_drop n s
  | _, _ => s
  end.

(** [d.Int.MarshalText] of a number that is not negative. *)
Definition MarshalText (d : Z) : string := pretty (Z.to_N d).

Definition Dec_String (d : Dec) : string :=
  let isNeg := Dec_IsNegative d in
  let d := if isNeg then Dec_Neg d else d in
  let bzInt := MarshalText d in
  let inputSize := String.length bzInt in
  let bzStr :=
    if (inputSize <=? 18)%nat
    then "0." +:+ repeat_char (18 - inputSize) "0" +:+ bzInt
    else str_take (inputSize - 18) bzInt +:+ "." +:+ str_drop (inputSize - 18) bzInt in
  if isNeg then "-" +:+ bzStr else bzStr.

(** ** Keys and identifiers of the order module *)

Definition FormatOrderIDsKey (product : string) (price : Dec) (side : string) : string :=
  product +:+ ":" +:+ Dec_String price +:+ ":" +:+ side.

(** [%d] and [%0nd] of a number that is not negative. *)
Definition Sprintf_d (x : Z) : string := pretty (Z.to_N x).
Definition Sprintf_0d (width : nat) (x : Z) : string :=
  repeat_char (width - String.length (Sprintf_d x)) "0" +:+ Sprintf_d x.

Definition FormatOrderID (blockHeight orderNum : Z) : string :=
  if blockHeight >? 9999999999
  then "ID" +:+ Sprintf_d blockHeight +:+ "-" +:+ Sprintf_d orderNum
  else "ID" +:+ Sprintf_0d 10 blockHeight +:+ "-" +:+ Sprintf_d orderNum.
Definition FormatOrderIDPrefix (blockHeight : Z) : string :=
  if blockHeight >? 9999999999 then "ID" +:+ Sprintf_d blockHeight +:+ "-"
  else "ID" +:+ Sprintf_0d 10 blockHeight +:+ "-".

(** One [%d] of [fmt.Sscanf] on unsigned input: the longest run of digits. *)
Fixpoint scan_digits (s : string) : string * string :=
  match s with
  | String c rest =>
      if is_digit c then let '(ds, r) := scan_digits rest in (String c ds, r) else ("", s)
  | EmptyString => ("", "")
  end.
Definition scan_int64 (s : string) : option (Z * string) :=
  let '(ds, rest) := scan_digits s in
  v ← nat_SetString ds;
  if v <? 2 ^ 63 then Some (v, rest) else None.

(** [fmt.Sscanf(orderID, "ID%d-%d")], on identifiers without signs or
    spaces. *)
Definition GetBlockHeightFromOrderID (orderID : string) : Z :=
  match orderID with
  | String "I" (String "D" rest) =>
      match scan_int64 rest with
      | Some (blockHeight, String "-" rest) =>
          match scan_int64 rest with
          | Some _ => blockHeight
          | None => 0
          end
      | _ => 0
      end
  | _ => 0
  end.

(** ** Facts on characters and digits *)

(** Every character satisfies [p]. *)
Fixpoint all_chars (p : ascii → bool) (s : string) : bool :=
  match s with
  | EmptyString => true
  | String c s => p c && all_chars p s
  end.

Section TextFacts.

Lemma all_chars_app p u v : all_chars p (u +:+ v) = all_chars p u && all_chars p v.
Proof.
  induction u as [|c u IH]; [done|]. rewrite str_app_cons. cbn [all_chars]. rewrite IH.
  by rewrite andb_assoc.
Qed.
Lemma all_chars_impl (p q : ascii → bool) s :
  (∀ c, p c = true → q c = true) → all_chars p s = true → all_chars q s = true.
Proof.
  intros Hpq. induction s as [|c s IH]; [done|]. cbn [all_chars].
  rewrite !andb_true_iff. intros [H1 H2]. split; [by apply Hpq|by apply IH].
Qed.
Lemma str_length_app u v : String.length (u +:+ v) = (String.length u + String.length v)%nat.
Proof. induction u as [|c u IH]; [done|]. rewrite str_app_cons. cbn [String.length]. lia. Qed.
Lemma repeat_char_length n c : String.length (repeat_char n c) = n.
Proof. induction n as [|n IH]; [done|]. cbn. by rewrite IH. Qed.
Lemma repeat_char_all p n c : p c = true → all_chars p (repeat_char n c) = true.
Proof. intros H. induction n as [|n IH]; [done|]. cbn. by rewrite H, IH. Qed.

Lemma str_take_drop n s : str_take n s +:+ str_drop n s = s.
Proof.
  revert s. induction n as [|n IH]; intros [|c s]; [done..|].
  cbn [str_take str_drop]. by rewrite str_app_cons, IH.
Qed.
Lemma str_take_length n s : (n ≤ String.length s)%nat → String.length (str_take n s) = n.
Proof.
  revert s. induction n as [|n IH]; intros [|c s] H; [done..|cbn in H; lia|].
  cbn [String.length str_take] in *. rewrite IH; lia.
Qed.
Lemma str_drop_length n s : String.length (str_drop n s) = (String.length s - n)%nat.
Proof.
  revert s. induction n as [|n IH]; intros [|c s]; [done..|]. cbn [String.length str_drop].
  rewrite IH. lia.
Qed.
Lemma all_chars_take_drop p n s :
  all_chars p s = true → all_chars p (str_take n s) = true ∧ all_chars p (str_drop n s) = true.
Proof.
  intros H. rewrite <- (str_take_drop n s), all_chars_app in H. by apply andb_true_iff in H.
Qed.

Lemma Split_none sep s : all_chars (λ c, negb (Ascii.eqb c sep)) s = true → Split sep s = (s, []).
Proof.
  induction s as [|c s IH]; [done|]. cbn [all_chars Split]. intros [H1 H2]%andb_true_iff.
  rewrite IH by done. by destruct (Ascii.eqb c sep).
Qed.
Lemma Split_one sep a b :
  all_chars (λ c, negb (Ascii.eqb c sep)) a = true →
  all_chars (λ c, negb (Ascii.eqb c sep)) b = true →
  Split sep (a +:+ String sep b) = (a, [b]).
Proof.
  induction a as [|c a IH]; intros Ha Hb.
  - change (EmptyString +:+ String sep b) with (String sep b). cbn [Split].
    rewrite Split_none by done. by rewrite Ascii.eqb_refl.
  - rewrite str_app_cons. cbn [Split all_chars] in *. apply andb_true_iff in Ha as [H1 H2].
    rewrite IH by done. by destruct (Ascii.eqb c sep).
Qed.

Lemma digits_app a u v : digits a (u +:+ v) = b ← digits a u; digits b v.
Proof.
  revert a. induction u as [|c u IH]; intros a; [done|]. rewrite str_app_cons. cbn [digits].
  destruct (digit c); [|done]. cbn [mbind option_bind]. apply IH.
Qed.
Lemma digits_zeros n : digits 0 (repeat_char n "0") = Some 0.
Proof. induction n as [|n IH]; [done|]. exact IH. Qed.

Lemma pretty_char_digit x :
  (x < 10)%N → digit (pretty_N_char x) = Some (Z.of_N x) ∧ is_digit (pretty_N_char x) = true.
Proof.
  intros H.
  assert (x = 0 ∨ x = 1 ∨ x = 2 ∨ x = 3 ∨ x = 4 ∨ x = 5 ∨ x = 6 ∨ x = 7 ∨ x = 8 ∨ x = 9)%N as Hx by lia.
  repeat destruct Hx as [->|Hx]; [done..|]. by subst.
Qed.

Lemma pretty_go_digits x s :
  digits 0 (pretty_N_go x s) = digits (Z.of_N x) s ∧
  all_chars is_digit (pretty_N_go x s) = all_chars is_digit s ∧
  (String.length s ≤ String.length (pretty_N_go x s))%nat.
Proof.
  revert s. induction (N.lt_wf_0 x) as [x _ IH]; intros s.
  destruct (decide (x = 0%N)) as [->|Hx]; [by rewrite pretty_N_go_0|].
  rewrite pretty_N_go_step by lia. assert (x `mod` 10 < 10)%N as Hm by (by apply N.mod_lt).
  destruct (pretty_char_digit _ Hm) as [Hd1 Hd2].
  destruct (IH (x `div` 10)%N) with (s := String (pretty_N_char (x `mod` 10)) s) as (H1 & H2 & H3).
  { apply N.div_lt; lia. }
  split; [|split].
  - rewrite H1. cbn [digits]. rewrite Hd1. cbn [mbind option_bind]. f_equal.
    rewrite <- (N2Z.inj_mul _ 10), <- N2Z.inj_add. f_equal.
    rewrite (N.div_mod x 10) at 3 by done. lia.
  - rewrite H2. cbn [all_chars]. by rewrite Hd2.
  - cbn [String.length] in H3. lia.
Qed.

Lemma pretty_digits (n : N) :
  digits 0 (pretty n) = Some (Z.of_N n) ∧ all_chars is_digit (pretty n) = true ∧
  (1 ≤ String.length (pretty n))%nat.
Proof.
  unfold pretty, pretty_N. case_decide as Hn; [by subst|].
  destruct (pretty_go_digits n "") as (H1 & H2 & _). split; [done|]. split; [done|].
  rewrite pretty_N_go_step by lia.
  destruct (pretty_go_digits (n `div` 10) (String (pretty_N_char (n `mod` 10)) "")) as (_ & _ & H3).
  exact H3.
Qed.

Lemma digit_char_not c x : is_digit c = true → is_digit x = false → negb (Ascii.eqb c x) = true.
Proof. intros H1 H2. destruct (Ascii.eqb_spec c x) as [->|]; [congruence|done]. Qed.

Lemma digits_no_char s x :
  all_chars is_digit s = true → is_digit x = false →
  all_chars (λ c, negb (Ascii.eqb c x)) s = true.
Proof.
  intros Hs Hx. eapply all_chars_impl; [|exact Hs]. intros c Hc. by apply digit_char_not.
Qed.

Lemma big_SetString_digits s :
  all_chars is_digit s = true → s ≠ "" → big_SetString s = digits 0 s.
Proof.
  destruct s as [|c s]; [done|]. intros [Hc _]%andb_true_iff _. unfold big_SetString.
  pose proof (digit_char_not c "-" Hc eq_refl). pose proof (digit_char_not c "+" Hc eq_refl).
  by destruct (Ascii.eqb c "-"), (Ascii.eqb c "+").
Qed.

End TextFacts.

(** ** Properties *)

Section TextProperties.

(** The shape of a printed decimal. *)
Lemma Dec_String_shape d :
  ∃ whole frac, Dec_String d = (if d <? 0 then "-" else "") +:+ whole +:+ String "." frac ∧
  all_chars is_digit whole = true ∧ all_chars is_digit frac = true ∧
  whole ≠ "" ∧ String.length frac = 18%nat ∧ digits 0 (whole +:+ frac) = Some (Z.abs d).
Proof.
  unfold Dec_String, Dec_Neg. rewrite Dec_IsNegative_eq.
  assert ((if d <? 0 then - d else d) = Z.abs d) as -> by (destruct (Z.ltb_spec d 0); lia).
  unfold MarshalText. destruct (pretty_digits (Z.to_N (Z.abs d))) as (H1 & H2 & H3).
  rewrite Z2N.id in H1 by lia. set (t := pretty (Z.to_N (Z.abs d))) in *. clearbody t.
  destruct (Nat.leb_spec (String.length t) 18) as [Hle|Hgt].
  - exists "0", (repeat_char (18 - String.length t) "0" +:+ t). split; [by destruct (d <? 0)|].
    split; [done|]. split; [by rewrite all_chars_app, repeat_char_all, H2|]. split; [done|].
    split; [rewrite str_length_app, repeat_char_length; lia|].
    rewrite digits_app. change (digits 0 "0") with (Some 0). cbn [mbind option_bind].
    rewrite digits_app, digits_zeros. exact H1.
  - destruct (all_chars_take_drop is_digit (String.length t - 18) t H2) as [H4 H5].
    exists (str_take (String.length t - 18) t), (str_drop (String.length t - 18) t).
    split; [by destruct (d <? 0)|]. split; [done|]. split; [done|]. split.
    { intros E. pose proof (str_take_length (String.length t - 18) t) as Hl. rewrite E in Hl.
      cbn in Hl. lia. }
    split; [rewrite str_drop_length; lia|]. by rewrite str_take_drop.
Qed.

Lemma NewDecFromStr_parts whole frac :
  all_chars is_digit whole = true → all_chars is_digit frac = true → whole ≠ "" →
  String.length frac = 18%nat →
  Split "." (whole +:+ String "." frac) = (whole, [frac]) ∧
  big_SetString ((whole +:+ frac) +:+ repeat_char (18 - 18) "0") = digits 0 (whole +:+ frac).
Proof.
  intros H1 H2 H3 H4. split.
  - apply Split_one; by apply digits_no_char.
  - cbn [repeat_char Nat.sub]. rewrite str_app_nil_r. apply big_SetString_digits.
    + by rewrite all_chars_app, H1, H2.
    + by destruct whole.
Qed.

(** Parsing a printed decimal gives the decimal back, for every decimal
    that fits the 255 bits the parser accepts. *)
Theorem Dec_String_roundtrip d : Z.abs d < 2 ^ 255 → NewDecFromStr (Dec_String d) = Ok d.
Proof.
  intros Hd. destruct (Dec_String_shape d) as (w & f & -> & H1 & H2 & H3 & H4 & H5).
  destruct (NewDecFromStr_parts w f H1 H2 H3 H4) as [Hs Hb].
  assert (BitLen (Z.abs d) ≤ 255) as Hbit by (apply BitLen_le; lia).
  destruct w as [|c w]; [done|]. apply andb_true_iff in H1 as [Hc H1].
  assert (negb (Ascii.eqb c "-") = true) as Hm by by apply digit_char_not.
  unfold NewDecFromStr. destruct (Z.ltb_spec d 0) as [Hneg|Hpos].
  - change ("-" +:+ String c w +:+ String "." f) with (String "-" (String c w +:+ String "." f)).
    cbn [String.length Nat.eqb]. change (Ascii.eqb "-" "-") with true. cbv iota beta.
    rewrite Hs. rewrite str_app_cons. cbn [String.length Nat.eqb]. rewrite H4. cbn [Nat.eqb orb].
    cbn [mbind outcome_bind]. change (18 <? 18)%nat with false. cbv iota.
    rewrite Hb, H5. unfold maxBitLen.
    rewrite Z.gtb_ltb. destruct (Z.ltb_spec 255 (BitLen (Z.abs d))); [lia|]. f_equal. lia.
  - change ("" +:+ String c w +:+ String "." f) with (String c w +:+ String "." f).
    rewrite (str_app_cons c w (String "." f)) in *. cbn [String.length Nat.eqb].
    destruct (Ascii.eqb c "-"); [done|]. cbv iota beta. cbn [String.length Nat.eqb]. rewrite Hs.
    cbn [String.length Nat.eqb]. rewrite H4. cbn [Nat.eqb orb].
    cbn [mbind outcome_bind]. change (18 <? 18)%nat with false. cbv iota.
    rewrite Hb, H5. unfold maxBitLen.
    rewrite Z.gtb_ltb. destruct (Z.ltb_spec 255 (BitLen (Z.abs d))); [lia|]. f_equal. lia.
Qed.

Lemma Dec_String_inj d e : Dec_String d = Dec_String e → d = e.
Proof.
  destruct (Dec_String_shape d) as (w & f & -> & H1 & H2 & H3 & H4 & H5).
  destruct (Dec_String_shape e) as (w' & f' & -> & H1' & H2' & H3' & H4' & H5').
  assert (∀ w f, all_chars is_digit w = true → w ≠ "" → ∃ c r, w +:+ String "." f = String c r ∧ c ≠ "-"%char)
    as Hhead.
  { clear. intros [|c w] f Hw Hne; [done|]. exists c, (w +:+ String "." f).
    split; [by rewrite str_app_cons|]. apply andb_true_iff in Hw as [Hw _].
    intros ->. done. }
  assert (∀ w f w' f', all_chars is_digit w = true → all_chars is_digit f = true →
    all_chars is_digit w' = true → all_chars is_digit f' = true →
    w +:+ String "." f = w' +:+ String "." f' → w = w' ∧ f = f') as Hparts.
  { clear. intros w f w' f' H1 H2 H3 H4 E.
    assert (Split "." (w +:+ String "." f) = Split "." (w' +:+ String "." f')) as E' by by rewrite E.
    rewrite !Split_one in E' by (by apply digits_no_char). by injection E'. }
  destruct (Hhead w f H1 H3) as (c & r & Ec & Hc), (Hhead w' f' H1' H3') as (c' & r' & Ec' & Hc').
  intros E. destruct (Z.ltb_spec d 0), (Z.ltb_spec e 0).
  - change ("-" +:+ w +:+ String "." f) with (String "-" (w +:+ String "." f)) in E.
    change ("-" +:+ w' +:+ String "." f') with (String "-" (w' +:+ String "." f')) in E.
    injection E as E. apply Hparts in E as [-> ->]; [|done..]. rewrite H5 in H5'. injection H5' as ?. lia.
  - change ("-" +:+ w +:+ String "." f) with (String "-" (w +:+ String "." f)) in E.
    change ("" +:+ w' +:+ String "." f') with (w' +:+ String "." f') in E. rewrite Ec' in E. congruence.
  - change ("-" +:+ w' +:+ String "." f') with (String "-" (w' +:+ String "." f')) in E.
    change ("" +:+ w +:+ String "." f) with (w +:+ String "." f) in E. rewrite Ec in E. congruence.
  - change ("" +:+ w +:+ String "." f) with (w +:+ String "." f) in E.
    change ("" +:+ w' +:+ String "." f') with (w' +:+ String "." f') in E.
    apply Hparts in E as [-> ->]; [|done..]. rewrite H5 in H5'. injection H5' as ?. lia.
Qed.

Definition no_colon (s : string) : Prop := all_chars (λ c, negb (Ascii.eqb c ":")) s = true.

Lemma Dec_String_no_colon d : no_colon (Dec_String d).
Proof.
  destruct (Dec_String_shape d) as (w & f & -> & H1 & H2 & _). unfold no_colon.
  rewrite !all_chars_app, andb_assoc. cbn [all_chars].
  rewrite (digits_no_char w ":"), (digits_no_char f ":") by done. by destruct (d <? 0).
Qed.

Lemma split_at_colon a b u v :
  no_colon a → no_colon b → a +:+ ":" +:+ u = b +:+ ":" +:+ v → a = b ∧ u = v.
Proof.
  unfold no_colon. revert b. induction a as [|c a IH]; intros [|c' b] Ha Hb E.
  - by injection E.
  - change (String c' b +:+ ":" +:+ v) with (String c' (b +:+ ":" +:+ v)) in E. injection E as <- _. done.
  - change (String c a +:+ ":" +:+ u) with (String c (a +:+ ":" +:+ u)) in E. injection E as -> _. done.
  - rewrite !str_app_cons in E. injection E as <- E. cbn [all_chars] in *.
    apply andb_true_iff in Ha as [_ Ha], Hb as [_ Hb]. by destruct (IH b Ha Hb E) as [-> ->].
Qed.

(** The store keys of the order lists separate the price levels: two
    keys are equal only for the same product, price and side (a product name
    has no colon). *)
Theorem FormatOrderIDsKey_injective product price side product' price' side' :
  no_colon product → no_colon product' →
  FormatOrderIDsKey product price side = FormatOrderIDsKey product' price' side' →
  product = product' ∧ price = price' ∧ side = side'.
Proof.
  unfold FormatOrderIDsKey. intros H1 H2 E. apply split_at_colon in E as [-> E]; [|done..].
  apply split_at_colon in E as [E ->]; [|apply Dec_String_no_colon..].
  by apply Dec_String_inj in E as ->.
Qed.

Lemma scan_digits_spec ds c r :
  all_chars is_digit ds = true → is_digit c = false →
  scan_digits (ds +:+ String c r) = (ds, String c r) ∧ scan_digits ds = (ds, "").
Proof.
  intros Hds Hc. induction ds as [|x ds IH].
  - split; [|done]. change ("" +:+ String c r) with (String c r). cbn [scan_digits]. by rewrite Hc.
  - cbn [all_chars] in Hds. apply andb_true_iff in Hds as [Hx Hds]. destruct (IH Hds) as [H1 H2].
    rewrite str_app_cons. cbn [scan_digits]. by rewrite Hx, H1, H2.
Qed.

Lemma Sprintf_0d_digits width x :
  0 ≤ x → all_chars is_digit (Sprintf_0d width x) = true ∧ digits 0 (Sprintf_0d width x) = Some x ∧
  Sprintf_0d width x ≠ "".
Proof.
  intros Hx. unfold Sprintf_0d, Sprintf_d. destruct (pretty_digits (Z.to_N x)) as (H1 & H2 & H3).
  rewrite Z2N.id in H1 by lia. split; [by rewrite all_chars_app, repeat_char_all, H2|].
  split; [by rewrite digits_app, digits_zeros|]. intros E.
  assert (String.length (repeat_char (width - String.length (pretty (Z.to_N x))) "0" +:+ pretty (Z.to_N x))
    = 0%nat) as El by by rewrite E. rewrite str_length_app in El. lia.
Qed.
Lemma Sprintf_0d_0 x : Sprintf_d x = Sprintf_0d 0 x.
Proof. done. Qed.

Lemma scan_int64_spec width x c r :
  0 ≤ x < 2 ^ 63 → is_digit c = false →
  scan_int64 (Sprintf_0d width x +:+ String c r) = Some (x, String c r) ∧
  scan_int64 (Sprintf_0d width x) = Some (x, "").
Proof.
  intros Hx Hc. destruct (Sprintf_0d_digits width x) as (H1 & H2 & H3); [lia|].
  destruct (scan_digits_spec _ c r H1 Hc) as [H4 H5]. unfold scan_int64. rewrite H4, H5.
  assert (nat_SetString (Sprintf_0d width x) = Some x) as ->
    by (unfold nat_SetString; by destruct (Sprintf_0d width x)).
  cbn [mbind option_bind]. destruct (Z.ltb_spec x (2 ^ 63)); [done|lia].
Qed.

(** The block height can be read back from an order identifier, for all
    heights and order numbers of 64 bits. *)
Theorem FormatOrderID_roundtrip height num :
  0 ≤ height < 2 ^ 63 → 0 ≤ num < 2 ^ 63 →
  GetBlockHeightFromOrderID (FormatOrderID height num) = height.
Proof.
  intros Hh Hn. unfold FormatOrderID. rewrite !Sprintf_0d_0.
  assert (∀ w, GetBlockHeightFromOrderID ("ID" +:+ Sprintf_0d w height +:+ "-" +:+ Sprintf_0d 0 num) = height)
    as H; [|by destruct (height >? 9999999999)].
  intros w. change ("ID" +:+ Sprintf_0d w height +:+ "-" +:+ Sprintf_0d 0 num)
    with (String "I" (String "D" (Sprintf_0d w height +:+ String "-" (Sprintf_0d 0 num)))).
  unfold GetBlockHeightFromOrderID.
  destruct (scan_int64_spec w height "-" (Sprintf_0d 0 num) Hh eq_refl) as [-> _].
  by destruct (scan_int64_spec 0 num "-" "" Hn eq_refl) as [_ ->].
Qed.

(** The documented form of a decimal has at most one minus sign; a
    second one is accepted and cancels the first. *)
Theorem NewDecFromStr_double_minus : NewDecFromStr "--5" = NewDecFromStr "5".
Proof. vm_compute. reflexivity. Qed.

End TextProperties.

Section TextWitnesses.

Lemma Dec_String_roundtrip_witness :
  NewDecFromStr (Dec_String (-1050000000000000000)) = Ok (-1050000000000000000).
Proof. apply Dec_String_roundtrip. lia. Defined.

Lemma FormatOrderIDsKey_injective_witness :
  "aaa_okt" = "aaa_okt" ∧ 5 = 5 ∧ "BUY" = "BUY".
Proof. apply FormatOrderIDsKey_injective; done. Defined.

Lemma FormatOrderID_roundtrip_witness : GetBlockHeightFromOrderID (FormatOrderID 12 3) = 12.
Proof. apply FormatOrderID_roundtrip; lia. Defined.

End TextWitnesses.
