(* ===== verification/Order.v ===== *)
(** * The order module

    [x/order]: the life of an order ([types/order.go]), its fees
    ([keeper/fee.go]), the keeper that places, cancels and expires orders
    ([keeper/order.go], [keeper/keeper.go], [keeper/disk_cache.go]) and the
    filling of orders at the auction price
    ([match/periodicauction/fill.go]).  The coins of an order are locked by
    the token module.

    The state is the token module's state, the order store and the cache that
    holds the depth books and the lists of order identifiers.  Of [x/dex] the
    trading pairs, the operators and the product locks are part of it.
    Statistics, fee details, the backend's result cache and the extra
    information of an order, which only serve display, are left out. *)
From Stdlib Require Import Ascii.
From S2P Require Import Prelude Decimal Denom Coins Bank CoinKeeper Token DecStr OrderBook.
#[local] Open Scope Z_scope.

(** ** Orders *)

Definition OrderStatusOpen : Z := 0.
Definition OrderStatusFilled : Z := 1.
Definition OrderStatusCancelled : Z := 2.
Definition OrderStatusExpired : Z := 3.
Definition OrderStatusPartialFilledCancelled : Z := 4.
Definition OrderStatusPartialFilledExpired : Z := 5.

Definition od_set_status (o : Order) (st : Z) : Order :=
  mkOrder (Od_OrderID o) (Od_Sender o) (Od_Product o) (Od_Side o) (Od_Price o) (Od_Quantity o) st
    (Od_FilledAvgPrice o) (Od_RemainQuantity o) (Od_RemainLocked o) (Od_Timestamp o)
    (Od_OrderExpireBlocks o) (Od_FeePerBlock o).
Definition od_set_id (o : Order) (id : string) : Order :=
  mkOrder id (Od_Sender o) (Od_Product o) (Od_Side o) (Od_Price o) (Od_Quantity o) (Od_Status o)
    (Od_FilledAvgPrice o) (Od_RemainQuantity o) (Od_RemainLocked o) (Od_Timestamp o)
    (Od_OrderExpireBlocks o) (Od_FeePerBlock o).
Definition od_set_fill (o : Order) (avg remain locked : Dec) (st : Z) : Order :=
  mkOrder (Od_OrderID o) (Od_Sender o) (Od_Product o) (Od_Side o) (Od_Price o) (Od_Quantity o) st
    avg remain locked (Od_Timestamp o) (Od_OrderExpireBlocks o) (Od_FeePerBlock o).

Definition isBuy (o : Order) : bool := String.eqb (Od_Side o) BuyOrder.

Definition NewOrder (sender product side : string) (price quantity : Dec) (timestamp : Z)
    (orderExpireBlocks : Z) (feePerBlock : DecCoin) : outcome Order :=
  remainLocked ← (if String.eqb side BuyOrder then Dec_Mul price quantity else Ok quantity);
  Ok (mkOrder "" sender product side price quantity OrderStatusOpen ZeroDec quantity remainLocked
        timestamp orderExpireBlocks feePerBlock).

Definition Order_Fill (order : Order) (price fillAmount : Dec) : outcome Order :=
  filled ← Dec_Sub (Od_Quantity order) (Od_RemainQuantity order);
  filledSum ← Dec_Mul (Od_FilledAvgPrice order) filled;
  cost ← Dec_Mul price fillAmount;
  newFilledSum ← Dec_Add filledSum cost;
  remain ← Dec_Sub (Od_RemainQuantity order) fillAmount;
  newFilled ← Dec_Sub (Od_Quantity order) remain;
  avg ← Dec_Quo newFilledSum newFilled;
  locked ← (if isBuy order then Dec_Sub (Od_RemainLocked order) cost
            else Dec_Sub (Od_RemainLocked order) fillAmount);
  Ok (od_set_fill order avg remain locked
        (if Dec_IsZero remain then OrderStatusFilled else Od_Status order)).

Definition Order_Cancel (order : Order) : Order :=
  od_set_status order (if Dec_Equal (Od_RemainQuantity order) (Od_Quantity order)
                       then OrderStatusCancelled else OrderStatusPartialFilledCancelled).
Definition Order_Expire (order : Order) : Order :=
  od_set_status order (if Dec_Equal (Od_RemainQuantity order) (Od_Quantity order)
                       then OrderStatusExpired else OrderStatusPartialFilledExpired).

(** [strings.Split(product, "_")\[i\]]. *)
Definition productSymbol (product : string) (i : nat) : outcome string :=
  let '(first, rest) := Split "_"%char product in idx (first :: rest) i.

Definition NeedLockCoins (order : Order) : outcome (list DecCoin) :=
  if isBuy order then
    token ← productSymbol (Od_Product order) 1;
    amount ← Dec_Mul (Od_Price order) (Od_Quantity order);
    Ok [mkDecCoin token amount]
  else
    token ← productSymbol (Od_Product order) 0;
    Ok [mkDecCoin token (Od_Quantity order)].
Definition NeedUnlockCoins (order : Order) : outcome (list DecCoin) :=
  token ← productSymbol (Od_Product order) (if isBuy order then 1 else 0);
  Ok [mkDecCoin token (Od_RemainLocked order)].
Definition Order_Unlock (order : Order) : Order :=
  od_set_fill order (Od_FilledAvgPrice order) (Od_RemainQuantity order) ZeroDec (Od_Status order).

(** ** Fees *)

Definition minFee : Dec := 10000000000.

Definition GetOrderNewFee (order : Order) : outcome (list DecCoin) :=
  orderExpireBlocks ← NewDec (Od_OrderExpireBlocks order);
  amount ← Dec_Mul (Amount (Od_FeePerBlock order)) orderExpireBlocks;
  c ← NewDecCoinFromDec (Denom (Od_FeePerBlock order)) amount;
  Ok [c].
Definition GetZeroFee : outcome (list DecCoin) :=
  c ← NewDecCoinFromDec DefaultBondDenom ZeroDec; Ok [c].
Definition GetOrderCostFee (currentHeight : Z) (order : Order) : outcome (list DecCoin) :=
  let blockNum := currentHeight - GetBlockHeightFromOrderID (Od_OrderID order) in
  if blockNum <? 0 then GetZeroFee
  else
    let blockNum :=
      if blockNum >? Od_OrderExpireBlocks order then Od_OrderExpireBlocks order else blockNum in
    n ← NewDec blockNum;
    costFee ← Dec_Mul (Amount (Od_FeePerBlock order)) n;
    c ← NewDecCoinFromDec (Denom (Od_FeePerBlock order)) costFee;
    Ok [c].
Definition GetDealFee (order : Order) (fillAmt lastPrice tradeFeeRate : Dec)
    : outcome (list DecCoin) :=
  '(symbol, quantity) ←
    (if String.eqb (Od_Side order) SellOrder then
       _ ← productSymbol (Od_Product order) 0;
       symbol ← productSymbol (Od_Product order) 1;
       quantity ← Dec_Mul fillAmt lastPrice;
       Ok (symbol, quantity)
     else
       symbol ← productSymbol (Od_Product order) 0;
       Ok (symbol, fillAmt));
  feeAmt ← Dec_Mul quantity tradeFeeRate;
  c ← NewDecCoinFromDec symbol (if Dec_GT feeAmt minFee then feeAmt else minFee);
  Ok [c].

(** ** State *)

Record TokenPair := mkTokenPair {
  Tp_BaseAssetSymbol : string; Tp_QuoteAssetSymbol : string; Tp_InitPrice : Dec;
  Tp_MaxPriceDigit : Z; Tp_MaxQuantityDigit : Z; Tp_MinQuantity : Dec;
  Tp_Delisting : bool; Tp_Owner : string; Tp_Deposits : DecCoin; Tp_BlockHeight : Z }.

(** [TokenPair.IsGT], the order in which products are matched. *)
Definition TokenPair_IsGT (tp other : TokenPair) : outcome bool :=
  lt ← DecCoin_IsLT (Tp_Deposits tp) (Tp_Deposits other);
  if (lt : bool) then Ok false else
  eq ← DecCoin_IsEqual (Tp_Deposits tp) (Tp_Deposits other);
  if negb eq then Ok true
  else if Tp_BlockHeight tp <? Tp_BlockHeight other then Ok true
  else if Tp_BlockHeight tp >? Tp_BlockHeight other then Ok false
  else Ok (bool_decide (str_lt (Tp_BaseAssetSymbol tp) (Tp_BaseAssetSymbol other))
           || bool_decide (str_lt (Tp_QuoteAssetSymbol tp) (Tp_QuoteAssetSymbol other))).

Record ProductLock := mkProductLock {
  Pl_BlockHeight : Z; Pl_Price : Dec; Pl_Quantity : Dec;
  Pl_BuyExecuted : Dec; Pl_SellExecuted : Dec }.

Record OrderParams := mkOrderParams {
  Op_OrderExpireBlocks : Z; Op_MaxDealsPerBlock : Z; Op_FeePerBlock : DecCoin;
  Op_TradeFeeRate : Dec }.

(** The disk cache: depth books by product, order identifiers by price key,
    last prices, counters, closed orders, and the keys that were inserted to
    or written in the block. *)
Record DiskCache := mkDiskCache {
  dc_books : gmap string (list DepthBookItem);
  dc_ids : gmap string (list string);
  dc_prices : gmap string Dec;
  dc_storeOrderNum : Z;
  dc_openNum : Z;
  dc_closed : list string;
  dc_newBooks : gset string;
  dc_updBooks : gset string;
  dc_updIds : gset string }.

Record OrderState (S : Type) := mkOrderState {
  os_token : TokenState S;
  os_orders : gmap string Order;
  os_blockOrderNum : gmap Z Z;
  os_lastPrices : gmap string Dec;
  os_pairs : gmap string TokenPair;
  os_operators : gmap string string;
  os_productLocks : gmap string ProductLock;
  os_params : OrderParams;
  os_cache : DiskCache }.
Arguments mkOrderState {S}.
Arguments os_token {S}.
Arguments os_orders {S}.
Arguments os_blockOrderNum {S}.
Arguments os_lastPrices {S}.
Arguments os_pairs {S}.
Arguments os_operators {S}.
Arguments os_productLocks {S}.
Arguments os_params {S}.
Arguments os_cache {S}.

(** ** The disk cache *)

Definition dc_set_books (c : DiskCache) (p : string) (b : gmap string (list DepthBookItem)) : DiskCache :=
  mkDiskCache b (dc_ids c) (dc_prices c) (dc_storeOrderNum c) (dc_openNum c) (dc_closed c)
    (dc_newBooks c) ({[p]} ∪ dc_updBooks c) (dc_updIds c).
Definition dc_set_ids (c : DiskCache) (k : string) (i : gmap string (list string)) : DiskCache :=
  mkDiskCache (dc_books c) i (dc_prices c) (dc_storeOrderNum c) (dc_openNum c) (dc_closed c)
    (dc_newBooks c) (dc_updBooks c) ({[k]} ∪ dc_updIds c).

Definition setOrderIDs (key : string) (orderIDs : list string) (c : DiskCache) : DiskCache :=
  dc_set_ids c key (match orderIDs with
                | [] => delete key (dc_ids c)
                | _ => <[key := orderIDs]> (dc_ids c)
                end).
Definition setDepthBook (product : string) (book : list DepthBookItem) (c : DiskCache) : DiskCache :=
  dc_set_books c product (match book with
                  | [] => delete product (dc_books c)
                  | _ => <[product := book]> (dc_books c)
                  end).
Definition GetDepthBookCopy (c : DiskCache) (product : string) : list DepthBookItem :=
  default [] (dc_books c !! product).

Definition insertOrder (order : Order) (c : DiskCache) : outcome DiskCache :=
  book ← InsertOrder (GetDepthBookCopy c (Od_Product order)) order;
  let key := FormatOrderIDsKey (Od_Product order) (Od_Price order) (Od_Side order) in
  let orderIDs := default [] (dc_ids c !! key) ++ [Od_OrderID order] in
  Ok (mkDiskCache (<[Od_Product order := book]> (dc_books c)) (<[key := orderIDs]> (dc_ids c))
        (dc_prices c) (dc_storeOrderNum c + 1) (dc_openNum c + 1) (dc_closed c)
        ({[Od_Product order]} ∪ dc_newBooks c) ({[Od_Product order]} ∪ dc_updBooks c)
        ({[key]} ∪ dc_updIds c)).

Definition closeOrder (orderID : string) (c : DiskCache) : DiskCache :=
  mkDiskCache (dc_books c) (dc_ids c) (dc_prices c) (dc_storeOrderNum c) (dc_openNum c - 1)
    (dc_closed c ++ [orderID]) (dc_newBooks c) (dc_updBooks c) (dc_updIds c).

(** Removes the first occurrence, if there is one. *)
Fixpoint removeID (orderID : string) (orderIDs : list string) : option (list string) :=
  match orderIDs with
  | [] => None
  | id :: rest =>
      if String.eqb id orderID then Some rest
      else rest' ← removeID orderID rest; Some (id :: rest')
  end.

Definition removeOrder (order : Order) (c : DiskCache) : outcome DiskCache :=
  c1 ← match dc_books c !! Od_Product order with
       | None => Ok c
       | Some depthBook =>
           book ← RemoveOrder depthBook order;
           Ok (setDepthBook (Od_Product order) book c)
       end;
  let key := FormatOrderIDsKey (Od_Product order) (Od_Price order) (Od_Side order) in
  let c2 := match removeID (Od_OrderID order) (default [] (dc_ids c1 !! key)) with
            | None => c1
            | Some orderIDs => setOrderIDs key orderIDs c1
            end in
  Ok (closeOrder (Od_OrderID order) c2).

(** ** The keeper *)

Section OrderKeeper.
Context {S : Type} `{CoinKeeper S} (feeCollectorName : string).

Definition os_set_token (t : TokenState S) (s : OrderState S) : OrderState S :=
  mkOrderState t (os_orders s) (os_blockOrderNum s) (os_lastPrices s) (os_pairs s)
    (os_operators s) (os_productLocks s) (os_params s) (os_cache s).
Definition os_set_orders (o : gmap string Order) (s : OrderState S) : OrderState S :=
  mkOrderState (os_token s) o (os_blockOrderNum s) (os_lastPrices s) (os_pairs s)
    (os_operators s) (os_productLocks s) (os_params s) (os_cache s).
Definition os_set_blockOrderNum (b : gmap Z Z) (s : OrderState S) : OrderState S :=
  mkOrderState (os_token s) (os_orders s) b (os_lastPrices s) (os_pairs s)
    (os_operators s) (os_productLocks s) (os_params s) (os_cache s).
Definition os_set_lastPrices (p : gmap string Dec) (s : OrderState S) : OrderState S :=
  mkOrderState (os_token s) (os_orders s) (os_blockOrderNum s) p (os_pairs s)
    (os_operators s) (os_productLocks s) (os_params s) (os_cache s).
Definition os_set_productLocks (l : gmap string ProductLock) (s : OrderState S) : OrderState S :=
  mkOrderState (os_token s) (os_orders s) (os_blockOrderNum s) (os_lastPrices s) (os_pairs s)
    (os_operators s) l (os_params s) (os_cache s).
Definition os_set_cache (c : DiskCache) (s : OrderState S) : OrderState S :=
  mkOrderState (os_token s) (os_orders s) (os_blockOrderNum s) (os_lastPrices s) (os_pairs s)
    (os_operators s) (os_productLocks s) (os_params s) c.

Definition os_on_token {A} (m : M (TokenState S) A) : M (OrderState S) A :=
  zoom os_token os_set_token m.
Definition on_cache (f : DiskCache → DiskCache) : M (OrderState S) unit :=
  modify (λ s, os_set_cache (f (os_cache s)) s).
Definition on_cache_try (f : DiskCache → outcome DiskCache) : M (OrderState S) unit :=
  c ← gets os_cache;
  c' ← lift (f c);
  on_cache (λ _, c').

(** An error that the caller only logs; the writes that were made stay. *)
Definition logErr {W} (m : M W unit) : M W unit := λ s,
  match m s with
  | (Err _, s') => (Ok (), s')
  | r => r
  end.

Definition Order_LockCoins (addr : string) (coins : list DecCoin) (lockCoinsType : Z)
    : M (OrderState S) unit :=
  if DecCoins_IsZero coins then mret () else os_on_token (LockCoins addr coins lockCoinsType).
Definition Order_UnlockCoins (addr : string) (coins : list DecCoin) (lockCoinsType : Z)
    : M (OrderState S) unit :=
  if DecCoins_IsZero coins then mret ()
  else logErr (os_on_token (UnlockCoins addr coins lockCoinsType)).
Definition Order_BalanceAccount (addr : string) (outputCoins inputCoins : list DecCoin)
    : M (OrderState S) unit :=
  logErr (os_on_token (BalanceAccount addr outputCoins inputCoins)).

Definition Order_GetOrder (orderID : string) : M (OrderState S) (option Order) :=
  gets (λ s, os_orders s !! orderID).
Definition SetOrder (orderID : string) (order : Order) : M (OrderState S) unit :=
  modify (λ s, os_set_orders (<[orderID := order]> (os_orders s)) s).
Definition DropOrder (orderID : string) : M (OrderState S) unit :=
  modify (λ s, os_set_orders (delete orderID (os_orders s)) s).
Definition GetBlockOrderNum (blockHeight : Z) : M (OrderState S) Z :=
  gets (λ s, default 0 (os_blockOrderNum s !! blockHeight)).
Definition SetBlockOrderNum (blockHeight orderNum : Z) : M (OrderState S) unit :=
  modify (λ s, os_set_blockOrderNum (<[blockHeight := orderNum]> (os_blockOrderNum s)) s).
Definition IsProductLocked (product : string) : M (OrderState S) bool :=
  gets (λ s, bool_decide (is_Some (os_productLocks s !! product))).
Definition GetTokenPair (product : string) : M (OrderState S) (option TokenPair) :=
  gets (λ s, os_pairs s !! product).

Definition SetLastPrice (product : string) (price : Dec) : M (OrderState S) unit :=
  modify (λ s,
    let c := os_cache s in
    os_set_cache (mkDiskCache (dc_books c) (dc_ids c) (<[product := price]> (dc_prices c))
                    (dc_storeOrderNum c) (dc_openNum c) (dc_closed c) (dc_newBooks c)
                    (dc_updBooks c) (dc_updIds c))
      (os_set_lastPrices (<[product := price]> (os_lastPrices s)) s)).
Definition GetLastPrice (product : string) : M (OrderState S) Dec :=
  price ← gets (λ s, default ZeroDec (dc_prices (os_cache s) !! product));
  if Dec_IsPositive price then mret price else
  stored ← gets (λ s, os_lastPrices s !! product);
  match stored with
  | Some p => mret p
  | None =>
      tokenPair ← GetTokenPair product;
      match tokenPair with
      | None => mret ZeroDec
      | Some tp => _ ← SetLastPrice product (Tp_InitPrice tp); mret (Tp_InitPrice tp)
      end
  end.

Definition GetProductFeeReceiver (product : string) : M (OrderState S) string :=
  tokenPair ← GetTokenPair product;
  match tokenPair with
  | None => fail "ErrTokenPairNotExist"
  | Some tp =>
      operator ← gets (λ s, os_operators s !! Tp_Owner tp);
      mret (default (Tp_Owner tp) operator)
  end.
Definition SendFeesToProductOwner (coins : list DecCoin) (from product : string)
    : M (OrderState S) string :=
  if DecCoins_IsZero coins then mret ""
  else
    to ← GetProductFeeReceiver product;
    _ ← wrapErr "ErrSendCoinsFailed" (os_on_token (SendCoinsFromAccountToAccount from to coins));
    mret to.
Definition AddCollectedFees (coins : list DecCoin) (from : string) : M (OrderState S) unit :=
  if DecCoins_IsZero coins then mret ()
  else os_on_token (on_coins (ck_SendCoinsFromAccountToModule from feeCollectorName coins)).

Definition TryPlaceOrder (order : Order) : M (OrderState S) (list DecCoin) :=
  needLockCoins ← lift (NeedLockCoins order);
  _ ← Order_LockCoins (Od_Sender order) needLockCoins LockCoinsTypeQuantity;
  fee ← lift (GetOrderNewFee order);
  _ ← Order_LockCoins (Od_Sender order) fee LockCoinsTypeFee;
  mret fee.

(** The order that is stored is returned. *)
Definition PlaceOrder (blockHeight : Z) (order : Order) : M (OrderState S) Order :=
  _ ← TryPlaceOrder order;
  orderNum ← GetBlockOrderNum blockHeight;
  let order := od_set_id order (FormatOrderID blockHeight (orderNum + 1)) in
  _ ← SetBlockOrderNum blockHeight (orderNum + 1);
  _ ← SetOrder (Od_OrderID order) order;
  _ ← on_cache_try (insertOrder order);
  mret order.

(** [quitOrder] after the switch on the kind of fee has changed the
    status. *)
Definition quitOrder (blockHeight : Z) (order : Order) : M (OrderState S) (list DecCoin) :=
  needUnlockCoins ← lift (NeedUnlockCoins order);
  _ ← Order_UnlockCoins (Od_Sender order) needUnlockCoins LockCoinsTypeQuantity;
  lockedFee ← lift (GetOrderNewFee order);
  fee ← lift (GetOrderCostFee blockHeight order);
  _ ← lift (DecCoins_Sub lockedFee fee);
  _ ← Order_UnlockCoins (Od_Sender order) lockedFee LockCoinsTypeFee;
  _ ← logErr (AddCollectedFees fee (Od_Sender order));
  let order := Order_Unlock order in
  _ ← SetOrder (Od_OrderID order) order;
  _ ← on_cache_try (removeOrder order);
  mret fee.
Definition ExpireOrder (blockHeight : Z) (order : Order) : M (OrderState S) unit :=
  _ ← quitOrder blockHeight (Order_Expire order); mret ().
Definition CancelOrder (blockHeight : Z) (order : Order) : M (OrderState S) (list DecCoin) :=
  quitOrder blockHeight (Order_Cancel order).

(** ** Filling *)

Record Deal := mkDeal {
  De_OrderID : string; De_Side : string; De_Quantity : Dec; De_Fee : list DecCoin;
  De_FeeReceiver : string }.

Definition balanceAccount (order : Order) (fillPrice fillQuantity : Dec) : M (OrderState S) unit :=
  '(outputCoins, inputCoins) ← lift (
    if isBuy order then
      quote ← productSymbol (Od_Product order) 1;
      cost ← Dec_Mul fillPrice fillQuantity;
      base ← productSymbol (Od_Product order) 0;
      Ok ([mkDecCoin quote cost], [mkDecCoin base fillQuantity])
    else
      base ← productSymbol (Od_Product order) 0;
      quote ← productSymbol (Od_Product order) 1;
      cost ← Dec_Mul fillPrice fillQuantity;
      Ok ([mkDecCoin base fillQuantity], [mkDecCoin quote cost]));
  Order_BalanceAccount (Od_Sender order) outputCoins inputCoins.

(** An error of [SendFeesToProductOwner] leaves the receiver empty. *)
Definition orEmpty (m : M (OrderState S) string) : M (OrderState S) string := λ s,
  match m s with
  | (Err _, s') => (Ok "", s')
  | r => r
  end.

Definition chargeFee (blockHeight : Z) (order : Order) (fillQuantity tradeFeeRate : Dec)
    : M (OrderState S) (list DecCoin * string) :=
  _ ← (if Od_Status order =? OrderStatusFilled then
         lockedFee ← lift (GetOrderNewFee order);
         fee ← lift (GetOrderCostFee blockHeight order);
         _ ← lift (DecCoins_Sub lockedFee fee);
         _ ← Order_UnlockCoins (Od_Sender order) lockedFee LockCoinsTypeFee;
         logErr (AddCollectedFees fee (Od_Sender order))
       else mret ());
  lastPrice ← (if String.eqb (Od_Side order) SellOrder
               then GetLastPrice (Od_Product order) else mret ZeroDec);
  dealFee ← lift (GetDealFee order fillQuantity lastPrice tradeFeeRate);
  feeReceiver ← orEmpty (SendFeesToProductOwner dealFee (Od_Sender order) (Od_Product order));
  mret (dealFee, feeReceiver).

Definition UpdateOrder (order : Order) : M (OrderState S) unit :=
  _ ← SetOrder (Od_OrderID order) order;
  if Od_Status order =? OrderStatusFilled then on_cache (closeOrder (Od_OrderID order))
  else mret ().

Definition fillOrder (blockHeight : Z) (tradeFeeRate : Dec) (order : Order)
    (fillPrice fillQuantity : Dec) : M (OrderState S) Deal :=
  order ← lift (Order_Fill order fillPrice fillQuantity);
  _ ← balanceAccount order fillPrice fillQuantity;
  order ← (if (Od_Status order =? OrderStatusFilled) && Dec_IsPositive (Od_RemainLocked order) then
             needUnlockCoins ← lift (NeedUnlockCoins order);
             _ ← Order_UnlockCoins (Od_Sender order) needUnlockCoins LockCoinsTypeQuantity;
             mret (Order_Unlock order)
           else mret order);
  '(dealFee, feeReceiver) ← chargeFee blockHeight order fillQuantity tradeFeeRate;
  _ ← UpdateOrder order;
  mret (mkDeal (Od_OrderID order) (Od_Side order) fillQuantity dealFee feeReceiver).

(** The loop of [fillOrderByKey] over the identifiers at the key, from
    [index] on: the deals, the filled amount, the number of deals that count
    against the limit, and the identifiers that remain.  Reading past the end
    of the slice and a missing order panic, as in Go. *)
Fixpoint fillOrderByKey_loop (blockHeight : Z) (tradeFeeRate : Dec) (orderIDs : list string)
    (needFillAmount fillPrice : Dec) (remainDeals : Z)
    (deals : list Deal) (filledAmount : Dec) (filledDealsCnt : Z)
    : M (OrderState S) (list Deal * Dec * Z * list string) :=
  if (filledDealsCnt <? remainDeals) && Dec_LT filledAmount needFillAmount then
    match orderIDs with
    | [] => panic "index out of range"
    | id :: rest =>
        o ← Order_GetOrder id;
        match o with
        | None => panic "nil pointer dereference"
        | Some order =>
            total ← lift (Dec_Add filledAmount (Od_RemainQuantity order));
            if Dec_LTE total needFillAmount then
              deal ← fillOrder blockHeight tradeFeeRate order fillPrice (Od_RemainQuantity order);
              fillOrderByKey_loop blockHeight tradeFeeRate rest needFillAmount fillPrice remainDeals
                (deals ++ [deal]) total (filledDealsCnt + 1)
            else
              part ← lift (Dec_Sub needFillAmount filledAmount);
              deal ← fillOrder blockHeight tradeFeeRate order fillPrice part;
              mret (deals ++ [deal], needFillAmount, filledDealsCnt, orderIDs)
        end
    end
  else mret (deals, filledAmount, filledDealsCnt, orderIDs).

Definition fillOrderByKey (blockHeight : Z) (tradeFeeRate : Dec) (key : string)
    (needFillAmount fillPrice : Dec) (remainDeals : Z) : M (OrderState S) (list Deal * Dec * Z) :=
  o ← gets (λ s, dc_ids (os_cache s) !! key);
  match o with
  | None => mret ([], ZeroDec, 0)
  | Some orderIDs =>
      '(deals, filledAmount, filledDealsCnt, unFilledOrderIDs) ←
        fillOrderByKey_loop blockHeight tradeFeeRate orderIDs needFillAmount fillPrice remainDeals
          [] ZeroDec 0;
      _ ← on_cache (setOrderIDs key unFilledOrderIDs);
      mret (deals, filledAmount, filledDealsCnt)
  end.

(** The loop of [fillBuyOrders]: every step advances the index or shortens
    the book, so the length of the book bounds the number of steps. *)
Fixpoint fillBuyOrders_loop (fuel : nat) (blockHeight : Z) (tradeFeeRate : Dec) (product : string)
    (bestPrice maxExecution : Dec) (book : list DepthBookItem) (index : nat)
    (buyDeals : list Deal) (buyExecuted : Dec) (blockRemainDeals : Z)
    : M (OrderState S) (list DepthBookItem * list Deal * Dec * Z) :=
  match fuel, book !! index with
  | Datatypes.S fuel, Some it =>
      if negb (Dec_GTE (Bi_Price it) bestPrice && Dec_LT buyExecuted maxExecution)
      then mret (book, buyDeals, buyExecuted, blockRemainDeals)
      else
        rest ← lift (Dec_Sub maxExecution buyExecuted);
        let fillAmount := MinDec (Bi_BuyQuantity it) rest in
        if Dec_IsZero fillAmount then
          fillBuyOrders_loop fuel blockHeight tradeFeeRate product bestPrice maxExecution book
            (Datatypes.S index) buyDeals buyExecuted blockRemainDeals
        else
          let key := FormatOrderIDsKey product (Bi_Price it) BuyOrder in
          '(filledBuyDeals, filledBuyAmount, filledDealsCnt) ←
            fillOrderByKey blockHeight tradeFeeRate key fillAmount bestPrice blockRemainDeals;
          let blockRemainDeals := blockRemainDeals - filledDealsCnt in
          buyExecuted ← lift (Dec_Add buyExecuted filledBuyAmount);
          book ← lift (DepthBook_Sub book index filledBuyAmount BuyOrder);
          '(res, book) ← lift (RemoveIfEmpty book index);
          let index := if (res : bool) then index else Datatypes.S index in
          if blockRemainDeals <=? 0
          then mret (book, buyDeals ++ filledBuyDeals, buyExecuted, blockRemainDeals)
          else fillBuyOrders_loop fuel blockHeight tradeFeeRate product bestPrice maxExecution book
                 index (buyDeals ++ filledBuyDeals) buyExecuted blockRemainDeals
  | _, _ => mret (book, buyDeals, buyExecuted, blockRemainDeals)
  end.
Definition fillBuyOrders (blockHeight : Z) (tradeFeeRate : Dec) (product : string)
    (bestPrice maxExecution buyExecuted : Dec) (blockRemainDeals : Z)
    : M (OrderState S) (list Deal * Dec * Z) :=
  c ← gets os_cache;
  let book := GetDepthBookCopy c product in
  '(book, buyDeals, buyExecuted, blockRemainDeals) ←
    fillBuyOrders_loop (length book) blockHeight tradeFeeRate product bestPrice maxExecution book 0
      [] buyExecuted blockRemainDeals;
  _ ← on_cache (setDepthBook product book);
  mret (buyDeals, buyExecuted, blockRemainDeals).

(** The loop of [fillSellOrders] goes down from the last level; [index] is
    one more than in Go. *)
Fixpoint fillSellOrders_loop (index : nat) (blockHeight : Z) (tradeFeeRate : Dec) (product : string)
    (bestPrice maxExecution : Dec) (book : list DepthBookItem)
    (sellDeals : list Deal) (sellExecuted : Dec) (blockRemainDeals : Z)
    : M (OrderState S) (list DepthBookItem * list Deal * Dec * Z) :=
  match index with
  | O => mret (book, sellDeals, sellExecuted, blockRemainDeals)
  | Datatypes.S index =>
      it ← lift (idx book index);
      if negb (Dec_LTE (Bi_Price it) bestPrice && Dec_LT sellExecuted maxExecution)
      then mret (book, sellDeals, sellExecuted, blockRemainDeals)
      else
        rest ← lift (Dec_Sub maxExecution sellExecuted);
        let fillAmount := MinDec (Bi_SellQuantity it) rest in
        if Dec_IsZero fillAmount then
          fillSellOrders_loop index blockHeight tradeFeeRate product bestPrice maxExecution book
            sellDeals sellExecuted blockRemainDeals
        else
          let key := FormatOrderIDsKey product (Bi_Price it) SellOrder in
          '(filledSellDeals, filledSellAmount, filledDealsCnt) ←
            fillOrderByKey blockHeight tradeFeeRate key fillAmount bestPrice blockRemainDeals;
          let blockRemainDeals := blockRemainDeals - filledDealsCnt in
          sellExecuted ← lift (Dec_Add sellExecuted filledSellAmount);
          book ← lift (DepthBook_Sub book index filledSellAmount SellOrder);
          '(_, book) ← lift (RemoveIfEmpty book index);
          if blockRemainDeals <=? 0
          then mret (book, sellDeals ++ filledSellDeals, sellExecuted, blockRemainDeals)
          else fillSellOrders_loop index blockHeight tradeFeeRate product bestPrice maxExecution book
                 (sellDeals ++ filledSellDeals) sellExecuted blockRemainDeals
  end.
Definition fillSellOrders (blockHeight : Z) (tradeFeeRate : Dec) (product : string)
    (bestPrice maxExecution sellExecuted : Dec) (blockRemainDeals : Z)
    : M (OrderState S) (list Deal * Dec * Z) :=
  c ← gets os_cache;
  let book := GetDepthBookCopy c product in
  '(book, sellDeals, sellExecuted, blockRemainDeals) ←
    fillSellOrders_loop (length book) blockHeight tradeFeeRate product bestPrice maxExecution book
      [] sellExecuted blockRemainDeals;
  _ ← on_cache (setDepthBook product book);
  mret (sellDeals, sellExecuted, blockRemainDeals).

Definition fillDepthBook (blockHeight : Z) (tradeFeeRate : Dec) (product : string)
    (bestPrice maxExecution buyExecutedCnt sellExecutedCnt : Dec) (blockRemainDeals : Z)
    : M (OrderState S) (list Deal * Dec * Dec * Z) :=
  if Dec_IsZero maxExecution then mret ([], buyExecutedCnt, sellExecutedCnt, blockRemainDeals)
  else
    '(buyDeals, buyExecutedCnt, blockRemainDeals) ←
      fillBuyOrders blockHeight tradeFeeRate product bestPrice maxExecution buyExecutedCnt
        blockRemainDeals;
    if blockRemainDeals <=? 0 then mret (buyDeals, buyExecutedCnt, sellExecutedCnt, blockRemainDeals)
    else
      '(sellDeals, sellExecutedCnt, blockRemainDeals) ←
        fillSellOrders blockHeight tradeFeeRate product bestPrice maxExecution sellExecutedCnt
          blockRemainDeals;
      mret (buyDeals ++ sellDeals, buyExecutedCnt, sellExecutedCnt, blockRemainDeals).

End OrderKeeper.

(** ** Messages *)

Record MsgNewOrder := mkMsgNewOrder {
  Mn_Sender : string; Mn_Product : string; Mn_Side : string; Mn_Price : Dec; Mn_Quantity : Dec }.

(** The checks that [MsgNewOrders.ValidateBasic] makes of one item. *)
Definition validateOrderItem (item : MsgNewOrder) : outcome unit :=
  if (String.length (Mn_Product item) =? 0)%nat then Err (E "ErrOrderItemProductCountsIsEmpty") else
  match Split "_"%char (Mn_Product item) with
  | (s0, [s1]) =>
      if String.eqb s0 s1 then Err (E "ErrOrderItemProductSymbolIsEqual")
      else if negb (String.eqb (Mn_Side item) BuyOrder) && negb (String.eqb (Mn_Side item) SellOrder)
      then Err (E "ErrOrderItemSideIsNotBuyAndSell")
      else if negb (Dec_IsPositive (Mn_Price item) && Dec_IsPositive (Mn_Quantity item))
      then Err (E "ErrOrderItemPriceOrQuantityIsNotPositive")
      else Ok ()
  | _ => Err (E "ErrOrderItemProductFormat")
  end.
Definition OrderItemLimit : nat := 200.
Fixpoint validateOrderItems (items : list MsgNewOrder) : outcome unit :=
  match items with
  | [] => Ok ()
  | item :: rest => _ ← validateOrderItem item; validateOrderItems rest
  end.
Definition MsgNewOrders_ValidateBasic (sender : string) (items : list MsgNewOrder) : outcome unit :=
  if String.eqb sender "" then Err (E "ErrInvalidAddress")
  else if (length items =? 0)%nat then Err (E "ErrOrderItemCountsIsEmpty")
  else if (OrderItemLimit <? length items)%nat then Err (E "ErrOrderItemCountsBiggerThanLimit")
  else validateOrderItems items.

(** [hasDuplicatedID], with the set of the identifiers seen. *)
Fixpoint hasDuplicatedID_loop (seen : gset string) (ids : list string) : bool :=
  match ids with
  | [] => false
  | item :: rest =>
      if decide (item ∈ seen) then true else hasDuplicatedID_loop ({[item]} ∪ seen) rest
  end.
Definition hasDuplicatedID (ids : list string) : bool := hasDuplicatedID_loop ∅ ids.
Definition MsgCancelOrders_ValidateBasic (sender : string) (orderIDs : list string) : outcome unit :=
  if String.eqb sender "" then Err (E "ErrInvalidAddress")
  else if (length orderIDs =? 0)%nat then Err (E "ErrOrderIDsIsEmpty")
  else if (OrderItemLimit <? length orderIDs)%nat then Err (E "ErrCancelOrderBiggerThanLimit")
  else if hasDuplicatedID orderIDs then Err (E "ErrOrderIDsHasDuplicatedID")
  else if existsb (String.eqb "") orderIDs then Err (E "ErrUserInputOrderIDIsEmpty")
  else Ok ().

Section OrderHandlers.
Context {S : Type} `{CoinKeeper S} (feeCollectorName : string).

(** [CheckTokenPairUnderDexDelist] answers from the same pair. *)
Definition checkOrderNewMsg (msg : MsgNewOrder) : M (OrderState S) unit :=
  tokenPair ← GetTokenPair (Mn_Product msg);
  match tokenPair with
  | None => fail "ErrTokenPairNotExist"
  | Some tp =>
      _ ← guard_not (Tp_Delisting tp) "ErrTradingPairIsDelisting";
      roundedPrice ← lift (Dec_RoundDecimal (Mn_Price msg) (Tp_MaxPriceDigit tp));
      roundedQuantity ← lift (Dec_RoundDecimal (Mn_Quantity msg) (Tp_MaxQuantityDigit tp));
      _ ← guard_not (negb (Dec_Equal roundedPrice (Mn_Price msg))) "ErrPriceOverAccuracy";
      _ ← guard_not (negb (Dec_Equal roundedQuantity (Mn_Quantity msg))) "ErrQuantityOverAccuracy";
      guard_not (Dec_LT (Mn_Quantity msg) (Tp_MinQuantity tp)) "ErrMsgQuantityLessThan"
  end.

Definition getOrderFromMsg (blockTime : Z) (msg : MsgNewOrder) (ratio : string)
    : M (OrderState S) Order :=
  feeParams ← gets os_params;
  r ← lift (MustNewDecFromStr ratio);
  feePerBlockAmount ← lift (Dec_Mul (Amount (Op_FeePerBlock feeParams)) r);
  feePerBlock ← lift (NewDecCoinFromDec (Denom (Op_FeePerBlock feeParams)) feePerBlockAmount);
  lift (NewOrder (Mn_Sender msg) (Mn_Product msg) (Mn_Side msg) (Mn_Price msg) (Mn_Quantity msg)
          blockTime (Op_OrderExpireBlocks feeParams) feePerBlock).

Definition handleNewOrder (blockHeight blockTime : Z) (msg : MsgNewOrder) (ratio : string)
    : M (OrderState S) Order :=
  order ← getOrderFromMsg blockTime msg ratio;
  _ ← checkOrderNewMsg msg;
  locked ← IsProductLocked (Mn_Product msg);
  _ ← guard_not locked "ErrIsProductLocked";
  PlaceOrder blockHeight order.

(** An item that fails leaves the stores as they were: its branch of the
    store is not written.  The disk cache is not part of the stores. *)
Definition branchWrite {A} (m : M (OrderState S) A) : M (OrderState S) (option A) := λ s,
  match m s with
  | (Ok a, s') => (Ok (Some a), s')
  | (Err _, s') => (Ok None, os_set_cache (os_cache s') s)
  | (Panic p, s') => (Panic p, s')
  end.

Fixpoint handleNewOrders_loop (blockHeight blockTime : Z) (items : list MsgNewOrder)
    (ratio : string) : M (OrderState S) (list (option Order)) :=
  match items with
  | [] => mret []
  | item :: rest =>
      r ← branchWrite (handleNewOrder blockHeight blockTime item ratio);
      rs ← handleNewOrders_loop blockHeight blockTime rest ratio;
      mret (r :: rs)
  end.
Definition handleMsgNewOrders (blockHeight blockTime : Z) (items : list MsgNewOrder)
    : M (OrderState S) unit :=
  let ratio := if (1 <? length items)%nat then "0.8" else "1" in
  rs ← handleNewOrders_loop blockHeight blockTime items ratio;
  guard_not (forallb (λ r, bool_decide (r = None)) rs) "ErrAllOrderFailedToExecute".

Definition validateCancelOrder (sender orderID : string) : M (OrderState S) unit :=
  o ← Order_GetOrder orderID;
  match o with
  | None => fail "ErrOrderIsNotExistOrClosed"
  | Some order =>
      _ ← guard_not (negb (Od_Status order =? OrderStatusOpen)) "ErrOrderStatusIsNotOpen";
      _ ← guard_not (negb (String.eqb (Od_Sender order) sender)) "ErrNotOrderOwner";
      locked ← IsProductLocked (Od_Product order);
      guard_not locked "ErrIsProductLocked"
  end.
Definition handleCancelOrder (blockHeight : Z) (sender orderID : string) : M (OrderState S) bool := λ s,
  match validateCancelOrder sender orderID s with
  | (Ok _, s') =>
      (o ← Order_GetOrder orderID;
       match o with
       | None => panic "nil pointer dereference"
       | Some order => _ ← CancelOrder feeCollectorName blockHeight order; mret true
       end) s'
  | (Err _, s') => (Ok false, s')
  | (Panic p, s') => (Panic p, s')
  end.
Fixpoint handleCancelOrders_loop (blockHeight : Z) (sender : string) (orderIDs : list string)
    : M (OrderState S) (list bool) :=
  match orderIDs with
  | [] => mret []
  | id :: rest =>
      r ← handleCancelOrder blockHeight sender id;
      rs ← handleCancelOrders_loop blockHeight sender rest;
      mret (r :: rs)
  end.
Definition handleMsgCancelOrders (blockHeight : Z) (sender : string) (orderIDs : list string)
    : M (OrderState S) unit :=
  rs ← handleCancelOrders_loop blockHeight sender orderIDs;
  guard_not (forallb negb rs) "ErrNoOrdersIsCanceled".

(** [NewOrderHandler]: the messages of the module are refused; the rest of
    the handler is dead code. *)
Definition NewOrderHandler : M (OrderState S) unit := fail "ErrUnknownRequest".

(** ** Expiry *)

(** [DropExpiredOrdersByBlockHeight]: the orders of the store whose key has
    the prefix of the height, read while the loop writes other values of the
    same keys. *)
Definition orders_of_height (s : OrderState S) (height : Z) : list string :=
  base.filter (λ id, String.prefix (FormatOrderIDPrefix height) id = true)
    (fst <$> store_iterate (os_orders s)).
Fixpoint dropExpired_loop (blockHeight : Z) (ids : list string) : M (OrderState S) unit :=
  match ids with
  | [] => mret ()
  | id :: rest =>
      o ← Order_GetOrder id;
      _ ← match o with
          | None => mret ()
          | Some order =>
              locked ← IsProductLocked (Od_Product order);
              if (Od_Status order =? OrderStatusOpen) && negb locked
              then ExpireOrder feeCollectorName blockHeight order
              else mret ()
          end;
      dropExpired_loop blockHeight rest
  end.
Definition DropExpiredOrdersByBlockHeight (blockHeight expiredBlockHeight : Z)
    : M (OrderState S) unit :=
  ids ← gets (λ s, orders_of_height s expiredBlockHeight);
  dropExpired_loop blockHeight ids.

(** ** Matching a product *)

Record MatchResult := mkMatchResult {
  Mx_BlockHeight : Z; Mx_Price : Dec; Mx_Quantity : Dec; Mx_Deals : list Deal }.

Definition SetProductLock (product : string) (lock : ProductLock) : M (OrderState S) unit :=
  modify (λ s, os_set_productLocks (<[product := lock]> (os_productLocks s)) s).
Definition UnlockProduct (product : string) : M (OrderState S) unit :=
  modify (λ s, os_set_productLocks (delete product (os_productLocks s)) s).

(** One product of [calcMatchPriceAndExecution]. *)
Definition calcMatchPrice (blockHeight : Z) (product : string)
    : M (OrderState S) (option MatchResult) :=
  tokenPair ← GetTokenPair product;
  match tokenPair with
  | None => mret None
  | Some tp =>
      c ← gets os_cache;
      lastPrice ← GetLastPrice product;
      '(bestPrice, maxExecution) ←
        lift (periodicAuctionMatchPrice (GetDepthBookCopy c product) (Tp_MaxPriceDigit tp) lastPrice);
      if Dec_IsPositive maxExecution then
        _ ← SetLastPrice product bestPrice;
        mret (Some (mkMatchResult blockHeight bestPrice maxExecution []))
      else mret None
  end.

Definition lockProduct (product : string) (r : MatchResult) (buyExecuted sellExecuted : Dec)
    : M (OrderState S) unit :=
  SetProductLock product
    (mkProductLock (Mx_BlockHeight r) (Mx_Price r) (Mx_Quantity r) buyExecuted sellExecuted).

Definition executeMatchedUpdatedProduct (blockHeight : Z) (product : string) (r : MatchResult)
    (blockRemainDeals : Z) : M (OrderState S) (MatchResult * Z) :=
  if blockRemainDeals <=? 0 then
    _ ← lockProduct product r ZeroDec ZeroDec;
    mret (r, blockRemainDeals)
  else
    feeParams ← gets os_params;
    '(deals, buyExecutedCnt, sellExecutedCnt, blockRemainDeals) ←
      fillDepthBook feeCollectorName blockHeight (Op_TradeFeeRate feeParams) product (Mx_Price r) (Mx_Quantity r)
        ZeroDec ZeroDec blockRemainDeals;
    let r := mkMatchResult (Mx_BlockHeight r) (Mx_Price r) (Mx_Quantity r) deals in
    _ ← (if Dec_LT buyExecutedCnt (Mx_Quantity r) || Dec_LT sellExecutedCnt (Mx_Quantity r)
         then lockProduct product r buyExecutedCnt sellExecutedCnt
         else mret ());
    mret (r, blockRemainDeals).

Definition executeLockedProduct (blockHeight : Z) (product : string) (lock : ProductLock)
    (blockRemainDeals : Z) : M (OrderState S) (option MatchResult * Z) :=
  if blockRemainDeals <=? 0 then mret (None, blockRemainDeals)
  else
    feeParams ← gets os_params;
    '(deals, buyExecuted, sellExecuted, blockRemainDeals) ←
      fillDepthBook feeCollectorName blockHeight (Op_TradeFeeRate feeParams) product (Pl_Price lock) (Pl_Quantity lock)
        (Pl_BuyExecuted lock) (Pl_SellExecuted lock) blockRemainDeals;
    let result := if (0 <? length deals)%nat
                  then Some (mkMatchResult (Pl_BlockHeight lock) (Pl_Price lock) (Pl_Quantity lock) deals)
                  else None in
    _ ← (if Dec_GTE buyExecuted (Pl_Quantity lock) && Dec_GTE sellExecuted (Pl_Quantity lock)
         then UnlockProduct product
         else SetProductLock product
                (mkProductLock (Pl_BlockHeight lock) (Pl_Price lock) (Pl_Quantity lock)
                   buyExecuted sellExecuted));
    mret (result, blockRemainDeals).

End OrderHandlers.
