(* ===== verification/OrderProps.v ===== *)
(** * Correctness of the order module

    The order store, the depth books and the lists of order identifiers hold
    the same orders in three forms.  [books_agree] says so: at every price and
    side the book offers exactly what the open orders listed there have left,
    and an order is listed if and only if it is open.  The theorems show that
    placing, cancelling, expiring and filling keep this, that filling follows
    price and time priority, and that an auction trades as much on the buy
    side as on the sell side. *)
From Stdlib Require Import Ascii.
From stdpp Require Import functions.
From S2P Require Import Prelude Decimal Denom Coins Bank CoinKeeper Token DecStr OrderBook Order.
#[local] Open Scope Z_scope.

Lemma frames_logErr {W} (R : relation W) `{!PreOrder R} (m : M W unit) :
  frames R m → frames R (logErr m).
Proof. intros H s. specialize (H s). unfold logErr. by destruct (m s) as [[?|?|?] ?]. Qed.
#[export] Hint Resolve frames_logErr : frames.

(** ** The three views of the open orders *)

Definition is_open (o : Order) : Prop := Od_Status o = OrderStatusOpen.
Definition in_slot (o : Order) (product side : string) (price : Dec) : Prop :=
  Od_Product o = product ∧ Od_Side o = side ∧ Od_Price o = price.

Definition ids_at (ids : gmap string (list string)) (product side : string) (price : Dec)
    : list string :=
  default [] (ids !! FormatOrderIDsKey product price side).

Definition remain_of (orders : gmap string Order) (id : string) : Z :=
  match orders !! id with Some o => Od_RemainQuantity o | None => 0 end.
Definition remain_sum (orders : gmap string Order) (l : list string) : Z :=
  foldr (λ id acc, remain_of orders id + acc) 0 l.

Definition order_ok (id : string) (o : Order) : Prop :=
  Od_OrderID o = id ∧ valid_side (Od_Side o) ∧ no_colon (Od_Product o) ∧
  (is_open o → 0 < Od_RemainQuantity o).

(** One price and side of one product. *)
Definition slot_ok (orders : gmap string Order) (book : list DepthBookItem) (l : list string)
    (product side : string) (price : Dec) : Prop :=
  level_qty side book price = remain_sum orders l ∧ NoDup l ∧
  ∀ id, id ∈ l ↔ ∃ o, orders !! id = Some o ∧ is_open o ∧ in_slot o product side price.

Record books_agree (orders : gmap string Order) (book : string → list DepthBookItem)
    (ids : gmap string (list string)) : Prop := {
  ba_orders : ∀ id o, orders !! id = Some o → order_ok id o;
  ba_sorted : ∀ p, book_sorted (book p);
  ba_slot : ∀ p side price, valid_side side → no_colon p →
    slot_ok orders (book p) (ids_at ids p side price) p side price }.

#[global] Instance books_agree_proper :
  Proper (eq ==> pointwise_relation _ eq ==> eq ==> iff) books_agree.
Proof.
  intros o ? <- b b' Hb i ? <-. split; intros [H1 H2 H3]; split; try done; intros p.
  - by rewrite <- Hb.
  - intros. rewrite <- Hb. by apply H3.
  - by rewrite Hb.
  - intros. rewrite Hb. by apply H3.
Qed.

(** The identifiers that were given out up to block [H]. *)
Definition issued {S} (H : Z) (s : OrderState S) (id : string) : Prop :=
  ∃ h n, id = FormatOrderID h n ∧ 0 ≤ h ∧ 1 ≤ n ∧
    (h < H ∨ h = H ∧ n ≤ default 0 (os_blockOrderNum s !! H)).

(** An identifier whose order is closed, or dropped. *)
Definition dead {S} (H : Z) (s : OrderState S) (id : string) : Prop :=
  issued H s id ∧ ∀ o, os_orders s !! id = Some o → ¬ is_open o.

(** The invariant of the module in block [H]: the views agree, product names
    have no colon, stored orders have issued identifiers, a lock has not
    executed more than its quantity, the orders recorded as closed are not
    open, and the open orders are of listed products. *)
Record order_inv {S} (H : Z) (s : OrderState S) : Prop := {
  oi_agree : books_agree (os_orders s) (GetDepthBookCopy (os_cache s)) (dc_ids (os_cache s));
  oi_pairs : ∀ p tp, os_pairs s !! p = Some tp → no_colon p;
  oi_fresh : ∀ id, is_Some (os_orders s !! id) → issued H s id;
  oi_nums : ∀ h n, os_blockOrderNum s !! h = Some n → 0 ≤ n;
  oi_locks : ∀ p lock, os_productLocks s !! p = Some lock → no_colon p ∧
    0 ≤ Pl_Quantity lock ∧ Pl_BuyExecuted lock ≤ Pl_Quantity lock ∧
    Pl_SellExecuted lock ≤ Pl_Quantity lock;
  oi_closed : ∀ id, id ∈ dc_closed (os_cache s) → dead H s id;
  oi_listed : ∀ id o, os_orders s !! id = Some o → is_open o → is_Some (os_pairs s !! Od_Product o);
  oi_names : ∀ p, GetDepthBookCopy (os_cache s) p ≠ [] → no_colon p }.

(** What happens to an order after it is placed changes none of its terms and
    does not open it again. *)
Record same_terms (o o' : Order) : Prop := {
  st_id : Od_OrderID o' = Od_OrderID o;
  st_sender : Od_Sender o' = Od_Sender o;
  st_product : Od_Product o' = Od_Product o;
  st_side : Od_Side o' = Od_Side o;
  st_price : Od_Price o' = Od_Price o;
  st_quantity : Od_Quantity o' = Od_Quantity o;
  st_closed : ¬ is_open o → ¬ is_open o' }.

#[global] Instance same_terms_preorder : PreOrder same_terms.
Proof. split; [by intros o; split|]. intros a b c [] []. split; first [congruence|tauto]. Qed.

(** A step that keeps the invariant, opens no closed order again, forgets no
    identifier and gives none out twice: an order with an identifier that was
    given out before is the same order. *)
Record keeps {S} (H : Z) (s s' : OrderState S) : Prop := {
  kp_inv : order_inv H s';
  kp_dead : ∀ id, dead H s id → dead H s' id;
  kp_issued : ∀ id, issued H s id → issued H s' id;
  kp_known : ∀ id o', os_orders s' !! id = Some o' → issued H s id →
    ∃ o, os_orders s !! id = Some o ∧ same_terms o o' }.

(** The parts of the state that the invariant reads. *)
Record same_books {S} (s s' : OrderState S) : Prop := {
  sb_orders : os_orders s' = os_orders s;
  sb_nums : os_blockOrderNum s' = os_blockOrderNum s;
  sb_pairs : os_pairs s' = os_pairs s;
  sb_locks : os_productLocks s' = os_productLocks s;
  sb_books : dc_books (os_cache s') = dc_books (os_cache s);
  sb_ids : dc_ids (os_cache s') = dc_ids (os_cache s);
  sb_closed : dc_closed (os_cache s') = dc_closed (os_cache s) }.

Section Views.
Context {S : Type}.

#[global] Instance same_books_preorder : PreOrder (@same_books S).
Proof.
  split; [by intros s; split|]. intros a b c [] []. split; congruence.
Qed.

Lemma issued_mono H (s s' : OrderState S) id :
  default 0 (os_blockOrderNum s !! H) ≤ default 0 (os_blockOrderNum s' !! H) →
  issued H s id → issued H s' id.
Proof.
  intros Hle (h & n & E & Hh & Hn & Hb). exists h, n. split_and!; try done.
  destruct Hb as [|[-> ?]]; [by left|right; lia].
Qed.

Lemma same_books_inv H (s s' : OrderState S) : same_books s s' → order_inv H s → order_inv H s'.
Proof.
  intros [E1 E2 E3 E4 E5 E6 E7] [H1 H2 H3 H4 H5 H6 H7 H8].
  assert (∀ id, issued H s id → issued H s' id) as Hi by (intros id; apply issued_mono; by rewrite E2).
  split; rewrite ?E1, ?E2, ?E3, ?E4, ?E6, ?E7; try done.
  - unfold GetDepthBookCopy in *. by rewrite E5.
  - auto.
  - intros id [? Hd]%H6. split; [auto|]. by rewrite E1.
  - unfold GetDepthBookCopy in *. by rewrite E5.
Qed.

Lemma keeps_refl H (s : OrderState S) : order_inv H s → keeps H s s.
Proof. intros Hi. split; [done..|]. intros id o Ho _. by exists o. Qed.
Lemma keeps_trans H (s1 s2 s3 : OrderState S) : keeps H s1 s2 → keeps H s2 s3 → keeps H s1 s3.
Proof.
  intros [A1 A2 A3 A4] [B1 B2 B3 B4]. split; [done|auto..|]. intros id o3 Ho Hi.
  destruct (B4 id o3 Ho (A3 _ Hi)) as (o2 & Ho2 & T2). destruct (A4 id o2 Ho2 Hi) as (o1 & Ho1 & T1).
  exists o1. split; [done|]. by transitivity o2.
Qed.
Lemma same_books_keeps H (s s' : OrderState S) : same_books s s' → order_inv H s → keeps H s s'.
Proof.
  intros Hsb Hinv.
  assert (∀ id, issued H s id → issued H s' id) as Hiss by (intros id; apply issued_mono; by rewrite (sb_nums _ _ Hsb)).
  split; [by eapply same_books_inv| |done|].
  - intros id [Hi Hd]. split; [auto|]. by rewrite (sb_orders _ _ Hsb).
  - intros id o Ho _. exists o. by rewrite <- (sb_orders _ _ Hsb).
Qed.

Lemma remain_sum_app o l k : remain_sum o (l ++ k) = remain_sum o l + remain_sum o k.
Proof. induction l as [|id l IH]; [done|]. unfold remain_sum in *. cbn [foldr app]. lia. Qed.
Lemma remain_sum_cons o id l : remain_sum o (id :: l) = remain_of o id + remain_sum o l.
Proof. done. Qed.
Lemma remain_sum_ext o o' l :
  (∀ id, id ∈ l → o' !! id = o !! id) → remain_sum o' l = remain_sum o l.
Proof.
  intros H. induction l as [|id l IH]; [done|]. rewrite !remain_sum_cons, IH by set_solver.
  unfold remain_of. by rewrite H by set_solver.
Qed.

Lemma key_inj p side price p' side' price' :
  no_colon p → no_colon p' →
  FormatOrderIDsKey p price side = FormatOrderIDsKey p' price' side' →
  p = p' ∧ price = price' ∧ side = side'.
Proof.
  unfold FormatOrderIDsKey. intros H1 H2 E. apply split_at_colon in E as [-> E]; [|done..].
  apply split_at_colon in E as [E ->]; [|apply Dec_String_no_colon..].
  by apply Dec_String_inj in E as ->.
Qed.

(** A change that stays within one slot keeps the agreement if the slot is in
    order afterwards. *)
Lemma agree_update orders book ids orders' b' ids' p side price :
  books_agree orders book ids → valid_side side → no_colon p →
  (∀ id o, orders' !! id = Some o → order_ok id o) →
  (∀ id, orders' !! id = orders !! id ∨
    (∀ o, orders !! id = Some o → in_slot o p side price) ∧
    (∀ o, orders' !! id = Some o → in_slot o p side price)) →
  book_sorted b' →
  (∀ side' price', valid_side side' → side' ≠ side ∨ price' ≠ price →
    level_qty side' b' price' = level_qty side' (book p) price') →
  (∀ k, k ≠ FormatOrderIDsKey p price side → ids' !! k = ids !! k) →
  slot_ok orders' b' (ids_at ids' p side price) p side price →
  books_agree orders' (<[p := b']> book) ids'.
Proof.
  intros [Ho Hs Hslot] Hv Hp Ho' Hch Hb' Hq Hids Hok. split; [done| |].
  { intros q. destruct (decide (p = q)) as [<-|]; [by rewrite fn_lookup_insert|].
    by rewrite fn_lookup_insert_ne. }
  intros q side' price' Hv' Hq'.
  destruct (decide (q = p ∧ side' = side ∧ price' = price)) as [(-> & -> & ->)|Hne].
  { by rewrite fn_lookup_insert. }
  assert (ids_at ids' q side' price' = ids_at ids q side' price') as ->.
  { unfold ids_at. rewrite Hids; [done|]. intros E%key_inj; naive_solver. }
  assert (∀ o, in_slot o p side price → in_slot o q side' price' → False) as Hdis.
  { intros o (? & ? & ?) (? & ? & ?). subst. by apply Hne. }
  destruct (Hslot q side' price' Hv' Hq') as (H1 & H2 & H3).
  assert (∀ id o, is_open o → in_slot o q side' price' →
    orders' !! id = Some o ↔ orders !! id = Some o) as Hsame.
  { intros id o _ Ho1. destruct (Hch id) as [->|[Hc1 Hc2]]; [done|].
    split; intros E; exfalso; eauto. }
  unfold slot_ok.
  assert (level_qty side' (<[p:=b']> book q) price' = level_qty side' (book q) price') as ->.
  { destruct (decide (p = q)) as [<-|]; [|by rewrite fn_lookup_insert_ne].
    rewrite fn_lookup_insert. apply Hq; [done|].
    destruct (decide (side' = side)) as [->|]; [right|by left]. intros ->. by apply Hne. }
  split_and!; [|done|].
  - rewrite H1. symmetry. apply remain_sum_ext. intros id Hid.
    apply H3 in Hid as (o & Ho1 & Ho2 & Ho3). rewrite Ho1. by apply Hsame.
  - intros id. rewrite H3. split; intros (o & Ho1 & Ho2 & Ho3); exists o; split; try done;
      by apply Hsame.
Qed.

End Views.

(** ** Taking a quantity off a level *)

Section Levels.

Definition sub_level (side : string) (it : DepthBookItem) (num : Dec) : DepthBookItem :=
  if String.eqb side BuyOrder
  then mkItem (Bi_Price it) (Bi_BuyQuantity it - num) (Bi_SellQuantity it)
  else mkItem (Bi_Price it) (Bi_BuyQuantity it) (Bi_SellQuantity it - num).

Lemma sub_level_price side it num : Bi_Price (sub_level side it num) = Bi_Price it.
Proof. unfold sub_level. by destruct (String.eqb _ _). Qed.
Lemma sub_level_qty side side' it num :
  valid_side side → valid_side side' →
  side_qty side' (sub_level side it num)
  = side_qty side' it - (if decide (side' = side) then num else 0).
Proof.
  intros [->| ->] [->| ->]; unfold side_qty, sub_level; cbn; destruct (decide _); try done; lia.
Qed.

Lemma level_qty_app side a b p : level_qty side (a ++ b) p = level_qty side a p + level_qty side b p.
Proof. apply book_sum_app. Qed.
Lemma level_qty_cons side it b p :
  level_qty side (it :: b) p = (if Bi_Price it =? p then side_qty side it else 0) + level_qty side b p.
Proof. done. Qed.

(** The levels of a sorted book have different prices. *)
Lemma level_qty_at side pre it post :
  book_sorted (pre ++ it :: post) →
  level_qty side (pre ++ it :: post) (Bi_Price it) = side_qty side it.
Proof.
  intros (_ & H2 & H3)%sorted_app. apply StronglySorted_inv in H2 as [_ H2].
  rewrite level_qty_app, level_qty_cons, Z.eqb_refl, (level_qty_other _ pre), (level_qty_other _ post);
    [lia| |].
  - eapply Forall_impl; [exact H2|]. cbn. lia.
  - eapply Forall_impl; [exact H3|]. intros x Hx%Forall_inv. cbn in Hx. lia.
Qed.

Lemma DepthBook_Sub_at pre it post num side b1 :
  valid_side side → DepthBook_Sub (pre ++ it :: post) (length pre) num side = Ok b1 →
  b1 = pre ++ sub_level side it num :: post.
Proof.
  intros Hv Hrun. unfold DepthBook_Sub, idx in Hrun. rewrite list_lookup_middle in Hrun by done.
  unfold sub_level.
  destruct Hv as [->| ->];
    [change (String.eqb BuyOrder BuyOrder) with true in *
    |change (String.eqb SellOrder BuyOrder) with false in *;
     change (String.eqb SellOrder SellOrder) with true in *]; cbv iota in *;
    cbn [mbind outcome_bind] in Hrun; apply outcome_bind_Ok in Hrun as (q & Hq & Hrun);
    apply Dec_Sub_Ok in Hq as [-> _]; injection Hrun as <-;
    by rewrite insert_app_r_alt, Nat.sub_diag by done.
Qed.

Lemma RemoveIfEmpty_at pre it post res b2 :
  RemoveIfEmpty (pre ++ it :: post) (length pre) = Ok (res, b2) →
  res = (Bi_BuyQuantity it =? 0) && (Bi_SellQuantity it =? 0) ∧
  b2 = pre ++ (if res then [] else [it]) ++ post.
Proof.
  unfold RemoveIfEmpty, idx. rewrite list_lookup_middle by done. cbn [mbind outcome_bind].
  rewrite !Dec_IsZero_eq. intros [= <- <-]. split; [done|]. destruct (_ && _); [|done].
  rewrite take_app_length. cbn [app]. f_equal.
  replace (S (length pre)) with (length (pre ++ [it])) by (rewrite length_app; cbn; lia).
  change (it :: post) with ([it] ++ post). rewrite app_assoc. by rewrite drop_app_length.
Qed.

(** What filling or removing does to a level. *)
Lemma level_sub pre it post num side b1 res b2 :
  book_sorted (pre ++ it :: post) → valid_side side →
  DepthBook_Sub (pre ++ it :: post) (length pre) num side = Ok b1 →
  RemoveIfEmpty b1 (length pre) = Ok (res, b2) →
  b2 = pre ++ (if res then [] else [sub_level side it num]) ++ post ∧ book_sorted b2 ∧
  ∀ side' p, valid_side side' →
    level_qty side' b2 p = level_qty side' (pre ++ it :: post) p
      - (if decide (side' = side ∧ p = Bi_Price it) then num else 0).
Proof.
  intros Hs Hv HS HR. apply DepthBook_Sub_at in HS as ->; [|done].
  apply RemoveIfEmpty_at in HR as [Hres ->]. split; [done|]. split.
  { apply sorted_app in Hs as (H1 & H2 & H3). apply StronglySorted_inv in H2 as [H2 H4].
    destruct res; cbn [app]; apply sorted_app; split_and!; try done.
    - eapply Forall_impl; [exact H3|]. by intros x [_ ?]%Forall_cons.
    - constructor; [done|]. by rewrite sub_level_price.
    - eapply Forall_impl; [exact H3|]. intros x [? ?]%Forall_cons. constructor; [|done].
      by rewrite sub_level_price. }
  intros side' p Hv'. rewrite !level_qty_app, level_qty_cons.
  assert (level_qty side' (if res then [] else [sub_level side it num]) p
    = if Bi_Price it =? p then side_qty side' (sub_level side it num) else 0) as ->.
  { destruct res.
    - symmetry in Hres. apply andb_true_iff in Hres as [H1%Z.eqb_eq H2%Z.eqb_eq].
      unfold side_qty. rewrite H1, H2. change (level_qty side' [] p) with 0.
      by destruct (Bi_Price it =? p), (String.eqb side' BuyOrder).
    - rewrite level_qty_cons, sub_level_price. change (level_qty side' [] p) with 0. lia. }
  rewrite sub_level_qty by done. destruct (Z.eqb_spec (Bi_Price it) p) as [<-|].
  - destruct (decide (side' = side)) as [->|];
      [rewrite decide_True by done|rewrite decide_False by naive_solver]; lia.
  - rewrite decide_False by naive_solver. lia.
Qed.

(** Removing an order that the book holds. *)
Lemma RemoveOrder_Ok b o b' :
  book_sorted b → valid_side (Od_Side o) → level_qty (Od_Side o) b (Od_Price o) ≠ 0 →
  RemoveOrder b o = Ok b' →
  book_sorted b' ∧
  ∀ side p, valid_side side →
    level_qty side b' p = level_qty side b p
      - (if decide (side = Od_Side o ∧ p = Od_Price o) then Od_RemainQuantity o else 0).
Proof.
  intros Hs Hv Hne Hrun. pose proof (book_place_search b (Od_Price o) Hs) as Hp.
  generalize dependent (take (book_search b (Od_Price o)) b).
  generalize dependent (drop (book_search b (Od_Price o)) b). intros post0 pre' Hp.
  inversion Hp as [pre post E H1 H2 E1 E2|pre it post E H0 H1 H2 E1 E2].
  { destruct Hne. apply level_qty_other. rewrite E. apply Forall_app.
    split; (eapply Forall_impl; [eassumption|]); cbn; lia. }
  subst. unfold RemoveOrder in Hrun.
  rewrite (search_length _ (Od_Price o) pre' it post Hs) in Hrun by done.
  rewrite list_lookup_middle in Hrun by done. unfold Dec_Equal in Hrun. rewrite H0, Z.eqb_refl in Hrun.
  apply outcome_bind_Ok in Hrun as (b1 & HS & Hrun).
  apply outcome_bind_Ok in Hrun as ([res b2] & HR & Hrun). injection Hrun as <-.
  destruct (level_sub _ _ _ _ _ _ _ _ Hs Hv HS HR) as (_ & H3 & H4). rewrite H0 in H4. done.
Qed.

End Levels.

(** ** Changes to one slot *)

Section Slots.
Implicit Types (orders : gmap string Order) (ids : gmap string (list string)).

Lemma agree_place orders book ids o b' :
  books_agree orders book ids → order_ok (Od_OrderID o) o → is_open o →
  orders !! Od_OrderID o = None →
  InsertOrder (book (Od_Product o)) o = Ok b' →
  books_agree (<[Od_OrderID o := o]> orders) (<[Od_Product o := b']> book)
    (<[FormatOrderIDsKey (Od_Product o) (Od_Price o) (Od_Side o) :=
       ids_at ids (Od_Product o) (Od_Side o) (Od_Price o) ++ [Od_OrderID o]]> ids).
Proof.
  intros Ha Hok Hopen Hnew HI. pose proof Hok as (_ & Hv & Hp & Hpos).
  destruct (InsertOrder_Ok _ _ _ (ba_sorted _ _ _ Ha _) Hv HI) as [Hs Hq].
  destruct (ba_slot _ _ _ Ha _ _ (Od_Price o) Hv Hp) as (H1 & H2 & H3).
  set (l := ids_at ids _ _ _) in *.
  assert (Od_OrderID o ∉ l) as Hni by (intros (x & Hx & _)%H3; congruence).
  apply (agree_update orders book ids _ _ _ (Od_Product o) (Od_Side o) (Od_Price o)); try done.
  - intros id x [[<- <-]|[_ Hx]]%lookup_insert_Some; [done|]. by apply (ba_orders _ _ _ Ha).
  - intros id. destruct (decide (id = Od_OrderID o)) as [->|]; [|left; by apply lookup_insert_ne].
    right. rewrite Hnew, lookup_insert_eq. split; [done|]. by intros x [= <-].
  - intros side p Hside Hne. rewrite Hq by done. rewrite decide_False by naive_solver. lia.
  - intros k Hk. by rewrite lookup_insert_ne.
  - replace (ids_at (<[_ := _]> ids) _ _ _) with (l ++ [Od_OrderID o])
      by (unfold ids_at; by rewrite lookup_insert_eq). split_and!.
    + rewrite Hq, decide_True, H1, remain_sum_app, remain_sum_cons by done.
      rewrite (remain_sum_ext orders (<[_ := _]> orders) l).
      * unfold remain_of. rewrite lookup_insert_eq. change (remain_sum _ []) with 0. lia.
      * intros id Hid. apply lookup_insert_ne. by intros <-.
    + apply NoDup_app. split_and!; [done| |apply NoDup_singleton]. set_solver.
    + intros id. rewrite elem_of_app, list_elem_of_singleton, H3. split.
      * intros [(x & Hx & ?)| ->]; [|exists o; by rewrite lookup_insert_eq].
        exists x. rewrite lookup_insert_ne; [done|]. by intros <-; congruence.
      * intros (x & [[<- <-]|[_ Hx]]%lookup_insert_Some & ?); [by right|left; by exists x].
Qed.

Lemma removeID_spec id l :
  NoDup l → id ∈ l → ∃ l1 l2, l = l1 ++ id :: l2 ∧ removeID id l = Some (l1 ++ l2).
Proof.
  intros Hnd. induction Hnd as [|x l Hx Hnd IH]; intros Hin; [by apply not_elem_of_nil in Hin|].
  cbn [removeID]. destruct (String.eqb_spec x id) as [->|Hne].
  - by exists [], l.
  - destruct IH as (l1 & l2 & -> & ->); [set_solver|]. exists (x :: l1), l2. done.
Qed.

(** An open order [o] is closed as [o'] with the same terms and the same
    quantity left. *)
Lemma agree_quit orders book ids o o' b' l' ids' :
  books_agree orders book ids → orders !! Od_OrderID o = Some o → is_open o →
  order_ok (Od_OrderID o) o' → ¬ is_open o' → in_slot o' (Od_Product o) (Od_Side o) (Od_Price o) →
  Od_RemainQuantity o' = Od_RemainQuantity o →
  RemoveOrder (book (Od_Product o)) o' = Ok b' →
  removeID (Od_OrderID o) (ids_at ids (Od_Product o) (Od_Side o) (Od_Price o)) = Some l' →
  (∀ k, k ≠ FormatOrderIDsKey (Od_Product o) (Od_Price o) (Od_Side o) → ids' !! k = ids !! k) →
  ids_at ids' (Od_Product o) (Od_Side o) (Od_Price o) = l' →
  books_agree (<[Od_OrderID o := o']> orders) (<[Od_Product o := b']> book) ids'.
Proof.
  intros Ha Ho Hopen Hok' Hclosed Hslot Hrem HR Hl Hids Hl'.
  destruct (ba_orders _ _ _ Ha _ _ Ho) as (_ & Hv & Hp & Hpos). specialize (Hpos Hopen).
  destruct (ba_slot _ _ _ Ha _ _ (Od_Price o) Hv Hp) as (H1 & H2 & H3).
  set (l := ids_at ids _ _ _) in *.
  assert (Od_OrderID o ∈ l) as Hin by (apply H3; by exists o).
  destruct (removeID_spec _ _ H2 Hin) as (l1 & l2 & El & El'). rewrite El' in Hl. injection Hl as Hl.
  rewrite El in H1, H2, H3. rewrite remain_sum_app, remain_sum_cons in H1.
  apply NoDup_app in H2 as (Hn1 & Hn2 & [Hn3 Hn4]%NoDup_cons).
  assert (Od_OrderID o ∉ l1 ++ l2) as Hni by set_solver.
  destruct Hslot as (S1 & S2 & S3).
  destruct (RemoveOrder_Ok (book (Od_Product o)) o' b') as [Hs Hq]; [apply Ha|by rewrite S2| |done|].
  { rewrite S2, S3, H1. unfold remain_of. rewrite Ho.
    assert (∀ k, (∀ id, id ∈ k → id ∈ l) → 0 ≤ remain_sum orders k) as Hnn; [|].
    { induction k as [|id k IH]; intros Hk; [done|]. rewrite remain_sum_cons.
      assert (id ∈ l) as Hid by set_solver. rewrite El in Hid.
      apply H3 in Hid as (x & Hx & Hx2 & _). unfold remain_of. rewrite Hx.
      destruct (ba_orders _ _ _ Ha _ _ Hx) as (_ & _ & _ & Hx3). specialize (Hx3 Hx2).
      assert (0 ≤ remain_sum orders k) by (apply IH; set_solver). lia. }
    assert (0 ≤ remain_sum orders l1) by (apply Hnn; rewrite El; set_solver).
    assert (0 ≤ remain_sum orders l2) by (apply Hnn; rewrite El; set_solver). lia. }
  rewrite S2, S3, Hrem in Hq.
  apply (agree_update orders book ids _ _ _ (Od_Product o) (Od_Side o) (Od_Price o)); try done.
  - intros id x [[<- <-]|[_ Hx]]%lookup_insert_Some; [done|]. by apply (ba_orders _ _ _ Ha).
  - intros id. destruct (decide (id = Od_OrderID o)) as [->|]; [|left; by apply lookup_insert_ne].
    right. rewrite Ho, lookup_insert_eq. split; by intros x [= <-].
  - intros side p Hside Hne. rewrite Hq by done. rewrite decide_False by naive_solver. lia.
  - rewrite Hl'. subst l'. split_and!.
    + rewrite Hq, decide_True, H1, remain_sum_app by done. unfold remain_of. rewrite Ho.
      rewrite !(remain_sum_ext orders (<[_:=_]> _)); [lia|..];
        intros id Hid; apply lookup_insert_ne; set_solver.
    + apply NoDup_app. set_solver.
    + intros id. split.
      * intros Hid. assert (id ∈ l1 ++ Od_OrderID o :: l2) as (x & Hx & ?)%H3 by set_solver.
        exists x. rewrite lookup_insert_ne; [done|]. intros <-. done.
      * intros (x & [[<- <-]|[Hne Hx]]%lookup_insert_Some & Hx2 & Hx3); [done|].
        assert (id ∈ l1 ++ Od_OrderID o :: l2) by (apply H3; by exists x). set_solver.
Qed.

Lemma setOrderIDs_ids key l c :
  default [] (dc_ids (setOrderIDs key l c) !! key) = l ∧
  (∀ k, k ≠ key → dc_ids (setOrderIDs key l c) !! k = dc_ids c !! k).
Proof.
  unfold setOrderIDs. cbn. destruct l; split.
  - by rewrite lookup_delete_eq.
  - intros k Hk. by rewrite lookup_delete_ne.
  - by rewrite lookup_insert_eq.
  - intros k Hk. by rewrite lookup_insert_ne.
Qed.

Lemma setDepthBook_copy p b c :
  pointwise_relation _ eq (GetDepthBookCopy (setDepthBook p b c)) (<[p := b]> (GetDepthBookCopy c)).
Proof.
  intros q. unfold setDepthBook, GetDepthBookCopy. cbn. destruct (decide (p = q)) as [<-|Hne].
  - rewrite fn_lookup_insert. destruct b; by simplify_map_eq.
  - rewrite fn_lookup_insert_ne by done. destruct b; by simplify_map_eq.
Qed.

Lemma insert_copy p b c :
  pointwise_relation _ eq (λ q, default [] (<[p := b]> (dc_books c) !! q))
    (<[p := b]> (GetDepthBookCopy c)).
Proof.
  intros q. unfold GetDepthBookCopy. destruct (decide (p = q)) as [<-|Hne].
  - by rewrite fn_lookup_insert, lookup_insert_eq.
  - by rewrite fn_lookup_insert_ne, lookup_insert_ne.
Qed.

End Slots.

(** ** Placing and closing orders *)

(** An identifier determines its height and number. *)
Lemma FormatOrderID_inj h n h' n' :
  0 ≤ h → 0 ≤ n → 0 ≤ h' → 0 ≤ n' → FormatOrderID h n = FormatOrderID h' n' → h = h' ∧ n = n'.
Proof.
  intros Hh Hn Hh' Hn'.
  assert (∀ h n, ∃ w, FormatOrderID h n
    = String "I" (String "D" (Sprintf_0d w h +:+ String "-" (Sprintf_0d 0 n)))) as Hshape.
  { intros x y. unfold FormatOrderID. rewrite !Sprintf_0d_0.
    destruct (x >? 9999999999); [by exists 0%nat|by exists 10%nat]. }
  destruct (Hshape h n) as [w ->], (Hshape h' n') as [w' ->]. intros [= E].
  destruct (Sprintf_0d_digits w h Hh) as (A1 & A2 & _), (Sprintf_0d_digits w' h' Hh') as (B1 & B2 & _).
  destruct (Sprintf_0d_digits 0 n Hn) as (_ & C2 & _), (Sprintf_0d_digits 0 n' Hn') as (_ & D2 & _).
  destruct (scan_digits_spec _ "-" (Sprintf_0d 0 n) A1 eq_refl) as [E1 _].
  destruct (scan_digits_spec _ "-" (Sprintf_0d 0 n') B1 eq_refl) as [E2 _].
  rewrite E, E2 in E1. injection E1 as E3 E4.
  rewrite E3 in B2. rewrite E4 in D2. split; congruence.
Qed.

Section Operations.
Context {S : Type} `{CoinKeeper S} (feeCollectorName : string).
Implicit Types s : OrderState S.

Lemma frames_token {A} (m : M (TokenState S) A) : frames same_books (os_on_token m).
Proof. intros s. unfold os_on_token, zoom. destruct (m (os_token s)) as [r t]. by split. Qed.
Hint Resolve frames_token : frames.

Lemma frames_lock a cs t : frames same_books (Order_LockCoins a cs t).
Proof. unfold Order_LockCoins. frame_tac. Qed.
Lemma frames_unlock a cs t : frames same_books (Order_UnlockCoins a cs t).
Proof. unfold Order_UnlockCoins. frame_tac. Qed.
Lemma frames_collect cs a : frames same_books (AddCollectedFees feeCollectorName cs a).
Proof. unfold AddCollectedFees. frame_tac. Qed.
Lemma frames_setLastPrice p x : frames same_books (SetLastPrice (S := S) p x).
Proof. apply frames_modify. intros s. by split. Qed.
Hint Resolve frames_lock frames_unlock frames_collect frames_setLastPrice : frames.
Lemma frames_lastPrice p : frames same_books (GetLastPrice (S := S) p).
Proof. unfold GetLastPrice, GetTokenPair. frame_tac. Qed.
Lemma frames_receiver p : frames same_books (GetProductFeeReceiver (S := S) p).
Proof. unfold GetProductFeeReceiver, GetTokenPair. frame_tac. Qed.
Hint Resolve frames_lastPrice frames_receiver : frames.
Lemma frames_orEmpty m : frames (@same_books S) m → frames same_books (orEmpty m).
Proof. intros Hm s. specialize (Hm s). unfold orEmpty. by destruct (m s) as [[?|?|?] ?]. Qed.
Lemma frames_toOwner cs a p : frames same_books (SendFeesToProductOwner cs a p).
Proof. unfold SendFeesToProductOwner. frame_tac. Qed.
Hint Resolve frames_orEmpty frames_toOwner : frames.
Lemma frames_charge h o q r : frames same_books (chargeFee feeCollectorName h o q r).
Proof. unfold chargeFee. frame_tac. Qed.
Lemma frames_balance o p q : frames same_books (balanceAccount o p q).
Proof. unfold balanceAccount, Order_BalanceAccount. frame_tac. Qed.
Lemma frames_try o : frames same_books (TryPlaceOrder o).
Proof. unfold TryPlaceOrder. frame_tac. Qed.
Hint Resolve frames_charge frames_balance frames_try : frames.
Lemma frames_fromMsg t msg r : frames same_books (getOrderFromMsg (S := S) t msg r).
Proof. unfold getOrderFromMsg. frame_tac. Qed.
Lemma frames_checkMsg msg : frames same_books (checkOrderNewMsg (S := S) msg).
Proof. unfold checkOrderNewMsg, GetTokenPair. frame_tac. Qed.

(** The number of the next order of a block has not been used. *)
Lemma next_id_fresh s h :
  order_inv h s → 0 ≤ h →
  ¬ issued h s (FormatOrderID h (default 0 (os_blockOrderNum s !! h) + 1)).
Proof.
  intros Hi Hh (h' & n' & E' & Hh' & Hn' & Hb).
  assert (0 ≤ default 0 (os_blockOrderNum s !! h)).
  { destruct (os_blockOrderNum s !! h) eqn:Eh; [by eapply (oi_nums _ _ Hi)|done]. }
  apply FormatOrderID_inj in E' as [<- <-]; lia.
Qed.

Lemma insertOrder_Ok o c c' :
  insertOrder o c = Ok c' →
  ∃ b', InsertOrder (GetDepthBookCopy c (Od_Product o)) o = Ok b' ∧
  dc_books c' = <[Od_Product o := b']> (dc_books c) ∧
  dc_ids c' = <[FormatOrderIDsKey (Od_Product o) (Od_Price o) (Od_Side o) :=
    ids_at (dc_ids c) (Od_Product o) (Od_Side o) (Od_Price o) ++ [Od_OrderID o]]> (dc_ids c) ∧
  dc_closed c' = dc_closed c.
Proof.
  unfold insertOrder. intros (b' & Hb & Hc)%outcome_bind_Ok. injection Hc as <-. by exists b'.
Qed.

(** What an accepted order looks like before it has its identifier. *)
Definition placeable (o : Order) : Prop :=
  is_open o ∧ valid_side (Od_Side o) ∧ no_colon (Od_Product o) ∧ 0 < Od_RemainQuantity o.

Lemma PlaceOrder_inv h o s o' s' :
  order_inv h s → 0 ≤ h → placeable o → is_Some (os_pairs s !! Od_Product o) →
  PlaceOrder h o s = (Ok o', s') →
  keeps h s s' ∧ os_orders s' = <[Od_OrderID o' := o']> (os_orders s) ∧
  os_orders s !! Od_OrderID o' = None.
Proof.
  intros Hinv Hh (P1 & P2 & P3 & P4) P5 Hrun. unfold PlaceOrder in Hrun.
  apply M_bind_Ok in Hrun as (fee & s1 & Ht & Hrun).
  assert (keeps h s s1 ∧ os_orders s1 = os_orders s ∧ os_pairs s1 = os_pairs s) as (Hk & Eo & Ep).
  { assert (same_books s s1) as Hsb by (eapply frames_run; [apply frames_try|exact Ht]).
    split_and!; [by apply same_books_keeps|apply Hsb..]. }
  enough (keeps h s1 s' ∧ os_orders s' = <[Od_OrderID o' := o']> (os_orders s1) ∧
    os_orders s1 !! Od_OrderID o' = None) as (G1 & G2 & G3).
  { rewrite <- Eo. split; [|done]. by eapply keeps_trans. }
  pose proof (kp_inv _ _ _ Hk) as Hi1. clear Ht Hinv Hk. rewrite <- Ep in P5. clear Eo Ep s.
  apply M_bind_Ok in Hrun as (n & s2 & Hn & Hrun). apply gets_Ok in Hn as [-> ->].
  set (n := default 0 (os_blockOrderNum s1 !! h)) in *. cbv zeta in Hrun.
  set (o2 := od_set_id o (FormatOrderID h (n + 1))) in *.
  apply M_bind_Ok in Hrun as (u & s2 & H2 & Hrun). apply modify_Ok in H2 as ->.
  apply M_bind_Ok in Hrun as (u' & s3 & H3 & Hrun). apply modify_Ok in H3 as ->.
  apply M_bind_Ok in Hrun as (u'' & s4 & H4 & Hrun). apply mret_Ok in Hrun as [-> ->].
  unfold on_cache_try, on_cache in H4. apply M_bind_Ok in H4 as (c & s5 & Hc & H4).
  apply gets_Ok in Hc as [-> ->]. apply M_bind_Ok in H4 as (c' & s5 & Hc & H4).
  apply lift_Ok in Hc as [Hc ->]. apply modify_Ok in H4 as ->. cbn in Hc.
  apply insertOrder_Ok in Hc as (b' & Hb & Eb & Ei & Ec). cbn in Ec.
  pose proof (next_id_fresh s1 h Hi1 Hh) as Hfresh. fold n in Hfresh.
  change (FormatOrderID h (n + 1)) with (Od_OrderID o2) in Hfresh.
  assert (os_orders s1 !! Od_OrderID o2 = None) as Hnew.
  { destruct (os_orders s1 !! Od_OrderID o2) eqn:E; [|done]. destruct Hfresh. by apply (oi_fresh _ _ Hi1). }
  assert (0 ≤ n) as Hn0.
  { unfold n. destruct (os_blockOrderNum s1 !! h) eqn:Eh; [|done]. by eapply (oi_nums _ _ Hi1). }
  assert (∀ t : OrderState S, os_blockOrderNum t = <[h := n + 1]> (os_blockOrderNum s1) →
    (issued h t (Od_OrderID o2)) ∧ (∀ id, issued h s1 id → issued h t id)) as Hiss.
  { intros t Et. split.
    - exists h, (n + 1). rewrite Et, lookup_insert_eq. cbn. split_and!; [done|done|lia|right; lia].
    - intros id. apply issued_mono. rewrite Et, lookup_insert_eq. cbn. fold n. lia. }
  split_and!; [|done|done]. match goal with |- keeps _ _ ?t => destruct (Hiss t eq_refl) as [Hi1' Hi2'] end.
  split; [|intros id [I1 I2]; split; [by apply Hi2'|]; cbn; intros x [[<- <-]|[_ Hx]]%lookup_insert_Some;
    [done|by apply I2]|done|cbn; intros id x [[<- <-]|[_ Hx]]%lookup_insert_Some; [done|by exists x]].
  split; cbn [os_orders os_cache os_pairs os_blockOrderNum os_set_cache os_set_orders os_set_blockOrderNum].
  - unfold GetDepthBookCopy. rewrite Eb, Ei, insert_copy.
    apply agree_place; [apply Hi1|by split_and!|done|done|done].
  - apply Hi1.
  - intros id [<-|[_ Hx]]%lookup_insert_is_Some; [by apply Hi1'|].
    apply Hi2'. by apply (oi_fresh _ _ Hi1).
  - intros h' n' [[<- <-]|[_ Hx]]%lookup_insert_Some; [lia|]. by eapply (oi_nums _ _ Hi1).
  - apply Hi1.
  - rewrite Ec. intros id Hid. destruct (oi_closed _ _ Hi1 id Hid) as [I1 I2]. split; [by apply Hi2'|].
    cbn. intros x [[<- <-]|[_ Hx]]%lookup_insert_Some; [done|by apply I2].
  - intros id x [[_ <-]|[_ Hx]]%lookup_insert_Some; [done|by apply (oi_listed _ _ Hi1 id)].
  - intros p. unfold GetDepthBookCopy. rewrite Eb. destruct (decide (p = Od_Product o)) as [->|]; [done|].
    rewrite lookup_insert_ne by done. apply (oi_names _ _ Hi1).
Qed.

(** A failed placement has not touched the cache. *)
Lemma PlaceOrder_Err h o s e s' :
  PlaceOrder h o s = (Err e, s') →
  dc_books (os_cache s') = dc_books (os_cache s) ∧ dc_ids (os_cache s') = dc_ids (os_cache s) ∧
  dc_closed (os_cache s') = dc_closed (os_cache s).
Proof.
  unfold PlaceOrder. intros [Ht|(fee & s1 & Ht & Hrun)]%M_bind_Err;
    (assert (same_books s (TryPlaceOrder o s).2) as Hsb by apply frames_try; rewrite Ht in Hsb; cbn in Hsb).
  { by split_and!; apply Hsb. }
  destruct Hsb as [_ _ _ _ E1 E2 E3]. rewrite <- E1, <- E2, <- E3.
  unfold GetBlockOrderNum, SetBlockOrderNum, SetOrder, on_cache_try, on_cache in Hrun.
  cbv [mbind M_bind gets modify lift mret M_ret] in Hrun. cbn [os_cache os_set_orders os_set_blockOrderNum] in Hrun.
  destruct (insertOrder _ _); [done| |done]. injection Hrun as _ <-. done.
Qed.

Lemma removeOrder_Ok o c c' l' :
  removeID (Od_OrderID o) (ids_at (dc_ids c) (Od_Product o) (Od_Side o) (Od_Price o)) = Some l' →
  removeOrder o c = Ok c' →
  ∃ b', RemoveOrder (GetDepthBookCopy c (Od_Product o)) o = Ok b' ∧
  pointwise_relation _ eq (GetDepthBookCopy c') (<[Od_Product o := b']> (GetDepthBookCopy c)) ∧
  ids_at (dc_ids c') (Od_Product o) (Od_Side o) (Od_Price o) = l' ∧
  dc_closed c' = dc_closed c ++ [Od_OrderID o] ∧
  ∀ k, k ≠ FormatOrderIDsKey (Od_Product o) (Od_Price o) (Od_Side o) → dc_ids c' !! k = dc_ids c !! k.
Proof.
  intros Hl. unfold removeOrder. intros (c1 & Hc1 & Hc')%outcome_bind_Ok.
  set (key := FormatOrderIDsKey _ _ _) in *.
  assert (dc_ids c1 = dc_ids c ∧ dc_closed c1 = dc_closed c ∧ ∃ b', RemoveOrder (GetDepthBookCopy c (Od_Product o)) o = Ok b' ∧
    pointwise_relation _ eq (GetDepthBookCopy c1) (<[Od_Product o := b']> (GetDepthBookCopy c)))
    as (Ei & Ec & b' & Hb & Eb).
  { unfold GetDepthBookCopy at 1. destruct (dc_books c !! Od_Product o) as [b|] eqn:Eb.
    - apply outcome_bind_Ok in Hc1 as (b' & Hb & Hc1). injection Hc1 as <-. split; [done|]. split; [done|].
      exists b'. split; [done|]. apply setDepthBook_copy.
    - injection Hc1 as <-. split; [done|]. split; [done|]. exists []. split; [done|]. intros q.
      destruct (decide (Od_Product o = q)) as [<-|]; [|by rewrite fn_lookup_insert_ne].
      rewrite fn_lookup_insert. unfold GetDepthBookCopy. by rewrite Eb. }
  exists b'. split; [done|]. unfold ids_at in *. rewrite Ei in Hc'. fold key in Hl.
  rewrite Hl in Hc'. injection Hc' as <-. destruct (setOrderIDs_ids key l' c1) as [E1 E2].
  split; [done|]. split; [exact E1|]. split; [cbn; by rewrite Ec|]. intros k Hk. cbn. rewrite <- Ei. by apply E2.
Qed.

Lemma order_status_cases a b :
  a ≠ OrderStatusOpen → b ≠ OrderStatusOpen → ∀ c : bool, (if c then a else b) ≠ OrderStatusOpen.
Proof. by intros ? ? []. Qed.

(** Cancelling and expiring, after the new status [st] has been set. *)
Lemma quitOrder_inv H0 h o st s fee s' :
  order_inv H0 s → os_orders s !! Od_OrderID o = Some o → is_open o → st ≠ OrderStatusOpen →
  quitOrder feeCollectorName h (od_set_status o st) s = (Ok fee, s') →
  keeps H0 s s' ∧
  os_orders s' = <[Od_OrderID o := Order_Unlock (od_set_status o st)]> (os_orders s) ∧
  os_productLocks s' = os_productLocks s.
Proof.
  intros Hinv Ho Hopen Hst Hrun. unfold quitOrder in Hrun.
  do 7 (apply M_bind_Ok in Hrun as (? & ? & ? & Hrun)). cbv zeta in Hrun.
  match type of Hrun with (_ ≫= _) ?x = _ => rename x into s1 end.
  assert (same_books s s1) as Hsb.
  { repeat match goal with
    | Hx : lift _ _ = (Ok _, _) |- _ => apply lift_Ok in Hx as [_ ->]
    end.
    repeat match goal with
    | Hx : ?m ?a = (Ok _, ?b) |- same_books _ ?b => transitivity a;
        [|eapply frames_run; [|exact Hx]; unfold Order_UnlockCoins; frame_tac]; clear Hx
    end. done. }
  assert (keeps H0 s s1 ∧ os_orders s1 = os_orders s) as [Hkd Eo]
    by (split; [by apply same_books_keeps|apply Hsb]).
  enough (keeps H0 s1 s' ∧ os_orders s' = <[Od_OrderID o := Order_Unlock (od_set_status o st)]> (os_orders s1) ∧
    os_productLocks s' = os_productLocks s1) as (G1 & G2 & G3)
    by (rewrite <- Eo, <- (sb_locks _ _ Hsb); split; [by eapply keeps_trans|done]).
  pose proof (kp_inv _ _ _ Hkd) as Hi1. clear Hkd.
  repeat match goal with Hx : _ _ = (Ok _, _) |- _ => first [constr_eq Hx Hrun; fail 1|clear Hx] end.
  clear Hsb Hinv. rewrite <- Eo in *. clear Eo s.
  set (o' := Order_Unlock (od_set_status o st)) in *.
  apply M_bind_Ok in Hrun as (? & s2 & H2 & Hrun). apply modify_Ok in H2 as ->.
  apply M_bind_Ok in Hrun as (? & s3 & H3 & Hrun). apply mret_Ok in Hrun as [-> ->].
  unfold on_cache_try, on_cache in H3. apply M_bind_Ok in H3 as (c & s4 & Hc & H3).
  apply gets_Ok in Hc as [-> ->]. apply M_bind_Ok in H3 as (c' & s4 & Hc & H3).
  apply lift_Ok in Hc as [Hc ->]. apply modify_Ok in H3 as ->. cbn in Hc.
  destruct (ba_orders _ _ _ (oi_agree _ _ Hi1) _ _ Ho) as (_ & Hv & Hp & Hpos).
  destruct (ba_slot _ _ _ (oi_agree _ _ Hi1) _ _ (Od_Price o) Hv Hp) as (_ & Hnd & Hmem).
  destruct (removeID_spec (Od_OrderID o) _ Hnd) as (l1 & l2 & _ & Hl); [apply Hmem; by exists o|].
  destruct (removeOrder_Ok o' _ _ _ Hl Hc) as (b' & Hb & Eb & Ei & Ec & Ek).
  split; [|done]. split; [|intros id [I1 I2]; split; [done|]; cbn;
    intros y [[_ <-]|[_ Hx]]%lookup_insert_Some; [done|by apply I2]|done
    |cbn; intros id y [[<- <-]|[_ Hx]]%lookup_insert_Some; [by exists o|by exists y]].
  split; cbn [os_orders os_cache os_pairs os_blockOrderNum os_set_cache os_set_orders].
  - rewrite Eb. eapply (agree_quit _ _ _ o o'); [apply Hi1|done|done|by split_and!|done|done|done
      |exact Hb|exact Hl|exact Ek|exact Ei].
  - apply Hi1.
  - intros id [<-|[_ Hx]]%lookup_insert_is_Some; apply (oi_fresh _ _ Hi1); [|done].
    change (is_Some (os_orders s1 !! Od_OrderID o)). by rewrite Ho.
  - apply Hi1.
  - apply Hi1.
  - rewrite Ec. intros id [Hid|Hid]%elem_of_app.
    + destruct (oi_closed _ _ Hi1 id Hid) as [I1 I2]. split; [done|].
      cbn. intros y [[_ <-]|[_ Hx]]%lookup_insert_Some; [done|by apply I2].
    + apply list_elem_of_singleton in Hid as ->. split; [apply (oi_fresh _ _ Hi1)|].
      * change (is_Some (os_orders s1 !! Od_OrderID o)). by rewrite Ho.
      * intros y Hx. change (Od_OrderID o') with (Od_OrderID o) in Hx.
        cbn in Hx. rewrite lookup_insert_eq in Hx. injection Hx as <-. done.
  - intros id y [[_ <-]|[_ Hx]]%lookup_insert_Some; [done|by apply (oi_listed _ _ Hi1 id)].
  - intros p. rewrite Eb. destruct (decide (p = Od_Product o)) as [->|]; [done|].
    rewrite fn_lookup_insert_ne by done. apply (oi_names _ _ Hi1).
Qed.

End Operations.

(** ** Filling orders *)


(** What filling leaves alone. *)
Record same_rest {S} (s s' : OrderState S) : Prop := {
  sr_nums : os_blockOrderNum s' = os_blockOrderNum s;
  sr_pairs : os_pairs s' = os_pairs s;
  sr_locks : os_productLocks s' = os_productLocks s;
  sr_books : dc_books (os_cache s') = dc_books (os_cache s);
  sr_ids : dc_ids (os_cache s') = dc_ids (os_cache s) }.

#[global] Instance same_rest_preorder S : PreOrder (@same_rest S).
Proof. split; [by intros s; split|]. intros a b c [] []. split; congruence. Qed.

Definition deals_sum (l : list Deal) : Z := foldr (λ d acc, De_Quantity d + acc) 0 l.

(** A queue of open orders [l] of which [amount] was filled: a prefix is
    filled completely and leaves, the order behind it may be filled in part,
    and nothing behind that has changed. *)
Record queue_fill (orders orders' : gmap string Order) (l rest : list string) (new : list Deal)
    (amount : Z) : Prop := {
  qf_split : ∃ filled, l = filled ++ rest ∧
    (∀ id, id ∈ filled → ∃ o o', orders !! id = Some o ∧ orders' !! id = Some o' ∧
       same_terms o o' ∧ Od_Status o' = OrderStatusFilled ∧ Od_RemainQuantity o' = 0) ∧
    ∃ k, (k ≤ 1)%nat ∧ De_OrderID <$> new = filled ++ take k rest ∧
      ∀ id, id ∈ drop k rest → orders' !! id = orders !! id;
  qf_rest : ∀ id, id ∈ rest → ∃ o o', orders !! id = Some o ∧ orders' !! id = Some o' ∧
    same_terms o o' ∧ is_open o' ∧ 0 < Od_RemainQuantity o' ≤ Od_RemainQuantity o;
  qf_other : ∀ id, id ∉ l → orders' !! id = orders !! id;
  qf_amount : amount = remain_sum orders l - remain_sum orders' rest;
  qf_deals : deals_sum new = amount;
  qf_limit : Forall (λ d, 0 < De_Quantity d ≤ remain_of orders (De_OrderID d) ∧
    ∀ o, orders !! De_OrderID d = Some o → De_Side d = Od_Side o) new }.

Definition queue_open (orders : gmap string Order) (l : list string) : Prop :=
  ∀ id, id ∈ l → ∃ o, orders !! id = Some o ∧ Od_OrderID o = id ∧ is_open o ∧ 0 < Od_RemainQuantity o.

Section Filling.
Context {S : Type} `{CoinKeeper S} (feeCollectorName : string).
Implicit Types s : OrderState S.

Lemma Order_Fill_Ok o price amt o' :
  Order_Fill o price amt = Ok o' →
  ∃ avg locked, o' = od_set_fill o avg (Od_RemainQuantity o - amt) locked
    (if Od_RemainQuantity o - amt =? 0 then OrderStatusFilled else Od_Status o).
Proof.
  unfold Order_Fill. intros Hrun.
  do 4 (apply outcome_bind_Ok in Hrun as (? & _ & Hrun)).
  apply outcome_bind_Ok in Hrun as (r & Hr & Hrun). apply Dec_Sub_Ok in Hr as [-> _].
  do 3 (apply outcome_bind_Ok in Hrun as (? & _ & Hrun)).
  rewrite Dec_IsZero_eq in Hrun. injection Hrun as <-. eauto.
Qed.

(** Orders are kept and their terms do not change. *)
Definition evolve (orders orders' : gmap string Order) : Prop :=
  ∀ id, match orders !! id, orders' !! id with
        | Some o, Some o' => same_terms o o'
        | None, None => True
        | _, _ => False
        end.
#[global] Instance evolve_preorder : PreOrder evolve.
Proof.
  split.
  - intros m id. by destruct (m !! id).
  - intros a b c H1 H2 id. specialize (H1 id). specialize (H2 id).
    destruct (a !! id), (b !! id), (c !! id); try done. etransitivity; done.
Qed.

(** Every identifier newly recorded as closed is of an order that is not
    open. *)
Definition closes (s s' : OrderState S) : Prop :=
  ∀ id, id ∈ dc_closed (os_cache s') → id ∈ dc_closed (os_cache s) ∨
    ∃ o, os_orders s' !! id = Some o ∧ ¬ is_open o.

Lemma closes_refl s : closes s s.
Proof. intros id Hid. by left. Qed.
Lemma closes_trans s1 s2 s3 :
  closes s1 s2 → evolve (os_orders s2) (os_orders s3) → closes s2 s3 → closes s1 s3.
Proof.
  intros H1 He H2 id [Hid|Hid]%H2; [|by right]. apply H1 in Hid as [Hid|(o & Ho & Hc)]; [by left|right].
  specialize (He id). rewrite Ho in He. destruct (os_orders s3 !! id) as [o'|]; [|done].
  exists o'. split; [done|]. by apply (st_closed _ _ He).
Qed.

Lemma UpdateOrder_Ok o s u s' :
  UpdateOrder o s = (Ok u, s') →
  os_orders s' = <[Od_OrderID o := o]> (os_orders s) ∧ same_rest s s' ∧ closes s s'.
Proof.
  unfold UpdateOrder. intros (? & s1 & H1 & Hrun)%M_bind_Ok. apply modify_Ok in H1 as ->.
  destruct (Z.eqb_spec (Od_Status o) OrderStatusFilled) as [Hf|];
    [apply modify_Ok in Hrun as ->|apply mret_Ok in Hrun as [_ ->]]; (split; [done|]; split; [by split|]).
  - intros id [Hid|Hid]%elem_of_app; [by left|right]. apply list_elem_of_singleton in Hid as ->.
    exists o. cbn. rewrite lookup_insert_eq. split; [done|]. unfold is_open. by rewrite Hf.
  - intros id Hid. by left.
Qed.

Lemma fillOrder_Ok h rate o price amt s d s' :
  fillOrder feeCollectorName h rate o price amt s = (Ok d, s') →
  ∃ o', os_orders s' = <[Od_OrderID o := o']> (os_orders s) ∧ same_rest s s' ∧ same_terms o o' ∧
    Od_RemainQuantity o' = Od_RemainQuantity o - amt ∧
    Od_Status o' = (if Od_RemainQuantity o - amt =? 0 then OrderStatusFilled else Od_Status o) ∧
    De_OrderID d = Od_OrderID o ∧ De_Side d = Od_Side o ∧ De_Quantity d = amt ∧ closes s s'.
Proof.
  unfold fillOrder. intros (o1 & s1 & Hf & Hrun)%M_bind_Ok. apply lift_Ok in Hf as [Hf ->].
  apply Order_Fill_Ok in Hf as (avg & locked & ->). set (st := if _ =? _ then _ else _) in *.
  apply M_bind_Ok in Hrun as (? & s2 & Hb & Hrun).
  apply (frames_run same_books _ _ _ _ (frames_balance _ _ _)) in Hb.
  apply M_bind_Ok in Hrun as (o3 & s3 & Hu & Hrun).
  assert (same_books s2 s3 ∧ ∃ avg locked, o3 = od_set_fill o avg (Od_RemainQuantity o - amt) locked st)
    as [Hu2 (avg' & locked' & ->)].
  { destruct (_ && _); [|apply mret_Ok in Hu as [-> ->]; split; [done|eauto]].
    apply M_bind_Ok in Hu as (? & s4 & Hl & Hu). apply lift_Ok in Hl as [_ ->].
    apply M_bind_Ok in Hu as (? & s4 & Hl & Hu). apply mret_Ok in Hu as [-> ->].
    split; [|unfold Order_Unlock; cbn; eauto]. eapply frames_run; [|exact Hl]. apply frames_unlock. }
  apply M_bind_Ok in Hrun as ([fee rc] & s4 & Hc & Hrun).
  apply (frames_run same_books _ _ _ _ (frames_charge _ _ _ _ _)) in Hc.
  apply M_bind_Ok in Hrun as (? & s5 & Hd & Hrun). apply mret_Ok in Hrun as [-> ->].
  apply UpdateOrder_Ok in Hd as (Ho & Hr & Hcl). assert (same_books s s4) as Hsb.
  { transitivity s2; [done|]. by transitivity s3. }
  eexists. rewrite Ho, (sb_orders _ _ Hsb). split; [done|]. split.
  { transitivity s4; [|done]. destruct Hsb. by split. }
  split; [split; try done; unfold is_open; cbn; unfold st; by destruct (_ =? 0)|]. split_and!; try done.
  intros id [Hid|Hid]%Hcl; [left; by rewrite <- (sb_closed _ _ Hsb)|by right].
Qed.

Lemma same_terms_ok id o o' :
  same_terms o o' → order_ok id o → (is_open o' → 0 < Od_RemainQuantity o') → order_ok id o'.
Proof.
  intros [E1 _ E2 E3 _ _ _] (H1 & H2 & H3 & _) Hpos. unfold order_ok. by rewrite E1, E2, E3.
Qed.

Lemma queue_fill_none orders l : queue_open orders l → queue_fill orders orders l l [] 0.
Proof.
  intros Hq. split; try done; try lia.
  - exists []. split_and!; [done|set_solver|]. exists 0%nat. split_and!; [lia|done|done].
  - intros id (o & Ho & _ & Hop & Hpos)%Hq. exists o, o. split_and!; try done; lia.
Qed.

Lemma remain_of_insert orders id o : remain_of (<[id := o]> orders) id = Od_RemainQuantity o.
Proof. unfold remain_of. by rewrite lookup_insert_eq. Qed.

(** The first order of the queue is filled completely. *)
Lemma queue_fill_first orders orders' id o o1 d l rest new amount :
  id ∉ l → orders !! id = Some o → same_terms o o1 → Od_Status o1 = OrderStatusFilled →
  Od_RemainQuantity o1 = 0 → De_OrderID d = id → De_Side d = Od_Side o →
  De_Quantity d = Od_RemainQuantity o → 0 < Od_RemainQuantity o →
  queue_fill (<[id := o1]> orders) orders' l rest new amount →
  queue_fill orders orders' (id :: l) rest (d :: new) (Od_RemainQuantity o + amount).
Proof.
  intros Hid Ho Ht Hst Hr Ed Es Eq Hpos [(filled & -> & Hf & k & Hk & Edeals & Hun) Hrest Hoth Ha Hd Hlim].
  assert (∀ x, x ∈ filled ++ rest → <[id := o1]> orders !! x = orders !! x) as Hne.
  { intros x Hx. apply lookup_insert_ne. by intros <-. }
  split.
  - exists (id :: filled). split; [done|]. split.
    + intros x [->|Hx]%elem_of_cons.
      * exists o, o1. rewrite Hoth by done. by rewrite lookup_insert_eq.
      * destruct (Hf x Hx) as (y & y' & Hy & ?). rewrite Hne in Hy by set_solver. eauto.
    + exists k. split; [done|]. split; [cbn; by rewrite Ed, Edeals|]. intros x Hx.
      rewrite Hun by done. apply Hne. apply elem_of_app. right. rewrite <- (take_drop k rest). set_solver.
  - intros x Hx. destruct (Hrest x Hx) as (y & y' & Hy & ?). rewrite Hne in Hy by set_solver. eauto.
  - intros x Hx. rewrite Hoth by set_solver. apply lookup_insert_ne. set_solver.
  - rewrite Ha, remain_sum_cons, (remain_sum_ext orders (<[id := o1]> orders)) by done.
    unfold remain_of. rewrite Ho. lia.
  - cbn. fold (deals_sum new). lia.
  - constructor.
    + rewrite Ed, Es. unfold remain_of. rewrite Ho. split; [lia|]. by intros x [= <-].
    + apply Forall_forall. intros x Hx. rewrite Forall_forall in Hlim. destruct (Hlim x Hx) as [H1 H2].
      assert (De_OrderID x ∈ De_OrderID <$> new) as Hx' by by apply list_elem_of_fmap_2.
      rewrite Edeals in Hx'. assert (De_OrderID x ∈ filled ++ rest) as Hin.
      { rewrite <- (take_drop k rest). set_solver. }
      unfold remain_of in *. by rewrite Hne in H1, H2.
Qed.

(** The first order is filled in part, and the loop stops. *)
Lemma queue_fill_part orders id o o1 d l part :
  id ∉ l → queue_open orders (id :: l) → orders !! id = Some o → same_terms o o1 → is_open o1 →
  Od_RemainQuantity o1 = Od_RemainQuantity o - part → De_OrderID d = id → De_Side d = Od_Side o →
  De_Quantity d = part → 0 < part < Od_RemainQuantity o →
  queue_fill orders (<[id := o1]> orders) (id :: l) (id :: l) [d] part.
Proof.
  intros Hid Hq Ho Ht Hst Hr Ed Es Eq Hpart. split.
  - exists []. split_and!; [done|set_solver|]. exists 1%nat. split_and!; [done|by cbn; rewrite Ed|].
    cbn. intros x Hx. apply lookup_insert_ne. by intros <-.
  - intros x [->|Hx]%elem_of_cons.
    + exists o, o1. rewrite lookup_insert_eq. split_and!; try done; lia.
    + destruct (Hq x) as (y & Hy & _ & ? & ?); [set_solver|]. exists y, y.
      rewrite lookup_insert_ne by (by intros <-). split_and!; done || lia.
  - intros x Hx. apply lookup_insert_ne. set_solver.
  - rewrite !remain_sum_cons, remain_of_insert, (remain_sum_ext orders (<[id := o1]> orders)).
    + unfold remain_of. rewrite Ho. lia.
    + intros x Hx. apply lookup_insert_ne. by intros <-.
  - cbn. lia.
  - constructor; [|constructor]. rewrite Ed, Es, Eq. unfold remain_of. rewrite Ho.
    split; [lia|]. by intros x [= <-].
Qed.

Lemma queue_fill_evolve orders orders' l rest new amount :
  queue_fill orders orders' l rest new amount → evolve orders orders'.
Proof.
  intros [(filled & -> & Hf & _) Hrest Hoth _ _ _] id.
  destruct (decide (id ∈ filled ++ rest)) as [Hid|Hid].
  - apply elem_of_app in Hid as [Hid|Hid].
    + by destruct (Hf id Hid) as (o & o' & -> & -> & ? & _).
    + by destruct (Hrest id Hid) as (o & o' & -> & -> & ? & _).
  - rewrite Hoth by done. by destruct (orders !! id).
Qed.

Lemma fillOrderByKey_loop_Ok h rate l need price remainDeals deals filled cnt s deals' filled' cnt' rest s' :
  NoDup l → queue_open (os_orders s) l → filled ≤ need →
  fillOrderByKey_loop feeCollectorName h rate l need price remainDeals deals filled cnt s
    = (Ok (deals', filled', cnt', rest), s') →
  ∃ new, deals' = deals ++ new ∧
  queue_fill (os_orders s) (os_orders s') l rest new (filled' - filled) ∧ same_rest s s' ∧
  filled ≤ filled' ≤ need ∧ (filled' = need ∨ remainDeals ≤ cnt') ∧ closes s s'.
Proof.
  revert deals filled cnt s. induction l as [|id l IH]; intros deals filled cnt s Hnd Hq Hle;
    cbn [fillOrderByKey_loop]; destruct ((cnt <? remainDeals) && _) eqn:Hc; intros Hrun.
  1: { by apply panic_Ok in Hrun. }
  1, 3: apply mret_Ok in Hrun as [[= -> -> -> ->] ->]; exists [];
    rewrite app_nil_r, Z.sub_diag; split_and!; try done; [by apply queue_fill_none| |apply closes_refl];
    apply andb_false_iff in Hc as [Hc|Hc]; [right; by apply Z.ltb_ge|left];
    unfold Dec_LT in Hc; apply Z.ltb_ge in Hc; lia.
  apply andb_true_iff in Hc as [_ Hlt]. unfold Dec_LT in Hlt. apply Z.ltb_lt in Hlt.
  apply M_bind_Ok in Hrun as (o & s1 & Ho & Hrun). apply gets_Ok in Ho as [-> ->].
  destruct (Hq id) as (o & Ho & Eid & Hopen & Hpos); [set_solver|]. rewrite Ho in Hrun.
  apply NoDup_cons in Hnd as [Hni Hnd].
  apply M_bind_Ok in Hrun as (total & s1 & Ht & Hrun). apply lift_Ok in Ht as [Ht ->].
  apply Dec_Add_Ok in Ht as [-> _]. unfold Dec_LTE in Hrun.
  destruct (Z.leb_spec (filled + Od_RemainQuantity o) need) as [Hfit|Hover].
  - apply M_bind_Ok in Hrun as (d & s1 & Hd & Hrun).
    apply fillOrder_Ok in Hd as (o1 & Eo1 & Hr1 & Ht1 & Hrem1 & Hst1 & D1 & D2 & D3 & Hcl).
    rewrite Z.sub_diag in Hrem1, Hst1. cbn in Hst1.
    apply IH in Hrun as (new & -> & Hqf & Hr & Hb & Hend & Hcl'); [|done| |done].
    + exists (d :: new). rewrite <- app_assoc. split; [done|]. split; [|split_and!; try done; [by transitivity s1|lia|lia|]].
      2: { eapply closes_trans; [done| |done]. by eapply queue_fill_evolve. }
      replace (filled' - filled) with (Od_RemainQuantity o + (filled' - (filled + Od_RemainQuantity o))) by lia.
      rewrite Eo1, Eid in Hqf. eapply (queue_fill_first _ _ id o o1 d); try done; congruence.
    + rewrite Eo1, Eid. intros x Hx. destruct (Hq x) as (y & Hy & ?); [set_solver|].
      exists y. rewrite lookup_insert_ne by (by intros <-). done.
  - apply M_bind_Ok in Hrun as (part & s1 & Hp & Hrun). apply lift_Ok in Hp as [Hp ->].
    apply Dec_Sub_Ok in Hp as [-> _]. apply M_bind_Ok in Hrun as (d & s1 & Hd & Hrun).
    apply mret_Ok in Hrun as [[= -> -> -> ->] ->].
    apply fillOrder_Ok in Hd as (o1 & Eo1 & Hr1 & Ht1 & Hrem1 & Hst1 & D1 & D2 & D3 & Hcl).
    exists [d]. split; [done|]. split; [|split_and!; [done|lia|lia|by left|done]].
    rewrite Eo1, Eid. eapply (queue_fill_part _ id o o1 d); try done; [|congruence|lia].
    unfold is_open. rewrite Hst1. destruct (Z.eqb_spec (Od_RemainQuantity o - (need - filled)) 0); [lia|done].
Qed.

Lemma slot_queue orders book ids p side price :
  books_agree orders book ids → valid_side side → no_colon p →
  queue_open orders (ids_at ids p side price) ∧ 0 ≤ remain_sum orders (ids_at ids p side price).
Proof.
  intros Ha Hv Hp. destruct (ba_slot _ _ _ Ha p side price Hv Hp) as (_ & _ & Hmem).
  assert (queue_open orders (ids_at ids p side price)) as Hq.
  { intros id (o & Ho & Hop & _)%Hmem. destruct (ba_orders _ _ _ Ha _ _ Ho) as (? & _ & _ & ?).
    exists o. split_and!; auto. }
  split; [done|]. revert Hq. clear. induction (ids_at ids p side price) as [|id l IH]; intros Hq; [done|].
  rewrite remain_sum_cons. destruct (Hq id) as (o & Ho & _ & _ & ?); [set_solver|].
  unfold remain_of. rewrite Ho. assert (0 ≤ remain_sum orders l); [|lia].
  apply IH. intros x Hx. apply Hq. set_solver.
Qed.

(** A slot after its queue was filled and its level reduced. *)
Lemma agree_fill orders book ids orders' ids' b' p side price rest new amount :
  books_agree orders book ids → valid_side side → no_colon p →
  queue_fill orders orders' (ids_at ids p side price) rest new amount →
  book_sorted b' →
  (∀ side' price', valid_side side' →
    level_qty side' b' price' = level_qty side' (book p) price'
      - (if decide (side' = side ∧ price' = price) then amount else 0)) →
  (∀ k, k ≠ FormatOrderIDsKey p price side → ids' !! k = ids !! k) →
  ids_at ids' p side price = rest →
  books_agree orders' (<[p := b']> book) ids'.
Proof.
  intros Ha Hv Hp [(filled & El & Hf & _) Hrest Hoth Hamt _ _] Hb Hq Hids Hids'.
  destruct (ba_slot _ _ _ Ha p side price Hv Hp) as (H1 & H2 & H3).
  set (l := ids_at ids p side price) in *.
  assert (∀ id, id ∈ l → ∃ o o', orders !! id = Some o ∧ orders' !! id = Some o' ∧ same_terms o o' ∧
    in_slot o p side price ∧ order_ok id o ∧ (is_open o' ↔ id ∈ rest) ∧
    (is_open o' → 0 < Od_RemainQuantity o')) as Hl.
  { intros id Hid. destruct (proj1 (H3 id) Hid) as (o & Ho & Hop & Hslot).
    pose proof (ba_orders _ _ _ Ha _ _ Ho) as Hok. rewrite El in Hid. rewrite El in H2.
    apply NoDup_app in H2 as (_ & H2 & _). apply elem_of_app in Hid as [Hid|Hid].
    - destruct (Hf id Hid) as (x & o' & Hx & Ho' & Ht & Hst & Hr).
      assert (x = o) as -> by congruence. exists o, o'. unfold is_open. rewrite Hst.
      split_and!; try done. split; [done|]. intros Hin. by destruct (H2 id Hid).
    - destruct (Hrest id Hid) as (x & o' & Hx & Ho' & Ht & Hst & Hr).
      assert (x = o) as -> by congruence. exists o, o'. split_and!; try done. lia. }
  assert (∀ o o', same_terms o o' → in_slot o p side price → in_slot o' p side price) as Hmove.
  { intros o o' [] (? & ? & ?). unfold in_slot. split_and!; congruence. }
  apply (agree_update orders book ids _ _ _ p side price); try done.
  - intros id o' Ho'. destruct (decide (id ∈ l)) as [Hid|Hid].
    + destruct (Hl id Hid) as (o & x & Ho & Hx & Ht & _ & Hok & _ & Hpos).
      assert (x = o') as -> by congruence. by eapply same_terms_ok.
    + rewrite Hoth in Ho' by done. by apply (ba_orders _ _ _ Ha).
  - intros id. destruct (decide (id ∈ l)) as [Hid|Hid]; [right|left; by apply Hoth].
    destruct (Hl id Hid) as (o & o' & -> & -> & Ht & Hs & _). split; intros ? [= <-]; [done|eauto].
  - intros side' price' Hv' Hne. rewrite Hq by done. rewrite decide_False by naive_solver. lia.
  - rewrite Hids'. split_and!.
    + rewrite Hq, decide_True by done. lia.
    + rewrite El in H2. by apply NoDup_app in H2 as (_ & _ & ?).
    + intros id. split.
      * intros Hid. destruct (Hl id) as (o & o' & _ & Ho' & Ht & Hs & _ & Hop & _);
          [rewrite El; set_solver|]. exists o'. split_and!; [done|by apply Hop|by eapply Hmove].
      * intros (o' & Ho' & Hop & Hs). destruct (decide (id ∈ l)) as [Hid|Hid].
        -- destruct (Hl id Hid) as (o & x & _ & Hx & _ & _ & _ & Hiff & _).
           assert (x = o') as -> by congruence. by apply Hiff.
        -- exfalso. apply Hid. apply H3. exists o'. by rewrite <- Hoth.
Qed.

Lemma fillOrderByKey_Ok h rate p side price need fillPrice remainDeals s book deals amount cnt s' :
  books_agree (os_orders s) book (dc_ids (os_cache s)) → valid_side side → no_colon p →
  0 < need ≤ level_qty side (book p) price →
  fillOrderByKey feeCollectorName h rate (FormatOrderIDsKey p price side) need fillPrice remainDeals s
    = (Ok (deals, amount, cnt), s') →
  ∃ rest, queue_fill (os_orders s) (os_orders s') (ids_at (dc_ids (os_cache s)) p side price) rest
            deals amount ∧
  ids_at (dc_ids (os_cache s')) p side price = rest ∧
  (∀ k, k ≠ FormatOrderIDsKey p price side →
    dc_ids (os_cache s') !! k = dc_ids (os_cache s) !! k) ∧
  os_blockOrderNum s' = os_blockOrderNum s ∧ os_pairs s' = os_pairs s ∧
  os_productLocks s' = os_productLocks s ∧ dc_books (os_cache s') = dc_books (os_cache s) ∧
  0 ≤ amount ≤ need ∧ (amount = need ∨ remainDeals ≤ cnt) ∧ closes s s'.
Proof.
  intros Ha Hv Hp Hneed. unfold fillOrderByKey. intros (o & s1 & Ho & Hrun)%M_bind_Ok.
  apply gets_Ok in Ho as [-> ->]. destruct (ba_slot _ _ _ Ha p side price Hv Hp) as (H1 & H2 & _).
  destruct (slot_queue _ _ _ p side price Ha Hv Hp) as [Hq _]. unfold ids_at in *.
  destruct (dc_ids (os_cache s) !! _) as [l|].
  2: { cbn in H1. change (remain_sum _ []) with 0 in H1. lia. }
  cbn [default from_option id] in *.
  apply M_bind_Ok in Hrun as ([[[deals' filled'] cnt'] rest] & s1 & Hl & Hrun).
  apply M_bind_Ok in Hrun as (? & s2 & Hs & Hrun). apply mret_Ok in Hrun as [[= -> -> ->] ->].
  apply modify_Ok in Hs as ->.
  apply fillOrderByKey_loop_Ok in Hl as (new & -> & Hqf & [E1 E2 E0 E3 E4] & Hb & Hend & Hcl);
    [|done|done|change ZeroDec with 0; lia].
  change ZeroDec with 0 in *. rewrite Z.sub_0_r in Hqf. exists rest.
  destruct (setOrderIDs_ids (FormatOrderIDsKey p price side) rest (os_cache s1)) as [F1 F2].
  split; [done|]. split; [done|]. split; [intros k Hk; rewrite <- E4; by apply F2|].
  split_and!; first [done|lia].
Qed.

(** The quantities of one side over the levels at chosen prices. *)
Definition qsum (side : string) (g : Dec → bool) (b : list DepthBookItem) : Z :=
  book_sum (λ it, if g (Bi_Price it) then side_qty side it else 0) b.

Lemma qsum_app side g a b : qsum side g (a ++ b) = qsum side g a + qsum side g b.
Proof. apply book_sum_app. Qed.
Lemma qsum_cons side g it b :
  qsum side g (it :: b) = (if g (Bi_Price it) then side_qty side it else 0) + qsum side g b.
Proof. done. Qed.

Lemma level_sub_qsum pre it post num side b1 res b2 side' g :
  valid_side side → valid_side side' →
  DepthBook_Sub (pre ++ it :: post) (length pre) num side = Ok b1 →
  RemoveIfEmpty b1 (length pre) = Ok (res, b2) → side' ≠ side →
  qsum side' g b2 = qsum side' g (pre ++ it :: post).
Proof.
  intros Hv Hv' HS HR Hne. apply DepthBook_Sub_at in HS as ->; [|done].
  apply RemoveIfEmpty_at in HR as [Hres ->]. rewrite !qsum_app, qsum_cons.
  pose proof (sub_level_qty side side' it num Hv Hv') as Hq. rewrite decide_False, Z.sub_0_r in Hq by done.
  rewrite <- Hq. destruct res.
  - symmetry in Hres. apply andb_true_iff in Hres as [H1%Z.eqb_eq H2%Z.eqb_eq].
    unfold side_qty. rewrite H1, H2. change (qsum side' g []) with 0.
    by destruct (g _), (String.eqb side' BuyOrder).
  - rewrite qsum_cons, sub_level_price. change (qsum side' g []) with 0. lia.
Qed.

(** What a whole fill leaves alone. *)
Record fill_frame (s s' : OrderState S) : Prop := {
  ff_nums : os_blockOrderNum s' = os_blockOrderNum s;
  ff_pairs : os_pairs s' = os_pairs s;
  ff_locks : os_productLocks s' = os_productLocks s;
  ff_books : dc_books (os_cache s') = dc_books (os_cache s);
  ff_orders : evolve (os_orders s) (os_orders s');
  ff_closed : closes s s' }.
#[global] Instance fill_frame_preorder : PreOrder fill_frame.
Proof.
  split; [intros s; split; try done; apply closes_refl|]. intros a b c [] []. split; try congruence.
  - by transitivity (os_orders b).
  - by apply (closes_trans a b c).
Qed.

(** An order accepts a price at least as good as its own. *)
Definition accepts (o : Order) (price : Dec) : Prop :=
  if isBuy o then price ≤ Od_Price o else Od_Price o ≤ price.

(** A deal of a fill at [price]. *)
Definition deal_ok (orders : gmap string Order) (p side : string) (price : Dec) (d : Deal) : Prop :=
  0 < De_Quantity d ∧ De_Side d = side ∧
  ∃ o, orders !! De_OrderID d = Some o ∧ Od_Product o = p ∧ Od_Side o = side ∧ accepts o price.

Lemma deal_ok_evolve orders orders' p side price d :
  evolve orders orders' → deal_ok orders p side price d → deal_ok orders' p side price d.
Proof.
  intros He (H1 & H2 & o & Ho & E1 & E2 & E3). specialize (He (De_OrderID d)). rewrite Ho in He.
  destruct (orders' !! De_OrderID d) as [o'|] eqn:Ho'; [|done]. split_and!; [done..|].
  exists o'. destruct He as [_ _ F1 F2 F3 _ _]. unfold accepts, isBuy in *. rewrite F1, F2, F3. done.
Qed.

(** One level of the book. *)
Lemma fill_level h rate p side pre it post rest fillPrice remainDeals s book deals amount cnt s' b1 res b2 :
  let b := pre ++ it :: post in
  books_agree (os_orders s) (<[p := b]> book) (dc_ids (os_cache s)) → valid_side side → no_colon p →
  0 < rest → Z.min (side_qty side it) rest ≠ 0 →
  (if String.eqb side BuyOrder then fillPrice ≤ Bi_Price it else Bi_Price it ≤ fillPrice) →
  fillOrderByKey feeCollectorName h rate (FormatOrderIDsKey p (Bi_Price it) side)
    (Z.min (side_qty side it) rest) fillPrice remainDeals s = (Ok (deals, amount, cnt), s') →
  DepthBook_Sub b (length pre) amount side = Ok b1 → RemoveIfEmpty b1 (length pre) = Ok (res, b2) →
  books_agree (os_orders s') (<[p := b2]> book) (dc_ids (os_cache s')) ∧ fill_frame s s' ∧
  b2 = pre ++ (if res then [] else [sub_level side it amount]) ++ post ∧
  0 ≤ amount ≤ Z.min (side_qty side it) rest ∧
  (amount = Z.min (side_qty side it) rest ∨ remainDeals ≤ cnt) ∧
  deals_sum deals = amount ∧ Forall (deal_ok (os_orders s') p side fillPrice) deals.
Proof.
  intros b Ha Hv Hp Hr Hne Hlimit Hrun HS HR.
  assert (book_sorted b) as Hs by (pose proof (ba_sorted _ _ _ Ha p) as Hs; by rewrite fn_lookup_insert in Hs).
  assert (level_qty side b (Bi_Price it) = side_qty side it) as Hlq by by apply level_qty_at.
  destruct (slot_queue _ _ _ p side (Bi_Price it) Ha Hv Hp) as [_ Hnn].
  destruct (ba_slot _ _ _ Ha p side (Bi_Price it) Hv Hp) as (H1 & _ & Hmem).
  rewrite fn_lookup_insert, Hlq in H1.
  apply (fillOrderByKey_Ok _ _ _ _ _ _ _ _ _ (<[p:=b]> book)) in Hrun
    as (rs & Hqf & Hids & Hk & E1 & E2 & E0 & E3 & Hb & Hend & Hcl); [|done|done|done|rewrite fn_lookup_insert; lia].
  destruct (level_sub _ _ _ _ _ _ _ _ Hs Hv HS HR) as (Eb & Hs2 & Hq2).
  pose proof (queue_fill_evolve _ _ _ _ _ _ Hqf) as Hev.
  split_and!; try done; try lia; [|apply Hqf|].
  - pose proof (agree_fill _ _ _ _ (dc_ids (os_cache s')) b2 p side (Bi_Price it) rs deals amount Ha Hv Hp
      Hqf Hs2) as Hfin. rewrite fn_lookup_insert in Hfin. specialize (Hfin Hq2 Hk Hids).
    revert Hfin. apply books_agree_proper; [done| |done]. intros q.
    destruct (decide (p = q)) as [<-|]; [by rewrite !fn_lookup_insert|by rewrite !fn_lookup_insert_ne].
  - destruct Hqf as [(filled & El & _ & k & _ & Ed & _) _ _ _ _ Hlim]. apply Forall_forall. intros d Hd.
    rewrite Forall_forall in Hlim. destruct (Hlim d Hd) as [Hpos Hside].
    assert (De_OrderID d ∈ De_OrderID <$> deals) as Hd' by by apply list_elem_of_fmap_2.
    rewrite Ed in Hd'. apply (deal_ok_evolve _ _ _ _ _ _ Hev).
    assert (De_OrderID d ∈ ids_at (dc_ids (os_cache s)) p side (Bi_Price it)) as Hin.
    { rewrite El. rewrite <- (take_drop k rs). set_solver. }
    apply Hmem in Hin as (o & Ho & _ & F1 & F2 & F3). split_and!; [lia|by rewrite (Hside o Ho)|].
    exists o. split_and!; try done. unfold accepts, isBuy. by rewrite F2, F3.
Qed.

(** Several levels of one side: [e] was executed before and [e'] is executed
    now, of at most [max]; the volume [avail] on offer is used up to that,
    unless the deals of the block ran out ([r'] left). *)
Record side_fill (s s' : OrderState S) (p side : string) (price : Dec)
    (book : string → list DepthBookItem) (b b' : list DepthBookItem) (e e' max avail r' : Z)
    (new : list Deal) : Prop := {
  sf_agree : books_agree (os_orders s') (<[p := b']> book) (dc_ids (os_cache s'));
  sf_frame : fill_frame s s';
  sf_bounds : e ≤ e' ≤ max;
  sf_sum : deals_sum new = e' - e;
  sf_deals : Forall (deal_ok (os_orders s') p side price) new;
  sf_other : ∀ side' g, valid_side side' → side' ≠ side → qsum side' g b' = qsum side' g b;
  sf_avail : r' ≤ 0 ∨ Z.min (max - e) avail ≤ e' - e }.

Lemma side_fill_none s p side price book b e max r' :
  books_agree (os_orders s) (<[p := b]> book) (dc_ids (os_cache s)) → e ≤ max →
  ∀ avail, avail ≤ 0 ∨ max ≤ e → side_fill s s p side price book b b e e max avail r' [].
Proof.
  intros Ha He avail Hav. split; try done; first [lia|right; lia|cbn; lia].
Qed.

Lemma deals_sum_app a b : deals_sum (a ++ b) = deals_sum a + deals_sum b.
Proof. induction a as [|d a IH]; [done|]. unfold deals_sum in *. cbn [foldr app]. lia. Qed.

Lemma side_fill_trans s s1 s2 p side price book b b1 b2 e e1 e2 max q avail r r' new1 new2 :
  side_fill s s1 p side price book b b1 e e1 max q r new1 → 0 ≤ q → 0 ≤ avail →
  side_fill s1 s2 p side price book b1 b2 e1 e2 max avail r' new2 → (r ≤ 0 → r' ≤ 0) →
  side_fill s s2 p side price book b b2 e e2 max (q + avail) r' (new1 ++ new2).
Proof.
  intros [A1 A2 A3 A4 A5 A6 A7] Hq Hav [B1 B2 B3 B4 B5 B6 B7] Hr. split; [done|by transitivity s1|lia| | | |].
  - rewrite deals_sum_app. lia.
  - apply Forall_app. split; [|done]. eapply Forall_impl; [exact A5|]. intros d.
    apply deal_ok_evolve, B2.
  - intros side' g Hv Hne. by rewrite B6, A6.
  - destruct A7 as [A7|A7]; [left; auto|]. destruct B7 as [B7|B7]; [by left|right; lia].
Qed.

Lemma qsum_nonneg side g b : Forall (λ it, 0 ≤ side_qty side it) b → 0 ≤ qsum side g b.
Proof.
  intros Hb. apply book_sum_nonneg. eapply Forall_impl; [exact Hb|]. intros it. cbn.
  by destruct (g (Bi_Price it)).
Qed.

Lemma agree_levels orders book ids p side :
  books_agree orders book ids → valid_side side → no_colon p →
  Forall (λ it, 0 ≤ side_qty side it) (book p).
Proof.
  intros Ha Hv Hp. apply Forall_forall. intros it (pre & post & E)%list_elem_of_split.
  destruct (slot_queue _ _ _ p side (Bi_Price it) Ha Hv Hp) as [_ Hnn].
  destruct (ba_slot _ _ _ Ha p side (Bi_Price it) Hv Hp) as (H1 & _ & _).
  pose proof (ba_sorted _ _ _ Ha p) as Hs. rewrite E in H1, Hs. rewrite level_qty_at in H1 by done. lia.
Qed.

(** One level as a step of the loops. *)
Lemma fill_level_step h rate p side pre it post rest fillPrice remainDeals s book deals amount cnt s' b1 res b2 e max :
  let b := pre ++ it :: post in
  books_agree (os_orders s) (<[p := b]> book) (dc_ids (os_cache s)) → valid_side side → no_colon p →
  0 < rest → rest = max - e → Z.min (side_qty side it) rest ≠ 0 →
  (if String.eqb side BuyOrder then fillPrice ≤ Bi_Price it else Bi_Price it ≤ fillPrice) →
  fillOrderByKey feeCollectorName h rate (FormatOrderIDsKey p (Bi_Price it) side)
    (Z.min (side_qty side it) rest) fillPrice remainDeals s = (Ok (deals, amount, cnt), s') →
  DepthBook_Sub b (length pre) amount side = Ok b1 → RemoveIfEmpty b1 (length pre) = Ok (res, b2) →
  side_fill s s' p side fillPrice book b b2 e (e + amount) max (side_qty side it)
    (remainDeals - cnt) deals ∧
  b2 = pre ++ (if res then [] else [sub_level side it amount]) ++ post.
Proof.
  intros b Ha Hv Hp Hr -> Hne Hlim Hrun HS HR.
  destruct (fill_level _ _ _ _ _ _ _ _ _ _ _ _ _ _ _ _ _ _ _ Ha Hv Hp Hr Hne Hlim Hrun HS HR)
    as (H1 & H2 & H3 & H4 & H5 & H6 & H7). split; [|done]. split; try done; try lia.
  intros side' g Hv' Hns. apply (level_sub_qsum pre it post amount side b1 res b2 side' g Hv Hv' HS HR Hns).
Qed.

Lemma MinDec_min x y : MinDec x y = Z.min x y.
Proof. unfold MinDec, Dec_LT. destruct (Z.ltb_spec x y); lia. Qed.

Lemma lookup_split {A} (l : list A) i x :
  l !! i = Some x → ∃ pre post, l = pre ++ x :: post ∧ i = length pre.
Proof.
  intros Hi. exists (take i l), (drop (Datatypes.S i) l). split; [by rewrite take_drop_middle|].
  rewrite length_take. apply lookup_lt_Some in Hi. lia.
Qed.
Lemma drop_next {A} (pre post : list A) (c : bool) x :
  drop (if c then length pre else Datatypes.S (length pre)) (pre ++ (if c then [] else [x]) ++ post)
  = post.
Proof.
  destruct c; cbn [app]; [apply drop_app_length|].
  change (x :: post) with ([x] ++ post). rewrite app_assoc.
  replace (Datatypes.S (length pre)) with (length (pre ++ [x])) by (rewrite length_app; cbn; lia).
  apply drop_app_length.
Qed.

Lemma buys_stop pre it post best :
  book_sorted (pre ++ it :: post) → Bi_Price it < best → buys_at_least (it :: post) best = 0.
Proof.
  intros (_ & Hs & _)%sorted_app Hlt. apply StronglySorted_inv in Hs as [_ Hs].
  apply book_sum_zero. constructor; [by destruct (Z.leb_spec best (Bi_Price it)); [lia|]|].
  eapply Forall_impl; [exact Hs|]. intros x Hx. cbn in Hx.
  destruct (Z.leb_spec best (Bi_Price x)); [lia|done].
Qed.
Lemma sells_stop pre it post best :
  book_sorted (pre ++ it :: post) → best < Bi_Price it → sells_at_most (pre ++ [it]) best = 0.
Proof.
  intros (_ & _ & Hs)%sorted_app Hlt. apply book_sum_zero. apply Forall_app. split.
  - eapply Forall_impl; [exact Hs|]. intros x Hx%Forall_inv. cbn in Hx.
    destruct (Z.leb_spec (Bi_Price x) best); [lia|done].
  - constructor; [|constructor]. by destruct (Z.leb_spec (Bi_Price it) best); [lia|].
Qed.

(** The levels of the product in a loop. *)
Lemma loop_book orders book ids p side b :
  books_agree orders (<[p := b]> book) ids → valid_side side → no_colon p →
  book_sorted b ∧ Forall (λ it, 0 ≤ side_qty side it) b.
Proof.
  intros Ha Hv Hp. pose proof (ba_sorted _ _ _ Ha p) as H1.
  pose proof (agree_levels _ _ _ p side Ha Hv Hp) as H2. by rewrite fn_lookup_insert in H1, H2.
Qed.

Lemma fillBuyOrders_loop_Ok h rate p best max book fuel b i deals e r s b' deals' e' r' s' :
  books_agree (os_orders s) (<[p := b]> book) (dc_ids (os_cache s)) → no_colon p → e ≤ max →
  (length b - i ≤ fuel)%nat →
  fillBuyOrders_loop feeCollectorName fuel h rate p best max b i deals e r s
    = (Ok (b', deals', e', r'), s') →
  ∃ new, deals' = deals ++ new ∧
  side_fill s s' p BuyOrder best book b b' e e' max (buys_at_least (drop i b) best) r' new.
Proof.
  intros Ha Hp. revert b i deals e r s Ha.
  induction fuel as [|fuel IH]; intros b i deals e r s Ha He Hfuel; cbn [fillBuyOrders_loop].
  { intros [[= -> -> -> ->] ->]%mret_Ok. exists []. rewrite app_nil_r, drop_ge by lia.
    split; [done|]. apply side_fill_none; [done..|by left]. }
  destruct (b !! i) as [it|] eqn:Hit.
  2: { intros [[= -> -> -> ->] ->]%mret_Ok. apply lookup_ge_None in Hit. exists [].
       rewrite app_nil_r, drop_ge by lia. split; [done|]. apply side_fill_none; [done..|by left]. }
  apply lookup_split in Hit as (pre & post & -> & ->). rewrite drop_app_length.
  destruct (loop_book _ _ _ _ BuyOrder _ Ha (or_introl eq_refl) Hp) as [Hs Hnn].
  apply Forall_app in Hnn as [_ [Hq Hnn]%Forall_cons].
  pose proof (qsum_nonneg BuyOrder (λ x, best <=? x) post Hnn) as Hav.
  change (qsum _ _ post) with (buys_at_least post best) in Hav.
  unfold Dec_GTE, Dec_LT. rewrite Z.geb_leb. destruct (Z.leb_spec best (Bi_Price it)) as [Hbest|Hbest].
  2: { intros [[= -> -> -> ->] ->]%mret_Ok. exists []. rewrite app_nil_r. split; [done|].
       rewrite (buys_stop pre) by done. apply side_fill_none; [done..|by left]. }
  destruct (Z.ltb_spec e max) as [Hlt|Hge]; cbn [andb negb].
  2: { intros [[= -> -> -> ->] ->]%mret_Ok. exists []. rewrite app_nil_r. split; [done|].
       apply side_fill_none; [done..|by right]. }
  assert (buys_at_least (it :: post) best = side_qty BuyOrder it + buys_at_least post best) as ->.
  { unfold buys_at_least. rewrite book_sum_cons. by destruct (Z.leb_spec best (Bi_Price it)); [|lia]. }
  intros (rest & s1 & Hr & Hrun)%M_bind_Ok. apply lift_Ok in Hr as [Hr ->].
  apply Dec_Sub_Ok in Hr as [-> _]. cbv zeta in Hrun. rewrite MinDec_min, Dec_IsZero_eq in Hrun.
  change (Bi_BuyQuantity it) with (side_qty BuyOrder it) in Hrun.
  rewrite length_app in Hfuel. cbn [length] in Hfuel.
  destruct (Z.eqb_spec (Z.min (side_qty BuyOrder it) (max - e)) 0) as [Hz|Hnz].
  { apply IH in Hrun as (new & -> & Hsf); [|done|done|rewrite length_app; cbn; lia].
    exists new. split; [done|]. replace (side_qty BuyOrder it) with 0 by lia.
    pose proof (drop_next pre post false it) as Hd. cbn [app] in Hd. by rewrite Hd in Hsf. }
  apply M_bind_Ok in Hrun as ([[nd amount] cnt] & s1 & Hf & Hrun).
  apply M_bind_Ok in Hrun as (e1 & s2 & H2 & Hrun). apply lift_Ok in H2 as [H2 ->].
  apply Dec_Add_Ok in H2 as [-> _].
  apply M_bind_Ok in Hrun as (b1 & s2 & H2 & Hrun). apply lift_Ok in H2 as [HS ->].
  apply M_bind_Ok in Hrun as ([res b2] & s2 & H2 & Hrun). apply lift_Ok in H2 as [HR ->].
  destruct (fill_level_step h rate p BuyOrder pre it post (max - e) best r s book nd amount
    cnt s1 b1 res b2 e max Ha (or_introl eq_refl) Hp) as [Hstep ->]; try done; [lia|].
  pose proof (sf_bounds _ _ _ _ _ _ _ _ _ _ _ _ _ _ Hstep) as Hb.
  destruct (Z.leb_spec (r - cnt) 0) as [Hout|Hin].
  - apply mret_Ok in Hrun as [[= -> -> -> ->] ->]. exists nd. split; [done|].
    destruct Hstep as [A1 A2 A3 A4 A5 A6 A7]. split; try done. by left.
  - apply IH in Hrun as (new & -> & Hsf); [|apply Hstep|lia|].
    2: { rewrite !length_app. destruct res; cbn; lia. }
    rewrite drop_next in Hsf. exists (nd ++ new). rewrite app_assoc. split; [done|].
    eapply side_fill_trans; [exact Hstep|done|done|exact Hsf|]. lia.
Qed.

Lemma take_first {A} (pre : list A) x post :
  take (Datatypes.S (length pre)) (pre ++ x :: post) = pre ++ [x].
Proof.
  change (x :: post) with ([x] ++ post). rewrite app_assoc.
  replace (Datatypes.S (length pre)) with (length (pre ++ [x])) by (rewrite length_app; cbn; lia).
  apply take_app_length.
Qed.

Lemma fillSellOrders_loop_Ok h rate p best max book n b deals e r s b' deals' e' r' s' :
  books_agree (os_orders s) (<[p := b]> book) (dc_ids (os_cache s)) → no_colon p → e ≤ max →
  fillSellOrders_loop feeCollectorName n h rate p best max b deals e r s
    = (Ok (b', deals', e', r'), s') →
  ∃ new, deals' = deals ++ new ∧
  side_fill s s' p SellOrder best book b b' e e' max (sells_at_most (take n b) best) r' new.
Proof.
  intros Ha Hp. revert b deals e r s Ha.
  induction n as [|n IH]; intros b deals e r s Ha He; cbn [fillSellOrders_loop].
  { intros [[= -> -> -> ->] ->]%mret_Ok. exists []. rewrite app_nil_r.
    split; [done|]. apply side_fill_none; [done..|by left]. }
  intros (it & s1 & Hit & Hrun)%M_bind_Ok. apply lift_Ok in Hit as [Hit ->].
  unfold idx in Hit. destruct (b !! n) as [x|] eqn:Hl; [injection Hit as ->|done].
  apply lookup_split in Hl as (pre & post & -> & ->). rewrite take_first.
  destruct (loop_book _ _ _ _ SellOrder _ Ha (or_intror eq_refl) Hp) as [Hs Hnn].
  apply Forall_app in Hnn as [Hnn [Hq _]%Forall_cons].
  pose proof (qsum_nonneg SellOrder (λ x, x <=? best) pre Hnn) as Hav.
  change (qsum _ _ pre) with (sells_at_most pre best) in Hav.
  unfold Dec_LTE, Dec_LT in Hrun. destruct (Z.leb_spec (Bi_Price it) best) as [Hbest|Hbest].
  2: { apply mret_Ok in Hrun as [[= -> -> -> ->] ->]. exists []. rewrite app_nil_r. split; [done|].
       rewrite (sells_stop pre it post) by done. apply side_fill_none; [done..|by left]. }
  destruct (Z.ltb_spec e max) as [Hlt|Hge]; cbn [andb negb] in Hrun.
  2: { apply mret_Ok in Hrun as [[= -> -> -> ->] ->]. exists []. rewrite app_nil_r. split; [done|].
       apply side_fill_none; [done..|by right]. }
  assert (sells_at_most (pre ++ [it]) best = side_qty SellOrder it + sells_at_most pre best) as ->.
  { unfold sells_at_most. rewrite book_sum_app, book_sum_cons. change (book_sum _ []) with 0.
    change (side_qty SellOrder it) with (Bi_SellQuantity it).
    destruct (Z.leb_spec (Bi_Price it) best); lia. }
  apply M_bind_Ok in Hrun as (rest & s1 & Hr & Hrun). apply lift_Ok in Hr as [Hr ->].
  apply Dec_Sub_Ok in Hr as [-> _]. cbv zeta in Hrun. rewrite MinDec_min, Dec_IsZero_eq in Hrun.
  change (Bi_SellQuantity it) with (side_qty SellOrder it) in Hrun.
  destruct (Z.eqb_spec (Z.min (side_qty SellOrder it) (max - e)) 0) as [Hz|Hnz].
  { apply IH in Hrun as (new & -> & Hsf); [|done|done].
    exists new. split; [done|]. replace (side_qty SellOrder it) with 0 by lia.
    by rewrite take_app_length in Hsf. }
  apply M_bind_Ok in Hrun as ([[nd amount] cnt] & s1 & Hf & Hrun).
  apply M_bind_Ok in Hrun as (e1 & s2 & H2 & Hrun). apply lift_Ok in H2 as [H2 ->].
  apply Dec_Add_Ok in H2 as [-> _].
  apply M_bind_Ok in Hrun as (b1 & s2 & H2 & Hrun). apply lift_Ok in H2 as [HS ->].
  apply M_bind_Ok in Hrun as ([res b2] & s2 & H2 & Hrun). apply lift_Ok in H2 as [HR ->].
  destruct (fill_level_step h rate p SellOrder pre it post (max - e) best r s book nd amount
    cnt s1 b1 res b2 e max Ha (or_intror eq_refl) Hp) as [Hstep ->]; try done; [lia|].
  pose proof (sf_bounds _ _ _ _ _ _ _ _ _ _ _ _ _ _ Hstep) as Hb.
  destruct (Z.leb_spec (r - cnt) 0) as [Hout|Hin].
  - apply mret_Ok in Hrun as [[= -> -> -> ->] ->]. exists nd. split; [done|].
    destruct Hstep as [A1 A2 A3 A4 A5 A6 A7]. split; try done. by left.
  - apply IH in Hrun as (new & -> & Hsf); [|apply Hstep|lia].
    rewrite take_app_length in Hsf. exists (nd ++ new). rewrite app_assoc. split; [done|].
    eapply side_fill_trans; [exact Hstep|done|done|exact Hsf|]. lia.
Qed.

(** The whole of [fillDepthBook]. *)
Record depth_fill (s s' : OrderState S) (p : string) (price max be be' se se' r r' : Z)
    (deals : list Deal) : Prop := {
  df_agree : books_agree (os_orders s') (GetDepthBookCopy (os_cache s')) (dc_ids (os_cache s'));
  df_nums : os_blockOrderNum s' = os_blockOrderNum s;
  df_pairs : os_pairs s' = os_pairs s;
  df_locks : os_productLocks s' = os_productLocks s;
  df_orders : evolve (os_orders s) (os_orders s');
  df_closed : closes s s';
  df_others : ∀ q, q ≠ p → GetDepthBookCopy (os_cache s') q = GetDepthBookCopy (os_cache s) q;
  df_buys : be ≤ be' ≤ max;
  df_sells : se ≤ se' ≤ max;
  df_deals : ∃ buys sells, deals = buys ++ sells ∧ deals_sum buys = be' - be ∧
    deals_sum sells = se' - se ∧
    Forall (deal_ok (os_orders s') p BuyOrder price) buys ∧
    Forall (deal_ok (os_orders s') p SellOrder price) sells;
  df_all : max ≠ 0 → r' ≤ 0 ∨
    Z.min (max - be) (buys_at_least (GetDepthBookCopy (os_cache s) p) price) ≤ be' - be ∧
    Z.min (max - se) (sells_at_most (GetDepthBookCopy (os_cache s) p) price) ≤ se' - se }.

Lemma fn_insert_self (f : string → list DepthBookItem) p :
  pointwise_relation _ eq (<[p := f p]> f) f.
Proof.
  intros q. destruct (decide (p = q)) as [<-|]; [by rewrite fn_lookup_insert|by rewrite fn_lookup_insert_ne].
Qed.

Lemma books_agree_local orders c p ids :
  books_agree orders (GetDepthBookCopy c) ids ↔
  books_agree orders (<[p := GetDepthBookCopy c p]> (GetDepthBookCopy c)) ids.
Proof. by rewrite fn_insert_self. Qed.

Lemma fillBuyOrders_Ok h rate p best max be r s deals be' r' s' :
  books_agree (os_orders s) (GetDepthBookCopy (os_cache s)) (dc_ids (os_cache s)) → no_colon p → be ≤ max →
  fillBuyOrders feeCollectorName h rate p best max be r s = (Ok (deals, be', r'), s') →
  books_agree (os_orders s') (GetDepthBookCopy (os_cache s')) (dc_ids (os_cache s')) ∧
  ∃ s1, os_orders s' = os_orders s1 ∧ os_pairs s' = os_pairs s1 ∧
    os_blockOrderNum s' = os_blockOrderNum s1 ∧ os_productLocks s' = os_productLocks s1 ∧
    dc_closed (os_cache s') = dc_closed (os_cache s1) ∧
    (∀ q, q ≠ p → GetDepthBookCopy (os_cache s') q = GetDepthBookCopy (os_cache s) q) ∧
    side_fill s s1 p BuyOrder best (GetDepthBookCopy (os_cache s)) (GetDepthBookCopy (os_cache s) p)
      (GetDepthBookCopy (os_cache s') p) be be' max
      (buys_at_least (GetDepthBookCopy (os_cache s) p) best) r' deals.
Proof.
  intros Ha Hp Hle. unfold fillBuyOrders. intros (c & s1 & Hc & Hrun)%M_bind_Ok.
  apply gets_Ok in Hc as [-> ->]. cbv zeta in Hrun.
  apply M_bind_Ok in Hrun as ([[[b nd] e1] r1] & s1 & Hl & Hrun).
  apply M_bind_Ok in Hrun as (? & s2 & Hset & Hrun). apply mret_Ok in Hrun as [[= -> -> ->] ->].
  apply modify_Ok in Hset as ->. apply (books_agree_local _ _ p) in Ha.
  apply (fillBuyOrders_loop_Ok _ _ _ _ _ (GetDepthBookCopy (os_cache s))) in Hl as (new & -> & Hsf);
    [|done|done|done|lia]. cbn [os_cache os_set_cache os_orders].
  assert (pointwise_relation _ eq (GetDepthBookCopy (setDepthBook p b (os_cache s1)))
    (<[p:=b]> (GetDepthBookCopy (os_cache s)))) as Ecopy.
  { rewrite setDepthBook_copy. intros q. unfold GetDepthBookCopy.
    destruct Hsf as [_ [_ _ _ Eb _ _] _ _ _ _ _]. destruct (decide (p = q)) as [<-|];
      [by rewrite !fn_lookup_insert|rewrite !fn_lookup_insert_ne by done; by rewrite Eb]. }
  split; [rewrite Ecopy; apply Hsf|]. exists s1. split_and!; [done..| |].
  { intros q Hq. by rewrite (Ecopy q), fn_lookup_insert_ne. }
  rewrite (Ecopy p), fn_lookup_insert. by rewrite drop_0 in Hsf.
Qed.

Lemma fillSellOrders_Ok h rate p best max be r s deals be' r' s' :
  books_agree (os_orders s) (GetDepthBookCopy (os_cache s)) (dc_ids (os_cache s)) → no_colon p → be ≤ max →
  fillSellOrders feeCollectorName h rate p best max be r s = (Ok (deals, be', r'), s') →
  books_agree (os_orders s') (GetDepthBookCopy (os_cache s')) (dc_ids (os_cache s')) ∧
  ∃ s1, os_orders s' = os_orders s1 ∧ os_pairs s' = os_pairs s1 ∧
    os_blockOrderNum s' = os_blockOrderNum s1 ∧ os_productLocks s' = os_productLocks s1 ∧
    dc_closed (os_cache s') = dc_closed (os_cache s1) ∧
    (∀ q, q ≠ p → GetDepthBookCopy (os_cache s') q = GetDepthBookCopy (os_cache s) q) ∧
    side_fill s s1 p SellOrder best (GetDepthBookCopy (os_cache s)) (GetDepthBookCopy (os_cache s) p)
      (GetDepthBookCopy (os_cache s') p) be be' max
      (sells_at_most (GetDepthBookCopy (os_cache s) p) best) r' deals.
Proof.
  intros Ha Hp Hle. unfold fillSellOrders. intros (c & s1 & Hc & Hrun)%M_bind_Ok.
  apply gets_Ok in Hc as [-> ->]. cbv zeta in Hrun.
  apply M_bind_Ok in Hrun as ([[[b nd] e1] r1] & s1 & Hl & Hrun).
  apply M_bind_Ok in Hrun as (? & s2 & Hset & Hrun). apply mret_Ok in Hrun as [[= -> -> ->] ->].
  apply modify_Ok in Hset as ->. apply (books_agree_local _ _ p) in Ha.
  apply (fillSellOrders_loop_Ok _ _ _ _ _ (GetDepthBookCopy (os_cache s))) in Hl as (new & -> & Hsf);
    [|done|done|done]. cbn [os_cache os_set_cache os_orders].
  assert (pointwise_relation _ eq (GetDepthBookCopy (setDepthBook p b (os_cache s1)))
    (<[p:=b]> (GetDepthBookCopy (os_cache s)))) as Ecopy.
  { rewrite setDepthBook_copy. intros q. unfold GetDepthBookCopy.
    destruct Hsf as [_ [_ _ _ Eb _ _] _ _ _ _ _]. destruct (decide (p = q)) as [<-|];
      [by rewrite !fn_lookup_insert|rewrite !fn_lookup_insert_ne by done; by rewrite Eb]. }
  split; [rewrite Ecopy; apply Hsf|]. exists s1. split_and!; [done..| |].
  { intros q Hq. by rewrite (Ecopy q), fn_lookup_insert_ne. }
  rewrite (Ecopy p), fn_lookup_insert. by rewrite firstn_all in Hsf.
Qed.

Lemma fillDepthBook_Ok h rate p price max be se r s deals be' se' r' s' :
  books_agree (os_orders s) (GetDepthBookCopy (os_cache s)) (dc_ids (os_cache s)) → no_colon p →
  be ≤ max → se ≤ max →
  fillDepthBook feeCollectorName h rate p price max be se r s = (Ok (deals, be', se', r'), s') →
  depth_fill s s' p price max be be' se se' r r' deals.
Proof.
  intros Ha Hp Hbe Hse Hrun. unfold fillDepthBook in Hrun. rewrite Dec_IsZero_eq in Hrun.
  destruct (Z.eqb_spec max 0) as [->|Hmax].
  { apply mret_Ok in Hrun as [[= -> -> -> ->] ->]. split; try done; try lia; [apply closes_refl|].
    exists [], []. rewrite !Z.sub_diag. by split_and!. }
  apply M_bind_Ok in Hrun as ([[bd be1] r1] & s1 & Hb & Hrun).
  apply fillBuyOrders_Ok in Hb as (Ha1 & t & E1 & E2 & E3 & E4 & E5 & E6 & [B1 [B2 B3 B4 _ B5 B5c] B6 B7 B8 B9 B10]);
    [|done..]. rewrite <- E1 in B5, B8. rewrite <- E2 in B3. rewrite <- E3 in B2. rewrite <- E4 in B4.
  assert (closes s s1) as Hc1 by (unfold closes in *; by rewrite E5, E1).
  destruct (Z.leb_spec r1 0) as [Hr1|Hr1].
  { apply mret_Ok in Hrun as [[= -> -> -> ->] ->]. split; try done; try lia.
    exists bd, []. rewrite app_nil_r, Z.sub_diag. by split_and!. }
  apply M_bind_Ok in Hrun as ([[sd se1] r2] & s2 & Hs & Hrun).
  apply mret_Ok in Hrun as [[= -> -> -> ->] ->].
  apply fillSellOrders_Ok in Hs as (Ha2 & t2 & F1 & F2 & F3 & F4 & F5 & F6 & [C1 [C2 C3 C4 _ C5 C5c] C6 C7 C8 C9 C10]);
    [|done..]. rewrite <- F1 in C5, C8. rewrite <- F2 in C3. rewrite <- F3 in C2. rewrite <- F4 in C4.
  assert (closes s1 s2) as Hc2 by (unfold closes in *; by rewrite F5, F1).
  split; [done|congruence|congruence|congruence|by transitivity (os_orders s1)
    |by apply (closes_trans s s1 s2)|intros q Hq; rewrite F6, E6; done|done|done| |].
  - exists bd, sd. split_and!; try done. eapply Forall_impl; [exact B8|]. intros d. by apply deal_ok_evolve.
  - intros _. destruct C10 as [|C10]; [by left|]. destruct B10 as [|B10]; [lia|]. right. split; [done|].
    change (sells_at_most ?b price) with (qsum SellOrder (λ x, x <=? price) b) in *.
    rewrite B9 in C10; [done|by right|done].
Qed.

End Filling.
