(* ===== verification/OrderRun.v ===== *)
(** * Runs of the order module

    The theorems on [x/order] that a trader relies on, proved from the lemmas
    of [OrderProps.v]: the books agree with the orders along every run of
    messages, expiries and auctions; a match trades the same volume on both
    sides at a price that every order involved accepts, first come first
    served; and the coins locked for an order cover what is left of it. *)
From Stdlib Require Import Ascii.
From stdpp Require Import functions.
From S2P Require Import Prelude Decimal Denom Coins Bank CoinKeeper Token DecStr OrderBook Order OrderProps.
#[local] Open Scope Z_scope.

(** ** Messages and expiry *)

Section Messages.
Context {S : Type} `{CoinKeeper S} (feeCollectorName : string).
Implicit Types s : OrderState S.

Lemma getOrderFromMsg_Ok t msg r s o s' :
  getOrderFromMsg t msg r s = (Ok o, s') →
  s' = s ∧ is_open o ∧ Od_Sender o = Mn_Sender msg ∧ Od_Product o = Mn_Product msg ∧
  Od_Side o = Mn_Side msg ∧ Od_Price o = Mn_Price msg ∧ Od_Quantity o = Mn_Quantity msg ∧
  Od_RemainQuantity o = Mn_Quantity msg.
Proof.
  unfold getOrderFromMsg. intros (fp & s1 & Hf & Hrun)%M_bind_Ok. apply gets_Ok in Hf as [-> ->].
  do 3 (apply M_bind_Ok in Hrun as (? & ? & [_ ->]%lift_Ok & Hrun)).
  apply lift_Ok in Hrun as [Hrun ->]. unfold NewOrder in Hrun.
  apply outcome_bind_Ok in Hrun as (locked & _ & Hrun). injection Hrun as <-. done.
Qed.

Lemma checkOrderNewMsg_Ok msg s u s' :
  checkOrderNewMsg msg s = (Ok u, s') →
  s' = s ∧ ∃ tp, os_pairs s !! Mn_Product msg = Some tp ∧ Tp_Delisting tp = false ∧
  Dec_RoundDecimal (Mn_Price msg) (Tp_MaxPriceDigit tp) = Ok (Mn_Price msg) ∧
  Dec_RoundDecimal (Mn_Quantity msg) (Tp_MaxQuantityDigit tp) = Ok (Mn_Quantity msg) ∧
  Tp_MinQuantity tp ≤ Mn_Quantity msg.
Proof.
  unfold checkOrderNewMsg. intros (o & s1 & Ho & Hrun)%M_bind_Ok. apply gets_Ok in Ho as [-> ->].
  destruct (os_pairs s !! Mn_Product msg) as [tp|]; [|by apply fail_Ok in Hrun].
  apply M_bind_Ok in Hrun as (? & ? & [Hd ->]%guard_not_Ok & Hrun).
  apply M_bind_Ok in Hrun as (rp & ? & [Hp ->]%lift_Ok & Hrun).
  apply M_bind_Ok in Hrun as (rq & ? & [Hq ->]%lift_Ok & Hrun).
  apply M_bind_Ok in Hrun as (? & ? & [Ep ->]%guard_not_Ok & Hrun).
  apply M_bind_Ok in Hrun as (? & ? & [Eq ->]%guard_not_Ok & Hrun).
  apply guard_not_Ok in Hrun as [Hmin ->]. unfold Dec_Equal, Dec_LT in *.
  apply negb_false_iff, Z.eqb_eq in Ep, Eq. apply Z.ltb_ge in Hmin. subst.
  split; [done|]. by exists tp.
Qed.

Lemma validateOrderItem_Ok msg :
  validateOrderItem msg = Ok () →
  valid_side (Mn_Side msg) ∧ 0 < Mn_Price msg ∧ 0 < Mn_Quantity msg.
Proof.
  unfold validateOrderItem. destruct (_ =? 0)%nat; [done|].
  destruct (Split _ _) as [s0 [|s1 [|? ?]]]; try done.
  destruct (String.eqb s0 s1); [done|].
  destruct (negb _ && negb _) eqn:Hside; [done|].
  destruct (negb (Dec_IsPositive _ && _)) eqn:Hpos; [done|]. intros _.
  apply negb_false_iff, andb_true_iff in Hpos as [H1 H2]. rewrite Dec_IsPositive_eq in H1, H2.
  apply Z.ltb_lt in H1, H2. split_and!; [|done|done].
  apply andb_false_iff in Hside as [Hs|Hs]; apply negb_false_iff, String.eqb_eq in Hs; [by left|by right].
Qed.

Lemma handleNewOrder_Ok h t msg ratio s o s' :
  order_inv h s → 0 ≤ h → validateOrderItem msg = Ok () →
  handleNewOrder h t msg ratio s = (Ok o, s') →
  keeps h s s' ∧ os_orders s' = <[Od_OrderID o := o]> (os_orders s) ∧
  os_orders s !! Od_OrderID o = None.
Proof.
  intros Hinv Hh Hval. unfold handleNewOrder. intros (o1 & s1 & Hm & Hrun)%M_bind_Ok.
  apply getOrderFromMsg_Ok in Hm as (-> & Hop & _ & E1 & E2 & _ & _ & E3).
  apply M_bind_Ok in Hrun as (? & s1 & Hc & Hrun).
  apply checkOrderNewMsg_Ok in Hc as [-> (tp & Hpair & _)].
  apply M_bind_Ok in Hrun as (lk & s1 & Hl & Hrun). apply gets_Ok in Hl as [-> ->].
  apply M_bind_Ok in Hrun as (? & s1 & Hg & Hrun). apply guard_not_Ok in Hg as [_ ->].
  destruct (validateOrderItem_Ok msg Hval) as (V1 & V2 & V3).
  eapply PlaceOrder_inv; [done|done| |by rewrite E1, Hpair|exact Hrun].
  split_and!; [done|by rewrite E2|rewrite E1; by eapply (oi_pairs _ _ Hinv)|by rewrite E3].
Qed.

Lemma handleNewOrder_Err h t msg ratio s e s' :
  handleNewOrder h t msg ratio s = (Err e, s') →
  dc_books (os_cache s') = dc_books (os_cache s) ∧ dc_ids (os_cache s') = dc_ids (os_cache s) ∧
  dc_closed (os_cache s') = dc_closed (os_cache s).
Proof.
  unfold handleNewOrder.
  intros [Hm|(o & s1 & Hm & Hrun)]%M_bind_Err;
    apply (frames_run same_books _ _ _ _ (frames_fromMsg _ _ _)) in Hm as [_ _ _ _ <- <- <-]; [done|].
  apply M_bind_Err in Hrun as [Hm|(? & s2 & Hm & Hrun)];
    apply (frames_run same_books _ _ _ _ (frames_checkMsg _)) in Hm as [_ _ _ _ <- <- <-]; [done|].
  apply M_bind_Err in Hrun as [Hm|(lk & s3 & Hm & Hrun)]; [done|]. apply gets_Ok in Hm as [-> ->].
  apply M_bind_Err in Hrun as [Hm|(? & s3 & Hm & Hrun)].
  - destruct (bool_decide _); [by injection Hm as _ <-|done].
  - apply guard_not_Ok in Hm as [_ ->]. by apply PlaceOrder_Err in Hrun.
Qed.

(** A failed item only changes counters of the cache. *)
Lemma branchWrite_inv h t msg ratio s r s' :
  order_inv h s → 0 ≤ h → validateOrderItem msg = Ok () →
  branchWrite (handleNewOrder h t msg ratio) s = (Ok r, s') →
  keeps h s s' ∧ (r = None → same_books s s').
Proof.
  intros Hinv Hh Hval. unfold branchWrite.
  destruct (handleNewOrder h t msg ratio s) as [[o|e|m] s1] eqn:Hrun; [| |done]; intros [= <- <-].
  - split; [|done]. by apply (handleNewOrder_Ok h t msg ratio s o).
  - apply handleNewOrder_Err in Hrun as (E1 & E2 & E3).
    assert (same_books s (os_set_cache (os_cache s1) s)) as Hsb by by split.
    split; [by apply same_books_keeps|done].
Qed.

Lemma validateOrderItems_Forall items :
  validateOrderItems items = Ok () → Forall (λ m, validateOrderItem m = Ok ()) items.
Proof.
  induction items as [|m items IH]; [constructor|]. cbn [validateOrderItems].
  intros (u & Hm & Hrest)%outcome_bind_Ok. destruct u. constructor; auto.
Qed.

Lemma handleNewOrders_loop_inv h t items ratio s rs s' :
  order_inv h s → 0 ≤ h → Forall (λ m, validateOrderItem m = Ok ()) items →
  handleNewOrders_loop h t items ratio s = (Ok rs, s') →
  keeps h s s' ∧ (forallb (λ r, bool_decide (r = None)) rs = true → same_books s s').
Proof.
  intros Hinv Hh Hval. revert s rs Hinv. induction Hval as [|m items Hm Hval IH]; intros s rs Hinv;
    cbn [handleNewOrders_loop].
  { intros [-> ->]%mret_Ok. by split; [apply keeps_refl|]. }
  intros (r & s1 & Hr & Hrun)%M_bind_Ok. apply branchWrite_inv in Hr as [Hi1 Hsb1]; [|done..].
  apply M_bind_Ok in Hrun as (rs' & s2 & Hr & Hrun). apply mret_Ok in Hrun as [-> ->].
  apply IH in Hr as [Hi2 Hsb2]; [|apply Hi1]. split; [by eapply keeps_trans|]. cbn [forallb].
  intros [Hn%bool_decide_eq_true Hall]%andb_true_iff. transitivity s1; auto.
Qed.

Lemma ValidateBasic_items sender items :
  MsgNewOrders_ValidateBasic sender items = Ok () → Forall (λ m, validateOrderItem m = Ok ()) items.
Proof.
  unfold MsgNewOrders_ValidateBasic. repeat (destruct (_ : bool); [done|]).
  apply validateOrderItems_Forall.
Qed.

Lemma handleMsgNewOrders_Ok h t sender items s u s' :
  order_inv h s → 0 ≤ h → MsgNewOrders_ValidateBasic sender items = Ok () →
  handleMsgNewOrders h t items s = (Ok u, s') → keeps h s s'.
Proof.
  intros Hinv Hh Hval%ValidateBasic_items. unfold handleMsgNewOrders.
  intros (rs & s1 & Hl & Hrun)%M_bind_Ok. apply guard_not_Ok in Hrun as [_ ->].
  by apply handleNewOrders_loop_inv in Hl as [? _].
Qed.

(** When every item failed the message fails; the stores are rolled back and
    the cache stays. *)
Lemma handleMsgNewOrders_Err h t sender items s e s' :
  order_inv h s → 0 ≤ h → MsgNewOrders_ValidateBasic sender items = Ok () →
  handleMsgNewOrders h t items s = (Err e, s') → keeps h s (os_set_cache (os_cache s') s).
Proof.
  intros Hinv Hh Hval%ValidateBasic_items. unfold handleMsgNewOrders. cbv zeta.
  assert (∀ items ratio s, handleNewOrders_loop h t items ratio s ≠ (Err e, s')) as Hno.
  { induction items0 as [|m rest IH]; intros ratio s0; cbn [handleNewOrders_loop]; [done|].
    intros [Hb|(r & s1 & _ & [Hb|(? & ? & _ & Hb)]%M_bind_Err)]%M_bind_Err; [|by apply IH in Hb|done].
    unfold branchWrite in Hb. by destruct (handleNewOrder _ _ _ _ _) as [[?|?|?] ?]. }
  intros [Hl|(rs & s1 & Hl & Hrun)]%M_bind_Err; [by apply Hno in Hl|].
  destruct (forallb _ rs) eqn:Hall; [|done]. injection Hrun as _ <-.
  apply handleNewOrders_loop_inv in Hl as [_ Hsb]; [|done..]. specialize (Hsb Hall).
  apply same_books_keeps; [|exact Hinv]. destruct Hsb. by split.
Qed.


Lemma validateCancelOrder_run sender id s r s' :
  validateCancelOrder sender id s = (r, s') →
  s' = s ∧ (is_ok r = true → ∃ o, os_orders s !! id = Some o ∧ is_open o ∧ Od_Sender o = sender ∧
    os_productLocks s !! Od_Product o = None).
Proof.
  unfold validateCancelOrder, Order_GetOrder, IsProductLocked. cbv [mbind M_bind gets].
  destruct (os_orders s !! id) as [o|]; [|by intros [= <- <-]].
  destruct (Z.eqb_spec (Od_Status o) OrderStatusOpen) as [Hop|]; cbn; [|by intros [= <- <-]].
  destruct (String.eqb_spec (Od_Sender o) sender) as [Hs|]; cbn; [|by intros [= <- <-]].
  destruct (bool_decide_reflect (is_Some (os_productLocks s !! Od_Product o))) as [|Hn]; cbn;
    [by intros [= <- <-]|]. intros [= <- <-]. split; [done|]. intros _. exists o.
  split_and!; try done. by apply eq_None_not_Some.
Qed.

(** A cancelled order: its owner asked, it was open and its product not
    locked, and it is closed with its coins released. *)
Lemma handleCancelOrder_Ok H0 h sender id s r s' :
  order_inv H0 s → handleCancelOrder feeCollectorName h sender id s = (Ok r, s') →
  keeps H0 s s' ∧ (r = false → s' = s) ∧
  (r = true → ∃ o, os_orders s !! id = Some o ∧ is_open o ∧ Od_Sender o = sender ∧
    os_productLocks s !! Od_Product o = None ∧
    os_orders s' = <[id := Order_Unlock (Order_Cancel o)]> (os_orders s)).
Proof.
  intros Hinv. unfold handleCancelOrder.
  destruct (validateCancelOrder sender id s) as [r0 s1] eqn:Hv.
  apply validateCancelOrder_run in Hv as [-> Hok]. destruct r0 as [u|e|m]; [|intros [= <- <-]; by split; [apply keeps_refl|]|done].
  destruct (Hok eq_refl) as (o & Ho & Hop & Hs & Hl).
  intros (o1 & s1 & Ho1 & Hrun)%M_bind_Ok. apply gets_Ok in Ho1 as [-> ->]. rewrite Ho in Hrun.
  apply M_bind_Ok in Hrun as (fee & s1 & Hq & Hrun). apply mret_Ok in Hrun as [-> ->].
  assert (Od_OrderID o = id) as Eid by apply (ba_orders _ _ _ (oi_agree _ _ Hinv) _ _ Ho).
  unfold CancelOrder, Order_Cancel in Hq. rewrite <- Eid in Ho.
  apply (quitOrder_inv _ H0) in Hq as (Hi & Eo & _); [|done|done|done|by destruct (Dec_Equal _ _)].
  split; [done|]. split; [done|]. intros _. exists o. rewrite Eo, Eid. by rewrite <- Eid at 1.
Qed.

Lemma handleCancelOrders_loop_inv H0 h sender ids s rs s' :
  order_inv H0 s → handleCancelOrders_loop feeCollectorName h sender ids s = (Ok rs, s') → keeps H0 s s'.
Proof.
  revert s rs. induction ids as [|id ids IH]; intros s rs Hinv; cbn [handleCancelOrders_loop].
  { intros [-> ->]%mret_Ok. by apply keeps_refl. }
  intros (r & s1 & Hr & Hrun)%M_bind_Ok. apply (handleCancelOrder_Ok H0) in Hr as [Hi _]; [|done].
  apply M_bind_Ok in Hrun as (rs' & s2 & Hr & Hrun). apply mret_Ok in Hrun as [-> ->].
  apply IH in Hr; [|apply Hi]. by eapply keeps_trans.
Qed.

(** One identifier of the loop: an open order of a product that is not locked
    is closed, anything else is left. *)
Lemma dropExpired_one H0 h id ids s u s' :
  order_inv H0 s → dropExpired_loop feeCollectorName h (id :: ids) s = (Ok u, s') →
  ∃ s1, keeps H0 s s1 ∧ os_productLocks s1 = os_productLocks s ∧
    dropExpired_loop feeCollectorName h ids s1 = (Ok u, s') ∧
    (∀ x, x ≠ id → os_orders s1 !! x = os_orders s !! x) ∧
    (∀ o, os_orders s1 !! id = Some o → is_open o →
      os_orders s !! id = Some o ∧ is_Some (os_productLocks s !! Od_Product o)).
Proof.
  intros Hinv. cbn [dropExpired_loop].
  intros (o & s1 & Ho & Hrun)%M_bind_Ok. apply gets_Ok in Ho as [-> ->].
  apply M_bind_Ok in Hrun as (u' & s1 & Hd & Hrun). exists s1.
  destruct (os_orders s !! id) as [o|] eqn:Ho.
  2:{ apply mret_Ok in Hd as [_ ->]. split_and!; [by apply keeps_refl|done..|]. intros o. by rewrite Ho. }
  apply M_bind_Ok in Hd as (lk & s2 & Hl & Hd). apply gets_Ok in Hl as [-> ->].
  destruct ((_ =? _) && _) eqn:Hc.
  2:{ apply mret_Ok in Hd as [_ ->]. split_and!; [by apply keeps_refl|done..|].
      intros o' Ho' Hop. assert (o' = o) as -> by congruence. split; [done|].
      apply andb_false_iff in Hc as [Hc%Z.eqb_neq|Hc%negb_false_iff]; [done|by apply bool_decide_eq_true in Hc]. }
  apply andb_true_iff in Hc as [Hop%Z.eqb_eq _].
  assert (Od_OrderID o = id) as Eid by apply (ba_orders _ _ _ (oi_agree _ _ Hinv) _ _ Ho).
  unfold ExpireOrder in Hd. apply M_bind_Ok in Hd as (fee & s2 & Hq & Hd). apply mret_Ok in Hd as [_ ->].
  unfold Order_Expire in Hq. rewrite <- Eid in Ho.
  apply (quitOrder_inv _ H0) in Hq as (Hi & Eo & El); [|done|done|done|by destruct (Dec_Equal _ _)].
  rewrite Eid in Eo. split_and!; [done..| |].
  - intros x Hx. by rewrite Eo, lookup_insert_ne.
  - rewrite Eo, lookup_insert_eq. intros x [= <-]. unfold is_open, Order_Unlock. cbn. by destruct (Dec_Equal _ _).
Qed.

Lemma dropExpired_loop_Ok H0 h ids s u s' :
  order_inv H0 s → NoDup ids → dropExpired_loop feeCollectorName h ids s = (Ok u, s') →
  keeps H0 s s' ∧ os_productLocks s' = os_productLocks s ∧
  (∀ x, x ∉ ids → os_orders s' !! x = os_orders s !! x) ∧
  (∀ x o, x ∈ ids → os_orders s' !! x = Some o → is_open o →
    os_orders s !! x = Some o ∧ is_Some (os_productLocks s !! Od_Product o)).
Proof.
  intros Hinv Hnd. revert s Hinv. induction Hnd as [|id ids Hid Hnd IH]; intros s Hinv.
  { intros [_ ->]%mret_Ok. split_and!; [by apply keeps_refl|done|done|by intros x o ?%not_elem_of_nil]. }
  intros (s1 & Hk & El & Hrun & Hothers & Hone)%(dropExpired_one H0); [|done].
  apply IH in Hrun as (Hk' & El' & Hothers' & Hall); [|apply Hk].
  split_and!; [by eapply keeps_trans|congruence|intros x [??]%not_elem_of_cons; by rewrite Hothers', Hothers|].
  intros x o [->|Hx]%elem_of_cons Ho Hop.
  - apply Hone; [|done]. by rewrite <- Hothers'.
  - rewrite <- El, <- (Hothers x) by (intros ->; done). by apply Hall.
Qed.

Lemma orders_of_height_NoDup s e : NoDup (orders_of_height s e).
Proof. apply NoDup_filter. rewrite store_iterate_perm. apply NoDup_fst_map_to_list. Qed.
Lemma elem_of_orders_of_height s e id :
  id ∈ orders_of_height s e ↔ String.prefix (FormatOrderIDPrefix e) id = true ∧ is_Some (os_orders s !! id).
Proof.
  unfold orders_of_height. rewrite list_elem_of_filter, store_iterate_perm, list_elem_of_fmap.
  split; intros [Hp Hx]; (split; [done|]).
  - destruct Hx as ([k o] & -> & Hx%elem_of_map_to_list). by exists o.
  - destruct Hx as [o Ho]. exists (id, o). by rewrite elem_of_map_to_list.
Qed.

(** The identifiers of a height have its prefix. *)
Lemma string_prefix_app a b c : String.prefix b c = true → String.prefix (a +:+ b) (a +:+ c) = true.
Proof.
  intros Hbc. induction a as [|x a IH]; [done|].
  change (String x a +:+ b) with (String x (a +:+ b)). change (String x a +:+ c) with (String x (a +:+ c)).
  simpl. destruct (Ascii.ascii_dec x x); [exact IH|done].
Qed.
Lemma FormatOrderIDPrefix_own e n : String.prefix (FormatOrderIDPrefix e) (FormatOrderID e n) = true.
Proof.
  unfold FormatOrderIDPrefix, FormatOrderID.
  destruct (e >? 9999999999); do 2 apply string_prefix_app; by destruct (Sprintf_d n).
Qed.

End Messages.

(** ** Auctions *)

Section Auctions.
Context {S : Type} `{CoinKeeper S} (feeCollectorName : string).
Implicit Types s : OrderState S.

Lemma calcMatchPrice_Ok h p s r s' :
  calcMatchPrice h p s = (Ok (Some r), s') →
  same_books s s' ∧ ∃ tp ref s2, os_pairs s !! p = Some tp ∧ GetLastPrice p s = (Ok ref, s2) ∧
  periodicAuctionMatchPrice (GetDepthBookCopy (os_cache s) p) (Tp_MaxPriceDigit tp) ref
    = Ok (Mx_Price r, Mx_Quantity r) ∧ 0 < Mx_Quantity r ∧ Mx_BlockHeight r = h.
Proof.
  unfold calcMatchPrice. intros (o & s1 & Ho & Hrun)%M_bind_Ok. apply gets_Ok in Ho as [-> ->].
  destruct (os_pairs s !! p) as [tp|]; [|by apply mret_Ok in Hrun as [? _]].
  apply M_bind_Ok in Hrun as (c & s1 & Hc & Hrun). apply gets_Ok in Hc as [-> ->].
  apply M_bind_Ok in Hrun as (ref & s1 & Hl & Hrun).
  pose proof (frames_run same_books _ _ _ _ (frames_lastPrice _) Hl) as Hf.
  apply M_bind_Ok in Hrun as ([best M] & s2 & Hm & Hrun). apply lift_Ok in Hm as [Hm ->].
  destruct (Dec_IsPositive M) eqn:HM; [|by apply mret_Ok in Hrun as [? _]].
  rewrite Dec_IsPositive_eq in HM. apply Z.ltb_lt in HM.
  apply M_bind_Ok in Hrun as (u & s2 & Hset & Hrun). apply mret_Ok in Hrun as [[= ->] ->].
  apply (frames_run same_books _ _ _ _ (frames_setLastPrice _ _)) in Hset.
  split; [by transitivity s1|]. by exists tp, ref, s1.
Qed.

(** After a fill, with any locks that respect their quantity. *)
Lemma depth_fill_inv H0 s s' p price max be be' se se' r r' deals locks :
  order_inv H0 s → no_colon p → depth_fill s s' p price max be be' se se' r r' deals →
  (∀ q lock, locks !! q = Some lock → os_productLocks s !! q = Some lock ∨ no_colon q ∧
    0 ≤ Pl_Quantity lock ∧ Pl_BuyExecuted lock ≤ Pl_Quantity lock ∧ Pl_SellExecuted lock ≤ Pl_Quantity lock) →
  keeps H0 s (os_set_productLocks locks s').
Proof.
  intros Hinv Hp [D1 D2 D3 _ D4 D5 D6 _ _ _ _] Hlocks.
  assert (∀ id, issued H0 s id → issued H0 (os_set_productLocks locks s') id) as Hiss.
  { intros id. apply issued_mono. cbn. by rewrite D2. }
  assert (∀ id, is_Some (os_orders s' !! id) → issued H0 s id) as Hdom.
  { intros id [o' Ho']. specialize (D4 id). rewrite Ho' in D4. apply (oi_fresh _ _ Hinv).
    by destruct (os_orders s !! id). }
  assert (∀ id, dead H0 s id → dead H0 (os_set_productLocks locks s') id) as Hdead.
  { intros id [I1 I2]. split; [auto|]. cbn. intros o' Ho'.
    specialize (D4 id). rewrite Ho' in D4. destruct (os_orders s !! id) as [o|]; [|done].
    apply (st_closed _ _ D4). by apply I2. }
  split; [|exact Hdead|done|cbn; intros id o' Ho' _; specialize (D4 id); rewrite Ho' in D4;
    destruct (os_orders s !! id) as [o|]; [by exists o|done]].
  split; cbn [os_orders os_cache os_pairs os_blockOrderNum os_productLocks os_set_productLocks].
  - done.
  - rewrite D3. apply Hinv.
  - auto.
  - rewrite D2. apply Hinv.
  - intros q lock [Hq|Hq]%Hlocks; [by apply (oi_locks _ _ Hinv)|done].
  - intros id [Hid|(o & Ho & Hc)]%D5.
    + by apply Hdead, (oi_closed _ _ Hinv).
    + split; [apply Hiss, Hdom; eauto|]. cbn. intros o' Ho'. assert (o' = o) as -> by congruence. done.
  - intros id o' Ho' Hop. specialize (D4 id). rewrite Ho' in D4.
    destruct (os_orders s !! id) as [o|] eqn:Ho; [|done]. rewrite D3, (st_product _ _ D4).
    apply (oi_listed _ _ Hinv id); [done|].
    destruct (decide (Od_Status o = OrderStatusOpen)) as [|Hn]; [done|]. by apply (st_closed _ _ D4) in Hn.
  - intros q Hq. destruct (decide (q = p)) as [->|Hne]; [done|].
    apply (oi_names _ _ Hinv). by rewrite <- D6.
Qed.

Lemma set_locks_self s : os_set_productLocks (os_productLocks s) s = s.
Proof. by destruct s. Qed.

Lemma executeMatched_Ok H0 h p r remain s r' remain' s' :
  order_inv H0 s → no_colon p → 0 ≤ Mx_Quantity r →
  executeMatchedUpdatedProduct feeCollectorName h p r remain s = (Ok (r', remain'), s') →
  keeps H0 s s' ∧ Mx_Price r' = Mx_Price r ∧ Mx_Quantity r' = Mx_Quantity r ∧
  ((remain ≤ 0 ∧ remain' = remain ∧ s' = os_set_productLocks (os_productLocks s') s) ∨
   ∃ s1 be se, depth_fill s s1 p (Mx_Price r) (Mx_Quantity r) 0 be 0 se remain remain' (Mx_Deals r') ∧
     s' = os_set_productLocks (os_productLocks s') s1 ∧
     os_productLocks s' = if (be <? Mx_Quantity r) || (se <? Mx_Quantity r)
       then <[p := mkProductLock (Mx_BlockHeight r) (Mx_Price r) (Mx_Quantity r) be se]> (os_productLocks s)
       else os_productLocks s).
Proof.
  intros Hinv Hp Hq. unfold executeMatchedUpdatedProduct. destruct (Z.leb_spec remain 0) as [Hr|Hr].
  { intros (u & s1 & Hl & Hrun)%M_bind_Ok. apply modify_Ok in Hl as ->.
    apply mret_Ok in Hrun as [[= -> ->] ->]. split; [|by split_and!; [..|left]].
    split; [|done|done|intros id o Ho _; by exists o].
    destruct Hinv as [H1 H2 H3 H4 H5 H6 H7 H8]. split; try done. cbn.
    intros q lock [[<- <-]|[_ Hx]]%lookup_insert_Some; [|by apply H5]. cbn. change ZeroDec with 0.
    split_and!; [done|lia|lia|lia]. }
  intros (fp & s1 & Hf & Hrun)%M_bind_Ok. apply gets_Ok in Hf as [-> ->].
  apply M_bind_Ok in Hrun as ([[[deals be] se] r1] & s1 & Hd & Hrun). cbv zeta in Hrun.
  apply fillDepthBook_Ok in Hd; [|apply Hinv|done|change ZeroDec with 0; lia..]. change ZeroDec with 0 in Hd.
  apply M_bind_Ok in Hrun as (u & s2 & Hl & Hrun). apply mret_Ok in Hrun as [[= -> ->] ->].
  unfold Dec_LT in Hl. cbn [Mx_Quantity Mx_Price Mx_Deals].
  set (locks' := if (be <? Mx_Quantity r) || (se <? Mx_Quantity r)
    then <[p := mkProductLock (Mx_BlockHeight r) (Mx_Price r) (Mx_Quantity r) be se]> (os_productLocks s)
    else os_productLocks s).
  assert (s2 = os_set_productLocks locks' s1) as ->.
  { unfold locks'. cbn [Mx_Quantity] in Hl. rewrite <- (df_locks _ _ _ _ _ _ _ _ _ _ _ _ Hd).
    destruct (_ || _); [by apply modify_Ok in Hl as ->|]. apply mret_Ok in Hl as [_ ->].
    by rewrite set_locks_self. }
  split; [|split_and!; [done..|right]; exists s1, be, se; by split_and!].
  eapply depth_fill_inv; [done|done|exact Hd|]. intros q lock. unfold locks'.
  destruct (_ || _); [|by left]. intros [[<- <-]|[_ Hx]]%lookup_insert_Some; [right|by left].
  cbn. split_and!; [done|done|apply Hd|apply Hd].
Qed.

Lemma executeLocked_Ok H0 h p lock remain s r' remain' s' :
  order_inv H0 s → no_colon p → 0 ≤ Pl_Quantity lock → Pl_BuyExecuted lock ≤ Pl_Quantity lock →
  Pl_SellExecuted lock ≤ Pl_Quantity lock →
  executeLockedProduct feeCollectorName h p lock remain s = (Ok (r', remain'), s') →
  keeps H0 s s' ∧ (s' = s ∨
    ∃ s1 be se deals, depth_fill s s1 p (Pl_Price lock) (Pl_Quantity lock) (Pl_BuyExecuted lock) be
      (Pl_SellExecuted lock) se remain remain' deals ∧
    s' = os_set_productLocks (os_productLocks s') s1 ∧
    os_productLocks s' !! p = if (Pl_Quantity lock <=? be) && (Pl_Quantity lock <=? se) then None
      else Some (mkProductLock (Pl_BlockHeight lock) (Pl_Price lock) (Pl_Quantity lock) be se)).
Proof.
  intros Hinv Hp Hq0 Hbe Hse.
  unfold executeLockedProduct. destruct (Z.leb_spec remain 0) as [Hr|Hr].
  { intros [[= -> ->] ->]%mret_Ok. split; [by apply keeps_refl|by left]. }
  intros (fp & s1 & Hf & Hrun)%M_bind_Ok. apply gets_Ok in Hf as [-> ->].
  apply M_bind_Ok in Hrun as ([[[deals be] se] r1] & s1 & Hd & Hrun). cbv zeta in Hrun.
  apply fillDepthBook_Ok in Hd; [|apply Hinv|done..].
  apply M_bind_Ok in Hrun as (u & s2 & Hl & Hrun). apply mret_Ok in Hrun as [[= -> ->] ->].
  unfold Dec_GTE in Hl. rewrite !Z.geb_leb in Hl.
  set (nl := mkProductLock (Pl_BlockHeight lock) (Pl_Price lock) (Pl_Quantity lock) be se) in *.
  set (locks' := if (Pl_Quantity lock <=? be) && (Pl_Quantity lock <=? se)
    then delete p (os_productLocks s) else <[p := nl]> (os_productLocks s)).
  assert (s2 = os_set_productLocks locks' s1) as ->.
  { unfold locks'. rewrite <- (df_locks _ _ _ _ _ _ _ _ _ _ _ _ Hd).
    destruct (_ && _); by apply modify_Ok in Hl as ->. }
  split.
  - eapply depth_fill_inv; [done|done|exact Hd|]. intros q l. unfold locks'. destruct (_ && _).
    + intros [_ Hx]%lookup_delete_Some. by left.
    + intros [[<- <-]|[_ Hx]]%lookup_insert_Some; [right|by left]. cbn.
      split_and!; [done|done|apply Hd|apply Hd].
  - right. exists s1, be, se, deals. split_and!; [done|done|]. cbn. unfold locks'.
    destruct (_ && _); by simplify_map_eq.
Qed.

End Auctions.

(** ** Theorems *)

Section Theorems.
Context {S : Type} `{CoinKeeper S} (feeCollectorName : string).
Implicit Types s : OrderState S.

(** A step of the module: a message that succeeds, a message with new orders
    of which all fail, the expiry of the orders of a block, the auction of a
    product, or the continuation of the auction of a locked product. *)
Inductive order_step (H0 : Z) : OrderState S → OrderState S → Prop :=
  | step_new t sender items u s s' :
      MsgNewOrders_ValidateBasic sender items = Ok () →
      handleMsgNewOrders H0 t items s = (Ok u, s') → order_step H0 s s'
  | step_new_failed t sender items e s s' :
      MsgNewOrders_ValidateBasic sender items = Ok () →
      handleMsgNewOrders H0 t items s = (Err e, s') → order_step H0 s (os_set_cache (os_cache s') s)
  | step_cancel sender ids u s s' :
      handleMsgCancelOrders feeCollectorName H0 sender ids s = (Ok u, s') → order_step H0 s s'
  | step_expire height u s s' :
      DropExpiredOrdersByBlockHeight feeCollectorName H0 height s = (Ok u, s') → order_step H0 s s'
  | step_match p r remain res s s1 s' :
      calcMatchPrice H0 p s = (Ok (Some r), s1) →
      executeMatchedUpdatedProduct feeCollectorName H0 p r remain s1 = (Ok res, s') → order_step H0 s s'
  | step_locked p lock remain res s s' :
      os_productLocks s !! p = Some lock →
      executeLockedProduct feeCollectorName H0 p lock remain s = (Ok res, s') → order_step H0 s s'.

(** The next block. *)
Lemma issued_next H0 s id : issued H0 s id → issued (H0 + 1) s id.
Proof. intros (h & n & E & Hh & Hn & Hb). exists h, n. split_and!; [done..|]. left. lia. Qed.
Lemma dead_next H0 s id : dead H0 s id → dead (H0 + 1) s id.
Proof. intros [I1 I2]. by split; [apply issued_next|]. Qed.
Lemma order_inv_next H0 s : order_inv H0 s → order_inv (H0 + 1) s.
Proof.
  intros [A1 A2 A3 A4 A5 A6 A7 A8]. split; try done.
  - intros id Hid. by apply issued_next, A3.
  - intros id Hid. by apply dead_next, A6.
Qed.

Lemma order_step_keeps H0 s s' : 0 ≤ H0 → order_step H0 s s' → order_inv H0 s → keeps H0 s s'.
Proof.
  intros Hh Hstep Hinv. destruct Hstep as [t sender items u s s' Hv Hrun
    |t sender items e s s' Hv Hrun|sender ids u s s' Hrun|height u s s' Hrun
    |p r remain [r' rm] s s1 s' Hc Hrun|p lock remain [r' rm] s s' Hl Hrun].
  - by eapply handleMsgNewOrders_Ok.
  - by eapply handleMsgNewOrders_Err.
  - unfold handleMsgCancelOrders in Hrun. apply M_bind_Ok in Hrun as (rs & s1 & Hl & Hrun).
    apply guard_not_Ok in Hrun as [_ ->]. by eapply handleCancelOrders_loop_inv.
  - unfold DropExpiredOrdersByBlockHeight in Hrun. apply M_bind_Ok in Hrun as (ids & s1 & Hg & Hrun).
    apply gets_Ok in Hg as [-> ->].
    by eapply dropExpired_loop_Ok in Hrun as [? _]; [| |apply orders_of_height_NoDup].
  - apply calcMatchPrice_Ok in Hc as (Hsb & tp & ref & s2 & Hp & _ & _ & Hq & _).
    eapply keeps_trans; [by apply same_books_keeps|].
    eapply executeMatched_Ok; [| | |exact Hrun];
      [by eapply same_books_inv|by eapply (oi_pairs _ _ Hinv)|lia].
  - destruct (oi_locks _ _ Hinv _ _ Hl) as (Hp & Hq & Hbe & Hse). by eapply executeLocked_Ok.
Qed.

(** A run goes through steps and from one height to the next. *)
Inductive order_act : Z * OrderState S → Z * OrderState S → Prop :=
  | act_step h s s' : order_step h s s' → order_act (h, s) (h, s')
  | act_next h s : order_act (h, s) (h + 1, s).

(** C6: the three stores of the order module stay in step: along every run
    of messages, expiries and auctions, at any heights, each depth book stays
    sorted and offers at each price and side exactly the sum of the quantities
    left of the open orders listed there, an order is listed if and only if it
    is open, and the record of an auction that is not finished has executed no
    more than its volume.  An order that is closed is never open again, and
    an identifier is given out once: an order of the end of the run whose
    identifier had been given out before the run was there at its start, with
    the same sender, product, side, price and quantity. *)
Theorem order_run_invariant h s h' s' :
  0 ≤ h → order_inv h s → rtc order_act (h, s) (h', s') →
  order_inv h' s' ∧ (∀ id, dead h s id → dead h' s' id) ∧
  ∀ id o', os_orders s' !! id = Some o' → issued h s id → ∃ o, os_orders s !! id = Some o ∧ same_terms o o'.
Proof.
  intros Hh Hinv Hrun. remember (h, s) as x eqn:Ex. remember (h', s') as y eqn:Ey.
  revert h s Ex Hh Hinv. induction Hrun as [x|x z y Hs Hrun IH]; intros h s -> Hh Hinv.
  { injection Ey as -> ->. split_and!; [done..|]. intros id o Ho _. by exists o. }
  inversion Hs as [? ? s1 H1|]; subst.
  - apply order_step_keeps in H1 as [A1 A2 A3 A4]; [|done..].
    destruct (IH eq_refl _ _ eq_refl Hh A1) as (B1 & B2 & B3). split_and!; [done|auto|].
    intros id o3 Ho Hi. destruct (B3 id o3 Ho (A3 _ Hi)) as (o2 & Ho2 & T2).
    destruct (A4 id o2 Ho2 Hi) as (o1 & Ho1 & T1). exists o1. split; [done|]. by transitivity o2.
  - destruct (IH eq_refl _ _ eq_refl ltac:(lia) (order_inv_next _ _ Hinv)) as (B1 & B2 & B3).
    split_and!; [done|auto using dead_next|]. intros id o Ho Hi. by apply B3; [|apply issued_next].
Qed.

(** C16: an auction clears.  Take a book that offers no negative quantity and
    less than 2^300 on each side, a pair whose prices have at most 18 digits,
    and a last price of at least zero and below 2^128.  When the match of a product that is not locked
    ends with deals of the block left, the buyers bought and the sellers sold
    exactly the auction volume, every order involved is of the product and
    accepts the price, and the product is not locked afterwards. *)
Theorem auction_clears h p s r s1 remain r' remain' s' :
  order_inv h s → os_productLocks s !! p = None → book_bounded (GetDepthBookCopy (os_cache s) p) →
  (∀ tp, os_pairs s !! p = Some tp → 0 ≤ Tp_MaxPriceDigit tp ≤ 18) →
  (∀ ref s2, GetLastPrice p s = (Ok ref, s2) → 0 ≤ ref < 2 ^ 128) →
  calcMatchPrice h p s = (Ok (Some r), s1) →
  executeMatchedUpdatedProduct feeCollectorName h p r remain s1 = (Ok (r', remain'), s') →
  0 < remain' →
  ∃ buys sells, Mx_Deals r' = buys ++ sells ∧
    deals_sum buys = Mx_Quantity r ∧ deals_sum sells = Mx_Quantity r ∧
    Forall (deal_ok (os_orders s') p BuyOrder (Mx_Price r)) buys ∧
    Forall (deal_ok (os_orders s') p SellOrder (Mx_Price r)) sells ∧
    os_productLocks s' !! p = None ∧ os_productLocks s' = os_productLocks s.
Proof.
  intros Hinv Hno Hb Hdig Hprice Hc Hrun Hrem.
  apply calcMatchPrice_Ok in Hc as (Hsb & tp & ref & s2 & Hp & Hl & Hm & Hq & _).
  apply match_price_volume in Hm as Hvol; [|apply (oi_agree _ _ Hinv)|done|by apply Hdig|by eapply Hprice|done].
  apply (executeMatched_Ok _ h) in Hrun as (_ & _ & _ & [(? & -> & _)|(s3 & be & se & Hd & Es & El)]);
    [lia| |by eapply same_books_inv|by eapply (oi_pairs _ _ Hinv)|lia].
  destruct Hd as [_ _ _ _ _ _ _ D1 D2 (buys & sells & -> & B1 & B2 & B3 & B4) D3].
  assert (GetDepthBookCopy (os_cache s1) p = GetDepthBookCopy (os_cache s) p) as Eb
    by (unfold GetDepthBookCopy; by rewrite (sb_books _ _ Hsb)).
  rewrite Eb in D3. unfold volume in Hvol. destruct D3 as [|[D3 D4]]; [lia|lia|].
  assert (os_orders s' = os_orders s3) as -> by (by rewrite Es).
  assert (os_productLocks s' = os_productLocks s) as ->.
  { rewrite El, <- (sb_locks _ _ Hsb). assert (be = Mx_Quantity r ∧ se = Mx_Quantity r) as [-> ->] by lia.
    by rewrite Z.ltb_irrefl. }
  exists buys, sells. split_and!; try done; lia.
Qed.

(** C27: filling is safe at every price and limit: it executes at most the
    given volume on each side, the deals account for all that was executed,
    every deal is with an order of the product that accepts the price, the
    terms of no order change and no order appears or disappears, and what the
    book offers is used up to the volume unless the deals of the block run
    out. *)
Theorem fillDepthBook_safe h rate p price max be se r s deals be' se' r' s' :
  order_inv h s → no_colon p → be ≤ max → se ≤ max → max ≠ 0 →
  fillDepthBook feeCollectorName h rate p price max be se r s = (Ok (deals, be', se', r'), s') →
  be ≤ be' ≤ max ∧ se ≤ se' ≤ max ∧ evolve (os_orders s) (os_orders s') ∧
  (∃ buys sells, deals = buys ++ sells ∧ deals_sum buys = be' - be ∧ deals_sum sells = se' - se ∧
    Forall (deal_ok (os_orders s') p BuyOrder price) buys ∧
    Forall (deal_ok (os_orders s') p SellOrder price) sells) ∧
  (r' ≤ 0 ∨
    Z.min (max - be) (buys_at_least (GetDepthBookCopy (os_cache s) p) price) ≤ be' - be ∧
    Z.min (max - se) (sells_at_most (GetDepthBookCopy (os_cache s) p) price) ≤ se' - se).
Proof.
  intros Hinv Hp Hbe Hse Hmax Hrun.
  apply fillDepthBook_Ok in Hrun as []; [|apply Hinv|done..]. split_and!; try done; try lia.
Qed.

(** C28: time priority: filling the queue of a price fills the orders in the
    order in which they were placed.  A prefix of the queue is filled
    completely and leaves it, at most the next order is filled in part, every
    order behind is untouched, and the deals list the filled orders in the
    order of the queue. *)
Theorem fillOrderByKey_fifo h rate p side price need fillPrice remainDeals s deals amount cnt s' :
  order_inv h s → valid_side side → no_colon p →
  0 < need ≤ level_qty side (GetDepthBookCopy (os_cache s) p) price →
  fillOrderByKey feeCollectorName h rate (FormatOrderIDsKey p price side) need fillPrice remainDeals s
    = (Ok (deals, amount, cnt), s') →
  ∃ filled rest k, ids_at (dc_ids (os_cache s)) p side price = filled ++ rest ∧
    ids_at (dc_ids (os_cache s')) p side price = rest ∧ (k ≤ 1)%nat ∧
    De_OrderID <$> deals = filled ++ take k rest ∧
    (∀ id, id ∈ filled → ∃ o', os_orders s' !! id = Some o' ∧
       Od_Status o' = OrderStatusFilled ∧ Od_RemainQuantity o' = 0) ∧
    (∀ id, id ∈ drop k rest → os_orders s' !! id = os_orders s !! id) ∧
    deals_sum deals = amount ∧ 0 ≤ amount ≤ need ∧ (amount = need ∨ remainDeals ≤ cnt).
Proof.
  intros Hinv Hv Hp Hneed Hrun.
  apply (fillOrderByKey_Ok _ _ _ _ _ _ _ _ _ _ (GetDepthBookCopy (os_cache s))) in Hrun
    as (rest & Hqf & Hids & _ & _ & _ & _ & _ & Hb & Hend); [|apply Hinv|done..].
  destruct Hqf as [(filled & El & Hf & k & Hk & Ed & Hun) _ _ _ Hsum _].
  exists filled, rest, k. split_and!; try done; try lia.
  intros id Hid. destruct (Hf id Hid) as (o & o' & _ & ? & _ & ? & ?). eauto.
Qed.

(** A new order is accepted only for a listed product that is neither
    being delisted nor locked, with a price and a quantity within the digits
    of the product and a quantity of at least its minimum; it is then stored,
    open and with the terms of the message, under an identifier that was not
    in use. *)
Theorem handleNewOrder_spec h t msg ratio s o s' :
  order_inv h s → 0 ≤ h → validateOrderItem msg = Ok () →
  handleNewOrder h t msg ratio s = (Ok o, s') →
  (∃ tp, os_pairs s !! Mn_Product msg = Some tp ∧ Tp_Delisting tp = false ∧
    Dec_RoundDecimal (Mn_Price msg) (Tp_MaxPriceDigit tp) = Ok (Mn_Price msg) ∧
    Dec_RoundDecimal (Mn_Quantity msg) (Tp_MaxQuantityDigit tp) = Ok (Mn_Quantity msg) ∧
    Tp_MinQuantity tp ≤ Mn_Quantity msg) ∧
  os_productLocks s !! Mn_Product msg = None ∧
  is_open o ∧ Od_Sender o = Mn_Sender msg ∧ in_slot o (Mn_Product msg) (Mn_Side msg) (Mn_Price msg) ∧
  Od_Quantity o = Mn_Quantity msg ∧ Od_RemainQuantity o = Mn_Quantity msg ∧
  os_orders s !! Od_OrderID o = None ∧ os_orders s' = <[Od_OrderID o := o]> (os_orders s).
Proof.
  intros Hinv Hh Hval Hrun.
  destruct (handleNewOrder_Ok _ _ _ _ _ _ _ Hinv Hh Hval Hrun) as (_ & Eo & Hnew).
  unfold handleNewOrder in Hrun. apply M_bind_Ok in Hrun as (o1 & s1 & Hm & Hrun).
  apply getOrderFromMsg_Ok in Hm as (-> & Hop & E0 & E1 & E2 & E3 & E4 & E5).
  apply M_bind_Ok in Hrun as (? & s1 & Hc & Hrun). apply checkOrderNewMsg_Ok in Hc as [-> Hc].
  apply M_bind_Ok in Hrun as (lk & s1 & Hl & Hrun). apply gets_Ok in Hl as [-> ->].
  apply M_bind_Ok in Hrun as (? & s1 & Hg & Hrun). apply guard_not_Ok in Hg as [Hl ->].
  apply bool_decide_eq_false, eq_None_not_Some in Hl.
  unfold PlaceOrder in Hrun. apply M_bind_Ok in Hrun as (? & ? & _ & Hrun).
  apply M_bind_Ok in Hrun as (n & ? & _ & Hrun). cbv zeta in Hrun.
  do 3 (apply M_bind_Ok in Hrun as (? & ? & _ & Hrun)). apply mret_Ok in Hrun as [-> ->].
  by split_and!.
Qed.

(** Cancelling: an order is cancelled only when it is open, its product
    is not locked and its owner asks; it is then closed and nothing of it
    stays locked.  In all other cases the state is unchanged. *)
Theorem handleCancelOrder_spec h sender id s r s' :
  order_inv h s → handleCancelOrder feeCollectorName h sender id s = (Ok r, s') →
  if r then ∃ o o', os_orders s !! id = Some o ∧ is_open o ∧ Od_Sender o = sender ∧
    os_productLocks s !! Od_Product o = None ∧ os_orders s' = <[id := o']> (os_orders s) ∧
    ¬ is_open o' ∧ same_terms o o' ∧ Od_RemainLocked o' = 0 ∧
    id ∉ ids_at (dc_ids (os_cache s')) (Od_Product o) (Od_Side o) (Od_Price o)
  else s' = s.
Proof.
  intros Hinv Hrun. apply (handleCancelOrder_Ok _ h) in Hrun as ([Hi _] & Hno & Hyes); [|done].
  destruct r; [|auto]. destruct (Hyes eq_refl) as (o & Ho & Hop & Hs & Hl & Eo).
  exists o, (Order_Unlock (Order_Cancel o)).
  assert (¬ is_open (Order_Unlock (Order_Cancel o))) as Hclosed.
  { unfold is_open, Order_Cancel. cbn. by destruct (Dec_Equal _ _). }
  split_and!; try done. intros Hin.
  destruct (ba_orders _ _ _ (oi_agree _ _ Hinv) _ _ Ho) as (_ & Hv & Hp & _).
  destruct (ba_slot _ _ _ (oi_agree _ _ Hi) _ _ (Od_Price o) Hv Hp) as (_ & _ & Hmem).
  apply Hmem in Hin as (x & Hx & Hx2 & _). rewrite Eo, lookup_insert_eq in Hx. injection Hx as <-. done.
Qed.

End Theorems.

(** ** The coins locked for an order *)

Section Life.

#[local] Abbreviation P := precisionReuse.

(** An order filled several times, at the prices and for the amounts
    given. *)
Fixpoint fills (o : Order) (l : list (Dec * Dec)) : outcome Order :=
  match l with
  | [] => Ok o
  | (price, amount) :: l => o' ← Order_Fill o price amount; fills o' l
  end.
Definition fills_amount (l : list (Dec * Dec)) : Z := foldr (λ f acc, f.2 + acc) 0 l.
Definition fills_cost (l : list (Dec * Dec)) : Z := foldr (λ f acc, f.1 * f.2 + acc) 0 l.

(** Prices with [pd] decimals times quantities with [qd] decimals are exact
    if there are at most 18 of them together. *)
Lemma digits_exact pd qd x y :
  0 ≤ pd → 0 ≤ qd → pd + qd ≤ 18 → (10 ^ (18 - pd) | x) → (10 ^ (18 - qd) | y) → (P | x * y).
Proof.
  intros Hp Hq Hpq [u ->] [v ->]. exists (u * v * 10 ^ (18 - pd - qd)).
  replace P with (10 ^ 18) by done.
  replace (u * 10 ^ (18 - pd) * (v * 10 ^ (18 - qd)))
    with (u * v * (10 ^ (18 - pd) * 10 ^ (18 - qd))) by ring.
  rewrite <- (Z.mul_assoc _ (10 ^ _) (10 ^ 18)), <- !Z.pow_add_r by lia. f_equal. f_equal. lia.
Qed.

Lemma Dec_Mul_exact x y : (P | x * y) → Z.abs (x * y) < 2 ^ 300 → Dec_Mul x y = Ok (x * y / P).
Proof.
  intros [k E] Hb. rewrite E, Z.div_mul by done. apply Dec_Mul_Ok. rewrite E, chop_unit.
  split; [done|]. unfold dec_fits. rewrite E, Z.abs_mul in Hb. change (Z.abs P) with 1000000000000000000 in Hb.
  assert (2 ^ 300 < 2 ^ 315) by done. nia.
Qed.

(** The new average price is at most a little above the old average and the
    fill price. *)
Lemma avg_bound avg F p a m fs q :
  0 ≤ avg ≤ m → 0 < p ≤ m → 0 ≤ F → 0 < a →
  is_half_even (avg * F) P fs → (P | p * a) →
  q = chopPrecisionAndRound (Z.quot ((fs + p * a / P) * P * P) (F + a)) → 0 ≤ fs → 0 ≤ q ≤ m + P.
Proof.
  intros Havg Hp HF Ha [Hfs _] [k Ek] -> Hfs0.
  assert (0 ≤ k) by (change P with 1000000000000000000 in Ek; nia).
  rewrite Ek, Z.div_mul by done.
  set (n := (fs + k) * P * P). assert (0 ≤ n) by (unfold n; change P with 1000000000000000000; nia).
  destruct (quot_bounds n (F + a)) as [Hq1 Hq2]; [done|lia|].
  pose proof (quot_nonneg n (F + a)) as Hq0. set (x := Z.quot n (F + a)) in *.
  split; [apply chop_nonneg, Hq0; lia|]. destruct (chop_half_even x) as [Hc _].
  set (c := chopPrecisionAndRound x) in *. clearbody c x. specialize (Hq0 ltac:(done) ltac:(lia)).
  assert (n ≤ (m * (F + a) + P) * P) as Hn.
  { unfold n. change P with 1000000000000000000 in *.
    assert (avg * F ≤ m * F) by nia. assert (p * a ≤ m * a) by nia. nia. }
  assert (x ≤ (m + P) * P) as Hx.
  { apply (Z.mul_le_mono_pos_r _ _ (F + a)); [lia|]. change P with 1000000000000000000 in *. nia. }
  change P with 1000000000000000000 in *. lia.
Qed.

Lemma Order_Fill_step o p a m :
  0 ≤ Od_RemainQuantity o ≤ Od_Quantity o → Od_Quantity o < 2 ^ 100 →
  0 ≤ Od_FilledAvgPrice o ≤ m → 0 < p ≤ m → m < 2 ^ 102 → 0 < a ≤ Od_RemainQuantity o →
  (P | p * a) → 0 ≤ Od_RemainLocked o < 2 ^ 201 →
  ∃ avg, Order_Fill o p a
    = Ok (od_set_fill o avg (Od_RemainQuantity o - a)
            (Od_RemainLocked o - (if isBuy o then p * a / P else a))
            (if Od_RemainQuantity o - a =? 0 then OrderStatusFilled else Od_Status o)) ∧
  0 ≤ avg ≤ m + P.
Proof.
  intros HR HQ Havg Hp Hm Ha Hdiv HL. unfold Order_Fill.
  assert (2 ^ 102 < 2 ^ 315 ∧ 2 ^ 201 < 2 ^ 315) as [B1 B2] by done.
  assert (∀ x, Z.abs x ≤ 2 ^ 208 → dec_fits x) as Hfit.
  { intros x Hx. unfold dec_fits. assert (2 ^ 208 < 2 ^ 315) by done. lia. }
  assert (∀ x y, 0 ≤ x < 2 ^ 102 → 0 ≤ y < 2 ^ 100 → 0 ≤ x * y < 2 ^ 202) as Hmul.
  { intros x y Hx Hy. replace (2 ^ 202) with (2 ^ 102 * 2 ^ 100) by done. nia. }
  set (F := Od_Quantity o - Od_RemainQuantity o).
  assert (Dec_Sub (Od_Quantity o) (Od_RemainQuantity o) = Ok F) as ->
    by (apply Dec_Sub_Ok; split; [done|apply Hfit; lia]).
  cbn [mbind outcome_bind].
  pose proof (Hmul (Od_FilledAvgPrice o) F ltac:(lia) ltac:(lia)) as Hsum.
  pose proof (chop_bound (Od_FilledAvgPrice o * F)) as Hc1.
  pose proof (chop_nonneg (Od_FilledAvgPrice o * F) ltac:(lia)) as Hc2.
  pose proof (chop_half_even (Od_FilledAvgPrice o * F)) as Hhe.
  set (fs := chopPrecisionAndRound (Od_FilledAvgPrice o * F)) in *.
  assert (Dec_Mul (Od_FilledAvgPrice o) F = Ok fs) as -> by (apply Dec_Mul_Ok; split; [done|apply Hfit; lia]).
  cbn [mbind outcome_bind]. pose proof (Hmul p a ltac:(lia) ltac:(lia)) as Hcost.
  rewrite Dec_Mul_exact by (done || lia). cbn [mbind outcome_bind].
  assert (0 ≤ p * a / P < 2 ^ 202) as Hk.
  { split; [apply Z.div_pos; [lia|done]|apply Z.div_lt_upper_bound; [done|]].
    change P with 1000000000000000000. lia. }
  assert (Dec_Add fs (p * a / P) = Ok (fs + p * a / P)) as ->
    by (apply Dec_Add_Ok; split; [done|apply Hfit; lia]). cbn [mbind outcome_bind].
  assert (Dec_Sub (Od_RemainQuantity o) a = Ok (Od_RemainQuantity o - a)) as ->
    by (apply Dec_Sub_Ok; split; [done|apply Hfit; lia]). cbn [mbind outcome_bind].
  assert (Dec_Sub (Od_Quantity o) (Od_RemainQuantity o - a) = Ok (F + a)) as ->
    by (apply Dec_Sub_Ok; split; [lia|apply Hfit; lia]). cbn [mbind outcome_bind].
  unfold Dec_Quo. assert (big_Quo ((fs + p * a / P) * P * P) (F + a)
    = Ok (Z.quot ((fs + p * a / P) * P * P) (F + a))) as -> by (apply big_Quo_Ok; split; [lia|done]).
  cbn [mbind outcome_bind]. set (avg := chopPrecisionAndRound _).
  assert (0 ≤ avg ≤ m + P) as Hav.
  { eapply (avg_bound (Od_FilledAvgPrice o) F p a m fs avg); try done; lia. }
  rewrite checkDec_fits by (apply Hfit; change P with 1000000000000000000 in Hav; lia).
  cbn [mbind outcome_bind]. exists avg. split; [|done]. rewrite Dec_IsZero_eq.
  destruct (isBuy o).
  - assert (Dec_Sub (Od_RemainLocked o) (p * a / P) = Ok (Od_RemainLocked o - p * a / P)) as ->
      by (apply Dec_Sub_Ok; split; [done|apply Hfit; lia]). done.
  - assert (Dec_Sub (Od_RemainLocked o) a = Ok (Od_RemainLocked o - a)) as ->
      by (apply Dec_Sub_Ok; split; [done|apply Hfit; lia]). done.
Qed.

(** A fill that a product with [pd] price and [qd] quantity decimals allows
    for an order of the side and limit. *)
Definition fill_allowed (side : string) (limit : Dec) (pd qd : Z) (f : Dec * Dec) : Prop :=
  0 < f.1 < 2 ^ 100 ∧ 0 < f.2 ∧ (side = BuyOrder → f.1 ≤ limit) ∧
  (10 ^ (18 - pd) | f.1) ∧ (10 ^ (18 - qd) | f.2).

(** What an order has locked after paying [spent] (in units of 10^-36). *)
Record life_inv (o : Order) (spent : Z) : Prop := {
  li_remain : 0 ≤ Od_RemainQuantity o ≤ Od_Quantity o;
  li_quantity : Od_Quantity o < 2 ^ 100;
  li_price : 0 < Od_Price o < 2 ^ 100;
  li_locked : if isBuy o
    then P * Od_RemainLocked o = Od_Price o * Od_Quantity o - spent ∧
         Od_Price o * Od_RemainQuantity o ≤ P * Od_RemainLocked o ∧ 0 ≤ spent
    else Od_RemainLocked o = Od_RemainQuantity o;
  li_status : Od_Status o = if Od_RemainQuantity o =? 0 then OrderStatusFilled else OrderStatusOpen }.

Lemma life_locked_bounds o spent : life_inv o spent → 0 ≤ Od_RemainLocked o < 2 ^ 201.
Proof.
  intros [HR HQ HP HL _]. assert (0 ≤ Od_Price o * Od_RemainQuantity o) by nia.
  assert (Od_Price o * Od_Quantity o < 2 ^ 200).
  { replace (2 ^ 200) with (2 ^ 100 * 2 ^ 100) by done. nia. }
  assert (2 ^ 100 < 2 ^ 200) by done.
  destruct (isBuy o); [|lia]. change P with 1000000000000000000 in HL. lia.
Qed.

Lemma life_step o spent p a avg :
  life_inv o spent → 0 < p → (isBuy o = true → p ≤ Od_Price o) → (P | p * a) →
  0 < a ≤ Od_RemainQuantity o →
  life_inv (od_set_fill o avg (Od_RemainQuantity o - a)
            (Od_RemainLocked o - (if isBuy o then p * a / P else a))
            (if Od_RemainQuantity o - a =? 0 then OrderStatusFilled else Od_Status o)) (spent + p * a).
Proof.
  intros [HR HQ HP HL HS] Hp Hlim [k Ek] Ha. split; cbn [od_set_fill Od_RemainQuantity Od_Quantity
    Od_Price Od_RemainLocked Od_Status]; try done; try lia.
  - change (isBuy (od_set_fill _ _ _ _ _)) with (isBuy o). destruct (isBuy o); [|lia].
    rewrite Ek, Z.div_mul by done. specialize (Hlim eq_refl).
    change P with 1000000000000000000 in *. nia.
  - rewrite HS. destruct (Z.eqb_spec (Od_RemainQuantity o - a) 0); [done|].
    by destruct (Z.eqb_spec (Od_RemainQuantity o) 0); [lia|].
Qed.

Lemma fills_run pd qd l : ∀ o spent m,
  0 ≤ pd → 0 ≤ qd → pd + qd ≤ 18 → life_inv o spent → 2 ^ 100 ≤ m →
  0 ≤ Od_FilledAvgPrice o ≤ m → m + Z.of_nat (length l) * P < 2 ^ 102 →
  Forall (fill_allowed (Od_Side o) (Od_Price o) pd qd) l → fills_amount l ≤ Od_RemainQuantity o →
  ∃ o', fills o l = Ok o' ∧ same_terms o o' ∧
    Od_RemainQuantity o' = Od_RemainQuantity o - fills_amount l ∧
    life_inv o' (spent + fills_cost l).
Proof.
  induction l as [|[p a] l IH]; intros o spent m Hpd Hqd Hd HI Hm Havg Hlen Hall Hamt.
  { exists o. cbn. rewrite Z.sub_0_r, Z.add_0_r. done. }
  apply Forall_cons in Hall as [(H1 & H2 & H3 & H4 & H5) Hall]. cbn [fst snd] in *.
  change (fills_amount ((p, a) :: l)) with (a + fills_amount l) in *.
  change (fills_cost ((p, a) :: l)) with (p * a + fills_cost l).
  assert (0 ≤ fills_amount l).
  { clear -Hall. induction Hall as [|f l (_ & ? & _) _ IH]; [done|]. cbn. fold (fills_amount l). lia. }
  pose proof (digits_exact pd qd p a Hpd Hqd Hd H4 H5) as Hex.
  pose proof (life_locked_bounds _ _ HI) as HL.
  rewrite length_cons, Nat2Z.inj_succ in Hlen. change P with 1000000000000000000 in Hlen.
  destruct (Order_Fill_step o p a m) as (avg & E & Hav'); try done; try apply HI; try lia.
  change P with 1000000000000000000 in Hav'.
  cbn [fills]. rewrite E. cbn [mbind outcome_bind].
  assert (isBuy o = true → p ≤ Od_Price o) as Hlim by (intros Hb; apply H3; by apply String.eqb_eq).
  pose proof (life_step o spent p a avg HI ltac:(lia) Hlim Hex ltac:(lia)) as HI'.
  edestruct (IH _ (spent + p * a) (m + P) Hpd Hqd Hd HI') as (o' & -> & Ht & Hr & HI2);
    change P with 1000000000000000000; cbn [od_set_fill Od_FilledAvgPrice Od_RemainQuantity Od_Side Od_Price];
    try done; try lia.
  exists o'. split; [done|]. split; [etransitivity; [|exact Ht]; split; try done; unfold is_open; cbn; by destruct (_ =? 0)|].
  split; [rewrite Hr; cbn; lia|]. by rewrite Z.add_assoc.
Qed.

(** An order always has enough locked: for a product whose prices and
    quantities have together at most 18 decimals, a new order that is filled
    any number of times, at prices it accepts and up to its quantity, ends
    with exactly the unspent part of its coins locked, which covers what is
    left at its own price; it is filled when and only when nothing is left,
    and none of this overflows. *)
Theorem order_life_covered sender product side price quantity t blocks fee pd qd l :
  valid_side side → 0 ≤ pd → 0 ≤ qd → pd + qd ≤ 18 →
  0 < price < 2 ^ 100 → 0 < quantity < 2 ^ 100 →
  (10 ^ (18 - pd) | price) → (10 ^ (18 - qd) | quantity) →
  Forall (fill_allowed side price pd qd) l → fills_amount l ≤ quantity →
  Z.of_nat (length l) < 2 ^ 40 →
  ∃ o, (o0 ← NewOrder sender product side price quantity t blocks fee; fills o0 l) = Ok o ∧
  Od_RemainQuantity o = quantity - fills_amount l ∧
  Od_Status o = (if Od_RemainQuantity o =? 0 then OrderStatusFilled else OrderStatusOpen) ∧
  if String.eqb side BuyOrder
  then P * Od_RemainLocked o = price * quantity - fills_cost l ∧
       price * Od_RemainQuantity o ≤ P * Od_RemainLocked o
  else Od_RemainLocked o = Od_RemainQuantity o.
Proof.
  intros Hv Hpd Hqd Hd Hp Hq Dp Dq Hall Hamt Hlen.
  pose proof (digits_exact pd qd price quantity Hpd Hqd Hd Dp Dq) as Hex.
  assert (0 ≤ price * quantity < 2 ^ 200) as Hpq.
  { replace (2 ^ 200) with (2 ^ 100 * 2 ^ 100) by done. nia. }
  set (o0 := mkOrder "" sender product side price quantity OrderStatusOpen ZeroDec quantity
    (if String.eqb side BuyOrder then price * quantity / P else quantity) t blocks fee).
  assert (NewOrder sender product side price quantity t blocks fee = Ok o0) as ->.
  { unfold NewOrder, o0. destruct (String.eqb side BuyOrder); [|done].
    rewrite Dec_Mul_exact; [done|done|]. assert (2 ^ 200 < 2 ^ 300) by done. lia. }
  cbn [mbind outcome_bind].
  assert (life_inv o0 0) as HI.
  { split; cbn; try lia.
    - unfold isBuy. cbn. destruct (String.eqb side BuyOrder); [|done]. destruct Hex as [k ->].
      rewrite Z.div_mul by done. change P with 1000000000000000000. lia.
    - by destruct (Z.eqb_spec quantity 0); [lia|]. }
  destruct (fills_run pd qd l o0 0 (2 ^ 100)) as (o & -> & [_ _ _ Es Ep Eq _] & Hr & HI'); try done.
  - change P with 1000000000000000000. assert (2 ^ 40 * 1000000000000000000 < 2 ^ 101) by done.
    assert (2 ^ 100 + 2 ^ 101 < 2 ^ 102) by done. lia.
  - exists o. split; [done|]. split; [done|]. split; [apply HI'|].
    destruct HI' as [_ _ _ HL _]. unfold isBuy in HL. rewrite Es, Ep, Eq in HL. cbn in HL.
    destruct (String.eqb side BuyOrder); [|done]. by destruct HL as (? & ? & _).
Qed.

End Life.

(** ** The order in which products are matched *)

(** [TokenPair.IsGT], by which products are sorted before they are
    matched, is not an order: with equal deposits and listing heights it holds
    in both directions between the pairs aaa_zzz and bbb_yyy, because it
    compares the names of the base assets or those of the quote assets. *)
Theorem TokenPair_IsGT_both_ways :
  ∃ a b, TokenPair_IsGT a b = Ok true ∧ TokenPair_IsGT b a = Ok true.
Proof.
  exists (mkTokenPair "aaa" "zzz" 1 4 4 1 false "alice" (mkDecCoin "okt" 1) 5).
  exists (mkTokenPair "bbb" "yyy" 1 4 4 1 false "alice" (mkDecCoin "okt" 1) 5).
  split; vm_compute; reflexivity.
Qed.

(** ** Examples *)

Section OrderWitnesses.

Definition demo_order_config : BankConfig :=
  mkBankConfig {[ "token" := ("addr_token", ["minter"; "burner"]);
                  "fee_collector" := ("addr_fee", []) ]} ∅.
#[local] Existing Instance demo_order_config.

Definition demo_okt : Z := 10 ^ 18.
Definition demo_order_bank : Bank :=
  mkBank {[ "alice" := mkAccount [mkDecCoin "aaa" (100 * demo_okt); mkDecCoin "okt" (100 * demo_okt)] None;
            "bob" := mkAccount [mkDecCoin "aaa" (100 * demo_okt); mkDecCoin "okt" (100 * demo_okt)] None ]}
         {[ "aaa" := 200 * demo_okt; "okt" := 200 * demo_okt ]} true.
Definition demo_listing : TokenPair :=
  mkTokenPair "aaa" "okt" demo_okt 4 4 1 false "carol" (mkDecCoin "okt" 0) 1.
Definition demo_cache : DiskCache := mkDiskCache ∅ ∅ ∅ 0 0 [] ∅ ∅ ∅.
Definition demo_order0 : OrderState Bank :=
  mkOrderState
    (mkTokenState demo_order_bank ∅ ∅ 0 ∅ ∅ ∅
       (mkTokenParams demo_fee demo_fee demo_fee demo_fee demo_fee 10) ∅)
    ∅ ∅ ∅ {[ "aaa_okt" := demo_listing ]} ∅ ∅
    (mkOrderParams 100 1000 (mkDecCoin "okt" 0) 0) demo_cache.

Lemma demo_order0_inv : order_inv 10 demo_order0.
Proof.
  split; cbn.
  - split; [done|intros p; constructor|]. intros p side price _ _. split; [done|].
    split; [constructor|]. intros id. split; [by intros ?%not_elem_of_nil|by intros (? & ? & _)].
  - intros p tp [<- _]%lookup_singleton_Some. done.
  - by intros id [? ?].
  - done.
  - done.
  - by intros id ?%not_elem_of_nil.
  - done.
  - by intros p.
Qed.

Definition demo_new (sender side : string) (price quantity : Z) : MsgNewOrder :=
  mkMsgNewOrder sender "aaa_okt" side (price * demo_okt) (quantity * demo_okt).
Definition demo_buys : list MsgNewOrder := [demo_new "alice" BuyOrder 2 5; demo_new "alice" BuyOrder 2 3].
Definition demo_sells : list MsgNewOrder := [demo_new "bob" SellOrder 1 4; demo_new "bob" SellOrder 2 3].
Definition demo_order1 : OrderState Bank :=
  Eval vm_compute in (handleMsgNewOrders 10 1000 demo_buys demo_order0).2.
Definition demo_order2 : OrderState Bank :=
  Eval vm_compute in (handleMsgNewOrders 10 1000 demo_sells demo_order1).2.

Lemma demo_order1_run : handleMsgNewOrders 10 1000 demo_buys demo_order0 = (Ok (), demo_order1).
Proof. vm_compute. reflexivity. Qed.
Lemma demo_order2_run : handleMsgNewOrders 10 1000 demo_sells demo_order1 = (Ok (), demo_order2).
Proof. vm_compute. reflexivity. Qed.

Lemma demo_order2_inv : order_inv 10 demo_order2.
Proof.
  apply (kp_inv 10 demo_order1), (handleMsgNewOrders_Ok 10 1000 "bob" demo_sells demo_order1 ());
    [|done|by vm_compute|exact demo_order2_run].
  by apply (kp_inv 10 demo_order0), (handleMsgNewOrders_Ok 10 1000 "alice" demo_buys demo_order0 ());
    [exact demo_order0_inv|done|vm_compute|exact demo_order1_run].
Qed.

Definition demo_match : outcome (option MatchResult) * OrderState Bank :=
  Eval vm_compute in calcMatchPrice 10 "aaa_okt" demo_order2.
Definition demo_result : MatchResult :=
  match demo_match.1 with Ok (Some r) => r | _ => mkMatchResult 0 0 0 [] end.

Definition demo_run : outcome (MatchResult * Z) * OrderState Bank :=
  Eval vm_compute in executeMatchedUpdatedProduct "fee_collector" 10 "aaa_okt" demo_result 100 demo_match.2.

Definition demo_run_result : MatchResult :=
  match demo_run.1 with Ok (r, _) => r | _ => demo_result end.

Lemma demo_match_run : calcMatchPrice 10 "aaa_okt" demo_order2 = (Ok (Some demo_result), demo_match.2).
Proof. vm_compute. reflexivity. Qed.
Lemma demo_run_run :
  executeMatchedUpdatedProduct "fee_collector" 10 "aaa_okt" demo_result 100 demo_match.2
  = (Ok (demo_run_result, 97), demo_run.2).
Proof. vm_compute. reflexivity. Qed.

Lemma order_run_invariant_witness : order_inv 11 demo_run.2.
Proof.
  refine (proj1 (order_run_invariant "fee_collector" 10 demo_order0 11 demo_run.2 _ demo_order0_inv _)); [done|].
  eapply rtc_l; [apply act_step, (step_new _ 10 1000 "alice" demo_buys () demo_order0 demo_order1);
    [by vm_compute|exact demo_order1_run]|].
  eapply rtc_l; [apply act_step, (step_new _ 10 1000 "bob" demo_sells () demo_order1 demo_order2);
    [by vm_compute|exact demo_order2_run]|].
  eapply rtc_l; [exact (act_step _ _ _ _ (step_match _ 10 "aaa_okt" demo_result 100 _ _ _ _ demo_match_run demo_run_run))|].
  eapply rtc_l; [apply act_next|apply rtc_refl].
Defined.

Lemma demo_order2_bounded : book_bounded (GetDepthBookCopy (os_cache demo_order2) "aaa_okt").
Proof. split; [|by vm_compute..]. vm_compute. by repeat constructor. Qed.

Lemma auction_clears_witness :
  ∃ buys sells, Mx_Deals demo_run_result = buys ++ sells ∧
    deals_sum buys = 7 * demo_okt ∧ deals_sum sells = 7 * demo_okt.
Proof.
  destruct (auction_clears "fee_collector" 10 "aaa_okt" demo_order2 demo_result demo_match.2 100
    demo_run_result 97 demo_run.2)
    as (buys & sells & H1 & H2 & H3 & _).
  - exact demo_order2_inv.
  - by vm_compute.
  - exact demo_order2_bounded.
  - intros tp Htp. vm_compute in Htp. injection Htp as <-. cbn. lia.
  - intros ref s2 Hr. vm_compute in Hr. injection Hr as <- _. done.
  - exact demo_match_run.
  - exact demo_run_run.
  - done.
  - exists buys, sells. exact (conj H1 (conj H2 H3)).
Defined.

Lemma fillDepthBook_safe_witness :
  let run := fillDepthBook "fee_collector" 10 0 "aaa_okt" (2 * demo_okt) (6 * demo_okt) 0 0 100 demo_order2 in
  evolve (os_orders demo_order2) (os_orders run.2).
Proof.
  intros run.
  refine (proj1 (proj2 (proj2 (fillDepthBook_safe "fee_collector" 10 0 "aaa_okt" (2 * demo_okt) (6 * demo_okt) 0 0 100 demo_order2
    (match run.1 with Ok (d, _, _, _) => d | _ => [] end) (6 * demo_okt) (6 * demo_okt) 98 run.2 _ _ _ _ _ _))));
    [exact demo_order2_inv|done|done|done|done|vm_compute; reflexivity].
Defined.

Lemma fillOrderByKey_fifo_witness :
  let run := fillOrderByKey "fee_collector" 10 0 (FormatOrderIDsKey "aaa_okt" (2 * demo_okt) BuyOrder)
    (6 * demo_okt) (2 * demo_okt) 100 demo_order2 in
  ∃ filled rest k, ids_at (dc_ids (os_cache demo_order2)) "aaa_okt" BuyOrder (2 * demo_okt) = filled ++ rest ∧
    ids_at (dc_ids (os_cache run.2)) "aaa_okt" BuyOrder (2 * demo_okt) = rest ∧ (k ≤ 1)%nat.
Proof.
  intros run. destruct (fillOrderByKey_fifo "fee_collector" 10 0 "aaa_okt" BuyOrder (2 * demo_okt)
    (6 * demo_okt) (2 * demo_okt) 100 demo_order2
    (match run.1 with Ok (d, _, _) => d | _ => [] end) (6 * demo_okt) 1 run.2)
    as (filled & rest & k & H1 & H2 & H3 & _);
    [exact demo_order2_inv|by left|done|vm_compute; done|vm_compute; reflexivity|].
  exists filled, rest, k. exact (conj H1 (conj H2 H3)).
Defined.

Lemma handleNewOrder_spec_witness :
  let run := handleNewOrder 10 1000 (demo_new "bob" SellOrder 3 1) "1" demo_order2 in
  let o := match run.1 with Ok o => o | _ => demo_order SellOrder 1 1 end in
  os_orders demo_order2 !! Od_OrderID o = None ∧ os_orders run.2 = <[Od_OrderID o := o]> (os_orders demo_order2).
Proof.
  intros run o.
  destruct (handleNewOrder_spec 10 1000 (demo_new "bob" SellOrder 3 1) "1" demo_order2 o run.2)
    as (_ & _ & _ & _ & _ & _ & _ & H1 & H2);
    [exact demo_order2_inv|done|by vm_compute|vm_compute; reflexivity|]. exact (conj H1 H2).
Defined.

Lemma handleCancelOrder_spec_witness :
  let run := handleCancelOrder "fee_collector" 10 "alice" "ID0000000010-1" demo_order2 in
  ∃ o o', os_orders demo_order2 !! "ID0000000010-1" = Some o ∧
    os_orders run.2 = <["ID0000000010-1" := o']> (os_orders demo_order2) ∧ Od_RemainLocked o' = 0.
Proof.
  intros run. destruct (handleCancelOrder_spec "fee_collector" 10 "alice" "ID0000000010-1" demo_order2
    true run.2) as (o & o' & H1 & _ & _ & _ & H2 & _ & _ & H3 & _);
    [exact demo_order2_inv|vm_compute; reflexivity|]. exists o, o'. exact (conj H1 (conj H2 H3)).
Defined.

Lemma order_life_covered_witness :
  let fee := mkDecCoin "okt" 0 in
  ∃ o, (o0 ← NewOrder "alice" "aaa_okt" BuyOrder (2 * demo_okt) (5 * demo_okt) 0 10 fee;
        fills o0 [(demo_okt, 2 * demo_okt); (2 * demo_okt, 3 * demo_okt)]) = Ok o ∧
  Od_RemainQuantity o = 0 ∧ Od_Status o = OrderStatusFilled ∧ Od_RemainLocked o = 2 * demo_okt.
Proof.
  intros fee.
  destruct (order_life_covered "alice" "aaa_okt" BuyOrder (2 * demo_okt) (5 * demo_okt) 0 10 fee 4 4
    [(demo_okt, 2 * demo_okt); (2 * demo_okt, 3 * demo_okt)]) as (o & E & Hr & Hs & Hl & _);
    [by left|done|done|done|done|done|by exists 20000|by exists 50000| |done|done|].
  - apply Forall_cons; split; [|apply Forall_cons; split; [|apply Forall_nil; exact I]];
      unfold fill_allowed, demo_okt; cbn [fst snd]; split_and!; try lia.
    + by exists 10000.
    + by exists 20000.
    + by exists 20000.
    + by exists 30000.
  - exists o. split; [done|]. rewrite Hr in Hs |- *. split; [done|]. split; [done|].
    change (fills_cost _) with (8 * demo_okt * demo_okt) in Hl.
    change precisionReuse with demo_okt in Hl. unfold demo_okt in *. lia.
Defined.

End OrderWitnesses.
