(* ===== verification/OrderBlock.v ===== *)
(** * The blocks of the order module

    [x/order/beginblocker.go], [x/order/endblocker.go] and the steps of the
    matching engine ([x/order/match/periodicauction]): at the end of a block
    orders are expired, closed orders dropped, orders of delisted products
    cancelled and products matched; then the cache is written to the store.

    Three things of Go are explicit.  The order in which a map is ranged over
    is a parameter (any order of the keys).  [sort.Sort] is a parameter that
    permutes its input, because the comparison of the code is not an order.
    And the slice of identifiers over which the cleanup of a delisted product
    ranges can be the slice in the cache, which the body of the loop shifts in
    place. *)
From stdpp Require Import functions.
From S2P Require Import Prelude Decimal Denom Coins Bank CoinKeeper Token DecStr OrderBook Order.
#[local] Open Scope Z_scope.

(** ** State *)

(** The order state with the rest of the module's store: the blocks to expire
    by height, the last height whose expiry was handled, the orders closed in
    the last block, the counters, and the stored books and identifiers. *)
Record BlockState (S : Type) := mkBlockState {
  bk_os : OrderState S;
  bk_expire : gmap Z (list Z);
  bk_lastExpired : Z;
  bk_lastClosed : list string;
  bk_openNum : Z;
  bk_storeNum : Z;
  bk_dbBooks : gmap string (list DepthBookItem);
  bk_dbIds : gmap string (list string) }.
Arguments mkBlockState {S}.
Arguments bk_os {S}.
Arguments bk_expire {S}.
Arguments bk_lastExpired {S}.
Arguments bk_lastClosed {S}.
Arguments bk_openNum {S}.
Arguments bk_storeNum {S}.
Arguments bk_dbBooks {S}.
Arguments bk_dbIds {S}.

(** [append(a\[:j\], a\[j+1:\]...)] on the first [m] elements of an array: the
    elements behind [j] move down, the last of the [m] is there twice. *)
Definition shiftDown (arr : list string) (m j : nat) : list string :=
  take j arr ++ drop (j + 1) (take m arr) ++ drop (m - 1) arr.

(** The position of an identifier. *)
Fixpoint indexOf (id : string) (l : list string) : option nat :=
  match l with
  | [] => None
  | x :: l => if String.eqb x id then Some O else S <$> indexOf id l
  end.

Section OrderBlock.
Context {S : Type} `{CoinKeeper S} (feeCollectorName : string).
(** The orders in which the three maps are ranged over, the sort of the
    products, and the spare capacity of the cached slices of identifiers. *)
Context (rangeBooks rangeNew rangeLocks : gset string → list string)
  (sortPairs : list TokenPair → list TokenPair) (spare : string → nat).

Definition bk_set_os (o : OrderState S) (b : BlockState S) : BlockState S :=
  mkBlockState o (bk_expire b) (bk_lastExpired b) (bk_lastClosed b) (bk_openNum b) (bk_storeNum b)
    (bk_dbBooks b) (bk_dbIds b).
Definition on_os {A} (m : M (OrderState S) A) : M (BlockState S) A := zoom bk_os bk_set_os m.

Definition GetExpireBlockHeight (blockHeight : Z) : M (BlockState S) (list Z) :=
  gets (λ b, default [] (bk_expire b !! blockHeight)).
Definition bk_set_expire (e : gmap Z (list Z)) (b : BlockState S) : BlockState S :=
  mkBlockState (bk_os b) e (bk_lastExpired b) (bk_lastClosed b) (bk_openNum b) (bk_storeNum b)
    (bk_dbBooks b) (bk_dbIds b).
Definition SetExpireBlockHeight (blockHeight : Z) (l : list Z) : M (BlockState S) unit :=
  modify (λ b, bk_set_expire (<[blockHeight := l]> (bk_expire b)) b).
Definition DropExpireBlockHeight (blockHeight : Z) : M (BlockState S) unit :=
  modify (λ b, bk_set_expire (delete blockHeight (bk_expire b)) b).
Definition SetLastExpiredBlockHeight (h : Z) : M (BlockState S) unit :=
  modify (λ b, mkBlockState (bk_os b) (bk_expire b) h (bk_lastClosed b) (bk_openNum b) (bk_storeNum b)
    (bk_dbBooks b) (bk_dbIds b)).
Definition DropBlockOrderNum (blockHeight : Z) : M (OrderState S) unit :=
  modify (λ s, os_set_blockOrderNum (delete blockHeight (os_blockOrderNum s)) s).
Definition AnyProductLocked : M (OrderState S) bool :=
  gets (λ s, bool_decide (os_productLocks s ≠ ∅)).
Definition DecreaseStoreOrderNum (num : Z) (c : DiskCache) : DiskCache :=
  mkDiskCache (dc_books c) (dc_ids c) (dc_prices c) (dc_storeOrderNum c - num) (dc_openNum c)
    (dc_closed c) (dc_newBooks c) (dc_updBooks c) (dc_updIds c).

(** ** Expiry *)

Definition markCurBlockToFutureExpireBlockList (curBlockHeight : Z) : M (BlockState S) unit :=
  feeParams ← on_os (gets os_params);
  let futureHeight := curBlockHeight + Op_OrderExpireBlocks feeParams in
  futureExpireHeightList ← GetExpireBlockHeight futureHeight;
  SetExpireBlockHeight futureHeight (futureExpireHeightList ++ [curBlockHeight]).

Definition cleanLastBlockClosedOrders : M (BlockState S) unit :=
  lastClosedOrderIDs ← gets bk_lastClosed;
  _ ← for_each (λ id, on_os (DropOrder id)) lastClosedOrderIDs;
  on_os (on_cache (DecreaseStoreOrderNum (Z.of_nat (length lastClosedOrderIDs)))).

(** The heights from [height] on, [n] of them. *)
Fixpoint heights (height : Z) (n : nat) : list Z :=
  match n with
  | O => []
  | Datatypes.S n => height :: heights (height + 1) n
  end.

Definition expireHeight (curBlockHeight height : Z) : M (BlockState S) unit :=
  expiredBlocks ← GetExpireBlockHeight height;
  for_each (λ e, on_os (DropExpiredOrdersByBlockHeight feeCollectorName curBlockHeight e)) expiredBlocks.
Definition dropHeight (height : Z) : M (BlockState S) unit :=
  expiredBlocks ← GetExpireBlockHeight height;
  _ ← for_each (λ e, on_os (DropBlockOrderNum e)) expiredBlocks;
  DropExpireBlockHeight height.

Definition cacheExpiredBlockToCurrentHeight (curBlockHeight : Z) : M (BlockState S) unit :=
  last ← gets bk_lastExpired;
  let lastExpiredBlockHeight := if last =? 0 then curBlockHeight - 1 else last in
  let n := Z.to_nat (curBlockHeight - lastExpiredBlockHeight) in
  _ ← for_each (expireHeight curBlockHeight) (heights (lastExpiredBlockHeight + 1) n);
  locked ← on_os AnyProductLocked;
  if (locked : bool) then mret ()
  else
    _ ← (if curBlockHeight >? 1 then for_each dropHeight (heights lastExpiredBlockHeight n) else mret ());
    SetLastExpiredBlockHeight
      (if curBlockHeight >? 1 then Z.max lastExpiredBlockHeight curBlockHeight
       else lastExpiredBlockHeight).

Definition cleanupExpiredOrders (curBlockHeight : Z) : M (BlockState S) unit :=
  _ ← markCurBlockToFutureExpireBlockList curBlockHeight;
  _ ← cleanLastBlockClosedOrders;
  cacheExpiredBlockToCurrentHeight curBlockHeight.

(** ** Delisted products *)

(** The loop of [cleanOrdersByOrderIDList]: [n] elements from index [i] of
    the array [arr].  If the array is that of the cached slice at [buyKey],
    cancelling a buy order shifts it. *)
Fixpoint cleanOrders_loop (n i : nat) (blockHeight : Z) (buyKey : string) (shared : bool)
    (arr : list string) : M (OrderState S) unit :=
  match n with
  | O => mret ()
  | Datatypes.S n =>
      id ← lift (idx arr i);
      o ← Order_GetOrder id;
      match o with
      | None => panic "nil pointer dereference"
      | Some order =>
          l ← gets (λ s, default [] (dc_ids (os_cache s) !! buyKey));
          _ ← CancelOrder feeCollectorName blockHeight order;
          let arr :=
            if shared && String.eqb buyKey
                 (FormatOrderIDsKey (Od_Product order) (Od_Price order) (Od_Side order))
            then match indexOf (Od_OrderID order) l with
                 | Some j => shiftDown arr (length l) j
                 | None => arr
                 end
            else arr in
          cleanOrders_loop n (Datatypes.S i) blockHeight buyKey shared arr
      end
  end.

Definition cleanupLevel (blockHeight : Z) (product : string) (item : DepthBookItem)
    : M (OrderState S) unit :=
  let buyKey := FormatOrderIDsKey product (Bi_Price item) BuyOrder in
  buys ← gets (λ s, default [] (dc_ids (os_cache s) !! buyKey));
  sells ← gets (λ s, default [] (dc_ids (os_cache s) !! FormatOrderIDsKey product (Bi_Price item) SellOrder));
  let arr := buys ++ sells in
  cleanOrders_loop (length arr) 0 blockHeight buyKey (length sells <=? spare buyKey)%nat arr.
Definition cleanupOrdersByProduct (blockHeight : Z) (product : string) : M (OrderState S) unit :=
  c ← gets os_cache;
  for_each (cleanupLevel blockHeight product) (GetDepthBookCopy c product).
Definition cleanupOrdersWhoseTokenPairHaveBeenDelisted (blockHeight : Z) : M (OrderState S) unit :=
  products ← gets (λ s, rangeBooks (dom (dc_books (os_cache s))));
  for_each (λ product,
    tokenPair ← GetTokenPair product;
    match tokenPair with
    | None => cleanupOrdersByProduct blockHeight product
    | Some _ => mret ()
    end) products.

(** ** Matching *)

Definition FilterDelistedProducts (s : OrderState S) (products : list string) : list string :=
  base.filter (λ p, is_Some (os_pairs s !! p)) products.

Definition pairName (tp : TokenPair) : string := Tp_BaseAssetSymbol tp +:+ "_" +:+ Tp_QuoteAssetSymbol tp.

(** The names of the sorted pairs overwrite the front of the slice. *)
Definition SortProducts (s : OrderState S) (products : list string) : list string :=
  let names := pairName <$> sortPairs (omap (λ p, os_pairs s !! p) products) in
  names ++ drop (length names) products.

Fixpoint calcMatchPriceAndExecution (blockHeight : Z) (products : list string)
    (resultMap : gmap string MatchResult) : M (OrderState S) (gmap string MatchResult) :=
  match products with
  | [] => mret resultMap
  | product :: rest =>
      r ← calcMatchPrice blockHeight product;
      calcMatchPriceAndExecution blockHeight rest
        (match r with Some r => <[product := r]> resultMap | None => resultMap end)
  end.

Fixpoint executeMatch (blockHeight : Z) (products : list string) (results : gmap string MatchResult)
    (lockMap : gmap string ProductLock) (blockRemainDeals : Z)
    : M (OrderState S) (gmap string MatchResult) :=
  match products with
  | [] => mret results
  | product :: rest =>
      match results !! product with
      | Some r =>
          '(r, remain) ← executeMatchedUpdatedProduct feeCollectorName blockHeight product r blockRemainDeals;
          executeMatch blockHeight rest (<[product := r]> results) lockMap remain
      | None =>
          match lockMap !! product with
          | Some lock =>
              '(r, remain) ← executeLockedProduct feeCollectorName blockHeight product lock blockRemainDeals;
              executeMatch blockHeight rest
                (match r with Some r => <[product := r]> results | None => results end) lockMap remain
          | None => executeMatch blockHeight rest results lockMap blockRemainDeals
          end
      end
  end.

Definition matchOrders (blockHeight : Z) : M (OrderState S) (gmap string MatchResult) :=
  orderNum ← GetBlockOrderNum blockHeight;
  locked ← AnyProductLocked;
  if (orderNum =? 0) && negb locked then mret ∅
  else
    products ← gets (λ s, SortProducts s (FilterDelistedProducts s (rangeNew (dc_newBooks (os_cache s)))));
    results ← calcMatchPriceAndExecution blockHeight products ∅;
    lockMap ← gets os_productLocks;
    products ← gets (λ s, SortProducts s (products ++ rangeLocks (dom lockMap)));
    feeParams ← gets os_params;
    executeMatch blockHeight products results lockMap (Op_MaxDealsPerBlock feeParams).

(** ** The cache and the store *)

Definition StoreDepthBook (product : string) (book : list DepthBookItem)
    (db : gmap string (list DepthBookItem)) : gmap string (list DepthBookItem) :=
  match book with [] => delete product db | _ => <[product := book]> db end.
Definition StoreOrderIDsMap (key : string) (orderIDs : list string)
    (db : gmap string (list string)) : gmap string (list string) :=
  match orderIDs with [] => delete key db | _ => <[key := orderIDs]> db end.

(** The keys are written in their order, each once. *)
Definition Cache2Disk : M (BlockState S) unit :=
  modify (λ b,
    let c := os_cache (bk_os b) in
    mkBlockState (bk_os b) (bk_expire b) (bk_lastExpired b) (dc_closed c) (dc_openNum c)
      (dc_storeOrderNum c)
      (foldl (λ db p, StoreDepthBook p (default [] (dc_books c !! p)) db) (bk_dbBooks b)
         (elements (dc_updBooks c)))
      (foldl (λ db k, StoreOrderIDsMap k (default [] (dc_ids c !! k)) db) (bk_dbIds b)
         (elements (dc_updIds c)))).

(** [diskCache.reset] and the counters. *)
Definition resetCache (b : BlockState S) (c : DiskCache) : DiskCache :=
  mkDiskCache (dc_books c) (dc_ids c) (dc_prices c) (bk_storeNum b) (bk_openNum b) [] ∅ ∅ ∅.
(** [ResetCache]; the first call of a process also reads the store. *)
Definition ResetCache (onStartUp : bool) : M (BlockState S) unit :=
  modify (λ b,
    let c := os_cache (bk_os b) in
    let c := if onStartUp
             then mkDiskCache (bk_dbBooks b ∪ dc_books c) (bk_dbIds b ∪ dc_ids c) (dc_prices c)
                    (dc_storeOrderNum c) (dc_openNum c) (dc_closed c) (dc_newBooks c) (dc_updBooks c)
                    (dc_updIds c)
             else c in
    bk_set_os (os_set_cache (resetCache b c) (bk_os b)) b).

Definition BeginBlocker (onStartUp : bool) : M (BlockState S) unit := ResetCache onStartUp.

(** [PaEngine.Run]. *)
Definition Run (blockHeight : Z) : M (BlockState S) (gmap string MatchResult) :=
  _ ← cleanupExpiredOrders blockHeight;
  _ ← on_os (cleanupOrdersWhoseTokenPairHaveBeenDelisted blockHeight);
  on_os (matchOrders blockHeight).
Definition EndBlocker (blockHeight : Z) : M (BlockState S) (gmap string MatchResult) :=
  r ← Run blockHeight;
  _ ← Cache2Disk;
  mret r.

(** [newDiskCache], what a new process starts with. *)
Definition newDiskCache : DiskCache := mkDiskCache ∅ ∅ ∅ 0 0 [] ∅ ∅ ∅.

End OrderBlock.
