(* ===== verification/OrderChain.v ===== *)
(** * Blocks of the order module: proofs

    The depth books, the order store and the lists of identifiers agree at
    every block of a chain, the store on disk holds what the cache holds, so
    that a restarted node continues with the same books, and expired orders
    are closed.  A last section shows what the shared slice in the cleanup of
    a delisted product does. *)
From stdpp Require Import functions.
From S2P Require Import Prelude Decimal Denom Coins Bank CoinKeeper Token DecStr OrderBook Order OrderProps OrderRun OrderBlock.
#[local] Open Scope Z_scope.

(** ** What a computation has written *)

(** Keys that are not marked as updated are as before. *)
Record c_tracks (c c' : DiskCache) : Prop := {
  ct_updBooks : dc_updBooks c ⊆ dc_updBooks c';
  ct_updIds : dc_updIds c ⊆ dc_updIds c';
  ct_books : ∀ p, p ∉ dc_updBooks c' → dc_books c' !! p = dc_books c !! p;
  ct_ids : ∀ k, k ∉ dc_updIds c' → dc_ids c' !! k = dc_ids c !! k }.

#[global] Instance c_tracks_preorder : PreOrder c_tracks.
Proof.
  split; [by intros c; split|]. intros a b c [A1 A2 A3 A4] [B1 B2 B3 B4]. split.
  - set_solver.
  - set_solver.
  - intros p Hp. rewrite B3, A3; set_solver.
  - intros k Hk. rewrite B4, A4; set_solver.
Qed.

Record tracks {S} (s s' : OrderState S) : Prop := {
  tk_cache : c_tracks (os_cache s) (os_cache s');
  tk_pairs : os_pairs s' = os_pairs s;
  tk_params : os_params s' = os_params s }.

#[global] Instance tracks_preorder S : PreOrder (@tracks S).
Proof.
  split; [by intros s; split|]. intros a b c [A1 A2 A3] [B1 B2 B3]. split; [|congruence..].
  by transitivity (os_cache b).
Qed.

(** No product gets a book that had none. *)
Definition c_shrinks (c c' : DiskCache) : Prop :=
  ∀ p, is_Some (dc_books c' !! p) → is_Some (dc_books c !! p).
Record shrinks {S} (s s' : OrderState S) : Prop := {
  sh_books : c_shrinks (os_cache s) (os_cache s');
  sh_pairs : os_pairs s' = os_pairs s }.

#[global] Instance shrinks_preorder S : PreOrder (@shrinks S).
Proof.
  split; [intros s; split; [by intros p|done]|]. intros a b c [A1 A2] [B1 B2]. split; [|congruence].
  intros p Hp. by apply A1, B1.
Qed.

Lemma setOrderIDs_tracks k l c : c_tracks c (setOrderIDs k l c).
Proof.
  split; cbn; try set_solver. intros x Hx.
  destruct l; [rewrite lookup_delete_ne|rewrite lookup_insert_ne]; set_solver.
Qed.
Lemma setDepthBook_tracks p b c : c_tracks c (setDepthBook p b c).
Proof.
  split; cbn; try set_solver. intros x Hx.
  destruct b; [rewrite lookup_delete_ne|rewrite lookup_insert_ne]; set_solver.
Qed.
Lemma insertOrder_tracks o c c' : insertOrder o c = Ok c' → c_tracks c c'.
Proof.
  unfold insertOrder. intros (b & _ & Hc)%outcome_bind_Ok. injection Hc as <-.
  split; cbn; try set_solver; intros x Hx; rewrite lookup_insert_ne; [done|set_solver|done|set_solver].
Qed.
Lemma closeOrder_tracks id c : c_tracks c (closeOrder id c).
Proof. by split. Qed.
Lemma removeOrder_tracks o c c' : removeOrder o c = Ok c' → c_tracks c c'.
Proof.
  unfold removeOrder. intros (c1 & H1 & Hc)%outcome_bind_Ok. injection Hc as <-.
  transitivity c1.
  - destruct (dc_books c !! _); [|by injection H1 as <-].
    apply outcome_bind_Ok in H1 as (b & _ & H1). injection H1 as <-. apply setDepthBook_tracks.
  - destruct (removeID _ _); [|apply closeOrder_tracks].
    etransitivity; [apply setOrderIDs_tracks|apply closeOrder_tracks].
Qed.
Lemma removeOrder_shrinks o c c' : removeOrder o c = Ok c' → c_shrinks c c'.
Proof.
  unfold removeOrder. intros (c1 & H1 & Hc)%outcome_bind_Ok. injection Hc as <-.
  assert (c_shrinks c c1) as Hs.
  { destruct (dc_books c !! Od_Product o) as [b0|] eqn:Eb; [|injection H1 as <-; by intros p].
    apply outcome_bind_Ok in H1 as (b & _ & H1). injection H1 as <-. intros p. cbn.
    destruct (decide (Od_Product o = p)) as [<-|]; [rewrite Eb; eauto|].
    destruct b; [by rewrite lookup_delete_ne|by rewrite lookup_insert_ne]. }
  by destruct (removeID _ _); intros p Hp; apply Hs.
Qed.

Section Tracking.
Context {S : Type} `{CoinKeeper S} (feeCollectorName : string).
Implicit Types s : OrderState S.

Lemma tracks_on_cache f : (∀ c, c_tracks c (f c)) → frames (@tracks S) (on_cache f).
Proof. intros Hf. apply frames_modify. intros s. by split; [apply Hf|..]. Qed.
Lemma tracks_try f : (∀ c c', f c = Ok c' → c_tracks c c') → frames (@tracks S) (on_cache_try f).
Proof.
  intros Hf s. unfold on_cache_try, on_cache. cbv [mbind M_bind gets lift modify].
  destruct (f (os_cache s)) as [c'|e|m] eqn:E; cbn; [|done..]. split; cbn; [by apply Hf|done..].
Qed.
Lemma tracks_token {A} (m : M (TokenState S) A) : frames (@tracks S) (os_on_token m).
Proof. intros s. unfold os_on_token, zoom. destruct (m (os_token s)) as [r t]. by split. Qed.
Lemma tracks_setOrder id o : frames (@tracks S) (SetOrder id o).
Proof. apply frames_modify. by split. Qed.
Lemma tracks_setNum h n : frames (@tracks S) (SetBlockOrderNum h n).
Proof. apply frames_modify. by split. Qed.
Lemma tracks_setLastPrice p x : frames (@tracks S) (SetLastPrice p x).
Proof. apply frames_modify. by split. Qed.
Hint Resolve tracks_token tracks_setOrder tracks_setNum tracks_setLastPrice : frames.

Lemma tracks_lock a cs t : frames (@tracks S) (Order_LockCoins a cs t).
Proof. unfold Order_LockCoins. frame_tac. Qed.
Lemma tracks_unlock a cs t : frames (@tracks S) (Order_UnlockCoins a cs t).
Proof. unfold Order_UnlockCoins. frame_tac. Qed.
Lemma tracks_collect cs a : frames (@tracks S) (AddCollectedFees feeCollectorName cs a).
Proof. unfold AddCollectedFees. frame_tac. Qed.
Lemma tracks_lastPrice p : frames (@tracks S) (GetLastPrice p).
Proof. unfold GetLastPrice, GetTokenPair. frame_tac. Qed.
Lemma tracks_receiver p : frames (@tracks S) (GetProductFeeReceiver p).
Proof. unfold GetProductFeeReceiver, GetTokenPair. frame_tac. Qed.
Hint Resolve tracks_lock tracks_unlock tracks_collect tracks_lastPrice tracks_receiver : frames.
Lemma tracks_toOwner cs a p : frames (@tracks S) (SendFeesToProductOwner cs a p).
Proof. unfold SendFeesToProductOwner. frame_tac. Qed.
Lemma tracks_orEmpty m : frames (@tracks S) m → frames (@tracks S) (orEmpty m).
Proof. intros Hm s. specialize (Hm s). unfold orEmpty. by destruct (m s) as [[?|?|?] ?]. Qed.
Hint Resolve tracks_toOwner tracks_orEmpty : frames.
Lemma tracks_charge h o q r : frames (@tracks S) (chargeFee feeCollectorName h o q r).
Proof. unfold chargeFee. frame_tac. Qed.
Lemma tracks_balance o p q : frames (@tracks S) (balanceAccount o p q).
Proof. unfold balanceAccount, Order_BalanceAccount. frame_tac. Qed.
Lemma tracks_close id : frames (@tracks S) (on_cache (closeOrder id)).
Proof. apply tracks_on_cache. intros c. apply closeOrder_tracks. Qed.
Hint Resolve tracks_close : frames.
Lemma tracks_update o : frames (@tracks S) (UpdateOrder o).
Proof. unfold UpdateOrder. frame_tac. Qed.
Lemma tracks_insert o : frames (@tracks S) (on_cache_try (insertOrder o)).
Proof. apply tracks_try. intros c c'. apply insertOrder_tracks. Qed.
Lemma tracks_remove o : frames (@tracks S) (on_cache_try (removeOrder o)).
Proof. apply tracks_try. intros c c'. apply removeOrder_tracks. Qed.
Lemma tracks_setBook p b : frames (@tracks S) (on_cache (setDepthBook p b)).
Proof. apply tracks_on_cache. apply setDepthBook_tracks. Qed.
Lemma tracks_setIds k l : frames (@tracks S) (on_cache (setOrderIDs k l)).
Proof. apply tracks_on_cache. apply setOrderIDs_tracks. Qed.
Hint Resolve tracks_charge tracks_balance tracks_update tracks_insert tracks_remove
  tracks_setBook tracks_setIds : frames.
Lemma tracks_place h o : frames (@tracks S) (PlaceOrder h o).
Proof. unfold PlaceOrder, TryPlaceOrder, GetBlockOrderNum. frame_tac. Qed.
Lemma tracks_quit h o : frames (@tracks S) (quitOrder feeCollectorName h o).
Proof. unfold quitOrder. frame_tac. Qed.
Lemma tracks_fill h rate o p q : frames (@tracks S) (fillOrder feeCollectorName h rate o p q).
Proof. unfold fillOrder. frame_tac. Qed.
Hint Resolve tracks_place tracks_quit tracks_fill : frames.

Lemma tracks_key_loop h rate l need price rd deals filled cnt :
  frames (@tracks S) (fillOrderByKey_loop feeCollectorName h rate l need price rd deals filled cnt).
Proof.
  revert deals filled cnt. induction l as [|id l IH]; intros deals filled cnt; cbn [fillOrderByKey_loop];
    unfold Order_GetOrder; frame_tac; apply IH.
Qed.
Hint Resolve tracks_key_loop : frames.
Lemma tracks_key h rate k need price rd :
  frames (@tracks S) (fillOrderByKey feeCollectorName h rate k need price rd).
Proof. unfold fillOrderByKey. frame_tac. Qed.
Hint Resolve tracks_key : frames.
Lemma tracks_buy_loop fuel h rate p best max b i deals e r :
  frames (@tracks S) (fillBuyOrders_loop feeCollectorName fuel h rate p best max b i deals e r).
Proof.
  revert b i deals e r. induction fuel as [|fuel IH]; intros b i deals e r; cbn [fillBuyOrders_loop];
    cbv zeta; frame_tac; apply IH.
Qed.
Lemma tracks_sell_loop n h rate p best max b deals e r :
  frames (@tracks S) (fillSellOrders_loop feeCollectorName n h rate p best max b deals e r).
Proof.
  revert b deals e r. induction n as [|n IH]; intros b deals e r; cbn [fillSellOrders_loop];
    cbv zeta; frame_tac; apply IH.
Qed.
Hint Resolve tracks_buy_loop tracks_sell_loop : frames.
Lemma tracks_depth h rate p price max be se r :
  frames (@tracks S) (fillDepthBook feeCollectorName h rate p price max be se r).
Proof. unfold fillDepthBook, fillBuyOrders, fillSellOrders. cbv zeta. frame_tac. Qed.
Hint Resolve tracks_depth : frames.

Lemma tracks_locks p l : frames (@tracks S) (SetProductLock p l).
Proof. apply frames_modify. by split. Qed.
Lemma tracks_unlockProduct p : frames (@tracks S) (UnlockProduct p).
Proof. apply frames_modify. by split. Qed.
Hint Resolve tracks_locks tracks_unlockProduct : frames.
Lemma tracks_calc h p : frames (@tracks S) (calcMatchPrice h p).
Proof. unfold calcMatchPrice, GetTokenPair. frame_tac. Qed.
Lemma tracks_matched h p r n : frames (@tracks S) (executeMatchedUpdatedProduct feeCollectorName h p r n).
Proof. unfold executeMatchedUpdatedProduct, lockProduct. cbv zeta. frame_tac. Qed.
Lemma tracks_locked h p l n : frames (@tracks S) (executeLockedProduct feeCollectorName h p l n).
Proof. unfold executeLockedProduct. cbv zeta. frame_tac. Qed.
Hint Resolve tracks_calc tracks_matched tracks_locked : frames.
Lemma tracks_calcAll h l rs : frames (@tracks S) (calcMatchPriceAndExecution h l rs).
Proof. revert rs. induction l; intros rs; cbn [calcMatchPriceAndExecution]; frame_tac. Qed.
Lemma tracks_execAll h l rs locks n : frames (@tracks S) (executeMatch feeCollectorName h l rs locks n).
Proof. revert rs n. induction l; intros rs n; cbn [executeMatch]; frame_tac. Qed.
Hint Resolve tracks_calcAll tracks_execAll : frames.
Lemma tracks_match rangeNew rangeLocks sortPairs h :
  frames (@tracks S) (matchOrders feeCollectorName rangeNew rangeLocks sortPairs h).
Proof. unfold matchOrders, GetBlockOrderNum, AnyProductLocked. frame_tac. Qed.

Lemma tracks_dropExpired h ids : frames (@tracks S) (dropExpired_loop feeCollectorName h ids).
Proof.
  induction ids; cbn [dropExpired_loop]; unfold Order_GetOrder, IsProductLocked, ExpireOrder; frame_tac.
Qed.
Hint Resolve tracks_dropExpired tracks_match : frames.
Lemma tracks_expired h e : frames (@tracks S) (DropExpiredOrdersByBlockHeight feeCollectorName h e).
Proof. unfold DropExpiredOrdersByBlockHeight. frame_tac. Qed.
Lemma tracks_cleanOrders n i h k sh arr : frames (@tracks S) (cleanOrders_loop feeCollectorName n i h k sh arr).
Proof.
  revert i arr. induction n; intros i arr; cbn [cleanOrders_loop]; unfold Order_GetOrder, CancelOrder;
    cbv zeta; frame_tac.
Qed.
Hint Resolve tracks_expired tracks_cleanOrders : frames.
Lemma tracks_delisted rangeBooks spare h :
  frames (@tracks S) (cleanupOrdersWhoseTokenPairHaveBeenDelisted feeCollectorName rangeBooks spare h).
Proof.
  unfold cleanupOrdersWhoseTokenPairHaveBeenDelisted, GetTokenPair. frame_tac.
  apply frames_for_each; [exact _|]. intros p. frame_tac.
  unfold cleanupOrdersByProduct. frame_tac. apply frames_for_each; [exact _|]. intros it.
  unfold cleanupLevel. cbv zeta. frame_tac.
Qed.
Lemma tracks_drop id : frames (@tracks S) (DropOrder id).
Proof. apply frames_modify. by split. Qed.
Lemma tracks_dropNum h : frames (@tracks S) (DropBlockOrderNum h).
Proof. apply frames_modify. by split. Qed.
Lemma tracks_storeNum n : frames (@tracks S) (on_cache (DecreaseStoreOrderNum n)).
Proof. apply tracks_on_cache. by split. Qed.

(** The messages. *)
Lemma tracks_branch {A} (m : M (OrderState S) A) : frames (@tracks S) m → frames (@tracks S) (branchWrite m).
Proof.
  intros Hm s. specialize (Hm s). unfold branchWrite. destruct (m s) as [[a|e|p] s']; [done| |done].
  cbn in *. by split; [apply Hm|..].
Qed.
Lemma tracks_new h t msg r : frames (@tracks S) (handleNewOrder h t msg r).
Proof. unfold handleNewOrder, getOrderFromMsg, checkOrderNewMsg, GetTokenPair, IsProductLocked. frame_tac. Qed.
Hint Resolve tracks_branch tracks_new : frames.
Lemma tracks_news h t items r : frames (@tracks S) (handleNewOrders_loop h t items r).
Proof. induction items; cbn [handleNewOrders_loop]; frame_tac. Qed.
Hint Resolve tracks_news : frames.
Lemma tracks_msgNew h t items : frames (@tracks S) (handleMsgNewOrders h t items).
Proof. unfold handleMsgNewOrders. cbv zeta. frame_tac. Qed.
Lemma tracks_cancel h a id : frames (@tracks S) (handleCancelOrder feeCollectorName h a id).
Proof.
  intros s. unfold handleCancelOrder.
  assert (frames (@tracks S) (validateCancelOrder a id)) as Hv
    by (unfold validateCancelOrder, Order_GetOrder, IsProductLocked; frame_tac).
  specialize (Hv s). destruct (validateCancelOrder a id s) as [[u|e|p] s1]; [|done..].
  cbn in Hv. transitivity s1; [done|].
  lazymatch goal with |- tracks _ (?m _).2 => assert (frames (@tracks S) m) as Hm; [|apply Hm] end.
  unfold Order_GetOrder, CancelOrder. frame_tac.
Qed.
Hint Resolve tracks_cancel : frames.
Lemma tracks_cancels h a ids : frames (@tracks S) (handleCancelOrders_loop feeCollectorName h a ids).
Proof. induction ids; cbn [handleCancelOrders_loop]; frame_tac. Qed.
Hint Resolve tracks_cancels : frames.
Lemma tracks_msgCancel h a ids : frames (@tracks S) (handleMsgCancelOrders feeCollectorName h a ids).
Proof. unfold handleMsgCancelOrders. frame_tac. Qed.

End Tracking.

(** ** The store and the cache *)

(** What the store holds for the keys that were not updated in this block is
    what the cache holds. *)
Record disk_ok {S} (b : BlockState S) : Prop := {
  dk_books : ∀ p, p ∉ dc_updBooks (os_cache (bk_os b)) →
    default [] (bk_dbBooks b !! p) = GetDepthBookCopy (os_cache (bk_os b)) p;
  dk_ids : ∀ k, k ∉ dc_updIds (os_cache (bk_os b)) →
    default [] (bk_dbIds b !! k) = default [] (dc_ids (os_cache (bk_os b)) !! k) }.

(** Only the order state changes, and the store of books does not. *)
Record b_tracks {S} (b b' : BlockState S) : Prop := {
  bt_os : tracks (bk_os b) (bk_os b');
  bt_books : bk_dbBooks b' = bk_dbBooks b;
  bt_ids : bk_dbIds b' = bk_dbIds b }.

#[global] Instance b_tracks_preorder S : PreOrder (@b_tracks S).
Proof.
  split; [by intros s; split|]. intros a b c [A1 A2 A3] [B1 B2 B3]. split; [|congruence..].
  by transitivity (bk_os b).
Qed.

Lemma disk_ok_tracks {S} (b b' : BlockState S) : b_tracks b b' → disk_ok b → disk_ok b'.
Proof.
  intros [[[U1 U2 T1 T2] _ _] E1 E2] [D1 D2]. split; rewrite ?E1, ?E2.
  - intros p Hp. unfold GetDepthBookCopy. rewrite T1 by done. apply D1. set_solver.
  - intros k Hk. rewrite T2 by done. apply D2. set_solver.
Qed.

(** Writing the updated keys. *)
Lemma store_fold {V} (store : string → list V → gmap string (list V) → gmap string (list V))
    (f : string → list V) l db k :
  (∀ k v db k', default [] (store k v db !! k') = if decide (k = k') then v else default [] (db !! k')) →
  default [] (foldl (λ db k, store k (f k) db) db l !! k)
  = if decide (k ∈ l) then f k else default [] (db !! k).
Proof.
  intros Hs. revert db. induction l as [|x l IH]; intros db; cbn [foldl].
  - rewrite decide_False; [done|apply not_elem_of_nil].
  - rewrite IH, Hs. destruct (decide (k ∈ l)) as [Hin|Hout].
    + rewrite decide_True; [done|by apply list_elem_of_further].
    + destruct (decide (x = k)) as [->|]; [rewrite decide_True; [done|apply list_elem_of_here]|].
      rewrite decide_False; [done|]. by intros [->|?]%elem_of_cons.
Qed.
Lemma StoreDepthBook_lookup p v db p' :
  default [] (StoreDepthBook p v db !! p') = if decide (p = p') then v else default [] (db !! p').
Proof.
  unfold StoreDepthBook. destruct v; [rewrite lookup_delete|rewrite lookup_insert];
    by destruct (decide (p = p')).
Qed.
Lemma StoreOrderIDsMap_lookup p v db p' :
  default [] (StoreOrderIDsMap p v db !! p') = if decide (p = p') then v else default [] (db !! p').
Proof.
  unfold StoreOrderIDsMap. destruct v; [rewrite lookup_delete|rewrite lookup_insert];
    by destruct (decide (p = p')).
Qed.

(** The store holds the whole cache. *)
Definition disk_synced {S} (b : BlockState S) : Prop :=
  (∀ p, default [] (bk_dbBooks b !! p) = GetDepthBookCopy (os_cache (bk_os b)) p) ∧
  (∀ k, default [] (bk_dbIds b !! k) = default [] (dc_ids (os_cache (bk_os b)) !! k)).

Lemma Cache2Disk_synced {S} (b b' : BlockState S) u :
  disk_ok b → Cache2Disk b = (Ok u, b') → disk_synced b'.
Proof.
  intros [D1 D2] ->%modify_Ok. split; cbn; intros k.
  - rewrite store_fold by apply StoreDepthBook_lookup. case_decide as Hin; [done|].
    apply D1. by rewrite <- elem_of_elements.
  - rewrite store_fold by apply StoreOrderIDsMap_lookup. case_decide as Hin; [done|].
    apply D2. by rewrite <- elem_of_elements.
Qed.
Lemma ResetCache_disk {S} (b b' : BlockState S) u :
  disk_synced b → ResetCache false b = (Ok u, b') → disk_synced b' ∧ disk_ok b'.
Proof.
  intros [D1 D2] ->%modify_Ok. split; split; cbn; intros k; try intros _; first [apply D1|apply D2].
Qed.

Section Blocks.
Context {S : Type} `{CoinKeeper S} (feeCollectorName : string).
Context (rangeBooks rangeNew rangeLocks : gset string → list string)
  (sortPairs : list TokenPair → list TokenPair) (spare : string → nat).
Implicit Types s : OrderState S.
Implicit Types b : BlockState S.

Lemma b_tracks_os {A} (m : M (OrderState S) A) : frames (@tracks S) m → frames (@b_tracks S) (on_os m).
Proof.
  intros Hm b. specialize (Hm (bk_os b)). unfold on_os, zoom. destruct (m (bk_os b)) as [r s']. by split.
Qed.
Lemma b_tracks_setExpire h l : frames (@b_tracks S) (SetExpireBlockHeight h l).
Proof. apply frames_modify. by split. Qed.
Lemma b_tracks_dropExpire h : frames (@b_tracks S) (DropExpireBlockHeight h).
Proof. apply frames_modify. by split. Qed.
Lemma b_tracks_setLast h : frames (@b_tracks S) (SetLastExpiredBlockHeight h).
Proof. apply frames_modify. by split. Qed.
Lemma b_tracks_getExpire h : frames (@b_tracks S) (GetExpireBlockHeight h).
Proof. apply frames_gets. exact _. Qed.
Hint Resolve b_tracks_os b_tracks_setExpire b_tracks_dropExpire b_tracks_setLast b_tracks_getExpire : frames.
Hint Resolve tracks_drop tracks_dropNum tracks_storeNum tracks_expired tracks_delisted tracks_match : frames.

Lemma b_tracks_Run h :
  frames (@b_tracks S) (Run feeCollectorName rangeBooks rangeNew rangeLocks sortPairs spare h).
Proof.
  unfold Run, cleanupExpiredOrders, markCurBlockToFutureExpireBlockList, cleanLastBlockClosedOrders,
    cacheExpiredBlockToCurrentHeight, AnyProductLocked. cbv zeta.
  assert (frames (@b_tracks S) (on_os (gets os_params))) by (apply b_tracks_os, frames_gets; exact _).
  assert (∀ f : OrderState S → bool, frames (@b_tracks S) (on_os (gets f)))
    by (intros f; apply b_tracks_os, frames_gets; exact _).
  frame_tac; apply frames_for_each; try exact _; intros e; unfold expireHeight, dropHeight; frame_tac;
    apply frames_for_each; try exact _; intros e'; frame_tac.
Qed.

(** A transaction of block [H0]: new orders, new orders that all fail, or
    cancellations. *)
Inductive tx_step (H0 : Z) : OrderState S → OrderState S → Prop :=
  | tx_new t sender items u s s' :
      MsgNewOrders_ValidateBasic sender items = Ok () →
      handleMsgNewOrders H0 t items s = (Ok u, s') → tx_step H0 s s'
  | tx_new_failed t sender items e s s' :
      MsgNewOrders_ValidateBasic sender items = Ok () →
      handleMsgNewOrders H0 t items s = (Err e, s') → tx_step H0 s (os_set_cache (os_cache s') s)
  | tx_cancel sender ids u s s' :
      handleMsgCancelOrders feeCollectorName H0 sender ids s = (Ok u, s') → tx_step H0 s s'.

Lemma tracks_tx H0 s s' : tx_step H0 s s' → tracks s s'.
Proof.
  intros [t a items u s1 s2 _ Hr|t a items e s1 s2 _ Hr|a ids u s1 s2 Hr].
  - by eapply frames_run; [apply tracks_msgNew|].
  - eapply frames_run in Hr; [|apply tracks_msgNew]. by split; [apply Hr|..].
  - by eapply frames_run; [apply tracks_msgCancel|].
Qed.
Lemma tracks_txs H0 s s' : rtc (tx_step H0) s s' → tracks s s'.
Proof. intros Hr. induction Hr; [done|]. etransitivity; [by eapply tracks_tx|done]. Qed.

(** A block: the start, its transactions, and the end. *)
Inductive block_step (H0 : Z) : BlockState S → BlockState S → Prop :=
  | mk_block b b1 s2 r b3 :
      BeginBlocker false b = (Ok (), b1) →
      rtc (tx_step H0) (bk_os b1) s2 →
      EndBlocker feeCollectorName rangeBooks rangeNew rangeLocks sortPairs spare H0 (bk_set_os s2 b1)
        = (Ok r, b3) →
      block_step H0 b b3.

(** Consecutive blocks, from height [H0] up to below height [H1]. *)
Inductive chain : Z → Z → BlockState S → BlockState S → Prop :=
  | chain_nil H0 b : chain H0 H0 b b
  | chain_block H0 H1 b b1 b2 : block_step H0 b b1 → chain (H0 + 1) H1 b1 b2 → chain H0 H1 b b2.

Lemma block_synced H0 b b' : block_step H0 b b' → disk_synced b → disk_synced b'.
Proof.
  intros [b0 b1 s2 r b3 Hb Htx He] Hs. apply ResetCache_disk in Hb as [_ Hok]; [|done].
  unfold EndBlocker in He. apply M_bind_Ok in He as (r1 & b4 & Hrun & He).
  apply M_bind_Ok in He as (u & b5 & Hc & He). apply mret_Ok in He as [-> ->].
  eapply Cache2Disk_synced; [|exact Hc].
  eapply disk_ok_tracks; [eapply frames_run; [apply b_tracks_Run|exact Hrun]|].
  eapply disk_ok_tracks; [|exact Hok]. split; [|done..]. cbn. by eapply tracks_txs.
Qed.
Lemma chain_synced H0 H1 b b' : chain H0 H1 b b' → disk_synced b → disk_synced b'.
Proof. induction 1; eauto using block_synced. Qed.

(** A node that stops keeps its stores and loses its cache. *)
Definition stopped (b : BlockState S) : BlockState S :=
  bk_set_os (os_set_cache newDiskCache (bk_os b)) b.

(** C18: a restart is not observable: after any chain of blocks, a node that
    loses its memory and reads the store back at the next start of a block
    has the same book for every product, the same order identifiers at every
    price, the same counters and the same stores as a node that goes on. *)
Theorem restart_equivalent H0 H1 b b' :
  disk_synced b → chain H0 H1 b b' →
  ∃ b1 b2, BeginBlocker true (stopped b') = (Ok (), b1) ∧ BeginBlocker false b' = (Ok (), b2) ∧
    (∀ p, GetDepthBookCopy (os_cache (bk_os b1)) p = GetDepthBookCopy (os_cache (bk_os b2)) p) ∧
    (∀ k, default [] (dc_ids (os_cache (bk_os b1)) !! k)
          = default [] (dc_ids (os_cache (bk_os b2)) !! k)) ∧
    dc_openNum (os_cache (bk_os b1)) = dc_openNum (os_cache (bk_os b2)) ∧
    dc_storeOrderNum (os_cache (bk_os b1)) = dc_storeOrderNum (os_cache (bk_os b2)) ∧
    stopped b1 = stopped b2.
Proof.
  intros Hs Hc. apply chain_synced in Hc as [D1 D2]; [|done].
  eexists _, _. split; [reflexivity|]. split; [reflexivity|].
  split; [intros p; cbn; unfold GetDepthBookCopy; cbn; rewrite (right_id_L ∅ (∪)); apply D1|].
  split; [intros k; cbn; rewrite (right_id_L ∅ (∪)); apply D2|done].
Qed.

(** ** The invariant of the blocks *)

Lemma DropOrder_keeps H0 s id :
  order_inv H0 s → dead H0 s id → keeps H0 s (os_set_orders (delete id (os_orders s)) s).
Proof.
  intros [A1 A2 A3 A4 A5 A6 A7 A8] [_ Hid].
  assert (∀ x o, delete id (os_orders s) !! x = Some o → os_orders s !! x = Some o) as Hd.
  { by intros x o [_ ?]%lookup_delete_Some. }
  assert (∀ x, dead H0 s x → dead H0 (os_set_orders (delete id (os_orders s)) s) x) as Hdead.
  { intros x [I1 I2]. split; [done|]. cbn. intros o Ho%Hd. by apply I2. }
  split; [|exact Hdead|done|cbn; intros x o Ho%Hd _; by exists o]. split; cbn; try done.
  - destruct A1 as [B1 B2 B3]. split; [eauto|done|]. intros p side price Hv Hp.
    destruct (B3 p side price Hv Hp) as (C1 & C2 & C3).
    assert (∀ x, x ∈ ids_at (dc_ids (os_cache s)) p side price → delete id (os_orders s) !! x = os_orders s !! x).
    { intros x (o & Ho & Hop & _)%C3. apply lookup_delete_ne. intros <-. by apply (Hid o). }
    split_and!; [by rewrite (remain_sum_ext (os_orders s))|done|]. intros x. rewrite C3.
    split; intros (o & Ho & Hop & Hs); exists o; split_and!; try done; [|by apply Hd].
    rewrite lookup_delete_ne; [done|]. intros <-. by apply (Hid o).
  - intros x [o Ho%Hd]. by apply A3.
  - intros x Hx. by apply Hdead, A6.
  - intros x o Ho%Hd. by apply (A7 x).
Qed.

Lemma DropBlockOrderNum_keeps H0 s e :
  order_inv H0 s → e ≠ H0 → keeps H0 s (os_set_blockOrderNum (delete e (os_blockOrderNum s)) s).
Proof.
  intros [A1 A2 A3 A4 A5 A6 A7 A8] He.
  assert (∀ x, issued H0 s x → issued H0 (os_set_blockOrderNum (delete e (os_blockOrderNum s)) s) x) as Hi.
  { intros x. apply issued_mono. cbn. by rewrite lookup_delete_ne. }
  assert (∀ x, dead H0 s x → dead H0 (os_set_blockOrderNum (delete e (os_blockOrderNum s)) s) x) as Hdead.
  { intros x [I1 I2]. by split; [apply Hi|]. }
  split; [|exact Hdead|done|cbn; intros x o Ho _; by exists o]. split; cbn; try done.
  - intros x Hx. by apply Hi, A3.
  - intros x n [_ Hx]%lookup_delete_Some. by eapply A4.
  - intros x Hx. by apply Hdead, A6.
Qed.

(** *** Matching *)

Definition results_ok (rs : gmap string MatchResult) : Prop :=
  ∀ p r, rs !! p = Some r → no_colon p ∧ 0 ≤ Mx_Quantity r.
Definition locks_ok (locks : gmap string ProductLock) : Prop :=
  ∀ p lock, locks !! p = Some lock → no_colon p ∧ 0 ≤ Pl_Quantity lock ∧
    Pl_BuyExecuted lock ≤ Pl_Quantity lock ∧ Pl_SellExecuted lock ≤ Pl_Quantity lock.

Lemma results_ok_insert rs p r :
  results_ok rs → no_colon p → 0 ≤ Mx_Quantity r → results_ok (<[p := r]> rs).
Proof. intros Hrs Hp Hq q x [[<- <-]|[_ Hx]]%lookup_insert_Some; [done|by apply Hrs]. Qed.

Lemma same_books_calc h p : frames (@same_books S) (calcMatchPrice h p).
Proof.
  unfold calcMatchPrice, GetTokenPair. pose proof (@frames_lastPrice S).
  pose proof (@frames_setLastPrice S). frame_tac.
Qed.

Lemma calcMatchPriceAndExecution_Ok H0 h l rs s rs' s' :
  order_inv H0 s → results_ok rs → calcMatchPriceAndExecution h l rs s = (Ok rs', s') →
  same_books s s' ∧ results_ok rs'.
Proof.
  revert s rs. induction l as [|p l IH]; intros s rs Hinv Hrs; cbn [calcMatchPriceAndExecution].
  { by intros [-> ->]%mret_Ok. }
  intros (r & s1 & Hr & Hrun)%M_bind_Ok.
  assert (same_books s s1) as Hsb by (eapply frames_run; [apply same_books_calc|exact Hr]).
  apply IH in Hrun as [Hsb' Hrs']; [split; [by transitivity s1|done]|by eapply same_books_inv|].
  destruct r as [r|]; [|done].
  apply calcMatchPrice_Ok in Hr as (_ & tp & ref & s2 & Hp & _ & _ & Hq & _).
  apply results_ok_insert; [done|by eapply (oi_pairs _ _ Hinv)|lia].
Qed.

Lemma executeMatch_Ok H0 h l rs locks n s rs' s' :
  order_inv H0 s → results_ok rs → locks_ok locks →
  executeMatch feeCollectorName h l rs locks n s = (Ok rs', s') → keeps H0 s s'.
Proof.
  intros Hinv Hrs Hlocks. revert s rs n Hinv Hrs.
  induction l as [|p l IH]; intros s rs n Hinv Hrs; cbn [executeMatch].
  { intros [_ ->]%mret_Ok. by apply keeps_refl. }
  destruct (rs !! p) as [r|] eqn:Hr.
  - destruct (Hrs p r Hr) as [Hp Hq]. intros ([r' n'] & s1 & Hx & Hrun)%M_bind_Ok.
    apply (executeMatched_Ok _ H0) in Hx as (Hk & _ & Eq & _); [|done..].
    eapply keeps_trans; [exact Hk|]. eapply IH; [apply Hk| |exact Hrun].
    apply results_ok_insert; [done|done|by rewrite Eq].
  - destruct (locks !! p) as [lock|] eqn:Hl; [|by apply IH].
    destruct (Hlocks p lock Hl) as (Hp & Hq & Hbe & Hse). intros ([r' n'] & s1 & Hx & Hrun)%M_bind_Ok.
    assert (∀ r, r' = Some r → 0 ≤ Mx_Quantity r) as Hr'.
    { intros r ->. unfold executeLockedProduct in Hx. destruct (n <=? 0); [by apply mret_Ok in Hx as [? _]|].
      apply M_bind_Ok in Hx as (fp & t & _ & Hx). apply M_bind_Ok in Hx as ([[[d b'] e'] n2] & t1 & _ & Hx).
      apply M_bind_Ok in Hx as (u & t2 & _ & Hx). apply mret_Ok in Hx as [[= Hx _] _].
      destruct (0 <? length d)%nat; [|done]. by injection Hx as ->. }
    apply (executeLocked_Ok _ H0) in Hx as (Hk & _); [|done..].
    eapply keeps_trans; [exact Hk|]. eapply IH; [apply Hk| |exact Hrun].
    destruct r' as [r|]; [|done]. apply results_ok_insert; auto.
Qed.

Lemma matchOrders_Ok H0 h s r s' :
  order_inv H0 s → matchOrders feeCollectorName rangeNew rangeLocks sortPairs h s = (Ok r, s') →
  keeps H0 s s'.
Proof.
  intros Hinv. unfold matchOrders. intros (n & s1 & Hn & Hrun)%M_bind_Ok. apply gets_Ok in Hn as [-> ->].
  apply M_bind_Ok in Hrun as (lk & s1 & Hn & Hrun). apply gets_Ok in Hn as [-> ->].
  destruct (_ && _); [apply mret_Ok in Hrun as [_ ->]; by apply keeps_refl|].
  apply M_bind_Ok in Hrun as (ps & s1 & Hn & Hrun). apply gets_Ok in Hn as [-> ->].
  apply M_bind_Ok in Hrun as (rs & s1 & Hc & Hrun).
  apply (calcMatchPriceAndExecution_Ok H0) in Hc as [Hsb Hrs]; [|done|by intros p x Hx].
  apply M_bind_Ok in Hrun as (locks & s2 & Hn & Hrun). apply gets_Ok in Hn as [-> ->].
  apply M_bind_Ok in Hrun as (ps2 & s2 & Hn & Hrun). apply gets_Ok in Hn as [-> ->].
  apply M_bind_Ok in Hrun as (fp & s2 & Hn & Hrun). apply gets_Ok in Hn as [-> ->].
  pose proof (same_books_keeps H0 _ _ Hsb Hinv) as Hk. eapply keeps_trans; [exact Hk|].
  eapply executeMatch_Ok; [apply Hk|done| |exact Hrun].
  intros p lock. apply (oi_locks _ _ (kp_inv _ _ _ Hk)).
Qed.

(** *** Nothing is delisted *)

Lemma cleanup_nothing H0 h s u s' :
  order_inv H0 s →
  cleanupOrdersWhoseTokenPairHaveBeenDelisted feeCollectorName rangeBooks spare h s = (Ok u, s') → s' = s.
Proof.
  intros Hinv. unfold cleanupOrdersWhoseTokenPairHaveBeenDelisted.
  intros (ps & s1 & Hn & Hrun)%M_bind_Ok. apply gets_Ok in Hn as [-> ->].
  revert Hrun. apply (for_each_inv (λ t, t = s)); [|done].
  intros p t v t' _ -> Hrun. apply M_bind_Ok in Hrun as (tp & s1 & Hn & Hrun). apply gets_Ok in Hn as [-> ->].
  destruct (os_pairs s !! p) as [tp|] eqn:Hp; [by apply mret_Ok in Hrun as [_ ->]|].
  unfold cleanupOrdersByProduct in Hrun. apply M_bind_Ok in Hrun as (c & s1 & Hn & Hrun).
  apply gets_Ok in Hn as [-> ->]. revert Hrun. apply (for_each_inv (λ t, t = s)); [|done].
  intros it t v' t'' Hit -> Hrun.
  assert (no_colon p) as Hc by (apply (oi_names _ _ Hinv); by intros E; rewrite E in Hit; apply not_elem_of_nil in Hit).
  assert (∀ side, valid_side side → ids_at (dc_ids (os_cache s)) p side (Bi_Price it) = []) as Hnone.
  { intros side Hv. destruct (ba_slot _ _ _ (oi_agree _ _ Hinv) p side (Bi_Price it) Hv Hc) as (_ & _ & Hm).
    destruct (ids_at _ _ _ _) as [|x l]; [done|]. exfalso.
    destruct (proj1 (Hm x) ltac:(apply list_elem_of_here)) as (o & Ho & Hop & <- & _).
    destruct (oi_listed _ _ Hinv _ _ Ho Hop). congruence. }
  unfold cleanupLevel in Hrun. cbv zeta in Hrun. apply M_bind_Ok in Hrun as (l1 & s1 & Hn & Hrun).
  apply gets_Ok in Hn as [-> ->]. apply M_bind_Ok in Hrun as (l2 & s1 & Hn & Hrun). apply gets_Ok in Hn as [-> ->].
  change (default [] (dc_ids (os_cache s) !! FormatOrderIDsKey p (Bi_Price it) ?sd))
    with (ids_at (dc_ids (os_cache s)) p sd (Bi_Price it)) in Hrun.
  rewrite (Hnone BuyOrder), (Hnone SellOrder) in Hrun by first [by left|by right]. by apply mret_Ok in Hrun as [_ ->].
Qed.

(** *** Expiry *)

(** Orders are at most closed. *)
Definition same_open (s s' : OrderState S) : Prop :=
  ∀ id o, os_orders s' !! id = Some o → is_open o → os_orders s !! id = Some o.
(** No order of height [e] is open, unless its product is locked. *)
Definition height_closed (e : Z) (b : BlockState S) : Prop :=
  ∀ n o, os_orders (bk_os b) !! FormatOrderID e n = Some o → is_open o →
    is_Some (os_productLocks (bk_os b) !! Od_Product o).

Record expires (H0 : Z) (b b' : BlockState S) : Prop := {
  ex_rest : b' = bk_set_os (bk_os b') b;
  ex_keeps : keeps H0 (bk_os b) (bk_os b');
  ex_locks : os_productLocks (bk_os b') = os_productLocks (bk_os b);
  ex_open : same_open (bk_os b) (bk_os b') }.

Lemma expires_refl H0 b : order_inv H0 (bk_os b) → expires H0 b b.
Proof. intros Hi. split; [by destruct b|by apply keeps_refl|done|by intros id o]. Qed.
Lemma expires_trans H0 b1 b2 b3 : expires H0 b1 b2 → expires H0 b2 b3 → expires H0 b1 b3.
Proof.
  intros [A1 A2 A3 A4] [B1 B2 B3 B4]. split.
  - rewrite B1, A1. by destruct b1.
  - by eapply keeps_trans.
  - congruence.
  - intros id o Ho Hop. apply A4; [|done]. by apply B4.
Qed.
Lemma height_closed_expires H0 e b b' : height_closed e b → expires H0 b b' → height_closed e b'.
Proof.
  intros Hc [_ _ El Ho] n o Hn Hop. rewrite El. apply (Hc n); [|done]. by apply Ho.
Qed.

Lemma DropExpired_Ok H0 cur e b u b' :
  order_inv H0 (bk_os b) →
  on_os (DropExpiredOrdersByBlockHeight feeCollectorName cur e) b = (Ok u, b') →
  expires H0 b b' ∧ height_closed e b'.
Proof.
  intros Hinv (s' & Hrun & ->)%zoom_Ok. unfold DropExpiredOrdersByBlockHeight in Hrun.
  apply M_bind_Ok in Hrun as (ids & s1 & Hg & Hrun). apply gets_Ok in Hg as [-> ->].
  apply (dropExpired_loop_Ok _ H0) in Hrun as (Hk & El & Hout & Hin); [|done|apply orders_of_height_NoDup].
  assert (same_open (bk_os b) s') as Hso.
  { intros id o Ho Hop. destruct (decide (id ∈ orders_of_height (bk_os b) e)) as [Hi|Hi];
      [by eapply Hin|by rewrite <- Hout]. }
  split; [by split|]. intros n o Ho Hop. cbn in *. rewrite El. apply (Hin (FormatOrderID e n)); [|done..].
  apply elem_of_orders_of_height. split; [apply FormatOrderIDPrefix_own|]. rewrite (Hso _ _ Ho Hop). eauto.
Qed.

Lemma expireHeight_Ok H0 cur height b u b' :
  order_inv H0 (bk_os b) → expireHeight feeCollectorName cur height b = (Ok u, b') →
  expires H0 b b' ∧ ∀ e, e ∈ default [] (bk_expire b' !! height) → height_closed e b'.
Proof.
  intros Hinv. unfold expireHeight. intros (l & b1 & Hg & Hrun)%M_bind_Ok. apply gets_Ok in Hg as [-> ->].
  apply (for_each_each (expires H0) (λ b, order_inv H0 (bk_os b)) height_closed) in Hrun as [Hx Hall];
    [|apply expires_refl|apply expires_trans|by intros ?? [_ [? _] _ _]|apply height_closed_expires
     |intros e b1 u1 b2 _; apply DropExpired_Ok|done].
  split; [done|]. rewrite (ex_rest _ _ _ Hx). cbn. rewrite <- (ex_rest _ _ _ Hx). exact Hall.
Qed.

Lemma elem_of_heights x h n : x ∈ heights h n ↔ h ≤ x < h + Z.of_nat n.
Proof.
  revert h. induction n as [|n IH]; intros h; cbn [heights].
  - rewrite elem_of_nil. lia.
  - rewrite elem_of_cons, IH. lia.
Qed.

(** Forgetting the counters of blocks whose orders are closed. *)
Record drops (H0 : Z) (b b' : BlockState S) : Prop := {
  dr_keeps : keeps H0 (bk_os b) (bk_os b');
  dr_orders : os_orders (bk_os b') = os_orders (bk_os b);
  dr_locks : os_productLocks (bk_os b') = os_productLocks (bk_os b);
  dr_params : os_params (bk_os b') = os_params (bk_os b);
  dr_last : bk_lastExpired b' = bk_lastExpired b;
  dr_future : ∀ h, H0 ≤ h → bk_expire b' !! h = bk_expire b !! h;
  dr_sub : ∀ h l, bk_expire b' !! h = Some l → bk_expire b !! h = Some l }.

Lemma drops_refl H0 b : order_inv H0 (bk_os b) → drops H0 b b.
Proof. by intros Hi; split; [apply keeps_refl|..]. Qed.
Lemma drops_trans H0 b1 b2 b3 : drops H0 b1 b2 → drops H0 b2 b3 → drops H0 b1 b3.
Proof.
  intros [A1 A2 A3 A4 A5 A6 A7] [B1 B2 B3 B4 B5 B6 B7]. split; try congruence; [by eapply keeps_trans| |auto].
  intros h Hh. by rewrite B6, A6.
Qed.

(** What holds at every point of the end of block [H0]. *)
Record mid_inv (H0 : Z) (b : BlockState S) : Prop := {
  mi_order : order_inv H0 (bk_os b);
  mi_expire : ∀ h l e, bk_expire b !! h = Some l → e ∈ l → e ≤ h;
  mi_params : 0 ≤ Op_OrderExpireBlocks (os_params (bk_os b)) }.

Lemma dropHeight_Ok H0 height b u b' :
  mid_inv H0 b → height < H0 → dropHeight height b = (Ok u, b') → drops H0 b b' ∧ mid_inv H0 b'.
Proof.
  intros [Hinv Hexp Hpar] Hlt. unfold dropHeight. intros (l & b1 & Hg & Hrun)%M_bind_Ok.
  apply gets_Ok in Hg as [-> ->]. apply M_bind_Ok in Hrun as (u1 & b1 & Hl & Hrun). apply modify_Ok in Hrun as ->.
  apply (for_each_each (drops H0) (λ b, order_inv H0 (bk_os b)) (λ _ _, True)) in Hl as [Hd _];
    [|apply drops_refl|apply drops_trans|by intros ?? [[? _]]|done| |done].
  - assert (order_inv H0 (bk_os b1)) as Hi1 by apply Hd.
    assert (drops H0 b1 (bk_set_expire (delete height (bk_expire b1)) b1)) as Hd'.
    { split; cbn; try done.
      - by apply keeps_refl.
      - intros h Hh. apply lookup_delete_ne. lia.
      - by intros h l [_ ?]%lookup_delete_Some. }
    pose proof (drops_trans _ _ _ _ Hd Hd') as Hx. split; [exact Hx|]. split; [apply Hx| |].
    + intros h l e He%(dr_sub _ _ _ Hx). by apply Hexp.
    + by rewrite (dr_params _ _ _ Hx).
  - intros e c v c' He Hc (s' & Hrun & ->)%zoom_Ok. apply modify_Ok in Hrun as ->. split; [|done].
    split; try done. cbn. apply DropBlockOrderNum_keeps; [done|].
    destruct (bk_expire b !! height) as [l|] eqn:El; [|by apply not_elem_of_nil in He].
    specialize (Hexp _ _ _ El He). lia.
Qed.

(** The height up to which expiry has been handled. *)
Definition handled (H0 : Z) (b : BlockState S) : Z :=
  if bk_lastExpired b =? 0 then H0 - 1 else bk_lastExpired b.

Lemma expires_mid H0 b b' :
  mid_inv H0 b → os_params (bk_os b') = os_params (bk_os b) → expires H0 b b' → mid_inv H0 b'.
Proof.
  intros [M1 M2 M3] Ep [E1 [E2 _] _ _]. split; [done| |by rewrite Ep]. by rewrite E1.
Qed.

Lemma drop_heights_Ok H0 b n first u b2 :
  mid_inv H0 b → first ≤ H0 - Z.of_nat n → for_each dropHeight (heights first n) b = (Ok u, b2) →
  drops H0 b b2 ∧ mid_inv H0 b2.
Proof.
  intros Hm Hn Hrun.
  apply (for_each_each (λ x y, drops H0 x y ∧ mid_inv H0 y) (mid_inv H0) (λ _ _, True)) in Hrun as [Hd _];
    [done|intros c Hc; split; [apply drops_refl, Hc|done]|intros ??? [? _] [? ?]; split; [by eapply drops_trans|done]
    |by intros ?? [_ ?]|done| |done].
  intros h c v c' Hh%elem_of_heights Hc Hx. split; [|done]. eapply dropHeight_Ok; [done| |exact Hx]. lia.
Qed.

Lemma cacheExpired_Ok H0 b u b' :
  mid_inv H0 b → 1 < H0 → cacheExpiredBlockToCurrentHeight feeCollectorName H0 b = (Ok u, b') →
  mid_inv H0 b' ∧ keeps H0 (bk_os b) (bk_os b') ∧
  os_productLocks (bk_os b') = os_productLocks (bk_os b) ∧
  (∀ h e, handled H0 b < h ≤ H0 → e ∈ default [] (bk_expire b !! h) → height_closed e b') ∧
  (os_productLocks (bk_os b) ≠ ∅ → bk_lastExpired b' = bk_lastExpired b ∧ bk_expire b' = bk_expire b) ∧
  (os_productLocks (bk_os b) = ∅ → bk_lastExpired b' = Z.max (handled H0 b) H0 ∧
    ∀ h, H0 ≤ h → bk_expire b' !! h = bk_expire b !! h).
Proof.
  intros Hmid HH. unfold cacheExpiredBlockToCurrentHeight. intros (last & c & Hg & Hrun)%M_bind_Ok.
  apply gets_Ok in Hg as [-> ->]. cbv zeta in Hrun. fold (handled H0 b) in Hrun.
  apply M_bind_Ok in Hrun as (u1 & b1 & Hx & Hrun).
  assert (os_params (bk_os b1) = os_params (bk_os b)) as Ep.
  { assert (b_tracks b b1) as Hbt; [|apply Hbt]. eapply frames_run; [|exact Hx].
    apply frames_for_each; [exact _|]. intros h. unfold expireHeight. frame_tac.
    apply frames_for_each; [exact _|]. intros e. apply b_tracks_os, tracks_expired. }
  apply (for_each_each (expires H0) (λ b, order_inv H0 (bk_os b))
    (λ h b, ∀ e, e ∈ default [] (bk_expire b !! h) → height_closed e b)) in Hx as [Hx Hall];
    [|apply expires_refl|apply expires_trans|by intros ?? [_ [? _] _ _]| |intros h b2 u2 b3 _; apply expireHeight_Ok
     |apply Hmid].
  2:{ intros h b2 b3 Hq Hb. rewrite (ex_rest _ _ _ Hb). cbn. rewrite <- (ex_rest _ _ _ Hb). intros e He.
      eapply height_closed_expires; [by apply Hq|done]. }
  apply (expires_mid _ _ b1) in Hmid; [|done..].
  assert (∀ h e, handled H0 b < h ≤ H0 → e ∈ default [] (bk_expire b !! h) → height_closed e b1) as Hcl.
  { intros h e Hh He. apply (Hall h); [apply elem_of_heights; lia|]. by rewrite (ex_rest _ _ _ Hx). }
  assert (bk_expire b1 = bk_expire b ∧ bk_lastExpired b1 = bk_lastExpired b) as [Ee El]
    by (rewrite (ex_rest _ _ _ Hx); by split).
  apply M_bind_Ok in Hrun as (lk & b2 & Hg & Hrun). apply zoom_Ok in Hg as (s2 & Hg & ->).
  apply gets_Ok in Hg as [-> ->].
  replace (bk_set_os (bk_os b1) b1) with b1 in Hrun by (by destruct b1).
  rewrite (ex_locks _ _ _ Hx) in Hrun. case_bool_decide as Hlk.
  - apply mret_Ok in Hrun as [_ ->]. split_and!; [done|apply Hx|apply Hx|done|done|done].
  - rewrite (proj2 (Z.gtb_lt _ _) HH) in Hrun. apply M_bind_Ok in Hrun as (u2 & b2 & Hd & Hrun).
    apply modify_Ok in Hrun as ->.
    assert (mid_inv H0 b2 ∧ drops H0 b1 b2) as [Hm2 Hd2].
    { destruct (decide (handled H0 b ≤ H0)) as [Hle|Hle].
      - apply (drop_heights_Ok H0) in Hd as [? ?]; [done..|lia].
      - replace (Z.to_nat (H0 - handled H0 b)) with O in Hd by lia. apply mret_Ok in Hd as [_ ->].
        split; [done|]. apply drops_refl, Hmid. }
    destruct Hm2 as [M1 M2 M3]. split; [by split|].
    split; [eapply keeps_trans; [apply Hx|apply Hd2]|].
    split; [cbn; rewrite (dr_locks _ _ _ Hd2); apply Hx|]. split; [|split; [done|]].
    + intros h e Hh He n o. cbn. rewrite (dr_orders _ _ _ Hd2), (dr_locks _ _ _ Hd2). by apply (Hcl h e).
    + intros _. split; [done|]. intros h Hh. cbn. by rewrite (dr_future _ _ _ Hd2), Ee.
Qed.

(** *** A block *)

Record block_inv (H0 : Z) (b : BlockState S) : Prop := {
  bi_mid : mid_inv H0 b;
  bi_last : ∀ id, id ∈ bk_lastClosed b → dead H0 (bk_os b) id }.

Lemma Begin_Ok H0 b u b' :
  block_inv H0 b → BeginBlocker false b = (Ok u, b') →
  block_inv H0 b' ∧ keeps H0 (bk_os b) (bk_os b') ∧ b' = bk_set_os (bk_os b') b ∧
  os_params (bk_os b') = os_params (bk_os b).
Proof.
  intros [[M1 M2 M3] Hl] ->%modify_Ok.
  assert (order_inv H0 (os_set_cache (resetCache b (os_cache (bk_os b))) (bk_os b))) as Hi.
  { destruct M1 as [A1 A2 A3 A4 A5 A6 A7 A8]. split; try done. by intros id ?%not_elem_of_nil. }
  split; [by split|]. split; [|by split]. split; [done..|]. cbn. intros id o Ho _. by exists o.
Qed.

Lemma tx_keeps H0 s s' : 0 ≤ H0 → tx_step H0 s s' → order_inv H0 s → keeps H0 s s'.
Proof.
  intros Hh [t a items u s1 s2 Hv Hr|t a items e s1 s2 Hv Hr|a ids u s1 s2 Hr] Hinv.
  - by eapply handleMsgNewOrders_Ok.
  - by eapply handleMsgNewOrders_Err.
  - unfold handleMsgCancelOrders in Hr. apply M_bind_Ok in Hr as (rs & s3 & Hl & Hr).
    apply guard_not_Ok in Hr as [_ ->]. by eapply handleCancelOrders_loop_inv.
Qed.
Lemma txs_keeps H0 s s' : 0 ≤ H0 → rtc (tx_step H0) s s' → order_inv H0 s → keeps H0 s s'.
Proof.
  intros Hh Hr. induction Hr as [s|s1 s2 s3 Hs _ IH]; intros Hinv; [by apply keeps_refl|].
  apply tx_keeps in Hs; [|done..]. eapply keeps_trans; [exact Hs|]. apply IH, Hs.
Qed.

Lemma mark_Ok H0 b u b' :
  block_inv H0 b → markCurBlockToFutureExpireBlockList H0 b = (Ok u, b') →
  block_inv H0 b' ∧ bk_os b' = bk_os b ∧ bk_lastExpired b' = bk_lastExpired b ∧
  (∀ h e, e ∈ default [] (bk_expire b !! h) → e ∈ default [] (bk_expire b' !! h)) ∧
  H0 ∈ default [] (bk_expire b' !! (H0 + Op_OrderExpireBlocks (os_params (bk_os b)))).
Proof.
  intros [[M1 M2 M3] Hl]. unfold markCurBlockToFutureExpireBlockList. intros (fp & b1 & Hg & Hrun)%M_bind_Ok.
  apply zoom_Ok in Hg as (s1 & Hg & ->). apply gets_Ok in Hg as [-> ->].
  replace (bk_set_os (bk_os b) b) with b in Hrun by (by destruct b). cbv zeta in Hrun.
  apply M_bind_Ok in Hrun as (l & b1 & Hg & Hrun). apply gets_Ok in Hg as [-> ->]. apply modify_Ok in Hrun as ->.
  split; [|split_and!; [done..| |]]; cbn.
  - split; [|done]. split; [done| |done]. cbn. intros h l e [[<- <-]|[_ Hx]]%lookup_insert_Some; [|by apply M2].
    intros [He|He%list_elem_of_singleton]%elem_of_app; [|lia].
    destruct (bk_expire b !! _) eqn:E; [by eapply M2|by apply not_elem_of_nil in He].
  - intros h e He. destruct (decide (H0 + Op_OrderExpireBlocks (os_params (bk_os b)) = h)) as [<-|].
    + rewrite lookup_insert_eq. cbn. apply elem_of_app. by left.
    + by rewrite lookup_insert_ne.
  - rewrite lookup_insert_eq. cbn. apply elem_of_app. right. by apply list_elem_of_singleton.
Qed.

Lemma cleanLast_Ok H0 b u b' :
  block_inv H0 b → cleanLastBlockClosedOrders b = (Ok u, b') →
  block_inv H0 b' ∧ keeps H0 (bk_os b) (bk_os b') ∧ b' = bk_set_os (bk_os b') b ∧
  os_params (bk_os b') = os_params (bk_os b) ∧ os_productLocks (bk_os b') = os_productLocks (bk_os b).
Proof.
  intros Hb. unfold cleanLastBlockClosedOrders. intros (l & b1 & Hg & Hrun)%M_bind_Ok.
  apply gets_Ok in Hg as [-> ->]. apply M_bind_Ok in Hrun as (u1 & b1 & Hl & Hrun).
  set (R := λ x y : BlockState S, keeps H0 (bk_os x) (bk_os y) ∧ y = bk_set_os (bk_os y) x ∧
    os_params (bk_os y) = os_params (bk_os x) ∧ os_productLocks (bk_os y) = os_productLocks (bk_os x)).
  assert (∀ x y, block_inv H0 x → R x y → block_inv H0 y) as HR.
  { intros x y [[M1 M2 M3] Hx] (K & E & Ep & _). split; [split; [apply K|by rewrite E|by rewrite Ep]|].
    rewrite E. cbn. intros id Hid. by apply (kp_dead _ _ _ K), Hx. }
  assert (∀ x y z, R x y → R y z → R x z) as Htr.
  { intros x y z (K & E & Ep & Ek) (K' & E' & Ep' & Ek'). split_and!; [by eapply keeps_trans| |congruence..].
    rewrite E', E. by destruct x. }
  assert (∀ y, R b y → block_inv H0 y ∧ R b y) as Hend by (intros y Hy; split; [by eapply HR|done]).
  apply Hend. clear Hend.
  apply (for_each_inv (λ y, R b y)) in Hl.
  - apply zoom_Ok in Hrun as (s2 & Hrun & ->). apply modify_Ok in Hrun as ->. eapply Htr; [exact Hl|].
    split; [|by split_and!]. cbn. apply same_books_keeps; [by split|apply Hl].
  - intros id y v y' Hid Hy Hrun'. eapply Htr; [exact Hy|]. apply zoom_Ok in Hrun' as (s2 & Hrun' & ->).
    apply modify_Ok in Hrun' as ->. split; [|by split_and!]. cbn. apply DropOrder_keeps; [apply Hy|].
    by apply (kp_dead _ _ _ (proj1 Hy)), (bi_last _ _ Hb).
  - split_and!; [|by destruct b|done..]. apply keeps_refl, Hb.
Qed.

Lemma issued_past H0 s h n : 0 ≤ h < H0 → 1 ≤ n → issued H0 s (FormatOrderID h n).
Proof. intros Hh Hn. exists h, n. split_and!; [done|lia|lia|left; lia]. Qed.

(** The life of an order in blocks. *)
Definition life (b : BlockState S) : Z := Op_OrderExpireBlocks (os_params (bk_os b)).

Lemma Run_params h b r b' :
  Run feeCollectorName rangeBooks rangeNew rangeLocks sortPairs spare h b = (Ok r, b') → life b' = life b.
Proof.
  intros Hrun. unfold life. eapply (frames_run b_tracks) in Hrun; [|apply b_tracks_Run].
  by rewrite (tk_params _ _ (bt_os _ _ Hrun)).
Qed.

Lemma End_Ok H0 b r b' :
  block_inv H0 b → 1 < H0 →
  EndBlocker feeCollectorName rangeBooks rangeNew rangeLocks sortPairs spare H0 b = (Ok r, b') →
  block_inv H0 b' ∧ (∀ id, dead H0 (bk_os b) id → dead H0 (bk_os b') id) ∧ life b' = life b ∧
  ∃ lists : gmap Z (list Z),
    (∀ h e, e ∈ default [] (bk_expire b !! h) ∨ e = H0 ∧ h = H0 + life b → e ∈ default [] (lists !! h)) ∧
    (os_productLocks (bk_os b) ≠ ∅ → bk_lastExpired b' = bk_lastExpired b ∧ bk_expire b' = lists) ∧
    (os_productLocks (bk_os b) = ∅ → bk_lastExpired b' = Z.max (handled H0 b) H0 ∧
      (∀ h, H0 ≤ h → bk_expire b' !! h = lists !! h) ∧
      ∀ h e n o, handled H0 b < h ≤ H0 → e ∈ default [] (lists !! h) →
        0 ≤ e < H0 → 1 ≤ n → os_orders (bk_os b') !! FormatOrderID e n = Some o → ¬ is_open o).
Proof.
  intros Hb HH. unfold EndBlocker. intros (r0 & b5 & Hrun & Hrest)%M_bind_Ok.
  apply M_bind_Ok in Hrest as (u0 & b6 & Hd & Hrest). apply mret_Ok in Hrest as [-> ->].
  apply modify_Ok in Hd. pose proof (Run_params _ _ _ _ Hrun) as Elife.
  assert (bk_os b6 = bk_os b5 ∧ bk_expire b6 = bk_expire b5 ∧ bk_lastExpired b6 = bk_lastExpired b5 ∧
    bk_lastClosed b6 = dc_closed (os_cache (bk_os b5))) as (E1 & E2 & E3 & E4) by (by subst b6).
  clear Hd. unfold Run in Hrun. apply M_bind_Ok in Hrun as (u1 & b3 & He & Hrun).
  unfold cleanupExpiredOrders in He. apply M_bind_Ok in He as (u2 & b1 & Hm & He).
  apply M_bind_Ok in He as (u3 & b2 & Hl & He).
  apply (mark_Ok H0) in Hm as (B1 & Os & La & Li1 & Li2); [|done].
  apply (cleanLast_Ok H0) in Hl as (B2 & K2 & Eb2 & Ep2 & Ek2); [|done]. rewrite Os in K2, Ep2, Ek2.
  apply cacheExpired_Ok in He as (M3 & K3 & Ek3 & Hcl & Hlk & Hnl); [|apply B2|done].
  apply M_bind_Ok in Hrun as (u4 & b4 & Hc & Hmt). apply zoom_Ok in Hc as (s4 & Hc & ->).
  apply (cleanup_nothing H0) in Hc; [|apply M3]. subst s4.
  replace (bk_set_os (bk_os b3) b3) with b3 in Hmt by (by destruct b3).
  apply zoom_Ok in Hmt as (s5 & Hmt & ->). apply (matchOrders_Ok H0) in Hmt; [|apply M3].
  cbn in E1, E2, E3, E4. unfold life in Elife |- *. cbn in Elife. rewrite E1.
  assert (∀ id, dead H0 (bk_os b) id → dead H0 s5 id) as Hdead.
  { intros id Hid. by apply (kp_dead _ _ _ Hmt), (kp_dead _ _ _ K3), (kp_dead _ _ _ K2). }
  assert (bk_expire b2 = bk_expire b1 ∧ handled H0 b2 = handled H0 b) as [Ee2 Eh2].
  { rewrite Eb2. split; [done|]. unfold handled. cbn. by rewrite La. }
  assert (bk_lastExpired b2 = bk_lastExpired b1) as El2 by (by rewrite Eb2).
  rewrite Ek2 in *. rewrite Eh2 in *. rewrite Ee2 in *.
  split_and!; [|done|done|exists (bk_expire b1); split_and!].
  - split; [split|]; rewrite ?E1, ?E2, ?E4; [apply Hmt|apply M3| |].
    + rewrite Elife. apply Hb.
    + intros id. apply (oi_closed _ _ (kp_inv _ _ _ Hmt)).
  - intros h e [He|[-> ->]]; [by apply Li1|done].
  - intros Hne. destruct (Hlk Hne) as [L1 L2]. rewrite E3, E2, L1, L2, El2. done.
  - intros He. destruct (Hnl He) as [L1 L2]. rewrite E3, E2. split; [done|]. split; [done|].
    intros h e n o Hh Hin Hen Hn Ho Hop. specialize (Hcl h e Hh Hin n).
    assert (dead H0 (bk_os b3) (FormatOrderID e n)) as Hde.
    { split; [by apply issued_past|]. intros x Hx Hxo. destruct (Hcl x Hx Hxo) as [lk Hlx]. rewrite Ek3, He in Hlx. done. }
    by apply (kp_dead _ _ _ Hmt) in Hde as [_ Hde]; eapply Hde.
Qed.

(** *** Chains *)

Lemma block_inv_next H0 b : block_inv H0 b → block_inv (H0 + 1) b.
Proof.
  intros [[M1 M2 M3] Hl]. split; [split; [by apply order_inv_next|done..]|].
  intros id Hid. by apply dead_next, Hl.
Qed.

Lemma Begin_txs_Ok H0 b u b1 s2 :
  block_inv H0 b → 1 < H0 → BeginBlocker false b = (Ok u, b1) → rtc (tx_step H0) (bk_os b1) s2 →
  block_inv H0 (bk_set_os s2 b1) ∧ keeps H0 (bk_os b) s2 ∧
  bk_expire b1 = bk_expire b ∧ bk_lastExpired b1 = bk_lastExpired b ∧ life (bk_set_os s2 b1) = life b.
Proof.
  intros Hb HH Hbeg Htx. apply (Begin_Ok H0) in Hbeg as ([[M1 M2 M3] Hl] & K1 & E1 & Ep1); [|done].
  pose proof (txs_keeps H0 _ _ ltac:(lia) Htx M1) as K2. apply tracks_txs in Htx.
  split_and!; [|by eapply keeps_trans|by rewrite E1..|].
  - split; [split; [apply K2|done|cbn; by rewrite (tk_params _ _ Htx)]|].
    intros id Hid. by apply (kp_dead _ _ _ K2), Hl.
  - unfold life. cbn. by rewrite (tk_params _ _ Htx), Ep1.
Qed.

Lemma block_step_inv H0 b b' : 1 < H0 → block_step H0 b b' → block_inv H0 b → block_inv (H0 + 1) b'.
Proof.
  intros HH [b0 b1 s2 r b3 Hbeg Htx Hend] Hb.
  eapply Begin_txs_Ok in Hbeg as (Hb1 & _); [|done..].
  apply (End_Ok H0) in Hend as (Hb2 & _); [|done..]. by apply block_inv_next.
Qed.

Lemma chain_inv H0 H1 b b' : 1 < H0 → chain H0 H1 b b' → block_inv H0 b → block_inv H1 b'.
Proof.
  intros HH Hc. revert HH. induction Hc as [H0 b|H0 H1 b b1 b2 Hs _ IH]; intros HH Hb; [done|].
  apply IH; [lia|]. by eapply block_step_inv.
Qed.

(** What expiry has done and still has to do, for the orders from height
    [H1] on. *)
Record expiry_inv (H1 H0 : Z) (b : BlockState S) : Prop := {
  ei_last : 0 < bk_lastExpired b < H0;
  ei_lists : ∀ h, H1 ≤ h < H0 → bk_lastExpired b < h + life b →
    h ∈ default [] (bk_expire b !! (h + life b));
  ei_closed : ∀ h n, H1 ≤ h → 0 ≤ h → 1 ≤ n → h + life b ≤ bk_lastExpired b →
    dead H0 (bk_os b) (FormatOrderID h n) }.

Lemma handled_last H1 H0 b : expiry_inv H1 H0 b → handled H0 b = bk_lastExpired b.
Proof. intros [Hl _ _]. unfold handled. destruct (Z.eqb_spec (bk_lastExpired b) 0); lia. Qed.

Lemma End_expiry H1 H0 b r b' :
  block_inv H0 b → 1 < H0 → H1 ≤ H0 → 1 ≤ life b → expiry_inv H1 H0 b →
  EndBlocker feeCollectorName rangeBooks rangeNew rangeLocks sortPairs spare H0 b = (Ok r, b') →
  expiry_inv H1 (H0 + 1) b' ∧ (os_productLocks (bk_os b) = ∅ → bk_lastExpired b' = H0).
Proof.
  intros Hb HH HH1 Hlife Hei Hend. pose proof (handled_last _ _ _ Hei) as Eh. destruct Hei as [E1 E2 E3].
  apply (End_Ok H0) in Hend as (_ & Hdead & El & lists & Hlists & Hlk & Hnl); [|done..]. rewrite Eh in Hnl.
  destruct (decide (os_productLocks (bk_os b) = ∅)) as [He|Hne].
  - destruct (Hnl He) as (N1 & N2 & N3). split; [|intros _; lia]. split; rewrite ?El; [lia| |].
    + intros h Hh Hlt. rewrite N2 by lia. apply Hlists.
      destruct (decide (h = H0)) as [->|]; [by right|left; apply E2; lia].
    + intros h n Hh Hh0 Hn Hle. apply dead_next.
      destruct (decide (h + life b ≤ bk_lastExpired b)) as [Hd|Hd]; [by apply Hdead, E3|].
      split; [apply issued_past; lia|]. intros o. apply (N3 (h + life b) h); [lia| |lia|done].
      apply Hlists. left. apply E2; lia.
  - destruct (Hlk Hne) as [L1 L2]. split; [|done]. split; rewrite ?El, ?L1, ?L2; [lia| |].
    + intros h Hh Hlt. apply Hlists. destruct (decide (h = H0)) as [->|]; [by right|left; apply E2; lia].
    + intros h n Hh Hh0 Hn Hle. by apply dead_next, Hdead, E3.
Qed.

Lemma expiry_keeps H1 H0 b b' :
  expiry_inv H1 H0 b → keeps H0 (bk_os b) (bk_os b') → bk_expire b' = bk_expire b →
  bk_lastExpired b' = bk_lastExpired b → life b' = life b → expiry_inv H1 H0 b'.
Proof.
  intros [E1 E2 E3] K Ee El Ef. split; rewrite ?Ee, ?El, ?Ef; [done..|].
  intros h n Hh Hh0 Hn Hle. by apply (kp_dead _ _ _ K), E3.
Qed.

Lemma chain_expiry H1 H0 H2 b b' :
  1 < H0 → H1 ≤ H0 → 1 ≤ life b → chain H0 H2 b b' → block_inv H0 b → expiry_inv H1 H0 b →
  expiry_inv H1 H2 b' ∧ life b' = life b ∧ H1 ≤ H2 ∧ 1 < H2.
Proof.
  intros HH HH1 Hlife Hc. revert HH HH1 Hlife.
  induction Hc as [H0 b|H0 H2 b b1 b2 Hs _ IH]; intros HH HH1 Hlife Hb Hei; [by split_and!|].
  pose proof (block_step_inv _ _ _ HH Hs Hb) as Hb1. destruct Hs as [b0 b3 s2 r b4 Hbeg Htx Hend].
  eapply Begin_txs_Ok in Hbeg as (Hb2 & K & Ee & El & Ef); [|done..].
  assert (expiry_inv H1 H0 (bk_set_os s2 b3)) as Hei2 by (by eapply expiry_keeps).
  pose proof (End_Ok _ _ _ _ Hb2 HH Hend) as (_ & _ & Ef2 & _). rewrite Ef in Ef2.
  apply (End_expiry H1) in Hend as [Hei3 _]; [|done..|by rewrite Ef|done].
  rewrite <- Ef2. rewrite <- Ef2 in Hlife. apply IH; try done; lia.
Qed.

(** C7: the order module over a chain: as long as no product with open
    orders is delisted, every block keeps the books, the identifiers and the
    order store in step, keeps identifiers unique although the counters of
    old blocks are dropped, and drops from the store only orders that are
    closed. *)
Theorem chain_invariant H0 H1 b b' :
  1 < H0 → block_inv H0 b → chain H0 H1 b b' → block_inv H1 b'.
Proof. intros HH Hb Hc. by eapply chain_inv. Qed.

(** C17: every order ends: after a chain of blocks, at the end of each block
    that has no locked product, no order that was placed since the start of
    the chain is open beyond its life. *)
Theorem orders_expire H0 H1 b b1 u b2 s r b3 h n o :
  1 < H0 → 1 ≤ life b → block_inv H0 b → 0 < bk_lastExpired b < H0 → chain H0 H1 b b1 →
  BeginBlocker false b1 = (Ok u, b2) → rtc (tx_step H1) (bk_os b2) s → os_productLocks s = ∅ →
  EndBlocker feeCollectorName rangeBooks rangeNew rangeLocks sortPairs spare H1 (bk_set_os s b2) = (Ok r, b3) →
  H0 ≤ h → h + life b ≤ H1 → 1 ≤ n →
  os_orders (bk_os b3) !! FormatOrderID h n = Some o → ¬ is_open o.
Proof.
  intros HH Hlife Hb Hlast Hc Hbeg Htx Hlocks Hend Hh Hle Hn Ho.
  assert (expiry_inv H0 H0 b) as Hei by (split; [done|lia|lia]).
  pose proof (chain_inv _ _ _ _ HH Hc Hb) as Hb1.
  apply (chain_expiry H0) in Hc as (Hei1 & Ef & Hle1 & HH1); [|done..].
  eapply Begin_txs_Ok in Hbeg as (Hb2 & K & Ee & El & Ef2); [|done..].
  pose proof (End_Ok _ _ _ _ Hb2 HH1 Hend) as (_ & _ & Ef3 & _).
  apply (End_expiry H0) in Hend as [Hei3 Hl3]; [|done..|lia|by eapply expiry_keeps].
  apply (ei_closed _ _ _ Hei3 h n); [done|lia|done| |done]. rewrite Hl3 by done. lia.
Qed.

End Blocks.

(** ** Witnesses, and a delisted product *)

Section ChainWitnesses.
#[local] Existing Instance demo_order_config.

#[local] Abbreviation demo_end := (EndBlocker "fee_collector" elements elements elements id (λ _, O)).
#[local] Abbreviation demo_block := (block_step "fee_collector" elements elements elements id (λ _, O)).
#[local] Abbreviation demo_chain := (chain "fee_collector" elements elements elements id (λ _, O)).

(** Orders live for one block. *)
Definition demo_chain_os : OrderState Bank :=
  mkOrderState (os_token demo_order0) (os_orders demo_order0) (os_blockOrderNum demo_order0)
    (os_lastPrices demo_order0) (os_pairs demo_order0) (os_operators demo_order0)
    (os_productLocks demo_order0) (mkOrderParams 1 1000 (mkDecCoin "okt" 0) 0) (os_cache demo_order0).
Definition demo_chain0 : BlockState Bank := mkBlockState demo_chain_os ∅ 9 [] 0 0 ∅ ∅.
Definition demo_chain0b : BlockState Bank := Eval vm_compute in (BeginBlocker false demo_chain0).2.
Definition demo_chain0s : OrderState Bank :=
  Eval vm_compute in (handleMsgNewOrders 10 1000 demo_buys (bk_os demo_chain0b)).2.
Definition demo_chain1 : BlockState Bank :=
  Eval vm_compute in (demo_end 10 (bk_set_os demo_chain0s demo_chain0b)).2.
Definition demo_chain1b : BlockState Bank := Eval vm_compute in (BeginBlocker false demo_chain1).2.
Definition demo_chain2 : BlockState Bank := Eval vm_compute in (demo_end 11 demo_chain1b).2.

Lemma demo_begin0 : BeginBlocker false demo_chain0 = (Ok (), demo_chain0b).
Proof. vm_compute. reflexivity. Qed.
Lemma demo_deliver0 :
  handleMsgNewOrders 10 1000 demo_buys (bk_os demo_chain0b) = (Ok (), demo_chain0s).
Proof. vm_compute. reflexivity. Qed.
Lemma demo_end0 : demo_end 10 (bk_set_os demo_chain0s demo_chain0b) = (Ok ∅, demo_chain1).
Proof. vm_compute. reflexivity. Qed.
Lemma demo_begin1 : BeginBlocker false demo_chain1 = (Ok (), demo_chain1b).
Proof. vm_compute. reflexivity. Qed.
Lemma demo_end1 : demo_end 11 demo_chain1b = (Ok ∅, demo_chain2).
Proof. vm_compute. reflexivity. Qed.

Lemma demo_chain_run : demo_chain 10 11 demo_chain0 demo_chain1.
Proof.
  refine (chain_block _ _ _ _ _ _ 10 11 demo_chain0 demo_chain1 demo_chain1 _ (chain_nil _ _ _ _ _ _ 11 demo_chain1)).
  refine (mk_block _ _ _ _ _ _ 10 _ demo_chain0b demo_chain0s ∅ _ demo_begin0 _ demo_end0).
  apply rtc_once. refine (tx_new _ 10 1000 "alice" demo_buys () _ _ _ demo_deliver0). by vm_compute.
Qed.
Lemma demo_chain0_inv : block_inv 10 demo_chain0.
Proof.
  split; [split|]; [|done|cbn; lia|by intros ? ?%not_elem_of_nil].
  eapply same_books_inv; [|exact demo_order0_inv]. by split.
Qed.

Lemma restart_equivalent_witness :
  ∃ b1 b2, BeginBlocker true (stopped demo_chain1) = (Ok (), b1) ∧ BeginBlocker false demo_chain1 = (Ok (), b2) ∧
    (∀ p, GetDepthBookCopy (os_cache (bk_os b1)) p = GetDepthBookCopy (os_cache (bk_os b2)) p) ∧
    (∀ k, default [] (dc_ids (os_cache (bk_os b1)) !! k)
          = default [] (dc_ids (os_cache (bk_os b2)) !! k)) ∧
    dc_openNum (os_cache (bk_os b1)) = dc_openNum (os_cache (bk_os b2)) ∧
    dc_storeOrderNum (os_cache (bk_os b1)) = dc_storeOrderNum (os_cache (bk_os b2)) ∧
    stopped b1 = stopped b2.
Proof.
  exact (restart_equivalent "fee_collector" elements elements elements id (λ _, O) 10 11 demo_chain0 demo_chain1
    (conj (λ p, eq_refl) (λ k, eq_refl)) demo_chain_run).
Defined.

Lemma chain_invariant_witness : block_inv 11 demo_chain1.
Proof.
  exact (chain_invariant "fee_collector" elements elements elements id (λ _, O) 10 11 demo_chain0 demo_chain1
    eq_refl demo_chain0_inv demo_chain_run).
Defined.

Definition demo_expired : Order :=
  Eval vm_compute in default (mkOrder "" "" "" "" 0 0 0 0 0 0 0 0 (mkDecCoin "" 0))
    (os_orders (bk_os demo_chain2) !! "ID0000000010-1").
Lemma demo_expired_lookup : os_orders (bk_os demo_chain2) !! FormatOrderID 10 1 = Some demo_expired.
Proof. vm_compute. reflexivity. Qed.

Lemma orders_expire_witness : ¬ is_open demo_expired.
Proof.
  refine (orders_expire "fee_collector" elements elements elements id (λ _, O) 10 11 demo_chain0 demo_chain1 ()
    demo_chain1b (bk_os demo_chain1b) ∅ demo_chain2 10 1 demo_expired _ _ demo_chain0_inv _ demo_chain_run
    demo_begin1 (rtc_refl _ _) _ demo_end1 _ _ _ demo_expired_lookup); vm_compute; done.
Defined.

(** Three buy orders at one price. *)
Definition demo_three : list MsgNewOrder :=
  [demo_new "alice" BuyOrder 2 5; demo_new "alice" BuyOrder 2 3; demo_new "alice" BuyOrder 2 4].
Definition demo_delisted : OrderState Bank :=
  Eval vm_compute in
    let s := (handleMsgNewOrders 10 1000 demo_three demo_order0).2 in
    mkOrderState (os_token s) (os_orders s) (os_blockOrderNum s) (os_lastPrices s) ∅ (os_operators s)
      (os_productLocks s) (os_params s) (os_cache s).

(** The cleanup of a delisted product loses an order: it ranges over the
    cached slice of identifiers while every cancellation shifts that slice in
    place.  Of three buy orders at one price the second is skipped and keeps
    its coins locked, the third is cancelled twice, and the book is left with
    a negative quantity. *)
Theorem delisted_cleanup_skips :
  ∃ s', cleanupOrdersWhoseTokenPairHaveBeenDelisted "fee_collector" elements (λ _, O) 10 demo_delisted
          = (Ok (), s') ∧
    (Od_Status <$> os_orders s' !! FormatOrderID 10 1) = Some OrderStatusCancelled ∧
    (Od_Status <$> os_orders s' !! FormatOrderID 10 2) = Some OrderStatusOpen ∧
    (Od_RemainLocked <$> os_orders s' !! FormatOrderID 10 2) = Some (6 * demo_okt) ∧
    (Od_Status <$> os_orders s' !! FormatOrderID 10 3) = Some OrderStatusCancelled ∧
    dc_closed (os_cache s') = [FormatOrderID 10 1; FormatOrderID 10 3; FormatOrderID 10 3] ∧
    dc_openNum (os_cache s') = 0 ∧
    GetDepthBookCopy (os_cache s') "aaa_okt" = [mkItem (2 * demo_okt) (- demo_okt) 0].
Proof. eexists. split; [vm_compute; reflexivity|]. by vm_compute. Qed.

End ChainWitnesses.
