(* ===== verification/Farm.v ===== *)
(** * The farm module ([x/farm])

    Pools in which an account locks one token and earns others.  Rewards are
    accounted by periods: a pool stores for every period that is still
    referred to the rewards per locked token up to the end of the period, and
    a lock stores the period from which on it has not been paid.

    The state is that of the market maker, which the module reads prices
    from, together with the six prefixes of the module's store.  Keys with an
    address or a period in them have a part of fixed length, so a store of
    pairs has the same entries; the one place where the bytes of a key matter
    is the deletion of all history with a common prefix, and there the key is
    written out. *)
From Stdlib Require Import Ascii.
From S2P Require Import Prelude Decimal Denom Coins Bank CoinKeeper Token Swap DecStr.
#[local] Open Scope Z_scope.

(** ** Data *)

Record YieldedTokenInfo := mkYielded {
  Yt_RemainingAmount : DecCoin;
  Yt_StartBlockHeightToYield : Z;
  Yt_AmountYieldedPerBlock : Dec }.

Record FarmPool := mkFarmPool {
  Fp_Owner : string; Fp_Name : string;
  Fp_MinLockAmount : DecCoin; Fp_DepositAmount : DecCoin; Fp_TotalValueLocked : DecCoin;
  Fp_YieldedTokenInfos : list YieldedTokenInfo;
  Fp_TotalAccumulatedRewards : list DecCoin }.

Record LockInfo := mkLockInfo {
  Li_Owner : string; Li_PoolName : string; Li_Amount : DecCoin;
  Li_StartBlockHeight : Z; Li_ReferencePeriod : Z }.

Record PoolHistoricalRewards := mkHistorical {
  Hr_CumulativeRewardRatio : list DecCoin; Hr_ReferenceCount : Z }.

Record PoolCurrentRewards := mkCurrent {
  Cr_StartBlockHeight : Z; Cr_Period : Z; Cr_Rewards : list DecCoin }.

Record FarmParams := mkFarmParams {
  Fa_QuoteSymbol : string; Fa_CreatePoolFee : DecCoin; Fa_CreatePoolDeposit : DecCoin;
  Fa_YieldNativeToken : bool }.

Record FarmState (S : Type) := mkFarmState {
  fa_swap : SwapState S;
  fa_pools : gmap string FarmPool;
  fa_poolAddrs : gset (string * string);
  fa_locks : gmap (string * string) LockInfo;
  fa_whitelist : gset string;
  fa_historical : gmap (string * Z) PoolHistoricalRewards;
  fa_current : gmap string PoolCurrentRewards;
  fa_params : FarmParams }.
Arguments mkFarmState {S}.
Arguments fa_swap {S}.
Arguments fa_pools {S}.
Arguments fa_poolAddrs {S}.
Arguments fa_locks {S}.
Arguments fa_whitelist {S}.
Arguments fa_historical {S}.
Arguments fa_current {S}.
Arguments fa_params {S}.

Definition FarmModuleName : string := "farm".
Definition MintFarmingAccount : string := "mint_farming_account".
Definition YieldFarmingAccount : string := "yield_farming_account".
Definition MaxPoolNameLength : nat := 128.
Definition PeriodByteArrayLength : nat := 8.

(** [uint64] arithmetic. *)
Definition uint64 (x : Z) : Z := x mod 2 ^ 64.

(** [binary.LittleEndian.PutUint64]: [n] bytes, the lowest first. *)
Fixpoint littleEndian (n : nat) (x : Z) : string :=
  match n with
  | O => ""
  | S n => String (ascii_of_N (Z.to_N (x mod 256))) (littleEndian n (x / 256))
  end.
(** The key behind the prefix byte. *)
Definition GetPoolHistoricalRewardsKey (poolName : string) (period : Z) : string :=
  poolName +:+ littleEndian PeriodByteArrayLength period.

Definition FarmPool_Finished (fp : FarmPool) : bool :=
  if existsb (λ y, DecCoin_IsPositive (Yt_RemainingAmount y)) (Fp_YieldedTokenInfos fp) then false
  else DecCoin_IsZero (Fp_TotalValueLocked fp).

Definition IsPoolToken (symbol : string) : bool := NotAllowedOriginSymbol symbol.
Definition SplitPoolToken (symbol : string) : outcome (string * string) :=
  match Split "_" symbol with
  | (_, token0 :: token1 :: _) => Ok (token0, token1)
  | _ => Panic "index out of range"
  end.

(** ** Messages *)

Record MsgCreatePool := mkMsgCreatePool {
  Mp_Owner : string; Mp_PoolName : string; Mp_MinLockAmount : DecCoin; Mp_YieldedSymbol : string }.
Record MsgProvide := mkMsgProvide {
  Mv_PoolName : string; Mv_Address : string; Mv_Amount : DecCoin;
  Mv_AmountYieldedPerBlock : Dec; Mv_StartHeightToYield : Z }.
(** [MsgLock] and [MsgUnlock] have the same fields. *)
Record MsgLock := mkMsgLock { Ml_PoolName : string; Ml_Address : string; Ml_Amount : DecCoin }.

Definition badPoolName (poolName : string) : bool :=
  String.eqb poolName "" || (MaxPoolNameLength <? String.length poolName)%nat.

Definition MsgCreatePool_ValidateBasic (m : MsgCreatePool) : outcome unit :=
  if String.eqb (Mp_Owner m) "" then Err (E "ErrNilAddress")
  else if badPoolName (Mp_PoolName m) then Err (E "ErrPoolNameLength")
  else if Dec_LT (Amount (Mp_MinLockAmount m)) ZeroDec || negb (DecCoin_IsValid (Mp_MinLockAmount m))
  then Err (E "ErrInvalidInputAmount")
  else if String.eqb (Mp_YieldedSymbol m) "" then Err (E "ErrInvalidInput")
  else Ok ().
Definition MsgDestroyPool_ValidateBasic (owner poolName : string) : outcome unit :=
  if String.eqb owner "" then Err (E "ErrNilAddress")
  else if badPoolName poolName then Err (E "ErrPoolNameLength")
  else Ok ().
Definition MsgProvide_ValidateBasic (m : MsgProvide) : outcome unit :=
  if badPoolName (Mv_PoolName m) then Err (E "ErrInvalidInput")
  else if String.eqb (Mv_Address m) "" then Err (E "ErrNilAddress")
  else if Dec_LTE (Amount (Mv_Amount m)) ZeroDec || negb (DecCoin_IsValid (Mv_Amount m))
  then Err (E "ErrInvalidInputAmount")
  else if Dec_LTE (Mv_AmountYieldedPerBlock m) ZeroDec then Err (E "ErrInvalidInput")
  else if Dec_LT (Amount (Mv_Amount m)) (Mv_AmountYieldedPerBlock m) then Err (E "ErrInvalidInput")
  else if Mv_StartHeightToYield m <=? 0 then Err (E "ErrInvalidInput")
  else Ok ().
(** Both of [MsgLock] and of [MsgUnlock]. *)
Definition MsgLock_ValidateBasic (m : MsgLock) : outcome unit :=
  if badPoolName (Ml_PoolName m) then Err (E "ErrInvalidInput")
  else if String.eqb (Ml_Address m) "" then Err (E "ErrNilAddress")
  else if Dec_LTE (Amount (Ml_Amount m)) ZeroDec || negb (DecCoin_IsValid (Ml_Amount m))
  then Err (E "ErrInvalidInputAmount")
  else Ok ().
Definition MsgClaim_ValidateBasic (poolName address : string) : outcome unit :=
  if badPoolName poolName then Err (E "ErrInvalidInput")
  else if String.eqb address "" then Err (E "ErrNilAddress")
  else Ok ().

Section FarmKeeper.
Context {S : Type} `{CoinKeeper S} (feeCollectorName : string).

(** ** The store *)

Definition fa_set_swap (w : SwapState S) (s : FarmState S) : FarmState S :=
  mkFarmState w (fa_pools s) (fa_poolAddrs s) (fa_locks s) (fa_whitelist s) (fa_historical s)
    (fa_current s) (fa_params s).
Definition fa_set_pools (p : gmap string FarmPool) (s : FarmState S) : FarmState S :=
  mkFarmState (fa_swap s) p (fa_poolAddrs s) (fa_locks s) (fa_whitelist s) (fa_historical s)
    (fa_current s) (fa_params s).
Definition fa_set_locks (a : gset (string * string)) (l : gmap (string * string) LockInfo)
    (s : FarmState S) : FarmState S :=
  mkFarmState (fa_swap s) (fa_pools s) a l (fa_whitelist s) (fa_historical s) (fa_current s) (fa_params s).
Definition fa_set_whitelist (w : gset string) (s : FarmState S) : FarmState S :=
  mkFarmState (fa_swap s) (fa_pools s) (fa_poolAddrs s) (fa_locks s) w (fa_historical s)
    (fa_current s) (fa_params s).
Definition fa_set_rewards (h : gmap (string * Z) PoolHistoricalRewards) (c : gmap string PoolCurrentRewards)
    (s : FarmState S) : FarmState S :=
  mkFarmState (fa_swap s) (fa_pools s) (fa_poolAddrs s) (fa_locks s) (fa_whitelist s) h c (fa_params s).

(** Calls of the other keepers. *)
Definition fa_on_swap {A} (m : M (SwapState S) A) : M (FarmState S) A := zoom fa_swap fa_set_swap m.
Definition fa_on_supply {A} (m : M S A) : M (FarmState S) A := fa_on_swap (on_supply m).
Definition fa_TokenExist (symbol : string) : M (FarmState S) bool :=
  fa_on_swap (on_token (Token_TokenExist symbol)).

Definition SetFarmPool (pool : FarmPool) : M (FarmState S) unit :=
  modify (λ s, fa_set_pools (<[Fp_Name pool := pool]> (fa_pools s)) s).
Definition GetFarmPool (poolName : string) : M (FarmState S) (option FarmPool) :=
  gets (λ s, fa_pools s !! poolName).
Definition DeleteFarmPool (poolName : string) : M (FarmState S) unit :=
  modify (λ s, fa_set_pools (delete poolName (fa_pools s))
                 (fa_set_whitelist (fa_whitelist s ∖ {[ poolName ]}) s)).
Definition GetFarmPools (s : FarmState S) : list FarmPool := snd <$> store_iterate (fa_pools s).
Definition SetAddressInFarmPool (poolName addr : string) : M (FarmState S) unit :=
  modify (λ s, fa_set_locks ({[ (poolName, addr) ]} ∪ fa_poolAddrs s) (fa_locks s) s).
Definition DeleteAddressInFarmPool (poolName addr : string) : M (FarmState S) unit :=
  modify (λ s, fa_set_locks (fa_poolAddrs s ∖ {[ (poolName, addr) ]}) (fa_locks s) s).
Definition SetLockInfo (lockInfo : LockInfo) : M (FarmState S) unit :=
  modify (λ s, fa_set_locks (fa_poolAddrs s)
    (<[(Li_Owner lockInfo, Li_PoolName lockInfo) := lockInfo]> (fa_locks s)) s).
Definition GetLockInfo (addr poolName : string) : M (FarmState S) (option LockInfo) :=
  gets (λ s, fa_locks s !! (addr, poolName)).
Definition DeleteLockInfo (addr poolName : string) : M (FarmState S) unit :=
  modify (λ s, fa_set_locks (fa_poolAddrs s) (delete (addr, poolName) (fa_locks s)) s).

(** Decoding a missing value panics. *)
Definition GetPoolHistoricalRewards (poolName : string) (period : Z)
    : M (FarmState S) PoolHistoricalRewards :=
  o ← gets (λ s, fa_historical s !! (poolName, period));
  match o with Some h => mret h | None => panic "cannot decode empty bytes" end.
Definition SetPoolHistoricalRewards (poolName : string) (period : Z) (r : PoolHistoricalRewards)
    : M (FarmState S) unit :=
  modify (λ s, fa_set_rewards (<[(poolName, period) := r]> (fa_historical s)) (fa_current s) s).
Definition DeletePoolHistoricalReward (poolName : string) (period : Z) : M (FarmState S) unit :=
  modify (λ s, fa_set_rewards (delete (poolName, period) (fa_historical s)) (fa_current s) s).
(** [IteratePoolHistoricalRewards] with the handler that deletes every key:
    all keys that start with the name of the pool. *)
Definition deletePoolHistory (poolName : string) : M (FarmState S) unit :=
  modify (λ s, fa_set_rewards
    (base.filter (λ x, String.prefix poolName (GetPoolHistoricalRewardsKey x.1.1 x.1.2) = false)
       (fa_historical s)) (fa_current s) s).
Definition GetPoolCurrentRewards (poolName : string) : M (FarmState S) PoolCurrentRewards :=
  o ← gets (λ s, fa_current s !! poolName);
  match o with Some c => mret c | None => panic "cannot decode empty bytes" end.
Definition SetPoolCurrentRewards (poolName : string) (r : PoolCurrentRewards) : M (FarmState S) unit :=
  modify (λ s, fa_set_rewards (fa_historical s) (<[poolName := r]> (fa_current s)) s).
Definition DeletePoolCurrentRewards (poolName : string) : M (FarmState S) unit :=
  modify (λ s, fa_set_rewards (fa_historical s) (delete poolName (fa_current s)) s).

(** ** Rewards *)

Definition set_yielded (pool : FarmPool) (infos : list YieldedTokenInfo) (rewards : list DecCoin) : FarmPool :=
  mkFarmPool (Fp_Owner pool) (Fp_Name pool) (Fp_MinLockAmount pool) (Fp_DepositAmount pool)
    (Fp_TotalValueLocked pool) infos rewards.

(** One turn of the loop: what is left of a token, and what it has
    yielded; [None] if it is skipped. *)
Definition yieldInfo (startOfPeriod endBlockHeight : Z) (y : YieldedTokenInfo)
    : outcome (option (YieldedTokenInfo * list DecCoin)) :=
  let startBlockHeight :=
    if startOfPeriod <=? Yt_StartBlockHeightToYield y then Yt_StartBlockHeightToYield y
    else startOfPeriod in
  if (Yt_StartBlockHeightToYield y =? 0) || (startBlockHeight >=? endBlockHeight) then Ok None
  else
    blockInterval ← NewDec (endBlockHeight - startBlockHeight);
    amount ← Dec_MulTruncate blockInterval (Yt_AmountYieldedPerBlock y);
    let remaining := Yt_RemainingAmount y in
    if Dec_LT amount (Amount remaining) then
      left ← Dec_Sub (Amount remaining) amount;
      c ← NewDecCoinsFromDec (Denom remaining) amount;
      Ok (Some (mkYielded (mkDecCoin (Denom remaining) left) (Yt_StartBlockHeightToYield y)
                  (Yt_AmountYieldedPerBlock y), c))
    else
      zero ← NewDecCoin (Denom remaining) 0;
      c ← NewDecCoinsFromDec (Denom remaining) (Amount remaining);
      Ok (Some (mkYielded zero 0 ZeroDec, c)).

Fixpoint yieldInfos (startOfPeriod endBlockHeight : Z) (infos : list YieldedTokenInfo)
    (accumulated total : list DecCoin)
    : outcome (list YieldedTokenInfo * list DecCoin * list DecCoin) :=
  match infos with
  | [] => Ok ([], accumulated, total)
  | y :: infos =>
      r ← yieldInfo startOfPeriod endBlockHeight y;
      match r with
      | None =>
          '(infos, accumulated, total) ← yieldInfos startOfPeriod endBlockHeight infos accumulated total;
          Ok (y :: infos, accumulated, total)
      | Some (y', yieldedTokens) =>
          accumulated ← DecCoins_Add2 accumulated yieldedTokens;
          total ← DecCoins_Add2 total yieldedTokens;
          '(infos, accumulated, total) ← yieldInfos startOfPeriod endBlockHeight infos accumulated total;
          Ok (y' :: infos, accumulated, total)
      end
  end.

Definition CalculateAmountYieldedBetween (blockHeight : Z) (pool : FarmPool)
    : M (FarmState S) (FarmPool * list DecCoin) :=
  currentPeriod ← GetPoolCurrentRewards (Fp_Name pool);
  '(infos, accumulated, total) ←
    lift (yieldInfos (Cr_StartBlockHeight currentPeriod) blockHeight (Fp_YieldedTokenInfos pool)
            (Fp_TotalAccumulatedRewards pool) []);
  mret (set_yielded pool infos accumulated, total).

Definition incrementReferenceCount (poolName : string) (period : Z) : M (FarmState S) unit :=
  historical ← GetPoolHistoricalRewards poolName period;
  _ ← panic_if (Hr_ReferenceCount historical >? 2) "reference count should never exceed 2";
  SetPoolHistoricalRewards poolName period
    (mkHistorical (Hr_CumulativeRewardRatio historical) (Hr_ReferenceCount historical + 1)).
Definition decrementReferenceCount (poolName : string) (period : Z) : M (FarmState S) unit :=
  historical ← GetPoolHistoricalRewards poolName period;
  _ ← panic_if (Hr_ReferenceCount historical =? 0) "cannot set negative reference count";
  if Hr_ReferenceCount historical - 1 =? 0 then DeletePoolHistoricalReward poolName period
  else SetPoolHistoricalRewards poolName period
         (mkHistorical (Hr_CumulativeRewardRatio historical) (Hr_ReferenceCount historical - 1)).

Definition IncrementPoolPeriod (blockHeight : Z) (poolName : string) (totalValueLocked : DecCoin)
    (yieldedTokens : list DecCoin) : M (FarmState S) Z :=
  rewards ← GetPoolCurrentRewards poolName;
  newRewards ← lift (DecCoins_Add2 (Cr_Rewards rewards) yieldedTokens);
  currentRatio ← (if DecCoin_IsZero totalValueLocked then mret []
                  else lift (DecCoins_QuoDecTruncate newRewards (Amount totalValueLocked)));
  historical ← GetPoolHistoricalRewards poolName (uint64 (Cr_Period rewards - 1));
  _ ← decrementReferenceCount poolName (uint64 (Cr_Period rewards - 1));
  ratio ← lift (DecCoins_Add2 (Hr_CumulativeRewardRatio historical) currentRatio);
  _ ← SetPoolHistoricalRewards poolName (Cr_Period rewards) (mkHistorical ratio 1);
  _ ← SetPoolCurrentRewards poolName (mkCurrent blockHeight (uint64 (Cr_Period rewards + 1)) []);
  mret (Cr_Period rewards).

Definition calculateLockRewardsBetween (poolName : string) (startingPeriod endingPeriod : Z)
    (amount : DecCoin) : M (FarmState S) (list DecCoin) :=
  _ ← panic_if (startingPeriod >? endingPeriod) "startingPeriod cannot be greater than endingPeriod";
  _ ← panic_if (Dec_LT (Amount amount) ZeroDec) "amount should not be negative";
  starting ← GetPoolHistoricalRewards poolName startingPeriod;
  ending ← GetPoolHistoricalRewards poolName endingPeriod;
  difference ← lift (DecCoins_Sub (Hr_CumulativeRewardRatio ending) (Hr_CumulativeRewardRatio starting));
  lift (DecCoins_MulDecTruncate difference (Amount amount)).
Definition calculateRewards (blockHeight : Z) (poolName : string) (endingPeriod : Z) (lockInfo : LockInfo)
    : M (FarmState S) (list DecCoin) :=
  if Li_StartBlockHeight lockInfo =? blockHeight then mret []
  else calculateLockRewardsBetween poolName (Li_ReferencePeriod lockInfo) endingPeriod (Li_Amount lockInfo).

Definition WithdrawRewards (blockHeight : Z) (poolName : string) (totalValueLocked : DecCoin)
    (yieldedTokens : list DecCoin) (addr : string) : M (FarmState S) (list DecCoin) :=
  lockInfo ← GetLockInfo addr poolName;
  match lockInfo with
  | None => fail "ErrNoLockInfoFound"
  | Some lockInfo =>
      endingPeriod ← IncrementPoolPeriod blockHeight poolName totalValueLocked yieldedTokens;
      rewards ← calculateRewards blockHeight poolName endingPeriod lockInfo;
      _ ← (if negb (DecCoins_IsZero rewards)
           then fa_on_supply (ck_SendCoinsFromModuleToAccount YieldFarmingAccount addr rewards)
           else mret ());
      _ ← decrementReferenceCount poolName (Li_ReferencePeriod lockInfo);
      mret rewards
  end.

Definition UpdateLockInfo (blockHeight : Z) (addr poolName : string) (changedAmount : Dec)
    : M (FarmState S) unit :=
  current ← GetPoolCurrentRewards poolName;
  let previousPeriod := uint64 (Cr_Period current - 1) in
  lockInfo ← GetLockInfo addr poolName;
  match lockInfo with
  | None => panic "the lock info can't be found"
  | Some lockInfo =>
      amount ← lift (Dec_Add (Amount (Li_Amount lockInfo)) changedAmount);
      let lockInfo := mkLockInfo (Li_Owner lockInfo) (Li_PoolName lockInfo)
        (mkDecCoin (Denom (Li_Amount lockInfo)) amount) blockHeight previousPeriod in
      if DecCoin_IsZero (Li_Amount lockInfo) then
        _ ← DeleteLockInfo (Li_Owner lockInfo) (Li_PoolName lockInfo);
        DeleteAddressInFarmPool (Li_PoolName lockInfo) (Li_Owner lockInfo)
      else
        _ ← incrementReferenceCount poolName previousPeriod;
        _ ← SetLockInfo lockInfo;
        SetAddressInFarmPool (Li_PoolName lockInfo) (Li_Owner lockInfo)
  end.

(** ** Value of a pool *)

(** The price of a coin in the pool of the market maker; zero where there is
    no such pool. *)
Definition calculateBaseValueInQuote (base : DecCoin) (quoteSymbol : string) : M (FarmState S) Dec :=
  if String.eqb (Denom base) quoteSymbol then mret (Amount base)
  else
    tokenPair ← gets (λ s, sw_pairs (fa_swap s) !! GetSwapTokenPairName (Denom base) quoteSymbol);
    match tokenPair with
    | None => mret ZeroDec
    | Some p =>
        if DecCoin_IsZero (BasePooledCoin p) || DecCoin_IsZero (QuotePooledCoin p) then mret ZeroDec
        else if String.eqb (Denom (QuotePooledCoin p)) quoteSymbol then
          x ← lift (Dec_MulTruncate (Amount base) (Amount (QuotePooledCoin p)));
          lift (Dec_QuoTruncate x (Amount (BasePooledCoin p)))
        else
          x ← lift (Dec_MulTruncate (Amount base) (Amount (BasePooledCoin p)));
          lift (Dec_QuoTruncate x (Amount (QuotePooledCoin p)))
    end.
Definition calculateLockedLPTValue (pool : FarmPool) (quoteSymbol : string) : M (FarmState S) Dec :=
  '(token0Symbol, token1Symbol) ← lift (SplitPoolToken (Denom (Fp_MinLockAmount pool)));
  r ← (λ s, match fa_on_swap (GetRedeemableAssets token0Symbol token1Symbol
                                (Amount (Fp_TotalValueLocked pool))) s with
            | (Ok r, s') => (Ok (Some r), s')
            | (Err _, s') => (Ok None, s')
            | (Panic m, s') => (Panic m, s')
            end);
  match r with
  | None => mret ZeroDec
  | Some (token0Amount, token1Amount) =>
      quote0TokenAmt ← calculateBaseValueInQuote token0Amount quoteSymbol;
      quote1TokenAmt ← calculateBaseValueInQuote token1Amount quoteSymbol;
      lift (Dec_Add quote0TokenAmt quote1TokenAmt)
  end.
Definition GetPoolLockedValue (pool : FarmPool) : M (FarmState S) Dec :=
  if Dec_LTE (Amount (Fp_TotalValueLocked pool)) ZeroDec then mret ZeroDec
  else
    quoteSymbol ← gets (λ s, Fa_QuoteSymbol (fa_params s));
    if IsPoolToken (Denom (Fp_MinLockAmount pool)) then calculateLockedLPTValue pool quoteSymbol
    else calculateBaseValueInQuote (Fp_TotalValueLocked pool) quoteSymbol.

(** ** Handlers *)

Definition handleMsgCreatePool (blockHeight : Z) (msg : MsgCreatePool) : M (FarmState S) unit :=
  pool ← GetFarmPool (Mp_PoolName msg);
  _ ← guard_not (bool_decide (is_Some pool)) "ErrPoolAlreadyExist";
  ok ← fa_TokenExist (Denom (Mp_MinLockAmount msg));
  _ ← guard_not (negb ok) "ErrTokenNotExist";
  ok ← fa_TokenExist (Mp_YieldedSymbol msg);
  _ ← guard_not (negb ok) "ErrTokenNotExist";
  params ← gets fa_params;
  fee ← lift (DecCoin_ToCoins (Fa_CreatePoolFee params));
  _ ← wrapErr "ErrInsufficientCoins"
        (fa_on_supply (ck_SendCoinsFromAccountToModule (Mp_Owner msg) feeCollectorName fee));
  let depositAmount := Fa_CreatePoolDeposit params in
  deposit ← lift (DecCoin_ToCoins depositAmount);
  _ ← wrapErr "ErrInsufficientCoins"
        (fa_on_supply (ck_SendCoinsFromAccountToModule (Mp_Owner msg) FarmModuleName deposit));
  noYield ← lift (NewDecCoin (Mp_YieldedSymbol msg) 0);
  noLock ← lift (NewDecCoin (Denom (Mp_MinLockAmount msg)) 0);
  _ ← SetFarmPool (mkFarmPool (Mp_Owner msg) (Mp_PoolName msg) (Mp_MinLockAmount msg) depositAmount noLock
                     [mkYielded noYield 0 ZeroDec] []);
  _ ← SetPoolHistoricalRewards (Mp_PoolName msg) 0 (mkHistorical [] 1);
  SetPoolCurrentRewards (Mp_PoolName msg) (mkCurrent blockHeight 1 []).

Definition handleMsgDestroyPool (blockHeight : Z) (owner poolName : string) : M (FarmState S) unit :=
  pool ← GetFarmPool poolName;
  match pool with
  | None => fail "ErrNoFarmPoolFound"
  | Some pool =>
      _ ← guard_not (negb (String.eqb (Fp_Owner pool) owner)) "ErrInvalidPoolOwner";
      '(updatedPool, _) ← CalculateAmountYieldedBetween blockHeight pool;
      _ ← guard_not (negb (FarmPool_Finished updatedPool)) "ErrPoolNotFinished";
      _ ← (if negb (DecCoins_IsZero (Fp_TotalAccumulatedRewards updatedPool))
           then wrapErr "ErrInsufficientCoins"
                  (fa_on_supply (ck_SendCoinsFromModuleToAccount YieldFarmingAccount owner
                                   (Fp_TotalAccumulatedRewards updatedPool)))
           else mret ());
      _ ← (if DecCoin_IsPositive (Fp_DepositAmount pool)
           then withdraw ← lift (DecCoin_ToCoins (Fp_DepositAmount pool));
                wrapErr "ErrInsufficientCoins"
                  (fa_on_supply (ck_SendCoinsFromModuleToAccount FarmModuleName owner withdraw))
           else mret ());
      _ ← DeleteFarmPool poolName;
      _ ← deletePoolHistory poolName;
      DeletePoolCurrentRewards poolName
  end.

Definition set_locked (pool : FarmPool) (locked : DecCoin) (rewards : list DecCoin) : FarmPool :=
  mkFarmPool (Fp_Owner pool) (Fp_Name pool) (Fp_MinLockAmount pool) (Fp_DepositAmount pool)
    locked (Fp_YieldedTokenInfos pool) rewards.

(** The check and the subtraction after a withdrawal of rewards. *)
Definition payRewards (pool : FarmPool) (rewards : list DecCoin) : M (FarmState S) FarmPool :=
  less ← lift (DecCoins_IsAllLT (Fp_TotalAccumulatedRewards pool) rewards);
  _ ← panic_if less "should not happen";
  left ← lift (DecCoins_Sub (Fp_TotalAccumulatedRewards pool) rewards);
  mret (set_locked pool (Fp_TotalValueLocked pool) left).

Definition handleMsgLock (blockHeight : Z) (msg : MsgLock) : M (FarmState S) unit :=
  pool ← GetFarmPool (Ml_PoolName msg);
  match pool with
  | None => fail "ErrNoFarmPoolFound"
  | Some pool =>
      _ ← guard_not (negb (String.eqb (Denom (Fp_MinLockAmount pool)) (Denom (Ml_Amount msg)))) "ErrInvalidDenom";
      lockInfo ← GetLockInfo (Ml_Address msg) (Ml_PoolName msg);
      let hasLocked := bool_decide (is_Some lockInfo) in
      _ ← guard_not (negb hasLocked && Dec_LT (Amount (Ml_Amount msg)) (Amount (Fp_MinLockAmount pool)))
            "ErrLockAmountBelowMinimum";
      '(updatedPool, yieldedTokens) ← CalculateAmountYieldedBetween blockHeight pool;
      updatedPool ←
        (if hasLocked then
           rewards ← WithdrawRewards blockHeight (Fp_Name pool) (Fp_TotalValueLocked pool) yieldedTokens
                       (Ml_Address msg);
           payRewards updatedPool rewards
         else
           _ ← IncrementPoolPeriod blockHeight (Fp_Name pool) (Fp_TotalValueLocked pool) yieldedTokens;
           zero ← lift (NewDecCoinFromDec (Denom (Fp_MinLockAmount pool)) ZeroDec);
           _ ← SetLockInfo (mkLockInfo (Ml_Address msg) (Fp_Name pool) zero blockHeight 0);
           _ ← SetAddressInFarmPool (Ml_PoolName msg) (Ml_Address msg);
           mret updatedPool);
      _ ← UpdateLockInfo blockHeight (Ml_Address msg) (Ml_PoolName msg) (Amount (Ml_Amount msg));
      coins ← lift (DecCoin_ToCoins (Ml_Amount msg));
      _ ← wrapErr "ErrSendCoinsFromAccountToModuleFailed"
            (fa_on_supply (ck_SendCoinsFromAccountToModule (Ml_Address msg) FarmModuleName coins));
      locked ← lift (DecCoin_Add (Fp_TotalValueLocked updatedPool) (Ml_Amount msg));
      SetFarmPool (set_locked updatedPool locked (Fp_TotalAccumulatedRewards updatedPool))
  end.

Definition handleMsgUnlock (blockHeight : Z) (msg : MsgLock) : M (FarmState S) unit :=
  lockInfo ← GetLockInfo (Ml_Address msg) (Ml_PoolName msg);
  match lockInfo with
  | None => fail "ErrNoLockInfoFound"
  | Some lockInfo =>
      _ ← guard_not (negb (String.eqb (Denom (Li_Amount lockInfo)) (Denom (Ml_Amount msg)))) "ErrInvalidDenom";
      less ← lift (DecCoin_IsLT (Li_Amount lockInfo) (Ml_Amount msg));
      _ ← guard_not less "ErrInsufficientAmount";
      pool ← GetFarmPool (Ml_PoolName msg);
      match pool with
      | None => fail "ErrNoFarmPoolFound"
      | Some pool =>
          _ ← guard_not (negb (String.eqb (Denom (Fp_MinLockAmount pool)) (Denom (Ml_Amount msg)))) "ErrInvalidDenom";
          remainAmount ← lift (Dec_Sub (Amount (Li_Amount lockInfo)) (Amount (Ml_Amount msg)));
          _ ← guard_not (negb (Dec_IsZero remainAmount) && Dec_LT remainAmount (Amount (Fp_MinLockAmount pool)))
                "ErrLockAmountBelowMinimum";
          '(updatedPool, yieldedTokens) ← CalculateAmountYieldedBetween blockHeight pool;
          rewards ← WithdrawRewards blockHeight (Fp_Name pool) (Fp_TotalValueLocked pool) yieldedTokens
                      (Ml_Address msg);
          _ ← UpdateLockInfo blockHeight (Ml_Address msg) (Ml_PoolName msg) (Dec_Neg (Amount (Ml_Amount msg)));
          coins ← lift (DecCoin_ToCoins (Ml_Amount msg));
          _ ← wrapErr "ErrSendCoinsFromModuleToAccountFailed"
                (fa_on_supply (ck_SendCoinsFromModuleToAccount FarmModuleName (Ml_Address msg) coins));
          locked ← lift (DecCoin_Sub (Fp_TotalValueLocked updatedPool) (Ml_Amount msg));
          paid ← payRewards (set_locked updatedPool locked (Fp_TotalAccumulatedRewards updatedPool)) rewards;
          SetFarmPool paid
      end
  end.

Definition handleMsgProvide (blockHeight : Z) (msg : MsgProvide) : M (FarmState S) unit :=
  _ ← guard_not (Mv_StartHeightToYield msg <=? blockHeight) "ErrInvalidStartHeight";
  pool ← GetFarmPool (Mv_PoolName msg);
  match pool with
  | None => fail "ErrNoFarmPoolFound"
  | Some pool =>
      _ ← guard_not (negb (String.eqb (Fp_Owner pool) (Mv_Address msg))) "ErrInvalidPoolOwner";
      match Fp_YieldedTokenInfos pool with
      | [y] =>
          _ ← guard_not (negb (String.eqb (Denom (Yt_RemainingAmount y)) (Denom (Mv_Amount msg)))) "ErrInvalidDenom";
          '(updatedPool, yieldedTokens) ← CalculateAmountYieldedBetween blockHeight pool;
          match Fp_YieldedTokenInfos updatedPool with
          | [] => panic "index out of range"
          | y :: rest =>
              _ ← guard_not (negb (DecCoin_IsZero (Yt_RemainingAmount y))) "ErrRemainingAmountNotZero";
              _ ← IncrementPoolPeriod blockHeight (Fp_Name pool) (Fp_TotalValueLocked pool) yieldedTokens;
              coins ← lift (DecCoin_ToCoins (Mv_Amount msg));
              _ ← wrapErr "ErrSendCoinsFromAccountToModuleFailed"
                    (fa_on_supply (ck_SendCoinsFromAccountToModule (Mv_Address msg) YieldFarmingAccount coins));
              SetFarmPool (set_yielded updatedPool
                (mkYielded (Mv_Amount msg) (Mv_StartHeightToYield msg) (Mv_AmountYieldedPerBlock msg) :: rest)
                (Fp_TotalAccumulatedRewards updatedPool))
          end
      | _ => panic "The YieldedTokenInfos length should be 1 in current code version"
      end
  end.

Definition handleMsgClaim (blockHeight : Z) (poolName address : string) : M (FarmState S) (list DecCoin) :=
  pool ← GetFarmPool poolName;
  match pool with
  | None => fail "ErrNoFarmPoolFound"
  | Some pool =>
      '(updatedPool, yieldedTokens) ← CalculateAmountYieldedBetween blockHeight pool;
      rewards ← WithdrawRewards blockHeight (Fp_Name pool) (Fp_TotalValueLocked pool) yieldedTokens address;
      _ ← UpdateLockInfo blockHeight address (Fp_Name pool) ZeroDec;
      paid ← payRewards updatedPool rewards;
      _ ← SetFarmPool paid;
      mret rewards
  end.

(** The query of what an account would be paid. *)
Definition GetEarnings (blockHeight : Z) (poolName accAddr : string) : M (FarmState S) (list DecCoin) :=
  lockInfo ← GetLockInfo accAddr poolName;
  match lockInfo with
  | None => fail "ErrNoLockInfoFound"
  | Some lockInfo =>
      pool ← GetFarmPool poolName;
      match pool with
      | None => fail "ErrNoFarmPoolFound"
      | Some pool =>
          '(updatedPool, yieldedTokens) ← CalculateAmountYieldedBetween blockHeight pool;
          endingPeriod ← IncrementPoolPeriod blockHeight poolName (Fp_TotalValueLocked updatedPool) yieldedTokens;
          calculateRewards blockHeight poolName endingPeriod lockInfo
      end
  end.

(** ** The start of a block *)

(** The pools of the whitelist that have a value, with their values. *)
Fixpoint allocateInfo (names : list string) : M (FarmState S) (list (FarmPool * Dec)) :=
  match names with
  | [] => mret []
  | poolName :: names =>
      pool ← GetFarmPool poolName;
      match pool with
      | None => panic "should not happen"
      | Some pool =>
          poolValue ← GetPoolLockedValue pool;
          rest ← allocateInfo names;
          mret (if Dec_LTE poolValue ZeroDec then rest else (pool, poolValue) :: rest)
      end
  end.
Fixpoint sumValues (acc : Dec) (l : list (FarmPool * Dec)) : outcome Dec :=
  match l with
  | [] => Ok acc
  | x :: l => acc ← Dec_Add acc x.2; sumValues acc l
  end.
(** The whitelist is iterated in the order of the keys. *)
Definition whitelist_names (s : FarmState S) : list string :=
  merge_sort (λ a b, ¬ str_lt b a) (elements (fa_whitelist s)).
Definition calculateAllocateInfo : M (FarmState S) (list (FarmPool * Dec) * Dec) :=
  names ← gets whitelist_names;
  pools ← allocateInfo names;
  totalPoolsValue ← lift (sumValues ZeroDec pools);
  mret (pools, totalPoolsValue).

Fixpoint allocate (yieldedNativeTokenAmt totalPoolsValue : Dec) (pools : list (FarmPool * Dec))
    (remaining : Dec) : M (FarmState S) Dec :=
  match pools with
  | [] => mret remaining
  | (pool, value) :: pools =>
      allocatedAmt ← (match pools with
                      | [] => mret remaining
                      | _ => x ← lift (Dec_MulTruncate value yieldedNativeTokenAmt);
                             lift (Dec_QuoTruncate x totalPoolsValue)
                      end);
      remaining ← lift (Dec_Sub remaining allocatedAmt);
      allocatedCoins ← lift (NewDecCoinsFromDec DefaultBondDenom allocatedAmt);
      current ← GetPoolCurrentRewards (Fp_Name pool);
      rewards ← lift (DecCoins_Add2 (Cr_Rewards current) allocatedCoins);
      _ ← SetPoolCurrentRewards (Fp_Name pool)
            (mkCurrent (Cr_StartBlockHeight current) (Cr_Period current) rewards);
      accumulated ← lift (DecCoins_Add2 (Fp_TotalAccumulatedRewards pool) allocatedCoins);
      _ ← SetFarmPool (set_yielded pool (Fp_YieldedTokenInfos pool) accumulated);
      allocate yieldedNativeTokenAmt totalPoolsValue pools remaining
  end.

(** [panic(err)] after a call. *)
Definition mustSucceed {A} (m : M (FarmState S) A) : M (FarmState S) A := λ s,
  match m s with (Err _, s') => (Panic "should not happen", s') | r => r end.

Definition Farm_BeginBlocker : M (FarmState S) unit :=
  match ck_modaddr MintFarmingAccount with
  | None => panic "nil pointer dereference"
  | Some moduleAcc =>
      coins ← fa_on_supply (ck_GetCoins moduleAcc);
      yieldedNativeTokenAmt ← lift (DecCoins_AmountOf coins DefaultBondDenom);
      if Dec_LTE yieldedNativeTokenAmt ZeroDec then mret ()
      else
        yieldedNativeToken ← lift (NewDecCoinsFromDec DefaultBondDenom yieldedNativeTokenAmt);
        params ← gets fa_params;
        if negb (Fa_YieldNativeToken params)
        then mustSucceed (fa_on_supply (ck_BurnCoins MintFarmingAccount yieldedNativeToken))
        else
          '(pools, totalPoolsValue) ← calculateAllocateInfo;
          if Dec_LTE totalPoolsValue ZeroDec then mret ()
          else
            remaining ← allocate yieldedNativeTokenAmt totalPoolsValue pools yieldedNativeTokenAmt;
            _ ← panic_if (negb (Dec_IsZero remaining)) "there are some tokens not to be allocated";
            mustSucceed (fa_on_supply
              (ck_SendCoinsFromModuleToModule MintFarmingAccount YieldFarmingAccount yieldedNativeToken))
  end.

(** ** The whitelist *)

Definition isSwapTokenPairExisted (baseTokenSymbol quoteTokenSymbol : string) (s : FarmState S) : bool :=
  bool_decide (is_Some (sw_pairs (fa_swap s) !! GetSwapTokenPairName baseTokenSymbol quoteTokenSymbol)).
Definition satisfyWhiteListAdmittance (pool : FarmPool) : M (FarmState S) unit :=
  quoteTokenSymbol ← gets (λ s, Fa_QuoteSymbol (fa_params s));
  let denom := Denom (Fp_MinLockAmount pool) in
  if String.eqb denom quoteTokenSymbol then mret ()
  else if negb (IsPoolToken denom) then
    ok ← gets (isSwapTokenPairExisted denom quoteTokenSymbol);
    guard_not (negb ok) "ErrSwapTokenPairNotExist"
  else
    '(tokenSymbol0, tokenSymbol1) ← lift (SplitPoolToken denom);
    if String.eqb tokenSymbol0 quoteTokenSymbol || String.eqb tokenSymbol1 quoteTokenSymbol then
      ok ← gets (isSwapTokenPairExisted tokenSymbol0 tokenSymbol1);
      guard_not (negb ok) "ErrTokenNotExist"
    else
      ok ← gets (isSwapTokenPairExisted tokenSymbol0 quoteTokenSymbol);
      _ ← guard_not (negb ok) "ErrSwapTokenPairNotExist";
      ok ← gets (isSwapTokenPairExisted tokenSymbol1 quoteTokenSymbol);
      guard_not (negb ok) "ErrSwapTokenPairNotExist".
Definition CheckMsgManageWhiteListProposal (poolName : string) (isAdded : bool) : M (FarmState S) unit :=
  if isAdded then
    pool ← GetFarmPool poolName;
    match pool with
    | None => fail "ErrNoFarmPoolFound"
    | Some pool => satisfyWhiteListAdmittance pool
    end
  else
    ok ← gets (λ s, bool_decide (poolName ∈ fa_whitelist s));
    guard_not (negb ok) "ErrPoolNameNotExistedInWhiteList".
Definition handleManageWhiteListProposal (poolName : string) (isAdded : bool) : M (FarmState S) unit :=
  _ ← CheckMsgManageWhiteListProposal poolName isAdded;
  if isAdded
  then modify (λ s, fa_set_whitelist ({[ poolName ]} ∪ fa_whitelist s) s)
  else modify (λ s, fa_set_whitelist (fa_whitelist s ∖ {[ poolName ]}) s).

(** ** Registered invariants *)

Fixpoint sumCoins (acc : list DecCoin) (l : list (list DecCoin)) : outcome (list DecCoin) :=
  match l with
  | [] => Ok acc
  | c :: l => acc ← DecCoins_Add2 acc c; sumCoins acc l
  end.
Definition moduleCoins (name : string) : M (FarmState S) (list DecCoin) :=
  match ck_modaddr name with
  | None => panic "nil pointer dereference"
  | Some addr => fa_on_supply (ck_GetCoins addr)
  end.
(** [mapM] in the order of the list, for the conversions of the loops. *)
Fixpoint mapCoins {A} (f : A → outcome (list DecCoin)) (l : list A) : outcome (list (list DecCoin)) :=
  match l with
  | [] => Ok []
  | x :: l => c ← f x; cs ← mapCoins f l; Ok (c :: cs)
  end.
(** All lock infos; their sum does not depend on the order. *)
Definition lockInfos (s : FarmState S) : list LockInfo := snd <$> map_to_list (fa_locks s).

(** [true] is a broken invariant. *)
Definition moduleAccountInvariant : M (FarmState S) bool :=
  pools ← gets GetFarmPools;
  deposits ← lift (mapCoins (λ p, DecCoin_ToCoins (Fp_DepositAmount p)) pools);
  totalDepositAmount ← lift (sumCoins [] deposits);
  locks ← gets lockInfos;
  amounts ← lift (mapCoins (λ l, NewDecCoins [Li_Amount l]) locks);
  totalLockedAmount ← lift (sumCoins [] amounts);
  moduleAccAmount ← moduleCoins FarmModuleName;
  expected ← lift (DecCoins_Add2 totalDepositAmount totalLockedAmount);
  equal ← lift (DecCoins_IsEqual moduleAccAmount expected);
  mret (negb equal).
Definition yieldFarmingAccountInvariant : M (FarmState S) bool :=
  pools ← gets GetFarmPools;
  expected ← lift (sumCoins [] (pools ≫= λ p, Fp_TotalAccumulatedRewards p ::
    ((λ y, [Yt_RemainingAmount y]) <$> Fp_YieldedTokenInfos p)));
  actual ← moduleCoins YieldFarmingAccount;
  equal ← lift (DecCoins_IsEqual expected actual);
  mret (negb equal).
Definition mintFarmingAccountInvariant : M (FarmState S) bool :=
  coins ← moduleCoins MintFarmingAccount;
  whiteLists ← gets whitelist_names;
  mret (negb (length whiteLists =? 0)%nat && negb (DecCoins_IsZero coins)).

(** ** Messages as they are delivered *)

Inductive FarmMsg :=
  | FmCreatePool (m : MsgCreatePool)
  | FmDestroyPool (owner poolName : string)
  | FmProvide (m : MsgProvide)
  | FmLock (m : MsgLock)
  | FmUnlock (m : MsgLock)
  | FmClaim (poolName address : string).
Definition FarmMsg_ValidateBasic (m : FarmMsg) : outcome unit :=
  match m with
  | FmCreatePool m => MsgCreatePool_ValidateBasic m
  | FmDestroyPool owner poolName => MsgDestroyPool_ValidateBasic owner poolName
  | FmProvide m => MsgProvide_ValidateBasic m
  | FmLock m | FmUnlock m => MsgLock_ValidateBasic m
  | FmClaim poolName address => MsgClaim_ValidateBasic poolName address
  end.
Definition Farm_Handler (blockHeight : Z) (m : FarmMsg) : M (FarmState S) unit :=
  match m with
  | FmCreatePool m => handleMsgCreatePool blockHeight m
  | FmDestroyPool owner poolName => handleMsgDestroyPool blockHeight owner poolName
  | FmProvide m => handleMsgProvide blockHeight m
  | FmLock m => handleMsgLock blockHeight m
  | FmUnlock m => handleMsgUnlock blockHeight m
  | FmClaim poolName address => _ ← handleMsgClaim blockHeight poolName address; mret ()
  end.
(** A message that fails its basic check does not reach the handler. *)
Definition farm_deliver (blockHeight : Z) (m : FarmMsg) : M (FarmState S) unit :=
  _ ← lift (FarmMsg_ValidateBasic m);
  Farm_Handler blockHeight m.

End FarmKeeper.
