(* ===== verification/FarmProps.v ===== *)
(** * The farm module: proofs

    The accounts of the module hold exactly what its records say, reference
    counts are the numbers of references, and the rewards that all lockers of
    a pool could claim are covered by what the pool has accumulated. *)
From Stdlib Require Import Ascii.
From S2P Require Import Prelude Decimal Denom Coins Bank CoinKeeper Token Swap DecStr Farm.
#[local] Open Scope Z_scope.

#[local] Abbreviation P := precisionReuse.

(** ** What is summed up *)

Definition coin_at (d : string) (c : DecCoin) : Z := amount_of [c] d.
Definition remaining_at (d : string) (infos : list YieldedTokenInfo) : Z :=
  foldr (λ y acc, coin_at d (Yt_RemainingAmount y) + acc) 0 infos.
(** What the yield account holds for a pool. *)
Definition holdings (d : string) (pool : FarmPool) : Z :=
  amount_of (Fp_TotalAccumulatedRewards pool) d + remaining_at d (Fp_YieldedTokenInfos pool).
Definition locked_in (p : string) (l : LockInfo) : Z :=
  if String.eqb (Li_PoolName l) p then Amount (Li_Amount l) else 0.

Definition count_at (hist : gmap (string * Z) PoolHistoricalRewards) (key : string * Z) : Z :=
  match hist !! key with Some x => Hr_ReferenceCount x | None => 0 end.
Definition ratio_at (hist : gmap (string * Z) PoolHistoricalRewards) (d : string) (key : string * Z) : Z :=
  match hist !! key with Some x => amount_of (Hr_CumulativeRewardRatio x) d | None => 0 end.
(** The references to a period: of the current period, and of a lock. *)
Definition follows (cur : gmap string PoolCurrentRewards) (p : string) (per : Z) : Z :=
  match cur !! p with Some c => if Cr_Period c - 1 =? per then 1 else 0 | None => 0 end.
Definition refers (p : string) (per : Z) (l : LockInfo) : Z :=
  if String.eqb (Li_PoolName l) p && (Li_ReferencePeriod l =? per) then 1 else 0.
(** What a lock of pool [p] has earned up to period [per], times 10^36. *)
Definition owed (hist : gmap (string * Z) PoolHistoricalRewards) (d p : string) (per : Z) (l : LockInfo) : Z :=
  if String.eqb (Li_PoolName l) p
  then Amount (Li_Amount l) * (ratio_at hist d (p, per) - ratio_at hist d (p, Li_ReferencePeriod l))
  else 0.

Ltac pool_simpl :=
  cbn [set_yielded set_locked Fp_Name Fp_Owner Fp_TotalValueLocked Fp_MinLockAmount Fp_DepositAmount
       Fp_YieldedTokenInfos Fp_TotalAccumulatedRewards Cr_Rewards Cr_Period Cr_StartBlockHeight
       Hr_CumulativeRewardRatio Hr_ReferenceCount Amount Denom at_key].

Definition info_ok (y : YieldedTokenInfo) : Prop :=
  0 ≤ Amount (Yt_RemainingAmount y) ∧ 0 ≤ Yt_AmountYieldedPerBlock y.

(** ** The invariant *)

Section Invariant.
Context {S : Type} `{CoinKeeper S} (farmAddr yieldAddr : string).
Implicit Types (hist : gmap (string * Z) PoolHistoricalRewards) (cur : gmap string PoolCurrentRewards)
  (locks : gmap (string * string) LockInfo) (pools : gmap string FarmPool).

(** A pool: the value locked is the sum of the locks, and all that the locks
    have earned up to the last period, together with the rewards of the
    current period, is covered by the accumulated rewards. *)
Record pool_inv (k : Z) locks hist (p : string) (pool : FarmPool) (c : PoolCurrentRewards) : Prop := {
  pi_name : Fp_Name pool = p;
  pi_denom : Denom (Fp_TotalValueLocked pool) = Denom (Fp_MinLockAmount pool);
  pi_locked : Amount (Fp_TotalValueLocked pool) = map_sum (locked_in p) locks;
  pi_deposit : 0 ≤ Amount (Fp_DepositAmount pool);
  pi_infos : Forall info_ok (Fp_YieldedTokenInfos pool);
  pi_acc : wf_coins (Fp_TotalAccumulatedRewards pool);
  pi_rewards : wf_coins (Cr_Rewards c);
  pi_period : 1 ≤ Cr_Period c ≤ k;
  pi_cover : ∀ d, map_sum (owed hist d p (Cr_Period c - 1)) locks + P * amount_of (Cr_Rewards c) d
    ≤ P * amount_of (Fp_TotalAccumulatedRewards pool) d;
  pi_mono : ∀ d per x, hist !! (p, per) = Some x →
    amount_of (Hr_CumulativeRewardRatio x) d ≤ ratio_at hist d (p, Cr_Period c - 1) }.

Record lock_inv pools cur (a p : string) (l : LockInfo) : Prop := {
  li_owner : Li_Owner l = a;
  li_pool : Li_PoolName l = p;
  li_pos : 0 < Amount (Li_Amount l);
  li_ref : ∃ pool c, pools !! p = Some pool ∧ cur !! p = Some c ∧
    Denom (Li_Amount l) = Denom (Fp_MinLockAmount pool) ∧ 0 ≤ Li_ReferencePeriod l < Cr_Period c }.

(** The invariant over the stores; [k] bounds the number of periods. *)
Record stores_inv (k : Z) (coins : S) pools locks hist cur : Prop := {
  fi_wf : ck_wf coins;
  fi_pools : ∀ p pool, pools !! p = Some pool → ∃ c, cur !! p = Some c ∧ pool_inv k locks hist p pool c;
  fi_current : ∀ p c, cur !! p = Some c → is_Some (pools !! p);
  fi_locks : ∀ a p l, locks !! (a, p) = Some l → lock_inv pools cur a p l;
  fi_count : ∀ p per, count_at hist (p, per) = follows cur p per + map_sum (refers p per) locks;
  fi_hist : ∀ key x, hist !! key = Some x → 0 < Hr_ReferenceCount x ∧ wf_coins (Hr_CumulativeRewardRatio x);
  fi_farm : ∀ d, ck_balance coins farmAddr d
    = map_sum (λ pool, coin_at d (Fp_DepositAmount pool)) pools + map_sum (λ l, coin_at d (Li_Amount l)) locks;
  fi_yield : ∀ d, ck_balance coins yieldAddr d = map_sum (holdings d) pools }.

Definition fa_coins (s : FarmState S) : S := ts_coins (sw_token (fa_swap s)).
Definition farm_inv (k : Z) (s : FarmState S) : Prop :=
  stores_inv k (fa_coins s) (fa_pools s) (fa_locks s) (fa_historical s) (fa_current s).

(** *** Updating one lock *)

Definition put_lock (key : string * string) (o : option LockInfo) locks : gmap (string * string) LockInfo :=
  match o with Some l => <[key := l]> locks | None => delete key locks end.
Lemma put_lock_sum f key o locks :
  map_sum f (put_lock key o locks) = map_sum f locks - at_key f (locks !! key) + at_key f o.
Proof. destruct o; cbn; [rewrite map_sum_insert|rewrite map_sum_delete]; lia. Qed.
Lemma put_lock_lookup key o locks x l :
  put_lock key o locks !! x = Some l ↔ key = x ∧ o = Some l ∨ key ≠ x ∧ locks !! x = Some l.
Proof.
  destruct o; cbn; [rewrite lookup_insert_Some; naive_solver|rewrite lookup_delete_Some; naive_solver].
Qed.

(** The count of a period that a lock refers to is positive. *)
Lemma refers_nonneg p per l : 0 ≤ refers p per l.
Proof. unfold refers. destruct (_ && _); lia. Qed.
Lemma refers_lock locks key l :
  locks !! key = Some l → 1 ≤ map_sum (refers (Li_PoolName l) (Li_ReferencePeriod l)) locks.
Proof.
  intros Hl. etransitivity; [|eapply (map_sum_ge _ _ key); [|exact Hl]].
  - unfold refers. rewrite String.eqb_refl, Z.eqb_refl. done.
  - intros. apply refers_nonneg.
Qed.
Lemma follows_nonneg cur p per : 0 ≤ follows cur p per.
Proof. unfold follows. destruct (cur !! p); [|lia]. destruct (_ =? _); lia. Qed.

Lemma count_pos_some hist key : 0 < count_at hist key → ∃ x, hist !! key = Some x.
Proof. unfold count_at. destruct (hist !! key); [eauto|lia]. Qed.

Lemma owed_ext hist hist' d p per locks :
  ratio_at hist' d (p, per) = ratio_at hist d (p, per) →
  (∀ key l, locks !! key = Some l → Li_PoolName l = p →
    ratio_at hist' d (p, Li_ReferencePeriod l) = ratio_at hist d (p, Li_ReferencePeriod l)) →
  map_sum (owed hist' d p per) locks = map_sum (owed hist d p per) locks.
Proof.
  intros E1 E2. apply map_sum_ext. intros key l Hl. unfold owed.
  destruct (String.eqb_spec (Li_PoolName l) p) as [Hp|]; [|done]. by rewrite E1, (E2 key l).
Qed.

(** The sums of another pool do not see a lock of pool [p]. *)
Lemma put_lock_other f q key o locks :
  (∀ l, Li_PoolName l ≠ q → f l = 0) →
  (∀ l, locks !! key = Some l → Li_PoolName l ≠ q) → (∀ l, o = Some l → Li_PoolName l ≠ q) →
  map_sum f (put_lock key o locks) = map_sum f locks.
Proof.
  intros Hf H1 H2. rewrite put_lock_sum.
  destruct (locks !! key) as [l|], o as [l'|]; cbn; rewrite ?(Hf l), ?(Hf l') by auto; lia.
Qed.
Lemma locked_other q l : Li_PoolName l ≠ q → locked_in q l = 0.
Proof. intros Hn. unfold locked_in. by destruct (String.eqb_spec (Li_PoolName l) q). Qed.
Lemma owed_other hist d q per l : Li_PoolName l ≠ q → owed hist d q per l = 0.
Proof. intros Hn. unfold owed. by destruct (String.eqb_spec (Li_PoolName l) q). Qed.
Lemma refers_other q per l : Li_PoolName l ≠ q → refers q per l = 0.
Proof. intros Hn. unfold refers. by destruct (String.eqb_spec (Li_PoolName l) q). Qed.

(** A pool that is not touched. *)
Lemma pool_inv_frame k k' locks locks' hist hist' p pool c :
  k ≤ k' → pool_inv k locks hist p pool c →
  map_sum (locked_in p) locks' = map_sum (locked_in p) locks →
  (∀ d per, map_sum (owed hist d p per) locks' = map_sum (owed hist d p per) locks) →
  (∀ per, hist' !! (p, per) = hist !! (p, per)) →
  pool_inv k' locks' hist' p pool c.
Proof.
  intros Hk [A1 A2 A3 A4 A5 A6 A7 A8 A9 A10] Hl Ho Hh.
  assert (∀ d per, ratio_at hist' d (p, per) = ratio_at hist d (p, per)) as Er
    by (intros; unfold ratio_at; by rewrite Hh).
  split; try done; [congruence|lia| |].
  - intros d. rewrite (owed_ext hist) by auto. by rewrite Ho.
  - intros d per x. rewrite Hh, Er. apply A10.
Qed.

(** *** Reference counts *)

Definition dec_ref (key : string * Z) hist : gmap (string * Z) PoolHistoricalRewards :=
  match hist !! key with
  | Some x => if Hr_ReferenceCount x - 1 =? 0 then delete key hist
              else <[key := mkHistorical (Hr_CumulativeRewardRatio x) (Hr_ReferenceCount x - 1)]> hist
  | None => hist
  end.
Definition inc_ref (key : string * Z) hist : gmap (string * Z) PoolHistoricalRewards :=
  match hist !! key with
  | Some x => <[key := mkHistorical (Hr_CumulativeRewardRatio x) (Hr_ReferenceCount x + 1)]> hist
  | None => hist
  end.

Lemma dec_ref_count key hist k :
  is_Some (hist !! key) → count_at (dec_ref key hist) k = count_at hist k - (if decide (k = key) then 1 else 0).
Proof.
  intros [x Hx]. unfold dec_ref, count_at. rewrite Hx. destruct (decide (k = key)) as [->|Hne].
  - rewrite Hx. destruct (Z.eqb_spec (Hr_ReferenceCount x - 1) 0).
    + rewrite lookup_delete_eq. lia.
    + by rewrite lookup_insert_eq.
  - destruct (_ =? 0); [rewrite lookup_delete_ne|rewrite lookup_insert_ne]; [lia|done|lia|done].
Qed.
Lemma inc_ref_count key hist k :
  is_Some (hist !! key) → count_at (inc_ref key hist) k = count_at hist k + (if decide (k = key) then 1 else 0).
Proof.
  intros [x Hx]. unfold inc_ref, count_at. rewrite Hx. destruct (decide (k = key)) as [->|Hne].
  - by rewrite lookup_insert_eq, Hx.
  - rewrite lookup_insert_ne by done. lia.
Qed.

(** Entries are kept with their ratio, or removed. *)
Definition kept_ratio hist hist' : Prop := ∀ key x', hist' !! key = Some x' →
  0 < Hr_ReferenceCount x' ∧ ∃ x, hist !! key = Some x ∧
    Hr_CumulativeRewardRatio x' = Hr_CumulativeRewardRatio x.

Definition counts_pos hist : Prop := ∀ key x, hist !! key = Some x → 0 < Hr_ReferenceCount x.

Lemma dec_ref_kept key hist : counts_pos hist → kept_ratio hist (dec_ref key hist).
Proof.
  intros Hpos k x'. unfold dec_ref. destruct (hist !! key) as [x|] eqn:Hx; [|eauto].
  destruct (Z.eqb_spec (Hr_ReferenceCount x - 1) 0).
  - intros [_ Hk]%lookup_delete_Some. eauto.
  - intros [[<- <-]|[_ Hk]]%lookup_insert_Some; [|eauto]. cbn. specialize (Hpos _ _ Hx). split; [lia|eauto].
Qed.
Lemma inc_ref_kept key hist : counts_pos hist → kept_ratio hist (inc_ref key hist).
Proof.
  intros Hpos k x'. unfold inc_ref. destruct (hist !! key) as [x|] eqn:Hx; [|eauto].
  intros [[<- <-]|[_ Hk]]%lookup_insert_Some; [|eauto]. cbn. specialize (Hpos _ _ Hx). split; [lia|eauto].
Qed.
Lemma kept_ratio_pos hist hist' : kept_ratio hist hist' → counts_pos hist'.
Proof. intros H0 key x Hx. by destruct (H0 key x Hx). Qed.
Lemma kept_ratio_refl hist : counts_pos hist → kept_ratio hist hist.
Proof. intros H0 key x Hx. eauto. Qed.
Lemma kept_ratio_trans h1 h2 h3 : kept_ratio h1 h2 → kept_ratio h2 h3 → kept_ratio h1 h3.
Proof.
  intros A B key x (Hp & y & Hy & Ey)%B. apply A in Hy as (_ & z & Hz & Ez). split; [done|].
  exists z. split; [done|congruence].
Qed.
Lemma kept_ratio_at hist hist' d key :
  kept_ratio hist hist' → 0 < count_at hist' key → ratio_at hist' d key = ratio_at hist d key.
Proof.
  intros Hk (x & Hx)%count_pos_some. unfold ratio_at. rewrite Hx.
  destruct (Hk _ _ Hx) as (_ & y & -> & ->). done.
Qed.

(** *** Ending a period *)

Lemma locked_nonneg k coins pools locks hist cur p :
  stores_inv k coins pools locks hist cur → 0 ≤ map_sum (locked_in p) locks.
Proof.
  intros Hi. apply map_sum_nonneg. intros [a q] l Hl. unfold locked_in. destruct (String.eqb _ _); [|lia].
  destruct (fi_locks _ _ _ _ _ _ Hi _ _ _ Hl). lia.
Qed.

Lemma no_refs_ahead k coins pools locks hist cur p c :
  stores_inv k coins pools locks hist cur → cur !! p = Some c → map_sum (refers p (Cr_Period c)) locks = 0.
Proof.
  intros Hi Hc. rewrite (map_sum_ext _ (λ _, 0)).
  - rewrite <- (map_sum_ext (λ _, 0 * 0)) by done. rewrite map_sum_scale. lia.
  - intros [a q] l Hl. unfold refers.
    destruct (fi_locks _ _ _ _ _ _ Hi _ _ _ Hl) as [_ Hq _ (pool' & c' & _ & Hc' & _ & Hr)].
    rewrite Hq. destruct (String.eqb_spec q p) as [->|]; [|done]. cbn.
    assert (c' = c) as -> by congruence. destruct (Z.eqb_spec (Li_ReferencePeriod l) (Cr_Period c)); [lia|done].
Qed.

Lemma inv_advance k coins pools locks hist cur p pool c h infos' acc' (y : string → Z) ratio' :
  stores_inv k coins pools locks hist cur → pools !! p = Some pool → cur !! p = Some c →
  Forall info_ok infos' → wf_coins acc' →
  (∀ d, amount_of acc' d = amount_of (Fp_TotalAccumulatedRewards pool) d + y d) →
  (∀ d, remaining_at d infos' = remaining_at d (Fp_YieldedTokenInfos pool) - y d) →
  wf_coins ratio' →
  (∀ d, ∃ q, 0 ≤ q ∧ amount_of ratio' d = ratio_at hist d (p, Cr_Period c - 1) + q ∧
    q * Amount (Fp_TotalValueLocked pool) ≤ P * (amount_of (Cr_Rewards c) d + y d)) →
  stores_inv (k + 1) coins (<[p := set_yielded pool infos' acc']> pools) locks
    (<[(p, Cr_Period c) := mkHistorical ratio' 1]> (dec_ref (p, Cr_Period c - 1) hist))
    (<[p := mkCurrent h (Cr_Period c + 1) []]> cur).
Proof.
  intros Hi Hp Hc Hinf Hacc Hy Hrem Hrat Hq. pose proof Hi as [I1 I2 I3 I4 I5 I6 I7 I8].
  destruct (I2 p pool Hp) as (c0 & Hc0 & [A1 A2 A3 A4 A5 A6 A7 A8 A9 A10]).
  assert (c0 = c) as -> by congruence. clear Hc0.
  set (hist' := <[(p, Cr_Period c) := mkHistorical ratio' 1]> (dec_ref (p, Cr_Period c - 1) hist)).
  assert (counts_pos hist) as Hpos by (intros key x Hx; by apply I6 in Hx as [? _]).
  assert (is_Some (hist !! (p, Cr_Period c - 1))) as Hprev.
  { apply count_pos_some. rewrite I5. unfold follows. rewrite Hc, Z.eqb_refl.
    assert (0 ≤ map_sum (refers p (Cr_Period c - 1)) locks)
      by (apply map_sum_nonneg; intros; apply refers_nonneg). lia. }
  pose proof (dec_ref_kept (p, Cr_Period c - 1) hist Hpos) as Hkept.
  assert (∀ p' per, count_at hist' (p', per)
    = follows (<[p := mkCurrent h (Cr_Period c + 1) []]> cur) p' per + map_sum (refers p' per) locks) as Hcount.
  { intros p' per. unfold follows, hist', count_at. destruct (decide ((p, Cr_Period c) = (p', per))) as [[= <- <-]|Hne].
    - rewrite !lookup_insert_eq. cbn. rewrite (no_refs_ahead _ _ _ _ _ _ _ _ Hi Hc).
      destruct (Z.eqb_spec (Cr_Period c + 1 - 1) (Cr_Period c)); lia.
    - rewrite lookup_insert_ne by done. fold (count_at (dec_ref (p, Cr_Period c - 1) hist) (p', per)).
      rewrite dec_ref_count, I5 by done. unfold follows. destruct (decide (p = p')) as [<-|Hp'].
      + rewrite lookup_insert_eq, Hc. cbn [Cr_Period]. assert (per ≠ Cr_Period c) by (intros ->; by apply Hne).
        case_decide as Hd; [injection Hd as Hd|assert (per ≠ Cr_Period c - 1) by (intros ->; by apply Hd)];
          destruct (Z.eqb_spec (Cr_Period c - 1) per), (Z.eqb_spec (Cr_Period c + 1 - 1) per); lia.
      + rewrite lookup_insert_ne by done. case_decide as Hd; [congruence|]. lia. }
  assert (∀ d key l, locks !! key = Some l → Li_PoolName l = p →
    ratio_at hist' d (p, Li_ReferencePeriod l) = ratio_at hist d (p, Li_ReferencePeriod l)) as Hratio.
  { intros d [a q] l Hl Hlp. destruct (I4 _ _ _ Hl) as [_ Hq' _ (pool' & c' & _ & Hc' & _ & Hr)].
    assert (q = p) as -> by congruence. assert (c' = c) as -> by congruence.
    pose proof (refers_lock _ _ _ Hl) as H1. rewrite Hlp in H1.
    unfold ratio_at, hist'. rewrite lookup_insert_ne by (intros [=]; lia).
    fold (ratio_at (dec_ref (p, Cr_Period c - 1) hist) d (p, Li_ReferencePeriod l)).
    apply kept_ratio_at; [done|]. specialize (Hcount p (Li_ReferencePeriod l)).
    unfold hist', count_at in Hcount. rewrite lookup_insert_ne in Hcount by (intros [=]; lia).
    fold (count_at (dec_ref (p, Cr_Period c - 1) hist) (p, Li_ReferencePeriod l)) in Hcount. rewrite Hcount.
    pose proof (follows_nonneg (<[p := mkCurrent h (Cr_Period c + 1) []]> cur) p (Li_ReferencePeriod l)). lia. }
  split; try done.
  - (* pools *)
    intros p' pool' [[<- <-]|[Hne Hp']]%lookup_insert_Some.
    + eexists. split; [apply lookup_insert_eq|]. split; pool_simpl; try done; [apply wf_coins_nil|lia| |].
      * intros d. rewrite amount_of_nil, Hy. destruct (Hq d) as (q & Hq0 & Hr' & Hq1).
        replace (Cr_Period c + 1 - 1) with (Cr_Period c) by lia.
        rewrite (map_sum_ext _ (λ l, owed hist d p (Cr_Period c - 1) l + locked_in p l * q)).
        { rewrite map_sum_add, map_sum_scale, <- A3. specialize (A9 d). nia. }
        intros key l Hl. unfold owed, locked_in. destruct (String.eqb_spec (Li_PoolName l) p) as [Hlp|]; [|lia].
        rewrite (Hratio d key l Hl Hlp). unfold ratio_at at 1, hist'. rewrite lookup_insert_eq. cbn [Hr_CumulativeRewardRatio].
        rewrite Hr'. lia.
      * intros d per x Hx. replace (Cr_Period c + 1 - 1) with (Cr_Period c) by lia.
        unfold ratio_at, hist'. rewrite lookup_insert_eq. pool_simpl.
        apply lookup_insert_Some in Hx as [[_ <-]|[_ Hx]]; [done|].
        destruct (Hq d) as (q & Hq0 & -> & _).
        apply Hkept in Hx as (_ & x0 & Hx0 & ->). specialize (A10 d per x0 Hx0). lia.
    + destruct (I2 p' pool' Hp') as (c' & Hc' & Hpi). exists c'. split; [by rewrite lookup_insert_ne|].
      eapply pool_inv_frame; [|exact Hpi|done|done|]; [lia|]. intros per. unfold hist'.
      rewrite lookup_insert_ne by congruence. unfold dec_ref. destruct (hist !! (p, _)); [|done].
      destruct (_ =? 0); [rewrite lookup_delete_ne|rewrite lookup_insert_ne]; congruence.
  - (* current *)
    intros p' c' [[<- _]|[_ Hc']]%lookup_insert_Some; apply lookup_insert_is_Some; [by left|].
    destruct (decide (p = p')); [by left|right; split; [done|by eapply I3]].
  - (* locks *)
    intros a p' l Hl. destruct (I4 a p' l Hl) as [B1 B2 B3 (pool' & c' & Hp' & Hc' & B4 & B5)]. split; try done.
    destruct (decide (p = p')) as [<-|Hne].
    + assert (pool' = pool) as -> by congruence. assert (c' = c) as -> by congruence.
      eexists _, _. split; [apply lookup_insert_eq|]. split; [apply lookup_insert_eq|]. cbn. split; [done|lia].
    + exists pool', c'. by rewrite !lookup_insert_ne.
  - (* history *)
    intros key x [[_ <-]|[_ Hx]]%lookup_insert_Some; [cbn; split; [lia|done]|].
    apply Hkept in Hx as (Hx & y' & Hy' & ->). split; [done|]. by apply I6 in Hy' as [_ ?].
  - (* farm account *)
    intros d. rewrite I7, map_sum_insert, Hp. pool_simpl. lia.
  - (* yield account *)
    intros d. rewrite I8, map_sum_insert, Hp. unfold holdings. pool_simpl. rewrite Hy, Hrem. lia.
Qed.

(** *** Paying a lock and changing its amount *)

Definition ref_of (p : string) (o : option LockInfo) (key : string * Z) : Z :=
  at_key (λ l, if decide (key = (p, Li_ReferencePeriod l)) then 1 else 0) o.

Lemma ref_of_refers p o p' per :
  (∀ l, o = Some l → Li_PoolName l = p) → at_key (refers p' per) o = ref_of p o (p', per).
Proof.
  intros Hl. unfold ref_of. destruct o as [l|]; [|done]. cbn. unfold refers. rewrite (Hl l eq_refl).
  destruct (String.eqb_spec p p') as [<-|Hne], (Z.eqb_spec (Li_ReferencePeriod l) per) as [<-|Hne'];
    cbn; case_decide; congruence.
Qed.

Lemma inv_settle k coins coins' pools locks hist hist' cur p pool c a nl (r : string → Z) acc' locked' :
  stores_inv k coins pools locks hist cur → pools !! p = Some pool → cur !! p = Some c →
  (∀ l, nl = Some l → Li_Owner l = a ∧ Li_PoolName l = p ∧ 0 < Amount (Li_Amount l) ∧
    Denom (Li_Amount l) = Denom (Fp_MinLockAmount pool) ∧ Li_ReferencePeriod l = Cr_Period c - 1) →
  (∀ key, count_at hist' key
    = count_at hist key - ref_of p (locks !! (a, p)) key + ref_of p nl key) →
  kept_ratio hist hist' → wf_coins acc' →
  (∀ d, amount_of acc' d = amount_of (Fp_TotalAccumulatedRewards pool) d - r d) →
  (∀ d, P * r d ≤ at_key (owed hist d p (Cr_Period c - 1)) (locks !! (a, p))) →
  Denom locked' = Denom (Fp_MinLockAmount pool) →
  Amount locked' = Amount (Fp_TotalValueLocked pool) - at_key (λ l, Amount (Li_Amount l)) (locks !! (a, p))
    + at_key (λ l, Amount (Li_Amount l)) nl →
  ck_wf coins' →
  (∀ d, ck_balance coins' farmAddr d = ck_balance coins farmAddr d
    - at_key (λ l, coin_at d (Li_Amount l)) (locks !! (a, p)) + at_key (λ l, coin_at d (Li_Amount l)) nl) →
  (∀ d, ck_balance coins' yieldAddr d = ck_balance coins yieldAddr d - r d) →
  stores_inv k coins' (<[p := set_locked pool locked' acc']> pools) (put_lock (a, p) nl locks) hist' cur.
Proof.
  intros Hi Hp Hc Hnl Hcnt Hkept Hacc Hr Hcov Hden Hamt Hwf Hfarm Hyield. pose proof Hi as [I1 I2 I3 I4 I5 I6 I7 I8].
  destruct (I2 p pool Hp) as (c0 & Hc0 & [A1 A2 A3 A4 A5 A6 A7 A8 A9 A10]).
  assert (c0 = c) as -> by congruence. clear Hc0.
  assert (∀ l, locks !! (a, p) = Some l → Li_PoolName l = p) as Hol by (intros l Hl; by apply I4 in Hl as []).
  assert (∀ l, nl = Some l → Li_PoolName l = p) as Hnl' by (intros l Hl; by apply Hnl in Hl as (_ & ? & _)).
  assert (∀ p' per, count_at hist' (p', per) = follows cur p' per + map_sum (refers p' per) (put_lock (a, p) nl locks))
    as Hcount.
  { intros p' per. rewrite Hcnt, I5, put_lock_sum, !(ref_of_refers p) by done. lia. }
  assert (∀ d, ratio_at hist' d (p, Cr_Period c - 1) = ratio_at hist d (p, Cr_Period c - 1)) as Hlast.
  { intros d. apply kept_ratio_at; [done|]. rewrite Hcount. unfold follows. rewrite Hc, Z.eqb_refl.
    assert (0 ≤ map_sum (refers p (Cr_Period c - 1)) (put_lock (a, p) nl locks))
      by (apply map_sum_nonneg; intros; apply refers_nonneg). lia. }
  assert (∀ d key l, put_lock (a, p) nl locks !! key = Some l →
    ratio_at hist' d (Li_PoolName l, Li_ReferencePeriod l) = ratio_at hist d (Li_PoolName l, Li_ReferencePeriod l)) as Hrefs.
  { intros d key l Hl. apply kept_ratio_at; [done|]. rewrite Hcount.
    pose proof (refers_lock _ _ _ Hl). pose proof (follows_nonneg cur (Li_PoolName l) (Li_ReferencePeriod l)). lia. }
  split; try done.
  - intros p' pool' [[<- <-]|[Hne Hp']]%lookup_insert_Some.
    + exists c. split; [done|]. split; pool_simpl; try done.
      * rewrite put_lock_sum, <- A3, Hamt.
        assert (∀ o, (∀ l, o = Some l → Li_PoolName l = p) →
          at_key (locked_in p) o = at_key (λ l, Amount (Li_Amount l)) o) as Hlk.
        { intros [l|] Hl; [|done]. cbn. unfold locked_in. by rewrite (Hl l eq_refl), String.eqb_refl. }
        by rewrite !Hlk.
      * intros d. rewrite (owed_ext hist); [|done|].
        2:{ intros key l Hl Hlp. specialize (Hrefs d key l Hl). by rewrite Hlp in Hrefs. }
        rewrite put_lock_sum, Hr. specialize (A9 d). specialize (Hcov d).
        assert (at_key (owed hist d p (Cr_Period c - 1)) nl = 0) as ->; [|lia].
        destruct nl as [l|]; [|done]. cbn. unfold owed. destruct (Hnl l eq_refl) as (_ & -> & _ & _ & ->).
        rewrite String.eqb_refl. lia.
      * intros d per x Hx. rewrite Hlast. apply Hkept in Hx as (_ & x0 & Hx0 & ->). by eapply A10.
    + destruct (I2 p' pool' Hp') as (c' & Hc' & [B1 B2 B3 B4 B5 B6 B7 B8 B9 B10]). exists c'. split; [done|].
      assert (∀ l, locks !! (a, p) = Some l → Li_PoolName l ≠ p') as Ho1 by (intros l Hl; rewrite (Hol l Hl); congruence).
      assert (∀ l, nl = Some l → Li_PoolName l ≠ p') as Ho2 by (intros l Hl; rewrite (Hnl' l Hl); congruence).
      assert (∀ d, ratio_at hist' d (p', Cr_Period c' - 1) = ratio_at hist d (p', Cr_Period c' - 1)) as Hlast'.
      { intros d. apply kept_ratio_at; [done|]. rewrite Hcount. unfold follows. rewrite Hc', Z.eqb_refl.
        assert (0 ≤ map_sum (refers p' (Cr_Period c' - 1)) (put_lock (a, p) nl locks))
          by (apply map_sum_nonneg; intros; apply refers_nonneg). lia. }
      split; try done.
      * rewrite (put_lock_other _ p'); [done|apply locked_other|done|done].
      * intros d. rewrite (owed_ext hist); [|done|].
        2:{ intros key l Hl Hlp. specialize (Hrefs d key l Hl). by rewrite Hlp in Hrefs. }
        rewrite (put_lock_other _ p'); [done|apply owed_other|done|done].
      * intros d per x Hx. rewrite Hlast'. apply Hkept in Hx as (_ & x0 & Hx0 & ->). by eapply B10.
  - intros p' c' Hc'. apply lookup_insert_is_Some. destruct (decide (p = p')); [by left|right; split; [done|by eapply I3]].
  - intros a' p' l [([= <- <-] & Hl)|[Hne Hl]]%put_lock_lookup.
    + destruct (Hnl l Hl) as (B1 & B2 & B3 & B4 & B5). split; try done.
      eexists _, c. split; [apply lookup_insert_eq|]. split; [done|]. pool_simpl. split; [done|]. lia.
    + destruct (I4 a' p' l Hl) as [B1 B2 B3 (pool' & c' & Hp' & Hc' & B4 & B5)]. split; try done.
      destruct (decide (p = p')) as [<-|Hn].
      * eexists _, c'. split; [apply lookup_insert_eq|]. split; [done|]. pool_simpl.
        split; [|done]. by assert (pool' = pool) as <- by congruence.
      * exists pool', c'. by rewrite lookup_insert_ne.
  - intros key x Hx. apply Hkept in Hx as (Hx & y & Hy & ->). split; [done|]. by apply I6 in Hy as [_ ?].
  - intros d. rewrite Hfarm, I7, map_sum_insert, put_lock_sum, Hp. pool_simpl. lia.
  - intros d. rewrite Hyield, I8, map_sum_insert, Hp. unfold holdings. pool_simpl. rewrite Hr. lia.
Qed.

(** *** Pools that come and go *)

(** A store with no pool of a name has no history under it. *)
Lemma fresh_history k coins pools locks hist cur p per :
  stores_inv k coins pools locks hist cur → pools !! p = None → hist !! (p, per) = None.
Proof.
  intros Hi Hp. destruct (hist !! (p, per)) as [x|] eqn:Hx; [|done].
  pose proof (fi_count _ _ _ _ _ _ Hi p per) as Hcnt. apply (fi_hist _ _ _ _ _ _ Hi) in Hx as Hx'.
  unfold count_at, follows in Hcnt. rewrite Hx in Hcnt. destruct (cur !! p) as [c|] eqn:Hc.
  { apply (fi_current _ _ _ _ _ _ Hi) in Hc as [? Hc]. congruence. }
  rewrite (map_sum_ext _ (λ _, 0 * 0)), map_sum_scale in Hcnt; [lia|]. intros [a q] l Hl.
  destruct (fi_locks _ _ _ _ _ _ Hi _ _ _ Hl) as [_ Hq _ (pool & c & Hp' & _)].
  rewrite refers_other; [done|congruence].
Qed.
Lemma fresh_locks k coins pools locks hist cur p (f : LockInfo → Z) :
  stores_inv k coins pools locks hist cur → pools !! p = None →
  (∀ l, Li_PoolName l ≠ p → f l = 0) → map_sum f locks = 0.
Proof.
  intros Hi Hp Hf. rewrite (map_sum_ext _ (λ _, 0 * 0)), map_sum_scale; [lia|]. intros [a q] l Hl.
  destruct (fi_locks _ _ _ _ _ _ Hi _ _ _ Hl) as [_ Hq _ (pool & c & Hp' & _)]. apply Hf. congruence.
Qed.

Lemma inv_create k coins coins' pools locks hist cur p pool h :
  stores_inv k coins pools locks hist cur → 1 ≤ k → pools !! p = None →
  Fp_Name pool = p → Denom (Fp_TotalValueLocked pool) = Denom (Fp_MinLockAmount pool) →
  Amount (Fp_TotalValueLocked pool) = 0 → 0 ≤ Amount (Fp_DepositAmount pool) →
  Forall info_ok (Fp_YieldedTokenInfos pool) → Fp_TotalAccumulatedRewards pool = [] →
  (∀ d, remaining_at d (Fp_YieldedTokenInfos pool) = 0) → ck_wf coins' →
  (∀ d, ck_balance coins' farmAddr d = ck_balance coins farmAddr d + coin_at d (Fp_DepositAmount pool)) →
  (∀ d, ck_balance coins' yieldAddr d = ck_balance coins yieldAddr d) →
  stores_inv k coins' (<[p := pool]> pools) locks (<[(p, 0) := mkHistorical [] 1]> hist)
    (<[p := mkCurrent h 1 []]> cur).
Proof.
  intros Hi Hk Hp E1 E2 E3 E4 E5 E6 E7 Hw Hfarm Hyield.
  pose proof (λ per, fresh_history _ _ _ _ _ _ _ per Hi Hp) as Hfr.
  pose proof (λ f, fresh_locks _ _ _ _ _ _ _ f Hi Hp) as Hfl. destruct Hi as [I1 I2 I3 I4 I5 I6 I7 I8].
  split; try done.
  - intros q pool' [[<- <-]|[Hne Hq]]%lookup_insert_Some.
    + eexists. split; [apply lookup_insert_eq|]. split; pool_simpl; try done; rewrite ?E6; try apply wf_coins_nil.
      * rewrite Hfl; [done|apply locked_other].
      * intros d. rewrite Hfl by apply owed_other. rewrite amount_of_nil. lia.
      * intros d per x. destruct (decide (per = 0)) as [->|].
        -- rewrite lookup_insert_eq. intros [= <-]. unfold ratio_at. by rewrite lookup_insert_eq.
        -- rewrite lookup_insert_ne by congruence. by rewrite Hfr.
    + destruct (I2 q pool' Hq) as (c & Hc & Hpi). exists c. split; [by rewrite lookup_insert_ne|].
      eapply pool_inv_frame; [reflexivity|exact Hpi|done|done|]. intros per. by rewrite lookup_insert_ne by congruence.
  - intros q c [[<- _]|[_ Hc]]%lookup_insert_Some; apply lookup_insert_is_Some; [by left|].
    destruct (decide (p = q)); [by left|right; split; [done|by eapply I3]].
  - intros a q l Hl. destruct (I4 a q l Hl) as [B1 B2 B3 (pool' & c' & Hp' & Hc' & B4 & B5)]. split; try done.
    exists pool', c'. by rewrite !lookup_insert_ne by congruence.
  - intros q per. unfold count_at, follows. destruct (decide (p = q)) as [<-|Hne].
    + rewrite lookup_insert_eq, Hfl by apply refers_other. pool_simpl. destruct (Z.eqb_spec (1 - 1) per) as [<-|].
      * by rewrite lookup_insert_eq.
      * rewrite lookup_insert_ne by (intros [=]; lia). by rewrite Hfr.
    + rewrite !lookup_insert_ne by congruence. apply I5.
  - intros key x [[_ <-]|[_ Hx]]%lookup_insert_Some; [|by eapply I6]. split; [done|apply wf_coins_nil].
  - intros d. rewrite Hfarm, I7, map_sum_insert, Hp. cbn [at_key]. lia.
  - intros d. rewrite Hyield, I8, map_sum_insert, Hp. unfold holdings. rewrite E6, E7, amount_of_nil. cbn [at_key]. lia.
Qed.

Lemma no_locks_left k coins pools locks hist cur p a l :
  stores_inv k coins pools locks hist cur → map_sum (locked_in p) locks = 0 → locks !! (a, p) = Some l → False.
Proof.
  intros Hi H0 Hl. destruct (fi_locks _ _ _ _ _ _ Hi _ _ _ Hl) as [_ Hq Hpos _].
  assert (locked_in p l ≤ map_sum (locked_in p) locks) as Hle.
  { eapply map_sum_ge; [|exact Hl]. intros [a' q] l' Hl'. unfold locked_in. destruct (String.eqb _ _); [|lia].
    destruct (fi_locks _ _ _ _ _ _ Hi _ _ _ Hl'). lia. }
  unfold locked_in at 1 in Hle. rewrite Hq, String.eqb_refl in Hle. lia.
Qed.

Lemma inv_remove k coins coins' pools locks hist hist' cur p pool :
  stores_inv k coins pools locks hist cur → pools !! p = Some pool → Amount (Fp_TotalValueLocked pool) = 0 →
  (∀ per, hist' !! (p, per) = None) → (∀ q per, q ≠ p → hist' !! (q, per) = hist !! (q, per)) → ck_wf coins' →
  (∀ d, ck_balance coins' farmAddr d = ck_balance coins farmAddr d - coin_at d (Fp_DepositAmount pool)) →
  (∀ d, ck_balance coins' yieldAddr d = ck_balance coins yieldAddr d - holdings d pool) →
  stores_inv k coins' (delete p pools) locks hist' (delete p cur).
Proof.
  intros Hi Hp H0 Hh1 Hh2 Hw Hfarm Hyield. destruct (fi_pools _ _ _ _ _ _ Hi _ _ Hp) as (c & Hc & Hpi).
  rewrite (pi_locked _ _ _ _ _ _ Hpi) in H0. pose proof (λ a l, no_locks_left _ _ _ _ _ _ _ a l Hi H0) as Hnone.
  destruct Hi as [I1 I2 I3 I4 I5 I6 I7 I8]. split; try done.
  - intros q pool' [Hne Hq]%lookup_delete_Some. destruct (I2 q pool' Hq) as (c' & Hc' & Hpi').
    exists c'. split; [by rewrite lookup_delete_ne|]. eapply pool_inv_frame; [reflexivity|exact Hpi'|done|done|].
    intros per. by apply Hh2.
  - intros q c' [Hne Hc']%lookup_delete_Some. rewrite lookup_delete_ne by done. by eapply I3.
  - intros a q l Hl. destruct (I4 a q l Hl) as [B1 B2 B3 (pool' & c' & Hp' & Hc' & B4 & B5)]. split; try done.
    assert (p ≠ q) as Hne by (intros ->; by eapply Hnone). exists pool', c'. by rewrite !lookup_delete_ne.
  - intros q per. unfold count_at, follows. destruct (decide (p = q)) as [<-|Hne].
    + rewrite Hh1, lookup_delete_eq. rewrite (map_sum_ext _ (λ _, 0 * 0)), map_sum_scale; [lia|].
      intros [a q] l Hl. destruct (I4 a q l Hl) as [_ Hq _ _]. apply refers_other. intros E. subst q.
      rewrite E in Hl. by eapply Hnone.
    + rewrite Hh2, lookup_delete_ne by congruence. apply I5.
  - intros [q per] x Hx. assert (q ≠ p) as Hq by (intros ->; by rewrite Hh1 in Hx). rewrite Hh2 in Hx by done.
    by eapply I6.
  - intros d. rewrite Hfarm, I7, map_sum_delete, Hp. cbn [at_key]. lia.
  - intros d. rewrite Hyield, I8, map_sum_delete, Hp. cbn [at_key]. lia.
Qed.

(** The owner of a pool provides the token that it yields. *)
Lemma inv_provide k coins coins' pools locks hist cur p pool infos :
  stores_inv k coins pools locks hist cur → pools !! p = Some pool → Forall info_ok infos → ck_wf coins' →
  (∀ d, ck_balance coins' farmAddr d = ck_balance coins farmAddr d) →
  (∀ d, ck_balance coins' yieldAddr d
    = ck_balance coins yieldAddr d + remaining_at d infos - remaining_at d (Fp_YieldedTokenInfos pool)) →
  stores_inv k coins' (<[p := set_yielded pool infos (Fp_TotalAccumulatedRewards pool)]> pools) locks hist cur.
Proof.
  intros [I1 I2 I3 I4 I5 I6 I7 I8] Hp Hinf Hw Hfarm Hyield. split; try done.
  - intros q pool' [[<- <-]|[Hne Hq]]%lookup_insert_Some; [|by apply I2].
    destruct (I2 _ _ Hp) as (c & Hc & []). exists c. split; [done|]. by split; pool_simpl.
  - intros q c Hc. apply lookup_insert_is_Some. destruct (decide (p = q)); [by left|right; split; [done|by eapply I3]].
  - intros a q l Hl. destruct (I4 a q l Hl) as [B1 B2 B3 (pool' & c' & Hp' & Hc' & B4 & B5)]. split; try done.
    destruct (decide (p = q)) as [<-|Hne].
    + eexists _, c'. split; [apply lookup_insert_eq|]. split; [done|]. pool_simpl. split; [|done].
      by assert (pool' = pool) as <- by congruence.
    + exists pool', c'. by rewrite lookup_insert_ne.
  - intros d. rewrite Hfarm, I7, map_sum_insert, Hp. pool_simpl. lia.
  - intros d. rewrite Hyield, I8, map_sum_insert, Hp. unfold holdings. pool_simpl. lia.
Qed.

End Invariant.

(** ** The operations *)

Lemma coin_at_one d denom a : coin_at d (mkDecCoin denom a) = if String.eqb denom d then a else 0.
Proof. unfold coin_at. apply amount_of_one. Qed.

Lemma yieldInfo_Ok start height y r :
  info_ok y → yieldInfo start height y = Ok r →
  match r with
  | None => True
  | Some (y', c) => info_ok y' ∧ coins_sorted c ∧ Forall (λ x, 0 ≤ Amount x) c ∧
      ∀ d, coin_at d (Yt_RemainingAmount y') + amount_of c d = coin_at d (Yt_RemainingAmount y)
  end.
Proof.
  intros [Hr Hb]. unfold yieldInfo. cbv zeta. destruct (_ || _) eqn:Hskip; [by intros [= <-]|].
  intros (bi & Hbi & H)%outcome_bind_Ok. rewrite NewDec_eq in Hbi. injection Hbi as <-.
  apply outcome_bind_Ok in H as (amt & Ha & H). apply Dec_MulTruncate_Ok in Ha as [-> _].
  destruct (Yt_RemainingAmount y) as [dn a] eqn:Ey. cbn [Denom Amount] in *.
  destruct (Dec_LT _ a) eqn:Hlt; unfold NewDecCoinsFromDec in H.
  - apply Z.ltb_lt in Hlt. apply outcome_bind_Ok in H as (l & Hl & H). apply Dec_Sub_Ok in Hl as [-> _].
    apply outcome_bind_Ok in H as (cs & Hc & H). apply outcome_bind_Ok in Hc as (c & Hc & E).
    injection E as <-. apply NewDecCoinFromDec_Ok in Hc as (_ & Hn & ->). injection H as <-.
    split; [split; cbn; lia|]. split; [apply coins_sorted_one|]. split; [by repeat constructor|].
    intros d. rewrite amount_of_one. cbn [Denom Amount Yt_RemainingAmount]. rewrite !coin_at_one.
    destruct (String.eqb dn d); lia.
  - apply outcome_bind_Ok in H as (z & Hz & H). apply NewDecCoin_Ok in Hz as (_ & _ & ->).
    apply outcome_bind_Ok in H as (cs & Hc & H). apply outcome_bind_Ok in Hc as (c & Hc & E).
    injection E as <-. apply NewDecCoinFromDec_Ok in Hc as (_ & Hn & ->). injection H as <-.
    split; [split; cbn; change ZeroDec with 0; lia|]. split; [apply coins_sorted_one|].
    split; [by repeat constructor|]. intros d. rewrite amount_of_one. cbn [Denom Amount Yt_RemainingAmount].
    rewrite !coin_at_one. destruct (String.eqb dn d); lia.
Qed.

Lemma yieldInfos_Ok start height infos : ∀ acc tot infos' acc' tot',
  Forall info_ok infos → wf_coins acc → wf_coins tot →
  yieldInfos start height infos acc tot = Ok (infos', acc', tot') →
  Forall info_ok infos' ∧ length infos' = length infos ∧ wf_coins acc' ∧ wf_coins tot' ∧
  ∀ d, 0 ≤ amount_of tot' d - amount_of tot d ∧
    amount_of acc' d = amount_of acc d + (amount_of tot' d - amount_of tot d) ∧
    remaining_at d infos' = remaining_at d infos - (amount_of tot' d - amount_of tot d).
Proof.
  induction infos as [|y infos IH]; intros acc tot infos' acc' tot' Hok Ha Ht H; cbn [yieldInfos] in H.
  { injection H as <- <- <-. split_and!; try done. intros d. lia. }
  apply Forall_cons in Hok as [Hy Hok]. apply outcome_bind_Ok in H as (r & Hr & H).
  apply yieldInfo_Ok in Hr; [|done]. destruct r as [[y' c]|].
  - destruct Hr as (Hy' & Hs & Hn & Hd). apply outcome_bind_Ok in H as (acc1 & H1 & H).
    apply outcome_bind_Ok in H as (tot1 & H2 & H). apply outcome_bind_Ok in H as ([[i2 a2] t2] & H3 & H).
    injection H as <- <- <-.
    pose proof (safeAdd_wf_nonneg _ _ _ Ha Hs Hn H1) as W1. pose proof (safeAdd_wf_nonneg _ _ _ Ht Hs Hn H2) as W2.
    apply IH in H3 as (F1 & F2 & F3 & F4 & F5); [|done..]. split_and!; [by constructor|cbn; lia|done|done|].
    intros d. destruct (F5 d) as (G1 & G2 & G3). specialize (Hd d).
    pose proof (amount_of_nonneg c d Hn).
    rewrite (safeAdd_amount _ _ _ d H1) in G2. rewrite (safeAdd_amount _ _ _ d H2) in G1, G2, G3.
    cbn [remaining_at foldr] in *. fold (remaining_at d i2) in *. fold (remaining_at d infos) in *. lia.
  - apply outcome_bind_Ok in H as ([[i2 a2] t2] & H3 & H). injection H as <- <- <-.
    apply IH in H3 as (F1 & F2 & F3 & F4 & F5); [|done..]. split_and!; [by constructor|cbn; lia|done|done|].
    intros d. destruct (F5 d) as (G1 & G2 & G3).
    cbn [remaining_at foldr] in *. fold (remaining_at d i2) in *. fold (remaining_at d infos) in *. lia.
Qed.

(** Rewards per token: what is given out is at most what there is. *)
Lemma QuoDecTruncate_Ok coins x R :
  wf_coins coins → 0 ≤ x → DecCoins_QuoDecTruncate coins x = Ok R →
  wf_coins R ∧ ∀ d, 0 ≤ amount_of R d ∧ amount_of R d * x ≤ P * amount_of coins d.
Proof.
  intros [Hs Hp] Hx. unfold DecCoins_QuoDecTruncate. rewrite Dec_IsZero_eq.
  destruct (Z.eqb_spec x 0) as [|Hx0]; [done|]. intros H.
  assert (∀ a v, 0 ≤ a → Dec_QuoTruncate a x = Ok v → 0 ≤ v ∧ v * x ≤ P * a) as Hf.
  { intros a v Ha (_ & -> & _)%Dec_QuoTruncate_Ok. pose proof (quot_bounds (a * P) x).
    pose proof (quot_nonneg (a * P) x). change P with (10 ^ 18) in *. lia. }
  split.
  - eapply mapAdd_wf; [|exact Hp|apply wf_coins_nil|exact H]. intros a v Ha Hv. by apply (Hf a v).
  - intros d. eapply (mapAdd_amount _ _ _ _ d) in H as (v & Hv & ->); [| |done].
    + rewrite amount_of_nil. apply Hf in Hv; [lia|]. by apply wf_amount_nonneg.
    + apply Dec_QuoTruncate_Ok. split; [done|]. rewrite Z.mul_0_l, Z.quot_0_l by done. done.
Qed.

Lemma MulDecTruncate_Ok coins x R :
  wf_coins coins → 0 ≤ x → DecCoins_MulDecTruncate coins x = Ok R →
  wf_coins R ∧ ∀ d, 0 ≤ amount_of R d ∧ P * amount_of R d ≤ amount_of coins d * x.
Proof.
  intros [Hs Hp] Hx H.
  assert (∀ a v, 0 ≤ a → Dec_MulTruncate a x = Ok v → 0 ≤ v ∧ P * v ≤ a * x) as Hf.
  { intros a v Ha (-> & _)%Dec_MulTruncate_Ok. pose proof (quot_bounds (a * x) P).
    pose proof (quot_nonneg (a * x) P). change P with (10 ^ 18) in *. lia. }
  split.
  - eapply mapAdd_wf; [|exact Hp|apply wf_coins_nil|exact H]. intros a v Ha Hv. by apply (Hf a v).
  - intros d. eapply (mapAdd_amount _ _ _ _ d) in H as (v & Hv & ->); [|done|done].
    rewrite amount_of_nil. apply Hf in Hv; [lia|]. by apply wf_amount_nonneg.
Qed.

Section Operations.
Context {S : Type} `{CoinKeeper S, !CoinKeeperLaws S} (feeCollectorName farmAddr yieldAddr : string).
Context (Hfarm : ck_modaddr FarmModuleName = Some farmAddr)
  (Hyield : ck_modaddr YieldFarmingAccount = Some yieldAddr) (Hne : farmAddr ≠ yieldAddr).
Implicit Types s : FarmState S.

#[local] Abbreviation SI := (stores_inv farmAddr yieldAddr).

Definition fa_set_coins (c : S) (s : FarmState S) : FarmState S :=
  fa_set_swap (mkSwapState (ts_set_coins c (sw_token (fa_swap s))) (sw_pairs (fa_swap s)) (sw_feeRate (fa_swap s))) s.
Lemma fa_on_supply_Ok {A} (m : M S A) a s s' :
  fa_on_supply m s = (Ok a, s') ↔ ∃ c', m (fa_coins s) = (Ok a, c') ∧ s' = fa_set_coins c' s.
Proof.
  unfold fa_on_supply, fa_on_swap, on_supply, on_token, on_coins. rewrite zoom_Ok. setoid_rewrite zoom_Ok.
  setoid_rewrite zoom_Ok. split.
  - intros (w & (t & (c & Hm & ->) & ->) & ->). by exists c.
  - intros (c & Hm & ->). eexists. split; [|reflexivity]. eexists. split; [|reflexivity]. by exists c.
Qed.

Lemma GetPoolCurrentRewards_Ok p s c s' :
  GetPoolCurrentRewards p s = (Ok c, s') ↔ fa_current s !! p = Some c ∧ s' = s.
Proof.
  unfold GetPoolCurrentRewards. rewrite M_bind_Ok. setoid_rewrite gets_Ok. split.
  - intros (o & s1 & [-> ->] & Hr). destruct (fa_current s !! p); [|done]. by apply mret_Ok in Hr as [-> ->].
  - intros [Hc ->]. exists (Some c), s. by rewrite Hc.
Qed.
Lemma GetPoolHistoricalRewards_Ok p per s x s' :
  GetPoolHistoricalRewards p per s = (Ok x, s') ↔ fa_historical s !! (p, per) = Some x ∧ s' = s.
Proof.
  unfold GetPoolHistoricalRewards. rewrite M_bind_Ok. setoid_rewrite gets_Ok. split.
  - intros (o & s1 & [-> ->] & Hr). destruct (fa_historical s !! _); [|done]. by apply mret_Ok in Hr as [-> ->].
  - intros [Hc ->]. exists (Some x), s. by rewrite Hc.
Qed.

Lemma decrement_Ok p per s u s' :
  decrementReferenceCount p per s = (Ok u, s') →
  is_Some (fa_historical s !! (p, per)) ∧
  s' = fa_set_rewards (dec_ref (p, per) (fa_historical s)) (fa_current s) s.
Proof.
  unfold decrementReferenceCount. intros (x & s1 & [Hx ->]%GetPoolHistoricalRewards_Ok & Hr)%M_bind_Ok.
  apply M_bind_Ok in Hr as (v & s1 & Hp & Hr). apply panic_if_Ok in Hp as [_ ->].
  split; [by exists x|]. unfold dec_ref. rewrite Hx. by destruct (_ =? 0); apply modify_Ok in Hr as ->.
Qed.
Lemma increment_Ok p per s u s' :
  incrementReferenceCount p per s = (Ok u, s') →
  is_Some (fa_historical s !! (p, per)) ∧
  s' = fa_set_rewards (inc_ref (p, per) (fa_historical s)) (fa_current s) s.
Proof.
  unfold incrementReferenceCount. intros (x & s1 & [Hx ->]%GetPoolHistoricalRewards_Ok & Hr)%M_bind_Ok.
  apply M_bind_Ok in Hr as (v & s1 & Hp & Hr). apply panic_if_Ok in Hp as [_ ->].
  split; [by exists x|]. unfold inc_ref. rewrite Hx. by apply modify_Ok in Hr as ->.
Qed.

Lemma Calculate_Ok k h pool s pool' y s' :
  farm_inv farmAddr yieldAddr k s → fa_pools s !! Fp_Name pool = Some pool →
  CalculateAmountYieldedBetween h pool s = (Ok (pool', y), s') →
  s' = s ∧ pool' = set_yielded pool (Fp_YieldedTokenInfos pool') (Fp_TotalAccumulatedRewards pool') ∧
  Forall info_ok (Fp_YieldedTokenInfos pool') ∧
  length (Fp_YieldedTokenInfos pool') = length (Fp_YieldedTokenInfos pool) ∧
  wf_coins (Fp_TotalAccumulatedRewards pool') ∧ wf_coins y ∧
  ∀ d, amount_of (Fp_TotalAccumulatedRewards pool') d = amount_of (Fp_TotalAccumulatedRewards pool) d + amount_of y d ∧
    remaining_at d (Fp_YieldedTokenInfos pool') = remaining_at d (Fp_YieldedTokenInfos pool) - amount_of y d.
Proof.
  intros Hi Hp. unfold CalculateAmountYieldedBetween.
  intros (c & s1 & [Hc ->]%GetPoolCurrentRewards_Ok & Hr)%M_bind_Ok.
  apply M_bind_Ok in Hr as ([[infos acc] tot] & s1 & Hy & Hr). apply lift_Ok in Hy as [Hy ->].
  apply mret_Ok in Hr as [[= -> ->] ->].
  destruct (fi_pools _ _ _ _ _ _ _ _ Hi _ _ Hp) as (c0 & _ & [A1 A2 A3 A4 A5 A6 A7 A8 A9 A10]).
  apply yieldInfos_Ok in Hy as (F1 & F2 & F3 & F4 & F5); [|done|done|apply wf_coins_nil].
  pool_simpl. split_and!; try done. intros d. destruct (F5 d) as (G1 & G2 & G3). rewrite amount_of_nil in *. lia.
Qed.

(** A pool after its tokens have yielded [y]. *)
Record yields_to (pool pool' : FarmPool) (y : list DecCoin) : Prop := {
  yt_pool : pool' = set_yielded pool (Fp_YieldedTokenInfos pool') (Fp_TotalAccumulatedRewards pool');
  yt_infos : Forall info_ok (Fp_YieldedTokenInfos pool');
  yt_length : length (Fp_YieldedTokenInfos pool') = length (Fp_YieldedTokenInfos pool);
  yt_acc : wf_coins (Fp_TotalAccumulatedRewards pool');
  yt_wf : wf_coins y;
  yt_amounts : ∀ d,
    amount_of (Fp_TotalAccumulatedRewards pool') d = amount_of (Fp_TotalAccumulatedRewards pool) d + amount_of y d ∧
    remaining_at d (Fp_YieldedTokenInfos pool') = remaining_at d (Fp_YieldedTokenInfos pool) - amount_of y d }.

Lemma Calculate_yields k h pool s pool' y s' :
  farm_inv farmAddr yieldAddr k s → fa_pools s !! Fp_Name pool = Some pool →
  CalculateAmountYieldedBetween h pool s = (Ok (pool', y), s') → s' = s ∧ yields_to pool pool' y.
Proof.
  intros Hi Hp Hr. destruct (Calculate_Ok _ _ _ _ _ _ _ Hi Hp Hr) as (-> & A1 & A2 & A3 & A4 & A5 & A6).
  split; [done|]. by split.
Qed.

Lemma uint64_small x : 0 ≤ x < 2 ^ 64 → uint64 x = x.
Proof. intros Hx. unfold uint64. by apply Z.mod_small. Qed.

Lemma advance_Ok k h pool pool' y s per s' :
  farm_inv farmAddr yieldAddr k s → k + 1 < 2 ^ 64 → fa_pools s !! Fp_Name pool = Some pool →
  yields_to pool pool' y →
  IncrementPoolPeriod h (Fp_Name pool) (Fp_TotalValueLocked pool) y s = (Ok per, s') →
  1 ≤ per ∧ s' = fa_set_rewards (fa_historical s') (fa_current s') s ∧
  fa_current s' !! Fp_Name pool = Some (mkCurrent h (per + 1) []) ∧
  SI (k + 1) (fa_coins s) (<[Fp_Name pool := pool']> (fa_pools s)) (fa_locks s) (fa_historical s') (fa_current s').
Proof.
  intros Hi Hk Hp [Y1 Y2 Y3 Y4 Y5 Y6] Hr. set (p := Fp_Name pool) in *.
  destruct (fi_pools _ _ _ _ _ _ _ _ Hi _ _ Hp) as (c & Hc & Hpi). pose proof Hpi as [A1 A2 A3 A4 A5 A6 A7 A8 A9 A10].
  unfold IncrementPoolPeriod in Hr. apply M_bind_Ok in Hr as (c0 & s1 & [Hc0 ->]%GetPoolCurrentRewards_Ok & Hr).
  assert (c0 = c) as -> by congruence. clear Hc0.
  rewrite !uint64_small in Hr by lia.
  apply M_bind_Ok in Hr as (nr & s1 & [Hnr ->]%lift_Ok & Hr).
  apply M_bind_Ok in Hr as (ratio & s1 & Hratio & Hr).
  assert (s1 = s ∧ wf_coins ratio ∧ ∀ d, 0 ≤ amount_of ratio d ∧
    amount_of ratio d * Amount (Fp_TotalValueLocked pool) ≤ P * (amount_of (Cr_Rewards c) d + amount_of y d))
    as (-> & Wr & Hq).
  { assert (wf_coins nr) as Wn by (eapply safeAdd_wf; [exact A7|exact Y5|exact Hnr]).
    assert (∀ d, amount_of nr d = amount_of (Cr_Rewards c) d + amount_of y d) as En
      by (intros d; by apply safeAdd_amount).
    rewrite DecCoin_IsZero_eq in Hratio. destruct (Z.eqb_spec (Amount (Fp_TotalValueLocked pool)) 0) as [E0|E0].
    - apply mret_Ok in Hratio as [-> ->]. split; [done|]. split; [apply wf_coins_nil|]. intros d.
      rewrite amount_of_nil. pose proof (wf_amount_nonneg nr d Wn). rewrite En in *. change P with (10 ^ 18). lia.
    - apply lift_Ok in Hratio as [Hratio ->].
      apply QuoDecTruncate_Ok in Hratio as [Wr Hq]; [|done|rewrite A3; by eapply locked_nonneg].
      split; [done|]. split; [done|]. intros d. rewrite <- En. apply Hq. }
  apply M_bind_Ok in Hr as (hx & s1 & [Hhx ->]%GetPoolHistoricalRewards_Ok & Hr).
  apply M_bind_Ok in Hr as (u & s1 & Hdec & Hr). apply decrement_Ok in Hdec as [_ ->].
  apply M_bind_Ok in Hr as (nratio & s1 & [Hn ->]%lift_Ok & Hr).
  apply M_bind_Ok in Hr as (u2 & s1 & Hs1 & Hr). apply modify_Ok in Hs1 as ->.
  apply M_bind_Ok in Hr as (u3 & s1 & Hs1 & Hr). apply modify_Ok in Hs1 as ->.
  apply mret_Ok in Hr as [-> ->].
  assert (wf_coins (Hr_CumulativeRewardRatio hx)) as Wh by (by apply (fi_hist _ _ _ _ _ _ _ _ Hi) in Hhx as [_ ?]).
  split; [lia|]. split; [done|]. split; [apply lookup_insert_eq|].
  rewrite Y1. cbn [fa_historical fa_current fa_set_rewards].
  apply (inv_advance _ _ _ _ _ _ _ _ _ _ _ h _ _ (amount_of y)); try done.
  - intros d. apply Y6.
  - intros d. apply Y6.
  - eapply safeAdd_wf; [exact Wh|exact Wr|exact Hn].
  - intros d. exists (amount_of ratio d). destruct (Hq d) as [Hq1 Hq2]. split_and!; [done| |done].
    rewrite (safeAdd_amount _ _ _ d Hn). unfold ratio_at. by rewrite Hhx.
Qed.

Lemma calculateRewards_Ok k coins pools h p per l s r s' pool c a :
  SI k coins pools (fa_locks s) (fa_historical s) (fa_current s) →
  pools !! p = Some pool → fa_current s !! p = Some c → Cr_Period c = per + 1 →
  fa_locks s !! (a, p) = Some l →
  calculateRewards h p per l s = (Ok r, s') →
  s' = s ∧ wf_coins r ∧ ∀ d, 0 ≤ amount_of r d ∧ P * amount_of r d ≤ owed (fa_historical s) d p per l.
Proof.
  intros Hi Hp Hc Eper Hl. destruct (fi_pools _ _ _ _ _ _ _ _ Hi _ _ Hp) as (c0 & Hc0 & Hpi).
  assert (c0 = c) as -> by congruence. clear Hc0.
  destruct (fi_locks _ _ _ _ _ _ _ _ Hi _ _ _ Hl) as [L1 L2 L3 _].
  assert (Cr_Period c - 1 = per) as Ep by lia.
  unfold calculateRewards. destruct (_ =? _).
  - intros [-> ->]%mret_Ok. split; [done|]. split; [apply wf_coins_nil|]. intros d. rewrite amount_of_nil.
    split; [done|]. unfold owed. rewrite L2, String.eqb_refl.
    assert (0 < count_at (fa_historical s) (p, Li_ReferencePeriod l)) as Hcnt.
    { rewrite (fi_count _ _ _ _ _ _ _ _ Hi). pose proof (refers_lock _ _ _ Hl) as Hrl. rewrite L2 in Hrl.
      pose proof (follows_nonneg (fa_current s) p (Li_ReferencePeriod l)). lia. }
    apply count_pos_some in Hcnt as (x & Hx). pose proof (pi_mono _ _ _ _ _ _ Hpi d _ _ Hx) as Hm.
    unfold ratio_at at 2. rewrite Hx, <- Ep. change P with (10 ^ 18). nia.
  - unfold calculateLockRewardsBetween. intros (u & s1 & [_ ->]%panic_if_Ok & Hr)%M_bind_Ok.
    apply M_bind_Ok in Hr as (u2 & s1 & [_ ->]%panic_if_Ok & Hr).
    apply M_bind_Ok in Hr as (x0 & s1 & [Hx0 ->]%GetPoolHistoricalRewards_Ok & Hr).
    apply M_bind_Ok in Hr as (x1 & s1 & [Hx1 ->]%GetPoolHistoricalRewards_Ok & Hr).
    apply M_bind_Ok in Hr as (df & s1 & [Hdf ->]%lift_Ok & Hr). apply lift_Ok in Hr as [Hr ->].
    destruct (fi_hist _ _ _ _ _ _ _ _ Hi _ _ Hx0) as [_ [S0 _]].
    destruct (fi_hist _ _ _ _ _ _ _ _ Hi _ _ Hx1) as [_ [S1 _]].
    unfold DecCoins_Sub in Hdf. apply outcome_bind_Ok in Hdf as ([df' neg] & Hdf & E).
    destruct neg; [done|]. injection E as ->.
    pose proof (SafeSub_wf _ _ _ S1 S0 Hdf) as Wdf. apply SafeSub_Ok in Hdf as (_ & _ & Hdf & _); [|done..].
    apply MulDecTruncate_Ok in Hr as [Wr Hr]; [|done|lia]. split; [done|]. split; [done|]. intros d.
    destruct (Hr d) as [Hr0 Hr1]. split; [done|]. unfold owed. rewrite L2, String.eqb_refl.
    unfold ratio_at. rewrite Hx0, Hx1. rewrite Hdf in Hr1. lia.
Qed.

(** Rewards are paid from the yield account. *)
Lemma payout_Ok addr r s u s' :
  ck_wf (fa_coins s) → wf_coins r → addr ≠ farmAddr → addr ≠ yieldAddr →
  (if negb (DecCoins_IsZero r)
   then fa_on_supply (ck_SendCoinsFromModuleToAccount YieldFarmingAccount addr r) else mret ()) s = (Ok u, s') →
  s' = fa_set_coins (fa_coins s') s ∧ ck_wf (fa_coins s') ∧
  (∀ d, ck_balance (fa_coins s') farmAddr d = ck_balance (fa_coins s) farmAddr d) ∧
  (∀ d, ck_balance (fa_coins s') yieldAddr d = ck_balance (fa_coins s) yieldAddr d - amount_of r d).
Proof.
  intros Hw Wr Ha1 Ha2. destruct (DecCoins_IsZero r) eqn:Hz; cbn [negb].
  - intros [_ ->]%mret_Ok. apply IsZero_wf in Hz as ->; [|done]. split_and!; [|done|done|].
    + destruct s as [[[] ? ?] ? ? ? ? ? ? ?]. done.
    + intros d. rewrite amount_of_nil. lia.
  - intros (c' & Hm & ->)%fa_on_supply_Ok. apply law_ModuleToAccount in Hm as (_ & ya & Hya & [K1 K2 K3 _ _]).
    assert (ya = yieldAddr) as -> by congruence. split_and!; [done|by apply K2| |].
    + intros d. change (fa_coins (fa_set_coins c' s)) with c'. rewrite K3. unfold at_addr. rewrite !decide_False by done. lia.
    + intros d. change (fa_coins (fa_set_coins c' s)) with c'. rewrite K3. unfold at_addr.
      rewrite decide_False, decide_True by done. lia.
Qed.

(** What is left to do after a period was ended for a lock and its rewards
    were paid. *)
Record withdrawn (k : Z) (pools : gmap string FarmPool) (p addr : string) (per h : Z) (l : LockInfo)
    (r : list DecCoin) (coins : S) (s s' : FarmState S) : Prop := {
  wd_locks : fa_locks s' = fa_locks s;
  wd_pools : fa_pools s' = fa_pools s;
  wd_current : fa_current s' !! p = Some (mkCurrent h (per + 1) []);
  wd_hist : ∃ hist1, SI (k + 1) coins pools (fa_locks s) hist1 (fa_current s') ∧
    fa_historical s' = dec_ref (p, Li_ReferencePeriod l) hist1 ∧
    is_Some (hist1 !! (p, Li_ReferencePeriod l)) ∧
    ∀ d, 0 ≤ amount_of r d ∧ P * amount_of r d ≤ owed hist1 d p per l;
  wd_rewards : wf_coins r;
  wd_per : 1 ≤ per;
  wd_wf : ck_wf (fa_coins s');
  wd_farm : ∀ d, ck_balance (fa_coins s') farmAddr d = ck_balance coins farmAddr d;
  wd_yield : ∀ d, ck_balance (fa_coins s') yieldAddr d = ck_balance coins yieldAddr d - amount_of r d }.

Lemma WithdrawRewards_Ok k h pool pool' y addr s r s' :
  farm_inv farmAddr yieldAddr k s → k + 1 < 2 ^ 64 → fa_pools s !! Fp_Name pool = Some pool →
  yields_to pool pool' y → addr ≠ farmAddr → addr ≠ yieldAddr →
  WithdrawRewards h (Fp_Name pool) (Fp_TotalValueLocked pool) y addr s = (Ok r, s') →
  ∃ l per, fa_locks s !! (addr, Fp_Name pool) = Some l ∧
    withdrawn k (<[Fp_Name pool := pool']> (fa_pools s)) (Fp_Name pool) addr per h l r (fa_coins s) s s'.
Proof.
  intros Hi Hk Hp Hy Ha1 Ha2. unfold WithdrawRewards. intros (o & s0 & [-> ->]%gets_Ok & Hr)%M_bind_Ok.
  destruct (fa_locks s !! (addr, Fp_Name pool)) as [l|] eqn:Hl; [|done].
  apply M_bind_Ok in Hr as (per & s1 & Hinc & Hr).
  apply (advance_Ok k h pool pool') in Hinc as (Hper & Es1 & Hc1 & HSI); [|done..].
  assert (fa_locks s1 = fa_locks s ∧ fa_pools s1 = fa_pools s ∧ fa_coins s1 = fa_coins s) as (El & Ep & Ec)
    by (rewrite Es1; by split_and!).
  apply M_bind_Ok in Hr as (r0 & s2 & Hcalc & Hr).
  eapply (calculateRewards_Ok (k + 1) (fa_coins s) (<[Fp_Name pool := pool']> (fa_pools s)))
    in Hcalc as (-> & Wr & Hrw); [|by rewrite El|apply lookup_insert_eq|exact Hc1|done|by rewrite El].
  apply M_bind_Ok in Hr as (u & s2 & Hpay & Hr).
  apply payout_Ok in Hpay as (Es2 & W2 & B1 & B2); [|rewrite Ec; apply Hi|done..].
  apply M_bind_Ok in Hr as (u2 & s3 & Hdec & Hr). apply mret_Ok in Hr as [-> ->].
  apply decrement_Ok in Hdec as [Hex ->]. rewrite Ec in *.
  exists l, per. split; [done|]. rewrite Es2 in *. split; cbn; try done.
  exists (fa_historical s1). by split_and!.
Qed.

Lemma UpdateLockInfo_Ok h addr p delta s u s' c l0 :
  fa_current s !! p = Some c → 1 ≤ Cr_Period c < 2 ^ 64 →
  fa_locks s !! (addr, p) = Some l0 → Li_Owner l0 = addr → Li_PoolName l0 = p →
  UpdateLockInfo h addr p delta s = (Ok u, s') →
  let amount := Amount (Li_Amount l0) + delta in
  let nl := if amount =? 0 then None
            else Some (mkLockInfo addr p (mkDecCoin (Denom (Li_Amount l0)) amount) h (Cr_Period c - 1)) in
  fa_locks s' = put_lock (addr, p) nl (fa_locks s) ∧ fa_pools s' = fa_pools s ∧
  fa_coins s' = fa_coins s ∧ fa_current s' = fa_current s ∧
  (nl = None ∧ fa_historical s' = fa_historical s ∨
   nl ≠ None ∧ is_Some (fa_historical s !! (p, Cr_Period c - 1)) ∧
     fa_historical s' = inc_ref (p, Cr_Period c - 1) (fa_historical s)).
Proof.
  intros Hc Hper Hl Eo Ep. unfold UpdateLockInfo. intros (c0 & s1 & [Hc0 ->]%GetPoolCurrentRewards_Ok & Hr)%M_bind_Ok.
  assert (c0 = c) as -> by congruence. clear Hc0. cbv zeta in Hr |- *. rewrite uint64_small in Hr by lia.
  apply M_bind_Ok in Hr as (o & s1 & [-> ->]%gets_Ok & Hr). rewrite Hl in Hr.
  apply M_bind_Ok in Hr as (amt & s1 & [Ha ->]%lift_Ok & Hr). apply Dec_Add_Ok in Ha as [-> _].
  rewrite DecCoin_IsZero_eq in Hr. cbn [Li_Amount Amount] in Hr. rewrite Eo, Ep in Hr. cbn [Li_Owner Li_PoolName] in Hr.
  destruct (_ =? 0).
  - apply M_bind_Ok in Hr as (u1 & s1 & Hd & Hr). apply modify_Ok in Hd as ->. apply modify_Ok in Hr as ->.
    split_and!; try done. by left.
  - apply M_bind_Ok in Hr as (u1 & s1 & Hinc & Hr). apply increment_Ok in Hinc as [Hex ->].
    apply M_bind_Ok in Hr as (u2 & s1 & Hd & Hr). apply modify_Ok in Hd as ->. apply modify_Ok in Hr as ->.
    split_and!; try done. by right.
Qed.

Lemma payRewards_Ok pool r s pool' s' :
  wf_coins (Fp_TotalAccumulatedRewards pool) → wf_coins r → payRewards pool r s = (Ok pool', s') →
  s' = s ∧ pool' = set_locked pool (Fp_TotalValueLocked pool) (Fp_TotalAccumulatedRewards pool') ∧
  wf_coins (Fp_TotalAccumulatedRewards pool') ∧
  ∀ d, amount_of (Fp_TotalAccumulatedRewards pool') d = amount_of (Fp_TotalAccumulatedRewards pool) d - amount_of r d.
Proof.
  intros [Sa Pa] [Sr Pr]. unfold payRewards. intros (b & s1 & [_ ->]%lift_Ok & Hr)%M_bind_Ok.
  apply M_bind_Ok in Hr as (u & s1 & [_ ->]%panic_if_Ok & Hr).
  apply M_bind_Ok in Hr as (left & s1 & [Hl ->]%lift_Ok & Hr). apply mret_Ok in Hr as [-> ->].
  unfold DecCoins_Sub in Hl. apply outcome_bind_Ok in Hl as ([df neg] & Hdf & E). destruct neg; [done|]. injection E as ->.
  pose proof (SafeSub_wf _ _ _ Sa Sr Hdf) as W. apply SafeSub_Ok in Hdf as (_ & _ & Hdf & _); [|done..].
  by split_and!.
Qed.

(** The lock after an update, if anything is left. *)
Definition new_lock (addr p : string) (l : LockInfo) (amount h per : Z) : option LockInfo :=
  if amount =? 0 then None
  else Some (mkLockInfo addr p (mkDecCoin (Denom (Li_Amount l)) amount) h per).

Lemma settle_inv k pools1 p addr per h l r coins s sW pool1 amount hist' acc' locked' coins' :
  withdrawn k pools1 p addr per h l r coins s sW → pools1 !! p = Some pool1 →
  fa_locks s !! (addr, p) = Some l → 0 ≤ amount →
  (new_lock addr p l amount h per = None ∧ hist' = fa_historical sW ∨
   new_lock addr p l amount h per ≠ None ∧ is_Some (fa_historical sW !! (p, per)) ∧
     hist' = inc_ref (p, per) (fa_historical sW)) →
  wf_coins acc' →
  (∀ d, amount_of acc' d = amount_of (Fp_TotalAccumulatedRewards pool1) d - amount_of r d) →
  Denom locked' = Denom (Fp_MinLockAmount pool1) →
  Amount locked' = Amount (Fp_TotalValueLocked pool1) - Amount (Li_Amount l) + amount →
  ck_wf coins' →
  (∀ d, ck_balance coins' farmAddr d = ck_balance coins farmAddr d - coin_at d (Li_Amount l)
    + coin_at d (mkDecCoin (Denom (Li_Amount l)) amount)) →
  (∀ d, ck_balance coins' yieldAddr d = ck_balance coins yieldAddr d - amount_of r d) →
  SI (k + 1) coins' (<[p := set_locked pool1 locked' acc']> pools1)
    (put_lock (addr, p) (new_lock addr p l amount h per) (fa_locks s)) hist' (fa_current sW).
Proof.
  intros [W1 W2 W3 (hist1 & HSI & Eh & Hex & Hr) W4 W5 W6 W7 W8] Hp1 Hl Ham Hhist Hacc Hacc' Hden Hamt Hwf Hf Hy.
  pose proof (fi_locks _ _ _ _ _ _ _ _ HSI _ _ _ Hl) as [L1 L2 L3 (pool0 & c0 & Hp0 & Hc0 & L4 & L5)].
  assert (pool0 = pool1) as -> by congruence. assert (c0 = mkCurrent h (per + 1) []) as -> by congruence.
  clear Hp0 Hc0.
  assert (counts_pos hist1) as Hpos by (intros key x Hx; by apply (fi_hist _ _ _ _ _ _ _ _ HSI) in Hx as [? _]).
  pose proof (dec_ref_kept (p, Li_ReferencePeriod l) hist1 Hpos) as Hkd. rewrite <- Eh in Hkd.
  assert (∀ d, at_key (λ l, coin_at d (Li_Amount l)) (new_lock addr p l amount h per)
    = coin_at d (mkDecCoin (Denom (Li_Amount l)) amount)) as Ecoin.
  { intros d. unfold new_lock. destruct (Z.eqb_spec amount 0) as [->|]; [|done]. cbn [at_key]. rewrite coin_at_one.
    by destruct (String.eqb _ _). }
  assert (at_key (λ l, Amount (Li_Amount l)) (new_lock addr p l amount h per) = amount) as Eamt.
  { unfold new_lock. destruct (Z.eqb_spec amount 0) as [->|]; done. }
  eapply (inv_settle _ _ _ coins _ pools1 _ hist1 _ _ _ pool1 _ _ _ (amount_of r)); try done; rewrite ?Hl; pool_simpl.
  - intros x. unfold new_lock. destruct (Z.eqb_spec amount 0); [done|]. intros [= <-]. cbn.
    split_and!; try done; lia.
  - intros key. assert (ref_of p (new_lock addr p l amount h per) key
      = match new_lock addr p l amount h per with Some _ => if decide (key = (p, per)) then 1 else 0 | None => 0 end) as ->.
    { unfold new_lock. by destruct (amount =? 0). }
    unfold ref_of. pool_simpl. destruct Hhist as [[-> ->]|(Hn & Hsome & ->)].
    + rewrite Eh, dec_ref_count by done. case_decide; lia.
    + destruct (new_lock addr p l amount h per); [|done]. rewrite inc_ref_count by done.
      rewrite Eh, dec_ref_count by done. repeat case_decide; lia.
  - destruct Hhist as [[_ ->]|(_ & _ & ->)]; [done|].
    eapply kept_ratio_trans; [exact Hkd|]. apply inc_ref_kept. by eapply kept_ratio_pos.
  - intros d. replace (per + 1 - 1) with per by lia. apply Hr.
  - by rewrite Eamt.
  - intros d. by rewrite Ecoin, Hf.
Qed.

Lemma ToCoins_Ok c cs : DecCoin_ToCoins c = Ok cs → wf_coins cs ∧ ∀ d, amount_of cs d = coin_at d c.
Proof.
  intros Hc. split; [by eapply NewCoins_wf|]. intros d. unfold coin_at. by apply NewCoins_amount.
Qed.

Lemma coin_at_add d dn a b : coin_at d (mkDecCoin dn (a + b)) = coin_at d (mkDecCoin dn a) + coin_at d (mkDecCoin dn b).
Proof. rewrite !coin_at_one. destruct (String.eqb dn d); lia. Qed.

(** The addresses of the accounts that the module owns do not sign. *)
Definition outsider (addr : string) : Prop := addr ≠ farmAddr ∧ addr ≠ yieldAddr.

Lemma to_farm_Ok addr cs s u s' :
  outsider addr → ck_wf (fa_coins s) →
  fa_on_supply (ck_SendCoinsFromAccountToModule addr FarmModuleName cs) s = (Ok u, s') →
  s' = fa_set_coins (fa_coins s') s ∧ ck_wf (fa_coins s') ∧
  (∀ d, ck_balance (fa_coins s') farmAddr d = ck_balance (fa_coins s) farmAddr d + amount_of cs d) ∧
  (∀ d, ck_balance (fa_coins s') yieldAddr d = ck_balance (fa_coins s) yieldAddr d).
Proof.
  intros [Ha1 Ha2] Hw (c' & Hm & ->)%fa_on_supply_Ok. apply law_AccountToModule in Hm as (fa & Hfa & [K1 K2 K3 _ _]).
  assert (fa = farmAddr) as -> by congruence. split_and!; [done|by apply K2|..]; intros d;
    change (fa_coins (fa_set_coins c' s)) with c'; rewrite K3; unfold at_addr.
  - rewrite decide_True, decide_False by done. lia.
  - rewrite !decide_False by done. lia.
Qed.
Lemma from_farm_Ok addr cs s u s' :
  outsider addr → ck_wf (fa_coins s) →
  fa_on_supply (ck_SendCoinsFromModuleToAccount FarmModuleName addr cs) s = (Ok u, s') →
  s' = fa_set_coins (fa_coins s') s ∧ ck_wf (fa_coins s') ∧
  (∀ d, ck_balance (fa_coins s') farmAddr d = ck_balance (fa_coins s) farmAddr d - amount_of cs d) ∧
  (∀ d, ck_balance (fa_coins s') yieldAddr d = ck_balance (fa_coins s) yieldAddr d).
Proof.
  intros [Ha1 Ha2] Hw (c' & Hm & ->)%fa_on_supply_Ok. apply law_ModuleToAccount in Hm as (_ & fa & Hfa & [K1 K2 K3 _ _]).
  assert (fa = farmAddr) as -> by congruence. split_and!; [done|by apply K2|..]; intros d;
    change (fa_coins (fa_set_coins c' s)) with c'; rewrite K3; unfold at_addr.
  - rewrite decide_False, decide_True by done. lia.
  - rewrite !decide_False by done. lia.
Qed.

Lemma withdrawn_per k pools p addr per h l r coins s s' pool :
  withdrawn k pools p addr per h l r coins s s' → pools !! p = Some pool → k + 1 < 2 ^ 64 →
  1 ≤ per + 1 < 2 ^ 64.
Proof.
  intros [_ _ W3 (hist1 & HSI & _) _ _ _ _ _] Hp Hk.
  destruct (fi_pools _ _ _ _ _ _ _ _ HSI p pool Hp) as (c & Hc & [_ _ _ _ _ _ _ Hpd _ _]).
  rewrite W3 in Hc. injection Hc as <-. cbn in Hpd. lia.
Qed.

Lemma handleMsgClaim_inv k h p addr s r s' :
  farm_inv farmAddr yieldAddr k s → k + 1 < 2 ^ 64 → outsider addr →
  handleMsgClaim h p addr s = (Ok r, s') → farm_inv farmAddr yieldAddr (k + 1) s'.
Proof.
  intros Hi Hk Ha. unfold handleMsgClaim. intros (o & s1 & [-> ->]%gets_Ok & Hr)%M_bind_Ok.
  destruct (fa_pools s !! p) as [pool|] eqn:Hp; [|done].
  assert (Fp_Name pool = p) as Ep by (by destruct (fi_pools _ _ _ _ _ _ _ _ Hi _ _ Hp) as (? & _ & [])).
  rewrite <- Ep in Hp. apply M_bind_Ok in Hr as ([pool' y] & s1 & Hcalc & Hr).
  apply (Calculate_yields k) in Hcalc as [-> Hy]; [|done..].
  apply M_bind_Ok in Hr as (rw & sW & Hw & Hr).
  apply (WithdrawRewards_Ok k h pool pool') in Hw as (l & per & Hl & HW); [|done..|apply Ha|apply Ha].
  pose proof HW as [W1 W2 W3 _ W4 W5 W6 W7 W8].
  pose proof (withdrawn_per _ _ _ _ _ _ _ _ _ _ _ _ HW (lookup_insert_eq _ _ _) Hk) as Hper.
  destruct (fi_locks _ _ _ _ _ _ _ _ Hi _ _ _ Hl) as [L1 L2 L3 (pool0 & c0 & Hp0 & _ & L4 & _)].
  assert (pool0 = pool) as -> by congruence.
  apply M_bind_Ok in Hr as (u1 & sU & Hup & Hr).
  eapply UpdateLockInfo_Ok in Hup as (U1 & U2 & U3 & U4 & U5); [|exact W3|done|by rewrite W1|done|done].
  cbn [Cr_Period] in U1, U5. replace (per + 1 - 1) with per in U1, U5 by lia.
  change ZeroDec with 0 in U1, U5. rewrite Z.add_0_r in U1, U5.
  apply M_bind_Ok in Hr as (paid & s3 & Hpay & Hr).
  apply payRewards_Ok in Hpay as (-> & Epaid & Wpaid & Hpaid); [|apply Hy|done].
  apply M_bind_Ok in Hr as (u2 & s3 & Hset & Hr). apply modify_Ok in Hset as ->. apply mret_Ok in Hr as [-> ->].
  unfold farm_inv. cbn [fa_pools fa_locks fa_historical fa_current fa_set_pools fa_swap].
  change (fa_coins (fa_set_pools _ sU)) with (fa_coins sU). rewrite U1, U2, U3, U4, W1, W2.
  assert (Fp_Name paid = Fp_Name pool) as -> by (rewrite Epaid, (yt_pool _ _ _ Hy); done).
  assert (<[Fp_Name pool := paid]> (fa_pools s)
    = <[Fp_Name pool := set_locked pool' (Fp_TotalValueLocked pool') (Fp_TotalAccumulatedRewards paid)]>
        (<[Fp_Name pool := pool']> (fa_pools s))) as -> by (rewrite insert_insert_eq; by f_equal).
  pose proof (yt_pool _ _ _ Hy) as Ey. destruct (fi_pools _ _ _ _ _ _ _ _ Hi _ _ Hp) as (c & _ & [A1 A2 A3 A4 _ _ _ _ _ _]).
  eapply settle_inv; [exact HW|apply lookup_insert_eq|exact Hl|lia|exact U5|done|done| | |done| |done].
  - rewrite Ey. pool_simpl. done.
  - lia.
  - intros d. rewrite W7. destruct (Li_Amount l). cbn. lia.
Qed.

Lemma handleMsgUnlock_inv k h msg s u s' :
  farm_inv farmAddr yieldAddr k s → k + 1 < 2 ^ 64 → outsider (Ml_Address msg) → 0 < Amount (Ml_Amount msg) →
  handleMsgUnlock h msg s = (Ok u, s') → farm_inv farmAddr yieldAddr (k + 1) s'.
Proof.
  intros Hi Hk Ha Hpos. unfold handleMsgUnlock. intros (o & s1 & [-> ->]%gets_Ok & Hr)%M_bind_Ok.
  destruct (fa_locks s !! (Ml_Address msg, Ml_PoolName msg)) as [l|] eqn:Hl0; [|done].
  apply M_bind_Ok in Hr as (u1 & s1 & [Hd1 ->]%guard_not_Ok & Hr). apply negb_false_iff, String.eqb_eq in Hd1.
  apply M_bind_Ok in Hr as (less & s1 & [Hless ->]%lift_Ok & Hr).
  apply M_bind_Ok in Hr as (u2 & s1 & [-> ->]%guard_not_Ok & Hr).
  assert (Amount (Ml_Amount msg) ≤ Amount (Li_Amount l)) as Hle.
  { unfold DecCoin_IsLT in Hless. destruct (negb _); [done|]. injection Hless as Hless. by apply Z.ltb_ge in Hless. }
  apply M_bind_Ok in Hr as (o & s1 & [-> ->]%gets_Ok & Hr).
  destruct (fa_pools s !! Ml_PoolName msg) as [pool|] eqn:Hp; [|done].
  destruct (fi_pools _ _ _ _ _ _ _ _ Hi _ _ Hp) as (c & _ & [Ep A2 A3 A4 _ _ _ _ _ _]).
  rewrite <- Ep in *. clear Ep.
  apply M_bind_Ok in Hr as (u3 & s1 & [Hd2 ->]%guard_not_Ok & Hr). apply negb_false_iff, String.eqb_eq in Hd2.
  apply M_bind_Ok in Hr as (rem & s1 & [_ ->]%lift_Ok & Hr).
  apply M_bind_Ok in Hr as (u4 & s1 & [_ ->]%guard_not_Ok & Hr).
  apply M_bind_Ok in Hr as ([pool' y] & s1 & Hcalc & Hr).
  apply (Calculate_yields k) in Hcalc as [-> Hy]; [|done..].
  apply M_bind_Ok in Hr as (rw & sW & Hw & Hr).
  apply (WithdrawRewards_Ok k h pool pool') in Hw as (l' & per & Hl & HW); [|done..|apply Ha|apply Ha].
  assert (l' = l) as -> by congruence. pose proof HW as [W1 W2 W3 _ W4 W5 W6 W7 W8].
  pose proof (withdrawn_per _ _ _ _ _ _ _ _ _ _ _ _ HW (lookup_insert_eq _ _ _) Hk) as Hper.
  destruct (fi_locks _ _ _ _ _ _ _ _ Hi _ _ _ Hl) as [L1 L2 L3 (pool0 & c0 & Hp0 & _ & L4 & _)].
  assert (pool0 = pool) as -> by congruence.
  apply M_bind_Ok in Hr as (u5 & sU & Hup & Hr).
  eapply UpdateLockInfo_Ok in Hup as (U1 & U2 & U3 & U4 & U5); [|exact W3|done|by rewrite W1|done|done].
  cbn [Cr_Period] in U1, U5. replace (per + 1 - 1) with per in U1, U5 by lia.
  apply M_bind_Ok in Hr as (cs & s3 & [Hcs ->]%lift_Ok & Hr). apply ToCoins_Ok in Hcs as [Wcs Hcs].
  apply M_bind_Ok in Hr as (u6 & sF & Hsend & Hr). apply wrapErr_Ok in Hsend.
  apply from_farm_Ok in Hsend as (EF & WF & F1 & F2); [|done|by rewrite U3].
  apply M_bind_Ok in Hr as (locked & s3 & [Hlk ->]%lift_Ok & Hr). apply DecCoin_Sub_Ok in Hlk as (Hlk1 & -> & _).
  apply M_bind_Ok in Hr as (paid & s3 & Hpay & Hr).
  apply payRewards_Ok in Hpay as (-> & Epaid & Wpaid & Hpaid); [|apply Hy|done].
  apply modify_Ok in Hr as ->. unfold farm_inv.
  assert (fa_locks sF = fa_locks sU ∧ fa_pools sF = fa_pools sU ∧ fa_historical sF = fa_historical sU ∧
    fa_current sF = fa_current sU) as (E1 & E2 & E3 & E4) by (rewrite EF; by split_and!).
  cbn [fa_pools fa_locks fa_historical fa_current fa_set_pools fa_swap].
  change (fa_coins (fa_set_pools _ sF)) with (fa_coins sF). rewrite E1, E2, E3, E4, U1, U2, U4, W1, W2.
  pose proof (yt_pool _ _ _ Hy) as Ey. pool_simpl.
  assert (Fp_Name paid = Fp_Name pool) as -> by (rewrite Epaid, Ey; done).
  assert (<[Fp_Name pool := paid]> (fa_pools s)
    = <[Fp_Name pool := set_locked pool'
          (mkDecCoin (Denom (Fp_TotalValueLocked pool')) (Amount (Fp_TotalValueLocked pool') - Amount (Ml_Amount msg)))
          (Fp_TotalAccumulatedRewards paid)]> (<[Fp_Name pool := pool']> (fa_pools s))) as ->
    by (rewrite insert_insert_eq; f_equal; exact Epaid).
  assert (Fp_TotalValueLocked pool' = Fp_TotalValueLocked pool ∧ Fp_MinLockAmount pool' = Fp_MinLockAmount pool) as [Et Em]
    by (rewrite Ey; done).
  eapply (settle_inv _ _ _ _ _ _ _ _ _ _ _ _ (Amount (Li_Amount l) - Amount (Ml_Amount msg)));
    [exact HW|apply lookup_insert_eq|exact Hl|lia|exact U5|done|done| | |done| |].
  - pool_simpl. by rewrite Et, Em.
  - pool_simpl. lia.
  - intros d. rewrite F1, U3, W7, Hcs. destruct (Li_Amount l) as [dn a], (Ml_Amount msg) as [dn' a'].
    cbn [Denom Amount] in *. subst dn'. rewrite !coin_at_one. destruct (String.eqb dn d); lia.
  - intros d. by rewrite F2, U3, W8.
Qed.

(** *** Locking *)

(** The end of a lock message: the lock grows, the coins are taken, and the
    pool is stored. *)
Lemma lock_tail h msg pool1 s u s' c l0 :
  outsider (Ml_Address msg) → ck_wf (fa_coins s) → 0 ≤ Amount (Li_Amount l0) → 0 < Amount (Ml_Amount msg) →
  fa_current s !! Ml_PoolName msg = Some c → 1 ≤ Cr_Period c < 2 ^ 64 →
  fa_locks s !! (Ml_Address msg, Ml_PoolName msg) = Some l0 →
  Li_Owner l0 = Ml_Address msg → Li_PoolName l0 = Ml_PoolName msg →
  (_ ← UpdateLockInfo h (Ml_Address msg) (Ml_PoolName msg) (Amount (Ml_Amount msg));
   coins ← lift (DecCoin_ToCoins (Ml_Amount msg));
   _ ← wrapErr "ErrSendCoinsFromAccountToModuleFailed"
         (fa_on_supply (ck_SendCoinsFromAccountToModule (Ml_Address msg) FarmModuleName coins));
   locked ← lift (DecCoin_Add (Fp_TotalValueLocked pool1) (Ml_Amount msg));
   SetFarmPool (set_locked pool1 locked (Fp_TotalAccumulatedRewards pool1))) s = (Ok u, s') →
  let nl := new_lock (Ml_Address msg) (Ml_PoolName msg) l0 (Amount (Li_Amount l0) + Amount (Ml_Amount msg)) h
              (Cr_Period c - 1) in
  nl ≠ None ∧ is_Some (fa_historical s !! (Ml_PoolName msg, Cr_Period c - 1)) ∧
  fa_locks s' = put_lock (Ml_Address msg, Ml_PoolName msg) nl (fa_locks s) ∧
  fa_pools s' = <[Fp_Name pool1 := set_locked pool1
    (mkDecCoin (Denom (Fp_TotalValueLocked pool1)) (Amount (Fp_TotalValueLocked pool1) + Amount (Ml_Amount msg)))
    (Fp_TotalAccumulatedRewards pool1)]> (fa_pools s) ∧
  fa_historical s' = inc_ref (Ml_PoolName msg, Cr_Period c - 1) (fa_historical s) ∧
  fa_current s' = fa_current s ∧ ck_wf (fa_coins s') ∧
  (∀ d, ck_balance (fa_coins s') farmAddr d = ck_balance (fa_coins s) farmAddr d + coin_at d (Ml_Amount msg)) ∧
  (∀ d, ck_balance (fa_coins s') yieldAddr d = ck_balance (fa_coins s) yieldAddr d).
Proof.
  intros Ha Hw Hn Hpos Hc Hper Hl Eo Ep (u1 & sU & Hup & Hr)%M_bind_Ok nl.
  eapply UpdateLockInfo_Ok in Hup as (U1 & U2 & U3 & U4 & U5); [|exact Hc|done|exact Hl|done|done].
  fold (new_lock (Ml_Address msg) (Ml_PoolName msg) l0 (Amount (Li_Amount l0) + Amount (Ml_Amount msg)) h
          (Cr_Period c - 1)) in U1, U5. fold nl in U1, U5.
  assert (nl ≠ None) as Hsome
    by (unfold nl, new_lock; destruct (Z.eqb_spec (Amount (Li_Amount l0) + Amount (Ml_Amount msg)) 0); [lia|done]).
  destruct U5 as [[? _]|(_ & Hex & U5)]; [done|].
  apply M_bind_Ok in Hr as (cs & s3 & [Hcs ->]%lift_Ok & Hr). apply ToCoins_Ok in Hcs as [Wcs Hcs].
  apply M_bind_Ok in Hr as (u6 & sF & Hsend & Hr). apply wrapErr_Ok in Hsend.
  apply to_farm_Ok in Hsend as (EF & WF & F1 & F2); [|done|by rewrite U3].
  apply M_bind_Ok in Hr as (locked & s3 & [Hlk ->]%lift_Ok & Hr). apply DecCoin_Add_Ok in Hlk as (_ & -> & _).
  apply modify_Ok in Hr as ->.
  assert (fa_locks sF = fa_locks sU ∧ fa_pools sF = fa_pools sU ∧ fa_historical sF = fa_historical sU ∧
    fa_current sF = fa_current sU) as (E1 & E2 & E3 & E4) by (rewrite EF; by split_and!).
  cbn [fa_pools fa_locks fa_historical fa_current fa_set_pools fa_swap].
  change (fa_coins (fa_set_pools _ sF)) with (fa_coins sF). rewrite E1, E2, E3, E4, U1, U2, U4, U5.
  split_and!; try done; intros d; by rewrite ?F1, ?F2, U3, ?Hcs.
Qed.

Lemma lock_again_inv k h msg pool pool' y s r sW paid sP u s' :
  farm_inv farmAddr yieldAddr k s → k + 1 < 2 ^ 64 → outsider (Ml_Address msg) → 0 < Amount (Ml_Amount msg) →
  fa_pools s !! Fp_Name pool = Some pool → Ml_PoolName msg = Fp_Name pool →
  Denom (Fp_MinLockAmount pool) = Denom (Ml_Amount msg) → yields_to pool pool' y →
  WithdrawRewards h (Fp_Name pool) (Fp_TotalValueLocked pool) y (Ml_Address msg) s = (Ok r, sW) →
  payRewards pool' r sW = (Ok paid, sP) →
  (_ ← UpdateLockInfo h (Ml_Address msg) (Ml_PoolName msg) (Amount (Ml_Amount msg));
   coins ← lift (DecCoin_ToCoins (Ml_Amount msg));
   _ ← wrapErr "ErrSendCoinsFromAccountToModuleFailed"
         (fa_on_supply (ck_SendCoinsFromAccountToModule (Ml_Address msg) FarmModuleName coins));
   locked ← lift (DecCoin_Add (Fp_TotalValueLocked paid) (Ml_Amount msg));
   SetFarmPool (set_locked paid locked (Fp_TotalAccumulatedRewards paid))) sP = (Ok u, s') →
  farm_inv farmAddr yieldAddr (k + 1) s'.
Proof.
  intros Hi Hk Ha Hpos Hp Em Ed Hy Hw Hpay Htail.
  apply (WithdrawRewards_Ok k h pool pool') in Hw as (l & per & Hl & HW); [|done..|apply Ha|apply Ha].
  pose proof HW as [W1 W2 W3 _ W4 W5 W6 W7 W8].
  pose proof (withdrawn_per _ _ _ _ _ _ _ _ _ _ _ _ HW (lookup_insert_eq _ _ _) Hk) as Hper.
  destruct (fi_locks _ _ _ _ _ _ _ _ Hi _ _ _ Hl) as [L1 L2 L3 (pool0 & c0 & Hp0 & _ & L4 & _)].
  assert (pool0 = pool) as -> by congruence.
  apply payRewards_Ok in Hpay as (-> & Epaid & Wpaid & Hpaid); [|apply Hy|done].
  apply (lock_tail _ _ _ _ _ _ (mkCurrent h (per + 1) []) l) in Htail
    as (T1 & T2 & T3 & T4 & T5 & T6 & T7 & T8 & T9); try done; try (by rewrite ?Em, ?W1); [|lia].
  cbn [Cr_Period] in *. replace (per + 1 - 1) with per in * by lia. rewrite Em in *.
  unfold farm_inv. rewrite T3, T4, T5, T6, W1, W2.
  destruct (fi_pools _ _ _ _ _ _ _ _ Hi _ _ Hp) as (c & _ & [A1 A2 A3 A4 _ _ _ _ _ _]).
  pose proof (yt_pool _ _ _ Hy) as Ey.
  assert (Fp_TotalValueLocked paid = Fp_TotalValueLocked pool' ∧ Fp_Name paid = Fp_Name pool ∧
    Fp_TotalValueLocked pool' = Fp_TotalValueLocked pool ∧ Fp_MinLockAmount pool' = Fp_MinLockAmount pool)
    as (P1 & P2 & P3 & P4) by (rewrite Epaid, Ey; done).
  rewrite P1, P2. assert (∀ x, set_locked paid x (Fp_TotalAccumulatedRewards paid)
    = set_locked pool' x (Fp_TotalAccumulatedRewards paid)) as -> by (intros x; by rewrite Epaid).
  rewrite <- (insert_insert_eq (fa_pools s) (Fp_Name pool) _ pool').
  eapply settle_inv; [exact HW|apply lookup_insert_eq|exact Hl| |right; split_and!; [exact T1|exact T2|reflexivity]
    |done|done| | |done| |].
  - lia.
  - pool_simpl. by rewrite P3, P4.
  - pool_simpl. lia.
  - intros d. rewrite T8, W7. destruct (Li_Amount l) as [dn a], (Ml_Amount msg) as [dn' a'].
    cbn [Denom Amount] in *. rewrite !coin_at_one. rewrite L4, Ed. destruct (String.eqb dn' d); lia.
  - intros d. by rewrite T9, W8.
Qed.

Lemma lock_new_inv k h msg pool pool' y s per s1 zero u s' :
  farm_inv farmAddr yieldAddr k s → k + 1 < 2 ^ 64 → outsider (Ml_Address msg) → 0 < Amount (Ml_Amount msg) →
  fa_pools s !! Fp_Name pool = Some pool → Ml_PoolName msg = Fp_Name pool →
  Denom (Fp_MinLockAmount pool) = Denom (Ml_Amount msg) → yields_to pool pool' y →
  fa_locks s !! (Ml_Address msg, Fp_Name pool) = None →
  IncrementPoolPeriod h (Fp_Name pool) (Fp_TotalValueLocked pool) y s = (Ok per, s1) →
  NewDecCoinFromDec (Denom (Fp_MinLockAmount pool)) ZeroDec = Ok zero →
  (_ ← UpdateLockInfo h (Ml_Address msg) (Ml_PoolName msg) (Amount (Ml_Amount msg));
   coins ← lift (DecCoin_ToCoins (Ml_Amount msg));
   _ ← wrapErr "ErrSendCoinsFromAccountToModuleFailed"
         (fa_on_supply (ck_SendCoinsFromAccountToModule (Ml_Address msg) FarmModuleName coins));
   locked ← lift (DecCoin_Add (Fp_TotalValueLocked pool') (Ml_Amount msg));
   SetFarmPool (set_locked pool' locked (Fp_TotalAccumulatedRewards pool')))
    (fa_set_locks ({[ (Ml_PoolName msg, Ml_Address msg) ]} ∪ fa_poolAddrs s1)
       (<[(Ml_Address msg, Fp_Name pool) := mkLockInfo (Ml_Address msg) (Fp_Name pool) zero h 0]> (fa_locks s1)) s1)
    = (Ok u, s') →
  farm_inv farmAddr yieldAddr (k + 1) s'.
Proof.
  intros Hi Hk Ha Hpos Hp Em Ed Hy Hnone Hinc Hz Htail.
  apply (advance_Ok k h pool pool') in Hinc as (Hper & Es1 & Hc1 & HSI); [|done..].
  assert (fa_locks s1 = fa_locks s ∧ fa_pools s1 = fa_pools s ∧ fa_coins s1 = fa_coins s) as (El & Ep & Ec)
    by (rewrite Es1; by split_and!).
  destruct (fi_pools _ _ _ _ _ _ _ _ HSI _ _ (lookup_insert_eq _ _ _)) as (c1 & Hc1' & [A1 A2 A3 A4 A5 A6 A7 A8 A9 A10]).
  assert (c1 = mkCurrent h (per + 1) []) as -> by congruence. clear Hc1'. cbn [Cr_Period] in A8.
  apply NewDecCoinFromDec_Ok in Hz as (_ & _ & ->).
  apply (lock_tail _ _ _ _ _ _ (mkCurrent h (per + 1) [])
    (mkLockInfo (Ml_Address msg) (Fp_Name pool) (mkDecCoin (Denom (Fp_MinLockAmount pool)) ZeroDec) h 0)) in Htail
    as (T1 & T2 & T3 & T4 & T5 & T6 & T7 & T8 & T9); try done.
  2:{ change (fa_coins _) with (fa_coins s1). rewrite Ec. apply Hi. }
  2:{ by rewrite Em. }
  2:{ cbn [Cr_Period]. lia. }
  2:{ rewrite Em. apply lookup_insert_eq. }
  cbn [Cr_Period fa_locks fa_pools fa_historical fa_current fa_set_locks] in *.
  change (fa_coins (fa_set_locks _ _ s1)) with (fa_coins s1) in *.
  replace (per + 1 - 1) with per in * by lia. rewrite Em, Ec, El, Ep in *.
  set (nl := new_lock _ _ _ _ _ _) in *.
  assert (nl = Some (mkLockInfo (Ml_Address msg) (Fp_Name pool)
    (mkDecCoin (Denom (Fp_MinLockAmount pool)) (Amount (Ml_Amount msg))) h per)) as Enl.
  { unfold nl, new_lock. cbn [Li_Amount Amount Denom]. change ZeroDec with 0. rewrite Z.add_0_l.
    destruct (Z.eqb_spec (Amount (Ml_Amount msg)) 0); [lia|done]. }
  assert (put_lock (Ml_Address msg, Fp_Name pool) nl (<[(Ml_Address msg, Fp_Name pool) :=
    mkLockInfo (Ml_Address msg) (Fp_Name pool) (mkDecCoin (Denom (Fp_MinLockAmount pool)) ZeroDec) h 0]> (fa_locks s))
    = put_lock (Ml_Address msg, Fp_Name pool) nl (fa_locks s)) as Eput by (rewrite Enl; apply insert_insert_eq).
  rewrite Eput in T3. clear Eput. clearbody nl. subst nl.
  unfold farm_inv. rewrite T3, T4, T5, T6, A1. rewrite <- (insert_insert_eq (fa_pools s) (Fp_Name pool) _ pool').
  assert (counts_pos (fa_historical s1)) as Hpc by (intros key x Hx; by apply (fi_hist _ _ _ _ _ _ _ _ HSI) in Hx as [? _]).
  pose proof (yt_pool _ _ _ Hy) as Ey.
  assert (Fp_MinLockAmount pool' = Fp_MinLockAmount pool) as P4 by (rewrite Ey; done).
  eapply (inv_settle _ _ _ (fa_coins s) _ _ _ (fa_historical s1) _ _ _ pool' _ _ _ (λ _, 0));
    [exact HSI|apply lookup_insert_eq|exact Hc1|..]; rewrite ?Hnone; pool_simpl; try done.
  - intros l [= <-]. cbn. rewrite P4. split_and!; try done; lia.
  - intros key. rewrite inc_ref_count by done. unfold ref_of. cbn [at_key Li_ReferencePeriod]. lia.
  - by apply inc_ref_kept.
  - intros d. lia.
  - cbn [Li_Amount Amount]. lia.
  - intros d. rewrite T8. cbn [Li_Amount]. rewrite Ed. destruct (Ml_Amount msg) as [dn a]. cbn [Denom Amount]. lia.
  - intros d. rewrite T9. lia.
Qed.

Lemma handleMsgLock_inv k h msg s u s' :
  farm_inv farmAddr yieldAddr k s → k + 1 < 2 ^ 64 → outsider (Ml_Address msg) → 0 < Amount (Ml_Amount msg) →
  handleMsgLock h msg s = (Ok u, s') → farm_inv farmAddr yieldAddr (k + 1) s'.
Proof.
  intros Hi Hk Ha Hpos. unfold handleMsgLock. intros (o & s1 & [-> ->]%gets_Ok & Hr)%M_bind_Ok.
  destruct (fa_pools s !! Ml_PoolName msg) as [pool|] eqn:Hp; [|done].
  destruct (fi_pools _ _ _ _ _ _ _ _ Hi _ _ Hp) as (c & _ & [Ep _ _ _ _ _ _ _ _ _]).
  symmetry in Ep. rewrite Ep in Hp.
  apply M_bind_Ok in Hr as (u3 & s1 & [Hd ->]%guard_not_Ok & Hr). apply negb_false_iff, String.eqb_eq in Hd.
  apply M_bind_Ok in Hr as (o & s1 & [-> ->]%gets_Ok & Hr). cbv zeta in Hr.
  apply M_bind_Ok in Hr as (u4 & s1 & [_ ->]%guard_not_Ok & Hr).
  apply M_bind_Ok in Hr as ([pool' y] & s1 & Hcalc & Hr).
  apply (Calculate_yields k) in Hcalc as [-> Hy]; [|done..].
  apply M_bind_Ok in Hr as (pool1 & s1 & Hmid & Hr). case_bool_decide as Hlk.
  - apply M_bind_Ok in Hmid as (r & sW & Hw & Hpay). by eapply lock_again_inv.
  - apply M_bind_Ok in Hmid as (per & s2 & Hinc & Hmid).
    apply M_bind_Ok in Hmid as (zero & s3 & [Hz ->]%lift_Ok & Hmid).
    apply M_bind_Ok in Hmid as (u5 & s3 & Hs3 & Hmid). apply modify_Ok in Hs3 as ->.
    apply M_bind_Ok in Hmid as (u6 & s3 & Hs3 & Hmid). apply modify_Ok in Hs3 as ->. apply mret_Ok in Hmid as [-> ->].
    eapply lock_new_inv; try done. rewrite <- Ep. by apply eq_None_not_Some.
Qed.

(** *** Moves of coins *)

Lemma fa_ToModule_Ok addr m cs s u s' :
  fa_on_supply (ck_SendCoinsFromAccountToModule addr m cs) s = (Ok u, s') →
  ∃ a c', ck_modaddr m = Some a ∧ kmove (fa_coins s) c' addr a cs ∧ s' = fa_set_coins c' s.
Proof.
  intros (c' & Hm & ->)%fa_on_supply_Ok. apply law_AccountToModule in Hm as (a & Ha & K). by exists a, c'.
Qed.
Lemma kmove_elsewhere c c' a b cs x d :
  kmove c c' a b cs → x ≠ a → x ≠ b → ck_balance c' x d = ck_balance c x d.
Proof. intros K Ha Hb. rewrite (km_balance _ _ _ _ _ K). unfold at_addr. rewrite !decide_False by done. lia. Qed.
Lemma kmove_arrives c c' a b cs d :
  kmove c c' a b cs → b ≠ a → ck_balance c' b d = ck_balance c b d + amount_of cs d.
Proof.
  intros K Ha. rewrite (km_balance _ _ _ _ _ K). unfold at_addr. rewrite decide_True, decide_False by done. lia.
Qed.

(** *** Providing *)

Lemma remaining_cons d y infos : remaining_at d (y :: infos) = coin_at d (Yt_RemainingAmount y) + remaining_at d infos.
Proof. done. Qed.
Lemma coin_at_zero d c : Amount c = 0 → coin_at d c = 0.
Proof. destruct c as [dn a]. cbn [Amount]. intros ->. rewrite coin_at_one. by destruct (String.eqb _ _). Qed.

Lemma handleMsgProvide_inv k h msg s u s' :
  farm_inv farmAddr yieldAddr k s → k + 1 < 2 ^ 64 → outsider (Mv_Address msg) →
  0 ≤ Amount (Mv_Amount msg) → 0 ≤ Mv_AmountYieldedPerBlock msg →
  handleMsgProvide h msg s = (Ok u, s') → farm_inv farmAddr yieldAddr (k + 1) s'.
Proof.
  intros Hi Hk Ha Hp1 Hp2. unfold handleMsgProvide. intros (u0 & s1 & [_ ->]%guard_not_Ok & Hr)%M_bind_Ok.
  apply M_bind_Ok in Hr as (o & s1 & [-> ->]%gets_Ok & Hr).
  destruct (fa_pools s !! Mv_PoolName msg) as [pool|] eqn:Hp; [|done].
  destruct (fi_pools _ _ _ _ _ _ _ _ Hi _ _ Hp) as (c & _ & [Ep _ _ _ _ _ _ _ _ _]).
  symmetry in Ep. rewrite Ep in Hp. apply M_bind_Ok in Hr as (u1 & s1 & [_ ->]%guard_not_Ok & Hr).
  destruct (Fp_YieldedTokenInfos pool) as [|y0 [|? ?]]; [done| |done].
  apply M_bind_Ok in Hr as (u2 & s1 & [_ ->]%guard_not_Ok & Hr).
  apply M_bind_Ok in Hr as ([pool' y] & s1 & Hcalc & Hr).
  apply (Calculate_yields k) in Hcalc as [-> Hy]; [|done..].
  destruct (Fp_YieldedTokenInfos pool') as [|y1 rest] eqn:Einf; [done|].
  apply M_bind_Ok in Hr as (u3 & s1 & [Hz ->]%guard_not_Ok & Hr).
  apply negb_false_iff in Hz. rewrite DecCoin_IsZero_eq in Hz. apply Z.eqb_eq in Hz.
  apply M_bind_Ok in Hr as (per & s1 & Hinc & Hr).
  apply (advance_Ok k h pool pool') in Hinc as (_ & Es1 & _ & HSI); [|done..].
  apply M_bind_Ok in Hr as (cs & s2 & [Hcs ->]%lift_Ok & Hr). apply ToCoins_Ok in Hcs as [_ Hcs].
  apply M_bind_Ok in Hr as (u4 & s2 & Hsend & Hr). apply wrapErr_Ok in Hsend.
  apply fa_ToModule_Ok in Hsend as (ya & c' & Hya & K & ->). assert (ya = yieldAddr) as -> by congruence.
  apply modify_Ok in Hr as ->. unfold farm_inv. cbn [fa_pools fa_locks fa_historical fa_current fa_set_pools].
  change (fa_coins (fa_set_pools _ (fa_set_coins c' s1))) with c'. destruct Ha as [Ha1 Ha2].
  assert (fa_locks s1 = fa_locks s ∧ fa_pools s1 = fa_pools s ∧ fa_coins s1 = fa_coins s) as (El & Epl & Ec)
    by (rewrite Es1; by split_and!).
  cbn [fa_locks fa_pools fa_historical fa_current fa_set_coins fa_set_swap]. rewrite El, Epl. rewrite Ec in K.
  assert (Fp_Name pool' = Fp_Name pool) as En by (by rewrite (yt_pool _ _ _ Hy)).
  pool_simpl. rewrite En. rewrite <- (insert_insert_eq (fa_pools s) (Fp_Name pool) _ pool').
  pose proof (yt_infos _ _ _ Hy) as Hinf. rewrite Einf in Hinf. apply Forall_cons in Hinf as [_ Hinf].
  eapply inv_provide; [exact HSI|apply lookup_insert_eq|by constructor|by eapply km_wf, HSI| |].
  - intros d. eapply kmove_elsewhere; [exact K|done|done].
  - intros d. rewrite (kmove_arrives _ _ _ _ _ d K) by done. rewrite Einf, !remaining_cons, Hcs, (coin_at_zero d _ Hz).
    cbn [Yt_RemainingAmount]. lia.
Qed.

(** *** Creating *)

Lemma fa_TokenExist_Ok symbol s b s' : fa_TokenExist symbol s = (Ok b, s') → s' = s.
Proof.
  unfold fa_TokenExist, fa_on_swap, on_token. intros (w & Hw & ->)%zoom_Ok. apply zoom_Ok in Hw as (t & Ht & ->).
  apply gets_Ok in Ht as [_ ->]. by destruct s as [[]].
Qed.

Lemma handleMsgCreatePool_inv k h msg feeAddr s u s' :
  farm_inv farmAddr yieldAddr k s → 1 ≤ k → outsider (Mp_Owner msg) →
  ck_modaddr feeCollectorName = Some feeAddr → outsider feeAddr →
  handleMsgCreatePool feeCollectorName h msg s = (Ok u, s') → farm_inv farmAddr yieldAddr k s'.
Proof.
  intros Hi Hk [Ha1 Ha2] Hfee [Hf1 Hf2]. unfold handleMsgCreatePool. intros (o & s1 & [-> ->]%gets_Ok & Hr)%M_bind_Ok.
  apply M_bind_Ok in Hr as (u0 & s1 & [Hp ->]%guard_not_Ok & Hr). apply bool_decide_eq_false, eq_None_not_Some in Hp.
  apply M_bind_Ok in Hr as (b1 & s1 & ->%fa_TokenExist_Ok & Hr).
  apply M_bind_Ok in Hr as (u1 & s1 & [_ ->]%guard_not_Ok & Hr).
  apply M_bind_Ok in Hr as (b2 & s1 & ->%fa_TokenExist_Ok & Hr).
  apply M_bind_Ok in Hr as (u2 & s1 & [_ ->]%guard_not_Ok & Hr).
  apply M_bind_Ok in Hr as (params & s1 & [-> ->]%gets_Ok & Hr).
  apply M_bind_Ok in Hr as (fee & s1 & [_ ->]%lift_Ok & Hr).
  apply M_bind_Ok in Hr as (u3 & s1 & Hs1 & Hr). apply wrapErr_Ok, fa_ToModule_Ok in Hs1 as (a1 & c1 & E1 & K1 & ->).
  assert (a1 = feeAddr) as -> by congruence. cbv zeta in Hr.
  apply M_bind_Ok in Hr as (dep & s1 & [Hdep ->]%lift_Ok & Hr). apply ToCoins_Ok in Hdep as [Wdep Hdep].
  apply M_bind_Ok in Hr as (u4 & s1 & Hs1 & Hr). apply wrapErr_Ok, fa_ToModule_Ok in Hs1 as (a2 & c2 & E2 & K2 & ->).
  assert (a2 = farmAddr) as -> by congruence. change (fa_coins (fa_set_coins c1 s)) with c1 in K2.
  apply M_bind_Ok in Hr as (z1 & s1 & [Hz1 ->]%lift_Ok & Hr). apply NewDecCoin_Ok in Hz1 as (_ & _ & ->).
  apply M_bind_Ok in Hr as (z2 & s1 & [Hz2 ->]%lift_Ok & Hr). apply NewDecCoin_Ok in Hz2 as (_ & _ & ->).
  apply M_bind_Ok in Hr as (u5 & s1 & Hs1 & Hr). apply modify_Ok in Hs1 as ->.
  apply M_bind_Ok in Hr as (u6 & s1 & Hs1 & Hr). apply modify_Ok in Hs1 as ->. apply modify_Ok in Hr as ->.
  unfold farm_inv. eapply (inv_create _ _ _ _ _ _ _ _ _ _ _ h); [exact Hi|done|exact Hp|..]; pool_simpl; try done.
  - destruct (Fa_CreatePoolDeposit (fa_params s)) as [dn a]. pose proof (wf_amount_nonneg dep dn Wdep) as Hn.
    rewrite Hdep, coin_at_one, String.eqb_refl in Hn. done.
  - repeat constructor; cbn; change ZeroDec with 0; lia.
  - intros d. rewrite remaining_cons. cbn [Yt_RemainingAmount]. rewrite coin_at_zero by done. done.
  - apply (km_wf _ _ _ _ _ K2), (km_wf _ _ _ _ _ K1), Hi.
  - intros d. rewrite <- Hdep.
    change (ck_balance c2 farmAddr d = ck_balance (fa_coins s) farmAddr d + amount_of dep d). rewrite (kmove_arrives _ _ _ _ _ d K2) by done.
    by rewrite (kmove_elsewhere _ _ _ _ _ farmAddr d K1) by done.
  - intros d. change (ck_balance c2 yieldAddr d = ck_balance (fa_coins s) yieldAddr d). rewrite (kmove_elsewhere _ _ _ _ _ yieldAddr d K2) by done.
    by rewrite (kmove_elsewhere _ _ _ _ _ yieldAddr d K1) by done.
Qed.

(** *** Destroying *)

(** No other pool has history under a key that starts with the name. *)
Definition apart (p : string) (s : FarmState S) : Prop := ∀ q per x,
  fa_historical s !! (q, per) = Some x → q ≠ p → String.prefix p (GetPoolHistoricalRewardsKey q per) = false.

Lemma deleted_history p s q per :
  apart p s →
  base.filter (λ x : string * Z * PoolHistoricalRewards,
    String.prefix p (GetPoolHistoricalRewardsKey x.1.1 x.1.2) = false) (fa_historical s) !! (q, per)
  = if decide (q = p) then None else fa_historical s !! (q, per).
Proof.
  intros Hap. apply option_eq. intros x. rewrite map_lookup_filter_Some. cbn. case_decide as Hq.
  - subst q. unfold GetPoolHistoricalRewardsKey. rewrite prefix_app_intro. naive_solver.
  - split; [naive_solver|]. intros Hx. split; [done|]. by eapply Hap.
Qed.

Lemma finished_remaining pool d :
  Forall info_ok (Fp_YieldedTokenInfos pool) → FarmPool_Finished pool = true →
  Amount (Fp_TotalValueLocked pool) = 0 ∧ remaining_at d (Fp_YieldedTokenInfos pool) = 0.
Proof.
  unfold FarmPool_Finished. intros Hinf Hf. destruct (existsb _ _) eqn:Hex; [done|].
  rewrite DecCoin_IsZero_eq in Hf. apply Z.eqb_eq in Hf. split; [done|].
  induction (Fp_YieldedTokenInfos pool) as [|y l IH]; [done|]. apply Forall_cons in Hinf as [[Hy _] Hinf].
  cbn [existsb] in Hex. apply orb_false_iff in Hex as [Hy' Hex]. rewrite remaining_cons, IH by done.
  rewrite DecCoin_IsPositive_eq in Hy'. apply Z.ltb_ge in Hy'. rewrite coin_at_zero; [done|lia].
Qed.

Lemma deposit_back owner c s u s' :
  ck_wf (fa_coins s) → outsider owner → 0 ≤ Amount c →
  (if DecCoin_IsPositive c
   then withdraw ← lift (DecCoin_ToCoins c);
        wrapErr "ErrInsufficientCoins" (fa_on_supply (ck_SendCoinsFromModuleToAccount FarmModuleName owner withdraw))
   else mret ()) s = (Ok u, s') →
  s' = fa_set_coins (fa_coins s') s ∧ ck_wf (fa_coins s') ∧
  (∀ d, ck_balance (fa_coins s') farmAddr d = ck_balance (fa_coins s) farmAddr d - coin_at d c) ∧
  (∀ d, ck_balance (fa_coins s') yieldAddr d = ck_balance (fa_coins s) yieldAddr d).
Proof.
  intros Hw Ho Hn. rewrite DecCoin_IsPositive_eq. destruct (Z.ltb_spec 0 (Amount c)) as [Hs|Hs].
  - intros (cs & s1 & [Hcs ->]%lift_Ok & Hr)%M_bind_Ok. apply ToCoins_Ok in Hcs as [_ Hcs]. apply wrapErr_Ok in Hr.
    apply from_farm_Ok in Hr as (E & W & F1 & F2); [|done|done]. split_and!; try done. intros d. by rewrite F1, Hcs.
  - intros [_ ->]%mret_Ok. split_and!; [by destruct s as [[[] ? ?] ? ? ? ? ? ? ?]|done| |done].
    intros d. rewrite coin_at_zero; lia.
Qed.

Lemma handleMsgDestroyPool_inv k h owner p s u s' :
  farm_inv farmAddr yieldAddr k s → outsider owner → apart p s →
  handleMsgDestroyPool h owner p s = (Ok u, s') → farm_inv farmAddr yieldAddr k s'.
Proof.
  intros Hi Ha Hap. unfold handleMsgDestroyPool. intros (o & s1 & [-> ->]%gets_Ok & Hr)%M_bind_Ok.
  destruct (fa_pools s !! p) as [pool|] eqn:Hp; [|done].
  destruct (fi_pools _ _ _ _ _ _ _ _ Hi _ _ Hp) as (c & _ & [Ep _ _ A4 _ _ _ _ _ _]).
  apply M_bind_Ok in Hr as (u1 & s1 & [_ ->]%guard_not_Ok & Hr).
  apply M_bind_Ok in Hr as ([pool' y] & s1 & Hcalc & Hr).
  apply (Calculate_yields k) in Hcalc as [-> Hy]; [|done|by rewrite Ep].
  apply M_bind_Ok in Hr as (u2 & s1 & [Hfin ->]%guard_not_Ok & Hr). apply negb_false_iff in Hfin.
  pose proof (yt_pool _ _ _ Hy) as Ey.
  apply M_bind_Ok in Hr as (u3 & s1 & Hpay & Hr).
  assert (Hpay' : (if negb (DecCoins_IsZero (Fp_TotalAccumulatedRewards pool'))
     then fa_on_supply (ck_SendCoinsFromModuleToAccount YieldFarmingAccount owner (Fp_TotalAccumulatedRewards pool'))
     else mret ()) s = (Ok u3, s1)) by (by destruct (negb _); [apply wrapErr_Ok in Hpay|]).
  apply payout_Ok in Hpay' as (E1 & W1 & B1 & B2); [|apply Hi|apply Hy|apply Ha|apply Ha].
  apply M_bind_Ok in Hr as (u4 & s2 & Hdep & Hr).
  apply deposit_back in Hdep as (E2 & W2 & B3 & B4); [|done|done|done].
  apply M_bind_Ok in Hr as (u5 & s3 & Hs3 & Hr). apply modify_Ok in Hs3 as ->.
  apply M_bind_Ok in Hr as (u6 & s3 & Hs3 & Hr). apply modify_Ok in Hs3 as ->. apply modify_Ok in Hr as ->.
  assert (fa_pools s2 = fa_pools s ∧ fa_locks s2 = fa_locks s ∧ fa_historical s2 = fa_historical s ∧
    fa_current s2 = fa_current s) as (F1 & F2 & F3 & F4) by (rewrite E2; cbn; rewrite E1; by split_and!).
  unfold farm_inv. cbn [fa_pools fa_locks fa_historical fa_current fa_set_pools fa_set_whitelist fa_set_rewards].
  change (fa_coins (fa_set_rewards _ _ _)) with (fa_coins s2). rewrite F1, F2, F3, F4.
  destruct (finished_remaining pool' "" (yt_infos _ _ _ Hy) Hfin) as [H0 _].
  eapply inv_remove; [exact Hi|exact Hp|by rewrite Ey in H0|..|exact W2| |].
  - intros per. rewrite deleted_history by done. by rewrite decide_True.
  - intros q per Hq. rewrite deleted_history by done. by rewrite decide_False.
  - intros d. by rewrite B3, B1.
  - intros d. rewrite B4, B2. unfold holdings. destruct (yt_amounts _ _ _ Hy d) as [G1 G2].
    destruct (finished_remaining pool' d (yt_infos _ _ _ Hy) Hfin) as [_ G3]. lia.
Qed.

End Operations.
