(* ===== verification/FarmRun.v ===== *)
(** * The farm module: blocks and runs

    The allocation of minted tokens at the start of a block, the steps of a
    chain that concern the module, and what holds along every run of them. *)
From Stdlib Require Import Ascii.
From S2P Require Import Prelude Decimal Denom Coins Bank CoinKeeper Token Swap DecStr Farm FarmProps.
#[local] Open Scope Z_scope.

#[local] Abbreviation P := precisionReuse.

(** ** Allocation of minted tokens *)

(** Pools that were given [D] together, each as much in the rewards of its
    current period as in its accumulated rewards. *)
Record grown (pools : gmap string FarmPool) (cur : gmap string PoolCurrentRewards)
    (pools' : gmap string FarmPool) (cur' : gmap string PoolCurrentRewards) (D : string → Z) : Prop := {
  gr_pool : ∀ p pool', pools' !! p = Some pool' → ∃ pool c c',
    pools !! p = Some pool ∧ cur !! p = Some c ∧ cur' !! p = Some c' ∧
    pool' = set_yielded pool (Fp_YieldedTokenInfos pool) (Fp_TotalAccumulatedRewards pool') ∧
    wf_coins (Fp_TotalAccumulatedRewards pool') ∧ wf_coins (Cr_Rewards c') ∧
    ∀ d, amount_of (Cr_Rewards c') d - amount_of (Cr_Rewards c) d
      = amount_of (Fp_TotalAccumulatedRewards pool') d - amount_of (Fp_TotalAccumulatedRewards pool) d;
  gr_kept : ∀ p, is_Some (pools !! p) → is_Some (pools' !! p);
  gr_period : ∀ p, Cr_Period <$> cur' !! p = Cr_Period <$> cur !! p;
  gr_deposits : ∀ d, map_sum (λ pool, coin_at d (Fp_DepositAmount pool)) pools'
    = map_sum (λ pool, coin_at d (Fp_DepositAmount pool)) pools;
  gr_holdings : ∀ d, map_sum (holdings d) pools' = map_sum (holdings d) pools + D d }.

Section Grown.
Context {S : Type} `{CoinKeeper S} (farmAddr yieldAddr : string).
#[local] Abbreviation SI := (stores_inv farmAddr yieldAddr).

Lemma grown_refl k (coins : S) pools locks hist cur :
  SI k coins pools locks hist cur → grown pools cur pools cur (λ _, 0).
Proof.
  intros Hi. split; try done; [|intros; lia]. intros p pool Hp.
  destruct (fi_pools _ _ _ _ _ _ _ _ Hi _ _ Hp) as (c & Hc & []). exists pool, c, c.
  split_and!; try done; [by destruct pool|]. intros. lia.
Qed.

Lemma grown_step pools cur pools' cur' D p pool c c' x acc rewards h :
  grown pools cur pools' cur' D → pools' !! p = Some pool → cur' !! p = Some c →
  coins_sorted x → Forall (λ c, 0 ≤ Amount c) x →
  DecCoins_Add2 (Cr_Rewards c) x = Ok rewards → DecCoins_Add2 (Fp_TotalAccumulatedRewards pool) x = Ok acc →
  c' = mkCurrent h (Cr_Period c) rewards →
  grown pools cur (<[p := set_yielded pool (Fp_YieldedTokenInfos pool) acc]> pools') (<[p := c']> cur')
    (λ d, D d + amount_of x d).
Proof.
  intros [G1 G2 G3 G4 G5] Hp Hc Hs Hn Hr Ha ->. split.
  - intros q pool' [[<- <-]|[Hne Hq]]%lookup_insert_Some.
    + destruct (G1 _ _ Hp) as (pool0 & c0 & c1 & E1 & E2 & E3 & E4 & E5 & E6 & E7).
      assert (c1 = c) as -> by congruence. eexists pool0, c0, _. split; [done|]. split; [done|].
      split; [apply lookup_insert_eq|]. pool_simpl. split_and!.
      * rewrite E4. done.
      * exact (safeAdd_wf_nonneg _ _ _ E5 Hs Hn Ha).
      * exact (safeAdd_wf_nonneg _ _ _ E6 Hs Hn Hr).
      * intros d. rewrite (safeAdd_amount _ _ _ d Hr), (safeAdd_amount _ _ _ d Ha). specialize (E7 d). lia.
    + destruct (G1 _ _ Hq) as (pool0 & c0 & c1 & E1 & E2 & E3 & E4). exists pool0, c0, c1.
      by rewrite lookup_insert_ne.
  - intros q Hq. apply lookup_insert_is_Some. destruct (decide (p = q)); [by left|right; eauto].
  - intros q. rewrite <- G3. destruct (decide (p = q)) as [<-|]; [|by rewrite lookup_insert_ne].
    by rewrite lookup_insert_eq, Hc.
  - intros d. rewrite map_sum_insert, Hp, G4. pool_simpl. lia.
  - intros d. rewrite map_sum_insert, Hp, G5. unfold holdings. pool_simpl.
    rewrite (safeAdd_amount _ _ _ d Ha). lia.
Qed.

Lemma grown_period pools cur pools' cur' D p c :
  grown pools cur pools' cur' D → cur !! p = Some c → ∃ c', cur' !! p = Some c' ∧ Cr_Period c' = Cr_Period c.
Proof.
  intros G Hc. pose proof (gr_period _ _ _ _ _ G p) as E. rewrite Hc in E. destruct (cur' !! p) as [c'|]; [|done].
  injection E as E. eauto.
Qed.

Lemma inv_grown k (coins coins' : S) pools locks hist cur pools' cur' D :
  SI k coins pools locks hist cur → grown pools cur pools' cur' D → ck_wf coins' →
  (∀ d, ck_balance coins' farmAddr d = ck_balance coins farmAddr d) →
  (∀ d, ck_balance coins' yieldAddr d = ck_balance coins yieldAddr d + D d) →
  SI k coins' pools' locks hist cur'.
Proof.
  intros [I1 I2 I3 I4 I5 I6 I7 I8] G Hw Hf Hy. split; try done.
  - intros p pool' Hp'. destruct (gr_pool _ _ _ _ _ G _ _ Hp') as (pool & c & c' & Hp & Hc & Hc' & Ep & W1 & W2 & Ed).
    destruct (I2 _ _ Hp) as (c0 & Hc0 & [A1 A2 A3 A4 A5 A6 A7 A8 A9 A10]). assert (c0 = c) as -> by congruence.
    destruct (grown_period _ _ _ _ _ _ _ G Hc) as (c1 & Hc1 & Eper). assert (c1 = c') as -> by congruence.
    exists c'. split; [done|]. rewrite Ep. split; pool_simpl; rewrite ?Eper; try done.
    intros d. specialize (A9 d). specialize (Ed d). lia.
  - intros p c' Hc'. apply (gr_kept _ _ _ _ _ G). pose proof (gr_period _ _ _ _ _ G p) as E. rewrite Hc' in E.
    destruct (cur !! p) eqn:Hc; [|done]. by eapply I3.
  - intros a p l Hl. destruct (I4 a p l Hl) as [B1 B2 B3 (pool & c & Hp & Hc & B4 & B5)]. split; try done.
    destruct (gr_kept _ _ _ _ _ G p) as [pool' Hp']; [by exists pool|].
    destruct (gr_pool _ _ _ _ _ G _ _ Hp') as (pool0 & c0 & c' & Hp0 & Hc0 & Hc' & Ep & _).
    assert (pool0 = pool) as -> by congruence. assert (c0 = c) as -> by congruence.
    destruct (grown_period _ _ _ _ _ _ _ G Hc) as (c1 & Hc1 & Eper). assert (c1 = c') as -> by congruence.
    exists pool', c'. rewrite Eper. split_and!; [done|done|by rewrite Ep|lia..].
  - intros p per. rewrite I5. f_equal. unfold follows. pose proof (gr_period _ _ _ _ _ G p) as E.
    destruct (cur !! p), (cur' !! p); try done. injection E as ->. done.
  - intros d. by rewrite Hf, I7, (gr_deposits _ _ _ _ _ G).
  - intros d. by rewrite Hy, I8, (gr_holdings _ _ _ _ _ G).
Qed.

End Grown.

Section Blocks.
Context {S : Type} `{CoinKeeper S, !CoinKeeperLaws S} (feeCollectorName farmAddr yieldAddr mintAddr feeAddr : string).
Context (Hfarm : ck_modaddr FarmModuleName = Some farmAddr)
  (Hyield : ck_modaddr YieldFarmingAccount = Some yieldAddr)
  (Hmint : ck_modaddr MintFarmingAccount = Some mintAddr)
  (Hfee : ck_modaddr feeCollectorName = Some feeAddr)
  (Hne : farmAddr ≠ yieldAddr) (Hmo : outsider farmAddr yieldAddr mintAddr)
  (Hfo : outsider farmAddr yieldAddr feeAddr).
Implicit Types s : FarmState S.
#[local] Abbreviation SI := (stores_inv farmAddr yieldAddr).
#[local] Abbreviation FI := (farm_inv farmAddr yieldAddr).

(** Values are only read. *)
Lemma frames_zoom_eq {W V A} (get : W → V) (put : V → W → W) (m : M V A) :
  (∀ w, put (get w) w = w) → frames eq m → frames eq (zoom get put m).
Proof.
  intros Hput Hm w. unfold zoom. specialize (Hm (get w)). destruct (m (get w)) as [r v]. cbn in *. by rewrite <- Hm, Hput.
Qed.
Lemma fa_on_swap_frames {A} (m : M (SwapState S) A) : frames eq m → frames eq (fa_on_swap m).
Proof. apply frames_zoom_eq. by intros []. Qed.
Lemma GetRedeemableAssets_frames b q l : frames eq (GetRedeemableAssets (S := S) b q l).
Proof.
  assert (∀ n, frames eq (GetPoolTokenAmount (S := S) n)) as Hpool.
  { intros n. unfold GetPoolTokenAmount, on_supply, on_token, on_coins. apply frames_zoom_eq; [by intros []|].
    apply frames_zoom_eq; [by intros []|]. intros s. by rewrite law_GetSupplyByDenom. }
  unfold GetRedeemableAssets, GetSwapTokenPair. frame_tac; try apply Hpool.
Qed.
Lemma calculateBaseValueInQuote_frames b q : frames eq (calculateBaseValueInQuote (S := S) b q).
Proof. unfold calculateBaseValueInQuote. frame_tac. Qed.
Lemma GetPoolLockedValue_frames pool : frames eq (GetPoolLockedValue (S := S) pool).
Proof.
  unfold GetPoolLockedValue, calculateLockedLPTValue. frame_tac; try apply calculateBaseValueInQuote_frames.
  intros w. lazymatch goal with |- context [fa_on_swap (GetRedeemableAssets ?b ?q ?l)] =>
    pose proof (fa_on_swap_frames _ (GetRedeemableAssets_frames b q l) w) end.
  by destruct (fa_on_swap _ _) as [[?|?|?] ?].
Qed.

Lemma allocateInfo_Ok names : ∀ s l s',
  allocateInfo names s = (Ok l, s') → (∀ p pool, fa_pools s !! p = Some pool → Fp_Name pool = p) →
  s' = s ∧ Forall (λ x, fa_pools s !! Fp_Name x.1 = Some x.1) l ∧ ((λ x, Fp_Name x.1) <$> l) `sublist_of` names.
Proof.
  induction names as [|p names IH]; intros s l s' Hr Hn; cbn [allocateInfo] in Hr.
  { apply mret_Ok in Hr as [-> ->]. split_and!; [done|by constructor|constructor]. }
  apply M_bind_Ok in Hr as (o & s1 & [-> ->]%gets_Ok & Hr). destruct (fa_pools s !! p) as [pool|] eqn:Hp; [|done].
  apply M_bind_Ok in Hr as (v & s1 & Hv & Hr). pose proof (frames_run _ _ _ _ _ (GetPoolLockedValue_frames pool) Hv) as <-.
  apply M_bind_Ok in Hr as (rest & s1 & Hrest & Hr). apply mret_Ok in Hr as [-> ->].
  apply IH in Hrest as (-> & F & Sub); [|done]. split; [done|]. pose proof (Hn _ _ Hp) as En.
  destruct (Dec_LTE v ZeroDec).
  - split; [done|]. by apply sublist_cons.
  - split; [constructor; [cbn; by rewrite En|done]|]. cbn. rewrite En. by apply sublist_skip.
Qed.

Definition bond_only (x : Z) (d : string) : Z := amount_of [mkDecCoin DefaultBondDenom x] d.

Lemma allocate_Ok pools0 cur0 Y T l : ∀ D rem s r s',
  allocate Y T l rem s = (Ok r, s') → NoDup ((λ x, Fp_Name x.1) <$> l) →
  Forall (λ x, fa_pools s !! Fp_Name x.1 = Some x.1) l →
  grown pools0 cur0 (fa_pools s) (fa_current s) D →
  (∃ D', grown pools0 cur0 (fa_pools s') (fa_current s') D' ∧ ∀ d, D' d = D d + bond_only (rem - r) d) ∧
  fa_locks s' = fa_locks s ∧ fa_historical s' = fa_historical s ∧ fa_coins s' = fa_coins s.
Proof.
  induction l as [|[pool v] l IH]; intros D rem s r s' Hr Hnd Hl G; cbn [allocate] in Hr.
  { apply mret_Ok in Hr as [-> ->]. split; [|done]. exists D. split; [done|]. intros d.
    unfold bond_only. rewrite amount_of_one. cbn [Denom Amount]. destruct (String.eqb _ _); lia. }
  cbn [fmap list_fmap] in Hnd. apply NoDup_cons in Hnd as [Hnin Hnd]. apply Forall_cons in Hl as [Hp Hl]. cbn in Hp, Hnin.
  apply M_bind_Ok in Hr as (amt & s1 & Hamt & Hr).
  assert (s1 = s) as ->.
  { destruct l; [by apply mret_Ok in Hamt as [_ ->]|]. apply M_bind_Ok in Hamt as (x & s2 & [_ ->]%lift_Ok & Hx).
    by apply lift_Ok in Hx as [_ ->]. }
  clear Hamt. apply M_bind_Ok in Hr as (rem1 & s1 & [Hrem ->]%lift_Ok & Hr). apply Dec_Sub_Ok in Hrem as [-> _].
  apply M_bind_Ok in Hr as (cs & s1 & [Hcs ->]%lift_Ok & Hr).
  unfold NewDecCoinsFromDec in Hcs. apply outcome_bind_Ok in Hcs as (c0 & Hc0 & Hcs). injection Hcs as <-.
  apply NewDecCoinFromDec_Ok in Hc0 as (_ & Hnn & ->).
  apply M_bind_Ok in Hr as (c & s1 & [Hc ->]%GetPoolCurrentRewards_Ok & Hr).
  apply M_bind_Ok in Hr as (rw & s1 & [Hrw ->]%lift_Ok & Hr).
  apply M_bind_Ok in Hr as (u1 & s1 & Hs1 & Hr). apply modify_Ok in Hs1 as ->.
  apply M_bind_Ok in Hr as (acc & s1 & [Hacc ->]%lift_Ok & Hr).
  apply M_bind_Ok in Hr as (u2 & s1 & Hs1 & Hr). apply modify_Ok in Hs1 as ->.
  eapply (IH (λ d, D d + amount_of [mkDecCoin DefaultBondDenom amt] d)) in Hr as ((D' & G' & ED') & El & Eh & Ec); [..|done| |].
  - split; [|done]. exists D'. split; [done|]. intros d. rewrite ED'. unfold bond_only. rewrite !amount_of_one.
    cbn [Denom Amount]. destruct (String.eqb _ _); lia.
  - apply Forall_forall. intros x Hx. cbn [fa_pools fa_set_pools fa_set_rewards].
    rewrite lookup_insert_ne; [by apply (proj1 (Forall_forall _ _) Hl)|]. pool_simpl. intros E. apply Hnin.
    rewrite E. apply list_elem_of_fmap. by exists x.
  - cbn [fa_pools fa_current fa_set_pools fa_set_rewards].
    eapply grown_step; [exact G|exact Hp|exact Hc|apply coins_sorted_one|by repeat constructor|exact Hrw|exact Hacc|done].
Qed.

Lemma mustSucceed_Ok {A} (m : M (FarmState S) A) s a s' : mustSucceed m s = (Ok a, s') → m s = (Ok a, s').
Proof. unfold mustSucceed. by destruct (m s) as [[?|?|?] ?]. Qed.

Lemma calculateAllocateInfo_Ok s pools total s' :
  calculateAllocateInfo s = (Ok (pools, total), s') → (∀ p pool, fa_pools s !! p = Some pool → Fp_Name pool = p) →
  s' = s ∧ NoDup ((λ x, Fp_Name x.1) <$> pools) ∧ Forall (λ x, fa_pools s !! Fp_Name x.1 = Some x.1) pools.
Proof.
  unfold calculateAllocateInfo. intros (names & s1 & [-> ->]%gets_Ok & Hr)%M_bind_Ok Hn.
  apply M_bind_Ok in Hr as (l & s1 & Hl & Hr). apply allocateInfo_Ok in Hl as (-> & F & Sub); [|done].
  apply M_bind_Ok in Hr as (t & s1 & [_ ->]%lift_Ok & Hr). apply mret_Ok in Hr as [[= -> ->] ->].
  split; [done|]. split; [|done]. eapply sublist_NoDup; [|exact Sub]. unfold whitelist_names.
  rewrite merge_sort_Permutation. apply NoDup_elements.
Qed.

Lemma BeginBlocker_inv k s u s' : FI k s → Farm_BeginBlocker s = (Ok u, s') → FI k s'.
Proof.
  intros Hi. unfold Farm_BeginBlocker. rewrite Hmint. destruct Hmo as [Hm1 Hm2].
  intros (coins & s1 & Hc & Hr)%M_bind_Ok. apply fa_on_supply_Ok in Hc as (c1 & Hc & ->).
  apply law_GetCoins in Hc as (-> & _ & Wc). assert (fa_set_coins (fa_coins s) s = s) as Es by (by destruct s as [[[]]]).
  rewrite Es in Hr. apply M_bind_Ok in Hr as (Y & s1 & [HY ->]%lift_Ok & Hr).
  destruct (Dec_LTE Y ZeroDec) eqn:HY0; [by apply mret_Ok in Hr as [_ ->]|].
  apply M_bind_Ok in Hr as (cs & s1 & [Hcs ->]%lift_Ok & Hr).
  assert (cs = [mkDecCoin DefaultBondDenom Y]) as ->.
  { unfold NewDecCoinsFromDec in Hcs. apply outcome_bind_Ok in Hcs as (c0 & Hc0 & Hcs). injection Hcs as <-.
    by apply NewDecCoinFromDec_Ok in Hc0 as (_ & _ & ->). }
  apply M_bind_Ok in Hr as (params & s1 & [-> ->]%gets_Ok & Hr).
  destruct (negb _).
  - apply mustSucceed_Ok, fa_on_supply_Ok in Hr as (c' & Hb & ->). apply law_BurnCoins in Hb as (a & Ha & [_ K2 K3 _ _]).
    assert (a = mintAddr) as -> by congruence. unfold farm_inv.
    change (fa_coins (fa_set_coins c' s)) with c'.
    eapply inv_grown; [exact Hi|by eapply grown_refl|apply K2, Hi|..]; intros d; rewrite K3; unfold at_addr;
      rewrite decide_False by done; lia.
  - apply M_bind_Ok in Hr as ([pools T] & s1 & Hinfo & Hr).
    apply calculateAllocateInfo_Ok in Hinfo as (-> & Hnd & Hl).
    2:{ intros p pool Hp. by destruct (fi_pools _ _ _ _ _ _ _ _ Hi _ _ Hp) as (? & _ & []). }
    destruct (Dec_LTE T ZeroDec); [by apply mret_Ok in Hr as [_ ->]|].
    apply M_bind_Ok in Hr as (rem & s1 & Hall & Hr).
    eapply allocate_Ok in Hall as ((D & G & ED) & E1 & E2 & E3); [|done|done|by eapply grown_refl].
    apply M_bind_Ok in Hr as (u1 & s2 & [Hz ->]%panic_if_Ok & Hr). apply negb_false_iff in Hz.
    rewrite Dec_IsZero_eq in Hz. apply Z.eqb_eq in Hz as ->.
    apply mustSucceed_Ok, fa_on_supply_Ok in Hr as (c' & Hb & ->).
    apply law_ModuleToModule in Hb as (a & b & Ha & Hb & K). assert (a = mintAddr) as -> by congruence.
    assert (b = yieldAddr) as -> by congruence. rewrite E3 in K. unfold farm_inv.
    change (fa_coins (fa_set_coins c' s1)) with c'. cbn [fa_pools fa_locks fa_historical fa_current fa_set_coins fa_set_swap].
    rewrite E1, E2. eapply inv_grown; [exact Hi|exact G|apply (km_wf _ _ _ _ _ K), Hi|..]; intros d.
    + by apply (kmove_elsewhere _ _ _ _ _ _ _ K).
    + rewrite (kmove_arrives _ _ _ _ _ d K), ED by done. unfold bond_only. by rewrite Z.sub_0_r.
Qed.

(** ** Steps *)

Definition signer (m : FarmMsg) : string :=
  match m with
  | FmCreatePool m => Mp_Owner m
  | FmDestroyPool owner _ => owner
  | FmProvide m => Mv_Address m
  | FmLock m | FmUnlock m => Ml_Address m
  | FmClaim _ address => address
  end.
(** A pool is only destroyed when no other pool has history under its name. *)
Definition destroys_apart (m : FarmMsg) (s : FarmState S) : Prop :=
  match m with FmDestroyPool _ p => apart p s | _ => True end.

(** Everything that happens to the state of the module: its messages, the
    start of a block, the whitelist, and whatever other modules do without
    touching the module's store and its two accounts. *)
Inductive farm_step : FarmState S → FarmState S → Prop :=
  | fs_msg h m s s' :
      outsider farmAddr yieldAddr (signer m) → destroys_apart m s →
      farm_deliver feeCollectorName h m s = (Ok (), s') → farm_step s s'
  | fs_begin s s' : Farm_BeginBlocker s = (Ok (), s') → farm_step s s'
  | fs_whitelist p b s s' : handleManageWhiteListProposal p b s = (Ok (), s') → farm_step s s'
  | fs_other s s' :
      fa_pools s' = fa_pools s → fa_locks s' = fa_locks s → fa_historical s' = fa_historical s →
      fa_current s' = fa_current s → (ck_wf (fa_coins s) → ck_wf (fa_coins s')) →
      (∀ d, ck_balance (fa_coins s') farmAddr d = ck_balance (fa_coins s) farmAddr d) →
      (∀ d, ck_balance (fa_coins s') yieldAddr d = ck_balance (fa_coins s) yieldAddr d) → farm_step s s'.

Lemma inv_mono k k' s : FI k s → k ≤ k' → FI k' s.
Proof.
  intros [I1 I2 I3 I4 I5 I6 I7 I8] Hk. split; try done. intros p pool Hp.
  destruct (I2 p pool Hp) as (c & Hc & Hpi). exists c. split; [done|]. by eapply pool_inv_frame.
Qed.

Lemma whitelist_keeps p b s u s' :
  handleManageWhiteListProposal p b s = (Ok u, s') → ∃ w, s' = fa_set_whitelist w s.
Proof.
  unfold handleManageWhiteListProposal. intros (u1 & s1 & H1 & Hr)%M_bind_Ok.
  assert (frames eq (CheckMsgManageWhiteListProposal (S := S) p b)) as F
    by (unfold CheckMsgManageWhiteListProposal, GetFarmPool, satisfyWhiteListAdmittance; frame_tac).
  apply (frames_run _ _ _ _ _ F) in H1 as <-. destruct b; apply modify_Ok in Hr as ->; eauto.
Qed.

Lemma deliver_inv k h m s u s' :
  FI k s → 1 ≤ k → k + 1 < 2 ^ 64 → outsider farmAddr yieldAddr (signer m) → destroys_apart m s →
  farm_deliver feeCollectorName h m s = (Ok u, s') → FI (k + 1) s'.
Proof.
  intros Hi H1 Hk Ho Hd (v & s1 & [Hv ->]%lift_Ok & Hr)%M_bind_Ok. destruct m as [m|o p|m|m|m|p a]; cbn in *.
  - eapply inv_mono; [|apply Z.le_succ_diag_r]. by eapply handleMsgCreatePool_inv.
  - eapply inv_mono; [|apply Z.le_succ_diag_r]. by eapply handleMsgDestroyPool_inv.
  - unfold MsgProvide_ValidateBasic, Dec_LTE in Hv. repeat (case_match; try done). bool_prop.
    eapply handleMsgProvide_inv; try done; change ZeroDec with 0 in *; lia.
  - unfold MsgLock_ValidateBasic, Dec_LTE in Hv. repeat (case_match; try done). bool_prop.
    eapply handleMsgLock_inv; try done; change ZeroDec with 0 in *; lia.
  - unfold MsgLock_ValidateBasic, Dec_LTE in Hv. repeat (case_match; try done). bool_prop.
    eapply handleMsgUnlock_inv; try done; change ZeroDec with 0 in *; lia.
  - apply M_bind_Ok in Hr as (r & s1 & Hr & Hret). apply mret_Ok in Hret as [_ ->]. by eapply handleMsgClaim_inv.
Qed.

Lemma farm_step_inv k s s' : FI k s → 1 ≤ k → k + 1 < 2 ^ 64 → farm_step s s' → FI (k + 1) s'.
Proof.
  intros Hi H1 Hk Hs. revert Hi. destruct Hs as [h m w w' Ho Hd Hr|w w' Hr|p b w w' Hr|w w' E1 E2 E3 E4 W F1 F2]; intros Hi.
  - by eapply deliver_inv.
  - eapply inv_mono; [|apply Z.le_succ_diag_r]. by eapply BeginBlocker_inv.
  - apply whitelist_keeps in Hr as (x & ->). eapply inv_mono; [exact Hi|lia].
  - eapply inv_mono; [|apply Z.le_succ_diag_r]. unfold farm_inv. rewrite E1, E2, E3, E4.
    eapply inv_grown; [exact Hi|by eapply grown_refl|apply W, Hi|done|]. intros d. rewrite F2. lia.
Qed.

(** [n] steps. *)
Inductive farm_run : nat → FarmState S → FarmState S → Prop :=
  | fr_nil s : farm_run 0 s s
  | fr_cons n s s1 s' : farm_step s s1 → farm_run n s1 s' → farm_run (1 + n) s s'.

Lemma farm_run_inv n s s' : farm_run n s s' → ∀ k, FI k s → 1 ≤ k → k + Z.of_nat n < 2 ^ 64 → FI (k + Z.of_nat n) s'.
Proof.
  induction 1 as [s|n s s1 s' Hs Hr IH]; intros k Hi H1 Hk; [by rewrite Z.add_0_r|].
  replace (k + Z.of_nat (1 + n)) with ((k + 1) + Z.of_nat n) in * by lia. apply IH; [|lia..]. eapply farm_step_inv; [done..|lia|done].
Qed.

(** ** The registered invariants *)

Lemma sumCoins_Ok l : ∀ acc r,
  wf_coins acc → Forall (λ c, coins_sorted c ∧ Forall (λ x, 0 ≤ Amount x) c) l → sumCoins acc l = Ok r →
  wf_coins r ∧ ∀ d, amount_of r d = amount_of acc d + sum_over (λ c, amount_of c d) l.
Proof.
  induction l as [|c l IH]; intros acc r Hw Hl Hr; cbn [sumCoins] in Hr.
  { injection Hr as <-. split; [done|]. intros d. unfold sum_over. cbn [foldr]. lia. }
  apply Forall_cons in Hl as [[Hs Hn] Hl]. apply outcome_bind_Ok in Hr as (a1 & Ha & Hr).
  apply IH in Hr as [Hw' Hd]; [|by eapply safeAdd_wf_nonneg|done]. split; [done|]. intros d.
  rewrite Hd, (safeAdd_amount _ _ _ d Ha). unfold sum_over. cbn [foldr]. lia.
Qed.

Lemma mapCoins_Ok {A} (f : A → outcome (list DecCoin)) (g : string → A → Z) l : ∀ r,
  (∀ x c, f x = Ok c → wf_coins c ∧ ∀ d, amount_of c d = g d x) → mapCoins f l = Ok r →
  Forall (λ c, coins_sorted c ∧ Forall (λ x, 0 ≤ Amount x) c) r ∧
  ∀ d, sum_over (λ c, amount_of c d) r = sum_over (g d) l.
Proof.
  induction l as [|x l IH]; intros r Hf Hr; cbn [mapCoins] in Hr; [by injection Hr as <-|].
  apply outcome_bind_Ok in Hr as (c & Hc & Hr). apply outcome_bind_Ok in Hr as (cs & Hcs & Hr). injection Hr as <-.
  apply IH in Hcs as [F E]; [|done]. apply Hf in Hc as [[Ws Wp] Ec]. split.
  - constructor; [|done]. split; [done|]. eapply Forall_impl; [exact Wp|]. cbn. lia.
  - intros d. cbn [sum_over foldr]. rewrite Ec. f_equal. apply E.
Qed.

Lemma NewDecCoins_one c cs : NewDecCoins [c] = Ok cs → wf_coins cs ∧ ∀ d, amount_of cs d = coin_at d c.
Proof.
  intros Hc. apply ToCoins_Ok. rewrite <- Hc. unfold DecCoin_ToCoins, NewCoins, NewDecCoins. cbn [removeZeroDecCoins base.filter].
  by destruct (removeZeroDecCoins [c]) as [|x [|y l]] eqn:E; [| |cbn in E; destruct (negb _)].
Qed.

Lemma moduleCoins_Ok name addr s c s' :
  ck_modaddr name = Some addr → ck_wf (fa_coins s) → moduleCoins name s = (Ok c, s') →
  s' = s ∧ wf_coins c ∧ ∀ d, amount_of c d = ck_balance (fa_coins s) addr d.
Proof.
  unfold moduleCoins. intros -> Hw (c1 & Hc & ->)%fa_on_supply_Ok. apply law_GetCoins in Hc as (-> & Hd & Wc).
  split; [by destruct s as [[[]]]|]. split; [by apply Wc|done].
Qed.

Lemma pools_sum f s : sum_over f (GetFarmPools s) = map_sum f (fa_pools s).
Proof.
  rewrite <- store_iterate_sum. unfold GetFarmPools. induction (store_iterate (fa_pools s)); [done|].
  cbn [sum_over foldr fmap list_fmap]. by f_equal.
Qed.
Lemma locks_sum f s : sum_over f (lockInfos s) = map_sum f (fa_locks s).
Proof.
  unfold lockInfos. rewrite map_sum_list. induction (map_to_list (fa_locks s)) as [|[k l] m IH]; [done|].
  cbn [sum_over foldr fmap list_fmap uncurry snd]. by f_equal.
Qed.

Lemma moduleAccount_holds k s b s' : FI k s → moduleAccountInvariant s = (Ok b, s') → b = false.
Proof.
  intros Hi. unfold moduleAccountInvariant. intros (pools & s1 & [-> ->]%gets_Ok & Hr)%M_bind_Ok.
  apply M_bind_Ok in Hr as (deps & s1 & [Hdeps ->]%lift_Ok & Hr).
  apply M_bind_Ok in Hr as (td & s1 & [Htd ->]%lift_Ok & Hr).
  apply M_bind_Ok in Hr as (locks & s1 & [-> ->]%gets_Ok & Hr).
  apply M_bind_Ok in Hr as (amts & s1 & [Hamts ->]%lift_Ok & Hr).
  apply M_bind_Ok in Hr as (tl & s1 & [Htl ->]%lift_Ok & Hr).
  apply M_bind_Ok in Hr as (acc & s1 & Hacc & Hr).
  apply (moduleCoins_Ok _ farmAddr) in Hacc as (-> & Wacc & Eacc); [|done|apply Hi].
  apply M_bind_Ok in Hr as (ex & s1 & [Hex ->]%lift_Ok & Hr).
  apply M_bind_Ok in Hr as (eq & s1 & [Heq ->]%lift_Ok & Hr). apply mret_Ok in Hr as [-> ->].
  apply (mapCoins_Ok _ (λ d p, coin_at d (Fp_DepositAmount p))) in Hdeps as [F1 E1]; [|intros p c; apply ToCoins_Ok].
  apply (mapCoins_Ok _ (λ d l, coin_at d (Li_Amount l))) in Hamts as [F2 E2]; [|intros l c; apply NewDecCoins_one].
  apply sumCoins_Ok in Htd as [W1 D1]; [|apply wf_coins_nil|done].
  apply sumCoins_Ok in Htl as [W2 D2]; [|apply wf_coins_nil|done].
  apply IsEqual_wf in Heq as ->; [done|done|exact (safeAdd_wf _ _ _ W1 W2 Hex)|]. intros d.
  rewrite Eacc, (safeAdd_amount _ _ _ d Hex), D1, D2, E1, E2, pools_sum, locks_sum, amount_of_nil.
  rewrite (fi_farm _ _ _ _ _ _ _ _ Hi). lia.
Qed.

Lemma held_sum d (pools : list FarmPool) :
  sum_over (λ c, amount_of c d) (pools ≫= λ p, Fp_TotalAccumulatedRewards p ::
    ((λ y, [Yt_RemainingAmount y]) <$> Fp_YieldedTokenInfos p)) = sum_over (holdings d) pools.
Proof.
  induction pools as [|p l IH]; [done|]. rewrite bind_cons, sum_over_app, IH.
  change (sum_over (holdings d) (p :: l)) with (holdings d p + sum_over (holdings d) l). f_equal.
  unfold holdings, sum_over. cbn [foldr]. f_equal.
  induction (Fp_YieldedTokenInfos p) as [|y ys IHy]; [done|]. cbn [fmap list_fmap foldr]. by rewrite IHy.
Qed.

Lemma yieldAccount_holds k s b s' : FI k s → yieldFarmingAccountInvariant s = (Ok b, s') → b = false.
Proof.
  intros Hi. unfold yieldFarmingAccountInvariant. intros (pools & s1 & [-> ->]%gets_Ok & Hr)%M_bind_Ok.
  apply M_bind_Ok in Hr as (ex & s1 & [Hex ->]%lift_Ok & Hr).
  apply M_bind_Ok in Hr as (acc & s1 & Hacc & Hr).
  apply (moduleCoins_Ok _ yieldAddr) in Hacc as (-> & Wacc & Eacc); [|done|apply Hi].
  apply M_bind_Ok in Hr as (eq & s1 & [Heq ->]%lift_Ok & Hr). apply mret_Ok in Hr as [-> ->].
  apply sumCoins_Ok in Hex as [W1 D1]; [|apply wf_coins_nil|].
  - apply IsEqual_wf in Heq as ->; [done..|]. intros d. rewrite D1, Eacc, (fi_yield _ _ _ _ _ _ _ _ Hi), amount_of_nil.
    by rewrite <- pools_sum, held_sum.
  - apply Forall_forall. intros c Hc. apply list_elem_of_bind in Hc as (p & Hc & Hp).
    unfold GetFarmPools in Hp. apply list_elem_of_fmap in Hp as ([q p'] & -> & Hp). cbn in Hc.
    rewrite store_iterate_perm in Hp. apply elem_of_map_to_list in Hp.
    destruct (fi_pools _ _ _ _ _ _ _ _ Hi _ _ Hp) as (c0 & _ & [_ _ _ _ A5 [As Ap] _ _ _ _]).
    apply elem_of_cons in Hc as [->|Hc].
    + split; [done|]. eapply Forall_impl; [exact Ap|]. cbn. lia.
    + apply list_elem_of_fmap in Hc as (y & -> & Hy). apply (proj1 (Forall_forall _ _) A5) in Hy as [Hy _].
      split; [apply coins_sorted_one|by repeat constructor].
Qed.

(** C8: Take a run of messages, block starts, whitelist changes and steps of
    other modules, of fewer than 2^64 steps, so that periods do not wrap, in
    which the module accounts sign no message and no pool is destroyed while
    the key of a history record of another pool (the name of that pool and a
    period) begins with its name: such a destroy deletes the history of the
    other pool too, see [destroy_strands_lockers].  Along it the accounts
    of the module hold exactly what its records say, reference counts are the
    numbers of references, and accumulated rewards cover what the lockers have
    earned; the two registered invariants on the accounts never report a
    violation. *)
Theorem farm_run_invariant n s s' :
  FI 1 s → farm_run n s s' → 1 + Z.of_nat n < 2 ^ 64 →
  FI (1 + Z.of_nat n) s' ∧
  (∀ b s'', moduleAccountInvariant s' = (Ok b, s'') → b = false) ∧
  (∀ b s'', yieldFarmingAccountInvariant s' = (Ok b, s'') → b = false).
Proof.
  intros Hi Hr Hn. assert (FI (1 + Z.of_nat n) s') as Hi' by (by eapply farm_run_inv).
  split_and!; [done| |]; intros b s''; [by eapply moduleAccount_holds|by eapply yieldAccount_holds].
Qed.

(** ** Earnings *)

(** What [GetEarnings] computes: the rewards up to the period that ends
    now, which is the same period for every lock. *)
Lemma GetEarnings_Ok k h p a s r s' :
  FI k s → k + 1 < 2 ^ 64 → GetEarnings h p a s = (Ok r, s') →
  ∃ pool pool' y l per s1,
    fa_pools s !! p = Some pool ∧ fa_locks s !! (a, p) = Some l ∧ yields_to pool pool' y ∧
    CalculateAmountYieldedBetween h pool s = (Ok (pool', y), s) ∧
    IncrementPoolPeriod h p (Fp_TotalValueLocked pool) y s = (Ok per, s1) ∧
    calculateRewards h p per l s1 = (Ok r, s') ∧
    ∀ d, P * amount_of r d ≤ owed (fa_historical s1) d p per l.
Proof.
  intros Hi Hk. unfold GetEarnings. intros (o & s1 & [-> ->]%gets_Ok & Hr)%M_bind_Ok.
  destruct (fa_locks s !! (a, p)) as [l|] eqn:Hl; [|done].
  apply M_bind_Ok in Hr as (o & s1 & [-> ->]%gets_Ok & Hr). destruct (fa_pools s !! p) as [pool|] eqn:Hp; [|done].
  destruct (fi_pools _ _ _ _ _ _ _ _ Hi _ _ Hp) as (c & _ & [Ep _ _ _ _ _ _ _ _ _]).
  apply M_bind_Ok in Hr as ([pool' y] & s1 & Hcalc & Hr). pose proof Hcalc as Hcalc'.
  apply (Calculate_yields farmAddr yieldAddr k) in Hcalc as [-> Hy]; [|done|by rewrite Ep].
  apply M_bind_Ok in Hr as (per & s1 & Hinc & Hr). rewrite (yt_pool _ _ _ Hy) in Hinc. cbn in Hinc.
  exists pool, pool', y, l, per, s1. split_and!; try done.
  rewrite <- Ep in Hinc. pose proof Hinc as Hinc'.
  apply (advance_Ok farmAddr yieldAddr k h pool pool') in Hinc as (_ & Es1 & Hc1 & HSI); [|done|done|by rewrite Ep|done].
  assert (fa_locks s1 = fa_locks s) as El by (rewrite Es1; done). rewrite Ep in *.
  eapply calculateRewards_Ok in Hr as (-> & _ & Hrw); [|by rewrite El|apply lookup_insert_eq|exact Hc1|done|by rewrite El].
  intros d. apply Hrw.
Qed.

Lemma remaining_nonneg d infos : Forall info_ok infos → 0 ≤ remaining_at d infos.
Proof.
  induction 1 as [|y l [Hy _] _ IH]; [done|]. rewrite remaining_cons. destruct (Yt_RemainingAmount y) as [dn a].
  rewrite coin_at_one. cbn in Hy. destruct (String.eqb dn d); lia.
Qed.

Lemma locked_or_empty k p s : FI k s →
  (∃ a l, fa_locks s !! (a, p) = Some l) ∨
  (∀ f : LockInfo → Z, (∀ l, Li_PoolName l ≠ p → f l = 0) → map_sum f (fa_locks s) = 0).
Proof.
  intros Hi. destruct (decide (map_Exists (λ _ l, Li_PoolName l = p) (fa_locks s))) as [([a q] & l & Hl & E)|Hn].
  - left. destruct (fi_locks _ _ _ _ _ _ _ _ Hi _ _ _ Hl) as [_ Hq _ _]. exists a, l. congruence.
  - right. intros f Hf. rewrite (map_sum_ext _ (λ _, 0 * 0)), map_sum_scale; [lia|]. intros key l Hl.
    apply Hf. intros E. apply Hn. by exists key, l.
Qed.

(** All earnings of a pool are measured against the same end of a period. *)
Lemma earnings_owed k h p pool s pool' y per s1 (e : string → list DecCoin) d :
  FI k s → k + 1 < 2 ^ 64 → fa_pools s !! p = Some pool →
  CalculateAmountYieldedBetween h pool s = (Ok (pool', y), s) →
  IncrementPoolPeriod h p (Fp_TotalValueLocked pool) y s = (Ok per, s1) →
  (∀ a l, fa_locks s !! (a, p) = Some l → ∃ s', GetEarnings h p a s = (Ok (e a), s')) →
  map_sum (λ l, (if String.eqb (Li_PoolName l) p then amount_of (e (Li_Owner l)) d else 0) * P) (fa_locks s)
  ≤ map_sum (owed (fa_historical s1) d p per) (fa_locks s).
Proof.
  intros Hi Hk Hp Hcalc Hinc He. apply map_sum_le. intros [a q] l Hl.
  destruct (fi_locks _ _ _ _ _ _ _ _ Hi _ _ _ Hl) as [Ho Hq _ _]. unfold owed.
  destruct (String.eqb_spec (Li_PoolName l) p) as [E|]; [|lia]. rewrite Ho. assert (q = p) as -> by congruence.
  destruct (He a l Hl) as (s2 & Hs2).
  destruct (GetEarnings_Ok _ _ _ _ _ _ _ Hi Hk Hs2)
    as (pool2 & pool2' & y2 & l2 & per2 & s3 & Hp2 & Hl2 & Hy2 & Hcalc2 & Hinc2 & _ & Hrw).
  assert (pool2 = pool) as -> by congruence. rewrite Hcalc in Hcalc2. injection Hcalc2 as <- <-.
  rewrite Hinc in Hinc2. injection Hinc2 as <- <-. assert (l2 = l) as -> by congruence.
  specialize (Hrw d). unfold owed in Hrw. rewrite E, String.eqb_refl in Hrw. lia.
Qed.

(** C26: What all lockers of a pool are told that they have earned, taken
    together, is covered: for every token the sum is at most what the yield
    account holds for this pool. *)
Theorem earnings_covered k h p pool s (e : string → list DecCoin) d :
  FI k s → k + 1 < 2 ^ 64 → fa_pools s !! p = Some pool →
  (∀ a l, fa_locks s !! (a, p) = Some l → ∃ s', GetEarnings h p a s = (Ok (e a), s')) →
  map_sum (λ l, if String.eqb (Li_PoolName l) p then amount_of (e (Li_Owner l)) d else 0) (fa_locks s)
  ≤ holdings d pool.
Proof.
  intros Hi Hk Hp He. destruct (fi_pools _ _ _ _ _ _ _ _ Hi _ _ Hp) as (c & _ & [Ep _ _ _ A5 A6 _ _ _ _]).
  destruct (locked_or_empty _ p _ Hi) as [(a0 & l0 & Hl0)|Hnone].
  2:{ rewrite Hnone; [|intros l Hl; by destruct (String.eqb_spec (Li_PoolName l) p)]. unfold holdings.
      pose proof (wf_amount_nonneg _ d A6). pose proof (remaining_nonneg d _ A5). lia. }
  destruct (He a0 l0 Hl0) as (s0 & Hs0).
  destruct (GetEarnings_Ok _ _ _ _ _ _ _ Hi Hk Hs0) as (pool1 & pool' & y & l1 & per & s1 & Hp1 & _ & Hy & Hcalc & Hinc & _ & _).
  assert (pool1 = pool) as -> by congruence.
  pose proof (earnings_owed _ _ _ _ _ _ _ _ _ e d Hi Hk Hp Hcalc Hinc He) as Hle. rewrite map_sum_scale in Hle.
  rewrite <- Ep in Hinc.
  apply (advance_Ok farmAddr yieldAddr k h pool pool') in Hinc as (_ & Es1 & Hc1 & HSI); [|done|done|by rewrite Ep|done].
  rewrite Ep in *.
  destruct (fi_pools _ _ _ _ _ _ _ _ HSI _ _ (lookup_insert_eq _ _ _)) as (c1 & Hc1' & [_ _ _ _ B5 _ _ _ B9 _]).
  assert (c1 = mkCurrent h (per + 1) []) as -> by congruence. specialize (B9 d). cbn [Cr_Period Cr_Rewards] in B9.
  replace (per + 1 - 1) with per in B9 by lia. rewrite amount_of_nil in B9.
  destruct (yt_amounts _ _ _ Hy d) as [G1 G2]. unfold holdings. pose proof (remaining_nonneg d _ B5).
  change P with (10 ^ 18) in *. lia.
Qed.

Lemma IncrementPoolPeriod_keeps h p tvl y s per s1 :
  IncrementPoolPeriod h p tvl y s = (Ok per, s1) → s1 = fa_set_rewards (fa_historical s1) (fa_current s1) s.
Proof.
  unfold IncrementPoolPeriod. intros (c & s0 & [_ ->]%GetPoolCurrentRewards_Ok & Hr)%M_bind_Ok.
  apply M_bind_Ok in Hr as (nr & s0 & [_ ->]%lift_Ok & Hr). apply M_bind_Ok in Hr as (ratio & s0 & Hratio & Hr).
  assert (s0 = s) as -> by (destruct (DecCoin_IsZero tvl); [by apply mret_Ok in Hratio as [_ ->]|by apply lift_Ok in Hratio as [_ ->]]).
  apply M_bind_Ok in Hr as (hx & s0 & [_ ->]%GetPoolHistoricalRewards_Ok & Hr).
  apply M_bind_Ok in Hr as (u & s0 & Hdec & Hr). apply decrement_Ok in Hdec as [_ ->].
  apply M_bind_Ok in Hr as (nratio & s0 & [_ ->]%lift_Ok & Hr).
  apply M_bind_Ok in Hr as (u2 & s0 & Hs0 & Hr). apply modify_Ok in Hs0 as ->.
  apply M_bind_Ok in Hr as (u3 & s0 & Hs0 & Hr). apply modify_Ok in Hs0 as ->. by apply mret_Ok in Hr as [_ ->].
Qed.
Lemma calculateRewards_keeps h p per l s r s' : calculateRewards h p per l s = (Ok r, s') → s' = s.
Proof.
  intros Hr. assert (frames eq (calculateRewards (S := S) h p per l)) as F; [|by apply (frames_run _ _ _ _ _ F) in Hr].
  unfold calculateRewards, calculateLockRewardsBetween, panic_if, GetPoolHistoricalRewards. frame_tac.
Qed.

Lemma WithdrawRewards_parts h p tvl y a s r s' :
  WithdrawRewards h p tvl y a s = (Ok r, s') → wf_coins r →
  ∃ l per s1, fa_locks s !! (a, p) = Some l ∧ IncrementPoolPeriod h p tvl y s = (Ok per, s1) ∧
    calculateRewards h p per l s1 = (Ok r, s1) ∧
    ∀ x d, ck_balance (fa_coins s') x d = ck_balance (fa_coins s) x d + at_addr a r x d - at_addr yieldAddr r x d.
Proof.
  unfold WithdrawRewards. intros (o & s1 & [-> ->]%gets_Ok & Hw)%M_bind_Ok Wr.
  destruct (fa_locks s !! (a, p)) as [l|] eqn:Hl; [|done].
  apply M_bind_Ok in Hw as (per & s1 & Hinc & Hw). apply M_bind_Ok in Hw as (r0 & s2 & Hrw & Hw).
  pose proof (calculateRewards_keeps _ _ _ _ _ _ _ Hrw) as ->.
  apply M_bind_Ok in Hw as (u1 & s3 & Hsend & Hw). apply M_bind_Ok in Hw as (u2 & s4 & Hdec & Hw).
  apply mret_Ok in Hw as [-> ->]. apply decrement_Ok in Hdec as [_ ->].
  exists l, per, s1. split_and!; try done. intros x d. change (fa_coins (fa_set_rewards _ _ s3)) with (fa_coins s3).
  assert (fa_coins s1 = fa_coins s) as Ec by (by rewrite (IncrementPoolPeriod_keeps _ _ _ _ _ _ _ Hinc)).
  destruct (DecCoins_IsZero r0) eqn:Hz; cbn [negb] in Hsend.
  - apply mret_Ok in Hsend as [_ ->]. apply IsZero_wf in Hz as ->; [|done]. rewrite Ec. unfold at_addr.
    repeat case_decide; rewrite ?amount_of_nil; lia.
  - apply fa_on_supply_Ok in Hsend as (c' & Hm & ->). rewrite Ec in Hm.
    apply law_ModuleToAccount in Hm as (_ & ya & Hya & K). assert (ya = yieldAddr) as -> by congruence.
    apply (km_balance _ _ _ _ _ K).
Qed.

(** C33: The query of earnings and the claim agree: a claim that succeeds pays
    the account exactly what the query shows in the same state, and takes it
    from the yield account. *)
Theorem claim_pays_earnings k h p a s r s' :
  FI k s → k + 1 < 2 ^ 64 → outsider farmAddr yieldAddr a → handleMsgClaim h p a s = (Ok r, s') →
  (∃ s'', GetEarnings h p a s = (Ok r, s'')) ∧
  ∀ x d, ck_balance (fa_coins s') x d
    = ck_balance (fa_coins s) x d + at_addr a r x d - at_addr yieldAddr r x d.
Proof.
  intros Hi Hk Ha. unfold handleMsgClaim. intros (o & s1 & [-> ->]%gets_Ok & Hr)%M_bind_Ok.
  destruct (fa_pools s !! p) as [pool|] eqn:Hp; [|done].
  destruct (fi_pools _ _ _ _ _ _ _ _ Hi _ _ Hp) as (c & _ & [Ep _ _ _ _ _ _ _ _ _]).
  apply M_bind_Ok in Hr as ([pool' y] & s1 & Hcalc & Hr). pose proof Hcalc as Hcalc'.
  apply (Calculate_yields farmAddr yieldAddr k) in Hcalc' as [-> Hy]; [|done|by rewrite Ep].
  apply M_bind_Ok in Hr as (r0 & sW & Hw & Hr). pose proof Hw as Hw'.
  apply (WithdrawRewards_Ok farmAddr yieldAddr Hyield Hne k h pool pool') in Hw'
    as (l' & per' & Hl' & HW); [|done|done|by rewrite Ep|done|apply Ha|apply Ha].
  pose proof HW as [W1 W2 W3 _ W4 _ _ _ _].
  pose proof (withdrawn_per _ _ _ _ _ _ _ _ _ _ _ _ _ _ HW (lookup_insert_eq _ _ _) Hk) as Hper. rewrite Ep in *.
  apply WithdrawRewards_parts in Hw as (l & per & s1 & Hl & Hinc & Hrw & Hbal); [|done].
  assert (l' = l) as -> by congruence. destruct (fi_locks _ _ _ _ _ _ _ _ Hi _ _ _ Hl) as [L1 L2 _ _].
  apply M_bind_Ok in Hr as (u3 & sU & Hup & Hr).
  eapply UpdateLockInfo_Ok in Hup as (_ & _ & U3 & _); [|exact W3|done|by rewrite W1|done|done].
  apply M_bind_Ok in Hr as (paid & s4 & Hpay & Hr). apply payRewards_Ok in Hpay as (-> & _); [|apply Hy|done].
  apply M_bind_Ok in Hr as (u4 & s4 & Hset & Hr). apply modify_Ok in Hset as ->. apply mret_Ok in Hr as [-> ->].
  split.
  - exists s1. unfold GetEarnings. apply M_bind_Ok. exists (Some l), s. split; [by apply gets_Ok|].
    apply M_bind_Ok. exists (Some pool), s. split; [by apply gets_Ok|].
    apply M_bind_Ok. exists (pool', y), s. split; [exact Hcalc|].
    apply M_bind_Ok. exists per, s1. split; [|exact Hrw]. rewrite (yt_pool _ _ _ Hy). exact Hinc.
  - intros x d. change (fa_coins (fa_set_pools _ sU)) with (fa_coins sU). rewrite U3. apply Hbal.
Qed.

(** ** The history of a pool whose name extends another's *)

Definition no_history (q : string) (s : FarmState S) : Prop := ∀ per, fa_historical s !! (q, per) = None.

Lemma IncrementPoolPeriod_stuck h q tvl y s per s1 :
  no_history q s → IncrementPoolPeriod h q tvl y s = (Ok per, s1) → False.
Proof.
  intros Hno. unfold IncrementPoolPeriod. intros (c & s0 & [_ ->]%GetPoolCurrentRewards_Ok & Hr)%M_bind_Ok.
  apply M_bind_Ok in Hr as (nr & s0 & [_ ->]%lift_Ok & Hr). apply M_bind_Ok in Hr as (ratio & s0 & Hratio & Hr).
  assert (s0 = s) as -> by (destruct (DecCoin_IsZero tvl); [by apply mret_Ok in Hratio as [_ ->]|by apply lift_Ok in Hratio as [_ ->]]).
  apply M_bind_Ok in Hr as (hx & s0 & [Hx _]%GetPoolHistoricalRewards_Ok & _). by rewrite Hno in Hx.
Qed.

Lemma WithdrawRewards_stuck h q tvl y a s r s1 :
  no_history q s → WithdrawRewards h q tvl y a s = (Ok r, s1) → False.
Proof.
  intros Hno. unfold WithdrawRewards. intros (o & s0 & [-> ->]%gets_Ok & Hr)%M_bind_Ok.
  destruct (fa_locks s !! (a, q)); [|done]. apply M_bind_Ok in Hr as (per & s2 & Hinc & _).
  by eapply IncrementPoolPeriod_stuck.
Qed.
Lemma Calculate_keeps h pool s x s1 : CalculateAmountYieldedBetween h pool s = (Ok x, s1) → s1 = s.
Proof.
  unfold CalculateAmountYieldedBetween. intros (c & s0 & [_ ->]%GetPoolCurrentRewards_Ok & Hr)%M_bind_Ok.
  apply M_bind_Ok in Hr as ([[i acc] t] & s0 & [_ ->]%lift_Ok & Hr). by apply mret_Ok in Hr as [_ ->].
Qed.

(** Without its history a pool can be neither left nor claimed from. *)
Lemma unlock_stuck h msg s u s' :
  no_history (Ml_PoolName msg) s → (∀ pool, fa_pools s !! Ml_PoolName msg = Some pool → Fp_Name pool = Ml_PoolName msg) →
  handleMsgUnlock h msg s = (Ok u, s') → False.
Proof.
  intros Hno Hname. unfold handleMsgUnlock. intros (o & s1 & [-> ->]%gets_Ok & Hr)%M_bind_Ok.
  destruct (fa_locks s !! _); [|done]. apply M_bind_Ok in Hr as (u1 & s1 & [_ ->]%guard_not_Ok & Hr).
  apply M_bind_Ok in Hr as (b & s1 & [_ ->]%lift_Ok & Hr). apply M_bind_Ok in Hr as (u2 & s1 & [_ ->]%guard_not_Ok & Hr).
  apply M_bind_Ok in Hr as (o & s1 & [-> ->]%gets_Ok & Hr). destruct (fa_pools s !! _) as [pool|] eqn:Hp; [|done].
  apply M_bind_Ok in Hr as (u3 & s1 & [_ ->]%guard_not_Ok & Hr). apply M_bind_Ok in Hr as (x & s1 & [_ ->]%lift_Ok & Hr).
  apply M_bind_Ok in Hr as (u4 & s1 & [_ ->]%guard_not_Ok & Hr).
  apply M_bind_Ok in Hr as ([pool' y] & s1 & ->%Calculate_keeps & Hr). apply M_bind_Ok in Hr as (r & s1 & Hw & _).
  rewrite (Hname _ eq_refl) in Hw. by eapply WithdrawRewards_stuck.
Qed.
Lemma claim_stuck h q a s r s' :
  no_history q s → (∀ pool, fa_pools s !! q = Some pool → Fp_Name pool = q) →
  handleMsgClaim h q a s = (Ok r, s') → False.
Proof.
  intros Hno Hname. unfold handleMsgClaim. intros (o & s1 & [-> ->]%gets_Ok & Hr)%M_bind_Ok.
  destruct (fa_pools s !! _) as [pool|] eqn:Hp; [|done].
  apply M_bind_Ok in Hr as ([pool' y] & s1 & ->%Calculate_keeps & Hr). apply M_bind_Ok in Hr as (r0 & s1 & Hw & _).
  rewrite (Hname _ eq_refl) in Hw. by eapply WithdrawRewards_stuck.
Qed.

Lemma prefix_trans p q r : String.prefix p q = true → String.prefix p (q +:+ r) = true.
Proof. intros [t ->]%prefix_app. rewrite str_app_assoc. apply prefix_app_intro. Qed.

(** C40: Destroying a pool deletes the history of every pool whose name
    starts with the same letters, although those pools still exist: after it
    nobody who has tokens locked in such a pool can unlock them or claim
    rewards. *)
Theorem destroy_strands_lockers k h owner p q s u s' :
  FI k s → q ≠ p → String.prefix p q = true → is_Some (fa_pools s !! q) →
  handleMsgDestroyPool h owner p s = (Ok u, s') →
  is_Some (fa_pools s' !! q) ∧ (∀ a, fa_locks s' !! (a, q) = fa_locks s !! (a, q)) ∧
  (∀ h' a c u' s'', handleMsgUnlock h' (mkMsgLock q a c) s' ≠ (Ok u', s'')) ∧
  (∀ h' a r s'', handleMsgClaim h' q a s' ≠ (Ok r, s'')).
Proof.
  intros Hi Hne' Hpre Hq. unfold handleMsgDestroyPool. intros (o & s1 & [-> ->]%gets_Ok & Hr)%M_bind_Ok.
  destruct (fa_pools s !! p) as [pool|]; [|done]. apply M_bind_Ok in Hr as (u1 & s1 & [_ ->]%guard_not_Ok & Hr).
  apply M_bind_Ok in Hr as ([pool' y] & s1 & ->%Calculate_keeps & Hr).
  apply M_bind_Ok in Hr as (u2 & s1 & [_ ->]%guard_not_Ok & Hr).
  apply M_bind_Ok in Hr as (u3 & s1 & Hpay & Hr).
  assert (∃ c1, s1 = fa_set_coins c1 s) as (c1 & ->).
  { destruct (negb _); [|apply mret_Ok in Hpay as [_ ->]; exists (fa_coins s); by destruct s as [[[]]]].
    apply wrapErr_Ok, fa_on_supply_Ok in Hpay as (c' & _ & ->). by exists c'. }
  apply M_bind_Ok in Hr as (u4 & s2 & Hdep & Hr).
  assert (∃ c2, s2 = fa_set_coins c2 s) as (c2 & ->).
  { destruct (DecCoin_IsPositive _); [|apply mret_Ok in Hdep as [_ ->]; by exists c1].
    apply M_bind_Ok in Hdep as (w & s3 & [_ ->]%lift_Ok & Hdep).
    apply wrapErr_Ok, fa_on_supply_Ok in Hdep as (c' & _ & ->). by exists c'. }
  apply M_bind_Ok in Hr as (u5 & s3 & Hs3 & Hr). apply modify_Ok in Hs3 as ->.
  apply M_bind_Ok in Hr as (u6 & s3 & Hs3 & Hr). apply modify_Ok in Hs3 as ->. apply modify_Ok in Hr as ->.
  match goal with |- context [fa_pools ?w !! q] => set (s' := w) end.
  assert (fa_pools s' !! q = fa_pools s !! q) as Ep by (by apply lookup_delete_ne).
  assert (∀ pool, fa_pools s' !! q = Some pool → Fp_Name pool = q) as Hname.
  { intros pl Hpl. rewrite Ep in Hpl. by destruct (fi_pools _ _ _ _ _ _ _ _ Hi _ _ Hpl) as (? & _ & []). }
  assert (no_history q s') as Hno.
  { intros per. apply map_lookup_filter_None. right. intros x _. cbn.
    unfold GetPoolHistoricalRewardsKey. rewrite prefix_trans by done. done. }
  split_and!; [by rewrite Ep|done| |].
  - intros h' a c u' s'' Hu. by eapply (unlock_stuck h' (mkMsgLock q a c)).
  - intros h' a r s'' Hc. by eapply claim_stuck.
Qed.

End Blocks.

(** ** A chain with one farm *)

Definition demo_farm_config : BankConfig :=
  mkBankConfig {[ "farm" := ("addr_farm", []); "yield_farming_account" := ("addr_yield", []);
                  "mint_farming_account" := ("addr_mint", ["burner"]);
                  "fee_collector" := ("addr_fee", []) ]}
    {[ "addr_farm" := true; "addr_yield" := true; "addr_mint" := true ]}.
#[local] Existing Instance demo_farm_config.

Definition one : Z := 10 ^ 18.
Definition demo_farm_bank : Bank :=
  mkBank {[ "alice" := mkAccount [mkDecCoin "aaa" (100 * one); mkDecCoin "okt" (100 * one)] None;
            "bob" := mkAccount [mkDecCoin "aaa" (100 * one); mkDecCoin "okt" (100 * one)] None;
            "addr_mint" := mkAccount [mkDecCoin "okt" (7 * one)] None ]}
         {[ "aaa" := 200 * one; "okt" := 207 * one ]} true.
Definition demo_farm_token (n : string) : Token := mkToken n n n n 0 0 "alice" true.
Definition demo_fee : DecCoin := mkDecCoin "okt" 1.
Definition demo_farm0 : FarmState Bank :=
  mkFarmState
    (mkSwapState
      (mkTokenState demo_farm_bank {[ "aaa" := demo_farm_token "aaa"; "okt" := demo_farm_token "okt" ]} ∅ 2 ∅ ∅ ∅
        (mkTokenParams demo_fee demo_fee demo_fee demo_fee demo_fee 10) ∅) ∅ 3000000000000000)
    ∅ ∅ ∅ ∅ ∅ ∅ (mkFarmParams "aaa" (mkDecCoin "okt" 0) (mkDecCoin "okt" (10 * one)) true).

Definition demo_deliver (h : Z) (m : FarmMsg) (s : FarmState Bank) : FarmState Bank :=
  (farm_deliver "fee_collector" h m s).2.
Definition demo_farm1 := demo_deliver 10 (FmCreatePool (mkMsgCreatePool "alice" "ab" (mkDecCoin "aaa" one) "okt")) demo_farm0.
Definition demo_farm2 := demo_deliver 10 (FmProvide (mkMsgProvide "ab" "alice" (mkDecCoin "okt" (20 * one)) (2 * one) 11)) demo_farm1.
Definition demo_farm3 := demo_deliver 11 (FmLock (mkMsgLock "ab" "bob" (mkDecCoin "aaa" (5 * one)))) demo_farm2.
Definition demo_farm4 := (handleManageWhiteListProposal "ab" true demo_farm3).2.
Definition demo_farm5 := (Farm_BeginBlocker demo_farm4).2.
Definition demo_farm6 := demo_deliver 13 (FmLock (mkMsgLock "ab" "alice" (mkDecCoin "aaa" (5 * one)))) demo_farm5.
Definition demo_farm7 := demo_deliver 15 (FmClaim "ab" "bob") demo_farm6.
Definition demo_farm8 := demo_deliver 16 (FmUnlock (mkMsgLock "ab" "alice" (mkDecCoin "aaa" (5 * one)))) demo_farm7.

Lemma farm_inv_empty (s : FarmState Bank) :
  fa_pools s = ∅ → fa_locks s = ∅ → fa_historical s = ∅ → fa_current s = ∅ → bank_wf (fa_coins s) →
  (∀ d, balance (fa_coins s) "addr_farm" d = 0) → (∀ d, balance (fa_coins s) "addr_yield" d = 0) →
  farm_inv "addr_farm" "addr_yield" 1 s.
Proof.
  intros E1 E2 E3 E4 W F1 F2. unfold farm_inv. rewrite E1, E2, E3, E4. split; cbn; try done.
Qed.

Lemma demo_farm0_inv : farm_inv "addr_farm" "addr_yield" 1 demo_farm0.
Proof.
  apply farm_inv_empty; try done. change (fa_coins demo_farm0) with demo_farm_bank. unfold bank_wf, demo_farm_bank.
  cbn [accounts]. apply map_Forall_insert_2; [apply IsValid_wf; by vm_compute|].
  apply map_Forall_insert_2; [apply IsValid_wf; by vm_compute|]. apply map_Forall_singleton, IsValid_wf. by vm_compute.
Qed.
Lemma demo_out a : a ≠ "addr_farm" → a ≠ "addr_yield" → outsider "addr_farm" "addr_yield" a.
Proof. done. Qed.

#[local] Abbreviation demo_step := (farm_step (S := Bank) "fee_collector" "addr_farm" "addr_yield").
Lemma demo_msg h m s :
  outsider "addr_farm" "addr_yield" (signer m) → destroys_apart m s →
  farm_deliver "fee_collector" h m s = (Ok (), demo_deliver h m s) → demo_step s (demo_deliver h m s).
Proof. apply fs_msg. Qed.

Ltac demo_delivers := apply demo_msg; [by apply demo_out|done|by vm_compute].
Lemma demo_step1 : demo_step demo_farm0 demo_farm1.
Proof. demo_delivers. Qed.
Lemma demo_step2 : demo_step demo_farm1 demo_farm2.
Proof. demo_delivers. Qed.
Lemma demo_step3 : demo_step demo_farm2 demo_farm3.
Proof. demo_delivers. Qed.
Lemma demo_step4 : demo_step demo_farm3 demo_farm4.
Proof. apply (fs_whitelist _ _ _ "ab" true). by vm_compute. Qed.
Lemma demo_step5 : demo_step demo_farm4 demo_farm5.
Proof. apply fs_begin. by vm_compute. Qed.
Lemma demo_step6 : demo_step demo_farm5 demo_farm6.
Proof. demo_delivers. Qed.
Lemma demo_step7 : demo_step demo_farm6 demo_farm7.
Proof. demo_delivers. Qed.
Lemma demo_step8 : demo_step demo_farm7 demo_farm8.
Proof. demo_delivers. Qed.

Lemma demo_farm_run6 : farm_run (S := Bank) "fee_collector" "addr_farm" "addr_yield" 6 demo_farm0 demo_farm6.
Proof.
  exact (fr_cons _ _ _ 5 _ _ _ demo_step1 (fr_cons _ _ _ 4 _ _ _ demo_step2 (fr_cons _ _ _ 3 _ _ _ demo_step3
    (fr_cons _ _ _ 2 _ _ _ demo_step4 (fr_cons _ _ _ 1 _ _ _ demo_step5 (fr_cons _ _ _ 0 _ _ _ demo_step6
    (fr_nil _ _ _ demo_farm6))))))).
Qed.
Lemma demo_farm_run : farm_run (S := Bank) "fee_collector" "addr_farm" "addr_yield" 8 demo_farm0 demo_farm8.
Proof.
  exact (fr_cons _ _ _ 7 _ _ _ demo_step1 (fr_cons _ _ _ 6 _ _ _ demo_step2 (fr_cons _ _ _ 5 _ _ _ demo_step3
    (fr_cons _ _ _ 4 _ _ _ demo_step4 (fr_cons _ _ _ 3 _ _ _ demo_step5 (fr_cons _ _ _ 2 _ _ _ demo_step6
    (fr_cons _ _ _ 1 _ _ _ demo_step7 (fr_cons _ _ _ 0 _ _ _ demo_step8 (fr_nil _ _ _ demo_farm8))))))))).
Qed.

Lemma demo_ne : "addr_farm" ≠ "addr_yield".
Proof. done. Qed.
Lemma demo_mint_out : outsider "addr_farm" "addr_yield" "addr_mint".
Proof. done. Qed.
Lemma demo_bob_out : outsider "addr_farm" "addr_yield" "bob".
Proof. done. Qed.
Lemma demo_fee_out : outsider "addr_farm" "addr_yield" "addr_fee".
Proof. done. Qed.

Lemma farm_run_invariant_witness :
  farm_inv "addr_farm" "addr_yield" (1 + Z.of_nat 8) demo_farm8 ∧
  (∀ b s'', moduleAccountInvariant demo_farm8 = (Ok b, s'') → b = false) ∧
  (∀ b s'', yieldFarmingAccountInvariant demo_farm8 = (Ok b, s'') → b = false).
Proof.
  exact (farm_run_invariant (S := Bank) "fee_collector" "addr_farm" "addr_yield" "addr_mint" "addr_fee" eq_refl eq_refl eq_refl
    eq_refl demo_ne demo_mint_out demo_fee_out 8 demo_farm0 demo_farm8 demo_farm0_inv demo_farm_run eq_refl).
Defined.

(** The invariant after the first six steps. *)
Lemma demo_farm6_inv : farm_inv "addr_farm" "addr_yield" 7 demo_farm6.
Proof.
  exact (farm_run_inv (S := Bank) "fee_collector" "addr_farm" "addr_yield" "addr_mint" "addr_fee" eq_refl eq_refl eq_refl
    eq_refl demo_ne demo_mint_out demo_fee_out 6 demo_farm0 demo_farm6 demo_farm_run6 1 demo_farm0_inv (Z.le_refl 1) eq_refl).
Qed.

Definition demo_earnings (a : string) : list DecCoin :=
  match (GetEarnings 15 "ab" a demo_farm6).1 with Ok r => r | _ => [] end.
Lemma demo_earnings_ok a l :
  fa_locks demo_farm6 !! (a, "ab") = Some l → ∃ s', GetEarnings 15 "ab" a demo_farm6 = (Ok (demo_earnings a), s').
Proof.
  intros Hl. apply elem_of_map_to_list in Hl. vm_compute in Hl.
  repeat (apply elem_of_cons in Hl as [Hl|Hl]; [injection Hl as -> ->; eexists; by vm_compute|]). by apply elem_of_nil in Hl.
Qed.
Definition demo_pool6 : FarmPool :=
  match fa_pools demo_farm6 !! "ab" with Some p => p | None => mkFarmPool "" "" demo_fee demo_fee demo_fee [] [] end.

Lemma earnings_covered_witness :
  map_sum (λ l, if String.eqb (Li_PoolName l) "ab" then amount_of (demo_earnings (Li_Owner l)) "okt" else 0)
    (fa_locks demo_farm6) ≤ holdings "okt" demo_pool6.
Proof.
  exact (earnings_covered (S := Bank) "addr_farm" "addr_yield" 7 15 "ab" demo_pool6 demo_farm6 demo_earnings "okt" demo_farm6_inv eq_refl
    ltac:(vm_compute; reflexivity) demo_earnings_ok).
Defined.

Lemma claim_pays_earnings_witness :
  (∃ s'', GetEarnings 15 "ab" "bob" demo_farm6 = (Ok (demo_earnings "bob"), s'')) ∧
  ∀ x d, balance (fa_coins (handleMsgClaim 15 "ab" "bob" demo_farm6).2) x d
    = balance (fa_coins demo_farm6) x d + at_addr "bob" (demo_earnings "bob") x d
      - at_addr "addr_yield" (demo_earnings "bob") x d.
Proof.
  exact (claim_pays_earnings (S := Bank) "addr_farm" "addr_yield" eq_refl demo_ne 7 15 "ab" "bob" demo_farm6 (demo_earnings "bob") _
    demo_farm6_inv eq_refl demo_bob_out ltac:(vm_compute; reflexivity)).
Defined.

(** Bob's pool "a" next to Alice's pool "ab". *)
Definition demo_farm9 :=
  demo_deliver 14 (FmCreatePool (mkMsgCreatePool "bob" "a" (mkDecCoin "aaa" one) "okt")) demo_farm6.
Definition demo_farm10 := (handleMsgDestroyPool 15 "bob" "a" demo_farm9).2.
Lemma demo_farm9_inv : farm_inv "addr_farm" "addr_yield" 7 demo_farm9.
Proof.
  exact (handleMsgCreatePool_inv (S := Bank) "fee_collector" "addr_farm" "addr_yield" eq_refl demo_ne 7 14
    (mkMsgCreatePool "bob" "a" (mkDecCoin "aaa" one) "okt") "addr_fee" demo_farm6 () demo_farm9 demo_farm6_inv
    ltac:(lia) demo_bob_out eq_refl demo_fee_out ltac:(vm_compute; reflexivity)).
Qed.

Lemma destroy_strands_lockers_witness :
  (is_Some (fa_pools demo_farm10 !! "ab") ∧ (∀ a, fa_locks demo_farm10 !! (a, "ab") = fa_locks demo_farm9 !! (a, "ab")) ∧
   (∀ h' a c u' s'', handleMsgUnlock h' (mkMsgLock "ab" a c) demo_farm10 ≠ (Ok u', s'')) ∧
   (∀ h' a r s'', handleMsgClaim h' "ab" a demo_farm10 ≠ (Ok r, s''))) ∧
  (handleMsgUnlock 15 (mkMsgLock "ab" "bob" (mkDecCoin "aaa" (5 * one))) demo_farm9).1 = Ok () ∧
  (handleMsgUnlock 15 (mkMsgLock "ab" "bob" (mkDecCoin "aaa" (5 * one))) demo_farm10).1 = Panic "cannot decode empty bytes".
Proof.
  split; [|split; vm_compute; reflexivity].
  exact (destroy_strands_lockers (S := Bank) "addr_farm" "addr_yield" 7 15 "bob" "a" "ab" demo_farm9 () demo_farm10 demo_farm9_inv
    ltac:(discriminate) eq_refl ltac:(vm_compute; eauto) ltac:(vm_compute; reflexivity)).
Defined.

(** A whitelisted pool in which nothing is locked: the start of a block
    leaves the minted tokens where they are, and the registered invariant on
    the mint account, which wants it empty, reports a violation. *)
Definition demo_farm_idle := (Farm_BeginBlocker (handleManageWhiteListProposal "ab" true demo_farm2).2).2.
Lemma mint_invariant_breaks :
  (Farm_BeginBlocker (handleManageWhiteListProposal "ab" true demo_farm2).2).1 = Ok () ∧
  (mintFarmingAccountInvariant demo_farm_idle).1 = Ok true.
Proof. split; vm_compute; reflexivity. Qed.
