(* ===== verification/Staking.v ===== *)
(** * The staking module ([x/staking])

    An account deposits tokens, votes with them by adding shares to
    validators, or lets a proxy vote for it; tokens that are withdrawn wait
    in a queue before they are paid.  Validators rank by their shares, and at
    the end of an epoch the first of them form the validator set.

    The state has a part per group of store prefixes: [Stakes] for
    delegators, shares, proxies and undelegations, [ValSet] for validators
    and their indices, and [K], which is all that lies behind the other
    keepers: the coins, and whatever the modules that registered hooks keep.
    Addresses have twenty bytes, so keys with two addresses in them are
    pairs, and times are written with a fixed number of digits, so keys with
    a time are ordered by it; the key of the power index, whose order decides
    on the validator set, is written out. *)
From Stdlib Require Import Ascii.
From S2P Require Import Prelude Decimal Denom Coins Bank CoinKeeper DecStr.
#[local] Open Scope Z_scope.

(** ** Data *)

(** The block header: what the code reads of [sdk.Context].  Times are in
    nanoseconds. *)
Record Ctx := mkCtx { BlockHeight : Z; BlockTime : Z }.

Record PubKey := mkPubKey { Pk_type : string; Pk_bytes : string }.
#[global] Instance PubKey_eq_dec : EqDecision PubKey.
Proof. solve_decision. Defined.

Inductive BondStatus := Unbonded | Unbonding | Bonded.
#[global] Instance BondStatus_eq_dec : EqDecision BondStatus.
Proof. solve_decision. Defined.

Record Description := mkDescription {
  Ds_Moniker : string; Ds_Identity : string; Ds_Website : string; Ds_Details : string }.
#[global] Instance Description_eq_dec : EqDecision Description.
Proof. solve_decision. Defined.

Record Commission := mkCommission {
  Co_Rate : Dec; Co_MaxRate : Dec; Co_MaxChangeRate : Dec; Co_UpdateTime : Z }.

Record Validator := mkValidator {
  Va_OperatorAddress : string; Va_ConsPubKey : PubKey; Va_Jailed : bool; Va_Status : BondStatus;
  Va_Tokens : Int; Va_DelegatorShares : Dec; Va_Description : Description;
  Va_UnbondingHeight : Z; Va_UnbondingCompletionTime : Z; Va_Commission : Commission;
  Va_MinSelfDelegation : Dec }.

(** A nil [ProxyAddress] is the empty string, which the store reads back as
    nil. *)
Record Delegator := mkDelegator {
  De_DelegatorAddress : string; De_ValidatorAddresses : list string; De_Shares : Dec;
  De_Tokens : Dec; De_IsProxy : bool; De_TotalDelegatedTokens : Dec; De_ProxyAddress : string }.

Record UndelegationInfo := mkUndelegation {
  Ud_DelegatorAddress : string; Ud_Quantity : Dec; Ud_CompletionTime : Z }.

Record ValidatorUpdate := mkUpdate { Vu_PubKey : PubKey; Vu_Power : Z }.

Record StakingParams := mkStakingParams {
  Sp_UnbondingTime : Z; Sp_MaxValidators : Z; Sp_Epoch : Z; Sp_MaxValsToAddShares : Z;
  Sp_MinDelegation : Dec; Sp_MinSelfDelegation : Dec }.

Record Stakes := mkStakes {
  st_delegators : gmap string Delegator;
  st_shares : gmap (string * string) Dec;
  st_proxies : gset (string * string);
  st_undelegations : gmap string UndelegationInfo;
  st_undelegateQueue : gset (Z * string) }.

Record ValSet := mkValSet {
  vs_validators : gmap string Validator;
  vs_byConsAddr : gmap string string;
  vs_powerIndex : gmap string string;
  vs_lastPowers : gmap string Z;
  vs_lastTotalPower : option Int;
  vs_queue : gmap Z (list string);
  vs_abandoned : list string;
  vs_epoch : option Z;
  vs_endOfLastEpoch : option Z }.

Record StakingState (K : Type) := mkStakingState {
  sg_k : K; sg_stakes : Stakes; sg_vals : ValSet; sg_params : StakingParams }.
Arguments mkStakingState {K}.
Arguments sg_k {K}.
Arguments sg_stakes {K}.
Arguments sg_vals {K}.
Arguments sg_params {K}.

(** What the module takes from outside: the heights of two upgrades, the
    address of a public key, the text of the weight of a week, which is
    computed in floating point, and the key types of the consensus
    parameters. *)
Class StakingConfig := mkStakingConfig {
  milestoneVenus2Height : Z; milestoneVenus6Height : Z;
  pk_Address : PubKey → string;
  weightOfWeek : Z → string;
  consensusPubKeyTypes : option (list string) }.

(** The methods of the interface [StakingHooks], and how the modules that
    implement them are called: they read the stores of this module and
    write their own. *)
Inductive hook :=
  | AfterValidatorCreated (valAddr : string)
  | BeforeValidatorModified (valAddr : string)
  | AfterValidatorRemoved (consAddr valAddr : string)
  | AfterValidatorBonded (consAddr valAddr : string)
  | AfterValidatorBeginUnbonding (consAddr valAddr : string)
  | AfterValidatorDestroyed (consAddr valAddr : string)
  | BeforeDelegationCreated (delAddr : string) (valAddrs : list string)
  | BeforeDelegationSharesModified (delAddr : string) (valAddrs : list string)
  | AfterDelegationModified (delAddr : string) (valAddrs : list string).

Class StakingHooks (K : Type) := {
  sh_call : Ctx → Stakes → ValSet → hook → M K unit;
  sh_CheckEnabled : Ctx → K → bool }.

(** The coin keeper with the two calls that only this module makes. *)
Class DelegationKeeper (K : Type) `{CoinKeeper K} := {
  ck_DelegateCoinsFromAccountToModule : string → string → list DecCoin → M K unit;
  ck_UndelegateCoinsFromModuleToAccount : string → string → list DecCoin → M K unit }.

(** ** Constants and conversions *)

Definition BondedPoolName : string := "bonded_tokens_pool".
Definition NotBondedPoolName : string := "not_bonded_tokens_pool".
Definition DefaultEpoch : Z := 252.
Definition fixedWeight : Z := 11700000.
Definition blockTimestampEpoch : Z := 946684800.
Definition secondsPerWeek : Z := 60 * 60 * 24 * 7.
Definition PowerReduction : Int := 10 ^ Precision.
Definition nanosPerSecond : Z := 10 ^ 9.
Definition DefaultValidateRateUpdateInterval : Z := 24.
Definition MaxMonikerLength : nat := 70.
Definition MaxIdentityLength : nat := 3000.
Definition MaxWebsiteLength : nat := 140.
Definition MaxDetailsLength : nat := 280.
Definition DoNotModifyDesc : string := "[do-not-modify]".

(** [Int64] of a big integer: the low 64 bits, as a signed number. *)
Definition int64 (x : Z) : Z := (x + 2 ^ 63) mod 2 ^ 64 - 2 ^ 63.

(** [binary.BigEndian.PutUint64] for [n] bytes. *)
Fixpoint bigEndian (n : nat) (x : Z) : string :=
  match n with
  | O => ""
  | S n => String (ascii_of_N (Z.to_N (x / 256 ^ Z.of_nat n mod 256))) (bigEndian n x)
  end.
(** [^b] for every byte. *)
Fixpoint invertBytes (s : string) : string :=
  match s with
  | "" => ""
  | String c s => String (ascii_of_N (255 - N_of_ascii c)) (invertBytes s)
  end.

Definition sharesToConsensusPower (shares : Dec) : Z := int64 (Z.quot shares PowerReduction).
(** The key behind the prefix byte. *)
Definition getValidatorPowerRank (v : Validator) : string :=
  bigEndian 8 (sharesToConsensusPower (Va_DelegatorShares v) mod 2 ^ 64)
  +:+ invertBytes (Va_OperatorAddress v).

Definition IsBonded (v : Validator) : bool := bool_decide (Va_Status v = Bonded).
Definition IsUnbonded (v : Validator) : bool := bool_decide (Va_Status v = Unbonded).
Definition IsUnbonding (v : Validator) : bool := bool_decide (Va_Status v = Unbonding).
Definition PotentialConsensusPowerByShares (v : Validator) : Z :=
  sharesToConsensusPower (Va_DelegatorShares v).
Definition ConsensusPowerByShares (v : Validator) : Z :=
  if IsBonded v then PotentialConsensusPowerByShares v else 0.
Definition ABCIValidatorUpdateByShares (v : Validator) : ValidatorUpdate :=
  mkUpdate (Va_ConsPubKey v) (ConsensusPowerByShares v).
Definition ABCIValidatorUpdateZero (v : Validator) : ValidatorUpdate := mkUpdate (Va_ConsPubKey v) 0.

Definition va_set_status (st : BondStatus) (v : Validator) : Validator :=
  mkValidator (Va_OperatorAddress v) (Va_ConsPubKey v) (Va_Jailed v) st (Va_Tokens v)
    (Va_DelegatorShares v) (Va_Description v) (Va_UnbondingHeight v) (Va_UnbondingCompletionTime v)
    (Va_Commission v) (Va_MinSelfDelegation v).
Definition UpdateStatus (v : Validator) (st : BondStatus) : Validator := va_set_status st v.
Definition va_set_jailed (j : bool) (v : Validator) : Validator :=
  mkValidator (Va_OperatorAddress v) (Va_ConsPubKey v) j (Va_Status v) (Va_Tokens v)
    (Va_DelegatorShares v) (Va_Description v) (Va_UnbondingHeight v) (Va_UnbondingCompletionTime v)
    (Va_Commission v) (Va_MinSelfDelegation v).
Definition va_set_shares (x : Dec) (v : Validator) : Validator :=
  mkValidator (Va_OperatorAddress v) (Va_ConsPubKey v) (Va_Jailed v) (Va_Status v) (Va_Tokens v)
    x (Va_Description v) (Va_UnbondingHeight v) (Va_UnbondingCompletionTime v)
    (Va_Commission v) (Va_MinSelfDelegation v).
Definition va_set_description (d : Description) (v : Validator) : Validator :=
  mkValidator (Va_OperatorAddress v) (Va_ConsPubKey v) (Va_Jailed v) (Va_Status v) (Va_Tokens v)
    (Va_DelegatorShares v) d (Va_UnbondingHeight v) (Va_UnbondingCompletionTime v)
    (Va_Commission v) (Va_MinSelfDelegation v).
Definition va_set_unbonding (height time : Z) (v : Validator) : Validator :=
  mkValidator (Va_OperatorAddress v) (Va_ConsPubKey v) (Va_Jailed v) (Va_Status v) (Va_Tokens v)
    (Va_DelegatorShares v) (Va_Description v) height time (Va_Commission v) (Va_MinSelfDelegation v).
Definition va_set_commission (c : Commission) (v : Validator) : Validator :=
  mkValidator (Va_OperatorAddress v) (Va_ConsPubKey v) (Va_Jailed v) (Va_Status v) (Va_Tokens v)
    (Va_DelegatorShares v) (Va_Description v) (Va_UnbondingHeight v) (Va_UnbondingCompletionTime v)
    c (Va_MinSelfDelegation v).
Definition va_set_msd (x : Dec) (v : Validator) : Validator :=
  mkValidator (Va_OperatorAddress v) (Va_ConsPubKey v) (Va_Jailed v) (Va_Status v) (Va_Tokens v)
    (Va_DelegatorShares v) (Va_Description v) (Va_UnbondingHeight v) (Va_UnbondingCompletionTime v)
    (Va_Commission v) x.

Definition NewCommission (rate maxRate maxChangeRate : Dec) : Commission :=
  mkCommission rate maxRate maxChangeRate 0.
Definition NewValidator (operator : string) (pubKey : PubKey) (description : Description)
    (minSelfDelegation : Dec) : Validator :=
  mkValidator operator pubKey false Unbonded 0 ZeroDec description 0 0
    (NewCommission ZeroDec ZeroDec ZeroDec) minSelfDelegation.

Definition CommissionRates_Validate (c : Commission) : outcome unit :=
  if Dec_LT (Co_MaxRate c) ZeroDec then Err (E "ErrCommissionNegative")
  else if Dec_GT (Co_MaxRate c) OneDec then Err (E "ErrCommissionHuge")
  else if Dec_LT (Co_Rate c) ZeroDec then Err (E "ErrCommissionNegative")
  else if Dec_GT (Co_Rate c) (Co_MaxRate c) then Err (E "ErrCommissionGTMaxRate")
  else if Dec_LT (Co_MaxChangeRate c) ZeroDec then Err (E "ErrCommissionChangeRateNegative")
  else if Dec_GT (Co_MaxChangeRate c) (Co_MaxRate c) then Err (E "ErrCommissionChangeRateGTMaxRate")
  else Ok ().
(** A duration in hours is below 24 exactly if it is below 24 hours. *)
Definition ValidateNewRate (c : Commission) (newRate : Dec) (blockTime : Z) : outcome unit :=
  if blockTime - Co_UpdateTime c <? DefaultValidateRateUpdateInterval * 3600 * nanosPerSecond
  then Err (E "ErrCommissionUpdateTime")
  else if Dec_LT newRate ZeroDec then Err (E "ErrCommissionNegative")
  else if Dec_GT newRate (Co_MaxRate c) then Err (E "ErrCommissionGTMaxRate")
  else Ok ().
Definition SetInitialCommission (v : Validator) (c : Commission) : outcome Validator :=
  _ ← CommissionRates_Validate c; Ok (va_set_commission c v).
Definition UpdateValidatorCommission (ctx : Ctx) (v : Validator) (newRate : Dec) : outcome Commission :=
  let c := Va_Commission v in
  _ ← ValidateNewRate c newRate (BlockTime ctx);
  Ok (mkCommission newRate (Co_MaxRate c) (Co_MaxChangeRate c) (BlockTime ctx)).

Definition EnsureLength (d : Description) : outcome Description :=
  if (MaxMonikerLength <? String.length (Ds_Moniker d))%nat then Err (E "ErrDescriptionLength")
  else if (MaxIdentityLength <? String.length (Ds_Identity d))%nat then Err (E "ErrDescriptionLength")
  else if (MaxWebsiteLength <? String.length (Ds_Website d))%nat then Err (E "ErrDescriptionLength")
  else if (MaxDetailsLength <? String.length (Ds_Details d))%nat then Err (E "ErrDescriptionLength")
  else Ok d.
Definition UpdateDescription (d d2 : Description) : outcome Description :=
  let keep old new := if String.eqb new DoNotModifyDesc then old else new in
  EnsureLength (mkDescription (keep (Ds_Moniker d) (Ds_Moniker d2)) (keep (Ds_Identity d) (Ds_Identity d2))
                  (keep (Ds_Website d) (Ds_Website d2)) (keep (Ds_Details d) (Ds_Details d2))).

Definition NewDelegator (delAddr : string) : Delegator :=
  mkDelegator delAddr [] ZeroDec ZeroDec false ZeroDec "".
Definition HasProxy (d : Delegator) : bool := negb (String.eqb (De_ProxyAddress d) "").
Definition de_set_tokens (x : Dec) (d : Delegator) : Delegator :=
  mkDelegator (De_DelegatorAddress d) (De_ValidatorAddresses d) (De_Shares d) x (De_IsProxy d)
    (De_TotalDelegatedTokens d) (De_ProxyAddress d).
Definition de_set_shares (x : Dec) (d : Delegator) : Delegator :=
  mkDelegator (De_DelegatorAddress d) (De_ValidatorAddresses d) x (De_Tokens d) (De_IsProxy d)
    (De_TotalDelegatedTokens d) (De_ProxyAddress d).
Definition de_set_vals (l : list string) (d : Delegator) : Delegator :=
  mkDelegator (De_DelegatorAddress d) l (De_Shares d) (De_Tokens d) (De_IsProxy d)
    (De_TotalDelegatedTokens d) (De_ProxyAddress d).
Definition de_set_total (x : Dec) (d : Delegator) : Delegator :=
  mkDelegator (De_DelegatorAddress d) (De_ValidatorAddresses d) (De_Shares d) (De_Tokens d) (De_IsProxy d)
    x (De_ProxyAddress d).
Definition UnbindProxy (d : Delegator) : Delegator :=
  mkDelegator (De_DelegatorAddress d) (De_ValidatorAddresses d) (De_Shares d) (De_Tokens d) (De_IsProxy d)
    (De_TotalDelegatedTokens d) "".
Definition BindProxy (proxyAddr : string) (d : Delegator) : Delegator :=
  mkDelegator (De_DelegatorAddress d) (De_ValidatorAddresses d) (De_Shares d) (De_Tokens d) false
    (De_TotalDelegatedTokens d) proxyAddr.
Definition RegProxy (reg : bool) (d : Delegator) : Delegator :=
  let d := mkDelegator (De_DelegatorAddress d) (De_ValidatorAddresses d) (De_Shares d) (De_Tokens d) reg
             (De_TotalDelegatedTokens d) (De_ProxyAddress d) in
  if reg then UnbindProxy d else d.

(** ** Messages *)

Record MsgCreateValidator := mkMsgCreateValidator {
  Mc_Description : Description; Mc_MinSelfDelegation : DecCoin;
  Mc_DelegatorAddress : string; Mc_ValidatorAddress : string; Mc_PubKey : PubKey }.

Inductive StakingMsg :=
  | MsgCreateValidator_ (m : MsgCreateValidator)
  | MsgEditValidator (description : Description) (validatorAddress : string)
  | MsgEditValidatorCommissionRate (commissionRate : Dec) (validatorAddress : string)
  | MsgDeposit (delegatorAddress : string) (amount : DecCoin)
  | MsgWithdraw (delegatorAddress : string) (amount : DecCoin)
  | MsgAddShares (delAddr : string) (valAddrs : list string)
  | MsgBindProxy (delAddr proxyAddress : string)
  | MsgUnbindProxy (delAddr : string)
  | MsgRegProxy (proxyAddress : string) (reg : bool)
  | MsgDestroyValidator (delAddr : string).

Fixpoint isValsDuplicate_loop (valAddrs : list string) (seen : gset string) : bool :=
  match valAddrs with
  | [] => false
  | key :: l => if bool_decide (key ∈ seen) then true else isValsDuplicate_loop l ({[ key ]} ∪ seen)
  end.
Definition isValsDuplicate (valAddrs : list string) : bool := isValsDuplicate_loop valAddrs ∅.

Definition HigherThanVenus2 `{StakingConfig} (h : Z) : bool :=
  if milestoneVenus2Height =? 0 then false else h >=? milestoneVenus2Height.
Definition HigherThanVenus6 `{StakingConfig} (h : Z) : bool :=
  if milestoneVenus6Height =? 0 then false else h >? milestoneVenus6Height.

Definition MsgCreateValidator_ValidateBasic (m : MsgCreateValidator) : outcome unit :=
  if String.eqb (Mc_DelegatorAddress m) "" then Err (E "ErrNilDelegatorAddr")
  else if String.eqb (Mc_ValidatorAddress m) "" then Err (E "ErrNilValidatorAddr")
  else if negb (String.eqb (Mc_ValidatorAddress m) (Mc_DelegatorAddress m))
  then Err (E "ErrBadValidatorAddr")
  else if Dec_LTE (Amount (Mc_MinSelfDelegation m)) ZeroDec
          || negb (DecCoin_IsValid (Mc_MinSelfDelegation m))
  then Err (E "ErrMinSelfDelegationInvalid")
  else if bool_decide (Mc_Description m = mkDescription "" "" "" "")
  then Err (E "ErrDescriptionIsEmpty")
  else Ok ().
Definition MsgEditValidator_ValidateBasic (description : Description) (validatorAddress : string) : outcome unit :=
  if String.eqb validatorAddress "" then Err (E "ErrNilValidatorAddr")
  else if bool_decide (description = mkDescription "" "" "" "") then Err (E "ErrNilValidatorAddr")
  else Ok ().
(** The global height that this check reads is an argument. *)
Definition MsgEditValidatorCommissionRate_ValidateBasic `{StakingConfig} (globalHeight : Z) (commissionRate : Dec)
    (validatorAddress : string) : outcome unit :=
  if String.eqb validatorAddress "" then Err (E "ErrNilValidatorAddr")
  else if Dec_GT commissionRate OneDec || Dec_IsNegative commissionRate
  then Err (E "ErrInvalidCommissionRate")
  else if negb (HigherThanVenus2 globalHeight)
  then Err (E "ErrCodeNotSupportEditValidatorCommissionRate")
  else Ok ().
Definition MsgDeposit_ValidateBasic (delegatorAddress : string) (amount : DecCoin) : outcome unit :=
  if String.eqb delegatorAddress "" then Err (E "ErrNilDelegatorAddr")
  else if Dec_LTE (Amount amount) ZeroDec || negb (DecCoin_IsValid amount)
  then Err (E "ErrBadDelegationAmount")
  else Ok ().
Definition MsgWithdraw_ValidateBasic (delegatorAddress : string) (amount : DecCoin) : outcome unit :=
  if String.eqb delegatorAddress "" then Err (E "ErrNilDelegatorAddr")
  else if negb (DecCoin_IsValid amount) then Err (E "ErrBadUnDelegationAmount")
  else Ok ().
Definition MsgAddShares_ValidateBasic (delAddr : string) (valAddrs : list string) : outcome unit :=
  if String.eqb delAddr "" then Err (E "ErrNilDelegatorAddr")
  else if (length valAddrs =? 0)%nat then Err (E "ErrBadValidatorAddr")
  else if isValsDuplicate valAddrs then Err (E "ErrTargetValsDuplicate")
  else Ok ().
Definition MsgBindProxy_ValidateBasic (delAddr proxyAddress : string) : outcome unit :=
  if String.eqb delAddr "" || String.eqb proxyAddress "" then Err (E "ErrNilDelegatorAddr")
  else if String.eqb delAddr proxyAddress then Err (E "ErrDelegatorEqualToProxyAddr")
  else Ok ().
Definition MsgUnbindProxy_ValidateBasic (delAddr : string) : outcome unit :=
  if String.eqb delAddr "" then Err (E "ErrNilDelegatorAddr") else Ok ().
Definition MsgDestroyValidator_ValidateBasic (delAddr : string) : outcome unit :=
  if String.eqb delAddr "" then Err (E "ErrNilDelegatorAddr") else Ok ().
Definition MsgRegProxy_ValidateBasic (proxyAddress : string) : outcome unit :=
  if String.eqb proxyAddress "" then Err (E "ErrNilDelegatorAddr") else Ok ().

Definition StakingMsg_ValidateBasic `{StakingConfig} (globalHeight : Z) (msg : StakingMsg) : outcome unit :=
  match msg with
  | MsgCreateValidator_ m => MsgCreateValidator_ValidateBasic m
  | MsgEditValidator description addr => MsgEditValidator_ValidateBasic description addr
  | MsgEditValidatorCommissionRate rate addr => MsgEditValidatorCommissionRate_ValidateBasic globalHeight rate addr
  | MsgDeposit addr amount => MsgDeposit_ValidateBasic addr amount
  | MsgWithdraw addr amount => MsgWithdraw_ValidateBasic addr amount
  | MsgAddShares addr valAddrs => MsgAddShares_ValidateBasic addr valAddrs
  | MsgBindProxy addr proxy => MsgBindProxy_ValidateBasic addr proxy
  | MsgUnbindProxy addr => MsgUnbindProxy_ValidateBasic addr
  | MsgDestroyValidator addr => MsgDestroyValidator_ValidateBasic addr
  | MsgRegProxy addr _ => MsgRegProxy_ValidateBasic addr
  end.

Definition StakingParams_Validate (p : StakingParams) : outcome unit :=
  if Sp_MaxValidators p =? 0 then Err (E "MaxValidators must be a positive integer")
  else if Sp_Epoch p =? 0 then Err (E "Epoch must be a positive integer")
  else if Sp_MaxValsToAddShares p =? 0 then Err (E "MaxValsToAddShares must be a positive integer")
  else Ok ().

(** ** Control flow *)

(** [if err != nil { panic(err) }], [if err != nil { return ErrX }] where the
    cause is dropped, and [if err != nil { log }]. *)
Definition orPanic {S A} (m : M S A) : M S A := λ s,
  match m s with (Err _, s') => (Panic "error", s') | r => r end.
Definition replaceErr {S A} (name : string) (m : M S A) : M S A := λ s,
  match m s with (Err _, s') => (Err (E name), s') | r => r end.
Definition logErr {S A} (m : M S A) : M S unit := λ s,
  match m s with
  | (Ok _, s') => (Ok (), s')
  | (Err _, s') => (Ok (), s')
  | (Panic p, s') => (Panic p, s')
  end.

(** [for _, a := range l { acc = f(acc, a) }]. *)
Fixpoint for_acc {S A B} (f : B → A → M S B) (acc : B) (l : list A) : M S B :=
  match l with
  | [] => mret acc
  | a :: l => acc ← f acc a; for_acc f acc l
  end.

(** Keys of the undelegation queue and of the validator queue in the order of
    time. *)
Definition time_key_le (a b : Z * string) : Prop := a.1 < b.1 ∨ (a.1 = b.1 ∧ ¬ str_lt b.2 a.2).
#[global] Instance time_key_le_dec a b : Decision (time_key_le a b).
Proof. unfold time_key_le. apply _. Defined.
Definition time_le {V} (a b : Z * V) : Prop := a.1 ≤ b.1.
#[global] Instance time_le_dec {V} (a b : Z * V) : Decision (time_le a b).
Proof. unfold time_le. apply _. Defined.

Section StakingKeeper.
Context {K : Type} `{CoinKeeper K} `{!DelegationKeeper K} `{!StakingHooks K} `{StakingConfig}.

(** ** The store *)

Definition sg_set_k (k : K) (s : StakingState K) : StakingState K :=
  mkStakingState k (sg_stakes s) (sg_vals s) (sg_params s).
Definition sg_set_stakes (t : Stakes) (s : StakingState K) : StakingState K :=
  mkStakingState (sg_k s) t (sg_vals s) (sg_params s).
Definition sg_set_vals (v : ValSet) (s : StakingState K) : StakingState K :=
  mkStakingState (sg_k s) (sg_stakes s) v (sg_params s).
Definition on_keeper {A} (m : M K A) : M (StakingState K) A := zoom sg_k sg_set_k m.
Definition on_stakes {A} (m : M Stakes A) : M (StakingState K) A := zoom sg_stakes sg_set_stakes m.
Definition on_vals {A} (m : M ValSet A) : M (StakingState K) A := zoom sg_vals sg_set_vals m.

Definition call_hook (ctx : Ctx) (h : hook) : M (StakingState K) unit := λ s,
  on_keeper (sh_call ctx (sg_stakes s) (sg_vals s) h) s.
Definition CheckEnabled (ctx : Ctx) (s : StakingState K) : bool := sh_CheckEnabled ctx (sg_k s).

Definition SetDelegator (d : Delegator) : M (StakingState K) unit :=
  on_stakes (modify (λ t, mkStakes (<[De_DelegatorAddress d := d]> (st_delegators t)) (st_shares t)
    (st_proxies t) (st_undelegations t) (st_undelegateQueue t))).
Definition GetDelegator (delAddr : string) : M (StakingState K) (option Delegator) :=
  gets (λ s, st_delegators (sg_stakes s) !! delAddr).
Definition DeleteDelegator (delAddr : string) : M (StakingState K) unit :=
  on_stakes (modify (λ t, mkStakes (delete delAddr (st_delegators t)) (st_shares t)
    (st_proxies t) (st_undelegations t) (st_undelegateQueue t))).
Definition SetShares (delAddr valAddr : string) (shares : Dec) : M (StakingState K) unit :=
  on_stakes (modify (λ t, mkStakes (st_delegators t) (<[(valAddr, delAddr) := shares]> (st_shares t))
    (st_proxies t) (st_undelegations t) (st_undelegateQueue t))).
Definition DeleteShares (valAddr delAddr : string) : M (StakingState K) unit :=
  on_stakes (modify (λ t, mkStakes (st_delegators t) (delete (valAddr, delAddr) (st_shares t))
    (st_proxies t) (st_undelegations t) (st_undelegateQueue t))).
Definition SetProxyBinding (proxyAddress delegatorAddress : string) (isRemove : bool)
    : M (StakingState K) unit :=
  on_stakes (modify (λ t, mkStakes (st_delegators t) (st_shares t)
    (if isRemove then st_proxies t ∖ {[ (proxyAddress, delegatorAddress) ]}
     else {[ (proxyAddress, delegatorAddress) ]} ∪ st_proxies t)
    (st_undelegations t) (st_undelegateQueue t))).
Definition SetUndelegating (u : UndelegationInfo) : M (StakingState K) unit :=
  on_stakes (modify (λ t, mkStakes (st_delegators t) (st_shares t) (st_proxies t)
    (<[Ud_DelegatorAddress u := u]> (st_undelegations t)) (st_undelegateQueue t))).
Definition GetUndelegating (delAddr : string) : M (StakingState K) (option UndelegationInfo) :=
  gets (λ s, st_undelegations (sg_stakes s) !! delAddr).
Definition DeleteUndelegating (delAddr : string) : M (StakingState K) unit :=
  on_stakes (modify (λ t, mkStakes (st_delegators t) (st_shares t) (st_proxies t)
    (delete delAddr (st_undelegations t)) (st_undelegateQueue t))).
Definition SetAddrByTimeKeyWithNilValue (timestamp : Z) (delAddr : string) : M (StakingState K) unit :=
  on_stakes (modify (λ t, mkStakes (st_delegators t) (st_shares t) (st_proxies t)
    (st_undelegations t) ({[ (timestamp, delAddr) ]} ∪ st_undelegateQueue t))).
Definition DeleteAddrByTimeKey (timestamp : Z) (delAddr : string) : M (StakingState K) unit :=
  on_stakes (modify (λ t, mkStakes (st_delegators t) (st_shares t) (st_proxies t)
    (st_undelegations t) (st_undelegateQueue t ∖ {[ (timestamp, delAddr) ]}))).

Definition vs_set_validators (f : gmap string Validator → gmap string Validator) (v : ValSet) : ValSet :=
  mkValSet (f (vs_validators v)) (vs_byConsAddr v) (vs_powerIndex v) (vs_lastPowers v)
    (vs_lastTotalPower v) (vs_queue v) (vs_abandoned v) (vs_epoch v) (vs_endOfLastEpoch v).
Definition vs_set_byConsAddr (f : gmap string string → gmap string string) (v : ValSet) : ValSet :=
  mkValSet (vs_validators v) (f (vs_byConsAddr v)) (vs_powerIndex v) (vs_lastPowers v)
    (vs_lastTotalPower v) (vs_queue v) (vs_abandoned v) (vs_epoch v) (vs_endOfLastEpoch v).
Definition vs_set_powerIndex (f : gmap string string → gmap string string) (v : ValSet) : ValSet :=
  mkValSet (vs_validators v) (vs_byConsAddr v) (f (vs_powerIndex v)) (vs_lastPowers v)
    (vs_lastTotalPower v) (vs_queue v) (vs_abandoned v) (vs_epoch v) (vs_endOfLastEpoch v).
Definition vs_set_lastPowers (f : gmap string Z → gmap string Z) (v : ValSet) : ValSet :=
  mkValSet (vs_validators v) (vs_byConsAddr v) (vs_powerIndex v) (f (vs_lastPowers v))
    (vs_lastTotalPower v) (vs_queue v) (vs_abandoned v) (vs_epoch v) (vs_endOfLastEpoch v).
Definition vs_set_total (p : Int) (v : ValSet) : ValSet :=
  mkValSet (vs_validators v) (vs_byConsAddr v) (vs_powerIndex v) (vs_lastPowers v)
    (Some p) (vs_queue v) (vs_abandoned v) (vs_epoch v) (vs_endOfLastEpoch v).
Definition vs_set_queue (f : gmap Z (list string) → gmap Z (list string)) (v : ValSet) : ValSet :=
  mkValSet (vs_validators v) (vs_byConsAddr v) (vs_powerIndex v) (vs_lastPowers v)
    (vs_lastTotalPower v) (f (vs_queue v)) (vs_abandoned v) (vs_epoch v) (vs_endOfLastEpoch v).
Definition vs_set_abandoned (l : list string) (v : ValSet) : ValSet :=
  mkValSet (vs_validators v) (vs_byConsAddr v) (vs_powerIndex v) (vs_lastPowers v)
    (vs_lastTotalPower v) (vs_queue v) l (vs_epoch v) (vs_endOfLastEpoch v).
Definition vs_set_epoch (e : option Z) (h : option Z) (v : ValSet) : ValSet :=
  mkValSet (vs_validators v) (vs_byConsAddr v) (vs_powerIndex v) (vs_lastPowers v)
    (vs_lastTotalPower v) (vs_queue v) (vs_abandoned v) e h.

Definition ConsAddress (v : Validator) : string := pk_Address (Va_ConsPubKey v).

Definition GetValidator (addr : string) : M (StakingState K) (option Validator) :=
  gets (λ s, vs_validators (sg_vals s) !! addr).
Definition mustGetValidator (addr : string) : M (StakingState K) Validator :=
  o ← GetValidator addr;
  match o with Some v => mret v | None => panic "validator record not found for address" end.
Definition GetValidatorByConsAddr (consAddr : string) : M (StakingState K) (option Validator) :=
  opAddr ← gets (λ s, vs_byConsAddr (sg_vals s) !! consAddr);
  match opAddr with None => mret None | Some opAddr => GetValidator opAddr end.
Definition mustGetValidatorByConsAddr (consAddr : string) : M (StakingState K) Validator :=
  o ← GetValidatorByConsAddr consAddr;
  match o with Some v => mret v | None => panic "validator with consensus-Address not found" end.
Definition SetValidator (v : Validator) : M (StakingState K) unit :=
  on_vals (modify (vs_set_validators <[Va_OperatorAddress v := v]>)).
Definition SetValidatorByConsAddr (v : Validator) : M (StakingState K) unit :=
  on_vals (modify (vs_set_byConsAddr <[ConsAddress v := Va_OperatorAddress v]>)).
Definition SetNewValidatorByPowerIndex (v : Validator) : M (StakingState K) unit :=
  on_vals (modify (vs_set_powerIndex <[getValidatorPowerRank v := Va_OperatorAddress v]>)).
Definition SetValidatorByPowerIndex (v : Validator) : M (StakingState K) unit :=
  if Va_Jailed v then mret () else SetNewValidatorByPowerIndex v.
Definition DeleteValidatorByPowerIndex (v : Validator) : M (StakingState K) unit :=
  on_vals (modify (vs_set_powerIndex (delete (getValidatorPowerRank v)))).
Definition SetLastValidatorPower (operator : string) (power : Z) : M (StakingState K) unit :=
  on_vals (modify (vs_set_lastPowers <[operator := power]>)).
Definition DeleteLastValidatorPower (operator : string) : M (StakingState K) unit :=
  on_vals (modify (vs_set_lastPowers (delete operator))).
Definition GetLastTotalPower : M (StakingState K) Int :=
  gets (λ s, default 0 (vs_lastTotalPower (sg_vals s))).
Definition SetLastTotalPower (power : Int) : M (StakingState K) unit :=
  on_vals (modify (vs_set_total power)).

Definition GetValidatorQueueTimeSlice (timestamp : Z) : M (StakingState K) (list string) :=
  gets (λ s, default [] (vs_queue (sg_vals s) !! timestamp)).
Definition SetValidatorQueueTimeSlice (timestamp : Z) (keys : list string) : M (StakingState K) unit :=
  on_vals (modify (vs_set_queue <[timestamp := keys]>)).
Definition DeleteValidatorQueueTimeSlice (timestamp : Z) : M (StakingState K) unit :=
  on_vals (modify (vs_set_queue (delete timestamp))).
Definition InsertValidatorQueue (v : Validator) : M (StakingState K) unit :=
  timeSlice ← GetValidatorQueueTimeSlice (Va_UnbondingCompletionTime v);
  SetValidatorQueueTimeSlice (Va_UnbondingCompletionTime v)
    (if (length timeSlice =? 0)%nat then [Va_OperatorAddress v] else timeSlice ++ [Va_OperatorAddress v]).
Definition DeleteValidatorQueue (v : Validator) : M (StakingState K) unit :=
  timeSlice ← GetValidatorQueueTimeSlice (Va_UnbondingCompletionTime v);
  let newTimeSlice := List.filter (λ addr, negb (String.eqb addr (Va_OperatorAddress v))) timeSlice in
  if (length newTimeSlice =? 0)%nat then DeleteValidatorQueueTimeSlice (Va_UnbondingCompletionTime v)
  else SetValidatorQueueTimeSlice (Va_UnbondingCompletionTime v) newTimeSlice.

Definition AppendAbandonedValidatorAddrs (consAddr : string) : M (StakingState K) unit :=
  v ← mustGetValidatorByConsAddr consAddr;
  on_vals (modify (λ vs, vs_set_abandoned (vs_abandoned vs ++ [Va_OperatorAddress v]) vs)).
Definition DeleteAbandonedValidatorAddrs : M (StakingState K) unit :=
  on_vals (modify (vs_set_abandoned [])).
Definition IsKickedOut (s : StakingState K) : bool := negb (length (vs_abandoned (sg_vals s)) =? 0)%nat.

Definition GetEpoch (s : StakingState K) : Z := default DefaultEpoch (vs_epoch (sg_vals s)).
Definition SetEpoch (epoch : Z) : M (StakingState K) unit :=
  on_vals (modify (λ vs, vs_set_epoch (Some epoch) (vs_endOfLastEpoch vs) vs)).
Definition GetTheEndOfLastEpoch (s : StakingState K) : Z :=
  default 0 (vs_endOfLastEpoch (sg_vals s)).
Definition SetTheEndOfLastEpoch (ctx : Ctx) : M (StakingState K) unit :=
  on_vals (modify (λ vs, vs_set_epoch (vs_epoch vs) (Some (BlockHeight ctx)) vs)).
(** Go's [%] panics on a zero divisor. *)
Definition IsEndOfEpoch (ctx : Ctx) : M (StakingState K) bool :=
  epoch ← gets GetEpoch;
  last ← gets GetTheEndOfLastEpoch;
  _ ← panic_if (epoch =? 0) "integer divide by zero";
  mret (Z.rem (BlockHeight ctx - last) epoch =? 0).

Definition RemoveValidator (ctx : Ctx) (address : string) : M (StakingState K) unit :=
  o ← GetValidator address;
  match o with
  | None => mret ()
  | Some v =>
      _ ← panic_if (negb (IsUnbonded v)) "cannot call RemoveValidator on bonded or unbonding validators";
      _ ← panic_if (Va_Tokens v >? 0) "attempting to remove a validator which still contains tokens";
      _ ← on_vals (modify (vs_set_validators (delete address)));
      _ ← on_vals (modify (vs_set_byConsAddr (delete (ConsAddress v))));
      _ ← on_vals (modify (vs_set_powerIndex (delete (getValidatorPowerRank v))));
      call_hook ctx (AfterValidatorRemoved (ConsAddress v) (Va_OperatorAddress v))
  end.

(** ** Shares *)

Definition calculateWeight (nowTime : Z) (tokens : Dec) (height : Z) : outcome Dec :=
  if HigherThanVenus6 height then Dec_MulInt64 tokens fixedWeight
  else
    let nowWeek := Z.quot (nowTime - blockTimestampEpoch) secondsPerWeek in
    weightByDec ← NewDecFromStr (weightOfWeek nowWeek);
    Dec_Mul tokens weightByDec.
Definition BlockUnix (ctx : Ctx) : Z := BlockTime ctx / nanosPerSecond.

Definition GetLastValsAddedSharesExisted (delAddr : string) : M (StakingState K) (list Validator * Dec) :=
  d ← GetDelegator delAddr;
  match d with
  | None => mret ([], ZeroDec)
  | Some d =>
      vals ← gets (λ s, omap (λ a, vs_validators (sg_vals s) !! a) (De_ValidatorAddresses d));
      mret (vals, De_Shares d)
  end.
Fixpoint GetValidatorsToAddShares (valAddrs : list string) : M (StakingState K) (list Validator) :=
  match valAddrs with
  | [] => mret []
  | a :: l =>
      o ← GetValidator a;
      match o with
      | None => fail "ErrNoValidatorFound"
      | Some v => vals ← GetValidatorsToAddShares l; mret (v :: vals)
      end
  end.

Definition updateShares_step (delAddr : string) (lastShares shares : Dec) (v : Validator)
    : M (StakingState K) unit :=
  _ ← guard_not (Dec_IsZero (Va_MinSelfDelegation v)) "ErrAddSharesToDismission";
  _ ← DeleteValidatorByPowerIndex v;
  _ ← SetShares delAddr (Va_OperatorAddress v) shares;
  x ← lift (Dec_Sub (Va_DelegatorShares v) lastShares);
  x ← lift (Dec_Add x shares);
  _ ← SetValidator (va_set_shares x v);
  SetValidatorByPowerIndex (va_set_shares x v).
Definition UpdateShares (ctx : Ctx) (delAddr : string) (tokens : Dec) : M (StakingState K) unit :=
  '(vals, lastShares) ← GetLastValsAddedSharesExisted delAddr;
  if (length vals =? 0)%nat then mret () else
  let delegatorValAddresses := Va_OperatorAddress <$> vals in
  _ ← call_hook ctx (BeforeDelegationSharesModified delAddr delegatorValAddresses);
  shares ← lift (calculateWeight (BlockUnix ctx) tokens (BlockHeight ctx));
  d ← GetDelegator delAddr;
  match d with
  | None => fail "ErrNoDelegatorExisted"
  | Some d =>
      _ ← for_each (updateShares_step delAddr lastShares shares) vals;
      _ ← SetDelegator (de_set_shares shares d);
      call_hook ctx (AfterDelegationModified (De_DelegatorAddress d) delegatorValAddresses)
  end.

Definition addShares (delAddr : string) (shares : Dec) (v : Validator) : M (StakingState K) unit :=
  _ ← SetShares delAddr (Va_OperatorAddress v) shares;
  _ ← DeleteValidatorByPowerIndex v;
  x ← lift (Dec_Add (Va_DelegatorShares v) shares);
  _ ← SetValidator (va_set_shares x v);
  SetValidatorByPowerIndex (va_set_shares x v).
Definition AddSharesToValidators (ctx : Ctx) (delAddr : string) (vals : list Validator) (tokens : Dec)
    : M (StakingState K) Dec :=
  shares ← lift (calculateWeight (BlockUnix ctx) tokens (BlockHeight ctx));
  _ ← for_each (addShares delAddr shares) vals;
  mret shares.
Definition withdrawShares (ctx : Ctx) (delAddr : string) (shares : Dec) (v : Validator)
    : M (StakingState K) unit :=
  _ ← DeleteShares (Va_OperatorAddress v) delAddr;
  _ ← DeleteValidatorByPowerIndex v;
  x ← lift (Dec_Sub (Va_DelegatorShares v) shares);
  let v := va_set_shares x v in
  if IsUnbonded v && Dec_IsZero (Va_MinSelfDelegation v) && Dec_IsZero (Va_DelegatorShares v)
  then RemoveValidator ctx (Va_OperatorAddress v)
  else
    _ ← SetValidator v;
    SetValidatorByPowerIndex v.
Definition WithdrawLastShares (ctx : Ctx) (delAddr : string) (vals : list Validator) (lastShares : Dec)
    : M (StakingState K) unit :=
  _ ← (if (0 <? length vals)%nat
       then call_hook ctx (BeforeDelegationSharesModified delAddr (Va_OperatorAddress <$> vals))
       else mret ());
  for_each (withdrawShares ctx delAddr lastShares) vals.

(** ** Deposits, proxies and withdrawals *)

Definition UpdateProxy (ctx : Ctx) (d : Delegator) (tokens : Dec) : M (StakingState K) unit :=
  if negb (HasProxy d) then mret () else
  o ← GetDelegator (De_ProxyAddress d);
  match o with
  | None => fail "ErrInvalidAddress"
  | Some proxy =>
      x ← lift (Dec_Add (De_TotalDelegatedTokens proxy) tokens);
      let proxy := de_set_total x proxy in
      _ ← guard_not (Dec_LT (De_TotalDelegatedTokens proxy) ZeroDec) "ErrInvalidProxyUpdating";
      finalTokens ← lift (Dec_Add (De_TotalDelegatedTokens proxy) (De_Tokens proxy));
      _ ← SetDelegator proxy;
      UpdateShares ctx (De_DelegatorAddress proxy) finalTokens
  end.

(** The tokens a delegator votes with. *)
Definition finalTokensOf (d : Delegator) : outcome Dec :=
  if De_IsProxy d then Dec_Add (De_Tokens d) (De_TotalDelegatedTokens d) else Ok (De_Tokens d).

Definition Delegate (ctx : Ctx) (delAddr : string) (token : DecCoin) : M (StakingState K) unit :=
  minDelLimit ← gets (λ s, Sp_MinDelegation (sg_params s));
  _ ← guard_not (Dec_LT (Amount token) minDelLimit) "ErrInsufficientQuantity";
  _ ← on_keeper (ck_DelegateCoinsFromAccountToModule delAddr BondedPoolName [token]);
  o ← GetDelegator delAddr;
  let d := default (NewDelegator delAddr) o in
  x ← lift (Dec_Add (De_Tokens d) (Amount token));
  let d := de_set_tokens x d in
  _ ← SetDelegator d;
  if HasProxy d then UpdateProxy ctx d (Amount token)
  else
    finalTokens ← lift (finalTokensOf d);
    UpdateShares ctx (De_DelegatorAddress d) finalTokens.

Definition bondedTokensToNotBonded (token : DecCoin) : M (StakingState K) unit :=
  coins ← lift (DecCoin_ToCoins token);
  orPanic (on_keeper (ck_SendCoinsFromModuleToModule BondedPoolName NotBondedPoolName coins)).

Definition Withdraw (ctx : Ctx) (delAddr : string) (token : DecCoin) : M (StakingState K) Z :=
  o ← GetDelegator delAddr;
  match o with
  | None => fail "ErrNoDelegationToAddShares"
  | Some d =>
      minDelLimit ← gets (λ s, Sp_MinDelegation (sg_params s));
      let quantity := Amount token in
      _ ← guard_not (Dec_LT quantity minDelLimit) "ErrInsufficientQuantity";
      _ ← guard_not (Dec_LT (De_Tokens d) quantity) "ErrInsufficientDelegation";
      leftTokens ← lift (Dec_Sub (De_Tokens d) quantity);
      _ ← guard_not (De_IsProxy d && Dec_IsZero leftTokens) "ErrInvalidProxyWithdrawTotal";
      _ ← bondedTokensToNotBonded token;
      _ ← (if HasProxy d then
             minus ← lift (NewDec (-1));
             x ← lift (Dec_Mul quantity minus);
             UpdateProxy ctx d x
           else mret ());
      _ ← (if Dec_IsZero leftTokens then
             '(lastVals, lastShares) ← GetLastValsAddedSharesExisted delAddr;
             _ ← WithdrawLastShares ctx delAddr lastVals lastShares;
             _ ← (if HasProxy d then SetProxyBinding (De_ProxyAddress d) delAddr true else mret ());
             DeleteDelegator delAddr
           else
             let d := de_set_tokens leftTokens d in
             _ ← SetDelegator d;
             if HasProxy d then mret ()
             else
               finalTokens ← lift (finalTokensOf d);
               UpdateShares ctx (De_DelegatorAddress d) finalTokens);
      unbonding ← gets (λ s, Sp_UnbondingTime (sg_params s));
      let completionTime := BlockTime ctx + unbonding in
      o ← GetUndelegating delAddr;
      _ ← (match o with
           | None => SetUndelegating (mkUndelegation delAddr quantity completionTime)
           | Some u =>
               _ ← DeleteAddrByTimeKey (Ud_CompletionTime u) delAddr;
               q ← lift (Dec_Add (Ud_Quantity u) quantity);
               SetUndelegating (mkUndelegation (Ud_DelegatorAddress u) q completionTime)
           end);
      _ ← SetAddrByTimeKeyWithNilValue completionTime delAddr;
      mret completionTime
  end.

Definition CompleteUndelegation (delAddr : string) : M (StakingState K) Dec :=
  o ← GetUndelegating delAddr;
  match o with
  | None => fail "ErrNotInDelegating"
  | Some u =>
      coin ← lift (NewDecCoinFromDec DefaultBondDenom (Ud_Quantity u));
      _ ← on_keeper (ck_UndelegateCoinsFromModuleToAccount NotBondedPoolName
                       (Ud_DelegatorAddress u) [coin]);
      _ ← DeleteUndelegating delAddr;
      mret (Ud_Quantity u)
  end.

(** The delegators bound to a proxy, in the order of their keys. *)
Definition GetDelegatorsByProxy (proxyAddr : string) (s : StakingState K) : list string :=
  merge_sort (λ a b, ¬ str_lt b a)
    (omap (λ x, if String.eqb x.1 proxyAddr then Some x.2 else None) (elements (st_proxies (sg_stakes s)))).
Definition ClearProxy (proxyAddr : string) : M (StakingState K) unit :=
  delAddrs ← gets (GetDelegatorsByProxy proxyAddr);
  for_each (λ delAddr,
    o ← GetDelegator delAddr;
    _ ← (match o with Some d => SetDelegator (UnbindProxy d) | None => mret () end);
    SetProxyBinding proxyAddr delAddr true) delAddrs.

(** ** The deposit of a validator *)

Definition getSharesFromDefaultMinSelfDelegation : Dec := OneDec.

Definition addSharesAsDefaultMinSelfDelegation (v : Validator) : M (StakingState K) Validator :=
  _ ← DeleteValidatorByPowerIndex v;
  x ← lift (Dec_Add (Va_DelegatorShares v) getSharesFromDefaultMinSelfDelegation);
  let v := va_set_shares x v in
  _ ← SetValidator v;
  _ ← SetValidatorByPowerIndex v;
  mret v.
Definition AddSharesAsMinSelfDelegation (delAddr : string) (v : Validator) (defaultMSDToken : DecCoin)
    : M (StakingState K) Validator :=
  _ ← on_keeper (ck_DelegateCoinsFromAccountToModule delAddr BondedPoolName [defaultMSDToken]);
  addSharesAsDefaultMinSelfDelegation v.

(** The undelegation of the deposit is written over one that is pending. *)
Definition WithdrawMinSelfDelegation (ctx : Ctx) (delAddr : string) (v : Validator)
    : M (StakingState K) Z :=
  _ ← guard_not (Dec_IsZero (Va_MinSelfDelegation v)) "ErrNoMinSelfDelegation";
  remainShares ← lift (Dec_Sub (Va_DelegatorShares v) getSharesFromDefaultMinSelfDelegation);
  _ ← guard_not (Dec_LT remainShares ZeroDec) "ErrMoreMinSelfDelegation";
  token ← lift (NewDecCoinFromDec DefaultBondDenom (Va_MinSelfDelegation v));
  _ ← bondedTokensToNotBonded token;
  unbonding ← gets (λ s, Sp_UnbondingTime (sg_params s));
  let completionTime := BlockTime ctx + unbonding in
  _ ← SetUndelegating (mkUndelegation delAddr (Va_MinSelfDelegation v) completionTime);
  _ ← SetAddrByTimeKeyWithNilValue completionTime delAddr;
  let v := va_set_jailed true (va_set_msd ZeroDec v) in
  _ ← call_hook ctx (AfterValidatorDestroyed (ConsAddress v) (Va_OperatorAddress v));
  let kickOut :=
    _ ← DeleteValidatorByPowerIndex v;
    _ ← SetValidator (va_set_shares remainShares v);
    mret completionTime in
  match Va_Status v with
  | Bonded => _ ← AppendAbandonedValidatorAddrs (ConsAddress v); kickOut
  | Unbonding => kickOut
  | Unbonded =>
      if Dec_IsZero remainShares && Dec_IsZero (Va_MinSelfDelegation v)
      then _ ← RemoveValidator ctx (Va_OperatorAddress v); mret completionTime
      else kickOut
  end.

(** ** The validator set *)

Definition bondValidator (ctx : Ctx) (v : Validator) : M (StakingState K) Validator :=
  _ ← DeleteValidatorByPowerIndex v;
  let v := UpdateStatus v Bonded in
  _ ← SetValidator v;
  _ ← SetValidatorByPowerIndex v;
  _ ← DeleteValidatorQueue v;
  _ ← call_hook ctx (AfterValidatorBonded (ConsAddress v) (Va_OperatorAddress v));
  mret v.
Definition beginUnbondingValidator (ctx : Ctx) (v : Validator) : M (StakingState K) Validator :=
  unbonding ← gets (λ s, Sp_UnbondingTime (sg_params s));
  _ ← DeleteValidatorByPowerIndex v;
  _ ← panic_if (negb (IsBonded v)) "should not already be unbonded or unbonding";
  let v := va_set_unbonding (BlockHeight ctx) (BlockTime ctx + unbonding) (UpdateStatus v Unbonding) in
  _ ← SetValidator v;
  _ ← SetValidatorByPowerIndex v;
  _ ← InsertValidatorQueue v;
  _ ← call_hook ctx (AfterValidatorBeginUnbonding (ConsAddress v) (Va_OperatorAddress v));
  mret v.
Definition completeUnbondingValidator (v : Validator) : M (StakingState K) Validator :=
  let v := UpdateStatus v Unbonded in
  _ ← SetValidator v; mret v.

Definition bondedToUnbonding (ctx : Ctx) (v : Validator) : M (StakingState K) Validator :=
  _ ← panic_if (negb (IsBonded v)) "bad state transition bondedToUnbonding";
  beginUnbondingValidator ctx v.
Definition unbondingToBonded (ctx : Ctx) (v : Validator) : M (StakingState K) Validator :=
  _ ← panic_if (negb (IsUnbonding v)) "bad state transition unbondingToBonded";
  bondValidator ctx v.
Definition unbondedToBonded (ctx : Ctx) (v : Validator) : M (StakingState K) Validator :=
  _ ← panic_if (negb (IsUnbonded v)) "bad state transition unbondedToBonded";
  bondValidator ctx v.
Definition unbondingToUnbonded (v : Validator) : M (StakingState K) Validator :=
  _ ← panic_if (negb (IsUnbonding v)) "bad state transition unbondingToBonded";
  completeUnbondingValidator v.

Definition jailValidator (v : Validator) : M (StakingState K) unit :=
  _ ← panic_if (Va_Jailed v) "cannot jail already jailed validator";
  _ ← SetValidator (va_set_jailed true v);
  DeleteValidatorByPowerIndex (va_set_jailed true v).
Definition unjailValidator (v : Validator) : M (StakingState K) unit :=
  _ ← panic_if (negb (Va_Jailed v)) "cannot unjail already unjailed validator";
  _ ← SetValidator (va_set_jailed false v);
  SetValidatorByPowerIndex (va_set_jailed false v).
Definition Jail (consAddr : string) : M (StakingState K) unit :=
  v ← mustGetValidatorByConsAddr consAddr; jailValidator v.
Definition Unjail (consAddr : string) : M (StakingState K) unit :=
  v ← mustGetValidatorByConsAddr consAddr; unjailValidator v.

(** The addresses in the power index, from the highest key down. *)
Definition powerIndexReverse (s : StakingState K) : list string :=
  snd <$> reverse (store_iterate (vs_powerIndex (sg_vals s))).

Definition sortNoLongerBonded (last : gmap string Z) : list string := fst <$> store_iterate last.

(** The loop over the power index: [room] is what is left of the maximum,
    [last] what is left of the old set. *)
Fixpoint electLoop (ctx : Ctx) (addrs : list string) (room : nat) (last : gmap string Z)
    (updates : list ValidatorUpdate) (totalPower : Int)
    : M (StakingState K) (gmap string Z * list ValidatorUpdate * Int) :=
  match addrs, room with
  | valAddr :: addrs, S room =>
      v ← mustGetValidator valAddr;
      _ ← panic_if (Va_Jailed v) "should never retrieve a jailed validator from the power store";
      if PotentialConsensusPowerByShares v =? 0 then mret (last, updates, totalPower)
      else
        v ← (match Va_Status v with
             | Unbonded => unbondedToBonded ctx v
             | Unbonding => unbondingToBonded ctx v
             | Bonded => mret v
             end);
        let newPower := ConsensusPowerByShares v in
        updates ← (if bool_decide (last !! valAddr = Some newPower) then mret updates
                   else
                     _ ← SetLastValidatorPower valAddr newPower;
                     mret (updates ++ [ABCIValidatorUpdateByShares v]));
        totalPower ← lift (Int_Add totalPower newPower);
        electLoop ctx addrs room (delete valAddr last) updates totalPower
  | _, _ => mret (last, updates, totalPower)
  end.
Definition unbond_step (ctx : Ctx) (updates : list ValidatorUpdate) (valAddr : string)
    : M (StakingState K) (list ValidatorUpdate) :=
  v ← mustGetValidator valAddr;
  v ← bondedToUnbonding ctx v;
  _ ← DeleteLastValidatorPower (Va_OperatorAddress v);
  mret (updates ++ [ABCIValidatorUpdateZero v]).
Definition ApplyAndReturnValidatorSetUpdates (ctx : Ctx) : M (StakingState K) (list ValidatorUpdate) :=
  maxValidators ← gets (λ s, Sp_MaxValidators (sg_params s));
  last ← gets (λ s, vs_lastPowers (sg_vals s));
  addrs ← gets powerIndexReverse;
  '(last, updates, totalPower) ← electLoop ctx addrs (Z.to_nat maxValidators) last [] 0;
  updates ← for_acc (unbond_step ctx) updates (sortNoLongerBonded last);
  _ ← (if (0 <? length updates)%nat then SetLastTotalPower totalPower else mret ());
  mret updates.

Fixpoint promoteLoop (ctx : Ctx) (addrs : list string) (abandonedNum : nat) (last : gmap string Z)
    (updates : list ValidatorUpdate) (totalPower : Int)
    : M (StakingState K) (list ValidatorUpdate * Int) :=
  match addrs, abandonedNum with
  | valAddr :: addrs, S num =>
      if bool_decide (is_Some (last !! valAddr))
      then promoteLoop ctx addrs abandonedNum last updates totalPower
      else
        v ← mustGetValidator valAddr;
        if PotentialConsensusPowerByShares v =? 0
        then promoteLoop ctx addrs abandonedNum last updates totalPower
        else
          v ← (match Va_Status v with
               | Unbonded => unbondedToBonded ctx v
               | Unbonding => unbondingToBonded ctx v
               | Bonded => panic "Panic. Candidate validator is not allowed to be in bonded status"
               end);
          let newPower := ConsensusPowerByShares v in
          _ ← SetLastValidatorPower valAddr newPower;
          totalPower ← lift (Int_Add totalPower newPower);
          promoteLoop ctx addrs num last (updates ++ [ABCIValidatorUpdateByShares v]) totalPower
  | _, _ => mret (updates, totalPower)
  end.
Definition discharge_step (ctx : Ctx) (last : gmap string Z) (acc : list ValidatorUpdate * Int)
    (valAddr : string) : M (StakingState K) (list ValidatorUpdate * Int) :=
  let '(updates, totalPower) := acc in
  v ← mustGetValidator valAddr;
  match Va_Status v with
  | Unbonded | Unbonding => mret (updates, totalPower)
  | Bonded =>
      _ ← bondedToUnbonding ctx v;
      _ ← DeleteLastValidatorPower (Va_OperatorAddress v);
      match last !! valAddr with
      | None => panic "Never occur"
      | Some oldPower =>
          totalPower ← lift (Int_Sub totalPower oldPower);
          mret (updates ++ [ABCIValidatorUpdateZero v], totalPower)
      end
  end.
Definition KickOutAndReturnValidatorSetUpdates (ctx : Ctx) : M (StakingState K) (list ValidatorUpdate) :=
  last ← gets (λ s, vs_lastPowers (sg_vals s));
  abandoned ← gets (λ s, vs_abandoned (sg_vals s));
  totalPower ← GetLastTotalPower;
  addrs ← gets powerIndexReverse;
  acc ← promoteLoop ctx addrs (length abandoned) last [] totalPower;
  '(updates, totalPower) ← for_acc (discharge_step ctx last) acc abandoned;
  _ ← SetLastTotalPower totalPower;
  mret updates.

Definition unbondMature (ctx : Ctx) (valAddr : string) : M (StakingState K) unit :=
  o ← GetValidator valAddr;
  match o with
  | None => panic "validator in the unbonding queue was not found"
  | Some v =>
      _ ← panic_if (negb (IsUnbonding v)) "unexpected validator in unbonding queue; status was not unbonding";
      v ← unbondingToUnbonded v;
      if Dec_IsZero (Va_DelegatorShares v) && Dec_IsZero (Va_MinSelfDelegation v)
      then RemoveValidator ctx (Va_OperatorAddress v)
      else mret ()
  end.
(** The time slices up to now, in the order of time. *)
Definition ValidatorQueueIterator (endTime : Z) (s : StakingState K) : list (Z * list string) :=
  base.filter (λ x, x.1 ≤ endTime) (merge_sort time_le (map_to_list (vs_queue (sg_vals s)))).
Definition UnbondAllMatureValidatorQueue (ctx : Ctx) : M (StakingState K) unit :=
  slices ← gets (ValidatorQueueIterator (BlockTime ctx));
  for_each (λ x : Z * list string,
    _ ← for_each (unbondMature ctx) x.2;
    DeleteValidatorQueueTimeSlice x.1) slices.

(** The keys of the undelegation queue up to now, in their order. *)
Definition getAddrByTimeKeyIterator (endTime : Z) (s : StakingState K) : list (Z * string) :=
  base.filter (λ x, x.1 ≤ endTime) (merge_sort time_key_le (elements (st_undelegateQueue (sg_stakes s)))).
Definition completeMature (x : Z * string) : M (StakingState K) unit :=
  _ ← DeleteAddrByTimeKey x.1 x.2;
  logErr (CompleteUndelegation x.2).
Definition staking_EndBlocker (ctx : Ctx) : M (StakingState K) (list ValidatorUpdate) :=
  endOfEpoch ← IsEndOfEpoch ctx;
  kicked ← gets IsKickedOut;
  updates ← (if (endOfEpoch : bool) then
               oldEpoch ← gets GetEpoch;
               newEpoch ← gets (λ s, Sp_Epoch (sg_params s));
               _ ← (if negb (oldEpoch =? newEpoch) then SetEpoch newEpoch else mret ());
               _ ← SetTheEndOfLastEpoch ctx;
               updates ← ApplyAndReturnValidatorSetUpdates ctx;
               _ ← DeleteAbandonedValidatorAddrs;
               mret updates
             else if (kicked : bool) then
               updates ← KickOutAndReturnValidatorSetUpdates ctx;
               _ ← DeleteAbandonedValidatorAddrs;
               mret updates
             else mret []);
  _ ← UnbondAllMatureValidatorQueue ctx;
  keys ← gets (getAddrByTimeKeyIterator (BlockTime ctx));
  _ ← for_each completeMature keys;
  mret updates.

(** ** Handlers *)

Definition handleMsgCreateValidator (ctx : Ctx) (m : MsgCreateValidator) : M (StakingState K) unit :=
  o ← GetValidator (Mc_ValidatorAddress m);
  _ ← guard_not (bool_decide (is_Some o)) "ErrValidatorOwnerExists";
  o ← GetValidatorByConsAddr (pk_Address (Mc_PubKey m));
  _ ← guard_not (bool_decide (is_Some o)) "ErrValidatorPubKeyExists";
  _ ← guard_not (negb (String.eqb (Denom (Mc_MinSelfDelegation m)) DefaultBondDenom)) "ErrBadDenom";
  _ ← lift (EnsureLength (Mc_Description m));
  _ ← (match consensusPubKeyTypes with
       | Some types => guard_not (negb (existsb (String.eqb (Pk_type (Mc_PubKey m))) types))
                         "ErrValidatorPubKeyTypeNotSupported"
       | None => mret ()
       end);
  minSelfDelegation ← gets (λ s, Sp_MinSelfDelegation (sg_params s));
  let v := NewValidator (Mc_ValidatorAddress m) (Mc_PubKey m) (Mc_Description m) minSelfDelegation in
  one ← lift (NewDec 1);
  zero ← lift (NewDec 0);
  v ← lift (SetInitialCommission v (NewCommission one one zero));
  _ ← SetValidator v;
  _ ← SetValidatorByConsAddr v;
  _ ← SetNewValidatorByPowerIndex v;
  token ← lift (NewDecCoinFromDec DefaultBondDenom (Va_MinSelfDelegation v));
  v ← AddSharesAsMinSelfDelegation (Mc_DelegatorAddress m) v token;
  call_hook ctx (AfterValidatorCreated (Va_OperatorAddress v)).

Definition handleMsgEditValidator (description : Description) (validatorAddress : string)
    : M (StakingState K) unit :=
  o ← GetValidator validatorAddress;
  match o with
  | None => fail "ErrNoValidatorFound"
  | Some v =>
      d ← lift (UpdateDescription (Va_Description v) description);
      SetValidator (va_set_description d v)
  end.
Definition handleMsgEditValidatorCommissionRate (ctx : Ctx) (commissionRate : Dec) (validatorAddress : string)
    : M (StakingState K) unit :=
  o ← GetValidator validatorAddress;
  match o with
  | None => fail "ErrNoValidatorFound"
  | Some v =>
      commission ← lift (UpdateValidatorCommission ctx v commissionRate);
      _ ← call_hook ctx (BeforeValidatorModified validatorAddress);
      SetValidator (va_set_commission commission v)
  end.

Definition unbindProxy (ctx : Ctx) (delAddr : string) : M (StakingState K) unit :=
  o ← GetDelegator delAddr;
  match o with
  | None => fail "ErrNoDelegationToAddShares"
  | Some d =>
      p ← GetDelegator (De_ProxyAddress d);
      match p with
      | None => fail "ErrProxyNotFound"
      | Some proxy =>
          minus ← lift (NewDec (-1));
          x ← lift (Dec_Mul (De_Tokens d) minus);
          _ ← replaceErr "ErrInvalidDelegation" (UpdateProxy ctx d x);
          _ ← SetDelegator (UnbindProxy d);
          SetProxyBinding (De_DelegatorAddress proxy) (De_DelegatorAddress d) true
      end
  end.

Definition handleMsgBindProxy (ctx : Ctx) (delAddr proxyAddress : string) : M (StakingState K) unit :=
  o ← GetDelegator delAddr;
  match o with
  | None => fail "ErrNoDelegationToAddShares"
  | Some d =>
      _ ← guard_not (Dec_IsZero (De_Tokens d)) "ErrNoDelegationToAddShares";
      _ ← guard_not (negb (Dec_Equal (De_Shares d) ZeroDec)) "ErrAlreadyAddedShares";
      p ← GetDelegator proxyAddress;
      match p with
      | None => fail "ErrProxyNotFound"
      | Some proxy =>
          _ ← guard_not (Dec_IsZero (De_Tokens proxy)) "ErrProxyNotFound";
          _ ← guard_not (negb (De_IsProxy proxy)) "ErrProxyNotFound";
          _ ← guard_not (De_IsProxy d) "ErrDoubleProxy";
          if HasProxy d && String.eqb (De_ProxyAddress d) (De_DelegatorAddress proxy) then
            updateTokens ← lift (Dec_Add (De_TotalDelegatedTokens proxy) (De_Tokens proxy));
            replaceErr "ErrInvalidDelegation" (UpdateShares ctx (De_DelegatorAddress proxy) updateTokens)
          else
            _ ← (if negb (String.length (De_ProxyAddress d) =? 0)%nat
                 then unbindProxy ctx (De_DelegatorAddress d) else mret ());
            let d := BindProxy proxyAddress d in
            total ← lift (Dec_Add (De_TotalDelegatedTokens proxy) (De_Tokens d));
            let proxy := de_set_total total proxy in
            _ ← SetDelegator d;
            _ ← SetDelegator proxy;
            _ ← SetProxyBinding (De_DelegatorAddress proxy) (De_DelegatorAddress d) false;
            finalTokens ← lift (Dec_Add (De_TotalDelegatedTokens proxy) (De_Tokens proxy));
            replaceErr "ErrInvalidDelegation" (UpdateShares ctx (De_DelegatorAddress proxy) finalTokens)
      end
  end.

Definition regProxy (ctx : Ctx) (proxyAddr : string) : M (StakingState K) unit :=
  o ← GetDelegator proxyAddr;
  match o with
  | None => fail "ErrNoDelegationToAddShares"
  | Some proxy =>
      _ ← guard_not (De_IsProxy proxy) "ErrProxyAlreadyExist";
      _ ← guard_not (negb (String.length (De_ProxyAddress proxy) =? 0)%nat) "ErrAlreadyBound";
      let proxy := RegProxy true proxy in
      _ ← SetDelegator proxy;
      replaceErr "ErrInvalidDelegation" (UpdateShares ctx (De_DelegatorAddress proxy) (De_Tokens proxy))
  end.
Definition unregProxy (ctx : Ctx) (proxyAddr : string) : M (StakingState K) unit :=
  o ← GetDelegator proxyAddr;
  match o with
  | None => fail "ErrProxyNotFound"
  | Some proxy =>
      _ ← guard_not (negb (De_IsProxy proxy)) "ErrProxyNotFound";
      let proxy := de_set_total ZeroDec (RegProxy false proxy) in
      _ ← ClearProxy (De_DelegatorAddress proxy);
      _ ← SetDelegator proxy;
      replaceErr "ErrInvalidDelegation" (UpdateShares ctx (De_DelegatorAddress proxy) (De_Tokens proxy))
  end.
Definition handleRegProxy (ctx : Ctx) (proxyAddress : string) (reg : bool) : M (StakingState K) unit :=
  if reg then regProxy ctx proxyAddress else unregProxy ctx proxyAddress.

Definition isDismissed (vals : list Validator) : bool :=
  existsb (λ v, Dec_IsZero (Va_MinSelfDelegation v)) vals.
Definition validateSharesAdding (vals : list Validator) : outcome unit :=
  if (length vals =? 0)%nat then Err (E "ErrEmptyValidators")
  else if isDismissed vals then Err (E "ErrAddSharesToDismission")
  else Ok ().

Definition handleMsgAddShares (ctx : Ctx) (delAddr : string) (valAddrs : list string)
    : M (StakingState K) unit :=
  maxValsToAddShares ← gets (λ s, Sp_MaxValsToAddShares (sg_params s));
  _ ← guard_not (length valAddrs =? 0)%nat "ErrEmptyValidators";
  _ ← guard_not (Z.of_nat (length valAddrs) >? maxValsToAddShares) "ErrExceedValidatorAddrs";
  o ← GetDelegator delAddr;
  match o with
  | None => fail "ErrNoDelegationToAddShares"
  | Some d =>
      _ ← guard_not (Dec_IsZero (De_Tokens d)) "ErrNoDelegationToAddShares";
      _ ← guard_not (HasProxy d) "ErrAddSharesDuringProxy";
      '(lastVals, lastShares) ← GetLastValsAddedSharesExisted delAddr;
      _ ← WithdrawLastShares ctx delAddr lastVals lastShares;
      vals ← GetValidatorsToAddShares valAddrs;
      _ ← lift (validateSharesAdding vals);
      totalTokens ← lift (Dec_Add (De_Tokens d) (De_TotalDelegatedTokens d));
      let delegatorValAddresses := Va_OperatorAddress <$> vals in
      _ ← call_hook ctx (BeforeDelegationCreated delAddr delegatorValAddresses);
      shares ← AddSharesToValidators ctx delAddr vals totalTokens;
      let d := de_set_shares shares (de_set_vals delegatorValAddresses d) in
      _ ← SetDelegator d;
      call_hook ctx (AfterDelegationModified delAddr (De_ValidatorAddresses d))
  end.

Definition handleMsgDeposit (ctx : Ctx) (delegatorAddress : string) (amount : DecCoin)
    : M (StakingState K) unit :=
  _ ← guard_not (negb (String.eqb (Denom amount) DefaultBondDenom)) "ErrBadDenom";
  Delegate ctx delegatorAddress amount.
Definition handleMsgWithdraw (ctx : Ctx) (delegatorAddress : string) (amount : DecCoin)
    : M (StakingState K) unit :=
  _ ← guard_not (negb (String.eqb (Denom amount) DefaultBondDenom)) "ErrBadDenom";
  _ ← Withdraw ctx delegatorAddress amount;
  mret ().
Definition handleMsgDestroyValidator (ctx : Ctx) (delAddr : string) : M (StakingState K) unit :=
  o ← GetValidator delAddr;
  match o with
  | None => fail "ErrNoValidatorFound"
  | Some v => _ ← WithdrawMinSelfDelegation ctx delAddr v; mret ()
  end.

Definition staking_NewHandler (ctx : Ctx) (msg : StakingMsg) : M (StakingState K) unit :=
  enabled ← gets (CheckEnabled ctx);
  _ ← guard_not (HigherThanVenus2 (BlockHeight ctx) && negb enabled) "ErrCodeDisabledOperate";
  match msg with
  | MsgCreateValidator_ m => handleMsgCreateValidator ctx m
  | MsgEditValidator description addr => handleMsgEditValidator description addr
  | MsgEditValidatorCommissionRate rate addr =>
      if HigherThanVenus2 (BlockHeight ctx) then handleMsgEditValidatorCommissionRate ctx rate addr
      else fail "ErrUnknownRequest"
  | MsgDeposit addr amount => handleMsgDeposit ctx addr amount
  | MsgWithdraw addr amount => handleMsgWithdraw ctx addr amount
  | MsgAddShares addr valAddrs => handleMsgAddShares ctx addr valAddrs
  | MsgBindProxy addr proxy => handleMsgBindProxy ctx addr proxy
  | MsgUnbindProxy addr => unbindProxy ctx addr
  | MsgRegProxy addr reg => handleRegProxy ctx addr reg
  | MsgDestroyValidator addr => handleMsgDestroyValidator ctx addr
  end.

(** ** The registered invariants

    Each tells whether it is broken. *)

Fixpoint sumDecs (acc : Dec) (l : list Dec) : outcome Dec :=
  match l with [] => Ok acc | x :: l => acc ← Dec_Add acc x; sumDecs acc l end.

Definition GetAllValidators (s : StakingState K) : list Validator :=
  snd <$> store_iterate (vs_validators (sg_vals s)).
(** The shares added to a validator, in the order of their keys. *)
Definition GetValidatorAllShares (valAddr : string) (s : StakingState K) : list (string * Dec) :=
  merge_sort key_le
    (omap (λ x : (string * string) * Dec, if String.eqb x.1.1 valAddr then Some (x.1.2, x.2) else None)
       (map_to_list (st_shares (sg_stakes s)))).

Fixpoint DelegatorAddSharesInvariant_loop (s : StakingState K) (vals : list Validator) : outcome bool :=
  match vals with
  | [] => Ok false
  | v :: vals =>
      totalShares ← sumDecs
        (if Dec_Equal (Va_MinSelfDelegation v) ZeroDec && Va_Jailed v then ZeroDec
         else getSharesFromDefaultMinSelfDelegation)
        (snd <$> GetValidatorAllShares (Va_OperatorAddress v) s);
      rest ← DelegatorAddSharesInvariant_loop s vals;
      Ok (negb (Dec_Equal (Va_DelegatorShares v) totalShares) || rest)
  end.
Definition DelegatorAddSharesInvariant (s : StakingState K) : outcome bool :=
  DelegatorAddSharesInvariant_loop s (GetAllValidators s).

Definition PositiveDelegatorInvariant (s : StakingState K) : bool :=
  existsb (λ d, Dec_IsNegative (De_Tokens d) || Dec_IsZero (De_Tokens d))
    (snd <$> store_iterate (st_delegators (sg_stakes s))).

Fixpoint NonNegativePowerInvariant_loop (s : StakingState K) (l : list (string * string)) : outcome bool :=
  match l with
  | [] => Ok false
  | (key, addr) :: l =>
      match vs_validators (sg_vals s) !! addr with
      | None => Panic "validator record not found for address"
      | Some v =>
          rest ← NonNegativePowerInvariant_loop s l;
          Ok (negb (String.eqb key (getValidatorPowerRank v))
              || Dec_IsNegative (Va_DelegatorShares v) || rest)
      end
  end.
Definition NonNegativePowerInvariantCustom (s : StakingState K) : outcome bool :=
  NonNegativePowerInvariant_loop s (reverse (store_iterate (vs_powerIndex (sg_vals s)))).

(** The coins of the two pools are arguments: the code reads them from the
    module accounts. *)
Definition ModuleAccountInvariantsCustom (bondedPool notBondedPool : list DecCoin) (s : StakingState K)
    : outcome bool :=
  bonded ← sumDecs ZeroDec (Va_MinSelfDelegation <$> GetAllValidators s);
  bonded ← sumDecs bonded ((De_Tokens ∘ snd) <$> store_iterate (st_delegators (sg_stakes s)));
  notBonded ← sumDecs ZeroDec ((Ud_Quantity ∘ snd) <$> store_iterate (st_undelegations (sg_stakes s)));
  poolBonded ← DecCoins_AmountOf bondedPool DefaultBondDenom;
  poolNotBonded ← DecCoins_AmountOf notBondedPool DefaultBondDenom;
  Ok (negb (Dec_Equal poolBonded bonded) || negb (Dec_Equal poolNotBonded notBonded)).

End StakingKeeper.
