(* ===== verification/StakingVals.v ===== *)
(** * Staking: the key of the power index, and validators

    The order of the bytes of a key of the power index, the invariant of
    validators and their indices, and how the writes of the keeper to them
    preserve it. *)
From Stdlib Require Import Ascii.
From S2P Require Import Prelude Decimal Denom Coins Bank CoinKeeper DecStr Staking.
#[local] Open Scope Z_scope.

Lemma orPanic_Ok {S A} (m : M S A) a s s' : orPanic m s = (Ok a, s') → m s = (Ok a, s').
Proof. unfold orPanic. by destruct (m s) as [[?|?|?] ?]. Qed.
Lemma replaceErr_Ok {S A} name (m : M S A) a t t' : replaceErr name m t = (Ok a, t') ↔ m t = (Ok a, t').
Proof. unfold replaceErr. destruct (m t) as [[?|?|?] ?]; naive_solver. Qed.

(** ** Bytes *)

Lemma ascii_of_N_small n : (n < 256)%N → N_of_ascii (ascii_of_N n) = n.
Proof. apply N_ascii_embedding. Qed.
Lemma N_of_ascii_small c : (N_of_ascii c < 256)%N.
Proof. apply N_ascii_bounded. Qed.

Lemma compare_cons a b u w :
  String.compare (String a u) (String b w)
  = match N.compare (N_of_ascii a) (N_of_ascii b) with Eq => String.compare u w | c => c end.
Proof. cbn. unfold Ascii.compare. by destruct (N.compare _ _). Qed.

Lemma app_cons a u w : String a u +:+ w = String a (u +:+ w).
Proof. done. Qed.

Lemma div_mod_digit x (k n : nat) :
  (k < n)%nat → (x mod 256 ^ Z.of_nat n) / 256 ^ Z.of_nat k mod 256 = x / 256 ^ Z.of_nat k mod 256.
Proof.
  intros Hk. replace (Z.of_nat n) with (Z.of_nat k + (1 + Z.of_nat (n - k - 1))) by lia.
  rewrite !Z.pow_add_r by lia. rewrite Z.pow_1_r.
  set (a := 256 ^ Z.of_nat k). set (b := 256 ^ Z.of_nat (n - k - 1)).
  assert (0 < a) by (apply Z.pow_pos_nonneg; lia). assert (0 < b) by (apply Z.pow_pos_nonneg; lia).
  rewrite Z.rem_mul_r by lia. rewrite (Z.mul_comm a), Z.div_add by lia.
  rewrite (Z.div_small (x mod a)) by (apply Z.mod_pos_bound; lia). rewrite Z.add_0_l.
  rewrite Z.rem_mul_r by lia. rewrite Z.mul_comm, Z.mod_add by lia. apply Z.mod_mod. lia.
Qed.

Lemma bigEndian_mod n m x : (n ≤ m)%nat → bigEndian n (x mod 256 ^ Z.of_nat m) = bigEndian n x.
Proof.
  revert m. induction n as [|n IH]; intros m Hm; [done|]. cbn [bigEndian].
  rewrite div_mod_digit by lia. by rewrite IH by lia.
Qed.

Lemma bigEndian_length n x : String.length (bigEndian n x) = n.
Proof. induction n as [|n IH]; cbn; [done|by rewrite IH]. Qed.

(** Numbers compare like their big-endian bytes. *)
Lemma bigEndian_compare n x y u w :
  0 ≤ x < 256 ^ Z.of_nat n → 0 ≤ y < 256 ^ Z.of_nat n →
  String.compare (bigEndian n x +:+ u) (bigEndian n y +:+ w)
  = match x ?= y with Eq => String.compare u w | c => c end.
Proof.
  revert x y. induction n as [|n IH]; intros x y Hx Hy.
  - cbn in *. assert (x = 0) as -> by lia. assert (y = 0) as -> by lia. done.
  - cbn [bigEndian]. rewrite !app_cons, compare_cons.
    set (b := 256 ^ Z.of_nat n) in *. assert (0 < b) by (apply Z.pow_pos_nonneg; lia).
    assert (256 ^ Z.of_nat (S n) = 256 * b) as Eb.
    { unfold b. rewrite Nat2Z.inj_succ, Z.pow_succ_r by lia. done. }
    rewrite Eb in Hx, Hy.
    assert (∀ z, 0 ≤ z < 256 * b → 0 ≤ z / b < 256) as Hd.
    { intros z Hz. split; [apply Z.div_pos; lia|]. apply Z.div_lt_upper_bound; lia. }
    rewrite !(Z.mod_small (_ / b)) by auto. rewrite !ascii_of_N_small by (pose proof (Hd x Hx); pose proof (Hd y Hy); lia).
    rewrite Z2N.inj_compare by apply Hd, Hx || apply Hd, Hy.
    pose proof (Z.div_mod x b ltac:(lia)) as Ex. pose proof (Z.div_mod y b ltac:(lia)) as Ey.
    pose proof (Z.mod_pos_bound x b ltac:(lia)). pose proof (Z.mod_pos_bound y b ltac:(lia)).
    rewrite <- (bigEndian_mod n n x), <- (bigEndian_mod n n y) by lia. fold b.
    destruct (Z.compare_spec (x / b) (y / b)) as [E|L|L].
    + rewrite IH by (unfold b in *; lia). rewrite E in Ex.
      destruct (Z.compare_spec (x mod b) (y mod b)), (Z.compare_spec x y); done || nia.
    + destruct (Z.compare_spec x y); done || nia.
    + destruct (Z.compare_spec x y); done || nia.
Qed.

Lemma invertBytes_length u : String.length (invertBytes u) = String.length u.
Proof. induction u as [|c u IH]; cbn; [done|by rewrite IH]. Qed.

Lemma invertBytes_compare u w :
  String.length u = String.length w →
  String.compare (invertBytes u) (invertBytes w) = String.compare w u.
Proof.
  revert w. induction u as [|a u IH]; intros [|b w] Hl; try done. cbn [invertBytes].
  rewrite !compare_cons. pose proof (N_of_ascii_small a). pose proof (N_of_ascii_small b).
  rewrite !ascii_of_N_small by lia. rewrite IH by (cbn in Hl; lia).
  destruct (N.compare_spec (255 - N_of_ascii a) (255 - N_of_ascii b)),
    (N.compare_spec (N_of_ascii b) (N_of_ascii a)); done || lia.
Qed.

Lemma invertBytes_inj u w : invertBytes u = invertBytes w → u = w.
Proof.
  intros E. assert (String.length u = String.length w) as L
    by (rewrite <- (invertBytes_length u), <- (invertBytes_length w); by rewrite E).
  symmetry. apply str_compare_Eq. rewrite <- invertBytes_compare by done. by apply str_compare_Eq.
Qed.

Lemma str_app_split u u' w w' :
  String.length u = String.length u' → u +:+ w = u' +:+ w' → u = u' ∧ w = w'.
Proof.
  revert u'. induction u as [|a u IH]; intros [|b u'] Hl E; try done. cbn in *.
  injection E as -> E. injection Hl as Hl. destruct (IH _ Hl E) as [-> ->]. done.
Qed.

(** ** The key of the power index *)

(** The power as the key has it. *)
Definition key_power (v : Validator) : Z := PotentialConsensusPowerByShares v mod 2 ^ 64.

Lemma key_power_range v : 0 ≤ key_power v < 256 ^ Z.of_nat 8.
Proof. unfold key_power. change (256 ^ Z.of_nat 8) with (2 ^ 64). apply Z.mod_pos_bound. lia. Qed.

Lemma rank_inj v w :
  getValidatorPowerRank v = getValidatorPowerRank w → Va_OperatorAddress v = Va_OperatorAddress w.
Proof.
  intros [_ E]%str_app_split; [|by rewrite !bigEndian_length]. by apply invertBytes_inj.
Qed.

Lemma rank_lt v w :
  String.length (Va_OperatorAddress v) = String.length (Va_OperatorAddress w) →
  str_lt (getValidatorPowerRank v) (getValidatorPowerRank w) ↔
  key_power v < key_power w ∨
  (key_power v = key_power w ∧ str_lt (Va_OperatorAddress w) (Va_OperatorAddress v)).
Proof.
  intros Hl. rewrite !str_lt_cmp. unfold getValidatorPowerRank.
  rewrite (bigEndian_compare 8 (key_power v) (key_power w)) by apply key_power_range.
  rewrite invertBytes_compare by done.
  destruct (Z.compare_spec (key_power v) (key_power w)); split; try naive_solver lia.
Qed.

Lemma int64_zero_iff x : int64 x mod 2 ^ 64 = 0 ↔ int64 x = 0.
Proof.
  unfold int64. pose proof (Z.mod_pos_bound (x + 2 ^ 63) (2 ^ 64) ltac:(lia)) as B.
  set (y := (x + 2 ^ 63) mod 2 ^ 64) in *. split; [|by intros ->].
  intros E. apply Z.mod_divide in E as [k Hk]; [|lia]. nia.
Qed.
Lemma key_power_zero v : key_power v = 0 ↔ PotentialConsensusPowerByShares v = 0.
Proof. apply int64_zero_iff. Qed.

(** Only the shares and the address of a validator are in its key. *)
Lemma rank_ext v w :
  Va_DelegatorShares v = Va_DelegatorShares w → Va_OperatorAddress v = Va_OperatorAddress w →
  getValidatorPowerRank v = getValidatorPowerRank w.
Proof. unfold getValidatorPowerRank. by intros -> ->. Qed.

(** ** The invariant of validators *)

(** The share of its own deposit. *)
Definition msd_base (v : Validator) : Z := if Va_MinSelfDelegation v =? 0 then 0 else OneDec.

(** A validator that others gave [n] shares: it has those and its own, only
    a jailed one is without a deposit, and one that nothing holds is gone. *)
Record val_ok (n : Z) (v : Validator) : Prop := {
  vo_shares : Va_DelegatorShares v = n + msd_base v;
  vo_msd : 0 ≤ Va_MinSelfDelegation v;
  vo_jailed : Va_MinSelfDelegation v = 0 → Va_Jailed v = true;
  vo_tokens : Va_Tokens v = 0;
  vo_live : Va_Status v = Unbonded → Va_MinSelfDelegation v = 0 → n ≠ 0;
  vo_rate : 0 ≤ Co_Rate (Va_Commission v) }.

#[global] Instance PubKey_countable : Countable PubKey.
Proof.
  apply (inj_countable' (λ p, (Pk_type p, Pk_bytes p)) (λ x, mkPubKey x.1 x.2)). by intros [].
Defined.

(** The set of the consensus engine, by public key, is the recorded one. *)
Class Engine := engine_set : gmap PubKey Z.
Definition engine_is (V : gmap string Validator) (last : gmap string Z) (E : gmap PubKey Z) : Prop :=
  ∀ pk p, E !! pk = Some p ↔ ∃ a v, V !! a = Some v ∧ Va_ConsPubKey v = pk ∧ last !! a = Some p.

(** A record with the same public key does not change the engine's set. *)
Lemma engine_same V last E a v w :
  engine_is V last E → V !! a = Some v → Va_ConsPubKey w = Va_ConsPubKey v →
  engine_is (<[a := w]> V) last E.
Proof.
  unfold engine_is. intros HE Hv Hp pk p. rewrite HE. split.
  - intros (b & x & Hx & Hpk & Hl). destruct (decide (b = a)) as [->|Hne].
    + exists a, w. rewrite lookup_insert_eq. split_and!; congruence.
    + exists b, x. by rewrite lookup_insert_ne.
  - intros (b & x & [[<- <-]|[Hne Hx]]%lookup_insert_Some & Hpk & Hl); [|by exists b, x].
    exists a, v. split_and!; congruence.
Qed.
Lemma engine_gone V last E a : engine_is V last E → last !! a = None → engine_is (delete a V) last E.
Proof.
  unfold engine_is. intros HE Ha pk p. rewrite HE. split.
  - intros (b & x & Hx & Hpk & Hl). exists b, x. rewrite lookup_delete_ne; [done|congruence].
  - intros (b & x & [_ Hx]%lookup_delete_Some & Hpk & Hl). by exists b, x.
Qed.
Lemma engine_come V last E a w : engine_is V last E → last !! a = None → V !! a = None → engine_is (<[a := w]> V) last E.
Proof.
  unfold engine_is. intros HE Ha Hv pk p. rewrite HE. split.
  - intros (b & x & Hx & Hpk & Hl). exists b, x. rewrite lookup_insert_ne; [done|congruence].
  - intros (b & x & [[<- <-]|[Hne Hx]]%lookup_insert_Some & Hpk & Hl); [congruence|by exists b, x].
Qed.

(** The consensus addresses of validators that may not leave jail before
    the block ends. *)
Class Bans := banned : string → Prop.

Section ValInv.
Context `{cfgV : StakingConfig} `{bansV : !Bans} `{engV : !Engine}.
Implicit Types (V : gmap string Validator) (C I : gmap string string) (f : string → Z).

(** The records and the two indices; [f] is what others gave. *)
Record index_inv f V C I : Prop := {
  ii_key a v : V !! a = Some v → Va_OperatorAddress v = a;
  ii_cons c a : C !! c = Some a ↔ ∃ v, V !! a = Some v ∧ ConsAddress v = c;
  ii_index k a : I !! k = Some a ↔
    ∃ v, V !! a = Some v ∧ Va_Jailed v = false ∧ k = getValidatorPowerRank v;
  ii_val a v : V !! a = Some v → val_ok (f a) v;
  ii_absent a : V !! a = None → f a = 0;
  ii_nonneg a : 0 ≤ f a }.

(** A validator that cannot be let out of jail in this block. *)
Definition kept_out (v : Validator) : Prop := Va_MinSelfDelegation v = 0 ∨ banned (ConsAddress v).
Lemma kept_out_ext v w :
  Va_ConsPubKey w = Va_ConsPubKey v →
  Va_MinSelfDelegation w = Va_MinSelfDelegation v ∨ Va_MinSelfDelegation w = 0 → kept_out v → kept_out w.
Proof.
  intros Ep Em [Hm|Hb]; [left; lia|]. right. unfold ConsAddress in *. by rewrite Ep.
Qed.

(** The bonded set, the queue of those that leave it, and those that were
    kicked out since the last block. *)
Record set_inv V (last : gmap string Z) (total : option Int) (queue : gmap Z (list string))
    (abandoned : list string) (epoch : option Z) : Prop := {
  ei_bonded a : is_Some (last !! a) ↔ ∃ v, V !! a = Some v ∧ Va_Status v = Bonded;
  ei_power a p : last !! a = Some p → p ≠ 0 ∧ - 2 ^ 63 ≤ p < 2 ^ 63;
  ei_total : default 0 total = map_sum id last;
  ei_queue t a : a ∈ default [] (queue !! t) ↔
    ∃ v, V !! a = Some v ∧ Va_Status v = Unbonding ∧ Va_UnbondingCompletionTime v = t;
  ei_nodup t : NoDup (default [] (queue !! t));
  ei_abandoned a : a ∈ abandoned → ∃ v, V !! a = Some v ∧ Va_Status v ≠ Unbonded ∧
    Va_Jailed v = true ∧ kept_out v;
  ei_engine : engine_is V last engine_set;
  ei_epoch : 0 < default DefaultEpoch epoch }.

Definition index_inv_of f (vs : ValSet) : Prop :=
  index_inv f (vs_validators vs) (vs_byConsAddr vs) (vs_powerIndex vs).
Definition set_inv_of (vs : ValSet) : Prop :=
  set_inv (vs_validators vs) (vs_lastPowers vs) (vs_lastTotalPower vs) (vs_queue vs) (vs_abandoned vs)
    (vs_epoch vs).
Definition vals_inv f (vs : ValSet) : Prop := index_inv_of f vs ∧ set_inv_of vs.

(** A record replaced by another with the same address and public key, and
    its key in the power index with it. *)
Lemma index_replace f f' V C I a v w :
  index_inv f V C I → V !! a = Some v →
  Va_OperatorAddress w = a → Va_ConsPubKey w = Va_ConsPubKey v →
  (∀ b, b ≠ a → f' b = f b) → 0 ≤ f' a → val_ok (f' a) w →
  index_inv f' (<[a := w]> V) C
    ((if Va_Jailed w then id else <[getValidatorPowerRank w := a]>) (delete (getValidatorPowerRank v) I)).
Proof.
  intros [Hk Hc Hi Hv Ha Hn] E Hw Hp Hf Hpos Hok. split.
  - intros b x [[<- <-]|[_ Hx]]%lookup_insert_Some; [done|auto].
  - intros c b. rewrite Hc. split.
    + intros (x & Hx & <-). destruct (decide (b = a)) as [->|Hne].
      * exists w. rewrite lookup_insert_eq. split; [done|]. unfold ConsAddress.
        rewrite Hp. congruence.
      * exists x. by rewrite lookup_insert_ne.
    + intros (x & [[<- <-]|[Hne Hx]]%lookup_insert_Some & <-); [|eauto].
      exists v. split; [done|]. unfold ConsAddress. by rewrite Hp.
  - intros k b. assert (∀ k, delete (getValidatorPowerRank v) I !! k = Some b ↔
      b ≠ a ∧ ∃ x, V !! b = Some x ∧ Va_Jailed x = false ∧ k = getValidatorPowerRank x) as Hd.
    { intros k'. rewrite lookup_delete_Some, Hi. split.
      - intros [Hne (x & Hx & Hj & ->)]. split; [|eauto]. intros ->. congruence.
      - intros [Hne (x & Hx & Hj & ->)]. split; [|eauto]. intros Er%rank_inj.
        apply Hk in Hx, E. congruence. }
    destruct (Va_Jailed w) eqn:Hj; unfold id.
    + rewrite Hd. split.
      * intros [Hne (x & Hx & Hjx & ->)]. exists x. rewrite lookup_insert_ne by congruence. done.
      * intros (x & [[<- <-]|[Hne Hx]]%lookup_insert_Some & Hjx & ->); [congruence|eauto].
    + rewrite lookup_insert_Some, Hd. split.
      * intros [[<- <-]|[Hk' [Hne (x & Hx & Hjx & ->)]]].
        -- exists w. by rewrite lookup_insert_eq.
        -- exists x. by rewrite lookup_insert_ne by congruence.
      * intros (x & [[<- <-]|[Hne Hx]]%lookup_insert_Some & Hjx & ->); [by left|]. right.
        split; [|eauto]. intros Er%rank_inj. apply Hk in Hx. congruence.
  - intros b x [[<- <-]|[Hne Hx]]%lookup_insert_Some; [done|]. rewrite Hf by done. auto.
  - intros b [Hb Hne]%lookup_insert_None. rewrite Hf by done. auto.
  - intros b. destruct (decide (b = a)) as [->|Hne]; [done|]. rewrite Hf by done. auto.
Qed.

Lemma index_remove f f' V C I a v :
  index_inv f V C I → V !! a = Some v → (∀ b, b ≠ a → f' b = f b) → f' a = 0 →
  index_inv f' (delete a V) (delete (ConsAddress v) C) (delete (getValidatorPowerRank v) I).
Proof.
  intros [Hk Hc Hi Hv Ha Hn] E Hf H0. split.
  - intros b x [_ Hx]%lookup_delete_Some. auto.
  - intros c b. rewrite lookup_delete_Some, Hc. split.
    + intros [Hne (x & Hx & <-)]. exists x. rewrite lookup_delete_ne; [done|]. intros <-. congruence.
    + intros (x & [Hne Hx]%lookup_delete_Some & <-). split; [|eauto]. intros Ec.
      assert (C !! ConsAddress v = Some a) as H1 by (apply Hc; eauto).
      assert (C !! ConsAddress v = Some b) as H2 by (apply Hc; eauto). congruence.
  - intros k b. rewrite lookup_delete_Some, Hi. split.
    + intros [Hne (x & Hx & Hj & ->)]. exists x. rewrite lookup_delete_ne; [done|]. intros <-. congruence.
    + intros (x & [Hne Hx]%lookup_delete_Some & Hj & ->). split; [|eauto].
      intros Er%rank_inj. apply Hk in Hx, E. congruence.
  - intros b x [Hne Hx]%lookup_delete_Some. rewrite Hf by done. auto.
  - intros b [->|Hb]%lookup_delete_None; [done|]. destruct (decide (b = a)) as [->|Hne]; [done|].
    rewrite Hf by done. auto.
  - intros b. destruct (decide (b = a)) as [->|Hne]; [by rewrite H0|]. rewrite Hf by done. auto.
Qed.

Lemma index_add f V C I a w :
  index_inv f V C I → V !! a = None → C !! ConsAddress w = None →
  Va_OperatorAddress w = a → Va_Jailed w = false → val_ok 0 w →
  index_inv f (<[a := w]> V) (<[ConsAddress w := a]> C) (<[getValidatorPowerRank w := a]> I).
Proof.
  intros [Hk Hc Hi Hv Ha Hn] E Ec Hw Hj Hok. assert (f a = 0) as H0 by auto. split.
  - intros b x [[<- <-]|[_ Hx]]%lookup_insert_Some; [done|auto].
  - intros c b. rewrite lookup_insert_Some, Hc. split.
    + intros [[<- <-]|[Hne (x & Hx & <-)]]; [exists w; by rewrite lookup_insert_eq|].
      exists x. rewrite lookup_insert_ne; [done|congruence].
    + intros (x & [[<- <-]|[Hne Hx]]%lookup_insert_Some & <-); [by left|]. right. split; [|eauto].
      intros Ex. rewrite Ex in Ec. assert (C !! ConsAddress x = Some b) by (apply Hc; eauto). congruence.
  - intros k b. rewrite lookup_insert_Some, Hi. split.
    + intros [[<- <-]|[Hne (x & Hx & Hjx & ->)]]; [exists w; by rewrite lookup_insert_eq|].
      exists x. rewrite lookup_insert_ne; [done|congruence].
    + intros (x & [[<- <-]|[Hne Hx]]%lookup_insert_Some & Hjx & ->); [by left|]. right.
      split; [|eauto]. intros Er%rank_inj. apply Hk in Hx. congruence.
  - intros b x [[<- <-]|[Hne Hx]]%lookup_insert_Some; [by rewrite H0|auto].
  - intros b [Hb Hne]%lookup_insert_None. auto.
  - auto.
Qed.

(** The set does not change with what is not in its invariant. *)
Lemma set_replace V last total queue abandoned epoch a v w :
  set_inv V last total queue abandoned epoch → V !! a = Some v → Va_ConsPubKey w = Va_ConsPubKey v →
  Va_Status w = Va_Status v → Va_UnbondingCompletionTime w = Va_UnbondingCompletionTime v →
  (a ∈ abandoned → Va_Jailed w = true) → (kept_out v → kept_out w) →
  set_inv (<[a := w]> V) last total queue abandoned epoch.
Proof.
  intros [Hb Hp Ht Hq Hn Ha He Hep] E Hpk Hs Hc Hj Hko.
  assert (∀ b (P : Validator → Prop), (P w ↔ P v) →
    (∃ x, <[a := w]> V !! b = Some x ∧ P x) ↔ (∃ x, V !! b = Some x ∧ P x)) as Hx.
  { intros b P HP. destruct (decide (b = a)) as [->|Hne].
    - rewrite lookup_insert_eq, E. naive_solver.
    - by rewrite lookup_insert_ne. }
  split; try done.
  - intros b. rewrite Hb. symmetry. apply Hx. by rewrite Hs.
  - intros t b. rewrite Hq. symmetry. apply Hx. by rewrite Hs, Hc.
  - intros b Hin. destruct (Ha b Hin) as (x & Hx' & Hns & Hjx & Hk). destruct (decide (b = a)) as [->|Hne].
    + exists w. rewrite lookup_insert_eq. rewrite E in Hx'. injection Hx' as <-. split_and!; [done|by rewrite Hs|auto..].
    + exists x. by rewrite lookup_insert_ne.
  - by eapply engine_same.
Qed.

Lemma set_remove V last total queue abandoned epoch a v :
  set_inv V last total queue abandoned epoch → V !! a = Some v → Va_Status v = Unbonded →
  set_inv (delete a V) last total queue abandoned epoch.
Proof.
  intros [Hb Hp Ht Hq Hn Ha He Hep] E Hs.
  assert (∀ b (P : Validator → Prop), (P v → False) →
    (∃ x, delete a V !! b = Some x ∧ P x) ↔ (∃ x, V !! b = Some x ∧ P x)) as Hx.
  { intros b P HP. setoid_rewrite lookup_delete_Some. split; [naive_solver|].
    intros (x & Hx & Px). exists x. split; [|done]. split; [|done]. intros <-. simplify_eq. auto. }
  split; try done.
  - intros b. rewrite Hb. symmetry. apply Hx. by rewrite Hs.
  - intros t b. rewrite Hq. symmetry. apply Hx. rewrite Hs. naive_solver.
  - intros b Hin. destruct (Ha b Hin) as (x & Hx' & Hns & Hjx & Hk). exists x.
    rewrite lookup_delete_ne; [done|]. intros <-. congruence.
  - apply engine_gone; [done|]. apply eq_None_not_Some. intros (x & Hx' & Hsx)%Hb. congruence.
Qed.

Lemma set_add V last total queue abandoned epoch a w :
  set_inv V last total queue abandoned epoch → V !! a = None → Va_Status w = Unbonded →
  set_inv (<[a := w]> V) last total queue abandoned epoch.
Proof.
  intros [Hb Hp Ht Hq Hn Ha He Hep] E Hs.
  assert (∀ b (P : Validator → Prop), (P w → False) →
    (∃ x, <[a := w]> V !! b = Some x ∧ P x) ↔ (∃ x, V !! b = Some x ∧ P x)) as Hx.
  { intros b P HP. setoid_rewrite lookup_insert_Some. split; [naive_solver|].
    intros (x & Hx & Px). exists x. split; [|done]. right. split; [|done]. intros <-. congruence. }
  split; try done.
  - intros b. rewrite Hb. symmetry. apply Hx. by rewrite Hs.
  - intros t b. rewrite Hq. symmetry. apply Hx. rewrite Hs. naive_solver.
  - intros b Hin. destruct (Ha b Hin) as (x & Hx' & Hns & Hjx & Hk). exists x.
    rewrite lookup_insert_ne; [done|]. intros <-. congruence.
  - apply engine_come; [done| |done]. apply eq_None_not_Some. intros (x & Hx' & Hsx)%Hb. congruence.
Qed.

End ValInv.

Arguments index_inv {_} f V C I.
