(* ===== verification/StakingVotes.v ===== *)
(** * Staking: votes

    What the module relies on of the other keepers, and the effect of the
    three loops that move the shares of a delegator: one that changes them,
    one that adds them and one that takes them back. *)
From S2P Require Import Prelude Decimal Denom Coins Bank CoinKeeper DecStr Staking StakingVals.
#[local] Open Scope Z_scope.

(** Decompose a run of code that ends in writes to the stores. *)
Ltac st_unfold H :=
  progress cbv beta delta [SetDelegator GetDelegator DeleteDelegator SetShares DeleteShares SetProxyBinding
    SetUndelegating GetUndelegating DeleteUndelegating SetAddrByTimeKeyWithNilValue DeleteAddrByTimeKey
    GetValidator SetValidator SetValidatorByConsAddr SetNewValidatorByPowerIndex
    DeleteValidatorByPowerIndex SetLastValidatorPower DeleteLastValidatorPower GetLastTotalPower
    SetLastTotalPower GetValidatorQueueTimeSlice SetValidatorQueueTimeSlice DeleteValidatorQueueTimeSlice
    DeleteAbandonedValidatorAddrs on_stakes on_vals] in H.
Ltac st_inv :=
  repeat match goal with
  | H : _ = (Ok _, _) |- _ => first [inv_ok_step H | st_unfold H]
  end.

(** ** What the module relies on *)

Class DelegationKeeperLaws (K : Type) `{DelegationKeeper K} := {
  law_Delegate a m amt s s' u :
    ck_DelegateCoinsFromAccountToModule a m amt s = (Ok u, s') → ck_wf s →
    ∃ addr, ck_modaddr m = Some addr ∧ kmove s s' a addr amt;
  law_Undelegate m a amt s s' u :
    ck_UndelegateCoinsFromModuleToAccount m a amt s = (Ok u, s') → ck_wf s → ck_modaddr m ≠ Some a →
    ∃ addr, ck_modaddr m = Some addr ∧ kmove s s' addr a amt;
  law_Undelegate_refused m a amt s s' e :
    ck_UndelegateCoinsFromModuleToAccount m a amt s = (Err e, s') →
    (ck_wf s → ck_wf s') ∧ ∀ x d, ck_balance s' x d = ck_balance s x d }.

Section Keeps.
Context {K : Type} `{CoinKeeper K} (bonded notBonded : string).

(** The two pools keep their coins. *)
Record keeps (k k' : K) : Prop := {
  ke_wf : ck_wf k → ck_wf k';
  ke_bonded d : ck_balance k' bonded d = ck_balance k bonded d;
  ke_notBonded d : ck_balance k' notBonded d = ck_balance k notBonded d }.
#[global] Instance keeps_preorder : PreOrder keeps.
Proof.
  split; [by intros k|]. intros k1 k2 k3 [W1 B1 N1] [W2 B2 N2]. split; [tauto|congruence..].
Qed.
End Keeps.

(** The pools have accounts of their own, and the hooks leave them alone. *)
Class StakingLaws (K : Type) `{CoinKeeper K} `{!StakingHooks K} (bonded notBonded : string) := {
  sl_bonded : ck_modaddr BondedPoolName = Some bonded;
  sl_notBonded : ck_modaddr NotBondedPoolName = Some notBonded;
  sl_ne : bonded ≠ notBonded;
  sl_hooks ctx t vs h k k' u :
    sh_call ctx t vs h k = (Ok u, k') → keeps bonded notBonded k k' }.

(** Before the upgrade the weight of a week is at least that of the first. *)
Definition weights_ok `{StakingConfig} : Prop :=
  ∀ week w, NewDecFromStr (weightOfWeek week) = Ok w → OneDec ≤ w.

(** ** Sets of votes *)

Section Votes.
Context {K : Type} `{CoinKeeper K} `{!DelegationKeeper K} `{!StakingHooks K} `{cfgT : StakingConfig} `{bansT : !Bans} `{engT : !Engine}.
Context (bonded notBonded : string) `{!StakingLaws K bonded notBonded}.
Implicit Types (s : StakingState K) (f : string → Z).

#[local] Abbreviation Kp := (keeps bonded notBonded).

Lemma call_hook_Ok ctx h s u s' :
  call_hook ctx h s = (Ok u, s') → ∃ k', s' = sg_set_k k' s ∧ Kp (sg_k s) k'.
Proof.
  unfold call_hook, on_keeper. intros (k' & H1 & ->)%zoom_Ok. exists k'. split; [done|].
  by eapply sl_hooks.
Qed.

(** [δ] more for the validators in [l]. *)
Definition bump (l : list string) (δ : Z) f : string → Z := λ b,
  f b + if bool_decide (b ∈ l) then δ else 0.

(** The delegator [del] has its shares on the validators in [l] changed by
    [δ], to the entry [e]; nothing else has changed. *)
Record revotes (del : string) (l : list string) (e : option Dec) (δ : Z) s s' : Prop := {
  rv_k : Kp (sg_k s) (sg_k s');
  rv_params : sg_params s' = sg_params s;
  rv_shares b c : st_shares (sg_stakes s') !! (b, c)
    = if bool_decide (c = del ∧ b ∈ l) then e else st_shares (sg_stakes s) !! (b, c);
  rv_stakes : sg_stakes s' = mkStakes (st_delegators (sg_stakes s)) (st_shares (sg_stakes s'))
    (st_proxies (sg_stakes s)) (st_undelegations (sg_stakes s)) (st_undelegateQueue (sg_stakes s));
  rv_vals f : vals_inv f (sg_vals s) → (∀ a, a ∈ l → 0 ≤ f a + δ) → vals_inv (bump l δ f) (sg_vals s');
  rv_other b : b ∉ l → vs_validators (sg_vals s') !! b = vs_validators (sg_vals s) !! b;
  rv_msd : map_sum Va_MinSelfDelegation (vs_validators (sg_vals s'))
    = map_sum Va_MinSelfDelegation (vs_validators (sg_vals s));
  rv_same : is_Some e → sg_k s' = sg_k s;
  rv_keep b : is_Some e → is_Some (vs_validators (sg_vals s) !! b) → is_Some (vs_validators (sg_vals s') !! b) }.

Lemma vals_inv_ext f g vs : (∀ b, f b = g b) → vals_inv f vs → vals_inv g vs.
Proof.
  intros E [[] Hs]. split; [|done]. split; try done.
  - intros a v Ha. rewrite <- E. auto.
  - intros a Ha. rewrite <- E. auto.
  - intros a. rewrite <- E. auto.
Qed.

Lemma revotes_nil del e δ s : revotes del [] e δ s s.
Proof.
  split; try done.
  - intros b c. rewrite bool_decide_false; [done|]. intros [_ ?%not_elem_of_nil]. done.
  - by destruct s as [? []].
  - intros f Hf _. eapply vals_inv_ext; [|exact Hf]. intros b. unfold bump.
    rewrite bool_decide_false by apply not_elem_of_nil. lia.
Qed.

Lemma revotes_cons del a l e δ s s1 s' :
  revotes del [a] e δ s s1 → revotes del l e δ s1 s' → a ∉ l → revotes del (a :: l) e δ s s'.
Proof.
  intros R1 R2 Hl. split.
  - transitivity (sg_k s1); [apply R1|apply R2].
  - rewrite (rv_params _ _ _ _ _ _ R2). apply R1.
  - intros b c. rewrite (rv_shares _ _ _ _ _ _ R2), (rv_shares _ _ _ _ _ _ R1).
    repeat case_bool_decide; try done; exfalso; set_solver.
  - rewrite (rv_stakes _ _ _ _ _ _ R2). rewrite (rv_stakes _ _ _ _ _ _ R1). done.
  - intros f Hf Hpos. apply (rv_vals _ _ _ _ _ _ R1) in Hf; [|intros b Hb; apply Hpos; set_solver].
    apply (rv_vals _ _ _ _ _ _ R2) in Hf.
    + eapply vals_inv_ext; [|exact Hf]. intros b. unfold bump.
      repeat case_bool_decide; try lia; exfalso; set_solver.
    + intros b Hb. unfold bump. rewrite bool_decide_false by set_solver. rewrite Z.add_0_r.
      apply Hpos. by right.
  - intros b Hb. apply not_elem_of_cons in Hb as [H1 H2].
    rewrite (rv_other _ _ _ _ _ _ R2 b H2). apply R1. by rewrite list_elem_of_singleton.
  - rewrite (rv_msd _ _ _ _ _ _ R2). apply R1.
  - intros He. rewrite (rv_same _ _ _ _ _ _ R2 He). by apply R1.
  - intros b He Hb. apply (rv_keep _ _ _ _ _ _ R2 b He). by apply R1.
Qed.

(** A loop of such steps over the records of distinct validators. *)
Lemma revotes_loop del e δ (step : Validator → M (StakingState K) unit) vals :
  (∀ v s u s', v ∈ vals → vs_validators (sg_vals s) !! Va_OperatorAddress v = Some v →
    step v s = (Ok u, s') → revotes del [Va_OperatorAddress v] e δ s s') →
  NoDup (Va_OperatorAddress <$> vals) →
  ∀ s u s', (∀ v, v ∈ vals → vs_validators (sg_vals s) !! Va_OperatorAddress v = Some v) →
  for_each step vals s = (Ok u, s') → revotes del (Va_OperatorAddress <$> vals) e δ s s'.
Proof.
  intros Hstep. induction vals as [|v vals IH]; intros Hd s u s' Hv; cbn [for_each].
  - intros [_ ->]%mret_Ok. apply revotes_nil.
  - intros (u1 & s1 & H1 & H2)%M_bind_Ok. cbn in Hd. apply NoDup_cons in Hd as [Hv' Hd].
    apply Hstep in H1; [|by left|by apply Hv; left]. apply IH in H2; [|..].
    + rewrite fmap_cons. by eapply revotes_cons.
    + intros w t u2 t' Hw. apply Hstep. by right.
    + done.
    + intros w Hw. rewrite (rv_other _ _ _ _ _ _ H1); [by apply Hv; right|].
      rewrite list_elem_of_singleton. intros Ew. apply Hv'. rewrite <- Ew. by apply list_elem_of_fmap_2.
Qed.

(** The writes that replace the record of a validator. *)
Definition put_validator (v w : Validator) (vs : ValSet) : ValSet :=
  vs_set_powerIndex
    (λ I, (if Va_Jailed w then id else <[getValidatorPowerRank w := Va_OperatorAddress w]>)
       (delete (getValidatorPowerRank v) I))
    (vs_set_validators <[Va_OperatorAddress w := w]> vs).

Lemma put_inv f f' vs v w :
  vals_inv f vs → vs_validators vs !! Va_OperatorAddress v = Some v →
  Va_OperatorAddress w = Va_OperatorAddress v → Va_ConsPubKey w = Va_ConsPubKey v →
  Va_Status w = Va_Status v → Va_UnbondingCompletionTime w = Va_UnbondingCompletionTime v →
  (Va_OperatorAddress v ∈ vs_abandoned vs → Va_Jailed w = true) →
  Va_MinSelfDelegation w = Va_MinSelfDelegation v ∨ Va_MinSelfDelegation w = 0 →
  (∀ b, b ≠ Va_OperatorAddress v → f' b = f b) → 0 ≤ f' (Va_OperatorAddress v) →
  val_ok (f' (Va_OperatorAddress v)) w →
  vals_inv f' (put_validator v w vs).
Proof.
  intros [Hi Hs] Hv Ha Hp Hst Ht Hj Hm Hf Hpos Hok. unfold put_validator. split.
  - unfold index_inv_of. cbn. rewrite Ha. by eapply index_replace.
  - unfold set_inv_of. cbn. rewrite Ha. eapply set_replace; try done. by apply kept_out_ext.
Qed.

Lemma put_msd vs v w :
  vs_validators vs !! Va_OperatorAddress v = Some v → Va_OperatorAddress w = Va_OperatorAddress v →
  Va_MinSelfDelegation w = Va_MinSelfDelegation v →
  map_sum Va_MinSelfDelegation (vs_validators (put_validator v w vs))
  = map_sum Va_MinSelfDelegation (vs_validators vs).
Proof.
  intros Hv Ha Hm. cbn. rewrite map_sum_insert, Ha, Hv. cbn. lia.
Qed.

Lemma val_ok_of f vs v :
  vals_inv f vs → vs_validators vs !! Va_OperatorAddress v = Some v → val_ok (f (Va_OperatorAddress v)) v.
Proof. intros [[] _] Hv. auto. Qed.

Lemma abandoned_jailed f vs v :
  vals_inv f vs → vs_validators vs !! Va_OperatorAddress v = Some v →
  Va_OperatorAddress v ∈ vs_abandoned vs → Va_Jailed v = true.
Proof.
  intros [_ []] Hv Hin. destruct (ei_abandoned _ Hin) as (x & Hx & _ & Hj & _). congruence.
Qed.

(** One validator whose record gets other shares. *)
Lemma put_revotes del e δ s s' v k' :
  vs_validators (sg_vals s) !! Va_OperatorAddress v = Some v →
  Kp (sg_k s) k' → (is_Some e → k' = sg_k s) →
  s' = mkStakingState k' (mkStakes (st_delegators (sg_stakes s))
         (partial_alter (λ _, e) (Va_OperatorAddress v, del) (st_shares (sg_stakes s)))
         (st_proxies (sg_stakes s)) (st_undelegations (sg_stakes s)) (st_undelegateQueue (sg_stakes s)))
       (put_validator v (va_set_shares (Va_DelegatorShares v + δ) v) (sg_vals s)) (sg_params s) →
  (∀ n, 0 ≤ n → Va_DelegatorShares v + δ = n + msd_base v →
    Va_Status v = Unbonded → Va_MinSelfDelegation v = 0 → n ≠ 0) →
  revotes del [Va_OperatorAddress v] e δ s s'.
Proof.
  intros Hv Hk Hsame -> Hlive. split; cbn [sg_k sg_stakes sg_vals sg_params st_shares]; try done.
  - intros b c. destruct (decide ((b, c) = (Va_OperatorAddress v, del))) as [E|E].
    + injection E as -> ->. rewrite lookup_partial_alter_eq, bool_decide_true; [done|set_solver].
    + rewrite lookup_partial_alter_ne by congruence. rewrite bool_decide_false; [done|set_solver].
  - intros f Hf Hpos. assert (0 ≤ f (Va_OperatorAddress v) + δ) as Hp by (apply Hpos; by left).
    pose proof (val_ok_of _ _ _ Hf Hv) as [V1 V2 V3 V4 V5 V6].
    assert (bump [Va_OperatorAddress v] δ f (Va_OperatorAddress v) = f (Va_OperatorAddress v) + δ) as Eb.
    { unfold bump. rewrite bool_decide_true; [done|by left]. }
    eapply put_inv; try done.
    + exact (abandoned_jailed _ _ _ Hf Hv).
    + by left.
    + intros b Hb. unfold bump. rewrite bool_decide_false by set_solver. lia.
    + by rewrite Eb.
    + rewrite Eb. split; try done.
      * cbn. unfold msd_base. cbn. fold (msd_base v). lia.
      * cbn. intros Hs Hm. apply Hlive; [done| |done|done]. lia.
  - intros b Hb. rewrite list_elem_of_singleton in Hb. cbn. rewrite lookup_insert_ne; [done|congruence].
  - by apply put_msd.
  - intros b _ Hb. cbn. destruct (decide (b = Va_OperatorAddress v)) as [->|Hne]; [rewrite lookup_insert_eq; eauto|].
    by rewrite lookup_insert_ne.
Qed.

Lemma partial_alter_insert {V} (m : gmap (string * string) V) k x :
  partial_alter (λ _, Some x) k m = <[k := x]> m.
Proof. done. Qed.

Lemma checkDec_value x d : checkDec x = Ok d → d = x.
Proof. unfold checkDec. destruct (_ >? _); [done|]. by intros [= ->]. Qed.

Lemma updateShares_step_Ok del last new v s u s' :
  vs_validators (sg_vals s) !! Va_OperatorAddress v = Some v →
  updateShares_step del last new v s = (Ok u, s') →
  Va_MinSelfDelegation v ≠ 0 ∧ revotes del [Va_OperatorAddress v] (Some new) (new - last) s s'.
Proof.
  intros Hv. unfold updateShares_step. intros (u1 & s1 & H1 & H2)%M_bind_Ok.
  apply guard_not_Ok in H1 as [Hm ->].
  assert (Va_MinSelfDelegation v ≠ 0) as Hm'. { intros E. by rewrite E in Hm. }
  split; [done|]. clear u1. apply M_bind_Ok in H2 as (u1 & s1 & H1 & H2).
  apply M_bind_Ok in H2 as (u2 & s2 & H3 & H2).
  apply M_bind_Ok in H2 as (x & s3 & H4 & H2). apply lift_Ok in H4 as [->%checkDec_value ->].
  apply M_bind_Ok in H2 as (x & s3 & H4 & H2). apply lift_Ok in H4 as [->%checkDec_value ->].
  unfold SetValidatorByPowerIndex in H2. cbn [Va_Jailed va_set_shares] in *.
  eapply (put_revotes _ _ _ _ _ _ (sg_k s)); [done|reflexivity|done| |by intros; lia].
  replace (Va_DelegatorShares v + (new - last)) with (Va_DelegatorShares v - last + new) by lia.
  unfold put_validator. cbn [Va_Jailed va_set_shares].
  destruct (Va_Jailed v); st_inv; reflexivity.
Qed.

Lemma addShares_Ok del new v s u s' :
  vs_validators (sg_vals s) !! Va_OperatorAddress v = Some v → Va_MinSelfDelegation v ≠ 0 →
  addShares del new v s = (Ok u, s') → revotes del [Va_OperatorAddress v] (Some new) new s s'.
Proof.
  intros Hv Hm. unfold addShares. intros (u1 & s1 & H1 & H2)%M_bind_Ok.
  apply M_bind_Ok in H2 as (u2 & s2 & H3 & H2).
  apply M_bind_Ok in H2 as (x & s3 & H4 & H2). apply lift_Ok in H4 as [->%checkDec_value ->].
  unfold SetValidatorByPowerIndex in H2. cbn [Va_Jailed va_set_shares] in *.
  eapply (put_revotes _ _ _ _ _ _ (sg_k s)); [done|reflexivity|done| |by intros; lia].
  unfold put_validator. cbn [Va_Jailed va_set_shares].
  destruct (Va_Jailed v); st_inv; reflexivity.
Qed.

(** Removal of a record from the store and the indices. *)
Definition drop_validator (v : Validator) (vs : ValSet) : ValSet :=
  vs_set_powerIndex (delete (getValidatorPowerRank v))
    (vs_set_byConsAddr (delete (ConsAddress v))
      (vs_set_validators (delete (Va_OperatorAddress v)) vs)).

Lemma RemoveValidator_Ok ctx v s u s' :
  vs_validators (sg_vals s) !! Va_OperatorAddress v = Some v →
  RemoveValidator ctx (Va_OperatorAddress v) s = (Ok u, s') →
  Va_Status v = Unbonded ∧
  ∃ k', Kp (sg_k s) k' ∧
    s' = mkStakingState k' (sg_stakes s) (drop_validator v (sg_vals s)) (sg_params s).
Proof.
  intros Hv. unfold RemoveValidator. intros (o & s1 & H1 & H2)%M_bind_Ok.
  apply gets_Ok in H1 as [-> ->]. rewrite Hv in H2.
  apply M_bind_Ok in H2 as (u1 & s1 & H1 & H2). apply panic_if_Ok in H1 as [Hu ->].
  unfold IsUnbonded in Hu. bool_prop. split; [done|].
  repeat (let x := fresh "u" in let t := fresh "t" in
    apply M_bind_Ok in H2 as (x & t & ? & H2)).
  apply call_hook_Ok in H2 as (k' & -> & Hk). st_inv. exists k'. split; done.
Qed.

Lemma drop_inv f f' vs v :
  vals_inv f vs → vs_validators vs !! Va_OperatorAddress v = Some v → Va_Status v = Unbonded →
  (∀ b, b ≠ Va_OperatorAddress v → f' b = f b) → f' (Va_OperatorAddress v) = 0 →
  vals_inv f' (drop_validator v vs).
Proof.
  intros [Hi Hs] Hv Hu Hf Hz. split.
  - unfold index_inv_of. cbn. by eapply index_remove.
  - unfold set_inv_of. cbn. by eapply set_remove.
Qed.

Lemma withdrawShares_Ok ctx del last v s u s' :
  vs_validators (sg_vals s) !! Va_OperatorAddress v = Some v →
  withdrawShares ctx del last v s = (Ok u, s') → revotes del [Va_OperatorAddress v] None (- last) s s'.
Proof.
  intros Hv. unfold withdrawShares. intros (u1 & s1 & H1 & H2)%M_bind_Ok.
  apply M_bind_Ok in H2 as (u2 & s2 & H3 & H2).
  apply M_bind_Ok in H2 as (x & s3 & H4 & H2). apply lift_Ok in H4 as [->%checkDec_value ->].
  destruct (_ && _) eqn:Ez in H2.
  - assert (Va_Status v = Unbonded ∧ Va_MinSelfDelegation v = 0 ∧ Va_DelegatorShares v = last) as (Hu & Hm & Hx).
    { unfold IsUnbonded, Dec_IsZero in Ez. cbn in Ez. bool_prop. split_and!; [done|lia..]. }
    change (Va_OperatorAddress (va_set_shares (Va_DelegatorShares v - last) v))
      with (Va_OperatorAddress v) in H2.
    apply RemoveValidator_Ok in H2; [|st_inv; done].
    destruct H2 as (_ & k' & Hk & ->). st_inv. cbn in Hk |- *.
    set (vs1 := vs_set_powerIndex (delete (getValidatorPowerRank v)) (sg_vals s)) in *.
    assert (drop_validator v vs1 = drop_validator v (sg_vals s)) as Ed.
    { unfold drop_validator, vs1, vs_set_powerIndex, vs_set_byConsAddr, vs_set_validators. cbn.
      by rewrite delete_delete_eq. }
    rewrite Ed. split; cbn [sg_k sg_stakes sg_vals sg_params st_shares sg_set_stakes sg_set_vals]; try done.
    + intros b c. destruct (decide ((b, c) = (Va_OperatorAddress v, del))) as [E|E].
      * injection E as -> ->. rewrite lookup_delete_eq, bool_decide_true; [done|set_solver].
      * rewrite lookup_delete_ne by congruence. rewrite bool_decide_false; [done|set_solver].
    + intros f Hf Hpos. pose proof (val_ok_of _ _ _ Hf Hv) as [V1 V2 V3 V4 V5 V6].
      eapply drop_inv; try done.
      * intros b Hb. unfold bump. rewrite bool_decide_false by set_solver. lia.
      * unfold bump. rewrite bool_decide_true by (by left). unfold msd_base in V1. rewrite Hm in V1. cbn in V1. lia.
    + intros b Hb. cbn. rewrite lookup_delete_ne; [done|set_solver].
    + cbn. rewrite map_sum_delete, Hv. cbn. lia.
  - apply M_bind_Ok in H2 as (u3 & s3 & H4 & H2). unfold SetValidatorByPowerIndex in H2.
    cbn [Va_Jailed va_set_shares] in *.
    eapply (put_revotes _ _ _ _ _ _ (sg_k s)); [done|reflexivity|done| |].
    + unfold put_validator. cbn [Va_Jailed va_set_shares]. rewrite <- (Z.add_opp_r (Va_DelegatorShares v)) in *.
      destruct (Va_Jailed v); st_inv; reflexivity.
    + intros n Hn Hx Hs Hm ->. unfold IsUnbonded, Dec_IsZero in Ez. cbn in Ez. unfold msd_base in Hx.
      rewrite Hm in Hx, Ez. cbn in Hx, Ez. rewrite Hs in Ez.
      replace (Va_DelegatorShares v - last) with 0 in Ez by lia. done.
Qed.

(** ** The invariant of votes *)

(** What a delegator gives a validator. *)
Definition shares_to (v : string) (d : Delegator) : Z :=
  if bool_decide (v ∈ De_ValidatorAddresses d) then De_Shares d else 0.

(** Every delegator has the same number of shares on each of its validators,
    the store has an entry for each, and validators have their sum. *)
Record votes_inv (D : gmap string Delegator) (S : gmap (string * string) Dec) (vs : ValSet) : Prop := {
  vt_key a d : D !! a = Some d → De_DelegatorAddress d = a;
  vt_nodup a d : D !! a = Some d → NoDup (De_ValidatorAddresses d);
  vt_none a d : D !! a = Some d → De_ValidatorAddresses d = [] → De_Shares d = 0;
  vt_pos a d : D !! a = Some d → De_ValidatorAddresses d ≠ [] → 0 < De_Shares d;
  vt_shares v a x : S !! (v, a) = Some x ↔
    ∃ d, D !! a = Some d ∧ v ∈ De_ValidatorAddresses d ∧ x = De_Shares d;
  vt_vals : vals_inv (λ v, map_sum (shares_to v) D) vs }.

Lemma shares_to_nonneg D S vs v a d : votes_inv D S vs → D !! a = Some d → 0 ≤ shares_to v d.
Proof.
  intros I Hd. unfold shares_to. case_bool_decide as Hv; [|done].
  apply Z.lt_le_incl, (vt_pos _ _ _ I a d Hd). intros E. rewrite E in Hv. by apply not_elem_of_nil in Hv.
Qed.

Lemma listed_exists D S vs a d v :
  votes_inv D S vs → D !! a = Some d → v ∈ De_ValidatorAddresses d → is_Some (vs_validators vs !! v).
Proof.
  intros I Hd Hv. destruct (vs_validators vs !! v) eqn:E; [eauto|].
  apply (ii_absent _ _ _ _ (proj1 (vt_vals _ _ _ I))) in E.
  assert (shares_to v d ≤ map_sum (shares_to v) D) as Hle.
  { apply (map_sum_ge _ _ a); [|done]. intros b x Hx. by eapply shares_to_nonneg. }
  assert (0 < De_Shares d).
  { apply (vt_pos _ _ _ I a d Hd). intros El. rewrite El in Hv. by apply not_elem_of_nil in Hv. }
  unfold shares_to in Hle at 1. rewrite bool_decide_true in Hle by done. lia.
Qed.

Definition set_votes (l : list string) (x : Dec) (d : Delegator) : Delegator :=
  de_set_shares x (de_set_vals l d).

Definition vote_at (l : list string) (x : Z) (v : string) : Z := if bool_decide (v ∈ l) then x else 0.
Definition entry_at (l : list string) (e : option Dec) (v : string) (o : option Dec) : option Dec :=
  if bool_decide (v ∈ l) then e else o.

(** A delegator changes its votes to [x1] on each of [l1]. *)
Lemma revotes_inv D S vs a d L e δ l1 x1 s s' :
  votes_inv D S vs → D !! a = Some d → revotes a L e δ s s' →
  st_shares (sg_stakes s) = S → sg_vals s = vs →
  (∀ v, vote_at l1 x1 v = vote_at (De_ValidatorAddresses d) (De_Shares d) v + vote_at L δ v) →
  (∀ v, entry_at L e v (entry_at (De_ValidatorAddresses d) (Some (De_Shares d)) v None)
        = entry_at l1 (Some x1) v None) →
  NoDup l1 → (l1 = [] → x1 = 0) → (l1 ≠ [] → 0 < x1) →
  votes_inv (<[a := set_votes l1 x1 d]> D) (st_shares (sg_stakes s')) (sg_vals s').
Proof.
  intros I Hd R <- <- Hvote Hent Hnd H0' Hpos. pose proof (vt_key _ _ _ I _ _ Hd) as Ha. split.
  - intros b x [[<- <-]|[_ Hx]]%lookup_insert_Some; [done|by eapply vt_key].
  - intros b x [[<- <-]|[_ Hx]]%lookup_insert_Some; [done|by eapply vt_nodup].
  - intros b x [[<- <-]|[_ Hx]]%lookup_insert_Some; [done|by eapply vt_none].
  - intros b x [[<- <-]|[_ Hx]]%lookup_insert_Some; [done|by eapply vt_pos].
  - intros v b x. rewrite (rv_shares _ _ _ _ _ _ R).
    destruct (decide (b = a)) as [->|Hne].
    + assert (st_shares (sg_stakes s) !! (v, a)
        = entry_at (De_ValidatorAddresses d) (Some (De_Shares d)) v None) as E.
      { unfold entry_at. apply option_eq. intros y. rewrite (vt_shares _ _ _ I), Hd.
        case_bool_decide; naive_solver. }
      rewrite E. specialize (Hent v).
      assert ((if bool_decide (a = a ∧ v ∈ L) then e
               else entry_at (De_ValidatorAddresses d) (Some (De_Shares d)) v None)
              = entry_at l1 (Some x1) v None) as ->.
      { rewrite <- Hent. unfold entry_at at 2. repeat case_bool_decide; naive_solver. }
      rewrite lookup_insert_eq. unfold entry_at. case_bool_decide; naive_solver.
    + rewrite bool_decide_false by naive_solver. rewrite (vt_shares _ _ _ I).
      by rewrite lookup_insert_ne.
  - eapply vals_inv_ext; [|apply (rv_vals _ _ _ _ _ _ R _ (vt_vals _ _ _ I))].
    + intros v. cbn beta. rewrite map_sum_insert, Hd. cbn [at_key].
      specialize (Hvote v). unfold bump, vote_at in *. unfold shares_to. cbn [set_votes de_set_shares de_set_vals De_ValidatorAddresses De_Shares].
      lia.
    + intros v Hv. specialize (Hvote v). unfold vote_at in Hvote. rewrite (bool_decide_true (v ∈ L)) in Hvote by done.
      rewrite <- (insert_delete_id D a d) by done. rewrite map_sum_fresh by apply lookup_delete_eq.
      assert (0 ≤ map_sum (shares_to v) (delete a D)).
      { apply map_sum_nonneg. intros b x [_ Hx]%lookup_delete_Some. by eapply shares_to_nonneg. }
      unfold shares_to at 1. assert (0 ≤ if bool_decide (v ∈ l1) then x1 else 0); [|lia].
      case_bool_decide as Hl; [|lia]. apply Z.lt_le_incl, Hpos. intros ->. by apply not_elem_of_nil in Hl.
Qed.

(** The records of listed validators. *)
Lemma fetch_listed D S vs a d :
  votes_inv D S vs → D !! a = Some d →
  let vals := omap (λ v, vs_validators vs !! v) (De_ValidatorAddresses d) in
  Va_OperatorAddress <$> vals = De_ValidatorAddresses d ∧
  ∀ v, v ∈ vals → vs_validators vs !! Va_OperatorAddress v = Some v.
Proof.
  intros I Hd. pose proof (λ v, listed_exists _ _ _ _ _ v I Hd) as Hex.
  pose proof (ii_key _ _ _ _ (proj1 (vt_vals _ _ _ I))) as Hkey.
  induction (De_ValidatorAddresses d) as [|v l IH]; cbn; [split; [done|]; by intros v ?%not_elem_of_nil|].
  destruct IH as [E1 E2]; [intros w Hw; apply Hex; by right|].
  destruct (Hex v) as [x Hx]; [by left|]. rewrite Hx. cbn. rewrite E1, (Hkey _ _ Hx). split; [done|].
  intros w [->|Hw]%elem_of_cons; [|auto]. by rewrite (Hkey _ _ Hx).
Qed.

(** ** The calls that change votes *)

Lemma calculateWeight_pos t x h y :
  weights_ok → 0 < x → calculateWeight t x h = Ok y → 0 < y.
Proof.
  intros Hw Hx. unfold calculateWeight. destruct (HigherThanVenus6 h).
  - intros ->%checkDec_value. unfold fixedWeight. lia.
  - intros (w & Hn & ->%checkDec_value)%outcome_bind_Ok. apply Hw in Hn.
    pose proof (chop_half_even (x * w)) as [Hc _]. unfold OneDec in *. fold precisionReuse in *.
    assert (0 < precisionReuse) by done. nia.
Qed.

(** What a call that changes the votes of [a] leaves: the record of [a] is
    [d], and nothing else than shares has changed. *)
Record voted (a : string) (d : Delegator) s s' : Prop := {
  vd_k : Kp (sg_k s) (sg_k s');
  vd_params : sg_params s' = sg_params s;
  vd_stakes : sg_stakes s' = mkStakes (<[a := d]> (st_delegators (sg_stakes s))) (st_shares (sg_stakes s'))
    (st_proxies (sg_stakes s)) (st_undelegations (sg_stakes s)) (st_undelegateQueue (sg_stakes s));
  vd_votes : votes_inv (<[a := d]> (st_delegators (sg_stakes s))) (st_shares (sg_stakes s')) (sg_vals s');
  vd_msd : map_sum Va_MinSelfDelegation (vs_validators (sg_vals s'))
    = map_sum Va_MinSelfDelegation (vs_validators (sg_vals s)) }.

Definition votes_inv_of s : Prop :=
  votes_inv (st_delegators (sg_stakes s)) (st_shares (sg_stakes s)) (sg_vals s).

Lemma voted_refl a d s : votes_inv_of s → st_delegators (sg_stakes s) !! a = Some d → voted a d s s.
Proof.
  intros I Hd. assert (<[a := d]> (st_delegators (sg_stakes s)) = st_delegators (sg_stakes s)) as E
    by by apply insert_id.
  split; [reflexivity|done| |by rewrite E|done]. rewrite E. by destruct s as [? []].
Qed.

Lemma GetLast_Ok a d s r s' :
  votes_inv_of s → st_delegators (sg_stakes s) !! a = Some d →
  GetLastValsAddedSharesExisted a s = (Ok r, s') →
  s' = s ∧ r = (omap (λ v, vs_validators (sg_vals s) !! v) (De_ValidatorAddresses d), De_Shares d).
Proof.
  intros I Hd. unfold GetLastValsAddedSharesExisted. intros (o & s1 & H1 & H2)%M_bind_Ok.
  apply gets_Ok in H1 as [-> ->]. rewrite Hd in H2. st_inv. done.
Qed.

Lemma for_each_all {W A} (f : A → M W unit) l : ∀ (s : W) u (s' : W), for_each f l s = (Ok u, s') →
  ∀ a, a ∈ l → ∃ t u1 t', f a t = (Ok u1, t').
Proof.
  induction l as [|b l IH]; intros s u s'; cbn [for_each]; [by intros _ a ?%not_elem_of_nil|].
  intros (u1 & s1 & H1 & H2)%M_bind_Ok a [->|Ha]%elem_of_cons; eauto.
Qed.
(** Votes are only changed while all of them are on validators with a
    deposit. *)
Lemma UpdateShares_live ctx a d tokens s u s' b v :
  st_delegators (sg_stakes s) !! a = Some d → UpdateShares ctx a tokens s = (Ok u, s') →
  b ∈ De_ValidatorAddresses d → vs_validators (sg_vals s) !! b = Some v → Va_MinSelfDelegation v = 0 → False.
Proof.
  intros Hd. unfold UpdateShares. intros ([vals last] & s1 & H1 & H2)%M_bind_Ok Hb Hv Hm.
  unfold GetLastValsAddedSharesExisted in H1. apply M_bind_Ok in H1 as (o & s2 & H1 & H3). apply gets_Ok in H1 as [-> ->].
  rewrite Hd in H3. apply M_bind_Ok in H3 as (l & s2 & H1 & H3). apply gets_Ok in H1 as [-> ->].
  apply mret_Ok in H3 as [[= -> ->] ->]. set (vals := omap _ _) in *.
  assert (v ∈ vals) as Hin by (apply list_elem_of_omap; eauto).
  destruct (length vals =? 0)%nat eqn:Hl.
  { apply Nat.eqb_eq, length_zero_iff_nil in Hl. rewrite Hl in Hin. by apply not_elem_of_nil in Hin. }
  apply M_bind_Ok in H2 as (u1 & s2 & _ & H2). apply M_bind_Ok in H2 as (x & s3 & _ & H2).
  apply M_bind_Ok in H2 as (o & s4 & _ & H2). destruct o as [d'|]; [|by apply fail_Ok in H2].
  apply M_bind_Ok in H2 as (u2 & s5 & H1 & _). destruct (for_each_all _ _ _ _ _ H1 v Hin) as (t & u3 & t' & H3).
  unfold updateShares_step in H3. apply M_bind_Ok in H3 as (u4 & t1 & H3 & _). apply guard_not_Ok in H3 as [H3 _].
  by rewrite Hm in H3.
Qed.

Lemma UpdateShares_Ok ctx a d tokens s u s' :
  weights_ok → votes_inv_of s → st_delegators (sg_stakes s) !! a = Some d → 0 < tokens →
  UpdateShares ctx a tokens s = (Ok u, s') → ∃ x, voted a (de_set_shares x d) s s'.
Proof.
  intros Hw I Hd Ht. unfold UpdateShares. intros ([vals last] & s1 & H1 & H2)%M_bind_Ok.
  apply (GetLast_Ok _ _ _ _ _ I Hd) in H1 as [-> E]. injection E as -> ->.
  destruct (fetch_listed _ _ _ _ _ I Hd) as [El Ev]. cbn in El, Ev.
  set (vals := omap _ _) in *. destruct (length vals =? 0)%nat eqn:Hl.
  { apply mret_Ok in H2 as [_ ->]. exists (De_Shares d). apply voted_refl; [done|]. by destruct d. }
  apply M_bind_Ok in H2 as (u1 & s1 & H1 & H2). apply call_hook_Ok in H1 as (k1 & -> & K1).
  apply M_bind_Ok in H2 as (x & s1 & H1 & H2). apply lift_Ok in H1 as [Hx ->].
  apply calculateWeight_pos in Hx; [|done..].
  apply M_bind_Ok in H2 as (o & s1 & H1 & H2). apply gets_Ok in H1 as [-> ->].
  change (st_delegators (sg_stakes (sg_set_k k1 s))) with (st_delegators (sg_stakes s)) in H2.
  rewrite Hd in H2.
  apply M_bind_Ok in H2 as (u2 & s2 & H1 & H2).
  apply (revotes_loop a (Some x) (x - De_Shares d)) in H1;
    [|intros; by eapply updateShares_step_Ok|rewrite El; by eapply vt_nodup|done].
  rewrite El in H1. apply M_bind_Ok in H2 as (u3 & s3 & H3 & H2).
  apply call_hook_Ok in H2 as (k4 & -> & K4). st_inv. cbn in K4.
  assert (De_ValidatorAddresses d ≠ []) as Hne.
  { intros E. rewrite <- El in E. destruct vals; [by apply Nat.eqb_neq in Hl|done]. }
  pose proof (vt_key _ _ _ I _ _ Hd) as Ha.
  exists x. split.
  - cbn. transitivity k1; [done|]. transitivity (sg_k s2); [exact (rv_k _ _ _ _ _ _ H1)|done].
  - cbn. apply (rv_params _ _ _ _ _ _ H1).
  - cbn. rewrite (rv_stakes _ _ _ _ _ _ H1). cbn. by rewrite Ha.
  - cbn. assert (de_set_shares x d = set_votes (De_ValidatorAddresses d) x d) as -> by done.
    eapply (revotes_inv _ _ _ _ _ (De_ValidatorAddresses d) (Some x) (x - De_Shares d)); try done.
    + intros v. unfold vote_at. case_bool_decide; lia.
    + intros v. unfold entry_at. by case_bool_decide.
    + by eapply vt_nodup.
  - cbn. exact (rv_msd _ _ _ _ _ _ H1).
Qed.

Lemma WithdrawLastShares_Ok ctx a d s u s' :
  votes_inv_of s → st_delegators (sg_stakes s) !! a = Some d →
  WithdrawLastShares ctx a (omap (λ v, vs_validators (sg_vals s) !! v) (De_ValidatorAddresses d))
    (De_Shares d) s = (Ok u, s') →
  st_delegators (sg_stakes s') = st_delegators (sg_stakes s) ∧
  voted a (set_votes [] 0 d) s (sg_set_stakes (mkStakes (<[a := set_votes [] 0 d]> (st_delegators (sg_stakes s)))
    (st_shares (sg_stakes s')) (st_proxies (sg_stakes s)) (st_undelegations (sg_stakes s))
    (st_undelegateQueue (sg_stakes s))) s') ∧
  sg_stakes s' = mkStakes (st_delegators (sg_stakes s)) (st_shares (sg_stakes s'))
    (st_proxies (sg_stakes s)) (st_undelegations (sg_stakes s)) (st_undelegateQueue (sg_stakes s)).
Proof.
  intros I Hd. destruct (fetch_listed _ _ _ _ _ I Hd) as [El Ev]. cbn in El, Ev.
  set (vals := omap _ _) in *. unfold WithdrawLastShares. intros (u1 & s1 & H1 & H2)%M_bind_Ok.
  assert (∃ k1, s1 = sg_set_k k1 s ∧ Kp (sg_k s) k1) as (k1 & -> & K1).
  { destruct (0 <? length vals)%nat.
    - by apply call_hook_Ok in H1.
    - apply mret_Ok in H1 as [_ ->]. exists (sg_k s). split; [by destruct s|done]. }
  apply (revotes_loop a None (- De_Shares d)) in H2;
    [|intros; by eapply withdrawShares_Ok|rewrite El; by eapply vt_nodup|done].
  rewrite El in H2. pose proof (rv_stakes _ _ _ _ _ _ H2) as Es. cbn in Es.
  split; [by rewrite Es|]. split; [|done]. split; try done.
  - cbn. transitivity k1; [done|exact (rv_k _ _ _ _ _ _ H2)].
  - cbn. apply (rv_params _ _ _ _ _ _ H2).
  - cbn. eapply (revotes_inv _ _ _ _ _ (De_ValidatorAddresses d) None (- De_Shares d)); try done.
    + intros v. unfold vote_at. rewrite (bool_decide_false (v ∈ [])) by apply not_elem_of_nil.
      case_bool_decide; lia.
    + intros v. unfold entry_at. rewrite (bool_decide_false (v ∈ [])) by apply not_elem_of_nil.
      by case_bool_decide.
    + constructor.
  - cbn. exact (rv_msd _ _ _ _ _ _ H2).
Qed.

Lemma AddSharesToValidators_Ok ctx a d D vals tokens s x s' :
  weights_ok → votes_inv D (st_shares (sg_stakes s)) (sg_vals s) → D !! a = Some d →
  De_ValidatorAddresses d = [] → vals ≠ [] → NoDup (Va_OperatorAddress <$> vals) →
  (∀ v, v ∈ vals → vs_validators (sg_vals s) !! Va_OperatorAddress v = Some v) →
  (∀ v, v ∈ vals → Va_MinSelfDelegation v ≠ 0) → 0 < tokens →
  AddSharesToValidators ctx a vals tokens s = (Ok x, s') →
  revotes a (Va_OperatorAddress <$> vals) (Some x) x s s' ∧
  votes_inv (<[a := set_votes (Va_OperatorAddress <$> vals) x d]> D) (st_shares (sg_stakes s')) (sg_vals s').
Proof.
  intros Hw I Hd Hnil Hne Hnd Hv Hm Ht. unfold AddSharesToValidators.
  intros (y & s1 & H1 & H2)%M_bind_Ok. apply lift_Ok in H1 as [Hx ->].
  apply calculateWeight_pos in Hx; [|done..].
  apply M_bind_Ok in H2 as (u & s1 & H1 & H2). apply mret_Ok in H2 as [-> ->].
  apply (revotes_loop a (Some y) y) in H1; [|intros v t u1 t' Hin Hv1; by apply addShares_Ok; [|auto]|done|done].
  split; [done|]. eapply revotes_inv; try done.
  - intros v. unfold vote_at. rewrite Hnil. rewrite (bool_decide_false (v ∈ [])) by apply not_elem_of_nil. lia.
  - intros v. unfold entry_at. rewrite Hnil. rewrite (bool_decide_false (v ∈ [])) by apply not_elem_of_nil. done.
  - intros E. by destruct vals.
Qed.

(** Records that agree on the votes. *)
Lemma votes_inv_update D S vs a d d' :
  votes_inv D S vs → D !! a = Some d → De_DelegatorAddress d' = a →
  De_ValidatorAddresses d' = De_ValidatorAddresses d → De_Shares d' = De_Shares d →
  votes_inv (<[a := d']> D) S vs.
Proof.
  intros I Hd Ha Hl Hx. split.
  - intros b e [[<- <-]|[_ He]]%lookup_insert_Some; [done|by eapply vt_key].
  - intros b e [[<- <-]|[_ He]]%lookup_insert_Some; [rewrite Hl|]; by eapply vt_nodup.
  - intros b e [[<- <-]|[_ He]]%lookup_insert_Some; [rewrite Hl, Hx|]; by eapply vt_none.
  - intros b e [[<- <-]|[_ He]]%lookup_insert_Some; [rewrite Hl, Hx|]; by eapply vt_pos.
  - intros v b x. rewrite (vt_shares _ _ _ I). destruct (decide (b = a)) as [->|Hne].
    + rewrite lookup_insert_eq, Hd. naive_solver congruence.
    + by rewrite lookup_insert_ne.
  - eapply vals_inv_ext; [|exact (vt_vals _ _ _ I)]. intros v. cbn beta. rewrite map_sum_insert, Hd.
    cbn. unfold shares_to. rewrite Hl, Hx. lia.
Qed.

(** A delegator without votes, added or taken away. *)
Lemma votes_inv_add D S vs a d :
  votes_inv D S vs → D !! a = None → De_DelegatorAddress d = a →
  De_ValidatorAddresses d = [] → De_Shares d = 0 → votes_inv (<[a := d]> D) S vs.
Proof.
  intros I Hd Ha Hl Hx. split.
  - intros b e [[<- <-]|[_ He]]%lookup_insert_Some; [done|by eapply vt_key].
  - intros b e [[<- <-]|[_ He]]%lookup_insert_Some; [rewrite Hl; constructor|by eapply vt_nodup].
  - intros b e [[<- <-]|[_ He]]%lookup_insert_Some; [done|by eapply vt_none].
  - intros b e [[<- <-]|[_ He]]%lookup_insert_Some; [done|by eapply vt_pos].
  - intros v b x. rewrite (vt_shares _ _ _ I). destruct (decide (b = a)) as [->|Hne].
    + rewrite lookup_insert_eq, Hd. split; [naive_solver|]. intros (e & [= <-] & Hv & _).
      rewrite Hl in Hv. by apply not_elem_of_nil in Hv.
    + by rewrite lookup_insert_ne.
  - eapply vals_inv_ext; [|exact (vt_vals _ _ _ I)]. intros v. cbn beta. rewrite map_sum_insert, Hd.
    cbn. unfold shares_to. rewrite Hl. rewrite bool_decide_false by apply not_elem_of_nil. lia.
Qed.
Lemma votes_inv_del D S vs a d :
  votes_inv D S vs → D !! a = Some d → De_ValidatorAddresses d = [] → votes_inv (delete a D) S vs.
Proof.
  intros I Hd Hl. split.
  - intros b e [_ He]%lookup_delete_Some. by eapply vt_key.
  - intros b e [_ He]%lookup_delete_Some. by eapply vt_nodup.
  - intros b e [_ He]%lookup_delete_Some. by eapply vt_none.
  - intros b e [_ He]%lookup_delete_Some. by eapply vt_pos.
  - intros v b x. rewrite (vt_shares _ _ _ I). destruct (decide (b = a)) as [->|Hne].
    + rewrite lookup_delete_eq, Hd. split; [|naive_solver]. intros (e & [= <-] & Hv & _).
      rewrite Hl in Hv. by apply not_elem_of_nil in Hv.
    + by rewrite lookup_delete_ne.
  - eapply vals_inv_ext; [|exact (vt_vals _ _ _ I)]. intros v. cbn beta. rewrite map_sum_delete, Hd.
    cbn. unfold shares_to. rewrite Hl. rewrite bool_decide_false by apply not_elem_of_nil. lia.
Qed.

End Votes.
