(* ===== verification/StakingProps.v ===== *)
(** * Staking: proxies, deposits and undelegations

    The invariant that ties proxies to the delegators bound to them, the
    coins of the two pools to the deposits and undelegations, and the
    undelegations to their queue; and that every message preserves it. *)
From S2P Require Import Prelude Decimal Denom Coins Bank CoinKeeper DecStr Token Staking StakingVals StakingVotes.
#[local] Open Scope Z_scope.

(** ** Proxies *)

(** What a delegator adds to the tokens of proxy [p]. *)
Definition bound_to (p : string) (d : Delegator) : Z :=
  if bool_decide (De_ProxyAddress d = p) then De_Tokens d else 0.

(** A proxy has the sum of the tokens bound to it; who is bound has no votes
    of its own and is not a proxy; the keys of the relation are those of the
    records. *)
Record proxy_inv (D : gmap string Delegator) (B : gset (string * string)) : Prop := {
  pr_addr a d : D !! a = Some d → a ≠ "";
  pr_tokens a d : D !! a = Some d → 0 < De_Tokens d;
  pr_total a d : D !! a = Some d → De_TotalDelegatedTokens d = map_sum (bound_to a) D;
  pr_proxy a d : D !! a = Some d → De_ProxyAddress d ≠ "" →
    De_IsProxy d = false ∧ De_ValidatorAddresses d = [] ∧
    ∃ p, D !! De_ProxyAddress d = Some p ∧ De_IsProxy p = true;
  pr_binding p a : (p, a) ∈ B ↔ p ≠ "" ∧ ∃ d, D !! a = Some d ∧ De_ProxyAddress d = p }.

Lemma HasProxy_spec d : HasProxy d = true ↔ De_ProxyAddress d ≠ "".
Proof. unfold HasProxy. rewrite negb_true_iff. apply String.eqb_neq. Qed.
Lemma HasProxy_false d : HasProxy d = false ↔ De_ProxyAddress d = "".
Proof. unfold HasProxy. rewrite negb_false_iff. apply String.eqb_eq. Qed.

Definition unfollowed (D : gmap string Delegator) (a : string) : Prop :=
  ∀ b e, D !! b = Some e → De_ProxyAddress e ≠ a.

Lemma unfollowed_sum D a : unfollowed D a → map_sum (bound_to a) D = 0.
Proof.
  intros Hu. rewrite (map_sum_ext _ (λ e, De_Tokens e * 0)).
  - rewrite map_sum_scale. lia.
  - intros b e He. unfold bound_to. rewrite bool_decide_false; [lia|eauto].
Qed.

Section ProxyInv.
Context (D : gmap string Delegator) (B : gset (string * string)) (Hinv : proxy_inv D B).

Lemma pr_unfollowed a d : D !! a = Some d → De_IsProxy d = false → unfollowed D a.
Proof.
  intros Hd Hp b e He <-. destruct (pr_proxy _ _ Hinv _ _ He) as (_ & _ & p & Hp' & Hi).
  - by eapply pr_addr.
  - congruence.
Qed.
Lemma pr_unfollowed_none a : a ≠ "" → D !! a = None → unfollowed D a.
Proof.
  intros Ha Hd b e He <-. destruct (pr_proxy _ _ Hinv _ _ He Ha) as (_ & _ & p & Hp' & _). congruence.
Qed.
Lemma pr_total_0 a d : D !! a = Some d → De_IsProxy d = false → De_TotalDelegatedTokens d = 0.
Proof. intros Hd Hp. rewrite (pr_total _ _ Hinv _ _ Hd). apply unfollowed_sum. by eapply pr_unfollowed. Qed.
Lemma pr_total_nonneg a d : D !! a = Some d → 0 ≤ De_TotalDelegatedTokens d.
Proof.
  intros Hd. rewrite (pr_total _ _ Hinv _ _ Hd). apply map_sum_nonneg. intros b e He.
  unfold bound_to. case_bool_decide; [|done]. apply Z.lt_le_incl. by eapply pr_tokens.
Qed.

(** One record replaced, with the same proxy. *)
Lemma proxy_patch1 a d d' :
  D !! a = Some d →
  De_ProxyAddress d' = De_ProxyAddress d → De_TotalDelegatedTokens d' = De_TotalDelegatedTokens d →
  0 < De_Tokens d' → (De_ProxyAddress d ≠ "" → De_Tokens d' = De_Tokens d) →
  (De_ProxyAddress d ≠ "" → De_IsProxy d' = false ∧ De_ValidatorAddresses d' = []) →
  (De_IsProxy d' = false → unfollowed D a) →
  proxy_inv (<[a := d']> D) B.
Proof.
  intros Hd Hp Ht Hpos Htok Hb Hf. split.
  - intros b e [[<- <-]|[_ He]]%lookup_insert_Some; by eapply pr_addr.
  - intros b e [[<- <-]|[_ He]]%lookup_insert_Some; [done|by eapply pr_tokens].
  - intros b e He.
    assert (b ≠ "" ∧ ∃ e0, D !! b = Some e0 ∧ De_TotalDelegatedTokens e = De_TotalDelegatedTokens e0)
      as (Hb0 & e0 & He0 & ->).
    { apply lookup_insert_Some in He as [[<- <-]|[_ He]]; split; try by eapply pr_addr; eauto. all: eauto. }
    rewrite map_sum_insert, Hd, (pr_total _ _ Hinv _ _ He0). cbn. unfold bound_to. rewrite Hp.
    case_bool_decide as E; [|lia]. rewrite Htok; [lia|congruence].
  - intros b e [[<- <-]|[Hne He]]%lookup_insert_Some Hpx.
    + rewrite Hp in Hpx. destruct (Hb Hpx). split; [done|]. split; [done|].
      destruct (pr_proxy _ _ Hinv _ _ Hd Hpx) as (Hi & _ & P & HP & HiP). exists P.
      rewrite Hp, lookup_insert_ne; [done|]. intros Ea.
      exact (pr_unfollowed a d Hd Hi a d Hd (eq_sym Ea)).
    + destruct (pr_proxy _ _ Hinv _ _ He Hpx) as (Hi & Hl & P & HP & HiP). split; [done|]. split; [done|].
      destruct (decide (De_ProxyAddress e = a)) as [Ea|Hne'].
      * exists d'. rewrite Ea, lookup_insert_eq. split; [done|]. destruct (De_IsProxy d') eqn:E; [done|].
        exfalso. exact (Hf eq_refl _ _ He Ea).
      * exists P. by rewrite lookup_insert_ne.
  - intros p b. rewrite (pr_binding _ _ Hinv). destruct (decide (b = a)) as [->|Hne].
    + rewrite lookup_insert_eq, Hd. naive_solver congruence.
    + by rewrite lookup_insert_ne.
Qed.

(** A delegator and a proxy replaced together: the delegator is bound to the
    proxy or to none, before and after. *)
Lemma proxy_patch2 a d d' p P P' B' :
  a ≠ p → D !! a = Some d → D !! p = Some P →
  De_ProxyAddress P = "" → De_ProxyAddress P' = "" → De_IsProxy P' = true → De_Tokens P' = De_Tokens P →
  De_IsProxy d = false → De_IsProxy d' = false → De_TotalDelegatedTokens d' = De_TotalDelegatedTokens d →
  0 < De_Tokens d' →
  (De_ProxyAddress d = p ∨ De_ProxyAddress d = "") → (De_ProxyAddress d' = p ∨ De_ProxyAddress d' = "") →
  De_ValidatorAddresses d' = [] →
  De_TotalDelegatedTokens P' = De_TotalDelegatedTokens P - bound_to p d + bound_to p d' →
  (∀ x y, (x, y) ∈ B' ↔ if bool_decide (y = a) then x = p ∧ De_ProxyAddress d' = p else (x, y) ∈ B) →
  proxy_inv (<[p := P']> (<[a := d']> D)) B'.
Proof.
  intros Hne Hd HP Hp0 Hp0' Hip' Htok Hi Hi' Htot Hpos Hor Hor' Hl Hsum HB.
  pose proof (pr_addr _ _ Hinv _ _ HP) as Hpn.
  pose proof (pr_unfollowed _ _ Hd Hi) as Hu.
  assert (∀ b e, <[p := P']> (<[a := d']> D) !! b = Some e →
    (b = p ∧ e = P') ∨ (b = a ∧ e = d') ∨ (b ≠ p ∧ b ≠ a ∧ D !! b = Some e)) as Hcase.
  { intros b e [[<- <-]|[H1 [[<- <-]|[H2 H3]]%lookup_insert_Some]]%lookup_insert_Some; auto. }
  assert (∀ b, b ≠ "" → b ≠ p → De_ProxyAddress d ≠ b ∧ De_ProxyAddress d' ≠ b) as Hnb.
  { intros b H1 H2. split; [destruct Hor|destruct Hor']; congruence. }
  split.
  - intros b e [[-> ->]|[[-> ->]|(_ & _ & He)]]%Hcase; by eapply pr_addr.
  - intros b e [[-> ->]|[[-> ->]|(_ & _ & He)]]%Hcase; [rewrite Htok|done|]; by eapply pr_tokens.
  - intros b e He. rewrite map_sum_insert, lookup_insert_ne, HP, map_sum_insert, Hd by done. cbn [at_key].
    assert (b ≠ "") as Hb0.
    { apply Hcase in He as [[-> ->]|[[-> ->]|(_ & _ & He)]]; by eapply pr_addr. }
    assert (bound_to b P = 0 ∧ bound_to b P' = 0) as [-> ->].
    { unfold bound_to. rewrite Hp0, Hp0', !bool_decide_false by done. done. }
    apply Hcase in He as [[-> ->]|[[-> ->]|(H1 & H2 & He)]].
    + rewrite Hsum, (pr_total _ _ Hinv _ _ HP). lia.
    + rewrite Htot, (pr_total _ _ Hinv _ _ Hd). destruct (Hnb a Hb0 Hne). unfold bound_to at 3 4.
      rewrite !bool_decide_false by done. lia.
    + rewrite (pr_total _ _ Hinv _ _ He). destruct (Hnb b Hb0 H1). unfold bound_to at 3 4.
      rewrite !bool_decide_false by done. lia.
  - intros b e He Hpx. apply Hcase in He as [[-> ->]|[[-> ->]|(H1 & H2 & He)]]; [done|..].
    + split; [done|]. split; [done|]. destruct Hor' as [E|E]; [|done]. rewrite E, lookup_insert_eq. eauto.
    + destruct (pr_proxy _ _ Hinv _ _ He Hpx) as (Hie & Hle & Q & HQ & HiQ). split; [done|]. split; [done|].
      destruct (decide (De_ProxyAddress e = p)) as [Ep|Hne1]; [rewrite Ep, lookup_insert_eq; eauto|].
      rewrite lookup_insert_ne by congruence.
      rewrite lookup_insert_ne by exact (λ Ea, Hu _ _ He (eq_sym Ea)). eauto.
  - intros x y. rewrite HB. case_bool_decide as E.
    + subst y. rewrite lookup_insert_ne, lookup_insert_eq by congruence. split.
      * intros [-> E]. split; [done|eauto].
      * intros (Hx & e & [= <-] & <-). destruct Hor' as [E|E]; [done|congruence].
    + rewrite (pr_binding _ _ Hinv). destruct (decide (y = p)) as [->|Hyp].
      * rewrite lookup_insert_eq, HP. naive_solver congruence.
      * by rewrite !lookup_insert_ne by congruence.
Qed.

Lemma proxy_delete a d :
  D !! a = Some d → De_IsProxy d = false → De_ProxyAddress d = "" → proxy_inv (delete a D) B.
Proof.
  intros Hd Hi Hp. pose proof (pr_unfollowed _ _ Hd Hi) as Hu. split.
  - intros b e [_ He]%lookup_delete_Some. by eapply pr_addr.
  - intros b e [_ He]%lookup_delete_Some. by eapply pr_tokens.
  - intros b e [_ He]%lookup_delete_Some. rewrite map_sum_delete, Hd, (pr_total _ _ Hinv _ _ He). cbn.
    unfold bound_to. rewrite bool_decide_false; [lia|]. rewrite Hp. intros <-. by eapply pr_addr.
  - intros b e [_ He]%lookup_delete_Some Hpx.
    destruct (pr_proxy _ _ Hinv _ _ He Hpx) as (Hie & Hle & Q & HQ & HiQ). split; [done|]. split; [done|].
    exists Q. rewrite lookup_delete_ne; [done|]. exact (λ Ea, Hu _ _ He (eq_sym Ea)).
  - intros x y. rewrite (pr_binding _ _ Hinv). destruct (decide (y = a)) as [->|Hne].
    + rewrite lookup_delete_eq, Hd. naive_solver congruence.
    + by rewrite lookup_delete_ne.
Qed.

Lemma proxy_add a d :
  D !! a = None → a ≠ "" → 0 < De_Tokens d → De_TotalDelegatedTokens d = 0 → De_ProxyAddress d = "" →
  proxy_inv (<[a := d]> D) B.
Proof.
  intros Hd Ha Hpos Ht Hp. pose proof (pr_unfollowed_none _ Ha Hd) as Hu.
  assert (∀ b, b ≠ "" → map_sum (bound_to b) (<[a := d]> D) = map_sum (bound_to b) D) as Es.
  { intros b Hb. rewrite map_sum_fresh by done. unfold bound_to at 1. rewrite Hp, bool_decide_false by done. lia. }
  split.
  - intros b e [[<- <-]|[_ He]]%lookup_insert_Some; [done|by eapply pr_addr].
  - intros b e [[<- <-]|[_ He]]%lookup_insert_Some; [done|by eapply pr_tokens].
  - intros b e [[<- <-]|[_ He]]%lookup_insert_Some.
    + rewrite Es by done. by rewrite unfollowed_sum.
    + rewrite Es by (by eapply pr_addr). by apply (pr_total _ _ Hinv).
  - intros b e [[<- <-]|[_ He]]%lookup_insert_Some Hpx; [done|].
    destruct (pr_proxy _ _ Hinv _ _ He Hpx) as (Hie & Hle & Q & HQ & HiQ). split; [done|]. split; [done|].
    exists Q. rewrite lookup_insert_ne; [done|]. exact (λ Ea, Hu _ _ He (eq_sym Ea)).
  - intros x y. rewrite (pr_binding _ _ Hinv). destruct (decide (y = a)) as [->|Hne].
    + rewrite lookup_insert_eq, Hd. split; [naive_solver|]. intros (Hx & e & [= <-] & E). congruence.
    + by rewrite lookup_insert_ne.
Qed.

End ProxyInv.

(** ** The invariant of the module *)

Section Inv.
Context {K : Type} `{CoinKeeper K} `{!CoinKeeperLaws K} `{!DelegationKeeper K} `{!DelegationKeeperLaws K}.
Context `{!StakingHooks K} `{cfgS : StakingConfig} `{bansS : !Bans} `{engS : !Engine}.
Context (bonded notBonded : string) `{!StakingLaws K bonded notBonded} (Hw : weights_ok).
Implicit Types (s : StakingState K).

#[local] Abbreviation okt := DefaultBondDenom.

(** Accounts other than the two pools: those that sign messages.  Accounts of
    modules do not: they are on the list of those that the bank does not
    pay. *)
Definition outsider (a : string) : Prop :=
  a ≠ bonded ∧ a ≠ notBonded ∧ a ≠ "" ∧ ck_Blacklisted (S := K) a = false.

(** The bonded pool holds the deposits of delegators and validators, the
    other pool what is being undelegated; [lost] is what it holds beyond. *)
Record money_inv (lost : Z) (k : K) (D : gmap string Delegator) (V : gmap string Validator)
    (U : gmap string UndelegationInfo) : Prop := {
  mo_wf : ck_wf k;
  mo_bonded : ck_balance k bonded okt = map_sum De_Tokens D + map_sum Va_MinSelfDelegation V;
  mo_notBonded : ck_balance k notBonded okt = map_sum Ud_Quantity U + lost }.

(** What is being undelegated. *)
Record undel_inv (U : gmap string UndelegationInfo) : Prop := {
  ud_key a u : U !! a = Some u → Ud_DelegatorAddress u = a ∧ outsider a;
  ud_pos a u : U !! a = Some u → 0 < Ud_Quantity u }.

Record params_inv (p : StakingParams) : Prop := {
  pa_unbonding : 0 < Sp_UnbondingTime p;
  pa_maxVals : 0 < Sp_MaxValidators p < 2 ^ 16;
  pa_epoch : 0 < Sp_Epoch p;
  pa_min : 0 < Sp_MinDelegation p;
  pa_msd : 0 < Sp_MinSelfDelegation p }.

Record staking_inv (lost : Z) s : Prop := {
  sv_money : money_inv lost (sg_k s) (st_delegators (sg_stakes s)) (vs_validators (sg_vals s))
    (st_undelegations (sg_stakes s));
  sv_undel : undel_inv (st_undelegations (sg_stakes s));
  sv_proxy : proxy_inv (st_delegators (sg_stakes s)) (st_proxies (sg_stakes s));
  sv_votes : votes_inv_of s;
  sv_params : params_inv (sg_params s);
  sv_lost : 0 ≤ lost }.

(** ** Moves of coins *)

Lemma keeps_money lost k k' D V V' U :
  keeps bonded notBonded k k' → map_sum Va_MinSelfDelegation V' = map_sum Va_MinSelfDelegation V →
  money_inv lost k D V U → money_inv lost k' D V' U.
Proof. intros [W B N] E [M1 M2 M3]. split; [auto|by rewrite B, E|by rewrite N]. Qed.

Lemma delegate_Ok a token k u k' :
  outsider a → Denom token = okt → ck_wf k →
  ck_DelegateCoinsFromAccountToModule a BondedPoolName [token] k = (Ok u, k') →
  ck_wf k' ∧ ck_balance k' bonded okt = ck_balance k bonded okt + Amount token ∧
  ck_balance k' notBonded okt = ck_balance k notBonded okt.
Proof.
  intros (H1 & H2 & _) Hd Hk E. apply law_Delegate in E as (addr & Ha & M); [|done].
  rewrite sl_bonded in Ha. injection Ha as <-. pose proof sl_ne as Hne.
  split; [by apply (km_wf _ _ _ _ _ M)|]. rewrite !(km_balance _ _ _ _ _ M). unfold at_addr.
  rewrite amount_of_cons, Hd, String.eqb_refl, amount_of_nil.
  split; repeat (case_decide; try congruence); lia.
Qed.

Lemma bondedToNot_Ok token s u s' :
  Denom token = okt → ck_wf (sg_k s) → bondedTokensToNotBonded token s = (Ok u, s') →
  ∃ k', s' = sg_set_k k' s ∧ ck_wf k' ∧
    ck_balance k' bonded okt = ck_balance (sg_k s) bonded okt - Amount token ∧
    ck_balance k' notBonded okt = ck_balance (sg_k s) notBonded okt + Amount token.
Proof.
  intros Hd Hk. unfold bondedTokensToNotBonded. intros (c & s1 & H1 & H2)%M_bind_Ok.
  apply lift_Ok in H1 as [Hc ->]. unfold orPanic in H2.
  destruct (on_keeper _ s) as [[a|e|p] s1] eqn:E; simplify_eq. unfold on_keeper in E.
  apply zoom_Ok in E as (k' & E & ->). exists k'. split; [done|].
  apply law_ModuleToModule in E as (x & y & Hx & Hy & M). rewrite sl_bonded in Hx. rewrite sl_notBonded in Hy.
  injection Hx as <-. injection Hy as <-. pose proof sl_ne as Hne.
  split; [by apply (km_wf _ _ _ _ _ M)|]. rewrite !(km_balance _ _ _ _ _ M). unfold at_addr.
  rewrite !(ToCoins_amount _ _ okt Hc), Hd, String.eqb_refl.
  split; repeat (case_decide; try congruence); lia.
Qed.

(** ** The votes of a delegator brought up to date *)

Definition put_delegator (d : Delegator) s : StakingState K :=
  sg_set_stakes (mkStakes (<[De_DelegatorAddress d := d]> (st_delegators (sg_stakes s)))
    (st_shares (sg_stakes s)) (st_proxies (sg_stakes s)) (st_undelegations (sg_stakes s))
    (st_undelegateQueue (sg_stakes s))) s.
Lemma SetDelegator_run d s : SetDelegator d s = (Ok (), put_delegator d s).
Proof. done. Qed.

Lemma inv_voted lost a d x s s' :
  staking_inv lost s → st_delegators (sg_stakes s) !! a = Some d →
  voted bonded notBonded a (de_set_shares x d) s s' → staking_inv lost s'.
Proof.
  intros [M U P V Pa L] Hd [Ek Ep Es Ev Em]. split; [..|done].
  - rewrite Es. cbn. eapply keeps_money; [done|done|]. destruct M as [M1 M2 M3]. split; [done| |done].
    rewrite M2, map_sum_insert, Hd. cbn. lia.
  - rewrite Es. done.
  - rewrite Es. cbn. eapply proxy_patch1; try done.
    + exact (pr_tokens _ _ P _ _ Hd).
    + intros Hp. destruct (pr_proxy _ _ P _ _ Hd Hp) as (? & ? & _). done.
    + exact (pr_unfollowed _ _ P _ _ Hd).
  - unfold votes_inv_of. rewrite Es at 1. done.
  - by rewrite Ep.
Qed.

Lemma inv_UpdateShares lost ctx a d tokens s u s' :
  staking_inv lost s → st_delegators (sg_stakes s) !! a = Some d → 0 < tokens →
  UpdateShares ctx a tokens s = (Ok u, s') → staking_inv lost s'.
Proof.
  intros I Hd Ht E. destruct (UpdateShares_Ok bonded notBonded _ _ _ _ _ _ _ Hw (sv_votes _ _ I) Hd Ht E).
  by eapply inv_voted.
Qed.

Lemma UpdateProxy_split ctx d P t s u s' :
  De_ProxyAddress d ≠ "" → st_delegators (sg_stakes s) !! De_ProxyAddress d = Some P →
  UpdateProxy ctx d t s = (Ok u, s') →
  0 ≤ De_TotalDelegatedTokens P + t ∧
  UpdateShares ctx (De_DelegatorAddress P) (De_TotalDelegatedTokens P + t + De_Tokens P)
    (put_delegator (de_set_total (De_TotalDelegatedTokens P + t) P) s) = (Ok u, s').
Proof.
  intros Hp HP. unfold UpdateProxy. rewrite (proj2 (HasProxy_spec d) Hp). cbn [negb].
  intros (o & s1 & H1 & H2)%M_bind_Ok. apply gets_Ok in H1 as [-> ->]. rewrite HP in H2.
  apply M_bind_Ok in H2 as (x & s1 & H1 & H2). apply lift_Ok in H1 as [->%checkDec_value ->].
  apply M_bind_Ok in H2 as (u1 & s1 & H1 & H2). apply guard_not_Ok in H1 as [Hlt ->].
  apply M_bind_Ok in H2 as (x & s1 & H1 & H2). apply lift_Ok in H1 as [->%checkDec_value ->].
  apply M_bind_Ok in H2 as (u2 & s1 & H1 & H2). rewrite SetDelegator_run in H1. injection H1 as _ <-.
  split; [|done]. unfold Dec_LT, ZeroDec in Hlt. cbn in Hlt. lia.
Qed.

(** ** Deposits *)

Lemma finalTokensOf_pos D B a d y :
  proxy_inv D B → D !! a = Some d → finalTokensOf d = Ok y → 0 < y.
Proof.
  intros P Hd. pose proof (pr_tokens _ _ P _ _ Hd). pose proof (pr_total_nonneg _ _ P _ _ Hd).
  unfold finalTokensOf. destruct (De_IsProxy d); [intros ->%checkDec_value; lia|by intros [= <-]].
Qed.

(** More or fewer tokens for a delegator without a proxy, or for a new one. *)
Lemma inv_deposit lost lost' a s k' d q :
  staking_inv lost s → a ≠ "" → 0 < De_Tokens d + q → 0 ≤ lost' →
  default (NewDelegator a) (st_delegators (sg_stakes s) !! a) = d → De_ProxyAddress d = "" →
  ck_wf k' → ck_balance k' bonded okt = ck_balance (sg_k s) bonded okt + q →
  ck_balance k' notBonded okt = ck_balance (sg_k s) notBonded okt + lost' - lost →
  staking_inv lost' (put_delegator (de_set_tokens (De_Tokens d + q) d) (sg_set_k k' s)).
Proof.
  intros [[M1 M2 M3] U P V Pa L] Ha Hq L' Ed Hp W Eb En.
  assert (De_DelegatorAddress d = a) as Hk.
  { destruct (st_delegators (sg_stakes s) !! a) as [e|] eqn:He; cbn in Ed; subst; [|done].
    exact (vt_key _ _ _ V _ _ He). }
  unfold put_delegator. cbn [De_DelegatorAddress de_set_tokens]. rewrite Hk.
  split; cbn [sg_k sg_stakes sg_vals sg_params sg_set_k sg_set_stakes st_delegators st_proxies
              st_undelegations st_undelegateQueue st_shares]; try done.
  - split; [done| |rewrite En; lia].
    rewrite Eb, M2, map_sum_insert. cbn. destruct (st_delegators (sg_stakes s) !! a); cbn in *; subst; cbn; unfold ZeroDec; lia.
  - destruct (st_delegators (sg_stakes s) !! a) as [e|] eqn:He; cbn in Ed; subst e || subst d.
    + pose proof (pr_tokens _ _ P _ _ He). eapply proxy_patch1; try done; cbn; try congruence.
      exact (pr_unfollowed _ _ P _ _ He).
    + apply proxy_add; try done; cbn; unfold ZeroDec; lia.
  - unfold votes_inv_of. cbn. destruct (st_delegators (sg_stakes s) !! a) as [e|] eqn:He; cbn in Ed; subst e || subst d.
    + by eapply votes_inv_update.
    + by apply votes_inv_add.
Qed.

(** A bound delegator and its proxy change together. *)
Lemma inv_patch2 lost lost' a d d' p P P' s s' k' :
  staking_inv lost s → st_delegators (sg_stakes s) !! a = Some d → st_delegators (sg_stakes s) !! p = Some P →
  De_IsProxy d = false → De_IsProxy P = true → De_ValidatorAddresses d = [] →
  De_DelegatorAddress d' = a → De_DelegatorAddress P' = p →
  De_IsProxy d' = false → De_IsProxy P' = true → De_ProxyAddress P' = "" → De_Tokens P' = De_Tokens P →
  De_TotalDelegatedTokens d' = De_TotalDelegatedTokens d → 0 < De_Tokens d' → 
  (De_ProxyAddress d = p ∨ De_ProxyAddress d = "") → (De_ProxyAddress d' = p ∨ De_ProxyAddress d' = "") →
  De_ValidatorAddresses d' = [] →
  De_TotalDelegatedTokens P' = De_TotalDelegatedTokens P - bound_to p d + bound_to p d' →
  sg_k s' = k' → ck_wf k' →
  ck_balance k' bonded okt = ck_balance (sg_k s) bonded okt + De_Tokens d' - De_Tokens d →
  ck_balance k' notBonded okt = ck_balance (sg_k s) notBonded okt + lost' - lost → 0 ≤ lost' →
  st_delegators (sg_stakes s') = <[p := P']> (<[a := d']> (st_delegators (sg_stakes s))) →
  votes_inv_of s' →
  map_sum Va_MinSelfDelegation (vs_validators (sg_vals s')) = map_sum Va_MinSelfDelegation (vs_validators (sg_vals s)) →
  st_undelegations (sg_stakes s') = st_undelegations (sg_stakes s) →
  st_undelegateQueue (sg_stakes s') = st_undelegateQueue (sg_stakes s) →
  sg_params s' = sg_params s →
  (∀ x y, (x, y) ∈ st_proxies (sg_stakes s') ↔
    if bool_decide (y = a) then x = p ∧ De_ProxyAddress d' = p else (x, y) ∈ st_proxies (sg_stakes s)) →
  staking_inv lost' s'.
Proof.
  intros [[M1 M2 M3] U P0 V Pa L] Hd HP Hi Hip Hl Ka Kp Hi' Hip' Hpx Htok Htot Hpos Hor Hor' Hl' Hsum
    <- W Eb En L' ED Ev Em EU EQ Epa EB.
  assert (De_ProxyAddress P = "") as HpP.
  { destruct (decide (De_ProxyAddress P = "")) as [|Hne]; [done|].
    destruct (pr_proxy _ _ P0 _ _ HP Hne). congruence. }
  assert (a ≠ p) as Hne by congruence.
  split; try done.
  - split; [done| |].
    + rewrite Eb, M2, ED, Em, map_sum_insert, lookup_insert_ne, HP, map_sum_insert, Hd by done. cbn. lia.
    + rewrite En, M3, EU. lia.
  - by rewrite EU.
  - rewrite ED. eapply (proxy_patch2 _ _ P0 a d d' p P P'); done.
  - by rewrite Epa.
Qed.

Lemma inv_Delegate lost ctx a token s u s' :
  staking_inv lost s → outsider a → Denom token = okt →
  Delegate ctx a token s = (Ok u, s') → staking_inv lost s'.
Proof.
  intros I Ha Hd. unfold Delegate. intros (m & s1 & H1 & H2)%M_bind_Ok. apply gets_Ok in H1 as [-> ->].
  apply M_bind_Ok in H2 as (u1 & s1 & H1 & H2). apply guard_not_Ok in H1 as [Hlt ->].
  assert (0 < Amount token) as Hq.
  { pose proof (pa_min _ (sv_params _ _ I)). unfold Dec_LT in Hlt. lia. }
  apply M_bind_Ok in H2 as (u2 & s1 & H1 & H2). apply zoom_Ok in H1 as (k' & H1 & ->).
  apply delegate_Ok in H1 as (W & Eb & En); [|done|done|apply I].
  apply M_bind_Ok in H2 as (o & s1 & H1 & H2). apply gets_Ok in H1 as [-> ->].
  change (st_delegators (sg_stakes (sg_set_k k' s))) with (st_delegators (sg_stakes s)) in H2.
  set (d := default (NewDelegator a) (st_delegators (sg_stakes s) !! a)) in *.
  apply M_bind_Ok in H2 as (x & s1 & H1 & H2). apply lift_Ok in H1 as [->%checkDec_value ->].
  apply M_bind_Ok in H2 as (u3 & s1 & H1 & H2). rewrite SetDelegator_run in H1. injection H1 as _ <-.
  set (d1 := de_set_tokens (De_Tokens d + Amount token) d) in *.
  destruct (HasProxy d1) eqn:Hp.
  - apply HasProxy_spec in Hp. change (De_ProxyAddress d ≠ "") in Hp.
    destruct (st_delegators (sg_stakes s) !! a) as [d0|] eqn:Hd0; [|done]. cbn in d. subst d.
    destruct (pr_proxy _ _ (sv_proxy _ _ I) _ _ Hd0 Hp) as (Hi & Hl & P & HP & HiP).
    pose proof (vt_key _ _ _ (sv_votes _ _ I) _ _ Hd0) as Ka. pose proof (vt_key _ _ _ (sv_votes _ _ I) _ _ HP) as KP.
    assert (a ≠ De_ProxyAddress d0) as Hne by (intros E; rewrite <- E in HP; congruence).
    pose proof (pr_tokens _ _ (sv_proxy _ _ I) _ _ Hd0). pose proof (pr_tokens _ _ (sv_proxy _ _ I) _ _ HP).
    assert (st_delegators (sg_stakes (put_delegator d1 (sg_set_k k' s))) !! De_ProxyAddress d1 = Some P) as HP1.
    { cbn. rewrite Ka, lookup_insert_ne by done. exact HP. }
    destruct (UpdateProxy_split _ _ _ _ _ _ _ Hp HP1 H2) as [Hnn E]. rewrite KP in E.
    eapply inv_UpdateShares; [..|exact E]; [|cbn; rewrite KP; apply lookup_insert_eq|lia].
    set (P1 := de_set_total (De_TotalDelegatedTokens P + Amount token) P).
    assert (De_ProxyAddress P = "") as HpP.
    { destruct (decide (De_ProxyAddress P = "")) as [|Hne']; [done|].
      destruct (pr_proxy _ _ (sv_proxy _ _ I) _ _ HP Hne'). congruence. }
    eapply (inv_patch2 lost lost a d0 d1 (De_ProxyAddress d0) P P1); try done; cbn; try lia.
    + by left.
    + by left.
    + unfold bound_to. cbn. rewrite bool_decide_true by done. lia.
    + apply I.
    + by rewrite Ka, KP.
    + unfold votes_inv_of. cbn. rewrite Ka, KP. apply (votes_inv_update _ _ _ _ P); try done.
      * apply (votes_inv_update _ _ _ _ d0); try done. exact (sv_votes _ _ I).
      * by rewrite lookup_insert_ne.
    + intros x y. case_bool_decide as E'; [|done]. subst y.
      rewrite (pr_binding _ _ (sv_proxy _ _ I)), Hd0. naive_solver congruence.
  - apply HasProxy_false in Hp. change (De_ProxyAddress d = "") in Hp.
    apply M_bind_Ok in H2 as (y & s1 & H1 & H2). apply lift_Ok in H1 as [Hy ->].
    assert (staking_inv lost (put_delegator d1 (sg_set_k k' s))) as I1.
    { eapply (inv_deposit lost lost); try done; [apply Ha| |apply I|lia].
      destruct (st_delegators (sg_stakes s) !! a) as [e|] eqn:He; [|cbn; unfold ZeroDec; lia].
      pose proof (pr_tokens _ _ (sv_proxy _ _ I) _ _ He). cbn in d. subst d. lia. }
    assert (st_delegators (sg_stakes (put_delegator d1 (sg_set_k k' s))) !! De_DelegatorAddress d1 = Some d1) as E1
      by apply lookup_insert_eq.
    eapply inv_UpdateShares; [exact I1|exact E1| |exact H2].
    exact (finalTokensOf_pos _ _ _ _ _ (sv_proxy _ _ I1) E1 Hy).
Qed.

(** ** Withdrawals *)

(** An undelegation recorded over the one that was there. *)
Lemma inv_set_undelegation lost lost' s s' a u :
  staking_inv lost s → Ud_DelegatorAddress u = a → outsider a → 0 < Ud_Quantity u →
  0 ≤ lost' → lost' = lost + at_key Ud_Quantity (st_undelegations (sg_stakes s) !! a) - Ud_Quantity u →
  sg_k s' = sg_k s → sg_vals s' = sg_vals s → sg_params s' = sg_params s →
  st_delegators (sg_stakes s') = st_delegators (sg_stakes s) →
  st_shares (sg_stakes s') = st_shares (sg_stakes s) →
  st_proxies (sg_stakes s') = st_proxies (sg_stakes s) →
  st_undelegations (sg_stakes s') = <[a := u]> (st_undelegations (sg_stakes s)) →
  staking_inv lost' s'.
Proof.
  intros [[M1 M2 M3] U P V Pa L] Hu Ha Hq L' El Ek Ev Ep ED ES EB EU. split; try done.
  - rewrite Ek, Ev, ED, EU. split; [done..|]. rewrite M3, map_sum_insert. lia.
  - rewrite EU. split.
    + intros b w [[<- <-]|[_ Hb]]%lookup_insert_Some; [done|by apply (ud_key _ U)].
    + intros b w [[<- <-]|[_ Hb]]%lookup_insert_Some; [done|by eapply (ud_pos _ U)].
  - by rewrite ED, EB.
  - unfold votes_inv_of. by rewrite ED, ES, Ev.
  - by rewrite Ep.
Qed.

Lemma mul_minus_one x y z : NewDec (-1) = Ok y → Dec_Mul x y = Ok z → z = - x.
Proof.
  intros [= <-] ->%checkDec_value. change (-1 * _) with (- precisionReuse).
  replace (x * - precisionReuse) with (- x * precisionReuse) by lia. apply chop_unit.
Qed.

(** All tokens of a delegator without a proxy taken out. *)
Lemma inv_leave lost ctx a d s s1 k' u s' :
  staking_inv lost s → st_delegators (sg_stakes s) !! a = Some d →
  De_IsProxy d = false → De_ProxyAddress d = "" → s1 = sg_set_k k' s →
  ck_wf k' → ck_balance k' bonded okt = ck_balance (sg_k s) bonded okt - De_Tokens d →
  ck_balance k' notBonded okt = ck_balance (sg_k s) notBonded okt + De_Tokens d →
  WithdrawLastShares ctx a (omap (λ v, vs_validators (sg_vals s1) !! v) (De_ValidatorAddresses d))
    (De_Shares d) s1 = (Ok u, s') →
  ∀ s2, DeleteDelegator a s' = (Ok u, s2) → staking_inv (lost + De_Tokens d) s2.
Proof.
  intros [[M1 M2 M3] U P V Pa L] Hd Hi Hp -> W Eb En H1 s2 H2.
  pose proof (pr_tokens _ _ P _ _ Hd).
  apply (WithdrawLastShares_Ok bonded notBonded) in H1 as (ED & [Ek Epa _ Ev Em] & Es);
    [|done|done].
  st_inv. cbn in *. split; cbn [sg_k sg_stakes sg_vals sg_params sg_set_stakes st_delegators st_proxies
    st_undelegations st_undelegateQueue st_shares]; try lia.
  - eapply keeps_money; [exact Ek|exact Em|]. rewrite Es. cbn. split; [done| |].
    + rewrite Eb, M2, map_sum_delete, Hd. cbn. lia.
    + rewrite En, M3. lia.
  - rewrite Es. cbn. done.
  - rewrite Es. cbn. by eapply proxy_delete.
  - unfold votes_inv_of. cbn. rewrite ED. rewrite <- (delete_insert_eq _ a (set_votes [] 0 d)).
    eapply votes_inv_del; [exact Ev|apply lookup_insert_eq|done].
  - by rewrite Epa.
Qed.

(** The proxy of a bound delegator gives up [q] tokens. *)
Lemma UpdateProxy_minus lost ctx a d P q s k' u s' :
  staking_inv lost s → st_delegators (sg_stakes s) !! a = Some d → De_ProxyAddress d ≠ "" →
  st_delegators (sg_stakes s) !! De_ProxyAddress d = Some P →
  UpdateProxy ctx d (- q) (sg_set_k k' s) = (Ok u, s') →
  ∃ P2, keeps bonded notBonded k' (sg_k s') ∧ sg_params s' = sg_params s ∧
    sg_stakes s' = mkStakes (<[De_ProxyAddress d := P2]> (st_delegators (sg_stakes s))) (st_shares (sg_stakes s'))
      (st_proxies (sg_stakes s)) (st_undelegations (sg_stakes s)) (st_undelegateQueue (sg_stakes s)) ∧
    votes_inv_of s' ∧
    map_sum Va_MinSelfDelegation (vs_validators (sg_vals s')) = map_sum Va_MinSelfDelegation (vs_validators (sg_vals s)) ∧
    De_DelegatorAddress P2 = De_ProxyAddress d ∧ De_IsProxy P2 = De_IsProxy P ∧
    De_ProxyAddress P2 = De_ProxyAddress P ∧ De_Tokens P2 = De_Tokens P ∧
    De_TotalDelegatedTokens P2 = De_TotalDelegatedTokens P - q.
Proof.
  intros I Hd Hp HP E. pose proof (vt_key _ _ _ (sv_votes _ _ I) _ _ HP) as KP.
  destruct (UpdateProxy_split ctx d P (- q) (sg_set_k k' s) u s' Hp HP E) as [Hnn E1].
  pose proof (pr_tokens _ _ (sv_proxy _ _ I) _ _ HP).
  set (P1 := de_set_total _ P) in *.
  assert (votes_inv_of (put_delegator P1 (sg_set_k k' s))) as V1.
  { unfold votes_inv_of. cbn. eapply votes_inv_update; [exact (sv_votes _ _ I)|by rewrite KP|done..]. }
  assert (0 < De_TotalDelegatedTokens P + - q + De_Tokens P) as Ht by lia.
  destruct (UpdateShares_Ok bonded notBonded _ _ P1 _ _ _ _ Hw V1 (lookup_insert_eq _ _ _) Ht E1) as [x Ev].
  destruct Ev as [Ek Epa Es Evt Em]. cbn in Ek, Epa, Es, Evt, Em.
  rewrite KP, insert_insert_eq in Es, Evt.
  exists (de_set_shares x P1). split; [done|]. split; [done|]. split; [done|].
  split; [unfold votes_inv_of; rewrite Es at 1; done|]. split; [done|].
  split; [exact KP|]. split; [done|]. split; [done|]. split; [done|]. cbn. lia.
Qed.

(** A bound delegator withdraws a part, or all. *)
Lemma inv_bound_withdraw lost ctx a d q s k' u s2 :
  staking_inv lost s → st_delegators (sg_stakes s) !! a = Some d → De_ProxyAddress d ≠ "" →
  0 < q ≤ De_Tokens d → ck_wf k' →
  ck_balance k' bonded okt = ck_balance (sg_k s) bonded okt - q →
  ck_balance k' notBonded okt = ck_balance (sg_k s) notBonded okt + q →
  UpdateProxy ctx d (- q) (sg_set_k k' s) = (Ok u, s2) →
  st_delegators (sg_stakes s2) !! a = Some d ∧ votes_inv_of s2 ∧
  (q < De_Tokens d → staking_inv (lost + q) (put_delegator (de_set_tokens (De_Tokens d - q) d) s2)) ∧
  (q = De_Tokens d → ∀ s3, (_ ← SetProxyBinding (De_ProxyAddress d) a true; DeleteDelegator a) s2 = (Ok u, s3) →
    staking_inv (lost + q) s3).
Proof.
  intros I Hd Hp Hq W Eb En E.
  destruct (pr_proxy _ _ (sv_proxy _ _ I) _ _ Hd Hp) as (Hi & Hl & P & HP & HiP).
  destruct (UpdateProxy_minus _ _ _ _ _ _ _ _ _ _ I Hd Hp HP E)
    as (P2 & Ek & Epa & Es & Ev & Em & K2 & I2 & X2 & T2 & S2).
  pose proof (vt_key _ _ _ (sv_votes _ _ I) _ _ Hd) as Ka.
  assert (a ≠ De_ProxyAddress d) as Hne by (intros Ea; rewrite <- Ea in HP; congruence).
  assert (De_ProxyAddress P = "") as HpP.
  { destruct (decide (De_ProxyAddress P = "")) as [|Hne']; [done|].
    destruct (pr_proxy _ _ (sv_proxy _ _ I) _ _ HP Hne'). congruence. }
  assert (st_delegators (sg_stakes s2) !! a = Some d) as Hd2 by (rewrite Es; cbn; by rewrite lookup_insert_ne).
  pose proof (sv_lost _ _ I). destruct Ek as [Wk Bk Nk].
  split; [done|]. split; [done|]. split.
  - intros Hlt.
    eapply (inv_patch2 lost (lost + q) a d (de_set_tokens (De_Tokens d - q) d) (De_ProxyAddress d) P P2);
      try done; cbn; try lia.
    + congruence.
    + congruence.
    + by left.
    + by left.
    + unfold bound_to. cbn. rewrite bool_decide_true by done. lia.
    + auto.
    + rewrite Bk. lia.
    + rewrite Nk. lia.
    + rewrite Es, Ka. cbn. by rewrite insert_insert_ne.
    + unfold votes_inv_of. cbn. rewrite Ka. by apply (votes_inv_update _ _ _ _ d).
    + by rewrite Es.
    + by rewrite Es.
    + intros x y. rewrite Es. cbn. case_bool_decide as E'; [|done]. subst y.
      rewrite (pr_binding _ _ (sv_proxy _ _ I)), Hd. naive_solver congruence.
  - clear Ka. intros Eq s3 H3. st_inv. destruct I as [[M1 M2 M3] U P0 V Pa L].
    assert (delete a (st_delegators (sg_stakes s2))
      = delete a (<[De_ProxyAddress d := P2]> (<[a := UnbindProxy d]> (st_delegators (sg_stakes s))))) as ED.
    { rewrite Es. cbn. rewrite !(delete_insert_ne _ a (De_ProxyAddress d)) by done. by rewrite delete_insert_eq. }
    split; cbn [sg_k sg_stakes sg_vals sg_params sg_set_stakes st_delegators st_proxies
      st_undelegations st_undelegateQueue st_shares]; try done; try lia.
    + split; [auto| |].
      * rewrite Bk, Eb, M2, Em, map_sum_delete, Hd2, Es. cbn. rewrite map_sum_insert, HP. cbn. lia.
      * rewrite Nk, En, M3, Es. cbn. lia.
    + rewrite Es. cbn. done.
    + rewrite ED. eapply proxy_delete;
        [eapply (proxy_patch2 _ _ P0 a d (UnbindProxy d) (De_ProxyAddress d) P P2)
        |rewrite lookup_insert_ne, lookup_insert_eq by done; done|done|done]; try done; cbn; try congruence.
      * by eapply (pr_tokens _ _ P0).
      * by left.
      * by right.
      * unfold bound_to. cbn. rewrite bool_decide_true, bool_decide_false by congruence. lia.
      * intros b y. rewrite Es. cbn. rewrite elem_of_difference, not_elem_of_singleton.
        case_bool_decide as E'; [|naive_solver]. subst y. rewrite (pr_binding _ _ P0), Hd. naive_solver congruence.
    + unfold votes_inv_of. cbn. by eapply votes_inv_del.
    + by rewrite Epa.
Qed.

(** The end of a withdrawal: the tokens join a pending undelegation. *)
Definition queue_withdrawal (ctx : Ctx) (a : string) (q : Dec) : M (StakingState K) Z :=
  unbonding ← gets (λ s, Sp_UnbondingTime (sg_params s));
  let completionTime := BlockTime ctx + unbonding in
  o ← GetUndelegating a;
  _ ← (match o with
       | None => SetUndelegating (mkUndelegation a q completionTime)
       | Some u =>
           _ ← DeleteAddrByTimeKey (Ud_CompletionTime u) a;
           x ← lift (Dec_Add (Ud_Quantity u) q);
           SetUndelegating (mkUndelegation (Ud_DelegatorAddress u) x completionTime)
       end);
  _ ← SetAddrByTimeKeyWithNilValue completionTime a;
  mret completionTime.

Lemma inv_queue_withdrawal lost ctx a q s t s' :
  staking_inv (lost + q) s → 0 ≤ lost → 0 < q → outsider a →
  queue_withdrawal ctx a q s = (Ok t, s') → staking_inv lost s'.
Proof.
  intros I L Hq Ha. unfold queue_withdrawal. intros (p & s1 & H1 & H2)%M_bind_Ok. apply gets_Ok in H1 as [-> ->].
  apply M_bind_Ok in H2 as (o & s1 & H1 & H2). apply gets_Ok in H1 as [-> ->].
  apply M_bind_Ok in H2 as (u1 & s1 & H1 & H2). apply M_bind_Ok in H2 as (u2 & s2 & H3 & H2).
  apply mret_Ok in H2 as [-> ->].
  destruct (st_undelegations (sg_stakes s) !! a) as [u|] eqn:Hu.
  - destruct (ud_key _ (sv_undel _ _ I) _ _ Hu) as [Ku _]. pose proof (ud_pos _ (sv_undel _ _ I) _ _ Hu).
    apply M_bind_Ok in H1 as (u3 & s3 & H1 & H4). apply M_bind_Ok in H4 as (x & s4 & H4 & H5).
    apply lift_Ok in H4 as [->%checkDec_value ->]. rewrite Ku in H5. clear Ku. st_inv.
    eapply (inv_set_undelegation _ lost _ _ a (mkUndelegation a (Ud_Quantity u + q) _) I);
      try done; cbn; try lia; by rewrite Hu; cbn; lia.
  - st_inv. eapply (inv_set_undelegation _ lost _ _ a (mkUndelegation a q _) I);
      try done; cbn; try lia; by rewrite Hu; cbn; lia.
Qed.

Lemma inv_Withdraw lost ctx a token s t s' :
  staking_inv lost s → outsider a → Denom token = okt →
  Withdraw ctx a token s = (Ok t, s') → staking_inv lost s'.
Proof.
  intros I Ha Hdn. unfold Withdraw. intros (o & s1 & H1 & H2)%M_bind_Ok. apply gets_Ok in H1 as [-> ->].
  destruct (st_delegators (sg_stakes s) !! a) as [d|] eqn:Hd; [|by apply fail_Ok in H2].
  apply M_bind_Ok in H2 as (m & s1 & H1 & H2). apply gets_Ok in H1 as [-> ->].
  apply M_bind_Ok in H2 as (u1 & s1 & H1 & H2). apply guard_not_Ok in H1 as [Hmin ->].
  apply M_bind_Ok in H2 as (u2 & s1 & H1 & H2). apply guard_not_Ok in H1 as [Hle ->].
  apply M_bind_Ok in H2 as (left & s1 & H1 & H2). apply lift_Ok in H1 as [->%checkDec_value ->].
  apply M_bind_Ok in H2 as (u3 & s1 & H1 & H2). apply guard_not_Ok in H1 as [Hpx ->].
  apply M_bind_Ok in H2 as (u4 & s1 & H1 & H2).
  assert (0 < Amount token ≤ De_Tokens d) as Hq.
  { pose proof (pa_min _ (sv_params _ _ I)). unfold Dec_LT in *. lia. }
  apply bondedToNot_Ok in H1 as (k' & -> & W & Eb & En); [|done|apply I].
  apply M_bind_Ok in H2 as (u5 & s1 & H1 & H2). apply M_bind_Ok in H2 as (u6 & s2 & H3 & H2).
  pose proof (sv_lost _ _ I) as L.
  apply (inv_queue_withdrawal lost) in H2; [done| |done|lia|done]. clear H2.
  pose proof (vt_key _ _ _ (sv_votes _ _ I) _ _ Hd) as Ka.
  destruct (HasProxy d) eqn:Hp.
  - apply HasProxy_spec in Hp. apply M_bind_Ok in H1 as (x & s3 & H1 & H2). apply lift_Ok in H1 as [Hx ->].
    apply M_bind_Ok in H2 as (y & s3 & H1 & H2). apply lift_Ok in H1 as [Hy ->].
    rewrite (mul_minus_one _ _ _ Hx Hy) in H2.
    destruct (pr_proxy _ _ (sv_proxy _ _ I) _ _ Hd Hp) as (_ & Hl & _).
    destruct (inv_bound_withdraw _ _ _ _ _ _ _ _ _ I Hd Hp Hq W Eb En H2) as (Hd1 & V1 & Hpart & Hall).
    destruct (Dec_IsZero (De_Tokens d - Amount token)) eqn:Hz; unfold Dec_IsZero in Hz; bool_prop.
    + apply M_bind_Ok in H3 as ([vals last] & s3 & H1 & H3).
      apply (GetLast_Ok _ _ _ _ _ V1 Hd1) in H1 as [-> E]. injection E as -> ->.
      rewrite Hl in H3. cbn [omap list_omap] in H3.
      apply M_bind_Ok in H3 as (u7 & s3 & H1 & H3). unfold WithdrawLastShares in H1.
      cbn in H1. injection H1 as _ <-. destruct u5, u6. apply Hall; [lia|done].
    + apply M_bind_Ok in H3 as (u7 & s3 & H1 & H3). rewrite SetDelegator_run in H1. injection H1 as _ <-.
      change (HasProxy (de_set_tokens (De_Tokens d - Amount token) d)) with (HasProxy d) in H3.
      rewrite (proj2 (HasProxy_spec d) Hp) in H3. apply mret_Ok in H3 as [_ ->]. apply Hpart. lia.
  - apply HasProxy_false in Hp. apply mret_Ok in H1 as [_ ->].
    destruct (Dec_IsZero (De_Tokens d - Amount token)) eqn:Hz; unfold Dec_IsZero in Hz; bool_prop.
    + rewrite andb_true_r in Hpx. assert (Amount token = De_Tokens d) as Eq by lia.
      apply M_bind_Ok in H3 as ([vals last] & s3 & H1 & H3).
      apply (GetLast_Ok a d (sg_set_k k' s) _ _ (sv_votes _ _ I) Hd) in H1 as [-> E]. injection E as -> ->.
      apply M_bind_Ok in H3 as (u7 & s3 & H1 & H3). apply M_bind_Ok in H3 as (u8 & s4 & H4 & H3).
      apply mret_Ok in H4 as [_ ->]. destruct u6, u7. rewrite Eq in *.
      eapply (inv_leave lost ctx a d s _ k'); try done; lia.
    + apply M_bind_Ok in H3 as (u7 & s3 & H1 & H3). rewrite SetDelegator_run in H1. injection H1 as _ <-.
      change (HasProxy (de_set_tokens (De_Tokens d - Amount token) d)) with (HasProxy d) in H3.
      rewrite (proj2 (HasProxy_false d) Hp) in H3.
      apply M_bind_Ok in H3 as (y & s3 & H1 & H3). apply lift_Ok in H1 as [Hy ->].
      assert (staking_inv (lost + Amount token)
        (put_delegator (de_set_tokens (De_Tokens d + - Amount token) d) (sg_set_k k' s))) as I1.
      { eapply (inv_deposit lost _ a); try done; [apply Ha|lia|lia|by rewrite Hd|lia]. }
      replace (De_Tokens d + - Amount token) with (De_Tokens d - Amount token) in I1 by lia.
      set (d1 := de_set_tokens (De_Tokens d - Amount token) d) in *.
      assert (st_delegators (sg_stakes (put_delegator d1 (sg_set_k k' s))) !! De_DelegatorAddress d1 = Some d1) as E1
        by apply lookup_insert_eq.
      eapply inv_UpdateShares; [exact I1|exact E1| |exact H3].
      exact (finalTokensOf_pos _ _ _ _ _ (sv_proxy _ _ I1) E1 Hy).
Qed.

(** ** Proxies *)


Lemma proxy_unbound lost s p P :
  staking_inv lost s → st_delegators (sg_stakes s) !! p = Some P → De_IsProxy P = true → De_ProxyAddress P = "".
Proof.
  intros I HP Hi. destruct (decide (De_ProxyAddress P = "")) as [|Hne]; [done|].
  destruct (pr_proxy _ _ (sv_proxy _ _ I) _ _ HP Hne). congruence.
Qed.

Lemma inv_unbindProxy lost ctx a s u s' :
  staking_inv lost s → unbindProxy ctx a s = (Ok u, s') →
  staking_inv lost s' ∧ ∃ d, st_delegators (sg_stakes s) !! a = Some d ∧ De_ProxyAddress d ≠ "" ∧
    st_delegators (sg_stakes s') !! a = Some (UnbindProxy d) ∧
    ∀ b, b ≠ a → b ≠ De_ProxyAddress d →
      st_delegators (sg_stakes s') !! b = st_delegators (sg_stakes s) !! b.
Proof.
  intros I. unfold unbindProxy. intros (o & s1 & H1 & H2)%M_bind_Ok. apply gets_Ok in H1 as [-> ->].
  destruct (st_delegators (sg_stakes s) !! a) as [d|] eqn:Hd; [|by apply fail_Ok in H2].
  apply M_bind_Ok in H2 as (o & s1 & H1 & H2). apply gets_Ok in H1 as [-> ->].
  destruct (st_delegators (sg_stakes s) !! De_ProxyAddress d) as [P|] eqn:HP; [|by apply fail_Ok in H2].
  pose proof (pr_addr _ _ (sv_proxy _ _ I) _ _ HP) as Hp.
  apply M_bind_Ok in H2 as (x & s1 & H1 & H2). apply lift_Ok in H1 as [Hx ->].
  apply M_bind_Ok in H2 as (y & s1 & H1 & H2). apply lift_Ok in H1 as [Hy ->].
  rewrite (mul_minus_one _ _ _ Hx Hy) in H2.
  apply M_bind_Ok in H2 as (u1 & s1 & H1 & H2). apply replaceErr_Ok in H1.
  replace s with (sg_set_k (sg_k s) s) in H1 by (by destruct s).
  destruct (UpdateProxy_minus _ _ _ _ _ _ _ _ _ _ I Hd Hp HP H1)
    as (P2 & Ek & Epa & Es & Ev & Em & K2 & I2 & X2 & T2 & S2).
  destruct (pr_proxy _ _ (sv_proxy _ _ I) _ _ Hd Hp) as (Hi & Hl & P' & HP' & HiP).
  rewrite HP in HP'. injection HP' as <-.
  pose proof (vt_key _ _ _ (sv_votes _ _ I) _ _ Hd) as Ka. pose proof (vt_key _ _ _ (sv_votes _ _ I) _ _ HP) as KP.
  assert (a ≠ De_ProxyAddress d) as Hne by (intros Ea; rewrite <- Ea in HP; congruence).
  pose proof (proxy_unbound _ _ _ _ I HP HiP) as HpP.
  apply M_bind_Ok in H2 as (u2 & s2 & H3 & H2). rewrite SetDelegator_run in H3. injection H3 as _ <-.
  rewrite KP, Ka in H2. destruct Ek as [Wk Bk Nk].
  assert (s' = sg_set_stakes (mkStakes (<[De_ProxyAddress d := P2]> (<[a := UnbindProxy d]> (st_delegators (sg_stakes s))))
    (st_shares (sg_stakes s1)) (st_proxies (sg_stakes s) ∖ {[(De_ProxyAddress d, a)]})
    (st_undelegations (sg_stakes s)) (st_undelegateQueue (sg_stakes s))) s1) as ->.
  { clear -H2 Es Hne Ka. unfold SetProxyBinding, on_stakes in H2. apply zoom_Ok in H2 as (t & H2 & ->).
    apply modify_Ok in H2 as ->. unfold sg_set_stakes, put_delegator. cbn. f_equal. rewrite Es. cbn. rewrite Ka.
    by rewrite insert_insert_ne. }
  split.
  - eapply (inv_patch2 lost lost a d (UnbindProxy d) (De_ProxyAddress d) P P2); try done; cbn; try lia.
    + congruence.
    + congruence.
    + exact (pr_tokens _ _ (sv_proxy _ _ I) _ _ Hd).
    + by left.
    + by right.
    + unfold bound_to. cbn. rewrite bool_decide_true, bool_decide_false by congruence. lia.
    + apply Wk, I.
    + rewrite Bk. lia.
    + rewrite Nk. lia.
    + apply I.
    + unfold votes_inv_of. cbn. rewrite insert_insert_ne by done.
      apply (votes_inv_update _ _ _ _ d); try done.
      * unfold votes_inv_of in Ev. rewrite Es in Ev at 1. done.
      * by rewrite lookup_insert_ne.
    + intros b z. rewrite elem_of_difference, not_elem_of_singleton.
      case_bool_decide as E'; [|naive_solver]. subst z.
      rewrite (pr_binding _ _ (sv_proxy _ _ I)), Hd. naive_solver congruence.
  - exists d. split; [done|]. split; [done|]. cbn. split; [by rewrite lookup_insert_ne, lookup_insert_eq|].
    intros b H1' H2'. by rewrite !lookup_insert_ne.
Qed.

Lemma proxy_tokens_pos lost s p P : 
  staking_inv lost s → st_delegators (sg_stakes s) !! p = Some P →
  0 < De_TotalDelegatedTokens P + De_Tokens P.
Proof.
  intros I HP. pose proof (pr_tokens _ _ (sv_proxy _ _ I) _ _ HP).
  pose proof (pr_total_nonneg _ _ (sv_proxy _ _ I) _ _ HP). lia.
Qed.

Lemma no_votes lost s a d :
  staking_inv lost s → st_delegators (sg_stakes s) !! a = Some d → De_Shares d = 0 → De_ValidatorAddresses d = [].
Proof.
  intros I Hd Hx. destruct (De_ValidatorAddresses d) as [|v l] eqn:E; [done|].
  pose proof (vt_pos _ _ _ (sv_votes _ _ I) _ _ Hd). rewrite E in *. assert (0 < De_Shares d) by auto. lia.
Qed.

Lemma inv_handleMsgBindProxy lost ctx a p s u s' :
  staking_inv lost s → handleMsgBindProxy ctx a p s = (Ok u, s') → staking_inv lost s'.
Proof.
  intros I. unfold handleMsgBindProxy. intros (o & s1 & H1 & H2)%M_bind_Ok. apply gets_Ok in H1 as [-> ->].
  destruct (st_delegators (sg_stakes s) !! a) as [d|] eqn:Hd; [|by apply fail_Ok in H2].
  apply M_bind_Ok in H2 as (u1 & s1 & H1 & H2). apply guard_not_Ok in H1 as [_ ->].
  apply M_bind_Ok in H2 as (u2 & s1 & H1 & H2). apply guard_not_Ok in H1 as [Hsh ->].
  apply M_bind_Ok in H2 as (o & s1 & H1 & H2). apply gets_Ok in H1 as [-> ->].
  destruct (st_delegators (sg_stakes s) !! p) as [P|] eqn:HP; [|by apply fail_Ok in H2].
  apply M_bind_Ok in H2 as (u3 & s1 & H1 & H2). apply guard_not_Ok in H1 as [_ ->].
  apply M_bind_Ok in H2 as (u4 & s1 & H1 & H2). apply guard_not_Ok in H1 as [HiP ->].
  apply M_bind_Ok in H2 as (u5 & s1 & H1 & H2). apply guard_not_Ok in H1 as [Hi ->].
  unfold Dec_Equal, ZeroDec in Hsh. bool_prop.
  pose proof (no_votes _ _ _ _ I Hd Hsh) as Hl.
  pose proof (vt_key _ _ _ (sv_votes _ _ I) _ _ Hd) as Ka. pose proof (vt_key _ _ _ (sv_votes _ _ I) _ _ HP) as KP.
  pose proof (proxy_tokens_pos _ _ _ _ I HP) as Hpos.
  destruct (HasProxy d && _) eqn:Esame in H2.
  { apply M_bind_Ok in H2 as (x & s1 & H1 & H2). apply lift_Ok in H1 as [->%checkDec_value ->].
    apply replaceErr_Ok in H2. rewrite KP in H2. by eapply inv_UpdateShares. }
  apply M_bind_Ok in H2 as (u6 & s1 & H1 & H2).
  assert (staking_inv lost s1 ∧ st_delegators (sg_stakes s1) !! a = Some (UnbindProxy d) ∧
    st_delegators (sg_stakes s1) !! p = Some P) as (I1 & Hd1 & HP1).
  { destruct (String.length (De_ProxyAddress d) =? 0)%nat eqn:Hlen; cbn [negb] in H1.
    - apply mret_Ok in H1 as [_ ->]. split; [done|]. split; [|done]. rewrite Hd. f_equal.
      destruct d as [? ? ? ? ? ? [|]]; [done|]. cbn in Hlen. done.
    - rewrite Ka in H1. apply (inv_unbindProxy _ _ _ _ _ _ I) in H1 as (I1 & d0 & Hd0 & Hp0 & Hd1 & Hb).
      rewrite Hd in Hd0. injection Hd0 as <-. split; [done|]. split; [done|].
      rewrite Hb; [done|congruence|]. intros ->. rewrite (proj2 (HasProxy_spec d) Hp0) in Esame. cbn in Esame.
      apply String.eqb_neq in Esame. congruence. }
  apply M_bind_Ok in H2 as (x & s2 & H3 & H2). apply lift_Ok in H3 as [->%checkDec_value ->].
  apply M_bind_Ok in H2 as (u7 & s2 & H3 & H2). rewrite SetDelegator_run in H3. injection H3 as _ <-.
  apply M_bind_Ok in H2 as (u8 & s2 & H3 & H2). rewrite SetDelegator_run in H3. injection H3 as _ <-.
  apply M_bind_Ok in H2 as (u9 & s2 & H3 & H2).
  apply M_bind_Ok in H2 as (x & s3 & H4 & H2). apply lift_Ok in H4 as [->%checkDec_value ->].
  apply replaceErr_Ok in H2.
  set (d1 := BindProxy p d) in *.
  set (P1 := de_set_total (De_TotalDelegatedTokens P + De_Tokens d1) P) in *.
  pose proof (proxy_unbound _ _ _ _ I HP HiP) as HpP.
  assert (a ≠ p) as Hne by (intros ->; congruence).
  pose proof (pr_tokens _ _ (sv_proxy _ _ I) _ _ Hd).
  assert (p ≠ "") as Hp0 by exact (pr_addr _ _ (sv_proxy _ _ I) _ _ HP).
  assert (st_delegators (sg_stakes s2) = <[p := P1]> (<[a := d1]> (st_delegators (sg_stakes s1)))) as ED.
  { clear -H3 Ka KP. unfold SetProxyBinding, on_stakes in H3. apply zoom_Ok in H3 as (t & H3 & ->).
    apply modify_Ok in H3 as ->. cbn. by rewrite Ka, KP. }
  change (De_DelegatorAddress P1) with (De_DelegatorAddress P) in H2. rewrite KP in H2.
  eapply inv_UpdateShares; [..|exact H2]; [|rewrite ED; apply lookup_insert_eq|cbn; lia].
  unfold SetProxyBinding, on_stakes in H3. apply zoom_Ok in H3 as (t & H3 & ->). apply modify_Ok in H3 as ->.
  eapply (inv_patch2 lost lost a (UnbindProxy d) d1 p P P1); try done; cbn; try lia.
  - by right.
  - by left.
  - unfold bound_to. cbn. rewrite bool_decide_false, bool_decide_true by congruence. lia.
  - apply I1.
  - apply I1.
  - unfold votes_inv_of. cbn. rewrite Ka, KP. apply (votes_inv_update _ _ _ _ P); try done.
    + apply (votes_inv_update _ _ _ _ (UnbindProxy d)); try done. exact (sv_votes _ _ I1).
    + by rewrite lookup_insert_ne.
  - intros b y. rewrite Ka, KP, elem_of_union, elem_of_singleton. case_bool_decide as E'.
    + subst y. rewrite (pr_binding _ _ (sv_proxy _ _ I1)), Hd1. split; [|naive_solver].
      intros [[= ->]|(Hb & e & [= <-] & Eb)]; [done|]. cbn in Eb. congruence.
    + naive_solver.
Qed.

Lemma inv_regProxy lost ctx a s u s' :
  staking_inv lost s → regProxy ctx a s = (Ok u, s') → staking_inv lost s'.
Proof.
  intros I. unfold regProxy. intros (o & s1 & H1 & H2)%M_bind_Ok. apply gets_Ok in H1 as [-> ->].
  destruct (st_delegators (sg_stakes s) !! a) as [d|] eqn:Hd; [|by apply fail_Ok in H2].
  apply M_bind_Ok in H2 as (u1 & s1 & H1 & H2). apply guard_not_Ok in H1 as [Hi ->].
  apply M_bind_Ok in H2 as (u2 & s1 & H1 & H2). apply guard_not_Ok in H1 as [Hp ->].
  apply M_bind_Ok in H2 as (u3 & s1 & H1 & H2). rewrite SetDelegator_run in H1. injection H1 as _ <-.
  apply replaceErr_Ok in H2. pose proof (vt_key _ _ _ (sv_votes _ _ I) _ _ Hd) as Ka.
  assert (De_ProxyAddress d = "") as Hp'. { destruct (De_ProxyAddress d); [done|]. cbn in Hp. done. }
  pose proof (pr_tokens _ _ (sv_proxy _ _ I) _ _ Hd).
  eapply inv_UpdateShares; [..|exact H2]; [|apply lookup_insert_eq|done].
  destruct I as [[M1 M2 M3] U P V Pa L]. split; try done; cbn.
  - rewrite Ka. split; [done| |done]. rewrite M2, map_sum_insert, Hd. cbn. lia.
  - rewrite Ka. eapply proxy_patch1; try done; cbn; congruence.
  - unfold votes_inv_of. cbn. rewrite Ka. by apply (votes_inv_update _ _ _ _ d).
Qed.

(** All delegators of a proxy set free. *)
Definition free_from (p : string) (d : Delegator) : Delegator :=
  if bool_decide (De_ProxyAddress d = p) then UnbindProxy d else d.

Lemma map_sum_fmap {V W} (f : W → Z) (g : V → W) (m : gmap string V) :
  map_sum f (g <$> m) = map_sum (λ v, f (g v)) m.
Proof.
  induction m as [|k v m Hk IH] using map_ind; [by rewrite fmap_empty, !map_sum_empty|].
  rewrite fmap_insert, !map_sum_fresh; [by rewrite IH|done|]. by rewrite lookup_fmap, Hk.
Qed.

Lemma votes_inv_fmap (g : Delegator → Delegator) D S vs :
  (∀ d, De_DelegatorAddress (g d) = De_DelegatorAddress d ∧
        De_ValidatorAddresses (g d) = De_ValidatorAddresses d ∧ De_Shares (g d) = De_Shares d) →
  votes_inv D S vs → votes_inv (g <$> D) S vs.
Proof.
  intros Hg I. split.
  - intros a e (d & <- & Hd)%lookup_fmap_Some. destruct (Hg d) as (E1 & E2 & E3). rewrite E1. by eapply vt_key.
  - intros a e (d & <- & Hd)%lookup_fmap_Some. destruct (Hg d) as (E1 & E2 & E3). rewrite E2. by eapply vt_nodup.
  - intros a e (d & <- & Hd)%lookup_fmap_Some. destruct (Hg d) as (_ & -> & ->). by eapply vt_none.
  - intros a e (d & <- & Hd)%lookup_fmap_Some. destruct (Hg d) as (_ & -> & ->). by eapply vt_pos.
  - intros v a x. rewrite (vt_shares _ _ _ I). setoid_rewrite lookup_fmap_Some. split.
    + intros (d & Hd & Hv & ->). exists (g d). destruct (Hg d) as (_ & -> & ->). eauto.
    + intros (e & (d & <- & Hd) & Hv & ->). exists d. destruct (Hg d) as (_ & E1 & E2). rewrite E1 in Hv. eauto.
  - eapply vals_inv_ext; [|exact (vt_vals _ _ _ I)]. intros v. cbn beta. rewrite map_sum_fmap.
    apply map_sum_ext. intros a d _. unfold shares_to. destruct (Hg d) as (_ & -> & ->). done.
Qed.

Lemma proxy_clear D B p P P' B' :
  proxy_inv D B → D !! p = Some P → De_IsProxy P = true → De_ProxyAddress P = "" →
  De_ProxyAddress P' = "" → De_TotalDelegatedTokens P' = 0 → De_Tokens P' = De_Tokens P →
  (∀ x y, (x, y) ∈ B' ↔ (x, y) ∈ B ∧ x ≠ p) →
  proxy_inv (<[p := P']> (free_from p <$> D)) B'.
Proof.
  intros I HP Hi Hp Hp' Ht Htok HB. pose proof (pr_addr _ _ I _ _ HP) as Hp0.
  assert (∀ b e, <[p := P']> (free_from p <$> D) !! b = Some e →
    (b = p ∧ e = P') ∨ (b ≠ p ∧ ∃ d, D !! b = Some d ∧ e = free_from p d)) as Hcase.
  { intros b e [[<- <-]|[Hne (d & <- & Hd)%lookup_fmap_Some]]%lookup_insert_Some; eauto. }
  assert (unfollowed (<[p := P']> (free_from p <$> D)) p) as Hu.
  { intros b e [[-> ->]|(_ & d & _ & ->)]%Hcase; [congruence|]. unfold free_from. case_bool_decide; [|done].
    cbn. congruence. }
  split.
  - intros b e [[-> ->]|(_ & d & Hd & ->)]%Hcase; by eapply pr_addr.
  - intros b e [[-> ->]|(_ & d & Hd & ->)]%Hcase; [rewrite Htok; by eapply pr_tokens|].
    unfold free_from. case_bool_decide; cbn; by eapply pr_tokens.
  - intros b e [[-> ->]|(Hne & d & Hd & ->)]%Hcase; [by rewrite Ht, unfollowed_sum|].
    pose proof (pr_addr _ _ I _ _ Hd) as Hb0.
    assert (De_TotalDelegatedTokens (free_from p d) = De_TotalDelegatedTokens d) as ->
      by (unfold free_from; by case_bool_decide).
    rewrite (pr_total _ _ I _ _ Hd), map_sum_insert, lookup_fmap, HP, map_sum_fmap. cbn [fmap option_fmap option_map at_key].
    assert (bound_to b P' = 0 ∧ bound_to b (free_from p P) = 0) as [-> ->].
    { unfold bound_to, free_from. rewrite (bool_decide_false (De_ProxyAddress P = p)) by congruence.
      rewrite !bool_decide_false by congruence. done. }
    rewrite (map_sum_ext (λ v, bound_to b (free_from p v)) (bound_to b)); [lia|].
    intros c e _. unfold free_from. case_bool_decide as E; [|done]. unfold bound_to. cbn.
    rewrite !bool_decide_false by congruence. done.
  - intros b e [[-> ->]|(Hne & d & Hd & ->)]%Hcase Hpx; [done|]. unfold free_from in *.
    case_bool_decide as E; [done|]. destruct (pr_proxy _ _ I _ _ Hd Hpx) as (H1 & H2 & Q & HQ & HiQ).
    split; [done|]. split; [done|]. exists (free_from p Q). rewrite lookup_insert_ne by done.
    rewrite lookup_fmap, HQ. split; [done|]. unfold free_from. by case_bool_decide.
  - intros x y. rewrite HB, (pr_binding _ _ I). split.
    + intros [(Hx & d & Hd & Ed) Hxp]. split; [done|]. destruct (decide (y = p)) as [->|Hyp]; [congruence|].
      exists d. rewrite lookup_insert_ne by done. rewrite lookup_fmap, Hd. cbn. unfold free_from.
      rewrite bool_decide_false by congruence. done.
    + intros (Hx & e & He & Ee). apply Hcase in He as [[-> ->]|(Hne & d & Hd & ->)]; [congruence|].
      unfold free_from in Ee. case_bool_decide as E; [cbn in Ee; congruence|]. split; [|congruence].
      split; [done|eauto].
Qed.

(** The loop over the delegators of a proxy. *)
Lemma clear_loop p l s u s' :
  (∀ b d, st_delegators (sg_stakes s) !! b = Some d → De_DelegatorAddress d = b) →
  for_each (λ delAddr,
    o ← GetDelegator delAddr;
    _ ← (match o with Some d => SetDelegator (UnbindProxy d) | None => mret () end);
    SetProxyBinding p delAddr true) l s = (Ok u, s') →
  sg_k s' = sg_k s ∧ sg_vals s' = sg_vals s ∧ sg_params s' = sg_params s ∧
  st_shares (sg_stakes s') = st_shares (sg_stakes s) ∧
  st_undelegations (sg_stakes s') = st_undelegations (sg_stakes s) ∧
  st_undelegateQueue (sg_stakes s') = st_undelegateQueue (sg_stakes s) ∧
  (∀ b, st_delegators (sg_stakes s') !! b
    = (if bool_decide (b ∈ l) then UnbindProxy else id) <$> st_delegators (sg_stakes s) !! b) ∧
  (∀ x y, (x, y) ∈ st_proxies (sg_stakes s') ↔ (x, y) ∈ st_proxies (sg_stakes s) ∧ ¬ (x = p ∧ y ∈ l)).
Proof.
  revert s. induction l as [|c l IH]; intros s Hk; cbn [for_each].
  - intros [_ ->]%mret_Ok. split_and!; try done.
    + intros b. rewrite bool_decide_false by apply not_elem_of_nil. by destruct (_ !! b).
    + intros x y. set_solver.
  - intros (u1 & s1 & H1 & H2)%M_bind_Ok. apply M_bind_Ok in H1 as (o & s2 & H1 & H3).
    apply gets_Ok in H1 as [-> ->]. apply M_bind_Ok in H3 as (u2 & s3 & H1 & H3).
    assert (sg_k s1 = sg_k s ∧ sg_vals s1 = sg_vals s ∧ sg_params s1 = sg_params s ∧
      sg_stakes s1 = mkStakes (alter UnbindProxy c (st_delegators (sg_stakes s))) (st_shares (sg_stakes s))
        (st_proxies (sg_stakes s) ∖ {[(p, c)]}) (st_undelegations (sg_stakes s))
        (st_undelegateQueue (sg_stakes s))) as (E1 & E2 & E3 & E4).
    { destruct (st_delegators (sg_stakes s) !! c) as [d|] eqn:Hd.
      - rewrite SetDelegator_run in H1. injection H1 as _ <-. pose proof (Hk _ _ Hd) as Kd. clear Hk.
        unfold SetProxyBinding, on_stakes in H3. apply zoom_Ok in H3 as (t & H3 & ->). apply modify_Ok in H3 as ->.
        cbn. split_and!; try done. rewrite Kd. f_equal. apply map_eq. intros b.
        destruct (decide (b = c)) as [->|Hne].
        + by rewrite lookup_insert_eq, lookup_alter_eq, Hd.
        + by rewrite lookup_insert_ne, lookup_alter_ne.
      - apply mret_Ok in H1 as [_ ->].
        unfold SetProxyBinding, on_stakes in H3. apply zoom_Ok in H3 as (t & H3 & ->). apply modify_Ok in H3 as ->.
        cbn. split_and!; try done. f_equal. apply map_eq. intros b.
        destruct (decide (b = c)) as [->|Hne]; [by rewrite lookup_alter_eq, Hd|by rewrite lookup_alter_ne]. }
    apply IH in H2 as (F1 & F2 & F3 & F4 & F5 & F6 & F7 & F8).
    + rewrite E4 in F4, F5, F6, F7, F8. cbn in F4, F5, F6, F7, F8. split_and!; try congruence.
      * intros b. rewrite F7. destruct (decide (b = c)) as [->|Hne].
        -- rewrite lookup_alter_eq, (bool_decide_true (c ∈ c :: l)) by by left.
           destruct (_ !! c) as [d|]; [|done]. cbn. by case_bool_decide.
        -- rewrite lookup_alter_ne by done. f_equal. repeat case_bool_decide; set_solver.
      * intros x y. rewrite F8. set_solver.
    + rewrite E4. cbn. intros b d Hb. destruct (decide (b = c)) as [->|Hne].
      * rewrite lookup_alter_eq in Hb. apply fmap_Some in Hb as (d0 & Hd0 & ->). cbn. by apply Hk.
      * rewrite lookup_alter_ne in Hb by done. by apply Hk.
Qed.

Lemma elem_of_GetDelegatorsByProxy p b s : b ∈ GetDelegatorsByProxy p s ↔ (p, b) ∈ st_proxies (sg_stakes s).
Proof.
  unfold GetDelegatorsByProxy. rewrite merge_sort_Permutation, list_elem_of_omap. split.
  - intros ([x y] & Hin%elem_of_elements & E). cbn in E. destruct (String.eqb_spec x p); naive_solver.
  - intros Hin. exists (p, b). rewrite elem_of_elements. split; [done|]. cbn. by rewrite String.eqb_refl.
Qed.

Lemma cleared_all lost a d s (D : gmap string Delegator) :
  staking_inv lost s → st_delegators (sg_stakes s) !! a = Some d →
  (∀ b, D !! b = (if bool_decide (b ∈ GetDelegatorsByProxy a s) then UnbindProxy else id) <$> st_delegators (sg_stakes s) !! b) →
  D = free_from a <$> st_delegators (sg_stakes s).
Proof.
  intros I Hd E. apply map_eq. intros b. rewrite E, lookup_fmap. destruct (st_delegators (sg_stakes s) !! b) as [e|] eqn:He; [|done].
  cbn. unfold free_from. pose proof (elem_of_GetDelegatorsByProxy a b s) as Hin.
  rewrite (pr_binding _ _ (sv_proxy _ _ I)), He in Hin. pose proof (pr_addr _ _ (sv_proxy _ _ I) _ _ Hd).
  repeat case_bool_decide; naive_solver.
Qed.
Lemma votes_inv_freed p D S vs : votes_inv D S vs → votes_inv (free_from p <$> D) S vs.
Proof. apply votes_inv_fmap. intros e. unfold free_from. by case_bool_decide. Qed.

Lemma inv_unregProxy lost ctx a s u s' :
  staking_inv lost s → unregProxy ctx a s = (Ok u, s') → staking_inv lost s'.
Proof.
  intros I. unfold unregProxy. intros (o & s1 & H1 & H2)%M_bind_Ok. apply gets_Ok in H1 as [-> ->].
  destruct (st_delegators (sg_stakes s) !! a) as [d|] eqn:Hd; [|by apply fail_Ok in H2].
  apply M_bind_Ok in H2 as (u1 & s1 & H1 & H2). apply guard_not_Ok in H1 as [Hi ->]. bool_prop.
  apply M_bind_Ok in H2 as (u2 & s1 & H1 & H2). pose proof (vt_key _ _ _ (sv_votes _ _ I) _ _ Hd) as Ka.
  set (d1 := de_set_total ZeroDec (RegProxy false d)) in *.
  change (De_DelegatorAddress d1) with (De_DelegatorAddress d) in H1, H2. rewrite Ka in H1, H2.
  unfold ClearProxy in H1. apply M_bind_Ok in H1 as (l & s2 & H1 & H3). apply gets_Ok in H1 as [-> ->].
  apply clear_loop in H3 as (E1 & E2 & E3 & E4 & E5 & E6 & E7 & E8); [|exact (vt_key _ _ _ (sv_votes _ _ I))].
  pose proof (proxy_unbound _ _ _ _ I Hd Hi) as Hp. pose proof (pr_tokens _ _ (sv_proxy _ _ I) _ _ Hd).
  pose proof (cleared_all _ _ _ _ _ I Hd E7) as ED.
  apply M_bind_Ok in H2 as (u3 & s2 & H3 & H2). rewrite SetDelegator_run in H3. injection H3 as _ <-.
  apply replaceErr_Ok in H2.
  assert (De_DelegatorAddress d1 = a) as Kd1 by exact Ka.
  eapply inv_UpdateShares; [..|exact H2]; [|rewrite <- Kd1; apply lookup_insert_eq|done].
  destruct I as [[M1 M2 M3] U P V Pa L]. split; cbn; rewrite ?Ka, ?ED, ?E1, ?E2, ?E3, ?E4, ?E5, ?E6; try done.
  - split; [done| |done]. rewrite M2, map_sum_insert, lookup_fmap, Hd, map_sum_fmap. cbn.
    rewrite (map_sum_ext (λ v, De_Tokens (free_from a v)) De_Tokens)
      by (intros ? e _; unfold free_from; by case_bool_decide).
    assert (De_Tokens (free_from a d) = De_Tokens d) as -> by (unfold free_from; by case_bool_decide). lia.
  - apply (proxy_clear _ (st_proxies (sg_stakes s)) _ d); try done. intros x y. rewrite E8. split; [|naive_solver].
    intros [Hin Hn]. split; [done|]. intros ->. apply Hn. split; [done|]. by apply elem_of_GetDelegatorsByProxy.
  - unfold votes_inv_of. cbn. rewrite Ka, ED, E4, E2. apply (votes_inv_update _ _ _ _ (free_from a d)).
    + by apply votes_inv_freed.
    + by rewrite lookup_fmap, Hd.
    + done.
    + unfold free_from. by case_bool_decide.
    + unfold free_from. by case_bool_decide.
Qed.

End Inv.
