(* ===== verification/StakingMsgs.v ===== *)
(** * Staking: votes and the life of a validator

    Adding shares, creating, editing and destroying a validator, jail, and
    the message handler as a whole: all preserve the invariant. *)
From S2P Require Import Prelude Decimal Denom Coins Bank CoinKeeper DecStr Token Staking StakingVals StakingVotes StakingProps.
#[local] Open Scope Z_scope.

Section Msgs.
Context {K : Type} `{CoinKeeper K} `{!CoinKeeperLaws K} `{!DelegationKeeper K} `{!DelegationKeeperLaws K}.
Context `{!StakingHooks K} `{cfgS : StakingConfig} `{bansS : !Bans} `{engS : !Engine}.
Context (bonded notBonded : string) `{!StakingLaws K bonded notBonded} (Hw : weights_ok).
Implicit Types (s : StakingState K).

#[local] Abbreviation okt := DefaultBondDenom.
#[local] Abbreviation SI := (staking_inv bonded notBonded).

(** ** Adding shares *)

Lemma GetValidatorsToAddShares_Ok l s vals s' :
  GetValidatorsToAddShares l s = (Ok vals, s') →
  s' = s ∧ Forall2 (λ a v, vs_validators (sg_vals s) !! a = Some v) l vals.
Proof.
  revert vals. induction l as [|a l IH]; intros vals; cbn [GetValidatorsToAddShares].
  - intros [-> ->]%mret_Ok. split; [done|constructor].
  - intros (o & s1 & H1 & H2)%M_bind_Ok. apply gets_Ok in H1 as [-> ->].
    destruct (vs_validators (sg_vals s) !! a) as [v|] eqn:Hv; [|by apply fail_Ok in H2].
    apply M_bind_Ok in H2 as (vs & s1 & H1 & H2). apply mret_Ok in H2 as [-> ->].
    apply IH in H1 as [-> Hall]. split; [done|]. by constructor.
Qed.

Lemma fetched l (V : gmap string Validator) vals :
  (∀ a v, V !! a = Some v → Va_OperatorAddress v = a) →
  Forall2 (λ a v, V !! a = Some v) l vals →
  Va_OperatorAddress <$> vals = l ∧ ∀ v, v ∈ vals → V !! Va_OperatorAddress v = Some v.
Proof.
  intros Hk. induction 1 as [|a v l vals Hv Hl [IH1 IH2]]; cbn.
  - split; [done|]. by intros v ?%not_elem_of_nil.
  - rewrite IH1, (Hk _ _ Hv). split; [done|]. intros w [->|Hw']%elem_of_cons; [|auto]. by rewrite (Hk _ _ Hv).
Qed.

Lemma validateSharesAdding_Ok vals u :
  validateSharesAdding vals = Ok u → vals ≠ [] ∧ ∀ v, v ∈ vals → Va_MinSelfDelegation v ≠ 0.
Proof.
  unfold validateSharesAdding. destruct vals as [|w vals]; [done|]. cbn [length Nat.eqb].
  destruct (isDismissed (w :: vals)) eqn:E; [done|]. intros _. split; [done|]. intros v Hv Hz.
  apply not_true_iff_false in E. apply E. apply existsb_exists. exists v. rewrite <- list_elem_of_In.
  split; [done|]. by rewrite Hz.
Qed.

Lemma inv_handleMsgAddShares lost ctx a l s u s' :
  SI lost s → NoDup l → handleMsgAddShares ctx a l s = (Ok u, s') → SI lost s'.
Proof.
  intros I Hnd. unfold handleMsgAddShares. intros (m & s1 & H1 & H2)%M_bind_Ok. apply gets_Ok in H1 as [-> ->].
  apply M_bind_Ok in H2 as (u1 & s1 & H1 & H2). apply guard_not_Ok in H1 as [_ ->].
  apply M_bind_Ok in H2 as (u2 & s1 & H1 & H2). apply guard_not_Ok in H1 as [_ ->].
  apply M_bind_Ok in H2 as (o & s1 & H1 & H2). apply gets_Ok in H1 as [-> ->].
  destruct (st_delegators (sg_stakes s) !! a) as [d|] eqn:Hd; [|by apply fail_Ok in H2].
  apply M_bind_Ok in H2 as (u3 & s1 & H1 & H2). apply guard_not_Ok in H1 as [_ ->].
  apply M_bind_Ok in H2 as (u4 & s1 & H1 & H2). apply guard_not_Ok in H1 as [Hp ->].
  apply HasProxy_false in Hp.
  apply M_bind_Ok in H2 as ([vals0 last] & s1 & H1 & H2).
  apply (GetLast_Ok _ _ _ _ _ (sv_votes _ _ _ _ I) Hd) in H1 as [-> E]. injection E as -> ->.
  apply M_bind_Ok in H2 as (u5 & s1 & H1 & H2).
  apply (WithdrawLastShares_Ok bonded notBonded) in H1 as (ED & [Ek Epa _ Ev Em] & Es);
    [|exact (sv_votes _ _ _ _ I)|done].
  cbn in Ek, Epa, Ev, Em.
  apply M_bind_Ok in H2 as (vals & s2 & H1 & H2). apply GetValidatorsToAddShares_Ok in H1 as [-> Hall].
  apply fetched in Hall as [El Hv]; [|exact (ii_key _ _ _ _ (proj1 (vt_vals _ _ _ Ev)))].
  apply M_bind_Ok in H2 as (u6 & s2 & H1 & H2). apply lift_Ok in H1 as [[Hne Hm]%validateSharesAdding_Ok ->].
  apply M_bind_Ok in H2 as (x & s2 & H1 & H2). apply lift_Ok in H1 as [->%checkDec_value ->].
  apply M_bind_Ok in H2 as (u7 & s2 & H1 & H2). apply (call_hook_Ok bonded notBonded) in H1 as (k2 & -> & K2).
  apply M_bind_Ok in H2 as (y & s3 & H1 & H2).
  pose proof (pr_tokens _ _ (sv_proxy _ _ _ _ I) _ _ Hd).
  pose proof (pr_total_nonneg _ _ (sv_proxy _ _ _ _ I) _ _ Hd).
  apply (AddSharesToValidators_Ok bonded notBonded ctx a (set_votes [] 0 d)
    (<[a := set_votes [] 0 d]> (st_delegators (sg_stakes s)))) in H1 as [R V3];
    [|done|exact Ev|apply lookup_insert_eq|done|done|by rewrite El|done|done|lia].
  rewrite insert_insert_eq, El in V3. rewrite El in R, H2.
  change (set_votes l y (set_votes [] 0 d)) with (set_votes l y d) in V3.
  apply M_bind_Ok in H2 as (u8 & s4 & H1 & H2). rewrite SetDelegator_run in H1. injection H1 as _ <-.
  apply (call_hook_Ok bonded notBonded) in H2 as (k4 & -> & K4). cbn in K4.
  change (de_set_shares y (de_set_vals l d)) with (set_votes l y d).
  pose proof (vt_key _ _ _ (sv_votes _ _ _ _ I) _ _ Hd) as Ka.
  pose proof (rv_stakes _ _ _ _ _ _ _ _ R) as ER. cbn in ER. rewrite Es in ER. cbn in ER.
  destruct I as [M U P V Pa L]. split; cbn; try done.
  - eapply keeps_money; [| |].
    + transitivity (sg_k s1); [exact Ek|]. transitivity k2; [exact K2|].
      transitivity (sg_k s3); [exact (rv_k _ _ _ _ _ _ _ _ R)|exact K4].
    + transitivity (map_sum Va_MinSelfDelegation (vs_validators (sg_vals s1))); [|exact Em].
      exact (rv_msd _ _ _ _ _ _ _ _ R).
    + rewrite ER. cbn. destruct M as [M1 M2 M3]. split; [done| |done].
      rewrite M2, Ka, map_sum_insert, Hd. cbn. lia.
  - by rewrite ER.
  - rewrite ER, Ka. cbn. eapply proxy_patch1; try done; cbn; try congruence.
    exact (pr_unfollowed _ _ P _ _ Hd).
  - unfold votes_inv_of. cbn. rewrite ER at 1. cbn. by rewrite Ka.
  - rewrite (rv_params _ _ _ _ _ _ _ _ R). cbn. by rewrite Epa.
Qed.

(** ** Writes to one validator *)

(** The record of a validator changes in what does not matter for votes;
    [lost] changes with the deposit. *)
Lemma inv_vals lost lost' s s' :
  SI lost s → vals_inv (λ v, map_sum (shares_to v) (st_delegators (sg_stakes s))) (sg_vals s') →
  ck_wf (sg_k s') →
  ck_balance (sg_k s') bonded okt - map_sum Va_MinSelfDelegation (vs_validators (sg_vals s'))
    = ck_balance (sg_k s) bonded okt - map_sum Va_MinSelfDelegation (vs_validators (sg_vals s)) →
  ck_balance (sg_k s') notBonded okt = ck_balance (sg_k s) notBonded okt + lost' - lost → 0 ≤ lost' →
  sg_stakes s' = sg_stakes s → sg_params s' = sg_params s → SI lost' s'.
Proof.
  intros [[M1 M2 M3] U P [V1 V2 V3 V4 V5 V6] Pa L] Hv W Eb En L' Es Ep. split; rewrite ?Es, ?Ep; try done.
  - split; [done|lia|lia].
  - unfold votes_inv_of. rewrite Es. by split.
Qed.

Lemma reindex_id f V C I a v w :
  index_inv f V C I → V !! a = Some v →
  getValidatorPowerRank w = getValidatorPowerRank v → Va_Jailed w = Va_Jailed v →
  (if Va_Jailed w then id else <[getValidatorPowerRank w := a]>) (delete (getValidatorPowerRank v) I) = I.
Proof.
  intros Hi Hv Er Ej. rewrite Ej, Er. destruct (Va_Jailed v) eqn:Hj.
  - unfold id. apply delete_id. destruct (I !! _) as [b|] eqn:Hb; [|done].
    apply (ii_index _ _ _ _ Hi) in Hb as (x & Hx & Hjx & Ex%rank_inj).
    rewrite (ii_key _ _ _ _ Hi _ _ Hv), (ii_key _ _ _ _ Hi _ _ Hx) in Ex. congruence.
  - rewrite insert_delete_eq. apply insert_id. apply (ii_index _ _ _ _ Hi). eauto.
Qed.

(** A write of a record with the same key, shares and status. *)
Lemma same_inv f vs v w :
  vals_inv f vs → vs_validators vs !! Va_OperatorAddress v = Some v →
  Va_OperatorAddress w = Va_OperatorAddress v → Va_ConsPubKey w = Va_ConsPubKey v →
  Va_Status w = Va_Status v → Va_UnbondingCompletionTime w = Va_UnbondingCompletionTime v →
  Va_Jailed w = Va_Jailed v → Va_DelegatorShares w = Va_DelegatorShares v →
  Va_MinSelfDelegation w = Va_MinSelfDelegation v → Va_Tokens w = Va_Tokens v →
  (0 ≤ Co_Rate (Va_Commission v) → 0 ≤ Co_Rate (Va_Commission w)) →
  vals_inv f (vs_set_validators <[Va_OperatorAddress w := w]> vs).
Proof.
  intros I Hv Ea Ep Es Et Ej Ex Em Ek Er.
  assert (vals_inv f (put_validator v w vs)) as I'.
  { pose proof (val_ok_of _ _ _ I Hv) as [V1 V2 V3 V4 V5 V6].
    eapply put_inv; try done.
    - rewrite Ej. exact (abandoned_jailed _ _ _ I Hv).
    - by left.
    - apply (ii_nonneg _ _ _ _ (proj1 I)).
    - split; [unfold msd_base in *| | | | |by apply Er]; rewrite ?Ex, ?Em, ?Ej, ?Ek, ?Es; done. }
  unfold put_validator in I'.
  assert ((if Va_Jailed w then id else <[getValidatorPowerRank w := Va_OperatorAddress w]>)
            (delete (getValidatorPowerRank v) (vs_powerIndex vs)) = vs_powerIndex vs) as Ei.
  { rewrite Ea. eapply reindex_id; [exact (proj1 I)|done| |done]. by apply rank_ext. }
  destruct I' as [Ii Ise]. split; [|done]. unfold index_inv_of in *. cbn in *. by rewrite Ei in Ii.
Qed.

Lemma inv_same lost s k' v w :
  SI lost s → keeps bonded notBonded (sg_k s) k' →
  vs_validators (sg_vals s) !! Va_OperatorAddress v = Some v →
  Va_OperatorAddress w = Va_OperatorAddress v → Va_ConsPubKey w = Va_ConsPubKey v →
  Va_Status w = Va_Status v → Va_UnbondingCompletionTime w = Va_UnbondingCompletionTime v →
  Va_Jailed w = Va_Jailed v → Va_DelegatorShares w = Va_DelegatorShares v →
  Va_MinSelfDelegation w = Va_MinSelfDelegation v → Va_Tokens w = Va_Tokens v →
  (0 ≤ Co_Rate (Va_Commission v) → 0 ≤ Co_Rate (Va_Commission w)) →
  ∀ u s', SetValidator w (sg_set_k k' s) = (Ok u, s') → SI lost s'.
Proof.
  intros I [W B N] Hv Ea Ep Es Et Ej Ex Em Ek Er u s' E. st_inv.
  eapply (inv_vals lost lost _ _ I); try done.
  - by eapply (same_inv _ _ v w (vt_vals _ _ _ (sv_votes _ _ _ _ I))).
  - apply W, I.
  - cbn. rewrite B, map_sum_insert, Ea, Hv. cbn. lia.
  - cbn. rewrite N. lia.
  - apply I.
Qed.

Lemma val_key lost s a v :
  SI lost s → vs_validators (sg_vals s) !! a = Some v → Va_OperatorAddress v = a.
Proof. intros I. apply (ii_key _ _ _ _ (proj1 (vt_vals _ _ _ (sv_votes _ _ _ _ I)))). Qed.

Lemma inv_handleMsgEditValidator lost ds a s u s' :
  SI lost s → handleMsgEditValidator ds a s = (Ok u, s') → SI lost s'.
Proof.
  intros I. unfold handleMsgEditValidator. intros (o & s1 & H1 & H2)%M_bind_Ok. apply gets_Ok in H1 as [-> ->].
  destruct (vs_validators (sg_vals s) !! a) as [v|] eqn:Hv; [|by apply fail_Ok in H2].
  apply M_bind_Ok in H2 as (ds' & s1 & H1 & H2). apply lift_Ok in H1 as [_ ->].
  pose proof (val_key _ _ _ _ I Hv) as Kv. replace s with (sg_set_k (sg_k s) s) in H2 by (by destruct s).
  eapply (inv_same lost s (sg_k s) v); [done|reflexivity|by rewrite Kv|..|exact H2]; done.
Qed.

Lemma inv_handleMsgEditValidatorCommissionRate lost ctx r a s u s' :
  SI lost s → handleMsgEditValidatorCommissionRate ctx r a s = (Ok u, s') → SI lost s'.
Proof.
  intros I. unfold handleMsgEditValidatorCommissionRate. intros (o & s1 & H1 & H2)%M_bind_Ok.
  apply gets_Ok in H1 as [-> ->].
  destruct (vs_validators (sg_vals s) !! a) as [v|] eqn:Hv; [|by apply fail_Ok in H2].
  apply M_bind_Ok in H2 as (c & s1 & H1 & H2). apply lift_Ok in H1 as [Hc ->].
  assert (0 ≤ Co_Rate c) as Hr.
  { unfold UpdateValidatorCommission, ValidateNewRate in Hc. inv_ok. cbn. unfold Dec_LT, ZeroDec in *. lia. }
  apply M_bind_Ok in H2 as (u1 & s1 & H1 & H2). apply (call_hook_Ok bonded notBonded) in H1 as (k1 & -> & K1).
  pose proof (val_key _ _ _ _ I Hv) as Kv.
  eapply (inv_same lost s k1 v); [done|done|by rewrite Kv|..|exact H2]; done.
Qed.

(** ** Creation and destruction *)

Lemma vals_add f vs a w0 w1 :
  vals_inv f vs → vs_validators vs !! a = None → vs_byConsAddr vs !! ConsAddress w1 = None →
  Va_OperatorAddress w0 = a → Va_OperatorAddress w1 = a → Va_ConsPubKey w0 = Va_ConsPubKey w1 →
  Va_Jailed w1 = false → Va_Status w1 = Unbonded → val_ok 0 w1 →
  vals_inv f
    (put_validator w0 w1
      (vs_set_powerIndex <[getValidatorPowerRank w0 := a]>
        (vs_set_byConsAddr <[ConsAddress w0 := a]>
          (vs_set_validators <[a := w0]> vs)))).
Proof.
  intros [Hi Hs] Ha Hc E0 E1 Ep Hj Hst Hok. unfold put_validator. split.
  - unfold index_inv_of. cbn. rewrite E1, Hj, insert_insert_eq, delete_insert_eq.
    rewrite (delete_id _ (getValidatorPowerRank w0)).
    + assert (ConsAddress w0 = ConsAddress w1) as -> by (unfold ConsAddress; by rewrite Ep).
      by apply index_add.
    + destruct (vs_powerIndex vs !! getValidatorPowerRank w0) as [b|] eqn:Hb; [|done].
      apply (ii_index _ _ _ _ Hi) in Hb as (x & Hx & _ & Ex%rank_inj).
      rewrite (ii_key _ _ _ _ Hi _ _ Hx) in Ex. congruence.
  - unfold set_inv_of. cbn. rewrite E1, insert_insert_eq. by apply set_add.
Qed.

Lemma NewDec_Ok i d : NewDec i = Ok d → d = i * precisionReuse.
Proof. unfold NewDec, NewDecWithPrec, precisionMultiplier. cbn. by intros [= <-]. Qed.

Lemma inv_handleMsgCreateValidator lost ctx m s u s' :
  SI lost s → outsider bonded notBonded (Mc_DelegatorAddress m) →
  handleMsgCreateValidator ctx m s = (Ok u, s') → SI lost s'.
Proof.
  intros I Ha. unfold handleMsgCreateValidator. intros (o & s1 & H1 & H2)%M_bind_Ok. apply gets_Ok in H1 as [-> ->].
  apply M_bind_Ok in H2 as (u1 & s1 & H1 & H2). apply guard_not_Ok in H1 as [Hv ->]. bool_prop.
  apply eq_None_not_Some in Hv.
  apply M_bind_Ok in H2 as (o & s1 & H1 & H2).
  assert (s1 = s ∧ (o = None → vs_byConsAddr (sg_vals s) !! pk_Address (Mc_PubKey m) = None)) as [-> Hc].
  { unfold GetValidatorByConsAddr in H1. apply M_bind_Ok in H1 as (x & s2 & H1 & H3).
    apply gets_Ok in H1 as [-> ->]. destruct (vs_byConsAddr (sg_vals s) !! _) as [b|] eqn:Hb.
    - apply gets_Ok in H3 as [-> ->]. split; [done|]. intros Hn.
      apply (ii_cons _ _ _ _ (proj1 (vt_vals _ _ _ (sv_votes _ _ _ _ I)))) in Hb as (x & Hx & _). congruence.
    - apply mret_Ok in H3 as [-> ->]. done. }
  clear H1. apply M_bind_Ok in H2 as (u2 & s1 & H1 & H2). apply guard_not_Ok in H1 as [Ho ->]. bool_prop.
  apply eq_None_not_Some, Hc in Ho. clear Hc.
  apply M_bind_Ok in H2 as (u3 & s1 & H1 & H2). apply guard_not_Ok in H1 as [_ ->].
  apply M_bind_Ok in H2 as (u4 & s1 & H1 & H2). apply lift_Ok in H1 as [_ ->].
  apply M_bind_Ok in H2 as (u5 & s1 & H1 & H2).
  assert (s1 = s) as -> by (destruct consensusPubKeyTypes; [by apply guard_not_Ok in H1 as [_ ->]|by apply mret_Ok in H1 as [_ ->]]).
  apply M_bind_Ok in H2 as (msd & s1 & H3 & H2). apply gets_Ok in H3 as [-> ->].
  apply M_bind_Ok in H2 as (one & s1 & H3 & H2). apply lift_Ok in H3 as [->%NewDec_Ok ->].
  apply M_bind_Ok in H2 as (zero & s1 & H3 & H2). apply lift_Ok in H3 as [_ ->].
  apply M_bind_Ok in H2 as (v & s1 & H3 & H2). apply lift_Ok in H3 as [Hcm ->].
  apply outcome_bind_Ok in Hcm as (u6 & _ & Hcm). injection Hcm as <-.
  set (v := va_set_commission _ _) in *.
  apply M_bind_Ok in H2 as (u7 & s1 & H3 & H2). apply M_bind_Ok in H2 as (u8 & s2 & H4 & H2).
  apply M_bind_Ok in H2 as (u9 & s3 & H5 & H2).
  apply M_bind_Ok in H2 as (token & s4 & H6 & H2). apply lift_Ok in H6 as [Ht ->].
  apply NewDecCoinFromDec_Ok in Ht as (_ & _ & ->).
  apply M_bind_Ok in H2 as (v1 & s4 & H6 & H2). unfold AddSharesAsMinSelfDelegation in H6.
  apply M_bind_Ok in H6 as (u10 & s5 & H6 & H7). apply zoom_Ok in H6 as (k5 & H6 & ->).
  assert (sg_k s3 = sg_k s) as Ek by (st_inv; done). rewrite Ek in H6.
  apply (delegate_Ok bonded notBonded) in H6 as (W5 & B5 & N5); [|done|done|apply I].
  unfold addSharesAsDefaultMinSelfDelegation in H7.
  apply M_bind_Ok in H7 as (u11 & s6 & H7 & H8).
  apply M_bind_Ok in H8 as (x & s7 & H8 & H9). apply lift_Ok in H8 as [->%checkDec_value ->].
  set (v2 := va_set_shares _ v) in *.
  apply M_bind_Ok in H9 as (u12 & s8 & H8 & H9). apply M_bind_Ok in H9 as (u13 & s9 & H9 & H10).
  apply mret_Ok in H10 as [-> ->]. unfold SetValidatorByPowerIndex in H9. cbn [Va_Jailed v2 v va_set_shares va_set_commission NewValidator] in H9.
  apply (call_hook_Ok bonded notBonded) in H2 as (k9 & -> & [Wk Bk Nk]).
  pose proof (pa_msd _ (sv_params _ _ _ _ I)) as Hmsd.
  assert (sg_set_k k9 s9 = mkStakingState k9 (sg_stakes s)
    (put_validator v v2 (vs_set_powerIndex <[getValidatorPowerRank v := Mc_ValidatorAddress m]>
        (vs_set_byConsAddr <[ConsAddress v := Mc_ValidatorAddress m]>
          (vs_set_validators <[Mc_ValidatorAddress m := v]> (sg_vals s))))) (sg_params s) ∧ sg_k s9 = k5) as [-> E9].
  { clear -H3 H4 H5 H7 H8 H9. st_inv. done. }
  rewrite E9 in Wk, Bk, Nk.
  eapply (inv_vals lost lost _ _ I); cbn; try done.
  - apply vals_add; try done; [exact (vt_vals _ _ _ (sv_votes _ _ _ _ I))|].
    split; cbn; try done; try lia.
    unfold msd_base. cbn. destruct (Z.eqb_spec (Sp_MinSelfDelegation (sg_params s)) 0); [lia|]. done.
  - auto.
  - rewrite Bk, B5. cbn. rewrite insert_insert_eq, map_sum_fresh by done. cbn. lia.
  - rewrite Nk, N5. lia.
  - apply I.
Qed.

Lemma set_abandon V last total queue abandoned epoch a v :
  set_inv V last total queue abandoned epoch → V !! a = Some v → Va_Status v ≠ Unbonded → Va_Jailed v = true →
  kept_out v → set_inv V last total queue (abandoned ++ [a]) epoch.
Proof.
  intros [Hb Hp Ht Hq Hn Ha He Hep] Hv Hs Hj Hk. split; try done.
  intros b [Hin| ->%list_elem_of_singleton]%elem_of_app; [auto|eauto].
Qed.

Lemma mustGetByCons_Ok lost s v w s' :
  SI lost s → vs_validators (sg_vals s) !! Va_OperatorAddress v = Some v →
  mustGetValidatorByConsAddr (ConsAddress v) s = (Ok w, s') → s' = s ∧ w = v.
Proof.
  intros I Hv. unfold mustGetValidatorByConsAddr, GetValidatorByConsAddr.
  intros (o & s1 & H1 & H2)%M_bind_Ok. apply M_bind_Ok in H1 as (x & s2 & H1 & H3). apply gets_Ok in H1 as [-> ->].
  assert (vs_byConsAddr (sg_vals s) !! ConsAddress v = Some (Va_OperatorAddress v)) as Hc
    by (apply (ii_cons _ _ _ _ (proj1 (vt_vals _ _ _ (sv_votes _ _ _ _ I)))); eauto).
  rewrite Hc in H3. apply gets_Ok in H3 as [-> ->]. rewrite Hv in H2. by apply mret_Ok in H2 as [-> ->].
Qed.

(** A validator loses its deposit and the share that goes with it. *)
Lemma vals_dismiss f vs v remain :
  vals_inv f vs → vs_validators vs !! Va_OperatorAddress v = Some v → Va_MinSelfDelegation v ≠ 0 →
  remain = Va_DelegatorShares v - OneDec → (Va_Status v = Unbonded → remain ≠ 0) →
  vals_inv f (put_validator v (va_set_shares remain (va_set_jailed true (va_set_msd ZeroDec v))) vs).
Proof.
  intros I Hv Hm -> Hr. pose proof (val_ok_of _ _ _ I Hv) as [V1 V2 V3 V4 V5 V6].
  assert (msd_base v = OneDec) as Eb by (unfold msd_base; by destruct (Z.eqb_spec (Va_MinSelfDelegation v) 0)).
  eapply put_inv; try done.
  - by right.
  - apply (ii_nonneg _ _ _ _ (proj1 I)).
  - split; cbn; try done; unfold msd_base, ZeroDec; cbn; try lia.
    intros Hs _ E. apply Hr in Hs. lia.
Qed.

Lemma inv_WithdrawMinSelfDelegation lost ctx a v s t s' :
  SI lost s → outsider bonded notBonded a → vs_validators (sg_vals s) !! a = Some v →
  WithdrawMinSelfDelegation ctx a v s = (Ok t, s') →
  SI (lost + at_key Ud_Quantity (st_undelegations (sg_stakes s) !! a)) s'.
Proof.
  intros I Ha Hva. pose proof (val_key _ _ _ _ I Hva) as Kv.
  unfold WithdrawMinSelfDelegation. intros (u1 & s1 & H1 & H2)%M_bind_Ok. apply guard_not_Ok in H1 as [Hm ->].
  apply M_bind_Ok in H2 as (remain & s1 & H1 & H2). apply lift_Ok in H1 as [->%checkDec_value ->].
  apply M_bind_Ok in H2 as (u2 & s1 & H1 & H2). apply guard_not_Ok in H1 as [Hneg ->].
  apply M_bind_Ok in H2 as (token & s1 & H1 & H2). apply lift_Ok in H1 as [Ht ->].
  apply NewDecCoinFromDec_Ok in Ht as (_ & Hmn & ->).
  apply M_bind_Ok in H2 as (u3 & s1 & H1 & H2).
  apply (bondedToNot_Ok bonded notBonded) in H1 as (k1 & -> & W1 & B1 & N1); [|done|apply I]. cbn in B1, N1.
  apply M_bind_Ok in H2 as (ub & s1 & H1 & H2). apply gets_Ok in H1 as [-> ->].
  apply M_bind_Ok in H2 as (u4 & s1 & H1 & H2). apply M_bind_Ok in H2 as (u5 & s2 & H3 & H2).
  apply M_bind_Ok in H2 as (u6 & s3 & H4 & H2). apply (call_hook_Ok bonded notBonded) in H4 as (k3 & -> & K3).
  assert (Va_MinSelfDelegation v ≠ 0) as Hm'. { intros E. by rewrite E in Hm. }
  set (ct := BlockTime ctx + _) in *.
  set (t1 := mkStakes (st_delegators (sg_stakes s)) (st_shares (sg_stakes s)) (st_proxies (sg_stakes s))
    (<[a := mkUndelegation a (Va_MinSelfDelegation v) ct]> (st_undelegations (sg_stakes s)))
    ({[(ct, a)]} ∪ st_undelegateQueue (sg_stakes s))).
  assert (sg_set_k k3 s2 = mkStakingState k3 t1 (sg_vals s) (sg_params s) ∧ sg_k s2 = k1) as [E3 E1].
  { clear -H1 H3. st_inv. done. }
  rewrite E3 in H2. rewrite E1 in K3. clear H1 H3 E3 E1 s2.
  set (w := va_set_shares (Va_DelegatorShares v - getSharesFromDefaultMinSelfDelegation)
              (va_set_jailed true (va_set_msd ZeroDec v))) in *.
  assert (∃ k' vs', s' = mkStakingState k' t1 vs' (sg_params s) ∧ keeps bonded notBonded k1 k' ∧
    vals_inv (λ x, map_sum (shares_to x) (st_delegators (sg_stakes s))) vs' ∧
    map_sum Va_MinSelfDelegation (vs_validators vs')
      = map_sum Va_MinSelfDelegation (vs_validators (sg_vals s)) - Va_MinSelfDelegation v)
    as (k' & vs' & -> & [W' B' N'] & V' & M').
  { pose proof (vt_vals _ _ _ (sv_votes _ _ _ _ I)) as V0.
    assert (vs_validators (sg_vals s) !! Va_OperatorAddress v = Some v) as Hv by (by rewrite Kv).
    assert ((Va_Status v = Unbonded → Va_DelegatorShares v - OneDec ≠ 0) →
      vals_inv (λ x, map_sum (shares_to x) (st_delegators (sg_stakes s))) (put_validator v w (sg_vals s))) as Hput
      by (by apply vals_dismiss).
    assert (map_sum Va_MinSelfDelegation (vs_validators (put_validator v w (sg_vals s)))
      = map_sum Va_MinSelfDelegation (vs_validators (sg_vals s)) - Va_MinSelfDelegation v) as Hsum.
    { cbn. rewrite map_sum_insert, Hv. cbn. unfold ZeroDec. lia. }
    cbn [Va_Status va_set_jailed va_set_msd] in H2. destruct (Va_Status v) eqn:Hst.
    - change (Va_MinSelfDelegation (va_set_jailed true (va_set_msd ZeroDec v))) with 0 in H2.
      destruct (Dec_IsZero _ && _) eqn:Hz in H2.
      + apply M_bind_Ok in H2 as (u7 & s2 & H1 & H2). apply mret_Ok in H2 as [_ ->].
        apply (RemoveValidator_Ok bonded notBonded ctx v) in H1; [|done]. destruct H1 as (_ & k2 & K2 & ->).
        cbn in K2. exists k2, (drop_validator v (sg_vals s)). split; [done|].
        split; [by transitivity k3|]. split.
        * eapply drop_inv; try done. pose proof (val_ok_of _ _ _ V0 Hv) as [V1 V2 V3 V4 V5 V6].
          unfold Dec_IsZero, getSharesFromDefaultMinSelfDelegation in Hz. bool_prop.
          unfold msd_base in V1. destruct (Z.eqb_spec (Va_MinSelfDelegation v) 0); [done|lia].
        * cbn. rewrite map_sum_delete, Hv. cbn. lia.
      + rewrite andb_true_r in Hz. st_inv. exists k3, (put_validator v w (sg_vals s)). split; [done|]. split; [done|].
        split; [|done]. apply Hput. intros _ E. unfold Dec_IsZero, getSharesFromDefaultMinSelfDelegation in Hz.
        rewrite E in Hz. done.
    - st_inv. exists k3, (put_validator v w (sg_vals s)). split; [done|]. split; [done|]. split; [|done].
      by apply Hput.
    - apply M_bind_Ok in H2 as (u7 & s2 & H1 & H2). unfold AppendAbandonedValidatorAddrs in H1.
      apply M_bind_Ok in H1 as (w' & s3 & H1 & H3).
      assert (s3 = mkStakingState k3 t1 (sg_vals s) (sg_params s) ∧ w' = v) as [-> ->].
      { unfold mustGetValidatorByConsAddr, GetValidatorByConsAddr in H1.
        apply M_bind_Ok in H1 as (o & s4 & H1 & H4). apply M_bind_Ok in H1 as (x & s5 & H1 & H5).
        apply gets_Ok in H1 as [-> ->]. cbn [sg_vals] in H5.
        change (ConsAddress (va_set_jailed true (va_set_msd ZeroDec v))) with (ConsAddress v) in H5.
        assert (vs_byConsAddr (sg_vals s) !! ConsAddress v = Some (Va_OperatorAddress v)) as Hc
          by (apply (ii_cons _ _ _ _ (proj1 V0)); eauto).
        rewrite Hc in H5. apply gets_Ok in H5 as [-> ->]. cbn [sg_vals] in H4. rewrite Hv in H4.
        by apply mret_Ok in H4 as [-> ->]. }
      st_inv. eexists k3, _. split; [reflexivity|]. split; [done|]. cbn. split; [|exact Hsum].
      destruct Hput as [Hi Hs]; [done|]. split; [exact Hi|]. unfold set_inv_of in *. cbn in *.
      eapply (set_abandon _ _ _ _ _ _ _ w); [exact Hs|by rewrite lookup_insert_eq| |done|by left]. cbn. congruence. }
  pose proof (sv_lost _ _ _ _ I) as L.
  assert (0 < Va_MinSelfDelegation v) as Hpos by lia.
  assert (0 ≤ at_key Ud_Quantity (st_undelegations (sg_stakes s) !! a)) as Hold.
  { destruct (st_undelegations (sg_stakes s) !! a) as [x|] eqn:Hx; [|done]. cbn.
    pose proof (ud_pos _ _ _ (sv_undel _ _ _ _ I) _ _ Hx). lia. }
  eapply (inv_set_undelegation _ _ (lost + Va_MinSelfDelegation v) _
    (mkStakingState k' (sg_stakes s) vs' (sg_params s)) _ a (mkUndelegation a (Va_MinSelfDelegation v) ct));
    cbn; try done; try lia.
  eapply (inv_vals lost _ _ _ I); cbn; try done; try lia.
  - auto.
  - rewrite B', B1, M'. lia.
  - rewrite N', N1. lia.
Qed.

Lemma inv_handleMsgDestroyValidator lost ctx a s u s' :
  SI lost s → outsider bonded notBonded a → handleMsgDestroyValidator ctx a s = (Ok u, s') →
  SI (lost + at_key Ud_Quantity (st_undelegations (sg_stakes s) !! a)) s'.
Proof.
  intros I Ha. unfold handleMsgDestroyValidator. intros (o & s1 & H1 & H2)%M_bind_Ok. apply gets_Ok in H1 as [-> ->].
  destruct (vs_validators (sg_vals s) !! a) as [v|] eqn:Hv; [|by apply fail_Ok in H2].
  apply M_bind_Ok in H2 as (t & s1 & H1 & H2). apply mret_Ok in H2 as [_ ->].
  by eapply inv_WithdrawMinSelfDelegation.
Qed.

(** ** Jail *)

(** The record of the undelegation is that of the deposit, whatever was
    there before. *)
Lemma destroyed_record ctx a v s u s' :
  vs_validators (sg_vals s) !! a = Some v → handleMsgDestroyValidator ctx a s = (Ok u, s') →
  st_undelegations (sg_stakes s') !! a
    = Some (mkUndelegation a (Va_MinSelfDelegation v) (BlockTime ctx + Sp_UnbondingTime (sg_params s))).
Proof.
  intros Hv Hr. set (r := Some _).
  assert (∀ m : M (StakingState K) Z, frames (λ t t', sg_stakes t' = sg_stakes t) m →
    ∀ t x t', st_undelegations (sg_stakes t) !! a = r → m t = (x, t') → st_undelegations (sg_stakes t') !! a = r) as Hframe.
  { intros m F t x t' Ht E. specialize (F t). rewrite E in F. cbn in F. by rewrite F. }
  unfold handleMsgDestroyValidator in Hr. apply M_bind_Ok in Hr as (o & s1 & H1 & Hr). apply gets_Ok in H1 as [-> ->].
  rewrite Hv in Hr. apply M_bind_Ok in Hr as (t & s1 & H1 & Hr). apply mret_Ok in Hr as [_ ->].
  unfold WithdrawMinSelfDelegation in H1. apply M_bind_Ok in H1 as (u1 & s2 & H2 & H1). apply guard_not_Ok in H2 as [_ ->].
  apply M_bind_Ok in H1 as (remain & s2 & H2 & H1). apply lift_Ok in H2 as [_ ->].
  apply M_bind_Ok in H1 as (u2 & s2 & H2 & H1). apply guard_not_Ok in H2 as [_ ->].
  apply M_bind_Ok in H1 as (token & s2 & H2 & H1). apply lift_Ok in H2 as [_ ->].
  apply M_bind_Ok in H1 as (u3 & s2 & H2 & H1).
  assert (sg_params s2 = sg_params s) as Ep.
  { unfold bondedTokensToNotBonded in H2. apply M_bind_Ok in H2 as (cs & s3 & H3 & H2). apply lift_Ok in H3 as [_ ->].
    unfold orPanic in H2. destruct (on_keeper _ s) as [[?|?|?] s3] eqn:Hk; simplify_eq. by apply zoom_Ok in Hk as (k' & _ & ->). }
  apply M_bind_Ok in H1 as (ub & s3 & H3 & H1). apply gets_Ok in H3 as [-> ->]. rewrite Ep in H1.
  apply M_bind_Ok in H1 as (u4 & s3 & H3 & H1). unfold SetUndelegating, on_stakes in H3.
  apply zoom_Ok in H3 as (t3 & H3 & ->). apply modify_Ok in H3.
  apply M_bind_Ok in H1 as (u5 & s4 & H4 & H1). unfold SetAddrByTimeKeyWithNilValue, on_stakes in H4.
  apply zoom_Ok in H4 as (t4 & H4 & ->). apply modify_Ok in H4.
  eapply Hframe; [| |exact H1].
  - assert (PreOrder (λ t t' : StakingState K, sg_stakes t' = sg_stakes t)) as Hpre.
    { split; [done|]. intros x y z Hxy Hyz. congruence. }
    assert (∀ B (m : M ValSet B), frames (λ t t' : StakingState K, sg_stakes t' = sg_stakes t) (on_vals m)) as Fv.
    { intros B m q. unfold on_vals, zoom. by destruct (m (sg_vals q)). }
    assert (∀ h, frames (λ t t' : StakingState K, sg_stakes t' = sg_stakes t) (call_hook ctx h)) as Fh.
    { intros h q. unfold call_hook, on_keeper, zoom. by destruct (sh_call _ _ _ _ _). }
    assert (∀ b n, frames (λ t t' : StakingState K, sg_stakes t' = sg_stakes t) (panic_if b n)) as Fp.
    { intros [] n q; done. }
    unfold AppendAbandonedValidatorAddrs, mustGetValidatorByConsAddr, GetValidatorByConsAddr, GetValidator,
      DeleteValidatorByPowerIndex, SetValidator, RemoveValidator, GetValidator.
    repeat first [apply Fv|apply Fh|apply Fp|frame_step].
  - cbn. subst t4 t3. cbn. by rewrite lookup_insert_eq.
Qed.

Lemma inv_Jail lost c s u s' : SI lost s → Jail c s = (Ok u, s') → SI lost s'.
Proof.
  intros I. unfold Jail, mustGetValidatorByConsAddr, GetValidatorByConsAddr. intros (v & s1 & H1 & H2)%M_bind_Ok.
  apply M_bind_Ok in H1 as (o & s2 & H1 & H3). apply M_bind_Ok in H1 as (x & s4 & H1 & H4).
  apply gets_Ok in H1 as [-> ->]. destruct (vs_byConsAddr (sg_vals s) !! c) as [b|] eqn:Hb;
    [|by apply mret_Ok in H4 as [-> ->]; apply panic_Ok in H3].
  apply gets_Ok in H4 as [-> ->]. destruct (vs_validators (sg_vals s) !! b) as [w|] eqn:Hw'; [|by apply panic_Ok in H3].
  apply mret_Ok in H3 as [-> ->]. pose proof (val_key _ _ _ _ I Hw') as Kw.
  unfold jailValidator in H2. apply M_bind_Ok in H2 as (u1 & s1 & H1 & H2). apply panic_if_Ok in H1 as [_ ->].
  assert (vs_validators (sg_vals s) !! Va_OperatorAddress w = Some w) as Hv by (by rewrite Kw).
  pose proof (vt_vals _ _ _ (sv_votes _ _ _ _ I)) as V0.
  assert (s' = sg_set_vals (put_validator w (va_set_jailed true w) (sg_vals s)) s) as ->.
  { clear -H2. st_inv. done. }
  eapply (inv_vals lost lost _ _ I); cbn; try done; try lia.
  - pose proof (val_ok_of _ _ _ V0 Hv) as [V1 V2 V3 V4 V5 V6]. eapply put_inv; try done; [by left|].
    apply (ii_nonneg _ _ _ _ (proj1 V0)).
  - apply I.
  - rewrite map_sum_insert, Hv. cbn. lia.
  - apply I.
Qed.

(** The slashing module lets a validator out of jail when it still has its
    deposit, and not in the block in which it was put there. *)
Lemma inv_Unjail lost c s u s' :
  SI lost s →
  (∀ a v, vs_validators (sg_vals s) !! a = Some v → ConsAddress v = c →
    Va_MinSelfDelegation v ≠ 0 ∧ ¬ banned c) →
  Unjail c s = (Ok u, s') → SI lost s'.
Proof.
  intros I Hg. unfold Unjail, mustGetValidatorByConsAddr, GetValidatorByConsAddr.
  intros (v & s1 & H1 & H2)%M_bind_Ok.
  apply M_bind_Ok in H1 as (o & s2 & H1 & H3). apply M_bind_Ok in H1 as (x & s4 & H1 & H4).
  apply gets_Ok in H1 as [-> ->]. destruct (vs_byConsAddr (sg_vals s) !! c) as [b|] eqn:Hb;
    [|by apply mret_Ok in H4 as [-> ->]; apply panic_Ok in H3].
  apply gets_Ok in H4 as [-> ->]. destruct (vs_validators (sg_vals s) !! b) as [w|] eqn:Hw'; [|by apply panic_Ok in H3].
  apply mret_Ok in H3 as [-> ->]. pose proof (val_key _ _ _ _ I Hw') as Kw.
  unfold unjailValidator in H2. apply M_bind_Ok in H2 as (u1 & s1 & H1 & H2). apply panic_if_Ok in H1 as [Hj ->].
  bool_prop.
  assert (vs_validators (sg_vals s) !! Va_OperatorAddress w = Some w) as Hv by (by rewrite Kw).
  pose proof (vt_vals _ _ _ (sv_votes _ _ _ _ I)) as V0.
  apply (ii_cons _ _ _ _ (proj1 V0)) in Hb as (w1 & Hw1 & Hcw). rewrite Hw' in Hw1. injection Hw1 as <-.
  destruct (Hg _ _ Hw' Hcw) as [Hm Hban].
  assert (delete (getValidatorPowerRank w) (vs_powerIndex (sg_vals s)) = vs_powerIndex (sg_vals s)) as Ed.
  { pose proof (reindex_id _ _ _ _ _ w w (proj1 V0) Hv eq_refl eq_refl) as E. by rewrite Hj in E. }
  assert (s' = sg_set_vals (put_validator w (va_set_jailed false w) (sg_vals s)) s) as ->.
  { clear -H2 Ed. unfold put_validator, vs_set_powerIndex. cbn. rewrite Ed.
    unfold SetValidatorByPowerIndex in H2. cbn [Va_Jailed va_set_jailed] in H2. st_inv. done. }
  eapply (inv_vals lost lost _ _ I); cbn; try done; try lia.
  - pose proof (val_ok_of _ _ _ V0 Hv) as [V1 V2 V3 V4 V5 V6]. eapply put_inv; try done.
    + intros Hin. destruct (ei_abandoned _ _ _ _ _ _ (proj2 V0) _ Hin) as (x & Hx & _ & _ & [Hz|Hb]).
      * congruence.
      * destruct Hban. replace x with w in Hb by congruence. by rewrite <- Hcw.
    + by left.
    + apply (ii_nonneg _ _ _ _ (proj1 V0)).
  - apply I.
  - rewrite map_sum_insert, Hv. cbn. lia.
  - apply I.
Qed.

(** Only a jailed validator that is not unbonded is kicked out. *)
Lemma inv_AppendAbandoned lost c s u s' :
  SI lost s →
  (∀ a v, vs_validators (sg_vals s) !! a = Some v → ConsAddress v = c →
    Va_Status v ≠ Unbonded ∧ Va_Jailed v = true ∧ kept_out v) →
  AppendAbandonedValidatorAddrs c s = (Ok u, s') → SI lost s'.
Proof.
  intros I Hg. unfold AppendAbandonedValidatorAddrs, mustGetValidatorByConsAddr, GetValidatorByConsAddr.
  intros (v & s1 & H1 & H2)%M_bind_Ok.
  apply M_bind_Ok in H1 as (o & s2 & H1 & H3). apply M_bind_Ok in H1 as (x & s4 & H1 & H4).
  apply gets_Ok in H1 as [-> ->]. destruct (vs_byConsAddr (sg_vals s) !! c) as [b|] eqn:Hb;
    [|by apply mret_Ok in H4 as [-> ->]; apply panic_Ok in H3].
  apply gets_Ok in H4 as [-> ->]. destruct (vs_validators (sg_vals s) !! b) as [w|] eqn:Hw'; [|by apply panic_Ok in H3].
  apply mret_Ok in H3 as [-> ->]. pose proof (val_key _ _ _ _ I Hw') as Kw.
  pose proof (vt_vals _ _ _ (sv_votes _ _ _ _ I)) as V0.
  apply (ii_cons _ _ _ _ (proj1 V0)) in Hb as (w1 & Hw1 & Hcw). rewrite Hw' in Hw1. injection Hw1 as <-.
  destruct (Hg _ _ Hw' Hcw) as (Hs & Hj & Hk). clear Kw Hcw. st_inv.
  eapply (inv_vals lost lost _ _ I); cbn; try done; try lia; [|apply I..].
  split; [exact (proj1 V0)|]. unfold set_inv_of. cbn. rewrite (val_key _ _ _ _ I Hw').
  eapply set_abandon; [exact (proj2 V0)|done..].
Qed.

End Msgs.
