(* ===== verification/StakingFrame.v ===== *)
(** * Staking: what the module does to the stores of others

    The code of the staking module reaches the coin keeper and the modules
    behind its hooks only through their calls: a relation between stores
    that the calls respect is respected by every handler and by the end of a
    block, also when they fail.  The parts of the module's own store are
    followed with them: the records of delegators, those of validators, and
    the list of those kicked out, which only grows before the end of a block.
    What a function calls and writes to is seen from the hypotheses of its
    lemma. *)
From S2P Require Import Prelude Decimal Denom Coins Bank CoinKeeper DecStr Staking.
#[local] Open Scope Z_scope.

(** The relation that asks for nothing. *)
Definition anything {A} (_ _ : A) : Prop := True.
#[global] Instance anything_preorder {A} : PreOrder (@anything A).
Proof. by split. Qed.
Definition every_hook (_ : hook) : bool := true.

Section Frame.
Context {K : Type} `{CoinKeeper K} `{!DelegationKeeper K} `{!StakingHooks K} `{StakingConfig}.
Context (RK : relation K) `{!PreOrder RK}.
Context (HP : hook → bool).
Hypothesis fr_hook : ∀ ctx t vs h, HP h = true → frames RK (sh_call ctx t vs h).
Hypothesis hp_created : ∀ a, HP (AfterValidatorCreated a) = true.
Hypothesis hp_modified : ∀ a, HP (BeforeValidatorModified a) = true.
Hypothesis hp_removed : ∀ c a, HP (AfterValidatorRemoved c a) = true.
Hypothesis hp_bonded : ∀ c a, HP (AfterValidatorBonded c a) = true.
Hypothesis hp_unbonding : ∀ c a, HP (AfterValidatorBeginUnbonding c a) = true.
Hypothesis hp_destroyed : ∀ c a, HP (AfterValidatorDestroyed c a) = true.
Hypothesis hp_before_new : ∀ d l, HP (BeforeDelegationCreated d l) = true.
Hypothesis hp_before : ∀ d l, HP (BeforeDelegationSharesModified d l) = true.
Hypothesis hp_after : ∀ d l, HP (AfterDelegationModified d l) = true.
Hypothesis fr_delegate : ∀ a m c, frames RK (ck_DelegateCoinsFromAccountToModule a m c).
Hypothesis fr_undelegate : ∀ m a c, frames RK (ck_UndelegateCoinsFromModuleToAccount m a c).
Hypothesis fr_transfer : ∀ m n c, frames RK (ck_SendCoinsFromModuleToModule m n c).

Context (RT : relation Stakes) `{!PreOrder RT}.
Hypothesis fr_stakes : ∀ A (m : M Stakes A), frames RT m.
Context (RV : relation (gmap string Validator)) `{!PreOrder RV}.
Hypothesis rv_set : ∀ V a v, RV V (<[a := v]> V).
Hypothesis rv_del : ∀ V a, RV V (delete a V).
Context (RA : relation (list string)) `{!PreOrder RA}.
Hypothesis ra_app : ∀ l a, RA l (l ++ [a]).

Record behind (s s' : StakingState K) : Prop := {
  be_k : RK (sg_k s) (sg_k s');
  be_stakes : RT (sg_stakes s) (sg_stakes s');
  be_vals : RV (vs_validators (sg_vals s)) (vs_validators (sg_vals s'));
  be_abandoned : RA (vs_abandoned (sg_vals s)) (vs_abandoned (sg_vals s')) }.
#[global] Instance behind_preorder : PreOrder behind.
Proof.
  split; [intros s; split; reflexivity|]. intros s1 s2 s3 [A1 B1 C1 D1] [A2 B2 C2 D2]. split; by etransitivity.
Qed.

Lemma frames_on_keeper {A} (m : M K A) : frames RK m → frames behind (on_keeper m).
Proof. intros Hm s. specialize (Hm (sg_k s)). unfold on_keeper, zoom. destruct (m (sg_k s)). by split. Qed.
Lemma frames_on_stakes {A} (m : M Stakes A) : frames behind (on_stakes m).
Proof.
  intros s. pose proof (fr_stakes _ m (sg_stakes s)) as Hm. unfold on_stakes, zoom. destruct (m (sg_stakes s)).
  by split.
Qed.
Lemma frames_on_vals f :
  (∀ vs, RV (vs_validators vs) (vs_validators (f vs)) ∧ RA (vs_abandoned vs) (vs_abandoned (f vs))) →
  frames behind (on_vals (modify f)).
Proof. intros Hf s. destruct (Hf (sg_vals s)). unfold on_vals, zoom. by split. Qed.
Lemma frames_call_hook ctx h : HP h = true → frames behind (call_hook ctx h).
Proof. intros Hh s. unfold call_hook. by apply frames_on_keeper, fr_hook. Qed.
Lemma frames_orPanic {A} (m : M (StakingState K) A) : frames behind m → frames behind (orPanic m).
Proof. intros Hm s. specialize (Hm s). unfold orPanic. by destruct (m s) as [[?|?|?] ?]. Qed.
Lemma frames_replaceErr {A} n (m : M (StakingState K) A) : frames behind m → frames behind (replaceErr n m).
Proof. intros Hm s. specialize (Hm s). unfold replaceErr. by destruct (m s) as [[?|?|?] ?]. Qed.
Lemma frames_staking_logErr {A} (m : M (StakingState K) A) : frames behind m → frames behind (logErr m).
Proof. intros Hm s. specialize (Hm s). unfold logErr. by destruct (m s) as [[?|?|?] ?]. Qed.
Lemma frames_panic_if c n : frames behind (panic_if c n).
Proof. intros s. destruct c; cbn; reflexivity. Qed.
Lemma frames_loop {A} (f : A → M (StakingState K) unit) l : (∀ a, frames behind (f a)) → frames behind (for_each f l).
Proof. intros Hf. apply frames_for_each; [exact _|exact Hf]. Qed.
Lemma frames_for_acc {A B} (f : B → A → M (StakingState K) B) l :
  (∀ b a, frames behind (f b a)) → ∀ acc, frames behind (for_acc f acc l).
Proof.
  intros Hf. induction l as [|a l IH]; intros acc; cbn [for_acc]; [apply frames_mret; exact _|].
  apply frames_bind; [exact _|apply Hf|apply IH].
Qed.


Ltac fr_step :=
  lazymatch goal with
  | |- frames _ (for_each _ _) => apply frames_loop; intros ?
  | |- frames _ (for_acc _ _ _) => apply frames_for_acc; intros ? ?
  | |- frames _ (on_keeper _) => apply frames_on_keeper; solve [eauto]
  | |- frames _ (on_stakes _) => apply frames_on_stakes
  | |- frames _ (on_vals _) =>
      apply frames_on_vals; intros ?; cbn; split; solve [reflexivity|apply rv_set|apply rv_del|apply ra_app|auto]
  | |- frames _ (call_hook _ _) => apply frames_call_hook; auto
  | |- frames _ (panic_if _ _) => apply frames_panic_if
  | |- frames _ (orPanic _) => apply frames_orPanic
  | |- frames _ (replaceErr _ _) => apply frames_replaceErr
  | |- frames _ (logErr _) => apply frames_staking_logErr
  | |- frames _ (lift _) => apply frames_lift; exact _
  | |- frames _ (gets _) => apply frames_gets; exact _
  | |- frames _ (mret _) => apply frames_mret; exact _
  | |- frames _ (fail _) => apply frames_fail; exact _
  | |- frames _ (panic _) => apply frames_panic; exact _
  | |- frames _ (guard_not _ _) => apply frames_guard; exact _
  | |- frames _ (let _ := _ in _) => cbv zeta
  | |- _ => frame_step
  end.
Ltac fr := repeat fr_step.

Lemma fr_UpdateShares ctx a x : frames behind (UpdateShares ctx a x).
Proof.
  unfold UpdateShares, GetLastValsAddedSharesExisted, GetDelegator, SetDelegator, updateShares_step,
    DeleteValidatorByPowerIndex, SetShares, SetValidator, SetValidatorByPowerIndex, SetNewValidatorByPowerIndex. fr.
Qed.
#[local] Hint Resolve fr_UpdateShares : frames.

Lemma fr_RemoveValidator ctx a : frames behind (RemoveValidator ctx a).
Proof. unfold RemoveValidator, GetValidator. fr. Qed.
#[local] Hint Resolve fr_RemoveValidator : frames.

Lemma fr_WithdrawLastShares ctx a l x : frames behind (WithdrawLastShares ctx a l x).
Proof.
  unfold WithdrawLastShares, withdrawShares, DeleteShares, DeleteValidatorByPowerIndex, SetValidator,
    SetValidatorByPowerIndex, SetNewValidatorByPowerIndex. fr.
Qed.
Lemma fr_AddSharesToValidators ctx a l x : frames behind (AddSharesToValidators ctx a l x).
Proof.
  unfold AddSharesToValidators, addShares, SetShares, DeleteValidatorByPowerIndex, SetValidator,
    SetValidatorByPowerIndex, SetNewValidatorByPowerIndex. fr.
Qed.
Lemma fr_UpdateProxy ctx d x : frames behind (UpdateProxy ctx d x).
Proof. unfold UpdateProxy, GetDelegator, SetDelegator. fr. Qed.
#[local] Hint Resolve fr_WithdrawLastShares fr_AddSharesToValidators fr_UpdateProxy : frames.

Lemma fr_Delegate ctx a c : frames behind (Delegate ctx a c).
Proof. unfold Delegate, GetDelegator, SetDelegator. fr. Qed.
Lemma fr_bondedToNot c : frames behind (bondedTokensToNotBonded c).
Proof. unfold bondedTokensToNotBonded. fr. Qed.
#[local] Hint Resolve fr_Delegate fr_bondedToNot : frames.
Lemma fr_Withdraw ctx a c : frames behind (Withdraw ctx a c).
Proof.
  unfold Withdraw, GetDelegator, SetDelegator, GetLastValsAddedSharesExisted, SetProxyBinding, DeleteDelegator,
    GetUndelegating, SetUndelegating, DeleteAddrByTimeKey, SetAddrByTimeKeyWithNilValue, GetDelegator. fr.
Qed.
Lemma fr_unbindProxy ctx a : frames behind (unbindProxy ctx a).
Proof. unfold unbindProxy, GetDelegator, SetDelegator, SetProxyBinding. fr. Qed.
#[local] Hint Resolve fr_Withdraw fr_unbindProxy : frames.

Lemma fr_GetValidatorsToAddShares l : frames behind (GetValidatorsToAddShares l).
Proof. induction l as [|a l IH]; cbn [GetValidatorsToAddShares]; unfold GetValidator; fr. Qed.
Lemma fr_WithdrawMinSelfDelegation ctx a v : frames behind (WithdrawMinSelfDelegation ctx a v).
Proof.
  unfold WithdrawMinSelfDelegation, AppendAbandonedValidatorAddrs, mustGetValidatorByConsAddr,
    GetValidatorByConsAddr, GetValidator, SetUndelegating, SetAddrByTimeKeyWithNilValue,
    DeleteValidatorByPowerIndex, SetValidator. fr.
Qed.
#[local] Hint Resolve fr_GetValidatorsToAddShares fr_WithdrawMinSelfDelegation : frames.

Lemma fr_AddSharesAsMin a v c : frames behind (AddSharesAsMinSelfDelegation a v c).
Proof.
  unfold AddSharesAsMinSelfDelegation, addSharesAsDefaultMinSelfDelegation, DeleteValidatorByPowerIndex,
    SetValidator, SetValidatorByPowerIndex, SetNewValidatorByPowerIndex. fr.
Qed.
#[local] Hint Resolve fr_AddSharesAsMin : frames.

(** ** The handlers *)

Lemma fr_CreateValidator ctx m : frames behind (handleMsgCreateValidator ctx m).
Proof.
  unfold handleMsgCreateValidator, GetValidatorByConsAddr, GetValidator, SetValidator, SetValidatorByConsAddr,
    SetNewValidatorByPowerIndex. fr.
Qed.
Lemma fr_EditValidator d a : frames behind (handleMsgEditValidator d a).
Proof. unfold handleMsgEditValidator, GetValidator, SetValidator. fr. Qed.
Lemma fr_EditCommission ctx r a : frames behind (handleMsgEditValidatorCommissionRate ctx r a).
Proof. unfold handleMsgEditValidatorCommissionRate, GetValidator, SetValidator. fr. Qed.
Lemma fr_AddShares ctx a l : frames behind (handleMsgAddShares ctx a l).
Proof. unfold handleMsgAddShares, GetLastValsAddedSharesExisted, GetDelegator, SetDelegator. fr. Qed.
Lemma fr_BindProxy ctx a p : frames behind (handleMsgBindProxy ctx a p).
Proof. unfold handleMsgBindProxy, GetDelegator, SetDelegator, SetProxyBinding. fr. Qed.
Lemma fr_RegProxy ctx a b : frames behind (handleRegProxy ctx a b).
Proof. unfold handleRegProxy, regProxy, unregProxy, ClearProxy, GetDelegator, SetDelegator, SetProxyBinding. fr. Qed.
Lemma fr_Destroy ctx a : frames behind (handleMsgDestroyValidator ctx a).
Proof. unfold handleMsgDestroyValidator, GetValidator. fr. Qed.
#[local] Hint Resolve fr_CreateValidator fr_EditValidator fr_EditCommission fr_AddShares fr_BindProxy fr_RegProxy
  fr_Destroy : frames.

Lemma fr_NewHandler ctx msg : frames behind (staking_NewHandler ctx msg).
Proof.
  unfold staking_NewHandler. apply frames_bind; [exact _|fr|intros b]. apply frames_bind; [exact _|fr|intros _].
  destruct msg; unfold handleMsgDeposit, handleMsgWithdraw; fr.
Qed.

Lemma fr_ValidateDeliver h ctx msg :
  frames behind (_ ← lift (StakingMsg_ValidateBasic h msg); staking_NewHandler ctx msg).
Proof. apply frames_bind; [exact _|fr|]. intros _. apply fr_NewHandler. Qed.

(** ** The end of a block *)

Lemma fr_bondValidator ctx v : frames behind (bondValidator ctx v).
Proof.
  unfold bondValidator, DeleteValidatorByPowerIndex, SetValidator, SetValidatorByPowerIndex,
    SetNewValidatorByPowerIndex, DeleteValidatorQueue, GetValidatorQueueTimeSlice, DeleteValidatorQueueTimeSlice,
    SetValidatorQueueTimeSlice. fr.
Qed.
Lemma fr_bondedToUnbonding ctx v : frames behind (bondedToUnbonding ctx v).
Proof.
  unfold bondedToUnbonding, beginUnbondingValidator, DeleteValidatorByPowerIndex, SetValidator,
    SetValidatorByPowerIndex, SetNewValidatorByPowerIndex, InsertValidatorQueue, GetValidatorQueueTimeSlice,
    SetValidatorQueueTimeSlice. fr.
Qed.
#[local] Hint Resolve fr_bondValidator fr_bondedToUnbonding : frames.

Lemma fr_electLoop ctx addrs : ∀ room last us t, frames behind (electLoop ctx addrs room last us t).
Proof.
  induction addrs as [|a addrs IH]; intros [|room] last us t; cbn [electLoop]; [fr..|].
  unfold mustGetValidator, GetValidator, unbondedToBonded, unbondingToBonded, SetLastValidatorPower. fr.
Qed.
Lemma fr_promoteLoop ctx addrs : ∀ num last us t, frames behind (promoteLoop ctx addrs num last us t).
Proof.
  induction addrs as [|a addrs IH]; intros [|num] last us t; cbn [promoteLoop]; [fr..|].
  unfold mustGetValidator, GetValidator, unbondedToBonded, unbondingToBonded, SetLastValidatorPower. fr.
Qed.
#[local] Hint Resolve fr_electLoop fr_promoteLoop : frames.

Lemma fr_Apply ctx : frames behind (ApplyAndReturnValidatorSetUpdates ctx).
Proof.
  unfold ApplyAndReturnValidatorSetUpdates, unbond_step, mustGetValidator, GetValidator, DeleteLastValidatorPower,
    SetLastTotalPower. fr.
Qed.
Lemma fr_KickOut ctx : frames behind (KickOutAndReturnValidatorSetUpdates ctx).
Proof.
  unfold KickOutAndReturnValidatorSetUpdates, discharge_step, mustGetValidator, GetValidator,
    DeleteLastValidatorPower, SetLastTotalPower, GetLastTotalPower. fr.
Qed.
Lemma fr_UnbondAllMature ctx : frames behind (UnbondAllMatureValidatorQueue ctx).
Proof.
  unfold UnbondAllMatureValidatorQueue, unbondMature, unbondingToUnbonded, completeUnbondingValidator,
    GetValidator, SetValidator, DeleteValidatorQueueTimeSlice. fr.
Qed.
#[local] Hint Resolve fr_Apply fr_KickOut fr_UnbondAllMature : frames.

Hypothesis ra_clear : ∀ l, RA l [].
Lemma fr_EndBlocker ctx : frames behind (staking_EndBlocker ctx).
Proof.
  unfold staking_EndBlocker, IsEndOfEpoch, SetEpoch, SetTheEndOfLastEpoch, DeleteAbandonedValidatorAddrs, completeMature,
    DeleteAddrByTimeKey, CompleteUndelegation, GetUndelegating, DeleteUndelegating. fr.
Qed.

(** ** Calls of the modules for penalties *)

Lemma fr_Jail c : frames behind (Jail c).
Proof.
  unfold Jail, jailValidator, mustGetValidatorByConsAddr, GetValidatorByConsAddr, GetValidator, SetValidator,
    DeleteValidatorByPowerIndex. fr.
Qed.
Lemma fr_Unjail c : frames behind (Unjail c).
Proof.
  unfold Unjail, unjailValidator, mustGetValidatorByConsAddr, GetValidatorByConsAddr, GetValidator, SetValidator,
    SetValidatorByPowerIndex, SetNewValidatorByPowerIndex. fr.
Qed.
Lemma fr_AppendAbandoned c : frames behind (AppendAbandonedValidatorAddrs c).
Proof. unfold AppendAbandonedValidatorAddrs, mustGetValidatorByConsAddr, GetValidatorByConsAddr, GetValidator. fr. Qed.

End Frame.

(** Where only the stores of others and the list count. *)
Abbreviation behind_k RK RA := (behind RK anything anything RA).
