(* ===== verification/StakingSet.v ===== *)
(** * Staking: the validator set

    The transitions of a validator between bonded, unbonding and unbonded,
    the election at the end of an epoch, the replacement of validators that
    were kicked out, and the queue of those that unbond.  The set that is
    recorded follows the statuses, and the updates that are returned take
    the set of the consensus engine to the recorded one. *)
From S2P Require Import Prelude Decimal Denom Coins Bank CoinKeeper DecStr Token Staking StakingVals StakingVotes StakingProps StakingMsgs.
#[local] Open Scope Z_scope.

(** ** The queue of unbonding validators *)

Record queue_inv (V : gmap string Validator) (queue : gmap Z (list string)) : Prop := {
  qi_queue t a : a ∈ default [] (queue !! t) ↔
    ∃ v, V !! a = Some v ∧ Va_Status v = Unbonding ∧ Va_UnbondingCompletionTime v = t;
  qi_nodup t : NoDup (default [] (queue !! t)) }.

Definition queue_del (t : Z) (a : string) (queue : gmap Z (list string)) : gmap Z (list string) :=
  let l := List.filter (λ b, negb (String.eqb b a)) (default [] (queue !! t)) in
  if (length l =? 0)%nat then delete t queue else <[t := l]> queue.
Definition queue_ins (t : Z) (a : string) (queue : gmap Z (list string)) : gmap Z (list string) :=
  let l := default [] (queue !! t) in
  <[t := if (length l =? 0)%nat then [a] else l ++ [a]]> queue.

Lemma queue_del_at t a queue t' :
  default [] (queue_del t a queue !! t')
  = if bool_decide (t' = t) then List.filter (λ b, negb (String.eqb b a)) (default [] (queue !! t))
    else default [] (queue !! t').
Proof.
  unfold queue_del. destruct (length _ =? 0)%nat eqn:El; case_bool_decide as E.
  - subst. rewrite lookup_delete_eq. apply Nat.eqb_eq, length_zero_iff_nil in El. by rewrite El.
  - by rewrite lookup_delete_ne.
  - subst. by rewrite lookup_insert_eq.
  - by rewrite lookup_insert_ne.
Qed.
Lemma queue_ins_at t a queue t' :
  default [] (queue_ins t a queue !! t')
  = if bool_decide (t' = t) then default [] (queue !! t) ++ [a] else default [] (queue !! t').
Proof.
  unfold queue_ins. case_bool_decide as E.
  - subst. rewrite lookup_insert_eq. cbn. by destruct (default [] (queue !! t)).
  - by rewrite lookup_insert_ne.
Qed.

Lemma elem_of_filter_ne b a l : b ∈ List.filter (λ x, negb (String.eqb x a)) l ↔ b ∈ l ∧ b ≠ a.
Proof.
  rewrite !list_elem_of_In, filter_In. rewrite negb_true_iff, String.eqb_neq. done.
Qed.
Lemma NoDup_filter_ne a l : NoDup l → NoDup (List.filter (λ x, negb (String.eqb x a)) l).
Proof. rewrite !NoDup_ListNoDup. apply List.NoDup_filter. Qed.

(** A validator leaves the queue when its status changes, and one that
    begins to unbond enters it. *)
Lemma queue_leave V queue a v w :
  queue_inv V queue → V !! a = Some v → Va_Status w ≠ Unbonding →
  queue_inv (<[a := w]> V) (queue_del (Va_UnbondingCompletionTime v) a queue).
Proof.
  intros [Hq Hn] Hv Hw. split.
  - intros t b. rewrite queue_del_at. case_bool_decide as E.
    + subst t. rewrite elem_of_filter_ne, Hq. split.
      * intros [(x & Hx & Hs & Ht) Hne]. exists x. by rewrite lookup_insert_ne.
      * intros (x & [[<- <-]|[Hne Hx]]%lookup_insert_Some & Hs & Ht); [done|]. split; [eauto|done].
    + rewrite Hq. split.
      * intros (x & Hx & Hs & Ht). exists x. rewrite lookup_insert_ne; [done|]. intros <-. congruence.
      * intros (x & [[<- <-]|[Hne Hx]]%lookup_insert_Some & Hs & Ht); [done|eauto].
  - intros t. rewrite queue_del_at. case_bool_decide; [|done]. by apply NoDup_filter_ne.
Qed.
Lemma queue_enter V queue a v w :
  queue_inv V queue → V !! a = Some v → Va_Status v ≠ Unbonding → Va_Status w = Unbonding →
  queue_inv (<[a := w]> V) (queue_ins (Va_UnbondingCompletionTime w) a queue).
Proof.
  intros [Hq Hn] Hv Hs Hw.
  assert (∀ t, a ∉ default [] (queue !! t)) as Ha.
  { intros t (x & Hx & Hsx & _)%Hq. congruence. }
  split.
  - intros t b. rewrite queue_ins_at. case_bool_decide as E.
    + subst t. rewrite elem_of_app, list_elem_of_singleton, Hq. split.
      * intros [(x & Hx & Hsx & Ht)| ->]; [|exists w; by rewrite lookup_insert_eq].
        exists x. rewrite lookup_insert_ne; [done|congruence].
      * intros (x & [[<- <-]|[Hne Hx]]%lookup_insert_Some & Hsx & Ht); [by right|left; eauto].
    + rewrite Hq. split.
      * intros (x & Hx & Hsx & Ht). exists x. rewrite lookup_insert_ne; [done|congruence].
      * intros (x & [[<- <-]|[Hne Hx]]%lookup_insert_Some & Hsx & Ht); [congruence|eauto].
  - intros t. rewrite queue_ins_at. case_bool_decide; [|done]. apply NoDup_app. split_and!; [done| |apply NoDup_singleton].
    intros b Hb ->%list_elem_of_singleton. by eapply Ha.
Qed.

(** ** The recorded set and the engine's *)

Definition abandoned_inv `{StakingConfig} `{!Bans} (V : gmap string Validator) (abandoned : list string) : Prop :=
  ∀ a, a ∈ abandoned → ∃ v, V !! a = Some v ∧ Va_Status v ≠ Unbonded ∧ Va_Jailed v = true ∧ kept_out v.
Definition bonded_inv (V : gmap string Validator) (last : gmap string Z) : Prop :=
  ∀ a, is_Some (last !! a) ↔ ∃ v, V !! a = Some v ∧ Va_Status v = Bonded.
Definition power_inv (last : gmap string Z) : Prop :=
  ∀ a p, last !! a = Some p → p ≠ 0 ∧ - 2 ^ 63 ≤ p < 2 ^ 63.

Lemma set_inv_split `{StakingConfig} `{!Bans} `{!Engine} V last total queue abandoned epoch :
  set_inv V last total queue abandoned epoch ↔
  bonded_inv V last ∧ power_inv last ∧ default 0 total = map_sum id last ∧ queue_inv V queue ∧
  abandoned_inv V abandoned ∧ engine_is V last engine_set ∧ 0 < default DefaultEpoch epoch.
Proof.
  split.
  - intros []. split_and!; try done.
  - intros (I1 & I2 & I3 & [] & I4 & I5 & I6). by split.
Qed.

(** The set of the consensus engine, by public key: an update with a power
    sets it, and one without removes the key. *)
Definition engine_update (E : gmap PubKey Z) (u : ValidatorUpdate) : gmap PubKey Z :=
  if Vu_Power u =? 0 then delete (Vu_PubKey u) E else <[Vu_PubKey u := Vu_Power u]> E.
Definition engine_apply (E : gmap PubKey Z) (us : list ValidatorUpdate) : gmap PubKey Z :=
  foldl engine_update E us.
Lemma engine_apply_snoc E us u : engine_apply E (us ++ [u]) = engine_update (engine_apply E us) u.
Proof. apply foldl_snoc. Qed.

(** ** Runs that end well

    The code returns, and what it returns has the property; or it does not
    return, which is allowed if [fails].  With [True] this says what is so
    whenever the code returns, and with [False] that it does. *)
Definition wp {S A} (fails : Prop) (m : M S A) (s : S) (Q : A → S → Prop) : Prop :=
  match m s with (Ok a, s') => Q a s' | _ => fails end.

Section Wp.
Context {S : Type} (fails : Prop).
Implicit Types (s : S).

Lemma wp_mono {A} (m : M S A) s (Q Q' : A → S → Prop) :
  wp fails m s Q → (∀ a s', Q a s' → Q' a s') → wp fails m s Q'.
Proof. unfold wp. destruct (m s) as [[a|e|p] s']; auto. Qed.
Lemma wp_bind {A B} (m : M S A) (f : A → M S B) s Q :
  wp fails m s (λ a s1, wp fails (f a) s1 Q) → wp fails (m ≫= f) s Q.
Proof. unfold wp, mbind, M_bind. by destruct (m s) as [[a|e|p] s']. Qed.
Lemma wp_bind_mono {A B} (m : M S A) (f : A → M S B) s Q Q' :
  wp fails m s Q → (∀ a s1, Q a s1 → wp fails (f a) s1 Q') → wp fails (m ≫= f) s Q'.
Proof. intros H1 H2. apply wp_bind. by eapply wp_mono. Qed.
Lemma wp_run {A} (m : M S A) s a s' Q : m s = (Ok a, s') → Q a s' → wp fails m s Q.
Proof. intros E HQ. red. by rewrite E. Qed.
Lemma wp_bind_run {A B} (m : M S A) (f : A → M S B) s a s1 Q :
  m s = (Ok a, s1) → wp fails (f a) s1 Q → wp fails (m ≫= f) s Q.
Proof. intros E HQ. apply wp_bind. by eapply wp_run. Qed.
Lemma wp_lift {A} (o : outcome A) s Q :
  (∀ a, o = Ok a → Q a s) → (¬ fails → is_ok o = true) → Decision fails → wp fails (lift o) s Q.
Proof.
  intros HQ Hok Hdec. unfold wp, lift. destruct o as [a|e|p]; [by apply HQ|..];
    destruct (decide fails) as [|Hn]; try done; by apply Hok in Hn.
Qed.
Lemma wp_for_acc {A B} (f : B → A → M S B) (P : list A → B → S → Prop) l acc s :
  (∀ a l' acc s, P (a :: l') acc s → wp fails (f acc a) s (P l')) →
  P l acc s → wp fails (for_acc f acc l) s (P []).
Proof.
  intros Hf. revert acc s. induction l as [|a l IH]; intros acc s HP; cbn [for_acc]; [done|].
  eapply wp_bind_mono; [by apply Hf|]. auto.
Qed.
Lemma wp_for_each {A} (f : A → M S unit) (P : list A → S → Prop) l s :
  (∀ a l' s, P (a :: l') s → wp fails (f a) s (λ _, P l')) →
  P l s → wp fails (for_each f l) s (λ _, P []).
Proof.
  intros Hf. revert s. induction l as [|a l IH]; intros s HP; cbn [for_each]; [done|].
  eapply wp_bind_mono; [by apply Hf|]. auto.
Qed.
Lemma wp_frames {A} (R : relation S) (m : M S A) s Q :
  frames R m → wp fails m s Q → wp fails m s (λ a s', Q a s' ∧ R s s').
Proof. intros F. specialize (F s). unfold wp. by destruct (m s) as [[a|e|p] s']. Qed.
End Wp.

Lemma wp_also {S A} fails (m : M S A) s (Q : A → S → Prop) (P : S → Prop) :
  (∀ a s', m s = (Ok a, s') → P s') → wp fails m s Q → wp fails m s (λ a s', Q a s' ∧ P s').
Proof. unfold wp. destruct (m s) as [[a|e|p] s']; eauto. Qed.
Lemma wp_Ok {S A} (m : M S A) s a s' Q : wp True m s Q → m s = (Ok a, s') → Q a s'.
Proof. unfold wp. intros HQ E. by rewrite E in HQ. Qed.
Lemma wp_returns {S A} (m : M S A) s Q : wp False m s Q → ∃ a s', m s = (Ok a, s') ∧ Q a s'.
Proof. unfold wp. destruct (m s) as [[a|e|p] s']; [eauto|done..]. Qed.

(** A step that only reads or writes, computed. *)
Ltac wp_run := eapply wp_bind_run; [reflexivity|].

(** The hooks that changes of the validator set call. *)
Definition set_hook (h : hook) : bool :=
  match h with
  | AfterValidatorBonded _ _ | AfterValidatorBeginUnbonding _ _ => true
  | _ => false
  end.

Section Set_.
Context {K : Type} `{CoinKeeper K} `{!DelegationKeeper K} `{!StakingHooks K} `{cfgS : StakingConfig} `{bansS : !Bans} `{engS : !Engine}.
Context (bonded notBonded : string).
Context (fails : Prop) `{!Decision fails}.
(** The hooks leave the pools alone, and they return unless code may fail. *)
Hypothesis hooks_ok : ∀ ctx t vs h k, set_hook h = true → ck_wf k →
  wp fails (sh_call ctx t vs h) k (λ _ k', keeps bonded notBonded k k').
Implicit Types (s : StakingState K) (f : string → Z).

(** No two validators have the same public key. *)
Lemma pubkey_inj f V C I a b v w :
  index_inv f V C I → V !! a = Some v → V !! b = Some w → Va_ConsPubKey v = Va_ConsPubKey w → a = b.
Proof.
  intros Hi Hv Hw E. assert (ConsAddress v = ConsAddress w) as Ec by (unfold ConsAddress; by rewrite E).
  assert (C !! ConsAddress v = Some a) as H1 by (apply (ii_cons _ _ _ _ Hi); eauto).
  assert (C !! ConsAddress w = Some b) as H2 by (apply (ii_cons _ _ _ _ Hi); eauto). congruence.
Qed.

Lemma engine_put f V C I last E a v p :
  index_inv f V C I → engine_is V last E → V !! a = Some v → p ≠ 0 →
  engine_is V (<[a := p]> last) (engine_update E (mkUpdate (Va_ConsPubKey v) p)).
Proof.
  unfold engine_is. intros Hi HE Hv Hp pk q. unfold engine_update. cbn. destruct (Z.eqb_spec p 0); [done|].
  rewrite lookup_insert_Some, HE. split.
  - intros [[<- <-]|[Hne (b & x & Hx & Hpk & Hl)]]; [exists a, v; by rewrite lookup_insert_eq|].
    exists b, x. rewrite lookup_insert_ne; [done|]. intros <-. congruence.
  - intros (b & x & Hx & Hpk & [[<- <-]|[Hne Hl]]%lookup_insert_Some); [left; split; congruence|].
    right. split; [|by exists b, x]. intros <-. apply Hne. by eapply pubkey_inj.
Qed.
Lemma engine_del f V C I last E a v :
  index_inv f V C I → engine_is V last E → V !! a = Some v →
  engine_is V (delete a last) (engine_update E (mkUpdate (Va_ConsPubKey v) 0)).
Proof.
  unfold engine_is. intros Hi HE Hv pk q. unfold engine_update. cbn. rewrite lookup_delete_Some, HE. split.
  - intros [Hne (b & x & Hx & Hpk & Hl)]. exists b, x. rewrite lookup_delete_ne; [done|]. intros <-. congruence.
  - intros (b & x & Hx & Hpk & [Hne Hl]%lookup_delete_Some). split; [|by exists b, x].
    intros <-. apply Hne. by eapply pubkey_inj.
Qed.

(** ** Transitions *)

(** What the transitions leave alone. *)
Record vframe s s' : Prop := {
  vf_k : keeps bonded notBonded (sg_k s) (sg_k s');
  vf_stakes : sg_stakes s' = sg_stakes s;
  vf_params : sg_params s' = sg_params s;
  vf_msd : map_sum Va_MinSelfDelegation (vs_validators (sg_vals s'))
    = map_sum Va_MinSelfDelegation (vs_validators (sg_vals s));
  vf_epoch : vs_epoch (sg_vals s') = vs_epoch (sg_vals s) }.
#[global] Instance vframe_preorder : PreOrder vframe.
Proof.
  split; [intros s; split; try done; reflexivity|].
  intros s1 s2 s3 [A1 A2 A3 A4 A5] [B1 B2 B3 B4 B5]. split; [by etransitivity|congruence..].
Qed.

(** A record without what a transition writes to. *)
Definition bare (v : Validator) : Validator := va_set_unbonding 0 0 (va_set_status Unbonded v).

Lemma wp_call_hook ctx h s Q :
  set_hook h = true → ck_wf (sg_k s) → (∀ k', keeps bonded notBonded (sg_k s) k' → Q () (sg_set_k k' s)) → wp fails (call_hook ctx h) s Q.
Proof.
  intros Hset Hwf HQ. unfold call_hook, on_keeper, zoom, wp. pose proof (hooks_ok ctx (sg_stakes s) (sg_vals s) h (sg_k s) Hset Hwf) as Hk.
  unfold wp in Hk. destruct (sh_call _ _ _ _ _) as [[[]|e|p] k']; auto.
Qed.

Lemma wp_hook ctx h s Q :
  wp fails (sh_call ctx (sg_stakes s) (sg_vals s) h) (sg_k s) (λ _ k', keeps bonded notBonded (sg_k s) k') →
  (∀ k', keeps bonded notBonded (sg_k s) k' → Q () (sg_set_k k' s)) → wp fails (call_hook ctx h) s Q.
Proof.
  intros Hk HQ. unfold call_hook, on_keeper, zoom, wp in *. destruct (sh_call _ _ _ _ _) as [[[]|e|p] k']; auto.
Qed.
Lemma DeleteValidatorQueue_run v s :
  DeleteValidatorQueue v s = (Ok (),
    sg_set_vals (vs_set_queue (queue_del (Va_UnbondingCompletionTime v) (Va_OperatorAddress v)) (sg_vals s)) s).
Proof.
  unfold DeleteValidatorQueue, vs_set_queue, queue_del. unfold mbind, M_bind. cbn.
  by destruct (length _ =? 0)%nat.
Qed.
Lemma InsertValidatorQueue_run v s :
  InsertValidatorQueue v s = (Ok (),
    sg_set_vals (vs_set_queue (queue_ins (Va_UnbondingCompletionTime v) (Va_OperatorAddress v)) (sg_vals s)) s).
Proof. done. Qed.

(** A status change, with the change of the queue [g]. *)
Definition turn (v w : Validator) (g : gmap Z (list string) → gmap Z (list string)) (vs : ValSet) : ValSet :=
  vs_set_queue g (put_validator v w vs).

Lemma SetByPowerIndex_run v s :
  SetValidatorByPowerIndex v s = (Ok (),
    sg_set_vals (vs_set_powerIndex (if Va_Jailed v then id else <[getValidatorPowerRank v := Va_OperatorAddress v]>)
      (sg_vals s)) s).
Proof. unfold SetValidatorByPowerIndex. destruct (Va_Jailed v); [|done]. by destruct s as [? ? [] ?]. Qed.

Lemma wp_bondValidator ctx v s Q :
  ck_wf (sg_k s) → (∀ k', keeps bonded notBonded (sg_k s) k' →
    Q (UpdateStatus v Bonded) (mkStakingState k' (sg_stakes s)
      (turn v (UpdateStatus v Bonded) (queue_del (Va_UnbondingCompletionTime v) (Va_OperatorAddress v)) (sg_vals s))
      (sg_params s))) →
  wp fails (bondValidator ctx v) s Q.
Proof.
  intros Hwf HQ. unfold bondValidator. do 2 wp_run. eapply wp_bind_run; [apply SetByPowerIndex_run|].
  eapply wp_bind_run; [apply DeleteValidatorQueue_run|]. apply wp_bind, wp_call_hook; [done|done|]. intros k' Hk.
  eapply wp_run; [done|]. by apply HQ.
Qed.

Definition begun (ctx : Ctx) s (v : Validator) : Validator :=
  va_set_unbonding (BlockHeight ctx) (BlockTime ctx + Sp_UnbondingTime (sg_params s)) (UpdateStatus v Unbonding).
Lemma wp_beginUnbonding ctx v s Q :
  ck_wf (sg_k s) → Va_Status v = Bonded →
  (∀ k', keeps bonded notBonded (sg_k s) k' →
    Q (begun ctx s v) (mkStakingState k' (sg_stakes s)
      (turn v (begun ctx s v) (queue_ins (Va_UnbondingCompletionTime (begun ctx s v)) (Va_OperatorAddress v)) (sg_vals s))
      (sg_params s))) →
  wp fails (bondedToUnbonding ctx v) s Q.
Proof.
  intros Hwf Hs HQ. unfold bondedToUnbonding, beginUnbondingValidator.
  assert (panic_if (S := StakingState K) (negb (IsBonded v)) = λ _, mret ()) as Ep.
  { unfold IsBonded. by rewrite Hs. }
  rewrite !Ep. do 5 wp_run. eapply wp_bind_run; [apply SetByPowerIndex_run|].
  eapply wp_bind_run; [apply InsertValidatorQueue_run|]. apply wp_bind, wp_call_hook; [done|done|]. intros k' Hk.
  eapply wp_run; [done|]. by apply HQ.
Qed.

End Set_.
