(* ===== verification/StakingElect.v ===== *)
(** * Staking: the election

    The loops that elect the validator set at the end of an epoch and that
    replace validators which were kicked out: the set they record is the one
    their updates take the consensus engine to, and at the end of an epoch
    it consists of the first validators by the power index. *)
From S2P Require Import Prelude Decimal Denom Coins Bank CoinKeeper DecStr Token Staking StakingVals StakingVotes StakingProps StakingMsgs StakingSet.
#[local] Open Scope Z_scope.

Lemma int64_range x : - 2 ^ 63 ≤ int64 x < 2 ^ 63.
Proof. unfold int64. pose proof (Z.mod_pos_bound (x + 2 ^ 63) (2 ^ 64) ltac:(lia)). lia. Qed.
Lemma power_range v : - 2 ^ 63 ≤ PotentialConsensusPowerByShares v < 2 ^ 63.
Proof. apply int64_range. Qed.

Lemma bare_eq v w : bare w = bare v →
  Va_OperatorAddress w = Va_OperatorAddress v ∧ Va_ConsPubKey w = Va_ConsPubKey v ∧
  Va_Jailed w = Va_Jailed v ∧ Va_DelegatorShares w = Va_DelegatorShares v ∧
  Va_MinSelfDelegation w = Va_MinSelfDelegation v ∧ Va_Tokens w = Va_Tokens v ∧
  Va_Commission w = Va_Commission v.
Proof. destruct v, w. unfold bare, va_set_unbonding, va_set_status. cbn. by intros [= -> -> -> -> -> -> -> ->]. Qed.
Lemma bare_power v w : bare w = bare v →
  PotentialConsensusPowerByShares w = PotentialConsensusPowerByShares v.
Proof. intros (_ & _ & _ & E & _)%bare_eq. unfold PotentialConsensusPowerByShares. by rewrite E. Qed.

Lemma map_sum_id_bound (m : gmap string Z) b :
  0 ≤ b → (∀ k x, m !! k = Some x → Z.abs x ≤ b) → Z.abs (map_sum id m) ≤ Z.of_nat (size m) * b.
Proof.
  intros Hb. induction m as [|k x m Hk IH] using map_ind; intros Hm; [by rewrite map_sum_empty|].
  rewrite map_sum_fresh, map_size_insert_None by done. unfold id.
  assert (Z.abs x ≤ b) by (apply (Hm k); by rewrite lookup_insert_eq).
  assert (Z.abs (map_sum id m) ≤ Z.of_nat (size m) * b).
  { apply IH. intros k' x' Hx. apply (Hm k'). rewrite lookup_insert_ne; [done|congruence]. }
  unfold id in *. lia.
Qed.

Lemma Int_Add_ok x y : Z.abs (x + y) < 2 ^ 255 → Int_Add x y = Ok (x + y).
Proof.
  intros Hb. unfold Int_Add, maxBitLen. pose proof (proj2 (BitLen_le (x + y) 255 ltac:(lia)) Hb).
  destruct (Z.gtb_spec (BitLen (x + y)) 255); [lia|done].
Qed.
Lemma Int_Sub_ok x y : Z.abs (x - y) < 2 ^ 255 → Int_Sub x y = Ok (x - y).
Proof.
  intros Hb. unfold Int_Sub, maxBitLen. pose proof (proj2 (BitLen_le (x - y) 255 ltac:(lia)) Hb).
  destruct (Z.gtb_spec (BitLen (x - y)) 255); [lia|done].
Qed.

(** An iterator returns the keys in their order. *)
#[global] Instance key_le_trans {V} : Transitive (@key_le V).
Proof.
  intros x y z H1 H2 Hlt. unfold key_le in *. destruct (str_lt_total (fst x) (fst y)) as [L|[E|L]].
  - apply H2. by eapply str_lt_trans.
  - apply H2. by rewrite <- E.
  - done.
Qed.
#[global] Instance key_le_total {V} : Total (@key_le V).
Proof.
  intros x y. unfold key_le. destruct (str_lt_total (fst x) (fst y)) as [L|[E|L]].
  - left. by apply str_lt_asym.
  - left. rewrite E. apply str_lt_irrefl.
  - right. by apply str_lt_asym.
Qed.

Lemma store_iterate_split {V} (m : gmap string V) l1 l2 x y :
  store_iterate m = l1 ++ l2 → x ∈ l1 → y ∈ l2 → str_lt x.1 y.1.
Proof.
  intros E Hx Hy. assert (StronglySorted key_le (l1 ++ l2)) as Hs by (rewrite <- E; apply (StronglySorted_merge_sort _)).
  assert (key_le x y) as Hle.
  { clear E. induction l1 as [|z l1 IH]; [by apply not_elem_of_nil in Hx|]. cbn in Hs. inversion Hs as [|? ? Hs' Hf]; subst.
    apply elem_of_cons in Hx as [->|Hx]; [|by apply IH].
    rewrite Forall_forall in Hf. apply Hf. rewrite elem_of_app. by right. }
  destruct (str_lt_total x.1 y.1) as [L|[Ek|L]]; [done|exfalso..|by apply Hle in L].
  assert (NoDup (l1 ++ l2).*1) as Hd.
  { rewrite <- E. unfold store_iterate. rewrite merge_sort_Permutation. apply NoDup_fst_map_to_list. }
  rewrite fmap_app, NoDup_app in Hd. destruct Hd as (_ & Hd & _). apply (Hd x.1); [by apply list_elem_of_fmap_2|].
  rewrite Ek. by apply list_elem_of_fmap_2.
Qed.


Section Elect.
Context {K : Type} `{CoinKeeper K} `{!DelegationKeeper K} `{!StakingHooks K} `{cfgS : StakingConfig} `{bansS : !Bans} `{engS : !Engine}.
Context (bonded notBonded : string).
Context (fails : Prop) `{!Decision fails}.
Hypothesis hooks_ok : ∀ ctx t vs h k, set_hook h = true → ck_wf k →
  wp fails (sh_call ctx t vs h) k (λ _ k', keeps bonded notBonded k k').
Implicit Types (s : StakingState K) (f : string → Z).

#[local] Abbreviation vals_of s := (vs_validators (sg_vals s)).
#[local] Abbreviation last_of s := (vs_lastPowers (sg_vals s)).

(** What holds between the transitions: everything but the recorded total. *)
Record core f (E : gmap PubKey Z) (us : list ValidatorUpdate) s : Prop := {
  co_wf : ck_wf (sg_k s);
  co_index : index_inv_of f (sg_vals s);
  co_queue : queue_inv (vals_of s) (vs_queue (sg_vals s));
  co_abandoned : abandoned_inv (vals_of s) (vs_abandoned (sg_vals s));
  co_bonded : bonded_inv (vals_of s) (last_of s);
  co_power : power_inv (last_of s);
  co_engine : engine_is (vals_of s) (last_of s) (engine_apply E us) }.

Lemma core_key f E us s a v : core f E us s → vals_of s !! a = Some v → Va_OperatorAddress v = a.
Proof. intros C. apply (ii_key _ _ _ _ (co_index _ _ _ _ C)). Qed.

Lemma index_turn f vs a v w g :
  index_inv_of f vs → vs_validators vs !! a = Some v → bare w = bare v →
  (Va_Status w = Unbonded → Va_MinSelfDelegation w = 0 → f a ≠ 0) →
  index_inv_of f (turn v w g vs).
Proof.
  intros Hi Hv Hb Hlive. destruct (bare_eq _ _ Hb) as (E1 & E2 & E3 & E4 & E5 & E6 & E7).
  pose proof (ii_key _ _ _ _ Hi _ _ Hv) as Ka. destruct (ii_val _ _ _ _ Hi _ _ Hv) as [V1 V2 V3 V4 V5 V6].
  unfold index_inv_of, turn. cbn. rewrite E1, Ka.
  eapply index_replace; try done; [congruence|apply (ii_nonneg _ _ _ _ Hi)|].
  split; rewrite ?E3, ?E4, ?E5, ?E6, ?E7; try done; [|by rewrite <- E5]. unfold msd_base. by rewrite E5.
Qed.

Lemma abandoned_turn V abandoned a v w :
  abandoned_inv V abandoned → V !! a = Some v → bare w = bare v → Va_Status w ≠ Unbonded →
  abandoned_inv (<[a := w]> V) abandoned.
Proof.
  intros Ha Hv (_ & Ep & Ej & _ & Em & _)%bare_eq Hs b Hb. destruct (Ha b Hb) as (x & Hx & Hsx & Hj & Hk).
  destruct (decide (b = a)) as [->|Hne].
  - rewrite Hv in Hx. injection Hx as <-. exists w. rewrite lookup_insert_eq. split_and!; [done|done|congruence|].
    eapply kept_out_ext; [done| |done]. by left.
  - exists x. by rewrite lookup_insert_ne.
Qed.

(** A validator is bonded with a power. *)
Lemma core_bond f E us s a v p k' :
  core f E us s → vals_of s !! a = Some v → Va_Status v ≠ Bonded → p ≠ 0 → - 2 ^ 63 ≤ p < 2 ^ 63 →
  ck_wf k' → core f E (us ++ [mkUpdate (Va_ConsPubKey v) p])
    (mkStakingState k' (sg_stakes s)
      (vs_set_lastPowers <[a := p]>
        (turn v (UpdateStatus v Bonded) (queue_del (Va_UnbondingCompletionTime v) (Va_OperatorAddress v)) (sg_vals s)))
      (sg_params s)).
Proof.
  intros C Hv Hs Hp Hr Hwf'. pose proof (core_key _ _ _ _ _ _ C Hv) as Ka. destruct C as [Hwf Hi Hq Ha Hb Hpw He].
  assert (bare (UpdateStatus v Bonded) = bare v) as Eb by done. split; cbn [sg_vals]; [done|..].
  - by eapply (index_turn f (sg_vals s)).
  - cbn. rewrite Ka. by apply queue_leave.
  - cbn. rewrite Ka. by eapply abandoned_turn.
  - intros b. cbn. rewrite Ka. destruct (decide (b = a)) as [->|Hne].
    + rewrite !lookup_insert_eq. split; [eauto|]. by eexists.
    + rewrite !lookup_insert_ne by done. apply Hb.
  - intros b q. cbn. intros [[<- <-]|[_ Hx]]%lookup_insert_Some; [done|by eapply Hpw].
  - cbn. rewrite Ka. rewrite engine_apply_snoc. eapply engine_same; [|done|done].
    by eapply (engine_put f).
Qed.
(** The power of one that is bonded changes. *)
Lemma core_repower f E us s a v p :
  core f E us s → vals_of s !! a = Some v → Va_Status v = Bonded → p ≠ 0 → - 2 ^ 63 ≤ p < 2 ^ 63 →
  core f E (us ++ [mkUpdate (Va_ConsPubKey v) p])
    (mkStakingState (sg_k s) (sg_stakes s) (vs_set_lastPowers <[a := p]> (sg_vals s)) (sg_params s)).
Proof.
  intros C Hv Hs Hp Hr. destruct C as [Hwf Hi Hq Ha Hb Hpw He]. split; cbn; try done.
  - intros b. destruct (decide (b = a)) as [->|Hne].
    + rewrite lookup_insert_eq. split; [eauto|]. by eexists.
    + rewrite lookup_insert_ne by done. apply Hb.
  - intros b q. intros [[<- <-]|[_ Hx]]%lookup_insert_Some; [done|by eapply Hpw].
  - rewrite engine_apply_snoc. by eapply (engine_put f).
Qed.
(** A bonded validator begins to unbond. *)
Lemma core_unbond f E us s a v ctx k' :
  core f E us s → vals_of s !! a = Some v → Va_Status v = Bonded →
  ck_wf k' → core f E (us ++ [mkUpdate (Va_ConsPubKey v) 0])
    (mkStakingState k' (sg_stakes s)
      (vs_set_lastPowers (delete a)
        (turn v (begun ctx s v) (queue_ins (Va_UnbondingCompletionTime (begun ctx s v)) (Va_OperatorAddress v)) (sg_vals s)))
      (sg_params s)).
Proof.
  intros C Hv Hs Hwf'. pose proof (core_key _ _ _ _ _ _ C Hv) as Ka. destruct C as [Hwf Hi Hq Ha Hb Hpw He].
  assert (bare (begun ctx s v) = bare v) as Eb by done. split; cbn [sg_vals]; [done|..].
  - by eapply (index_turn f (sg_vals s)).
  - cbn. rewrite Ka. eapply queue_enter; [done|done| |done]. by rewrite Hs.
  - cbn. rewrite Ka. by eapply abandoned_turn.
  - intros b. cbn. rewrite Ka. destruct (decide (b = a)) as [->|Hne].
    + rewrite lookup_delete_eq, lookup_insert_eq. split; [by intros []|]. by intros (x & [= <-] & ?).
    + rewrite lookup_delete_ne, lookup_insert_ne by done. apply Hb.
  - intros b q. cbn. intros [_ Hx]%lookup_delete_Some. by eapply Hpw.
  - cbn. rewrite Ka. rewrite engine_apply_snoc. eapply engine_same; [|done|done].
    by eapply (engine_del f).
Qed.

(** The frame of a transition. *)
Lemma vframe_turn s a v w g h k' :
  vals_of s !! a = Some v → Va_OperatorAddress v = a → bare w = bare v → keeps bonded notBonded (sg_k s) k' →
  vframe bonded notBonded s
    (mkStakingState k' (sg_stakes s) (vs_set_lastPowers h (turn v w g (sg_vals s))) (sg_params s)) ∧
  bare <$> <[a := w]> (vals_of s) = bare <$> vals_of s.
Proof.
  intros Hv Ka Hb Hk. destruct (bare_eq _ _ Hb) as (E1 & _ & _ & _ & E5 & _). split.
  - split; try done. cbn. rewrite map_sum_insert, E1, Ka, Hv. cbn. lia.
  - rewrite fmap_insert, Hb. apply insert_id. by rewrite lookup_fmap, Hv.
Qed.

Lemma bare_lookup (V V0 : gmap string Validator) a v :
  bare <$> V = bare <$> V0 → V !! a = Some v → ∃ v0, V0 !! a = Some v0 ∧ bare v = bare v0.
Proof.
  intros Eb Hv. assert ((bare <$> V) !! a = Some (bare v)) as Ha by (by rewrite lookup_fmap, Hv).
  rewrite Eb, lookup_fmap in Ha. destruct (V0 !! a) as [v0|]; [|done].
  exists v0. split; [done|]. by apply (inj Some) in Ha.
Qed.

(** ** The election *)

Record electing f E s0 (elected : list string) (r : gmap string Z) (us : list ValidatorUpdate) (t : Z) s : Prop := {
  el_core : core f E us s;
  el_frame : vframe bonded notBonded s0 s;
  el_bare : bare <$> vals_of s = bare <$> vals_of s0;
  el_rest a : r !! a = if bool_decide (a ∈ elected) then None else last_of s !! a;
  el_elected a : a ∈ elected → ∃ v, vals_of s0 !! a = Some v ∧
    last_of s !! a = Some (PotentialConsensusPowerByShares v) ∧ PotentialConsensusPowerByShares v ≠ 0;
  el_total : map_sum id (last_of s) = t + map_sum id r;
  el_bound : Z.abs t ≤ Z.of_nat (length elected) * 2 ^ 63;
  el_none : us = [] → last_of s = last_of s0;
  el_misc : vs_abandoned (sg_vals s) = vs_abandoned (sg_vals s0) ∧
    vs_lastTotalPower (sg_vals s) = vs_lastTotalPower (sg_vals s0) }.

(** One more is elected, with its power recorded. *)
Lemma electing_one f E s0 elected r us t s a v p us' s' :
  electing f E s0 elected r us t s → a ∉ elected → vals_of s !! a = Some v →
  p = PotentialConsensusPowerByShares v → p ≠ 0 →
  core f E us' s' → vframe bonded notBonded s s' → bare <$> vals_of s' = bare <$> vals_of s →
  (∀ b, last_of s' !! b = if bool_decide (b = a) then Some p else last_of s !! b) →
  (us' = [] → us = [] ∧ last_of s' = last_of s) →
  vs_abandoned (sg_vals s') = vs_abandoned (sg_vals s) →
  vs_lastTotalPower (sg_vals s') = vs_lastTotalPower (sg_vals s) →
  electing f E s0 (elected ++ [a]) (delete a r) us' (t + p) s'.
Proof.
  intros [Hc Hf Hb Hr He Ht Hbd Hn Hm] Ha Hv -> Hp0 Hc' Hf' Hb' Hl Hn' Hab Htot.
  destruct (bare_lookup _ _ _ _ Hb Hv) as (v0 & Hv0 & Ev).
  assert (last_of s' = <[a := PotentialConsensusPowerByShares v]> (last_of s)) as El.
  { apply map_eq. intros b. rewrite Hl. case_bool_decide as E1.
    - subst. by rewrite lookup_insert_eq.
    - by rewrite lookup_insert_ne. }
  split; try done.
  - by transitivity s.
  - by rewrite Hb'.
  - intros b. rewrite Hl. destruct (decide (b = a)) as [->|Hne].
    + rewrite lookup_delete_eq, bool_decide_true; [done|set_solver].
    + rewrite lookup_delete_ne, Hr by done. rewrite (bool_decide_false (b = a)) by done.
      repeat case_bool_decide; try done; exfalso; set_solver.
  - intros b [Hb1| ->%list_elem_of_singleton]%elem_of_app.
    + rewrite Hl, bool_decide_false; [auto|congruence].
    + exists v0. rewrite Hl, bool_decide_true by done. by rewrite <- (bare_power v0 v Ev).
  - rewrite El, map_sum_insert, map_sum_delete, Hr, bool_decide_false, Ht by done. unfold id. lia.
  - pose proof (power_range v). rewrite length_app. cbn. lia.
  - intros Hnil. destruct (Hn' Hnil) as [-> ->]. auto.
  - rewrite Hab, Htot. done.
Qed.

Lemma wp_bond ctx v m s Q :
  ck_wf (sg_k s) → Va_Status v ≠ Bonded →
  (∀ k', keeps bonded notBonded (sg_k s) k' →
    Q (UpdateStatus v Bonded) (mkStakingState k' (sg_stakes s)
      (turn v (UpdateStatus v Bonded) (queue_del (Va_UnbondingCompletionTime v) (Va_OperatorAddress v)) (sg_vals s))
      (sg_params s))) →
  wp fails (match Va_Status v with
            | Unbonded => unbondedToBonded ctx v
            | Unbonding => unbondingToBonded ctx v
            | Bonded => m
            end) s Q.
Proof.
  intros Hwf Hs HQ. destruct (Va_Status v) eqn:E; [..|done].
  - unfold unbondedToBonded, IsUnbonded. rewrite E. wp_run. eapply wp_bondValidator; eauto.
  - unfold unbondingToBonded, IsUnbonding. rewrite E. wp_run. eapply wp_bondValidator; eauto.
Qed.

Lemma electing_bond f E s0 elected r us t s a v p k' :
  electing f E s0 elected r us t s → a ∉ elected → vals_of s !! a = Some v → Va_Status v ≠ Bonded →
  p = PotentialConsensusPowerByShares v → p ≠ 0 → keeps bonded notBonded (sg_k s) k' →
  electing f E s0 (elected ++ [a]) (delete a r) (us ++ [mkUpdate (Va_ConsPubKey v) p]) (t + p)
    (mkStakingState k' (sg_stakes s)
      (vs_set_lastPowers <[a := p]>
        (turn v (UpdateStatus v Bonded) (queue_del (Va_UnbondingCompletionTime v) (Va_OperatorAddress v)) (sg_vals s)))
      (sg_params s)).
Proof.
  intros He Ha Hv Hs -> Hp Hk. pose proof (el_core _ _ _ _ _ _ _ _ He) as C.
  pose proof (core_key _ _ _ _ _ _ C Hv) as Ka.
  destruct (vframe_turn s a v (UpdateStatus v Bonded)
    (queue_del (Va_UnbondingCompletionTime v) (Va_OperatorAddress v))
    <[a := PotentialConsensusPowerByShares v]> k' Hv Ka eq_refl Hk) as [Hf Hb].
  eapply (electing_one _ _ _ _ _ us t s); try done.
  - apply core_bond; try done; [apply power_range|]. by apply (ke_wf _ _ _ _ Hk), C.
  - cbn. rewrite Ka. done.
  - intros b. cbn. case_bool_decide as Eb; [subst; by rewrite lookup_insert_eq|by rewrite lookup_insert_ne].
  - by intros [_ ?]%app_nil.
Qed.

(** The body of the loop, before it goes on. *)
Lemma wp_elect_one {B} ctx f E s0 elected r us t s a v (m : list ValidatorUpdate → Int → M (StakingState K) B) Q :
  electing f E s0 elected r us t s → a ∉ elected → vals_of s !! a = Some v →
  PotentialConsensusPowerByShares v ≠ 0 → (¬ fails → Z.of_nat (length elected) ≤ 2 ^ 100) →
  (∀ us' s', let t' := t + PotentialConsensusPowerByShares v in
    electing f E s0 (elected ++ [a]) (delete a r) us' t' s' → wp fails (m us' t') s' Q) →
  wp fails (
    v ← (match Va_Status v with
         | Unbonded => unbondedToBonded ctx v
         | Unbonding => unbondingToBonded ctx v
         | Bonded => mret v
         end);
    updates ← (if bool_decide (r !! a = Some (ConsensusPowerByShares v)) then mret us
               else
                 _ ← SetLastValidatorPower a (ConsensusPowerByShares v);
                 mret (us ++ [ABCIValidatorUpdateByShares v]));
    totalPower ← lift (Int_Add t (ConsensusPowerByShares v));
    m updates totalPower) s Q.
Proof.
  intros He Ha Hv Hp Hlen Hm. pose proof (el_core _ _ _ _ _ _ _ _ He) as C. cbn zeta in Hm.
  assert (∀ us' s', electing f E s0 (elected ++ [a]) (delete a r) us' (t + PotentialConsensusPowerByShares v) s' →
    wp fails (totalPower ← lift (Int_Add t (PotentialConsensusPowerByShares v)); m us' totalPower) s' Q) as Hgo.
  { intros us' s' He'. apply wp_bind, wp_lift; [|intros Hf|done].
    - unfold Int_Add. destruct (_ >? _); [done|]. intros x [= <-]. auto.
    - rewrite Int_Add_ok; [done|]. pose proof (el_bound _ _ _ _ _ _ _ _ He). pose proof (power_range v).
      specialize (Hlen Hf). lia. }
  assert (r !! a = last_of s !! a) as Er.
  { rewrite (el_rest _ _ _ _ _ _ _ _ He), bool_decide_false; done. }
  destruct (decide (Va_Status v = Bonded)) as [Hs|Hs].
  - rewrite Hs. wp_run. unfold ABCIValidatorUpdateByShares, ConsensusPowerByShares, IsBonded.
    rewrite Hs, (bool_decide_true (Bonded = Bonded)) by done.
    case_bool_decide as Hr; [wp_run|eapply wp_bind_run; [reflexivity|]]; apply Hgo.
    + eapply (electing_one _ _ _ _ _ us t s); try done.
      intros b. case_bool_decide as Eb; [subst; by rewrite <- Er|done].
    + eapply (electing_one _ _ _ _ _ us t s); try done.
      * eapply (core_repower _ _ _ s); try done. apply power_range.
      * intros b. cbn. case_bool_decide as Eb; [subst; by rewrite lookup_insert_eq|by rewrite lookup_insert_ne].
      * by intros [_ ?]%app_nil.
  - apply wp_bind, wp_bond; [apply C|done|]. intros k' Hk.
    change (ConsensusPowerByShares (UpdateStatus v Bonded)) with (PotentialConsensusPowerByShares v).
    rewrite Er. assert (last_of s !! a = None) as ->.
    { apply eq_None_not_Some. intros (x & Hx & Hsx)%(co_bonded _ _ _ _ C). congruence. }
    rewrite bool_decide_false by done. eapply wp_bind_run; [reflexivity|]. apply Hgo.
    exact (electing_bond _ _ _ _ _ us t s a v _ k' He Ha Hv Hs eq_refl Hp Hk).
Qed.

(** The end of the loop: it elected the first of the list. *)
Definition elects s0 (addrs : list string) (room : nat) (es : list string) : Prop :=
  ∃ rest, addrs = es ++ rest ∧ (length es ≤ room)%nat ∧
    ((length es < room)%nat → ∀ b rest', rest = b :: rest' →
      ∃ v, vals_of s0 !! b = Some v ∧ PotentialConsensusPowerByShares v = 0).

Lemma wp_electLoop ctx f E s0 addrs : ∀ room elected r us t s,
  electing f E s0 elected r us t s → NoDup (elected ++ addrs) →
  (∀ a, a ∈ addrs → ∃ v, vals_of s0 !! a = Some v ∧ Va_Jailed v = false) →
  (¬ fails → Z.of_nat (length elected + length addrs) ≤ 2 ^ 100) →
  wp fails (electLoop ctx addrs room r us t) s (λ x s', ∃ es, elects s0 addrs room es ∧
    electing f E s0 (elected ++ es) x.1.1 x.1.2 x.2 s').
Proof.
  induction addrs as [|a addrs IH]; intros room elected r us t s He Hd Hj Hlen; cbn [electLoop].
  - eapply wp_run; [reflexivity|]. exists []. rewrite app_nil_r. split; [|done].
    exists []. split_and!; [done|cbn; lia|done].
  - destruct room as [|room].
    { eapply wp_run; [reflexivity|]. exists []. rewrite app_nil_r. split; [|done]. exists (a :: addrs).
      split_and!; [done|cbn; lia|cbn; lia]. }
    destruct (Hj a) as (v0 & Hv0 & Hjv); [by left|].
    destruct (bare_lookup _ _ _ _ (eq_sym (el_bare _ _ _ _ _ _ _ _ He)) Hv0) as (v & Hv & Ev).
    eapply wp_bind_run. { unfold mustGetValidator. unfold mbind, M_bind. cbn. rewrite Hv. reflexivity. }
    destruct (bare_eq _ _ Ev) as (_ & _ & Ejv & _). rewrite <- Ejv, Hjv. wp_run.
    pose proof (bare_power _ _ Ev) as Ep. destruct (Z.eqb_spec (PotentialConsensusPowerByShares v) 0) as [E0|E0].
    { eapply wp_run; [reflexivity|]. exists []. rewrite app_nil_r. split; [|done]. exists (a :: addrs).
      split_and!; [done|cbn; lia|]. intros _ b rest' [= <- _]. exists v0. split; [done|congruence]. }
    assert (a ∉ elected) as Ha.
    { rewrite NoDup_app in Hd. destruct Hd as (_ & Hd & _). intros Hin. apply (Hd a Hin). by left. }
    eapply (wp_elect_one ctx f E s0 elected r us t s a v); try done; [intros Hf; specialize (Hlen Hf); cbn in Hlen; lia|].
    cbn zeta. intros us' s' He'. eapply wp_mono; [eapply IH; try done|].
    + by rewrite <- app_assoc.
    + intros b Hb. apply Hj. by right.
    + intros Hf. specialize (Hlen Hf). rewrite length_app. cbn in *. lia.
    + intros [[r' us''] t'] s'' (es & (rest & -> & Hl & Hn) & He''). exists (a :: es).
      rewrite <- app_assoc in He''. split; [|exact He'']. exists rest.
      split_and!; [done|cbn; lia|]. intros Hlt. apply Hn. cbn in Hlt. lia.
Qed.

(** Who is left of the old set is dropped from it. *)
Lemma electing_unbond ctx f E s0 elected r us t s a p v k' :
  electing f E s0 elected r us t s → r !! a = Some p → vals_of s !! a = Some v → Va_Status v = Bonded →
  keeps bonded notBonded (sg_k s) k' →
  electing f E s0 elected (delete a r) (us ++ [mkUpdate (Va_ConsPubKey v) 0]) t
    (mkStakingState k' (sg_stakes s)
      (vs_set_lastPowers (delete a)
        (turn v (begun ctx s v) (queue_ins (Va_UnbondingCompletionTime (begun ctx s v)) (Va_OperatorAddress v)) (sg_vals s)))
      (sg_params s)).
Proof.
  intros [C Hf Hb Hr He Ht Hbd Hn Hm] Hra Hv Hs Hk. pose proof (core_key _ _ _ _ _ _ C Hv) as Ka.
  destruct (vframe_turn s a v (begun ctx s v)
    (queue_ins (Va_UnbondingCompletionTime (begun ctx s v)) (Va_OperatorAddress v))
    (delete a) k' Hv Ka eq_refl Hk) as [Hf' Hb'].
  assert ((a ∉ elected) ∧ last_of s !! a = Some p) as [Hae Hla].
  { rewrite Hr in Hra. by case_bool_decide. }
  split; cbn [sg_vals]; try done.
  - apply core_unbond; try done. by apply (ke_wf _ _ _ _ Hk), C.
  - by transitivity s.
  - cbn. rewrite Ka. by rewrite Hb'.
  - intros b. cbn. destruct (decide (b = a)) as [->|Hne].
    + rewrite !lookup_delete_eq. by rewrite bool_decide_false.
    + by rewrite !lookup_delete_ne by done.
  - intros b Hbe. cbn. rewrite lookup_delete_ne by congruence. auto.
  - cbn. rewrite !map_sum_delete, Ht, Hla, Hra. lia.
  - by intros [_ ?]%app_nil.
Qed.

Lemma wp_unbond_all ctx f E s0 elected r us t s :
  electing f E s0 elected r us t s →
  wp fails (for_acc (unbond_step ctx) us (sortNoLongerBonded r)) s (λ us' s', electing f E s0 elected ∅ us' t s').
Proof.
  intros He. eapply wp_mono.
  - apply (wp_for_acc fails (unbond_step ctx) (λ l us s, ∃ r', (∀ a, a ∈ l ↔ is_Some (r' !! a)) ∧ NoDup l ∧
      electing f E s0 elected r' us t s)).
    + intros a l us1 s1 (r' & Hl & Hd & He1). apply NoDup_cons in Hd as [Hal Hd].
      assert (is_Some (r' !! a)) as [p Hp] by (apply Hl; by left).
      assert (last_of s1 !! a = Some p) as Hp'.
      { rewrite (el_rest _ _ _ _ _ _ _ _ He1) in Hp. by case_bool_decide. }
      destruct (proj1 (co_bonded _ _ _ _ (el_core _ _ _ _ _ _ _ _ He1) a)) as (v & Hv & Hs); [by eexists|].
      pose proof (core_key _ _ _ _ _ _ (el_core _ _ _ _ _ _ _ _ He1) Hv) as Ka.
      unfold unbond_step. eapply wp_bind_run. { unfold mustGetValidator. unfold mbind, M_bind. cbn. rewrite Hv. reflexivity. }
      apply wp_bind. eapply wp_beginUnbonding; [done|apply He1|done|]. intros k' Hk.
      wp_run. eapply wp_run; [reflexivity|]. exists (delete a r'). split_and!; [|done|].
      * intros b. destruct (decide (b = a)) as [->|Hne].
        -- rewrite lookup_delete_eq. split; [done|by intros []].
        -- rewrite lookup_delete_ne, <- Hl by done. set_solver.
      * pose proof (electing_unbond ctx _ _ _ _ _ _ _ _ _ _ _ k' He1 Hp Hv Hs Hk) as He2.
        cbn. rewrite Ka. rewrite Ka in He2. exact He2.
    + exists r. split_and!; [| |done].
      * intros a. unfold sortNoLongerBonded. rewrite list_elem_of_fmap. split.
        -- intros ([b p] & -> & Hb%elem_of_store_iterate). by eexists.
        -- intros [p Hp]. exists (a, p). split; [done|]. by apply elem_of_store_iterate.
      * unfold sortNoLongerBonded. unfold store_iterate. rewrite merge_sort_Permutation.
        apply NoDup_fst_map_to_list.
  - intros us' s' (r' & Hl & _ & He'). assert (r' = ∅) as ->; [|done].
    apply map_empty. intros a. apply eq_None_not_Some. intros Hx%Hl. by apply not_elem_of_nil in Hx.
Qed.

(** ** The validator set at the end of an epoch *)

Lemma elem_of_powerIndexReverse f s a :
  index_inv_of f (sg_vals s) →
  a ∈ powerIndexReverse s ↔ ∃ v, vals_of s !! a = Some v ∧ Va_Jailed v = false.
Proof.
  intros Hi. unfold powerIndexReverse. rewrite list_elem_of_fmap. split.
  - intros ([k b] & -> & Hb). rewrite elem_of_reverse, elem_of_store_iterate in Hb.
    apply (ii_index _ _ _ _ Hi) in Hb as (v & Hv & Hj & _). eauto.
  - intros (v & Hv & Hj). exists (getValidatorPowerRank v, a). split; [done|].
    rewrite elem_of_reverse, elem_of_store_iterate. apply (ii_index _ _ _ _ Hi). eauto.
Qed.

Lemma powerIndex_split f s es rest a b :
  index_inv_of f (sg_vals s) → powerIndexReverse s = es ++ rest → a ∈ es → b ∈ rest →
  ∃ v w, vals_of s !! a = Some v ∧ vals_of s !! b = Some w ∧
    str_lt (getValidatorPowerRank w) (getValidatorPowerRank v).
Proof.
  intros Hi E Ha Hb. unfold powerIndexReverse in E. apply fmap_app_inv in E as (l1 & l2 & -> & -> & E).
  apply list_elem_of_fmap in Ha as ([k a'] & -> & Ha). apply list_elem_of_fmap in Hb as ([k' b'] & -> & Hb).
  apply (f_equal reverse) in E. rewrite reverse_involutive, reverse_app in E.
  pose proof (store_iterate_split _ _ _ (k', b') (k, a') E) as Hlt. rewrite !elem_of_reverse in Hlt.
  specialize (Hlt Hb Ha). cbn in Hlt |- *.
  assert (∀ x y, (x, y) ∈ reverse l2 ++ reverse l1 → ∃ v, vals_of s !! y = Some v ∧ x = getValidatorPowerRank v) as Hx.
  { intros x y. rewrite <- E, elem_of_store_iterate. intros (v & Hv & _ & ->)%(ii_index _ _ _ _ Hi). eauto. }
  destruct (Hx k a') as (v & Hv & ->); [rewrite elem_of_app, !elem_of_reverse; by right|].
  destruct (Hx k' b') as (w & Hw & ->); [rewrite elem_of_app, !elem_of_reverse; by left|]. eauto.
Qed.

Lemma powerIndexReverse_NoDup f s : index_inv_of f (sg_vals s) → NoDup (powerIndexReverse s).
Proof.
  intros Hi. rewrite NoDup_alt. intros i j a Hi1 Hj1.
  assert (∀ i j, powerIndexReverse s !! i = Some a → powerIndexReverse s !! j = Some a → ¬ (i < j)%nat) as Hw.
  { clear i j Hi1 Hj1. intros i j Hi1 Hj1 Hlt. pose proof (take_drop (S i) (powerIndexReverse s)) as E.
    destruct (powerIndex_split f s _ _ a a Hi (eq_sym E)) as (v & w & Hv & Hw & L).
    - apply list_elem_of_lookup. exists i. rewrite lookup_take. by rewrite decide_True by lia.
    - apply list_elem_of_lookup. exists (j - S i)%nat. rewrite lookup_drop. by replace (S i + (j - S i))%nat with j by lia.
    - rewrite Hv in Hw. injection Hw as <-. by apply str_lt_irrefl in L. }
  pose proof (Hw i j Hi1 Hj1). pose proof (Hw j i Hj1 Hi1). lia.
Qed.

Lemma powerIndexReverse_length f s :
  index_inv_of f (sg_vals s) → (length (powerIndexReverse s) ≤ size (vals_of s))%nat.
Proof.
  intros Hi. rewrite <- (size_dom (D := gset string)). unfold size, set_size. cbn. apply submseteq_length, NoDup_submseteq.
  - by eapply powerIndexReverse_NoDup.
  - intros a (v & Hv & _)%(elem_of_powerIndexReverse f); [|done]. rewrite elem_of_elements, elem_of_dom. eauto.
Qed.

(** The set consists of validators with power, and of no more than the
    maximum; who has power and is not in it ranks below all of it, and then
    it is full. *)
Record elected_set s s' : Prop := {
  es_in a p : last_of s' !! a = Some p → ∃ v, vals_of s !! a = Some v ∧ Va_Jailed v = false ∧
    p = PotentialConsensusPowerByShares v ∧ p ≠ 0;
  es_size : Z.of_nat (size (last_of s')) ≤ Sp_MaxValidators (sg_params s);
  es_best b w : vals_of s !! b = Some w → Va_Jailed w = false → PotentialConsensusPowerByShares w ≠ 0 →
    last_of s' !! b = None →
    Z.of_nat (size (last_of s')) = Sp_MaxValidators (sg_params s) ∧
    ∀ a v, vals_of s !! a = Some v → is_Some (last_of s' !! a) →
      str_lt (getValidatorPowerRank w) (getValidatorPowerRank v) }.

Lemma electing_start f E s : core f E [] s → electing f E s [] (last_of s) [] 0 s.
Proof.
  intros C. split; try done; try by intros a ?%not_elem_of_nil.
Qed.

Lemma size_elected (L : gmap string Z) es : NoDup es → (∀ a, is_Some (L !! a) ↔ a ∈ es) → size L = length es.
Proof.
  intros Hd Hl. rewrite <- (size_dom (D := gset string)).
  assert (dom L = list_to_set (C := gset string) es) as ->.
  { apply set_eq. intros a. by rewrite elem_of_dom, Hl, elem_of_list_to_set. }
  by apply size_list_to_set.
Qed.

Lemma zero_power_below v w :
  str_lt (getValidatorPowerRank w) (getValidatorPowerRank v) → PotentialConsensusPowerByShares v = 0 →
  PotentialConsensusPowerByShares w = 0.
Proof.
  intros Hlt Hv. rewrite <- key_power_zero. rewrite <- key_power_zero in Hv. rewrite str_lt_cmp in Hlt.
  unfold getValidatorPowerRank in Hlt.
  rewrite (bigEndian_compare 8 (key_power w) (key_power v)) in Hlt by apply key_power_range.
  pose proof (key_power_range w). destruct (Z.compare_spec (key_power w) (key_power v)); [congruence|lia|done].
Qed.

Lemma elected_of f E s es us t s' :
  0 < Sp_MaxValidators (sg_params s) → index_inv_of f (sg_vals s) →
  elects s (powerIndexReverse s) (Z.to_nat (Sp_MaxValidators (sg_params s))) es →
  electing f E s es ∅ us t s' → elected_set s s'.
Proof.
  intros Hm Hi (rest & Er & Hl & Hstop) He.
  assert (∀ a, is_Some (last_of s' !! a) ↔ a ∈ es) as Hin.
  { intros a. split; [|intros (v & _ & Hx & _)%(el_elected _ _ _ _ _ _ _ _ He); eauto].
    intros [p Hp]. pose proof (el_rest _ _ _ _ _ _ _ _ He a) as Hr. rewrite lookup_empty in Hr.
    case_bool_decide; [done|congruence]. }
  pose proof (powerIndexReverse_NoDup f s Hi) as Hd. rewrite Er, NoDup_app in Hd. destruct Hd as (Hd & Hx & _).
  pose proof (size_elected _ _ Hd Hin) as Hsz.
  assert (∀ a, a ∈ es → ∃ v, vals_of s !! a = Some v ∧ Va_Jailed v = false) as Hjl.
  { intros a Ha. apply (elem_of_powerIndexReverse f); [done|]. rewrite Er, elem_of_app. by left. }
  split.
  - intros a p Hp. assert (a ∈ es) as Ha by (apply Hin; eauto).
    destruct (el_elected _ _ _ _ _ _ _ _ He a Ha) as (v & Hv & Hlp & Hp0).
    destruct (Hjl a Ha) as (v' & Hv' & Hj). exists v. split_and!; congruence.
  - rewrite Hsz. lia.
  - intros b w Hw Hj Hp Hno. assert (b ∉ es) as Hb by (intros Hb%Hin; rewrite Hno in Hb; by destruct Hb).
    assert (b ∈ rest) as Hbr.
    { assert (b ∈ powerIndexReverse s) as Hbi by (apply (elem_of_powerIndexReverse f); eauto).
      rewrite Er, elem_of_app in Hbi. by destruct Hbi. }
    split.
    + rewrite Hsz. destruct (decide (length es < Z.to_nat (Sp_MaxValidators (sg_params s)))%nat) as [Hlt|]; [|lia].
      exfalso. destruct rest as [|c rest']; [by apply not_elem_of_nil in Hbr|].
      destruct (Hstop Hlt c rest' eq_refl) as (x & Hx' & Hx0). apply elem_of_cons in Hbr as [->|Hbr]; [congruence|].
      destruct (powerIndex_split f s (es ++ [c]) rest' c b Hi) as (x1 & w1 & Hx1 & Hw1 & L).
      * by rewrite <- app_assoc.
      * rewrite elem_of_app, list_elem_of_singleton. by right.
      * done.
      * apply Hp. rewrite Hw in Hw1. injection Hw1 as <-. eapply zero_power_below; [exact L|congruence].
    + intros a v Hv Ha%Hin. destruct (powerIndex_split f s es rest a b Hi Er Ha Hbr) as (v1 & w1 & Hv1 & Hw1 & L).
      congruence.
Qed.

Lemma wp_Apply ctx f E s :
  core f E [] s → default 0 (vs_lastTotalPower (sg_vals s)) = map_sum id (last_of s) →
  0 < Sp_MaxValidators (sg_params s) → (¬ fails → Z.of_nat (size (vals_of s)) ≤ 2 ^ 100) →
  wp fails (ApplyAndReturnValidatorSetUpdates ctx) s (λ us s',
    core f E us s' ∧ vframe bonded notBonded s s' ∧
    default 0 (vs_lastTotalPower (sg_vals s')) = map_sum id (last_of s') ∧ elected_set s s').
Proof.
  intros C Ht Hm Hsz. pose proof (co_index _ _ _ _ C) as Hi. unfold ApplyAndReturnValidatorSetUpdates. do 3 wp_run.
  eapply wp_bind_mono.
  { eapply (wp_electLoop ctx f E s); [by apply electing_start| | |].
    - by eapply powerIndexReverse_NoDup.
    - intros a. by apply (elem_of_powerIndexReverse f).
    - intros Hf. specialize (Hsz Hf). pose proof (powerIndexReverse_length f s Hi). cbn. lia. }
  intros [[r us] t] s1 (es & Hes & He). cbn in He. eapply wp_bind_mono; [by apply wp_unbond_all|].
  intros us' s2 He2. pose proof (elected_of _ _ _ _ _ _ _ Hm Hi Hes He2) as Hel.
  pose proof (el_total _ _ _ _ _ _ _ _ He2) as Ht2. rewrite map_sum_empty in Ht2.
  destruct us' as [|u us']; cbn [length Nat.ltb Nat.leb].
  - wp_run. eapply wp_run; [reflexivity|]. split_and!; [apply He2|apply He2| |done].
    rewrite (proj2 (el_misc _ _ _ _ _ _ _ _ He2)), Ht, (el_none _ _ _ _ _ _ _ _ He2); done.
  - wp_run. eapply wp_run; [reflexivity|]. split_and!.
    + destruct (el_core _ _ _ _ _ _ _ _ He2). by split.
    + by destruct (el_frame _ _ _ _ _ _ _ _ He2).
    + cbn. lia.
    + by destruct Hel.
Qed.

(** ** The replacement of validators that were kicked out *)

Record promoting f E s0 (promoted : list string) (us : list ValidatorUpdate) (t : Z) s : Prop := {
  pm_core : core f E us s;
  pm_frame : vframe bonded notBonded s0 s;
  pm_bare : bare <$> vals_of s = bare <$> vals_of s0;
  pm_old a : a ∉ promoted → is_Some (last_of s !! a) → last_of s !! a = last_of s0 !! a;
  pm_new a : a ∈ promoted → ∃ v, vals_of s0 !! a = Some v ∧ Va_Jailed v = false;
  pm_total : t = map_sum id (last_of s);
  pm_misc : vs_abandoned (sg_vals s) = vs_abandoned (sg_vals s0) }.

Lemma bonded_size V (L : gmap string Z) : bonded_inv V L → (size L ≤ size V)%nat.
Proof.
  intros Hb. rewrite <- !(size_dom (D := gset string)). apply subseteq_size. intros a. rewrite !elem_of_dom.
  intros (v & Hv & _)%Hb. eauto.
Qed.

Lemma promoting_bound f E s0 promoted us t s :
  promoting f E s0 promoted us t s → Z.abs t ≤ Z.of_nat (size (vals_of s0)) * 2 ^ 63.
Proof.
  intros [C _ Hb _ _ -> _].
  assert (size (vals_of s) = size (vals_of s0)) as <-.
  { rewrite <- (map_size_fmap bare (vals_of s)), Hb. apply map_size_fmap. }
  pose proof (bonded_size _ _ (co_bonded _ _ _ _ C)).
  pose proof (map_sum_id_bound (last_of s) (2 ^ 63) ltac:(lia)) as B.
  assert (∀ k x, last_of s !! k = Some x → Z.abs x ≤ 2 ^ 63) as Hx.
  { intros k x Hx%(co_power _ _ _ _ C). lia. }
  specialize (B Hx). nia.
Qed.

Lemma promoting_one f E s0 promoted us t s a v p k' :
  promoting f E s0 promoted us t s → last_of s0 !! a = None → vals_of s !! a = Some v → Va_Jailed v = false →
  Va_Status v ≠ Bonded → p = PotentialConsensusPowerByShares v → p ≠ 0 → keeps bonded notBonded (sg_k s) k' →
  promoting f E s0 (a :: promoted) (us ++ [mkUpdate (Va_ConsPubKey v) p]) (t + p)
    (mkStakingState k' (sg_stakes s)
      (vs_set_lastPowers <[a := p]>
        (turn v (UpdateStatus v Bonded) (queue_del (Va_UnbondingCompletionTime v) (Va_OperatorAddress v)) (sg_vals s)))
      (sg_params s)).
Proof.
  intros [C Hf Hb Ho Hnw Ht Hm] Hl0 Hv Hj Hs -> Hp Hk. pose proof (core_key _ _ _ _ _ _ C Hv) as Ka.
  destruct (vframe_turn s a v (UpdateStatus v Bonded)
    (queue_del (Va_UnbondingCompletionTime v) (Va_OperatorAddress v))
    <[a := PotentialConsensusPowerByShares v]> k' Hv Ka eq_refl Hk) as [Hf' Hb'].
  assert (last_of s !! a = None) as Hla.
  { apply eq_None_not_Some. intros (x & Hx & Hsx)%(co_bonded _ _ _ _ C). congruence. }
  split; cbn [sg_vals]; try done.
  - apply core_bond; try done; [apply power_range|]. by apply (ke_wf _ _ _ _ Hk), C.
  - by transitivity s.
  - cbn. rewrite Ka. by rewrite Hb'.
  - intros b [Hne Hb1]%not_elem_of_cons. cbn. rewrite lookup_insert_ne by done. auto.
  - intros b [->|Hb1]%elem_of_cons; [|auto]. destruct (bare_lookup _ _ _ _ Hb Hv) as (v0 & Hv0 & Ev).
    exists v0. split; [done|]. destruct (bare_eq _ _ Ev) as (_ & _ & Ej & _). congruence.
  - cbn. rewrite map_sum_insert, Hla, Ht. unfold id. cbn. lia.
Qed.

Lemma wp_promoteLoop ctx f E s0 addrs : ∀ num promoted us t s,
  promoting f E s0 promoted us t s → NoDup addrs → (∀ a, a ∈ addrs → a ∉ promoted) →
  (∀ a, a ∈ addrs → ∃ v, vals_of s0 !! a = Some v ∧ Va_Jailed v = false) →
  (¬ fails → Z.of_nat (size (vals_of s0)) ≤ 2 ^ 100) →
  wp fails (promoteLoop ctx addrs num (last_of s0) us t) s (λ x s', ∃ promoted',
    promoting f E s0 promoted' x.1 x.2 s').
Proof.
  induction addrs as [|a addrs IH]; intros num promoted us t s Hp Hd Hx Hj Hsz.
  { eapply wp_run; [reflexivity|]. by exists promoted. }
  destruct num as [|num]; [eapply wp_run; [reflexivity|]; by exists promoted|]. cbn [promoteLoop].
  apply NoDup_cons in Hd as [Ha Hd].
  assert (wp fails (promoteLoop ctx addrs (S num) (last_of s0) us t) s (λ x s', ∃ promoted',
    promoting f E s0 promoted' x.1 x.2 s')) as Hskip.
  { eapply IH; try done; intros b Hb; [apply Hx|apply Hj]; by right. }
  case_bool_decide as Hl; [done|]. rewrite <- eq_None_not_Some in Hl.
  destruct (Hj a) as (v0 & Hv0 & Hjv); [by left|].
  destruct (bare_lookup _ _ _ _ (eq_sym (pm_bare _ _ _ _ _ _ _ Hp)) Hv0) as (v & Hv & Ev).
  destruct (bare_eq _ _ Ev) as (_ & _ & Ejv & _).
  eapply wp_bind_run. { unfold mustGetValidator. unfold mbind, M_bind. cbn. rewrite Hv. reflexivity. }
  destruct (Z.eqb_spec (PotentialConsensusPowerByShares v) 0) as [E0|E0]; [done|].
  assert (Va_Status v ≠ Bonded) as Hs.
  { intros Hs. assert (is_Some (last_of s !! a)) as Hl'
      by (apply (co_bonded _ _ _ _ (pm_core _ _ _ _ _ _ _ Hp)); eauto).
    pose proof (pm_old _ _ _ _ _ _ _ Hp a (Hx a ltac:(by left)) Hl') as Eq. rewrite Eq, Hl in Hl'. by destruct Hl'. }
  apply wp_bind, wp_bond; [apply Hp|done|]. intros k' Hk. wp_run.
  change (ConsensusPowerByShares (UpdateStatus v Bonded)) with (PotentialConsensusPowerByShares v).
  apply wp_bind, wp_lift; [|intros Hf|done].
  - unfold Int_Add. destruct (_ >? _); [done|]. intros x [= <-]. eapply (IH num (a :: promoted)); try done.
    + eapply (promoting_one f E s0 promoted us t s a v); try done. congruence.
    + intros b Hb. apply not_elem_of_cons. split; [congruence|]. apply Hx. by right.
    + intros b Hb. apply Hj. by right.
  - rewrite Int_Add_ok; [done|]. pose proof (promoting_bound _ _ _ _ _ _ _ Hp). pose proof (power_range v).
    specialize (Hsz Hf). lia.
Qed.

(** Those who were kicked out leave the set. *)
Lemma promoting_discharge ctx f E s0 promoted us t s a p v k' :
  promoting f E s0 promoted us t s → last_of s !! a = Some p → vals_of s !! a = Some v → Va_Status v = Bonded →
  keeps bonded notBonded (sg_k s) k' →
  promoting f E s0 promoted (us ++ [mkUpdate (Va_ConsPubKey v) 0]) (t - p)
    (mkStakingState k' (sg_stakes s)
      (vs_set_lastPowers (delete a)
        (turn v (begun ctx s v) (queue_ins (Va_UnbondingCompletionTime (begun ctx s v)) (Va_OperatorAddress v)) (sg_vals s)))
      (sg_params s)).
Proof.
  intros [C Hf Hb Ho Hnw Ht Hm] Hla Hv Hs Hk. pose proof (core_key _ _ _ _ _ _ C Hv) as Ka.
  destruct (vframe_turn s a v (begun ctx s v)
    (queue_ins (Va_UnbondingCompletionTime (begun ctx s v)) (Va_OperatorAddress v))
    (delete a) k' Hv Ka eq_refl Hk) as [Hf' Hb'].
  split; cbn [sg_vals]; try done.
  - apply core_unbond; try done. by apply (ke_wf _ _ _ _ Hk), C.
  - by transitivity s.
  - cbn. rewrite Ka. by rewrite Hb'.
  - intros b Hb1. cbn. destruct (decide (b = a)) as [->|Hne].
    + rewrite lookup_delete_eq. by intros [].
    + rewrite lookup_delete_ne by done. auto.
  - cbn. rewrite map_sum_delete, Hla, Ht. unfold id. cbn. lia.
Qed.

Lemma wp_discharge ctx f E s0 promoted us t s :
  promoting f E s0 promoted us t s → (¬ fails → Z.of_nat (size (vals_of s0)) ≤ 2 ^ 100) →
  wp fails (for_acc (discharge_step ctx (last_of s0)) (us, t) (vs_abandoned (sg_vals s0))) s (λ x s',
    promoting f E s0 promoted x.1 x.2 s' ∧ ∀ a, a ∈ vs_abandoned (sg_vals s0) → last_of s' !! a = None).
Proof.
  intros Hp Hsz. eapply wp_mono.
  - apply (wp_for_acc fails (discharge_step ctx (last_of s0)) (λ l x s, promoting f E s0 promoted x.1 x.2 s ∧
      (∀ a, a ∈ l → a ∈ vs_abandoned (sg_vals s0)) ∧
      ∀ a, a ∈ vs_abandoned (sg_vals s0) → a ∉ l → last_of s !! a = None)).
    + intros a l [us1 t1] s1 (Hp1 & Hl & Hout). cbn in Hp1. pose proof (pm_core _ _ _ _ _ _ _ Hp1) as C.
      assert (a ∈ vs_abandoned (sg_vals s0)) as Ha by (apply Hl; by left).
      destruct (co_abandoned _ _ _ _ C a) as (v & Hv & Hs & Hj & _); [by rewrite (pm_misc _ _ _ _ _ _ _ Hp1)|].
      pose proof (core_key _ _ _ _ _ _ C Hv) as Ka.
      unfold discharge_step. eapply wp_bind_run. { unfold mustGetValidator. unfold mbind, M_bind. cbn. rewrite Hv. reflexivity. }
      assert (∀ b, b ∈ l → b ∈ vs_abandoned (sg_vals s0)) as Hl' by (intros b Hb; apply Hl; by right).
      destruct (Va_Status v) eqn:Hst; [done|..].
      * eapply wp_run; [reflexivity|]. split_and!; [done|done|]. intros b Hb Hbl.
        destruct (decide (b = a)) as [->|Hne].
        -- apply eq_None_not_Some. intros (x & Hx & Hsx)%(co_bonded _ _ _ _ C). congruence.
        -- apply Hout; [done|]. rewrite not_elem_of_cons. done.
      * assert (is_Some (last_of s1 !! a)) as [p Hla] by (apply (co_bonded _ _ _ _ C); eauto).
        assert (last_of s0 !! a = Some p) as Hl0.
        { rewrite <- (pm_old _ _ _ _ _ _ _ Hp1 a); [done| |eauto]. intros Hin%(pm_new _ _ _ _ _ _ _ Hp1).
          destruct Hin as (v0 & Hv0 & Hj0).
          destruct (bare_lookup _ _ _ _ (pm_bare _ _ _ _ _ _ _ Hp1) Hv) as (v1 & Hv1 & Ev).
          destruct (bare_eq _ _ Ev) as (_ & _ & Ej & _). congruence. }
        apply wp_bind. eapply wp_beginUnbonding; [done|apply C|done|]. intros k' Hk. wp_run. rewrite Hl0.
        pose proof (promoting_discharge ctx _ _ _ _ _ _ _ _ _ _ k' Hp1 Hla Hv Hst Hk) as Hp2.
        apply wp_bind, wp_lift; [|intros Hf|done].
        -- unfold Int_Sub. destruct (_ >? _); [done|]. intros x [= <-]. eapply wp_run; [reflexivity|].
           cbn [fst snd]. rewrite Ka. rewrite Ka in Hp2. split_and!; [exact Hp2|done|].
           intros b Hb Hbl. cbn. destruct (decide (b = a)) as [->|Hne]; [by rewrite lookup_delete_eq|].
           rewrite lookup_delete_ne by done. apply Hout; [done|]. by rewrite not_elem_of_cons.
        -- rewrite Int_Sub_ok; [done|]. pose proof (promoting_bound _ _ _ _ _ _ _ Hp2). specialize (Hsz Hf). lia.
    + split_and!; [done|done|]. intros a H1 H2. done.
  - intros [us' t'] s' (H1 & _ & H2). split; [done|]. intros a Ha. apply H2; [done|apply not_elem_of_nil].
Qed.

Lemma wp_KickOut ctx f E s :
  core f E [] s → default 0 (vs_lastTotalPower (sg_vals s)) = map_sum id (last_of s) →
  (¬ fails → Z.of_nat (size (vals_of s)) ≤ 2 ^ 100) →
  wp fails (KickOutAndReturnValidatorSetUpdates ctx) s (λ us s',
    core f E us s' ∧ vframe bonded notBonded s s' ∧
    default 0 (vs_lastTotalPower (sg_vals s')) = map_sum id (last_of s') ∧
    ∀ a, a ∈ vs_abandoned (sg_vals s) → last_of s' !! a = None).
Proof.
  intros C Ht Hsz. pose proof (co_index _ _ _ _ C) as Hi. unfold KickOutAndReturnValidatorSetUpdates. do 4 wp_run.
  eapply wp_bind_mono.
  { eapply (wp_promoteLoop ctx f E s _ _ []).
    - split; try done; by intros a ?%not_elem_of_nil.
    - by eapply powerIndexReverse_NoDup.
    - intros a _. apply not_elem_of_nil.
    - intros a. by apply (elem_of_powerIndexReverse f).
    - done. }
  intros [us t] s1 (promoted & Hp). cbn in Hp. eapply wp_bind_mono; [by apply wp_discharge|].
  intros [us' t'] s2 [Hp2 Hout]. cbn in Hp2. wp_run. eapply wp_run; [reflexivity|].
  split_and!; [|by destruct (pm_frame _ _ _ _ _ _ _ Hp2)|cbn; apply Hp2|done].
  destruct (pm_core _ _ _ _ _ _ _ Hp2). by split.
Qed.

End Elect.
