(* ===== verification/StakingEnd.v ===== *)
(** * Staking: the end of a block

    Validators whose unbonding time has passed, undelegations that are due,
    and the end of a block as a whole. *)
From S2P Require Import Prelude Decimal Denom Coins Bank CoinKeeper DecStr Token Staking StakingVals StakingVotes StakingProps StakingMsgs StakingFrame StakingSet StakingElect.
#[local] Open Scope Z_scope.

(** ** The queue *)

Lemma queue_ext V q q' :
  (∀ t, default [] (q !! t) = default [] (q' !! t)) → queue_inv V q → queue_inv V q'.
Proof. intros E [Hq Hn]. split; intros t; rewrite <- E; auto. Qed.

Lemma filter_ne_id a l : a ∉ l → List.filter (λ b, negb (String.eqb b a)) l = l.
Proof.
  induction l as [|b l IH]; intros Ha; cbn; [done|]. apply not_elem_of_cons in Ha as [Hne Ha].
  destruct (String.eqb_spec b a); [congruence|]. cbn. by rewrite IH.
Qed.

Lemma queue_pop V q t a rest v w :
  queue_inv V (<[t := a :: rest]> q) → V !! a = Some v → Va_Status w ≠ Unbonding →
  Va_Status v = Unbonding ∧ queue_inv (<[a := w]> V) (<[t := rest]> q).
Proof.
  intros Hq Hv Hw. pose proof (proj1 (qi_queue _ _ Hq t a)) as Ha. rewrite lookup_insert_eq in Ha.
  destruct Ha as (x & Hx & Hs & Ht); [by left|]. rewrite Hv in Hx. injection Hx as <-. split; [done|].
  eapply queue_ext; [|by eapply queue_leave]. intros t'. rewrite queue_del_at, Ht. case_bool_decide as E.
  - subst t'. rewrite !lookup_insert_eq. cbn. rewrite String.eqb_refl. cbn. apply filter_ne_id.
    pose proof (qi_nodup _ _ Hq t) as Hn. rewrite lookup_insert_eq in Hn. by apply NoDup_cons in Hn as [? _].
  - by rewrite !lookup_insert_ne by congruence.
Qed.
Lemma queue_gone V q a w : queue_inv (<[a := w]> V) q → Va_Status w ≠ Unbonding → queue_inv (delete a V) q.
Proof.
  intros [Hq Hn] Hw. split; [|done]. intros t b. rewrite Hq. split.
  - intros (x & [[<- <-]|[Hne Hx]]%lookup_insert_Some & Hs & Ht); [done|]. exists x. by rewrite lookup_delete_ne.
  - intros (x & [Hne Hx]%lookup_delete_Some & Hs & Ht). exists x. by rewrite lookup_insert_ne.
Qed.

Section End_.
Context {K : Type} `{CoinKeeper K} `{!DelegationKeeper K} `{!StakingHooks K} `{cfgS : StakingConfig} `{bansS : !Bans} `{engS : !Engine}.
Context (bonded notBonded : string).
Context (fails : Prop) `{!Decision fails}.
Hypothesis hooks_ok : ∀ ctx t vs h k, set_hook h = true → ck_wf k →
  wp fails (sh_call ctx t vs h) k (λ _ k', keeps bonded notBonded k k').
Implicit Types (s : StakingState K) (f : string → Z).

#[local] Abbreviation vals_of s := (vs_validators (sg_vals s)).
#[local] Abbreviation last_of s := (vs_lastPowers (sg_vals s)).

(** What else is known of the state while validators are removed, so that the
    hook for it leaves the pools alone, and returns unless code may fail. *)
Context (ctx : Ctx) (J : StakingState K → Prop).
Hypothesis J_queue : ∀ g s, J s → J (sg_set_vals (vs_set_queue g (sg_vals s)) s).
Hypothesis J_unbond : ∀ a s u s', J s → unbondMature ctx a s = (Ok u, s') → J s'.
Hypothesis removed_ok : ∀ t vs c a v s, J s → ck_wf (sg_k s) → vals_of s !! a = Some v →
  Va_DelegatorShares v = 0 → Va_MinSelfDelegation v = 0 →
  wp fails (sh_call ctx t vs (AfterValidatorRemoved c a)) (sg_k s) (λ _ k', keeps bonded notBonded (sg_k s) k').

Lemma index_status f V C I a v w :
  index_inv f V C I → V !! a = Some v → bare w = bare v →
  (Va_Status w = Unbonded → Va_MinSelfDelegation w = 0 → f a ≠ 0) →
  index_inv f (<[a := w]> V) C I.
Proof.
  intros Hi Hv Hb Hlive. destruct (bare_eq _ _ Hb) as (E1 & E2 & E3 & E4 & E5 & E6 & E7).
  pose proof (ii_key _ _ _ _ Hi _ _ Hv) as Ka. destruct (ii_val _ _ _ _ Hi _ _ Hv) as [V1 V2 V3 V4 V5 V6].
  rewrite <- (reindex_id f V C I a v w Hi Hv (rank_ext _ _ E4 E1) E3).
  eapply index_replace; try done; [congruence|apply (ii_nonneg _ _ _ _ Hi)|].
  split; rewrite ?E3, ?E4, ?E5, ?E6, ?E7; try done; [|by rewrite <- E5]. unfold msd_base. by rewrite E5.
Qed.

(** ** Validators that have unbonded *)

(** What holds while the slice [t] is worked off: the queue is as if the
    slice had only [rest]. *)
Definition maturing f E us s0 (t : Z) (rest : list string) s : Prop :=
  J s ∧
  core f E us (sg_set_vals (vs_set_queue <[t := rest]> (sg_vals s)) s) ∧ vframe bonded notBonded s0 s ∧
  vs_abandoned (sg_vals s) = [] ∧ vs_queue (sg_vals s) = vs_queue (sg_vals s0) ∧
  last_of s = last_of s0 ∧ vs_lastTotalPower (sg_vals s) = vs_lastTotalPower (sg_vals s0).

Lemma wp_unbondMature f E us s0 t a rest s :
  maturing f E us s0 t (a :: rest) s →
  wp fails (unbondMature ctx a) s (λ _ s', maturing f E us s0 t rest s').
Proof.
  intros (HJ & C & Hf & Hab & Hq0 & Hl0 & Ht0). pose proof C as [Hwf Hi Hq Ha Hb Hp He]. unfold index_inv_of in Hi. cbn in Hwf, Hi, Hq, Ha, Hb, Hp, He.
  assert (is_Some (vals_of s !! a)) as [v Hv].
  { destruct (proj1 (qi_queue _ _ Hq t a)) as (v & Hv & _); [rewrite lookup_insert_eq; by left|eauto]. }
  pose proof (ii_key _ _ _ _ Hi _ _ Hv) as Ka. pose proof (ii_val _ _ _ _ Hi _ _ Hv) as Vo.
  set (w := UpdateStatus v Unbonded). assert (bare w = bare v) as Eb by done.
  destruct (queue_pop _ _ _ _ _ _ w Hq Hv ltac:(done)) as [Hs Hq'].
  assert (last_of s !! a = None) as Hla.
  { apply eq_None_not_Some. intros (x & Hx & Hsx)%Hb. congruence. }
  eapply wp_mono; [eapply wp_also; [intros b s' Hr; exact (J_unbond _ _ _ _ HJ Hr)|]|intros b s' [HQ HJ']; exact (conj HJ' HQ)].
  unfold unbondMature. eapply wp_bind_run; [reflexivity|]. rewrite Hv.
  unfold unbondingToUnbonded, IsUnbonding. rewrite Hs. wp_run. wp_run.
  fold w. assert (Va_OperatorAddress w = a) as Kw by done. rewrite Kw.
  set (s1 := sg_set_vals (vs_set_validators <[a := w]> (sg_vals s)) s).
  assert (∀ V', (∀ b, b ≠ a → V' !! b = vals_of s !! b) → (∀ x, V' !! a = Some x → Va_Status x = Unbonded) →
    bonded_inv V' (last_of s)) as Hbd.
  { intros V' H1 H2 b. destruct (decide (b = a)) as [->|Hne]; [|rewrite H1 by done; apply Hb].
    rewrite Hla. split; [by intros []|]. intros (x & Hx%H2 & Hsx). congruence. }
  destruct (Dec_IsZero _ && _) eqn:Ez.
  - (* gone *)
    unfold RemoveValidator. eapply wp_bind_run; [reflexivity|].
    change (vals_of s1) with (<[a := w]> (vals_of s)). rewrite lookup_insert_eq.
    unfold IsUnbonded. cbn [Va_Status w UpdateStatus va_set_status]. wp_run.
    assert ((Va_Tokens w >? 0) = false) as -> by (change (Va_Tokens w) with (Va_Tokens v); by rewrite (vo_tokens _ _ Vo)).
    assert (Va_DelegatorShares v = 0 ∧ Va_MinSelfDelegation v = 0) as [Hz1 Hz2].
    { unfold Dec_IsZero in Ez. cbn in Ez. bool_prop. lia. }
    wp_run. do 3 wp_run. eapply wp_hook; [rewrite Kw; exact (removed_ok _ _ _ a v s HJ Hwf Hv Hz1 Hz2)|]. intros k' Hk.
    assert (f a = 0) as Hfa.
    { pose proof (vo_shares _ _ Vo) as Hsh. unfold msd_base in Hsh. rewrite Hz2 in Hsh. cbn in Hsh. lia. }
    assert (delete a (<[a := w]> (vals_of s)) = delete a (vals_of s)) as Ed by apply delete_insert_eq.
    split_and!; [|..]; try done.
    + split; cbn [sg_vals sg_set_vals sg_set_k]; [by apply (ke_wf _ _ _ _ Hk)|..].
      * unfold index_inv_of. cbn. rewrite Ed. exact (index_remove f f _ _ _ a v Hi Hv (λ b _, eq_refl) Hfa).
      * cbn. rewrite Ed. by eapply queue_gone.
      * cbn. rewrite Hab. by intros b ?%not_elem_of_nil.
      * cbn. rewrite Ed. apply Hbd; [intros b Hne; by rewrite lookup_delete_ne|]. by rewrite lookup_delete_eq.
      * done.
      * cbn. rewrite Ed. by apply engine_gone.
    + etransitivity; [exact Hf|]. split; try done. cbn. rewrite Ed, map_sum_delete, Hv. cbn. lia.
  - eapply wp_run; [reflexivity|]. split_and!; [|..]; try done.
    + split; cbn [sg_vals sg_set_vals sg_set_k s1]; [done|..].
      * unfold index_inv_of. cbn. eapply index_status; try done. intros _ Hm Hfa.
        pose proof (vo_shares _ _ Vo) as Hsh. unfold msd_base in Hsh. change (Va_MinSelfDelegation w) with (Va_MinSelfDelegation v) in Hm.
        rewrite Hm in Hsh. cbn in Hsh. unfold Dec_IsZero in Ez. cbn in Ez. rewrite Hm, Hsh, Hfa in Ez. done.
      * done.
      * cbn. rewrite Hab. by intros b ?%not_elem_of_nil.
      * cbn. apply Hbd; [intros b Hne; by rewrite lookup_insert_ne|]. rewrite lookup_insert_eq. by intros x [= <-].
      * done.
      * cbn. by eapply engine_same.
    + etransitivity; [exact Hf|]. split; try done. cbn. rewrite map_sum_insert, Hv. cbn. lia.
Qed.

(** The queue up to now is worked off. *)
Definition matured f E us (now : Z) s0 (slices : list (Z * list string)) s : Prop :=
  J s ∧
  core f E us s ∧ vframe bonded notBonded s0 s ∧ vs_abandoned (sg_vals s) = [] ∧
  last_of s = last_of s0 ∧ vs_lastTotalPower (sg_vals s) = vs_lastTotalPower (sg_vals s0) ∧
  NoDup (slices.*1) ∧ (∀ t l, (t, l) ∈ slices → vs_queue (sg_vals s) !! t = Some l) ∧
  (∀ t l, vs_queue (sg_vals s) !! t = Some l → t ≤ now → (t, l) ∈ slices).

Lemma wp_UnbondAllMature f E us s :
  J s → core f E us s → vs_abandoned (sg_vals s) = [] →
  wp fails (UnbondAllMatureValidatorQueue ctx) s (λ _ s', matured f E us (BlockTime ctx) s [] s').
Proof.
  intros HJ C Hab. unfold UnbondAllMatureValidatorQueue. wp_run.
  assert (∀ t l, (t, l) ∈ ValidatorQueueIterator (BlockTime ctx) s ↔
    t ≤ BlockTime ctx ∧ vs_queue (sg_vals s) !! t = Some l) as Hin.
  { intros t l. unfold ValidatorQueueIterator. rewrite list_elem_of_filter. cbn.
    by rewrite merge_sort_Permutation, elem_of_map_to_list. }
  apply (wp_for_each fails _ (λ l s1, matured f E us (BlockTime ctx) s l s1)).
  - intros [t l] slices s1 (HJ1 & C1 & Hf & Hab1 & Hl & Ht & Hd & Hsl & Hall). cbn in Hd. apply NoDup_cons in Hd as [Htn Hd].
    assert (vs_queue (sg_vals s1) !! t = Some l) as Hq by (apply Hsl; by left). cbn [fst snd].
    eapply wp_bind_mono.
    { apply (wp_for_each fails _ (λ rest s2, maturing f E us s1 t rest s2)).
      - intros a rest s2. apply wp_unbondMature.
      - split_and!; [done| |done..]. destruct C1 as [H0 H1 H2 H3 H4 H5 H6]. split; cbn; try done.
        by rewrite insert_id. }
    intros _ s2 (HJ2 & C2 & Hf2 & Hab2 & Hq2 & Hl2 & Ht2). eapply wp_run; [reflexivity|]. cbn [sg_vals].
    split_and!; cbn [sg_vals]; [by apply J_queue|..]; cbn; try done; try congruence.
    + destruct C2 as [H0 H1 H2 H3 H4 H5 H6]. cbn in *. split; cbn; try done.
      eapply queue_ext; [|exact H2]. intros t'. destruct (decide (t' = t)) as [->|Hne].
      * by rewrite lookup_insert_eq, lookup_delete_eq.
      * by rewrite lookup_insert_ne, lookup_delete_ne.
    + etransitivity; [exact Hf|]. etransitivity; [exact Hf2|]. by split.
    + intros t' l' Hx. rewrite lookup_delete_ne, Hq2; [apply Hsl; by right|]. intros ->.
      apply Htn. apply list_elem_of_fmap. by exists (t', l').
    + intros t' l' [Hne Hx]%lookup_delete_Some Hle. rewrite Hq2 in Hx. apply Hall in Hx; [|done].
      apply elem_of_cons in Hx as [[= -> ->]|Hx]; [done|done].
  - split_and!; try done.
    + unfold ValidatorQueueIterator. eapply sublist_NoDup; [|apply fmap_sublist, sublist_filter].
      rewrite merge_sort_Permutation. apply NoDup_fst_map_to_list.
    + intros t l Hx. by apply Hin in Hx as [_ ?].
    + intros t l Hx Hle. by apply Hin.
Qed.

(** ** Undelegations that are due *)

Context `{!CoinKeeperLaws K} `{!DelegationKeeperLaws K} `{!StakingLaws K bonded notBonded} (Hw : weights_ok).
(** Payments from the pool do not panic, unless code may fail. *)
Hypothesis pays_ok : ¬ fails → ∀ a q k,
  ck_wf k → outsider bonded notBonded a → 0 < q ≤ ck_balance k notBonded DefaultBondDenom →
  is_panic (ck_UndelegateCoinsFromModuleToAccount NotBondedPoolName a [mkDecCoin DefaultBondDenom q] k).1 = false.

#[local] Abbreviation SI := (staking_inv bonded notBonded).
#[local] Abbreviation undel_of s := (st_undelegations (sg_stakes s)).
#[local] Abbreviation due_of s := (st_undelegateQueue (sg_stakes s)).

(** The bank, in a state that the one before the payments may lead to,
    refuses to pay the account, although the pool has the coins. *)
Context (RK : relation K) `{!PreOrder RK}.
#[local] Abbreviation pay a q := (ck_UndelegateCoinsFromModuleToAccount NotBondedPoolName a [mkDecCoin DefaultBondDenom q]).
Hypothesis RK_pay : ∀ a q k r k',
  ck_wf k → outsider bonded notBonded a → 0 < q → pay a q k = (r, k') → is_panic r = false → RK k k'.
Definition refused (k0 : K) (a : string) : Prop :=
  ∃ k q e k', RK k0 k ∧ ck_wf k ∧ 0 < q ≤ ck_balance k notBonded DefaultBondDenom ∧
    pay a q k = (Err e, k').
(** The account was paid from the pool on the way. *)
Definition credited (k0 k : K) (a : string) (q : Z) : Prop :=
  ∃ k1 k2, RK k0 k1 ∧ kmove k1 k2 notBonded a [mkDecCoin DefaultBondDenom q] ∧ RK k2 k.

(** What [inv_vals] is for validators, for undelegations. *)
Lemma inv_undel lost s s' :
  SI lost s → ck_wf (sg_k s') →
  ck_balance (sg_k s') bonded DefaultBondDenom = ck_balance (sg_k s) bonded DefaultBondDenom →
  ck_balance (sg_k s') notBonded DefaultBondDenom = map_sum Ud_Quantity (undel_of s') + lost →
  (∀ a u, undel_of s' !! a = Some u → undel_of s !! a = Some u) →
  sg_vals s' = sg_vals s → sg_params s' = sg_params s →
  st_delegators (sg_stakes s') = st_delegators (sg_stakes s) →
  st_shares (sg_stakes s') = st_shares (sg_stakes s) →
  st_proxies (sg_stakes s') = st_proxies (sg_stakes s) → SI lost s'.
Proof.
  intros [[M1 M2 M3] [U1 U2] P V Pa L] W Eb En HU Ev Ep ED ES EB. split; try done.
  - rewrite Ev, ED. split; [done|by rewrite Eb|done].
  - split; intros a u Hu; eauto.
  - by rewrite ED, EB.
  - unfold votes_inv_of. by rewrite ED, ES, Ev.
  - by rewrite Ep.
Qed.

(** [all] are the keys that are due, [keys] those that are left. *)
Record paying lost s0 (all keys : list (Z * string)) s : Prop := {
  py_inv : SI lost s;
  py_k : RK (sg_k s0) (sg_k s);
  py_vals : sg_vals s = sg_vals s0;
  py_params : sg_params s = sg_params s0;
  py_keys x : x ∈ keys → x ∈ all;
  py_undel a u : undel_of s !! a = Some u → undel_of s0 !! a = Some u;
  py_paid x : x ∈ all → x ∉ keys → undel_of s !! x.2 = None ∨ refused (sg_k s0) x.2;
  py_credit a u : undel_of s0 !! a = Some u → undel_of s !! a = None → credited (sg_k s0) (sg_k s) a (Ud_Quantity u);
  py_due x : x ∈ due_of s ↔ x ∈ due_of s0 ∧ (x ∈ all → x ∈ keys);
  py_rest a : (∀ t, (t, a) ∉ all) → undel_of s !! a = undel_of s0 !! a }.

Lemma paying_step lost s0 all t a keys s s2 :
  paying lost s0 all ((t, a) :: keys) s →
  SI lost s2 → RK (sg_k s) (sg_k s2) → sg_vals s2 = sg_vals s → sg_params s2 = sg_params s → (t, a) ∉ keys →
  due_of s2 = due_of s ∖ {[ (t, a) ]} →
  (undel_of s2 = undel_of s ∧ (undel_of s !! a = None ∨ refused (sg_k s0) a) ∨
   undel_of s2 = delete a (undel_of s) ∧
     ∃ u, undel_of s !! a = Some u ∧ kmove (sg_k s) (sg_k s2) notBonded a [mkDecCoin DefaultBondDenom (Ud_Quantity u)]) →
  paying lost s0 all keys s2.
Proof.
  intros [I Ek Ev Ep Hk HU Hp Hc Hd Hr] I2 Ek2 Ev2 Ep2 Hn Ed HU2.
  assert (undel_of s2 !! a = None ∨ refused (sg_k s0) a) as Ha.
  { destruct HU2 as [[-> ?]|[-> _]]; [done|]. left. apply lookup_delete_eq. }
  assert (∀ b, b ≠ a → undel_of s2 !! b = undel_of s !! b) as Hb.
  { intros b Hne. destruct HU2 as [[-> _]|[-> _]]; [done|]. by apply lookup_delete_ne. }
  split; [done|by etransitivity|congruence|congruence|intros x Hx; apply Hk; by right|..].
  - intros b u Hu. apply HU. destruct HU2 as [[<- _]|[E2 _]]; [done|]. rewrite E2 in Hu.
    by apply lookup_delete_Some in Hu as [_ ?].
  - intros [t' b] Hx Hnx. cbn. destruct (decide (b = a)) as [->|Hne]; [done|]. rewrite Hb by done.
    apply (Hp (t', b)); [done|]. rewrite not_elem_of_cons. split; [congruence|done].
  - intros b u Hb0 Hb2. destruct (undel_of s !! b) as [w|] eqn:Hx.
    + assert (u = w) as <- by (apply HU in Hx; congruence).
      destruct (decide (b = a)) as [->|Hne]; [|rewrite Hb in Hb2 by done; congruence].
      destruct HU2 as [[E2 _]|[_ (w & Hx' & M)]]; [congruence|]. rewrite Hx in Hx'. injection Hx' as <-.
      exists (sg_k s), (sg_k s2). done.
    + destruct (Hc b u Hb0 Hx) as (k1 & k2 & R1 & M & R2). exists k1, k2. split; [done|]. split; [done|]. by etransitivity.
  - intros x. rewrite Ed, elem_of_difference, elem_of_singleton, Hd. split.
    + intros [[H1 H2] H3]. split; [done|]. intros Hx%H2. apply elem_of_cons in Hx as [->|Hx]; done.
    + intros [H1 H2]. split; [split; [done|]|].
      * intros Hx. right. auto.
      * intros ->. apply Hn, H2, Hk. by left.
  - intros b Hx. rewrite Hb; [by apply Hr|]. intros ->. apply (Hx t), Hk. by left.
Qed.

Lemma wp_completeMature lost s0 all x keys s :
  paying lost s0 all (x :: keys) s → x ∉ keys →
  wp fails (completeMature x) s (λ _ s', paying lost s0 all keys s').
Proof.
  destruct x as [t a]. intros Hp Hn. pose proof (py_inv _ _ _ _ _ Hp) as I.
  pose proof I as [[M1 M2 M3] [U1 U2] _ _ _ L]. unfold completeMature. wp_run. cbn [fst snd].
  set (s1 := sg_set_stakes _ s).
  assert (SI lost s1) as I1 by (eapply (inv_undel lost s); done).
  pose proof (paying_step _ _ _ _ _ _ _ s1 Hp I1 ltac:(done) eq_refl eq_refl Hn eq_refl) as Hstep.
  unfold wp, logErr, CompleteUndelegation, GetUndelegating, gets. unfold mbind at 1, M_bind at 1.
  change (undel_of s1) with (undel_of s) in *.
  destruct (undel_of s !! a) as [u|] eqn:Hu; [|apply Hstep; left; split; [done|by left]].
  destruct (U1 _ _ Hu) as [Ku Hout]. pose proof (U2 _ _ Hu) as Hq. rewrite Ku.
  assert (NewDecCoinFromDec DefaultBondDenom (Ud_Quantity u) = Ok (mkDecCoin DefaultBondDenom (Ud_Quantity u))) as ->.
  { apply NewDecCoinFromDec_Ok. split; [done|]. split; [lia|done]. }
  unfold lift. unfold mbind at 1, M_bind at 1. unfold mbind at 1, M_bind at 1. unfold on_keeper, zoom.
  change (sg_k s1) with (sg_k s).
  assert (Ud_Quantity u ≤ map_sum Ud_Quantity (undel_of s)) as Hle.
  { apply (map_sum_ge _ _ a u); [|done]. intros b w Hb. pose proof (U2 _ _ Hb). lia. }
  pose proof (λ Hf, pays_ok Hf a (Ud_Quantity u) (sg_k s) M1 Hout ltac:(lia)) as Hpanic.
  pose proof (λ r k', RK_pay a (Ud_Quantity u) (sg_k s) r k' M1 Hout Hq) as HR.
  destruct (ck_UndelegateCoinsFromModuleToAccount _ _ _ (sg_k s)) as [[[]|e|p] k'] eqn:Ek; specialize (HR _ _ eq_refl).
  - (* paid *)
    apply law_Undelegate in Ek as (addr & Haddr & Mv); [|done|rewrite sl_notBonded; destruct Hout; naive_solver].
    rewrite sl_notBonded in Haddr. injection Haddr as <-. cbn.
    destruct Hout as (O1 & O2 & O3). pose proof sl_ne as Hne.
    assert (∀ b, amount_of [mkDecCoin DefaultBondDenom (Ud_Quantity u)] b
      = if String.eqb DefaultBondDenom b then Ud_Quantity u else 0) as Eam.
    { intros b. rewrite amount_of_cons, amount_of_nil. cbn [Denom Amount].
      destruct (String.eqb DefaultBondDenom b); lia. }
    unfold mbind, M_bind. cbn. match goal with |- paying _ _ _ _ ?x => set (s2 := x) end.
    assert (SI lost s2) as I2.
    { eapply (inv_undel lost s); try done; cbn.
      - by apply (km_wf _ _ _ _ _ Mv).
      - rewrite (km_balance _ _ _ _ _ Mv). unfold at_addr. repeat (case_decide; try congruence). lia.
      - rewrite (km_balance _ _ _ _ _ Mv), M3, map_sum_delete, Hu. unfold at_addr.
        rewrite Eam, String.eqb_refl. cbn. repeat (case_decide; try congruence). lia.
      - intros b w [_ Hb]%lookup_delete_Some. done. }
    eapply (paying_step _ _ _ _ _ _ _ s2 Hp I2); try done; [by apply HR|]. right. split; [done|]. by exists u.
  - (* refused *)
    destruct (law_Undelegate_refused _ _ _ _ _ _ Ek) as [W B]. cbn.
    match goal with |- paying _ _ _ _ ?x => set (s2 := x) end.
    assert (SI lost s2) as I2.
    { eapply (inv_undel lost s); try done; cbn; rewrite ?B; auto. }
    eapply (paying_step _ _ _ _ _ _ _ s2 Hp I2); try done; [by apply HR|]. left. split; [done|]. right.
    do 4 eexists. split_and!; [apply Hp|done| | |exact Ek]; lia.
  - destruct (decide fails) as [|Hf]; [done|]. by apply Hpanic in Hf.
Qed.

Lemma wp_complete_all lost s all :
  SI lost s → NoDup all → wp fails (for_each completeMature all) s (λ _ s', paying lost s all [] s').
Proof.
  intros I Hd. eapply wp_mono.
  - apply (wp_for_each fails completeMature (λ keys s', paying lost s all keys s' ∧ NoDup keys)).
    + intros x keys s1 [Hp Hn]. apply NoDup_cons in Hn as [Hx Hn]. eapply wp_mono; [by apply wp_completeMature|]. done.
    + split; [|done]. split; try done; [|naive_solver]. intros a u Hx Hn. congruence.
  - by intros [] s' [? _].
Qed.

End End_.

(** ** The end of a block *)

Section EndBlock.
Context {K : Type} `{CoinKeeper K} `{!DelegationKeeper K} `{!StakingHooks K} `{cfgS : StakingConfig} `{bansS : !Bans} `{engS : !Engine}.
Context (bonded notBonded : string).
Context (fails : Prop) `{!Decision fails}.
Hypothesis hooks_ok : ∀ ctx t vs h k, set_hook h = true → ck_wf k →
  wp fails (sh_call ctx t vs h) k (λ _ k', keeps bonded notBonded k k').
Context `{!CoinKeeperLaws K} `{!DelegationKeeperLaws K} `{!StakingLaws K bonded notBonded}.
Hypothesis pays_ok : ¬ fails → ∀ a q k,
  ck_wf k → outsider bonded notBonded a → 0 < q ≤ ck_balance k notBonded DefaultBondDenom →
  is_panic (ck_UndelegateCoinsFromModuleToAccount NotBondedPoolName a [mkDecCoin DefaultBondDenom q] k).1 = false.
Context (RK : relation K) `{!PreOrder RK}.
Hypothesis RK_pay : ∀ a q k r k',
  ck_wf k → outsider bonded notBonded a → 0 < q →
  ck_UndelegateCoinsFromModuleToAccount NotBondedPoolName a [mkDecCoin DefaultBondDenom q] k = (r, k') →
  is_panic r = false → RK k k'.
Implicit Types (s : StakingState K) (f : string → Z).

#[local] Abbreviation vals_of s := (vs_validators (sg_vals s)).
#[local] Abbreviation last_of s := (vs_lastPowers (sg_vals s)).
#[local] Abbreviation undel_of s := (st_undelegations (sg_stakes s)).
#[local] Abbreviation due_of s := (st_undelegateQueue (sg_stakes s)).
(** The invariant, with the set of the engine after updates. *)
#[local] Abbreviation SIafter us := (staking_inv (engS := engine_apply engine_set us) bonded notBonded).
#[local] Abbreviation SI := (staking_inv bonded notBonded).

(** The block ends an epoch. *)
Definition ends_epoch ctx s : bool := Z.rem (BlockHeight ctx - GetTheEndOfLastEpoch s) (GetEpoch s) =? 0.

#[local] Abbreviation gains s := (λ v, map_sum (shares_to v) (st_delegators (sg_stakes s))).

Lemma core_start lost s : SI lost s → core (gains s) engine_set [] s.
Proof.
  intros I. destruct (vt_vals _ _ _ (sv_votes _ _ _ _ I)) as [Hi Hs].
  apply set_inv_split in Hs as (H1 & H2 & H3 & H4 & H5 & H6 & H7). split; try done. apply I.
Qed.

(** The writes to the epoch and to the list of the kicked out. *)
Lemma core_epoch f E us s e h :
  core f E us s → core f E us (sg_set_vals (vs_set_epoch e h (sg_vals s)) s).
Proof. by intros []. Qed.
Lemma core_clear f E us s :
  core f E us s → core f E us (sg_set_vals (vs_set_abandoned [] (sg_vals s)) s).
Proof. intros []. split; try done. by intros a ?%not_elem_of_nil. Qed.

(** What the validator set is after it was brought up to date. *)
Record updated ctx s us s' : Prop := {
  ub_core : core (gains s) engine_set us s';
  ub_k : keeps bonded notBonded (sg_k s) (sg_k s');
  ub_stakes : sg_stakes s' = sg_stakes s;
  ub_params : sg_params s' = sg_params s;
  ub_msd : map_sum Va_MinSelfDelegation (vals_of s') = map_sum Va_MinSelfDelegation (vals_of s);
  ub_total : default 0 (vs_lastTotalPower (sg_vals s')) = map_sum id (last_of s');
  ub_abandoned : vs_abandoned (sg_vals s') = [];
  ub_epoch : 0 < GetEpoch s';
  ub_elected : ends_epoch ctx s = true → elected_set s s';
  ub_kicked a : ends_epoch ctx s = false → a ∈ vs_abandoned (sg_vals s) → last_of s' !! a = None }.

(** The branches of [staking_EndBlocker]. *)
Definition updateSet (ctx : Ctx) (endOfEpoch kicked : bool) : M (StakingState K) (list ValidatorUpdate) :=
  if endOfEpoch then
    oldEpoch ← gets GetEpoch;
    newEpoch ← gets (λ s, Sp_Epoch (sg_params s));
    _ ← (if negb (oldEpoch =? newEpoch) then SetEpoch newEpoch else mret ());
    _ ← SetTheEndOfLastEpoch ctx;
    updates ← ApplyAndReturnValidatorSetUpdates ctx;
    _ ← DeleteAbandonedValidatorAddrs;
    mret updates
  else if kicked then
    updates ← KickOutAndReturnValidatorSetUpdates ctx;
    _ ← DeleteAbandonedValidatorAddrs;
    mret updates
  else mret [].

Lemma wp_updateSet ctx lost s :
  SI lost s →
  (¬ fails → Z.of_nat (size (vals_of s)) ≤ 2 ^ 100) →
  wp fails (updateSet ctx (ends_epoch ctx s) (IsKickedOut s)) s (λ us s', updated ctx s us s').
Proof.
  intros I Hsz. pose proof (core_start _ _ I) as C.
  destruct (vt_vals _ _ _ (sv_votes _ _ _ _ I)) as [_ Hs]. apply set_inv_split in Hs as (_ & _ & Ht & _ & _ & _ & Hep).
  pose proof (sv_params _ _ _ _ I) as Pa. unfold updateSet. destruct (ends_epoch ctx s) eqn:Hend.
  - do 2 wp_run. eapply (wp_bind_mono _ _ _ _ (λ _ s1, ∃ e, s1 = sg_set_vals (vs_set_epoch e (vs_endOfLastEpoch (sg_vals s)) (sg_vals s)) s ∧
      0 < default DefaultEpoch e)).
    { destruct (negb _) eqn:En; (eapply wp_run; [reflexivity|]).
      - exists (Some (Sp_Epoch (sg_params s))). split; [done|]. cbn. apply Pa.
      - exists (vs_epoch (sg_vals s)). split; [by destruct s as [? ? [] ?]|]. exact Hep. }
    intros _ s1 (e & -> & Hpos). wp_run.
    eapply wp_bind_mono.
    { eapply (wp_Apply bonded notBonded fails hooks_ok ctx (gains s) engine_set); cbn; try done; [|apply Pa].
      by destruct C. }
    intros us s2 (C2 & [F1 F2 F3 F4 F5] & Ht2 & [E1 E2 E3]). wp_run. eapply wp_run; [reflexivity|].
    split; try done; rewrite ?Hend; try done; [by apply core_clear|unfold GetEpoch; cbn; by rewrite F5].
  - destruct (IsKickedOut s) eqn:Ek.
    + eapply wp_bind_mono; [by eapply (wp_KickOut bonded notBonded fails hooks_ok ctx (gains s) engine_set)|].
      intros us s2 (C2 & [F1 F2 F3 F4 F5] & Ht2 & Hout). wp_run. eapply wp_run; [reflexivity|].
      split; try done; rewrite ?Hend; try done; [by apply core_clear|unfold GetEpoch; cbn; by rewrite F5|by auto].
    + eapply wp_run; [reflexivity|]. assert (vs_abandoned (sg_vals s) = []) as Hab.
      { unfold IsKickedOut in Ek. apply negb_false_iff, Nat.eqb_eq in Ek. by apply length_zero_iff_nil. }
      split; try done; rewrite ?Hend; try done. intros a _. rewrite Hab. by intros ?%not_elem_of_nil.
Qed.

(** What a block leaves: the invariant, the engine on the recorded set,
    nothing in the queues that is due. *)
Record ended ctx lost s us s' : Prop := {
  en_inv : SIafter us lost s';
  en_abandoned : vs_abandoned (sg_vals s') = [];
  en_elected : ends_epoch ctx s = true → elected_set s s';
  en_kicked a : ends_epoch ctx s = false → a ∈ vs_abandoned (sg_vals s) → last_of s' !! a = None;
  en_unbonded a v : vals_of s' !! a = Some v → Va_Status v = Unbonding →
    BlockTime ctx < Va_UnbondingCompletionTime v;
  en_paid t a : (t, a) ∈ due_of s → t ≤ BlockTime ctx → undel_of s' !! a = None ∨ refused notBonded RK (sg_k s) a;
  en_credit a u : undel_of s !! a = Some u → undel_of s' !! a = None →
    credited notBonded RK (sg_k s) (sg_k s') a (Ud_Quantity u);
  en_due t a : (t, a) ∈ due_of s' ↔ (t, a) ∈ due_of s ∧ BlockTime ctx < t;
  en_waits a : (∀ t, (t, a) ∈ due_of s → BlockTime ctx < t) → undel_of s' !! a = undel_of s !! a }.

Lemma elem_of_due now s t a :
  (t, a) ∈ getAddrByTimeKeyIterator now s ↔ t ≤ now ∧ (t, a) ∈ due_of s.
Proof.
  unfold getAddrByTimeKeyIterator. rewrite list_elem_of_filter. cbn.
  by rewrite merge_sort_Permutation, elem_of_elements.
Qed.
Lemma due_NoDup now s : NoDup (getAddrByTimeKeyIterator now s).
Proof.
  unfold getAddrByTimeKeyIterator. eapply sublist_NoDup; [|apply sublist_filter].
  rewrite merge_sort_Permutation. apply NoDup_elements.
Qed.

Lemma EndBlocker_eq ctx lost s :
  SI lost s →
  staking_EndBlocker ctx s = (updates ← updateSet ctx (ends_epoch ctx s) (IsKickedOut s);
    _ ← UnbondAllMatureValidatorQueue ctx;
    keys ← gets (getAddrByTimeKeyIterator (BlockTime ctx));
    _ ← for_each completeMature keys;
    mret updates) s.
Proof.
  intros I. destruct (vt_vals _ _ _ (sv_votes _ _ _ _ I)) as [_ Hs].
  pose proof (ei_epoch _ _ _ _ _ _ Hs) as Hep. unfold staking_EndBlocker. rewrite (M_bind_run _ _ (ends_epoch ctx s) s s).
  - done.
  - unfold IsEndOfEpoch, ends_epoch. change (0 < GetEpoch s) in Hep. unfold mbind, M_bind. cbn.
    destruct (Z.eqb_spec (GetEpoch s) 0); [lia|]. done.
Qed.

Lemma updated_inv ctx J lost s us s1 s2 :
  SI lost s → updated ctx s us s1 →
  matured bonded notBonded J (gains s) engine_set us (BlockTime ctx) s1 [] s2 → SIafter us lost s2.
Proof.
  intros I [C K1 S1 P1 M1 T1 _ Hep _ _] (_ & C2 & [K2 S2 P2 M2 E2] & Hab & Hl & Ht & _).
  assert (keeps bonded notBonded (sg_k s) (sg_k s2)) as [W B N] by (by transitivity (sg_k s1)).
  destruct I as [[I1 I2 I3] U P [V1 V2 V3 V4 V5 V6] Pa L]. rewrite S1 in S2. rewrite P1 in P2. split; rewrite ?S2, ?P2; try done.
  - split; [auto|rewrite B, I2; congruence|by rewrite N, I3].
  - unfold votes_inv_of. rewrite S2. split; try done.
    split; [by destruct C2|]. apply set_inv_split. destruct C2 as [H0 H1 H2 H3 H4 H5 H6].
    split_and!; try done; [by rewrite Hl, Ht|]. rewrite E2. exact Hep.
Qed.

Lemma wp_EndBlocker ctx (J : StakingState K → Prop) lost s :
  SI lost s →
  (∀ g s, J s → J (sg_set_vals (vs_set_queue g (sg_vals s)) s)) →
  (∀ a s u s', J s → unbondMature ctx a s = (Ok u, s') → J s') →
  (∀ t vs c a v s, J s → ck_wf (sg_k s) → vals_of s !! a = Some v →
    Va_DelegatorShares v = 0 → Va_MinSelfDelegation v = 0 →
    wp fails (sh_call ctx t vs (AfterValidatorRemoved c a)) (sg_k s) (λ _ k', keeps bonded notBonded (sg_k s) k')) →
  (∀ b c us s1, updateSet ctx b c s = (Ok us, s1) → J s1) → (∀ s1, J s1 → RK (sg_k s) (sg_k s1)) →
  (¬ fails → Z.of_nat (size (vals_of s)) ≤ 2 ^ 100) →
  wp fails (staking_EndBlocker ctx) s (λ us s', ended ctx lost s us s').
Proof.
  intros I J_queue J_unbond removed_ok HJ0 HJk Hsz. unfold wp. rewrite (EndBlocker_eq _ _ _ I).
  change (wp fails (updates ← updateSet ctx (ends_epoch ctx s) (IsKickedOut s);
    _ ← UnbondAllMatureValidatorQueue ctx;
    keys ← gets (getAddrByTimeKeyIterator (BlockTime ctx));
    _ ← for_each completeMature keys;
    mret updates) s (λ us s', ended ctx lost s us s')).
  eapply wp_bind_mono; [eapply wp_also; [intros us s1; apply HJ0|by eapply wp_updateSet]|]. intros us s1 [Hu HJ1].
  eapply wp_bind_mono.
  { eapply (wp_UnbondAllMature bonded notBonded fails ctx J J_queue J_unbond removed_ok (gains s) engine_set us s1); [done|apply Hu..]. }
  intros u1 s2 Hm. pose proof (HJk _ (proj1 Hm)) as K12.
  pose proof (updated_inv _ _ _ _ _ _ _ I Hu Hm) as I2. wp_run.
  eapply wp_bind_mono; [apply (wp_complete_all (engS := engine_apply engine_set us) bonded notBonded fails pays_ok RK RK_pay lost); [exact I2|apply due_NoDup]|]. intros u2 s3 Hp. cbn beta in Hp.
  eapply wp_run; [reflexivity|]. destruct Hm as (_ & C2 & [K2 S2 P2 M2 E2] & Hab & Hl & Ht & _ & _ & Hq).
  destruct Hp as [I3 _ V3 P3 _ U3 Paid Credit Due Rest].
  assert (undel_of s2 = undel_of s ∧ due_of s2 = due_of s) as [Eu Ed].
  { rewrite S2, (ub_stakes _ _ _ _ Hu). done. }
  assert (last_of s3 = last_of s1) as El by (by rewrite V3, Hl).
  split; try done.
  - by rewrite V3.
  - intros Hend. destruct (ub_elected _ _ _ _ Hu Hend). split; rewrite El; done.
  - intros a Hend Ha. rewrite El. by apply (ub_kicked _ _ _ _ Hu).
  - intros a v Hv Hs. rewrite V3 in Hv. destruct (decide (BlockTime ctx < Va_UnbondingCompletionTime v)) as [|Hle]; [done|].
    exfalso. assert (a ∈ default [] (vs_queue (sg_vals s2) !! Va_UnbondingCompletionTime v)) as Hin
      by (apply (qi_queue _ _ (co_queue _ _ _ _ C2)); eauto).
    destruct (vs_queue (sg_vals s2) !! _) as [l|] eqn:Hx; [|by apply not_elem_of_nil in Hin].
    apply Hq in Hx; [by apply not_elem_of_nil in Hx|lia].
  - intros t a Hd Hle. destruct (Paid (t, a)) as [?|(k & q & e & k' & Hk & Hrest)]; [|apply not_elem_of_nil|by left|].
    + apply elem_of_due. by rewrite Ed.
    + right. exists k, q, e, k'. split; [|done]. by etransitivity.
  - intros a u Hu0 Hn. rewrite <- Eu in Hu0. destruct (Credit a u Hu0 Hn) as (k1 & k2 & R1 & M & R2).
    exists k1, k2. split; [by etransitivity|done].
  - intros t a. rewrite Due, Ed, elem_of_due, Ed. split.
    + intros [H1 H2]. split; [done|]. destruct (decide (BlockTime ctx < t)) as [|Hle]; [done|].
      exfalso. apply (not_elem_of_nil (A := Z * string) (t, a)), H2. split; [lia|done].
    + intros [H1 H2]. split; [done|]. intros [H3 _]. lia.
  - intros a Hw'. rewrite Rest, Eu; [done|]. intros t [Hle Hin]%elem_of_due. rewrite Ed in Hin. apply Hw' in Hin. lia.
Qed.

End EndBlock.

(** A hook that returns leaves the pools alone: what the loops need when
    code may fail. *)
Lemma hooks_partial {K} `{CoinKeeper K} `{!StakingHooks K} bonded notBonded `{!StakingLaws K bonded notBonded} ctx t vs h k :
  wp True (sh_call ctx t vs h) k (λ _ k', keeps bonded notBonded k k').
Proof.
  unfold wp. destruct (sh_call ctx t vs h k) as [[u|e|p] k'] eqn:E; [|done..]. by eapply sl_hooks.
Qed.
