(* ===== verification/Slashing.v ===== *)
(** * Penalties ([x/slashing] and [x/evidence])

    The slashing module counts the blocks a validator did not sign and jails
    it when it missed too many; the evidence module jails one for good that
    signed twice.  Both call the staking keeper, and the slashing module
    implements its hooks: the store of the module lies with that of the coin
    keeper and the other hooks ([sd_base]) behind the staking module. *)
From S2P Require Import Prelude Decimal Denom Coins Bank CoinKeeper DecStr Token Staking StakingVals StakingVotes.
#[local] Open Scope Z_scope.

(** ** Data *)

Inductive ValStatus := Created | Destroying | Destroyed.
#[global] Instance ValStatus_eq_dec : EqDecision ValStatus.
Proof. solve_decision. Defined.

(** Heights and counters grow by at most one per block, far below their
    64 bits. *)
Record SigningInfo := mkSigningInfo {
  Si_Address : string; Si_StartHeight : Z; Si_IndexOffset : Z; Si_JailedUntil : Z;
  Si_Tombstoned : bool; Si_MissedBlocksCounter : Z; Si_ValidatorStatus : ValStatus }.

Record SlashingParams := mkSlashingParams {
  Lp_SignedBlocksWindow : Z; Lp_MinSignedPerWindow : Dec; Lp_DowntimeJailDuration : Z;
  Lp_SlashFractionDoubleSign : Dec; Lp_SlashFractionDowntime : Dec }.

Record Slashing := mkSlashing {
  ls_pubkeys : gmap string PubKey;
  ls_infos : gmap string SigningInfo;
  ls_missed : gmap (string * Z) bool;
  ls_params : SlashingParams }.

Record Slashed (C : Type) := mkSlashed { sd_base : C; sd_slashing : Slashing }.
Arguments mkSlashed {C}.
Arguments sd_base {C}.
Arguments sd_slashing {C}.

Record Vote := mkVote { Vt_Address : string; Vt_Power : Z; Vt_Signed : bool }.
Record Equivocation := mkEquivocation {
  Ev_Height : Z; Ev_Time : Z; Ev_Power : Z; Ev_ConsensusAddress : string }.

Definition DoubleSignJailEndTime : Z := 253402300799 * nanosPerSecond.

Definition si_set_status (st : ValStatus) (i : SigningInfo) : SigningInfo :=
  mkSigningInfo (Si_Address i) (Si_StartHeight i) (Si_IndexOffset i) (Si_JailedUntil i)
    (Si_Tombstoned i) (Si_MissedBlocksCounter i) st.
Definition si_set_jailed (t : Z) (i : SigningInfo) : SigningInfo :=
  mkSigningInfo (Si_Address i) (Si_StartHeight i) (Si_IndexOffset i) t
    (Si_Tombstoned i) (Si_MissedBlocksCounter i) (Si_ValidatorStatus i).
Definition si_set_tombstoned (i : SigningInfo) : SigningInfo :=
  mkSigningInfo (Si_Address i) (Si_StartHeight i) (Si_IndexOffset i) (Si_JailedUntil i)
    true (Si_MissedBlocksCounter i) (Si_ValidatorStatus i).
Definition si_set_counters (offset counter : Z) (i : SigningInfo) : SigningInfo :=
  mkSigningInfo (Si_Address i) (Si_StartHeight i) offset (Si_JailedUntil i)
    (Si_Tombstoned i) counter (Si_ValidatorStatus i).

Definition SlashingParams_Validate (p : SlashingParams) : outcome unit :=
  if Lp_SignedBlocksWindow p <=? 0 then Err (E "signed blocks window must be positive")
  else if Dec_IsNegative (Lp_MinSignedPerWindow p) then Err (E "min signed per window cannot be negative")
  else if Dec_GT (Lp_MinSignedPerWindow p) OneDec then Err (E "min signed per window too large")
  else if Lp_DowntimeJailDuration p <=? 0 then Err (E "downtime jail duration must be positive")
  else if Dec_IsNegative (Lp_SlashFractionDoubleSign p) then Err (E "double sign slash fraction cannot be negative")
  else if Dec_GT (Lp_SlashFractionDoubleSign p) OneDec then Err (E "double sign slash fraction too large")
  else if Dec_IsNegative (Lp_SlashFractionDowntime p) then Err (E "downtime slash fraction cannot be negative")
  else if Dec_GT (Lp_SlashFractionDowntime p) OneDec then Err (E "downtime slash fraction too large")
  else Ok ().

(** ** The store *)

Definition GetPubkey (addr : string) : M Slashing PubKey :=
  o ← gets (λ s, ls_pubkeys s !! addr);
  match o with Some p => mret p | None => fail "address not found" end.
Definition setAddrPubkeyRelation (addr : string) (p : PubKey) : M Slashing unit :=
  modify (λ s, mkSlashing (<[addr := p]> (ls_pubkeys s)) (ls_infos s) (ls_missed s) (ls_params s)).
Definition AddPubkey `{StakingConfig} (p : PubKey) : M Slashing unit := setAddrPubkeyRelation (pk_Address p) p.
Definition deleteAddrPubkeyRelation (addr : string) : M Slashing unit :=
  modify (λ s, mkSlashing (delete addr (ls_pubkeys s)) (ls_infos s) (ls_missed s) (ls_params s)).

Definition GetValidatorSigningInfo (addr : string) : M Slashing (option SigningInfo) :=
  gets (λ s, ls_infos s !! addr).
Definition SetValidatorSigningInfo (addr : string) (i : SigningInfo) : M Slashing unit :=
  modify (λ s, mkSlashing (ls_pubkeys s) (<[addr := i]> (ls_infos s)) (ls_missed s) (ls_params s)).
Definition HasValidatorSigningInfo (addr : string) (s : Slashing) : bool :=
  bool_decide (is_Some (ls_infos s !! addr)).
Definition GetValidatorMissedBlockBitArray (addr : string) (index : Z) (s : Slashing) : bool :=
  default false (ls_missed s !! (addr, index)).
Definition SetValidatorMissedBlockBitArray (addr : string) (index : Z) (missed : bool) : M Slashing unit :=
  modify (λ s, mkSlashing (ls_pubkeys s) (ls_infos s) (<[(addr, index) := missed]> (ls_missed s)) (ls_params s)).
Definition clearValidatorMissedBlockBitArray (addr : string) : M Slashing unit :=
  modify (λ s, mkSlashing (ls_pubkeys s) (ls_infos s)
    (base.filter (λ x, x.1.1 ≠ addr) (ls_missed s)) (ls_params s)).

Definition modifyValidatorStatus (consAddr : string) (st : ValStatus) : M Slashing unit :=
  o ← GetValidatorSigningInfo consAddr;
  match o with
  | Some i => SetValidatorSigningInfo consAddr (si_set_status st i)
  | None => mret ()
  end.

Definition JailUntil (consAddr : string) (jailTime : Z) : M Slashing unit :=
  o ← GetValidatorSigningInfo consAddr;
  match o with
  | None => panic "cannot jail validator that does not have any signing information"
  | Some i => SetValidatorSigningInfo consAddr (si_set_jailed jailTime i)
  end.
Definition Tombstone (consAddr : string) : M Slashing unit :=
  o ← GetValidatorSigningInfo consAddr;
  match o with
  | None => panic "cannot tombstone validator that does not have any signing information"
  | Some i =>
      _ ← panic_if (Si_Tombstoned i) "cannot tombstone validator that is already tombstoned";
      SetValidatorSigningInfo consAddr (si_set_tombstoned i)
  end.
Definition IsTombstoned (consAddr : string) (s : Slashing) : bool :=
  match ls_infos s !! consAddr with Some i => Si_Tombstoned i | None => false end.

Definition MinSignedPerWindow (p : SlashingParams) : outcome Z :=
  x ← Dec_MulInt64 (Lp_MinSignedPerWindow p) (Lp_SignedBlocksWindow p);
  Dec_RoundInt64 x.

(** ** The hooks of the module *)

Definition slashing_hook `{StakingConfig} (ctx : Ctx) (vs : ValSet) (h : hook) : M Slashing unit :=
  match h with
  | AfterValidatorBonded address _ =>
      o ← GetValidatorSigningInfo address;
      match o with
      | Some _ => mret ()
      | None => SetValidatorSigningInfo address (mkSigningInfo address (BlockHeight ctx) 0 0 false 0 Created)
      end
  | AfterValidatorCreated valAddr =>
      match vs_validators vs !! valAddr with
      | None => panic "nil pointer dereference"
      | Some v => _ ← AddPubkey (Va_ConsPubKey v); modifyValidatorStatus (ConsAddress v) Created
      end
  | AfterValidatorRemoved address _ =>
      _ ← deleteAddrPubkeyRelation address;
      modifyValidatorStatus address Destroyed
  | AfterValidatorDestroyed _ valAddr =>
      match vs_validators vs !! valAddr with
      | Some v => modifyValidatorStatus (ConsAddress v) Destroying
      | None => mret ()
      end
  | _ => mret ()
  end.

Section Lift.
Context {C : Type} `{CoinKeeper C} `{!DelegationKeeper C} `{!StakingHooks C} `{StakingConfig}.

Definition sd_set_base (c : C) (k : Slashed C) : Slashed C := mkSlashed c (sd_slashing k).
Definition sd_set_slashing (l : Slashing) (k : Slashed C) : Slashed C := mkSlashed (sd_base k) l.
Definition on_base {A} (m : M C A) : M (Slashed C) A := zoom sd_base sd_set_base m.
Definition on_slashing {A} (m : M Slashing A) : M (Slashed C) A := zoom sd_slashing sd_set_slashing m.

(** The coin keeper does not see the store of the module. *)
#[global] Instance slashed_coin_keeper : CoinKeeper (Slashed C) := zoomed_keeper sd_base sd_set_base.
#[global] Instance slashed_delegation_keeper : DelegationKeeper (Slashed C) := {|
  ck_DelegateCoinsFromAccountToModule a m amt := on_base (ck_DelegateCoinsFromAccountToModule a m amt);
  ck_UndelegateCoinsFromModuleToAccount m a amt := on_base (ck_UndelegateCoinsFromModuleToAccount m a amt) |}.

(** [MultiStakingHooks]: the hooks of the other modules, then those of this
    one. *)
#[global] Instance slashed_hooks : StakingHooks (Slashed C) := {|
  sh_call ctx t vs h := _ ← on_base (sh_call ctx t vs h); on_slashing (slashing_hook ctx vs h);
  sh_CheckEnabled ctx k := sh_CheckEnabled ctx (sd_base k) |}.

(** ** The keeper *)

Definition in_slashing {A} (m : M Slashing A) : M (StakingState (Slashed C)) A := on_keeper (on_slashing m).
Definition slashing_of (s : StakingState (Slashed C)) : Slashing := sd_slashing (sg_k s).

Definition slashing_Unjail (ctx : Ctx) (validatorAddr : string) : M (StakingState (Slashed C)) unit :=
  o ← GetValidator validatorAddr;
  match o with
  | None => fail "ErrNoValidatorForAddress"
  | Some v =>
      _ ← guard_not (negb (Va_Jailed v)) "ErrValidatorNotJailed";
      let consAddr := ConsAddress v in
      o ← in_slashing (GetValidatorSigningInfo consAddr);
      match o with
      | None => fail "ErrNoValidatorForAddress"
      | Some info =>
          _ ← guard_not (bool_decide (Si_ValidatorStatus info = Destroying)) "ErrValidatorDestroying";
          _ ← guard_not (Si_Tombstoned info) "ErrValidatorJailed";
          _ ← guard_not (BlockTime ctx <? Si_JailedUntil info) "ErrValidatorJailed";
          Unjail consAddr
      end
  end.

Definition handleMsgUnjail (ctx : Ctx) (validatorAddr : string) : M (StakingState (Slashed C)) unit :=
  o ← GetValidator validatorAddr;
  match o with
  | None => fail "ErrNoValidatorForAddress"
  | Some v =>
      _ ← guard_not (Dec_IsZero (Va_MinSelfDelegation v)) "ErrMissingSelfDelegation";
      slashing_Unjail ctx validatorAddr
  end.

(** The bit of this block, and the counter with it. *)
Definition recordSignature (consAddr : string) (index : Z) (missed : bool) (counter : Z)
    : M Slashing Z :=
  previous ← gets (GetValidatorMissedBlockBitArray consAddr index);
  if negb previous && missed then
    _ ← SetValidatorMissedBlockBitArray consAddr index true; mret (counter + 1)
  else if previous && negb missed then
    _ ← SetValidatorMissedBlockBitArray consAddr index false; mret (counter - 1)
  else mret counter.

Definition HandleValidatorSignature (ctx : Ctx) (addr : string) (power : Z) (signed : bool)
    : M (StakingState (Slashed C)) unit :=
  let height := BlockHeight ctx in
  let consAddr := addr in
  _ ← orPanic (in_slashing (GetPubkey addr));
  o ← in_slashing (GetValidatorSigningInfo consAddr);
  match o with
  | None => panic "Expected signing info for validator but not found"
  | Some signInfo =>
      params ← gets (λ s, ls_params (slashing_of s));
      let window := Lp_SignedBlocksWindow params in
      _ ← panic_if (window =? 0) "integer divide by zero";
      let index := Z.rem (Si_IndexOffset signInfo) window in
      let offset := Si_IndexOffset signInfo + 1 in
      counter ← in_slashing (recordSignature consAddr index (negb signed) (Si_MissedBlocksCounter signInfo));
      let minHeight := Si_StartHeight signInfo + window in
      minSigned ← lift (MinSignedPerWindow params);
      let maxMissed := window - minSigned in
      let signInfo := si_set_counters offset counter signInfo in
      signInfo ←
        (if (height >? minHeight) && (counter >? maxMissed) then
           o ← GetValidatorByConsAddr consAddr;
           match o with
           | Some v =>
               if Va_Jailed v then mret signInfo
               else
                 _ ← Jail consAddr;
                 _ ← AppendAbandonedValidatorAddrs consAddr;
                 _ ← in_slashing (clearValidatorMissedBlockBitArray consAddr);
                 mret (si_set_counters 0 0
                   (si_set_jailed (BlockTime ctx + Lp_DowntimeJailDuration params) signInfo))
           | None => mret signInfo
           end
         else mret signInfo);
      in_slashing (SetValidatorSigningInfo consAddr signInfo)
  end.

Definition slashing_BeginBlocker (ctx : Ctx) (votes : list Vote) : M (StakingState (Slashed C)) unit :=
  for_each (λ v, HandleValidatorSignature ctx (Vt_Address v) (Vt_Power v) (Vt_Signed v)) votes.

(** ** Evidence *)

Definition HandleDoubleSign (ctx : Ctx) (maxEvidenceAge : Z) (e : Equivocation)
    : M (StakingState (Slashed C)) unit :=
  let consAddr := Ev_ConsensusAddress e in
  let age := BlockTime ctx - Ev_Time e in
  known ← gets (λ s, bool_decide (is_Some (ls_pubkeys (slashing_of s) !! consAddr)));
  if negb (known : bool) then mret ()
  else if age >? maxEvidenceAge then mret ()
  else
    o ← GetValidatorByConsAddr consAddr;
    match o with
    | None => mret ()
    | Some v =>
        if IsUnbonded v then mret ()
        else
          has ← gets (λ s, HasValidatorSigningInfo consAddr (slashing_of s));
          _ ← panic_if (negb has) "expected signing info for validator but not found";
          tombstoned ← gets (λ s, IsTombstoned consAddr (slashing_of s));
          if (tombstoned : bool) then mret ()
          else
            _ ← AppendAbandonedValidatorAddrs consAddr;
            _ ← (if negb (Va_Jailed v) then Jail consAddr else mret ());
            _ ← in_slashing (JailUntil consAddr DoubleSignJailEndTime);
            in_slashing (Tombstone consAddr)
    end.

(** Other types of evidence are logged. *)
Definition evidence_BeginBlocker (ctx : Ctx) (maxEvidenceAge : Z) (l : list Equivocation)
    : M (StakingState (Slashed C)) unit :=
  for_each (HandleDoubleSign ctx maxEvidenceAge) l.

End Lift.
