(* ===== verification/SlashingProps.v ===== *)
(** * Penalties: the signing window

    The store of the slashing module behind the staking module: the staking
    code changes it only through hooks; the counter of a validator is the
    number of its missed blocks in the window; and who is jailed in a block
    stays in jail for it. *)
From S2P Require Import Prelude Decimal Denom Coins Bank CoinKeeper DecStr Token Staking StakingVals StakingVotes StakingProps StakingMsgs StakingSet Slashing.
#[local] Open Scope Z_scope.

(** ** The bits of the window *)

(** The number of blocks a validator missed. *)
Definition missed_count (m : gmap (string * Z) bool) (c : string) : Z :=
  map_sum Z.b2z (base.filter (λ x : (string * Z) * bool, x.1.1 = c) m).

Lemma missed_count_insert m c c' j b :
  missed_count (<[(c, j) := b]> m) c'
  = missed_count m c' + if bool_decide (c = c') then Z.b2z b - Z.b2z (default false (m !! (c, j))) else 0.
Proof.
  unfold missed_count. case_bool_decide as E.
  - subst c'. rewrite map_filter_insert_True by done. rewrite map_sum_insert.
    destruct (m !! (c, j)) as [x|] eqn:Hx.
    + rewrite (map_lookup_filter_Some_2 _ _ _ x) by done. cbn. lia.
    + rewrite map_lookup_filter_None_2 by (by left). cbn. lia.
  - rewrite map_filter_insert_not by done. lia.
Qed.

Lemma missed_count_clear m c c' :
  missed_count (base.filter (λ x : (string * Z) * bool, x.1.1 ≠ c) m) c' = if bool_decide (c = c') then 0 else missed_count m c'.
Proof.
  unfold missed_count. rewrite map_filter_filter. case_bool_decide as E.
  - subst c'. transitivity (map_sum (K := string * Z) Z.b2z ∅); [|done]. f_equal. apply map_empty. intros k.
    apply map_lookup_filter_None. right. by intros x _ [H1 H2].
  - f_equal. apply map_filter_ext. intros k x _. cbn. split; [naive_solver|]. intros <-. split; congruence.
Qed.

Lemma missed_count_nonneg m c : 0 ≤ missed_count m c.
Proof. apply map_sum_nonneg. by intros k [] _. Qed.

Lemma missed_count_bound m c w :
  0 ≤ w → (∀ j b, m !! (c, j) = Some b → 0 ≤ j < w) → missed_count m c ≤ w.
Proof.
  intros Hw Hb. unfold missed_count. set (f := base.filter _ m).
  assert (map_sum Z.b2z f ≤ Z.of_nat (size f)) as H1.
  { clear Hb. induction f as [|k x f Hk IH] using map_ind; [done|].
    rewrite map_sum_fresh, map_size_insert_None by done. destruct x; cbn; lia. }
  assert (size f ≤ length ((c,.) <$> seqZ 0 w))%nat as H2.
  { rewrite <- (size_dom (D := gset (string * Z))).
    rewrite <- (size_list_to_set (C := gset (string * Z)) ((c,.) <$> seqZ 0 w)).
    - apply subseteq_size. intros [c' j]. rewrite elem_of_dom, elem_of_list_to_set. intros [x Hx].
      apply map_lookup_filter_Some in Hx as [Hx Hc]. cbn in Hc. subst c'. apply list_elem_of_fmap. exists j.
      split; [done|]. apply elem_of_seqZ. apply Hb in Hx. lia.
    - apply NoDup_fmap; [by intros x y [= ->]|]. apply NoDup_seqZ. }
  rewrite length_fmap, length_seqZ in H2. lia.
Qed.

(** ** What hooks do to the store *)

(** The record of a validator but for its status. *)
Definition same_info (i i' : SigningInfo) : Prop := si_set_status Created i' = si_set_status Created i.
Record hooked (l l' : Slashing) : Prop := {
  hk_params : ls_params l' = ls_params l;
  hk_missed : ls_missed l' = ls_missed l;
  hk_kept c i : ls_infos l !! c = Some i → ∃ i', ls_infos l' !! c = Some i' ∧ same_info i i';
  hk_new c i' : ls_infos l !! c = None → ls_infos l' !! c = Some i' →
    Si_MissedBlocksCounter i' = 0 ∧ Si_IndexOffset i' = 0 }.
#[global] Instance hooked_preorder : PreOrder hooked.
Proof.
  split.
  - intros l. split; try done; [|congruence]. intros c i Hi. by exists i.
  - intros l1 l2 l3 [P1 M1 K1 N1] [P2 M2 K2 N2]. split; [congruence|congruence|..].
    + intros c i Hi. destruct (K1 c i Hi) as (i2 & Hi2 & E2). destruct (K2 c i2 Hi2) as (i3 & Hi3 & E3).
      exists i3. split; [done|]. unfold same_info in *. congruence.
    + intros c i Hi Hi3. destruct (ls_infos l2 !! c) as [i2|] eqn:Hi2.
      * destruct (N1 c i2 Hi Hi2) as [Z1 Z2]. destruct (K2 c i2 Hi2) as (i3 & Hi3' & E3).
        rewrite Hi3 in Hi3'. injection Hi3' as <-. unfold same_info in E3. destruct i, i2. cbn in *.
        injection E3 as -> -> -> -> -> ->. done.
      * by apply (N2 c).
Qed.

Lemma hooked_status c st l u l' : modifyValidatorStatus c st l = (u, l') → hooked l l'.
Proof.
  unfold modifyValidatorStatus, GetValidatorSigningInfo, gets. unfold mbind, M_bind.
  destruct (ls_infos l !! c) as [i|] eqn:Hi; [|by intros [= _ <-]]. intros [= _ <-]. split; cbn; try done.
  - intros b x Hx. destruct (decide (b = c)) as [->|Hne].
    + rewrite lookup_insert_eq. eexists. split; [done|]. rewrite Hi in Hx. by injection Hx as <-.
    + rewrite lookup_insert_ne by done. by exists x.
  - intros b x Hb [[<- _]|[_ Hx]]%lookup_insert_Some; congruence.
Qed.

Lemma frames_status c st : frames hooked (modifyValidatorStatus c st).
Proof. intros l. destruct (modifyValidatorStatus c st l) as [u l'] eqn:E. by eapply hooked_status. Qed.
#[export] Hint Resolve frames_status : frames.

Lemma frames_slashing_hook `{StakingConfig} ctx vs h : frames hooked (slashing_hook ctx vs h).
Proof.
  destruct h; cbn [slashing_hook]; try apply frames_mret; try exact _.
  - destruct (vs_validators vs !! valAddr); [|apply frames_panic; exact _].
    apply frames_bind; [exact _| |intros _; apply frames_status].
    apply frames_modify. intros l. split; cbn; try done; [|congruence]. intros c i Hi. by exists i.
  - apply frames_bind; [exact _| |intros _; apply frames_status].
    apply frames_modify. intros l. split; cbn; try done; [|congruence]. intros c i Hi. by exists i.
  - intros l. unfold GetValidatorSigningInfo, gets. unfold mbind, M_bind.
    destruct (ls_infos l !! consAddr) as [i|] eqn:Hi; [reflexivity|]. cbn. split; cbn; try done.
    + intros b x Hx. exists x. split; [|done]. rewrite lookup_insert_ne; [done|congruence].
    + intros b x Hb [[<- <-]|[_ Hx]]%lookup_insert_Some; [done|congruence].
  - destruct (vs_validators vs !! valAddr); [apply frames_status|apply frames_mret; exact _].
Qed.

(** ** The interfaces, with the store of the module beside *)

Section Lifted.
Context {C : Type} `{CoinKeeper C} `{!CoinKeeperLaws C} `{!DelegationKeeper C} `{!DelegationKeeperLaws C}.
Context `{!StakingHooks C} `{cfgS : StakingConfig}.

Lemma kmove_lift (k : Slashed C) c' a b amt :
  kmove (sd_base k) c' a b amt → kmove k (sd_set_base c' k) a b amt.
Proof. by apply (kmove_zoomed sd_base sd_set_base). Qed.
Lemma on_base_Ok {A} (m : M C A) k a k' :
  on_base m k = (Ok a, k') → ∃ c', m (sd_base k) = (Ok a, c') ∧ k' = sd_set_base c' k.
Proof. apply zoom_Ok. Qed.

#[global] Instance slashed_coin_laws : CoinKeeperLaws (Slashed C).
Proof. apply zoomed_laws; [done|by intros []|exact _]. Qed.

#[global] Instance slashed_delegation_laws : DelegationKeeperLaws (Slashed C).
Proof.
  split; cbn.
  - intros a m amt k k' u (x & Hx & ->)%on_base_Ok Hw. apply law_Delegate in Hx as (addr & H1 & H2); [|done].
    exists addr. split; [done|]. by apply kmove_lift.
  - intros m a amt k k' u (x & Hx & ->)%on_base_Ok Hw Hm. apply law_Undelegate in Hx as (addr & H1 & H2); [|done..].
    exists addr. split; [done|]. by apply kmove_lift.
  - intros m a amt k k' e Hx. unfold on_base, zoom in Hx.
    destruct (ck_UndelegateCoinsFromModuleToAccount m a amt (sd_base k)) as [[u|e'|p] x] eqn:E; simplify_eq.
    apply law_Undelegate_refused in E as [H1 H2]. split; done.
Qed.

#[global] Instance slashed_staking_laws b n `{!StakingLaws C b n} : StakingLaws (Slashed C) b n.
Proof.
  split; cbn; [apply sl_bonded|apply sl_notBonded|apply sl_ne|].
  intros ctx t vs h k k' u (u1 & k1 & H1 & H2)%M_bind_Ok. apply on_base_Ok in H1 as (c' & H1 & ->).
  apply zoom_Ok in H2 as (l' & H2 & ->). apply sl_hooks in H1 as []. by split.
Qed.

(** The staking code changes the store of the module only through hooks. *)
Definition hooked_by (k k' : Slashed C) : Prop := hooked (sd_slashing k) (sd_slashing k').
#[global] Instance hooked_by_preorder : PreOrder hooked_by.
Proof. split; [intros k; unfold hooked_by; reflexivity|]. intros k1 k2 k3. unfold hooked_by. apply transitivity. Qed.

Lemma frames_on_base {A} (m : M C A) : frames hooked_by (on_base m).
Proof. intros k. unfold on_base, zoom, hooked_by. destruct (m (sd_base k)). cbn. reflexivity. Qed.
Lemma frames_hook ctx t vs h : frames hooked_by (sh_call (K := Slashed C) ctx t vs h).
Proof.
  cbn. apply frames_bind; [exact _|apply frames_on_base|intros _ k].
  pose proof (frames_slashing_hook ctx vs h (sd_slashing k)) as Hh. unfold on_slashing, zoom, hooked_by.
  by destruct (slashing_hook ctx vs h (sd_slashing k)).
Qed.

End Lifted.

(** ** The window *)

(** A bound on the windows that there ever are: the length of the window is a
    parameter that proposals change, and bits beyond a shorter window stay. *)
Class WindowBound := windowBound : Z.

Section Window.
Context `{!WindowBound}.

(** Parameters that the module accepts, with a window within the bound. *)
Definition slashing_params_ok (p : SlashingParams) : Prop :=
  SlashingParams_Validate p = Ok () ∧ Lp_SignedBlocksWindow p ≤ windowBound.
Lemma slashing_params_pos p :
  slashing_params_ok p → 0 < Lp_SignedBlocksWindow p ≤ windowBound ∧ 0 < Lp_DowntimeJailDuration p.
Proof.
  intros [Hv Hle]. unfold SlashingParams_Validate in Hv. repeat (case_match; try done).
  repeat match goal with H : (_ <=? _) = false |- _ => apply Z.leb_gt in H end. lia.
Qed.

Record slash_inv (l : Slashing) : Prop := {
  li_window : 0 < Lp_SignedBlocksWindow (ls_params l) ≤ windowBound;
  li_jail : 0 < Lp_DowntimeJailDuration (ls_params l);
  li_count c i : ls_infos l !! c = Some i →
    Si_MissedBlocksCounter i = missed_count (ls_missed l) c ∧ 0 ≤ Si_IndexOffset i;
  li_bits c j b : ls_missed l !! (c, j) = Some b →
    is_Some (ls_infos l !! c) ∧ 0 ≤ j < windowBound }.

Lemma missed_count_none l c : slash_inv l → ls_infos l !! c = None → missed_count (ls_missed l) c = 0.
Proof.
  intros Hi Hc. transitivity (map_sum (K := string * Z) Z.b2z ∅); [|done]. unfold missed_count. f_equal. apply map_empty.
  intros [c' j]. apply map_lookup_filter_None. right. cbn. intros x Hx <-.
  apply (li_bits _ Hi) in Hx as [[i Hx] _]. congruence.
Qed.

Lemma slash_hooked l l' : slash_inv l → hooked l l' → slash_inv l'.
Proof.
  intros Hi [P1 M1 K1 N1]. split; rewrite ?P1, ?M1; try apply Hi.
  - intros c i' Hc'. destruct (ls_infos l !! c) as [i|] eqn:Hc.
    + destruct (K1 c i Hc) as (i1 & Hi1 & E1). rewrite Hc' in Hi1. injection Hi1 as <-.
      destruct (li_count _ Hi c i Hc) as [H1 H2]. unfold same_info in E1. destruct i, i'. cbn in *.
      injection E1 as -> -> -> -> -> ->. done.
    + destruct (N1 c i' Hc Hc') as [H1 H2]. rewrite H1, H2. split; [|done]. symmetry. by apply missed_count_none.
  - intros c j b Hb. destruct (li_bits _ Hi c j b Hb) as [[i Hc] Hr]. split; [|done].
    destruct (K1 c i Hc) as (i1 & Hi1 & _). eauto.
Qed.

Definition ls_set_params (p : SlashingParams) (l : Slashing) : Slashing :=
  mkSlashing (ls_pubkeys l) (ls_infos l) (ls_missed l) p.
Lemma slash_params p l : slash_inv l → slashing_params_ok p → slash_inv (ls_set_params p l).
Proof. intros [_ _ I3 I4] [Hw Hj]%slashing_params_pos. by split. Qed.
End Window.

(** Who may not leave jail now. *)
Definition blocked (ctx : Ctx) (l : Slashing) (c : string) : Prop :=
  ∃ i, ls_infos l !! c = Some i ∧ (BlockTime ctx < Si_JailedUntil i ∨ Si_Tombstoned i = true).
Lemma blocked_hooked ctx l l' c : hooked l l' → blocked ctx l c → blocked ctx l' c.
Proof.
  intros Hk (i & Hi & Hb). destruct (hk_kept _ _ Hk c i Hi) as (i' & Hi' & E). exists i'. split; [done|].
  unfold same_info in E. destruct i, i'. cbn in *. by injection E as -> -> -> -> -> ->.
Qed.

Section Signatures.
Context {C : Type} `{CoinKeeper C} `{!CoinKeeperLaws C} `{!DelegationKeeper C} `{!DelegationKeeperLaws C}.
Context `{!StakingHooks C} `{cfgS : StakingConfig} `{wbS : !WindowBound} `{bansS : !Bans} `{engS : !Engine}.
Context (bonded notBonded : string) `{!StakingLaws C bonded notBonded} (Hw : weights_ok).
Implicit Types (s : StakingState (Slashed C)).

#[local] Abbreviation SI := (staking_inv (K := Slashed C) bonded notBonded).
#[local] Abbreviation vals_of s := (vs_validators (sg_vals s)).

Definition put_slashing (l : Slashing) s : StakingState (Slashed C) := sg_set_k (sd_set_slashing l (sg_k s)) s.

Lemma in_slashing_Ok {A} (m : M Slashing A) s a s' :
  in_slashing m s = (Ok a, s') → ∃ l', m (slashing_of s) = (Ok a, l') ∧ s' = put_slashing l' s.
Proof.
  unfold in_slashing, on_keeper. intros (k' & Hk & ->)%zoom_Ok. apply zoom_Ok in Hk as (l' & Hl & ->). eauto.
Qed.

Lemma put_slashing_id s : put_slashing (slashing_of s) s = s.
Proof. by destruct s as [[] ? ? ?]. Qed.

(** The staking module does not see the store. *)
Lemma inv_put_slashing lost l s : SI lost s → SI lost (put_slashing l s).
Proof. intros [[M1 M2 M3] U P V Pa L]. by split. Qed.

(** The window after the vote on one block. *)
Definition voted_on (c : string) (index : Z) (missed : bool) (l l' : Slashing) (counter counter' : Z) : Prop :=
  ls_pubkeys l' = ls_pubkeys l ∧ ls_infos l' = ls_infos l ∧ ls_params l' = ls_params l ∧
  counter' = counter + Z.b2z missed - Z.b2z (GetValidatorMissedBlockBitArray c index l) ∧
  (ls_missed l' = <[(c, index) := missed]> (ls_missed l) ∨
   ls_missed l' = ls_missed l ∧ GetValidatorMissedBlockBitArray c index l = missed).

Lemma recordSignature_Ok c index missed counter l counter' l' :
  recordSignature c index missed counter l = (Ok counter', l') → voted_on c index missed l l' counter counter'.
Proof.
  unfold recordSignature, SetValidatorMissedBlockBitArray. intros (b & l1 & H1 & H2)%M_bind_Ok. apply gets_Ok in H1 as [-> ->].
  unfold voted_on. destruct (GetValidatorMissedBlockBitArray c index l) eqn:Eb, missed; cbn in H2; inv_ok;
    split_and!; cbn; first [done|lia|by left|by right; split].
Qed.

Lemma voted_on_count c index missed l l' counter counter' c' :
  voted_on c index missed l l' counter counter' →
  missed_count (ls_missed l') c' = missed_count (ls_missed l) c' + if bool_decide (c = c') then counter' - counter else 0.
Proof.
  intros (_ & _ & _ & -> & [-> |[-> Eb]]).
  - rewrite missed_count_insert. unfold GetValidatorMissedBlockBitArray. case_bool_decide; lia.
  - rewrite Eb. case_bool_decide; lia.
Qed.
Lemma voted_on_bits c index missed l l' counter counter' c' j b :
  voted_on c index missed l l' counter counter' → ls_missed l' !! (c', j) = Some b →
  (c' = c ∧ j = index) ∨ is_Some (ls_missed l !! (c', j)).
Proof.
  intros (_ & _ & _ & _ & [-> |[-> _]]) Hb; [|by right; eauto].
  apply lookup_insert_Some in Hb as [[[= -> ->] _]|[_ Hb]]; [by left|right; eauto].
Qed.

(** The validator is put in jail and kicked out. *)
Record punished s s' (c a : string) (v : Validator) : Prop := {
  pu_val : vals_of s !! a = Some v;
  pu_cons : ConsAddress v = c;
  pu_jailed : Va_Jailed v = false;
  pu_vals : vals_of s' = <[a := va_set_jailed true v]> (vals_of s);
  pu_abandoned : vs_abandoned (sg_vals s') = vs_abandoned (sg_vals s) ++ [a];
  pu_stakes : sg_stakes s' = sg_stakes s;
  pu_base : sd_base (sg_k s') = sd_base (sg_k s) }.

(** What the vote of one validator does: its bit and counter change, and it
    is punished if it was absent too often. *)
Record signed_block (ctx : Ctx) (c : string) (signed : bool) s s' (i : SigningInfo) (minSigned n : Z) : Prop := {
  sb_info : ls_infos (slashing_of s) !! c = Some i;
  sb_min : MinSignedPerWindow (ls_params (slashing_of s)) = Ok minSigned;
  sb_params : ls_params (slashing_of s') = ls_params (slashing_of s);
  sb_sparams : sg_params s' = sg_params s;
  sb_pubkeys : ls_pubkeys (slashing_of s') = ls_pubkeys (slashing_of s);
  sb_case : let l := slashing_of s in let l' := slashing_of s' in
    let w := Lp_SignedBlocksWindow (ls_params l) in
    let late := BlockHeight ctx > Si_StartHeight i + w ∧ n > w - minSigned in
    ∃ l1, voted_on c (Z.rem (Si_IndexOffset i) w) (negb signed) l l1 (Si_MissedBlocksCounter i) n ∧
    ((late ∧ ∃ a v, punished s s' c a v ∧
        (∃ l2 u1 t1 u2 t2, Jail c (put_slashing l1 s) = (Ok u1, t1) ∧
          AppendAbandonedValidatorAddrs c t1 = (Ok u2, t2) ∧ s' = put_slashing l2 t2) ∧
        ls_missed l' = base.filter (λ x : (string * Z) * bool, x.1.1 ≠ c) (ls_missed l1) ∧
        ls_infos l' = <[c := si_set_counters 0 0
          (si_set_jailed (BlockTime ctx + Lp_DowntimeJailDuration (ls_params l)) i)]> (ls_infos l)) ∨
     ((late → ∀ a v, vals_of s !! a = Some v → ConsAddress v = c → Va_Jailed v = true) ∧
      sg_vals s' = sg_vals s ∧ sg_stakes s' = sg_stakes s ∧ sd_base (sg_k s') = sd_base (sg_k s) ∧
      ls_missed l' = ls_missed l1 ∧
      ls_infos l' = <[c := si_set_counters (Si_IndexOffset i + 1) n i]> (ls_infos l))) }.

Lemma GetByCons_Ok lost c s o s' :
  SI lost s → GetValidatorByConsAddr c s = (Ok o, s') →
  s' = s ∧ match o with
           | Some v => ∃ a, vals_of s !! a = Some v ∧ ConsAddress v = c ∧ Va_OperatorAddress v = a
           | None => ∀ a v, vals_of s !! a = Some v → ConsAddress v ≠ c
           end.
Proof.
  intros I. pose proof (proj1 (vt_vals _ _ _ (sv_votes _ _ _ _ I))) as Hi. unfold GetValidatorByConsAddr.
  intros (x & s1 & H1 & H2)%M_bind_Ok. apply gets_Ok in H1 as [-> ->].
  destruct (vs_byConsAddr (sg_vals s) !! c) as [a|] eqn:Hc.
  - apply gets_Ok in H2 as [-> ->]. split; [done|]. apply (ii_cons _ _ _ _ Hi) in Hc as (v & Hv & Hcv). rewrite Hv.
    exists a. split_and!; [done|done|]. by apply (ii_key _ _ _ _ Hi).
  - apply mret_Ok in H2 as [-> ->]. split; [done|]. intros a v Hv Hcv.
    assert (vs_byConsAddr (sg_vals s) !! c = Some a) by (apply (ii_cons _ _ _ _ Hi); eauto). congruence.
Qed.

Lemma mustGetByCons_run s v a :
  vs_byConsAddr (sg_vals s) !! ConsAddress v = Some a → vals_of s !! a = Some v →
  mustGetValidatorByConsAddr (ConsAddress v) s = (Ok v, s).
Proof.
  intros Hc Hv. unfold mustGetValidatorByConsAddr, GetValidatorByConsAddr, GetValidator, gets.
  unfold mbind, M_bind. rewrite Hc, Hv. done.
Qed.

Lemma punish_Ok lost s a v u1 s1 u2 s2 :
  SI lost s → vals_of s !! a = Some v → Va_Jailed v = false →
  Jail (ConsAddress v) s = (Ok u1, s1) → AppendAbandonedValidatorAddrs (ConsAddress v) s1 = (Ok u2, s2) →
  punished s s2 (ConsAddress v) a v ∧ sg_k s2 = sg_k s ∧ sg_params s2 = sg_params s.
Proof.
  intros I Hv Hj HJ HA. pose proof (proj1 (vt_vals _ _ _ (sv_votes _ _ _ _ I))) as Hi.
  pose proof (ii_key _ _ _ _ Hi _ _ Hv) as Ka.
  assert (vs_byConsAddr (sg_vals s) !! ConsAddress v = Some a) as Hc by (apply (ii_cons _ _ _ _ Hi); eauto).
  unfold Jail in HJ. rewrite (M_bind_run _ _ _ _ _ (mustGetByCons_run s v a Hc Hv)) in HJ.
  unfold jailValidator in HJ. rewrite Hj in HJ. cbn in HJ. injection HJ as <- <-.
  unfold AppendAbandonedValidatorAddrs in HA.
  change (ConsAddress v) with (ConsAddress (va_set_jailed true v)) in HA.
  erewrite M_bind_run in HA; [|apply (mustGetByCons_run _ _ a)].
  - cbn in HA. injection HA as <- <-. split; [|done]. split; cbn; try done; by rewrite Ka.
  - exact Hc.
  - cbn. by rewrite Ka, lookup_insert_eq.
Qed.

Lemma HandleSignature_Ok lost ctx c p signed s u s' :
  SI lost s → slash_inv (slashing_of s) → HandleValidatorSignature ctx c p signed s = (Ok u, s') →
  ∃ i minSigned n, signed_block ctx c signed s s' i minSigned n.
Proof.
  intros I Hl. unfold HandleValidatorSignature. intros (x & s1 & H1 & H2)%M_bind_Ok.
  assert (s1 = s) as ->.
  { unfold orPanic in H1. destruct (in_slashing _ s) as [[y|e|q] t] eqn:Hx; simplify_eq.
    apply in_slashing_Ok in Hx as (l' & Hx & ->). unfold GetPubkey in Hx. clear H2.
    apply M_bind_Ok in Hx as (o & l2 & Hx & Hy). apply gets_Ok in Hx as [-> ->].
    destruct (ls_pubkeys (slashing_of s) !! c); [|by apply fail_Ok in Hy]. apply mret_Ok in Hy as [_ ->]. apply put_slashing_id. }
  apply M_bind_Ok in H2 as (o & s1 & H3 & H2). apply in_slashing_Ok in H3 as (l' & H3 & ->).
  apply gets_Ok in H3 as [-> ->]. rewrite put_slashing_id in H2.
  destruct (ls_infos (slashing_of s) !! c) as [i|] eqn:Hi; [|by apply panic_Ok in H2].
  apply M_bind_Ok in H2 as (pr & s1 & H3 & H2). apply gets_Ok in H3 as [-> ->].
  apply M_bind_Ok in H2 as (u1 & s1 & H3 & H2). apply panic_if_Ok in H3 as [_ ->].
  apply M_bind_Ok in H2 as (n & s1 & H3 & H2). apply in_slashing_Ok in H3 as (l1 & H3 & ->).
  apply recordSignature_Ok in H3 as Hv1.
  apply M_bind_Ok in H2 as (minSigned & s1 & H4 & H2). apply lift_Ok in H4 as [Hmin ->].
  apply M_bind_Ok in H2 as (i' & s2 & H4 & H2). apply in_slashing_Ok in H2 as (l2 & H2 & ->). apply modify_Ok in H2.
  pose proof (inv_put_slashing lost l1 s I) as I1. exists i, minSigned, n.
  pose proof Hv1 as (V1 & V2 & V3 & V4 & V5).
  destruct ((BlockHeight ctx >? _) && _) eqn:Elate in H4.
  - apply andb_true_iff in Elate as [L1 L2]. apply Z.gtb_lt in L1. apply Z.gtb_lt in L2.
    apply M_bind_Ok in H4 as (o & s3 & H4 & H5). apply (GetByCons_Ok lost) in H4 as [-> Ho]; [|done].
    destruct o as [v|].
    + destruct Ho as (a & Hv & Hcv & Ka). cbn in Hv. destruct (Va_Jailed v) eqn:Hj.
      * apply mret_Ok in H5 as [-> ->]. subst l2. split; try done. exists l1. split; [done|]. right. split_and!; try done.
        -- intros _ b w Hw' Hcw. assert (b = a) as ->; [|congruence].
           pose proof (proj1 (vt_vals _ _ _ (sv_votes _ _ _ _ I))) as Hix.
           assert (vs_byConsAddr (sg_vals s) !! c = Some a) by (apply (ii_cons _ _ _ _ Hix); eauto).
           assert (vs_byConsAddr (sg_vals s) !! c = Some b) by (apply (ii_cons _ _ _ _ Hix); eauto). congruence.
        -- cbn. by rewrite V2.
      * apply M_bind_Ok in H5 as (u3 & s4 & HJ & H5). apply M_bind_Ok in H5 as (u4 & s5 & HA & H5).
        apply M_bind_Ok in H5 as (u5 & s6 & H6 & H5). apply in_slashing_Ok in H6 as (l3 & H6 & ->).
        apply modify_Ok in H6. apply mret_Ok in H5 as [-> ->]. pose proof HJ as HJ'. pose proof HA as HA'. rewrite <- Hcv in HJ', HA'.
        destruct (punish_Ok lost _ _ _ _ _ _ _ I1 Hv Hj HJ' HA') as ([P1 P2 P3 P4 P5 P6 P7] & Ek & Ep).
        assert (slashing_of s5 = l1) as El by (unfold slashing_of; by rewrite Ek). rewrite El in H6.
        cbn in H2. subst l2. subst l3. split; try done. exists l1. split; [done|]. left. split; [lia|].
        exists a, v. split_and!; [by split| |done|cbn; by rewrite V2].
        eexists _, _, _, _, _. split; [exact HJ|]. split; [exact HA|]. by destruct s5 as [[] ? ? ?].
    + apply mret_Ok in H5 as [-> ->]. subst l2. split; try done. exists l1. split; [done|]. right. split_and!; try done.
      * intros _ a v Hv Hcv. by destruct (Ho a v).
      * cbn. by rewrite V2.
  - apply mret_Ok in H4 as [-> ->]. subst l2. split; try done. exists l1. split; [done|]. right. split_and!; try done.
    + intros [L1 L2]. exfalso. apply andb_false_iff in Elate as [E1|E1]; rewrite Z.gtb_ltb in E1; apply Z.ltb_ge in E1; lia.
    + cbn. by rewrite V2.
Qed.

(** ** What a vote preserves *)

Lemma slash_signed ctx c signed s s' i minSigned n :
  slash_inv (slashing_of s) → signed_block ctx c signed s s' i minSigned n → slash_inv (slashing_of s').
Proof.
  intros Hl [Hi Hmin Ep _ _ Hcase]. cbn zeta in Hcase. destruct Hcase as (l1 & Hv & Hcase).
  pose proof (λ c', voted_on_count _ _ _ _ _ _ _ c' Hv) as Hcount.
  destruct (li_count _ Hl c i Hi) as [Hn Hoff]. pose proof (li_window _ Hl) as Hwd.
  assert (0 ≤ Z.rem (Si_IndexOffset i) (Lp_SignedBlocksWindow (ls_params (slashing_of s)))
    < Lp_SignedBlocksWindow (ls_params (slashing_of s))) as Hidx by (apply Z.rem_bound_pos; lia).
  assert (missed_count (ls_missed l1) c = n) as Hn1.
  { rewrite Hcount, bool_decide_true by done. lia. }
  assert (∀ c', c' ≠ c → missed_count (ls_missed l1) c' = missed_count (ls_missed (slashing_of s)) c') as Hn2.
  { intros c' Hne. rewrite Hcount, bool_decide_false by congruence. lia. }
  assert (∀ c' j b, ls_missed l1 !! (c', j) = Some b → (c' = c ∨ is_Some (ls_infos (slashing_of s) !! c')) ∧
    0 ≤ j < windowBound) as Hbits.
  { intros c' j b Hb. destruct (voted_on_bits _ _ _ _ _ _ _ _ _ _ Hv Hb) as [[-> ->]|[x Hx]]; [split; [auto|lia]|].
    destruct (li_bits _ Hl _ _ _ Hx). auto. }
  assert (∀ j, ls_infos (slashing_of s') = <[c := j]> (ls_infos (slashing_of s)) →
    ∀ c', c' = c ∨ is_Some (ls_infos (slashing_of s) !! c') → is_Some (ls_infos (slashing_of s') !! c')) as Hsome.
  { intros j -> c' [->|Hc']; [rewrite lookup_insert_eq; eauto|]. apply lookup_insert_is_Some. destruct (decide (c = c')); auto. }
  destruct Hcase as [(_ & a & v & _ & _ & Em & Ei)|(_ & _ & _ & _ & Em & Ei)]; split; rewrite ?Ep, ?Em; try apply Hl.
  - intros c' i'. rewrite Ei. intros [[<- <-]|[Hne Hi']]%lookup_insert_Some.
    + rewrite missed_count_clear, bool_decide_true by done. done.
    + rewrite missed_count_clear, bool_decide_false, Hn2 by congruence. by apply (li_count _ Hl).
  - intros c' j b [Hb _]%map_lookup_filter_Some. destruct (Hbits _ _ _ Hb). split; [|done]. by eapply Hsome.
  - intros c' i'. rewrite Ei. intros [[<- <-]|[Hne Hi']]%lookup_insert_Some.
    + cbn. split; [by rewrite Hn1|lia].
    + rewrite Hn2 by congruence. by apply (li_count _ Hl).
  - intros c' j b Hb. destruct (Hbits _ _ _ Hb). split; [|done]. by eapply Hsome.
Qed.

(** Who is blocked stays so, and who is punished is blocked. *)
Lemma blocked_signed ctx c signed s s' i minSigned n :
  slash_inv (slashing_of s) → signed_block ctx c signed s s' i minSigned n →
  (∀ c', blocked ctx (slashing_of s) c' → blocked ctx (slashing_of s') c') ∧
  (sg_vals s' ≠ sg_vals s → blocked ctx (slashing_of s') c).
Proof.
  intros Hl [Hi Hmin Ep _ _ Hcase]. cbn zeta in Hcase. destruct Hcase as (l1 & _ & Hcase).
  pose proof (li_jail _ Hl) as Hj.
  destruct Hcase as [(_ & a & v & _ & _ & _ & Ei)|(_ & Ev & _ & _ & _ & Ei)]; split.
  - intros c' (i' & Hi' & Hb). unfold blocked. rewrite Ei. destruct (decide (c' = c)) as [->|Hne].
    + rewrite lookup_insert_eq. eexists. split; [done|]. left. cbn. lia.
    + rewrite lookup_insert_ne by done. eauto.
  - intros _. unfold blocked. rewrite Ei, lookup_insert_eq. eexists. split; [done|]. left. cbn. lia.
  - intros c' (i' & Hi' & Hb). unfold blocked. rewrite Ei. destruct (decide (c' = c)) as [->|Hne].
    + rewrite lookup_insert_eq. eexists. split; [done|]. cbn. congruence.
    + rewrite lookup_insert_ne by done. eauto.
  - done.
Qed.

(** Validators keep their status. *)
Definition same_status s s' : Prop :=
  ∀ a v', vals_of s' !! a = Some v' → ∃ v, vals_of s !! a = Some v ∧ Va_Status v' = Va_Status v ∧
    Va_ConsPubKey v' = Va_ConsPubKey v.
#[global] Instance same_status_preorder : PreOrder same_status.
Proof.
  split; [intros s a v Hv; eauto|]. intros s1 s2 s3 H12 H23 a v3 Hv3.
  destruct (H23 a v3 Hv3) as (v2 & Hv2 & E1 & E2). destruct (H12 a v2 Hv2) as (v1 & Hv1 & E3 & E4).
  exists v1. split_and!; congruence.
Qed.
Lemma punished_status s s' c a v : punished s s' c a v → same_status s s'.
Proof.
  intros [P1 P2 P3 P4 P5 P6 P7] b w. rewrite P4. intros [[<- <-]|[_ Hw']]%lookup_insert_Some; eauto.
Qed.
Lemma same_vals_status s s' : sg_vals s' = sg_vals s → same_status s s'.
Proof. intros E a v. rewrite E. eauto. Qed.
Lemma signed_status ctx c signed s s' i minSigned n :
  signed_block ctx c signed s s' i minSigned n → same_status s s'.
Proof.
  intros [_ _ _ _ _ Hcase]. cbn zeta in Hcase.
  destruct Hcase as (l1 & _ & [(_ & a & v & Hp & _)|(_ & Ev & _)]); [by eapply punished_status|by apply same_vals_status].
Qed.

(** The voters are validators of the engine, so none of them is unbonded. *)
Definition voter_ok (c : string) s : Prop :=
  ∀ a v, vals_of s !! a = Some v → ConsAddress v = c → Va_Status v ≠ Unbonded.
Lemma voter_status c s s' : same_status s s' → voter_ok c s → voter_ok c s'.
Proof.
  intros Hs Hc a v' Hv' Hcv. destruct (Hs a v' Hv') as (v & Hv & -> & Epk). apply (Hc a); [done|].
  unfold ConsAddress in *. by rewrite <- Epk.
Qed.

Lemma inv_punish lost s a v u1 s1 u2 s2 :
  SI lost s → vals_of s !! a = Some v → Va_Status v ≠ Unbonded → banned (ConsAddress v) →
  Jail (ConsAddress v) s = (Ok u1, s1) → AppendAbandonedValidatorAddrs (ConsAddress v) s1 = (Ok u2, s2) →
  SI lost s2.
Proof.
  intros I Hv Hs Hb HJ HA. pose proof (inv_Jail bonded notBonded lost _ _ _ _ I HJ) as I1.
  eapply (inv_AppendAbandoned bonded notBonded lost); [exact I1| |exact HA]. intros b w Hw' Hcw.
  pose proof (proj1 (vt_vals _ _ _ (sv_votes _ _ _ _ I))) as Hi.
  assert (vs_byConsAddr (sg_vals s) !! ConsAddress v = Some a) as Hc by (apply (ii_cons _ _ _ _ Hi); eauto).
  unfold Jail in HJ. rewrite (M_bind_run _ _ _ _ _ (mustGetByCons_run s v a Hc Hv)) in HJ.
  unfold jailValidator in HJ. destruct (Va_Jailed v) eqn:Hj; [done|]. cbn in HJ. injection HJ as <- <-.
  pose proof (ii_key _ _ _ _ Hi _ _ Hv) as Ka. cbn in Hw'. rewrite Ka in Hw'.
  apply lookup_insert_Some in Hw' as [[<- <-]|[Hne Hw']].
  - split_and!; [done|done|]. right. unfold ConsAddress in *. done.
  - exfalso. assert (vs_byConsAddr (sg_vals s) !! ConsAddress v = Some b) by (apply (ii_cons _ _ _ _ Hi); eauto). congruence.
Qed.

Lemma inv_signed lost ctx c signed s s' i minSigned n :
  SI lost s → slash_inv (slashing_of s) → voter_ok c s → signed_block ctx c signed s s' i minSigned n →
  (∀ c', blocked ctx (slashing_of s') c' → banned c') → SI lost s'.
Proof.
  intros I Hl Hvo Hs Hban. destruct (blocked_signed _ _ _ _ _ _ _ _ Hl Hs) as [_ Hbl].
  destruct Hs as [_ _ _ Esp _ Hcase]. cbn zeta in Hcase.
  destruct Hcase as (l1 & _ & [(_ & a & v & Hp & (l2 & u1 & t1 & u2 & t2 & HJ & HA & ->) & _)|(_ & Ev & Es & Eb & _)]).
  - apply inv_put_slashing. pose proof (pu_cons _ _ _ _ _ Hp) as Ec. rewrite <- Ec in HJ, HA.
    eapply (inv_punish lost (put_slashing l1 s) a v); [by apply inv_put_slashing|apply Hp| | |exact HJ|exact HA].
    + apply (Hvo a); [apply Hp|done].
    + rewrite Ec. apply Hban, Hbl. intros E. apply (f_equal vs_validators) in E. cbn in E.
      pose proof (pu_vals _ _ _ _ _ Hp) as E'. cbn in E'. rewrite E in E'.
      pose proof (pu_val _ _ _ _ _ Hp) as Hv. rewrite E', lookup_insert_eq in Hv. injection Hv as Hv.
      pose proof (pu_jailed _ _ _ _ _ Hp) as Hj. rewrite <- Hv in Hj. done.
  - assert (s' = put_slashing (slashing_of s') s) as ->; [|by apply inv_put_slashing].
    destruct s as [[] ? ? ?], s' as [[] ? ? ?]. cbn in *. by subst.
Qed.

End Signatures.

(** ** Bans *)

(** Everyone is banned: what the invariant says without bans. *)
Definition all_banned : Bans := λ _, True.

Lemma bans_mono {K} `{CoinKeeper K} `{StakingConfig} `{!Engine} (B B' : Bans) b n lost (s : StakingState K) :
  staking_inv (bansS := B) b n lost s →
  vs_abandoned (sg_vals s) = [] ∨ (∀ c, @banned B c → @banned B' c) →
  staking_inv (bansS := B') b n lost s.
Proof.
  intros [M U P [V1 V2 V3 V4 V5 [V6 [E1 E2 E3 E4 E5 E6 E7 E8]]] Pa L] Hb. split; try done. split; try done. split; [done|].
  split; try done. intros a Ha. destruct (E6 a Ha) as (v & Hv & Hs & Hj & Hk). exists v. split_and!; try done.
  destruct Hb as [Hn|Hb]; [rewrite Hn in Ha; by apply not_elem_of_nil in Ha|].
  destruct Hk as [Hk|Hk]; [by left|right; by apply Hb].
Qed.

(** ** The start of a block *)

Section Begin.
Context {C : Type} `{CoinKeeper C} `{!CoinKeeperLaws C} `{!DelegationKeeper C} `{!DelegationKeeperLaws C}.
Context `{!StakingHooks C} `{cfgS : StakingConfig} `{wbS : !WindowBound} `{engS : !Engine}.
Context (bonded notBonded : string) `{!StakingLaws C bonded notBonded} (Hw : weights_ok).
Implicit Types (s : StakingState (Slashed C)).

#[local] Abbreviation SI B := (staking_inv (K := Slashed C) (bansS := B) bonded notBonded).
#[local] Abbreviation vals_of s := (vs_validators (sg_vals s)).

(** What the votes and the evidence of a block do. *)
Record begun_block ctx s s' : Prop := {
  bb_slash : slash_inv (slashing_of s');
  bb_status : same_status s s';
  bb_blocked c : blocked ctx (slashing_of s) c → blocked ctx (slashing_of s') c;
  bb_inv (B : Bans) lost : SI B lost s → (∀ c, blocked ctx (slashing_of s') c → @banned B c) → SI B lost s' }.
Lemma begun_refl ctx s : slash_inv (slashing_of s) → begun_block ctx s s.
Proof. intros Hl. split; [done|reflexivity|done|done]. Qed.
Lemma begun_trans ctx s1 s2 s3 : begun_block ctx s1 s2 → begun_block ctx s2 s3 → begun_block ctx s1 s3.
Proof.
  intros [A1 A2 A3 A4] [B1 B2 B3 B4]. split; [done|by etransitivity|auto|]. intros B lost I Hb. eauto.
Qed.

Lemma begun_signature ctx c p signed lost s u s' :
  SI all_banned lost s → slash_inv (slashing_of s) → voter_ok c s →
  HandleValidatorSignature ctx c p signed s = (Ok u, s') → begun_block ctx s s'.
Proof.
  intros I Hl Hv E. destruct (HandleSignature_Ok bonded notBonded _ _ _ _ _ _ _ _ I Hl E) as (i & m & n & Hs). split.
  - by eapply slash_signed.
  - by eapply signed_status.
  - intros c'. by eapply blocked_signed.
  - intros B lost' I' Hb. by eapply (inv_signed bonded notBonded).
Qed.

(** A loop of such steps. *)
Lemma begun_loop {A} ctx (f : A → M (StakingState (Slashed C)) unit) (ok : A → StakingState (Slashed C) → Prop) l lost :
  (∀ a s u s', SI all_banned lost s → slash_inv (slashing_of s) → ok a s → f a s = (Ok u, s') → begun_block ctx s s') →
  (∀ a s s', same_status s s' → ok a s → ok a s') →
  ∀ s u s', SI all_banned lost s → slash_inv (slashing_of s) → (∀ a, a ∈ l → ok a s) →
  for_each f l s = (Ok u, s') → begun_block ctx s s'.
Proof.
  intros Hf Hok. induction l as [|a l IH]; intros s u s' I Hl Ha; cbn [for_each].
  - intros [_ ->]%mret_Ok. by apply begun_refl.
  - intros (u1 & s1 & H1 & H2)%M_bind_Ok. apply Hf in H1; [|done|done|apply Ha; by left].
    eapply begun_trans; [done|]. eapply (IH s1); [|apply H1| |exact H2].
    + by apply (bb_inv _ _ _ H1).
    + intros b Hb. eapply Hok; [apply H1|]. apply Ha. by right.
Qed.

Lemma begun_votes ctx votes lost s u s' :
  SI all_banned lost s → slash_inv (slashing_of s) → (∀ v, v ∈ votes → voter_ok (Vt_Address v) s) →
  slashing_BeginBlocker ctx votes s = (Ok u, s') → begun_block ctx s s'.
Proof.
  intros I Hl Hv. unfold slashing_BeginBlocker.
  apply (begun_loop ctx _ (λ v s, voter_ok (Vt_Address v) s) votes lost); try done.
  - intros v t u1 t' I1 Hl1 Hv1. by apply (begun_signature _ _ _ _ lost).
  - intros v t t'. apply voter_status.
Qed.

(** The evidence module kicks a validator out before it jails it. *)
Lemma inv_convict B lost s a v u1 s1 u2 s2 :
  SI B lost s → vals_of s !! a = Some v → Va_Status v ≠ Unbonded → @banned B (ConsAddress v) →
  AppendAbandonedValidatorAddrs (ConsAddress v) s = (Ok u1, s1) →
  (if negb (Va_Jailed v) then Jail (ConsAddress v) else mret ()) s1 = (Ok u2, s2) →
  SI B lost s2 ∧ same_status s s2 ∧ sg_k s2 = sg_k s.
Proof.
  intros I Hv Hs Hb HA HJ. pose proof (proj1 (vt_vals _ _ _ (sv_votes _ _ _ _ I))) as Hi.
  pose proof (ii_key _ _ _ _ Hi _ _ Hv) as Ka.
  assert (vs_byConsAddr (sg_vals s) !! ConsAddress v = Some a) as Hc by (apply (ii_cons _ _ _ _ Hi); eauto).
  pose proof HA as HA0. unfold AppendAbandonedValidatorAddrs in HA.
  rewrite (M_bind_run _ _ _ _ _ (mustGetByCons_run s v a Hc Hv)) in HA. cbn in HA. injection HA as <- <-.
  destruct (Va_Jailed v) eqn:Hj; cbn [negb] in HJ.
  - apply mret_Ok in HJ as [_ ->]. split_and!; [|by intros b w Hw'; eauto|done].
    eapply (inv_AppendAbandoned bonded notBonded lost); [exact I| |exact HA0]. intros b w Hw' Hcw.
    assert (vs_byConsAddr (sg_vals s) !! ConsAddress v = Some b) by (apply (ii_cons _ _ _ _ Hi); eauto).
    assert (b = a) as -> by congruence. rewrite Hv in Hw'. injection Hw' as <-. split_and!; [done|done|by right].
  - unfold Jail in HJ. erewrite M_bind_run in HJ; [|by apply (mustGetByCons_run _ _ a)].
    unfold jailValidator in HJ. rewrite Hj in HJ. cbn in HJ. injection HJ as <- <-. split_and!; [| |done].
    + eapply (inv_punish bonded notBonded lost s a v () (sg_set_vals (vs_set_powerIndex (delete (getValidatorPowerRank v))
        (vs_set_validators <[Va_OperatorAddress v := va_set_jailed true v]> (sg_vals s))) s)); try done.
      * unfold Jail. rewrite (M_bind_run _ _ _ _ _ (mustGetByCons_run s v a Hc Hv)). unfold jailValidator. by rewrite Hj.
      * unfold AppendAbandonedValidatorAddrs. change (ConsAddress v) with (ConsAddress (va_set_jailed true v)).
        erewrite M_bind_run; [|apply (mustGetByCons_run _ _ a)].
        -- reflexivity.
        -- exact Hc.
        -- cbn. by rewrite Ka, lookup_insert_eq.
    + intros b w. cbn. rewrite Ka. intros [[<- <-]|[_ Hw']]%lookup_insert_Some; eauto.
Qed.

Lemma begun_evidence ctx maxAge e lost s u s' :
  SI all_banned lost s → slash_inv (slashing_of s) →
  HandleDoubleSign ctx maxAge e s = (Ok u, s') → begun_block ctx s s'.
Proof.
  intros I Hl. unfold HandleDoubleSign. set (c := Ev_ConsensusAddress e).
  intros (known & s1 & H1 & H2)%M_bind_Ok. apply gets_Ok in H1 as [-> ->].
  destruct (negb _); [apply mret_Ok in H2 as [_ ->]; by apply begun_refl|].
  destruct (_ >? maxAge); [apply mret_Ok in H2 as [_ ->]; by apply begun_refl|].
  apply M_bind_Ok in H2 as (o & s1 & H1 & H2). apply (GetByCons_Ok (bansS := all_banned) bonded notBonded lost) in H1 as [-> Ho]; [|done].
  destruct o as [v|]; [|apply mret_Ok in H2 as [_ ->]; by apply begun_refl]. destruct Ho as (a & Hv & Hc & Ka).
  destruct (IsUnbonded v) eqn:Hu; [apply mret_Ok in H2 as [_ ->]; by apply begun_refl|].
  unfold IsUnbonded in Hu. apply bool_decide_eq_false in Hu.
  apply M_bind_Ok in H2 as (has & s1 & H1 & H2). apply gets_Ok in H1 as [-> ->].
  apply M_bind_Ok in H2 as (u1 & s1 & H1 & H2). apply panic_if_Ok in H1 as [Hhas ->].
  apply M_bind_Ok in H2 as (tomb & s1 & H1 & H2). apply gets_Ok in H1 as [-> ->].
  destruct (IsTombstoned c (slashing_of s)) eqn:Ht; [apply mret_Ok in H2 as [_ ->]; by apply begun_refl|].
  unfold HasValidatorSigningInfo in Hhas. apply negb_false_iff, bool_decide_eq_true in Hhas as [i Hi].
  apply M_bind_Ok in H2 as (u2 & s1 & H1 & H2). apply M_bind_Ok in H2 as (u3 & s2 & H3 & H2).
  rewrite <- Hc in H1, H3.
  assert (∀ B lost', SI B lost' s → @banned B c → SI B lost' s2 ∧ same_status s s2 ∧ sg_k s2 = sg_k s) as Hconv.
  { intros B lost' I' Hb. eapply (inv_convict B lost' s a v); try done. by rewrite Hc. }
  destruct (Hconv all_banned lost I) as (I2 & Hst & Ek); [done|].
  apply M_bind_Ok in H2 as (u4 & s3 & H4 & H2). apply in_slashing_Ok in H4 as (l3 & H4 & ->).
  apply in_slashing_Ok in H2 as (l4 & H2 & ->).
  assert (slashing_of s2 = slashing_of s) as El by (unfold slashing_of; by rewrite Ek). rewrite El in H4.
  assert (l4 = mkSlashing (ls_pubkeys (slashing_of s))
    (<[c := si_set_tombstoned (si_set_jailed DoubleSignJailEndTime i)]> (ls_infos (slashing_of s)))
    (ls_missed (slashing_of s)) (ls_params (slashing_of s))) as ->.
  { clear -Hi Ht H4 H2. unfold JailUntil, GetValidatorSigningInfo, gets in H4. unfold mbind, M_bind in H4.
    rewrite Hi in H4. cbn in H4. injection H4 as _ <-. unfold IsTombstoned in Ht. rewrite Hi in Ht.
    unfold Tombstone, GetValidatorSigningInfo, gets in H2. unfold mbind, M_bind in H2. cbn in H2.
    rewrite lookup_insert_eq in H2. cbn in H2. rewrite Ht in H2. cbn in H2. injection H2 as _ <-.
    by rewrite insert_insert_eq. }
  assert (∀ c', blocked ctx (slashing_of s) c' → blocked ctx (mkSlashing (ls_pubkeys (slashing_of s))
    (<[c := si_set_tombstoned (si_set_jailed DoubleSignJailEndTime i)]> (ls_infos (slashing_of s)))
    (ls_missed (slashing_of s)) (ls_params (slashing_of s))) c') as Hmono.
  { intros c' (i' & Hi' & Hb). unfold blocked. cbn. destruct (decide (c' = c)) as [->|Hne].
    - rewrite lookup_insert_eq. eexists. split; [done|]. by right.
    - rewrite lookup_insert_ne by done. eauto. }
  split; cbn [slashing_of put_slashing sg_k sg_set_k sd_slashing sd_set_slashing].
  - destruct Hl as [L1 L2 L3 L4]. split; cbn; try done.
    + intros c' i' [[<- <-]|[_ Hi']]%lookup_insert_Some; [|by apply L3]. cbn. by apply L3.
    + intros c' j b Hb. destruct (L4 _ _ _ Hb) as [Hx Hr]. split; [|done]. apply lookup_insert_is_Some.
      destruct (decide (c = c')); auto.
  - exact Hst.
  - exact Hmono.
  - intros B lost' I' Hb. apply inv_put_slashing, inv_put_slashing. apply (Hconv B lost' I'). apply Hb.
    unfold blocked. cbn. rewrite lookup_insert_eq. eexists. split; [done|]. by right.
Qed.

Lemma begun_evidences ctx maxAge l lost s u s' :
  SI all_banned lost s → slash_inv (slashing_of s) →
  evidence_BeginBlocker ctx maxAge l s = (Ok u, s') → begun_block ctx s s'.
Proof.
  intros I Hl. unfold evidence_BeginBlocker. apply (begun_loop ctx _ (λ _ _, True) l lost); try done.
  intros e t u1 t' I1 Hl1 _. by apply (begun_evidence _ _ _ lost).
Qed.

(** ** Leaving jail *)

Lemma inv_handleMsgUnjail ctx (B : Bans) lost a s u s' :
  SI B lost s → (∀ c, @banned B c → blocked ctx (slashing_of s) c) →
  handleMsgUnjail ctx a s = (Ok u, s') → SI B lost s' ∧ sg_k s' = sg_k s.
Proof.
  intros I Hb. unfold handleMsgUnjail. intros (o & s1 & H1 & H2)%M_bind_Ok. apply gets_Ok in H1 as [-> ->].
  destruct (vals_of s !! a) as [v|] eqn:Hv; [|by apply fail_Ok in H2].
  apply M_bind_Ok in H2 as (u1 & s1 & H1 & H2). apply guard_not_Ok in H1 as [Hm ->].
  unfold slashing_Unjail in H2. apply M_bind_Ok in H2 as (o & s1 & H1 & H2). apply gets_Ok in H1 as [-> ->].
  rewrite Hv in H2. apply M_bind_Ok in H2 as (u2 & s1 & H1 & H2). apply guard_not_Ok in H1 as [_ ->].
  apply M_bind_Ok in H2 as (o & s1 & H1 & H2). apply in_slashing_Ok in H1 as (l & H1 & ->).
  apply gets_Ok in H1 as [-> ->]. rewrite put_slashing_id in H2.
  destruct (ls_infos (slashing_of s) !! ConsAddress v) as [i|] eqn:Hi; [|by apply fail_Ok in H2].
  apply M_bind_Ok in H2 as (u3 & s1 & H1 & H2). apply guard_not_Ok in H1 as [_ ->].
  apply M_bind_Ok in H2 as (u4 & s1 & H1 & H2). apply guard_not_Ok in H1 as [Htomb ->].
  apply M_bind_Ok in H2 as (u5 & s1 & H1 & H2). apply guard_not_Ok in H1 as [Htime ->].
  apply Z.ltb_ge in Htime. split.
  - eapply (inv_Unjail bonded notBonded lost); [exact I| |exact H2]. intros b w Hw' Hcw.
    pose proof (proj1 (vt_vals _ _ _ (sv_votes _ _ _ _ I))) as Hix.
    assert (vs_byConsAddr (sg_vals s) !! ConsAddress v = Some a) by (apply (ii_cons _ _ _ _ Hix); eauto).
    assert (vs_byConsAddr (sg_vals s) !! ConsAddress v = Some b) by (apply (ii_cons _ _ _ _ Hix); eauto).
    assert (b = a) as -> by congruence. rewrite Hv in Hw'. injection Hw' as <-. split.
    + intros E. rewrite E in Hm. done.
    + intros (i' & Hi' & Hbl)%Hb. rewrite Hi in Hi'. injection Hi' as <-. destruct Hbl; [lia|congruence].
  - unfold Unjail in H2. apply M_bind_Ok in H2 as (w & s1 & H1 & H2).
    pose proof (mustGetByCons_Ok bonded notBonded lost s v w s1 I) as Hg.
    rewrite (ii_key _ _ _ _ (proj1 (vt_vals _ _ _ (sv_votes _ _ _ _ I))) _ _ Hv) in Hg.
    destruct (Hg Hv H1) as [-> ->]. clear -H2.
    unfold unjailValidator, SetValidatorByPowerIndex in H2. cbn [Va_Jailed va_set_jailed] in H2. st_inv. done.
Qed.

End Begin.
