(* ===== verification/StakingRun.v ===== *)
(** * Staking: blocks

    Messages, penalties and the end of a block put together: what holds of
    the module along a chain of blocks. *)
From S2P Require Import Prelude Decimal Denom Coins Bank CoinKeeper DecStr Token Staking StakingVals StakingVotes StakingProps StakingMsgs StakingSet StakingElect StakingEnd StakingFrame Slashing SlashingProps.
#[local] Open Scope Z_scope.

(** ** Messages *)

Definition staking_signer (msg : StakingMsg) : string :=
  match msg with
  | MsgCreateValidator_ m => Mc_DelegatorAddress m
  | MsgEditValidator _ a | MsgEditValidatorCommissionRate _ a => a
  | MsgDeposit a _ | MsgWithdraw a _ | MsgAddShares a _ | MsgBindProxy a _ | MsgUnbindProxy a
  | MsgRegProxy a _ | MsgDestroyValidator a => a
  end.

Lemma isValsDuplicate_loop_NoDup l : ∀ seen,
  isValsDuplicate_loop l seen = false → NoDup l ∧ ∀ a, a ∈ l → a ∉ seen.
Proof.
  induction l as [|a l IH]; intros seen; cbn [isValsDuplicate_loop].
  - intros _. split; [apply NoDup_nil_2|]. by intros a ?%not_elem_of_nil.
  - case_bool_decide as Ha; [done|]. intros [Hd Hs]%IH. split.
    + apply NoDup_cons. split; [|done]. intros Hin%Hs. set_solver.
    + intros b [->|Hb]%elem_of_cons; [done|]. apply Hs in Hb. set_solver.
Qed.
Lemma isValsDuplicate_NoDup l : isValsDuplicate l = false → NoDup l.
Proof. by intros [? _]%isValsDuplicate_loop_NoDup. Qed.

Section Messages.
Context {K : Type} `{CoinKeeper K} `{!CoinKeeperLaws K} `{!DelegationKeeper K} `{!DelegationKeeperLaws K}.
Context `{!StakingHooks K} `{cfgS : StakingConfig} `{bansS : !Bans} `{engS : !Engine}.
Context (bonded notBonded : string) `{!StakingLaws K bonded notBonded} (Hw : weights_ok).
Implicit Types (s : StakingState K).

#[local] Abbreviation SI := (staking_inv bonded notBonded).

(** What a message leaves in the pool without an owner: the undelegation of a
    validator that was pending when its deposit is undelegated. *)
Definition stranded (msg : StakingMsg) s : Z :=
  match msg with
  | MsgDestroyValidator a => at_key Ud_Quantity (st_undelegations (sg_stakes s) !! a)
  | _ => 0
  end.

(** A message is checked, and then handled. *)
Definition staking_deliver (globalHeight : Z) (ctx : Ctx) (msg : StakingMsg) : M (StakingState K) unit :=
  _ ← lift (StakingMsg_ValidateBasic globalHeight msg);
  staking_NewHandler ctx msg.

Lemma inv_deliver lost h ctx msg s u s' :
  SI lost s → outsider bonded notBonded (staking_signer msg) → staking_deliver h ctx msg s = (Ok u, s') →
  SI (lost + stranded msg s) s'.
Proof.
  intros I Ho. unfold staking_deliver. intros (u1 & s1 & H1 & H2)%M_bind_Ok. apply lift_Ok in H1 as [Hv ->].
  unfold staking_NewHandler in H2. apply M_bind_Ok in H2 as (en & s1 & H1 & H2). apply gets_Ok in H1 as [-> ->].
  apply M_bind_Ok in H2 as (u2 & s1 & H1 & H2). apply guard_not_Ok in H1 as [_ ->].
  destruct msg; cbn [staking_signer stranded] in *; rewrite ?Z.add_0_r.
  - by eapply inv_handleMsgCreateValidator.
  - by eapply inv_handleMsgEditValidator.
  - destruct (HigherThanVenus2 _); [|by apply fail_Ok in H2]. by eapply inv_handleMsgEditValidatorCommissionRate.
  - unfold handleMsgDeposit in H2. apply M_bind_Ok in H2 as (u3 & s1 & H1 & H2). apply guard_not_Ok in H1 as [Hd ->].
    apply negb_false_iff, String.eqb_eq in Hd. by eapply (inv_Delegate bonded notBonded Hw).
  - unfold handleMsgWithdraw in H2. apply M_bind_Ok in H2 as (u3 & s1 & H1 & H2). apply guard_not_Ok in H1 as [Hd ->].
    apply negb_false_iff, String.eqb_eq in Hd. apply M_bind_Ok in H2 as (t & s1 & H1 & H2). apply mret_Ok in H2 as [_ ->].
    by eapply (inv_Withdraw bonded notBonded Hw).
  - eapply (inv_handleMsgAddShares bonded notBonded Hw); [done| |done]. apply isValsDuplicate_NoDup.
    cbn in Hv. unfold MsgAddShares_ValidateBasic in Hv. repeat case_match; try done.
  - by eapply (inv_handleMsgBindProxy bonded notBonded Hw).
  - by eapply (inv_unbindProxy bonded notBonded Hw) in H2 as [? _].
  - unfold handleRegProxy in H2. destruct reg; [by eapply (inv_regProxy bonded notBonded Hw)|].
    by eapply (inv_unregProxy bonded notBonded Hw).
  - by eapply inv_handleMsgDestroyValidator.
Qed.

End Messages.

(** ** The registered invariants *)

Lemma sumDecs_Ok l : ∀ acc r, sumDecs acc l = Ok r → r = acc + foldr (λ x y, x + y) 0 l.
Proof.
  induction l as [|x l IH]; intros acc r; cbn [sumDecs foldr].
  - intros [= ->]. lia.
  - intros (y & ->%checkDec_value & Hr)%outcome_bind_Ok. apply IH in Hr. lia.
Qed.

Lemma map_sum_omap {V W} (f : W → Z) (g : V → option W) (m : gmap string V) :
  map_sum f (omap g m) = map_sum (λ v, at_key f (g v)) m.
Proof.
  induction m as [|k v m Hk IH] using map_ind; [by rewrite omap_empty, !map_sum_empty|].
  rewrite (map_sum_fresh _ m) by done. rewrite <- IH. destruct (g v) as [w|] eqn:Hg; cbn.
  - rewrite (omap_insert_Some g m k v w), map_sum_fresh; [done|by rewrite lookup_omap, Hk|done].
  - rewrite omap_insert_None, delete_id by (rewrite ?lookup_omap, ?Hk; done). lia.
Qed.

Lemma foldr_map_sum {V} (f : V → Z) (m : gmap string V) (l : list (string * V)) :
  l ≡ₚ map_to_list m → foldr (λ x y, x + y) 0 ((λ x, f x.2) <$> l) = map_sum f m.
Proof.
  intros Hp. rewrite <- (store_iterate_sum f m).
  rewrite (foldr_sum_perm (λ x, f x.2) _ _ (store_iterate_perm m)), <- (foldr_sum_perm (λ x, f x.2) _ _ Hp). clear Hp.
  induction l as [|x l IH]; cbn; [done|by rewrite IH].
Qed.
Lemma sum_iterate {V} (f : V → Z) (m : gmap string V) :
  foldr (λ x y, x + y) 0 ((λ x : string * V, f x.2) <$> store_iterate m) = map_sum f m.
Proof. apply foldr_map_sum, store_iterate_perm. Qed.

Section Registered.
Context {K : Type} `{CoinKeeper K} `{!CoinKeeperLaws K} `{!DelegationKeeper K} `{!StakingHooks K}.
Context `{cfgS : StakingConfig} `{bansS : !Bans} `{engS : !Engine} (bonded notBonded : string).
Implicit Types (s : StakingState K).

#[local] Abbreviation SI := (staking_inv bonded notBonded).
#[local] Abbreviation vals_of s := (vs_validators (sg_vals s)).

(** The shares in the store of a validator add up to what was voted for it. *)
Lemma AllShares_sum lost s a :
  SI lost s → foldr (λ x y, x + y) 0 ((GetValidatorAllShares a s).*2)
    = map_sum (shares_to a) (st_delegators (sg_stakes s)).
Proof.
  intros I. pose proof (sv_votes _ _ _ _ I) as V.
  set (pick := λ d : Delegator, if bool_decide (a ∈ De_ValidatorAddresses d) then Some (De_Shares d) else None).
  transitivity (map_sum id (omap pick (st_delegators (sg_stakes s)))).
  - apply (foldr_map_sum id). unfold GetValidatorAllShares. rewrite merge_sort_Permutation.
    apply NoDup_Permutation.
    + apply NoDup_fmap_1 with (f := λ x : string * Dec, (a, x.1)).
      set (l := omap _ _).
      assert (((λ x : string * Dec, (a, x.1)) <$> l) `sublist_of` (map_to_list (st_shares (sg_stakes s))).*1) as Hs.
      { unfold l. clear. induction (map_to_list (st_shares (sg_stakes s))) as [|[[b c] x] m IH]; cbn; [done|].
        destruct (String.eqb_spec b a) as [->|]; cbn; by constructor. }
      eapply sublist_NoDup; [|exact Hs]. apply NoDup_fst_map_to_list.
    + apply NoDup_map_to_list.
    + intros [b x]. rewrite elem_of_map_to_list, list_elem_of_omap, lookup_omap.
      split.
      * intros ([[a' b'] x'] & Hx & Hc). cbn in Hc. destruct (String.eqb_spec a' a) as [->|]; [|done]. injection Hc as -> ->.
        apply elem_of_map_to_list, (vt_shares _ _ _ V) in Hx as (d & Hd & Hin & ->). rewrite Hd. cbn. unfold pick.
        by rewrite bool_decide_true.
      * intros Hx. destruct (st_delegators (sg_stakes s) !! b) as [d|] eqn:Hd; [|done]. cbn in Hx. unfold pick in Hx.
        case_bool_decide as Hin; [|done]. injection Hx as <-. exists ((a, b), De_Shares d). split.
        -- apply elem_of_map_to_list, (vt_shares _ _ _ V). eauto.
        -- cbn. by rewrite String.eqb_refl.
  - rewrite map_sum_omap. apply map_sum_ext. intros b d _. unfold pick, shares_to. by case_bool_decide.
Qed.

Lemma elem_of_AllValidators s v : v ∈ GetAllValidators s → ∃ a, vals_of s !! a = Some v.
Proof. intros ([a w] & -> & Hw'%elem_of_store_iterate)%list_elem_of_fmap. eauto. Qed.

Lemma AddSharesInvariant_kept lost s b : SI lost s → DelegatorAddSharesInvariant s = Ok b → b = false.
Proof.
  intros I. pose proof (proj1 (vt_vals _ _ _ (sv_votes _ _ _ _ I))) as Hi. unfold DelegatorAddSharesInvariant.
  assert (∀ v, v ∈ GetAllValidators s → ∃ a, vals_of s !! a = Some v) as Hall by apply elem_of_AllValidators.
  revert b. induction (GetAllValidators s) as [|v l IH]; intros b; cbn [DelegatorAddSharesInvariant_loop]; [by intros [= <-]|].
  intros (tot & Ht & (rest & Hr & Hb)%outcome_bind_Ok)%outcome_bind_Ok.
  apply IH in Hr as ->; [|intros w Hw'; apply Hall; by right]. injection Hb as <-.
  destruct (Hall v) as [a Hv]; [by left|]. destruct (ii_val _ _ _ _ Hi _ _ Hv) as [V1 V2 V3 V4 V5 V6].
  rewrite (ii_key _ _ _ _ Hi _ _ Hv) in Ht. apply sumDecs_Ok in Ht. rewrite (AllShares_sum lost) in Ht by done.
  rewrite orb_false_r. apply negb_false_iff. unfold Dec_Equal. apply Z.eqb_eq. rewrite V1, Ht. unfold msd_base.
  destruct (Z.eqb_spec (Va_MinSelfDelegation v) 0) as [Ez|Ez].
  - rewrite (V3 Ez). unfold Dec_Equal. rewrite Ez. cbn. change ZeroDec with 0. lia.
  - unfold Dec_Equal. change ZeroDec with 0. destruct (Z.eqb_spec (Va_MinSelfDelegation v) 0); [done|]. cbn.
    unfold getSharesFromDefaultMinSelfDelegation. lia.
Qed.

Lemma PositiveDelegator_kept lost s : SI lost s → PositiveDelegatorInvariant s = false.
Proof.
  intros I. unfold PositiveDelegatorInvariant. apply not_true_iff_false. rewrite existsb_exists.
  intros (d & Hd & Hx). rewrite <- list_elem_of_In in Hd.
  apply list_elem_of_fmap in Hd as ([a d'] & -> & Hd%elem_of_store_iterate).
  pose proof (pr_tokens _ _ (sv_proxy _ _ _ _ I) _ _ Hd) as Hp. cbn in Hx. rewrite Dec_IsNegative_eq, Dec_IsZero_eq in Hx.
  apply orb_true_iff in Hx as [Hx|Hx]; [apply Z.ltb_lt in Hx|apply Z.eqb_eq in Hx]; lia.
Qed.

Lemma NonNegativePower_kept lost s : SI lost s → NonNegativePowerInvariantCustom s = Ok false.
Proof.
  intros I. pose proof (proj1 (vt_vals _ _ _ (sv_votes _ _ _ _ I))) as Hi. unfold NonNegativePowerInvariantCustom.
  assert (∀ k a, (k, a) ∈ reverse (store_iterate (vs_powerIndex (sg_vals s))) →
    ∃ v, vals_of s !! a = Some v ∧ k = getValidatorPowerRank v) as Hall.
  { intros k a. rewrite elem_of_reverse, elem_of_store_iterate. intros (v & Hv & _ & ->)%(ii_index _ _ _ _ Hi). eauto. }
  induction (reverse _) as [|[k a] l IH]; cbn [NonNegativePowerInvariant_loop]; [done|].
  destruct (Hall k a) as (v & Hv & ->); [by left|]. rewrite Hv, IH by (intros k' a' Hin; apply Hall; by right). cbn.
  rewrite String.eqb_refl, Dec_IsNegative_eq. destruct (ii_val _ _ _ _ Hi _ _ Hv) as [V1 V2 V3 V4 V5 V6].
  pose proof (ii_nonneg _ _ _ _ Hi a). assert (0 ≤ msd_base v) by (unfold msd_base; by destruct (_ =? 0)).
  destruct (Z.ltb_spec (Va_DelegatorShares v) 0); [lia|done].
Qed.

(** The pools are compared with the records: what tells them apart is what
    has no owner. *)
Lemma ModuleAccount_kept lost s c1 c2 k1 k2 b :
  SI lost s → ck_GetCoins bonded (sg_k s) = (Ok c1, k1) → ck_GetCoins notBonded (sg_k s) = (Ok c2, k2) →
  ModuleAccountInvariantsCustom c1 c2 s = Ok b → b = negb (lost =? 0).
Proof.
  intros I H1 H2. pose proof (sv_money _ _ _ _ I) as [M1 M2 M3].
  apply law_GetCoins in H1 as (_ & A1 & W1). apply law_GetCoins in H2 as (_ & A2 & W2). specialize (W1 M1). specialize (W2 M1).
  unfold ModuleAccountInvariantsCustom. intros (x1 & Hx1 & (x2 & Hx2 & (x3 & Hx3 & (p1 & Hp1 & (p2 & Hp2 & [= <-])%outcome_bind_Ok)%outcome_bind_Ok)%outcome_bind_Ok)%outcome_bind_Ok)%outcome_bind_Ok.
  apply sumDecs_Ok in Hx1, Hx2, Hx3.
  unfold GetAllValidators in Hx1. rewrite <- list_fmap_compose in Hx1.
  pose proof (sum_iterate Va_MinSelfDelegation (vals_of s)) as S1.
  pose proof (sum_iterate De_Tokens (st_delegators (sg_stakes s))) as S2.
  pose proof (sum_iterate Ud_Quantity (st_undelegations (sg_stakes s))) as S3.
  unfold compose in *. rewrite S1 in Hx1. rewrite S2 in Hx2. rewrite S3 in Hx3.
  rewrite (AmountOf_eq c1 DefaultBondDenom) in Hp1 by (try apply W1; done). injection Hp1 as <-.
  rewrite (AmountOf_eq c2 DefaultBondDenom) in Hp2 by (try apply W2; done). injection Hp2 as <-.
  rewrite A1, A2, M2, M3. unfold Dec_Equal. change ZeroDec with 0 in *.
  destruct (Z.eqb_spec (map_sum De_Tokens (st_delegators (sg_stakes s)) + map_sum Va_MinSelfDelegation (vals_of s)) x2);
    [|lia]. cbn.
  destruct (Z.eqb_spec (map_sum Ud_Quantity (st_undelegations (sg_stakes s)) + lost) x3), (Z.eqb_spec lost 0); lia || done.
Qed.

End Registered.

(** ** Blocks *)

Section Blocks.
Context {C : Type} `{CoinKeeper C} `{!CoinKeeperLaws C} `{!DelegationKeeper C} `{!DelegationKeeperLaws C}.
Context `{!StakingHooks C} `{cfgS : StakingConfig} `{wbS : !WindowBound}.
Context (bonded notBonded : string) `{!StakingLaws C bonded notBonded} (Hw : weights_ok).
Implicit Types (s : StakingState (Slashed C)).

#[local] Abbreviation SI E B := (staking_inv (K := Slashed C) (bansS := B) (engS := E) bonded notBonded).
#[local] Abbreviation vals_of s := (vs_validators (sg_vals s)).
#[local] Abbreviation last_of s := (vs_lastPowers (sg_vals s)).

(** What other modules do: the stores of the two modules and the coins of the
    pools stay. *)
Definition elsewhere s s' : Prop :=
  ∃ c', keeps bonded notBonded (sd_base (sg_k s)) c' ∧ s' = sg_set_k (sd_set_base c' (sg_k s)) s.

Definition sg_set_params (p : StakingParams) s : StakingState (Slashed C) :=
  mkStakingState (sg_k s) (sg_stakes s) (sg_vals s) p.
(** What proposals do to the parameters of the two modules. *)
Definition set_params (sp : StakingParams) (lp : SlashingParams) s : StakingState (Slashed C) :=
  sg_set_params sp (put_slashing (ls_set_params lp (slashing_of s)) s).

(** What happens between the start and the end of a block: messages, changes
    of the parameters to values that the modules accept, and what other
    modules do.  The number is what is left without an owner. *)
Inductive block_step (ctx : Ctx) : Z → StakingState (Slashed C) → StakingState (Slashed C) → Prop :=
  | bs_staking h msg s s' :
      outsider bonded notBonded (staking_signer msg) → staking_deliver h ctx msg s = (Ok (), s') →
      block_step ctx (stranded msg s) s s'
  | bs_unjail a s s' : handleMsgUnjail ctx a s = (Ok (), s') → block_step ctx 0 s s'
  | bs_params sp lp s :
      params_inv sp → slashing_params_ok lp → block_step ctx 0 s (set_params sp lp s)
  | bs_other s s' : elsewhere s s' → block_step ctx 0 s s'.
Inductive block_steps (ctx : Ctx) : Z → StakingState (Slashed C) → StakingState (Slashed C) → Prop :=
  | bss_nil s : block_steps ctx 0 s s
  | bss_cons x y s s1 s' : block_step ctx x s s1 → block_steps ctx y s1 s' → block_steps ctx (x + y) s s'.

(** A block: the votes on the one before, which are of validators that have
    not finished unbonding, and the evidence, with what other modules do at
    the start; then the steps, and the end, whose updates go to the consensus
    engine. *)
Inductive staking_block : gmap PubKey Z * Z * StakingState (Slashed C) →
    gmap PubKey Z * Z * StakingState (Slashed C) → Prop :=
  | sb_block ctx votes maxAge evidence E lost x us s s0 s1 s1' s2 s3 s4 :
      (∀ v, v ∈ votes → voter_ok (Vt_Address v) s) →
      elsewhere s s0 →
      slashing_BeginBlocker ctx votes s0 = (Ok (), s1) →
      elsewhere s1 s1' →
      evidence_BeginBlocker ctx maxAge evidence s1' = (Ok (), s2) →
      block_steps ctx x s2 s3 →
      staking_EndBlocker ctx s3 = (Ok us, s4) →
      staking_block (E, lost, s) (engine_apply E us, lost + x, s4).

(** Between blocks: [E] is the set of the consensus engine, and [lost] what
    the pool of undelegations holds without an owner. *)
Record chain_inv (E : gmap PubKey Z) (lost : Z) s : Prop := {
  ch_inv : SI E all_banned lost s;
  ch_abandoned : vs_abandoned (sg_vals s) = [];
  ch_slash : slash_inv (slashing_of s) }.

(** ** Within a block *)

Lemma frames_step {A} (m : M (StakingState (Slashed C)) A) s a s' :
  frames (behind_k hooked_by anything) m → m s = (Ok a, s') → hooked (slashing_of s) (slashing_of s').
Proof. intros F E. exact (be_k _ _ _ _ _ _ (frames_run _ _ _ _ _ F E)). Qed.

Lemma deliver_hooked h ctx msg s u s' :
  staking_deliver h ctx msg s = (Ok u, s') → hooked (slashing_of s) (slashing_of s').
Proof.
  intros E. eapply frames_step; [|exact E]. unfold staking_deliver.
  apply (fr_ValidateDeliver hooked_by every_hook); intros; first [done|apply frames_hook|apply frames_on_base].
Qed.

(** Before the end of a block. *)
Record in_block (E : Engine) (B : Bans) (lost : Z) s : Prop := {
  ib_inv : SI E B lost s;
  ib_slash : slash_inv (slashing_of s) }.

Lemma elsewhere_inv E B lost s s' : SI E B lost s → elsewhere s s' → SI E B lost s'.
Proof.
  intros [[M1 M2 M3] U P V Pa L] (c' & [W B1 N1] & ->). split; try done. split; cbn.
  - auto.
  - rewrite B1. exact M2.
  - rewrite N1. exact M3.
Qed.
Lemma elsewhere_slashing s s' : elsewhere s s' → slashing_of s' = slashing_of s ∧ sg_vals s' = sg_vals s.
Proof. by intros (c' & _ & ->). Qed.
Lemma elsewhere_refl s : elsewhere s s.
Proof. exists (sd_base (sg_k s)). split; [done|]. by destruct s as [[]]. Qed.

Lemma staking_step_inv ctx E B lost x s s' :
  block_step ctx x s s' → in_block E B lost s → (∀ c, @banned B c → blocked ctx (slashing_of s) c) →
  in_block E B (lost + x) s' ∧ (∀ c, @banned B c → blocked ctx (slashing_of s') c).
Proof.
  intros Hs. destruct Hs as [h msg s s' Ho Hr|a s s' Hr|sp lp s Hsp Hlp|s s' Hk]; intros [I Hl] Hb; rewrite ?Z.add_0_r.
  - pose proof (deliver_hooked _ _ _ _ _ _ Hr) as Hk. split; [split|].
    + by eapply (inv_deliver bonded notBonded Hw).
    + by eapply slash_hooked.
    + intros c Hc. eapply blocked_hooked; [exact Hk|auto].
  - destruct (inv_handleMsgUnjail bonded notBonded ctx B lost _ _ _ _ I Hb Hr) as [I' Ek].
    assert (slashing_of s' = slashing_of s) as El by (unfold slashing_of; by rewrite Ek).
    split; [split; [done|]|]; by rewrite El.
  - split; [split; [|by apply slash_params]|done].
    by destruct I as [[M1 M2 M3] U P V Pa L].
  - destruct (elsewhere_slashing _ _ Hk) as [El _]. split; [split; [by eapply elsewhere_inv|]|]; by rewrite El.
Qed.

Lemma block_steps_inv ctx E B x s s' :
  block_steps ctx x s s' → ∀ lost, in_block E B lost s → (∀ c, @banned B c → blocked ctx (slashing_of s) c) →
  in_block E B (lost + x) s' ∧ (∀ c, @banned B c → blocked ctx (slashing_of s') c).
Proof.
  induction 1 as [s|x y s s1 s' Hs _ IH]; intros lost I Hb; [by rewrite Z.add_0_r|].
  destruct (staking_step_inv _ _ _ _ _ _ _ Hs I Hb) as [I1 Hb1]. rewrite Z.add_assoc. by apply IH.
Qed.

(** A frame over the relation that always holds. *)
Ltac free := intros; first [done|exact _|intros ?; exact I].

(** Who was kicked out stays on the list until the block ends. *)
Lemma block_step_abandoned ctx x s s' a :
  block_step ctx x s s' → a ∈ vs_abandoned (sg_vals s) → a ∈ vs_abandoned (sg_vals s').
Proof.
  assert (∀ l (b : string), l ⊆ l ++ [b]) as Happ by (intros l b; apply list_subseteq_app_l; done).
  intros [h msg t t' Ho Hr|b t t' Hr|sp lp t _ _|t t' (_ & ->)%elsewhere_slashing]; [| |done|done].
  - assert (frames (behind_k (@anything (Slashed C)) (⊆)) (staking_deliver h ctx msg)) as F
      by (unfold staking_deliver; apply (fr_ValidateDeliver anything every_hook); free).
    destruct (frames_run _ _ _ _ _ F Hr) as [_ _ _ Hsub]. apply Hsub.
  - assert (frames (behind_k (@anything (Slashed C)) (⊆)) (handleMsgUnjail ctx b)) as F.
    { unfold handleMsgUnjail, slashing_Unjail, GetValidator, in_slashing.
      repeat first [apply fr_Unjail; free|apply frames_on_keeper; free|frame_step]. }
    destruct (frames_run _ _ _ _ _ F Hr) as [_ _ _ Hsub]. apply Hsub.
Qed.
Lemma block_steps_abandoned ctx x s s' a :
  block_steps ctx x s s' → a ∈ vs_abandoned (sg_vals s) → a ∈ vs_abandoned (sg_vals s').
Proof. induction 1 as [s|x y s s1 s' Hs _ IH]; [done|]. intros Ha. apply IH. by eapply block_step_abandoned. Qed.

(** The start of a block: from now on the blocked ones are banned. *)
Lemma elsewhere_chain E lost s s' : chain_inv E lost s → elsewhere s s' → chain_inv E lost s'.
Proof.
  intros [I Ha Hl] Hk. pose proof (elsewhere_inv _ _ _ _ _ I Hk) as I'. destruct (elsewhere_slashing _ _ Hk) as [El Ev].
  split; [done|by rewrite Ev|by rewrite El].
Qed.
Lemma elsewhere_voter c s s' : elsewhere s s' → voter_ok c s → voter_ok c s'.
Proof. intros [_ Ev]%elsewhere_slashing. unfold voter_ok. by rewrite Ev. Qed.
Lemma begun_elsewhere E ctx s s' :
  elsewhere s s' → slash_inv (slashing_of s) → begun_block (engS := E) bonded notBonded ctx s s'.
Proof.
  intros Hk Hl. destruct (elsewhere_slashing _ _ Hk) as [El Ev]. split; rewrite ?El; try done.
  - by apply same_vals_status.
  - intros B lost I _. by eapply elsewhere_inv.
Qed.
Lemma begin_inv ctx votes maxAge evidence E lost s u1 s1 s1' u2 s2 :
  chain_inv E lost s → (∀ v, v ∈ votes → voter_ok (Vt_Address v) s) →
  slashing_BeginBlocker ctx votes s = (Ok u1, s1) → elsewhere s1 s1' →
  evidence_BeginBlocker ctx maxAge evidence s1' = (Ok u2, s2) →
  in_block E (blocked ctx (slashing_of s2)) lost s2.
Proof.
  intros [I Ha Hl] Hv H1 Hk H2.
  pose proof (begun_votes (engS := E) bonded notBonded ctx votes lost s u1 s1 I Hl Hv H1) as B1.
  pose proof (begun_trans bonded notBonded _ _ _ _ B1 (begun_elsewhere E ctx _ _ Hk (bb_slash _ _ _ _ _ B1))) as B1'.
  assert (SI E all_banned lost s1') as I1 by (by apply (bb_inv _ _ _ _ _ B1')).
  pose proof (begun_evidences (engS := E) bonded notBonded ctx maxAge evidence lost s1' u2 s2 I1 (bb_slash _ _ _ _ _ B1') H2) as B2.
  split; [|apply B2]. pose proof (begun_trans _ _ _ _ _ _ B1' B2) as B3. apply (bb_inv _ _ _ _ _ B3); [|done].
  eapply bans_mono; [exact I|by left].
Qed.

(** The end of a block. *)
Lemma end_inv ctx E B lost s us s' :
  in_block E B lost s → staking_EndBlocker ctx s = (Ok us, s') →
  ended (bansS := B) (engS := E) bonded notBonded anything ctx lost s us s' ∧ chain_inv (engine_apply E us) lost s'.
Proof.
  intros [I Hl] Hr.
  pose proof (wp_EndBlocker (K := Slashed C) (bansS := B) (engS := E) bonded notBonded True
    (λ ctx t vs h k _ _, hooks_partial bonded notBonded ctx t vs h k) (λ f, False_ind _ (f Logic.I)) anything ltac:(free) ctx (λ _, True) lost s I
    ltac:(free) ltac:(free) (λ t vs c a v s _ _ _ _ _, hooks_partial bonded notBonded ctx t vs _ (sg_k s))
    ltac:(free) ltac:(free) (λ f, False_ind _ (f Logic.I))) as Hwp.
  pose proof (wp_Ok _ _ _ _ _ Hwp Hr) as Hend. split; [done|]. split.
  - eapply bans_mono; [apply Hend|]. by right.
  - apply Hend.
  - eapply slash_hooked; [exact Hl|]. eapply frames_step; [|exact Hr].
    apply (fr_EndBlocker hooked_by every_hook); intros; first [done|apply frames_hook|apply frames_on_base].
Qed.

(** Nobody on the list is in the next set. *)
Lemma end_out ctx E B lost s us s' a :
  in_block E B lost s → staking_EndBlocker ctx s = (Ok us, s') → a ∈ vs_abandoned (sg_vals s) → last_of s' !! a = None.
Proof.
  intros I Hr Ha. destruct (end_inv _ _ _ _ _ _ _ I Hr) as [He _]. destruct (ends_epoch ctx s) eqn:Hend.
  - destruct (last_of s' !! a) as [p|] eqn:Hp; [|done]. exfalso.
    destruct (es_in _ _ (en_elected _ _ _ _ _ _ _ _ He Hend) _ _ Hp) as (v & Hv & Hj & _).
    destruct (vt_vals _ _ _ (sv_votes _ _ _ _ (ib_inv _ _ _ _ I))) as [_ Hs].
    destruct (ei_abandoned _ _ _ _ _ _ Hs a Ha) as (w & Hw' & _ & Hjw & _). congruence.
  - by apply (en_kicked _ _ _ _ _ _ _ _ He).
Qed.

Lemma block_inv x x' :
  staking_block x x' → chain_inv x.1.1 x.1.2 x.2 → chain_inv x'.1.1 x'.1.2 x'.2.
Proof.
  intros [ctx votes maxAge evidence E lost y us s s0 s1 s1' s2 s3 s4 Hv H0 H1 Hk H2 Hs He] I. cbn in *.
  pose proof (elsewhere_chain _ _ _ _ I H0) as I0.
  pose proof (begin_inv _ _ _ _ _ _ _ _ _ _ _ _ I0 (λ v Hin, elsewhere_voter _ _ _ H0 (Hv v Hin)) H1 Hk H2) as I2.
  destruct (block_steps_inv _ _ _ _ _ _ Hs _ I2) as [I3 _]; [done|]. by eapply end_inv.
Qed.

End Blocks.
