(* ===== verification/StakingBank.v ===== *)
(** * Staking: the bank behind the keepers

    The bank and supply keepers implement what the staking module expects of
    them.  A second instance of the same operations has a stronger
    well-formedness, under which the pool can always be paid from: it also
    bounds what exists of a denomination, which the mint guards. *)
From S2P Require Import Prelude Decimal Denom Coins Bank CoinKeeper DecStr Staking StakingVals StakingVotes StakingProps StakingSet.
#[local] Open Scope Z_scope.

Section BankKeeper.
Context {cfg : BankConfig}.

#[global] Instance bank_delegation_keeper : DelegationKeeper Bank := {|
  ck_DelegateCoinsFromAccountToModule := DelegateCoinsFromAccountToModule;
  ck_UndelegateCoinsFromModuleToAccount := UndelegateCoinsFromModuleToAccount |}.

(** ** Decomposition *)

Lemma DelegateToModule_Ok a m amt s s' u :
  DelegateCoinsFromAccountToModule a m amt s = (Ok u, s') →
  ∃ addr s1, GetModuleAddress m = Some addr ∧ effect s s1 (λ _ _, 0) (λ _, 0) (λ _, 0) ∧
    (∃ r, GetModuleAccount m s = (Ok r, s1)) ∧ DelegateCoins a addr amt s1 = (Ok u, s').
Proof.
  unfold DelegateCoinsFromAccountToModule. intros ([[addr ps]|] & s1 & H1 & H2)%M_bind_Ok; [|by apply panic_Ok in H2].
  pose proof H1 as [Ha E]%GetModuleAccount_Some.
  apply M_bind_Ok in H2 as (u1 & s2 & H3 & H2). apply panic_if_Ok in H3 as [_ ->]. exists addr, s1. eauto.
Qed.
Lemma UndelegateFromModule_Ok m a amt s s' u :
  UndelegateCoinsFromModuleToAccount m a amt s = (Ok u, s') →
  ∃ addr s1, GetModuleAddress m = Some addr ∧ effect s s1 (λ _ _, 0) (λ _, 0) (λ _, 0) ∧
    (∃ r, GetModuleAccount m s = (Ok r, s1)) ∧ UndelegateCoins addr a amt s1 = (Ok u, s').
Proof.
  unfold UndelegateCoinsFromModuleToAccount. intros ([[addr ps]|] & s1 & H1 & H2)%M_bind_Ok; [|by apply panic_Ok in H2].
  pose proof H1 as [Ha E]%GetModuleAccount_Some.
  apply M_bind_Ok in H2 as (u1 & s2 & H3 & H2). apply panic_if_Ok in H3 as [_ ->]. exists addr, s1. eauto.
Qed.

(** The coins that are delegated are valid, and the payer has them. *)
Lemma DelegateCoins_funds a m amt s s' u :
  DelegateCoins a m amt s = (Ok u, s') →
  wf_coins amt ∧ (bank_wf s → ∀ d, amount_of amt d ≤ balance s a d).
Proof.
  unfold DelegateCoins. intros H. apply M_bind_Ok in H as (o & s1 & H1 & H). apply gets_Ok in H1 as [-> ->].
  destruct (accounts s !! a) as [acc|] eqn:Ha; [|by apply fail_Ok in H].
  apply M_bind_Ok in H as (o & s1 & H1 & H). apply gets_Ok in H1 as [-> ->].
  destruct (accounts s !! m) as [macc|]; [|by apply fail_Ok in H].
  apply M_bind_Ok in H as (u1 & s1 & H1 & H). apply guard_not_Ok in H1 as [V ->]. bool_prop. apply IsValid_wf in V.
  apply M_bind_Ok in H as ([diff neg] & s1 & H1 & H). apply lift_Ok in H1 as [H1 ->].
  apply M_bind_Ok in H as (u2 & s1 & H2 & H). apply guard_not_Ok in H2 as [-> ->]. split; [done|]. intros Hwf d.
  apply SafeSub_Ok in H1 as (_ & _ & _ & Hn); [|apply (Hwf _ _ Ha)|apply V]. rewrite (balance_Some _ _ _ _ Ha).
  destruct (decide (amount_of amt d ≤ amount_of (AccCoins acc) d)) as [|Hlt]; [done|]. exfalso.
  assert (false = true) as [=]. apply Hn. exists d. lia.
Qed.
Lemma UndelegateCoins_funds m a amt s s' u :
  UndelegateCoins m a amt s = (Ok u, s') →
  wf_coins amt ∧ (bank_wf s → ∀ d, amount_of amt d ≤ balance s m d).
Proof.
  unfold UndelegateCoins. intros H. apply M_bind_Ok in H as (o & s1 & H1 & H). apply gets_Ok in H1 as [-> ->].
  destruct (accounts s !! a) as [acc|] eqn:Ha; [|by apply fail_Ok in H].
  apply M_bind_Ok in H as (o & s1 & H1 & H). apply gets_Ok in H1 as [-> ->].
  destruct (accounts s !! m) as [macc|] eqn:Hm; [|by apply fail_Ok in H].
  apply M_bind_Ok in H as (u1 & s1 & H1 & H). apply guard_not_Ok in H1 as [V ->]. bool_prop. apply IsValid_wf in V.
  apply M_bind_Ok in H as ([diff neg] & s1 & H1 & H). apply lift_Ok in H1 as [H1 ->].
  apply M_bind_Ok in H as (u2 & s1 & H2 & H). apply guard_not_Ok in H2 as [-> ->]. split; [done|]. intros Hwf d.
  apply SafeSub_Ok in H1 as (_ & _ & _ & Hn); [|apply (Hwf _ _ Hm)|apply V]. rewrite (balance_Some _ _ _ _ Hm).
  destruct (decide (amount_of amt d ≤ amount_of (AccCoins macc) d)) as [|Hlt]; [done|]. exfalso.
  assert (false = true) as [=]. apply Hn. exists d. lia.
Qed.

(** A move of coins, as the difference it makes. *)
Lemma move_kmove s s' a b amt :
  effect s s' (λ x d, at_addr b amt x d - at_addr a amt x d) (λ _, 0) (λ _, 0) → wf_coins amt →
  (bank_wf s → ∀ d, amount_of amt d ≤ balance s a d) → kmove s s' a b amt.
Proof.
  intros E Hw Hf. split; [done|apply E|..|done]; cbn.
  - intros x d. rewrite (eff_balance _ _ _ _ _ E). lia.
  - intros d. rewrite (eff_supply _ _ _ _ _ E). lia.
Qed.

(** Amounts are added without an error: only an overflow panics. *)
Lemma DecCoin_Add_not_Err a b e : DecCoin_Add a b ≠ Err e.
Proof.
  unfold DecCoin_Add, Dec_Add, checkDec. destruct (negb _); [done|]. by destruct (BitLen _ >? _).
Qed.
Lemma safeAdd_not_Err A B e : DecCoins_safeAdd A B ≠ Err e.
Proof.
  revert B. induction A as [|a A IHA]; intros B; [by rewrite safeAdd_nil_l|].
  induction B as [|b B IHB]; [by rewrite safeAdd_nil_r|]. rewrite safeAdd_cons.
  unfold mbind, outcome_bind. destruct (String.compare (Denom a) (Denom b)).
  - pose proof (DecCoin_Add_not_Err a b e) as Ha. destruct (DecCoin_Add a b); [|congruence..].
    specialize (IHA B). destruct (DecCoins_safeAdd A B); congruence.
  - specialize (IHA (b :: B)). destruct (DecCoins_safeAdd A (b :: B)); congruence.
  - destruct (DecCoins_safeAdd (a :: A) B); congruence.
Qed.

(** A payment that is refused is refused before the first write. *)
Lemma Undelegate_Err m a amt s e s' : UndelegateCoins m a amt s = (Err e, s') → s' = s.
Proof.
  unfold UndelegateCoins, GetAccount, gets, guard_not. unfold mbind, M_bind.
  destruct (accounts s !! a) as [acc|]; [|by intros [= _ <-]].
  destruct (accounts s !! m) as [macc|]; [|by intros [= _ <-]].
  destruct (negb _); [by intros [= _ <-]|]. unfold lift.
  destruct (DecCoins_SafeSub (AccCoins macc) amt) as [[nc neg]| |]; [|by intros [= _ <-]|done].
  destruct neg; [by intros [= _ <-]|]. unfold mret, M_ret, SetCoins, GetAccount, gets, SetAccount, modify.
  unfold mbind, M_bind, trackUndelegation, DecCoins_Add. cbn. pose proof (safeAdd_not_Err (AccCoins acc) amt) as Hn.
  destruct (DecCoins_safeAdd (AccCoins acc) amt) as [c|e'|p]; cbn; [done| |done]. by destruct (Hn e').
Qed.
Lemma GetModuleAccount_not_Err m s e s' : GetModuleAccount m s ≠ (Err e, s').
Proof.
  unfold GetModuleAccount, GetAccount, gets, SetAccount, modify. unfold mbind, M_bind.
  destruct (permAddrs !! m) as [[addr ps]|]; [|done]. destruct (accounts s !! addr) as [acc|]; [|done].
  by destruct (AccPermissions acc).
Qed.
Lemma UndelegateFromModule_Err m a amt s e s' :
  UndelegateCoinsFromModuleToAccount m a amt s = (Err e, s') → ∃ r, GetModuleAccount m s = (Ok r, s').
Proof.
  unfold UndelegateCoinsFromModuleToAccount. unfold mbind at 1, M_bind at 1. intros H.
  destruct (GetModuleAccount m s) as [[r|e'|p] s1] eqn:E; [|by destruct (GetModuleAccount_not_Err _ _ _ _ E)|done].
  destruct r as [[addr ps]|]; [|done]. unfold panic_if in H. unfold mbind, M_bind in H. destruct (negb _); [done|]. cbn in H.
  apply Undelegate_Err in H as ->. eauto.
Qed.

#[global] Instance bank_delegation_laws : DelegationKeeperLaws Bank.
Proof.
  split; cbn.
  - intros a m amt s s' u (addr & s1 & Ha & E & _ & H2)%DelegateToModule_Ok Hwf. exists addr. split; [done|].
    eapply kmove_before; [exact E|]. pose proof (eff_wf _ _ _ _ _ E Hwf) as Hwf1.
    destruct (DelegateCoins_funds _ _ _ _ _ _ H2). apply move_kmove; [|done..]. by eapply DelegateCoins_effect.
  - intros m a amt s s' u (addr & s1 & Ha & E & _ & H2)%UndelegateFromModule_Ok Hwf Hne. exists addr. split; [done|].
    eapply kmove_before; [exact E|]. pose proof (eff_wf _ _ _ _ _ E Hwf) as Hwf1.
    destruct (UndelegateCoins_funds _ _ _ _ _ _ H2). apply move_kmove; [|done..].
    eapply UndelegateCoins_effect; [done|done|]. congruence.
  - intros m a amt s s' e (r & [_ E]%GetModuleAccount_Ok)%UndelegateFromModule_Err.
    split; [apply E|]. intros x d. rewrite (eff_balance _ _ _ _ _ E). lia.
Qed.

(** ** Roles *)

(** Accounts stay, with their permissions. *)
Definition roles_kept (s s' : Bank) : Prop :=
  ∀ a acc, accounts s !! a = Some acc →
  ∃ acc', accounts s' !! a = Some acc' ∧ AccPermissions acc' = AccPermissions acc.
#[global] Instance roles_kept_preorder : PreOrder roles_kept.
Proof.
  split; [by intros s a acc Ha; exists acc|]. intros s1 s2 s3 H1 H2 a acc Ha.
  destruct (H1 _ _ Ha) as (acc2 & Ha2 & E2). destruct (H2 _ _ Ha2) as (acc3 & Ha3 & E3). exists acc3. split; congruence.
Qed.

Lemma roles_set s a acc :
  AccPermissions acc = (accounts s !! a ≫= AccPermissions) → roles_kept s (with_accounts <[a := acc]> s).
Proof.
  intros E b x Hx. cbn. destruct (decide (b = a)) as [->|Hne].
  - rewrite Hx in E. exists acc. by rewrite lookup_insert_eq.
  - exists x. by rewrite lookup_insert_ne.
Qed.
Lemma one_account_roles s s' a g : one_account s s' a g → roles_kept s s'.
Proof. intros (acc & -> & _ & _ & E). by apply roles_set. Qed.
Lemma roles_module m s r s' : GetModuleAccount m s = (Ok r, s') → roles_kept s s'.
Proof.
  unfold GetModuleAccount, GetAccount, gets, SetAccount, modify. unfold mbind, M_bind.
  destruct (permAddrs !! m) as [[addr ps]|]; [|by intros [= _ <-]].
  destruct (accounts s !! addr) as [acc|] eqn:Ha; [by destruct (AccPermissions acc); intros [= _ <-]|].
  intros [= _ <-]. intros b x Hx. exists x. split; [|done]. cbn. rewrite lookup_insert_ne; congruence.
Qed.
Lemma roles_SendCoins a b amt s u s' : SendCoins a b amt s = (Ok u, s') → roles_kept s s'.
Proof.
  intros (_ & _ & s1 & H1 & H2)%SendCoins_Ok. transitivity s1; by eapply one_account_roles.
Qed.
Lemma roles_supplies s s' : accounts s' = accounts s → roles_kept s s'.
Proof. intros E a acc Ha. exists acc. by rewrite E. Qed.
Lemma roles_DelegateCoins a m amt s u s' : DelegateCoins a m amt s = (Ok u, s') → roles_kept s s'.
Proof.
  unfold DelegateCoins. intros H. apply M_bind_Ok in H as (o & s1 & H1 & H). apply gets_Ok in H1 as [-> ->].
  destruct (accounts s !! a) as [acc|] eqn:Ha; [|by apply fail_Ok in H].
  apply M_bind_Ok in H as (o & s1 & H1 & H). apply gets_Ok in H1 as [-> ->].
  destruct (accounts s !! m) as [macc|]; [|by apply fail_Ok in H].
  apply M_bind_Ok in H as (u1 & s1 & H1 & H). apply guard_not_Ok in H1 as [_ ->].
  apply M_bind_Ok in H as ([diff neg] & s1 & H1 & H). apply lift_Ok in H1 as [H1 ->].
  apply M_bind_Ok in H as (u2 & s1 & H2 & H). apply guard_not_Ok in H2 as [-> ->].
  apply M_bind_Ok in H as (acc' & s1 & H2 & H). apply lift_Ok in H2 as [H2 ->].
  apply M_bind_Ok in H as (u3 & s1 & H3 & H). apply modify_Ok in H3 as ->.
  apply M_bind_Ok in H as (c & s1 & H3 & H). apply mret_Ok in H as [_ ->].
  apply AddCoins_Ok in H3 as [_ E2%one_account_roles]. etransitivity; [|exact E2]. apply roles_set.
  apply outcome_bind_Ok in H2 as (x & _ & [= <-]). by rewrite Ha.
Qed.
Lemma roles_UndelegateCoins m a amt s u s' : UndelegateCoins m a amt s = (Ok u, s') → roles_kept s s'.
Proof.
  unfold UndelegateCoins. intros H. apply M_bind_Ok in H as (o & s1 & H1 & H). apply gets_Ok in H1 as [-> ->].
  destruct (accounts s !! a) as [acc|] eqn:Ha; [|by apply fail_Ok in H].
  apply M_bind_Ok in H as (o & s1 & H1 & H). apply gets_Ok in H1 as [-> ->].
  destruct (accounts s !! m) as [macc|] eqn:Hm; [|by apply fail_Ok in H].
  apply M_bind_Ok in H as (u1 & s1 & H1 & H). apply guard_not_Ok in H1 as [_ ->].
  apply M_bind_Ok in H as ([diff neg] & s1 & H1 & H). apply lift_Ok in H1 as [H1 ->].
  apply M_bind_Ok in H as (u2 & s1 & H2 & H). apply guard_not_Ok in H2 as [-> ->].
  apply M_bind_Ok in H as (u3 & s1 & H2 & H).
  unfold SetCoins in H2. apply M_bind_Ok in H2 as (o & s2 & H3 & H2). apply gets_Ok in H3 as [-> ->]. apply modify_Ok in H2.
  apply M_bind_Ok in H as (acc' & s2 & H3 & H). apply lift_Ok in H3 as [H3 ->]. apply modify_Ok in H.
  apply outcome_bind_Ok in H3 as (c & _ & [= <-]).
  assert (roles_kept s s1) as R1 by (rewrite H2; apply roles_set; by rewrite Hm).
  transitivity s1; [done|]. rewrite H. apply roles_set. destruct (R1 _ _ Ha) as (acc1 & -> & E1). cbn. by rewrite E1.
Qed.

(** ** Soundness *)

Definition pool_open (s : Bank) : Prop :=
  ∃ addr acc ps, GetModuleAddress NotBondedPoolName = Some addr ∧ accounts s !! addr = Some acc ∧
    AccPermissions acc = Some ps ∧ HasPermission ps Staking = true.
(** Every module has its account. *)
Definition modules_open (s : Bank) : Prop := ∀ m addr, GetModuleAddress m = Some addr →
  ∃ acc ps, accounts s !! addr = Some acc ∧ AccPermissions acc = Some ps.
Definition bounded (s : Bank) : Prop := ∀ d, supply_of s d < 2 ^ 315.
Record bank_sound (s : Bank) : Prop := {
  bs_inv : bank_inv s;
  bs_bounded : bounded s;
  bs_pool : pool_open s;
  bs_modules : modules_open s }.

Lemma sound_step s s' δ τ :
  effect s s' δ τ τ → (bounded s → bounded s') → roles_kept s s' → bank_sound s → bank_sound s'.
Proof.
  intros E Hb Hr [I B (addr & acc & ps & H1 & H2 & H3 & H4) Ho]. split; [by eapply effect_inv|auto|..].
  - destruct (Hr _ _ H2) as (acc' & H2' & E'). exists addr, acc', ps. split_and!; congruence.
  - intros m b Hm. destruct (Ho m b Hm) as (x & qs & Hx & Hq). destruct (Hr _ _ Hx) as (x' & Hx' & E').
    exists x', qs. split; congruence.
Qed.
Lemma bounded_move s s' δ τ : effect s s' δ τ (λ _, 0) → bounded s → bounded s'.
Proof. intros E B d. specialize (B d). rewrite (eff_supply _ _ _ _ _ E). lia. Qed.
Lemma sound_move s s' δ : effect s s' δ (λ _, 0) (λ _, 0) → roles_kept s s' → bank_sound s → bank_sound s'.
Proof. intros E. eapply sound_step; [exact E|]. by eapply bounded_move. Qed.

(** What is minted is checked against the width of a decimal. *)
Lemma bounded_inflate d0 a s u s' : inflate d0 a s = (Ok u, s') → bounded s → bounded s'.
Proof.
  unfold inflate. destruct (Dec_Equal a ZeroDec); [by intros [_ ->]%mret_Ok|].
  intros (o & s1 & H2 & H)%M_bind_Ok. apply gets_Ok in H2 as [-> ->].
  apply M_bind_Ok in H as (n & s1 & H2 & H). apply lift_Ok in H2 as [H2 ->]. apply modify_Ok in H as ->.
  apply Dec_Add_Ok in H2 as [-> Hf]. intros B d. unfold supply_of. cbn.
  destruct (decide (d = d0)) as [->|Hne]; [|rewrite lookup_insert_ne by done; apply B].
  rewrite lookup_insert_eq. cbn. unfold dec_fits in Hf. lia.
Qed.
Lemma bounded_inflateAll amt : ∀ s u s', inflateAll amt s = (Ok u, s') → bounded s → bounded s'.
Proof.
  induction amt as [|c l IH]; intros s u s'; cbn; [by intros [_ ->]%mret_Ok|].
  intros (u1 & s1 & H1 & H2)%M_bind_Ok B. eapply IH; [exact H2|]. by eapply bounded_inflate.
Qed.
Lemma frame_inflateAll amt : frames (λ s s', accounts s' = accounts s) (inflateAll amt).
Proof.
  intros s. assert (∀ d a t, accounts (inflate d a t).2 = accounts t) as Hi.
  { intros d a t. unfold inflate, GetSupplyByDenom, gets, lift, setTokenSupplyAmount, modify. unfold mbind, M_bind.
    destruct (Dec_Equal a ZeroDec); [done|]. cbn. by destruct (Dec_Add _ _). }
  revert s. induction amt as [|c l IH]; intros s; cbn; [done|]. unfold mbind, M_bind. specialize (Hi (Denom c) (Amount c) s).
  destruct (inflate (Denom c) (Amount c) s) as [[u|e|p] s1]; cbn in *; [|done..]. by rewrite IH.
Qed.
Lemma frame_deflateAll amt : frames (λ s s', accounts s' = accounts s) (deflateAll amt).
Proof.
  intros s. assert (∀ d a t, accounts (deflate d a t).2 = accounts t) as Hi.
  { intros d a t. unfold deflate, GetSupplyByDenom, gets, lift, guard_not, setTokenSupplyAmount, modify. unfold mbind, M_bind.
    cbn. destruct (Dec_Sub _ _); [|done..]. by destruct (Dec_IsNegative _). }
  revert s. induction amt as [|c l IH]; intros s; cbn; [done|]. unfold mbind, M_bind. specialize (Hi (Denom c) (Amount c) s).
  destruct (deflate (Denom c) (Amount c) s) as [[u|e|p] s1]; cbn in *; [|done..]. by rewrite IH.
Qed.

Lemma sound_MintCoins m amt s u s' : MintCoins m amt s = (Ok u, s') → bank_sound s → bank_sound s'.
Proof.
  intros H. pose proof (MintCoins_effect _ _ _ _ _ H) as (addr & _ & _ & E). unfold MintCoins in H.
  apply M_bind_Ok in H as ([[a ps]|] & s1 & H1 & H); [|by apply panic_Ok in H].
  apply M_bind_Ok in H as (u' & s2 & H2 & H). apply panic_if_Ok in H2 as [_ ->].
  apply M_bind_Ok in H as (c & s2 & H2 & H). apply AddCoins_Ok in H2 as [_ O].
  eapply sound_step; [exact E|..].
  - intros B. eapply bounded_inflateAll; [exact H|]. eapply bounded_move; [by eapply one_account_effect|].
    apply GetModuleAccount_Ok in H1 as [_ E1]. by eapply bounded_move.
  - transitivity s1; [by eapply roles_module|]. transitivity s2; [by eapply one_account_roles|].
    apply roles_supplies. pose proof (frame_inflateAll amt s2) as Hf. by rewrite H in Hf.
Qed.
Lemma sound_BurnCoins m amt s u s' : BurnCoins m amt s = (Ok u, s') → bank_sound s → bank_sound s'.
Proof.
  intros H. pose proof (BurnCoins_effect _ _ _ _ _ H) as (addr & _ & Hw & E & _). unfold BurnCoins in H.
  apply M_bind_Ok in H as ([[a ps]|] & s1 & H1 & H); [|by apply panic_Ok in H].
  apply M_bind_Ok in H as (u' & s2 & H2 & H). apply panic_if_Ok in H2 as [_ ->].
  apply M_bind_Ok in H as (c & s2 & H2 & H). apply SubtractCoins_Ok in H2 as (_ & O & _).
  eapply sound_step; [exact E|..].
  - intros B d. specialize (B d). rewrite (eff_supply _ _ _ _ _ E). pose proof (wf_amount_nonneg amt d Hw). lia.
  - transitivity s1; [by eapply roles_module|]. transitivity s2; [by eapply one_account_roles|].
    apply roles_supplies. pose proof (frame_deflateAll amt s2) as Hf. by rewrite H in Hf.
Qed.
Lemma sound_SendCoins a b amt s u s' : SendCoins a b amt s = (Ok u, s') → bank_sound s → bank_sound s'.
Proof. intros H. eapply sound_move; [by eapply SendCoins_effect|by eapply roles_SendCoins]. Qed.
Lemma sound_module m s r s' : GetModuleAccount m s = (Ok r, s') → bank_sound s → bank_sound s'.
Proof. intros H. eapply sound_move; [by apply GetModuleAccount_Ok in H as [_ E]|by eapply roles_module]. Qed.

(** ** The keepers with the stronger well-formedness *)

Definition sound_coin_keeper : CoinKeeper Bank := {|
  ck_balance := balance;
  ck_supply := supply_of;
  ck_wf := bank_sound;
  ck_modaddr := GetModuleAddress;
  ck_Blacklisted := BlacklistedAddr;
  ck_GetCoins := GetCoins;
  ck_GetSendEnabled := gets sendEnabled;
  ck_GetSupplyByDenom := GetSupplyByDenom;
  ck_SendCoins := SendCoins;
  ck_SendCoinsFromModuleToAccount := SendCoinsFromModuleToAccount;
  ck_SendCoinsFromAccountToModule := SendCoinsFromAccountToModule;
  ck_SendCoinsFromModuleToModule := SendCoinsFromModuleToModule;
  ck_MintCoins := MintCoins;
  ck_BurnCoins := BurnCoins |}.
Definition sound_delegation_keeper : DelegationKeeper (H := sound_coin_keeper) Bank := {|
  ck_DelegateCoinsFromAccountToModule := DelegateCoinsFromAccountToModule;
  ck_UndelegateCoinsFromModuleToAccount := UndelegateCoinsFromModuleToAccount |}.

Lemma sound_wf s : bank_sound s → bank_wf s.
Proof. by intros [[? _] _ _ _]. Qed.
Lemma kmove_sound s s' a b amt :
  kmove s s' a b amt → (bank_sound s → bank_sound s') → kmove (H := sound_coin_keeper) s s' a b amt.
Proof. intros [A W B S F] Hs. split; try done. intros Hw%sound_wf. by apply F. Qed.

Lemma sound_coin_laws : CoinKeeperLaws (H := sound_coin_keeper) Bank.
Proof.
  split.
  - intros s a d Hs%sound_wf. by apply (law_nonneg (H := bank_coin_keeper)).
  - intros a s c s' (-> & H1 & H2)%(law_GetCoins (H := bank_coin_keeper)). split; [done|]. split; [done|]. intros Hs%sound_wf. by apply H2.
  - apply (law_GetSendEnabled (H := bank_coin_keeper)).
  - apply (law_GetSupplyByDenom (H := bank_coin_keeper)).
  - intros a b amt s s' u H. apply kmove_sound; [by eapply SendCoins_kmove|by eapply sound_SendCoins].
  - intros m a amt s s' u (addr & Ha & H & Hb)%SendCoinsFromModuleToAccount_effect. split; [done|]. exists addr.
    split; [done|]. apply kmove_sound; [by eapply SendCoins_kmove|by eapply sound_SendCoins].
  - intros a m amt s s' u H. pose proof H as (addr & Ha & Hk)%(law_AccountToModule (H := bank_coin_keeper)). exists addr. split; [done|].
    apply kmove_sound; [done|]. unfold ck_SendCoinsFromAccountToModule, sound_coin_keeper, SendCoinsFromAccountToModule in H.
    apply M_bind_Ok in H as ([[b ps]|] & s1 & H1 & H); [|by apply panic_Ok in H].
    intros Hs. eapply sound_SendCoins; [exact H|]. by eapply sound_module.
  - intros m n amt s s' u H. pose proof H as (a & b & Ha & Hb & Hk)%(law_ModuleToModule (H := bank_coin_keeper)). exists a, b.
    split; [done|]. split; [done|]. apply kmove_sound; [done|].
    unfold ck_SendCoinsFromModuleToModule, sound_coin_keeper, SendCoinsFromModuleToModule in H. cbn in Ha.
    rewrite Ha in H. apply M_bind_Ok in H as ([[b' ps]|] & s1 & H1 & H); [|by apply panic_Ok in H].
    intros Hs. eapply sound_SendCoins; [exact H|]. by eapply sound_module.
  - intros m amt s s' u H. pose proof H as (addr & Ha & [])%(law_MintCoins (H := bank_coin_keeper)). exists addr. split; [done|].
    split; try done. exact (sound_MintCoins _ _ _ _ _ H).
  - intros m amt s s' u H. pose proof H as (addr & Ha & [A W B S F])%(law_BurnCoins (H := bank_coin_keeper)). exists addr. split; [done|].
    split; try done; [exact (sound_BurnCoins _ _ _ _ _ H)|]. intros Hs%sound_wf. by apply F.
Qed.

Lemma sound_delegation_laws :
  DelegationKeeperLaws (H := sound_coin_keeper) (H0 := sound_delegation_keeper) Bank.
Proof.
  split; cbn [ck_DelegateCoinsFromAccountToModule ck_UndelegateCoinsFromModuleToAccount sound_delegation_keeper].
  - intros a m amt s s' u H Hs. destruct (law_Delegate (H := bank_coin_keeper) (H0 := bank_delegation_keeper) a m amt s s' u H (sound_wf _ Hs)) as (addr & Ha & Hk).
    exists addr. split; [done|]. apply kmove_sound; [done|]. apply DelegateToModule_Ok in H as (b & s1 & _ & _ & (r & H1) & H2).
    intros _. pose proof (sound_module _ _ _ _ H1 Hs) as Hs1.
    eapply sound_move; [eapply DelegateCoins_effect; [exact H2|by apply sound_wf]|by eapply roles_DelegateCoins|done].
  - intros m a amt s s' u H Hs Hne. destruct (law_Undelegate (H := bank_coin_keeper) (H0 := bank_delegation_keeper) m a amt s s' u H (sound_wf _ Hs) Hne) as (addr & Ha & Hk).
    exists addr. split; [done|]. apply kmove_sound; [done|]. apply UndelegateFromModule_Ok in H as (b & s1 & Hb & _ & (r & H1) & H2).
    intros _. pose proof (sound_module _ _ _ _ H1 Hs) as Hs1. cbn in Hne.
    eapply sound_move; [eapply UndelegateCoins_effect; [exact H2|by apply sound_wf|congruence]|by eapply roles_UndelegateCoins|done].
  - intros m a amt s s' e (r & H1)%UndelegateFromModule_Err. split; [by eapply sound_module|].
    apply GetModuleAccount_Ok in H1 as [_ E]. intros x d. cbn. rewrite (eff_balance _ _ _ _ _ E). lia.
Qed.

(** ** Payments from the pool *)

Lemma two_balances s a b d :
  bank_inv s → a ≠ b → 0 ≤ balance s a d + balance s b d ≤ supply_of s d.
Proof.
  intros [Hw Hs] Hne. pose proof (law_nonneg s a d Hw). pose proof (law_nonneg s b d Hw). cbn in *. split; [lia|].
  rewrite Hs. unfold total_of. rewrite <- !balance_at_key. set (f := λ acc, amount_of (AccCoins acc) d).
  pose proof (map_sum_delete f (accounts s) b) as Hd.
  assert (∀ m : gmap string Account, map_Forall (λ _ acc, wf_coins (AccCoins acc)) m → at_key f (m !! a) ≤ map_sum f m) as Hge.
  { intros m Hm. assert (∀ k v, m !! k = Some v → 0 ≤ f v) as Hpos by (intros k v Hv; apply wf_amount_nonneg; by apply (Hm k)).
    destruct (m !! a) as [acc|] eqn:Ha; cbn; [by eapply map_sum_ge|by apply map_sum_nonneg]. }
  specialize (Hge (delete b (accounts s)) (map_Forall_delete _ _ _ Hw)). rewrite lookup_delete_ne in Hge by done. lia.
Qed.

Lemma module_account s addr acc ps m :
  GetModuleAddress m = Some addr → accounts s !! addr = Some acc → AccPermissions acc = Some ps →
  GetModuleAccount m s = (Ok (Some (addr, ps)), s).
Proof.
  unfold GetModuleAddress, GetModuleAccount, GetAccount, gets. unfold mbind, M_bind.
  destruct (permAddrs !! m) as [[x y]|]; [|done]. intros [= ->] -> ->. done.
Qed.

(** An account that exists is paid, and one that does not is refused. *)
Lemma sound_pays a q s nb :
  bank_sound s → GetModuleAddress NotBondedPoolName = Some nb → a ≠ nb → 0 < q ≤ balance s nb DefaultBondDenom →
  let r := (UndelegateCoinsFromModuleToAccount NotBondedPoolName a [mkDecCoin DefaultBondDenom q] s).1 in
  match accounts s !! a with
  | Some _ => is_ok r = true
  | None => r = Err (E "ErrUnknownAddress")
  end.
Proof.
  intros [I B (addr & macc & ps & H1 & H2 & H3 & H4) _] Hnb Hne Hq. rewrite Hnb in H1. injection H1 as <-. cbn zeta.
  unfold UndelegateCoinsFromModuleToAccount. rewrite (M_bind_run _ _ _ _ _ (module_account _ _ _ _ _ Hnb H2 H3)).
  unfold panic_if. rewrite H4. unfold UndelegateCoins, GetAccount, gets, guard_not. unfold mbind, M_bind. cbn [negb mret M_ret].
  destruct (accounts s !! a) as [acc|] eqn:Ha; [|done]. rewrite H2.
  set (amt := [mkDecCoin DefaultBondDenom q]). pose proof (proj1 I) as Hw.
  assert (wf_coins amt) as Hwamt by (apply wf_coins_one; lia).
  rewrite (IsValid_good amt) by (try done; by repeat constructor). cbn [negb].
  assert (∀ d, amount_of amt d ≤ balance s nb d ∧ 0 ≤ amount_of amt d) as Hamt.
  { intros d. unfold amt. rewrite amount_of_one. cbn [Denom Amount]. destruct (String.eqb_spec DefaultBondDenom d) as [<-|]; [lia|].
    split; [|done]. exact (law_nonneg s nb d Hw). }
  assert (∀ d, 0 ≤ balance s a d ∧ 0 ≤ balance s nb d ∧ balance s a d + balance s nb d < 2 ^ 315) as Hfit.
  { intros d. pose proof (two_balances s a nb d I Hne). specialize (B d). pose proof (law_nonneg s a d Hw).
    pose proof (law_nonneg s nb d Hw). cbn in *. lia. }
  assert (∃ D, DecCoins_safeAdd (AccCoins macc) (DecCoins_negative amt) = Ok D) as [D HD].
  { apply safeAdd_total; [apply (Hw _ _ H2)|apply negative_sorted, Hwamt|]. intros d. rewrite negative_amount.
    destruct (Hamt d), (Hfit d). rewrite (balance_Some _ _ _ _ H2) in *. unfold dec_fits. lia. }
  assert (∃ D', DecCoins_safeAdd (AccCoins acc) amt = Ok D') as [D' HD'].
  { apply safeAdd_total; [apply (Hw _ _ Ha)|apply Hwamt|]. intros d. destruct (Hamt d), (Hfit d).
    rewrite (balance_Some _ _ _ _ Ha), (balance_Some _ _ _ _ H2) in *. unfold dec_fits. lia. }
  assert (DecCoins_SafeSub (AccCoins macc) amt = Ok (D, DecCoins_IsAnyNegative D)) as HS
    by (unfold DecCoins_SafeSub; by rewrite HD).
  assert (DecCoins_IsAnyNegative D = false) as Hneg.
  { destruct (DecCoins_IsAnyNegative D) eqn:En; [|done]. apply SafeSub_Ok in HS as (_ & _ & _ & Hn); [|apply (Hw _ _ H2)|apply Hwamt].
    destruct (proj1 Hn eq_refl) as [d Hd]. destruct (Hamt d) as [Hle _]. rewrite (balance_Some _ _ _ _ H2) in Hle. lia. }
  unfold lift. rewrite HS, Hneg.
  unfold SetCoins, GetAccount, gets, SetAccount, modify, trackUndelegation, DecCoins_Add. unfold mbind, M_bind.
  rewrite HD'. done.
Qed.

(** Coins that an account has can be sent, while the denominations of all
    accounts are good and amounts are a bit below the width. *)
Definition sendable (s : Bank) : Prop := bank_good s ∧ ∀ d, supply_of s d < 2 ^ 314.
Lemma sound_SendCoins_returns a b amt s :
  bank_sound s → sendable s → a ≠ b → wf_coins amt → good_denoms amt → (∀ d, amount_of amt d ≤ balance s a d) →
  ∃ s', SendCoins a b amt s = (Ok (), s') ∧ sendable s'.
Proof.
  intros [I _ _ _] [Hg Hb] Hne Hw Hd Hf. destruct (SendCoins_spec s a b amt Hg Hw Hd Hf) as (s' & E & G & _).
  - intros x d. specialize (Hf d). specialize (Hb d). pose proof (wf_amount_nonneg _ d Hw).
    assert (∀ y, 0 ≤ balance s y d ≤ supply_of s d) as Hy.
    { intros y. pose proof (law_nonneg s y d (proj1 I)). cbn in *. destruct (decide (y = a)) as [->|Hya].
      - pose proof (two_balances s a b d I Hne). pose proof (law_nonneg s b d (proj1 I)). cbn in *. lia.
      - pose proof (two_balances s y a d I Hya). pose proof (law_nonneg s a d (proj1 I)). cbn in *. lia. }
    pose proof (Hy x). pose proof (Hy a). unfold dec_fits. lia.
  - exists s'. split; [done|]. split; [done|]. intros d.
    rewrite (eff_supply _ _ _ _ _ (SendCoins_effect _ _ _ _ _ _ E)). specialize (Hb d). lia.
Qed.

(** ** Roles, whatever a payment returns *)

Lemma frames_roles_module m : frames roles_kept (GetModuleAccount m).
Proof.
  intros s. destruct (GetModuleAccount m s) as [[r|e|p] s'] eqn:E; cbn.
  - by eapply roles_module.
  - by destruct (GetModuleAccount_not_Err _ _ _ _ E).
  - unfold GetModuleAccount, GetAccount, gets, SetAccount, modify in E. unfold mbind, M_bind in E.
    destruct (permAddrs !! m) as [[addr ps]|]; [|done]. destruct (accounts s !! addr) as [acc|]; [|done].
    destruct (AccPermissions acc); [done|]. by injection E as _ <-.
Qed.
Lemma frames_roles_undelegate m a c : frames roles_kept (UndelegateCoinsFromModuleToAccount m a c).
Proof.
  unfold UndelegateCoinsFromModuleToAccount. apply frames_bind; [exact _|apply frames_roles_module|].
  intros [[addr ps]|]; [|apply frames_panic; exact _]. apply frames_bind; [exact _|intros s; by destruct (negb _)|intros _ s].
  destruct (UndelegateCoins addr a c s) as [[u|e|p] s'] eqn:E; cbn.
  - by eapply roles_UndelegateCoins.
  - by apply Undelegate_Err in E as ->.
  - unfold UndelegateCoins, GetAccount, gets, guard_not in E. unfold mbind, M_bind in E.
    destruct (accounts s !! a) as [acc|]; [|done]. destruct (accounts s !! addr) as [macc|] eqn:Hm; [|done].
    destruct (negb _); [done|]. unfold lift in E.
    destruct (DecCoins_SafeSub (AccCoins macc) c) as [[nc neg]| |]; [|done|by injection E as _ <-].
    destruct neg; [done|]. unfold SetCoins, GetAccount, gets, SetAccount, modify in E. unfold mbind, M_bind in E. cbn in E.
    destruct (trackUndelegation acc c); [done|done|]. injection E as _ <-. apply roles_set. by rewrite Hm.
Qed.

End BankKeeper.
