(* ===== verification/StakingTheorems.v ===== *)
(** * Staking: the properties of the module

    What the staking, slashing and evidence modules promise, for every chain
    of blocks. *)
From S2P Require Import Prelude Decimal Denom Coins Bank CoinKeeper DecStr Token Staking StakingVals StakingVotes StakingProps StakingMsgs StakingSet StakingElect StakingEnd StakingFrame Slashing SlashingProps StakingRun.
#[local] Open Scope Z_scope.

Section Theorems.
Context {C : Type} `{CoinKeeper C} `{!CoinKeeperLaws C} `{!DelegationKeeper C} `{!DelegationKeeperLaws C}.
Context `{!StakingHooks C} `{cfgS : StakingConfig} `{wbS : !WindowBound}.
Context (bonded notBonded : string) `{!StakingLaws C bonded notBonded}.
Implicit Types (s : StakingState (Slashed C)) (E : gmap PubKey Z).

#[local] Abbreviation vals_of s := (vs_validators (sg_vals s)).
#[local] Abbreviation last_of s := (vs_lastPowers (sg_vals s)).
#[local] Abbreviation block := (staking_block (C := C) bonded notBonded).
#[local] Abbreviation ok := (chain_inv (C := C) bonded notBonded).

Lemma chain_run x x' : weights_ok → rtc block x x' → ok x.1.1 x.1.2 x.2 → ok x'.1.1 x'.1.2 x'.2.
Proof. intros Hw Hr. induction Hr as [x|x y z Hb _ IH]; [done|]. intros I. by eapply IH, block_inv. Qed.

(** C3: along any chain of blocks, with any evidence, messages, changes of
    parameters to values that the modules accept, and other transactions, and
    with votes of validators that have not finished unbonding, the state of
    the staking module stays sound: the pools hold what delegators and
    validators deposited and what is being undelegated, shares, proxies,
    indices and queues agree, the set of the consensus engine is the recorded
    one, and the counters of the slashing module are those of its windows.
    [lost] is what the pool of undelegations holds without an owner. *)
Theorem staking_chain_invariant E lost s E' lost' s' :
  weights_ok → ok E lost s → rtc block (E, lost, s) (E', lost', s') → ok E' lost' s'.
Proof. intros Hw I Hr. exact (chain_run _ _ Hw Hr I). Qed.

(** C23: the invariants that the module registers are never found broken on a
    chain, except that the one on module accounts is as soon as something in
    the pool of undelegations has no owner. *)
Theorem registered_invariants_kept E lost s E' lost' s' :
  weights_ok → ok E lost s → rtc block (E, lost, s) (E', lost', s') →
  (∀ b, DelegatorAddSharesInvariant s' = Ok b → b = false) ∧
  PositiveDelegatorInvariant s' = false ∧ NonNegativePowerInvariantCustom s' = Ok false ∧
  (∀ c1 c2 k1 k2 b, ck_GetCoins bonded (sg_k s') = (Ok c1, k1) → ck_GetCoins notBonded (sg_k s') = (Ok c2, k2) →
    ModuleAccountInvariantsCustom c1 c2 s' = Ok b → b = negb (lost' =? 0)).
Proof.
  intros Hw I Hr. destruct (chain_run _ _ Hw Hr I) as [I' _ _]. cbn in I'. split_and!.
  - intros b. by eapply AddSharesInvariant_kept.
  - by eapply PositiveDelegator_kept.
  - by eapply NonNegativePower_kept.
  - intros c1 c2 k1 k2 b H1 H2. by eapply ModuleAccount_kept.
Qed.

(** C32: on any chain the stores of validators fit together: a record lies
    under its address and is found by its consensus address, the power index
    has exactly those that are not jailed, each under its own key, the
    bonded ones are those with a recorded power, those that unbond wait at
    the time when they are done, and the total is the sum of the powers. *)
Theorem validator_store_typed E lost s E' lost' s' :
  weights_ok → ok E lost s → rtc block (E, lost, s) (E', lost', s') →
  (∀ a v, vals_of s' !! a = Some v →
    Va_OperatorAddress v = a ∧ vs_byConsAddr (sg_vals s') !! ConsAddress v = Some a ∧
    (vs_powerIndex (sg_vals s') !! getValidatorPowerRank v = Some a ↔ Va_Jailed v = false) ∧
    (is_Some (last_of s' !! a) ↔ Va_Status v = Bonded) ∧
    (a ∈ default [] (vs_queue (sg_vals s') !! Va_UnbondingCompletionTime v) ↔ Va_Status v = Unbonding)) ∧
  (∀ k a, vs_powerIndex (sg_vals s') !! k = Some a → ∃ v, vals_of s' !! a = Some v ∧ k = getValidatorPowerRank v) ∧
  default 0 (vs_lastTotalPower (sg_vals s')) = map_sum id (last_of s').
Proof.
  intros Hw I Hr. destruct (chain_run _ _ Hw Hr I) as [I' _ _]. cbn in I'.
  destruct (vt_vals _ _ _ (sv_votes _ _ _ _ I')) as [Hi Hs]. split_and!.
  - intros a v Hv. split_and!.
    + by apply (ii_key _ _ _ _ Hi).
    + apply (ii_cons _ _ _ _ Hi). eauto.
    + rewrite (ii_index _ _ _ _ Hi). split; [|by eauto]. intros (w & Hw' & Hj & _). congruence.
    + rewrite (ei_bonded _ _ _ _ _ _ Hs). split; [|by eauto]. intros (w & Hw' & ?). congruence.
    + rewrite (ei_queue _ _ _ _ _ _ Hs). split; [|by eauto]. intros (w & Hw' & ? & _). congruence.
  - intros k a (v & Hv & _ & ->)%(ii_index _ _ _ _ Hi). eauto.
  - apply Hs.
Qed.

(** C30: on any such chain the counter of missed blocks of a validator is the
    number of the bits set in its window, so it lies between zero and the
    length of the longest window that there has been: [windowBound] is any
    number that no window along the chain exceeds.  A proposal that shortens
    the window leaves the bits beyond it, and they go on to count. *)
Theorem missed_counter_exact E lost s E' lost' s' c i :
  weights_ok → ok E lost s → rtc block (E, lost, s) (E', lost', s') →
  ls_infos (slashing_of s') !! c = Some i →
  Si_MissedBlocksCounter i = missed_count (ls_missed (slashing_of s')) c ∧
  0 ≤ Si_MissedBlocksCounter i ≤ windowBound.
Proof.
  intros Hw I Hr Hc. destruct (chain_run _ _ Hw Hr I) as [_ _ Hl]. cbn in Hl.
  destruct (li_count _ Hl c i Hc) as [-> _]. split; [done|]. split; [apply missed_count_nonneg|].
  apply missed_count_bound; [pose proof (li_window _ Hl); lia|]. intros j b Hb. by apply (li_bits _ Hl) in Hb as [_ ?].
Qed.

(** ** What messages leave behind *)

(** C37: when a validator is destroyed while its operator waits for another
    undelegation, the record of that one is written over: the new record has
    the deposit alone, what the other was for stays in the pool without an
    owner, and the registered invariant on module accounts is broken. *)
Theorem destroy_strands_undelegation E B s ctx a v w u s' :
  in_block bonded notBonded E B 0 s → outsider bonded notBonded a →
  vals_of s !! a = Some v → st_undelegations (sg_stakes s) !! a = Some w →
  handleMsgDestroyValidator ctx a s = (Ok u, s') →
  st_undelegations (sg_stakes s') !! a
    = Some (mkUndelegation a (Va_MinSelfDelegation v) (BlockTime ctx + Sp_UnbondingTime (sg_params s))) ∧
  ck_balance (sg_k s') notBonded DefaultBondDenom
    = map_sum Ud_Quantity (st_undelegations (sg_stakes s')) + Ud_Quantity w ∧
  ∀ c1 c2 k1 k2 b, ck_GetCoins bonded (sg_k s') = (Ok c1, k1) → ck_GetCoins notBonded (sg_k s') = (Ok c2, k2) →
    ModuleAccountInvariantsCustom c1 c2 s' = Ok b → b = true.
Proof.
  intros [I _] Ho Hv Hu Hr. pose proof (inv_handleMsgDestroyValidator bonded notBonded _ _ _ _ _ _ I Ho Hr) as I'.
  rewrite Hu in I'. cbn [at_key] in I'. pose proof (ud_pos _ _ _ (sv_undel _ _ _ _ I) _ _ Hu) as Hq. split_and!.
  - eapply destroyed_record; [|exact Hr]; done.
  - rewrite (mo_notBonded _ _ _ _ _ _ _ (sv_money _ _ _ _ I')). lia.
  - intros c1 c2 k1 k2 b H1 H2 H3. pose proof (ModuleAccount_kept bonded notBonded _ _ _ _ _ _ _ I' H1 H2 H3) as ->.
    destruct (Z.eqb_spec (0 + Ud_Quantity w) 0); [lia|done].
Qed.

(** C38: a delegator whose proxy has a vote on a validator without a deposit
    can neither leave the proxy nor withdraw anything: both are refused,
    until the proxy votes again. *)
Theorem dismissed_vote_binds E B lost s ctx a d proxy b v :
  in_block bonded notBonded E B lost s →
  st_delegators (sg_stakes s) !! a = Some d → HasProxy d = true →
  st_delegators (sg_stakes s) !! De_ProxyAddress d = Some proxy →
  b ∈ De_ValidatorAddresses proxy → vals_of s !! b = Some v → Va_MinSelfDelegation v = 0 →
  is_ok (unbindProxy ctx a s).1 = false ∧ ∀ amount, is_ok (Withdraw ctx a amount s).1 = false.
Proof.
  intros [I _] Hd Hp HP Hb Hv Hm. pose proof (vt_key _ _ _ (sv_votes _ _ _ _ I) _ _ HP) as KP.
  assert (∀ t s1, sg_stakes s1 = sg_stakes s → sg_vals s1 = sg_vals s → is_ok (UpdateProxy ctx d t s1).1 = false) as Hno.
  { intros t s1 Es Ev. destruct (UpdateProxy ctx d t s1) as [[u|e|p] s2] eqn:Hr; [|done..]. exfalso.
    apply HasProxy_spec in Hp. rewrite <- Es in HP. destruct (UpdateProxy_split _ _ _ _ _ _ _ Hp HP Hr) as [_ Hu].
    eapply (UpdateShares_live (K := Slashed C) _ _ (de_set_total (De_TotalDelegatedTokens proxy + t) proxy) _ _ _ _ b v); [|exact Hu|exact Hb| |exact Hm].
    - cbn. by rewrite lookup_insert_eq.
    - cbn. by rewrite Ev. }
  split.
  - unfold unbindProxy, GetDelegator, gets. unfold mbind at 1, M_bind at 1. rewrite Hd.
    unfold mbind at 1, M_bind at 1. rewrite HP. unfold lift. unfold mbind at 1, M_bind at 1.
    destruct (NewDec (-1)) as [minus| |]; [|done..]. unfold mbind at 1, M_bind at 1.
    destruct (Dec_Mul (De_Tokens d) minus) as [x| |]; [|done..]. unfold mbind at 1, M_bind at 1. unfold replaceErr.
    specialize (Hno x s eq_refl eq_refl). by destruct (UpdateProxy ctx d x s) as [[?|?|?] ?].
  - intros amount. destruct (Withdraw ctx a amount s) as [[t|e|p] s'] eqn:Hr; [|done..]. exfalso.
    unfold Withdraw in Hr. apply M_bind_Ok in Hr as (o & s1 & H1 & Hr). apply gets_Ok in H1 as [-> ->]. rewrite Hd in Hr.
    apply M_bind_Ok in Hr as (lim & s1 & H1 & Hr). apply gets_Ok in H1 as [-> ->].
    apply M_bind_Ok in Hr as (u1 & s1 & H1 & Hr). apply guard_not_Ok in H1 as [_ ->].
    apply M_bind_Ok in Hr as (u2 & s1 & H1 & Hr). apply guard_not_Ok in H1 as [_ ->].
    apply M_bind_Ok in Hr as (left & s1 & H1 & Hr). apply lift_Ok in H1 as [_ ->].
    apply M_bind_Ok in Hr as (u3 & s1 & H1 & Hr). apply guard_not_Ok in H1 as [_ ->].
    apply M_bind_Ok in Hr as (u4 & s1 & H1 & Hr). unfold bondedTokensToNotBonded in H1.
    apply M_bind_Ok in H1 as (cs & s2 & H1 & H2). apply lift_Ok in H1 as [_ ->]. unfold orPanic in H2.
    destruct (on_keeper _ s) as [[?|?|?] s2] eqn:Hk; simplify_eq. apply zoom_Ok in Hk as (k' & _ & ->).
    rewrite Hp in Hr. apply M_bind_Ok in Hr as (u5 & s2 & H1 & Hr).
    apply M_bind_Ok in H1 as (minus & s3 & H3 & H1). apply lift_Ok in H3 as [_ ->].
    apply M_bind_Ok in H1 as (x & s3 & H3 & H1). apply lift_Ok in H3 as [_ ->].
    specialize (Hno x (sg_set_k k' s) eq_refl eq_refl). by rewrite H1 in Hno.
Qed.

(** ** The end of a block *)

(** C11: at the end of an epoch the validator set has validators that are not
    jailed, each with the power of its shares, and at most the maximum; and a
    validator with power that is neither jailed nor in the set ranks below
    everyone in it, by power and, for equal power, by address, and then the
    set is full. *)
Theorem epoch_elects_best E B lost s ctx us s' :
  in_block bonded notBonded E B lost s → staking_EndBlocker ctx s = (Ok us, s') → ends_epoch ctx s = true →
  (∀ a p, last_of s' !! a = Some p → ∃ v, vals_of s !! a = Some v ∧ Va_Jailed v = false ∧
    p = PotentialConsensusPowerByShares v ∧ p ≠ 0) ∧
  Z.of_nat (size (last_of s')) ≤ Sp_MaxValidators (sg_params s) ∧
  (∀ b w, vals_of s !! b = Some w → Va_Jailed w = false → PotentialConsensusPowerByShares w ≠ 0 →
    last_of s' !! b = None →
    Z.of_nat (size (last_of s')) = Sp_MaxValidators (sg_params s) ∧
    ∀ a v, vals_of s !! a = Some v → is_Some (last_of s' !! a) → String.length a = String.length b →
      key_power w < key_power v ∨ (key_power w = key_power v ∧ str_lt a b)).
Proof.
  intros I Hr Hend. destruct (end_inv bonded notBonded _ _ _ _ _ _ _ I Hr) as [He _].
  destruct (en_elected _ _ _ _ _ _ _ _ He Hend) as [E1 E2 E3]. split_and!; [done|done|].
  intros b w Hw Hj Hp Hb. destruct (E3 b w Hw Hj Hp Hb) as [Hsz Hlt]. split; [done|]. intros a v Hv Ha Hlen.
  pose proof (proj1 (vt_vals _ _ _ (sv_votes _ _ _ _ (ib_inv _ _ _ _ _ _ I)))) as Hi.
  pose proof (ii_key _ _ _ _ Hi _ _ Hw) as Kw. pose proof (ii_key _ _ _ _ Hi _ _ Hv) as Kv.
  rewrite <- Kw, <- Kv in *. by apply rank_lt, (Hlt (Va_OperatorAddress v)).
Qed.

(** C4: the updates that a block returns take the consensus engine from the
    set it had to the one that is recorded: after them the engine has a
    public key with a power exactly if it is that of a bonded validator with
    this power. *)
Theorem updates_reach_engine E B lost s ctx us s' :
  in_block bonded notBonded E B lost s → staking_EndBlocker ctx s = (Ok us, s') →
  ∀ pk p, engine_apply E us !! pk = Some p ↔
    ∃ a v, vals_of s' !! a = Some v ∧ Va_ConsPubKey v = pk ∧ Va_Status v = Bonded ∧ last_of s' !! a = Some p.
Proof.
  intros I Hr pk p. destruct (end_inv bonded notBonded _ _ _ _ _ _ _ I Hr) as [He _].
  destruct (vt_vals _ _ _ (sv_votes _ _ _ _ (en_inv _ _ _ _ _ _ _ _ He))) as [_ Hs].
  rewrite (ei_engine _ _ _ _ _ _ Hs pk p). split.
  - intros (a & v & Hv & Hpk & Hl). exists a, v. split_and!; try done.
    destruct (proj1 (ei_bonded _ _ _ _ _ _ Hs a) ltac:(eauto)) as (w & Hw & Hst). congruence.
  - intros (a & v & Hv & Hpk & _ & Hl). eauto.
Qed.

(** C22: a validator that is kicked out by the votes or the evidence at the
    start of a block, or by a message in it, is out of the set when the block
    ends, whatever is sent to let it out of jail meanwhile, and the engine
    does not have its key. *)
Theorem kicked_out_leaves E lost s ctx votes maxAge evidence s1 s2 x s3 us s4 a :
  weights_ok → ok E lost s → (∀ v, v ∈ votes → voter_ok (Vt_Address v) s) →
  slashing_BeginBlocker ctx votes s = (Ok (), s1) → evidence_BeginBlocker ctx maxAge evidence s1 = (Ok (), s2) →
  block_steps bonded notBonded ctx x s2 s3 → staking_EndBlocker ctx s3 = (Ok us, s4) →
  a ∈ vs_abandoned (sg_vals s2) ∨ a ∈ vs_abandoned (sg_vals s3) →
  last_of s4 !! a = None ∧
  ∀ v, vals_of s4 !! a = Some v → Va_Status v ≠ Bonded ∧ engine_apply E us !! Va_ConsPubKey v = None.
Proof.
  intros Hw I Hv H1 H2 Hs He Ha. pose proof (begin_inv bonded notBonded _ _ _ _ _ _ _ _ _ _ _ _ I Hv H1 (elsewhere_refl bonded notBonded s1) H2) as I2.
  destruct (block_steps_inv bonded notBonded Hw _ _ _ _ _ _ Hs _ I2) as [I3 _]; [done|].
  assert (a ∈ vs_abandoned (sg_vals s3)) as Ha3 by (destruct Ha; [by eapply block_steps_abandoned|done]).
  pose proof (end_out bonded notBonded _ _ _ _ _ _ _ _ I3 He Ha3) as Hout. split; [done|]. intros v Hva.
  destruct (end_inv bonded notBonded _ _ _ _ _ _ _ I3 He) as [_ [I4 _ _]].
  destruct (vt_vals _ _ _ (sv_votes _ _ _ _ I4)) as [Hi Hset]. split.
  - intros Hb. destruct (proj2 (ei_bonded _ _ _ _ _ _ Hset a)) as [p Hp]; [by eauto|congruence].
  - apply eq_None_not_Some. intros [p (b & w & Hw' & Hpk & Hl)%(ei_engine _ _ _ _ _ _ Hset)].
    assert (b = a) as -> by (by eapply pubkey_inj). congruence.
Qed.

(** ** Penalties *)

(** C29: what the vote of a validator on a block does.  The bit of the block
    and the counter change together.  If the validator is not jailed, has
    been there for a window and has now missed more of it than allowed, it is
    jailed and kicked out, its window is emptied, and it may not leave jail
    before the jail time has passed; otherwise validators are as before. *)
Theorem downtime_jails E B lost s ctx c power signed u s' :
  in_block bonded notBonded E B lost s → HandleValidatorSignature ctx c power signed s = (Ok u, s') →
  ∃ i minSigned, ls_infos (slashing_of s) !! c = Some i ∧
    MinSignedPerWindow (ls_params (slashing_of s)) = Ok minSigned ∧
    let window := Lp_SignedBlocksWindow (ls_params (slashing_of s)) in
    let index := Z.rem (Si_IndexOffset i) window in
    let missed := Si_MissedBlocksCounter i + Z.b2z (negb signed)
      - Z.b2z (GetValidatorMissedBlockBitArray c index (slashing_of s)) in
    let late := BlockHeight ctx > Si_StartHeight i + window ∧ missed > window - minSigned in
    (∀ a v, vals_of s !! a = Some v → ConsAddress v = c → Va_Jailed v = false → late →
      vals_of s' = <[a := va_set_jailed true v]> (vals_of s) ∧
      vs_abandoned (sg_vals s') = vs_abandoned (sg_vals s) ++ [a] ∧
      missed_count (ls_missed (slashing_of s')) c = 0 ∧
      ls_infos (slashing_of s') !! c = Some (si_set_counters 0 0
        (si_set_jailed (BlockTime ctx + Lp_DowntimeJailDuration (ls_params (slashing_of s))) i))) ∧
    ((late → ∀ a v, vals_of s !! a = Some v → ConsAddress v = c → Va_Jailed v = true) →
      sg_vals s' = sg_vals s ∧ missed_count (ls_missed (slashing_of s')) c = missed ∧
      ls_infos (slashing_of s') !! c = Some (si_set_counters (Si_IndexOffset i + 1) missed i)).
Proof.
  intros [I Hl] Hr. destruct (HandleSignature_Ok bonded notBonded _ _ _ _ _ _ _ _ I Hl Hr) as (i & m & n & [S1 S2 S3 S4 S5 S6]).
  cbn zeta in S6. destruct S6 as (l1 & Hv & Hcase). exists i, m. split_and!; [done|done|].
  pose proof (voted_on_count _ _ _ _ _ _ _ c Hv) as Hcount. rewrite bool_decide_true in Hcount by done.
  destruct (li_count _ Hl c i S1) as [Hn _]. destruct Hv as (_ & _ & _ & -> & _).
  destruct Hcase as [(Hlate & a & v & [P1 P2 P3 P4 P5 P6 P7] & _ & Em & Ei)|(Hno & Ev & _ & _ & Em & Ei)]; split.
  - intros b w Hw Hcw _ _. pose proof (proj1 (vt_vals _ _ _ (sv_votes _ _ _ _ I))) as Hi.
    assert (vs_byConsAddr (sg_vals s) !! c = Some a) by (apply (ii_cons _ _ _ _ Hi); eauto).
    assert (vs_byConsAddr (sg_vals s) !! c = Some b) by (apply (ii_cons _ _ _ _ Hi); eauto).
    assert (b = a) as -> by congruence. rewrite P1 in Hw. injection Hw as <-. split_and!; [done|done|..].
    + by rewrite Em, missed_count_clear, bool_decide_true.
    + by rewrite Ei, lookup_insert_eq.
  - intros Hall. rewrite (Hall Hlate a v P1 P2) in P3. done.
  - intros a v Hva Hc Hj Hlate. rewrite (Hno Hlate a v Hva Hc) in Hj. done.
  - intros _. split_and!; [done|rewrite Em; lia|by rewrite Ei, lookup_insert_eq].
Qed.

End Theorems.
