(* ===== verification/StakingDemo.v ===== *)
(** * Staking: a chain with two validators

    A chain that starts with nothing staked: two validators come, a
    delegator votes for one of them, which is elected, misses blocks and is
    jailed; and concrete instances of the properties along it. *)
From S2P Require Import Prelude Decimal Denom Coins Bank CoinKeeper DecStr Token Staking StakingVals StakingVotes StakingProps StakingMsgs StakingSet StakingElect StakingEnd StakingFrame Slashing SlashingProps StakingRun StakingBank StakingTheorems.
#[local] Open Scope Z_scope.

Definition demo_stake_config : BankConfig :=
  mkBankConfig {[ BondedPoolName := ("pool_b", ["burner"; "staking"]);
                  NotBondedPoolName := ("pool_n", ["burner"; "staking"]) ]} ∅.
Definition demo_stake_heights : StakingConfig :=
  mkStakingConfig 1 1 Pk_bytes (λ _, "1.0") None.
(** No modules beside the slashing module have hooks. *)
Definition demo_no_hooks : StakingHooks Bank := {|
  sh_call _ _ _ _ := mret ();
  sh_CheckEnabled _ _ := true |}.
#[local] Existing Instance demo_stake_config.
#[local] Existing Instance demo_stake_heights.
#[local] Existing Instance demo_no_hooks.
#[local] Existing Instance sound_coin_keeper.
#[local] Existing Instance sound_delegation_keeper.
#[local] Existing Instance sound_coin_laws.
#[local] Existing Instance sound_delegation_laws.
(** The windows of this chain are one block long. *)
#[local] Instance demo_window : WindowBound := 1.

Definition unit_okt : Z := 10 ^ 18.
Definition demo_stake_acc (n : Z) : Account := mkAccount [mkDecCoin "okt" n] None.
Definition demo_pool_acc : Account := mkAccount [] (Some ["burner"; "staking"]).
Definition demo_stake_bank : Bank :=
  mkBank {[ "alice" := demo_stake_acc unit_okt; "bob" := demo_stake_acc unit_okt; "carol" := demo_stake_acc unit_okt;
            "dave" := demo_stake_acc unit_okt; "erin" := demo_stake_acc unit_okt;
            "pool_b" := demo_pool_acc; "pool_n" := demo_pool_acc ]}
         {[ "okt" := 5 * unit_okt ]} true.
Definition demo_chain : Type := StakingState (Slashed Bank).
Definition demo_stake0 : demo_chain :=
  mkStakingState
    (mkSlashed demo_stake_bank (mkSlashing ∅ ∅ ∅ (mkSlashingParams 1 OneDec 1000 0 0)))
    (mkStakes ∅ ∅ ∅ ∅ ∅)
    (mkValSet ∅ ∅ ∅ ∅ None ∅ [] (Some 4) None)
    (mkStakingParams 10 1 4 30 1 5).

(** ** Blocks of messages *)

Fixpoint demo_steps (ctx : Ctx) (l : list StakingMsg) (s : demo_chain) : option (Z * demo_chain) :=
  match l with
  | [] => Some (0, s)
  | m :: l =>
      match staking_deliver (BlockHeight ctx) ctx m s with
      | (Ok _, s1) => '(x, s') ← demo_steps ctx l s1; Some (stranded m s + x, s')
      | _ => None
      end
  end.
#[local] Abbreviation demo_out := (outsider "pool_b" "pool_n").
Lemma demo_steps_ok ctx l : ∀ s x s',
  Forall (λ m, demo_out (staking_signer m)) l → demo_steps ctx l s = Some (x, s') →
  block_steps "pool_b" "pool_n" ctx x s s'.
Proof.
  induction l as [|m l IH]; intros s x s' Hf; cbn [demo_steps].
  - intros [= <- <-]. constructor.
  - apply Forall_cons in Hf as [Hm Hf]. destruct (staking_deliver _ ctx m s) as [[[]|e|p] s1] eqn:Hr; [|done..].
    destruct (demo_steps ctx l s1) as [[y s2]|] eqn:Hs; [|done]. cbn. intros [= <- <-].
    econstructor; [by econstructor|by apply IH].
Qed.

(** The states inside a block, and its updates. *)
Record demo_run := mkDemoRun {
  dr_voted : demo_chain; dr_begun : demo_chain; dr_mid : demo_chain;
  dr_updates : list ValidatorUpdate; dr_end : demo_chain; dr_lost : Z; dr_ok : bool }.
Definition demo_block (ctx : Ctx) (votes : list Vote) (evidence : list Equivocation) (l : list StakingMsg) (s : demo_chain)
    : demo_run :=
  let r1 := slashing_BeginBlocker ctx votes s in
  let r2 := evidence_BeginBlocker ctx 1000 evidence r1.2 in
  let '(x, s3) := default (0, r2.2) (demo_steps ctx l r2.2) in
  let r := staking_EndBlocker ctx s3 in
  mkDemoRun r1.2 r2.2 s3 (match r.1 with Ok us => us | _ => [] end) r.2 x
    (is_ok r1.1 && is_ok r2.1 && bool_decide (is_Some (demo_steps ctx l r2.2)) && is_ok r.1
     && bool_decide (Forall (λ v, map_Forall (λ _ w, ConsAddress w = Vt_Address v → Va_Status w ≠ Unbonded)
          (vs_validators (sg_vals s))) votes)
     && bool_decide (Forall (λ m, staking_signer m ≠ "pool_b" ∧ staking_signer m ≠ "pool_n" ∧ staking_signer m ≠ "" ∧
          ck_Blacklisted (S := Slashed Bank) (staking_signer m) = false) l)).

Record demo_ran ctx votes evidence s (r : demo_run) : Prop := {
  dn_votes v : v ∈ votes → voter_ok (Vt_Address v) s;
  dn_voted : slashing_BeginBlocker ctx votes s = (Ok (), dr_voted r);
  dn_begun : evidence_BeginBlocker ctx 1000 evidence (dr_voted r) = (Ok (), dr_begun r);
  dn_mid : block_steps "pool_b" "pool_n" ctx (dr_lost r) (dr_begun r) (dr_mid r);
  dn_end : staking_EndBlocker ctx (dr_mid r) = (Ok (dr_updates r), dr_end r) }.
Lemma demo_block_ran ctx votes evidence l s :
  let r := demo_block ctx votes evidence l s in dr_ok r = true → demo_ran ctx votes evidence s r.
Proof.
  cbn zeta. unfold demo_block. destruct (slashing_BeginBlocker ctx votes s) as [o1 s1] eqn:H1. cbn [fst snd].
  destruct (evidence_BeginBlocker ctx 1000 evidence s1) as [o2 s2] eqn:H2. cbn [fst snd].
  destruct (demo_steps ctx l s2) as [[x s3]|] eqn:H3; cbn [from_option id].
  2: { rewrite (bool_decide_false (is_Some None)) by (by intros []). cbn. by rewrite !andb_false_r. }
  destruct (staking_EndBlocker ctx s3) as [o s4] eqn:H4. cbn [fst snd dr_ok]. rewrite !andb_true_iff, !bool_decide_eq_true.
  intros [[[[[Ho1 Ho2] _] Ho] Hv] Hl]. destruct o1 as [[]| |], o2 as [[]| |], o as [us| |]; try done. split; cbn.
  - intros v Hin a w Hw Hc. rewrite Forall_forall in Hv. by apply (Hv v Hin a w).
  - done.
  - done.
  - by eapply demo_steps_ok.
  - done.
Qed.
Lemma demo_ran_block E lost ctx votes evidence s r :
  demo_ran ctx votes evidence s r →
  staking_block "pool_b" "pool_n" (E, lost, s) (engine_apply E (dr_updates r), lost + dr_lost r, dr_end r).
Proof. intros []. econstructor; [done|apply elsewhere_refl|done|apply elsewhere_refl|done..]. Qed.

Definition demo_key (n : string) : PubKey := mkPubKey "ed25519" n.
Definition demo_create (a : string) : StakingMsg :=
  MsgCreateValidator_ (mkMsgCreateValidator (mkDescription a "" "" "") (mkDecCoin "okt" 5) a a (demo_key (a +:+ "_key"))).
Definition demo_coin (n : Z) : DecCoin := mkDecCoin "okt" n.

Definition demo_ctx1 : Ctx := mkCtx 3 100.
Definition demo_msgs1 : list StakingMsg :=
  [demo_create "alice"; demo_create "bob"; demo_create "dave"; MsgDeposit "carol" (demo_coin (10 ^ 12));
   MsgAddShares "carol" ["bob"]; MsgDeposit "erin" (demo_coin (10 ^ 12)); MsgRegProxy "carol" true;
   MsgBindProxy "erin" "carol"].
Definition demo_r1 : demo_run := demo_block demo_ctx1 [] [] demo_msgs1 demo_stake0.
(** The end of the first epoch: one seat, and the validator with the votes
    gets it. *)
Definition demo_ctx2 : Ctx := mkCtx 4 200.
Definition demo_r2 : demo_run := demo_block demo_ctx2 [] [] [] (dr_end demo_r1).
(** It misses a block; the delegator takes a part of its deposit back. *)
Definition demo_missed : list Vote := [mkVote "bob_key" 24 false].
Definition demo_ctx3 : Ctx := mkCtx 5 300.
Definition demo_r3 : demo_run :=
  demo_block demo_ctx3 demo_missed [] [MsgWithdraw "carol" (demo_coin (10 ^ 11))] (dr_end demo_r2).
(** It misses another one, and is jailed; the undelegation is due. *)
Definition demo_ctx4 : Ctx := mkCtx 6 400.
Definition demo_r4 : demo_run :=
  demo_block demo_ctx4 demo_missed [] [MsgEditValidator (mkDescription "x" "" "" "") "alice"] (dr_end demo_r3).
(** There is evidence against it while it unbonds. *)
Definition demo_ctx5 : Ctx := mkCtx 7 405.
Definition demo_r5 : demo_run := demo_block demo_ctx5 [] [mkEquivocation 5 300 24 "bob_key"] [] (dr_end demo_r4).

Lemma demo_ran1 : demo_ran demo_ctx1 [] [] demo_stake0 demo_r1.
Proof. apply demo_block_ran. by vm_compute. Qed.
Lemma demo_ran2 : demo_ran demo_ctx2 [] [] (dr_end demo_r1) demo_r2.
Proof. apply demo_block_ran. by vm_compute. Qed.
Lemma demo_ran3 : demo_ran demo_ctx3 demo_missed [] (dr_end demo_r2) demo_r3.
Proof. apply demo_block_ran. by vm_compute. Qed.
Lemma demo_ran4 : demo_ran demo_ctx4 demo_missed [] (dr_end demo_r3) demo_r4.
Proof. apply demo_block_ran. by vm_compute. Qed.
Lemma demo_ran5 : demo_ran demo_ctx5 [] [mkEquivocation 5 300 24 "bob_key"] (dr_end demo_r4) demo_r5.
Proof. apply demo_block_ran. by vm_compute. Qed.

(** ** The first state *)

#[local] Instance demo_staking_laws : StakingLaws Bank "pool_b" "pool_n".
Proof. split; [done..|]. intros ctx t vs h k k' u [_ ->]%mret_Ok. reflexivity. Qed.
Lemma demo_weights : weights_ok.
Proof. intros week w. cbn [weightOfWeek demo_stake_heights]. assert (NewDecFromStr "1.0" = Ok OneDec) as -> by by vm_compute. by intros [= <-]. Qed.

Lemma demo_stake_bank_sound : bank_sound demo_stake_bank.
Proof.
  assert (∀ d, supply_of demo_stake_bank d = if String.eqb "okt" d then 5 * unit_okt else 0) as Hs.
  { intros d. unfold supply_of, demo_stake_bank. cbn [supplies]. destruct (String.eqb_spec "okt" d) as [<-|Hne].
    - by rewrite lookup_singleton_eq.
    - by rewrite lookup_singleton_ne. }
  split.
  - split.
    + unfold bank_wf, demo_stake_bank. cbn [accounts]. do 6 (apply map_Forall_insert_2; [apply IsValid_wf; by vm_compute|]).
      apply map_Forall_singleton, IsValid_wf. by vm_compute.
    + intros d. rewrite Hs. unfold total_of, demo_stake_bank. cbn [accounts].
      do 6 (rewrite map_sum_fresh by (by vm_compute)). rewrite map_sum_singleton.
      unfold demo_stake_acc, demo_pool_acc. cbn [AccCoins]. rewrite !amount_of_one, !amount_of_nil. cbn [Denom Amount].
      destruct (String.eqb "okt" d); unfold unit_okt; lia.
  - intros d. rewrite Hs. by destruct (String.eqb "okt" d).
  - exists "pool_n", demo_pool_acc, ["burner"; "staking"]. split_and!; by vm_compute.
  - intros m addr Hm. unfold GetModuleAddress in Hm. destruct (permAddrs !! m) as [[b ps]|] eqn:Hx; [|done].
    injection Hm as <-. exists demo_pool_acc, ["burner"; "staking"]. cbn [permAddrs demo_stake_config] in Hx.
    apply lookup_insert_Some in Hx as [[_ [= <- _]]|[_ [_ [= <- _]]%lookup_singleton_Some]]; by vm_compute.
Qed.

(** A chain with nothing staked, over any store of coins. *)
Lemma empty_chain_inv {C} `{CoinKeeper C} `{!StakingHooks C} `{StakingConfig} `{!WindowBound} bonded notBonded k lp sp n :
  ck_wf k → (∀ d, ck_balance k bonded d = 0 ∧ ck_balance k notBonded d = 0) →
  slash_inv (mkSlashing ∅ ∅ ∅ lp) → params_inv sp → 0 < default DefaultEpoch n →
  chain_inv bonded notBonded ∅ 0
    (mkStakingState (mkSlashed k (mkSlashing ∅ ∅ ∅ lp)) (mkStakes ∅ ∅ ∅ ∅ ∅) (mkValSet ∅ ∅ ∅ ∅ None ∅ [] n None) sp).
Proof.
  intros Wf Hb Hl Hp Hn. split; [|done|exact Hl].
  split; cbn; [split; [exact Wf|cbn; by rewrite (proj1 (Hb _))|cbn; by rewrite (proj2 (Hb _))]|by split|..|exact Hp|done].
  - split; cbn; try by intros. intros p a. split; [by intros ?%elem_of_empty|]. by intros (_ & d & ? & _).
  - split; cbn; try by intros.
    { intros v a x. split; [done|]. by intros (d & ? & _). }
    split.
    + split; cbn; try by intros.
      * intros c a. split; [done|]. by intros (v & ? & _).
      * intros k' a. split; [done|]. by intros (v & ? & _).
    + split; cbn; try by intros.
      * intros a. split; [by intros []|]. by intros (v & ? & _).
      * intros t a. split; [by intros ?%not_elem_of_nil|]. by intros (v & ? & _).
      * intros t. apply NoDup_nil_2.
      * intros a. by intros ?%not_elem_of_nil.
      * intros pk p. split; [done|]. by intros (a & v & ? & _).
Qed.
Lemma demo_stake0_inv : chain_inv "pool_b" "pool_n" ∅ 0 demo_stake0.
Proof.
  apply empty_chain_inv; [exact demo_stake_bank_sound|done| |by split|done].
  split; cbn; try done; by intros.
Qed.

(** ** Along the chain *)

#[local] Abbreviation demo_ok := (chain_inv (C := Bank) "pool_b" "pool_n").
#[local] Abbreviation demo_steps_to := (rtc (staking_block (C := Bank) "pool_b" "pool_n")).

Definition demo_engine2 : gmap PubKey Z := engine_apply (engine_apply ∅ (dr_updates demo_r1)) (dr_updates demo_r2).
Definition demo_engine3 : gmap PubKey Z := engine_apply demo_engine2 (dr_updates demo_r3).
Definition demo_engine4 : gmap PubKey Z := engine_apply demo_engine3 (dr_updates demo_r4).
Definition demo_engine5 : gmap PubKey Z := engine_apply demo_engine4 (dr_updates demo_r5).

Lemma demo_chain3 : demo_steps_to (∅, 0, demo_stake0) (demo_engine3, 0, dr_end demo_r3).
Proof.
  unfold demo_engine3, demo_engine2.
  eapply rtc_l; [exact (demo_ran_block ∅ 0 _ _ _ _ _ demo_ran1)|].
  eapply rtc_l; [exact (demo_ran_block _ _ _ _ _ _ _ demo_ran2)|].
  eapply rtc_l; [exact (demo_ran_block _ _ _ _ _ _ _ demo_ran3)|].
  assert (0 + dr_lost demo_r1 + dr_lost demo_r2 + dr_lost demo_r3 = 0) as -> by by vm_compute. apply rtc_refl.
Qed.
Lemma demo_chain5 : demo_steps_to (∅, 0, demo_stake0) (demo_engine5, 0, dr_end demo_r5).
Proof.
  etransitivity; [exact demo_chain3|]. unfold demo_engine5, demo_engine4.
  eapply rtc_l; [exact (demo_ran_block _ _ _ _ _ _ _ demo_ran4)|].
  eapply rtc_l; [exact (demo_ran_block _ _ _ _ _ _ _ demo_ran5)|].
  assert (0 + dr_lost demo_r4 + dr_lost demo_r5 = 0) as -> by by vm_compute. apply rtc_refl.
Qed.

Lemma demo_block_inv E lost ctx votes evidence s r :
  demo_ok E lost s → demo_ran ctx votes evidence s r →
  demo_ok (engine_apply E (dr_updates r)) (lost + dr_lost r) (dr_end r) ∧
  in_block "pool_b" "pool_n" E (blocked ctx (slashing_of (dr_begun r))) (lost + dr_lost r) (dr_mid r) ∧
  in_block "pool_b" "pool_n" E (blocked ctx (slashing_of (dr_begun r))) lost (dr_begun r).
Proof.
  intros I Hr. pose proof (block_inv "pool_b" "pool_n" demo_weights _ _ (demo_ran_block E lost _ _ _ _ _ Hr) I) as I'.
  destruct Hr as [H1 H2 H3 H4 H5]. pose proof (begin_inv "pool_b" "pool_n" _ _ _ _ _ _ _ _ _ _ _ _ I H1 H2 (elsewhere_refl "pool_b" "pool_n" _) H3) as I2.
  destruct (block_steps_inv "pool_b" "pool_n" demo_weights _ _ _ _ _ _ H4 _ I2) as [I3 _]; [done|]. done.
Qed.
Lemma demo_ok1 : demo_ok (engine_apply ∅ (dr_updates demo_r1)) 0 (dr_end demo_r1).
Proof. exact (proj1 (demo_block_inv _ _ _ _ _ _ _ demo_stake0_inv demo_ran1)). Qed.
Lemma demo_ok2 : demo_ok demo_engine2 0 (dr_end demo_r2).
Proof. exact (proj1 (demo_block_inv _ _ _ _ _ _ _ demo_ok1 demo_ran2)). Qed.
Lemma demo_ok3 : demo_ok demo_engine3 0 (dr_end demo_r3).
Proof. exact (proj1 (demo_block_inv _ _ _ _ _ _ _ demo_ok2 demo_ran3)). Qed.

Definition demo_bans (ctx : Ctx) (r : demo_run) : Bans := blocked ctx (slashing_of (dr_begun r)).
Lemma demo_mid2 : in_block "pool_b" "pool_n" (engine_apply ∅ (dr_updates demo_r1)) (demo_bans demo_ctx2 demo_r2) 0 (dr_mid demo_r2).
Proof. exact (proj1 (proj2 (demo_block_inv _ _ _ _ _ _ _ demo_ok1 demo_ran2))). Qed.
Lemma demo_mid4 : in_block "pool_b" "pool_n" demo_engine3 (demo_bans demo_ctx4 demo_r4) 0 (dr_mid demo_r4).
Proof. exact (proj1 (proj2 (demo_block_inv _ _ _ _ _ _ _ demo_ok3 demo_ran4))). Qed.
Lemma demo_begun3 : in_block "pool_b" "pool_n" demo_engine2 (demo_bans demo_ctx3 demo_r3) 0 (dr_begun demo_r3).
Proof. exact (proj2 (proj2 (demo_block_inv _ _ _ _ _ _ _ demo_ok2 demo_ran3))). Qed.

(** ** The properties, at work *)

Lemma staking_chain_invariant_witness : chain_inv "pool_b" "pool_n" demo_engine5 0 (dr_end demo_r5).
Proof.
  exact (staking_chain_invariant "pool_b" "pool_n" _ _ _ _ _ _ demo_weights demo_stake0_inv demo_chain5).
Defined.

Lemma registered_invariants_kept_witness :
  PositiveDelegatorInvariant (dr_end demo_r5) = false ∧ NonNegativePowerInvariantCustom (dr_end demo_r5) = Ok false.
Proof.
  destruct (registered_invariants_kept "pool_b" "pool_n" _ _ _ _ _ _ demo_weights demo_stake0_inv demo_chain5)
    as (_ & H1 & H2 & _). exact (conj H1 H2).
Defined.

Lemma validator_store_typed_witness :
  default 0 (vs_lastTotalPower (sg_vals (dr_end demo_r5))) = map_sum id (vs_lastPowers (sg_vals (dr_end demo_r5))).
Proof.
  exact (proj2 (proj2 (validator_store_typed "pool_b" "pool_n" _ _ _ _ _ _ demo_weights demo_stake0_inv demo_chain5))).
Defined.

Definition demo_info3 : SigningInfo := mkSigningInfo "bob_key" 4 1 0 false 1 Created.
Lemma missed_counter_exact_witness :
  Si_MissedBlocksCounter demo_info3 = missed_count (ls_missed (slashing_of (dr_end demo_r3))) "bob_key" ∧
  0 ≤ Si_MissedBlocksCounter demo_info3 ≤ 1.
Proof.
  apply (missed_counter_exact "pool_b" "pool_n" _ _ _ _ _ _ "bob_key" demo_info3 demo_weights demo_stake0_inv demo_chain3).
  by vm_compute.
Defined.

Lemma epoch_elects_best_witness :
  Z.of_nat (size (vs_lastPowers (sg_vals (dr_end demo_r2)))) ≤ Sp_MaxValidators (sg_params (dr_mid demo_r2)).
Proof.
  refine (proj1 (proj2 (epoch_elects_best "pool_b" "pool_n" _ _ _ _ demo_ctx2 _ _ demo_mid2 (dn_end _ _ _ _ _ demo_ran2) _))).
  by vm_compute.
Defined.

Lemma updates_reach_engine_witness :
  ∃ a v, vs_validators (sg_vals (dr_end demo_r4)) !! a = Some v ∧
    Va_ConsPubKey v = mkPubKey "ed25519" "alice_key" ∧ Va_Status v = Bonded ∧
    vs_lastPowers (sg_vals (dr_end demo_r4)) !! a = Some 1.
Proof.
  apply (updates_reach_engine "pool_b" "pool_n" _ _ _ _ demo_ctx4 _ _ demo_mid4 (dn_end _ _ _ _ _ demo_ran4)).
  by vm_compute.
Defined.

Lemma demo_bob_out4 : "bob" ∈ vs_abandoned (sg_vals (dr_begun demo_r4)).
Proof. assert (vs_abandoned (sg_vals (dr_begun demo_r4)) = ["bob"]) as -> by by vm_compute. by left. Qed.
Lemma kicked_out_leaves_witness : vs_lastPowers (sg_vals (dr_end demo_r4)) !! "bob" = None.
Proof.
  destruct demo_ran4 as [H1 H2 H3 H4 H5].
  exact (proj1 (kicked_out_leaves "pool_b" "pool_n" _ _ _ _ _ _ _ _ _ _ _ _ _ "bob" demo_weights demo_ok3 H1 H2 H3 H4 H5
    (or_introl demo_bob_out4))).
Defined.

Lemma demo_ok3_in : in_block "pool_b" "pool_n" demo_engine3 all_banned 0 (dr_end demo_r3).
Proof. destruct demo_ok3 as [I _ Hl]. by split. Qed.
Definition demo_jailed : demo_chain := (HandleValidatorSignature demo_ctx4 "bob_key" 24 false (dr_end demo_r3)).2.
Lemma demo_jailed_run : HandleValidatorSignature demo_ctx4 "bob_key" 24 false (dr_end demo_r3) = (Ok (), demo_jailed).
Proof. by vm_compute. Qed.
Definition demo_get (s : demo_chain) (a : string) : Validator :=
  default (NewValidator "" (demo_key "") (mkDescription "" "" "" "") 0) (vs_validators (sg_vals s) !! a).
Lemma demo_bob3 : vs_validators (sg_vals (dr_end demo_r3)) !! "bob" = Some (demo_get (dr_end demo_r3) "bob").
Proof. by vm_compute. Qed.
Lemma downtime_jails_witness :
  vs_abandoned (sg_vals demo_jailed) = vs_abandoned (sg_vals (dr_end demo_r3)) ++ ["bob"].
Proof.
  destruct (downtime_jails "pool_b" "pool_n" _ _ _ _ _ _ _ _ _ _ demo_ok3_in demo_jailed_run) as (i & m & H1 & H2 & H3 & _).
  vm_compute in H1, H2. injection H1 as <-. injection H2 as <-.
  refine (proj1 (proj2 (H3 "bob" _ demo_bob3 _ _ _))); [by vm_compute|by vm_compute|split; by vm_compute].
Defined.

(** A validator that is destroyed while its operator waits for an
    undelegation. *)
Definition demo_waits : list StakingMsg := [MsgDeposit "bob" (demo_coin 50); MsgWithdraw "bob" (demo_coin 20)].
Definition demo_waiting : demo_chain := default demo_stake0 (snd <$> demo_steps demo_ctx3 demo_waits (dr_begun demo_r3)).
Lemma demo_mid_in l x s :
  Forall (λ m, demo_out (staking_signer m)) l → demo_steps demo_ctx3 l (dr_begun demo_r3) = Some (x, s) →
  in_block "pool_b" "pool_n" demo_engine2 (demo_bans demo_ctx3 demo_r3) x s.
Proof.
  intros Hl Hs. pose proof (demo_steps_ok _ _ _ _ _ Hl Hs) as Hb.
  destruct (block_steps_inv "pool_b" "pool_n" demo_weights _ _ _ _ _ _ Hb _ demo_begun3) as [I3 _]; done.
Qed.
Lemma demo_waiting_in : in_block "pool_b" "pool_n" demo_engine2 (demo_bans demo_ctx3 demo_r3) 0 demo_waiting.
Proof. apply (demo_mid_in demo_waits); [by repeat constructor|by vm_compute]. Qed.
Definition demo_destroyed : demo_chain := (handleMsgDestroyValidator demo_ctx3 "bob" demo_waiting).2.
Lemma destroy_strands_undelegation_witness :
  ck_balance (sg_k demo_destroyed) "pool_n" DefaultBondDenom
    = map_sum Ud_Quantity (st_undelegations (sg_stakes demo_destroyed)) + 20.
Proof.
  refine (proj1 (proj2 (destroy_strands_undelegation "pool_b" "pool_n" _ _ demo_waiting demo_ctx3 "bob"
    (demo_get demo_waiting "bob") (mkUndelegation "bob" 20 310) () demo_destroyed demo_waiting_in _ _ _ _))); [done|by vm_compute..].
Defined.

(** A delegator bound to a proxy that voted for the destroyed validator. *)
Definition demo_dismissal : list StakingMsg := [MsgDestroyValidator "bob"].
Definition demo_dismissed : demo_chain := default demo_stake0 (snd <$> demo_steps demo_ctx3 demo_dismissal (dr_begun demo_r3)).
Lemma demo_dismissed_in : in_block "pool_b" "pool_n" demo_engine2 (demo_bans demo_ctx3 demo_r3) 0 demo_dismissed.
Proof. apply (demo_mid_in demo_dismissal); [by repeat constructor|by vm_compute]. Qed.
Definition demo_delegator (a : string) : Delegator :=
  default (NewDelegator "") (st_delegators (sg_stakes demo_dismissed) !! a).
Lemma dismissed_vote_binds_witness : is_ok (Withdraw demo_ctx3 "erin" (demo_coin 1) demo_dismissed).1 = false.
Proof.
  refine (proj2 (dismissed_vote_binds "pool_b" "pool_n" _ _ _ demo_dismissed demo_ctx3 "erin" (demo_delegator "erin")
    (demo_delegator "carol") "bob" (demo_get demo_dismissed "bob") demo_dismissed_in _ _ _ _ _ _) (demo_coin 1));
    [by vm_compute..| |by vm_compute|by vm_compute].
  apply (bool_decide_eq_true_1 _). by vm_compute.
Defined.

(** ** The maximum *)

(** The maximum number of validators is not kept between epochs: on a
    chain that starts with nothing staked, evidence against a validator that
    already unbonds makes the end of the block promote a candidate although
    nobody leaves the set. *)
Theorem kick_out_overfills :
  ∃ E s, rtc (staking_block (C := Bank) "pool_b" "pool_n") (∅, 0, demo_stake0) (E, 0, s) ∧
    Sp_MaxValidators (sg_params s) < Z.of_nat (size (vs_lastPowers (sg_vals s))).
Proof. exists demo_engine5, (dr_end demo_r5). split; [exact demo_chain5|by vm_compute]. Qed.
