(* ===== verification/Gov.v ===== *)
(** * Governance ([x/gov])

    A proposal collects deposits until they reach a minimum, is then voted on
    with the shares of the staking module, and at the end of its voting time,
    or as soon as the votes decide it, it is passed to the handler of the
    module it belongs to or rejected; the deposits are refunded or go to the
    fee collector.

    The stores of the module ([Gov]) lie above the staking module, whose
    delegators and validators it reads, and above the coins behind that.  A
    key with a proposal in it has the eight bytes of its identifier with the
    lowest first, which decides the order of iterators; a time is written
    with a fixed number of digits.  The handlers of other modules are found
    through two routers, which are parameters of the model. *)
From S2P Require Import Prelude Decimal Denom Coins Bank CoinKeeper Token Swap Staking.
From Stdlib Require Import Ascii.
#[local] Open Scope Z_scope.

(** ** Data *)

Inductive ProposalStatus :=
  | StatusNil | StatusDepositPeriod | StatusVotingPeriod | StatusPassed | StatusRejected | StatusFailed.
#[global] Instance ProposalStatus_eq_dec : EqDecision ProposalStatus.
Proof. solve_decision. Defined.

Definition ProposalStatus_String (status : ProposalStatus) : string :=
  match status with
  | StatusDepositPeriod => "DepositPeriod"
  | StatusVotingPeriod => "VotingPeriod"
  | StatusPassed => "Passed"
  | StatusRejected => "Rejected"
  | StatusFailed => "Failed"
  | StatusNil => ""
  end.
Definition ProposalStatusFromString (str : string) : outcome ProposalStatus :=
  if String.eqb str "DepositPeriod" then Ok StatusDepositPeriod
  else if String.eqb str "VotingPeriod" then Ok StatusVotingPeriod
  else if String.eqb str "Passed" then Ok StatusPassed
  else if String.eqb str "Rejected" then Ok StatusRejected
  else if String.eqb str "Failed" then Ok StatusFailed
  else if String.eqb str "" then Ok StatusNil
  else Err (E "is not a valid proposal status").

(** A vote option is a byte. *)
Definition VoteOption : Type := Z.
Definition OptionEmpty : VoteOption := 0.
Definition OptionYes : VoteOption := 1.
Definition OptionAbstain : VoteOption := 2.
Definition OptionNo : VoteOption := 3.
Definition OptionNoWithVeto : VoteOption := 4.

Definition ValidVoteOption (option : VoteOption) : bool :=
  (option =? OptionYes) || (option =? OptionAbstain) || (option =? OptionNo) || (option =? OptionNoWithVeto).
Definition VoteOption_String (vo : VoteOption) : string :=
  if vo =? OptionYes then "Yes"
  else if vo =? OptionAbstain then "Abstain"
  else if vo =? OptionNo then "No"
  else if vo =? OptionNoWithVeto then "NoWithVeto"
  else "".
Definition VoteOptionFromString (str : string) : outcome VoteOption :=
  if String.eqb str "Yes" then Ok OptionYes
  else if String.eqb str "Abstain" then Ok OptionAbstain
  else if String.eqb str "No" then Ok OptionNo
  else if String.eqb str "NoWithVeto" then Ok OptionNoWithVeto
  else Err (E "is not a valid vote option").

Record GovVote := mkGovVote { Gv_ProposalID : Z; Gv_Voter : string; Gv_Option : VoteOption }.
Record Deposit := mkDeposit { Dp_ProposalID : Z; Dp_Depositor : string; Dp_Amount : list DecCoin }.

Record TallyResult := mkTallyResult {
  Tr_TotalPower : Dec; Tr_TotalVotedPower : Dec;
  Tr_Yes : Dec; Tr_Abstain : Dec; Tr_No : Dec; Tr_NoWithVeto : Dec }.
Definition EmptyTallyResult (totalVoting : Dec) : TallyResult :=
  mkTallyResult totalVoting ZeroDec ZeroDec ZeroDec ZeroDec ZeroDec.

Record DepositParams := mkDepositParams { Dq_MinDeposit : list DecCoin; Dq_MaxDepositPeriod : Z }.
Record TallyParams := mkTallyParams {
  Tp_Quorum : Dec; Tp_Threshold : Dec; Tp_Veto : Dec; Tp_YesInVotePeriod : Dec }.

(** The contents of proposals: those of this module, and those of others,
    which implement the same interface. *)
Class ModuleContent (X : Type) := {
  xc_Title : X → string; xc_Description : X → string;
  xc_Route : X → string; xc_Type : X → string;
  xc_ValidateBasic : X → outcome unit }.

Inductive Content (X : Type) :=
  | TextProposal (title description : string)
  | SoftwareUpgradeProposal (title description : string)
  | ModuleProposal (x : X).
Arguments TextProposal {X}.
Arguments SoftwareUpgradeProposal {X}.
Arguments ModuleProposal {X}.

Record Proposal (X : Type) := mkProposal {
  Pp_Content : Content X; Pp_ProposalID : Z; Pp_Status : ProposalStatus;
  Pp_FinalTallyResult : TallyResult; Pp_SubmitTime : Z; Pp_DepositEndTime : Z;
  Pp_TotalDeposit : list DecCoin; Pp_VotingStartTime : Z; Pp_VotingEndTime : Z }.
Arguments mkProposal {X}.
Arguments Pp_Content {X}.
Arguments Pp_ProposalID {X}.
Arguments Pp_Status {X}.
Arguments Pp_FinalTallyResult {X}.
Arguments Pp_SubmitTime {X}.
Arguments Pp_DepositEndTime {X}.
Arguments Pp_TotalDeposit {X}.
Arguments Pp_VotingStartTime {X}.
Arguments Pp_VotingEndTime {X}.

Record Gov (X : Type) := mkGov {
  gs_proposals : gmap Z (Proposal X);
  gs_deposits : gmap (Z * string) Deposit;
  gs_votes : gmap (Z * string) GovVote;
  gs_inactive : gset (Z * Z);
  gs_active : gset (Z * Z);
  gs_waiting : gset (Z * Z);
  gs_nextID : option Z;
  gs_depositParams : DepositParams;
  gs_votingPeriod : Z;
  gs_tallyParams : TallyParams }.
Arguments mkGov {X}.
Arguments gs_proposals {X}.
Arguments gs_deposits {X}.
Arguments gs_votes {X}.
Arguments gs_inactive {X}.
Arguments gs_active {X}.
Arguments gs_waiting {X}.
Arguments gs_nextID {X}.
Arguments gs_depositParams {X}.
Arguments gs_votingPeriod {X}.
Arguments gs_tallyParams {X}.

Record GovState (X K : Type) := mkGovState { gv_staking : StakingState K; gv_gov : Gov X }.
Arguments mkGovState {X K}.
Arguments gv_staking {X K}.
Arguments gv_gov {X K}.

Record MsgSubmitProposal (X : Type) := mkMsgSubmitProposal {
  Ms_Content : option (Content X); Ms_InitialDeposit : list DecCoin; Ms_Proposer : string }.
Arguments mkMsgSubmitProposal {X}.
Arguments Ms_Content {X}.
Arguments Ms_InitialDeposit {X}.
Arguments Ms_Proposer {X}.

Inductive GovMsg (X : Type) :=
  | MsgSubmit (msg : MsgSubmitProposal X)
  | MsgDeposit (proposalID : Z) (depositor : string) (amount : list DecCoin)
  | MsgVote (proposalID : Z) (voter : string) (option : VoteOption).
Arguments MsgSubmit {X}.
Arguments MsgDeposit {X}.
Arguments MsgVote {X}.

Definition GovModuleName : string := "gov".
Definition GovRouterKey : string := GovModuleName.
Definition ProposalTypeText : string := "Text".
Definition ProposalTypeSoftwareUpgrade : string := "SoftwareUpgrade".
Definition MaxDescriptionLength : nat := 5000.
Definition MaxTitleLength : nat := 140.
(** The zero [time.Time], in nanoseconds. *)
Definition zeroTime : Z := -62135596800 * nanosPerSecond.

(** ** Contents *)

(** [len(strings.TrimSpace(s)) == 0]: the string is a sequence of the
    encodings of white space. *)
Fixpoint isBlank (s : string) : bool :=
  match s with
  | "" => true
  | String c s1 =>
      let a := N_of_ascii c in
      ((((9 <=? a) && (a <=? 13)) || (a =? 32))%N && isBlank s1)
      || match s1 with
         | "" => false
         | String c2 s2 =>
             let b := N_of_ascii c2 in
             (((a =? 194) && ((b =? 133) || (b =? 160)))%N && isBlank s2)
             || match s2 with
                | "" => false
                | String c3 s3 =>
                    let d := N_of_ascii c3 in
                    ((((a =? 225) && (b =? 154) && (d =? 128))
                      || ((a =? 226) && (b =? 128)
                          && (((128 <=? d) && (d <=? 138)) || (d =? 168) || (d =? 169) || (d =? 175)))
                      || ((a =? 226) && (b =? 129) && (d =? 159))
                      || ((a =? 227) && (b =? 128) && (d =? 128)))%N && isBlank s3)
                end
         end
  end.

Definition ValidateAbstract (title description : string) : outcome unit :=
  if isBlank title then Err (E "ErrInvalidProposalContent")
  else if (MaxTitleLength <? String.length title)%nat then Err (E "ErrInvalidProposalContent")
  else if (String.length description =? 0)%nat then Err (E "ErrInvalidProposalContent")
  else if (MaxDescriptionLength <? String.length description)%nat then Err (E "ErrInvalidProposalContent")
  else Ok ().

Section Contents.
Context {X : Type} `{ModuleContent X}.

Definition GetTitle (c : Content X) : string :=
  match c with TextProposal t _ | SoftwareUpgradeProposal t _ => t | ModuleProposal x => xc_Title x end.
Definition GetDescription (c : Content X) : string :=
  match c with TextProposal _ d | SoftwareUpgradeProposal _ d => d | ModuleProposal x => xc_Description x end.
Definition ProposalRoute (c : Content X) : string :=
  match c with TextProposal _ _ | SoftwareUpgradeProposal _ _ => GovRouterKey | ModuleProposal x => xc_Route x end.
Definition ProposalType (c : Content X) : string :=
  match c with
  | TextProposal _ _ => ProposalTypeText
  | SoftwareUpgradeProposal _ _ => ProposalTypeSoftwareUpgrade
  | ModuleProposal x => xc_Type x
  end.
Definition Content_ValidateBasic (c : Content X) : outcome unit :=
  match c with
  | TextProposal t d | SoftwareUpgradeProposal t d => ValidateAbstract t d
  | ModuleProposal x => xc_ValidateBasic x
  end.

Definition NewProposal (totalVoting : Dec) (content : Content X) (id submitTime depositEndTime : Z)
    : Proposal X :=
  mkProposal content id StatusDepositPeriod (EmptyTallyResult totalVoting) submitTime depositEndTime []
    zeroTime zeroTime.

(** Assignments to the fields of a proposal. *)
Definition pp_set_status (st : ProposalStatus) (p : Proposal X) : Proposal X :=
  mkProposal (Pp_Content p) (Pp_ProposalID p) st (Pp_FinalTallyResult p) (Pp_SubmitTime p)
    (Pp_DepositEndTime p) (Pp_TotalDeposit p) (Pp_VotingStartTime p) (Pp_VotingEndTime p).
Definition pp_set_tally (t : TallyResult) (p : Proposal X) : Proposal X :=
  mkProposal (Pp_Content p) (Pp_ProposalID p) (Pp_Status p) t (Pp_SubmitTime p)
    (Pp_DepositEndTime p) (Pp_TotalDeposit p) (Pp_VotingStartTime p) (Pp_VotingEndTime p).
Definition pp_set_deposit (d : list DecCoin) (p : Proposal X) : Proposal X :=
  mkProposal (Pp_Content p) (Pp_ProposalID p) (Pp_Status p) (Pp_FinalTallyResult p) (Pp_SubmitTime p)
    (Pp_DepositEndTime p) d (Pp_VotingStartTime p) (Pp_VotingEndTime p).
Definition pp_set_depositEnd (t : Z) (p : Proposal X) : Proposal X :=
  mkProposal (Pp_Content p) (Pp_ProposalID p) (Pp_Status p) (Pp_FinalTallyResult p) (Pp_SubmitTime p)
    t (Pp_TotalDeposit p) (Pp_VotingStartTime p) (Pp_VotingEndTime p).
Definition pp_set_voting (start end_ : Z) (p : Proposal X) : Proposal X :=
  mkProposal (Pp_Content p) (Pp_ProposalID p) (Pp_Status p) (Pp_FinalTallyResult p) (Pp_SubmitTime p)
    (Pp_DepositEndTime p) (Pp_TotalDeposit p) start end_.
End Contents.

(** ** Routers *)

(** [isAlphaNumeric]. *)
Definition alphaNumeric (c : Ascii.ascii) : bool :=
  let a := N_of_ascii c in
  (((48 <=? a) && (a <=? 57)) || ((65 <=? a) && (a <=? 90)) || ((97 <=? a) && (a <=? 122)))%N.
Definition isAlphaNumeric (path : string) : bool :=
  negb (String.eqb path "") && forallb alphaNumeric (String.list_ascii_of_string path).

Record Router (A : Type) := mkRouter { rt_routes : gmap string A; rt_sealed : bool }.
Arguments mkRouter {A}.
Arguments rt_routes {A}.
Arguments rt_sealed {A}.

Definition NewRouter {A} : Router A := mkRouter ∅ false.
Definition Seal {A} (r : Router A) : outcome (Router A) :=
  if rt_sealed r then Panic "router already sealed" else Ok (mkRouter (rt_routes r) true).
Definition HasRoute {A} (r : Router A) (path : string) : bool := bool_decide (is_Some (rt_routes r !! path)).
Definition GetRoute {A} (r : Router A) (path : string) : outcome A :=
  match rt_routes r !! path with Some a => Ok a | None => Panic "route does not exist" end.
Definition AddRoute {A} (r : Router A) (path : string) (a : A) : outcome (Router A) :=
  if rt_sealed r then Panic "router sealed; cannot add route handler"
  else if negb (isAlphaNumeric path) then Panic "route expressions can only contain alphanumeric characters"
  else if HasRoute r path then Panic "route has already been initialized"
  else Ok (mkRouter (<[path := a]> (rt_routes r)) (rt_sealed r)).

Section Handlers.
Context (X K : Type).

(** [types.Handler], which executes a proposal that passed. *)
Definition Handler : Type := Ctx → Proposal X → M (GovState X K) unit.

(** The interface [ProposalHandler]: what a module says of its proposals, and
    what it does when they advance. *)
Record ProposalHandler := mkProposalHandler {
  ph_GetMinDeposit : Content X → M (GovState X K) (list DecCoin);
  ph_GetMaxDepositPeriod : Content X → M (GovState X K) Z;
  ph_GetVotingPeriod : Content X → M (GovState X K) Z;
  ph_CheckMsgSubmitProposal : Ctx → MsgSubmitProposal X → M (GovState X K) unit;
  ph_AfterSubmitProposalHandler : Ctx → Proposal X → M (GovState X K) unit;
  ph_VoteHandler : Ctx → Proposal X → GovVote → M (GovState X K) string;
  ph_AfterDepositPeriodPassed : Ctx → Proposal X → M (GovState X K) unit;
  ph_RejectedHandler : Ctx → Content X → M (GovState X K) unit }.

(** What the keeper is built with: the two routers, the types of proposals
    that modules have registered, the name of the fee collector, and the
    order in which the entries of a Go map are visited. *)
Class GovConfig := {
  gc_router : Router Handler;
  gc_handlers : Router ProposalHandler;
  gc_types : gset string;
  gc_feeCollectorName : string;
  gc_range : ∀ {A}, gmap string A → list (string * A) }.
End Handlers.
Arguments ph_GetMinDeposit {X K}.
Arguments ph_GetMaxDepositPeriod {X K}.
Arguments ph_GetVotingPeriod {X K}.
Arguments ph_CheckMsgSubmitProposal {X K}.
Arguments ph_AfterSubmitProposalHandler {X K}.
Arguments ph_VoteHandler {X K}.
Arguments ph_AfterDepositPeriodPassed {X K}.
Arguments ph_RejectedHandler {X K}.
Arguments mkProposalHandler {X K}.
Arguments gc_router {X K _}.
Arguments gc_handlers {X K _}.
Arguments gc_types {X K _}.
Arguments gc_feeCollectorName {X K _}.
Arguments gc_range {X K _ A}.

(** ** Keys *)

(** [binary.LittleEndian.PutUint64] for [n] bytes. *)
Fixpoint littleEndian (n : nat) (x : Z) : string :=
  match n with
  | O => ""
  | S n => String (ascii_of_N (Z.to_N (x mod 256))) (littleEndian n (x / 256))
  end.
Definition idKey (proposalID : Z) : string := littleEndian 8 proposalID.

(** Entries of a queue in the order of their keys: by time, or by the big
    endian height, and then by the identifier. *)
Definition queue_le (a b : Z * Z) : Prop := time_key_le (a.1, idKey a.2) (b.1, idKey b.2).
#[global] Instance queue_le_dec a b : Decision (queue_le a b).
Proof. unfold queue_le. apply _. Defined.
Definition queueUpTo (bound : Z) (q : gset (Z * Z)) : list (Z * Z) :=
  base.filter (λ x, x.1 ≤ bound) (merge_sort queue_le (elements q)).

(** The values under the keys of an identifier and an address. *)
Definition byKey {V} (l : list (Z * string * V)) : list V :=
  snd <$> merge_sort key_le ((λ x, (idKey x.1.1 +:+ x.1.2, x.2)) <$> l).
Definition underID {V} (proposalID : Z) (m : gmap (Z * string) V) : list V :=
  byKey (map_to_list (base.filter (λ x : Z * string * V, x.1.1 = proposalID) m)).

(** A handler that runs on a cached context: its writes are kept if it
    returns no error. *)
Definition cached {S A} (m : M S A) : M S (outcome A) := λ s,
  match m s with
  | (Ok a, s') => (Ok (Ok a), s')
  | (Err e, _) => (Ok (Err e), s)
  | (Panic p, s') => (Panic p, s')
  end.

Section GovKeeper.
Context {X K : Type} `{ModuleContent X} `{CoinKeeper K} `{!GovConfig X K}.

(** ** The store *)

Definition gv_set_staking (t : StakingState K) (s : GovState X K) : GovState X K := mkGovState t (gv_gov s).
Definition gv_set_gov (g : Gov X) (s : GovState X K) : GovState X K := mkGovState (gv_staking s) g.
Definition on_staking {A} (m : M (StakingState K) A) : M (GovState X K) A := zoom gv_staking gv_set_staking m.
Definition on_supplyKeeper {A} (m : M K A) : M (GovState X K) A := on_staking (on_keeper m).
Definition write (f : Gov X → Gov X) : M (GovState X K) unit := modify (λ s, gv_set_gov (f (gv_gov s)) s).
Definition read {A} (f : Gov X → A) : M (GovState X K) A := gets (λ s, f (gv_gov s)).

Definition gs_set_proposals (f : gmap Z (Proposal X) → gmap Z (Proposal X)) (g : Gov X) : Gov X :=
  mkGov (f (gs_proposals g)) (gs_deposits g) (gs_votes g) (gs_inactive g) (gs_active g) (gs_waiting g)
    (gs_nextID g) (gs_depositParams g) (gs_votingPeriod g) (gs_tallyParams g).
Definition gs_set_deposits (f : gmap (Z * string) Deposit → gmap (Z * string) Deposit) (g : Gov X) : Gov X :=
  mkGov (gs_proposals g) (f (gs_deposits g)) (gs_votes g) (gs_inactive g) (gs_active g) (gs_waiting g)
    (gs_nextID g) (gs_depositParams g) (gs_votingPeriod g) (gs_tallyParams g).
Definition gs_set_votes (f : gmap (Z * string) GovVote → gmap (Z * string) GovVote) (g : Gov X) : Gov X :=
  mkGov (gs_proposals g) (gs_deposits g) (f (gs_votes g)) (gs_inactive g) (gs_active g) (gs_waiting g)
    (gs_nextID g) (gs_depositParams g) (gs_votingPeriod g) (gs_tallyParams g).
Definition gs_set_inactive (f : gset (Z * Z) → gset (Z * Z)) (g : Gov X) : Gov X :=
  mkGov (gs_proposals g) (gs_deposits g) (gs_votes g) (f (gs_inactive g)) (gs_active g) (gs_waiting g)
    (gs_nextID g) (gs_depositParams g) (gs_votingPeriod g) (gs_tallyParams g).
Definition gs_set_active (f : gset (Z * Z) → gset (Z * Z)) (g : Gov X) : Gov X :=
  mkGov (gs_proposals g) (gs_deposits g) (gs_votes g) (gs_inactive g) (f (gs_active g)) (gs_waiting g)
    (gs_nextID g) (gs_depositParams g) (gs_votingPeriod g) (gs_tallyParams g).
Definition gs_set_waiting (f : gset (Z * Z) → gset (Z * Z)) (g : Gov X) : Gov X :=
  mkGov (gs_proposals g) (gs_deposits g) (gs_votes g) (gs_inactive g) (gs_active g) (f (gs_waiting g))
    (gs_nextID g) (gs_depositParams g) (gs_votingPeriod g) (gs_tallyParams g).
Definition gs_set_nextID (n : Z) (g : Gov X) : Gov X :=
  mkGov (gs_proposals g) (gs_deposits g) (gs_votes g) (gs_inactive g) (gs_active g) (gs_waiting g)
    (Some n) (gs_depositParams g) (gs_votingPeriod g) (gs_tallyParams g).
Definition gs_set_params (d : DepositParams) (v : Z) (t : TallyParams) (g : Gov X) : Gov X :=
  mkGov (gs_proposals g) (gs_deposits g) (gs_votes g) (gs_inactive g) (gs_active g) (gs_waiting g)
    (gs_nextID g) d v t.

Definition GetDepositParams : M (GovState X K) DepositParams := read gs_depositParams.
Definition GetVotingParams : M (GovState X K) Z := read gs_votingPeriod.
Definition GetTallyParams : M (GovState X K) TallyParams := read gs_tallyParams.

Definition GetProposal (proposalID : Z) : M (GovState X K) (option (Proposal X)) :=
  read (λ g, gs_proposals g !! proposalID).
Definition SetProposal (p : Proposal X) : M (GovState X K) unit :=
  write (gs_set_proposals <[Pp_ProposalID p := p]>).
Definition GetProposalID : M (GovState X K) Z :=
  o ← read gs_nextID;
  match o with Some n => mret n | None => fail "ErrInvalidGenesis" end.
Definition SetProposalID (proposalID : Z) : M (GovState X K) unit := write (gs_set_nextID proposalID).

Definition InsertActiveProposalQueue (proposalID endTime : Z) : M (GovState X K) unit :=
  write (gs_set_active (λ q, {[ (endTime, proposalID) ]} ∪ q)).
Definition RemoveFromActiveProposalQueue (proposalID endTime : Z) : M (GovState X K) unit :=
  write (gs_set_active (λ q, q ∖ {[ (endTime, proposalID) ]})).
Definition InsertInactiveProposalQueue (proposalID endTime : Z) : M (GovState X K) unit :=
  write (gs_set_inactive (λ q, {[ (endTime, proposalID) ]} ∪ q)).
Definition RemoveFromInactiveProposalQueue (proposalID endTime : Z) : M (GovState X K) unit :=
  write (gs_set_inactive (λ q, q ∖ {[ (endTime, proposalID) ]})).
Definition InsertWaitingProposalQueue (blockHeight proposalID : Z) : M (GovState X K) unit :=
  write (gs_set_waiting (λ q, {[ (blockHeight, proposalID) ]} ∪ q)).
Definition RemoveFromWaitingProposalQueue (blockHeight proposalID : Z) : M (GovState X K) unit :=
  write (gs_set_waiting (λ q, q ∖ {[ (blockHeight, proposalID) ]})).

Definition DeleteProposal (proposalID : Z) : M (GovState X K) unit :=
  o ← GetProposal proposalID;
  match o with
  | None => panic "couldn't find proposal"
  | Some p =>
      _ ← RemoveFromInactiveProposalQueue proposalID (Pp_DepositEndTime p);
      _ ← RemoveFromActiveProposalQueue proposalID (Pp_VotingEndTime p);
      write (gs_set_proposals (delete proposalID))
  end.

Definition GetDeposit (proposalID : Z) (depositorAddr : string) : M (GovState X K) (option Deposit) :=
  read (λ g, gs_deposits g !! (proposalID, depositorAddr)).
Definition SetDeposit (d : Deposit) : M (GovState X K) unit :=
  write (gs_set_deposits <[(Dp_ProposalID d, Dp_Depositor d) := d]>).
Definition deleteDeposit (proposalID : Z) (depositorAddr : string) : M (GovState X K) unit :=
  write (gs_set_deposits (delete (proposalID, depositorAddr))).
Definition GetDeposits (proposalID : Z) : M (GovState X K) (list Deposit) :=
  read (λ g, underID proposalID (gs_deposits g)).
Definition GetAllDeposits : M (GovState X K) (list Deposit) :=
  read (λ g, byKey (map_to_list (gs_deposits g))).

Definition SetVote (proposalID : Z) (v : GovVote) : M (GovState X K) unit :=
  write (gs_set_votes <[(proposalID, Gv_Voter v) := v]>).
Definition GetVotes (proposalID : Z) : M (GovState X K) (list GovVote) :=
  read (λ g, underID proposalID (gs_votes g)).
Definition deleteVote (proposalID : Z) (voterAddr : string) : M (GovState X K) unit :=
  write (gs_set_votes (delete (proposalID, voterAddr))).
Definition DeleteVotes (proposalID : Z) : M (GovState X K) unit :=
  votes ← GetVotes proposalID;
  for_each (λ v, deleteVote (Gv_ProposalID v) (Gv_Voter v)) votes.

(** [IterateActiveProposalsQueue] and its two siblings. *)
Definition iterateQueue (queue : Gov X → gset (Z * Z)) (bound : Z) (cb : Proposal X → M (GovState X K) unit)
    : M (GovState X K) unit :=
  keys ← read (λ g, queueUpTo bound (queue g));
  for_each (λ key : Z * Z,
    o ← GetProposal key.2;
    match o with None => panic "proposal does not exist" | Some p => cb p end) keys.

(** ** The module's own proposals *)

Definition gov_ProposalHandler : Handler X K := λ _ p,
  let ty := ProposalType (Pp_Content p) in
  if String.eqb ty ProposalTypeText || String.eqb ty ProposalTypeSoftwareUpgrade then mret ()
  else fail "ErrUnknownRequest".

Definition gov_CheckMsgSubmitProposal (_ : Ctx) (msg : MsgSubmitProposal X) : M (GovState X K) unit :=
  params ← GetDepositParams;
  tenth ← lift (NewDecWithPrec 1 1);
  initDeposit ← lift (DecCoins_MulDec (Dq_MinDeposit params) tenth);
  _ ← replaceErr "ErrInitialDepositNotEnough" (lift (HasSufficientCoins (Ms_InitialDeposit msg) initDeposit));
  coins ← on_supplyKeeper (ck_GetCoins (Ms_Proposer msg));
  replaceErr "ErrInsufficientCoins" (lift (HasSufficientCoins coins (Ms_InitialDeposit msg))).

(** The keeper as the handler of its own proposals. *)
Definition gov_handlers : ProposalHandler X K :=
  mkProposalHandler
    (λ _, read (λ g, Dq_MinDeposit (gs_depositParams g)))
    (λ _, read (λ g, Dq_MaxDepositPeriod (gs_depositParams g)))
    (λ _, GetVotingParams)
    gov_CheckMsgSubmitProposal
    (λ _ _, mret ()) (λ _ _ _, mret "") (λ _ _, mret ()) (λ _ _, mret ()).

(** [NewKeeper]: the handlers are sealed, and the keeper is added to those
    that advance proposals. *)
Definition gov_NewKeeper (rtr : Router (Handler X K)) (phr : Router (ProposalHandler X K))
    : outcome (Router (Handler X K) * Router (ProposalHandler X K)) :=
  match ck_modaddr GovModuleName with
  | None => Panic "gov module account has not been set"
  | Some _ =>
      rtr ← Seal rtr;
      phr ← AddRoute phr GovRouterKey gov_handlers;
      Ok (rtr, phr)
  end.

(** The handler of a route, or the keeper's own methods, of which those that
    the code leaves out for a route without handler do nothing. *)
Definition handlers_of (path : string) : outcome (ProposalHandler X K) :=
  if HasRoute gc_handlers path then GetRoute gc_handlers path else Ok gov_handlers.

(** ** The validators and delegators of the staking module *)

Fixpoint bondedLoop (addrs : list string) (room : nat) : M (StakingState K) (list Validator) :=
  match addrs, room with
  | [], _ | _, O => mret []
  | address :: addrs, S less =>
      validator ← mustGetValidator address;
      if IsBonded validator then
        rest ← bondedLoop addrs less; mret (validator :: rest)
      else bondedLoop addrs room
  end.
(** The validators that [IterateBondedValidatorsByPower] visits. *)
Definition BondedValidatorsByPower : M (StakingState K) (list Validator) :=
  maxValidators ← gets (λ s, Sp_MaxValidators (sg_params s));
  addrs ← gets powerIndexReverse;
  bondedLoop addrs (Z.to_nat maxValidators).
Definition staking_IsValidator (addr : string) : M (StakingState K) bool :=
  vals ← BondedValidatorsByPower;
  mret (bool_decide (addr ∈ Va_OperatorAddress <$> vals)).

Fixpoint sumShares (acc : Dec) (l : list Validator) : outcome Dec :=
  match l with
  | [] => Ok acc
  | v :: l => acc ← Dec_Add acc (Va_DelegatorShares v); sumShares acc l
  end.
Definition gov_totalPower : M (GovState X K) Dec :=
  vals ← on_staking BondedValidatorsByPower;
  lift (sumShares ZeroDec vals).

(** ** The count of the votes *)

Record validatorGovInfo := mkInfo {
  gi_Address : string; gi_BondedTokens : Int; gi_DelegatorShares : Dec;
  gi_DelegatorDeductions : Dec; gi_Vote : VoteOption }.
Definition gi_set_vote (o : VoteOption) (v : validatorGovInfo) : validatorGovInfo :=
  mkInfo (gi_Address v) (gi_BondedTokens v) (gi_DelegatorShares v) (gi_DelegatorDeductions v) o.
Definition gi_set_deductions (x : Dec) (v : validatorGovInfo) : validatorGovInfo :=
  mkInfo (gi_Address v) (gi_BondedTokens v) (gi_DelegatorShares v) x (gi_Vote v).

(** The variables of the count. *)
Record Count := mkCount {
  ct_validators : gmap string validatorGovInfo;
  ct_results : gmap VoteOption Dec;
  ct_totalPower : Dec;
  ct_totalVotedPower : Dec;
  ct_voterPower : Dec }.

(** [results[option] = results[option].Add(power)]; the decimal of a missing
    key is nil. *)
Definition addResult (option : VoteOption) (power : Dec) (results : gmap VoteOption Dec)
    : outcome (gmap VoteOption Dec) :=
  match results !! option with
  | None => Panic "nil pointer dereference"
  | Some r => r ← Dec_Add r power; Ok (<[option := r]> results)
  end.

(** One of the validators that a delegator who voted has shares on. *)
Definition tallyDeduction (voteP : option GovVote) (vote : GovVote) (shares : Dec) (c : Count) (val : string)
    : outcome Count :=
  match ct_validators c !! val with
  | None => Ok c
  | Some valInfo =>
      deductions ← Dec_Add (gi_DelegatorDeductions valInfo) shares;
      _ ← match voteP with
          | Some v => if String.eqb (Gv_Voter vote) (Gv_Voter v) then Dec_Add (ct_voterPower c) shares else Ok 0
          | None => Ok 0
          end;
      results ← addResult (Gv_Option vote) shares (ct_results c);
      total ← Dec_Add (ct_totalVotedPower c) shares;
      Ok (mkCount (<[val := gi_set_deductions deductions valInfo]> (ct_validators c)) results
            (ct_totalPower c) total (ct_voterPower c))
  end.
Fixpoint tallyDeductions (voteP : option GovVote) (vote : GovVote) (shares : Dec) (c : Count) (vals : list string)
    : outcome Count :=
  match vals with
  | [] => Ok c
  | val :: vals => c ← tallyDeduction voteP vote shares c val; tallyDeductions voteP vote shares c vals
  end.
Fixpoint tallyDelegatorVotes (delegators : gmap string Delegator) (voteP : option GovVote) (c : Count)
    (votes : list GovVote) : outcome Count :=
  match votes with
  | [] => Ok c
  | vote :: votes =>
      c ← match ct_validators c !! Gv_Voter vote with
          | Some val =>
              Ok (mkCount (<[Gv_Voter vote := gi_set_vote (Gv_Option vote) val]> (ct_validators c)) (ct_results c)
                    (ct_totalPower c) (ct_totalVotedPower c) (ct_voterPower c))
          | None =>
              match delegators !! Gv_Voter vote with
              | None => Ok c
              | Some d => tallyDeductions voteP vote (De_Shares d) c (De_ValidatorAddresses d)
              end
          end;
      tallyDelegatorVotes delegators voteP c votes
  end.

Definition tallyValidator (voteP : option GovVote) (c : Count) (key : string) (val : validatorGovInfo)
    : outcome Count :=
  totalPower ← Dec_Add (ct_totalPower c) (gi_DelegatorShares val);
  if gi_Vote val =? OptionEmpty then
    Ok (mkCount (ct_validators c) (ct_results c) totalPower (ct_totalVotedPower c) (ct_voterPower c))
  else
    valid ← Dec_Sub (gi_DelegatorShares val) (gi_DelegatorDeductions val);
    voterPower ← match voteP with
                 | Some v => if String.eqb (Gv_Voter v) key then Dec_Add (ct_voterPower c) valid
                             else Ok (ct_voterPower c)
                 | None => Ok (ct_voterPower c)
                 end;
    results ← addResult (gi_Vote val) valid (ct_results c);
    total ← Dec_Add (ct_totalVotedPower c) valid;
    Ok (mkCount (ct_validators c) results totalPower total voterPower).
Fixpoint tallyValidatorVotes (voteP : option GovVote) (c : Count) (l : list (string * validatorGovInfo))
    : outcome Count :=
  match l with
  | [] => Ok c
  | (key, val) :: l => c ← tallyValidator voteP c key val; tallyValidatorVotes voteP c l
  end.

Definition newValidatorGovInfo (v : Validator) : validatorGovInfo :=
  mkInfo (Va_OperatorAddress v) (if IsBonded v then Va_Tokens v else 0) (Va_DelegatorShares v) ZeroDec OptionEmpty.
Definition govValidators (l : list Validator) : gmap string validatorGovInfo :=
  foldl (λ m v, <[Va_OperatorAddress v := newValidatorGovInfo v]> m) ∅ l.
Definition zeroResults : gmap VoteOption Dec :=
  <[OptionYes := ZeroDec]> (<[OptionAbstain := ZeroDec]> (<[OptionNo := ZeroDec]>
    (<[OptionNoWithVeto := ZeroDec]> ∅))).

Definition preTally (p : Proposal X) (voteP : option GovVote)
    : M (GovState X K) (gmap VoteOption Dec * Dec * Dec) :=
  vals ← on_staking BondedValidatorsByPower;
  votes ← GetVotes (Pp_ProposalID p);
  delegators ← gets (λ s, st_delegators (sg_stakes (gv_staking s)));
  let c := mkCount (govValidators vals) zeroResults ZeroDec ZeroDec ZeroDec in
  c ← lift (tallyDelegatorVotes delegators voteP c (votes ++ from_option (λ v, [v]) [] voteP));
  c ← lift (tallyValidatorVotes voteP c (gc_range (ct_validators c)));
  rate ← (if Dec_GT (ct_totalPower c) ZeroDec then lift (Dec_Quo (ct_voterPower c) (ct_totalPower c))
          else mret ZeroDec);
  mret (ct_results c, ct_totalVotedPower c, rate).

(** A nil decimal, which a missing key would give, never occurs: the map has
    the four options from the start. *)
Definition NewTallyResultFromMap (results : gmap VoteOption Dec) (totalPower totalVoted : Dec) : TallyResult :=
  let at_ o := default ZeroDec (results !! o) in
  mkTallyResult totalPower totalVoted (at_ OptionYes) (at_ OptionAbstain) (at_ OptionNo) (at_ OptionNoWithVeto).

Definition tallyStatusInVotePeriod (tallyParams : TallyParams) (t : TallyResult) : outcome (ProposalStatus * bool) :=
  let totalPower := Tr_TotalPower t in
  if Dec_IsZero totalPower then Ok (StatusRejected, false) else
  voting ← Dec_Sub totalPower (Tr_Abstain t);
  if Dec_Equal voting ZeroDec then Ok (StatusRejected, false) else
  veto ← Dec_Quo (Tr_NoWithVeto t) totalPower;
  if Dec_GT veto (Tp_Veto tallyParams) then Ok (StatusRejected, true) else
  against ← Dec_Add (Tr_NoWithVeto t) (Tr_No t);
  voting ← Dec_Sub totalPower (Tr_Abstain t);
  share ← Dec_Quo against voting;
  if Dec_GTE share (Tp_Threshold tallyParams) then Ok (StatusRejected, false) else
  yes ← Dec_Quo (Tr_Yes t) totalPower;
  if Dec_GT yes (Tp_YesInVotePeriod tallyParams) then Ok (StatusPassed, false)
  else Ok (StatusVotingPeriod, false).

Definition tallyStatusExpireVotePeriod (tallyParams : TallyParams) (t : TallyResult)
    : outcome (ProposalStatus * bool) :=
  let totalVoted := Tr_TotalVotedPower t in
  let totalPower := Tr_TotalPower t in
  if Dec_IsZero totalPower then Ok (StatusRejected, false) else
  percentVoting ← Dec_Quo totalVoted totalPower;
  if Dec_LT percentVoting (Tp_Quorum tallyParams) then Ok (StatusRejected, true) else
  voting ← Dec_Sub totalVoted (Tr_Abstain t);
  if Dec_Equal voting ZeroDec then Ok (StatusRejected, false) else
  veto ← Dec_Quo (Tr_NoWithVeto t) totalVoted;
  if Dec_GT veto (Tp_Veto tallyParams) then Ok (StatusRejected, true) else
  voting ← Dec_Sub totalVoted (Tr_Abstain t);
  yes ← Dec_Quo (Tr_Yes t) voting;
  if Dec_GT yes (Tp_Threshold tallyParams) then Ok (StatusPassed, false) else Ok (StatusRejected, false).

Definition Tally (p : Proposal X) (isExpireVoteEndTime : bool)
    : M (GovState X K) (ProposalStatus * bool * TallyResult) :=
  '(results, totalVotedPower, _) ← preTally p None;
  totalPower ← gov_totalPower;
  let tallyResults := NewTallyResultFromMap results totalPower totalVotedPower in
  tallyParams ← GetTallyParams;
  '(status, distribute) ← lift (if isExpireVoteEndTime then tallyStatusExpireVotePeriod tallyParams tallyResults
                                else tallyStatusInVotePeriod tallyParams tallyResults);
  mret (status, distribute, tallyResults).

(** ** Proposals and deposits *)

Definition SubmitProposal (ctx : Ctx) (content : Content X) : M (GovState X K) (Proposal X) :=
  _ ← guard_not (negb (HasRoute gc_router (ProposalRoute content))) "ErrNoProposalHandlerExists";
  proposalID ← GetProposalID;
  let submitTime := BlockTime ctx in
  ph ← lift (handlers_of (ProposalRoute content));
  depositPeriod ← ph_GetMaxDepositPeriod ph content;
  totalPower ← gov_totalPower;
  let p := NewProposal totalPower content proposalID submitTime (submitTime + depositPeriod) in
  _ ← SetProposal p;
  _ ← InsertInactiveProposalQueue proposalID (Pp_DepositEndTime p);
  _ ← SetProposalID ((proposalID + 1) mod 2 ^ 64);
  _ ← ph_AfterSubmitProposalHandler ph ctx p;
  mret p.

Definition activateVotingPeriod (ctx : Ctx) (p : Proposal X) : M (GovState X K) (Proposal X) :=
  ph ← lift (handlers_of (ProposalRoute (Pp_Content p)));
  votingPeriod ← ph_GetVotingPeriod ph (Pp_Content p);
  let p := pp_set_status StatusVotingPeriod (pp_set_voting (BlockTime ctx) (BlockTime ctx + votingPeriod) p) in
  _ ← RemoveFromInactiveProposalQueue (Pp_ProposalID p) (Pp_DepositEndTime p);
  _ ← InsertActiveProposalQueue (Pp_ProposalID p) (Pp_VotingEndTime p);
  mret p.

Definition tryEnterVotingPeriod (ctx : Ctx) (p : Proposal X) (depositAmount : list DecCoin)
    : M (GovState X K) unit :=
  total ← lift (DecCoins_Add (Pp_TotalDeposit p) depositAmount);
  let p := pp_set_deposit total p in
  ph ← lift (handlers_of (ProposalRoute (Pp_Content p)));
  minDeposit ← ph_GetMinDeposit ph (Pp_Content p);
  enough ← (if bool_decide (Pp_Status p = StatusDepositPeriod)
            then lift (DecCoins_IsAllGTE (Pp_TotalDeposit p) minDeposit) else mret false);
  if (enough : bool) then
    p ← activateVotingPeriod ctx p;
    let p := pp_set_depositEnd (BlockTime ctx) p in
    _ ← SetProposal p;
    ph_AfterDepositPeriodPassed ph ctx p
  else SetProposal p.

Definition updateDeposit (proposalID : Z) (depositorAddr : string) (depositAmount : list DecCoin)
    : M (GovState X K) unit :=
  o ← GetDeposit proposalID depositorAddr;
  d ← match o with
      | Some d =>
          amount ← lift (DecCoins_Add (Dp_Amount d) depositAmount);
          mret (mkDeposit (Dp_ProposalID d) (Dp_Depositor d) amount)
      | None => mret (mkDeposit proposalID depositorAddr depositAmount)
      end;
  SetDeposit d.

Definition AddDeposit (ctx : Ctx) (proposalID : Z) (depositorAddr : string) (depositAmount : list DecCoin)
    : M (GovState X K) unit :=
  o ← GetProposal proposalID;
  match o with
  | None => fail "ErrUnknownProposal"
  | Some p =>
      _ ← guard_not (negb (bool_decide (Pp_Status p = StatusDepositPeriod))) "ErrInvalidateProposalStatus";
      _ ← on_supplyKeeper (ck_SendCoinsFromAccountToModule depositorAddr GovModuleName depositAmount);
      _ ← tryEnterVotingPeriod ctx p depositAmount;
      updateDeposit proposalID depositorAddr depositAmount
  end.

(** [RefundDeposits] and [DistributeDeposits]: what is done with the coins of
    a deposit before it is deleted. *)
Definition payDeposits (pay : Deposit → M K unit) (proposalID : Z) : M (GovState X K) unit :=
  deposits ← GetDeposits proposalID;
  for_each (λ d,
    _ ← orPanic (on_supplyKeeper (pay d));
    deleteDeposit proposalID (Dp_Depositor d)) deposits.
Definition RefundDeposits (proposalID : Z) : M (GovState X K) unit :=
  payDeposits (λ d, ck_SendCoinsFromModuleToAccount GovModuleName (Dp_Depositor d) (Dp_Amount d)) proposalID.
Definition DistributeDeposits (proposalID : Z) : M (GovState X K) unit :=
  payDeposits (λ d, ck_SendCoinsFromModuleToModule GovModuleName gc_feeCollectorName (Dp_Amount d)) proposalID.
(** [DeleteDeposits], which burns the coins. *)
Definition DeleteDeposits (proposalID : Z) : M (GovState X K) unit :=
  payDeposits (λ d, ck_BurnCoins GovModuleName (Dp_Amount d)) proposalID.

Definition AddVote (ctx : Ctx) (proposalID : Z) (voterAddr : string) (option : VoteOption)
    : M (GovState X K) string :=
  o ← GetProposal proposalID;
  match o with
  | None => fail "ErrUnknownProposal"
  | Some p =>
      _ ← guard_not (negb (bool_decide (Pp_Status p = StatusVotingPeriod))) "ErrInvalidateProposalStatus";
      _ ← guard_not (negb (ValidVoteOption option)) "ErrInvalidVote";
      let vote := mkGovVote proposalID voterAddr option in
      ph ← lift (handlers_of (ProposalRoute (Pp_Content p)));
      voteFeeStr ← ph_VoteHandler ph ctx p vote;
      _ ← SetVote proposalID vote;
      mret voteFeeStr
  end.

(** ** Handlers *)

Definition hasOnlyDefaultBondDenom (decCoins : list DecCoin) : bool :=
  match decCoins with
  | [c] => String.eqb (Denom c) DefaultBondDenom && DecCoins_IsValid decCoins
  | _ => false
  end.

Definition handleMsgSubmitProposal (ctx : Ctx) (msg : MsgSubmitProposal X) : M (GovState X K) Z :=
  _ ← guard_not (negb (hasOnlyDefaultBondDenom (Ms_InitialDeposit msg))) "ErrInvalidCoins";
  match Ms_Content msg with
  | None => panic "nil pointer dereference"
  | Some content =>
      ph ← lift (handlers_of (ProposalRoute content));
      _ ← ph_CheckMsgSubmitProposal ph ctx msg;
      p ← SubmitProposal ctx content;
      _ ← AddDeposit ctx (Pp_ProposalID p) (Ms_Proposer msg) (Ms_InitialDeposit msg);
      mret (Pp_ProposalID p)
  end.

Definition gov_handleMsgDeposit (ctx : Ctx) (proposalID : Z) (depositor : string) (amount : list DecCoin)
    : M (GovState X K) unit :=
  _ ← guard_not (negb (hasOnlyDefaultBondDenom amount)) "ErrInvalidCoins";
  coins ← on_supplyKeeper (ck_GetCoins depositor);
  _ ← replaceErr "ErrInsufficientCoins" (lift (HasSufficientCoins coins amount));
  AddDeposit ctx proposalID depositor amount.

(** The proposal with the status that the count has given it. *)
Definition handleProposalAfterTally (ctx : Ctx) (p : Proposal X) (distribute : bool) (status : ProposalStatus)
    : M (GovState X K) (Proposal X) :=
  _ ← (if distribute then DistributeDeposits (Pp_ProposalID p) else RefundDeposits (Pp_ProposalID p));
  match status with
  | StatusPassed =>
      handler ← lift (GetRoute gc_router (ProposalRoute (Pp_Content p)));
      r ← cached (handler ctx p);
      mret (pp_set_status (if is_ok r then StatusPassed else StatusFailed) p)
  | StatusRejected =>
      ph ← lift (handlers_of (ProposalRoute (Pp_Content p)));
      _ ← ph_RejectedHandler ph ctx (Pp_Content p);
      mret (pp_set_status StatusRejected p)
  | _ => mret p
  end.

Definition handleMsgVote (ctx : Ctx) (proposalID : Z) (voter : string) (option : VoteOption)
    : M (GovState X K) unit :=
  o ← GetProposal proposalID;
  match o with
  | None => fail "ErrUnknownProposal"
  | Some p =>
      _ ← AddVote ctx proposalID voter option;
      '(status, distribute, tallyResults) ← Tally p false;
      let p := pp_set_tally tallyResults p in
      p ← (if bool_decide (status = StatusVotingPeriod) then mret p else
             p ← handleProposalAfterTally ctx p distribute status;
             _ ← RemoveFromActiveProposalQueue (Pp_ProposalID p) (Pp_VotingEndTime p);
             let p := pp_set_voting (Pp_VotingStartTime p) (BlockTime ctx) p in
             _ ← DeleteVotes (Pp_ProposalID p);
             mret p);
      SetProposal p
  end.

Definition gov_NewHandler (ctx : Ctx) (msg : GovMsg X) : M (GovState X K) unit :=
  match msg with
  | MsgDeposit proposalID depositor amount => gov_handleMsgDeposit ctx proposalID depositor amount
  | MsgSubmit msg => _ ← handleMsgSubmitProposal ctx msg; mret ()
  | MsgVote proposalID voter option => handleMsgVote ctx proposalID voter option
  end.

Definition IsValidProposalType (ty : string) : bool :=
  bool_decide (ty ∈ ({[ ProposalTypeText; ProposalTypeSoftwareUpgrade ]} ∪ gc_types)).

Definition MsgSubmitProposal_ValidateBasic (msg : MsgSubmitProposal X) : outcome unit :=
  match Ms_Content msg with
  | None => Err (E "ErrInvalidProposalContent")
  | Some content =>
      if String.eqb (ProposalType content) ProposalTypeSoftwareUpgrade then Err (E "ErrInvalidProposalType")
      else if String.eqb (Ms_Proposer msg) "" then Err (E "ErrInvalidAddress")
      else if negb (DecCoins_IsValid (Ms_InitialDeposit msg)) then Err (E "ErrInvalidCoins")
      else if DecCoins_IsAnyNegative (Ms_InitialDeposit msg) then Err (E "ErrInvalidCoins")
      else if negb (hasOnlyDefaultBondDenom (Ms_InitialDeposit msg)) then Err (E "ErrInvalidCoins")
      else if negb (IsValidProposalType (ProposalType content)) then Err (E "ErrInvalidProposalType")
      else Content_ValidateBasic content
  end.
Definition gov_MsgDeposit_ValidateBasic (depositor : string) (amount : list DecCoin) : outcome unit :=
  if String.eqb depositor "" then Err (E "ErrInvalidAddress")
  else if negb (DecCoins_IsValid amount) then Err (E "ErrInvalidCoins")
  else if DecCoins_IsAnyNegative amount then Err (E "ErrInvalidCoins")
  else Ok ().
Definition MsgVote_ValidateBasic (voter : string) (option : VoteOption) : outcome unit :=
  if String.eqb voter "" then Err (E "ErrInvalidAddress")
  else if negb (ValidVoteOption option) then Err (E "ErrInvalidVote")
  else Ok ().
Definition GovMsg_ValidateBasic (msg : GovMsg X) : outcome unit :=
  match msg with
  | MsgSubmit msg => MsgSubmitProposal_ValidateBasic msg
  | MsgDeposit _ depositor amount => gov_MsgDeposit_ValidateBasic depositor amount
  | MsgVote _ voter option => MsgVote_ValidateBasic voter option
  end.
Definition gov_signer (msg : GovMsg X) : string :=
  match msg with MsgSubmit msg => Ms_Proposer msg | MsgDeposit _ a _ | MsgVote _ a _ => a end.

(** A message is checked, and then handled. *)
Definition gov_deliver (ctx : Ctx) (msg : GovMsg X) : M (GovState X K) unit :=
  _ ← lift (GovMsg_ValidateBasic msg);
  gov_NewHandler ctx msg.

(** ** The end of a block *)

Definition handleWaitingProposals (ctx : Ctx) : M (GovState X K) unit :=
  iterateQueue gs_waiting (BlockHeight ctx) (λ p,
    handler ← lift (GetRoute gc_router (ProposalRoute (Pp_Content p)));
    _ ← cached (handler ctx p);
    mret ()).
Definition handleInActiveProposals (ctx : Ctx) : M (GovState X K) unit :=
  iterateQueue gs_inactive (BlockTime ctx) (λ p,
    _ ← DeleteProposal (Pp_ProposalID p);
    DistributeDeposits (Pp_ProposalID p)).
Definition handleActiveProposals (ctx : Ctx) : M (GovState X K) unit :=
  iterateQueue gs_active (BlockTime ctx) (λ p,
    '(status, distribute, tallyResults) ← Tally p true;
    p ← handleProposalAfterTally ctx p distribute status;
    let p := pp_set_tally tallyResults p in
    _ ← SetProposal p;
    _ ← RemoveFromActiveProposalQueue (Pp_ProposalID p) (Pp_VotingEndTime p);
    DeleteVotes (Pp_ProposalID p)).
Definition gov_EndBlocker (ctx : Ctx) : M (GovState X K) unit :=
  _ ← handleWaitingProposals ctx;
  _ ← handleInActiveProposals ctx;
  handleActiveProposals ctx.

(** ** The registered invariant *)

Fixpoint sumDeposits (acc : list DecCoin) (l : list Deposit) : outcome (list DecCoin) :=
  match l with
  | [] => Ok acc
  | d :: l => acc ← DecCoins_Add acc (Dp_Amount d); sumDeposits acc l
  end.
(** Whether the invariant is broken. *)
Definition gov_ModuleAccountInvariant (s : GovState X K) : outcome bool :=
  expected ← sumDeposits [] (byKey (map_to_list (gs_deposits (gv_gov s))));
  match ck_modaddr GovModuleName with
  | None => Panic "nil pointer dereference"
  | Some addr =>
      coins ← (ck_GetCoins addr (sg_k (gv_staking s))).1;
      b ← DecCoins_IsEqual coins expected;
      Ok (negb b)
  end.

End GovKeeper.
