(* ===== verification/Params.v ===== *)
(** * Parameter changes and upgrades ([x/params])

    The proposals of the params module: a change of parameters, which can be
    put off to a height, and an upgrade of the program.  A proposal that is put
    off waits in a queue of the governance module, which calls its handler
    again at the end of every block from that height on.

    The subspaces of parameters of all modules, with their types and
    validators, are a parameter of the model ([Subspaces]); so are the modules
    that have claimed to be ready for an upgrade.  Their callbacks, and the
    signals that are sent after a change, get no context and cannot write to a
    store. *)
From S2P Require Import Prelude Decimal Denom Coins Bank CoinKeeper Token Swap Staking Gov.
#[local] Open Scope Z_scope.

(** ** Data *)

Record ParamChange := mkParamChange { Pc_Subspace : string; Pc_Key : string; Pc_Value : string }.

Record ParameterChangeProposal := mkParameterChange {
  Pa_Title : string; Pa_Description : string; Pa_Changes : list ParamChange; Pa_Height : Z }.
Record UpgradeProposal := mkUpgrade {
  Up_Title : string; Up_Description : string; Up_Name : string; Up_ExpectHeight : Z; Up_Config : string }.
Inductive ParamsContent :=
  | ParameterChange (p : ParameterChangeProposal)
  | Upgrade (p : UpgradeProposal).

Inductive UpgradeStatus := UpgradeStatusPreparing | UpgradeStatusWaitingEffective | UpgradeStatusEffective.
#[global] Instance UpgradeStatus_eq_dec : EqDecision UpgradeStatus.
Proof. solve_decision. Defined.
Record UpgradeInfo := mkUpgradeInfo {
  Ui_Name : string; Ui_ExpectHeight : Z; Ui_Config : string;
  Ui_EffectiveHeight : Z; Ui_Status : UpgradeStatus }.

Record ParamsParams := mkParamsParams {
  Px_MaxDepositPeriod : Z; Px_MinDeposit : list DecCoin; Px_VotingPeriod : Z; Px_MaxBlockHeight : Z }.

(** The stores of the module. *)
Record ParamsStore := mkParamsStore { px_params : ParamsParams; px_upgrades : gmap string UpgradeInfo }.

(** They are part of what lies behind the staking module, next to the
    coins. *)
Class HasParams (K : Type) := {
  kp_get : K → ParamsStore;
  kp_set : ParamsStore → K → K }.

(** The contents of this module among those of all modules. *)
Class HasParamsContent (X : Type) := as_params : X → option ParamsContent.

Definition ParamsRouterKey : string := "params".
Definition UpgradeRouterKey : string := "okcUpgrade".
Definition ProposalTypeChange : string := "ParameterChange".
Definition ProposalTypeUpgrade : string := "oKCUpgrade".
Definition maxNameLength : nat := 140.

(** ** Contents *)

Fixpoint ValidateChanges_loop (changes : list ParamChange) : outcome unit :=
  match changes with
  | [] => Ok ()
  | pc :: changes =>
      if (String.length (Pc_Subspace pc) =? 0)%nat then Err (E "ErrEmptySubspace")
      else if (String.length (Pc_Key pc) =? 0)%nat then Err (E "ErrEmptyKey")
      else if (String.length (Pc_Value pc) =? 0)%nat then Err (E "ErrEmptyValue")
      else ValidateChanges_loop changes
  end.
Definition ValidateChanges (changes : list ParamChange) : outcome unit :=
  if (length changes =? 0)%nat then Err (E "ErrEmptyChanges") else ValidateChanges_loop changes.

Definition ParameterChangeProposal_ValidateBasic (p : ParameterChangeProposal) : outcome unit :=
  if isBlank (Pa_Title p) then Err (E "ErrInvalidProposalContent")
  else if (MaxTitleLength <? String.length (Pa_Title p))%nat then Err (E "ErrInvalidProposalContent")
  else if (String.length (Pa_Description p) =? 0)%nat then Err (E "ErrInvalidProposalContent")
  else if (MaxDescriptionLength <? String.length (Pa_Description p))%nat then Err (E "ErrInvalidProposalContent")
  else if negb (length (Pa_Changes p) =? 1)%nat then Err (E "ErrInvalidParamsNum")
  else ValidateChanges (Pa_Changes p).

Definition UpgradeProposal_ValidateBasic (p : UpgradeProposal) : outcome unit :=
  _ ← ValidateAbstract (Up_Title p) (Up_Description p);
  if isBlank (Up_Name p) then Err (E "ErrInvalidProposalContent")
  else if (String.length (Up_Name p) =? maxNameLength)%nat then Err (E "ErrInvalidProposalContent")
  else Ok ().

#[global] Instance params_content : ModuleContent ParamsContent := {|
  xc_Title c := match c with ParameterChange p => Pa_Title p | Upgrade p => Up_Title p end;
  xc_Description c := match c with ParameterChange p => Pa_Description p | Upgrade p => Up_Description p end;
  xc_Route c := match c with ParameterChange _ => ParamsRouterKey | Upgrade _ => UpgradeRouterKey end;
  xc_Type c := match c with ParameterChange _ => ProposalTypeChange | Upgrade _ => ProposalTypeUpgrade end;
  xc_ValidateBasic c :=
    match c with
    | ParameterChange p => ParameterChangeProposal_ValidateBasic p
    | Upgrade p => UpgradeProposal_ValidateBasic p
    end |}.
#[global] Instance params_has_content : HasParamsContent ParamsContent := Some.

Section ParamsKeeper.
Context {X K : Type} `{ModuleContent X} `{!HasParamsContent X} `{CoinKeeper K} `{!HasParams K}.

(** [GetSubspace] and [Update] of the parameter store, and the upgrades that
    modules of this binary have claimed to be ready for. *)
Class Subspaces := {
  ss_exists : string → bool;
  ss_Update : string → string → string → M (GovState X K) unit;
  ss_ready : string → bool }.
Context `{!Subspaces}.

(** ** The store *)

Definition on_params {A} (m : M ParamsStore A) : M (GovState X K) A := on_supplyKeeper (zoom kp_get kp_set m).

Definition params_GetParams : M (GovState X K) ParamsParams := on_params (gets px_params).
Definition IsUpgradeExist (name : string) : M (GovState X K) bool :=
  on_params (gets (λ p, bool_decide (is_Some (px_upgrades p !! name)))).
Definition ReadUpgradeInfo (name : string) : M (GovState X K) UpgradeInfo :=
  o ← on_params (gets (λ p, px_upgrades p !! name));
  match o with Some info => mret info | None => fail "upgrade is not exist" end.
Definition WriteUpgradeInfo (info : UpgradeInfo) (forceCover : bool) : M (GovState X K) unit :=
  exist ← IsUpgradeExist (Ui_Name info);
  if negb forceCover && exist then fail "ErrInternal"
  else on_params (modify (λ p, mkParamsStore (px_params p) (<[Ui_Name info := info]> (px_upgrades p)))).

Definition isUpgradeEffective (ctx : Ctx) (info : UpgradeInfo) : bool :=
  bool_decide (Ui_Status info = UpgradeStatusEffective) && (Ui_EffectiveHeight info <=? BlockHeight ctx).
Definition GetEffectiveUpgradeInfo (ctx : Ctx) (name : string) : M (GovState X K) UpgradeInfo :=
  info ← ReadUpgradeInfo name;
  _ ← guard_not (negb (isUpgradeEffective ctx info)) "upgrade is not effective";
  mret info.

(** ** Changes of parameters *)

Fixpoint changeParams (changes : list ParamChange) : M (GovState X K) unit :=
  match changes with
  | [] => mret ()
  | c :: changes =>
      _ ← guard_not (negb (ss_exists (Pc_Subspace c))) "ErrUnknownSubspace";
      _ ← wrapErr "ErrSettingParameter" (ss_Update (Pc_Subspace c) (Pc_Key c) (Pc_Value c));
      changeParams changes
  end.

(** [defer f()] of a call that cannot fail. *)
Definition deferred {A} (f : M (GovState X K) unit) (m : M (GovState X K) A) : M (GovState X K) A := λ s,
  let '(o, s1) := m s in (o, (f s1).2).

Definition handleParameterChangeProposal (ctx : Ctx) (proposalID : Z) (p : ParameterChangeProposal)
    : M (GovState X K) unit :=
  if BlockHeight ctx <? Pa_Height p then InsertWaitingProposalQueue (Pa_Height p) proposalID
  else deferred (RemoveFromWaitingProposalQueue (Pa_Height p) proposalID) (changeParams (Pa_Changes p)).

Definition NewParamChangeProposalHandler : Handler X K := λ ctx p,
  match Pp_Content p with
  | ModuleProposal x =>
      match as_params x with
      | Some (ParameterChange c) => handleParameterChangeProposal ctx (Pp_ProposalID p) c
      | _ => fail "ErrUnknownProposalType"
      end
  | _ => fail "ErrUnknownProposalType"
  end.

(** ** Upgrades *)

(** [ExpectHeight - 1] of a [uint64]. *)
Definition getUpgradeProposalConfirmHeight (currentHeight : Z) (p : UpgradeProposal) : Z :=
  let confirmHeight := if Up_ExpectHeight p =? 0 then currentHeight else (Up_ExpectHeight p - 1) mod 2 ^ 64 in
  if confirmHeight <? currentHeight then currentHeight else confirmHeight.

Definition storePreparingUpgrade (p : UpgradeProposal) : M (GovState X K) unit :=
  WriteUpgradeInfo (mkUpgradeInfo (Up_Name p) (Up_ExpectHeight p) (Up_Config p) 0 UpgradeStatusPreparing) false.
Definition storeWaitingUpgrade (p : UpgradeProposal) (effectiveHeight : Z) : M (GovState X K) unit :=
  WriteUpgradeInfo
    (mkUpgradeInfo (Up_Name p) (Up_ExpectHeight p) (Up_Config p) effectiveHeight UpgradeStatusWaitingEffective) true.
Definition storeEffectiveUpgrade (p : UpgradeProposal) (effectiveHeight : Z) : M (GovState X K) unit :=
  WriteUpgradeInfo
    (mkUpgradeInfo (Up_Name p) (Up_ExpectHeight p) (Up_Config p) effectiveHeight UpgradeStatusEffective) true.

Definition handleUpgradeProposal (ctx : Ctx) (proposalID : Z) (p : UpgradeProposal) : M (GovState X K) unit :=
  let curHeight := BlockHeight ctx in
  let confirmHeight := getUpgradeProposalConfirmHeight curHeight p in
  let effectiveHeight := (confirmHeight + 1) mod 2 ^ 64 in
  if curHeight <? confirmHeight then
    _ ← InsertWaitingProposalQueue confirmHeight proposalID;
    logErr (storeWaitingUpgrade p effectiveHeight)
  else
    deferred (RemoveFromWaitingProposalQueue confirmHeight proposalID)
      (if negb (ss_ready (Up_Name p)) then mret () else storeEffectiveUpgrade p effectiveHeight).

Definition NewUpgradeProposalHandler : Handler X K := λ ctx p,
  match Pp_Content p with
  | ModuleProposal x =>
      match as_params x with
      | Some (Upgrade c) => handleUpgradeProposal ctx (Pp_ProposalID p) c
      | _ => fail "ErrUnknownProposalType"
      end
  | _ => fail "ErrUnknownProposalType"
  end.

(** ** The life of a proposal *)

Definition params_of (c : Content X) : option ParamsContent :=
  match c with ModuleProposal x => as_params x | _ => None end.

(** The zero value for a content of another module. *)
Definition params_GetMinDeposit (c : Content X) : M (GovState X K) (list DecCoin) :=
  match params_of c with Some _ => p ← params_GetParams; mret (Px_MinDeposit p) | None => mret [] end.
Definition params_GetMaxDepositPeriod (c : Content X) : M (GovState X K) Z :=
  match params_of c with Some _ => p ← params_GetParams; mret (Px_MaxDepositPeriod p) | None => mret 0 end.
Definition params_GetVotingPeriod (c : Content X) : M (GovState X K) Z :=
  match params_of c with Some _ => p ← params_GetParams; mret (Px_VotingPeriod p) | None => mret 0 end.

Definition proposalCommonCheck (checkIsValidator : bool) (proposer : string) (initialDeposit : list DecCoin)
    : M (GovState X K) unit :=
  isVal ← (if checkIsValidator then on_staking (staking_IsValidator proposer) else mret true);
  _ ← guard_not (negb isVal) "ErrInvalidProposer";
  params ← params_GetParams;
  tenth ← lift (NewDecWithPrec 1 1);
  initDeposit ← lift (DecCoins_MulDec (Px_MinDeposit params) tenth);
  _ ← replaceErr "ErrInvalidCoins" (lift (HasSufficientCoins initialDeposit initDeposit));
  coins ← on_supplyKeeper (ck_GetCoins proposer);
  replaceErr "ErrInvalidCoins" (lift (HasSufficientCoins coins initialDeposit)).

(** A call whose writes go to a context that is thrown away. *)
Definition simulated {A} (m : M (GovState X K) A) : M (GovState X K) A := λ s, ((m s).1, s).

Definition maxInt64 : Z := 2 ^ 63 - 1.
Definition checkSubmitParamsChangeProposal (ctx : Ctx) (proposer : string) (initialDeposit : list DecCoin)
    (p : ParameterChangeProposal) : M (GovState X K) unit :=
  _ ← proposalCommonCheck true proposer initialDeposit;
  params ← params_GetParams;
  let curHeight := BlockHeight ctx in
  let maxHeight := if Px_MaxBlockHeight params =? 0 then (maxInt64 - Pa_Height p) mod 2 ^ 64
                   else Px_MaxBlockHeight params in
  _ ← guard_not ((Pa_Height p <? curHeight) || ((curHeight + maxHeight) mod 2 ^ 64 <? Pa_Height p)) "ErrInvalidHeight";
  simulated (changeParams (Pa_Changes p)).

Definition checkUpgradeValidEffectiveHeight (ctx : Ctx) (effectiveHeight : Z) : M (GovState X K) unit :=
  if effectiveHeight =? 0 then mret () else
  params ← params_GetParams;
  let curHeight := BlockHeight ctx in
  let maxHeight := if Px_MaxBlockHeight params =? 0 then (maxInt64 - effectiveHeight) mod 2 ^ 64
                   else Px_MaxBlockHeight params in
  guard_not ((effectiveHeight <=? curHeight) || (maxHeight <? (effectiveHeight - curHeight) mod 2 ^ 64)) "ErrInvalidHeight".

Definition checkSubmitUpgradeProposal (ctx : Ctx) (proposer : string) (initialDeposit : list DecCoin)
    (p : UpgradeProposal) : M (GovState X K) unit :=
  _ ← proposalCommonCheck true proposer initialDeposit;
  _ ← checkUpgradeValidEffectiveHeight ctx (Up_ExpectHeight p);
  exist ← IsUpgradeExist (Up_Name p);
  guard_not exist "ErrInternal".

Definition params_CheckMsgSubmitProposal (ctx : Ctx) (msg : MsgSubmitProposal X) : M (GovState X K) unit :=
  match Ms_Content msg ≫= params_of with
  | Some (ParameterChange p) => checkSubmitParamsChangeProposal ctx (Ms_Proposer msg) (Ms_InitialDeposit msg) p
  | Some (Upgrade p) => checkSubmitUpgradeProposal ctx (Ms_Proposer msg) (Ms_InitialDeposit msg) p
  | None => fail "ErrUnknownProposalType"
  end.
Definition params_AfterSubmitProposalHandler (p : Proposal X) : M (GovState X K) unit :=
  match params_of (Pp_Content p) with
  | Some (Upgrade c) => logErr (storePreparingUpgrade c)
  | _ => mret ()
  end.

(** The params keeper as the handler of its proposals. *)
Definition params_handlers : ProposalHandler X K :=
  mkProposalHandler params_GetMinDeposit params_GetMaxDepositPeriod params_GetVotingPeriod
    params_CheckMsgSubmitProposal (λ _, params_AfterSubmitProposalHandler)
    (λ _ _ _, mret "") (λ _ _, mret ()) (λ _ _, mret ()).

End ParamsKeeper.
Arguments Subspaces X K : clear implicits.
