(* ===== verification/GovProps.v ===== *)
(** * Governance: the invariant

    Proposals, deposits, votes and queues fit together, and the account of the
    module holds exactly the deposits; every operation of the module preserves
    this, whatever the handlers of other modules do with their own stores. *)
From S2P Require Import Prelude Decimal Denom Coins Bank CoinKeeper Token Swap Staking StakingVals StakingVotes StakingProps StakingSet Gov.
#[local] Open Scope Z_scope.

(** Decompose a run of code that ends in reads and writes of the store. *)
Ltac gv_unfold H :=
  progress cbv beta delta [GetDepositParams GetVotingParams GetTallyParams GetProposal SetProposal GetProposalID
    SetProposalID InsertActiveProposalQueue RemoveFromActiveProposalQueue InsertInactiveProposalQueue
    RemoveFromInactiveProposalQueue InsertWaitingProposalQueue RemoveFromWaitingProposalQueue GetDeposit SetDeposit
    deleteDeposit GetDeposits SetVote GetVotes deleteVote read write on_supplyKeeper on_staking on_keeper] in H.
Ltac gv_inv :=
  repeat match goal with
  | H : _ = (Ok _, _) |- _ => first [inv_ok_step H | gv_unfold H]
  end.

(** ** Iterators *)

Lemma byKey_perm {V} (l : list (Z * string * V)) : byKey l ≡ₚ snd <$> l.
Proof.
  unfold byKey. rewrite merge_sort_Permutation, <- list_fmap_compose. done.
Qed.
Lemma elem_of_underID {V} (id : Z) (m : gmap (Z * string) V) v :
  v ∈ underID id m ↔ ∃ a, m !! (id, a) = Some v.
Proof.
  unfold underID. rewrite byKey_perm, list_elem_of_fmap. split.
  - intros ([[i a] w] & -> & [Hm Hi]%elem_of_map_to_list%map_lookup_filter_Some). cbn in Hi. subst. eauto.
  - intros [a Hm]. exists ((id, a), v). split; [done|]. by apply elem_of_map_to_list, map_lookup_filter_Some.
Qed.
(** Values that name the address they are stored under. *)
Lemma underID_NoDup {V} (id : Z) (m : gmap (Z * string) V) (addr : V → string) :
  (∀ a v, m !! (id, a) = Some v → addr v = a) → NoDup (addr <$> underID id m).
Proof.
  intros Hk. unfold underID. rewrite byKey_perm, <- list_fmap_compose.
  assert (∀ x, x ∈ map_to_list (base.filter (λ x : Z * string * V, x.1.1 = id) m) → x.1.1 = id ∧ addr x.2 = x.1.2) as Hx.
  { intros [[i a] v] [Hm Hi]%elem_of_map_to_list%map_lookup_filter_Some. cbn in *. subst. eauto. }
  assert (NoDup (map_to_list (base.filter (λ x : Z * string * V, x.1.1 = id) m))) as Hd by apply NoDup_map_to_list.
  pose proof (NoDup_fst_map_to_list (base.filter (λ x : Z * string * V, x.1.1 = id) m)) as Hf.
  revert Hx Hf. generalize (map_to_list (base.filter (λ x : Z * string * V, x.1.1 = id) m)). clear.
  induction l as [|x l IH]; intros Hx Hf; [constructor|]. cbn in *. inversion Hf as [|? ? Hn Hf']; subst.
  constructor; [|apply IH; [intros; apply Hx; by right|done]].
  intros (y & Hy & Hl)%list_elem_of_fmap. apply Hn, list_elem_of_fmap. exists y. split; [|done].
  destruct (Hx x) as [H1 H2]; [by left|]. destruct (Hx y) as [H3 H4]; [by right|].
  destruct x as [[] ?], y as [[] ?]. cbn in *. congruence.
Qed.
Lemma elem_of_queueUpTo t q x : x ∈ queueUpTo t q ↔ x ∈ q ∧ x.1 ≤ t.
Proof. unfold queueUpTo. rewrite list_elem_of_filter, merge_sort_Permutation, elem_of_elements. tauto. Qed.
Lemma queueUpTo_NoDup t q : NoDup (queueUpTo t q).
Proof. unfold queueUpTo. apply NoDup_filter. rewrite merge_sort_Permutation. apply NoDup_elements. Qed.

(** ** What the module relies on *)

Section Laws.
Context {X K : Type} `{ModuleContent X} `{CoinKeeper K}.
Context (gov : string).
Implicit Types (s : GovState X K) (p : Proposal X) (g : Gov X).

Definition coins_of s : K := sg_k (gv_staking s).

(** Another store of coins, with the same coins in the account of the
    module. *)
Record kept (k k' : K) : Prop := {
  kk_wf : ck_wf k → ck_wf k';
  kk_balance d : ck_balance k' gov d = ck_balance k gov d }.
#[global] Instance kept_preorder : PreOrder kept.
Proof. split; [by intros k|]. intros k1 k2 k3 [W1 B1] [W2 B2]. split; [tauto|congruence]. Qed.

(** Nothing of this module has changed but its parameters. *)
Record same_gov g g' : Prop := {
  sm_proposals : gs_proposals g' = gs_proposals g;
  sm_deposits : gs_deposits g' = gs_deposits g;
  sm_votes : gs_votes g' = gs_votes g;
  sm_inactive : gs_inactive g' = gs_inactive g;
  sm_active : gs_active g' = gs_active g;
  sm_waiting : gs_waiting g' = gs_waiting g;
  sm_nextID : gs_nextID g' = gs_nextID g }.
Record untouched s s' : Prop := {
  un_gov : same_gov (gv_gov s) (gv_gov s');
  un_coins : kept (coins_of s) (coins_of s') }.

(** What the execution of [p] may do to this module: its place in the
    queues can change. *)
Record executed p s s' : Prop := {
  ex_proposals : gs_proposals (gv_gov s') = gs_proposals (gv_gov s);
  ex_deposits : gs_deposits (gv_gov s') = gs_deposits (gv_gov s);
  ex_votes : gs_votes (gv_gov s') = gs_votes (gv_gov s);
  ex_inactive : gs_inactive (gv_gov s') = gs_inactive (gv_gov s);
  ex_nextID : gs_nextID (gv_gov s') = gs_nextID (gv_gov s);
  ex_active x : x.2 ≠ Pp_ProposalID p → x ∈ gs_active (gv_gov s') ↔ x ∈ gs_active (gv_gov s);
  ex_active_own x : x ∈ gs_active (gv_gov s') → x ∈ gs_active (gv_gov s);
  ex_waiting x : x ∈ gs_waiting (gv_gov s') → x ∈ gs_waiting (gv_gov s) ∨ x.2 = Pp_ProposalID p;
  ex_coins : kept (coins_of s) (coins_of s') }.

(** The methods of a module on its proposals leave this module alone. *)
Record methods_ok (ph : ProposalHandler X K) : Prop := {
  mo_min c s x s' : ph_GetMinDeposit ph c s = (Ok x, s') → untouched s s';
  mo_deposit c s x s' : ph_GetMaxDepositPeriod ph c s = (Ok x, s') → untouched s s';
  mo_voting c s x s' : ph_GetVotingPeriod ph c s = (Ok x, s') → untouched s s';
  mo_check ctx msg s u s' : ph_CheckMsgSubmitProposal ph ctx msg s = (Ok u, s') → untouched s s';
  mo_submit ctx p s u s' : ph_AfterSubmitProposalHandler ph ctx p s = (Ok u, s') → untouched s s';
  mo_vote ctx p v s x s' : ph_VoteHandler ph ctx p v s = (Ok x, s') → untouched s s';
  mo_passed ctx p s u s' : ph_AfterDepositPeriodPassed ph ctx p s = (Ok u, s') → untouched s s';
  mo_rejected ctx c s u s' : ph_RejectedHandler ph ctx c s = (Ok u, s') → untouched s s' }.

Class GovLaws `{!GovConfig X K} (fee : string) := {
  gl_gov : ck_modaddr GovModuleName = Some gov;
  gl_fee : ck_modaddr gc_feeCollectorName = Some fee;
  gl_ne : gov ≠ fee;
  gl_blocked : ck_Blacklisted gov = true;
  gl_handler path h ctx p s u s' :
    rt_routes gc_router !! path = Some h → h ctx p s = (Ok u, s') → executed p s s';
  gl_methods path ph : rt_routes gc_handlers !! path = Some ph → methods_ok ph }.

#[global] Instance same_gov_preorder : PreOrder same_gov.
Proof. split; [by intros g|]. intros g1 g2 g3 [] []. split; congruence. Qed.
#[global] Instance untouched_preorder : PreOrder untouched.
Proof.
  split; [by intros s|]. intros s1 s2 s3 [U1 K1] [U2 K2]. split; by etransitivity.
Qed.
Lemma untouched_executed p s s' : untouched s s' → executed p s s'.
Proof. intros [[] Hk]. split; try congruence; try done; intros x; rewrite ?sm_active0, ?sm_waiting0; tauto. Qed.

End Laws.

(** ** The invariant *)

Section Inv.
Context {X K : Type} `{ModuleContent X} `{CoinKeeper K} `{!CoinKeeperLaws K} `{!GovConfig X K}.
Context (gov fee : string) `{!GovLaws gov fee}.
Implicit Types (s : GovState X K) (p : Proposal X) (g : Gov X) (D : gmap (Z * string) Deposit).

Definition is_open p : Prop := Pp_Status p = StatusDepositPeriod ∨ Pp_Status p = StatusVotingPeriod.

(** Deposits are made in the coin of the chain. *)
Record deposit_coins (c : list DecCoin) : Prop := {
  dc_wf : wf_coins c;
  dc_other d : d ≠ DefaultBondDenom → amount_of c d = 0 }.
Lemma deposit_coins_add c1 c2 c :
  deposit_coins c1 → deposit_coins c2 → DecCoins_Add c1 c2 = Ok c → deposit_coins c.
Proof.
  intros [W1 Z1] [W2 Z2] E. split; [by apply (safeAdd_wf c1 c2)|]. intros d Hd.
  rewrite (safeAdd_amount _ _ _ d E), Z1, Z2 by done. done.
Qed.
Lemma only_default_coins c : hasOnlyDefaultBondDenom c = true → deposit_coins c.
Proof.
  unfold hasOnlyDefaultBondDenom. destruct c as [|x [|]]; try done. intros [Ed%String.eqb_eq Hv]%andb_true_iff.
  split; [by apply IsValid_wf|]. intros d Hd. rewrite amount_of_one, Ed. by destruct (String.eqb_spec DefaultBondDenom d); [subst|].
Qed.

(** What is deposited on a proposal, and on all of them. *)
Definition deposited D (id : Z) (d : string) : Z :=
  map_sum (λ x, if Dp_ProposalID x =? id then amount_of (Dp_Amount x) d else 0) D.
Definition all_deposited D (d : string) : Z := map_sum (λ x, amount_of (Dp_Amount x) d) D.

Record deposit_ok (P : gmap Z (Proposal X)) (id : Z) (a : string) (d : Deposit) : Prop := {
  dk_id : Dp_ProposalID d = id;
  dk_addr : Dp_Depositor d = a;
  dk_free : ck_Blacklisted a = false;
  dk_wf : deposit_coins (Dp_Amount d);
  dk_open : ∃ p, P !! id = Some p ∧ is_open p }.
Record vote_ok (P : gmap Z (Proposal X)) (id : Z) (a : string) (v : GovVote) : Prop := {
  vk_id : Gv_ProposalID v = id;
  vk_addr : Gv_Voter v = a;
  vk_option : ValidVoteOption (Gv_Option v) = true;
  vk_open : ∃ p, P !! id = Some p ∧ Pp_Status p = StatusVotingPeriod }.
(** A content that can be executed has a route, and the module it is of has
    accepted it when it was submitted. *)
Record admitted (c : Content X) : Prop := {
  ad_route : HasRoute gc_router (ProposalRoute c) = true;
  ad_checked : ∃ ph ctx msg s s', handlers_of (ProposalRoute c) = Ok ph ∧ Ms_Content msg = Some c ∧
    ph_CheckMsgSubmitProposal ph ctx msg s = (Ok (), s') }.
Record proposal_ok D (id : Z) p : Prop := {
  po_id : Pp_ProposalID p = id;
  po_status : Pp_Status p ≠ StatusNil;
  po_admitted : admitted (Pp_Content p);
  po_total : is_open p → wf_coins (Pp_TotalDeposit p) ∧ ∀ d, amount_of (Pp_TotalDeposit p) d = deposited D id d }.
(** A queue has the proposals of a status, by a time of theirs. *)
Definition queued (q : gset (Z * Z)) (P : gmap Z (Proposal X)) (st : ProposalStatus) (time : Proposal X → Z) : Prop :=
  ∀ t id, (t, id) ∈ q ↔ ∃ p, P !! id = Some p ∧ Pp_Status p = st ∧ time p = t.

Record store_inv g : Prop := {
  si_next : ∃ n, gs_nextID g = Some n ∧ 0 ≤ n < 2 ^ 64 ∧ ∀ id, is_Some (gs_proposals g !! id) → 0 ≤ id < n;
  si_proposal id p : gs_proposals g !! id = Some p → proposal_ok (gs_deposits g) id p;
  si_deposit id a d : gs_deposits g !! (id, a) = Some d → deposit_ok (gs_proposals g) id a d;
  si_vote id a v : gs_votes g !! (id, a) = Some v → vote_ok (gs_proposals g) id a v;
  si_inactive : queued (gs_inactive g) (gs_proposals g) StatusDepositPeriod Pp_DepositEndTime;
  si_active : queued (gs_active g) (gs_proposals g) StatusVotingPeriod Pp_VotingEndTime;
  si_waiting h id : (h, id) ∈ gs_waiting g → ∃ p, gs_proposals g !! id = Some p ∧ ¬ is_open p }.

(** The account of the module holds the deposits. *)
Record backed D (k : K) : Prop := {
  bk_wf : ck_wf k;
  bk_balance d : ck_balance k gov d = all_deposited D d }.
Definition gov_inv s : Prop := store_inv (gv_gov s) ∧ backed (gs_deposits (gv_gov s)) (coins_of s).

Lemma kept_backed D k k' : kept gov k k' → backed D k → backed D k'.
Proof. intros [Hw Hb] [W B]. split; [auto|]. intros d. by rewrite Hb. Qed.

Lemma not_gov a : ck_Blacklisted a = false → a ≠ gov.
Proof. intros Hf ->. pose proof (gl_blocked gov (fee := fee)). congruence. Qed.

Lemma store_inv_same g g' : same_gov g g' → store_inv g → store_inv g'.
Proof. intros [] []. split; rewrite ?sm_proposals0, ?sm_deposits0, ?sm_votes0, ?sm_inactive0, ?sm_active0, ?sm_waiting0, ?sm_nextID0; done. Qed.
Lemma untouched_inv s s' : untouched gov s s' → gov_inv s → gov_inv s'.
Proof.
  intros [Hg Hk] [I B]. split; [by eapply store_inv_same|]. rewrite (sm_deposits _ _ Hg). by eapply kept_backed.
Qed.

(** ** Paying deposits *)

(** The deposits without those on [id]. *)
Definition without D (id : Z) : gmap (Z * string) Deposit := base.filter (λ x, x.1.1 ≠ id) D.
Lemma without_lookup D id i a d : without D id !! (i, a) = Some d ↔ D !! (i, a) = Some d ∧ i ≠ id.
Proof. unfold without. by rewrite map_lookup_filter_Some. Qed.

(** What an account gets when the deposits in [l] are paid. *)
Definition due (to : Deposit → string) (l : list Deposit) (a d : string) : Z :=
  foldr (λ x n, at_addr (to x) (Dp_Amount x) a d + n) 0 l.

Record paid (to : Deposit → string) (id : Z) s s' : Prop := {
  pd_gov : gv_gov s' = gs_set_deposits (λ D, without D id) (gv_gov s);
  pd_staking : gv_staking s' = sg_set_k (coins_of s') (gv_staking s);
  pd_backed : backed (without (gs_deposits (gv_gov s)) id) (coins_of s');
  pd_balance a d : a ≠ gov → ck_balance (coins_of s') a d
    = ck_balance (coins_of s) a d + due to (underID id (gs_deposits (gv_gov s))) a d }.

Section Pay.
Context (fails : Prop) (counts : StakingState K → Prop) (pay : Deposit → M K unit) (to : Deposit → string).
(** A deposit that is backed is paid, and [counts] stays. *)
Definition pays : Prop := ∀ d (t : StakingState K),
  ck_wf (sg_k t) → counts t → deposit_coins (Dp_Amount d) →
  (∀ x, amount_of (Dp_Amount d) x ≤ ck_balance (sg_k t) gov x) → ck_Blacklisted (Dp_Depositor d) = false →
  wp fails (pay d) (sg_k t) (λ _ k', kmove (sg_k t) k' gov (to d) (Dp_Amount d) ∧ counts (sg_set_k k' t)).
Hypothesis pay_ok : pays.
Hypothesis to_other : ∀ d, ck_Blacklisted (Dp_Depositor d) = false → to d ≠ gov.

(** The loop, with [l] still to be paid. *)
Record paying (id : Z) s0 (l : list Deposit) s : Prop := {
  py_gov : gv_gov s = gs_set_deposits (λ _, gs_deposits (gv_gov s)) (gv_gov s0);
  py_staking : gv_staking s = sg_set_k (coins_of s) (gv_staking s0);
  py_own a d : gs_deposits (gv_gov s) !! (id, a) = Some d ↔ d ∈ l ∧ Dp_Depositor d = a;
  py_other i a : i ≠ id → gs_deposits (gv_gov s) !! (i, a) = gs_deposits (gv_gov s0) !! (i, a);
  py_NoDup : NoDup (Dp_Depositor <$> l);
  py_ok d : d ∈ l → ck_Blacklisted (Dp_Depositor d) = false ∧ deposit_coins (Dp_Amount d);
  py_pos i a d : gs_deposits (gv_gov s) !! (i, a) = Some d → deposit_coins (Dp_Amount d);
  py_backed : backed (gs_deposits (gv_gov s)) (coins_of s);
  py_counts : counts (gv_staking s);
  py_balance a d : a ≠ gov → ck_balance (coins_of s) a d + due to l a d
    = ck_balance (coins_of s0) a d + due to (underID id (gs_deposits (gv_gov s0))) a d }.

Lemma paying_funds id s0 x l s d :
  paying id s0 (x :: l) s → amount_of (Dp_Amount x) d ≤ ck_balance (coins_of s) gov d.
Proof.
  intros P. rewrite (bk_balance _ _ (py_backed _ _ _ _ P)).
  apply (map_sum_ge (λ x, amount_of (Dp_Amount x) d) _ (id, Dp_Depositor x)).
  - intros [i a] v Hv. eapply wf_amount_nonneg, (py_pos _ _ _ _ P _ _ _ Hv).
  - apply (py_own _ _ _ _ P). split; [by left|done].
Qed.
Lemma deposit_paying_step id s0 x l s :
  paying id s0 (x :: l) s →
  wp fails (_ ← orPanic (on_supplyKeeper (pay x)); deleteDeposit id (Dp_Depositor x)) s (λ _, paying id s0 l).
Proof.
  intros P. destruct (py_ok _ _ _ _ P x) as [Hf Hw]; [by left|].
  pose proof (pay_ok x (gv_staking s) (bk_wf _ _ (py_backed _ _ _ _ P)) (py_counts _ _ _ _ P) Hw (λ d, paying_funds _ _ _ _ _ d P) Hf) as Hp.
  fold (coins_of s) in Hp.
  unfold wp, mbind, M_bind, orPanic, on_supplyKeeper, on_staking, on_keeper, zoom in *. fold (coins_of s).
  destruct (pay x (coins_of s)) as [[u|e|e] k'] eqn:E; cbn in Hp |- *; [destruct Hp as [Hp Hc]|done..].
  assert (gs_deposits (gv_gov s) !! (id, Dp_Depositor x) = Some x) as Hx
    by (apply (py_own _ _ _ _ P); split; [by left|done]).
  pose proof (py_NoDup _ _ _ _ P) as Hd. cbn in Hd. inversion Hd as [|? ? Hn Hd']; subst.
  split; cbn.
  - rewrite (py_gov _ _ _ _ P). done.
  - rewrite (py_staking _ _ _ _ P). done.
  - intros a d. rewrite lookup_delete_Some, (py_own _ _ _ _ P). split.
    + intros (Hne & [->|Hl]%elem_of_cons & Ha); [congruence|done].
    + intros [Hl Ha]. split_and!; [|by right|done]. intros [= E']. apply Hn, list_elem_of_fmap. exists d. split; congruence.
  - intros i a Hi. rewrite lookup_delete_ne by congruence. by apply P.
  - done.
  - intros d Hl. apply (py_ok _ _ _ _ P). by right.
  - intros i a d [_ Hd2]%lookup_delete_Some. by eapply (py_pos _ _ _ _ P).
  - split; [by apply (km_wf _ _ _ _ _ Hp), (bk_wf _ _ (py_backed _ _ _ _ P))|]. intros d. unfold coins_of. cbn. rewrite (km_balance _ _ _ _ _ Hp).
    unfold all_deposited. rewrite map_sum_delete, Hx. cbn [at_key]. unfold at_addr.
    rewrite decide_False by (by apply not_eq_sym, to_other). rewrite decide_True by done.
    rewrite (bk_balance _ _ (py_backed _ _ _ _ P)). unfold all_deposited. lia.
  - exact Hc.
  - intros a d Ha. pose proof (py_balance _ _ _ _ P a d Ha) as Hb. unfold due in *. cbn [foldr] in Hb.
    unfold coins_of at 1. cbn. rewrite (km_balance _ _ _ _ _ Hp). unfold at_addr at 2.
    rewrite decide_False by done. unfold coins_of in *. lia.
Qed.
Lemma wp_payDeposits id s :
  gov_inv s ∨ (∀ i a d, gs_deposits (gv_gov s) !! (i, a) = Some d →
     Dp_Depositor d = a ∧ ck_Blacklisted a = false ∧ deposit_coins (Dp_Amount d)) ∧
     backed (gs_deposits (gv_gov s)) (coins_of s) → counts (gv_staking s) →
  wp fails (payDeposits pay id) s (λ _ s', paid to id s s' ∧ counts (gv_staking s')).
Proof.
  intros I Hc. assert ((∀ i a d, gs_deposits (gv_gov s) !! (i, a) = Some d →
     Dp_Depositor d = a ∧ ck_Blacklisted a = false ∧ deposit_coins (Dp_Amount d)) ∧
     backed (gs_deposits (gv_gov s)) (coins_of s)) as [Hk Hb].
  { destruct I as [[I Hb]|]; [|done]. split; [|done]. intros i a d Hd. by destruct (si_deposit _ I _ _ _ Hd). }
  unfold payDeposits. wp_run. eapply wp_mono; [apply (wp_for_each _ _ (paying id s))|].
  - intros. by apply deposit_paying_step.
  - split; try done.
    + by destruct (gv_gov s).
    + unfold coins_of. by destruct (gv_staking s).
    + intros a d. rewrite elem_of_underID. split; [|by intros [[b Hd] <-]; destruct (Hk _ _ _ Hd) as [-> _]].
      intros Hd. split; [eauto|]. by apply (Hk _ _ _ Hd).
    + apply underID_NoDup. intros a v Hv. by apply (Hk _ _ _ Hv).
    + intros d [a Hd]%elem_of_underID. destruct (Hk _ _ _ Hd) as (-> & ? & ?). done.
    + intros i a d Hd. by apply (Hk _ _ _ Hd).
  - intros u s' P. cbn beta in P. assert (gs_deposits (gv_gov s') = without (gs_deposits (gv_gov s)) id) as Hd.
    { apply map_eq. intros [i a]. apply option_eq. intros d. rewrite without_lookup.
      destruct (decide (i = id)) as [->|Hne].
      - rewrite (py_own _ _ _ _ P). split; [by intros [?%not_elem_of_nil _]|by intros [_ ?]].
      - rewrite (py_other _ _ _ _ P) by done. tauto. }
    split; [split|apply P].
    + rewrite (py_gov _ _ _ _ P), Hd. done.
    + apply P.
    + rewrite <- Hd. apply P.
    + intros a d Ha. rewrite <- (py_balance _ _ _ _ P a d Ha). cbn. lia.
Qed.
End Pay.

(** ** Writes to the store *)

Lemma map_sum_filter {Q V} `{Countable Q} (P : Q * V → Prop) `{!∀ x, Decision (P x)} (f h : V → Z) (m : gmap Q V) :
  (∀ k v, m !! k = Some v → h v = if decide (P (k, v)) then f v else 0) →
  map_sum f (base.filter P m) = map_sum h m.
Proof.
  induction m as [|k v m Hk IH] using map_ind; intros Hh.
  - by rewrite map_filter_empty, !map_sum_empty.
  - rewrite (map_sum_fresh h) by done. rewrite (Hh k v) by apply lookup_insert_eq.
    rewrite <- IH; [|intros k' v' Hv; apply Hh; rewrite lookup_insert_ne; congruence].
    destruct (decide (P (k, v))) as [Hp|Hp].
    + rewrite map_filter_insert_True by done. apply map_sum_fresh. apply map_lookup_filter_None. by left.
    + rewrite map_filter_insert_False, delete_id by done. done.
Qed.

Lemma map_sum_none {Q V} `{Countable Q} (f : V → Z) (m : gmap Q V) :
  (∀ k v, m !! k = Some v → f v = 0) → map_sum f m = 0.
Proof.
  intros Hf. rewrite (map_sum_ext _ (λ v, f v * 0)) by (intros k v Hv; rewrite (Hf k v Hv); done).
  rewrite map_sum_scale. lia.
Qed.

Definition keys_ok D : Prop := ∀ i a d, D !! (i, a) = Some d → Dp_ProposalID d = i.
Lemma deposited_under D id d :
  keys_ok D → deposited D id d = map_sum (λ x, amount_of (Dp_Amount x) d) (base.filter (λ x, x.1.1 = id) D).
Proof.
  intros Hk. symmetry. apply map_sum_filter. intros [i a] v Hv. cbn. apply Hk in Hv. subst i.
  destruct (Z.eqb_spec (Dp_ProposalID v) id); by case_decide.
Qed.
Lemma deposited_ext D D' id d :
  keys_ok D → keys_ok D' → (∀ a, D' !! (id, a) = D !! (id, a)) → deposited D' id d = deposited D id d.
Proof.
  intros Hk Hk' E. rewrite !deposited_under by done. f_equal. apply map_eq. intros [i a]. apply option_eq. intros v.
  rewrite !map_lookup_filter_Some. cbn. destruct (decide (i = id)) as [->|]; [by rewrite E|tauto].
Qed.
Lemma all_without D id d : keys_ok D → all_deposited (without D id) d = all_deposited D d - deposited D id d.
Proof.
  intros Hk. unfold all_deposited, without, deposited.
  rewrite (map_sum_filter _ _ (λ x, if Dp_ProposalID x =? id then 0 else amount_of (Dp_Amount x) d)).
  - apply Zplus_minus_eq. rewrite <- map_sum_add. apply map_sum_ext. intros k v _. destruct (_ =? _); lia.
  - intros [i a] v Hv. cbn. apply Hk in Hv. subst i. destruct (Z.eqb_spec (Dp_ProposalID v) id); by case_decide.
Qed.
Lemma store_keys g : store_inv g → keys_ok (gs_deposits g).
Proof. intros I i a d Hd. by destruct (si_deposit _ I _ _ _ Hd). Qed.

(** A queue that has changed only at [id]. *)
Definition requeued (id : Z) (q q' : gset (Z * Z)) (P' : gmap Z (Proposal X)) st (time : Proposal X → Z) : Prop :=
  (∀ t i, i ≠ id → (t, i) ∈ q' ↔ (t, i) ∈ q) ∧
  ∀ t, (t, id) ∈ q' ↔ ∃ p, P' !! id = Some p ∧ Pp_Status p = st ∧ time p = t.
Lemma requeued_queued id q q' P P' st time :
  (∀ i, i ≠ id → P' !! i = P !! i) → requeued id q q' P' st time → queued q P st time → queued q' P' st time.
Proof.
  intros HP [H1 H2] Hq t i. destruct (decide (i = id)) as [->|Hi]; [done|].
  rewrite (H1 t i Hi), (HP i Hi). apply Hq.
Qed.

(** Everything of the proposal [id] may change, and nothing else. *)
Record store_update (id : Z) g g' : Prop := {
  su_next : gs_nextID g' = gs_nextID g;
  su_proposals i : i ≠ id → gs_proposals g' !! i = gs_proposals g !! i;
  su_known : is_Some (gs_proposals g' !! id) → is_Some (gs_proposals g !! id);
  su_proposal p : gs_proposals g' !! id = Some p → proposal_ok (gs_deposits g') id p;
  su_deposits i a : i ≠ id → gs_deposits g' !! (i, a) = gs_deposits g !! (i, a);
  su_deposit a d : gs_deposits g' !! (id, a) = Some d → deposit_ok (gs_proposals g') id a d;
  su_votes i a : i ≠ id → gs_votes g' !! (i, a) = gs_votes g !! (i, a);
  su_vote a v : gs_votes g' !! (id, a) = Some v → vote_ok (gs_proposals g') id a v;
  su_inactive : requeued id (gs_inactive g) (gs_inactive g') (gs_proposals g') StatusDepositPeriod Pp_DepositEndTime;
  su_active : requeued id (gs_active g) (gs_active g') (gs_proposals g') StatusVotingPeriod Pp_VotingEndTime;
  su_waiting h i : (h, i) ∈ gs_waiting g' → (i ≠ id ∧ (h, i) ∈ gs_waiting g) ∨
    i = id ∧ ∃ p, gs_proposals g' !! id = Some p ∧ ¬ is_open p }.

Lemma store_updated id g g' : store_update id g g' → store_inv g → store_inv g'.
Proof.
  intros U I. assert (keys_ok (gs_deposits g')) as Hk'.
  { intros i a d Hd. destruct (decide (i = id)) as [->|Hi]; [by destruct (su_deposit _ _ _ U _ _ Hd)|].
    rewrite (su_deposits _ _ _ U) in Hd by done. by eapply store_keys. }
  split.
  - destruct (si_next _ I) as (n & Hn & Hn0 & Hp). exists n. rewrite (su_next _ _ _ U).
    split; [done|]. split; [done|]. intros i Hs. apply Hp.
    destruct (decide (i = id)) as [->|Hi]; [by apply U|]. by rewrite <- (su_proposals _ _ _ U).
  - intros i p Hp. destruct (decide (i = id)) as [->|Hi]; [by apply U|]. rewrite (su_proposals _ _ _ U) in Hp by done.
    destruct (si_proposal _ I _ _ Hp) as [H1 H2 H3 H4]. split; try done. intros Ho. destruct (H4 Ho) as [Hw Ha].
    split; [done|]. intros d. rewrite Ha. symmetry. apply deposited_ext; [by apply store_keys|done|].
    intros a. by apply U.
  - intros i a d Hd. destruct (decide (i = id)) as [->|Hi]; [by apply U|]. rewrite (su_deposits _ _ _ U) in Hd by done.
    destruct (si_deposit _ I _ _ _ Hd). split; try done. by rewrite (su_proposals _ _ _ U).
  - intros i a v Hv. destruct (decide (i = id)) as [->|Hi]; [by apply U|]. rewrite (su_votes _ _ _ U) in Hv by done.
    destruct (si_vote _ I _ _ _ Hv). split; try done. by rewrite (su_proposals _ _ _ U).
  - eapply requeued_queued; [apply U|apply U|apply I].
  - eapply requeued_queued; [apply U|apply U|apply I].
  - intros h i [[Hi Hw]|[-> Hw]]%(su_waiting _ _ _ U); [|done]. rewrite (su_proposals _ _ _ U) by done. by eapply I.
Qed.

(** ** Calls of other modules *)

Lemma same_gov_set_proposals f g g' : same_gov g g' → same_gov (gs_set_proposals f g) (gs_set_proposals f g').
Proof. intros []. split; cbn; congruence. Qed.
Lemma same_gov_set_deposits f g g' : same_gov g g' → same_gov (gs_set_deposits f g) (gs_set_deposits f g').
Proof. intros []. split; cbn; congruence. Qed.
Lemma same_gov_set_inactive f g g' : same_gov g g' → same_gov (gs_set_inactive f g) (gs_set_inactive f g').
Proof. intros []. split; cbn; congruence. Qed.
Lemma same_gov_set_active f g g' : same_gov g g' → same_gov (gs_set_active f g) (gs_set_active f g').
Proof. intros []. split; cbn; congruence. Qed.
Lemma same_gov_set_nextID n g g' : same_gov g g' → same_gov (gs_set_nextID n g) (gs_set_nextID n g').
Proof. intros []. split; cbn; congruence. Qed.

Lemma GetCoins_untouched a s c s' : on_supplyKeeper (ck_GetCoins a) s = (Ok c, s') → s' = s.
Proof.
  intros E. gv_inv. apply law_GetCoins in E as [-> _]. by destruct s as [[] ?].
Qed.

Lemma gov_methods_ok : methods_ok gov (gov_handlers (X := X) (K := K)).
Proof.
  split; cbn; intros; gv_inv; try done.
  unfold gov_CheckMsgSubmitProposal in *. gv_inv.
  repeat match goal with E : replaceErr _ _ _ = _ |- _ => apply replaceErr_Ok in E; gv_inv end.
  match goal with E : ck_GetCoins _ _ = _ |- _ => apply law_GetCoins in E as [-> _] end. by destruct s as [[] ?].
Qed.
Lemma handlers_of_ok path ph : handlers_of path = Ok ph → methods_ok gov ph.
Proof.
  unfold handlers_of, GetRoute. case_match; [|intros [= <-]; apply gov_methods_ok].
  case_match eqn:E; [|done]. intros [= <-]. by eapply gl_methods.
Qed.

Lemma bondedLoop_same addrs room (t : StakingState K) l t' : bondedLoop addrs room t = (Ok l, t') → t' = t.
Proof.
  revert room t l t'. induction addrs as [|a addrs IH]; intros [|room] t l t'; cbn [bondedLoop]; intros E; gv_inv; try done.
  all: unfold mustGetValidator, GetValidator in *; gv_inv.
  all: repeat match goal with E : gets _ _ = _ |- _ => apply gets_Ok in E as [_ ->] end; eauto.
Qed.
Lemma totalPower_same s n s' : gov_totalPower s = (Ok n, s') → s' = s.
Proof.
  unfold gov_totalPower, BondedValidatorsByPower. intros E. gv_inv.
  match goal with E : bondedLoop _ _ _ = _ |- _ => apply bondedLoop_same in E as -> end. by destruct s.
Qed.

(** ** Submission *)

Definition submitted (n : Z) p g : Gov X :=
  gs_set_nextID ((n + 1) mod 2 ^ 64)
    (gs_set_inactive (λ q, {[ (Pp_DepositEndTime p, n) ]} ∪ q) (gs_set_proposals <[n := p]> g)).
Lemma store_submit g n p :
  store_inv g → gs_nextID g = Some n → n + 1 < 2 ^ 64 → Pp_ProposalID p = n → Pp_Status p = StatusDepositPeriod →
  Pp_TotalDeposit p = [] → admitted (Pp_Content p) → store_inv (submitted n p g).
Proof.
  intros I Hn Hlt Hid Hst Htot Hr. destruct (si_next _ I) as (n' & E & Hn0 & Hp). rewrite Hn in E. injection E as <-.
  assert (gs_proposals g !! n = None) as Hfresh.
  { destruct (_ !! _) eqn:E; [|done]. destruct (Hp n); [eauto|lia]. }
  assert (∀ i q, gs_proposals g !! i = Some q → i ≠ n) as Hne by (intros i q Hq ->; congruence).
  split; cbn.
  - exists (n + 1). rewrite Z.mod_small by lia. split; [done|]. split; [lia|]. intros i [q [[<- _]|[_ Hq]]%lookup_insert_Some]; [lia|].
    destruct (Hp i); [eauto|lia].
  - intros i q [[<- <-]|[_ Hq]]%lookup_insert_Some; [|by apply I]. split; try done; [congruence|]. intros _. rewrite Htot.
    split; [apply wf_coins_nil|]. intros d. rewrite amount_of_nil. symmetry. apply map_sum_none. intros [i a] x Hx.
    destruct (si_deposit _ I _ _ _ Hx) as [<- _ _ _ (q & Hq & _)]. apply Hne in Hq. by rewrite (proj2 (Z.eqb_neq _ _)).
  - intros i a d Hd. destruct (si_deposit _ I _ _ _ Hd) as [? ? ? ? (q & Hq & Ho)]. split; try done.
    exists q. rewrite lookup_insert_ne; [done|]. apply not_eq_sym. eauto.
  - intros i a v Hv. destruct (si_vote _ I _ _ _ Hv) as [? ? ? (q & Hq & Ho)]. split; try done.
    exists q. rewrite lookup_insert_ne; [done|]. apply not_eq_sym. eauto.
  - intros t i. rewrite elem_of_union, elem_of_singleton, (si_inactive _ I t i). split.
    + intros [[= -> ->]|(q & Hq & ?)]; [exists p; by rewrite lookup_insert_eq|].
      exists q. rewrite lookup_insert_ne; [done|]. apply not_eq_sym. eauto.
    + intros (q & [[<- <-]|[_ Hq]]%lookup_insert_Some & Hs & <-); [by left|right; eauto].
  - intros t i. rewrite (si_active _ I t i). split.
    + intros (q & Hq & ?). exists q. rewrite lookup_insert_ne; [done|]. apply not_eq_sym. eauto.
    + intros (q & [[<- <-]|[_ Hq]]%lookup_insert_Some & Hs & <-); [congruence|eauto].
  - intros h i (q & Hq & Hs)%(si_waiting _ I). exists q. rewrite lookup_insert_ne; [done|]. apply not_eq_sym. eauto.
Qed.

(** The counter of proposals does not wrap. *)
Definition id_room s : Prop := ∀ n, gs_nextID (gv_gov s) = Some n → n + 1 < 2 ^ 64.

Lemma inv_SubmitProposal ctx content s p s' :
  gov_inv s → id_room s →
  (∃ ph ctx msg s s', handlers_of (ProposalRoute content) = Ok ph ∧ Ms_Content msg = Some content ∧
    ph_CheckMsgSubmitProposal ph ctx msg s = (Ok (), s')) →
  SubmitProposal ctx content s = (Ok p, s') →
  gov_inv s' ∧ gs_proposals (gv_gov s') !! Pp_ProposalID p = Some p ∧ Pp_Status p = StatusDepositPeriod.
Proof.
  intros I Hroom Hck E. unfold SubmitProposal, GetProposalID in E.
  apply M_bind_Ok in E as (u0 & s0 & E0 & E). apply guard_not_Ok in E0 as [Hr ->]. apply negb_false_iff in Hr.
  apply M_bind_Ok in E as (n & s0 & E0 & E). apply M_bind_Ok in E0 as (o & s00 & E00 & E0). apply gets_Ok in E00 as [-> ->].
  destruct (gs_nextID (gv_gov s)) as [n'|] eqn:Hn; [|by apply fail_Ok in E0]. apply mret_Ok in E0 as [-> ->].
  apply M_bind_Ok in E as (ph & s0 & E0 & E). apply lift_Ok in E0 as [Hph%handlers_of_ok ->].
  apply M_bind_Ok in E as (dp & s1 & E1 & E). apply (mo_deposit _ _ Hph) in E1 as U1.
  apply M_bind_Ok in E as (tp & s2 & E2 & E). apply totalPower_same in E2 as ->.
  pose proof (untouched_inv _ _ U1 I) as I1. rewrite <- (sm_nextID _ _ (un_gov _ _ _ U1)) in Hn.
  set (q := NewProposal tp content n' (BlockTime ctx) (BlockTime ctx + dp)) in *.
  assert (gov_inv (gv_set_gov (submitted n' q (gv_gov s1)) s1)) as I2.
  { split; [|apply I1]. apply store_submit; try done; [apply I1|]. apply Hroom.
    by rewrite <- (sm_nextID _ _ (un_gov _ _ _ U1)). }
  gv_inv. match goal with E : ph_AfterSubmitProposalHandler _ _ _ _ = _ |- _ => apply (mo_submit _ _ Hph) in E as U3 end.
  split; [by eapply untouched_inv|]. rewrite (sm_proposals _ _ (un_gov _ _ _ U3)). cbn. by rewrite lookup_insert_eq.
Qed.

(** ** Deposits *)

(** A proposal that enters its voting period, at [now] and until [until]. *)
Definition entered (now until : Z) p : Proposal X :=
  pp_set_depositEnd now (pp_set_status StatusVotingPeriod (pp_set_voting now until p)).
(** The stores when the proposal becomes [p'], in the queue it belongs to. *)
Definition repropose p p' g : Gov X :=
  gs_set_proposals <[Pp_ProposalID p := p']>
    (if bool_decide (Pp_Status p' = StatusVotingPeriod)
     then gs_set_active (λ q, {[ (Pp_VotingEndTime p', Pp_ProposalID p) ]} ∪ q)
            (gs_set_inactive (λ q, q ∖ {[ (Pp_DepositEndTime p, Pp_ProposalID p) ]}) g)
     else g).
Lemma same_repropose p p' g g' : same_gov g g' → same_gov (repropose p p' g) (repropose p p' g').
Proof.
  intros Hs. apply same_gov_set_proposals. case_bool_decide; [|done]. by apply same_gov_set_active, same_gov_set_inactive.
Qed.

Lemma tryEnter_Ok ctx p amt s u s' :
  Pp_Status p = StatusDepositPeriod → tryEnterVotingPeriod ctx p amt s = (Ok u, s') →
  ∃ total p', DecCoins_Add (Pp_TotalDeposit p) amt = Ok total ∧
    (p' = pp_set_deposit total p ∨ ∃ until, p' = entered (BlockTime ctx) until (pp_set_deposit total p)) ∧
    same_gov (repropose p p' (gv_gov s)) (gv_gov s') ∧ kept gov (coins_of s) (coins_of s').
Proof.
  intros Hst E. unfold tryEnterVotingPeriod in E.
  apply M_bind_Ok in E as (total & s1 & E1 & E). apply lift_Ok in E1 as [Ht ->].
  apply M_bind_Ok in E as (ph & s1 & E1 & E). apply lift_Ok in E1 as [Hph%handlers_of_ok ->].
  apply M_bind_Ok in E as (md & s1 & E1 & E). apply (mo_min _ _ Hph) in E1 as [U1 K1].
  apply M_bind_Ok in E as (b & s2 & E2 & E).
  assert (s2 = s1) as -> by (case_bool_decide; gv_inv; done). clear E2. exists total. destruct b.
  - apply M_bind_Ok in E as (p' & s2 & E2 & E). unfold activateVotingPeriod in E2.
    apply M_bind_Ok in E2 as (ph' & s3 & E3 & E2). apply lift_Ok in E3 as [Hph'%handlers_of_ok ->].
    apply M_bind_Ok in E2 as (vp & s3 & E3 & E2). apply (mo_voting _ _ Hph') in E3 as [U3 K3].
    gv_inv. match goal with E : ph_AfterDepositPeriodPassed _ _ _ _ = _ |- _ => apply (mo_passed _ _ Hph) in E as [U4 K4] end.
    eexists. split; [done|]. split; [right; by exists (BlockTime ctx + vp)|].
    split; [|by do 2 (etransitivity; [eassumption|])]. etransitivity; [|exact U4].
    unfold repropose. rewrite bool_decide_true by done. cbn.
    apply same_gov_set_proposals, same_gov_set_active, same_gov_set_inactive. by etransitivity.
  - gv_inv. exists (pp_set_deposit total p). split; [done|]. split; [by left|]. split; [|done].
    unfold repropose. rewrite bool_decide_false by (cbn; congruence). by apply same_gov_set_proposals.
Qed.


Lemma updateDeposit_Ok id a amt s u s' :
  (∀ d, gs_deposits (gv_gov s) !! (id, a) = Some d →
    Dp_ProposalID d = id ∧ Dp_Depositor d = a ∧ deposit_coins (Dp_Amount d)) →
  deposit_coins amt → updateDeposit id a amt s = (Ok u, s') →
  ∃ d, s' = gv_set_gov (gs_set_deposits <[(id, a) := d]> (gv_gov s)) s ∧ Dp_ProposalID d = id ∧ Dp_Depositor d = a ∧
    deposit_coins (Dp_Amount d) ∧ ∀ x, amount_of (Dp_Amount d) x
      = at_key (λ d, amount_of (Dp_Amount d) x) (gs_deposits (gv_gov s) !! (id, a)) + amount_of amt x.
Proof.
  intros Hk Hw E. unfold updateDeposit in E. apply M_bind_Ok in E as (o & s1 & E1 & E). apply gets_Ok in E1 as [-> ->].
  destruct (gs_deposits (gv_gov s) !! (id, a)) as [d|] eqn:Hd; gv_inv.
  - destruct (Hk d eq_refl) as (F1 & F2 & F3). eexists. cbn. rewrite F1, F2.
    split_and!; try done; [eapply deposit_coins_add; [exact F3|exact Hw|done]|]. intros x. by eapply safeAdd_amount.
  - eexists. split_and!; done.
Qed.

Lemma deposited_insert D id a d x :
  keys_ok D → Dp_ProposalID d = id →
  deposited (<[(id, a) := d]> D) id x
    = deposited D id x - at_key (λ d, amount_of (Dp_Amount d) x) (D !! (id, a)) + amount_of (Dp_Amount d) x.
Proof.
  intros Hk Hd. unfold deposited. rewrite map_sum_insert. rewrite Hd, Z.eqb_refl.
  destruct (D !! (id, a)) as [d0|] eqn:E; cbn; [|lia]. rewrite (Hk _ _ _ E), Z.eqb_refl. lia.
Qed.

Lemma store_deposit g now p p' total amt a d :
  store_inv g → gs_proposals g !! Pp_ProposalID p = Some p → Pp_Status p = StatusDepositPeriod → deposit_coins amt →
  DecCoins_Add (Pp_TotalDeposit p) amt = Ok total →
  (p' = pp_set_deposit total p ∨ ∃ until, p' = entered now until (pp_set_deposit total p)) →
  ck_Blacklisted a = false → Dp_ProposalID d = Pp_ProposalID p → Dp_Depositor d = a → deposit_coins (Dp_Amount d) →
  (∀ x, amount_of (Dp_Amount d) x
    = at_key (λ d, amount_of (Dp_Amount d) x) (gs_deposits g !! (Pp_ProposalID p, a)) + amount_of amt x) →
  store_inv (gs_set_deposits <[(Pp_ProposalID p, a) := d]> (repropose p p' g)).
Proof.
  intros I Hp Hst Hw Ht Hp' Ha Hd1 Hd2 Hd3 Hd4. set (id := Pp_ProposalID p) in *.
  destruct (si_proposal _ I _ _ Hp) as [_ _ Hr [Hwt Htot]]; [by left|].
  assert (Pp_ProposalID p' = id ∧ Pp_Content p' = Pp_Content p ∧ Pp_TotalDeposit p' = total ∧ is_open p') as (P1 & P2 & P3 & P4).
  { destruct Hp' as [->|[until ->]]; split_and!; try done; [by left|by right]. }
  assert (is_open p) as Po by by left.
  eapply (store_updated id); [|exact I]. split; cbn.
  - by case_bool_decide.
  - intros i Hi. rewrite lookup_insert_ne by done. by case_bool_decide.
  - intros _. eauto.
  - intros q. rewrite lookup_insert_eq. intros [= <-]. split; [done| |by rewrite P2|].
    + destruct P4 as [-> | ->]; done.
    + intros _. rewrite P3. split; [by apply (safeAdd_wf (Pp_TotalDeposit p) amt); [|apply Hw|]|]. intros x.
      rewrite (safeAdd_amount _ _ _ x Ht), Htot.
      transitivity (deposited (<[(id, a) := d]> (gs_deposits g)) id x); [|symmetry; apply deposited_ext].
      * rewrite deposited_insert by (try done; by apply store_keys). rewrite Hd4. lia.
      * intros i b e [[[= <- <-] <-]|[_ He]]%lookup_insert_Some; [done|]. by eapply store_keys.
      * intros i b e. case_bool_decide; intros [[[= <- <-] <-]|[_ He]]%lookup_insert_Some; try done; by eapply store_keys.
      * intros b. by case_bool_decide.
  - intros i b Hi. rewrite lookup_insert_ne by congruence. by case_bool_decide.
  - intros b e He. assert (Dp_ProposalID e = id ∧ Dp_Depositor e = b ∧ ck_Blacklisted b = false ∧ deposit_coins (Dp_Amount e)) as (? & ? & ? & ?).
    { apply lookup_insert_Some in He as [[[= <-] <-]|[_ He]]; [done|].
      assert (gs_deposits g !! (id, b) = Some e) as He' by (by case_bool_decide). by destruct (si_deposit _ I _ _ _ He'). }
    split; try done. exists p'. by rewrite lookup_insert_eq.
  - intros i b Hi. by case_bool_decide.
  - intros b v Hv. assert (gs_votes g !! (id, b) = Some v) as Hv' by (by case_bool_decide).
    destruct (si_vote _ I _ _ _ Hv') as [? ? ? (q & Hq & Hs)]. congruence.
  - split.
    + intros t i Hi. case_bool_decide; [|done]. cbn. set_solver.
    + intros t. rewrite lookup_insert_eq. case_bool_decide as Hv; cbn.
      * split; [|by intros (q & [= <-] & ? & _); congruence]. intros [Hin Hne]%elem_of_difference.
        apply (si_inactive _ I) in Hin as (q & Hq & _ & Ht'). set_solver.
      * rewrite (si_inactive _ I t id). destruct Hp' as [->|[until ->]]; [|by destruct Hv]. split.
        -- intros (q & Hq & Hs & <-). exists (pp_set_deposit total p). simplify_eq. split_and!; try done; congruence.
        -- intros (q & [= <-] & Hs & <-). exists p. done.
  - split.
    + intros t i Hi. case_bool_decide; [|done]. cbn. set_solver.
    + intros t. rewrite lookup_insert_eq. case_bool_decide as Hv; cbn.
      * rewrite elem_of_union, elem_of_singleton. split.
        -- intros [[= ->]|Hin]; [eauto|]. apply (si_active _ I) in Hin as (q & Hq & Hs & _). congruence.
        -- intros (q & [= <-] & Hs & <-). by left.
      * split; [|intros (q & [= <-] & ? & _); done]. intros (q & Hq & Hs & _)%(si_active _ I). congruence.
  - intros h i Hi. assert ((h, i) ∈ gs_waiting g) as Hi' by (by case_bool_decide). left. split; [|done].
    intros ->. apply (si_waiting _ I) in Hi' as (q & Hq & Hs). destruct Hs. congruence.
Qed.

Lemma gov_in k k' a amt d : kmove k k' a gov amt → a ≠ gov → ck_balance k' gov d = ck_balance k gov d + amount_of amt d.
Proof. intros Hm Ha. rewrite (km_balance _ _ _ _ _ Hm). unfold at_addr. rewrite decide_True, decide_False by done. lia. Qed.

Lemma inv_AddDeposit ctx id a amt s u s' :
  gov_inv s → ck_Blacklisted a = false → deposit_coins amt → AddDeposit ctx id a amt s = (Ok u, s') → gov_inv s'.
Proof.
  intros [I B] Ha Hc E. unfold AddDeposit in E. apply M_bind_Ok in E as (o & s1 & E1 & E). apply gets_Ok in E1 as [-> ->].
  destruct (gs_proposals (gv_gov s) !! id) as [p|] eqn:Hp; [|by apply fail_Ok in E].
  destruct (si_proposal _ I _ _ Hp) as [<- _ _ _].
  apply M_bind_Ok in E as (u1 & s1 & E1 & E). apply guard_not_Ok in E1 as [Hst ->].
  apply negb_false_iff, bool_decide_eq_true_1 in Hst.
  apply M_bind_Ok in E as (u2 & s1 & E1 & E). apply M_bind_Ok in E as (u3 & s2 & E2 & E).
  apply zoom_Ok in E1 as (t1 & E1 & ->). apply zoom_Ok in E1 as (k1 & E1 & ->).
  apply law_AccountToModule in E1 as (addr & Hg & Hm). rewrite (gl_gov gov (fee := fee)) in Hg. injection Hg as <-.
  apply tryEnter_Ok in E2 as (total & p' & Ht & Hp' & Hs & Hk); [|done]. cbn in Hs, Hk.
  apply updateDeposit_Ok in E as (d & -> & D1 & D2 & D3 & D4); [| |done].
  2:{ intros d Hd. rewrite (sm_deposits _ _ Hs) in Hd. unfold repropose in Hd. cbn in Hd.
      assert (gs_deposits (gv_gov s) !! (Pp_ProposalID p, a) = Some d) as Hd' by (by case_bool_decide).
      by destruct (si_deposit _ I _ _ _ Hd'). }
  assert (gs_deposits (gv_gov s2) = gs_deposits (gv_gov s)) as HD
    by (rewrite (sm_deposits _ _ Hs); unfold repropose; cbn; by case_bool_decide).
  split; cbn.
  - eapply store_inv_same; [|eapply (store_deposit (gv_gov s) (BlockTime ctx) p p' total amt a d); try done].
    + by apply same_gov_set_deposits.
    + intros x. rewrite D4, HD. done.
  - rewrite HD. eapply kept_backed; [exact Hk|]. split; [by apply (km_wf _ _ _ _ _ Hm), B|]. intros x.
    unfold coins_of. cbn. rewrite (gov_in _ _ _ _ _ Hm (not_gov _ Ha)). unfold coins_of in B. rewrite (bk_balance _ _ B).
    unfold all_deposited. rewrite map_sum_insert, D4, HD. lia.
Qed.

(** ** Decisions *)

(** A proposal that was voted on becomes [p'], which is closed; its deposits,
    its votes and its place in the queue go. *)
Lemma store_closed g g' p p' :
  store_inv g → gs_proposals g !! Pp_ProposalID p = Some p → Pp_Status p = StatusVotingPeriod →
  Pp_ProposalID p' = Pp_ProposalID p → Pp_Content p' = Pp_Content p →
  (Pp_Status p' = StatusPassed ∨ Pp_Status p' = StatusRejected ∨ Pp_Status p' = StatusFailed) →
  gs_nextID g' = gs_nextID g → gs_proposals g' = <[Pp_ProposalID p := p']> (gs_proposals g) →
  gs_deposits g' = without (gs_deposits g) (Pp_ProposalID p) →
  (∀ i a v, gs_votes g' !! (i, a) = Some v ↔ gs_votes g !! (i, a) = Some v ∧ i ≠ Pp_ProposalID p) →
  gs_inactive g' = gs_inactive g →
  (∀ x, x ∈ gs_active g' ↔ x ∈ gs_active g ∧ x.2 ≠ Pp_ProposalID p) →
  (∀ x, x ∈ gs_waiting g' → x ∈ gs_waiting g ∨ x.2 = Pp_ProposalID p) → store_inv g'.
Proof.
  intros I Hp Hst Hid Hc Hcl En Ep Ed Ev Ei Ea Ew. set (id := Pp_ProposalID p) in *.
  assert (¬ is_open p') as Hno by (unfold is_open; naive_solver congruence).
  eapply (store_updated id); [|exact I]. split; rewrite ?Ep.
  - done.
  - intros i Hi. by rewrite lookup_insert_ne.
  - eauto.
  - intros q. rewrite lookup_insert_eq. intros [= <-]. destruct (si_proposal _ I _ _ Hp) as [_ _ Hr _].
    split; [done|naive_solver congruence|by rewrite Hc|done].
  - intros i a Hi. apply option_eq. intros d. rewrite Ed, without_lookup. tauto.
  - intros a d. rewrite Ed, without_lookup. by intros [_ ?].
  - intros i a Hi. apply option_eq. intros v. rewrite Ev. tauto.
  - intros a v. rewrite Ev. by intros [_ ?].
  - rewrite Ei. split; [done|]. intros t. rewrite (si_inactive _ I t id), lookup_insert_eq. split.
    + intros (q & Hq & Hs & _). congruence.
    + intros (q & [= <-] & Hs & _). destruct Hno. by left.
  - split.
    + intros t i Hi. rewrite Ea. cbn. tauto.
    + intros t. rewrite Ea, lookup_insert_eq. cbn. split; [by intros [_ ?]|].
      intros (q & [= <-] & Hs & _). destruct Hno. by right.
  - intros h i [Hi|Hi]%Ew; cbn in *; [destruct (decide (i = id)) as [->|]; [right|by left]|right]; split; try done.
    all: exists p'; by rewrite lookup_insert_eq.
Qed.

(** The loop that deletes the votes on [id], with [l] still to be deleted. *)
Definition unvoting (id : Z) s (l : list GovVote) s' : Prop :=
  (∀ v, v ∈ l → v ∈ underID id (gs_votes (gv_gov s))) ∧ NoDup (Gv_Voter <$> l) ∧
  ∃ V, s' = gv_set_gov (gs_set_votes (λ _, V) (gv_gov s)) s ∧
    ∀ i a v, V !! (i, a) = Some v ↔ gs_votes (gv_gov s) !! (i, a) = Some v ∧ (i = id → v ∈ l).
Lemma unvoting_step id s x l s1 :
  (∀ a v, gs_votes (gv_gov s) !! (id, a) = Some v → Gv_ProposalID v = id ∧ Gv_Voter v = a) →
  unvoting id s (x :: l) s1 → wp False (deleteVote (Gv_ProposalID x) (Gv_Voter x)) s1 (λ _, unvoting id s l).
Proof.
  intros Hk (Hl & Hd & V & -> & HV). cbn in Hd. inversion Hd as [|? ? Hn Hd']; subst.
  assert (x ∈ underID id (gs_votes (gv_gov s))) as [a Hx]%elem_of_underID by (apply Hl; by left). destruct (Hk _ _ Hx) as [F1 F2]. rewrite F1, F2 in *.
  red. cbn. split; [intros; apply Hl; by right|]. split; [done|]. exists (delete (id, a) V). split; [done|].
  intros i b v. rewrite lookup_delete_Some, HV. split.
  - intros (Hne & Hv & Hi). split; [done|]. intros ->. specialize (Hi eq_refl). apply elem_of_cons in Hi as [->|]; [|done].
    destruct (Hk _ _ Hv). congruence.
  - intros [Hv Hi]. split_and!; [|done|intros ->; right; by apply Hi]. intros [= <- <-]. apply Hn, list_elem_of_fmap.
    exists v. split; [|by apply Hi]. destruct (Hk _ _ Hv). congruence.
Qed.
Lemma DeleteVotes_run id s :
  (∀ a v, gs_votes (gv_gov s) !! (id, a) = Some v → Gv_ProposalID v = id ∧ Gv_Voter v = a) →
  ∃ V, DeleteVotes id s = (Ok (), gv_set_gov (gs_set_votes (λ _, V) (gv_gov s)) s) ∧
    ∀ i a v, V !! (i, a) = Some v ↔ gs_votes (gv_gov s) !! (i, a) = Some v ∧ i ≠ id.
Proof.
  intros Hk. unfold DeleteVotes. rewrite (M_bind_run _ _ _ _ _ (eq_refl : GetVotes id s = (Ok _, s))).
  assert (unvoting id s (underID id (gs_votes (gv_gov s))) s) as Hs.
  { split; [done|]. split; [apply underID_NoDup; intros a v Hv; by apply Hk|].
    exists (gs_votes (gv_gov s)). split; [by destruct s as [? []]|]. intros i a v. split; [|tauto].
    intros Hv. split; [done|]. intros ->. apply elem_of_underID. eauto. }
  apply (wp_for_each False (λ v, deleteVote (Gv_ProposalID v) (Gv_Voter v))) in Hs; [|intros; by apply unvoting_step].
  apply wp_returns in Hs as ([] & s' & Hr & _ & _ & V & -> & HV). exists V. split; [done|]. intros i a v. rewrite HV.
  split; intros [Hv Hi]; (split; [done|]); [|done]. intros ->. by apply (not_elem_of_nil v), Hi.
Qed.

Lemma preTally_same p v s r s' : preTally p v s = (Ok r, s') → s' = s.
Proof.
  unfold preTally, BondedValidatorsByPower. intros E. apply M_bind_Ok in E as (l & s1 & E1 & E).
  assert (s1 = s) as -> by (gv_inv; match goal with E : bondedLoop _ _ _ = _ |- _ => apply bondedLoop_same in E as -> end;
    by destruct s).
  clear E1. gv_inv; done.
Qed.
Lemma Tally_same p b s r s' : Tally p b s = (Ok r, s') → s' = s.
Proof.
  unfold Tally. intros E. apply M_bind_Ok in E as ([[rs tv] vr] & s1 & E1 & E). apply preTally_same in E1 as ->.
  apply M_bind_Ok in E as (tp & s1 & E1 & E). apply totalPower_same in E1 as ->. gv_inv; done.
Qed.

(** ** The end of a vote

    What is asked of the code around when it has to return: [counts] is what
    the count of votes needs of the staking module, and the payments, the
    handlers and the count return unless [fails]. *)
Section Decide.
Context (fails : Prop) `{!Decision fails} (counts : StakingState K → Prop).
Definition refund_of (d : Deposit) : M K unit := ck_SendCoinsFromModuleToAccount GovModuleName (Dp_Depositor d) (Dp_Amount d).
Definition share_of (d : Deposit) : M K unit := ck_SendCoinsFromModuleToModule GovModuleName (gc_feeCollectorName (X := X) (K := K)) (Dp_Amount d).

Record returning : Prop := {
  rn_tally p b s : gov_inv s → counts (gv_staking s) → ¬ fails → is_ok (Tally p b s).1 = true;
  rn_handler path h ctx p s : rt_routes gc_router !! path = Some h → admitted (Pp_Content p) → counts (gv_staking s) →
    (¬ fails → is_panic (h ctx p s).1 = false) ∧ ∀ u s', h ctx p s = (Ok u, s') → counts (gv_staking s');
  rn_rejected path ph ctx c s : rt_routes gc_handlers !! path = Some ph → counts (gv_staking s) →
    wp fails (ph_RejectedHandler ph ctx c) s (λ _ s', counts (gv_staking s'));
  rn_refund : pays fails counts refund_of Dp_Depositor;
  rn_share : pays fails counts share_of (λ _, fee) }.
Hypothesis R : returning.

Definition recipient (distribute : bool) (d : Deposit) : string := if distribute then fee else Dp_Depositor d.
Lemma wp_settle (distribute : bool) id s :
  gov_inv s ∨ (∀ i a d, gs_deposits (gv_gov s) !! (i, a) = Some d →
     Dp_Depositor d = a ∧ ck_Blacklisted a = false ∧ deposit_coins (Dp_Amount d)) ∧
     backed (gs_deposits (gv_gov s)) (coins_of s) → counts (gv_staking s) →
  wp fails (if distribute then DistributeDeposits id else RefundDeposits id) s
    (λ _ s', paid (recipient distribute) id s s' ∧ counts (gv_staking s')).
Proof.
  intros I Hc. destruct distribute.
  - apply wp_payDeposits; [apply R| |done|done]. intros d _. apply not_eq_sym, (gl_ne gov (fee := fee)).
  - apply wp_payDeposits; [apply R| |done|done]. intros d. apply not_gov.
Qed.

(** The deposits are paid, and then the proposal is executed or its module
    is told; if the execution fails, nothing is left of it. *)
Record settled (distribute : bool) (st : ProposalStatus) p s s' : Prop := {
  sd_paid : ∃ s1, paid (recipient distribute) (Pp_ProposalID p) s s1 ∧ executed gov p s1 s' ∧
    (st = StatusFailed → s' = s1) ∧ (st = StatusRejected → untouched gov s1 s');
  sd_closed : st = StatusPassed ∨ st = StatusRejected ∨ st = StatusFailed;
  sd_counts : counts (gv_staking s') }.

Lemma wp_afterTally ctx p (distribute : bool) status s :
  gov_inv s → counts (gv_staking s) → admitted (Pp_Content p) →
  status = StatusPassed ∨ status = StatusRejected →
  wp fails (handleProposalAfterTally ctx p distribute status) s (λ p' s',
    ∃ st, p' = pp_set_status st p ∧ (status = StatusRejected ↔ st = StatusRejected) ∧ settled distribute st p s s').
Proof.
  intros I Hc Hr Hst. unfold handleProposalAfterTally.
  eapply wp_bind_mono; [apply (wp_settle distribute); [by left|done]|]. intros u1 s1 [Hp Hc1].
  destruct Hst as [-> | ->].
  - pose proof (ad_route _ Hr) as [h Hh]%bool_decide_eq_true_1.
    unfold GetRoute. rewrite Hh. wp_run. destruct (rn_handler R _ _ ctx p s1 Hh Hr Hc1) as [Hnp Hk].
    unfold wp, mbind, M_bind, cached. destruct (h ctx p s1) as [[u|e|e] s2] eqn:E; cbn.
    + exists StatusPassed. split; [done|]. split; [done|]. split; [|by left|by eapply Hk]. exists s1.
      split_and!; try done. by eapply gl_handler.
    + exists StatusFailed. split; [done|]. split; [done|]. split; [|by right; right|done]. exists s1.
      split_and!; try done. apply untouched_executed. done.
    + cbn in Hnp. destruct (decide fails) as [|Hn]; [done|]. by apply Hnp in Hn.
  - assert (∃ ph, handlers_of (ProposalRoute (Pp_Content p)) = Ok ph ∧ methods_ok gov ph ∧
      wp fails (ph_RejectedHandler ph ctx (Pp_Content p)) s1 (λ _ s', counts (gv_staking s'))) as (ph & Hph & Hm & Hw).
    { unfold handlers_of, HasRoute, GetRoute. destruct (rt_routes gc_handlers !! _) as [ph|] eqn:E.
      - rewrite bool_decide_true by eauto. exists ph. split; [done|]. split; [by eapply gl_methods|by eapply rn_rejected].
      - rewrite bool_decide_false by (by intros [? ?]). exists gov_handlers. split; [done|]. split; [apply gov_methods_ok|done]. }
    rewrite Hph. wp_run. unfold wp, mbind, M_bind in *.
    destruct (ph_RejectedHandler ph ctx _ s1) as [[u|e|e] s2] eqn:E; cbn; [|done..].
    exists StatusRejected. split; [done|]. split; [done|]. apply (mo_rejected _ _ Hm) in E.
    split; [|by right; left|done]. exists s1. split_and!; try done. by apply untouched_executed.
Qed.

Lemma tallyStatusExpire_cases params t st b :
  tallyStatusExpireVotePeriod params t = Ok (st, b) → st = StatusPassed ∨ st = StatusRejected.
Proof. unfold tallyStatusExpireVotePeriod. intros E. inv_ok; auto. Qed.
Lemma tallyStatusIn_cases params t st b :
  tallyStatusInVotePeriod params t = Ok (st, b) → st = StatusVotingPeriod ∨ st = StatusPassed ∨ st = StatusRejected.
Proof. unfold tallyStatusInVotePeriod. intros E. inv_ok; auto. Qed.
Lemma Tally_Ok p b s st d tr s' :
  Tally p b s = (Ok (st, d, tr), s') →
  (if b then tallyStatusExpireVotePeriod (gs_tallyParams (gv_gov s)) tr
   else tallyStatusInVotePeriod (gs_tallyParams (gv_gov s)) tr) = Ok (st, d).
Proof.
  unfold Tally. intros E. apply M_bind_Ok in E as ([[rs tv] vr] & s1 & E1 & E). apply preTally_same in E1 as ->.
  apply M_bind_Ok in E as (tp & s1 & E1 & E). apply totalPower_same in E1 as ->. gv_inv.
  by injection E as <- <- <- <-.
Qed.

(** The stores when the vote on [p] has ended. *)
Definition ended_vote p p' V g : Gov X :=
  gs_set_votes (λ _, V) (gs_set_active (λ q, q ∖ {[ (Pp_VotingEndTime p, Pp_ProposalID p) ]})
    (gs_set_proposals <[Pp_ProposalID p := p']> g)).
Lemma inv_ended distribute st p q p' V s s2 :
  gov_inv s → gs_proposals (gv_gov s) !! Pp_ProposalID p = Some p → Pp_Status p = StatusVotingPeriod →
  Pp_ProposalID q = Pp_ProposalID p → settled distribute st q s s2 →
  Pp_ProposalID p' = Pp_ProposalID p → Pp_Content p' = Pp_Content p → Pp_Status p' = st →
  (∀ i a v, V !! (i, a) = Some v ↔ gs_votes (gv_gov s) !! (i, a) = Some v ∧ i ≠ Pp_ProposalID p) →
  gov_inv (gv_set_gov (ended_vote p p' V (gv_gov s2)) s2) ∧
  (∀ x, x ∈ gs_active (ended_vote p p' V (gv_gov s2)) ↔ x ∈ gs_active (gv_gov s) ∧ x ≠ (Pp_VotingEndTime p, Pp_ProposalID p)) ∧
  gs_inactive (gv_gov s2) = gs_inactive (gv_gov s).
Proof.
  intros [I B] Hp Hst Hq [(s1 & Hpd & Hx & _) Hcl _] Hid Hc Hs HV.
  assert (∀ x, x ∈ gs_active (ended_vote p p' V (gv_gov s2)) ↔
    x ∈ gs_active (gv_gov s) ∧ x ≠ (Pp_VotingEndTime p, Pp_ProposalID p)) as Ha.
  { intros x. cbn. rewrite elem_of_difference, not_elem_of_singleton.
    assert (gs_active (gv_gov s1) = gs_active (gv_gov s)) as E1 by (rewrite (pd_gov _ _ _ _ Hpd); done). split.
    - intros [H1%(ex_active_own _ _ _ _ Hx) H2]. by rewrite <- E1.
    - intros [H1 H2]. split; [|done]. destruct x as [t i]. destruct (decide (i = Pp_ProposalID p)) as [->|Hi].
      + apply (si_active _ I) in H1 as (r & Hr & _ & <-). congruence.
      + apply (ex_active _ _ _ _ Hx); cbn; [congruence|by rewrite E1]. }
  assert (gs_inactive (gv_gov s2) = gs_inactive (gv_gov s)) as Hi
    by (rewrite (ex_inactive _ _ _ _ Hx), (pd_gov _ _ _ _ Hpd); done).
  split; [|done]. split.
  - eapply (store_closed (gv_gov s) _ p p'); try done.
    + by rewrite Hs.
    + cbn. by rewrite (ex_nextID _ _ _ _ Hx), (pd_gov _ _ _ _ Hpd).
    + cbn. by rewrite (ex_proposals _ _ _ _ Hx), (pd_gov _ _ _ _ Hpd).
    + cbn. rewrite (ex_deposits _ _ _ _ Hx), (pd_gov _ _ _ _ Hpd). cbn. by rewrite Hq.
    + intros [t i]. rewrite Ha. cbn. split; intros [H1 H2]; (split; [done|]).
      * intros ->. apply (si_active _ I) in H1 as (r & Hr & _ & <-). congruence.
      * intros [= _ ->]. done.
    + intros x [H1|H1]%(ex_waiting _ _ _ _ Hx); [left|right; congruence]. by rewrite (pd_gov _ _ _ _ Hpd) in H1.
  - cbn. rewrite (ex_deposits _ _ _ _ Hx), (pd_gov _ _ _ _ Hpd). cbn. eapply kept_backed; [apply Hx|]. apply Hpd.
Qed.

Lemma votes_keys g id a v : store_inv g → gs_votes g !! (id, a) = Some v → Gv_ProposalID v = id ∧ Gv_Voter v = a.
Proof. intros I Hv. by destruct (si_vote _ I _ _ _ Hv). Qed.

(** The votes are counted after the voting time. *)
Definition active_step ctx p : M (GovState X K) unit :=
  '(status, distribute, tallyResults) ← Tally p true;
  p ← handleProposalAfterTally ctx p distribute status;
  let p := pp_set_tally tallyResults p in
  _ ← SetProposal p;
  _ ← RemoveFromActiveProposalQueue (Pp_ProposalID p) (Pp_VotingEndTime p);
  DeleteVotes (Pp_ProposalID p).
(** What has happened to a proposal when its voting time is over. *)
Record decided p s s' : Prop := {
  de_inv : gov_inv s';
  de_counts : counts (gv_staking s');
  de_active x : x ∈ gs_active (gv_gov s') ↔ x ∈ gs_active (gv_gov s) ∧ x ≠ (Pp_VotingEndTime p, Pp_ProposalID p);
  de_inactive : gs_inactive (gv_gov s') = gs_inactive (gv_gov s);
  de_result : ∃ status distribute tr st s2, Tally p true s = (Ok (status, distribute, tr), s) ∧
    settled distribute st p s s2 ∧ (status = StatusRejected ↔ st = StatusRejected) ∧
    gv_staking s' = gv_staking s2 ∧ gs_deposits (gv_gov s') = without (gs_deposits (gv_gov s)) (Pp_ProposalID p) ∧
    gs_proposals (gv_gov s') = <[Pp_ProposalID p := pp_set_tally tr (pp_set_status st p)]> (gs_proposals (gv_gov s)) }.
Lemma wp_active_step ctx p s :
  gov_inv s → counts (gv_staking s) → gs_proposals (gv_gov s) !! Pp_ProposalID p = Some p →
  Pp_Status p = StatusVotingPeriod → wp fails (active_step ctx p) s (λ _, decided p s).
Proof.
  intros I Hc Hp Hst. unfold active_step.
  pose proof (rn_tally R p true s I Hc) as Ht. destruct (Tally p true s) as [[[[status di] tr]|e|e] s1] eqn:E.
  2,3: apply wp_bind; red; rewrite E; destruct (decide fails) as [|Hn]; [done|]; by apply Ht in Hn.
  pose proof (Tally_same _ _ _ _ _ E) as ->. eapply wp_bind_run; [exact E|].
  apply Tally_Ok in E as Hcase. apply tallyStatusExpire_cases in Hcase. destruct (si_proposal _ (proj1 I) _ _ Hp) as [_ _ Hr _].
  eapply wp_bind_mono; [by apply wp_afterTally|]. intros q s2 (st & -> & Hrej & Hs).
  destruct (sd_paid _ _ _ _ _ Hs) as (s1 & Hpd & Hx & _).
  assert (gs_votes (gv_gov s2) = gs_votes (gv_gov s)) as Ev by (rewrite (ex_votes _ _ _ _ Hx), (pd_gov _ _ _ _ Hpd); done).
  wp_run. wp_run. cbn [Pp_ProposalID Pp_VotingEndTime pp_set_tally pp_set_status].
  match goal with |- wp _ (DeleteVotes _) ?s3 _ => destruct (DeleteVotes_run (Pp_ProposalID p) s3) as (V & HV & HV') end.
  { cbn. rewrite Ev. intros a v. apply votes_keys, I. }
  cbn in HV'. rewrite Ev in HV'. eapply wp_run; [exact HV|].
  destruct (inv_ended di st p p (pp_set_tally tr (pp_set_status st p)) V s s2) as (I' & Ha & Hi); try done.
  split; try done; [apply Hs|]. exists status, di, tr, st, s2. split; [done|]. split; [done|]. split; [done|]. cbn.
  split; [done|]. by rewrite (ex_deposits _ _ _ _ Hx), (ex_proposals _ _ _ _ Hx), (pd_gov _ _ _ _ Hpd).
Qed.

(** The proposals in a queue up to [t], with those in [l] still to be
    handled. *)
Definition pending (t : Z) (q : gset (Z * Z)) (l : list (Z * Z)) : Prop :=
  NoDup l ∧ ∀ x, x ∈ l ↔ x ∈ q ∧ x.1 ≤ t.
Lemma pending_start t q : pending t q (queueUpTo t q).
Proof. split; [apply queueUpTo_NoDup|]. intros x. apply elem_of_queueUpTo. Qed.
Lemma pending_next t q q' x l :
  pending t q (x :: l) → (∀ y, y ∈ q' ↔ y ∈ q ∧ y ≠ x) → pending t q' l.
Proof.
  intros [Hd Hl] Hq. inversion Hd as [|? ? Hn Hd']; subst. split; [done|]. intros y. rewrite Hq. split.
  - intros Hy. assert (y ∈ x :: l) as [? ?]%Hl by (by right). split; [|done]. split; [done|]. by intros ->.
  - intros [[Hy Hne] Ht]. assert (y ∈ x :: l) as [->|]%elem_of_cons by (by apply Hl); done.
Qed.

Definition active_loop (t : Z) (l : list (Z * Z)) s : Prop :=
  gov_inv s ∧ counts (gv_staking s) ∧ pending t (gs_active (gv_gov s)) l ∧ pending t (gs_inactive (gv_gov s)) [].
Lemma wp_handleActive ctx s :
  gov_inv s → counts (gv_staking s) → pending (BlockTime ctx) (gs_inactive (gv_gov s)) [] →
  wp fails (handleActiveProposals ctx) s (λ _, active_loop (BlockTime ctx) []).
Proof.
  intros I Hc Hi. unfold handleActiveProposals, iterateQueue. wp_run.
  apply (wp_for_each _ _ (active_loop (BlockTime ctx))); [|split_and!; try done; by apply pending_start].
  intros [t id] l s1 (I1 & Hc1 & Hl & Hi1).
  assert ((t, id) ∈ gs_active (gv_gov s1)) as Hin by (by apply (proj2 Hl (t, id)); left).
  apply (si_active _ (proj1 I1)) in Hin as (p & Hp & Hst & <-).
  destruct (si_proposal _ (proj1 I1) _ _ Hp) as [<- _ _ _].
  eapply wp_bind_run; [reflexivity|]. cbn [snd]. rewrite Hp.
  eapply wp_mono; [by apply wp_active_step|]. intros u s2 D. cbn beta in D. split; [apply D|]. split; [apply D|]. split.
  - eapply pending_next; [exact Hl|apply D].
  - by rewrite (de_inactive _ _ _ D).
Qed.

Lemma executed_inv p s s' :
  gov_inv s → gs_proposals (gv_gov s) !! Pp_ProposalID p = Some p → ¬ is_open p → executed gov p s s' → gov_inv s'.
Proof.
  intros [I B] Hp Hno Hx. assert (gs_active (gv_gov s') = gs_active (gv_gov s)) as Ea.
  { apply set_eq. intros [t i]. destruct (decide (i = Pp_ProposalID p)) as [->|Hi]; [|by apply (ex_active _ _ _ _ Hx)].
    split; [apply (ex_active_own _ _ _ _ Hx)|]. intros (q & Hq & Hs & _)%(si_active _ I). destruct Hno. right. congruence. }
  split.
  - destruct I. split; rewrite ?(ex_proposals _ _ _ _ Hx), ?(ex_deposits _ _ _ _ Hx), ?(ex_votes _ _ _ _ Hx),
      ?(ex_inactive _ _ _ _ Hx), ?(ex_nextID _ _ _ _ Hx), ?Ea; try done.
    intros h i [Hi|Hi]%(ex_waiting _ _ _ _ Hx); [by eapply si_waiting0|]. cbn in Hi. subst i. eauto.
  - rewrite (ex_deposits _ _ _ _ Hx). eapply kept_backed; [apply (ex_coins _ _ _ _ Hx)|exact B].
Qed.

Definition waiting_loop (l : list (Z * Z)) s : Prop :=
  gov_inv s ∧ counts (gv_staking s) ∧ ∀ x, x ∈ l → ∃ p, gs_proposals (gv_gov s) !! x.2 = Some p ∧ ¬ is_open p.
Lemma wp_handleWaiting ctx s :
  gov_inv s → counts (gv_staking s) →
  wp fails (handleWaitingProposals ctx) s (λ _ s', gov_inv s' ∧ counts (gv_staking s')).
Proof.
  intros I Hc. unfold handleWaitingProposals, iterateQueue. wp_run.
  eapply wp_mono; [apply (wp_for_each _ _ waiting_loop)|by intros u s' (? & ? & _)].
  - intros [h id] l s1 (I1 & Hc1 & Hl). destruct (Hl (h, id)) as (p & Hp & Hno); [by left|]. cbn [snd] in Hp.
    destruct (si_proposal _ (proj1 I1) _ _ Hp) as [<- _ Hr _]. eapply wp_bind_run; [reflexivity|]. cbn [snd]. rewrite Hp.
    pose proof (ad_route _ Hr) as [hd Hh]%bool_decide_eq_true_1. unfold GetRoute. rewrite Hh. wp_run.
    destruct (rn_handler R _ _ ctx p s1 Hh Hr Hc1) as [Hnp Hk].
    unfold wp, mbind, M_bind, cached. destruct (hd ctx p s1) as [[u|e|e] s2] eqn:E; cbn.
    + assert (executed gov p s1 s2) as Hx by (by eapply gl_handler). split; [by eapply executed_inv|]. split; [by eapply Hk|].
      intros x Hx'. rewrite (ex_proposals _ _ _ _ Hx). apply Hl. by right.
    + split_and!; try done. intros x Hx. apply Hl. by right.
    + cbn in Hnp. destruct (decide fails) as [|Hn]; [done|]. by apply Hnp in Hn.
  - split_and!; try done. intros [h id] [Hw _]%elem_of_queueUpTo. by apply (si_waiting _ (proj1 I) h).
Qed.

(** A proposal whose deposits did not suffice in time. *)
Definition inactive_step p : M (GovState X K) unit :=
  _ ← DeleteProposal (Pp_ProposalID p);
  DistributeDeposits (Pp_ProposalID p).
Record dropped p s s' : Prop := {
  dr_inv : gov_inv s';
  dr_counts : counts (gv_staking s');
  dr_inactive x : x ∈ gs_inactive (gv_gov s') ↔ x ∈ gs_inactive (gv_gov s) ∧ x ≠ (Pp_DepositEndTime p, Pp_ProposalID p);
  dr_gone : gs_proposals (gv_gov s') = delete (Pp_ProposalID p) (gs_proposals (gv_gov s)) }.
Lemma wp_inactive_step p s :
  gov_inv s → counts (gv_staking s) → gs_proposals (gv_gov s) !! Pp_ProposalID p = Some p →
  Pp_Status p = StatusDepositPeriod → wp fails (inactive_step p) s (λ _, dropped p s).
Proof.
  intros [I B] Hc Hp Hst. unfold inactive_step. set (id := Pp_ProposalID p) in *.
  set (g1 := gs_set_proposals (delete id) (gs_set_active (λ q, q ∖ {[ (Pp_VotingEndTime p, id) ]})
    (gs_set_inactive (λ q, q ∖ {[ (Pp_DepositEndTime p, id) ]}) (gv_gov s)))).
  eapply wp_bind_run.
  { unfold DeleteProposal. rewrite (M_bind_run _ _ _ _ _ (eq_refl : GetProposal id s = (Ok _, s))), Hp.
    reflexivity. }
  change (gv_set_gov _ _) with (gv_set_gov g1 s). eapply wp_mono; [apply (wp_settle true); [right|exact Hc]|].
  { split; [|exact B]. intros i a d Hd. by destruct (si_deposit _ I _ _ _ Hd). }
  intros u s2 [Hpd Hc2]. pose proof (pd_gov _ _ _ _ Hpd) as Hg. cbn in Hg.
  assert (∀ t, (t, id) ∈ gs_active (gv_gov s) → False) as Hna
    by (intros t (q & Hq & Hs & _)%(si_active _ I); congruence).
  assert (∀ x, x ∈ gs_inactive (gv_gov s2) ↔ x ∈ gs_inactive (gv_gov s) ∧ x ≠ (Pp_DepositEndTime p, id)) as Hi.
  { intros x. rewrite Hg. cbn. by rewrite elem_of_difference, not_elem_of_singleton. }
  split; [split|..].
  - eapply (store_updated id); [|exact I]. rewrite Hg in *. split; cbn.
    + done.
    + intros i Hne. by rewrite lookup_delete_ne.
    + intros [q Hq]. by rewrite lookup_delete_eq in Hq.
    + intros q Hq. by rewrite lookup_delete_eq in Hq.
    + intros i a Hne. apply option_eq. intros d. rewrite without_lookup. tauto.
    + intros a d. rewrite without_lookup. by intros [_ ?].
    + done.
    + intros a v [_ _ _ (q & Hq & Hs)]%(si_vote _ I). congruence.
    + split; intros t; [intros i Hne; set_solver|].
      rewrite lookup_delete_eq, elem_of_difference, not_elem_of_singleton. split; [|naive_solver].
      intros [(q & Hq & _ & <-)%(si_inactive _ I) Hne]. congruence.
    + split; intros t; [intros i Hne; set_solver|]. rewrite lookup_delete_eq. split; [|naive_solver].
      intros [Ha _]%elem_of_difference. by apply Hna in Ha.
    + intros h i Hw. left. split; [|done]. intros ->. apply (si_waiting _ I) in Hw as (q & Hq & Hs). destruct Hs. left. congruence.
  - rewrite Hg. apply Hpd.
  - exact Hc2.
  - done.
  - by rewrite Hg.
Qed.

Lemma wp_handleInActive ctx s :
  gov_inv s → counts (gv_staking s) →
  wp fails (handleInActiveProposals ctx) s (λ _ s', gov_inv s' ∧ counts (gv_staking s') ∧
    pending (BlockTime ctx) (gs_inactive (gv_gov s')) []).
Proof.
  intros I Hc. unfold handleInActiveProposals, iterateQueue. wp_run.
  apply (wp_for_each _ _ (λ l s', gov_inv s' ∧ counts (gv_staking s') ∧ pending (BlockTime ctx) (gs_inactive (gv_gov s')) l));
    [|split_and!; try done; by apply pending_start].
  intros [t id] l s1 (I1 & Hc1 & Hl).
  assert ((t, id) ∈ gs_inactive (gv_gov s1)) as Hin by (by apply (proj2 Hl (t, id)); left).
  apply (si_inactive _ (proj1 I1)) in Hin as (p & Hp & Hst & <-).
  destruct (si_proposal _ (proj1 I1) _ _ Hp) as [<- _ _ _].
  eapply wp_bind_run; [reflexivity|]. cbn [snd]. rewrite Hp.
  eapply wp_mono; [by apply wp_inactive_step|]. intros u s2 D. cbn beta in D. split; [apply D|]. split; [apply D|].
  eapply pending_next; [exact Hl|apply D].
Qed.
Lemma wp_gov_EndBlocker ctx s :
  gov_inv s → counts (gv_staking s) → wp fails (gov_EndBlocker ctx) s (λ _, active_loop (BlockTime ctx) []).
Proof.
  intros I Hc. unfold gov_EndBlocker. eapply wp_bind_mono; [by apply wp_handleWaiting|]. intros u1 s1 (I1 & Hc1).
  eapply wp_bind_mono; [by apply wp_handleInActive|]. intros u2 s2 (I2 & Hc2 & Hi). by apply wp_handleActive.
Qed.
End Decide.

(** Nothing has to be asked if the code may fail. *)
Lemma wp_True {S A} (m : M S A) t Q : (∀ a t', m t = (Ok a, t') → Q a t') → wp True m t Q.
Proof. unfold wp. destruct (m t) as [[]]; auto. Qed.
Lemma returning_partial : returning True (λ _, True).
Proof.
  split; try done.
  - intros path ph ctx c s _ _. by apply wp_True.
  - intros d t Hk _ _ _ _. apply wp_True. intros u k' E. apply law_ModuleToAccount in E as (_ & addr & Ha & Hm).
    rewrite (gl_gov gov (fee := fee)) in Ha. by injection Ha as <-.
  - intros d t Hk _ _ _ _. apply wp_True. intros u k' E. apply law_ModuleToModule in E as (b1 & b2 & H1 & H2 & Hm).
    rewrite (gl_gov gov (fee := fee)) in H1. rewrite (gl_fee gov (fee := fee)) in H2. by injection H1 as <-; injection H2 as <-.
Qed.

(** ** Votes *)

Lemma AddVote_Ok ctx id a o s x s' :
  gov_inv s → AddVote ctx id a o s = (Ok x, s') →
  ∃ p s1, gs_proposals (gv_gov s) !! id = Some p ∧ Pp_Status p = StatusVotingPeriod ∧ ValidVoteOption o = true ∧
    untouched gov s s1 ∧ s' = gv_set_gov (gs_set_votes <[(id, a) := mkGovVote id a o]> (gv_gov s1)) s1.
Proof.
  intros I E. unfold AddVote in E. apply M_bind_Ok in E as (r & s1 & E1 & E). apply gets_Ok in E1 as [-> ->].
  destruct (gs_proposals (gv_gov s) !! id) as [p|] eqn:Hp; [|by apply fail_Ok in E].
  apply M_bind_Ok in E as (u1 & s1 & E1 & E). apply guard_not_Ok in E1 as [Hst ->].
  apply negb_false_iff, bool_decide_eq_true_1 in Hst.
  apply M_bind_Ok in E as (u2 & s1 & E1 & E). apply guard_not_Ok in E1 as [Ho ->]. apply negb_false_iff in Ho.
  apply M_bind_Ok in E as (ph & s1 & E1 & E). apply lift_Ok in E1 as [Hph%handlers_of_ok ->].
  apply M_bind_Ok in E as (fs & s1 & E1 & E). apply (mo_vote _ _ Hph) in E1. exists p, s1. gv_inv. done.
Qed.
Lemma inv_AddVote ctx id a o s x s' :
  gov_inv s → AddVote ctx id a o s = (Ok x, s') → gov_inv s' ∧ gs_proposals (gv_gov s') = gs_proposals (gv_gov s).
Proof.
  intros I (p & s1 & Hp & Hst & Ho & U & ->)%AddVote_Ok; [|done]. pose proof (untouched_inv _ _ U I) as [I1 B1].
  rewrite <- (sm_proposals _ _ (un_gov _ _ _ U)) in Hp |- *. split; [|done]. split; [|done]. destruct I1. split; try done.
  cbn. intros i b v [[[= <- <-] <-]|[_ Hv]]%lookup_insert_Some; [|by apply si_vote0]. split; try done. eauto.
Qed.

(** The stores after a vote that has only been counted. *)
Lemma store_tally g p tr :
  store_inv g → gs_proposals g !! Pp_ProposalID p = Some p →
  store_inv (gs_set_proposals <[Pp_ProposalID p := pp_set_tally tr p]> g).
Proof.
  intros I Hp. eapply (store_updated (Pp_ProposalID p)); [|exact I]. set (id := Pp_ProposalID p) in *. split; cbn; try done.
  - intros i Hi. by rewrite lookup_insert_ne.
  - intros q. rewrite lookup_insert_eq. intros [= <-]. by destruct (si_proposal _ I _ _ Hp).
  - intros a d [? ? ? ? (q & Hq & Ho)]%(si_deposit _ I). split; try done. exists (pp_set_tally tr p).
    rewrite lookup_insert_eq. split; [done|]. assert (q = p) as -> by congruence. done.
  - intros a v [? ? ? (q & Hq & Ho)]%(si_vote _ I). split; try done. exists (pp_set_tally tr p).
    rewrite lookup_insert_eq. split; [done|]. assert (q = p) as -> by congruence. done.
  - split; [done|]. intros t. rewrite (si_inactive _ I t id), lookup_insert_eq. split.
    + intros (q & Hq & Hs & <-). exists (pp_set_tally tr p). assert (q = p) as -> by congruence. done.
    + intros (q & [= <-] & Hs & <-). by exists p.
  - split; [done|]. intros t. rewrite (si_active _ I t id), lookup_insert_eq. split.
    + intros (q & Hq & Hs & <-). exists (pp_set_tally tr p). assert (q = p) as -> by congruence. done.
    + intros (q & [= <-] & Hs & <-). by exists p.
  - intros h i Hw. destruct (decide (i = id)) as [->|]; [right|by left]. split; [done|].
    apply (si_waiting _ I) in Hw as (q & Hq & Ho). exists (pp_set_tally tr p). rewrite lookup_insert_eq. split; [done|].
    assert (q = p) as -> by congruence. done.
Qed.

Lemma inv_handleMsgVote ctx id a o s u s' :
  gov_inv s → handleMsgVote ctx id a o s = (Ok u, s') → gov_inv s'.
Proof.
  intros I E. unfold handleMsgVote in E. apply M_bind_Ok in E as (r & s1 & E1 & E). apply gets_Ok in E1 as [-> ->].
  destruct (gs_proposals (gv_gov s) !! id) as [p|] eqn:Hp; [|by apply fail_Ok in E].
  destruct (si_proposal _ (proj1 I) _ _ Hp) as [<- _ _ _].
  apply M_bind_Ok in E as (x & s1 & E1 & E). assert (Pp_Status p = StatusVotingPeriod) as Hst.
  { apply AddVote_Ok in E1 as (q & ? & Hq & Hs & _); [|done]. congruence. }
  apply inv_AddVote in E1 as [I1 Eq]; [|done]. rewrite <- Eq in Hp.
  apply M_bind_Ok in E as ([[status di] tr] & s2 & E2 & E). pose proof (Tally_same _ _ _ _ _ E2) as ->.
  apply Tally_Ok, tallyStatusIn_cases in E2 as Hcase. case_bool_decide as Hv.
  { gv_inv. split; [|apply I1]. apply (store_tally _ p tr); [apply I1|done]. }
  destruct (si_proposal _ (proj1 I1) _ _ Hp) as [_ _ Hr _]. destruct Hcase as [|Hcase]; [done|].
  apply M_bind_Ok in E as (p' & s3 & E3 & E). apply M_bind_Ok in E3 as (q & s4 & E4 & E3).
  apply (wp_Ok _ _ _ _ _ (wp_afterTally _ _ returning_partial ctx (pp_set_tally tr p) di status s1 I1 Logic.I Hr Hcase)) in E4
    as (st & -> & _ & Hs).
  destruct (sd_paid _ _ _ _ _ _ Hs) as (s5 & Hpd & Hx & _).
  assert (gs_votes (gv_gov s4) = gs_votes (gv_gov s1)) as Ev by (rewrite (ex_votes _ _ _ _ Hx), (pd_gov _ _ _ _ Hpd); done).
  apply M_bind_Ok in E3 as (u1 & s6 & E5 & E3). apply modify_Ok in E5 as ->.
  apply M_bind_Ok in E3 as (u2 & s7 & E5 & E3). apply mret_Ok in E3 as [-> ->].
  edestruct DeleteVotes_run as (V & HV & HV'); [|rewrite HV in E5].
  { cbn. rewrite Ev. intros b v. apply votes_keys, I1. }
  injection E5 as _ <-. cbn in HV'. rewrite Ev in HV'. apply modify_Ok in E as ->.
  set (p' := pp_set_voting _ _ _).
  destruct (inv_ended (λ _, True) di st p (pp_set_tally tr p) p' V s1 s4) as (I' & _); done.
Qed.

(** ** Messages *)

Lemma inv_gov_deliver ctx msg s u s' :
  gov_inv s → id_room s → ck_Blacklisted (gov_signer msg) = false → gov_deliver ctx msg s = (Ok u, s') → gov_inv s'.
Proof.
  intros I Hroom Hb E. unfold gov_deliver in E. apply M_bind_Ok in E as (u0 & s0 & E0 & E). apply lift_Ok in E0 as [_ ->].
  destruct msg as [msg|id a amt|id a o]; cbn [gov_NewHandler gov_signer] in *.
  - apply M_bind_Ok in E as (id & s1 & E1 & E). apply mret_Ok in E as [_ ->]. unfold handleMsgSubmitProposal in E1.
    apply M_bind_Ok in E1 as (u1 & s2 & E2 & E1). apply guard_not_Ok in E2 as [Hc%negb_false_iff%only_default_coins ->].
    destruct (Ms_Content msg) as [content|] eqn:Hcm; [|by apply panic_Ok in E1].
    apply M_bind_Ok in E1 as (ph & s2 & E2 & E1). apply lift_Ok in E2 as [Hpo ->].
    pose proof (handlers_of_ok _ _ Hpo) as Hph.
    apply M_bind_Ok in E1 as (u2 & s2 & E2 & E1). apply (mo_check _ _ Hph) in E2 as U. destruct u2.
    apply M_bind_Ok in E1 as (p & s3 & E3 & E1).
    apply inv_SubmitProposal in E3 as (I3 & _); [|by eapply untouched_inv| |by exists ph, ctx, msg, s, s2].
    + apply M_bind_Ok in E1 as (u4 & s4 & E4 & E1). apply mret_Ok in E1 as [_ ->]. by eapply inv_AddDeposit.
    + intros n. rewrite (sm_nextID _ _ (un_gov _ _ _ U)). apply Hroom.
  - unfold gov_handleMsgDeposit in E. apply M_bind_Ok in E as (u1 & s1 & E1 & E). apply guard_not_Ok in E1 as [Hc%negb_false_iff%only_default_coins ->].
    apply M_bind_Ok in E as (c & s1 & E1 & E). apply GetCoins_untouched in E1 as ->.
    apply M_bind_Ok in E as (u2 & s1 & E1 & E). apply replaceErr_Ok, lift_Ok in E1 as [_ ->]. by eapply inv_AddDeposit.
  - by eapply inv_handleMsgVote.
Qed.
End Inv.
