(* ===== verification/GovTally.v ===== *)
(** * Governance: the count of the votes

    A validator votes with the shares that delegators gave it, less those of
    delegators who vote themselves; these count for every validator they are
    on.  The code keeps deductions in a map and visits it in any order: what
    it computes is the sum over validators that is written down here, and no
    share counts twice. *)
From S2P Require Import Prelude Decimal Denom Coins Bank CoinKeeper Token Swap Staking StakingVals StakingVotes StakingProps StakingMsgs StakingSet StakingElect Gov GovProps.
#[local] Open Scope Z_scope.

(** ** What the count should be *)

Section Reference.
Context (D : gmap string Delegator) (B : list Validator) (W : list GovVote).

Definition seats : list string := Va_OperatorAddress <$> B.

(** The shares on [a] that the voter of [w] votes with itself: a validator of
    the set does not vote with shares of its own. *)
Definition voice (a : string) (w : GovVote) : Z :=
  if bool_decide (Gv_Voter w ∈ seats) then 0 else at_key (shares_to a) (D !! Gv_Voter w).
Definition voice_for (o : VoteOption) (a : string) (w : GovVote) : Z :=
  if Gv_Option w =? o then voice a w else 0.
(** What the validator [a] has chosen, if anything. *)
Definition choice (a : string) : VoteOption :=
  foldl (λ c w, if String.eqb (Gv_Voter w) a then Gv_Option w else c) OptionEmpty W.
(** What is left to a validator by delegators that vote themselves. *)
Definition entrusted (v : Validator) : Z :=
  Va_DelegatorShares v - sum_over (voice (Va_OperatorAddress v)) W.
(** The shares of [v] that are for [o]. *)
Definition shares_for (o : VoteOption) (v : Validator) : Z :=
  sum_over (voice_for o (Va_OperatorAddress v)) W +
  (if choice (Va_OperatorAddress v) =? o then entrusted v else 0).
Definition votes_for (o : VoteOption) : Z := sum_over (shares_for o) B.
Definition all_shares : Z := sum_over Va_DelegatorShares B.
Definition voted_shares : Z :=
  votes_for OptionYes + votes_for OptionAbstain + votes_for OptionNo + votes_for OptionNoWithVeto.
Definition counted : TallyResult :=
  mkTallyResult all_shares voted_shares (votes_for OptionYes) (votes_for OptionAbstain)
    (votes_for OptionNo) (votes_for OptionNoWithVeto).
End Reference.

(** The shares that delegators put on distinct voters are part of what the
    validators have. *)
Record ballot (D : gmap string Delegator) (B : list Validator) (W : list GovVote) : Prop := {
  ba_seats : NoDup (seats B);
  ba_options : Forall (λ w, ValidVoteOption (Gv_Option w) = true) W;
  ba_lists a d : D !! a = Some d → NoDup (De_ValidatorAddresses d);
  ba_voice a w : w ∈ W → 0 ≤ voice D B a w;
  ba_entrusted v : v ∈ B → sum_over (voice D B (Va_OperatorAddress v)) W ≤ Va_DelegatorShares v;
  ba_fits : all_shares B < 2 ^ 315 }.

(** ** The two loops of the code *)

Lemma valid_cases (P : VoteOption → Prop) :
  P OptionYes → P OptionAbstain → P OptionNo → P OptionNoWithVeto →
  ∀ o, ValidVoteOption o = true → P o.
Proof.
  intros H1 H2 H3 H4 o. unfold ValidVoteOption. rewrite !orb_true_iff, !Z.eqb_eq. by intros [[[->| ->]| ->]| ->].
Qed.
Definition all4 (f : VoteOption → Z) : Z := f OptionYes + f OptionAbstain + f OptionNo + f OptionNoWithVeto.
Lemma all4_one (f : VoteOption → Z) (o : VoteOption) (x : Z) :
  ValidVoteOption o = true → all4 (λ p, f p + if o =? p then x else 0) = all4 f + x.
Proof. unfold all4. revert o. apply valid_cases; cbn; lia. Qed.
Lemma all4_ge (f : VoteOption → Z) (o : VoteOption) : (∀ p, 0 ≤ f p) → ValidVoteOption o = true → f o ≤ all4 f.
Proof.
  intros Hf. revert o. unfold all4. pose proof (Hf OptionYes). pose proof (Hf OptionAbstain).
  pose proof (Hf OptionNo). pose proof (Hf OptionNoWithVeto). apply valid_cases; lia.
Qed.
Lemma all4_ext (f h : VoteOption → Z) : (∀ o, f o = h o) → all4 f = all4 h.
Proof. intros E. unfold all4. by rewrite !E. Qed.
Lemma sum_over_all4 {A} (f : VoteOption → A → Z) l : sum_over (λ x, all4 (λ o, f o x)) l = all4 (λ o, sum_over (f o) l).
Proof. unfold all4. by rewrite !sum_over_add. Qed.

Section Loops.
Context (D : gmap string Delegator) (B : list Validator).
Context (HB : NoDup (seats B)).
Implicit Types (δ : VoteOption → string → Z) (ch : string → VoteOption) (c : Count).

Definition over (f : string → Z) : Z := sum_over f (seats B).

(** A validator after shares [x] were deducted from it and it chose [o]. *)
Definition info_with (x : Z) (o : VoteOption) (v : Validator) : validatorGovInfo :=
  gi_set_vote o (gi_set_deductions x (newValidatorGovInfo v)).
Definition entry_with (f : string → Z) ch (v : Validator) : string * validatorGovInfo :=
  (Va_OperatorAddress v, info_with (f (Va_OperatorAddress v)) (ch (Va_OperatorAddress v)) v).
Definition infos (f : string → Z) ch : gmap string validatorGovInfo := list_to_map (entry_with f ch <$> B).

Lemma infos_keys f ch : NoDup (entry_with f ch <$> B).*1.
Proof. rewrite <- list_fmap_compose. exact HB. Qed.
Lemma infos_lookup f ch a i :
  infos f ch !! a = Some i ↔ ∃ v, v ∈ B ∧ a = Va_OperatorAddress v ∧ i = info_with (f a) (ch a) v.
Proof.
  unfold infos. rewrite <- elem_of_list_to_map by apply infos_keys. rewrite list_elem_of_fmap. split.
  - intros (v & E & Hv). injection E as -> ->. eauto.
  - intros (v & Hv & -> & ->). by exists v.
Qed.
Lemma infos_None f ch a : infos f ch !! a = None ↔ a ∉ seats B.
Proof.
  unfold infos. rewrite <- not_elem_of_list_to_map, <- list_fmap_compose. done.
Qed.
Lemma seat_unique v w : v ∈ B → w ∈ B → Va_OperatorAddress v = Va_OperatorAddress w → v = w.
Proof.
  intros Hv Hw E. assert (infos (λ _, 0) (λ _, OptionEmpty) !! Va_OperatorAddress v =
    Some (info_with 0 OptionEmpty v)) as E1 by (apply infos_lookup; eauto).
  assert (v ∈ B ∧ w ∈ B) as [[i Hi]%list_elem_of_lookup [j Hj]%list_elem_of_lookup] by done.
  assert (i = j) as <- by (eapply NoDup_lookup; [exact HB|unfold seats; by rewrite list_lookup_fmap, Hi|
    unfold seats; rewrite list_lookup_fmap, Hj; cbn; by f_equal]).
  congruence.
Qed.
Lemma infos_insert f f' ch ch' v :
  v ∈ B →
  (∀ a, a ≠ Va_OperatorAddress v → f' a = f a ∧ ch' a = ch a) →
  <[Va_OperatorAddress v := info_with (f' (Va_OperatorAddress v)) (ch' (Va_OperatorAddress v)) v]> (infos f ch)
  = infos f' ch'.
Proof.
  intros Hv Hf. apply map_eq. intros a. apply option_eq. intros i.
  rewrite lookup_insert_Some, !infos_lookup. split.
  - intros [[<- <-]|[Hne (w & Hw & -> & ->)]]; [by exists v|]. destruct (Hf (Va_OperatorAddress w)) as [-> ->]; eauto.
  - intros (w & Hw & -> & ->). destruct (decide (Va_OperatorAddress v = Va_OperatorAddress w)) as [E|Hne].
    + left. split; [done|]. by rewrite (seat_unique v w).
    + right. split; [done|]. destruct (Hf (Va_OperatorAddress w)) as [-> ->]; eauto.
Qed.
Lemma govValidators_infos : govValidators B = infos (λ _, 0) (λ _, OptionEmpty).
Proof.
  unfold govValidators, infos. assert (∀ m : gmap string validatorGovInfo, foldl (λ m v, <[Va_OperatorAddress v := newValidatorGovInfo v]> m) m B
    = (list_to_map (entry_with (λ _, 0) (λ _, OptionEmpty) <$> B) : gmap string validatorGovInfo) ∪ m) as E.
  { revert HB. unfold seats. induction B as [|v l IH]; intros Hd m; [by rewrite left_id_L by apply _|].
    inversion Hd as [|? ? Hn Hd']; subst. cbn [foldl]. rewrite IH by done. rewrite fmap_cons. cbn.
    rewrite <- insert_union_r, insert_union_l; [done|]. apply not_elem_of_list_to_map. by rewrite <- list_fmap_compose. }
  by rewrite E, right_id_L by apply _.
Qed.

(** The sum over seats when one of them gains. *)
Lemma over_one f f' a x :
  a ∈ seats B → (∀ b, b ≠ a → f' b = f b) → f' a = f a + x → over f' = over f + x.
Proof.
  unfold over. induction HB as [|b l Hn Hd IH]; [by intros ?%not_elem_of_nil|].
  intros Ha Hf E. rewrite !sum_over_cons. apply elem_of_cons in Ha as [->|Ha].
  - rewrite (sum_over_ext f' f); [lia|]. intros b' Hb. apply Hf. by intros ->.
  - rewrite (Hf b) by (by intros ->). rewrite IH by done. lia.
Qed.
Lemma over_ext f f' : (∀ a, a ∈ seats B → f' a = f a) → over f' = over f.
Proof. apply sum_over_ext. Qed.

(** The variables of the code when [δ] was voted with by delegators. *)
Definition ducted δ (a : string) : Z := all4 (λ o, δ o a).
Record cinv δ ch c : Prop := {
  ci_validators : ct_validators c = infos (ducted δ) ch;
  ci_results o : ValidVoteOption o = true → ct_results c !! o = Some (over (δ o));
  ci_total : ct_totalVotedPower c = over (ducted δ);
  ci_power : ct_totalPower c = 0;
  ci_voter : ct_voterPower c = 0 }.

Lemma infos_ext f f' ch ch' :
  (∀ a, a ∈ seats B → f' a = f a ∧ ch' a = ch a) → infos f' ch' = infos f ch.
Proof.
  intros E. unfold infos. f_equal. apply list_fmap_ext. intros i v Hv. unfold entry_with.
  destruct (E (Va_OperatorAddress v)) as [-> ->]; [|done]. apply list_elem_of_fmap. exists v. split; [done|].
  by eapply list_elem_of_lookup_2.
Qed.
Lemma cinv_ext δ δ' ch ch' c :
  (∀ a, a ∈ seats B → (∀ o, δ' o a = δ o a) ∧ ch' a = ch a) → cinv δ ch c → cinv δ' ch' c.
Proof.
  intros E [C1 C2 C3 C4 C5].
  assert (∀ a, a ∈ seats B → ducted δ' a = ducted δ a) as Ed.
  { intros a Ha. apply all4_ext, (E a Ha). }
  split; [|intros o Ho|..]; try done.
  - rewrite C1. symmetry. apply infos_ext. intros a Ha. split; [by apply Ed|apply (E a Ha)].
  - rewrite C2 by done. f_equal. symmetry. apply over_ext. intros a Ha. apply (E a Ha).
  - rewrite C3. symmetry. by apply over_ext.
Qed.

Definition plus (o : VoteOption) (g : string → Z) δ : VoteOption → string → Z :=
  λ p a, δ p a + if o =? p then g a else 0.
Definition only (a : string) (x : Z) (b : string) : Z := if decide (b = a) then x else 0.
Lemma ducted_plus o g δ a : ValidVoteOption o = true → ducted (plus o g δ) a = ducted δ a + g a.
Proof. apply (all4_one (λ p, δ p a)). Qed.

Lemma over_nonneg f : (∀ a, 0 ≤ f a) → 0 ≤ over f.
Proof. intros Hf. by apply sum_over_nonneg. Qed.
Lemma over_ge f a : (∀ b, 0 ≤ f b) → a ∈ seats B → f a ≤ over f.
Proof. intros Hf. by apply sum_over_ge. Qed.
Lemma Dec_Add_fits (x y : Z) : 0 ≤ x + y < 2 ^ 315 → Dec_Add x y = Ok (x + y).
Proof. intros Hx. apply Dec_Add_Ok. split; [done|]. unfold dec_fits. lia. Qed.
Lemma Dec_Sub_fits (x y : Z) : 0 ≤ x - y < 2 ^ 315 → Dec_Sub x y = Ok (x - y).
Proof. intros Hx. apply Dec_Sub_Ok. split; [done|]. unfold dec_fits. lia. Qed.

Lemma over_all4 δ : over (ducted δ) = all4 (λ o, over (δ o)).
Proof. apply sum_over_all4. Qed.

Lemma deduction_run δ ch c w x a :
  cinv δ ch c → ValidVoteOption (Gv_Option w) = true → (∀ p b, 0 ≤ δ p b) → 0 ≤ x →
  over (ducted (plus (Gv_Option w) (only a x) δ)) < 2 ^ 315 →
  ∃ c', tallyDeduction None w x c a = Ok c' ∧ cinv (plus (Gv_Option w) (only a x) δ) ch c'.
Proof.
  intros C Ho Hδ Hx Hf. unfold tallyDeduction. rewrite (ci_validators _ _ _ C).
  set (o := Gv_Option w) in *. set (δ' := plus o (only a x) δ) in *.
  assert (∀ b, b ≠ a → ∀ p, δ' p b = δ p b) as Hne.
  { intros b Hb p. unfold δ', plus, only. rewrite decide_False by done. by destruct (o =? p); rewrite Z.add_0_r. }
  destruct (infos _ _ !! a) as [i|] eqn:Hi.
  2:{ apply infos_None in Hi. exists c. split; [done|]. eapply cinv_ext; [|exact C]. intros b Hb. split; [|done].
      apply Hne. by intros ->. }
  apply infos_lookup in Hi as (v & Hv & -> & ->).
  set (a := Va_OperatorAddress v) in *. assert (a ∈ seats B) as Ha by (apply list_elem_of_fmap; eauto).
  assert (∀ b, ducted δ' b = ducted δ b + only a x b) as Ed by (intros b; by apply ducted_plus).
  assert (only a x a = x) as Ex by (unfold only; by rewrite decide_True).
  assert (over (ducted δ') = over (ducted δ) + x) as Eo.
  { apply (over_one _ _ a); [done|..|by rewrite Ed, Ex]. intros b Hb. rewrite Ed. unfold only.
    by rewrite decide_False, Z.add_0_r. }
  assert (∀ b, 0 ≤ ducted δ b) as Hd.
  { intros b. unfold ducted, all4. pose proof (Hδ OptionYes b). pose proof (Hδ OptionAbstain b).
    pose proof (Hδ OptionNo b). pose proof (Hδ OptionNoWithVeto b). lia. }
  pose proof (over_ge _ a Hd Ha) as Hge. pose proof (Hd a).
  assert (0 ≤ over (δ o) ≤ over (ducted δ)) as Hr.
  { split; [by apply over_nonneg|]. rewrite over_all4.
    apply (all4_ge (λ p, over (δ p))); [intros p; by apply over_nonneg|done]. }
  unfold addResult. rewrite (ci_results _ _ _ C) by done. rewrite (ci_total _ _ _ C).
  cbn [gi_DelegatorDeductions info_with gi_set_vote gi_set_deductions].
  rewrite (Dec_Add_fits (ducted δ a)), (Dec_Add_fits (over (δ o))), (Dec_Add_fits (over (ducted δ))) by lia.
  cbn. eexists. split; [done|]. split; cbn.
  - rewrite <- (infos_insert (ducted δ) (ducted δ') ch ch v); [|done|].
    + f_equal. fold a. rewrite Ed, Ex. done.
    + fold a. intros b Hb. rewrite Ed. unfold only. by rewrite decide_False, Z.add_0_r.
  - intros p Hp. destruct (decide (p = o)) as [->|Hpo].
    + rewrite lookup_insert_eq. f_equal. symmetry. apply (over_one _ _ a); [done|intros b Hb; by apply Hne|].
      unfold δ', plus. by rewrite Z.eqb_refl, Ex.
    + rewrite lookup_insert_ne, (ci_results _ _ _ C) by done. f_equal. symmetry. apply over_ext. intros b _.
      unfold δ', plus. destruct (Z.eqb_spec o p); [congruence|lia].
  - by rewrite Eo.
  - exact (ci_power _ _ _ C).
  - exact (ci_voter _ _ _ C).
Qed.

Lemma over_le f f' : (∀ a, f a ≤ f' a) → over f ≤ over f'.
Proof. intros Hf. by apply sum_over_le. Qed.
Lemma plus_nonneg o g δ : (∀ p b, 0 ≤ δ p b) → (∀ b, 0 ≤ g b) → ∀ p b, 0 ≤ plus o g δ p b.
Proof. intros Hδ Hg p b. unfold plus. pose proof (Hδ p b). pose proof (Hg b). destruct (o =? p); lia. Qed.

Lemma deductions_run w x l : ∀ δ ch c,
  cinv δ ch c → ValidVoteOption (Gv_Option w) = true → (∀ p b, 0 ≤ δ p b) → 0 ≤ x → NoDup l →
  over (ducted (plus (Gv_Option w) (vote_at l x) δ)) < 2 ^ 315 →
  ∃ c', tallyDeductions None w x c l = Ok c' ∧ cinv (plus (Gv_Option w) (vote_at l x) δ) ch c'.
Proof.
  induction l as [|a l IH]; intros δ ch c C Ho Hδ Hx Hd Hf; cbn [tallyDeductions].
  { exists c. split; [done|]. eapply cinv_ext; [|exact C]. intros b _. split; [|done]. intros p.
    unfold plus, vote_at. case_bool_decide as Hb; [by apply not_elem_of_nil in Hb|]. destruct (_ =? p); lia. }
  inversion Hd as [|? ? Hn Hd']; subst. set (o := Gv_Option w) in *.
  assert (∀ b, vote_at (a :: l) x b = only a x b + vote_at l x b) as Es.
  { intros b. unfold vote_at, only. destruct (decide (b = a)) as [->|Hb].
    - rewrite bool_decide_true by left. rewrite bool_decide_false by done. lia.
    - rewrite (bool_decide_ext (b ∈ a :: l) (b ∈ l)); [done|]. rewrite elem_of_cons. tauto. }
  assert (∀ b, 0 ≤ vote_at l x b) as Hv by (intros b; unfold vote_at; by destruct (bool_decide _)).
  assert (∀ b, 0 ≤ only a x b) as Hy by (intros b; unfold only; by destruct (decide _)).
  assert (∀ p b, plus o (vote_at l x) (plus o (only a x) δ) p b = plus o (vote_at (a :: l) x) δ p b) as E2.
  { intros p b. unfold plus. rewrite Es. destruct (o =? p); lia. }
  destruct (deduction_run δ ch c w x a) as (c1 & -> & C1); try done.
  { eapply Z.le_lt_trans; [|exact Hf]. apply over_le. intros b. rewrite !ducted_plus by done. rewrite Es.
    pose proof (Hv b). lia. }
  cbn. destruct (IH (plus o (only a x) δ) ch c1) as (c' & -> & C'); try done.
  { by apply plus_nonneg. }
  { eapply Z.le_lt_trans; [|exact Hf]. apply over_le. intros b. apply Z.eq_le_incl, all4_ext. intros p. apply E2. }
  exists c'. split; [done|]. eapply cinv_ext; [|exact C']. intros b _. split; [|done]. intros p. by rewrite E2.
Qed.

Definition with_votes (W : list GovVote) δ : VoteOption → string → Z :=
  λ o a, δ o a + sum_over (voice_for D B o a) W.
Definition with_choices (W : list GovVote) ch : string → VoteOption :=
  λ a, foldl (λ o w, if String.eqb (Gv_Voter w) a then Gv_Option w else o) (ch a) W.

Lemma with_votes_cons w W δ o a :
  with_votes (w :: W) δ o a = with_votes W (plus (Gv_Option w) (λ a, voice D B a w) δ) o a.
Proof. unfold with_votes, plus. rewrite sum_over_cons. unfold voice_for at 1. lia. Qed.

Lemma vote_run w δ ch c :
  cinv δ ch c → ValidVoteOption (Gv_Option w) = true → (∀ p b, 0 ≤ δ p b) →
  (∀ a d, D !! a = Some d → NoDup (De_ValidatorAddresses d)) → (∀ a, 0 ≤ voice D B a w) →
  over (ducted (plus (Gv_Option w) (λ a, voice D B a w) δ)) < 2 ^ 315 →
  ∃ c', match ct_validators c !! Gv_Voter w with
        | Some val =>
            Ok (mkCount (<[Gv_Voter w := gi_set_vote (Gv_Option w) val]> (ct_validators c)) (ct_results c)
                  (ct_totalPower c) (ct_totalVotedPower c) (ct_voterPower c))
        | None =>
            match D !! Gv_Voter w with
            | None => Ok c
            | Some d => tallyDeductions None w (De_Shares d) c (De_ValidatorAddresses d)
            end
        end = Ok c' ∧
    cinv (plus (Gv_Option w) (λ a, voice D B a w) δ) (with_choices [w] ch) c'.
Proof.
  intros C Ho Hδ Hl Hv Hf. rewrite (ci_validators _ _ _ C). set (g := λ a, voice D B a w) in *.
  destruct (infos _ _ !! Gv_Voter w) as [i|] eqn:Hi.
  - apply infos_lookup in Hi as (v & Hin & Ea & ->). eexists. split; [done|].
    assert (Gv_Voter w ∈ seats B) as Hs by (rewrite Ea; apply list_elem_of_fmap; eauto).
    apply (cinv_ext δ _ (with_choices [w] ch) _).
    { intros a _. split; [|done]. intros p. unfold plus, g, voice. rewrite bool_decide_true by done.
      by destruct (_ =? p); rewrite Z.add_0_r. }
    destruct C as [C1 C2 C3 C4 C5]. split; try done. cbn [ct_validators].
    rewrite Ea, <- (infos_insert (ducted δ) (ducted δ) ch (with_choices [w] ch) v); [|done|].
    + f_equal. unfold info_with, gi_set_vote, gi_set_deductions. cbn. f_equal.
      unfold with_choices. cbn. by rewrite Ea, String.eqb_refl.
    + intros a Hne. split; [done|]. unfold with_choices. cbn. destruct (String.eqb_spec (Gv_Voter w) a); [congruence|done].
  - apply infos_None in Hi. assert (∀ a, a ∈ seats B → with_choices [w] ch a = ch a) as Ech.
    { intros a Ha. unfold with_choices. cbn. destruct (String.eqb_spec (Gv_Voter w) a) as [E|]; [|done]. by rewrite E in Hi. }
    assert (∀ a, g a = at_key (shares_to a) (D !! Gv_Voter w)) as Eg.
    { intros a. unfold g, voice. by rewrite bool_decide_false. }
    destruct (D !! Gv_Voter w) as [d|] eqn:Hd; cbn [at_key] in Eg.
    + assert (∀ a p, plus (Gv_Option w) g δ p a =
        plus (Gv_Option w) (vote_at (De_ValidatorAddresses d) (De_Shares d)) δ p a) as Ep.
      { intros a p. unfold plus. by rewrite Eg. }
      destruct (De_ValidatorAddresses d) as [|a0 l0] eqn:El.
      { exists c. split; [done|]. eapply cinv_ext; [|exact C]. intros a Ha. split; [|by apply Ech]. intros p.
        rewrite Ep. unfold plus, vote_at. rewrite bool_decide_false by apply not_elem_of_nil. by destruct (_ =? p); rewrite Z.add_0_r. }
      rewrite <- El in *.
      assert (0 ≤ De_Shares d) as Hx.
      { specialize (Hv a0). fold (g a0) in Hv. rewrite Eg in Hv. unfold shares_to in Hv.
        rewrite bool_decide_true in Hv; [done|]. rewrite El. by left. }
      destruct (deductions_run w (De_Shares d) (De_ValidatorAddresses d) δ ch c) as (c' & -> & C'); try done.
      { by eapply Hl. }
      { eapply Z.le_lt_trans; [|exact Hf]. apply over_le. intros b. apply Z.eq_le_incl, all4_ext. intros p. by rewrite Ep. }
      exists c'. split; [done|]. eapply cinv_ext; [|exact C']. intros a Ha. split; [|by apply Ech]. intros p. apply Ep.
    + exists c. split; [done|]. eapply cinv_ext; [|exact C]. intros a Ha. split; [|by apply Ech]. intros p.
      unfold plus. rewrite Eg. by destruct (_ =? p); rewrite Z.add_0_r.
Qed.

Lemma votes_run W : ∀ δ ch c,
  cinv δ ch c → Forall (λ w, ValidVoteOption (Gv_Option w) = true) W → (∀ p b, 0 ≤ δ p b) →
  (∀ a d, D !! a = Some d → NoDup (De_ValidatorAddresses d)) → (∀ a w, w ∈ W → 0 ≤ voice D B a w) →
  over (ducted (with_votes W δ)) < 2 ^ 315 →
  ∃ c', tallyDelegatorVotes D None c W = Ok c' ∧ cinv (with_votes W δ) (with_choices W ch) c'.
Proof.
  induction W as [|w W IH]; intros δ ch c C Ho Hδ Hl Hv Hf; cbn [tallyDelegatorVotes].
  { exists c. split; [done|]. eapply cinv_ext; [|exact C]. intros a _. split; [|done]. intros o.
    unfold with_votes. cbn. lia. }
  apply Forall_cons in Ho as [Ho Hos]. set (δ1 := plus (Gv_Option w) (λ a, voice D B a w) δ).
  assert (∀ a, 0 ≤ voice D B a w) as Hw by (intros a; apply Hv; by left).
  assert (∀ p b, 0 ≤ δ1 p b) as Hδ1 by by apply plus_nonneg.
  assert (over (ducted (with_votes W δ1)) < 2 ^ 315) as Hf1.
  { eapply Z.le_lt_trans; [|exact Hf]. apply over_le. intros a. apply Z.eq_le_incl, all4_ext. intros o.
    symmetry. apply with_votes_cons. }
  destruct (vote_run w δ ch c) as (c1 & E1 & C1); try done.
  { fold δ1. eapply Z.le_lt_trans; [|exact Hf1]. apply over_le. intros a. unfold ducted, all4, with_votes.
    assert (∀ o, 0 ≤ sum_over (voice_for D B o a) W) as Hs.
    { intros o. apply sum_over_nonneg. intros x Hx. unfold voice_for. destruct (_ =? o); [|done]. apply Hv. by right. }
    pose proof (Hs OptionYes). pose proof (Hs OptionAbstain). pose proof (Hs OptionNo). pose proof (Hs OptionNoWithVeto). lia. }
  rewrite E1. cbn. destruct (IH δ1 (with_choices [w] ch) c1) as (c' & -> & C'); try done.
  { intros a x Hx. apply Hv. by right. }
  exists c'. split; [done|]. eapply cinv_ext; [|exact C']. intros a _. split; [|done]. intros o. apply with_votes_cons.
Qed.
End Loops.

Definition power_of (i : validatorGovInfo) : Z := gi_DelegatorShares i - gi_DelegatorDeductions i.
Definition power_for (o : VoteOption) (i : validatorGovInfo) : Z := if gi_Vote i =? o then power_of i else 0.
Definition power_cast (i : validatorGovInfo) : Z := if gi_Vote i =? OptionEmpty then 0 else power_of i.
Record info_ok (i : validatorGovInfo) : Prop := {
  io_vote : gi_Vote i = OptionEmpty ∨ ValidVoteOption (gi_Vote i) = true;
  io_deductions : 0 ≤ gi_DelegatorDeductions i;
  io_power : 0 ≤ power_of i }.

Lemma power_cast_all i : info_ok i → power_cast i = all4 (λ o, power_for o i).
Proof.
  intros [[E|Ho] _ _]; unfold power_cast, power_for, all4.
  - rewrite E. cbn. done.
  - revert Ho. generalize (gi_Vote i). apply valid_cases; cbn; lia.
Qed.
Lemma power_for_nonneg o i : info_ok i → 0 ≤ power_for o i.
Proof. intros [_ _ Hp]. unfold power_for. by destruct (_ =? o). Qed.

Lemma tallyValidators_run (l : list (string * validatorGovInfo)) : ∀ c (r : VoteOption → Z),
  (∀ x, x ∈ l → info_ok x.2) →
  (∀ o, 0 ≤ r o) → (∀ o, ValidVoteOption o = true → ct_results c !! o = Some (r o)) →
  ct_totalVotedPower c = all4 r → 0 ≤ ct_totalPower c →
  ct_totalPower c + sum_over (λ x, gi_DelegatorShares x.2) l < 2 ^ 315 →
  all4 r + sum_over (λ x, power_cast x.2) l < 2 ^ 315 →
  ∃ c', tallyValidatorVotes None c l = Ok c' ∧
    (∀ o, ValidVoteOption o = true → ct_results c' !! o = Some (r o + sum_over (λ x, power_for o x.2) l)) ∧
    ct_totalVotedPower c' = all4 r + sum_over (λ x, power_cast x.2) l ∧
    ct_totalPower c' = ct_totalPower c + sum_over (λ x, gi_DelegatorShares x.2) l ∧
    ct_voterPower c' = ct_voterPower c.
Proof.
  induction l as [|[k i] l IH]; intros c r Hl Hr Hc Ht Hp B1 B2; cbn [tallyValidatorVotes].
  { exists c. split_and!; try done; [intros o Ho; rewrite Hc by done; f_equal|..]; unfold sum_over; cbn; lia. }
  rewrite !sum_over_cons in *. cbn [snd] in *. assert (info_ok i) as Hi by (apply (Hl (k, i)); by left).
  assert (∀ x, x ∈ l → info_ok x.2) as Hl' by (intros; apply Hl; by right).
  assert (0 ≤ power_cast i) as Hpi by (rewrite power_cast_all by done; unfold all4;
    pose proof (λ o, power_for_nonneg o i Hi) as Hq; pose proof (Hq OptionYes); pose proof (Hq OptionAbstain);
    pose proof (Hq OptionNo); pose proof (Hq OptionNoWithVeto); lia).
  assert (0 ≤ sum_over (λ x, power_cast x.2) l) as Hs1.
  { apply sum_over_nonneg. intros x Hx. unfold power_cast. destruct (_ =? _); [done|]. by apply io_power, Hl'. }
  assert (0 ≤ sum_over (λ x, gi_DelegatorShares x.2) l) as Hs2.
  { apply sum_over_nonneg. intros x Hx. destruct (Hl' x Hx) as [_ Hd Hq]. unfold power_of in Hq. lia. }
  pose proof (io_deductions i Hi) as Hd. pose proof (io_power i Hi) as Hq. unfold power_of in Hq.
  assert (∀ o, ValidVoteOption o = true → 0 ≤ r o ≤ all4 r) as Hra by (intros o Ho; split; [done|by apply all4_ge]).
  set (r' := λ o, r o + power_for o i).
  assert (all4 r' = all4 r + power_cast i) as E4 by (rewrite power_cast_all by done; unfold r', all4; lia).
  assert (∃ c1, tallyValidator None c k i = Ok c1 ∧ (∀ o, ValidVoteOption o = true → ct_results c1 !! o = Some (r' o)) ∧
    ct_totalVotedPower c1 = all4 r' ∧ ct_totalPower c1 = ct_totalPower c + gi_DelegatorShares i ∧
    ct_voterPower c1 = ct_voterPower c) as (c1 & E1 & R1 & T1 & P1 & V1).
  { unfold tallyValidator. rewrite (Dec_Add_fits (ct_totalPower c)) by lia. cbn.
    unfold power_cast in *. destruct (Z.eqb_spec (gi_Vote i) OptionEmpty) as [E0|E0].
    - eexists. split; [done|]. cbn. split_and!; try done; [|lia]. intros o Ho. rewrite Hc by done. f_equal. unfold r', power_for.
      rewrite E0. revert o Ho. apply valid_cases; cbn; lia.
    - destruct (io_vote i Hi) as [?|Ho]; [done|]. pose proof (Hra _ Ho). unfold power_of in *.
      rewrite (Dec_Sub_fits (gi_DelegatorShares i)) by lia. cbn. unfold addResult. rewrite Hc by done.
      rewrite Ht, (Dec_Add_fits (r _)), (Dec_Add_fits (all4 r)) by lia. cbn. eexists. split; [done|]. cbn. split_and!; try done.
      intros o Hv. unfold r', power_for, power_of. destruct (Z.eqb_spec (gi_Vote i) o) as [<-|Hne].
      + by rewrite lookup_insert_eq.
      + rewrite lookup_insert_ne, Hc by done. f_equal. lia. }
  rewrite E1. cbn [mbind outcome_bind]. destruct (IH c1 r') as (c' & -> & R2 & T2 & P2 & V2); try done; [|lia..|].
  { intros o. unfold r'. pose proof (Hr o). pose proof (power_for_nonneg o i Hi). lia. }
  exists c'. split_and!; [done| |lia|lia|congruence]. intros o Ho. rewrite R2, sum_over_cons by done. f_equal. unfold r'. cbn [snd]. lia.
Qed.

(** ** The count is the reference *)

Section Exact.
Context (D : gmap string Delegator) (B : list Validator) (W : list GovVote) (HB : ballot D B W).

Lemma choice_cases a : choice W a = OptionEmpty ∨ ValidVoteOption (choice W a) = true.
Proof.
  unfold choice. assert (∀ o, o = OptionEmpty ∨ ValidVoteOption o = true →
    let r := foldl (λ c w, if String.eqb (Gv_Voter w) a then Gv_Option w else c) o W in
    r = OptionEmpty ∨ ValidVoteOption r = true) as Hc; [|by apply Hc; left].
  pose proof (ba_options _ _ _ HB) as HW. clear HB. induction HW as [|w l Hw _ IH]; intros o Ho; [done|]. cbn. apply IH.
  destruct (Gv_Voter w =? a)%string; [by right|done].
Qed.
Lemma voices a : all4 (λ o, sum_over (voice_for D B o a) W) = sum_over (voice D B a) W.
Proof.
  rewrite <- (sum_over_all4 (λ o w, voice_for D B o a w)). apply sum_over_ext. intros w Hw.
  pose proof (proj1 (Forall_forall _ _) (ba_options _ _ _ HB) w Hw) as Ho. cbn beta in Ho. unfold voice_for, all4.
  revert Ho. generalize (Gv_Option w). apply valid_cases; cbn; lia.
Qed.
Lemma voices_nonneg a : 0 ≤ sum_over (voice D B a) W.
Proof. apply sum_over_nonneg. intros w Hw. by eapply ba_voice. Qed.
Lemma voice_for_nonneg o a : 0 ≤ sum_over (voice_for D B o a) W.
Proof. apply sum_over_nonneg. intros w Hw. unfold voice_for. destruct (_ =? o); [by eapply ba_voice|done]. Qed.
Lemma entrusted_nonneg v : v ∈ B → 0 ≤ entrusted D B W v.
Proof. intros Hv. unfold entrusted. pose proof (ba_entrusted _ _ _ HB v Hv). lia. Qed.
Lemma shares_for_all v : all4 (λ o, shares_for D B W o v) =
  sum_over (voice D B (Va_OperatorAddress v)) W +
  (if choice W (Va_OperatorAddress v) =? OptionEmpty then 0 else entrusted D B W v).
Proof.
  rewrite <- voices. unfold shares_for, all4. destruct (choice_cases (Va_OperatorAddress v)) as [->|Ho]; [cbn; lia|].
  revert Ho. generalize (choice W (Va_OperatorAddress v)). apply valid_cases; cbn; lia.
Qed.

(** No share counts twice. *)
Lemma shares_for_bounds v : v ∈ B →
  (∀ o, 0 ≤ shares_for D B W o v) ∧ all4 (λ o, shares_for D B W o v) ≤ Va_DelegatorShares v.
Proof.
  intros Hv. pose proof (entrusted_nonneg v Hv) as He. split.
  - intros o. unfold shares_for. pose proof (voice_for_nonneg o (Va_OperatorAddress v)). destruct (_ =? o); lia.
  - rewrite shares_for_all. unfold entrusted in *. destruct (_ =? _); lia.
Qed.
Lemma votes_for_nonneg o : 0 ≤ votes_for D B W o.
Proof. apply sum_over_nonneg. intros v Hv. by apply shares_for_bounds. Qed.
Lemma voted_shares_all : voted_shares D B W = sum_over (λ v, all4 (λ o, shares_for D B W o v)) B.
Proof. symmetry. apply (sum_over_all4 (shares_for D B W)). Qed.
Lemma voted_bounded : voted_shares D B W ≤ all_shares B.
Proof. rewrite voted_shares_all. apply sum_over_le. intros v Hv. by apply shares_for_bounds. Qed.

Definition count0 : Count := mkCount (govValidators B) zeroResults ZeroDec ZeroDec ZeroDec.
Definition direct : VoteOption → string → Z := with_votes D B W (λ _ _, 0).
Lemma direct_all a : ducted direct a = sum_over (voice D B a) W.
Proof. rewrite <- voices. apply all4_ext. intros o. unfold direct, with_votes. lia. Qed.
Lemma over_direct : over B (ducted direct) = sum_over (λ v, sum_over (voice D B (Va_OperatorAddress v)) W) B.
Proof. unfold over, seats. rewrite sum_over_fmap. apply sum_over_ext. intros v _. apply direct_all. Qed.
Lemma direct_fits : over B (ducted direct) ≤ all_shares B.
Proof. rewrite over_direct. apply sum_over_le, (ba_entrusted _ _ _ HB). Qed.
Lemma cinv_start : cinv B (λ _ _, 0) (λ _, OptionEmpty) count0.
Proof.
  split; try done.
  - cbn. by apply govValidators_infos, (ba_seats _ _ _ HB).
  - apply (valid_cases (λ o, zeroResults !! o = Some (over B (λ _, 0)))); unfold over; by rewrite sum_over_zero.
  - cbn. unfold over. by rewrite sum_over_zero.
Qed.

Notation seated := (entry_with (ducted direct) (choice W)).
Lemma seated_ok v : v ∈ B → info_ok (seated v).2.
Proof.
  intros Hv. split; cbn.
  - apply choice_cases.
  - rewrite direct_all. apply voices_nonneg.
  - unfold power_of. cbn. rewrite direct_all. by apply entrusted_nonneg.
Qed.
Lemma seated_power o : over B (direct o) + sum_over (λ v, power_for o (seated v).2) B = votes_for D B W o.
Proof.
  unfold over, seats. rewrite sum_over_fmap, <- sum_over_add. apply sum_over_ext. intros x _. unfold shares_for, power_for, power_of.
  cbn. rewrite direct_all. unfold direct, with_votes, entrusted. by destruct (_ =? o).
Qed.
Lemma seated_cast : all4 (λ o, over B (direct o)) + sum_over (λ v, power_cast (seated v).2) B = voted_shares D B W.
Proof.
  rewrite <- over_all4, over_direct, <- sum_over_add, voted_shares_all. apply sum_over_ext. intros v _. rewrite shares_for_all. f_equal.
  unfold power_cast, power_of. cbn. by rewrite direct_all.
Qed.

Context (range : gmap string validatorGovInfo → list (string * validatorGovInfo)).
Context (Hrange : ∀ m, range m ≡ₚ map_to_list m).

Lemma count_exact : ∃ c1 c2,
  tallyDelegatorVotes D None count0 W = Ok c1 ∧ tallyValidatorVotes None c1 (range (ct_validators c1)) = Ok c2 ∧
  (∀ o, ValidVoteOption o = true → ct_results c2 !! o = Some (votes_for D B W o)) ∧
  ct_totalVotedPower c2 = voted_shares D B W ∧ ct_totalPower c2 = all_shares B ∧ ct_voterPower c2 = 0.
Proof.
  pose proof (ba_fits _ _ _ HB) as Hfit. pose proof direct_fits as Hd.
  destruct (votes_run D B (ba_seats _ _ _ HB) W (λ _ _, 0) (λ _, OptionEmpty) count0) as (c1 & E1 & C1);
    [apply cinv_start|apply HB|done|apply HB|apply HB|fold direct; lia|]. fold direct in C1.
  assert (range (ct_validators c1) ≡ₚ seated <$> B) as Hp.
  { rewrite Hrange, (ci_validators _ _ _ _ C1). unfold infos. rewrite map_to_list_to_map; [done|].
    by apply infos_keys, (ba_seats _ _ _ HB). }
  destruct (tallyValidators_run (range (ct_validators c1)) c1 (λ o, over B (direct o))) as (c2 & E2 & R & T & P & V).
  - intros x. rewrite Hp. intros (v & -> & Hv)%list_elem_of_fmap. by apply seated_ok.
  - intros o. apply over_nonneg. intros a. unfold direct, with_votes. rewrite Z.add_0_l. apply voice_for_nonneg.
  - apply C1.
  - by rewrite (ci_total _ _ _ _ C1), over_all4.
  - by rewrite (ci_power _ _ _ _ C1).
  - rewrite (ci_power _ _ _ _ C1), (sum_over_perm _ _ _ Hp), sum_over_fmap. exact Hfit.
  - rewrite (sum_over_perm _ _ _ Hp), sum_over_fmap, seated_cast. pose proof voted_bounded. lia.
  - exists c1, c2. split_and!; try done.
    + intros o Ho. rewrite R by done. f_equal. rewrite (sum_over_perm _ _ _ Hp), sum_over_fmap. by apply seated_power.
    + by rewrite T, (sum_over_perm _ _ _ Hp), sum_over_fmap, seated_cast.
    + by rewrite P, (ci_power _ _ _ _ C1), (sum_over_perm _ _ _ Hp), sum_over_fmap.
    + by rewrite V, (ci_voter _ _ _ _ C1).
Qed.
End Exact.

(** ** The status that a count leads to *)

Lemma Dec_Quo_share (x y : Z) : 0 ≤ x ≤ y → 0 < y → ∃ q, Dec_Quo x y = Ok q.
Proof.
  intros Hx Hy. unfold Dec_Quo. rewrite (proj2 (big_Quo_Ok _ _ _)) by (split; [lia|done]). cbn.
  set (z := Z.quot _ y). exists (chopPrecisionAndRound z). apply checkDec_fits. unfold dec_fits.
  assert (0 ≤ z ≤ precisionReuse * precisionReuse) as Hz.
  { unfold z. change precisionReuse with (10 ^ 18). split; [apply Z.quot_pos; lia|]. apply Z.quot_le_upper_bound; nia. }
  destruct (chop_half_even z) as [Hr _]. change precisionReuse with (10 ^ 18) in *. pose proof (chop_nonneg z ltac:(lia)). nia.
Qed.

Record tally_ok (t : TallyResult) : Prop := {
  to_yes : 0 ≤ Tr_Yes t;
  to_abstain : 0 ≤ Tr_Abstain t;
  to_no : 0 ≤ Tr_No t;
  to_veto : 0 ≤ Tr_NoWithVeto t;
  to_sum : Tr_Yes t + Tr_Abstain t + Tr_No t + Tr_NoWithVeto t = Tr_TotalVotedPower t;
  to_total : Tr_TotalVotedPower t ≤ Tr_TotalPower t;
  to_fits : Tr_TotalPower t < 2 ^ 315 }.

Lemma counted_ok D B W : ballot D B W → tally_ok (counted D B W).
Proof.
  intros HB. split; cbn; try by apply votes_for_nonneg.
  - unfold voted_shares. lia.
  - by apply voted_bounded.
  - apply HB.
Qed.

Ltac share_step x y := let q := fresh "q" in let E := fresh "Eq" in
  destruct (Dec_Quo_share x y) as [q E]; [lia..|]; rewrite E; cbn [mbind outcome_bind].
Lemma statusIn_returns params t : tally_ok t → ∃ r, tallyStatusInVotePeriod params t = Ok r.
Proof.
  intros [Y A N V Hs Ht Hf]. unfold tallyStatusInVotePeriod. destruct (Dec_IsZero _) eqn:E0; [eauto|].
  rewrite !Dec_Sub_fits by lia. cbn [mbind outcome_bind]. destruct (Dec_Equal _ _) eqn:E1; [eauto|].
  apply Z.eqb_neq in E1. unfold ZeroDec in E1.
  share_step (Tr_NoWithVeto t) (Tr_TotalPower t). destruct (Dec_GT _ _); [eauto|]. rewrite Dec_Add_fits by lia. cbn [mbind outcome_bind].
  share_step (Tr_NoWithVeto t + Tr_No t) (Tr_TotalPower t - Tr_Abstain t). destruct (Dec_GTE _ _); [eauto|].
  share_step (Tr_Yes t) (Tr_TotalPower t). destruct (Dec_GT _ _); eauto.
Qed.
Lemma statusExpire_returns params t : tally_ok t → ∃ r, tallyStatusExpireVotePeriod params t = Ok r.
Proof.
  intros [Y A N V Hs Ht Hf]. unfold tallyStatusExpireVotePeriod. destruct (Dec_IsZero _) eqn:E0; [eauto|].
  assert (Tr_TotalPower t ≠ 0) by (intros E; by rewrite E in E0).
  share_step (Tr_TotalVotedPower t) (Tr_TotalPower t). destruct (Dec_LT _ _); [eauto|].
  rewrite !Dec_Sub_fits by lia. cbn [mbind outcome_bind]. destruct (Dec_Equal _ _) eqn:E1; [eauto|].
  apply Z.eqb_neq in E1. unfold ZeroDec in E1.
  share_step (Tr_NoWithVeto t) (Tr_TotalVotedPower t). destruct (Dec_GT _ _); [eauto|].
  share_step (Tr_Yes t) (Tr_TotalVotedPower t - Tr_Abstain t). destruct (Dec_GT _ _); eauto.
Qed.

(** ** The count on the stores *)

Section TallyRun.
Context {X K : Type} `{ModuleContent X} `{CoinKeeper K} `{!CoinKeeperLaws K} `{!GovConfig X K}.
Context `{cfgS : StakingConfig} `{bansS : !Bans} `{engS : !Engine} (gov : string).
Implicit Types (s : GovState X K) (t : StakingState K) (p : Proposal X).

(** The bonded validators of highest power, as many as the set has room for. *)
Definition bonded_by_power t : list Validator :=
  take (Z.to_nat (Sp_MaxValidators (sg_params t)))
    (base.filter (λ v, IsBonded v = true) (omap (λ a, vs_validators (sg_vals t) !! a) (powerIndexReverse t))).

Lemma bondedLoop_run t addrs : ∀ room,
  (∀ a, a ∈ addrs → is_Some (vs_validators (sg_vals t) !! a)) →
  bondedLoop addrs room t =
    (Ok (take room (base.filter (λ v, IsBonded v = true) (omap (λ a, vs_validators (sg_vals t) !! a) addrs))), t).
Proof.
  induction addrs as [|a l IH]; intros room Ha; [by destruct room|]. destruct room as [|room]; [done|]. cbn [bondedLoop].
  destruct (Ha a) as [v Hv]; [by left|].
  assert (mustGetValidator a t = (Ok v, t)) as Em.
  { unfold mustGetValidator, GetValidator, on_vals, zoom, mbind, M_bind, gets. cbn. by rewrite Hv. }
  assert (omap (λ a, vs_validators (sg_vals t) !! a) (a :: l) = v :: omap (λ a, vs_validators (sg_vals t) !! a) l) as ->
    by (cbn; by rewrite Hv).
  assert (∀ a, a ∈ l → is_Some (vs_validators (sg_vals t) !! a)) as Hl by (intros; apply Ha; by right).
  rewrite filter_cons. unfold mbind, M_bind. rewrite Em. destruct (IsBonded v) eqn:Eb.
  - rewrite decide_True by done. by rewrite IH.
  - rewrite decide_False by done. by apply IH.
Qed.

(** What the count relies on in the staking module. *)
Definition counts t : Prop :=
  votes_inv_of t ∧ map_sum Va_DelegatorShares (vs_validators (sg_vals t)) < 2 ^ 315.

Lemma BondedValidators_run t : counts t → BondedValidatorsByPower t = (Ok (bonded_by_power t), t).
Proof.
  intros [Hv _]. unfold BondedValidatorsByPower, mbind, M_bind, gets. cbn. rewrite bondedLoop_run; [done|].
  intros a Ha. apply (elem_of_powerIndexReverse _ _ _ (proj1 (vt_vals _ _ _ Hv))) in Ha as (v & -> & _). by eexists.
Qed.

Lemma bonded_known t v : counts t → v ∈ bonded_by_power t →
  vs_validators (sg_vals t) !! Va_OperatorAddress v = Some v.
Proof.
  intros [Hv _] Hin. unfold bonded_by_power in Hin.
  assert (v ∈ omap (λ a, vs_validators (sg_vals t) !! a) (powerIndexReverse t)) as (a & _ & Ha)%list_elem_of_omap.
  { eapply (proj2 (A := _)), list_elem_of_filter. eapply elem_of_subseteq; [|exact Hin]. apply subseteq_take. }
  by rewrite (ii_key _ _ _ _ (proj1 (vt_vals _ _ _ Hv)) a v Ha).
Qed.
Lemma bonded_seats t : counts t → NoDup (seats (bonded_by_power t)).
Proof.
  intros [Hv _]. pose proof (proj1 (vt_vals _ _ _ Hv)) as Hi.
  assert (∀ l, NoDup l → NoDup (seats (omap (λ a, vs_validators (sg_vals t) !! a) l)) ∧
    ∀ a, a ∈ seats (omap (λ a, vs_validators (sg_vals t) !! a) l) → a ∈ l) as Ho.
  { induction l as [|a l IH]; intros Hd; [split; [constructor|done]|]. inversion Hd as [|? ? Hn Hd']; subst.
    destruct (IH Hd') as [IH1 IH2]. cbn. destruct (vs_validators (sg_vals t) !! a) as [v|] eqn:Ea.
    - unfold seats in *. cbn. rewrite (ii_key _ _ _ _ Hi a v Ea). split; [constructor; [|done]; intros Hx; by apply Hn, IH2|].
      intros b [->|Hb]%elem_of_cons; [by left|]. right. by apply IH2.
    - split; [done|]. intros b Hb. right. by apply IH2. }
  destruct (Ho _ (powerIndexReverse_NoDup _ _ Hi)) as [Hd _]. unfold bonded_by_power, seats in *.
  eapply sublist_NoDup; [exact Hd|]. apply fmap_sublist. etransitivity; [apply sublist_take|]. apply sublist_filter.
Qed.

(** The votes of a proposal, in the order of the store. *)
Definition votes_of s p : list GovVote := underID (Pp_ProposalID p) (gs_votes (gv_gov s)).
Definition delegators_of s : gmap string Delegator := st_delegators (sg_stakes (gv_staking s)).

Lemma ballot_of s p : store_inv (gv_gov s) → counts (gv_staking s) →
  ballot (delegators_of s) (bonded_by_power (gv_staking s)) (votes_of s p).
Proof.
  intros Hg Hc. destruct Hc as [Hv Hf]. pose proof (conj Hv Hf : counts _) as Hc. set (t := gv_staking s) in *.
  assert (∀ a b, 0 ≤ at_key (shares_to a) (delegators_of s !! b)) as Hn.
  { intros a b. destruct (delegators_of s !! b) as [d|] eqn:Hd; cbn; [by eapply shares_to_nonneg|done]. }
  split.
  - by apply bonded_seats.
  - apply Forall_forall. intros w [a Ha]%elem_of_underID. by eapply vk_option, si_vote.
  - intros a d Hd. by eapply vt_nodup.
  - intros a w _. unfold voice. destruct (bool_decide _); [done|apply Hn].
  - intros v Hin. pose proof (bonded_known t v Hc Hin) as Hx.
    pose proof (ii_val _ _ _ _ (proj1 (vt_vals _ _ _ Hv)) _ _ Hx) as Vo. rewrite (vo_shares _ _ Vo).
    assert (0 ≤ msd_base v) by (unfold msd_base; by destruct (_ =? 0)).
    transitivity (sum_over (λ a, at_key (shares_to (Va_OperatorAddress v)) (delegators_of s !! a)) (Gv_Voter <$> votes_of s p)).
    + rewrite sum_over_fmap. apply sum_over_le. intros w _. unfold voice. destruct (bool_decide _); [apply Hn|done].
    + etransitivity; [apply sum_over_keys|].
      * intros a d Hd. by eapply shares_to_nonneg.
      * apply underID_NoDup. intros a w Hw. by eapply vk_addr, si_vote.
      * unfold delegators_of. fold t. lia.
  - eapply Z.le_lt_trans; [|exact Hf]. unfold all_shares.
    rewrite (sum_over_ext _ (λ v, at_key Va_DelegatorShares (vs_validators (sg_vals t) !! Va_OperatorAddress v))).
    + rewrite <- (sum_over_fmap (λ a, at_key Va_DelegatorShares (vs_validators (sg_vals t) !! a)) Va_OperatorAddress).
      apply sum_over_keys; [|by apply bonded_seats]. intros a v Ha.
      pose proof (proj1 (vt_vals _ _ _ Hv)) as Hi. pose proof (ii_val _ _ _ _ Hi _ _ Ha) as Vo.
      rewrite (vo_shares _ _ Vo). apply Z.add_nonneg_nonneg; [exact (ii_nonneg _ _ _ _ Hi a)|].
      unfold msd_base. by destruct (_ =? 0).
    + intros v Hin. by rewrite (bonded_known t v Hc Hin).
Qed.

Definition count_of s p : TallyResult := counted (delegators_of s) (bonded_by_power (gv_staking s)) (votes_of s p).

Lemma sumShares_run l : ∀ acc, 0 ≤ acc → Forall (λ v, 0 ≤ Va_DelegatorShares v) l →
  acc + sum_over Va_DelegatorShares l < 2 ^ 315 → sumShares acc l = Ok (acc + sum_over Va_DelegatorShares l).
Proof.
  induction l as [|v l IH]; intros acc Ha Hl Hf; cbn [sumShares]; [by rewrite Z.add_0_r|].
  rewrite sum_over_cons in *. apply Forall_cons in Hl as [Hv Hl].
  assert (0 ≤ sum_over Va_DelegatorShares l) by (apply sum_over_nonneg; by apply Forall_forall).
  rewrite Dec_Add_fits by lia. cbn. rewrite IH by (lia || done). f_equal. lia.
Qed.
Lemma ballot_shares D B W v : ballot D B W → v ∈ B → 0 ≤ Va_DelegatorShares v.
Proof. intros HB Hv. pose proof (ba_entrusted _ _ _ HB v Hv). pose proof (voices_nonneg _ _ _ HB (Va_OperatorAddress v)). lia. Qed.

Lemma totalPower_run s p : store_inv (gv_gov s) → counts (gv_staking s) →
  gov_totalPower s = (Ok (Tr_TotalPower (count_of s p)), s).
Proof.
  intros Hg Hc. pose proof (ballot_of s p Hg Hc) as HB. unfold gov_totalPower, on_staking, zoom, mbind, M_bind, lift.
  rewrite BondedValidators_run by done. rewrite sumShares_run; [by destruct s|done| |apply (ba_fits _ _ _ HB)].
  apply Forall_forall. intros v Hv. by eapply ballot_shares.
Qed.

Context (Hrange : ∀ m : gmap string validatorGovInfo, gc_range m ≡ₚ map_to_list m).

Lemma preTally_run s p : store_inv (gv_gov s) → counts (gv_staking s) →
  ∃ rs, preTally p None s = (Ok (rs, Tr_TotalVotedPower (count_of s p), 0), s) ∧
    ∀ o, ValidVoteOption o = true →
      rs !! o = Some (votes_for (delegators_of s) (bonded_by_power (gv_staking s)) (votes_of s p) o).
Proof.
  intros Hg Hc. pose proof (ballot_of s p Hg Hc) as HB.
  destruct (count_exact _ _ _ HB gc_range Hrange) as (c1 & c2 & E1 & E2 & R & T & P & V).
  exists (ct_results c2). split; [|exact R]. unfold preTally, on_staking, zoom, mbind, M_bind, lift.
  rewrite BondedValidators_run by done. unfold GetVotes, read, gets. cbn [from_option].
  replace (gv_set_staking (gv_staking s) s) with s by by destruct s.
  fold (votes_of s p) (delegators_of s) (count0 (bonded_by_power (gv_staking s))). rewrite app_nil_r, E1, E2, V, T, P.
  assert (Hz : 0 ≤ all_shares (bonded_by_power (gv_staking s))).
  { apply sum_over_nonneg. intros v Hv. by eapply ballot_shares. }
  destruct (Dec_GT _ _) eqn:Eg; [|done]. assert (0 < all_shares (bonded_by_power (gv_staking s))) as Hp.
  { unfold Dec_GT, ZeroDec in Eg. lia. }
  assert (Dec_Quo 0 (all_shares (bonded_by_power (gv_staking s))) = Ok 0) as ->; [|done].
  unfold Dec_Quo. rewrite (proj2 (big_Quo_Ok _ _ 0)); [done|]. split; [lia|]. by rewrite Z.quot_0_l by lia.
Qed.

Lemma Tally_run s p b : store_inv (gv_gov s) → counts (gv_staking s) →
  ∃ st dist, Tally p b s = (Ok (st, dist, count_of s p), s).
Proof.
  intros Hg Hc. destruct (preTally_run s p Hg Hc) as (rs & E1 & R). pose proof (ballot_of s p Hg Hc) as HB.
  unfold Tally, mbind, M_bind. rewrite E1, (totalPower_run s p) by done.
  assert (NewTallyResultFromMap rs (Tr_TotalPower (count_of s p)) (Tr_TotalVotedPower (count_of s p)) = count_of s p) as ->.
  { unfold NewTallyResultFromMap. by rewrite !R. }
  unfold GetTallyParams, read, gets, lift.
  destruct b.
  - destruct (statusExpire_returns (gs_tallyParams (gv_gov s)) (count_of s p)) as ([st d] & ->); [by apply counted_ok|]. by exists st, d.
  - destruct (statusIn_returns (gs_tallyParams (gv_gov s)) (count_of s p)) as ([st d] & ->); [by apply counted_ok|]. by exists st, d.
Qed.
End TallyRun.
