(* ===== verification/ParamsProps.v ===== *)
(** * Parameter changes and upgrades: what their handlers do

    The handlers of the params module leave the coins and all but their own
    queue of the governance module alone, so that its invariant holds with
    them.  An upgrade takes effect at the height that was asked for.  A change
    of parameters that fails is tried again at the end of every block. *)
From S2P Require Import Prelude Decimal Denom Coins Bank CoinKeeper Token Swap Staking StakingVals StakingVotes StakingProps StakingSet Gov GovProps Params.
#[local] Open Scope Z_scope.

(** The stores of the module and the coins do not overlap. *)
Class ParamsLaws (K : Type) `{CoinKeeper K} `{!HasParams K} : Prop := {
  kp_get_set p k : kp_get (kp_set p k) = p;
  kp_wf p k : ck_wf k → ck_wf (kp_set p k);
  kp_balance p k a d : ck_balance (kp_set p k) a d = ck_balance k a d }.

Section ParamsFrame.
Context {X K : Type} `{ModuleContent X} `{!HasParamsContent X} `{CoinKeeper K} `{!CoinKeeperLaws K}.
Context `{!HasParams K} `{!ParamsLaws K} `{!Subspaces X K} (gov : string).
Implicit Types (s : GovState X K) (p : Proposal X).

(** A run of the code leaves the governance module alone. *)
Definition aside {A} (m : M (GovState X K) A) : Prop := ∀ s a s', m s = (Ok a, s') → untouched gov s s'.

(** What is asked of the update of a parameter of any module. *)
Definition updates_aside : Prop := ∀ sub key v, aside (ss_Update sub key v).

Lemma aside_bind {A B} (m : M (GovState X K) A) (f : A → M (GovState X K) B) :
  aside m → (∀ a, aside (f a)) → aside (m ≫= f).
Proof. intros Hm Hf s b s' (a & s1 & E1 & E2)%M_bind_Ok. etransitivity; [by eapply Hm|by eapply Hf]. Qed.
Lemma aside_same {A} (m : M (GovState X K) A) : (∀ s a s', m s = (Ok a, s') → s' = s) → aside m.
Proof. intros Hm s a s' ->%Hm. reflexivity. Qed.
Lemma aside_mret {A} (a : A) : aside (mret a).
Proof. apply aside_same. by intros s b s' [_ ->]%mret_Ok. Qed.
Lemma aside_lift {A} (o : outcome A) : aside (lift o).
Proof. apply aside_same. by intros s b s' [_ ->]%lift_Ok. Qed.
Lemma aside_guard c n : aside (guard_not c n).
Proof. apply aside_same. by intros s b s' [_ ->]%guard_not_Ok. Qed.
Lemma aside_fail {A} n : aside (fail (A := A) n).
Proof. by intros s b s' ?%fail_Ok. Qed.
Lemma aside_wrapErr {A} n (m : M (GovState X K) A) : aside m → aside (wrapErr n m).
Proof. intros Hm s a s' E%wrapErr_Ok. by eapply Hm. Qed.
Lemma aside_replaceErr {A} n (m : M (GovState X K) A) : aside m → aside (replaceErr n m).
Proof. intros Hm s a s' E%replaceErr_Ok. by eapply Hm. Qed.
Lemma aside_simulated {A} (m : M (GovState X K) A) : aside (simulated m).
Proof. apply aside_same. intros s a s' E. by injection E. Qed.
Lemma aside_GetCoins a : aside (on_supplyKeeper (ck_GetCoins a)).
Proof. apply aside_same. intros s c s' E. by apply GetCoins_untouched in E. Qed.
Lemma aside_IsValidator a : aside (on_staking (staking_IsValidator a)).
Proof.
  apply aside_same. intros s b s' (t & E & ->)%zoom_Ok. unfold staking_IsValidator, BondedValidatorsByPower in E.
  apply M_bind_Ok in E as (l & t1 & E1 & [_ ->]%mret_Ok).
  apply M_bind_Ok in E1 as (n & t2 & [_ ->]%gets_Ok & E1). apply M_bind_Ok in E1 as (l' & t2 & [_ ->]%gets_Ok & E1).
  apply bondedLoop_same in E1 as ->. by destruct s.
Qed.
(** Whatever a read or a write of the module's own store returns. *)
Lemma on_params_run {A} (m : M ParamsStore A) s : untouched gov s (on_params m s).2.
Proof.
  unfold on_params, on_supplyKeeper, on_staking, on_keeper, zoom. destruct (m (kp_get (sg_k (gv_staking s)))) as [o p]. cbn.
  split; [by split|]. split; cbn; [apply kp_wf|intros d; apply kp_balance].
Qed.
Lemma aside_on_params {A} (m : M ParamsStore A) : aside (on_params m).
Proof. intros s a s' E. pose proof (on_params_run m s) as Hu. by rewrite E in Hu. Qed.

Ltac aside_step :=
  lazymatch goal with
  | |- aside (_ ≫= _) => apply aside_bind; [|intros ?]
  | |- aside (mret _) => apply aside_mret
  | |- aside (lift _) => apply aside_lift
  | |- aside (guard_not _ _) => apply aside_guard
  | |- aside (fail _) => apply aside_fail
  | |- aside (wrapErr _ _) => apply aside_wrapErr
  | |- aside (replaceErr _ _) => apply aside_replaceErr
  | |- aside (simulated _) => apply aside_simulated
  | |- aside (on_params _) => apply aside_on_params
  | |- aside (on_supplyKeeper (ck_GetCoins _)) => apply aside_GetCoins
  | |- aside (on_staking (staking_IsValidator _)) => apply aside_IsValidator
  | |- aside (let _ := _ in _) => cbv zeta
  | |- aside (if ?c then _ else _) => destruct c
  | |- aside (match ?c with _ => _ end) => destruct c
  end.
Ltac aside_solve := repeat first [assumption | progress (repeat aside_step)].

Lemma aside_changeParams l : updates_aside → aside (changeParams l).
Proof. intros Hu. induction l as [|c l IH]; cbn [changeParams]; repeat aside_step; [apply Hu|exact IH]. Qed.
Lemma WriteUpgradeInfo_frames info force : frames (untouched (X := X) (K := K) gov) (WriteUpgradeInfo info force).
Proof.
  unfold WriteUpgradeInfo, IsUpgradeExist. apply frames_bind; [exact _|exact (on_params_run _)|]. intros b.
  destruct (_ && _); [apply frames_fail; exact _|exact (on_params_run _)].
Qed.
Lemma aside_WriteUpgradeInfo info force : aside (WriteUpgradeInfo info force).
Proof. intros s a s' E. by eapply frames_run; [apply WriteUpgradeInfo_frames|]. Qed.
Lemma logErr_aside info force : aside (logErr (WriteUpgradeInfo info force)).
Proof.
  intros s u s'. pose proof (WriteUpgradeInfo_frames info force s) as Hu. unfold logErr.
  destruct (WriteUpgradeInfo info force s) as [[a|e|e] s1]; intros [= _ <-]; exact Hu.
Qed.

(** ** The laws that the governance module relies on *)

Lemma executed_insert p s h : executed gov p s (InsertWaitingProposalQueue h (Pp_ProposalID p) s).2.
Proof.
  split; try done; cbn. intros x [->%elem_of_singleton|Hx]%elem_of_union; [by right|by left].
Qed.
Lemma executed_remove p s h : executed gov p s (RemoveFromWaitingProposalQueue h (Pp_ProposalID p) s).2.
Proof. split; try done; cbn. intros x [Hx _]%elem_of_difference. by left. Qed.
Lemma executed_trans p s1 s2 s3 : executed gov p s1 s2 → executed gov p s2 s3 → executed gov p s1 s3.
Proof.
  intros E1 E2. split.
  1-5: by destruct E1, E2; congruence.
  - intros x Hx. by rewrite (ex_active _ _ _ _ E2), (ex_active _ _ _ _ E1).
  - intros x Hx. by apply (ex_active_own _ _ _ _ E1), (ex_active_own _ _ _ _ E2).
  - intros x [Hx|Hx]%(ex_waiting _ _ _ _ E2); [by apply (ex_waiting _ _ _ _ E1)|by right].
  - etransitivity; [apply (ex_coins _ _ _ _ E1)|apply (ex_coins _ _ _ _ E2)].
Qed.
Lemma executed_deferred {A} p h (m : M (GovState X K) A) s a s' :
  aside m → deferred (RemoveFromWaitingProposalQueue h (Pp_ProposalID p)) m s = (Ok a, s') → executed gov p s s'.
Proof.
  intros Hm. unfold deferred. destruct (m s) as [o s1] eqn:E. intros [= -> <-]. eapply executed_trans.
  - eapply untouched_executed, Hm, E.
  - apply executed_remove.
Qed.

Lemma executed_change ctx p s u s' :
  updates_aside → NewParamChangeProposalHandler ctx p s = (Ok u, s') → executed gov p s s'.
Proof.
  intros Hu. unfold NewParamChangeProposalHandler. destruct (Pp_Content p) as [| |x]; [by intros ?%fail_Ok..|].
  destruct (as_params x) as [[c|c]|]; [|by intros ?%fail_Ok..]. unfold handleParameterChangeProposal.
  destruct (_ <? _); intros E.
  - pose proof (executed_insert p s (Pa_Height c)) as Hx. by rewrite E in Hx.
  - eapply executed_deferred; [by apply aside_changeParams|exact E].
Qed.
Lemma executed_upgrade ctx p s u s' :
  NewUpgradeProposalHandler ctx p s = (Ok u, s') → executed gov p s s'.
Proof.
  unfold NewUpgradeProposalHandler. destruct (Pp_Content p) as [| |x]; [by intros ?%fail_Ok..|].
  destruct (as_params x) as [[c|c]|]; [by intros ?%fail_Ok| |by intros ?%fail_Ok]. unfold handleUpgradeProposal. cbv zeta.
  destruct (_ <? _); intros E.
  - apply M_bind_Ok in E as (u1 & s1 & E1 & E). eapply executed_trans.
    + pose proof (executed_insert p s (getUpgradeProposalConfirmHeight (BlockHeight ctx) c)) as Hx. by rewrite E1 in Hx.
    + eapply untouched_executed, logErr_aside, E.
  - eapply executed_deferred; [|exact E]. unfold storeEffectiveUpgrade. destruct (negb _); [apply aside_mret|apply aside_WriteUpgradeInfo].
Qed.

Lemma params_methods_ok : updates_aside → methods_ok gov (params_handlers (X := X) (K := K)).
Proof.
  intros Hu. split; cbn.
  - intros c. change (aside (params_GetMinDeposit c)). unfold params_GetMinDeposit, params_GetParams. aside_solve.
  - intros c. change (aside (params_GetMaxDepositPeriod c)). unfold params_GetMaxDepositPeriod, params_GetParams. aside_solve.
  - intros c. change (aside (params_GetVotingPeriod c)). unfold params_GetVotingPeriod, params_GetParams. aside_solve.
  - intros ctx msg. change (aside (params_CheckMsgSubmitProposal ctx msg)).
    unfold params_CheckMsgSubmitProposal, checkSubmitParamsChangeProposal, checkSubmitUpgradeProposal,
      checkUpgradeValidEffectiveHeight, proposalCommonCheck, IsUpgradeExist, params_GetParams. aside_solve.
  - intros _ p. change (aside (params_AfterSubmitProposalHandler p)). unfold params_AfterSubmitProposalHandler.
    destruct (params_of _) as [[|]|]; [apply aside_mret|apply logErr_aside|apply aside_mret].
  - intros _ _ _. apply aside_mret.
  - intros _ _. apply aside_mret.
  - intros _ _. apply aside_mret.
Qed.

Lemma executed_text ctx p s u s' : gov_ProposalHandler ctx p s = (Ok u, s') → executed gov p s s'.
Proof.
  unfold gov_ProposalHandler. cbv zeta. destruct (_ || _); [|by intros ?%fail_Ok]. intros [_ ->]%mret_Ok.
  by apply untouched_executed.
Qed.

(** ** Upgrades *)

Definition upgrades_of s : gmap string UpgradeInfo := px_upgrades (kp_get (coins_of s)).
Lemma WriteUpgradeInfo_run info s :
  ∃ s', WriteUpgradeInfo info true s = (Ok (), s') ∧ upgrades_of s' = <[Ui_Name info := info]> (upgrades_of s) ∧
    gv_gov s' = gv_gov s.
Proof.
  unfold WriteUpgradeInfo, IsUpgradeExist, on_params, on_supplyKeeper, on_staking, on_keeper, zoom, mbind, M_bind, gets, modify. cbn.
  eexists. split; [done|]. split; [|done]. unfold upgrades_of, coins_of. cbn. by rewrite !kp_get_set.
Qed.

Definition the_upgrade (c : UpgradeProposal) (st : UpgradeStatus) : UpgradeInfo :=
  mkUpgradeInfo (Up_Name c) (Up_ExpectHeight c) (Up_Config c) (Up_ExpectHeight c) st.

(** An upgrade that passed before the height it asks for waits until the
    block before. *)
Lemma upgrade_waits ctx c id s :
  BlockHeight ctx < Up_ExpectHeight c - 1 → 0 ≤ BlockHeight ctx → Up_ExpectHeight c < 2 ^ 63 →
  ∃ s', handleUpgradeProposal ctx id c s = (Ok (), s') ∧
    gs_waiting (gv_gov s') = {[ (Up_ExpectHeight c - 1, id) ]} ∪ gs_waiting (gv_gov s) ∧
    upgrades_of s' = <[Up_Name c := the_upgrade c UpgradeStatusWaitingEffective]> (upgrades_of s).
Proof.
  intros Hh Hz Hb. unfold handleUpgradeProposal, getUpgradeProposalConfirmHeight. cbv zeta.
  destruct (Z.eqb_spec (Up_ExpectHeight c) 0); [lia|]. rewrite (Z.mod_small (Up_ExpectHeight c - 1)) by lia.
  destruct (Z.ltb_spec (Up_ExpectHeight c - 1) (BlockHeight ctx)); [lia|].
  destruct (Z.ltb_spec (BlockHeight ctx) (Up_ExpectHeight c - 1)); [|lia].
  rewrite (Z.mod_small (_ + 1)) by lia. replace (Up_ExpectHeight c - 1 + 1) with (Up_ExpectHeight c) by lia.
  unfold mbind, M_bind, InsertWaitingProposalQueue, write, modify, logErr, storeWaitingUpgrade.
  destruct (WriteUpgradeInfo_run (the_upgrade c UpgradeStatusWaitingEffective)
    (gv_set_gov (gs_set_waiting (λ q, {[ (Up_ExpectHeight c - 1, id) ]} ∪ q) (gv_gov s)) s)) as (s' & E & Eu & Eg).
  unfold the_upgrade in E. rewrite E. exists s'. split; [done|]. split; [by rewrite Eg|]. exact Eu.
Qed.
(** It is confirmed in the block before that height, if the binary knows it. *)
Lemma upgrade_confirmed ctx c id s :
  BlockHeight ctx = Up_ExpectHeight c - 1 → 0 ≤ BlockHeight ctx → Up_ExpectHeight c < 2 ^ 63 →
  ss_ready (X := X) (K := K) (Up_Name c) = true →
  ∃ s', handleUpgradeProposal ctx id c s = (Ok (), s') ∧
    gs_waiting (gv_gov s') = gs_waiting (gv_gov s) ∖ {[ (Up_ExpectHeight c - 1, id) ]} ∧
    upgrades_of s' = <[Up_Name c := the_upgrade c UpgradeStatusEffective]> (upgrades_of s).
Proof.
  intros Hh Hz Hb Hr. unfold handleUpgradeProposal, getUpgradeProposalConfirmHeight. cbv zeta.
  destruct (Z.eqb_spec (Up_ExpectHeight c) 0); [lia|]. rewrite (Z.mod_small (Up_ExpectHeight c - 1)) by lia.
  destruct (Z.ltb_spec (Up_ExpectHeight c - 1) (BlockHeight ctx)); [lia|].
  destruct (Z.ltb_spec (BlockHeight ctx) (Up_ExpectHeight c - 1)); [lia|].
  rewrite (Z.mod_small (_ + 1)) by lia. replace (Up_ExpectHeight c - 1 + 1) with (Up_ExpectHeight c) by lia.
  rewrite Hr. unfold deferred, storeEffectiveUpgrade. cbn [negb].
  destruct (WriteUpgradeInfo_run (the_upgrade c UpgradeStatusEffective) s) as (s' & E & Eu & Eg).
  unfold the_upgrade in E. rewrite E. eexists. split; [done|]. cbn. by rewrite Eg.
Qed.
(** Otherwise it leaves the queue and nothing is stored. *)
Lemma upgrade_skipped ctx c id s :
  BlockHeight ctx = Up_ExpectHeight c - 1 → 0 ≤ BlockHeight ctx → Up_ExpectHeight c < 2 ^ 63 →
  ss_ready (X := X) (K := K) (Up_Name c) = false →
  ∃ s', handleUpgradeProposal ctx id c s = (Ok (), s') ∧
    gs_waiting (gv_gov s') = gs_waiting (gv_gov s) ∖ {[ (Up_ExpectHeight c - 1, id) ]} ∧
    upgrades_of s' = upgrades_of s.
Proof.
  intros Hh Hz Hb Hr. unfold handleUpgradeProposal, getUpgradeProposalConfirmHeight. cbv zeta.
  destruct (Z.eqb_spec (Up_ExpectHeight c) 0); [lia|]. rewrite (Z.mod_small (Up_ExpectHeight c - 1)) by lia.
  destruct (Z.ltb_spec (Up_ExpectHeight c - 1) (BlockHeight ctx)); [lia|].
  destruct (Z.ltb_spec (BlockHeight ctx) (Up_ExpectHeight c - 1)); [lia|].
  rewrite Hr. unfold deferred. eexists. split; [done|]. done.
Qed.
Lemma GetEffective_run ctx name s :
  is_ok (GetEffectiveUpgradeInfo ctx name s).1 = match upgrades_of s !! name with
    | Some info => isUpgradeEffective ctx info
    | None => false
    end.
Proof.
  unfold GetEffectiveUpgradeInfo, ReadUpgradeInfo, on_params, on_supplyKeeper, on_staking, on_keeper, zoom, mbind, M_bind, gets, guard_not.
  cbn -[isUpgradeEffective]. unfold upgrades_of, coins_of. destruct (px_upgrades _ !! name) as [info|]; [|done]. cbn -[isUpgradeEffective]. destruct (isUpgradeEffective ctx info) eqn:Ei; done.
Qed.
End ParamsFrame.

(** ** The routes of a chain with these proposals *)

Section ParamsGov.
Context {X K : Type} `{ModuleContent X} `{!HasParamsContent X} `{CoinKeeper K} `{!CoinKeeperLaws K} `{!GovConfig X K}.
Context `{!HasParams K} `{!ParamsLaws K} `{!Subspaces X K} (gov fee : string).

(** All routes lead to this module or to the governance module itself, and
    the contents of this module are checked by it. *)
Record params_routes : Prop := {
  pr_own x c : as_params x = Some c → rt_routes gc_handlers !! xc_Route x = Some params_handlers;
  pr_router path h : rt_routes gc_router !! path = Some h →
    h = gov_ProposalHandler ∨ h = NewParamChangeProposalHandler ∨ h = NewUpgradeProposalHandler;
  pr_handlers path ph : rt_routes gc_handlers !! path = Some ph → ph = gov_handlers ∨ ph = params_handlers }.

Lemma params_gov_laws :
  ck_modaddr GovModuleName = Some gov → ck_modaddr gc_feeCollectorName = Some fee → gov ≠ fee →
  ck_Blacklisted gov = true → updates_aside gov → params_routes → GovLaws gov fee.
Proof.
  intros Hg Hf Hne Hb Hu [_ Hr Hh]. split; try done.
  - intros path h ctx p s u s' Hp E. destruct (Hr _ _ Hp) as [->|[->| ->]].
    + by eapply executed_text.
    + by eapply executed_change.
    + by eapply executed_upgrade.
  - intros path ph Hp. destruct (Hh _ _ Hp) as [->| ->]; [apply gov_methods_ok|by apply params_methods_ok].
Qed.
End ParamsGov.

(** ** The store of the module beside the coins *)

Record Paramed (C : Type) := mkParamed { pm_base : C; pm_store : ParamsStore }.
Arguments mkParamed {C}.
Arguments pm_base {C}.
Arguments pm_store {C}.

Section Beside.
Context {C : Type} `{CoinKeeper C}.
Definition pm_set_base (c : C) (k : Paramed C) : Paramed C := mkParamed c (pm_store k).
Definition pm_set_store (p : ParamsStore) (k : Paramed C) : Paramed C := mkParamed (pm_base k) p.
#[global] Instance paramed_coin_keeper : CoinKeeper (Paramed C) := zoomed_keeper pm_base pm_set_base.
#[global] Instance paramed_coin_laws `{!CoinKeeperLaws C} : CoinKeeperLaws (Paramed C).
Proof. apply zoomed_laws; [done|by intros []|exact _]. Qed.
#[global] Instance paramed_params : HasParams (Paramed C) := {| kp_get := pm_store; kp_set := pm_set_store |}.
#[global] Instance paramed_params_laws : ParamsLaws (Paramed C).
Proof. by split. Qed.
End Beside.
