(* ===== verification/GovRun.v ===== *)
(** * Governance: runs of the module

    What holds of a chain on which proposals are submitted, deposited on and
    voted on, while other modules do what leaves this one alone: the
    invariant, the count at the end of a vote, what becomes of the deposits,
    and that no proposal stays open past its time. *)
From S2P Require Import Prelude Decimal Denom Coins Bank CoinKeeper Token Swap Staking StakingVals StakingVotes StakingProps StakingSet Gov GovProps GovTally Params ParamsProps.
#[local] Open Scope Z_scope.

(** ** What the deposits of a proposal amount to *)

Section Due.
Context {X K : Type} `{ModuleContent X} `{CoinKeeper K} `{!CoinKeeperLaws K} `{!GovConfig X K}.
Context (gov fee : string) `{!GovLaws gov fee}.
Implicit Types (s : GovState X K) (p : Proposal X) (g : Gov X) (D : gmap (Z * string) Deposit).


End Due.

(** ** Runs *)

Section Runs.
Context {X K : Type} `{ModuleContent X} `{CoinKeeper K} `{!CoinKeeperLaws K} `{!GovConfig X K}.
Context (gov fee : string) `{!GovLaws gov fee}.
Implicit Types (s : GovState X K) (p : Proposal X) (g : Gov X).

(** A message whose signer is an ordinary account, the end of a block, or
    something that leaves this module alone. *)
Inductive gov_step : GovState X K → GovState X K → Prop :=
  | gst_deliver ctx msg s s' :
      id_room s → ck_Blacklisted (gov_signer msg) = false → gov_deliver ctx msg s = (Ok (), s') → gov_step s s'
  | gst_end ctx s s' : gov_EndBlocker ctx s = (Ok (), s') → gov_step s s'
  | gst_other s s' : untouched gov s s' → gov_step s s'.

Lemma gov_step_inv s s' : gov_step s s' → gov_inv gov s → gov_inv gov s'.
Proof.
  intros [ctx msg s1 s2 Hr Hb E|ctx s1 s2 E|s1 s2 U] I.
  - by eapply (inv_gov_deliver gov fee).
  - pose proof (wp_gov_EndBlocker gov fee True (λ _, True) (returning_partial gov fee) ctx s1 I Logic.I) as Hw.
    unfold wp in Hw. rewrite E in Hw. apply Hw.
  - by eapply untouched_inv.
Qed.
Lemma gov_run_inv s s' : rtc gov_step s s' → gov_inv gov s → gov_inv gov s'.
Proof. induction 1; [done|]. intros I. apply IHrtc. by eapply gov_step_inv. Qed.

Lemma sumDeposits_Ok l : ∀ acc r, wf_coins acc → Forall (λ x, wf_coins (Dp_Amount x)) l → sumDeposits acc l = Ok r →
  wf_coins r ∧ ∀ d, amount_of r d = amount_of acc d + sum_over (λ x, amount_of (Dp_Amount x) d) l.
Proof.
  induction l as [|x l IH]; intros acc r Hw Hl; cbn [sumDeposits].
  { intros [= <-]. split; [done|]. intros d. unfold sum_over. cbn. lia. }
  apply Forall_cons in Hl as [Hx Hl]. intros (a1 & Ha & Hr)%outcome_bind_Ok.
  apply IH in Hr as [W E]; [|by apply (safeAdd_wf acc (Dp_Amount x))|done]. split; [done|]. intros d.
  rewrite E, (safeAdd_amount _ _ _ d Ha), sum_over_cons. lia.
Qed.
Lemma ModuleAccount_gov s b : gov_inv gov s → gov_ModuleAccountInvariant s = Ok b → b = false.
Proof.
  intros [I B]. unfold gov_ModuleAccountInvariant. intros (e & He & Hb)%outcome_bind_Ok.
  rewrite (gl_gov gov (fee := fee)) in Hb. apply outcome_bind_Ok in Hb as (c & Hc & Hb).
  apply outcome_bind_Ok in Hb as (r & Hr & [= <-]).
  destruct (ck_GetCoins gov (sg_k (gv_staking s))) as [o k'] eqn:E. cbn in Hc. subst o.
  apply law_GetCoins in E as (_ & Ec & Wc). fold (coins_of s) in Ec, Wc. specialize (Wc (bk_wf _ _ _ B)).
  apply sumDeposits_Ok in He as [We Ee]; [|apply wf_coins_nil|].
  - apply IsEqual_wf in Hr as ->; [done|done|done|]. intros d.
    rewrite Ec, Ee, (bk_balance _ _ _ B), amount_of_nil. unfold all_deposited.
    rewrite (sum_over_perm _ _ _ (byKey_perm _)), sum_over_fmap, map_sum_list. done.
  - apply Forall_forall. intros x. rewrite byKey_perm. intros ([[i a] y] & -> & Hx%elem_of_map_to_list)%list_elem_of_fmap.
    apply (dk_wf _ _ _ _ (si_deposit _ I _ _ _ Hx)).
Qed.
End Runs.

(** ** Theorems *)

Section GovTheorems.
Context {X K : Type} `{ModuleContent X} `{CoinKeeper K} `{!CoinKeeperLaws K} `{!GovConfig X K}.
Context (gov fee : string) `{!GovLaws gov fee}.
Implicit Types (s : GovState X K) (p : Proposal X) (g : Gov X).

(** C9: whatever is submitted, deposited, voted on and decided on a chain, the
    governance store stays consistent (each proposal in the queue of its
    status, deposits and votes only on open proposals, the total of a proposal
    the sum of its deposits), the module account holds exactly the deposits,
    and the registered module-account invariant never reports a break. *)
Theorem gov_run_invariant s s' :
  gov_inv gov s → rtc (gov_step gov) s s' →
  gov_inv gov s' ∧ ∀ b, gov_ModuleAccountInvariant s' = Ok b → b = false.
Proof.
  intros I Hr. pose proof (gov_run_inv gov fee _ _ Hr I) as I'. split; [done|]. intros b. by apply (ModuleAccount_gov gov fee).
Qed.


(** What is called at the end of a block: payments of deposits that are
    backed return, and no handler panics on a proposal that was admitted;
    [ready] stays. *)
Record calls_return (ready : StakingState K → Prop) : Prop := {
  cr_handler path h ctx p s : rt_routes gc_router !! path = Some h → admitted (Pp_Content p) → ready (gv_staking s) →
    is_panic (h ctx p s).1 = false ∧ ∀ u s', h ctx p s = (Ok u, s') → ready (gv_staking s');
  cr_rejected path ph ctx c s : rt_routes gc_handlers !! path = Some ph → ready (gv_staking s) →
    wp False (ph_RejectedHandler ph ctx c) s (λ _ s', ready (gv_staking s'));
  cr_refund : pays gov False ready refund_of Dp_Depositor;
  cr_share : pays gov False ready (share_of (X := X)) (λ _, fee) }.

Section WithStaking.
Context `{cfgS : StakingConfig} `{bansS : !Bans} `{engS : !Engine}.

(** C10: the count of the votes on a proposal returns, changes nothing, and
    is the one of the reference: for each option the shares of the delegators
    who chose it and the shares left to the validators who chose it, whatever
    the order in which the map of validators is visited.  The four counts add
    up to the voted power, which is at most the total: no share counts twice. *)
Theorem Tally_exact s p b :
  (∀ m : gmap string validatorGovInfo, gc_range m ≡ₚ map_to_list m) →
  gov_inv gov s → counts (gv_staking s) →
  ∃ st dist, Tally p b s = (Ok (st, dist, count_of s p), s) ∧ tally_ok (count_of s p).
Proof.
  intros Hm [I _] Hc. destruct (Tally_run Hm s p b I Hc) as (st & dist & E). exists st, dist. split; [done|].
  by apply counted_ok, ballot_of.
Qed.

(** C14: the end of a block returns, and no proposal is open past its time:
    what had not enough deposits by the end of its deposit time is gone, and
    what was to be voted on until now has been decided.  This rests on the
    calls at the end of a block: payments of deposits that the module holds
    return, and the handler of a proposal returns or fails but does not panic
    on a content that its module accepted when it was submitted.  (For the
    parameter module this is [bank_calls_return]: an update of a key that is
    not registered panics, but it does so when the proposal is submitted, and
    so such a proposal is not stored.) *)
Theorem gov_EndBlocker_decides (ready : StakingState K → Prop) ctx s :
  (∀ m : gmap string validatorGovInfo, gc_range m ≡ₚ map_to_list m) →
  (∀ t, ready t → counts t) → calls_return ready → gov_inv gov s → ready (gv_staking s) →
  ∃ s', gov_EndBlocker ctx s = (Ok (), s') ∧ gov_inv gov s' ∧ ready (gv_staking s') ∧
    ∀ id p, gs_proposals (gv_gov s') !! id = Some p →
      (Pp_Status p = StatusDepositPeriod → BlockTime ctx < Pp_DepositEndTime p) ∧
      (Pp_Status p = StatusVotingPeriod → BlockTime ctx < Pp_VotingEndTime p).
Proof.
  intros Hm Hrc [R1 R2 R3 R4] I Hr.
  assert (returning gov fee False ready) as R.
  { split; try done.
    - intros p b t It Ht _. destruct (Tally_run Hm t p b (proj1 It) (Hrc _ Ht)) as (st & dist & ->). done.
    - intros path h c p t Hh Ha Ht. destruct (R1 path h c p t Hh Ha Ht) as [Hn Hk]. split; [by intros _|done]. }
  pose proof (wp_gov_EndBlocker gov fee False ready R ctx s I Hr) as Hw.
  apply wp_returns in Hw as ([] & s' & E & I' & Hr' & Ha & Hi). exists s'. split; [done|]. split; [done|]. split; [done|].
  intros id p Hp. split; intros Hst.
  - destruct (decide (Pp_DepositEndTime p ≤ BlockTime ctx)) as [Hle|]; [|lia]. exfalso. eapply not_elem_of_nil.
    apply (proj2 Hi (Pp_DepositEndTime p, id)). split; [|done]. apply (si_inactive _ (proj1 I')). eauto.
  - destruct (decide (Pp_VotingEndTime p ≤ BlockTime ctx)) as [Hle|]; [|lia]. exfalso. eapply not_elem_of_nil.
    apply (proj2 Ha (Pp_VotingEndTime p, id)). split; [|done]. apply (si_active _ (proj1 I')). eauto.
Qed.
End WithStaking.
End GovTheorems.

Section ParamsTheorems.
Context {X K : Type} `{ModuleContent X} `{!HasParamsContent X} `{CoinKeeper K} `{!CoinKeeperLaws K} `{!GovConfig X K}.
Context `{!HasParams K} `{!ParamsLaws K} `{!Subspaces X K}.
Implicit Types (s : GovState X K) (p : Proposal X).

(** C39: a change of parameters that was put off and fails at its height is
    tried again at the end of every block: the handler has taken it out of the
    queue, but what a failed handler has done is discarded with it. *)
Theorem failed_change_repeats ctx id p x c s e s1 :
  gs_proposals (gv_gov s) !! id = Some p → Pp_ProposalID p = id →
  Pp_Content p = ModuleProposal x → as_params x = Some (ParameterChange c) →
  queueUpTo (BlockHeight ctx) (gs_waiting (gv_gov s)) = [(Pa_Height c, id)] →
  rt_routes gc_router !! ProposalRoute (Pp_Content p) = Some NewParamChangeProposalHandler →
  NewParamChangeProposalHandler ctx p s = (Err e, s1) →
  (Pa_Height c, id) ∉ gs_waiting (gv_gov s1) ∧ handleWaitingProposals ctx s = (Ok (), s).
Proof.
  intros Hp Hid Hc Hx Hq Hh E. split.
  - unfold NewParamChangeProposalHandler in E. rewrite Hc, Hx, Hid in E. unfold handleParameterChangeProposal, deferred in E.
    destruct (_ <? _); [done|]. destruct (changeParams _ s) as [o t]. injection E as _ <-. cbn. set_solver.
  - unfold handleWaitingProposals, iterateQueue, read, gets, mbind, M_bind. rewrite Hq. cbn [for_each].
    unfold mbind, M_bind, GetProposal, read, gets. cbn [snd]. rewrite Hp. unfold lift, GetRoute. rewrite Hh. unfold cached. by rewrite E.
Qed.

End ParamsTheorems.
