(* ===== verification/GovBank.v ===== *)
(** * Governance: the bank pays the deposits

    The bank and supply keepers pay what the governance module owes: deposits
    are in the coin of the chain, the module has them, and they can be sent as
    long as the denominations of all accounts are good. *)
From S2P Require Import Prelude Decimal Denom Coins Bank CoinKeeper DecStr Token Staking StakingVals StakingVotes StakingProps StakingSet StakingBank Gov GovProps GovTally Params ParamsProps GovRun.
#[local] Open Scope Z_scope.

Lemma deposit_good c : deposit_coins c → good_denoms c.
Proof.
  intros [[Hs Hp] Ho]. apply Forall_forall. intros x Hx. pose proof (proj1 (Forall_forall _ _) Hp x Hx) as Hpos.
  assert (Denom x = DefaultBondDenom) as ->; [|by vm_compute].
  destruct (decide (Denom x = DefaultBondDenom)) as [|Hne]; [done|]. apply Ho in Hne.
  rewrite amount_of_elem in Hne by done. cbn in Hpos. lia.
Qed.

Section GovBank.
Context {cfg : BankConfig} `{!ModuleContent X} (gov fee : string).
#[local] Existing Instance sound_coin_keeper.
#[local] Existing Instance sound_coin_laws.
Context `{!GovConfig X (Paramed Bank)} `{!GovLaws (X := X) (K := Paramed Bank) gov fee}.
Context `{cfgS : StakingConfig} `{bansS : !Bans} `{engS : !Engine}.

(** What the end of a block needs: votes that can be counted, and accounts
    that can be paid. *)
Definition bank_ready (t : StakingState (Paramed Bank)) : Prop := counts t ∧ sendable (pm_base (sg_k t)).

Lemma bank_ready_coins k t : sendable (pm_base k) → bank_ready t → bank_ready (sg_set_k k t).
Proof. intros Hs [Hc _]. by split. Qed.

Lemma send_zoomed a b amt (k : Paramed Bank) :
  ck_wf k → sendable (pm_base k) → a ≠ b → deposit_coins amt → (∀ d, amount_of amt d ≤ ck_balance k a d) →
  ∃ c, SendCoins a b amt (pm_base k) = (Ok (), c) ∧ sendable c.
Proof. intros Hw Hs Hne Hd Hf. apply sound_SendCoins_returns; try done; [apply Hd|by apply deposit_good]. Qed.

Lemma bank_refunds : pays gov False bank_ready refund_of Dp_Depositor.
Proof.
  intros d t Hw Hr Hd Hf Hb. assert (Dp_Depositor d ≠ gov) as Hne.
  { intros E. pose proof (gl_blocked gov (fee := fee)) as Hg. rewrite E in Hb. cbn in Hb, Hg. congruence. }
  destruct (send_zoomed gov (Dp_Depositor d) (Dp_Amount d) (sg_k t)) as (c & E & Hc); try done; [apply Hr|].
  assert (refund_of d (sg_k t) = (Ok (), pm_set_base c (sg_k t))) as Er.
  { unfold refund_of. cbn. unfold zoom, SendCoinsFromModuleToAccount, guard_not, mbind, M_bind.
    pose proof (gl_gov gov (fee := fee)) as Hg. cbn in Hg, Hb. rewrite Hb, Hg. cbn [mret M_ret]. by rewrite E. }
  unfold wp. rewrite Er. split; [|by apply bank_ready_coins].
  apply law_ModuleToAccount in Er as (_ & addr & Ha & Hm). rewrite (gl_gov gov (fee := fee)) in Ha. by injection Ha as <-.
Qed.

Lemma bank_shares : pays gov False bank_ready (share_of (X := X)) (λ _, fee).
Proof.
  intros d t Hw Hr Hd Hf Hb. pose proof (gl_gov gov (fee := fee)) as Hg. pose proof (gl_fee gov (fee := fee)) as Hfe.
  destruct (bs_modules _ Hw _ _ Hfe) as (acc & ps & Ha & Hp).
  destruct (send_zoomed gov fee (Dp_Amount d) (sg_k t)) as (c & E & Hc); try done; [apply Hr|by apply (gl_ne gov (fee := fee))|].
  assert (share_of (X := X) d (sg_k t) = (Ok (), pm_set_base c (sg_k t))) as Er.
  { unfold share_of. cbn. unfold zoom, SendCoinsFromModuleToModule. cbn in Hg, Hfe. rewrite Hg.
    rewrite (M_bind_run _ _ _ _ _ (module_account _ _ _ _ _ Hfe Ha Hp)). by rewrite E. }
  unfold wp. rewrite Er. split; [|by apply bank_ready_coins].
  apply law_ModuleToModule in Er as (a & b & H1 & H2 & Hm). rewrite (gl_gov gov (fee := fee)) in H1.
  rewrite (gl_fee gov (fee := fee)) in H2. by injection H1 as <-; injection H2 as <-.
Qed.

(** ** The handlers of the params module return *)

Context `{!HasParamsContent X} `{!Subspaces X (Paramed Bank)}.
(** Whether the update of a parameter panics (because the key is not
    registered, or the value cannot be encoded) does not depend on the state;
    and it leaves votes and coins. *)
Definition never_panics (c : ParamChange) : Prop := ∀ s : GovState X (Paramed Bank),
  is_panic (ss_Update (Pc_Subspace c) (Pc_Key c) (Pc_Value c) s).1 = false.
Record updates_return : Prop := {
  ur_same c (s : GovState X (Paramed Bank)) :
    is_panic (ss_Update (Pc_Subspace c) (Pc_Key c) (Pc_Value c) s).1 = false → never_panics c;
  ur_ready sub key v (s : GovState X (Paramed Bank)) :
    bank_ready (gv_staking s) → bank_ready (gv_staking (ss_Update sub key v s).2) }.

Definition calm {A} (m : M (GovState X (Paramed Bank)) A) : Prop := ∀ s,
  bank_ready (gv_staking s) → is_panic (m s).1 = false ∧ bank_ready (gv_staking (m s).2).
Lemma calm_bind {A B} (m : M (GovState X (Paramed Bank)) A) (f : A → M (GovState X (Paramed Bank)) B) :
  calm m → (∀ a, calm (f a)) → calm (m ≫= f).
Proof.
  intros Hm Hf s Hr. destruct (Hm s Hr) as [Hn Hk]. unfold mbind, M_bind. destruct (m s) as [[a|e|e] s1]; try done.
  by apply Hf.
Qed.
Lemma calm_mret {A} (a : A) : calm (mret a).
Proof. by intros s. Qed.
Lemma calm_fail {A} n : calm (fail (A := A) n).
Proof. by intros s. Qed.
Lemma calm_guard c n : calm (guard_not c n).
Proof. by intros s; destruct c. Qed.
Lemma calm_wrapErr {A} n (m : M (GovState X (Paramed Bank)) A) : calm m → calm (wrapErr n m).
Proof. intros Hm s Hr. destruct (Hm s Hr). unfold wrapErr. by destruct (m s) as [[]]. Qed.
Lemma calm_logErr {A} (m : M (GovState X (Paramed Bank)) A) : calm m → calm (logErr m).
Proof. intros Hm s Hr. destruct (Hm s Hr). unfold logErr. by destruct (m s) as [[]]. Qed.
Lemma calm_write f : calm (write f).
Proof. by intros s. Qed.
Lemma calm_gets_params {A} (f : ParamsStore → A) : calm (on_params (gets f)).
Proof. intros [[[]] ?]. done. Qed.
Lemma calm_set_params f : calm (on_params (modify f)).
Proof. intros [[[]] ?] Hr. done. Qed.
Lemma calm_deferred {A} (f : Gov X → Gov X) (m : M (GovState X (Paramed Bank)) A) : calm m → calm (deferred (write f) m).
Proof. intros Hm s Hr. destruct (Hm s Hr). unfold deferred. by destruct (m s) as [[]]. Qed.
Lemma calm_Write info force : calm (WriteUpgradeInfo info force).
Proof.
  unfold WriteUpgradeInfo, IsUpgradeExist. apply calm_bind; [apply calm_gets_params|]. intros b.
  destruct (_ && _); [apply calm_fail|apply calm_set_params].
Qed.
Lemma calm_changeParams l : updates_return → Forall never_panics l → calm (changeParams l).
Proof.
  intros Hu. induction 1 as [|c l Hc _ IH]; cbn [changeParams]; [apply calm_mret|].
  apply calm_bind; [apply calm_guard|intros _]. apply calm_bind; [|by intros _].
  apply calm_wrapErr. intros s Hs. split; [apply Hc|by apply (ur_ready Hu)].
Qed.

(** The check of a change has tried it. *)
Lemma changeParams_tried l : ∀ (s s' : GovState X (Paramed Bank)),
  updates_return → changeParams l s = (Ok (), s') → Forall never_panics l.
Proof.
  induction l as [|c l IH]; intros s s' Hu E; [constructor|]. cbn [changeParams] in E.
  apply M_bind_Ok in E as (u1 & s1 & E1 & E). apply guard_not_Ok in E1 as [_ ->].
  apply M_bind_Ok in E as (u2 & s2 & E2%wrapErr_Ok & E). constructor; [|by eapply IH].
  apply (ur_same Hu c s). by rewrite E2.
Qed.
Lemma admitted_changes x c :
  updates_return → params_routes (X := X) (K := Paramed Bank) → as_params x = Some (ParameterChange c) →
  admitted (ModuleProposal x) → Forall never_panics (Pa_Changes c).
Proof.
  intros Hu Hpr Hx [_ (ph & ctx & msg & s & s' & Hph & Hm & E)].
  assert (ph = params_handlers) as ->.
  { unfold handlers_of, HasRoute, GetRoute in Hph. cbn [ProposalRoute] in Hph. rewrite (pr_own Hpr x _ Hx) in Hph.
    rewrite bool_decide_true in Hph by eauto. by injection Hph. }
  cbn [ph_CheckMsgSubmitProposal params_handlers] in E. unfold params_CheckMsgSubmitProposal in E. rewrite Hm in E.
  cbn [mbind option_bind params_of] in E. rewrite Hx in E. unfold checkSubmitParamsChangeProposal in E.
  apply M_bind_Ok in E as (u1 & s1 & _ & E). apply M_bind_Ok in E as (pp & s2 & _ & E). cbv zeta in E.
  apply M_bind_Ok in E as (u2 & s3 & _ & E). unfold simulated in E.
  destruct (changeParams (Pa_Changes c) s3) as [o s4] eqn:E3. cbn [fst] in E. injection E as -> _.
  by eapply changeParams_tried.
Qed.

Lemma calm_handlers ctx p : updates_return → params_routes (X := X) (K := Paramed Bank) → admitted (Pp_Content p) →
  calm (gov_ProposalHandler ctx p) ∧ calm (NewParamChangeProposalHandler ctx p) ∧ calm (NewUpgradeProposalHandler ctx p).
Proof.
  intros Hu Hpr Ha. split_and!.
  - unfold gov_ProposalHandler. cbv zeta. destruct (_ || _); [apply calm_mret|apply calm_fail].
  - unfold NewParamChangeProposalHandler, handleParameterChangeProposal. destruct (Pp_Content p) as [| |x]; [apply calm_fail..|].
    destruct (as_params x) as [[c|c]|] eqn:Hx; [|apply calm_fail..]. destruct (_ <? _); [apply calm_write|].
    apply calm_deferred, calm_changeParams; [done|]. by eapply admitted_changes.
  - unfold NewUpgradeProposalHandler, handleUpgradeProposal. destruct (Pp_Content p) as [| |x]; [apply calm_fail..|].
    destruct (as_params x) as [[c|c]|]; [apply calm_fail| |apply calm_fail]. cbv zeta. destruct (_ <? _).
    + apply calm_bind; [apply calm_write|intros _]. apply calm_logErr, calm_Write.
    + apply calm_deferred. destruct (negb _); [apply calm_mret|apply calm_Write].
Qed.

Lemma bank_calls_return :
  updates_return → params_routes (X := X) (K := Paramed Bank) → calls_return (X := X) gov fee bank_ready.
Proof.
  intros Hu Hpr. pose proof Hpr as [_ Hr Hh]. split.
  - intros path h ctx p s Hp Ha Hs. assert (calm (h ctx p)) as Hc
      by (destruct (calm_handlers ctx p Hu Hpr Ha) as (? & ? & ?); destruct (Hr _ _ Hp) as [->|[->| ->]]; done).
    destruct (Hc s Hs) as [Hn Hk]. split; [done|]. intros u s' E. by rewrite E in Hk.
  - intros path ph ctx c s Hp Hs. destruct (Hh _ _ Hp) as [->| ->]; exact Hs.
  - exact bank_refunds.
  - exact bank_shares.
Qed.
End GovBank.
