(* ===== verification/GovDemo.v ===== *)
(** * Governance: a chain with three proposals

    The validators and delegators of the staking chain vote on a text, on a
    change of parameters and on an upgrade; and concrete instances of the
    properties along the way. *)
From S2P Require Import Prelude Decimal Denom Coins Bank CoinKeeper DecStr Token Staking StakingVals StakingVotes StakingProps StakingSet Slashing SlashingProps StakingRun StakingBank StakingDemo Gov GovProps GovTally Params ParamsProps GovRun GovBank.
#[local] Open Scope Z_scope.

Definition demo_gov_bank_config : BankConfig :=
  mkBankConfig {[ NotBondedPoolName := ("pool_n", ["burner"; "staking"]); GovModuleName := ("acc_gov", ["burner"]);
                  "fee_collector" := ("acc_fee", []) ]} {[ "acc_gov" := true ]}.
#[local] Existing Instance demo_gov_bank_config.
#[local] Existing Instance sound_coin_keeper.
#[local] Existing Instance sound_coin_laws.
#[local] Existing Instance demo_stake_heights.

#[local] Abbreviation demo_K := (Paramed Bank).
#[local] Abbreviation demo_G := (GovState ParamsContent demo_K).

(** The governance module has one parameter that proposals change here; the
    update of another key panics. *)
Definition demo_Update (sub key v : string) : M demo_G unit :=
  if negb (String.eqb key "maxvotingperiod") then panic "parameter not registered"
  else if String.eqb v "70" then write (λ g, gs_set_params (gs_depositParams g) 70 (gs_tallyParams g) g)
  else fail "invalid value".
#[local] Instance demo_subspaces : Subspaces ParamsContent demo_K := {|
  ss_exists sub := String.eqb sub "gov";
  ss_Update := demo_Update;
  ss_ready name := String.eqb name "v2" |}.
#[local] Instance demo_gov_config : GovConfig ParamsContent demo_K := {|
  gc_router := mkRouter {[ GovRouterKey := gov_ProposalHandler; ParamsRouterKey := NewParamChangeProposalHandler;
                           UpgradeRouterKey := NewUpgradeProposalHandler ]} true;
  gc_handlers := mkRouter {[ GovRouterKey := gov_handlers; ParamsRouterKey := params_handlers;
                             UpgradeRouterKey := params_handlers ]} true;
  gc_types := {[ ProposalTypeText; ProposalTypeSoftwareUpgrade; ProposalTypeChange; ProposalTypeUpgrade ]};
  gc_feeCollectorName := "fee_collector";
  gc_range _ m := map_to_list m |}.

Definition demo_okt (n : Z) : list DecCoin := [mkDecCoin "okt" n].
Definition demo_module_acc (perms : list string) : Account := mkAccount [] (Some perms).
Definition demo_gov_bank : Bank :=
  mkBank {[ "alice" := mkAccount (demo_okt 1000) None; "bob" := mkAccount (demo_okt 1000) None;
            "acc_gov" := demo_module_acc ["burner"]; "acc_fee" := demo_module_acc [];
            "pool_n" := demo_module_acc ["burner"; "staking"] ]}
         {[ "okt" := 2000 ]} true.
Definition demo_tenth (n : Z) : Dec := n * 10 ^ 17.
Definition demo_gov0 : demo_G :=
  mkGovState
    (mkStakingState
      (mkParamed demo_gov_bank (mkParamsStore (mkParamsParams 100 (demo_okt 100) 50 0) ∅))
      (sg_stakes (dr_end demo_r2)) (sg_vals (dr_end demo_r2)) (sg_params (dr_end demo_r2)))
    (mkGov ∅ ∅ ∅ ∅ ∅ ∅ (Some 1) (mkDepositParams (demo_okt 100) 100) 50
      (mkTallyParams (demo_tenth 3) (demo_tenth 5) (demo_tenth 3) OneDec)).

Definition demo_text : Content ParamsContent := TextProposal "a text" "to be agreed on".
Definition demo_change (v : string) (height : Z) : ParameterChangeProposal :=
  mkParameterChange "a change" "of a period" [mkParamChange "gov" "maxvotingperiod" v] height.
Definition demo_submit (c : Content ParamsContent) (a : string) (n : Z) : GovMsg ParamsContent :=
  MsgSubmit (mkMsgSubmitProposal (Some c) (demo_okt n) a).

(** Messages in a row, at one time and height. *)
Fixpoint demo_messages (ctx : Ctx) (l : list (GovMsg ParamsContent)) (s : demo_G) : demo_G * bool :=
  match l with
  | [] => (s, true)
  | m :: l =>
      let r := gov_deliver ctx m s in
      let '(s', b) := demo_messages ctx l r.2 in
      (s', b && is_ok r.1 && negb (ck_Blacklisted (S := demo_K) (gov_signer m))
             && match gs_nextID (gv_gov s) with Some n => n + 1 <? 2 ^ 64 | None => false end)
  end.
Definition demo_gctx1 : Ctx := mkCtx 10 1000.
Definition demo_gctx2 : Ctx := mkCtx 11 1200.
(** A text with too small a deposit, and one that is voted on. *)
Definition demo_msgs : list (GovMsg ParamsContent) :=
  [demo_submit demo_text "alice" 20; demo_submit demo_text "bob" 60; MsgDeposit 2 "alice" (demo_okt 50);
   MsgVote 2 "carol" OptionYes; MsgVote 2 "bob" OptionNo].
Definition demo_g1 : demo_G := (demo_messages demo_gctx1 demo_msgs demo_gov0).1.
Definition demo_g2 : demo_G := (gov_EndBlocker demo_gctx2 demo_g1).2.

(** What the code returned, and where it went. *)
Lemma demo_run_ok {A} (m : M demo_G A) s : is_ok (m s).1 = true → ∃ a, m s = (Ok a, (m s).2).
Proof. destruct (m s) as [[a|e|e] s']; try done. by exists a. Qed.
Lemma demo_messages_steps ctx l : ∀ s,
  (demo_messages ctx l s).2 = true → rtc (gov_step "acc_gov") s (demo_messages ctx l s).1.
Proof.
  induction l as [|m l IH]; intros s; cbn [demo_messages]; [by intros _|].
  destruct (demo_messages ctx l (gov_deliver ctx m s).2) as [s' b] eqn:E. cbn [fst snd].
  rewrite !andb_true_iff. intros [[[-> Ho] Hb%negb_true_iff] Hn]. destruct (demo_run_ok _ _ Ho) as [[] Hr].
  eapply rtc_l; [eapply gst_deliver; [|exact Hb|exact Hr]|].
  - intros n Hn'. rewrite Hn' in Hn. lia.
  - specialize (IH (gov_deliver ctx m s).2). rewrite E in IH. by apply IH.
Qed.

(** ** The laws and the first state *)

Lemma demo_updates_aside : updates_aside (X := ParamsContent) (K := demo_K) "acc_gov".
Proof.
  intros sub key v s u s'. cbn [ss_Update demo_subspaces]. unfold demo_Update. destruct (negb _); [by intros ?%panic_Ok|].
  destruct (String.eqb _ _); [|by intros ?%fail_Ok]. intros ->%modify_Ok. by split.
Qed.
Lemma demo_routes : params_routes (X := ParamsContent) (K := demo_K).
Proof.
  split.
  - intros x c [= <-]. by destruct x.
  - intros path h Hh. cbn in Hh. repeat apply lookup_insert_Some in Hh as [[_ <-]|[_ Hh]]; auto.
    by rewrite lookup_empty in Hh.
  - intros path h Hh. cbn in Hh. repeat apply lookup_insert_Some in Hh as [[_ <-]|[_ Hh]]; auto.
    by rewrite lookup_empty in Hh.
Qed.
#[local] Instance demo_gov_laws : GovLaws (X := ParamsContent) (K := demo_K) "acc_gov" "acc_fee".
Proof.
  apply params_gov_laws; [by vm_compute..|exact demo_updates_aside|exact demo_routes].
Qed.

Lemma demo_gov_bank_sound : bank_sound demo_gov_bank ∧ sendable demo_gov_bank.
Proof.
  assert (∀ d, supply_of demo_gov_bank d = if String.eqb "okt" d then 2000 else 0) as Hs.
  { intros d. unfold supply_of, demo_gov_bank. cbn [supplies]. destruct (String.eqb_spec "okt" d) as [<-|Hne].
    - by rewrite lookup_singleton_eq.
    - by rewrite lookup_singleton_ne. }
  assert (bank_good demo_gov_bank) as Hg.
  { unfold bank_good, demo_gov_bank. cbn [accounts]. assert (wf_coins (demo_okt 1000) ∧ good_denoms (demo_okt 1000)) as Ho.
    { split; [by apply wf_coins_one|]. by repeat constructor. }
    assert (wf_coins [] ∧ good_denoms []) as Hz by (split; [apply wf_coins_nil|constructor]).
    do 4 (apply map_Forall_insert_2; [done|]). by apply map_Forall_singleton. }
  split; [split|split].
  - split.
    + eapply map_Forall_impl; [exact Hg|]. by intros a acc [Hw _].
    + intros d. rewrite Hs. unfold total_of, demo_gov_bank. cbn [accounts].
      do 4 (rewrite map_sum_fresh by (by vm_compute)). rewrite map_sum_singleton.
      cbn [AccCoins demo_module_acc]. unfold demo_okt. rewrite !amount_of_one, !amount_of_nil. cbn [Denom Amount].
      by destruct (String.eqb "okt" d).
  - intros d. rewrite Hs. by destruct (String.eqb "okt" d).
  - exists "pool_n", (demo_module_acc ["burner"; "staking"]), ["burner"; "staking"]. split_and!; by vm_compute.
  - intros m addr Hm. unfold GetModuleAddress in Hm. destruct (permAddrs !! m) as [[b ps]|] eqn:Hx; [|done].
    injection Hm as <-. cbn [permAddrs demo_gov_bank_config] in Hx.
    repeat apply lookup_insert_Some in Hx as [[_ [= <- _]]|[_ Hx]];
      try apply lookup_singleton_Some in Hx as [_ [= <- _]]; by eexists _, _; vm_compute.
  - exact Hg.
  - intros d. rewrite Hs. by destruct (String.eqb "okt" d).
Qed.
Lemma demo_gov0_inv : gov_inv "acc_gov" demo_gov0.
Proof.
  split.
  - split; cbn; try done.
    + exists 1. split; [done|]. split; [lia|]. intros id [? ?]; done.
    + intros t id. split; [by intros ?%elem_of_empty|]. by intros (p & ? & _).
    + intros t id. split; [by intros ?%elem_of_empty|]. by intros (p & ? & _).
  - split; cbn; [apply demo_gov_bank_sound|]. intros d. by vm_compute.
Qed.

(** ** The votes and the coins of the staking chain *)

#[local] Instance demo_gov_engine : Engine := demo_engine2.
#[local] Existing Instance all_banned.
(** Nothing that this module does changes votes or validators. *)
Lemma demo_ready_of (s : demo_G) :
  sg_stakes (gv_staking s) = sg_stakes (dr_end demo_r2) → sg_vals (gv_staking s) = sg_vals (dr_end demo_r2) →
  sendable (pm_base (coins_of s)) → bank_ready (gv_staking s).
Proof.
  intros E1 E2 Hs. split; [|exact Hs]. unfold counts, votes_inv_of. rewrite E1, E2. split; [|by vm_compute].
  exact (sv_votes _ _ _ _ (ch_inv _ _ _ _ _ demo_ok2)).
Qed.
Lemma demo_gov0_ready : bank_ready (gv_staking demo_gov0).
Proof. apply demo_ready_of; [by vm_compute..|apply demo_gov_bank_sound]. Qed.
Lemma demo_updates_return : updates_return (X := ParamsContent).
Proof.
  split.
  - intros c s Hs t. cbn in *. unfold demo_Update in *. by destruct (negb _); [|destruct (String.eqb _ _)].
  - intros sub key v s Hs. cbn. unfold demo_Update. by destruct (negb _); [|destruct (String.eqb _ _)].
Qed.
Lemma demo_calls : calls_return (X := ParamsContent) (K := demo_K) "acc_gov" "acc_fee" bank_ready.
Proof. exact (bank_calls_return _ _ demo_updates_return demo_routes). Qed.

Lemma demo_to_g1 : rtc (gov_step "acc_gov") demo_gov0 demo_g1.
Proof. apply demo_messages_steps. by vm_compute. Qed.
Lemma demo_g1_inv : gov_inv "acc_gov" demo_g1.
Proof. exact (gov_run_inv "acc_gov" "acc_fee" _ _ demo_to_g1 demo_gov0_inv). Qed.
Lemma demo_g1_ready : bank_ready (gv_staking demo_g1).
Proof.
  apply demo_ready_of; [by vm_compute|by vm_compute|].
  set (k := pm_base (coins_of demo_g1)).
  assert (accounts k = {[ "alice" := mkAccount (demo_okt 930) None; "bob" := mkAccount (demo_okt 940) None;
    "acc_gov" := mkAccount (demo_okt 130) (Some ["burner"]); "acc_fee" := demo_module_acc [];
    "pool_n" := demo_module_acc ["burner"; "staking"] ]}) as Ea by by vm_compute.
  assert (supplies k = supplies demo_gov_bank) as Es by by vm_compute. split.
  - unfold bank_good. rewrite Ea. assert (∀ n, 0 < n → wf_coins (demo_okt n) ∧ good_denoms (demo_okt n)) as Ho.
    { intros n Hn. split; [by apply wf_coins_one|]. by repeat constructor. }
    assert (wf_coins [] ∧ good_denoms []) as Hz by (split; [apply wf_coins_nil|constructor]).
    do 4 (apply map_Forall_insert_2; [first [by apply Ho|done]|]). by apply map_Forall_singleton.
  - intros d. unfold supply_of. rewrite Es. apply (proj2 (proj2 demo_gov_bank_sound)).
Qed.

Definition demo_p2 : Proposal ParamsContent :=
  default (NewProposal 0 demo_text 2 0 0) (gs_proposals (gv_gov demo_g1) !! 2).

(** ** The properties, at work *)

Lemma gov_run_invariant_witness :
  gov_inv "acc_gov" demo_g2 ∧ ∀ b, gov_ModuleAccountInvariant demo_g2 = Ok b → b = false.
Proof.
  apply (gov_run_invariant "acc_gov" "acc_fee" demo_gov0 demo_g2 demo_gov0_inv).
  eapply rtc_r; [exact demo_to_g1|]. apply (gst_end _ demo_gctx2). by vm_compute.
Defined.

Lemma Tally_exact_witness :
  ∃ st dist, Tally demo_p2 true demo_g1 = (Ok (st, dist, count_of demo_g1 demo_p2), demo_g1) ∧
    tally_ok (count_of demo_g1 demo_p2).
Proof.
  apply (Tally_exact "acc_gov" demo_g1 demo_p2 true); [done|exact demo_g1_inv|exact (proj1 demo_g1_ready)].
Defined.


Lemma gov_EndBlocker_decides_witness :
  ∃ s', gov_EndBlocker demo_gctx2 demo_g1 = (Ok (), s') ∧ gov_inv "acc_gov" s' ∧ bank_ready (gv_staking s') ∧
    ∀ id p, gs_proposals (gv_gov s') !! id = Some p →
      (Pp_Status p = StatusDepositPeriod → BlockTime demo_gctx2 < Pp_DepositEndTime p) ∧
      (Pp_Status p = StatusVotingPeriod → BlockTime demo_gctx2 < Pp_VotingEndTime p).
Proof.
  apply (gov_EndBlocker_decides "acc_gov" "acc_fee" bank_ready demo_gctx2 demo_g1);
    [done|by intros t [Ht _]|exact demo_calls|exact demo_g1_inv|exact demo_g1_ready].
Defined.

(** ** Parameters and upgrades *)

(** A change that waits for height 12 and whose value is refused then. *)
Definition demo_bad : ParameterChangeProposal := demo_change "seventy" 12.
Definition demo_p3 : Proposal ParamsContent :=
  pp_set_status StatusPassed (NewProposal 0 (ModuleProposal (ParameterChange demo_bad)) 3 0 0).
Definition demo_g3 : demo_G :=
  gv_set_gov (gs_set_waiting (λ _, {[ (12, 3) ]}) (gs_set_proposals <[3 := demo_p3]> (gv_gov demo_gov0))) demo_gov0.
Definition demo_gctx3 : Ctx := mkCtx 12 1300.
Lemma failed_change_repeats_witness :
  (12, 3) ∉ gs_waiting (gv_gov (NewParamChangeProposalHandler demo_gctx3 demo_p3 demo_g3).2) ∧
  handleWaitingProposals demo_gctx3 demo_g3 = (Ok (), demo_g3).
Proof.
  apply (failed_change_repeats demo_gctx3 3 demo_p3 (ParameterChange demo_bad) demo_bad demo_g3
    (Wrap "ErrSettingParameter" (E "invalid value"))); by vm_compute.
Defined.

