(* ===== verification/Distribution.v ===== *)
(** * Validator rewards ([x/distribution])

    The fees of a block are split at the start of the next one: a part goes to
    the community pool, the rest to validators.  At first all that a validator
    gets is its commission.  A proposal can switch to the distribution on
    chain: then a validator takes its commission rate, and who votes for it
    shares the rest.  The shares are not computed for everybody in every
    block: a validator has periods, each with the sum of rewards per share up
    to its end, and a delegator remembers the period in which it started.

    The module implements the hooks of the staking module, so its store lies
    with that of the coins behind the staking module ([Distributed]); it reads
    the stores of the staking module, which are arguments here. *)
From S2P Require Import Prelude Decimal Denom Coins Bank CoinKeeper DecStr Staking Slashing Gov.
#[local] Open Scope Z_scope.

(** ** Data *)

Record DistrParams := mkDistrParams {
  Dp_CommunityTax : Dec; Dp_WithdrawAddrEnabled : bool;
  Dp_DistributionType : option Z; Dp_WithdrawRewardEnabled : option bool;
  Dp_RewardTruncatePrecision : option Z }.

(** Periods count calls of hooks and heights count blocks, far below their
    64 bits; reference counts are checked to be at most 3. *)
Record HistoricalRewards := mkHistorical { Hr_CumulativeRewardRatio : list DecCoin; Hr_ReferenceCount : Z }.
Record CurrentRewards := mkCurrent { Cr_Rewards : list DecCoin; Cr_Period : Z }.
Record StartingInfo := mkStarting { Sf_PreviousPeriod : Z; Sf_Stake : Dec; Sf_Height : Z }.

(** The stores of the module; keys with a validator and a delegator, or a
    period, are pairs. *)
Record Distr := mkDistr {
  dt_feePool : option (list DecCoin);
  dt_proposer : option string;
  dt_withdrawAddrs : gmap string string;
  dt_commissions : gmap string (list DecCoin);
  dt_initExisted : option bool;
  dt_infos : gmap (string * string) StartingInfo;
  dt_historical : gmap (string * Z) HistoricalRewards;
  dt_current : gmap string CurrentRewards;
  dt_outstanding : gmap string (list DecCoin);
  dt_params : DistrParams }.

Record Distributed (C : Type) := mkDistributed { di_base : C; di_distr : Distr }.
Arguments mkDistributed {C}.
Arguments di_base {C}.
Arguments di_distr {C}.

(** What the keeper gets from the application: the accounts that may not be
    paid, the name of the account of fees, and the height of the first
    block. *)
Class DistrConfig := mkDistrConfig {
  dc_blacklistedAddrs : string → bool; dc_feeCollectorName : string; genesisHeight : Z }.

Definition DistrModuleName : string := "distribution".
Definition DistributionTypeOffChain : Z := 0.
Definition DistributionTypeOnChain : Z := 1.
Definition defaultRate : Z := 1.

Record CommunityPoolSpendProposal := mkPoolSpend {
  Cs_Title : string; Cs_Description : string; Cs_Recipient : string; Cs_Amount : list DecCoin }.
Inductive DistrContent :=
  | CommunityPoolSpend (p : CommunityPoolSpendProposal)
  | ChangeDistributionType (title description : string) (type : Z)
  | WithdrawRewardEnabled (title description : string) (enabled : bool)
  | RewardTruncatePrecision (title description : string) (precision : Z).

Inductive DistrMsg :=
  | MsgSetWithdrawAddress (delegatorAddress withdrawAddress : string)
  | MsgWithdrawValidatorCommission (validatorAddress : string)
  | MsgWithdrawDelegatorReward (delegatorAddress validatorAddress : string)
  | MsgWithdrawDelegatorAllRewards (delegatorAddress : string).

(** ** Checks *)

(** The global height that the checks read is an argument. *)
Definition DistrMsg_ValidateBasic `{StakingConfig} (globalHeight : Z) (msg : DistrMsg) : outcome unit :=
  match msg with
  | MsgSetWithdrawAddress d w =>
      if String.eqb d "" then Err (E "ErrNilDelegatorAddr")
      else if String.eqb w "" then Err (E "ErrNilWithdrawAddr")
      else Ok ()
  | MsgWithdrawValidatorCommission v =>
      if String.eqb v "" then Err (E "ErrNilValidatorAddr") else Ok ()
  | MsgWithdrawDelegatorReward d v =>
      if String.eqb d "" then Err (E "ErrNilDelegatorAddr")
      else if String.eqb v "" then Err (E "ErrNilValidatorAddr")
      else if negb (HigherThanVenus2 globalHeight) then Err (E "ErrCodeNotSupportWithdrawDelegationRewards")
      else Ok ()
  | MsgWithdrawDelegatorAllRewards d =>
      if String.eqb d "" then Err (E "ErrNilDelegatorAddr")
      else if negb (HigherThanVenus2 globalHeight) then Err (E "ErrCodeNotSupportWithdrawDelegationRewards")
      else Ok ()
  end.

Definition DistrContent_ValidateBasic `{StakingConfig} (globalHeight : Z) (c : DistrContent) : outcome unit :=
  match c with
  | CommunityPoolSpend p =>
      _ ← ValidateAbstract (Cs_Title p) (Cs_Description p);
      if negb (DecCoins_IsValid (Cs_Amount p)) then Err (E "ErrInvalidProposalAmount")
      else if String.eqb (Cs_Recipient p) "" then Err (E "ErrEmptyProposalRecipient")
      else Ok ()
  | ChangeDistributionType t d type =>
      _ ← ValidateAbstract t d;
      if negb (type =? DistributionTypeOffChain) && negb (type =? DistributionTypeOnChain)
      then Err (E "ErrInvalidDistributionType")
      else if negb (HigherThanVenus2 globalHeight) then Err (E "ErrCodeNotSupportDistributionProposal")
      else Ok ()
  | WithdrawRewardEnabled t d _ =>
      _ ← ValidateAbstract t d;
      if negb (HigherThanVenus2 globalHeight) then Err (E "ErrCodeNotSupportWithdrawRewardEnabledProposal")
      else Ok ()
  | RewardTruncatePrecision t d precision =>
      _ ← ValidateAbstract t d;
      if (precision <? 0) || (precision >? Precision) then Err (E "ErrCodeRewardTruncatePrecision")
      else if negb (HigherThanVenus2 globalHeight) then Err (E "ErrCodeNotSupportRewardTruncateProposal")
      else Ok ()
  end.

Definition DistrParams_ValidateBasic (p : DistrParams) : outcome unit :=
  if Dec_IsNegative (Dp_CommunityTax p) || Dec_GT (Dp_CommunityTax p) OneDec
  then Err (E "community tax should non-negative and less than one") else Ok ().
Definition FeePool_ValidateGenesis (pool : list DecCoin) : outcome unit :=
  if DecCoins_IsAnyNegative pool then Err (E "negative CommunityPool in distribution fee pool") else Ok ().

(** ** The store *)

(** Decoding what is not there panics. *)
Definition must {S A} (o : option A) : M S A :=
  match o with Some a => mret a | None => panic "cannot decode empty bytes" end.
(** A method of a nil interface value. *)
Definition deref {S A} (o : option A) : M S A :=
  match o with Some a => mret a | None => panic "nil pointer dereference" end.

Definition dt_set_feePool (p : list DecCoin) (s : Distr) : Distr :=
  mkDistr (Some p) (dt_proposer s) (dt_withdrawAddrs s) (dt_commissions s) (dt_initExisted s)
    (dt_infos s) (dt_historical s) (dt_current s) (dt_outstanding s) (dt_params s).
Definition dt_set_proposer (a : string) (s : Distr) : Distr :=
  mkDistr (dt_feePool s) (Some a) (dt_withdrawAddrs s) (dt_commissions s) (dt_initExisted s)
    (dt_infos s) (dt_historical s) (dt_current s) (dt_outstanding s) (dt_params s).
Definition dt_set_withdrawAddrs (f : gmap string string → gmap string string) (s : Distr) : Distr :=
  mkDistr (dt_feePool s) (dt_proposer s) (f (dt_withdrawAddrs s)) (dt_commissions s) (dt_initExisted s)
    (dt_infos s) (dt_historical s) (dt_current s) (dt_outstanding s) (dt_params s).
Definition dt_set_commissions (f : gmap string (list DecCoin) → gmap string (list DecCoin)) (s : Distr) : Distr :=
  mkDistr (dt_feePool s) (dt_proposer s) (dt_withdrawAddrs s) (f (dt_commissions s)) (dt_initExisted s)
    (dt_infos s) (dt_historical s) (dt_current s) (dt_outstanding s) (dt_params s).
Definition dt_set_initExisted (b : bool) (s : Distr) : Distr :=
  mkDistr (dt_feePool s) (dt_proposer s) (dt_withdrawAddrs s) (dt_commissions s) (Some b)
    (dt_infos s) (dt_historical s) (dt_current s) (dt_outstanding s) (dt_params s).
Definition dt_set_infos (f : gmap (string * string) StartingInfo → gmap (string * string) StartingInfo)
    (s : Distr) : Distr :=
  mkDistr (dt_feePool s) (dt_proposer s) (dt_withdrawAddrs s) (dt_commissions s) (dt_initExisted s)
    (f (dt_infos s)) (dt_historical s) (dt_current s) (dt_outstanding s) (dt_params s).
Definition dt_set_historical (f : gmap (string * Z) HistoricalRewards → gmap (string * Z) HistoricalRewards)
    (s : Distr) : Distr :=
  mkDistr (dt_feePool s) (dt_proposer s) (dt_withdrawAddrs s) (dt_commissions s) (dt_initExisted s)
    (dt_infos s) (f (dt_historical s)) (dt_current s) (dt_outstanding s) (dt_params s).
Definition dt_set_current (f : gmap string CurrentRewards → gmap string CurrentRewards) (s : Distr) : Distr :=
  mkDistr (dt_feePool s) (dt_proposer s) (dt_withdrawAddrs s) (dt_commissions s) (dt_initExisted s)
    (dt_infos s) (dt_historical s) (f (dt_current s)) (dt_outstanding s) (dt_params s).
Definition dt_set_outstanding (f : gmap string (list DecCoin) → gmap string (list DecCoin)) (s : Distr) : Distr :=
  mkDistr (dt_feePool s) (dt_proposer s) (dt_withdrawAddrs s) (dt_commissions s) (dt_initExisted s)
    (dt_infos s) (dt_historical s) (dt_current s) (f (dt_outstanding s)) (dt_params s).
Definition dt_set_params (p : DistrParams) (s : Distr) : Distr :=
  mkDistr (dt_feePool s) (dt_proposer s) (dt_withdrawAddrs s) (dt_commissions s) (dt_initExisted s)
    (dt_infos s) (dt_historical s) (dt_current s) (dt_outstanding s) p.

Definition GetDelegatorWithdrawAddr (delAddr : string) : M Distr string :=
  gets (λ s, default delAddr (dt_withdrawAddrs s !! delAddr)).
Definition SetDelegatorWithdrawAddr (delAddr withdrawAddr : string) : M Distr unit :=
  modify (dt_set_withdrawAddrs <[delAddr := withdrawAddr]>).
Definition GetFeePool : M Distr (list DecCoin) :=
  o ← gets dt_feePool;
  match o with Some p => mret p | None => panic "Stored fee pool should not have been nil" end.
Definition SetFeePool (p : list DecCoin) : M Distr unit := modify (dt_set_feePool p).
Definition GetPreviousProposerConsAddr : M Distr string :=
  o ← gets dt_proposer;
  match o with Some p => mret p | None => panic "Previous proposer not set" end.
Definition SetPreviousProposerConsAddr (consAddr : string) : M Distr unit := modify (dt_set_proposer consAddr).
Definition GetValidatorAccumulatedCommission (val : string) : M Distr (list DecCoin) :=
  gets (λ s, default [] (dt_commissions s !! val)).
Definition SetValidatorAccumulatedCommission (val : string) (c : list DecCoin) : M Distr unit :=
  modify (dt_set_commissions <[val := if DecCoins_IsZero c then [] else c]>).
Definition deleteValidatorAccumulatedCommission (val : string) : M Distr unit :=
  modify (dt_set_commissions (delete val)).

Definition CheckInitExistedValidatorFlag (s : Distr) : bool := default false (dt_initExisted s).
Definition SetInitExistedValidatorFlag (init : bool) : M Distr unit := modify (dt_set_initExisted init).
Definition GetDelegatorStartingInfo (val del : string) : M Distr StartingInfo :=
  o ← gets (λ s, dt_infos s !! (val, del)); must o.
Definition SetDelegatorStartingInfo (val del : string) (i : StartingInfo) : M Distr unit :=
  modify (dt_set_infos <[(val, del) := i]>).
Definition HasDelegatorStartingInfo (val del : string) (s : Distr) : bool :=
  bool_decide (is_Some (dt_infos s !! (val, del))).
Definition DeleteDelegatorStartingInfo (val del : string) : M Distr unit :=
  modify (dt_set_infos (delete (val, del))).
Definition GetValidatorHistoricalRewards (val : string) (period : Z) : M Distr HistoricalRewards :=
  o ← gets (λ s, dt_historical s !! (val, period)); must o.
Definition SetValidatorHistoricalRewards (val : string) (period : Z) (h : HistoricalRewards) : M Distr unit :=
  modify (dt_set_historical <[(val, period) := h]>).
Definition DeleteValidatorHistoricalReward (val : string) (period : Z) : M Distr unit :=
  modify (dt_set_historical (delete (val, period))).
Definition DeleteValidatorHistoricalRewards (val : string) : M Distr unit :=
  modify (dt_set_historical (base.filter (λ x, x.1.1 ≠ val))).
Definition GetValidatorCurrentRewards (val : string) : M Distr CurrentRewards :=
  o ← gets (λ s, dt_current s !! val); must o.
Definition SetValidatorCurrentRewards (val : string) (c : CurrentRewards) : M Distr unit :=
  modify (dt_set_current <[val := c]>).
Definition DeleteValidatorCurrentRewards (val : string) : M Distr unit := modify (dt_set_current (delete val)).
Definition GetValidatorOutstandingRewards (val : string) : M Distr (list DecCoin) :=
  o ← gets (λ s, dt_outstanding s !! val); must o.
Definition SetValidatorOutstandingRewards (val : string) (c : list DecCoin) : M Distr unit :=
  modify (dt_set_outstanding <[val := c]>).
Definition DeleteValidatorOutstandingRewards (val : string) : M Distr unit :=
  modify (dt_set_outstanding (delete val)).
Definition HasValidatorOutstandingRewards (val : string) (s : Distr) : bool :=
  bool_decide (is_Some (dt_outstanding s !! val)).

(** Parameters that were added later have a default. *)
Definition GetCommunityTax (s : Distr) : Dec := Dp_CommunityTax (dt_params s).
Definition GetWithdrawAddrEnabled (s : Distr) : bool := Dp_WithdrawAddrEnabled (dt_params s).
Definition GetDistributionType (s : Distr) : Z :=
  default DistributionTypeOffChain (Dp_DistributionType (dt_params s)).
Definition GetWithdrawRewardEnabled (s : Distr) : bool := default true (Dp_WithdrawRewardEnabled (dt_params s)).
Definition GetRewardTruncatePrecision (s : Distr) : Z := default 0 (Dp_RewardTruncatePrecision (dt_params s)).
Definition SetDistributionType (type : Z) : M Distr unit :=
  modify (λ s, dt_set_params (mkDistrParams (Dp_CommunityTax (dt_params s)) (Dp_WithdrawAddrEnabled (dt_params s))
    (Some type) (Dp_WithdrawRewardEnabled (dt_params s)) (Dp_RewardTruncatePrecision (dt_params s))) s).
Definition SetWithdrawRewardEnabled (b : bool) : M Distr unit :=
  modify (λ s, dt_set_params (mkDistrParams (Dp_CommunityTax (dt_params s)) (Dp_WithdrawAddrEnabled (dt_params s))
    (Dp_DistributionType (dt_params s)) (Some b) (Dp_RewardTruncatePrecision (dt_params s))) s).
Definition SetRewardTruncatePrecision (p : Z) : M Distr unit :=
  modify (λ s, dt_set_params (mkDistrParams (Dp_CommunityTax (dt_params s)) (Dp_WithdrawAddrEnabled (dt_params s))
    (Dp_DistributionType (dt_params s)) (Dp_WithdrawRewardEnabled (dt_params s)) (Some p)) s).
Definition SetCommunityTax (percent : Dec) : M Distr unit :=
  modify (λ s, dt_set_params (mkDistrParams percent (Dp_WithdrawAddrEnabled (dt_params s))
    (Dp_DistributionType (dt_params s)) (Dp_WithdrawRewardEnabled (dt_params s))
    (Dp_RewardTruncatePrecision (dt_params s))) s).
Definition SetWithdrawAddrEnabled (enabled : bool) : M Distr unit :=
  modify (λ s, dt_set_params (mkDistrParams (Dp_CommunityTax (dt_params s)) enabled
    (Dp_DistributionType (dt_params s)) (Dp_WithdrawRewardEnabled (dt_params s))
    (Dp_RewardTruncatePrecision (dt_params s))) s).
(** All parameters at once, in the order of their keys: each is checked
    before it is written. *)
Definition distr_SetParams (tax : Dec) (addrEnabled : bool) (type : Z) (rewardEnabled : bool) (precision : Z)
    : M Distr unit :=
  _ ← panic_if (Dec_IsNegative tax || Dec_GT tax OneDec) "value from ParamSetPair is invalid";
  _ ← SetCommunityTax tax;
  _ ← SetWithdrawAddrEnabled addrEnabled;
  _ ← panic_if (negb (type =? DistributionTypeOnChain) && negb (type =? DistributionTypeOffChain))
        "value from ParamSetPair is invalid";
  _ ← SetDistributionType type;
  _ ← SetWithdrawRewardEnabled rewardEnabled;
  _ ← panic_if ((precision <? 0) || (precision >? Precision)) "value from ParamSetPair is invalid";
  SetRewardTruncatePrecision precision.

(** ** Validators and periods *)

Section Periods.
Context `{StakingConfig}.

Definition CheckDistributionProposalValid (ctx : Ctx) (s : Distr) : bool :=
  HigherThanVenus2 (BlockHeight ctx) && CheckInitExistedValidatorFlag s.

Definition initializeValidatorDistrProposal (v : Validator) : M Distr unit :=
  _ ← SetValidatorHistoricalRewards (Va_OperatorAddress v) 0 (mkHistorical [] 1);
  _ ← SetValidatorCurrentRewards (Va_OperatorAddress v) (mkCurrent [] 1);
  _ ← SetValidatorAccumulatedCommission (Va_OperatorAddress v) [];
  SetValidatorOutstandingRewards (Va_OperatorAddress v) [].
Definition initializeValidator (ctx : Ctx) (v : Validator) : M Distr unit :=
  valid ← gets (CheckDistributionProposalValid ctx);
  if (valid : bool) then initializeValidatorDistrProposal v
  else SetValidatorAccumulatedCommission (Va_OperatorAddress v) [].
Definition initExistedValidatorForDistrProposal (v : Validator) : M Distr unit :=
  has ← gets (HasValidatorOutstandingRewards (Va_OperatorAddress v));
  if (has : bool) then mret ()
  else
    _ ← SetValidatorHistoricalRewards (Va_OperatorAddress v) 0 (mkHistorical [] 2);
    _ ← SetValidatorCurrentRewards (Va_OperatorAddress v) (mkCurrent [] 1);
    commission ← GetValidatorAccumulatedCommission (Va_OperatorAddress v);
    SetValidatorOutstandingRewards (Va_OperatorAddress v) commission.

Definition incrementReferenceCount (valAddr : string) (period : Z) : M Distr unit :=
  h ← GetValidatorHistoricalRewards valAddr period;
  _ ← panic_if (Hr_ReferenceCount h >? 2) "reference count should never exceed 2";
  SetValidatorHistoricalRewards valAddr period
    (mkHistorical (Hr_CumulativeRewardRatio h) (Hr_ReferenceCount h + 1)).
Definition decrementReferenceCount (valAddr : string) (period : Z) : M Distr unit :=
  h ← GetValidatorHistoricalRewards valAddr period;
  _ ← panic_if (Hr_ReferenceCount h =? 0) "cannot set negative reference count";
  let count := Hr_ReferenceCount h - 1 in
  if count =? 0 then DeleteValidatorHistoricalReward valAddr period
  else SetValidatorHistoricalRewards valAddr period (mkHistorical (Hr_CumulativeRewardRatio h) count).

Definition incrementValidatorPeriod (ctx : Ctx) (v : Validator) : M Distr Z :=
  valid ← gets (CheckDistributionProposalValid ctx);
  if negb valid then mret 0 else
  let operator := Va_OperatorAddress v in
  rewards ← GetValidatorCurrentRewards operator;
  current ←
    (if Dec_IsZero (Va_DelegatorShares v) then
       communityPool ← GetFeePool;
       outstanding ← GetValidatorOutstandingRewards operator;
       communityPool ← lift (DecCoins_Add communityPool (Cr_Rewards rewards));
       outstanding ← lift (DecCoins_Sub outstanding (Cr_Rewards rewards));
       _ ← SetFeePool communityPool;
       _ ← SetValidatorOutstandingRewards operator outstanding;
       mret []
     else lift (DecCoins_QuoDecTruncate (Cr_Rewards rewards) (Va_DelegatorShares v)));
  historical ← GetValidatorHistoricalRewards operator (Cr_Period rewards - 1);
  _ ← decrementReferenceCount operator (Cr_Period rewards - 1);
  ratio ← lift (DecCoins_Add (Hr_CumulativeRewardRatio historical) current);
  _ ← SetValidatorHistoricalRewards operator (Cr_Period rewards) (mkHistorical ratio 1);
  _ ← SetValidatorCurrentRewards operator (mkCurrent [] (Cr_Period rewards + 1));
  mret (Cr_Period rewards).

(** ** Delegations *)

Definition initializeDelegation (ctx : Ctx) (t : Stakes) (val del : string) : M Distr unit :=
  valid ← gets (CheckDistributionProposalValid ctx);
  if negb valid then mret () else
  c ← GetValidatorCurrentRewards val;
  let previousPeriod := Cr_Period c - 1 in
  _ ← incrementReferenceCount val previousPeriod;
  delegation ← deref (st_delegators t !! del);
  SetDelegatorStartingInfo val del (mkStarting previousPeriod (De_Shares delegation) (BlockHeight ctx)).

Definition initExistedDelegationStartInfo (ctx : Ctx) (v : Validator) (del : Delegator) : M Distr unit :=
  valid ← gets (CheckDistributionProposalValid ctx);
  if negb valid then mret () else
  _ ← incrementReferenceCount (Va_OperatorAddress v) 0;
  SetDelegatorStartingInfo (Va_OperatorAddress v) (De_DelegatorAddress del) (mkStarting 0 (De_Shares del) 0).

Definition calculateDelegationRewardsBetween (v : Validator) (startingPeriod endingPeriod : Z) (stake : Dec)
    : M Distr (list DecCoin) :=
  _ ← panic_if (startingPeriod >? endingPeriod) "startingPeriod cannot be greater than endingPeriod";
  _ ← panic_if (Dec_IsNegative stake) "stake should not be negative";
  starting ← GetValidatorHistoricalRewards (Va_OperatorAddress v) startingPeriod;
  ending ← GetValidatorHistoricalRewards (Va_OperatorAddress v) endingPeriod;
  difference ← lift (DecCoins_Sub (Hr_CumulativeRewardRatio ending) (Hr_CumulativeRewardRatio starting));
  _ ← panic_if (DecCoins_IsAnyNegative difference) "negative rewards should not be possible";
  lift (DecCoins_MulDecTruncate difference stake).
Definition calculateDelegationRewards (ctx : Ctx) (t : Stakes) (v : Validator) (delAddr : string) (endingPeriod : Z)
    : M Distr (list DecCoin) :=
  del ← deref (st_delegators t !! delAddr);
  startingInfo ← GetDelegatorStartingInfo (Va_OperatorAddress v) (De_DelegatorAddress del);
  if Sf_Height startingInfo =? BlockHeight ctx then mret []
  else
    let stake := Sf_Stake startingInfo in
    _ ← panic_if (Dec_GT stake (De_Shares del)) "calculated final stake for delegator greater than current stake";
    rewards ← calculateDelegationRewardsBetween v (Sf_PreviousPeriod startingInfo) endingPeriod stake;
    lift (DecCoins_Add [] rewards).

(** The start of a withdrawal, and of a query: who has voted since before the
    switch gets a starting point, and the period ends. *)
Definition ensureStartingInfo (ctx : Ctx) (t : Stakes) (v : Validator) (delAddr : string) : M Distr unit :=
  has ← gets (HasDelegatorStartingInfo (Va_OperatorAddress v) delAddr);
  if (has : bool) then mret ()
  else
    del ← deref (st_delegators t !! delAddr);
    _ ← guard_not (Dec_IsZero (De_Shares del)) "ErrCodeZeroDelegationShares";
    initExistedDelegationStartInfo ctx v del.
End Periods.

(** ** The keeper *)

Section Keeper.
Context {C : Type} `{CoinKeeper C} `{StakingConfig} `{DistrConfig}.
#[local] Abbreviation MD := (M (Distributed C)).

Definition di_set_base (c : C) (k : Distributed C) : Distributed C := mkDistributed c (di_distr k).
Definition di_set_distr (s : Distr) (k : Distributed C) : Distributed C := mkDistributed (di_base k) s.
Definition on_coins {A} (m : M C A) : MD A := zoom di_base di_set_base m.
Definition on_distr {A} (m : M Distr A) : MD A := zoom di_distr di_set_distr m.

(** The coins of a module account. *)
Definition moduleCoins (name : string) : MD (list DecCoin) :=
  match ck_modaddr name with Some a => on_coins (ck_GetCoins a) | None => panic "nil pointer dereference" end.
Definition sendFromModule (addr : string) (coins : list DecCoin) : MD unit :=
  on_coins (ck_SendCoinsFromModuleToAccount DistrModuleName addr coins).

(** *** Allocation *)

Definition valPortion : outcome Dec := NewDecWithPrec 25 2.
Definition votePortion : outcome Dec := NewDecWithPrec 75 2.

Definition allocateTokensToValidatorForDistributionProposal (v : Validator) (tokens : list DecCoin) : M Distr unit :=
  type ← gets GetDistributionType;
  rate ← (if type =? DistributionTypeOnChain then mret (Co_Rate (Va_Commission v))
          else lift (NewDecFromInt defaultRate));
  commission ← lift (DecCoins_MulDec tokens rate);
  shared ← lift (DecCoins_Sub tokens commission);
  currentCommission ← GetValidatorAccumulatedCommission (Va_OperatorAddress v);
  currentCommission ← lift (DecCoins_Add currentCommission commission);
  _ ← SetValidatorAccumulatedCommission (Va_OperatorAddress v) currentCommission;
  currentRewards ← GetValidatorCurrentRewards (Va_OperatorAddress v);
  rewards ← lift (DecCoins_Add (Cr_Rewards currentRewards) shared);
  _ ← SetValidatorCurrentRewards (Va_OperatorAddress v) (mkCurrent rewards (Cr_Period currentRewards));
  outstanding ← GetValidatorOutstandingRewards (Va_OperatorAddress v);
  outstanding ← lift (DecCoins_Add outstanding tokens);
  SetValidatorOutstandingRewards (Va_OperatorAddress v) outstanding.
Definition AllocateTokensToValidator (ctx : Ctx) (v : Validator) (tokens : list DecCoin) : M Distr unit :=
  valid ← gets (CheckDistributionProposalValid ctx);
  if (valid : bool) then allocateTokensToValidatorForDistributionProposal v tokens
  else
    commission ← GetValidatorAccumulatedCommission (Va_OperatorAddress v);
    commission ← lift (DecCoins_Add commission tokens);
    SetValidatorAccumulatedCommission (Va_OperatorAddress v) commission.

Definition validatorByConsAddr (vs : ValSet) (consAddr : string) : option Validator :=
  opAddr ← vs_byConsAddr vs !! consAddr; vs_validators vs !! opAddr.
Definition iterateValidators (vs : ValSet) : list Validator := snd <$> store_iterate (vs_validators vs).
Definition unjailed (l : list Validator) : list Validator := List.filter (λ v, negb (Va_Jailed v)) l.

Definition allocateByEqual (ctx : Ctx) (vs : ValSet) (rewards : list DecCoin) (previousVotes : list Vote)
    : M Distr (list DecCoin) :=
  let validators := unjailed (omap (λ vote, validatorByConsAddr vs (Vt_Address vote)) previousVotes) in
  one ← lift (NewDec 1);
  n ← lift (NewDec (Z.of_nat (length validators)));
  powerFraction ← lift (Dec_QuoTruncate one n);
  reward ← lift (DecCoins_MulDecTruncate rewards powerFraction);
  for_acc (λ remaining v,
    _ ← AllocateTokensToValidator ctx v reward;
    lift (DecCoins_Sub remaining reward)) rewards validators.
Definition allocateByShares (ctx : Ctx) (vs : ValSet) (rewards : list DecCoin) : M Distr (list DecCoin) :=
  let validators := unjailed (iterateValidators vs) in
  totalVotes ← lift (sumDecs 0 (Va_DelegatorShares <$> validators));
  for_acc (λ remaining v,
    powerFraction ← lift (Dec_QuoTruncate (Va_DelegatorShares v) totalVotes);
    reward ← lift (DecCoins_MulDecTruncate rewards powerFraction);
    _ ← AllocateTokensToValidator ctx v reward;
    lift (DecCoins_Sub remaining reward)) rewards validators.

(** What is split among the validators, and what goes to the community. *)
Definition distributeFees (ctx : Ctx) (vs : ValSet) (feesCollected : list DecCoin) (previousVotes : list Vote)
    : M Distr unit :=
  communityPool ← GetFeePool;
  tax ← gets GetCommunityTax;
  rest ← lift (Dec_Sub OneDec tax);
  feesToVals ← lift (DecCoins_MulDecTruncate feesCollected rest);
  valPortion ← lift valPortion;
  votePortion ← lift votePortion;
  feeByEqual ← lift (DecCoins_MulDecTruncate feesToVals valPortion);
  feeByVote ← lift (DecCoins_MulDecTruncate feesToVals votePortion);
  toVals ← lift (DecCoins_Add feeByEqual feeByVote);
  feesToCommunity ← lift (DecCoins_Sub feesCollected toVals);
  remainByEqual ← allocateByEqual ctx vs feeByEqual previousVotes;
  remainByShare ← allocateByShares ctx vs feeByVote;
  remain ← lift (DecCoins_Add remainByEqual remainByShare);
  feesToCommunity ← lift (DecCoins_Add feesToCommunity remain);
  if DecCoins_IsZero feesToCommunity then mret ()
  else
    communityPool ← lift (DecCoins_Add communityPool feesToCommunity);
    SetFeePool communityPool.
Definition AllocateTokens (ctx : Ctx) (vs : ValSet) (totalPreviousPower : Z) (previousProposer : string)
    (previousVotes : list Vote) : MD unit :=
  feesCollected ← moduleCoins dc_feeCollectorName;
  if DecCoins_Empty feesCollected then mret () else
  _ ← orPanic (on_coins (ck_SendCoinsFromModuleToModule dc_feeCollectorName DistrModuleName feesCollected));
  if totalPreviousPower =? 0 then
    on_distr (communityPool ← GetFeePool;
              communityPool ← lift (DecCoins_Add communityPool feesCollected);
              SetFeePool communityPool)
  else on_distr (distributeFees ctx vs feesCollected previousVotes).

Definition distr_BeginBlocker (ctx : Ctx) (vs : ValSet) (votes : list Vote) (proposerAddress : string) : MD unit :=
  let previousTotalPower := int64 (foldr Z.add 0 (Vt_Power <$> votes)) in
  _ ← (if BlockHeight ctx >? genesisHeight + 1 then
         previousProposer ← on_distr GetPreviousProposerConsAddr;
         AllocateTokens ctx vs previousTotalPower previousProposer votes
       else mret ());
  on_distr (SetPreviousProposerConsAddr proposerAddress).

(** *** Withdrawals *)

Definition withdrawDelegationRewards (ctx : Ctx) (t : Stakes) (v : Validator) (delAddress : string)
    : MD (list DecCoin) :=
  valid ← gets (λ k, CheckDistributionProposalValid ctx (di_distr k));
  _ ← guard_not (negb valid) "ErrCodeNotSupportWithdrawDelegationRewards";
  let operator := Va_OperatorAddress v in
  _ ← on_distr (ensureStartingInfo ctx t v delAddress);
  endingPeriod ← on_distr (incrementValidatorPeriod ctx v);
  rewardsRaw ← on_distr (calculateDelegationRewards ctx t v delAddress endingPeriod);
  outstanding ← on_distr (GetValidatorOutstandingRewards operator);
  rewards ← lift (DecCoins_Intersect rewardsRaw outstanding);
  _ ← lift (DecCoins_IsEqual rewards rewardsRaw);
  precision ← gets (λ k, GetRewardTruncatePrecision (di_distr k));
  '(coins, remainder) ← lift (DecCoins_TruncateWithPrec rewards precision);
  _ ← (if DecCoins_IsZero coins then mret ()
       else
         withdrawAddr ← on_distr (GetDelegatorWithdrawAddr delAddress);
         sendFromModule withdrawAddr coins);
  left ← lift (DecCoins_Sub outstanding rewards);
  _ ← on_distr (SetValidatorOutstandingRewards operator left);
  communityPool ← on_distr GetFeePool;
  communityPool ← lift (DecCoins_Add communityPool remainder);
  _ ← on_distr (SetFeePool communityPool);
  startingInfo ← on_distr (GetDelegatorStartingInfo operator delAddress);
  _ ← on_distr (decrementReferenceCount operator (Sf_PreviousPeriod startingInfo));
  _ ← on_distr (DeleteDelegatorStartingInfo operator delAddress);
  mret coins.

Definition WithdrawDelegationRewards (ctx : Ctx) (t : Stakes) (vs : ValSet) (delAddr valAddr : string)
    : MD (list DecCoin) :=
  match vs_validators vs !! valAddr with
  | None => fail "ErrCodeEmptyValidatorDistInfo"
  | Some v =>
      match st_delegators t !! delAddr with
      | None => fail "ErrCodeEmptyDelegationDistInfo"
      | Some del =>
          _ ← guard_not (negb (existsb (String.eqb valAddr) (De_ValidatorAddresses del)))
                "ErrCodeEmptyDelegationVoteValidator";
          rewards ← withdrawDelegationRewards ctx t v delAddr;
          _ ← on_distr (initializeDelegation ctx t valAddr delAddr);
          mret rewards
      end
  end.
Definition WithdrawDelegationAllRewards (ctx : Ctx) (t : Stakes) (vs : ValSet) (delAddr : string) : MD unit :=
  match st_delegators t !! delAddr with
  | None => fail "ErrCodeEmptyDelegationDistInfo"
  | Some del =>
      _ ← guard_not (length (De_ValidatorAddresses del) =? 0)%nat "ErrCodeEmptyDelegationVoteValidator";
      for_each (λ valAddr,
        match vs_validators vs !! valAddr with
        | None => fail "ErrCodeEmptyValidatorDistInfo"
        | Some v =>
            _ ← withdrawDelegationRewards ctx t v delAddr;
            on_distr (initializeDelegation ctx t valAddr delAddr)
        end) (De_ValidatorAddresses del)
  end.

Definition SetWithdrawAddr (delegatorAddr withdrawAddr : string) : M Distr unit :=
  _ ← guard_not (dc_blacklistedAddrs withdrawAddr) "ErrWithdrawAddrInblacklist";
  enabled ← gets GetWithdrawAddrEnabled;
  _ ← guard_not (negb enabled) "ErrSetWithdrawAddrDisabled";
  SetDelegatorWithdrawAddr delegatorAddr withdrawAddr.

(** [NewDecCoinsFromCoins] of coins that [TruncateDecimal] returned: none of
    them is zero, so no element stays empty (see [Coins.v]). *)
Definition WithdrawValidatorCommission (ctx : Ctx) (valAddr : string) : MD (list DecCoin) :=
  accumCommission ← on_distr (GetValidatorAccumulatedCommission valAddr);
  _ ← guard_not (DecCoins_IsZero accumCommission) "ErrNoValidatorCommission";
  '(commission, remainder) ← lift (DecCoins_TruncateDecimal accumCommission);
  _ ← on_distr (SetValidatorAccumulatedCommission valAddr remainder);
  valid ← gets (λ k, CheckDistributionProposalValid ctx (di_distr k));
  _ ← (if (valid : bool) then
         outstanding ← on_distr (GetValidatorOutstandingRewards valAddr);
         decCoins ← lift (NewDecCoinsFromCoins commission);
         left ← lift (DecCoins_Sub outstanding (omap id decCoins));
         on_distr (SetValidatorOutstandingRewards valAddr left)
       else mret ());
  _ ← (if DecCoins_IsZero commission then mret ()
       else
         withdrawAddr ← on_distr (GetDelegatorWithdrawAddr valAddr);
         replaceErr "ErrSendCoinsFromModuleToAccountFailed" (sendFromModule withdrawAddr commission));
  mret commission.

(** *** Proposals *)

Definition distributeFromFeePool (amount : list DecCoin) (receiveAddr : string) : MD unit :=
  communityPool ← on_distr GetFeePool;
  '(newPool, negative) ← lift (DecCoins_SafeSub communityPool amount);
  _ ← guard_not negative "ErrBadDistribution";
  _ ← sendFromModule receiveAddr amount;
  on_distr (SetFeePool newPool).
Definition HandleCommunityPoolSpendProposal (p : CommunityPoolSpendProposal) : MD unit :=
  _ ← guard_not (dc_blacklistedAddrs (Cs_Recipient p)) "ErrUnauthorized";
  distributeFromFeePool (Cs_Amount p) (Cs_Recipient p).
Definition HandleChangeDistributionTypeProposal (vs : ValSet) (type : Z) : M Distr unit :=
  current ← gets GetDistributionType;
  if current =? type then mret () else
  init ← gets CheckInitExistedValidatorFlag;
  _ ← (if (type =? DistributionTypeOnChain) && negb init then
         _ ← SetInitExistedValidatorFlag true;
         for_each initExistedValidatorForDistrProposal (iterateValidators vs)
       else mret ());
  SetDistributionType type.
Definition DistributionProposalHandler (ctx : Ctx) (vs : ValSet) (c : DistrContent) : MD unit :=
  let later (m : M Distr unit) :=
    if HigherThanVenus2 (BlockHeight ctx) then on_distr m
    else fail "ErrUnknownDistributionCommunityPoolProposaType" in
  match c with
  | CommunityPoolSpend p => HandleCommunityPoolSpendProposal p
  | ChangeDistributionType _ _ type => later (HandleChangeDistributionTypeProposal vs type)
  | WithdrawRewardEnabled _ _ enabled => later (SetWithdrawRewardEnabled enabled)
  | RewardTruncatePrecision _ _ precision => later (SetRewardTruncatePrecision precision)
  end.

(** *** Messages *)

Definition distr_NewHandler (ctx : Ctx) (t : Stakes) (vs : ValSet) (msg : DistrMsg) : MD unit :=
  enabled ← gets (λ k, GetWithdrawRewardEnabled (di_distr k));
  _ ← guard_not (HigherThanVenus2 (BlockHeight ctx) && negb enabled) "ErrCodeDisabledWithdrawRewards";
  valid ← gets (λ k, CheckDistributionProposalValid ctx (di_distr k));
  match msg with
  | MsgSetWithdrawAddress d w => on_distr (SetWithdrawAddr d w)
  | MsgWithdrawValidatorCommission v => _ ← WithdrawValidatorCommission ctx v; mret ()
  | MsgWithdrawDelegatorReward d v =>
      if (valid : bool) then _ ← WithdrawDelegationRewards ctx t vs d v; mret ()
      else fail "ErrUnknownDistributionMsgType"
  | MsgWithdrawDelegatorAllRewards d =>
      if (valid : bool) then WithdrawDelegationAllRewards ctx t vs d
      else fail "ErrUnknownDistributionMsgType"
  end.

(** *** Hooks of the staking module *)

(** The commission of a validator is paid and its fraction goes to the
    community pool. *)
Definition forceWithdrawCommission (valAddr : string) (commission : list DecCoin) : MD unit :=
  '(coins, remainder) ← lift (DecCoins_TruncateDecimal commission);
  _ ← (if DecCoins_IsZero remainder then mret ()
       else on_distr (communityPool ← GetFeePool;
                      communityPool ← lift (DecCoins_Add communityPool remainder);
                      SetFeePool communityPool));
  if DecCoins_IsZero coins then mret ()
  else
    withdrawAddr ← on_distr (GetDelegatorWithdrawAddr valAddr);
    orPanic (sendFromModule withdrawAddr coins).
Definition afterValidatorRemovedForDistributionProposal (valAddr : string) : MD unit :=
  outstanding ← on_distr (GetValidatorOutstandingRewards valAddr);
  commission ← on_distr (GetValidatorAccumulatedCommission valAddr);
  outstanding ←
    (if DecCoins_IsZero commission then mret outstanding
     else
       outstanding ← lift (DecCoins_Sub outstanding commission);
       _ ← forceWithdrawCommission valAddr commission;
       mret outstanding);
  on_distr (
    communityPool ← GetFeePool;
    communityPool ← lift (DecCoins_Add communityPool outstanding);
    _ ← SetFeePool communityPool;
    _ ← DeleteValidatorOutstandingRewards valAddr;
    _ ← deleteValidatorAccumulatedCommission valAddr;
    _ ← DeleteValidatorHistoricalRewards valAddr;
    DeleteValidatorCurrentRewards valAddr).
Definition distr_AfterValidatorRemoved (ctx : Ctx) (valAddr : string) : MD unit :=
  valid ← gets (λ k, CheckDistributionProposalValid ctx (di_distr k));
  if (valid : bool) then afterValidatorRemovedForDistributionProposal valAddr
  else
    commission ← on_distr (GetValidatorAccumulatedCommission valAddr);
    _ ← (if DecCoins_IsZero commission then mret () else forceWithdrawCommission valAddr commission);
    on_distr (deleteValidatorAccumulatedCommission valAddr).

Definition distr_hook (ctx : Ctx) (t : Stakes) (vs : ValSet) (h : hook) : MD unit :=
  match h with
  | AfterValidatorCreated valAddr =>
      v ← deref (vs_validators vs !! valAddr); on_distr (initializeValidator ctx v)
  | AfterValidatorRemoved _ valAddr => distr_AfterValidatorRemoved ctx valAddr
  | BeforeDelegationCreated _ valAddrs =>
      valid ← gets (λ k, CheckDistributionProposalValid ctx (di_distr k));
      if negb valid then mret ()
      else for_each (λ valAddr,
             v ← deref (vs_validators vs !! valAddr);
             _ ← on_distr (incrementValidatorPeriod ctx v); mret ()) valAddrs
  | BeforeDelegationSharesModified delAddr valAddrs =>
      valid ← gets (λ k, CheckDistributionProposalValid ctx (di_distr k));
      if negb valid then mret ()
      else for_each (λ valAddr,
             v ← deref (vs_validators vs !! valAddr);
             _ ← orPanic (withdrawDelegationRewards ctx t v delAddr); mret ()) valAddrs
  | AfterDelegationModified delAddr valAddrs =>
      valid ← gets (λ k, CheckDistributionProposalValid ctx (di_distr k));
      if negb valid then mret ()
      else for_each (λ valAddr, on_distr (initializeDelegation ctx t valAddr delAddr)) valAddrs
  | _ => mret ()
  end.

(** The coin keeper does not see the store of the module, and the module is
    the first whose hooks the staking module calls. *)
#[global] Instance distributed_coin_keeper : CoinKeeper (Distributed C) := zoomed_keeper di_base di_set_base.
#[global] Instance distributed_delegation_keeper `{!DelegationKeeper C} : DelegationKeeper (Distributed C) := {|
  ck_DelegateCoinsFromAccountToModule a m amt := on_coins (ck_DelegateCoinsFromAccountToModule a m amt);
  ck_UndelegateCoinsFromModuleToAccount m a amt := on_coins (ck_UndelegateCoinsFromModuleToAccount m a amt) |}.
#[global] Instance distributed_hooks : StakingHooks (Distributed C) := {|
  sh_call := distr_hook;
  sh_CheckEnabled ctx k :=
    if negb (HigherThanVenus2 (BlockHeight ctx)) then true else GetWithdrawRewardEnabled (di_distr k) |}.

(** *** Queries *)

(** The code runs on a copy of the stores. *)
Definition query {S A} (m : M S A) (s : S) : outcome A := (m s).1.

Definition queryDelegationRewards (ctx : Ctx) (t : Stakes) (vs : ValSet) (delAddr valAddr : string)
    : M Distr (list DecCoin) :=
  valid ← gets (CheckDistributionProposalValid ctx);
  _ ← guard_not (negb valid) "ErrCodeNotSupportDistributionProposal";
  match vs_validators vs !! valAddr with
  | None => fail "ErrCodeEmptyValidatorDistInfo"
  | Some v =>
      match st_delegators t !! delAddr with
      | None => fail "ErrCodeEmptyDelegationDistInfo"
      | Some del =>
          _ ← guard_not (negb (existsb (String.eqb valAddr) (De_ValidatorAddresses del)))
                "ErrCodeEmptyDelegationVoteValidator";
          _ ← ensureStartingInfo ctx t v delAddr;
          endingPeriod ← incrementValidatorPeriod ctx v;
          calculateDelegationRewards ctx t v delAddr endingPeriod
      end
  end.
Definition queryDelegatorTotalRewards (ctx : Ctx) (t : Stakes) (vs : ValSet) (delAddr : string)
    : M Distr (list (string * list DecCoin) * list DecCoin) :=
  valid ← gets (CheckDistributionProposalValid ctx);
  _ ← guard_not (negb valid) "ErrCodeNotSupportDistributionProposal";
  match st_delegators t !! delAddr with
  | None => fail "ErrCodeEmptyDelegationDistInfo"
  | Some del =>
      for_acc (λ acc valAddr,
        match vs_validators vs !! valAddr with
        | None => mret acc
        | Some v =>
            _ ← ensureStartingInfo ctx t v delAddr;
            endingPeriod ← incrementValidatorPeriod ctx v;
            delReward ← calculateDelegationRewards ctx t v delAddr endingPeriod;
            total ← lift (DecCoins_Add acc.2 delReward);
            mret (acc.1 ++ [(valAddr, delReward)], total)
        end) ([], []) (De_ValidatorAddresses del)
  end.

Definition queryValidatorOutstandingRewards (ctx : Ctx) (valAddr : string) : M Distr (list DecCoin) :=
  valid ← gets (CheckDistributionProposalValid ctx);
  _ ← guard_not (negb valid) "ErrCodeNotSupportDistributionProposal";
  GetValidatorOutstandingRewards valAddr.
Definition queryDelegatorValidators (t : Stakes) (delAddr : string) : outcome (list string) :=
  match st_delegators t !! delAddr with
  | None => Err (E "ErrCodeEmptyDelegationDistInfo")
  | Some del => Ok (De_ValidatorAddresses del)
  end.

(** *** The registered invariants

    Each tells whether it is broken. *)

Definition NonNegativeCommissionsInvariant (s : Distr) : bool :=
  existsb DecCoins_IsAnyNegative (snd <$> store_iterate (dt_commissions s)).
(** It runs on a copy of the stores. *)
Definition CanWithdrawInvariant (ctx : Ctx) (vs : ValSet) : MD bool :=
  for_acc (λ broken v,
    accumCommission ← on_distr (GetValidatorAccumulatedCommission (Va_OperatorAddress v));
    if DecCoins_IsZero accumCommission then mret broken
    else λ k, match WithdrawValidatorCommission ctx (Va_OperatorAddress v) k with
              | (Ok _, k') => (Ok broken, k')
              | (Err _, k') => (Ok true, k')
              | (Panic p, k') => (Panic p, k')
              end) false (iterateValidators vs).
Fixpoint sumCoins (acc : list DecCoin) (l : list (list DecCoin)) : outcome (list DecCoin) :=
  match l with [] => Ok acc | c :: l => acc ← DecCoins_Add acc c; sumCoins acc l end.
Definition GetTotalRewards (s : Distr) : outcome (list DecCoin) :=
  sumCoins [] (snd <$> store_iterate (dt_outstanding s)).
Definition ModuleAccountInvariant (ctx : Ctx) : MD bool :=
  valid ← gets (λ k, CheckDistributionProposalValid ctx (di_distr k));
  if negb valid then mret false
  else
    accumulatedOutstanding ← (λ k, lift (GetTotalRewards (di_distr k)) k);
    communityPool ← on_distr GetFeePool;
    coins ← moduleCoins DistrModuleName;
    expected ← lift (DecCoins_Add communityPool accumulatedOutstanding);
    equal ← lift (DecCoins_IsEqual coins expected);
    mret (negb equal).

(** *** Genesis *)

Record DistrGenesis := mkDistrGenesis {
  Dg_CommunityTax : Dec; Dg_WithdrawAddrEnabled : bool; Dg_FeePool : list DecCoin;
  Dg_DelegatorWithdrawInfos : list (string * string); Dg_PreviousProposer : string;
  Dg_ValidatorAccumulatedCommissions : list (string * list DecCoin) }.

Definition distr_ValidateGenesis (g : DistrGenesis) : outcome unit :=
  _ ← DistrParams_ValidateBasic (mkDistrParams (Dg_CommunityTax g) (Dg_WithdrawAddrEnabled g) None None None);
  FeePool_ValidateGenesis (Dg_FeePool g).
(** The parameters that were added later are not part of it.  [SetCoins]
    writes the coins of an account. *)
Definition distr_InitGenesis (SetCoins : string → list DecCoin → M C unit) (g : DistrGenesis) : MD unit :=
  _ ← on_distr (
    _ ← SetFeePool (Dg_FeePool g);
    _ ← panic_if (Dec_IsNegative (Dg_CommunityTax g) || Dec_GT (Dg_CommunityTax g) OneDec)
          "value from ParamSetPair is invalid";
    _ ← SetCommunityTax (Dg_CommunityTax g);
    _ ← SetWithdrawAddrEnabled (Dg_WithdrawAddrEnabled g);
    _ ← SetPreviousProposerConsAddr (Dg_PreviousProposer g);
    for_each (λ x, SetDelegatorWithdrawAddr x.1 x.2) (Dg_DelegatorWithdrawInfos g));
  moduleHoldings ← on_distr (for_acc (λ holdings (x : string * list DecCoin),
    _ ← SetValidatorAccumulatedCommission x.1 x.2;
    lift (DecCoins_Add holdings x.2)) [] (Dg_ValidatorAccumulatedCommissions g));
  moduleHoldings ← lift (DecCoins_Add moduleHoldings (Dg_FeePool g));
  match ck_modaddr DistrModuleName with
  | None => panic "module account has not been set"
  | Some a =>
      coins ← on_coins (ck_GetCoins a);
      if DecCoins_IsZero coins then on_coins (SetCoins a moduleHoldings) else mret ()
  end.
Definition distr_ExportGenesis (s : Distr) : outcome DistrGenesis :=
  match dt_feePool s, dt_proposer s with
  | None, _ => Panic "Stored fee pool should not have been nil"
  | _, None => Panic "Previous proposer not set"
  | Some pool, Some proposer =>
      Ok (mkDistrGenesis (GetCommunityTax s) (GetWithdrawAddrEnabled s) pool
            (store_iterate (dt_withdrawAddrs s)) proposer (store_iterate (dt_commissions s)))
  end.

End Keeper.
