(* ===== verification/DistrProps.v ===== *)
(** * Distribution: what the records say

    The invariant of the records that the distribution on chain keeps, and
    that every operation of the module preserves it: the rewards of a
    validator that have not been paid cover its commission, what was not
    split yet, and what everybody who votes for it can still claim. *)
From S2P Require Import Prelude Decimal Denom Coins Bank CoinKeeper DecStr Staking Slashing Distribution.
#[local] Open Scope Z_scope.

(** ** Coin sets *)

Lemma Add_wf A B C : wf_coins A → wf_coins B → DecCoins_Add A B = Ok C →
  wf_coins C ∧ ∀ d, amount_of C d = amount_of A d + amount_of B d.
Proof. intros HA HB E. split; [exact (safeAdd_wf _ _ _ HA HB E)|]. intros d. by apply safeAdd_amount. Qed.
Lemma Sub_wf A B C : wf_coins A → wf_coins B → DecCoins_Sub A B = Ok C →
  wf_coins C ∧ ∀ d, amount_of C d = amount_of A d - amount_of B d.
Proof.
  intros HA HB. unfold DecCoins_Sub. intros ([D neg] & E & Hn)%outcome_bind_Ok. destruct neg; [done|].
  injection Hn as ->. split; [eapply SafeSub_wf; [apply HA|apply HB|exact E]|].
  by apply SafeSub_Ok in E as (_ & _ & Ha & _); [|apply HA|apply HB].
Qed.
Lemma QuoDecTruncate_wf A x R : wf_coins A → 0 < x → DecCoins_QuoDecTruncate A x = Ok R →
  wf_coins R ∧ ∀ d, amount_of R d = Z.quot (amount_of A d * precisionReuse) x.
Proof.
  intros HA Hx. unfold DecCoins_QuoDecTruncate. destruct (Dec_IsZero x) eqn:Hz.
  { unfold Dec_IsZero in Hz. rewrite sgn_zero in Hz. lia. }
  intros E. split.
  - eapply mapAdd_wf; [|apply HA|apply wf_coins_nil|exact E]. intros a v Ha (_ & -> & _)%Dec_QuoTruncate_Ok.
    apply Z.quot_pos; [|done]. apply Z.mul_nonneg_nonneg; done.
  - intros d. assert (Dec_QuoTruncate 0 x = Ok 0) as H0.
    { apply Dec_QuoTruncate_Ok. split; [lia|]. rewrite Z.mul_0_l, Z.quot_0_l by lia. done. }
    eapply (mapAdd_amount _ _ _ _ d) in E as (v & Hv & ->); [|done|apply HA].
    by apply Dec_QuoTruncate_Ok in Hv as (_ & -> & _).
Qed.
Lemma MulDecTruncate_wf A x R : wf_coins A → 0 ≤ x → DecCoins_MulDecTruncate A x = Ok R →
  wf_coins R ∧ ∀ d, amount_of R d = Z.quot (amount_of A d * x) precisionReuse.
Proof.
  intros HA Hx E. split; [|intros d; eapply DecCoins_MulDecTruncate_spec; [apply HA|exact E]].
  eapply mapAdd_wf; [|apply HA|apply wf_coins_nil|exact E]. intros a v Ha [-> _]%Dec_MulTruncate_Ok.
  apply Z.quot_pos; [|done]. by apply Z.mul_nonneg_nonneg.
Qed.
Lemma MulDec_wf A x R : wf_coins A → 0 ≤ x → DecCoins_MulDec A x = Ok R → wf_coins R.
Proof.
  intros HA Hx E. eapply mapAdd_wf; [|apply HA|apply wf_coins_nil|exact E]. intros a v Ha Hv.
  apply checkDec_Ok in Hv as [-> _]. pose proof (chop_half_even (a * x)) as [Hc _]. assert (0 < precisionReuse) by done. nia.
Qed.
Lemma TruncateWithPrec_splits prec : splits (λ c, DecCoin_TruncateWithPrec c prec).
Proof.
  intros c t ch. unfold DecCoin_TruncateWithPrec. destruct (_ || _); [done|].
  intros (q & _ & (t0 & _ & (ch0 & Hs & (a & Ha & (b & Hb & [= <- <-])%outcome_bind_Ok)%outcome_bind_Ok)%outcome_bind_Ok)%outcome_bind_Ok)%outcome_bind_Ok.
  apply Dec_Sub_Ok in Hs as [-> _]. apply NewDecCoinFromDec_Ok in Ha as (_ & ? & ->).
  apply NewDecCoinFromDec_Ok in Hb as (_ & ? & ->). cbn. repeat split; lia.
Qed.
Lemma TruncateWithPrec_Ok prec A t ch : DecCoins_TruncateWithPrec A prec = Ok (t, ch) →
  wf_coins t ∧ wf_coins ch ∧ ∀ d, amount_of t d + amount_of ch d = amount_of A d.
Proof.
  intros H. eapply splitLoop_spec in H as (? & ? & E); [|apply TruncateWithPrec_splits|apply wf_coins_nil..].
  split; [done|]. split; [done|]. intros d. rewrite E. cbn. lia.
Qed.
Lemma IsZero_amount A d : DecCoins_IsZero A = true → amount_of A d = 0.
Proof.
  unfold DecCoins_IsZero. induction A as [|c A IH]; cbn [forallb]; [done|]. intros [Hc HA]%andb_true_iff.
  rewrite amount_of_cons, IH by done. unfold Dec_IsZero in Hc. rewrite sgn_zero in Hc. destruct (String.eqb _ _); lia.
Qed.
Lemma MinDec_eq a b : MinDec a b = a `min` b.
Proof. unfold MinDec, Dec_LT. destruct (Z.ltb_spec a b); lia. Qed.
Lemma sorted_denoms L A : Denom <$> L = Denom <$> A → coins_sorted A → coins_sorted L.
Proof.
  revert A. induction L as [|c L IH]; intros [|b A] E Hs; try done. injection E as Ec E.
  apply coins_sorted_inv in Hs as [Hs Hb]. constructor; [by apply (IH A)|].
  change (Denom <$> L = Denom <$> A) in E. assert (Forall (str_lt (Denom b)) (Denom <$> L)) as HL
    by (rewrite E; apply Forall_fmap; exact Hb). rewrite Ec.
  exact (proj1 (Forall_fmap _ _ _) HL).
Qed.
Lemma Intersect_wf A B R : wf_coins A → wf_coins B → DecCoins_Intersect A B = Ok R →
  wf_coins R ∧ ∀ d, amount_of R d = amount_of A d `min` amount_of B d.
Proof.
  intros HA HB. unfold DecCoins_Intersect. intros (L & E & [= <-])%outcome_bind_Ok.
  assert (Denom <$> L = Denom <$> A ∧ Forall (λ c, 0 ≤ Amount c) L ∧
    ∀ d, amount_of L d = amount_of A d `min` amount_of B d) as (HD & Hn & Ha).
  { destruct HA as [Hs Hp]. revert L E. induction A as [|c A IH]; intros L; cbn [DecCoins_Intersect_loop].
    - intros [= <-]. split; [done|]. split; [done|]. intros d. pose proof (wf_amount_nonneg B d HB). cbn. lia.
    - pose proof (coins_sorted_inv _ _ Hs) as [Hl Hc]. apply Forall_cons in Hp as [Hc0 Hp].
      intros (a & Ha & (L' & HL & [= <-])%outcome_bind_Ok)%outcome_bind_Ok.
      destruct (IH Hl Hp _ HL) as (HD & Hn & Hamt). rewrite !fmap_cons, HD. split; [done|].
      assert (a = amount_of B (Denom c)) as -> by (by apply AmountOf_Ok in Ha as [-> _]; [|apply HB]).
      pose proof (wf_amount_nonneg B (Denom c) HB). rewrite MinDec_eq. split; [constructor; [cbn; lia|done]|].
      intros d. rewrite !amount_of_cons. cbn [Denom Amount]. destruct (String.eqb_spec (Denom c) d) as [<-|]; [|rewrite Hamt; lia].
      assert (amount_of A (Denom c) = 0) as E0 by (by apply amount_of_lt). rewrite Hamt, E0. lia. }
  split.
  - assert (coins_sorted (removeZeroDecCoins L)) as HsR.
    { apply removeZero_sorted. eapply sorted_denoms; [exact HD|apply HA]. }
    split; [done|]. apply coins_pos_amounts; [done|apply removeZero_nonzero|].
    intros d. rewrite removeZero_amount. by apply amount_of_nonneg.
  - intros d. by rewrite removeZero_amount.
Qed.

(** ** The records *)

Definition pool_of (dt : Distr) (d : string) : Z := amount_of (default [] (dt_feePool dt)) d.
Definition held (m : gmap string (list DecCoin)) (v d : string) : Z := amount_of (default [] (m !! v)) d.
Definition held_all (m : gmap string (list DecCoin)) (d : string) : Z := map_sum (λ c, amount_of c d) m.
Definition period (dt : Distr) (v : string) : Z :=
  match dt_current dt !! v with Some c => Cr_Period c | None => 0 end.
(** The period that ended last. *)
Definition last (dt : Distr) (v : string) : Z := period dt v - 1.
Definition pending (dt : Distr) (v d : string) : Z :=
  match dt_current dt !! v with Some c => amount_of (Cr_Rewards c) d | None => 0 end.

Abbreviation Hist := (gmap (string * Z) HistoricalRewards).
Definition hcount (H : Hist) (k : string * Z) : Z :=
  match H !! k with Some h => Hr_ReferenceCount h | None => 0 end.
Definition hratio (H : Hist) (k : string * Z) (d : string) : Z :=
  match H !! k with Some h => amount_of (Hr_CumulativeRewardRatio h) d | None => 0 end.
Definition inc_ref (k : string * Z) (H : Hist) : Hist :=
  alter (λ h, mkHistorical (Hr_CumulativeRewardRatio h) (Hr_ReferenceCount h + 1)) k H.
Definition dec_ref (k : string * Z) (H : Hist) : Hist :=
  partial_alter (λ o, match o with
    | Some h => if Hr_ReferenceCount h =? 1 then None
                else Some (mkHistorical (Hr_CumulativeRewardRatio h) (Hr_ReferenceCount h - 1))
    | None => None end) k H.

(** A delegator that voted before the switch has started at period 0. *)
Definition started (dt : Distr) (k : string * string) : Z :=
  match dt_infos dt !! k with Some i => Sf_PreviousPeriod i | None => 0 end.

Abbreviation Votes := (gmap (string * string) Dec).
(** The votes for a validator, without those in [X], which are being
    changed. *)
Definition counted (X : gset (string * string)) (v : string) (k : string * string) : Prop := k.1 = v ∧ k ∉ X.
#[global] Instance counted_dec X v k : Decision (counted X v k).
Proof. unfold counted. apply _. Defined.
Definition votes_on (X : gset (string * string)) (S : Votes) (v : string) : Z :=
  key_sum (λ k x, if decide (counted X v k) then x else 0) S.
(** What a vote has earned since it started, times [precisionReuse]. *)
Definition earned (dt : Distr) (d : string) (k : string * string) (x : Dec) : Z :=
  x * (hratio (dt_historical dt) (k.1, last dt k.1) d - hratio (dt_historical dt) (k.1, started dt k) d).
Definition claims (X : gset (string * string)) (S : Votes) (dt : Distr) (v d : string) : Z :=
  key_sum (λ k x, if decide (counted X v k) then earned dt d k x else 0) S.

(** Who refers to the record of a period: those that started with it, the
    period that follows it, and for period 0 those that voted before the
    switch. *)
Definition starters (I : gmap (string * string) StartingInfo) (k : string * Z) : Z :=
  key_sum (λ k' i, if decide (k'.1 = k.1 ∧ Sf_PreviousPeriod i = k.2) then 1 else 0) I.
Definition follows (dt : Distr) (k : string * Z) : Z :=
  if decide (is_Some (dt_current dt !! k.1) ∧ k.2 = last dt k.1) then 1 else 0.
Definition preceded (old : gset string) (k : string * Z) : Z :=
  if decide (k.2 = 0 ∧ k.1 ∈ old) then 1 else 0.
Definition refs (old : gset string) (dt : Distr) (k : string * Z) : Z :=
  starters (dt_infos dt) k + follows dt k + preceded old k.

Record coins_ok (dt : Distr) : Prop := {
  co_pool c : dt_feePool dt = Some c → wf_coins c;
  co_out v c : dt_outstanding dt !! v = Some c → wf_coins c;
  co_comm v c : dt_commissions dt !! v = Some c → wf_coins c;
  co_cur v c : dt_current dt !! v = Some c → wf_coins (Cr_Rewards c);
  co_hist k h : dt_historical dt !! k = Some h → wf_coins (Hr_CumulativeRewardRatio h) }.

(** The invariant of the distribution on chain: [S] are the votes, [X] those
    that are being changed, which have no starting point, [old] the validators
    from before the switch, and [lo] bounds the starting periods. *)
Record on_inv (lo : string * string → Z) (X : gset (string * string)) (old : gset string) (S : Votes)
    (dt : Distr) : Prop := {
  oi_coins : coins_ok dt;
  oi_cur v : is_Some (dt_current dt !! v) ↔ is_Some (dt_outstanding dt !! v);
  oi_comm v : is_Some (dt_commissions dt !! v) → is_Some (dt_outstanding dt !! v);
  oi_period v : is_Some (dt_current dt !! v) → 1 ≤ period dt v;
  oi_open k : k ∈ X → is_Some (dt_current dt !! k.1) → 2 ≤ period dt k.1;
  oi_pos k x : S !! k = Some x → 0 ≤ x;
  oi_vote k x : S !! k = Some x → k ∉ X → is_Some (dt_current dt !! k.1) ∧
    match dt_infos dt !! k with Some i => Sf_Stake i = x | None => k.1 ∈ old end;
  oi_info k i : dt_infos dt !! k = Some i → k ∉ X ∧ is_Some (S !! k) ∧ lo k ≤ Sf_PreviousPeriod i ≤ last dt k.1;
  oi_old v : v ∈ old → is_Some (dt_current dt !! v);
  oi_ref k : hcount (dt_historical dt) k = refs old dt k;
  oi_refpos k h : dt_historical dt !! k = Some h → 0 < Hr_ReferenceCount h;
  oi_ratio v p d : is_Some (dt_historical dt !! (v, p)) →
    hratio (dt_historical dt) (v, p) d ≤ hratio (dt_historical dt) (v, last dt v) d;
  oi_solvent v d : is_Some (dt_current dt !! v) →
    claims X S dt v d ≤ precisionReuse *
      (held (dt_outstanding dt) v d - held (dt_commissions dt) v d - pending dt v d) }.

(** ** Counting references *)

Lemma starters_nonneg I k : 0 ≤ starters I k.
Proof. apply key_sum_nonneg. intros. by case_decide. Qed.
Lemma starters_insert I k i p :
  I !! k = None → starters (<[k := i]> I) p = starters I p + if decide (k.1 = p.1 ∧ Sf_PreviousPeriod i = p.2) then 1 else 0.
Proof. intros Hk. unfold starters. rewrite key_sum_insert, Hk. cbn. lia. Qed.
Lemma starters_delete I k i p :
  I !! k = Some i → starters (delete k I) p = starters I p - if decide (k.1 = p.1 ∧ Sf_PreviousPeriod i = p.2) then 1 else 0.
Proof. intros Hk. unfold starters. rewrite key_sum_delete, Hk. done. Qed.
Lemma starters_pos I k i : I !! k = Some i → 1 ≤ starters I (k.1, Sf_PreviousPeriod i).
Proof.
  intros Hk. etransitivity; [|apply (key_sum_ge _ I k i); [|done]].
  - cbn. by rewrite decide_True.
  - intros. by case_decide.
Qed.

Lemma lookup_inc_ref k k' H :
  inc_ref k H !! k' = if decide (k' = k)
    then (λ h, mkHistorical (Hr_CumulativeRewardRatio h) (Hr_ReferenceCount h + 1)) <$> H !! k else H !! k'.
Proof. unfold inc_ref. case_decide as E; [by rewrite E, lookup_alter_eq|by rewrite lookup_alter_ne]. Qed.
Lemma lookup_dec_ref k k' H :
  dec_ref k H !! k' = if decide (k' = k) then
    match H !! k with
    | Some h => if Hr_ReferenceCount h =? 1 then None
                else Some (mkHistorical (Hr_CumulativeRewardRatio h) (Hr_ReferenceCount h - 1))
    | None => None end else H !! k'.
Proof.
  unfold dec_ref. case_decide as E; [by rewrite E, lookup_partial_alter_eq|by rewrite lookup_partial_alter_ne].
Qed.
Lemma hcount_inc k k' H :
  is_Some (H !! k) → hcount (inc_ref k H) k' = hcount H k' + if decide (k' = k) then 1 else 0.
Proof. intros [h Hh]. unfold hcount. rewrite lookup_inc_ref. case_decide as E; [|lia]. subst. by rewrite Hh. Qed.
Lemma hcount_dec k k' H h :
  H !! k = Some h → hcount (dec_ref k H) k' = hcount H k' - if decide (k' = k) then 1 else 0.
Proof.
  intros Hh. unfold hcount. rewrite lookup_dec_ref. case_decide as E; [|lia]. subst. rewrite Hh.
  destruct (Z.eqb_spec (Hr_ReferenceCount h) 1) as [->|]; done.
Qed.
Lemma hratio_inc k k' H d : hratio (inc_ref k H) k' d = hratio H k' d.
Proof. unfold hratio. rewrite lookup_inc_ref. case_decide as E; [|done]. subst. by destruct (H !! k). Qed.
(** Records that are still there have not changed. *)
Lemma hratio_dec k k' H d : is_Some (dec_ref k H !! k') → hratio (dec_ref k H) k' d = hratio H k' d.
Proof.
  unfold hratio. rewrite lookup_dec_ref. case_decide as E; [|done]. subst. destruct (H !! k) as [h|]; [|by intros []].
  destruct (_ =? 1); [by intros []|done].
Qed.
Lemma hcount_insert k h H k' : hcount (<[k := h]> H) k' = if decide (k' = k) then Hr_ReferenceCount h else hcount H k'.
Proof. unfold hcount. case_decide as E; [by rewrite E, lookup_insert_eq|by rewrite lookup_insert_ne]. Qed.
Lemma hratio_insert k h H k' d :
  hratio (<[k := h]> H) k' d = if decide (k' = k) then amount_of (Hr_CumulativeRewardRatio h) d else hratio H k' d.
Proof. unfold hratio. case_decide as E; [by rewrite E, lookup_insert_eq|by rewrite lookup_insert_ne]. Qed.
Lemma starters_zero I k :
  (∀ k' i, I !! k' = Some i → k'.1 = k.1 → Sf_PreviousPeriod i = k.2 → False) → starters I k = 0.
Proof.
  intros Hk. unfold starters. rewrite (key_sum_ext _ (λ _ _, 0 * 0)).
  - rewrite key_sum_scale. lia.
  - intros k' i Hi. rewrite decide_False; [done|]. intros [H1 H2]. by eapply Hk.
Qed.
Lemma held_insert m v c v' d : held (<[v := c]> m) v' d = if decide (v' = v) then amount_of c d else held m v' d.
Proof. unfold held. case_decide as E; [by rewrite E, lookup_insert_eq|by rewrite lookup_insert_ne]. Qed.
Lemma held_all_insert m v c d : held_all (<[v := c]> m) d = held_all m d - held m v d + amount_of c d.
Proof. unfold held_all, held. rewrite map_sum_insert. by destruct (m !! v). Qed.
Lemma held_all_delete m v d : held_all (delete v m) d = held_all m d - held m v d.
Proof. unfold held_all, held. rewrite map_sum_delete. by destruct (m !! v). Qed.
Lemma default_wf (m : gmap string (list DecCoin)) v :
  (∀ v c, m !! v = Some c → wf_coins c) → wf_coins (default [] (m !! v)).
Proof. intros Hm. destruct (m !! v) eqn:E; [by eapply Hm|apply wf_coins_nil]. Qed.
Lemma held_nonneg m v d : (∀ v c, m !! v = Some c → wf_coins c) → 0 ≤ held m v d.
Proof. intros Hm. by apply wf_amount_nonneg, default_wf. Qed.

(** ** Consequences *)

Section Facts.
Context {lo : string * string → Z} {X : gset (string * string)} {old : gset string} {S : Votes} {dt : Distr}.
Hypothesis I : on_inv lo X old S dt.

Lemma refs_some k : 1 ≤ refs old dt k → is_Some (dt_historical dt !! k).
Proof.
  rewrite <- (oi_ref _ _ _ _ _ I). unfold hcount. destruct (dt_historical dt !! k); [eauto|lia].
Qed.
Lemma following_nonneg k : 0 ≤ follows dt k.
Proof. unfold follows. by case_decide. Qed.
Lemma preceded_nonneg k : 0 ≤ preceded old k.
Proof. unfold preceded. by case_decide. Qed.
Lemma vote_ref k x : S !! k = Some x → k ∉ X → is_Some (dt_historical dt !! (k.1, started dt k)).
Proof.
  intros Hk Hx. apply refs_some. destruct (oi_vote _ _ _ _ _ I _ _ Hk Hx) as [_ Ho]. unfold refs.
  pose proof (starters_nonneg (dt_infos dt) (k.1, started dt k)). pose proof (following_nonneg (k.1, started dt k)).
  pose proof (preceded_nonneg (k.1, started dt k)). unfold started in *.
  destruct (dt_infos dt !! k) as [i|] eqn:Hi.
  - pose proof (starters_pos _ _ _ Hi). lia.
  - unfold preceded at 1. rewrite decide_True by done. lia.
Qed.
Lemma info_ref k i : dt_infos dt !! k = Some i → is_Some (dt_historical dt !! (k.1, Sf_PreviousPeriod i)).
Proof.
  intros Hi. apply refs_some. unfold refs. pose proof (starters_pos _ _ _ Hi).
  pose proof (following_nonneg (k.1, Sf_PreviousPeriod i)). pose proof (preceded_nonneg (k.1, Sf_PreviousPeriod i)). lia.
Qed.
Lemma last_ref v : is_Some (dt_current dt !! v) → is_Some (dt_historical dt !! (v, last dt v)).
Proof.
  intros Hv. apply refs_some. unfold refs. pose proof (starters_nonneg (dt_infos dt) (v, last dt v)).
  pose proof (preceded_nonneg (v, last dt v)). unfold follows. rewrite decide_True by done. lia.
Qed.
Lemma earned_nonneg d k x : S !! k = Some x → k ∉ X → 0 ≤ earned dt d k x.
Proof.
  intros Hk Hx. unfold earned. apply Z.mul_nonneg_nonneg; [by apply (oi_pos _ _ _ _ _ I k)|].
  pose proof (oi_ratio _ _ _ _ _ I k.1 (started dt k) d (vote_ref _ _ Hk Hx)). lia.
Qed.
Lemma claims_nonneg v d : 0 ≤ claims X S dt v d.
Proof. apply key_sum_nonneg. intros k x Hk. case_decide as Hc; [|done]. apply earned_nonneg; [done|apply Hc]. Qed.
Lemma earned_le_claims d k x : S !! k = Some x → k ∉ X → earned dt d k x ≤ claims X S dt k.1 d.
Proof.
  intros Hk Hx. etransitivity; [|apply (key_sum_ge _ S k x); [|done]].
  - cbn. rewrite decide_True by done. done.
  - intros k' x' Hk'. case_decide as Hc; [|done]. apply earned_nonneg; [done|apply Hc].
Qed.
End Facts.

(** ** The end of a period *)

Section EndPeriod.
Context (lo : string * string → Z) (X : gset (string * string)) (old : gset string) (S : Votes) (dt : Distr).
Context (v : string) (c : CurrentRewards) (r o : list DecCoin) (pool : option (list DecCoin)) (q : string → Z).
Hypothesis I : on_inv lo X old S dt.
Hypothesis Hc : dt_current dt !! v = Some c.
Let per := Cr_Period c.

Definition period_ended : Distr :=
  mkDistr pool (dt_proposer dt) (dt_withdrawAddrs dt) (dt_commissions dt) (dt_initExisted dt) (dt_infos dt)
    (<[(v, per) := mkHistorical r 1]> (dec_ref (v, per - 1) (dt_historical dt)))
    (<[v := mkCurrent [] (per + 1)]> (dt_current dt)) (<[v := o]> (dt_outstanding dt)) (dt_params dt).

Hypothesis Hpool : ∀ p, pool = Some p → wf_coins p.
Hypothesis Hr : wf_coins r.
Hypothesis Ho : wf_coins o.
Hypothesis Hq : ∀ d, 0 ≤ q d.
Hypothesis Hratio : ∀ d, amount_of r d = hratio (dt_historical dt) (v, per - 1) d + q d.
Hypothesis Hcover : ∀ d, q d * votes_on X S v ≤
  precisionReuse * (amount_of o d - held (dt_outstanding dt) v d + pending dt v d).

Lemma pe_per : 1 ≤ per ∧ last dt v = per - 1 ∧ period dt v = per.
Proof.
  assert (period dt v = per) as Hp by (unfold period; by rewrite Hc). unfold last. rewrite Hp.
  split; [|done]. rewrite <- Hp. apply (oi_period _ _ _ _ _ I). eauto.
Qed.
Lemma pe_fresh : hcount (dt_historical dt) (v, per) = 0.
Proof.
  destruct pe_per as (H1 & H2 & H3). rewrite (oi_ref _ _ _ _ _ I). unfold refs, follows, preceded. cbn.
  rewrite (decide_False (P := per = 0 ∧ _)), (decide_False (P := _ ∧ per = _)) by lia.
  rewrite starters_zero; [done|]. intros k i Hi Ek Hp. cbn in Ek, Hp.
  destruct (oi_info _ _ _ _ _ I _ _ Hi) as (_ & _ & Hb). rewrite Ek in Hb. lia.
Qed.
Lemma pe_period v' : period period_ended v' = if decide (v' = v) then per + 1 else period dt v'.
Proof.
  unfold period, period_ended. cbn. case_decide as E; [by rewrite E, lookup_insert_eq|by rewrite lookup_insert_ne].
Qed.
Lemma pe_last v' : last period_ended v' = if decide (v' = v) then per else last dt v'.
Proof. unfold last. rewrite pe_period. case_decide; lia. Qed.
Lemma pe_current v' : is_Some (dt_current period_ended !! v') ↔ is_Some (dt_current dt !! v').
Proof.
  cbn. destruct (decide (v' = v)) as [->|Hne]; [rewrite lookup_insert_eq, Hc; split; eauto|by rewrite lookup_insert_ne].
Qed.
(** Records that are referred to are as before. *)
Lemma pe_ratio k d : k ≠ (v, per) → is_Some (dt_historical period_ended !! k) →
  hratio (dt_historical period_ended) k d = hratio (dt_historical dt) k d.
Proof.
  intros Hk Hs. cbn in *. rewrite lookup_insert_ne in Hs by done. rewrite hratio_insert, decide_False by done.
  by apply hratio_dec.
Qed.
Lemma pe_follows k :
  follows period_ended k = if decide (k.1 = v) then (if decide (k.2 = per) then 1 else 0) else follows dt k.
Proof.
  unfold follows. destruct (decide (k.1 = v)) as [E|E]; apply decide_ext; rewrite pe_current, pe_last.
  - rewrite decide_True by done. rewrite E, Hc. naive_solver.
  - by rewrite decide_False.
Qed.
Lemma pe_ref k : hcount (dt_historical period_ended) k = refs old period_ended k.
Proof.
  destruct pe_per as (H1 & H2 & H3). cbn [period_ended dt_historical]. rewrite hcount_insert. unfold refs.
  rewrite pe_follows. cbn [dt_infos period_ended].
  pose proof (oi_ref _ _ _ _ _ I k) as Hk. unfold refs in Hk. destruct k as [v' p]. cbn [fst snd] in *.
  destruct (last_ref I v) as [h Hh]; [eauto|]. rewrite H2 in Hh.
  assert (∀ p, follows dt (v, p) = if decide (p = per - 1) then 1 else 0) as Hf.
  { intros p'. unfold follows. apply decide_ext. cbn. rewrite Hc, H2. naive_solver. }
  case_decide as E.
  - injection E as -> ->. cbn. rewrite pe_fresh, Hf, decide_False in Hk by lia. rewrite !decide_True by done. lia.
  - rewrite (hcount_dec _ _ _ _ Hh), Hk. destruct (decide (v' = v)) as [->|Hne].
    + rewrite Hf. rewrite (decide_False (P := p = per)) by congruence.
      destruct (decide (p = per - 1)) as [->|Hp]; [rewrite !decide_True by done; lia|].
      rewrite !decide_False by naive_solver. lia.
    + rewrite !decide_False by naive_solver. lia.
Qed.
Lemma pe_refpos k h : dt_historical period_ended !! k = Some h → 0 < Hr_ReferenceCount h.
Proof.
  cbn. intros [[<- <-]|[Hne Hk]]%lookup_insert_Some; [done|]. rewrite lookup_dec_ref in Hk. case_decide as E.
  - subst k. destruct (dt_historical dt !! _) as [h0|] eqn:H0; [|done]. pose proof (oi_refpos _ _ _ _ _ I _ _ H0).
    destruct (Z.eqb_spec (Hr_ReferenceCount h0) 1); [done|]. injection Hk as <-. cbn. lia.
  - by eapply (oi_refpos _ _ _ _ _ I).
Qed.
Lemma pe_refs_some k : 1 ≤ refs old period_ended k → is_Some (dt_historical period_ended !! k).
Proof. rewrite <- pe_ref. unfold hcount. destruct (dt_historical period_ended !! k); [eauto|lia]. Qed.

(** A vote for the validator earns [q] more per share. *)
Lemma pe_earned d k x : S !! k = Some x → k ∉ X →
  earned period_ended d k x = earned dt d k x + if decide (k.1 = v) then x * q d else 0.
Proof.
  intros Hk Hx. unfold earned. destruct pe_per as (H1 & H2 & H3).
  assert (started period_ended k = started dt k) as Es by done.
  assert (k.1 = v → started dt k ≠ per) as Hst.
  { intros Ek. unfold started. destruct (dt_infos dt !! k) as [i|] eqn:Hi; [|lia].
    destruct (oi_info _ _ _ _ _ I _ _ Hi) as (_ & _ & Hb). rewrite Ek in Hb. lia. }
  assert (hratio (dt_historical period_ended) (k.1, started dt k) d = hratio (dt_historical dt) (k.1, started dt k) d) as E2.
  { apply pe_ratio; [naive_solver|]. apply pe_refs_some. destruct (oi_vote _ _ _ _ _ I _ _ Hk Hx) as [_ Hv].
    pose proof (starters_nonneg (dt_infos dt) (k.1, started dt k)). unfold refs.
    pose proof (following_nonneg (dt := period_ended) (k.1, started dt k)). pose proof (preceded_nonneg (old := old) (k.1, started dt k)).
    cbn [period_ended dt_infos]. unfold started in *. destruct (dt_infos dt !! k) as [i|] eqn:Hi.
    - pose proof (starters_pos _ _ _ Hi). lia.
    - unfold preceded in *. rewrite decide_True in * by done. lia. }
  rewrite Es, E2, pe_last. destruct (decide (k.1 = v)) as [->|Hne].
  - cbn [period_ended dt_historical]. rewrite hratio_insert, decide_True by done. cbn [Hr_CumulativeRewardRatio]. rewrite Hratio, H2. lia.
  - rewrite pe_ratio; [lia|naive_solver|]. apply pe_refs_some. unfold refs.
    pose proof (starters_nonneg (dt_infos period_ended) (k.1, last dt k.1)). pose proof (preceded_nonneg (old := old) (k.1, last dt k.1)).
    unfold follows. rewrite decide_True; [lia|]. cbn [fst snd]. rewrite pe_current, pe_last, decide_False by done.
    by destruct (oi_vote _ _ _ _ _ I _ _ Hk Hx).
Qed.
Lemma pe_claims v' d :
  claims X S period_ended v' d = claims X S dt v' d + if decide (v' = v) then q d * votes_on X S v else 0.
Proof.
  unfold claims. destruct (decide (v' = v)) as [->|Hne].
  - unfold votes_on. rewrite (Z.mul_comm (q d)), <- key_sum_scale, <- key_sum_add. apply key_sum_ext. intros k x Hk.
    case_decide as Hk'; [|lia]. destruct Hk' as [Hk1 Hk2]. rewrite pe_earned by done. rewrite decide_True by done. lia.
  - rewrite Z.add_0_r. apply key_sum_ext. intros k x Hk. case_decide as Hk'; [|done]. destruct Hk' as [Hk1 Hk2].
    rewrite pe_earned by done. rewrite decide_False by congruence. lia.
Qed.

Lemma end_period_inv : on_inv lo X old S period_ended.
Proof.
  destruct pe_per as (H1 & H2 & H3). pose proof (oi_coins _ _ _ _ _ I) as [C1 C2 C3 C4 C5]. split.
  - split; cbn; try done.
    + intros v' c' [[_ <-]|[_ ?]]%lookup_insert_Some; [done|by eapply C2].
    + intros v' c' [[_ <-]|[_ ?]]%lookup_insert_Some; [apply wf_coins_nil|by eapply C4].
    + intros k h [[_ <-]|[_ Hk]]%lookup_insert_Some; [done|]. rewrite lookup_dec_ref in Hk. case_decide; [|by eapply C5].
      destruct (dt_historical dt !! _) as [h0|] eqn:H0; [|done]. destruct (_ =? 1); [done|]. injection Hk as <-. exact (C5 _ _ H0).
  - intros v'. rewrite pe_current, (oi_cur _ _ _ _ _ I). cbn. destruct (decide (v' = v)) as [->|Hne].
    + rewrite lookup_insert_eq, <- (oi_cur _ _ _ _ _ I), Hc. split; eauto.
    + by rewrite lookup_insert_ne.
  - intros v' Hv. cbn in *. destruct (decide (v' = v)) as [->|Hne]; [rewrite lookup_insert_eq; eauto|].
    rewrite lookup_insert_ne by done. by apply (oi_comm _ _ _ _ _ I).
  - intros v' Hv%pe_current. rewrite pe_period. case_decide; [lia|by apply (oi_period _ _ _ _ _ I)].
  - intros k Hk Hv%pe_current. rewrite pe_period. case_decide; [lia|by apply (oi_open _ _ _ _ _ I)].
  - apply I.
  - intros k x Hk Hx. rewrite pe_current. by apply (oi_vote _ _ _ _ _ I).
  - intros k i Hi. destruct (oi_info _ _ _ _ _ I _ _ Hi) as (? & ? & Hb). split; [done|]. split; [done|].
    rewrite pe_last. case_decide as E; [rewrite E in Hb; lia|done].
  - intros v' Hv. rewrite pe_current. by apply (oi_old _ _ _ _ _ I).
  - apply pe_ref.
  - apply pe_refpos.
  - intros v' p d Hp. rewrite pe_last. destruct (decide (v' = v)) as [->|Hne].
    + cbn [period_ended dt_historical] in *. rewrite (hratio_insert _ _ _ (v, per)), decide_True by done. cbn [Hr_CumulativeRewardRatio].
      rewrite Hratio. pose proof (Hq d). destruct (decide (p = per)) as [->|Hp'].
      * rewrite hratio_insert, decide_True by done. cbn [Hr_CumulativeRewardRatio]. rewrite Hratio. lia.
      * rewrite lookup_insert_ne in Hp by naive_solver. rewrite hratio_insert, decide_False by naive_solver.
        rewrite (hratio_dec _ _ _ _ Hp). assert (is_Some (dt_historical dt !! (v, p))) as Hd.
        { rewrite lookup_dec_ref in Hp. case_decide as E; [rewrite E; destruct (dt_historical dt !! _); [eauto|by destruct Hp]|done]. }
        pose proof (oi_ratio _ _ _ _ _ I v p d Hd). rewrite H2 in *. lia.
    + cbn [period_ended dt_historical] in *. rewrite lookup_insert_ne in Hp by naive_solver.
      rewrite lookup_dec_ref, decide_False in Hp by naive_solver.
      pose proof (oi_ratio _ _ _ _ _ I v' p d Hp) as Hle. unfold hratio in *.
      rewrite !lookup_insert_ne, !lookup_dec_ref, !decide_False by naive_solver. done.
  - intros v' d Hv%pe_current. rewrite pe_claims. pose proof (oi_solvent _ _ _ _ _ I v' d Hv) as Hs.
    unfold pending. cbn [period_ended dt_outstanding dt_current dt_commissions]. rewrite held_insert.
    destruct (decide (v' = v)) as [->|Hne].
    + rewrite lookup_insert_eq. cbn [Cr_Rewards]. rewrite amount_of_nil. pose proof (Hcover d). lia.
    + rewrite lookup_insert_ne by done. unfold pending in Hs. lia.
Qed.

End EndPeriod.

(** ** Other starting points *)

Section Points.
Context (lo lo' : string * string → Z) (X X' : gset (string * string)) (old : gset string) (S : Votes) (dt : Distr).
Context (pool : option (list DecCoin)) (J : gmap (string * string) StartingInfo) (H : Hist)
  (out : gmap string (list DecCoin)).
Hypothesis I : on_inv lo X old S dt.

Definition repointed : Distr :=
  mkDistr pool (dt_proposer dt) (dt_withdrawAddrs dt) (dt_commissions dt) (dt_initExisted dt) J H
    (dt_current dt) out (dt_params dt).

Hypothesis Hpool : ∀ p, pool = Some p → wf_coins p.
Hypothesis Hout : ∀ v c, out !! v = Some c → wf_coins c.
Hypothesis Hdom : ∀ v, is_Some (out !! v) ↔ is_Some (dt_outstanding dt !! v).
Hypothesis Href : ∀ k, hcount H k = refs old repointed k.
Hypothesis Hhist : ∀ k h, H !! k = Some h → 0 < Hr_ReferenceCount h ∧
  ∃ h0, dt_historical dt !! k = Some h0 ∧ Hr_CumulativeRewardRatio h = Hr_CumulativeRewardRatio h0.
Hypothesis Hinfo : ∀ k i, J !! k = Some i → k ∉ X' ∧ is_Some (S !! k) ∧ lo' k ≤ Sf_PreviousPeriod i ≤ last dt k.1.
Hypothesis Hvote : ∀ k x, S !! k = Some x → k ∉ X' → is_Some (dt_current dt !! k.1) ∧
  match J !! k with Some i => Sf_Stake i = x | None => k.1 ∈ old end.
Hypothesis Hopen : ∀ k, k ∈ X' → is_Some (dt_current dt !! k.1) → 2 ≤ period dt k.1.

(** What a vote has earned, with the ratios before. *)
Definition earned_from (d : string) (k : string * string) (x : Dec) : Z :=
  x * (hratio (dt_historical dt) (k.1, last dt k.1) d - hratio (dt_historical dt) (k.1, started repointed k) d).
Hypothesis Hsolvent : ∀ v d, is_Some (dt_current dt !! v) →
  key_sum (λ k x, if decide (counted X' v k) then earned_from d k x else 0) S ≤
  precisionReuse * (held out v d - held (dt_commissions dt) v d - pending dt v d).

Lemma rp_ratio k d : 1 ≤ refs old repointed k → hratio H k d = hratio (dt_historical dt) k d.
Proof.
  rewrite <- Href. unfold hcount, hratio. destruct (H !! k) as [h|] eqn:E; [|lia]. intros _.
  destruct (Hhist _ _ E) as (_ & h0 & -> & ->). done.
Qed.
Lemma rp_last v d : is_Some (dt_current dt !! v) →
  hratio H (v, last dt v) d = hratio (dt_historical dt) (v, last dt v) d.
Proof.
  intros Hv. apply rp_ratio. unfold refs. pose proof (starters_nonneg J (v, last dt v)).
  pose proof (preceded_nonneg (old := old) (v, last dt v)). cbn [repointed dt_infos].
  unfold follows. rewrite decide_True; [lia|done].
Qed.
Lemma rp_earned d k x : S !! k = Some x → k ∉ X' → earned repointed d k x = earned_from d k x.
Proof.
  intros Hk Hx. destruct (Hvote _ _ Hk Hx) as [Hc Hv]. unfold earned, earned_from.
  change (last repointed k.1) with (last dt k.1). cbn [repointed dt_historical]. rewrite rp_last by done.
  rewrite (rp_ratio (k.1, started repointed k)); [done|]. unfold refs.
  pose proof (starters_nonneg J (k.1, started repointed k)). pose proof (preceded_nonneg (old := old) (k.1, started repointed k)).
  pose proof (following_nonneg (dt := repointed) (k.1, started repointed k)).
  cbn [repointed dt_infos] in *. unfold started in *. cbn [repointed dt_infos] in *. destruct (J !! k) as [i|] eqn:Hi.
  - pose proof (starters_pos _ _ _ Hi). lia.
  - unfold preceded in *. rewrite decide_True in * by done. lia.
Qed.

Lemma repoint_inv : on_inv lo' X' old S repointed.
Proof.
  pose proof (oi_coins _ _ _ _ _ I) as [C1 C2 C3 C4 C5]. split; try done.
  - split; cbn; try done. intros k h Hk. destruct (Hhist _ _ Hk) as (_ & h0 & H0 & ->). by eapply C5.
  - intros v. cbn. rewrite Hdom. apply (oi_cur _ _ _ _ _ I).
  - intros v Hv. cbn in *. rewrite Hdom. by apply (oi_comm _ _ _ _ _ I).
  - apply I.
  - apply I.
  - apply I.
  - intros k h Hk. by apply Hhist in Hk as [? _].
  - intros v p d [h Hh]. cbn [repointed dt_historical] in *. change (last repointed v) with (last dt v).
    destruct (Hhist _ _ Hh) as (_ & h0 & H0 & E0).
    assert (hratio H (v, p) d = hratio (dt_historical dt) (v, p) d) as -> by (unfold hratio; by rewrite Hh, H0, E0).
    assert (is_Some (dt_current dt !! v)) as Hv.
    { pose proof (Href (v, p)) as Hp. unfold hcount in Hp. rewrite Hh in Hp. destruct (Hhist _ _ Hh) as [Hpos _].
      destruct (dt_current dt !! v) eqn:Ec; [eauto|exfalso]. unfold refs, follows, preceded in Hp. cbn in Hp.
      rewrite (decide_False (P := is_Some _ ∧ _)) in Hp by (rewrite Ec; intros [[] _]; done).
      rewrite (decide_False (P := _ ∧ v ∈ old)) in Hp by (intros [_ [? Ho]%(oi_old _ _ _ _ _ I)]; congruence).
      rewrite starters_zero in Hp; [lia|]. intros k i Hi Ek _. destruct (Hinfo _ _ Hi) as (Hk & [x Hx] & _).
      destruct (Hvote _ _ Hx Hk) as [[? Hs] _]. cbn in Ek. rewrite Ek in Hs. congruence. }
    rewrite rp_last by done. apply (oi_ratio _ _ _ _ _ I). eauto.
  - intros v d Hv. etransitivity; [|by apply Hsolvent]. apply Z.eq_le_incl, key_sum_ext.
    intros k x Hk. case_decide as Hc; [|done]. apply rp_earned; [done|apply Hc].
Qed.
End Points.

(** *** Someone who voted before the switch gets a starting point *)

Definition floor_at (k : string * string) (lo : string * string → Z) (k' : string * string) : Z :=
  if decide (k' = k) then 0 else lo k'.

Lemma dt_eta dt : mkDistr (dt_feePool dt) (dt_proposer dt) (dt_withdrawAddrs dt) (dt_commissions dt) (dt_initExisted dt)
  (dt_infos dt) (dt_historical dt) (dt_current dt) (dt_outstanding dt) (dt_params dt) = dt.
Proof. by destruct dt. Qed.

(** More references, fewer references. *)
Lemma inc_ref_hist lo X old S dt k : on_inv lo X old S dt → ∀ k' h, inc_ref k (dt_historical dt) !! k' = Some h →
  0 < Hr_ReferenceCount h ∧
  ∃ h0, dt_historical dt !! k' = Some h0 ∧ Hr_CumulativeRewardRatio h = Hr_CumulativeRewardRatio h0.
Proof.
  intros I k' h. rewrite lookup_inc_ref. case_decide as E; [subst k'|].
  - intros (h0 & Hh & ->)%fmap_Some. pose proof (oi_refpos _ _ _ _ _ I _ _ Hh). cbn. split; [lia|eauto].
  - intros Hh. pose proof (oi_refpos _ _ _ _ _ I _ _ Hh). eauto.
Qed.
Lemma dec_ref_hist lo X old S dt k : on_inv lo X old S dt → ∀ k' h, dec_ref k (dt_historical dt) !! k' = Some h →
  0 < Hr_ReferenceCount h ∧
  ∃ h0, dt_historical dt !! k' = Some h0 ∧ Hr_CumulativeRewardRatio h = Hr_CumulativeRewardRatio h0.
Proof.
  intros I k' h. rewrite lookup_dec_ref. case_decide as E; [subst k'|].
  - destruct (dt_historical dt !! k) as [h0|] eqn:Hh; [|done]. pose proof (oi_refpos _ _ _ _ _ I _ _ Hh).
    destruct (Z.eqb_spec (Hr_ReferenceCount h0) 1); [done|]. intros [= <-]. cbn. split; [lia|eauto].
  - intros Hh. pose proof (oi_refpos _ _ _ _ _ I _ _ Hh). eauto.
Qed.

Lemma start_existed_inv lo X old S dt k x h :
  on_inv lo X old S dt → S !! k = Some x → k ∉ X → dt_infos dt !! k = None →
  on_inv (floor_at k lo) X old S
    (dt_set_infos <[k := mkStarting 0 x h]> (dt_set_historical (inc_ref (k.1, 0)) dt)).
Proof.
  intros I Hk Hx Hi. destruct (oi_vote _ _ _ _ _ I _ _ Hk Hx) as [Hc Ho]. rewrite Hi in Ho.
  pose proof (oi_coins _ _ _ _ _ I) as [C1 C2 C3 C4 C5].
  assert (is_Some (dt_historical dt !! (k.1, 0))) as Hz.
  { destruct (vote_ref I _ _ Hk Hx) as [h0 Hh]. unfold started in Hh. rewrite Hi in Hh. eauto. }
  apply (repoint_inv lo (floor_at k lo) X X old S dt (dt_feePool dt) (<[k := mkStarting 0 x h]> (dt_infos dt))
    (inc_ref (k.1, 0) (dt_historical dt)) (dt_outstanding dt) I); try done.
  - intros p. rewrite hcount_inc by done. rewrite (oi_ref _ _ _ _ _ I). unfold refs. cbn [repointed dt_infos].
    rewrite starters_insert by done. change (follows (repointed _ _ _ _ _) p) with (follows dt p). cbn [Sf_PreviousPeriod].
    destruct p as [v p]. cbn. destruct (decide ((v, p) = (k.1, 0))) as [E|E].
    + injection E as -> ->. rewrite decide_True by done. lia.
    + rewrite decide_False by naive_solver. lia.
  - by eapply inc_ref_hist.
  - intros k' i [[<- <-]|[Hne Hi']]%lookup_insert_Some.
    + split; [done|]. split; [eauto|]. unfold floor_at. rewrite decide_True by done. cbn.
      pose proof (oi_period _ _ _ _ _ I _ Hc). unfold last. lia.
    + unfold floor_at. rewrite decide_False by done. by apply (oi_info _ _ _ _ _ I).
  - intros k' x' Hk' Hx'. destruct (decide (k' = k)) as [->|Hne].
    + rewrite lookup_insert_eq. cbn. split; [done|congruence].
    + rewrite lookup_insert_ne by done. by apply (oi_vote _ _ _ _ _ I).
  - apply I.
  - intros v d Hv. etransitivity; [|by apply (oi_solvent _ _ _ _ _ I)]. apply Z.eq_le_incl, key_sum_ext.
    intros k' x' Hk'. case_decide as Hcd; [|done]. unfold earned_from, earned, started. cbn [repointed dt_infos].
    destruct (decide (k' = k)) as [->|Hne]; [by rewrite lookup_insert_eq, Hi|by rewrite lookup_insert_ne].
Qed.

(** *** A claim is settled: the vote has no starting point any more *)

Lemma settled_inv lo lo' X old S dt k i x o pool :
  on_inv lo X old S dt → dt_infos dt !! k = Some i → S !! k = Some x →
  (∀ p, pool = Some p → wf_coins p) → wf_coins o → (∀ k', k' ≠ k → lo' k' ≤ lo k') → 2 ≤ period dt k.1 →
  (∀ d, precisionReuse * (held (dt_outstanding dt) k.1 d - amount_of o d) ≤ earned dt d k x) →
  on_inv lo' ({[ k ]} ∪ X) old S
    (repointed dt pool (delete k (dt_infos dt)) (dec_ref (k.1, Sf_PreviousPeriod i) (dt_historical dt))
       (<[k.1 := o]> (dt_outstanding dt))).
Proof.
  intros I Hi Hk Hpool Ho Hlo Hper Hpay. destruct (oi_info _ _ _ _ _ I _ _ Hi) as (Hx & _ & _).
  destruct (oi_vote _ _ _ _ _ I _ _ Hk Hx) as [Hc _]. destruct (info_ref I _ _ Hi) as [h0 Hh].
  pose proof (oi_coins _ _ _ _ _ I) as [C1 C2 C3 C4 C5].
  apply (repoint_inv lo lo' X); try done.
  - intros v c [[_ <-]|[_ Hv]]%lookup_insert_Some; [done|by eapply C2].
  - intros v. destruct (decide (v = k.1)) as [->|Hne].
    + rewrite lookup_insert_eq, <- (oi_cur _ _ _ _ _ I). split; [done|eauto].
    + by rewrite lookup_insert_ne.
  - intros p. rewrite (hcount_dec _ _ _ _ Hh), (oi_ref _ _ _ _ _ I). unfold refs. cbn [repointed dt_infos].
    rewrite (starters_delete _ _ _ _ Hi). change (follows (repointed _ _ _ _ _) p) with (follows dt p).
    destruct p as [v p]. cbn. destruct (decide ((v, p) = (k.1, Sf_PreviousPeriod i))) as [E|E].
    + injection E as -> ->. rewrite decide_True by done. lia.
    + rewrite decide_False by naive_solver. lia.
  - by eapply dec_ref_hist.
  - intros k' i' [Hne Hi']%lookup_delete_Some. destruct (oi_info _ _ _ _ _ I _ _ Hi') as (? & ? & ?).
    pose proof (Hlo k' ltac:(congruence)). split; [set_solver|]. split; [done|lia].
  - intros k' x' Hk' Hx'. rewrite lookup_delete_ne by set_solver. apply (oi_vote _ _ _ _ _ I); [done|set_solver].
  - intros k' [->%elem_of_singleton|Hk']%elem_of_union Hc'; [done|by apply (oi_open _ _ _ _ _ I)].
  - intros v d Hv. pose proof (oi_solvent _ _ _ _ _ I v d Hv) as Hs. unfold claims in Hs.
    set (f := λ k x, if decide (counted X v k) then earned dt d k x else 0) in *.
    set (f' := λ k' x, if decide (counted ({[k]} ∪ X) v k') then earned_from dt pool _ _ _ d k' x else 0).
    assert (key_sum f' S = key_sum f S - f k x) as ->.
    { assert (key_sum f' (delete k S) = key_sum f (delete k S)) as E.
      { apply key_sum_ext. intros k' x' [Hne Hk']%lookup_delete_Some. unfold f', f.
        rewrite (decide_ext (counted ({[k]} ∪ X) v k') (counted X v k')) by (unfold counted; set_solver).
        case_decide; [|done]. unfold earned_from, earned, started. cbn [repointed dt_infos].
        by rewrite lookup_delete_ne by done. }
      rewrite !key_sum_delete, Hk in E. cbn in E. unfold f' in E at 2. rewrite decide_False in E; [lia|].
      unfold counted. set_solver. }
    rewrite held_insert. unfold f at 2. destruct (decide (v = k.1)) as [->|Hne].
    + rewrite decide_True by done. pose proof (Hpay d). lia.
    + rewrite decide_False by (intros [? _]; congruence). lia.
Qed.

(** *** A vote gets a starting point *)

Lemma start_vote_inv X old S dt k x h :
  on_inv (λ _, 1) X old S dt → k ∈ X → S !! k = Some x → is_Some (dt_current dt !! k.1) →
  on_inv (λ _, 1) (X ∖ {[ k ]}) old S
    (dt_set_infos <[k := mkStarting (last dt k.1) x h]> (dt_set_historical (inc_ref (k.1, last dt k.1)) dt)).
Proof.
  intros I Hx Hk Hc. pose proof (oi_open _ _ _ _ _ I _ Hx Hc) as Hper.
  assert (dt_infos dt !! k = None) as Hi.
  { apply eq_None_not_Some. intros [i Hi]. by destruct (oi_info _ _ _ _ _ I _ _ Hi). }
  pose proof (oi_coins _ _ _ _ _ I) as [C1 C2 C3 C4 C5].
  apply (repoint_inv (λ _, 1) (λ _, 1) X (X ∖ {[ k ]}) old S dt (dt_feePool dt)
    (<[k := mkStarting (last dt k.1) x h]> (dt_infos dt)) (inc_ref (k.1, last dt k.1) (dt_historical dt))
    (dt_outstanding dt) I); try done.
  - intros p. rewrite hcount_inc by (by apply (last_ref I)). rewrite (oi_ref _ _ _ _ _ I). unfold refs. cbn [repointed dt_infos].
    rewrite starters_insert by done. change (follows (repointed _ _ _ _ _) p) with (follows dt p). cbn [Sf_PreviousPeriod].
    destruct p as [v p]. cbn. destruct (decide ((v, p) = (k.1, last dt k.1))) as [E|E].
    + injection E as -> ->. rewrite decide_True by done. lia.
    + rewrite decide_False by naive_solver. lia.
  - by eapply inc_ref_hist.
  - intros k' i [[<- <-]|[Hne Hi']]%lookup_insert_Some.
    + split; [set_solver|]. split; [eauto|]. cbn. unfold last. lia.
    + destruct (oi_info _ _ _ _ _ I _ _ Hi') as (? & ? & ?). split; [set_solver|done].
  - intros k' x' Hk' Hx'. destruct (decide (k' = k)) as [->|Hne].
    + rewrite lookup_insert_eq. cbn. split; [done|congruence].
    + rewrite lookup_insert_ne by done. apply (oi_vote _ _ _ _ _ I); [done|set_solver].
  - intros k' Hk'. apply (oi_open _ _ _ _ _ I). set_solver.
  - intros v d Hv. etransitivity; [|by apply (oi_solvent _ _ _ _ _ I)]. apply Z.eq_le_incl, key_sum_ext.
    intros k' x' Hk'. destruct (decide (k' = k)) as [->|Hne].
    + rewrite (decide_False (P := counted X v k)) by (intros [_ ?]; done). case_decide; [|done].
      unfold earned_from, started. cbn [repointed dt_infos]. rewrite lookup_insert_eq. cbn. lia.
    + rewrite (decide_ext (counted (X ∖ {[ k ]}) v k') (counted X v k')) by (unfold counted; set_solver).
      case_decide; [|done]. unfold earned_from, earned, started. cbn [repointed dt_infos]. by rewrite lookup_insert_ne.
Qed.

(** ** More to share, and less *)

(** The commission, the rewards to be split and what is outstanding of a
    validator change together. *)
Lemma amounts_inv lo X old S dt v c' m o pool :
  on_inv lo X old S dt → is_Some (dt_current dt !! v) → (∀ p, pool = Some p → wf_coins p) →
  wf_coins c' → wf_coins m → wf_coins o →
  (∀ d, held (dt_outstanding dt) v d - held (dt_commissions dt) v d - pending dt v d
        ≤ amount_of o d - amount_of m d - amount_of c' d) →
  on_inv lo X old S (mkDistr pool (dt_proposer dt) (dt_withdrawAddrs dt) (<[v := m]> (dt_commissions dt))
    (dt_initExisted dt) (dt_infos dt) (dt_historical dt) (<[v := mkCurrent c' (period dt v)]> (dt_current dt))
    (<[v := o]> (dt_outstanding dt)) (dt_params dt)).
Proof.
  intros I Hv Hp Hc' Hm Ho Hle. set (dt' := mkDistr _ _ _ _ _ _ _ _ _ _).
  pose proof (oi_coins _ _ _ _ _ I) as [C1 C2 C3 C4 C5].
  assert (∀ w, is_Some (dt_current dt' !! w) ↔ is_Some (dt_current dt !! w)) as Hcur.
  { intros w. cbn. destruct (decide (w = v)) as [->|Hne]; [rewrite lookup_insert_eq; split; eauto|by rewrite lookup_insert_ne]. }
  assert (∀ w, period dt' w = period dt w) as Hper.
  { intros w. unfold period at 1. cbn. destruct (decide (w = v)) as [->|Hne]; [by rewrite lookup_insert_eq|by rewrite lookup_insert_ne]. }
  assert (∀ w, last dt' w = last dt w) as Hlast by (intros w; unfold last; by rewrite Hper).
  split.
  - split; cbn; try done.
    + intros w c [[_ <-]|[_ ?]]%lookup_insert_Some; [done|by eapply C2].
    + intros w c [[_ <-]|[_ ?]]%lookup_insert_Some; [done|by eapply C3].
    + intros w c [[_ <-]|[_ ?]]%lookup_insert_Some; [done|by eapply C4].
  - intros w. rewrite Hcur, (oi_cur _ _ _ _ _ I). cbn. destruct (decide (w = v)) as [->|Hne]; [|by rewrite lookup_insert_ne].
    rewrite lookup_insert_eq, <- (oi_cur _ _ _ _ _ I). split; eauto.
  - intros w. cbn. destruct (decide (w = v)) as [->|Hne]; [rewrite !lookup_insert_eq; eauto|].
    rewrite !lookup_insert_ne by done. apply (oi_comm _ _ _ _ _ I).
  - intros w Hw%Hcur. rewrite Hper. by apply (oi_period _ _ _ _ _ I).
  - intros k Hk Hw%Hcur. rewrite Hper. by apply (oi_open _ _ _ _ _ I).
  - apply I.
  - intros k x Hk Hx. rewrite Hcur. by apply (oi_vote _ _ _ _ _ I).
  - intros k i Hi. rewrite Hlast. by apply (oi_info _ _ _ _ _ I).
  - intros w Hw. rewrite Hcur. by apply (oi_old _ _ _ _ _ I).
  - intros k. change (dt_historical dt') with (dt_historical dt). rewrite (oi_ref _ _ _ _ _ I). unfold refs.
    do 2 f_equal. unfold follows. apply decide_ext. by rewrite Hcur, Hlast.
  - apply I.
  - intros w p d. rewrite Hlast. apply (oi_ratio _ _ _ _ _ I).
  - intros w d Hw%Hcur. pose proof (oi_solvent _ _ _ _ _ I w d Hw) as Hs.
    assert (claims X S dt' w d = claims X S dt w d) as ->.
    { apply key_sum_ext. intros k x _. case_decide; [|done]. unfold earned. by rewrite Hlast. }
    unfold pending. cbn [dt' dt_outstanding dt_commissions dt_current]. rewrite !held_insert.
    destruct (decide (w = v)) as [->|Hne].
    + rewrite lookup_insert_eq. cbn [Cr_Rewards]. pose proof (Hle d). assert (0 < precisionReuse) by done. nia.
    + rewrite lookup_insert_ne by done. exact Hs.
Qed.

(** ** Votes that are being changed *)

Lemma claims_filter X S dt v d :
  claims X S dt v d = key_sum (λ k x, earned dt d k x) (base.filter (λ p, counted X v p.1) S).
Proof.
  unfold claims. induction S as [|k x S Hk IH] using map_ind; [by rewrite map_filter_empty|].
  rewrite key_sum_insert, Hk. cbn. destruct (decide (counted X v k)) as [Hc|Hc].
  - rewrite map_filter_insert_True by done. rewrite key_sum_insert, map_lookup_filter, Hk. cbn. lia.
  - rewrite map_filter_insert_False by done. rewrite delete_id by done. lia.
Qed.
(** The claims are those of the votes that count. *)
Lemma claims_eq X X' S S' dt dt' v d :
  (∀ k x, k.1 = v → S' !! k = Some x ∧ k ∉ X' ↔ S !! k = Some x ∧ k ∉ X) →
  (∀ k x, k.1 = v → earned dt' d k x = earned dt d k x) →
  claims X' S' dt' v d = claims X S dt v d.
Proof.
  intros HS He. rewrite !claims_filter.
  assert (base.filter (λ p, counted X' v p.1) S' = base.filter (λ p, counted X v p.1) S) as ->.
  { apply map_eq. intros k. apply option_eq. intros x. rewrite !map_lookup_filter_Some. unfold counted. cbn.
    specialize (HS k x). naive_solver. }
  apply key_sum_ext. intros k x [_ [Hk _]]%map_lookup_filter_Some. by apply He.
Qed.
Lemma claims_ext X X' S S' dt v d :
  (∀ k, k ∉ X → k ∉ X' → S' !! k = S !! k) → (∀ k, k ∈ X ∖ X' → S' !! k = None) → (∀ k, k ∈ X' ∖ X → S !! k = None) →
  claims X' S' dt v d = claims X S dt v d.
Proof.
  intros Hsame Hin Hout. apply claims_eq; [|done]. intros k x _. destruct (decide (k ∈ X)), (decide (k ∈ X')).
  - naive_solver.
  - assert (S' !! k = None) by (apply Hin; set_solver). naive_solver.
  - assert (S !! k = None) by (apply Hout; set_solver). naive_solver.
  - rewrite Hsame by done. naive_solver.
Qed.

(** Other votes that are being changed: none that is there starts or stops
    being one of them. *)
Lemma reopen_inv lo X X' old S dt :
  on_inv lo X old S dt → (∀ k x, S !! k = Some x → k ∈ X ↔ k ∈ X') →
  (∀ k, k ∈ X' → is_Some (dt_current dt !! k.1) → 2 ≤ period dt k.1) → on_inv lo X' old S dt.
Proof.
  intros I HX Hopen. split; try apply I; try done.
  - intros k x Hk Hx. apply (oi_vote _ _ _ _ _ I); [done|]. by rewrite (HX k x).
  - intros k i Hi. destruct (oi_info _ _ _ _ _ I _ _ Hi) as (Hx & [x Hk] & Hb). split; [by rewrite <- (HX k x)|eauto].
  - intros v d Hv. rewrite (claims_ext X X' S S); [by apply (oi_solvent _ _ _ _ _ I)|done|..].
    + intros k [H1 H2]%elem_of_difference. destruct (S !! k) as [x|] eqn:Hk; [|done]. exfalso. by apply H2, (HX k x).
    + intros k [H1 H2]%elem_of_difference. destruct (S !! k) as [x|] eqn:Hk; [|done]. exfalso. by apply H2, (HX k x).
Qed.
Lemma revote_inv lo X old S S' dt :
  on_inv lo X old S dt → (∀ k, k ∉ X → S' !! k = S !! k) → (∀ k x, S' !! k = Some x → 0 ≤ x) →
  on_inv lo X old S' dt.
Proof.
  intros I HS Hpos. split; try apply I; try done.
  - intros k x Hk Hx. apply (oi_vote _ _ _ _ _ I); [by rewrite <- HS|done].
  - intros k i Hi. destruct (oi_info _ _ _ _ _ I _ _ Hi) as (Hx & Hk & Hb). split; [done|]. by rewrite HS.
  - intros v d Hv. rewrite (claims_ext X X S S'); [by apply (oi_solvent _ _ _ _ _ I)|auto|set_solver..].
Qed.

(** ** Validators that come and go *)

Definition removed (v : string) (pool : option (list DecCoin)) (dt : Distr) : Distr :=
  mkDistr pool (dt_proposer dt) (dt_withdrawAddrs dt) (delete v (dt_commissions dt)) (dt_initExisted dt) (dt_infos dt)
    (base.filter (λ x, x.1.1 ≠ v) (dt_historical dt)) (delete v (dt_current dt)) (delete v (dt_outstanding dt))
    (dt_params dt).

Lemma remove_inv lo X old S dt v pool :
  on_inv lo X old S dt → (∀ k x, S !! k = Some x → k.1 = v → k ∈ X) → (∀ p, pool = Some p → wf_coins p) →
  on_inv lo X (old ∖ {[ v ]}) S (removed v pool dt).
Proof.
  intros I Hnone Hpool. pose proof (oi_coins _ _ _ _ _ I) as [C1 C2 C3 C4 C5].
  assert (∀ w, w ≠ v → dt_current (removed v pool dt) !! w = dt_current dt !! w) as Hcur
    by (intros w Hw; cbn; by rewrite lookup_delete_ne).
  assert (dt_current (removed v pool dt) !! v = None) as Hgone by (cbn; by rewrite lookup_delete_eq).
  assert (∀ w, w ≠ v → period (removed v pool dt) w = period dt w) as Hper
    by (intros w Hw; unfold period; by rewrite Hcur).
  assert (∀ w, w ≠ v → last (removed v pool dt) w = last dt w) as Hlast by (intros w Hw; unfold last; by rewrite Hper).
  assert (∀ w, is_Some (dt_current (removed v pool dt) !! w) → w ≠ v) as Hne by (intros w [c Hc] ->; congruence).
  assert (∀ k, k.1 ≠ v → dt_historical (removed v pool dt) !! k = dt_historical dt !! k) as Hh.
  { intros k Hk. cbn. apply option_eq. intros h. rewrite map_lookup_filter_Some. naive_solver. }
  assert (∀ k i, dt_infos dt !! k = Some i → k.1 ≠ v) as Hi.
  { intros k i Hi Ek. destruct (oi_info _ _ _ _ _ I _ _ Hi) as (Hx & [x Hk] & _). by eapply Hx, Hnone. }
  split.
  - split; cbn; try done.
    + intros w c [_ ?]%lookup_delete_Some. by eapply C2.
    + intros w c [_ ?]%lookup_delete_Some. by eapply C3.
    + intros w c [_ ?]%lookup_delete_Some. by eapply C4.
    + intros k h [? _]%map_lookup_filter_Some. by eapply C5.
  - intros w. cbn. destruct (decide (w = v)) as [->|Hw]; [by rewrite !lookup_delete_eq|].
    rewrite !lookup_delete_ne by done. apply (oi_cur _ _ _ _ _ I).
  - intros w. cbn. destruct (decide (w = v)) as [->|Hw]; [by rewrite !lookup_delete_eq|].
    rewrite !lookup_delete_ne by done. apply (oi_comm _ _ _ _ _ I).
  - intros w Hw. pose proof (Hne _ Hw). rewrite Hper by done. rewrite Hcur in Hw by done. by apply (oi_period _ _ _ _ _ I).
  - intros k Hk Hw. pose proof (Hne _ Hw). rewrite Hper by done. rewrite Hcur in Hw by done. by apply (oi_open _ _ _ _ _ I).
  - apply I.
  - intros k x Hk Hx. assert (k.1 ≠ v) by (intros Ek; by eapply Hx, Hnone). rewrite Hcur by done.
    destruct (oi_vote _ _ _ _ _ I _ _ Hk Hx) as [? Ho]. split; [done|]. cbn. destruct (dt_infos dt !! k); [done|set_solver].
  - intros k i Hk. destruct (oi_info _ _ _ _ _ I _ _ Hk) as (? & ? & ?). rewrite Hlast by (by eapply Hi). done.
  - intros w [Hw ?]%elem_of_difference. rewrite Hcur by set_solver. by apply (oi_old _ _ _ _ _ I).
  - intros k. destruct (decide (k.1 = v)) as [Ek|Ek].
    + assert (dt_historical (removed v pool dt) !! k = None) as Hn.
      { cbn. apply map_lookup_filter_None_2. right. intros h _ Hf. by apply Hf. }
      unfold hcount. rewrite Hn. unfold refs, follows, preceded.
      rewrite (decide_False (P := is_Some _ ∧ _)) by (intros [? _]; by eapply Hne).
      rewrite (decide_False (P := _ ∧ _ ∈ _)) by (rewrite Ek; set_solver).
      rewrite starters_zero; [done|]. intros k' i Hk' E' _. eapply Hi; [exact Hk'|]. by rewrite E'.
    + unfold hcount. rewrite Hh by done. pose proof (oi_ref _ _ _ _ _ I k) as Hk. unfold hcount in Hk. rewrite Hk.
      unfold refs. f_equal; [f_equal|].
      * unfold follows. apply decide_ext. by rewrite Hcur, Hlast.
      * unfold preceded. apply decide_ext. set_solver.
  - intros k h [Hk _]%map_lookup_filter_Some. by eapply (oi_refpos _ _ _ _ _ I).
  - intros w p d Hp. assert (w ≠ v) as Hw.
    { intros ->. destruct Hp as [h [_ Hf]%map_lookup_filter_Some]. by apply Hf. }
    unfold hratio. rewrite Hlast, !Hh by done. rewrite Hh in Hp by done. by apply (oi_ratio _ _ _ _ _ I).
  - intros w d Hw. pose proof (Hne _ Hw) as Hwv. rewrite Hcur in Hw by done. pose proof (oi_solvent _ _ _ _ _ I w d Hw) as Hs.
    assert (claims X S (removed v pool dt) w d = claims X S dt w d) as ->.
    { apply key_sum_ext. intros k x _. case_decide as Hc; [|done]. destruct Hc as [<- _]. unfold earned, hratio.
      rewrite Hlast, !Hh by done. done. }
    unfold held, pending in *. rewrite Hcur by done. cbn. rewrite !lookup_delete_ne by done. exact Hs.
Qed.

(** A validator starts with period 1; [n] says whether there can be votes for
    it already, which [S] does not have yet. *)
Definition installed (v : string) (n : bool) (c : list DecCoin) (comm : gmap string (list DecCoin)) (dt : Distr) : Distr :=
  mkDistr (dt_feePool dt) (dt_proposer dt) (dt_withdrawAddrs dt) comm (dt_initExisted dt) (dt_infos dt)
    (<[(v, 0) := mkHistorical [] (if n then 2 else 1)]> (dt_historical dt))
    (<[v := mkCurrent [] 1]> (dt_current dt)) (<[v := c]> (dt_outstanding dt)) (dt_params dt).

Lemma install_inv old S S' dt v n c comm :
  on_inv (λ _, 1) ∅ old S dt → dt_current dt !! v = None →
  wf_coins c → default [] (comm !! v) = c → (∀ w, w ≠ v → comm !! w = dt_commissions dt !! w) →
  (∀ k, k.1 ≠ v → S' !! k = S !! k) → (∀ k x, S' !! k = Some x → k.1 = v → 0 ≤ x ∧ n = true) →
  on_inv (λ _, 1) ∅ (if n then {[ v ]} ∪ old else old) S' (installed v n c comm dt).
Proof.
  intros I Hv Hc Hcv Hcomm HS Hnew. pose proof (oi_coins _ _ _ _ _ I) as [C1 C2 C3 C4 C5].
  set (dt' := installed v n c comm dt).
  assert (∀ k x, S !! k = Some x → k.1 ≠ v) as Hnov.
  { intros k x Hk Ek. destruct (oi_vote _ _ _ _ _ I k x Hk) as [[? Hs] _]; [set_solver|]. rewrite Ek in Hs. congruence. }
  assert (∀ k i, dt_infos dt !! k = Some i → k.1 ≠ v) as Hi.
  { intros k i Hi. destruct (oi_info _ _ _ _ _ I _ _ Hi) as (_ & [x Hk] & _). by eapply Hnov. }
  assert (v ∉ old) as Hvo by (intros [? Ho]%(oi_old _ _ _ _ _ I); congruence).
  assert (∀ p, dt_historical dt !! (v, p) = None) as Hnoh.
  { intros p. destruct (dt_historical dt !! (v, p)) as [h|] eqn:Hh; [|done]. exfalso.
    pose proof (oi_refpos _ _ _ _ _ I _ _ Hh). pose proof (oi_ref _ _ _ _ _ I (v, p)) as Hr. unfold hcount in Hr.
    rewrite Hh in Hr. unfold refs, follows, preceded in Hr. cbn [fst snd] in Hr. rewrite Hv in Hr.
    rewrite decide_False in Hr by (intros [[] _]; done). rewrite decide_False in Hr by (intros [_ ?]; done).
    rewrite starters_zero in Hr; [lia|]. intros k' i Hk' E' _. by eapply Hi. }
  assert (∀ w, w ≠ v → dt_current dt' !! w = dt_current dt !! w) as Hcur by (intros w Hw; cbn; by rewrite lookup_insert_ne).
  assert (dt_current dt' !! v = Some (mkCurrent [] 1)) as Hcurv by (cbn; by rewrite lookup_insert_eq).
  assert (period dt' v = 1 ∧ last dt' v = 0) as [Hper1 Hlast1] by (unfold last, period; by rewrite Hcurv).
  assert (∀ w, w ≠ v → period dt' w = period dt w) as Hper by (intros w Hw; unfold period; by rewrite Hcur).
  assert (∀ w, w ≠ v → last dt' w = last dt w) as Hlast by (intros w Hw; unfold last; by rewrite Hper).
  assert (∀ k, k.1 ≠ v → dt_historical dt' !! k = dt_historical dt !! k) as Hh.
  { intros k Hk. cbn. rewrite lookup_insert_ne; [done|]. intros <-. done. }
  assert (∀ d, hratio (dt_historical dt') (v, 0) d = 0) as Hz by (intros d; cbn; by rewrite hratio_insert, decide_True).
  split.
  - split; cbn; try done.
    + intros w c0 [[_ <-]|[_ ?]]%lookup_insert_Some; [done|by eapply C2].
    + intros w c0 Hw. destruct (decide (w = v)) as [->|Hne]; [by rewrite Hw in Hcv; cbn in Hcv; subst c0|].
      rewrite Hcomm in Hw by done. by eapply C3.
    + intros w c0 [[_ <-]|[_ ?]]%lookup_insert_Some; [apply wf_coins_nil|by eapply C4].
    + intros k h [[_ <-]|[_ ?]]%lookup_insert_Some; [apply wf_coins_nil|by eapply C5].
  - intros w. cbn. destruct (decide (w = v)) as [->|Hw]; [by rewrite !lookup_insert_eq|].
    rewrite !lookup_insert_ne by done. apply (oi_cur _ _ _ _ _ I).
  - intros w. cbn. destruct (decide (w = v)) as [->|Hw]; [rewrite lookup_insert_eq; eauto|].
    rewrite lookup_insert_ne, Hcomm by done. apply (oi_comm _ _ _ _ _ I).
  - intros w Hw. destruct (decide (w = v)) as [->|Hne]; [lia|]. rewrite Hper by done. rewrite Hcur in Hw by done.
    by apply (oi_period _ _ _ _ _ I).
  - set_solver.
  - intros k x Hk. destruct (decide (k.1 = v)) as [Ek|Ek]; [by apply (Hnew k x)|]. rewrite HS in Hk by done.
    by apply (oi_pos _ _ _ _ _ I k).
  - intros k x Hk _. destruct (decide (k.1 = v)) as [Ek|Ek].
    + rewrite Ek, Hcurv. split; [eauto|]. change (dt_infos dt') with (dt_infos dt). destruct (dt_infos dt !! k) as [i|] eqn:Hi'.
      * by apply Hi in Hi'.
      * destruct (Hnew _ _ Hk Ek) as [_ ->]. set_solver.
    + rewrite HS in Hk by done. rewrite Hcur by done. destruct (oi_vote _ _ _ _ _ I k x Hk) as [? Ho]; [set_solver|].
      split; [done|]. change (dt_infos dt') with (dt_infos dt). destruct (dt_infos dt !! k); [done|]. destruct n; set_solver.
  - intros k i Hk. pose proof (Hi _ _ Hk). destruct (oi_info _ _ _ _ _ I _ _ Hk) as (? & ? & ?).
    rewrite HS, Hlast by done. done.
  - intros w Hw. destruct (decide (w = v)) as [->|Hne]; [rewrite Hcurv; eauto|]. rewrite Hcur by done.
    apply (oi_old _ _ _ _ _ I). destruct n; set_solver.
  - intros [w p]. destruct (decide (w = v)) as [->|Hne].
    + unfold refs, follows, preceded. cbn [fst snd]. rewrite starters_zero by (intros k' i Hk' E' _; by eapply Hi).
      rewrite (decide_ext (is_Some (dt_current dt' !! v) ∧ p = last dt' v) (p = 0)) by (rewrite Hcurv, Hlast1; naive_solver).
      cbn [dt' installed dt_historical]. rewrite hcount_insert. destruct (decide (p = 0)) as [->|Hp].
      * rewrite decide_True by done. cbn. destruct n; [rewrite decide_True by set_solver|rewrite decide_False by naive_solver]; done.
      * rewrite !decide_False by naive_solver. unfold hcount. by rewrite Hnoh.
    + pose proof (oi_ref _ _ _ _ _ I (w, p)) as Hk. unfold hcount in *. rewrite Hh by done. rewrite Hk.
      unfold refs. f_equal; [f_equal|].
      * unfold follows. apply decide_ext. cbn [fst snd]. by rewrite Hcur, Hlast.
      * unfold preceded. apply decide_ext. cbn [fst snd]. destruct n; set_solver.
  - intros k h. cbn [dt' installed dt_historical]. intros [[_ <-]|[_ Hk]]%lookup_insert_Some; [by destruct n|by eapply (oi_refpos _ _ _ _ _ I)].
  - intros w p d Hp. destruct (decide (w = v)) as [->|Hw].
    + destruct (decide (p = 0)) as [->|Hp']; [by rewrite Hlast1|]. exfalso. cbn in Hp.
      rewrite lookup_insert_ne, Hnoh in Hp by naive_solver. by destruct Hp.
    + unfold hratio. rewrite Hlast, !Hh by done. rewrite Hh in Hp by done. by apply (oi_ratio _ _ _ _ _ I).
  - intros w d Hw. destruct (decide (w = v)) as [->|Hwv].
    + assert (claims ∅ S' dt' v d = 0) as ->.
      { transitivity (key_sum (λ _ _, 0 * 0) S'); [|rewrite key_sum_scale; lia]. apply key_sum_ext. intros k x _.
        case_decide as Hcd; [|done]. destruct Hcd as [Ek _]. unfold earned, started. rewrite Ek, Hlast1, Hz.
        change (dt_infos dt') with (dt_infos dt). destruct (dt_infos dt !! k) as [i|] eqn:Hi'; [by apply Hi in Hi'|].
        rewrite Hz. lia. }
      unfold pending. rewrite Hcurv. cbn [dt' installed dt_outstanding dt_commissions Cr_Rewards]. rewrite held_insert, decide_True by done.
      unfold held. rewrite Hcv, amount_of_nil. lia.
    + rewrite Hcur in Hw by done. pose proof (oi_solvent _ _ _ _ _ I w d Hw) as Hs.
      assert (claims ∅ S' dt' w d = claims ∅ S dt w d) as ->.
      { apply claims_eq; intros k x <-; [by rewrite HS|]. unfold earned, hratio. by rewrite Hlast, !Hh. }
      unfold held, pending in *. rewrite Hcur by done. cbn. rewrite !lookup_insert_ne, Hcomm by done. exact Hs.
Qed.
