(* ===== verification/DistrKeeper.v ===== *)
(** * Distribution: what the operations do

    What each operation of the module does to its records, when it returns:
    the invariant of the records is preserved, and the coins of the module's
    account are those of the community pool and of the rewards that have not
    been paid. *)
From S2P Require Import Prelude Decimal Denom Coins Bank CoinKeeper DecStr Staking StakingVals Slashing Distribution DistrProps.
#[local] Open Scope Z_scope.

(** ** Decomposing runs *)

Lemma must_Ok {S A} (o : option A) a (s s' : S) : must o s = (Ok a, s') ↔ o = Some a ∧ s' = s.
Proof. destruct o; cbn; [rewrite mret_Ok; naive_solver|rewrite panic_Ok; naive_solver]. Qed.
Lemma deref_Ok {S A} (o : option A) a (s s' : S) : deref o s = (Ok a, s') ↔ o = Some a ∧ s' = s.
Proof. destruct o; cbn; [rewrite mret_Ok; naive_solver|rewrite panic_Ok; naive_solver]. Qed.

Lemma get_must_Ok {S A} (f : S → option A) a (s s' : S) :
  (o ← gets f; must o) s = (Ok a, s') ↔ f s = Some a ∧ s' = s.
Proof.
  rewrite M_bind_Ok. split.
  - by intros (o & s1 & [-> ->]%gets_Ok & [-> ->]%must_Ok).
  - intros [E ->]. exists (f s), s. by rewrite gets_Ok, must_Ok.
Qed.
Lemma GetFeePool_Ok p dt dt' : GetFeePool dt = (Ok p, dt') ↔ dt_feePool dt = Some p ∧ dt' = dt.
Proof.
  unfold GetFeePool. rewrite M_bind_Ok. split.
  - intros (o & s & [-> ->]%gets_Ok & E). destruct (dt_feePool dt); [by apply mret_Ok in E as [-> ->]|by apply panic_Ok in E].
  - intros [E ->]. exists (dt_feePool dt), dt. rewrite gets_Ok, E. by rewrite mret_Ok.
Qed.
Lemma GetPreviousProposer_Ok p dt dt' : GetPreviousProposerConsAddr dt = (Ok p, dt') → dt' = dt.
Proof.
  unfold GetPreviousProposerConsAddr. intros (o & s & [-> ->]%gets_Ok & E)%M_bind_Ok.
  destruct (dt_proposer dt); [by apply mret_Ok in E as [-> ->]|by apply panic_Ok in E].
Qed.

Ltac dt_unfold H :=
  progress cbv beta delta [GetDelegatorWithdrawAddr SetDelegatorWithdrawAddr SetFeePool
    SetPreviousProposerConsAddr GetValidatorAccumulatedCommission
    SetValidatorAccumulatedCommission deleteValidatorAccumulatedCommission SetInitExistedValidatorFlag
    GetDelegatorStartingInfo SetDelegatorStartingInfo DeleteDelegatorStartingInfo
    GetValidatorHistoricalRewards SetValidatorHistoricalRewards DeleteValidatorHistoricalReward
    DeleteValidatorHistoricalRewards GetValidatorCurrentRewards SetValidatorCurrentRewards
    DeleteValidatorCurrentRewards GetValidatorOutstandingRewards SetValidatorOutstandingRewards
    DeleteValidatorOutstandingRewards on_distr on_coins] in H.
Ltac dt_step H :=
  lazymatch type of H with
  | must _ _ = (Ok _, _) => apply must_Ok in H as [H ->]
  | deref _ _ = (Ok _, _) => apply deref_Ok in H as [H ->]
  | GetFeePool _ = (Ok _, _) => apply GetFeePool_Ok in H as [H ->]
  | GetPreviousProposerConsAddr _ = (Ok _, _) => apply GetPreviousProposer_Ok in H as ->
  | _ => first [inv_ok_step H | dt_unfold H]
  end.
Ltac dt_inv := repeat match goal with H : _ = (Ok _, _) |- _ => dt_step H end.

(** ** The end of a period *)

Section Period.
Context `{StakingConfig}.

(** The total that the account of the module must hold. *)
Definition booked (dt : Distr) (d : string) : Z := pool_of dt d + held_all (dt_outstanding dt) d.

Lemma decrement_run v p dt u dt' :
  (∀ k h, dt_historical dt !! k = Some h → 0 < Hr_ReferenceCount h) →
  decrementReferenceCount v p dt = (Ok u, dt') →
  is_Some (dt_historical dt !! (v, p)) ∧ dt' = dt_set_historical (dec_ref (v, p)) dt.
Proof.
  intros Hpos. unfold decrementReferenceCount. intros E. dt_inv; match goal with Hx : dt_historical dt !! _ = Some ?x |- _ => rename x into h; rename Hx into H0 end;
    pose proof (Hpos _ _ H0) as Hp; (split; [eauto|]).
  - unfold dt_set_historical. f_equal. apply map_eq. intros k. rewrite lookup_dec_ref, H0.
    destruct (Z.eqb_spec (Hr_ReferenceCount h) 1); [|lia]. case_decide as Ek; [by rewrite Ek, lookup_delete_eq|].
    by rewrite lookup_delete_ne.
  - unfold dt_set_historical. f_equal. apply map_eq. intros k. rewrite lookup_dec_ref, H0.
    destruct (Z.eqb_spec (Hr_ReferenceCount h) 1); [lia|]. case_decide as Ek; [by rewrite Ek, lookup_insert_eq|].
    by rewrite lookup_insert_ne.
Qed.
Lemma increment_ref_run v p dt u dt' :
  incrementReferenceCount v p dt = (Ok u, dt') → dt' = dt_set_historical (inc_ref (v, p)) dt.
Proof.
  unfold incrementReferenceCount. intros E. dt_inv. unfold dt_set_historical. f_equal. apply map_eq. intros k.
  rewrite lookup_inc_ref, H0. case_decide as Ek; [by rewrite Ek, lookup_insert_eq|by rewrite lookup_insert_ne].
Qed.

Lemma increment_run ctx lo X old S v dt p dt' :
  incrementValidatorPeriod ctx v dt = (Ok p, dt') → CheckDistributionProposalValid ctx dt = true →
  on_inv lo X old S dt → votes_on X S (Va_OperatorAddress v) ≤ Va_DelegatorShares v → 0 ≤ Va_DelegatorShares v →
  ∃ c r o pool, dt_current dt !! Va_OperatorAddress v = Some c ∧ p = Cr_Period c ∧
    dt' = period_ended dt (Va_OperatorAddress v) c r o pool ∧ on_inv lo X old S dt' ∧
    (∀ d, booked dt' d = booked dt d).
Proof.
  intros E Hvalid I Hvotes Hsh. unfold incrementValidatorPeriod in E. apply M_bind_Ok in E as (b & s & E1 & E).
  apply gets_Ok in E1 as [-> ->]. rewrite Hvalid in E. cbn [negb] in E. cbv zeta in E.
  apply M_bind_Ok in E as (c & s & Hc & E). unfold GetValidatorCurrentRewards in Hc. apply get_must_Ok in Hc as [Hc ->].
  pose proof (oi_coins _ _ _ _ _ I) as [C1 C2 C3 C4 C5]. pose proof (C4 _ _ Hc) as Wc.
  set (op := Va_OperatorAddress v) in *.
  assert (∀ d, pending dt op d = amount_of (Cr_Rewards c) d) as Hpend by (intros d; unfold pending; by rewrite Hc).
  destruct (Dec_IsZero (Va_DelegatorShares v)) eqn:Hz; dt_inv.
  - match goal with H : dt_feePool _ = Some ?p |- _ => rename p into pool; rename H into Hpool end.
    match goal with H : dt_outstanding _ !! _ = Some ?p |- _ => rename p into o; rename H into Ho end.
    match goal with H : dt_historical _ !! _ = Some ?p |- _ => rename p into h; rename H into Hh end.
    match goal with H : DecCoins_Add pool _ = Ok ?p |- _ => rename p into pool'; rename H into Epool end.
    match goal with H : DecCoins_Sub _ _ = Ok ?p |- _ => rename p into o'; rename H into Eo end.
    match goal with H : DecCoins_Add _ [] = Ok ?p |- _ => rename p into r; rename H into Er end.
    match goal with H : decrementReferenceCount _ _ _ = _ |- _ => rename H into Ed end.
    apply decrement_run in Ed as [_ ->]; [|apply I]. cbn in Hh.
    apply Add_wf in Epool as [Wp Ap]; [|by eapply C1|done]. apply Sub_wf in Eo as [Wo Ao]; [|by eapply C2|done].
    apply Add_wf in Er as [Wr Ar]; [|by eapply C5|apply wf_coins_nil].
    exists c, r, o', (Some pool'). split; [done|]. split; [done|]. split; [done|]. split.
    + apply (end_period_inv lo X old S dt op c r o' (Some pool') (λ _, 0)); try done.
      * by intros p [= <-].
      * intros d. rewrite Ar. unfold hratio. rewrite Hh. done.
      * intros d. rewrite Ao, Hpend. unfold held. rewrite Ho. cbn [default from_option id]. lia.
    + intros d. unfold booked, pool_of. cbn [dt_feePool dt_outstanding dt_set_current dt_set_historical dt_set_outstanding dt_set_feePool].
      rewrite held_all_insert. cbn [default from_option id]. unfold held. rewrite Hpool, Ho. cbn [default from_option id]. rewrite Ap, Ao. lia.
  - match goal with H : dt_historical _ !! _ = Some ?p |- _ => rename p into h; rename H into Hh end.
    match goal with H : DecCoins_QuoDecTruncate _ _ = Ok ?p |- _ => rename p into q; rename H into Eq end.
    match goal with H : DecCoins_Add _ _ = Ok ?p |- _ => rename p into r; rename H into Er end.
    match goal with H : decrementReferenceCount _ _ _ = _ |- _ => rename H into Ed end.
    apply decrement_run in Ed as [_ ->]; [|apply I]. rewrite Dec_IsZero_eq in Hz. apply Z.eqb_neq in Hz.
    apply QuoDecTruncate_wf in Eq as [Wq Aq]; [|done|lia]. apply Add_wf in Er as [Wr Ar]; [|by eapply C5|done].
    destruct (proj1 (oi_cur _ _ _ _ _ I op)) as [o Ho]; [eauto|].
    set (dt1 := dt_set_current _ _).
    assert (dt1 = period_ended dt op c r o (dt_feePool dt)) as ->.
    { unfold dt1, period_ended, dt_set_current, dt_set_historical. cbn. by rewrite (insert_id _ _ _ Ho). }
    exists c, r, o, (dt_feePool dt). split; [done|]. split; [done|]. split; [done|]. split.
    + apply (end_period_inv lo X old S dt op c r o (dt_feePool dt) (amount_of q)); try done.
      * by eapply C2.
      * intros d. by apply wf_amount_nonneg.
      * intros d. rewrite Ar. unfold hratio. by rewrite Hh.
      * intros d. rewrite Hpend. unfold held. rewrite Ho. cbn [default from_option id].
        pose proof (wf_amount_nonneg _ d Wc). pose proof (wf_amount_nonneg _ d Wq) as Hq. rewrite Aq in *.
        assert (0 < precisionReuse) by done.
        pose proof (quot_bounds (amount_of (Cr_Rewards c) d * precisionReuse) (Va_DelegatorShares v)). nia.
    + intros d. unfold booked, pool_of. cbn [period_ended dt_feePool dt_outstanding]. by rewrite (insert_id _ _ _ Ho).
Qed.

(** ** Delegations *)

(** A vote as the staking module has it: [del] votes for the validator [v]
    with [x] shares. *)
Record voting (S : Votes) (t : Stakes) (v : Validator) (del : string) (x : Dec) : Prop := {
  vg_vote : S !! (Va_OperatorAddress v, del) = Some x;
  vg_del : ∃ d, st_delegators t !! del = Some d ∧ De_DelegatorAddress d = del ∧ De_Shares d = x }.

Lemma ensure_run ctx old S X t v del x dt u dt' :
  ensureStartingInfo ctx t v del dt = (Ok u, dt') → CheckDistributionProposalValid ctx dt = true →
  on_inv (λ _, 1) X old S dt → voting S t v del x → (Va_OperatorAddress v, del) ∉ X →
  on_inv (floor_at (Va_OperatorAddress v, del) (λ _, 1)) X old S dt' ∧
  is_Some (dt_infos dt' !! (Va_OperatorAddress v, del)) ∧ (∀ d, booked dt' d = booked dt d) ∧
  dt' = mkDistr (dt_feePool dt) (dt_proposer dt) (dt_withdrawAddrs dt) (dt_commissions dt) (dt_initExisted dt)
    (dt_infos dt') (dt_historical dt') (dt_current dt) (dt_outstanding dt) (dt_params dt).
Proof.
  intros E Hvalid I [Hv (d & Hd & Hk & Hx)] HX. unfold ensureStartingInfo in E.
  apply M_bind_Ok in E as (b & s & E1 & E). apply gets_Ok in E1 as [-> ->]. unfold HasDelegatorStartingInfo in E.
  case_bool_decide as Hi.
  - apply mret_Ok in E as [_ ->]. split; [|by rewrite dt_eta]. destruct I. split; try done.
    intros k i Hki. destruct (oi_info k i Hki) as (? & ? & ?). split; [done|]. split; [done|]. unfold floor_at. case_decide; lia.
  - apply M_bind_Ok in E as (d' & s & E1 & E). apply deref_Ok in E1 as [E1 ->]. rewrite Hd in E1. injection E1 as <-.
    apply M_bind_Ok in E as (u1 & s & E1 & E). apply guard_not_Ok in E1 as [_ ->].
    unfold initExistedDelegationStartInfo in E. apply M_bind_Ok in E as (b & s & E1 & E). apply gets_Ok in E1 as [-> ->].
    rewrite Hvalid in E. cbn [negb] in E. apply M_bind_Ok in E as (u2 & s & E1 & E).
    apply increment_ref_run in E1 as ->. unfold SetDelegatorStartingInfo in E. apply modify_Ok in E as ->.
    rewrite Hk, Hx. split; [|split; [|done]].
    + apply (start_existed_inv (λ _, 1) X old S dt (Va_OperatorAddress v, del)); try done. by apply eq_None_not_Some.
    + cbn. rewrite lookup_insert_eq. eauto.
Qed.

(** What is computed is what the vote has earned, rounded down. *)
Lemma calculate_run ctx lo X old S t v del x dt c dt' :
  calculateDelegationRewards ctx t v del (last dt (Va_OperatorAddress v)) dt = (Ok c, dt') →
  on_inv lo X old S dt → voting S t v del x → is_Some (dt_infos dt !! (Va_OperatorAddress v, del)) →
  dt' = dt ∧ wf_coins c ∧ ∀ d, 0 ≤ precisionReuse * amount_of c d ≤ earned dt d (Va_OperatorAddress v, del) x.
Proof.
  intros E I [Hv (d & Hd & Hk & Hx)] [i Hi]. destruct (oi_info _ _ _ _ _ I _ _ Hi) as (HX & _ & _).
  destruct (oi_vote _ _ _ _ _ I _ _ Hv HX) as [_ Hst]. rewrite Hi in Hst.
  pose proof (oi_pos _ _ _ _ _ I _ _ Hv) as Hpos.
  unfold calculateDelegationRewards in E. apply M_bind_Ok in E as (d' & s & E1 & E).
  apply deref_Ok in E1 as [E1 ->]. rewrite Hd in E1. injection E1 as <-. rewrite Hk in E.
  apply M_bind_Ok in E as (i' & s & E1 & E). unfold GetDelegatorStartingInfo in E1. apply get_must_Ok in E1 as [E1 ->].
  rewrite Hi in E1. injection E1 as <-. destruct (_ =? _).
  { apply mret_Ok in E as [-> ->]. split; [done|]. split; [apply wf_coins_nil|]. intros d0. cbn [amount_of].
    pose proof (earned_nonneg I d0 _ _ Hv HX). rewrite amount_of_nil. lia. }
  cbv zeta in E. apply M_bind_Ok in E as (u1 & s & E1 & E). apply panic_if_Ok in E1 as [_ ->].
  apply M_bind_Ok in E as (raw & s & E1 & E). apply lift_Ok in E as [E ->].
  unfold calculateDelegationRewardsBetween in E1. dt_inv.
  match goal with H : dt_historical _ !! (_, Sf_PreviousPeriod i) = Some ?h |- _ => rename h into hs; rename H into Hs end.
  match goal with H : dt_historical _ !! (_, last _ _) = Some ?h |- _ => rename h into he; rename H into He end.
  match goal with H : DecCoins_Sub _ _ = Ok ?p |- _ => rename p into df; rename H into Ed end.
  match goal with H : DecCoins_MulDecTruncate _ _ = Ok ?p |- _ => rename H into Em end.
  pose proof (oi_coins _ _ _ _ _ I) as [C1 C2 C3 C4 C5].
  apply Sub_wf in Ed as [Wd Ad]; [|by eapply C5|by eapply C5]. apply MulDecTruncate_wf in Em as [Wm Am]; [|done|by rewrite Hst].
  apply Add_wf in E as [Wc Ac]; [|apply wf_coins_nil|done]. split; [done|]. split; [done|]. intros d0.
  rewrite Ac, amount_of_nil, Am. unfold earned, hratio, started. rewrite Hi. cbn [fst]. rewrite He, Hs, <- Ad, Hst.
  pose proof (wf_amount_nonneg _ d0 Wd). assert (0 < precisionReuse) by done.
  pose proof (quot_bounds (amount_of df d0 * x) precisionReuse). pose proof (quot_nonneg (amount_of df d0 * x) precisionReuse). nia.
Qed.

Lemma initialize_run ctx X old S t v del x dt u dt' :
  initializeDelegation ctx t v del dt = (Ok u, dt') → CheckDistributionProposalValid ctx dt = true →
  on_inv (λ _, 1) X old S dt → S !! (v, del) = Some x → (v, del) ∈ X →
  (∃ d, st_delegators t !! del = Some d ∧ De_Shares d = x) →
  on_inv (λ _, 1) (X ∖ {[ (v, del) ]}) old S dt' ∧ (∀ d, booked dt' d = booked dt d) ∧
  dt' = mkDistr (dt_feePool dt) (dt_proposer dt) (dt_withdrawAddrs dt) (dt_commissions dt) (dt_initExisted dt)
    (dt_infos dt') (dt_historical dt') (dt_current dt) (dt_outstanding dt) (dt_params dt).
Proof.
  intros E Hvalid I Hv HX (d & Hd & Hx). unfold initializeDelegation in E.
  apply M_bind_Ok in E as (b & s & E1 & E). apply gets_Ok in E1 as [-> ->]. rewrite Hvalid in E. cbn [negb] in E.
  apply M_bind_Ok in E as (c & s & Hc & E). unfold GetValidatorCurrentRewards in Hc. apply get_must_Ok in Hc as [Hc ->].
  cbv zeta in E. apply M_bind_Ok in E as (u1 & s & E1 & E). apply increment_ref_run in E1 as ->.
  apply M_bind_Ok in E as (d' & s & E1 & E). apply deref_Ok in E1 as [E1 ->]. rewrite Hd in E1. injection E1 as <-.
  unfold SetDelegatorStartingInfo in E. apply modify_Ok in E as ->. split; [|done].
  assert (Cr_Period c - 1 = last dt v) as -> by (unfold last, period; by rewrite Hc).
  rewrite Hx. apply (start_vote_inv X old S dt (v, del) x); try done.
Qed.
End Period.

(** ** Rewards that are paid *)

Section Keeper.
Context {C : Type} `{CoinKeeper C} `{!CoinKeeperLaws C} `{StakingConfig} `{DistrConfig}.
Context (distr : string).
Hypothesis Hmod : ck_modaddr (S := C) DistrModuleName = Some distr.
Hypothesis Hblack : ck_Blacklisted (S := C) distr = true.
Implicit Types (k : Distributed C).

(** The account of the module gained [δ], and no other account lost. *)
Record flow (k k' : Distributed C) (δ : string → Z) : Prop := {
  fl_wf : ck_wf (di_base k) → ck_wf (di_base k');
  fl_balance d : ck_balance (di_base k') distr d = ck_balance (di_base k) distr d + δ d }.

Lemma send_run addr coins k u k' :
  sendFromModule addr coins k = (Ok u, k') →
  wf_coins coins ∧ ck_Blacklisted (S := C) addr = false ∧ flow k k' (λ d, - amount_of coins d) ∧
  di_distr k' = di_distr k ∧ kmove (di_base k) (di_base k') distr addr coins.
Proof.
  unfold sendFromModule, on_coins. intros (c' & E & ->)%zoom_Ok.
  apply law_ModuleToAccount in E as (Hb & a & Ha & Hm). rewrite Hmod in Ha. injection Ha as <-.
  split; [apply Hm|]. split; [done|]. split; [|done]. split; [apply Hm|]. intros d. cbn. rewrite (km_balance _ _ _ _ _ Hm).
  unfold at_addr. rewrite (decide_True (P := distr = distr)) by done. rewrite decide_False by congruence. lia.
Qed.

(** The coins of a reward, where they are not nothing, go to [a]. *)
Record paid (a : string) (coins : list DecCoin) (k k' : Distributed C) : Prop := {
  pd_distr : di_distr k' = di_distr k;
  pd_flow : flow k k' (λ d, - amount_of coins d);
  pd_addr : DecCoins_IsZero coins = false → ck_Blacklisted (S := C) a = false;
  pd_balance y d : ck_balance (di_base k') y d
    = ck_balance (di_base k) y d + at_addr a coins y d - at_addr distr coins y d }.

(** The code treats an error of the transfer in different ways, [W]. *)
Lemma pay_run (W : M (Distributed C) unit → M (Distributed C) unit) (addr : Distr → string) coins k u k' :
  (∀ m k u k', W m k = (Ok u, k') → m k = (Ok u, k')) →
  (if DecCoins_IsZero coins then mret () else withdrawAddr ← on_distr (gets addr); W (sendFromModule withdrawAddr coins)) k
    = (Ok u, k') → paid (addr (di_distr k)) coins k k'.
Proof.
  intros HW. destruct (DecCoins_IsZero coins) eqn:Hz.
  - intros [_ ->]%mret_Ok. split; [done| |by rewrite Hz|].
    + split; [done|]. intros d. rewrite (IsZero_amount _ d Hz). lia.
    + intros y d. unfold at_addr. rewrite (IsZero_amount _ d Hz). repeat case_decide; lia.
  - intros (a & k1 & E1 & E)%M_bind_Ok. unfold on_distr in E1. apply zoom_Ok in E1 as (dt1 & E1 & ->).
    apply gets_Ok in E1 as [-> ->]. apply HW, send_run in E as (_ & Hb & [F1 F2] & E & M). split; [done| |done|].
    + split; [exact F1|exact F2].
    + intros y d. exact (km_balance _ _ _ _ _ M y d).
Qed.

(** *** The rewards of a vote *)

(** What follows the end of the period. *)
Definition settle (ctx : Ctx) (t : Stakes) (v : Validator) (delAddress : string) (endingPeriod : Z)
    : M (Distributed C) (list DecCoin) :=
  let operator := Va_OperatorAddress v in
  rewardsRaw ← on_distr (calculateDelegationRewards ctx t v delAddress endingPeriod);
  outstanding ← on_distr (GetValidatorOutstandingRewards operator);
  rewards ← lift (DecCoins_Intersect rewardsRaw outstanding);
  _ ← lift (DecCoins_IsEqual rewards rewardsRaw);
  precision ← gets (λ k, GetRewardTruncatePrecision (di_distr k));
  '(coins, remainder) ← lift (DecCoins_TruncateWithPrec rewards precision);
  _ ← (if DecCoins_IsZero coins then mret ()
       else
         withdrawAddr ← on_distr (GetDelegatorWithdrawAddr delAddress);
         sendFromModule withdrawAddr coins);
  left ← lift (DecCoins_Sub outstanding rewards);
  _ ← on_distr (SetValidatorOutstandingRewards operator left);
  communityPool ← on_distr GetFeePool;
  communityPool ← lift (DecCoins_Add communityPool remainder);
  _ ← on_distr (SetFeePool communityPool);
  startingInfo ← on_distr (GetDelegatorStartingInfo operator delAddress);
  _ ← on_distr (decrementReferenceCount operator (Sf_PreviousPeriod startingInfo));
  _ ← on_distr (DeleteDelegatorStartingInfo operator delAddress);
  mret coins.

Lemma withdraw_split ctx t v del k coins k' :
  withdrawDelegationRewards ctx t v del k = (Ok coins, k') →
  CheckDistributionProposalValid ctx (di_distr k) = true ∧ ∃ dt1 dt2 p,
    ensureStartingInfo ctx t v del (di_distr k) = (Ok (), dt1) ∧
    incrementValidatorPeriod ctx v dt1 = (Ok p, dt2) ∧
    settle ctx t v del p (di_set_distr dt2 k) = (Ok coins, k').
Proof.
  intros E. unfold withdrawDelegationRewards in E.
  apply M_bind_Ok in E as (b & s & E1 & E). apply gets_Ok in E1 as [-> ->].
  apply M_bind_Ok in E as (u1 & s & E1 & E). apply guard_not_Ok in E1 as [Hvalid%negb_false_iff ->].
  split; [done|]. cbv zeta in E.
  apply M_bind_Ok in E as ([] & s & E1 & E). unfold on_distr in E1. apply zoom_Ok in E1 as (dt1 & E1 & ->).
  apply M_bind_Ok in E as (p & s & E2 & E). unfold on_distr in E2. apply zoom_Ok in E2 as (dt2 & E2 & ->).
  exists dt1, dt2, p. done.
Qed.

(** There is enough for what a vote has earned. *)
Lemma earned_covered lo X old S dt op del o i x d :
  on_inv lo X old S dt → dt_outstanding dt !! op = Some o → S !! (op, del) = Some x → dt_infos dt !! (op, del) = Some i →
  earned dt d (op, del) x ≤ precisionReuse * amount_of o d.
Proof.
  intros I Ho Hvote Hi. pose proof (oi_coins _ _ _ _ _ I) as [C1 C2 C3 C4 C5].
  destruct (oi_info _ _ _ _ _ I _ _ Hi) as (HX & _). pose proof (earned_le_claims I d _ _ Hvote HX) as H2.
  destruct (oi_vote _ _ _ _ _ I _ _ Hvote HX) as [Hcur _]. pose proof (oi_solvent _ _ _ _ _ I _ d Hcur) as H3.
  cbn [fst] in H2, H3. pose proof (held_nonneg (dt_commissions dt) op d C3) as H4.
  assert (0 ≤ pending dt op d) as H5
    by (unfold pending; destruct (dt_current dt !! op) as [c|] eqn:Ec; [apply wf_amount_nonneg; by eapply C4|done]).
  assert (held (dt_outstanding dt) op d = amount_of o d) as H6 by (unfold held; by rewrite Ho).
  assert (0 < precisionReuse) by done. nia.
Qed.

(** What no operation on votes changes. *)
Record onward (dt dt' : Distr) : Prop := {
  ow_flag : dt_initExisted dt' = dt_initExisted dt;
  ow_params : dt_params dt' = dt_params dt;
  ow_addrs : dt_withdrawAddrs dt' = dt_withdrawAddrs dt;
  ow_cur w : is_Some (dt_current dt' !! w) ↔ is_Some (dt_current dt !! w) }.

(** All of it is taken from
    what is outstanding, and what is cut off goes to the community pool. *)
Lemma settle_run ctx lo old S X t v del x k coins k' :
  settle ctx t v del (last (di_distr k) (Va_OperatorAddress v)) k = (Ok coins, k') →
  on_inv lo X old S (di_distr k) → (∀ p, p ≠ (Va_OperatorAddress v, del) → lo p = 1) →
  voting S t v del x → is_Some (dt_infos (di_distr k) !! (Va_OperatorAddress v, del)) →
  2 ≤ period (di_distr k) (Va_OperatorAddress v) →
  on_inv (λ _, 1) ({[ (Va_OperatorAddress v, del) ]} ∪ X) old S (di_distr k') ∧
  (∃ raw rest, calculateDelegationRewards ctx t v del (last (di_distr k) (Va_OperatorAddress v)) (di_distr k) = (Ok raw, di_distr k) ∧
    DecCoins_TruncateWithPrec raw (GetRewardTruncatePrecision (di_distr k)) = Ok (coins, rest)) ∧
  (∃ k1, paid (default del (dt_withdrawAddrs (di_distr k) !! del)) coins k k1 ∧ di_base k' = di_base k1) ∧
  (∀ d, booked (di_distr k') d = booked (di_distr k) d - amount_of coins d) ∧
  di_distr k' = repointed (di_distr k) (dt_feePool (di_distr k')) (dt_infos (di_distr k'))
    (dt_historical (di_distr k')) (dt_outstanding (di_distr k')).
Proof.
  intros E I Hlo Hv [i Hi] Hper. set (op := Va_OperatorAddress v) in *. destruct k as [base dt]. cbn [di_distr] in *.
  pose proof (oi_coins _ _ _ _ _ I) as [C1 C2 C3 C4 C5].
  unfold settle in E. cbv zeta in E. fold op in E.
  apply M_bind_Ok in E as (raw & s & E1 & E). unfold on_distr in E1. apply zoom_Ok in E1 as (dt1 & Eraw & ->). cbn [di_distr] in Eraw.
  destruct (calculate_run _ _ _ _ _ _ _ _ _ _ _ _ Eraw I Hv) as (-> & Wraw & Hraw); [eauto|]. fold op in Hraw.
  change (di_set_distr dt (mkDistributed base dt)) with (mkDistributed base dt) in E.
  apply M_bind_Ok in E as (o & s & E1 & E). unfold on_distr in E1. apply zoom_Ok in E1 as (dt1 & E1 & ->).
  unfold GetValidatorOutstandingRewards in E1. apply get_must_Ok in E1 as [Ho ->]. cbn [di_distr] in Ho.
  change (di_set_distr _ (mkDistributed base dt)) with (mkDistributed base dt) in E.
  apply M_bind_Ok in E as (rw & s & E1 & E). apply lift_Ok in E1 as [Erw ->].
  pose proof (C2 _ _ Ho) as Wo. apply Intersect_wf in Erw as [Wrw Arw]; [|done..].
  assert (∀ d, amount_of raw d ≤ amount_of o d) as Hle.
  { intros d. pose proof (earned_covered _ _ _ _ _ _ _ _ _ _ d I Ho (vg_vote _ _ _ _ _ Hv) Hi). pose proof (Hraw d).
    assert (0 < precisionReuse) by done. nia. }
  assert (rw = raw) as -> by (apply wf_coins_ext; [done..|]; intros d; rewrite Arw; pose proof (Hle d); lia). clear Arw.
  apply M_bind_Ok in E as (b & s & E1 & E). apply lift_Ok in E1 as [_ ->].
  apply M_bind_Ok in E as (pr & s & E1 & E). apply gets_Ok in E1 as [-> ->]. cbn [di_distr] in E.
  apply M_bind_Ok in E as ([cs rest] & s & E1 & E). apply lift_Ok in E1 as [Etr ->].
  destruct (TruncateWithPrec_Ok _ _ _ _ Etr) as (Wcs & Wrest & Asum).
  apply M_bind_Ok in E as (u3 & k1 & Epay & E). unfold GetDelegatorWithdrawAddr in Epay. apply (pay_run id) in Epay; [|done].
  pose proof (pd_distr _ _ _ _ Epay) as Hd1. destruct k1 as [base1 dt1]. cbn [di_distr] in Hd1. subst dt1.
  dt_inv. cbn [di_base di_distr di_set_distr] in *.
  match goal with H : DecCoins_Sub o raw = Ok ?p |- _ => rename p into o'; rename H into Eo end.
  match goal with H : dt_feePool _ = Some ?p |- _ => rename p into pool; rename H into Hpool end.
  match goal with H : DecCoins_Add pool rest = Ok ?p |- _ => rename p into pool'; rename H into Epool end.
  match goal with H : dt_infos (dt_set_feePool _ _) !! _ = Some ?p |- _ => rename p into i'; rename H into Hi' end.
  cbn [dt_infos dt_set_feePool dt_set_outstanding dt_feePool] in Hi', Hpool. rewrite Hi in Hi'. injection Hi' as <-.
  match goal with H : decrementReferenceCount _ _ _ = _ |- _ => rename H into Ed end.
  apply decrement_run in Ed as [_ ->]; [|apply I].
  apply Sub_wf in Eo as [Wo' Ao]; [|done..]. apply Add_wf in Epool as [Wp Ap]; [|by eapply C1|done].
  split; [|split; [eauto|split; [eauto|split; [|done]]]].
  - apply (settled_inv lo (λ _, 1) X old S dt (op, del) i x o' (Some pool')); try done.
    + apply Hv.
    + by intros p [= <-].
    + intros p Hp. by rewrite Hlo.
    + intros d. cbn [fst]. unfold held. rewrite Ho. cbn [default from_option id]. rewrite Ao. pose proof (Hraw d). lia.
  - intros d. unfold booked, pool_of. cbn [dt_feePool dt_outstanding dt_set_infos dt_set_historical dt_set_feePool dt_set_outstanding].
    rewrite held_all_insert, Hpool. cbn [default from_option id]. unfold held. rewrite Ho. cbn [default from_option id].
    rewrite Ap, Ao. pose proof (Asum d). lia.
Qed.

Lemma withdraw_run ctx old S X t v del x k coins k' :
  withdrawDelegationRewards ctx t v del k = (Ok coins, k') →
  on_inv (λ _, 1) X old S (di_distr k) → voting S t v del x → (Va_OperatorAddress v, del) ∉ X →
  votes_on X S (Va_OperatorAddress v) ≤ Va_DelegatorShares v → 0 ≤ Va_DelegatorShares v →
  on_inv (λ _, 1) ({[ (Va_OperatorAddress v, del) ]} ∪ X) old S (di_distr k') ∧
  (∃ k1, paid (default del (dt_withdrawAddrs (di_distr k) !! del)) coins k k1 ∧ di_base k' = di_base k1) ∧
  (∀ d, booked (di_distr k') d = booked (di_distr k) d - amount_of coins d) ∧
  onward (di_distr k) (di_distr k') ∧
  (∃ dt1 dt2 p raw rest, ensureStartingInfo ctx t v del (di_distr k) = (Ok (), dt1) ∧
    incrementValidatorPeriod ctx v dt1 = (Ok p, dt2) ∧ calculateDelegationRewards ctx t v del p dt2 = (Ok raw, dt2) ∧
    DecCoins_TruncateWithPrec raw (GetRewardTruncatePrecision (di_distr k)) = Ok (coins, rest)).
Proof.
  intros (Hvalid & dt1 & dt2 & p & E1 & E2 & E3)%withdraw_split I Hv HX Hvotes Hsh. destruct k as [base dt]. cbn [di_distr] in *.
  pose proof E1 as Eens. pose proof E2 as Einc. eapply ensure_run in E1 as (I1 & Hi1 & B1 & Q1); [|done..].
  assert (CheckDistributionProposalValid ctx dt1 = true) as Hvalid1 by (rewrite Q1; exact Hvalid).
  eapply increment_run in E2 as (c & r & o & pool & Hc & -> & Q2 & I2 & B2); [|done..].
  assert (last dt2 (Va_OperatorAddress v) = Cr_Period c ∧ 2 ≤ period dt2 (Va_OperatorAddress v)) as [El Hp2].
  { destruct (pe_per _ _ _ _ _ _ _ I1 Hc) as (? & _ & _). unfold last. rewrite Q2, pe_period, decide_True by done. lia. }
  rewrite <- El in E3. change dt2 with (di_distr (di_set_distr dt2 (mkDistributed base dt))) in E3 at 1.
  eapply settle_run in E3 as (I3 & (raw & rest & Ec & Et) & (k1 & P3 & E3) & B3 & Q3); [|exact I2| |exact Hv| |exact Hp2].
  - cbn [di_distr di_set_distr di_base] in *. split; [exact I3|]. split; [|split; [|split]].
    + exists (di_set_distr dt k1). split; [|done]. rewrite Q2 in P3. cbn [dt_withdrawAddrs period_ended] in P3. rewrite Q1 in P3.
      destruct P3 as [_ [F1 F2] F3 F4]. split; [done|split; [exact F1|exact F2]|exact F3|exact F4].
    + intros d. by rewrite B3, B2, B1.
    + rewrite Q3, Q2. rewrite Q1 in Hc |- *. split; try done. intros w. cbn. cbn in Hc.
      destruct (decide (w = Va_OperatorAddress v)) as [->|Hne]; [rewrite lookup_insert_eq, Hc; split; eauto|by rewrite lookup_insert_ne].
    + exists dt1, dt2, (Cr_Period c), raw, rest. rewrite <- El. split; [done|]. split; [by rewrite El|]. split; [done|].
      rewrite Q2 in Et. rewrite Q1 in Et. exact Et.
  - intros q Hq. unfold floor_at. by rewrite decide_False.
  - cbn [di_distr di_set_distr]. rewrite Q2. exact Hi1.
Qed.
End Keeper.
