(* ===== verification/DistrInv.v ===== *)
(** * Distribution: the invariant of the module

    Before the switch to the distribution on chain the records are only the
    commissions; after it the records of periods and starting points hold as
    well ([on_inv]).  Either way the account of the module holds the community
    pool and what was given to validators. *)
From S2P Require Import Prelude Decimal Denom Coins Bank CoinKeeper DecStr Staking StakingVals Slashing Distribution DistrProps DistrKeeper.
#[local] Open Scope Z_scope.

Abbreviation Vals := (gmap string Validator).

(** ** The records *)

Record off_inv (V : Vals) (dt : Distr) : Prop := {
  of_coins : coins_ok dt;
  of_infos : dt_infos dt = ∅;
  of_hist : dt_historical dt = ∅;
  of_cur : dt_current dt = ∅;
  of_out : dt_outstanding dt = ∅;
  of_comm v : is_Some (dt_commissions dt !! v) → is_Some (V !! v) }.

Record on_ok (X : gset (string * string)) (old : gset string) (S : Votes) (V : Vals) (dt : Distr) : Prop := {
  oo_inv : on_inv (λ _, 1) X old S dt;
  oo_vals v : is_Some (dt_current dt !! v) ↔ is_Some (V !! v) }.

Definition records (X : gset (string * string)) (old : gset string) (S : Votes) (V : Vals) (dt : Distr) : Prop :=
  if CheckInitExistedValidatorFlag dt then on_ok X old S V dt else off_inv V dt.

(** What the account of the module must hold. *)
Definition total (dt : Distr) (d : string) : Z :=
  pool_of dt d + held_all (if CheckInitExistedValidatorFlag dt then dt_outstanding dt else dt_commissions dt) d.

(** The switch and the parameters are as before. *)
Record steady (dt dt' : Distr) : Prop := {
  sd_flag : dt_initExisted dt' = dt_initExisted dt;
  sd_params : dt_params dt' = dt_params dt }.
#[global] Instance steady_preorder : PreOrder steady.
Proof. split; [done|]. intros dt1 dt2 dt3 [A1 B1] [A2 B2]. split; congruence. Qed.
Lemma steady_flag dt dt' : steady dt dt' → CheckInitExistedValidatorFlag dt' = CheckInitExistedValidatorFlag dt.
Proof. intros [E _]. unfold CheckInitExistedValidatorFlag. by rewrite E. Qed.
Lemma onward_steady dt dt' : onward dt dt' → steady dt dt'.
Proof. intros []. by split. Qed.

Section Records.
Context `{StakingConfig}.
Context (X : gset (string * string)) (old : gset string) (S : Votes) (V : Vals).

(** The switch happens after the upgrade. *)
Definition live (ctx : Ctx) (dt : Distr) : Prop :=
  CheckInitExistedValidatorFlag dt = true → HigherThanVenus2 (BlockHeight ctx) = true.

Lemma live_valid ctx dt : live ctx dt → CheckDistributionProposalValid ctx dt = CheckInitExistedValidatorFlag dt.
Proof.
  unfold live, CheckDistributionProposalValid. destruct (CheckInitExistedValidatorFlag dt); [|by rewrite andb_false_r].
  intros ->; done.
Qed.
Lemma records_coins dt : records X old S V dt → coins_ok dt.
Proof. unfold records. destruct (CheckInitExistedValidatorFlag dt); intros I; apply I. Qed.

Lemma live_steady ctx dt dt' : steady dt dt' → live ctx dt → live ctx dt'.
Proof. unfold live. by intros ->%steady_flag. Qed.

(** *** The community pool *)

Lemma pool_records dt p : wf_coins p → records X old S V dt → records X old S V (dt_set_feePool p dt).
Proof.
  unfold records. change (CheckInitExistedValidatorFlag (dt_set_feePool p dt)) with (CheckInitExistedValidatorFlag dt).
  intros Hp. destruct (CheckInitExistedValidatorFlag dt).
  - intros [[[? ? ? ? ?] ? ? ? ? ? ? ? ? ? ? ? ?] ?]. split; [|done]. split; try done. split; try done. by intros c [= <-].
  - intros [[? ? ? ? ?] ? ? ? ? ?]. split; try done. split; try done. by intros c [= <-].
Qed.
Lemma pool_total dt p d :
  total (dt_set_feePool p dt) d = total dt d - pool_of dt d + amount_of p d.
Proof.
  unfold total. change (CheckInitExistedValidatorFlag (dt_set_feePool p dt)) with (CheckInitExistedValidatorFlag dt).
  change (pool_of (dt_set_feePool p dt) d) with (amount_of p d).
  destruct (CheckInitExistedValidatorFlag dt); cbn [dt_outstanding dt_commissions dt_set_feePool]; lia.
Qed.

(** *** Fees for a validator *)

Lemma insert_dom {A} (m : gmap string A) v a b w : m !! v = Some a → is_Some (<[v := b]> m !! w) ↔ is_Some (m !! w).
Proof.
  intros Hv. destruct (decide (w = v)) as [->|Hne]; [rewrite lookup_insert_eq, Hv; split; eauto|by rewrite lookup_insert_ne].
Qed.

Lemma allocate_on v tokens dt u dt' :
  allocateTokensToValidatorForDistributionProposal v tokens dt = (Ok u, dt') → on_inv (λ _, 1) X old S dt →
  wf_coins tokens → 0 ≤ Co_Rate (Va_Commission v) →
  on_inv (λ _, 1) X old S dt' ∧ (∀ d, booked dt' d = booked dt d + amount_of tokens d) ∧ onward dt dt' ∧
  dt_feePool dt' = dt_feePool dt.
Proof.
  intros E I Wt Hrate. pose proof (oi_coins _ _ _ _ _ I) as [C1 C2 C3 C4 C5].
  unfold allocateTokensToValidatorForDistributionProposal in E. apply M_bind_Ok in E as (ty & s & E1 & E).
  apply gets_Ok in E1 as [-> ->]. apply M_bind_Ok in E as (rate & s & E1 & E).
  assert (s = dt ∧ 0 ≤ rate) as [-> Hr].
  { destruct (_ =? _); [by apply mret_Ok in E1 as [-> ->]|]. apply lift_Ok in E1 as [E1 ->]. split; [done|]. by injection E1 as <-. }
  clear E1. dt_inv.
  match goal with H : DecCoins_MulDec _ _ = Ok ?p |- _ => rename p into cm; rename H into Ecm end.
  match goal with H : DecCoins_Sub _ _ = Ok ?p |- _ => rename p into sh; rename H into Esh end.
  match goal with H : dt_current _ !! _ = Some ?p |- _ => rename p into c; rename H into Hc end.
  match goal with H : dt_outstanding _ !! _ = Some ?p |- _ => rename p into o; rename H into Ho end.
  match goal with H : DecCoins_Add (Cr_Rewards c) _ = Ok ?p |- _ => rename p into rw; rename H into Erw end.
  match goal with H : DecCoins_Add o _ = Ok ?p |- _ => rename p into o'; rename H into Eo end.
  match goal with H : DecCoins_Add (default _ _) _ = Ok ?p |- _ => rename p into m; rename H into Em end.
  cbn [dt_current dt_outstanding dt_set_commissions dt_set_current] in Hc, Ho.
  apply MulDec_wf in Ecm; [|done..]. apply Sub_wf in Esh as [Wsh Ash]; [|done..].
  apply Add_wf in Erw as [Wrw Arw]; [|by eapply C4|done]. apply Add_wf in Eo as [Wo Ao]; [|by eapply C2|done].
  apply Add_wf in Em as [Wm Am]; [|by apply default_wf|done]. rewrite (nonzero_wf _ Wm). set (op := Va_OperatorAddress v) in *.
  assert (period dt op = Cr_Period c) as Hp by (unfold period; by rewrite Hc).
  split; [|split; [|split; [|done]]].
  - pose proof (amounts_inv (λ _, 1) X old S dt op rw m o' (dt_feePool dt) I) as HI. rewrite Hp in HI.
    apply HI; try done. intros d. unfold held, pending. rewrite Ho, Hc. cbn [default from_option id].
    rewrite Ao, Am, Arw, Ash. lia.
  - intros d. unfold booked, pool_of. cbn [dt_feePool dt_outstanding dt_set_outstanding dt_set_current dt_set_commissions].
    rewrite held_all_insert. unfold held. rewrite Ho. cbn [default from_option id]. rewrite Ao. lia.
  - split; try done. intros w. exact (insert_dom _ _ _ _ _ Hc).
Qed.

Lemma allocate_run ctx v tokens dt u dt' :
  AllocateTokensToValidator ctx v tokens dt = (Ok u, dt') → live ctx dt → records X old S V dt →
  is_Some (V !! Va_OperatorAddress v) → wf_coins tokens → 0 ≤ Co_Rate (Va_Commission v) →
  records X old S V dt' ∧ (∀ d, total dt' d = total dt d + amount_of tokens d) ∧
  steady dt dt' ∧ dt_feePool dt' = dt_feePool dt.
Proof.
  intros E Hlive I Hv Wt Hrate. pose proof (records_coins _ I) as [C1 C2 C3 C4 C5].
  unfold AllocateTokensToValidator in E. apply M_bind_Ok in E as (b & s & E1 & E). apply gets_Ok in E1 as [-> ->].
  rewrite (live_valid _ _ Hlive) in E. unfold records, total in *. destruct (CheckInitExistedValidatorFlag dt) eqn:Hf.
  - destruct I as [I Iv]. eapply allocate_on in E as (I' & B & O & P); [|done..].
    pose proof (onward_steady _ _ O) as Hs. rewrite (steady_flag _ _ Hs), Hf. split; [|done]. split; [done|].
    intros w. by rewrite (ow_cur _ _ O).
  - dt_inv. match goal with H : DecCoins_Add _ _ = Ok ?p |- _ => rename p into m; rename H into Em end.
    apply Add_wf in Em as [Wm Am]; [|by apply default_wf|done]. rewrite (nonzero_wf _ Wm).
    change (CheckInitExistedValidatorFlag (dt_set_commissions _ _)) with (CheckInitExistedValidatorFlag dt). rewrite Hf.
    destruct I as [_ I1 I2 I3 I4 I5]. split; [|split; [|done]].
    + split; cbn; try done.
      * split; cbn; try done. intros w c [[_ <-]|[_ Hc]]%lookup_insert_Some; [done|by eapply C3].
      * intros w [c [[<- _]|[_ Hc]]%lookup_insert_Some]; [done|]. eauto.
    + intros d. unfold pool_of. cbn [dt_feePool dt_commissions dt_set_commissions].
      rewrite held_all_insert. unfold held. rewrite Am. lia.
Qed.

(** *** The fees of a block *)

Record vals_ok (W : Vals) : Prop := {
  va_key a v : W !! a = Some v → Va_OperatorAddress v = a;
  va_shares a v : W !! a = Some v → 0 ≤ Va_DelegatorShares v;
  va_rate a v : W !! a = Some v → 0 ≤ Co_Rate (Va_Commission v) }.

(** A reward for each of some validators: what they get and what remains is
    what there was. *)
Lemma allocate_loop ctx (f : list DecCoin → Validator → M Distr (list DecCoin)) l rem dt rem' dt' :
  vals_ok V → (∀ v, v ∈ l → ∃ a, V !! a = Some v) →
  (∀ rem v dt rem' dt', v ∈ l → f rem v dt = (Ok rem', dt') →
    ∃ u reward, wf_coins reward ∧ AllocateTokensToValidator ctx v reward dt = (Ok u, dt') ∧ DecCoins_Sub rem reward = Ok rem') →
  live ctx dt → records X old S V dt → wf_coins rem → for_acc f rem l dt = (Ok rem', dt') →
  records X old S V dt' ∧ wf_coins rem' ∧ (∀ d, total dt' d + amount_of rem' d = total dt d + amount_of rem d) ∧
  steady dt dt' ∧ dt_feePool dt' = dt_feePool dt.
Proof.
  intros HV. revert rem dt. induction l as [|v l IH]; intros rem dt Hl Hf Hlive I Wr; cbn [for_acc].
  { intros [-> ->]%mret_Ok. done. }
  intros (rem1 & dt1 & E1 & E)%M_bind_Ok. apply Hf in E1 as (u & reward & Wrw & Ea & Es); [|by left].
  destruct (Hl v) as [a Ha]; [by left|]. apply Sub_wf in Es as [Wr1 Ar1]; [|done..].
  apply allocate_run in Ea as (I1 & T1 & F1 & P1); [|done|done|rewrite (va_key _ HV _ _ Ha); eauto|done|by eapply (va_rate _ HV)].
  apply IH in E as (I2 & W2 & T2 & F2 & P2); [|by intros w Hw; apply Hl; right|by intros; eapply Hf; [right|]| |done|done].
  - split; [done|]. split; [done|]. split; [|split; [by etransitivity|by rewrite P2]].
    intros d. rewrite T2, T1, Ar1. lia.
  - by eapply live_steady.
Qed.

Lemma unjailed_vals l : (∀ v, v ∈ l → ∃ a, V !! a = Some v) → ∀ v, v ∈ unjailed l → ∃ a, V !! a = Some v.
Proof. intros Hl v Hv. unfold unjailed in Hv. rewrite list_elem_of_In, filter_In, <- list_elem_of_In in Hv. destruct Hv as [Hv _]. exact (Hl v Hv). Qed.
Lemma QuoTruncate_nonneg a b x : 0 ≤ a → 0 ≤ b → Dec_QuoTruncate a b = Ok x → 0 ≤ x.
Proof. intros Ha Hb (Hn & -> & _)%Dec_QuoTruncate_Ok. apply Z.quot_pos; [|lia]. by apply Z.mul_nonneg_nonneg. Qed.

Lemma sumDecs_nonneg l acc r : Forall (λ x, 0 ≤ x) l → 0 ≤ acc → sumDecs acc l = Ok r → 0 ≤ r.
Proof.
  intros Hl. revert acc. induction Hl as [|x l Hx _ IH]; intros acc Hacc; cbn [sumDecs]; [by intros [= <-]|].
  intros (y & [-> _]%checkDec_Ok & E)%outcome_bind_Ok. eapply IH; [|exact E]. lia.
Qed.

Lemma byEqual_run ctx vs rewards votes dt rem dt' :
  vs_validators vs = V → vals_ok V → live ctx dt → records X old S V dt → wf_coins rewards →
  allocateByEqual ctx vs rewards votes dt = (Ok rem, dt') →
  records X old S V dt' ∧ wf_coins rem ∧ (∀ d, total dt' d + amount_of rem d = total dt d + amount_of rewards d) ∧
  steady dt dt' ∧ dt_feePool dt' = dt_feePool dt.
Proof.
  intros EV HV Hlive I Wr. unfold allocateByEqual. intros (one & s & E1 & E)%M_bind_Ok. apply lift_Ok in E1 as [[= <-] ->].
  apply M_bind_Ok in E as (n & s & E1 & E). apply lift_Ok in E1 as [[= <-] ->].
  apply M_bind_Ok in E as (fr & s & E1 & E). apply lift_Ok in E1 as [Ef ->].
  apply M_bind_Ok in E as (rw & s & E1 & E). apply lift_Ok in E1 as [Erw ->].
  apply QuoTruncate_nonneg in Ef; [|lia..]. apply MulDecTruncate_wf in Erw as [Wrw _]; [|done..].
  eapply allocate_loop in E; [exact E|done| | |done..].
  - apply unjailed_vals. intros v (vote & _ & Hv)%list_elem_of_omap. unfold validatorByConsAddr in Hv.
    apply bind_Some in Hv as (a & _ & Hv). rewrite <- EV. eauto.
  - intros rem0 v dt0 rem1 dt1 _ (u & s & E1 & E2)%M_bind_Ok. apply lift_Ok in E2 as [E2 ->]. eauto.
Qed.

Lemma byShares_run ctx vs rewards dt rem dt' :
  vs_validators vs = V → vals_ok V → live ctx dt → records X old S V dt → wf_coins rewards →
  allocateByShares ctx vs rewards dt = (Ok rem, dt') →
  records X old S V dt' ∧ wf_coins rem ∧ (∀ d, total dt' d + amount_of rem d = total dt d + amount_of rewards d) ∧
  steady dt dt' ∧ dt_feePool dt' = dt_feePool dt.
Proof.
  intros EV HV Hlive I Wr. unfold allocateByShares. intros (tot & s & E1 & E)%M_bind_Ok. apply lift_Ok in E1 as [Et ->].
  assert (∀ v, v ∈ unjailed (iterateValidators vs) → ∃ a, V !! a = Some v) as Hl.
  { apply unjailed_vals. intros v ([a w] & -> & Hw%elem_of_store_iterate)%list_elem_of_fmap. rewrite <- EV. eauto. }
  assert (0 ≤ tot) as Htot.
  { eapply sumDecs_nonneg; [|exact (Z.le_refl 0)|exact Et]. apply Forall_fmap, Forall_forall. intros v Hv.
    destruct (Hl v Hv) as [a Ha]. by eapply (va_shares _ HV). }
  eapply allocate_loop in E; [exact E|done|done| |done..].
  intros rem0 v dt0 rem1 dt1 Hv (fr & s & E1 & E2)%M_bind_Ok. apply lift_Ok in E1 as [Ef ->].
  apply M_bind_Ok in E2 as (rw & s & E1 & E2). apply lift_Ok in E1 as [Erw ->].
  apply M_bind_Ok in E2 as (u & s & E1 & E2). apply lift_Ok in E2 as [E2 ->].
  destruct (Hl v Hv) as [a Ha]. apply QuoTruncate_nonneg in Ef; [|by eapply va_shares|done].
  apply MulDecTruncate_wf in Erw as [Wrw _]; eauto.
Qed.

Lemma distributeFees_run ctx vs fees votes dt u dt' :
  vs_validators vs = V → vals_ok V → live ctx dt → records X old S V dt → wf_coins fees → GetCommunityTax dt ≤ OneDec →
  distributeFees ctx vs fees votes dt = (Ok u, dt') →
  records X old S V dt' ∧ (∀ d, total dt' d = total dt d + amount_of fees d) ∧ steady dt dt'.
Proof.
  intros EV HV Hlive I Wf Htax. unfold distributeFees. intros (pool & s & E1 & E)%M_bind_Ok.
  apply GetFeePool_Ok in E1 as [Hpool ->]. apply M_bind_Ok in E as (tax & s & E1 & E). apply gets_Ok in E1 as [-> ->].
  apply M_bind_Ok in E as (rest & s & E1 & E). apply lift_Ok in E1 as [[Er _]%checkDec_Ok ->].
  apply M_bind_Ok in E as (toVals & s & E1 & E). apply lift_Ok in E1 as [E1 ->].
  apply MulDecTruncate_wf in E1 as [Wtv _]; [|done|lia].
  apply M_bind_Ok in E as (vp & s & E1 & E). apply lift_Ok in E1 as [[= <-] ->].
  apply M_bind_Ok in E as (wp & s & E1 & E). apply lift_Ok in E1 as [[= <-] ->].
  apply M_bind_Ok in E as (byE & s & E1 & E). apply lift_Ok in E1 as [E1 ->]. apply MulDecTruncate_wf in E1 as [We _]; [|done..].
  apply M_bind_Ok in E as (byV & s & E1 & E). apply lift_Ok in E1 as [E1 ->]. apply MulDecTruncate_wf in E1 as [Wv _]; [|done..].
  apply M_bind_Ok in E as (both & s & E1 & E). apply lift_Ok in E1 as [E1 ->]. apply Add_wf in E1 as [Wb Ab]; [|done..].
  apply M_bind_Ok in E as (comm & s & E1 & E). apply lift_Ok in E1 as [E1 ->]. apply Sub_wf in E1 as [Wc Ac]; [|done..].
  apply M_bind_Ok in E as (re & dt1 & E1 & E). apply byEqual_run in E1 as (I1 & W1 & T1 & F1 & P1); [|done..].
  apply M_bind_Ok in E as (rv & dt2 & E1 & E).
  apply byShares_run in E1 as (I2 & W2 & T2 & F2 & P2); [|done|done| |done|done].
  2: by eapply live_steady.
  apply M_bind_Ok in E as (rm & s & E1 & E). apply lift_Ok in E1 as [E1 ->]. apply Add_wf in E1 as [W3 A3]; [|done..].
  apply M_bind_Ok in E as (fc & s & E1 & E). apply lift_Ok in E1 as [E1 ->]. apply Add_wf in E1 as [W4 A4]; [|done..].
  assert (∀ d, total dt2 d + amount_of fc d = total dt d + amount_of fees d) as HT.
  { intros d. rewrite A4, A3, Ac, Ab. pose proof (T1 d). pose proof (T2 d). lia. }
  destruct (DecCoins_IsZero fc) eqn:Hz.
  - apply mret_Ok in E as [_ ->]. split; [done|]. split; [|by etransitivity].
    intros d. pose proof (HT d). rewrite (IsZero_amount _ d Hz) in *. lia.
  - apply M_bind_Ok in E as (pool' & s & E1 & E). apply lift_Ok in E1 as [E1 ->].
    unfold SetFeePool in E. apply modify_Ok in E as ->.
    apply Add_wf in E1 as [W5 A5]; [|by eapply (co_pool _ (records_coins _ I))|done].
    split; [by apply pool_records|]. split; [|transitivity dt2; [by etransitivity|done]].
    intros d. rewrite pool_total, A5. unfold pool_of. rewrite P2, P1, Hpool. cbn [default from_option id]. pose proof (HT d). lia.
Qed.
End Records.

(** ** The module *)

Section Module.
Context {C : Type} `{CoinKeeper C} `{!CoinKeeperLaws C} `{StakingConfig} `{DistrConfig}.
Context (distr : string).
Hypothesis Hmod : ck_modaddr (S := C) DistrModuleName = Some distr.
Hypothesis Hblack : ck_Blacklisted (S := C) distr = true.
Implicit Types (k : Distributed C).

Record distr_inv (X : gset (string * string)) (old : gset string) (S : Votes) (V : Vals) k : Prop := {
  dv_wf : ck_wf (di_base k);
  dv_records : records X old S V (di_distr k);
  dv_money d : ck_balance (di_base k) distr d = total (di_distr k) d;
  dv_tax : GetCommunityTax (di_distr k) ≤ OneDec;
  dv_vals v : is_Some (V !! v) → ck_Blacklisted (S := C) v = false }.

(** The records and the coins change together. *)
Lemma inv_step_vals X old S V X' old' S' V' k k' :
  distr_inv X old S V k → records X' old' S' V' (di_distr k') → (ck_wf (di_base k) → ck_wf (di_base k')) →
  (∀ d, ck_balance (di_base k') distr d - ck_balance (di_base k) distr d = total (di_distr k') d - total (di_distr k) d) →
  dt_params (di_distr k') = dt_params (di_distr k) →
  (∀ v, is_Some (V' !! v) → is_Some (V !! v) ∨ ck_Blacklisted (S := C) v = false) → distr_inv X' old' S' V' k'.
Proof.
  intros [W R B T Hv] R' W' B' P HV. split; [auto|done| | |].
  - intros d. pose proof (B d). pose proof (B' d). lia.
  - unfold GetCommunityTax in *. by rewrite P.
  - intros v [Hx|]%HV; auto.
Qed.
Lemma inv_step X old S V X' old' S' k k' :
  distr_inv X old S V k → records X' old' S' V (di_distr k') → (ck_wf (di_base k) → ck_wf (di_base k')) →
  (∀ d, ck_balance (di_base k') distr d - ck_balance (di_base k) distr d = total (di_distr k') d - total (di_distr k) d) →
  dt_params (di_distr k') = dt_params (di_distr k) → distr_inv X' old' S' V k'.
Proof. intros I R' W' B' P. eapply inv_step_vals; [done..|]. auto. Qed.
Lemma flow_total k k' δ :
  flow distr k k' δ → (∀ d, total (di_distr k') d = total (di_distr k) d + δ d) →
  ∀ d, ck_balance (di_base k') distr d - ck_balance (di_base k) distr d = total (di_distr k') d - total (di_distr k) d.
Proof. intros [F1 F2] T d. rewrite F2, T. lia. Qed.
Lemma inv_flow X old S V X' old' S' k k' δ :
  distr_inv X old S V k → records X' old' S' V (di_distr k') → flow distr k k' δ →
  (∀ d, total (di_distr k') d = total (di_distr k) d + δ d) →
  dt_params (di_distr k') = dt_params (di_distr k) → distr_inv X' old' S' V k'.
Proof. intros I R F T P. eapply inv_step; [done|done|apply F|by eapply flow_total|done]. Qed.

(** *** The start of a block *)

(** *** Commissions *)

Lemma decCoins_of cs l : NewDecCoinsFromCoins cs = Ok l → wf_coins (omap id l) ∧ ∀ d, amount_of (omap id l) d = amount_of cs d.
Proof.
  unfold NewDecCoinsFromCoins. intros (c & E & [= <-])%outcome_bind_Ok. rewrite omap_app.
  assert (∀ n, omap id (replicate n (@None DecCoin)) = []) as -> by (intros n; by induction n).
  rewrite app_nil_r. assert (omap id (Some <$> c) = c) as -> by (clear E; induction c; cbn; by f_equal).
  split; [by eapply NewCoins_wf|]. intros d. by eapply NewCoins_amount.
Qed.

(** A part of the commission of a validator is taken out. *)
Lemma commission_records X old S V dt v cs rest dec o' :
  records X old S V dt → wf_coins rest →
  (∀ d, amount_of cs d + amount_of rest d = held (dt_commissions dt) v d) → is_Some (dt_commissions dt !! v) →
  (CheckInitExistedValidatorFlag dt = true → ∃ o, dt_outstanding dt !! v = Some o ∧ wf_coins dec ∧
    (∀ d, amount_of dec d = amount_of cs d) ∧ DecCoins_Sub o dec = Ok o') →
  let dt' := mkDistr (dt_feePool dt) (dt_proposer dt) (dt_withdrawAddrs dt) (<[v := rest]> (dt_commissions dt))
    (dt_initExisted dt) (dt_infos dt) (dt_historical dt) (dt_current dt)
    (if CheckInitExistedValidatorFlag dt then <[v := o']> (dt_outstanding dt) else dt_outstanding dt) (dt_params dt) in
  records X old S V dt' ∧ ∀ d, total dt' d = total dt d - amount_of cs d.
Proof.
  intros R Wr Hsum Hv Hon dt'. pose proof (records_coins _ _ _ _ _ R) as [C1 C2 C3 C4 C5]. unfold records, total in *.
  change (CheckInitExistedValidatorFlag dt') with (CheckInitExistedValidatorFlag dt) in *. subst dt'.
  destruct (CheckInitExistedValidatorFlag dt) eqn:Hf.
  - destruct (Hon eq_refl) as (o & Ho & Wd & Ad & Eo). apply Sub_wf in Eo as [Wo Ao]; [|by eapply C2|done]. destruct R as [R Rv].
    destruct (proj2 (oi_cur _ _ _ _ _ R v)) as [c Hc]; [eauto|]. split; [split; [|done]|].
    + pose proof (amounts_inv (λ _, 1) X old S dt v (Cr_Rewards c) rest o' (dt_feePool dt) R) as HI.
      assert (<[v := mkCurrent (Cr_Rewards c) (period dt v)]> (dt_current dt) = dt_current dt) as Ec
        by (apply insert_id; unfold period; rewrite Hc; by destruct c).
      rewrite Ec in HI. apply HI; try done; [by eapply C4|]. intros d. pose proof (Hsum d). unfold held in *. unfold pending.
      rewrite Hc, Ho. cbn [default from_option id]. rewrite Ao, Ad. lia.
    + intros d. unfold pool_of. cbn [dt_feePool dt_outstanding]. rewrite held_all_insert. unfold held. rewrite Ho.
      cbn [default from_option id]. rewrite Ao, Ad. lia.
  - destruct R as [_ I1 I2 I3 I4 I5]. split.
    + split; cbn; try done.
      * split; cbn; try done. intros w c [[_ <-]|[_ Hc]]%lookup_insert_Some; [done|by eapply C3].
      * intros w [c [[<- _]|[_ Hc]]%lookup_insert_Some]; [by apply I5|eauto].
    + intros d. unfold pool_of. cbn [dt_feePool dt_commissions]. rewrite held_all_insert. pose proof (Hsum d). lia.
Qed.

Lemma TruncateDecimal_Ok A t ch : DecCoins_TruncateDecimal A = Ok (t, ch) →
  wf_coins t ∧ wf_coins ch ∧ ∀ d, amount_of t d + amount_of ch d = amount_of A d.
Proof.
  intros E. eapply splitLoop_spec in E as (? & ? & E); [|apply TruncateDecimal_splits|apply wf_coins_nil..].
  split; [done|]. split; [done|]. intros d. rewrite E. cbn. lia.
Qed.

Lemma inv_commission X old S V ctx v k cs k' :
  live ctx (di_distr k) → distr_inv X old S V k → WithdrawValidatorCommission ctx v k = (Ok cs, k') →
  distr_inv X old S V k' ∧ steady (di_distr k) (di_distr k').
Proof.
  intros Hlive I. unfold WithdrawValidatorCommission. destruct k as [base dt]. cbn [di_distr] in *.
  intros (ac & k1 & E1 & E)%M_bind_Ok. unfold on_distr in E1. apply zoom_Ok in E1 as (dt1 & E1 & ->).
  unfold GetValidatorAccumulatedCommission in E1. apply gets_Ok in E1 as [-> ->]. cbn [di_distr] in E.
  change (di_set_distr dt (mkDistributed base dt)) with (mkDistributed base dt) in E.
  apply M_bind_Ok in E as (u1 & s & E1 & E). apply guard_not_Ok in E1 as [Hz ->].
  apply M_bind_Ok in E as ([c rest] & s & E1 & E). apply lift_Ok in E1 as [Etr ->].
  apply TruncateDecimal_Ok in Etr as (Wc & Wr & Asum).
  assert (is_Some (dt_commissions dt !! v)) as Hv by (destruct (dt_commissions dt !! v); [eauto|done]).
  apply M_bind_Ok in E as (u2 & k1 & E1 & E). unfold on_distr in E1. apply zoom_Ok in E1 as (dt1 & E1 & ->).
  unfold SetValidatorAccumulatedCommission in E1. rewrite (nonzero_wf _ Wr) in E1. apply modify_Ok in E1 as ->.
  apply M_bind_Ok in E as (b & s & E1 & E). apply gets_Ok in E1 as [-> ->].
  apply M_bind_Ok in E as (u3 & k2 & E1 & E). cbn [di_distr di_set_distr] in E1.
  change (CheckDistributionProposalValid ctx (dt_set_commissions <[v:=rest]> dt)) with (CheckDistributionProposalValid ctx dt) in E1.
  rewrite (live_valid _ _ Hlive) in E1.
  assert (∃ dec o', (CheckInitExistedValidatorFlag dt = true → ∃ o, dt_outstanding dt !! v = Some o ∧ wf_coins dec ∧
      (∀ d, amount_of dec d = amount_of c d) ∧ DecCoins_Sub o dec = Ok o') ∧
    k2 = mkDistributed base (mkDistr (dt_feePool dt) (dt_proposer dt) (dt_withdrawAddrs dt) (<[v := rest]> (dt_commissions dt))
    (dt_initExisted dt) (dt_infos dt) (dt_historical dt) (dt_current dt)
    (if CheckInitExistedValidatorFlag dt then <[v := o']> (dt_outstanding dt) else dt_outstanding dt) (dt_params dt)))
    as (dec & o' & Hon & ->).
  { clear E. destruct (CheckInitExistedValidatorFlag dt).
    - dt_inv. match goal with H : NewDecCoinsFromCoins _ = Ok ?l |- _ => apply decCoins_of in H as [Wl Al]; exists (omap id l) end.
      eexists. split; [|done]. intros _.
      match goal with Ho : dt_outstanding _ !! _ = Some ?o |- _ => exists o; split; [exact Ho|done] end.
    - apply mret_Ok in E1 as [_ ->]. exists [], []. done. }
  destruct (commission_records X old S V dt v c rest dec o') as [R T]; [apply I|done..|].
  apply M_bind_Ok in E as (u4 & k3 & E2 & E). apply mret_Ok in E as [-> ->].
  unfold GetDelegatorWithdrawAddr in E2. apply (pay_run distr Hmod Hblack (replaceErr _)) in E2; [|by intros * ?%replaceErr_Ok].
  destruct E2 as [Ed F _ _]. rewrite Ed. split; [|done]. eapply (inv_flow X old S V X old S (mkDistributed base dt) _ (λ d, - amount_of c d)); [exact I|by rewrite Ed| | |by rewrite Ed].
  - destruct F as [F1 F2]. split; [exact F1|exact F2].
  - intros d. rewrite Ed. cbn [di_distr]. rewrite T. lia.
Qed.

Context (fee : string).
Hypothesis Hfee : ck_modaddr (S := C) dc_feeCollectorName = Some fee.
Hypothesis Hfd : fee ≠ distr.

Lemma inv_AllocateTokens X old S V ctx vs power proposer votes k u k' :
  vs_validators vs = V → vals_ok V → live ctx (di_distr k) → distr_inv X old S V k →
  AllocateTokens ctx vs power proposer votes k = (Ok u, k') →
  distr_inv X old S V k' ∧ steady (di_distr k) (di_distr k').
Proof.
  intros EV HV Hlive I. unfold AllocateTokens. intros (fees & k1 & E1 & E)%M_bind_Ok.
  unfold moduleCoins in E1. rewrite Hfee in E1. unfold on_coins in E1. apply zoom_Ok in E1 as (c1 & E1 & ->).
  apply law_GetCoins in E1 as (-> & _ & Wf). specialize (Wf (dv_wf _ _ _ _ _ I)).
  change (di_set_base (di_base k) k) with (mkDistributed (di_base k) (di_distr k)) in E.
  assert (mkDistributed (di_base k) (di_distr k) = k) as Ek by (by destruct k). rewrite Ek in E. clear Ek.
  destruct (DecCoins_Empty fees); [by apply mret_Ok in E as [_ ->]|].
  apply M_bind_Ok in E as (u1 & k1 & E1%orPanic_Ok & E). unfold on_coins in E1. apply zoom_Ok in E1 as (c1 & E1 & ->).
  apply law_ModuleToModule in E1 as (a & b & Ha & Hb & M). rewrite Hfee in Ha. injection Ha as <-. rewrite Hmod in Hb. injection Hb as <-.
  assert (∀ d, ck_balance c1 distr d = ck_balance (di_base k) distr d + amount_of fees d) as HB.
  { intros d. rewrite (km_balance _ _ _ _ _ M). unfold at_addr. rewrite decide_True by done. rewrite decide_False by congruence. lia. }
  assert (∀ dt', records X old S V dt' ∧ (∀ d, total dt' d = total (di_distr k) d + amount_of fees d) ∧ steady (di_distr k) dt' →
    distr_inv X old S V (di_set_distr dt' (di_set_base c1 k)) ∧ steady (di_distr k) dt') as Hend.
  { intros dt' (R & T & D). split; [|done]. eapply (inv_step X old S V); [exact I|done|apply M| |apply D].
    intros d. cbn. rewrite HB, T. lia. }
  destruct (power =? 0).
  - unfold on_distr in E. apply zoom_Ok in E as (dt' & E & ->). apply Hend. cbn [di_distr di_set_base] in E. dt_inv.
    match goal with H : dt_feePool _ = Some ?p |- _ => rename p into pool; rename H into Hpool end.
    match goal with H : DecCoins_Add _ _ = Ok ?p |- _ => apply Add_wf in H as [W1 A1];
      [|by eapply (co_pool _ (records_coins _ _ _ _ _ (dv_records _ _ _ _ _ I)))|done] end.
    split; [by apply pool_records; [|apply I]|]. split; [|done].
    intros d. cbn [di_distr di_set_distr]. rewrite pool_total, A1. unfold pool_of. rewrite Hpool. cbn [default from_option id]. lia.
  - unfold on_distr in E. apply zoom_Ok in E as (dt' & E & ->). apply Hend. cbn [di_distr di_set_base] in E.
    eapply distributeFees_run; [..|exact E]; try done; apply I.
Qed.

Lemma inv_BeginBlocker X old S V ctx vs votes proposer k u k' :
  vs_validators vs = V → vals_ok V → live ctx (di_distr k) → distr_inv X old S V k →
  distr_BeginBlocker ctx vs votes proposer k = (Ok u, k') →
  distr_inv X old S V k' ∧ steady (di_distr k) (di_distr k').
Proof.
  intros EV HV Hlive I. unfold distr_BeginBlocker. intros (u1 & k1 & E1 & E)%M_bind_Ok.
  assert (distr_inv X old S V k1 ∧ steady (di_distr k) (di_distr k1)) as [I1 D1].
  { destruct (_ >? _); [|by apply mret_Ok in E1 as [_ ->]]. apply M_bind_Ok in E1 as (p & k2 & E2 & E1).
    unfold on_distr in E2. apply zoom_Ok in E2 as (dt2 & ->%GetPreviousProposer_Ok & ->).
    assert (di_set_distr (di_distr k) k = k) as Ek by (by destruct k). rewrite Ek in E1.
    eapply inv_AllocateTokens; [..|exact E1]; done. }
  unfold on_distr in E. apply zoom_Ok in E as (dt' & E & ->). unfold SetPreviousProposerConsAddr in E. apply modify_Ok in E as ->.
  split; [|by destruct D1]. eapply inv_step; [exact I1| |done| |done].
  - pose proof (dv_records _ _ _ _ _ I1) as R. unfold records in *.
    change (CheckInitExistedValidatorFlag (di_distr (di_set_distr (dt_set_proposer proposer (di_distr k1)) k1)))
      with (CheckInitExistedValidatorFlag (di_distr k1)).
    destruct (CheckInitExistedValidatorFlag (di_distr k1)).
    + destruct R as [[[? ? ? ? ?] ? ? ? ? ? ? ? ? ? ? ? ?] ?]. by split.
    + destruct R as [[? ? ? ? ?] ? ? ? ? ?]. by split.
  - intros d. change (total (di_distr (di_set_distr _ k1)) d) with (total (di_distr k1) d). cbn. lia.
Qed.
End Module.
