(* ===== verification/DistrHooks.v ===== *)
(** * Distribution: hooks, messages and proposals

    What the module does when the staking module calls its hooks, on its
    messages, and when a proposal has passed; the switch to the distribution
    on chain is one of them. *)
From S2P Require Import Prelude Decimal Denom Coins Bank CoinKeeper DecStr Staking StakingVals Slashing Distribution DistrProps DistrKeeper DistrInv.
#[local] Open Scope Z_scope.

(** ** The records *)

(** Where the books are the same. *)
Record same_books (dt dt' : Distr) : Prop := {
  sb_pool : dt_feePool dt' = dt_feePool dt;
  sb_comm : dt_commissions dt' = dt_commissions dt;
  sb_flag : dt_initExisted dt' = dt_initExisted dt;
  sb_infos : dt_infos dt' = dt_infos dt;
  sb_hist : dt_historical dt' = dt_historical dt;
  sb_cur : dt_current dt' = dt_current dt;
  sb_out : dt_outstanding dt' = dt_outstanding dt }.

Lemma on_inv_same lo X old S dt dt' : same_books dt dt' → on_inv lo X old S dt → on_inv lo X old S dt'.
Proof.
  destruct dt, dt'. intros [E1 E2 E3 E4 E5 E6 E7]. cbn in *. subst.
  intros [[C1 C2 C3 C4 C5] I1 I2 I3 I4 I5 I6 I7 I8 I9 I10 I11 I12]. by split.
Qed.
Lemma records_same X old S V dt dt' : same_books dt dt' → records X old S V dt → records X old S V dt'.
Proof.
  intros Hs. pose proof (sb_flag _ _ Hs) as Hf. unfold records, CheckInitExistedValidatorFlag. rewrite Hf.
  destruct (default false (dt_initExisted dt)).
  - intros [I Iv]. split; [by eapply on_inv_same|]. intros v. by rewrite (sb_cur _ _ Hs).
  - destruct dt, dt'. destruct Hs as [E1 E2 E3 E4 E5 E6 E7]. cbn in *. subst.
    intros [[C1 C2 C3 C4 C5] I1 I2 I3 I4 I5]. by split.
Qed.
Lemma total_same dt dt' d : same_books dt dt' → total dt' d = total dt d.
Proof. intros [E1 E2 E3 E4 E5 E6 E7]. unfold total, pool_of, CheckInitExistedValidatorFlag. by rewrite E1, E2, E3, E7. Qed.

(** The validators count only by their keys. *)
Lemma records_dom X old S V V' dt :
  (∀ v, is_Some (V' !! v) ↔ is_Some (V !! v)) → records X old S V dt → records X old S V' dt.
Proof.
  intros HV. unfold records. destruct (CheckInitExistedValidatorFlag dt).
  - intros [I Iv]. split; [done|]. intros v. by rewrite HV.
  - intros [I1 I2 I3 I4 I5 I6]. split; try done. intros v Hv. rewrite HV. auto.
Qed.
(** Before the switch the votes do not count. *)
Lemma records_off X old S X' old' S' V dt :
  CheckInitExistedValidatorFlag dt = false → records X old S V dt → records X' old' S' V dt.
Proof. unfold records. by intros ->. Qed.

Lemma votes_on_mono X X' S v : X ⊆ X' → (∀ k x, S !! k = Some x → 0 ≤ x) → votes_on X' S v ≤ votes_on X S v.
Proof.
  intros HX Hpos. apply key_sum_le. intros k x Hk. pose proof (Hpos _ _ Hk). unfold counted.
  repeat case_decide; try done; set_solver.
Qed.

(** *** A validator is removed *)

Lemma total_removed X old S V dt v pool o d :
  records X old S V dt → (if CheckInitExistedValidatorFlag dt then dt_outstanding dt else dt_commissions dt) !! v = o →
  total (removed v pool dt) d
  = total dt d - pool_of dt d - amount_of (default [] o) d + amount_of (default [] pool) d.
Proof.
  intros R Ho. unfold total. change (CheckInitExistedValidatorFlag (removed v pool dt)) with (CheckInitExistedValidatorFlag dt).
  unfold pool_of. cbn [removed dt_feePool dt_outstanding dt_commissions].
  destruct (CheckInitExistedValidatorFlag dt); rewrite held_all_delete; unfold held; rewrite Ho; lia.
Qed.

Lemma removed_records X old S V dt v pool :
  records X old S V dt → (∀ k x, S !! k = Some x → k.1 = v → k ∈ X) → (∀ p, pool = Some p → wf_coins p) →
  records X (old ∖ {[ v ]}) S (delete v V) (removed v pool dt).
Proof.
  intros R Hnone Hp. unfold records in *.
  change (CheckInitExistedValidatorFlag (removed v pool dt)) with (CheckInitExistedValidatorFlag dt).
  destruct (CheckInitExistedValidatorFlag dt).
  - destruct R as [I Iv]. split; [by apply remove_inv|]. intros w. cbn. destruct (decide (w = v)) as [->|Hne].
    + rewrite !lookup_delete_eq. done.
    + by rewrite !lookup_delete_ne.
  - destruct R as [[C1 C2 C3 C4 C5] I1 I2 I3 I4 I5]. split; cbn; rewrite ?I1, ?I2, ?I3, ?I4; try done.
    + split; cbn; rewrite ?I2, ?I3, ?I4; try done.
      * intros w c [_ Hw]%lookup_delete_Some. by eapply C3.
    + intros w [c [Hne Hw]%lookup_delete_Some]. rewrite lookup_delete_ne by done. eauto.
Qed.

(** *** A validator is created *)

Lemma records_created `{StakingConfig} old S V dt ctx v u dt' :
  initializeValidator ctx v dt = (Ok u, dt') → live ctx dt → records ∅ old S V dt → V !! Va_OperatorAddress v = None →
  records ∅ old S (<[Va_OperatorAddress v := v]> V) dt' ∧ (∀ d, total dt' d = total dt d) ∧ steady dt dt'.
Proof.
  intros E Hlive R Hv. unfold initializeValidator in E. apply M_bind_Ok in E as (b & s & E1 & E).
  apply gets_Ok in E1 as [-> ->]. rewrite (live_valid _ _ Hlive) in E. set (op := Va_OperatorAddress v) in *.
  unfold records, total in *. destruct (CheckInitExistedValidatorFlag dt) eqn:Hf.
  - destruct R as [I Iv]. assert (dt_current dt !! op = None) as Hc.
    { apply eq_None_not_Some. rewrite Iv, Hv. by intros []. }
    assert (dt_outstanding dt !! op = None) as Ho.
    { apply eq_None_not_Some. rewrite <- (oi_cur _ _ _ _ _ I), Hc. by intros []. }
    unfold initializeValidatorDistrProposal in E. dt_inv. fold op.
    set (dt' := dt_set_outstanding _ _).
    assert (dt' = installed op false [] (<[op := []]> (dt_commissions dt)) dt) as -> by done.
    change (CheckInitExistedValidatorFlag (installed _ _ _ _ dt)) with (CheckInitExistedValidatorFlag dt). rewrite Hf.
    split; [split|split; [|done]].
    + apply (install_inv old S S dt op false []); try done.
      * apply wf_coins_nil.
      * by rewrite lookup_insert_eq.
      * intros w Hne. by rewrite lookup_insert_ne.
      * intros k y Hk Ek. destruct (oi_vote _ _ _ _ _ I _ _ Hk) as [[? Hcur] _]; [set_solver|]. rewrite Ek in Hcur. congruence.
    + intros w. cbn. destruct (decide (w = op)) as [->|Hne]; [rewrite !lookup_insert_eq; split; eauto|by rewrite !lookup_insert_ne].
    + intros d. unfold pool_of. cbn [installed dt_feePool dt_outstanding]. rewrite held_all_insert. unfold held. rewrite Ho. cbn. lia.
  - dt_inv. change (CheckInitExistedValidatorFlag (dt_set_commissions _ dt)) with (CheckInitExistedValidatorFlag dt). rewrite Hf.
    destruct R as [[C1 C2 C3 C4 C5] I1 I2 I3 I4 I5]. fold op. split; [|split; [|done]].
    + split; cbn; try done.
      * split; cbn; try done. intros w c [[_ <-]|[_ Hw]]%lookup_insert_Some; [apply wf_coins_nil|by eapply C3].
      * intros w [c [[<- _]|[Hne Hw]]%lookup_insert_Some]; [rewrite lookup_insert_eq; eauto|].
        rewrite lookup_insert_ne by done. eauto.
    + intros d. unfold pool_of. cbn [dt_set_commissions dt_feePool dt_commissions]. rewrite held_all_insert. unfold held.
      destruct (dt_commissions dt !! op) as [c|] eqn:Hc; [|cbn; lia]. destruct (I5 op) as [? Hs]; [eauto|congruence].
Qed.

(** ** The switch *)

Lemma held_all_ext m : ∀ m' d, (∀ v, held m v d = held m' v d) → held_all m d = held_all m' d.
Proof.
  induction m as [|k c m Hk IH] using map_ind; intros m' d Hm.
  - unfold held_all at 2. rewrite (map_sum_ext _ (λ _, 0 * 0)); [by rewrite map_sum_scale, Z.mul_0_r|].
    intros v c Hc. specialize (Hm v). unfold held in Hm. rewrite lookup_empty, Hc in Hm. cbn in Hm. done.
  - rewrite held_all_insert. unfold held at 1. rewrite Hk. rewrite (IH (delete k m') d).
    + rewrite held_all_delete, <- (Hm k). unfold held. rewrite lookup_insert_eq. cbn [default from_option id]. rewrite amount_of_nil. lia.
    + intros v. specialize (Hm v). unfold held in *. destruct (decide (v = k)) as [->|Hne].
      * by rewrite Hk, lookup_delete_eq.
      * by rewrite lookup_delete_ne by done; rewrite lookup_insert_ne in Hm by done.
Qed.

(** After the validators in [P] have been started: it is as if there were
    only these. *)
Definition only (P : gset string) (dt : Distr) : Distr := dt_set_commissions (base.filter (λ x, x.1 ∈ P)) dt.
Record switching (P : gset string) (S : Votes) (dt0 dt : Distr) : Prop := {
  sw_inv : on_inv (λ _, 1) ∅ P (base.filter (λ p, p.1.1 ∈ P) S) (only P dt);
  sw_cur v : is_Some (dt_current dt !! v) ↔ v ∈ P;
  sw_out v c : dt_outstanding dt !! v = Some c → c = default [] (dt_commissions dt0 !! v);
  sw_comm : dt_commissions dt = dt_commissions dt0;
  sw_pool : dt_feePool dt = dt_feePool dt0;
  sw_fresh v c : dt_current dt !! v = Some c → c = mkCurrent [] 1;
  sw_infos : dt_infos dt = ∅;
  sw_steady : steady dt0 dt }.

Lemma lookup_only {A} (P : gset string) (m : gmap string A) w :
  base.filter (λ x : string * A, x.1 ∈ P) m !! w = if decide (w ∈ P) then m !! w else None.
Proof.
  apply option_eq. intros a. rewrite map_lookup_filter_Some. cbn. case_decide; naive_solver.
Qed.

Lemma switch_step P S dt0 dt v u dt' :
  coins_ok dt0 → (∀ k x, S !! k = Some x → 0 ≤ x) → switching P S dt0 dt →
  initExistedValidatorForDistrProposal v dt = (Ok u, dt') → switching ({[ Va_OperatorAddress v ]} ∪ P) S dt0 dt'.
Proof.
  intros [C1 C2 C3 C4 C5] Hpos [I1 I2 I3 I4 I5 I7 I8 I6] E. set (op := Va_OperatorAddress v) in *.
  unfold initExistedValidatorForDistrProposal in E. apply M_bind_Ok in E as (b & s & E1 & E).
  apply gets_Ok in E1 as [-> ->]. fold op in E. unfold HasValidatorOutstandingRewards in E. case_bool_decide as Hh.
  - apply mret_Ok in E as [_ ->]. assert (op ∈ P) as Hp by (apply I2, (oi_cur _ _ _ _ _ I1), Hh).
    assert ({[ op ]} ∪ P = P) as -> by set_solver. by split.
  - assert (op ∉ P) as Hp by (intros Hp%I2; by apply Hh, (oi_cur _ _ _ _ _ I1)).
    assert (dt_current dt !! op = None) as Hc by (apply eq_None_not_Some; by rewrite I2). dt_inv.
    set (c := default [] (dt_commissions dt !! op)).
    assert (c = default [] (dt_commissions dt0 !! op)) as Ec by (unfold c; by rewrite I4).
    split; try done.
    + apply (install_inv P (base.filter (λ p, p.1.1 ∈ P) S) _ (only P dt) op true c
        (base.filter (λ x, x.1 ∈ {[ op ]} ∪ P) (dt_commissions dt))); try done.
      * rewrite Ec. by apply default_wf.
      * rewrite lookup_only, decide_True by set_solver. done.
      * intros w Hne. cbn [only dt_commissions dt_set_commissions]. rewrite !lookup_only. repeat case_decide; try done; set_solver.
      * intros k Hk. apply option_eq. intros x0. rewrite !map_lookup_filter_Some. cbn. set_solver.
      * intros k x0 [Hk _]%map_lookup_filter_Some _. split; [by eapply Hpos|done].
    + intros w. cbn. destruct (decide (w = op)) as [->|Hne].
      * rewrite lookup_insert_eq. split; [set_solver|eauto].
      * rewrite lookup_insert_ne by done. rewrite I2. set_solver.
    + intros w c0. cbn. intros [[<- <-]|[Hne Hw]]%lookup_insert_Some; [done|by apply I3].
    + intros w c0. cbn. intros [[<- <-]|[Hne Hw]]%lookup_insert_Some; [done|by eapply I7].
    + by destruct I6.
Qed.

Lemma switch_start S V dt :
  off_inv V dt → switching ∅ S (dt_set_initExisted true dt) (dt_set_initExisted true dt).
Proof.
  intros [[C1 C2 C3 C4 C5] I1 I2 I3 I4 I5].
  assert (∀ P : gset string, P = ∅ → base.filter (λ p : string * string * Dec, p.1.1 ∈ P) S = ∅) as ES.
  { intros P ->. apply map_empty. intros k. apply map_lookup_filter_None_2. right. intros x _. cbn. set_solver. }
  assert (∀ P : gset string, P = ∅ → base.filter (λ x : string * list DecCoin, x.1 ∈ P) (dt_commissions dt) = ∅) as EC.
  { intros P ->. apply map_empty. intros k. apply map_lookup_filter_None_2. right. intros x _. cbn. set_solver. }
  split; try done.
  - rewrite (ES ∅) by done. unfold only, dt_set_commissions. cbn [dt_set_initExisted dt_feePool dt_proposer dt_withdrawAddrs dt_commissions
      dt_initExisted dt_infos dt_historical dt_current dt_outstanding dt_params]. rewrite I1, I2, I3, I4, (EC ∅) by done. split.
    + split; cbn; try done; intros *; by rewrite lookup_empty.
    + intros v. cbn. by rewrite !lookup_empty.
    + intros v. cbn. by rewrite !lookup_empty.
    + intros v. cbn. rewrite lookup_empty. by intros [].
    + set_solver.
    + intros k x. by rewrite lookup_empty.
    + intros k x. by rewrite lookup_empty.
    + intros k x. cbn. by rewrite lookup_empty.
    + set_solver.
    + intros k. unfold hcount, refs. cbn [dt_historical dt_infos]. rewrite lookup_empty, starters_zero by done.
      unfold follows, preceded. rewrite !decide_False; [done|set_solver|]. cbn [dt_current]. rewrite lookup_empty. by intros [[] _].
    + intros k h. cbn. by rewrite lookup_empty.
    + intros v p d. cbn [dt_historical]. rewrite lookup_empty. by intros [].
    + intros v d. cbn [dt_current]. rewrite lookup_empty. by intros [].
  - intros v. cbn. rewrite I3, lookup_empty. split; [by intros []|set_solver].
  - intros v c. cbn. by rewrite I4, lookup_empty.
  - intros v c. cbn. by rewrite I3, lookup_empty.
Qed.

(** The switch: what the validators had is outstanding, and everybody who
    votes has started with period 0. *)
Lemma switch_records S V vs dt u dt' :
  off_inv V dt → vs_validators vs = V → vals_ok V → (∀ k x, S !! k = Some x → 0 ≤ x ∧ is_Some (V !! k.1)) →
  CheckInitExistedValidatorFlag dt = false →
  for_each initExistedValidatorForDistrProposal (iterateValidators vs) (dt_set_initExisted true dt) = (Ok u, dt') →
  records ∅ (dom V) S V dt' ∧ (∀ d, total dt' d = total dt d) ∧ dt_params dt' = dt_params dt ∧
  (∀ v c, dt_outstanding dt' !! v = Some c → c = default [] (dt_commissions dt !! v)) ∧
  (∀ v c, dt_current dt' !! v = Some c → c = mkCurrent [] 1) ∧ dt_infos dt' = ∅ ∧
  CheckInitExistedValidatorFlag dt' = true.
Proof.
  intros R EV HV HS Hf E. pose proof (switch_start S V dt R) as W. set (dt0 := dt_set_initExisted true dt) in *.
  assert (coins_ok dt0) as HC by (destruct R as [[C1 C2 C3 C4 C5] _ _ _ _ _]; by split).
  assert (∀ l P dt1 u dt2, switching P S dt0 dt1 → for_each initExistedValidatorForDistrProposal l dt1 = (Ok u, dt2) →
    switching (list_to_set (Va_OperatorAddress <$> l) ∪ P) S dt0 dt2) as Hloop.
  { intros l. induction l as [|v l IH]; intros P dt1 u1 dt2 W1; cbn [for_each].
    - intros [_ ->]%mret_Ok. cbn. by rewrite (left_id_L ∅ (∪)).
    - intros (u2 & dt3 & E1 & E2)%M_bind_Ok. apply (switch_step P S dt0) in E1; [|done|naive_solver|done].
      eapply IH in E2; [|exact E1]. assert (list_to_set (Va_OperatorAddress <$> v :: l) ∪ P
        = list_to_set (Va_OperatorAddress <$> l) ∪ ({[ Va_OperatorAddress v ]} ∪ P)) as -> by (cbn; set_solver). done. }
  destruct (Hloop _ _ _ _ _ W E) as [I1 I2 I3 I4 I5 I7 I8 I6]. set (P := _ ∪ ∅) in *.
  assert (∀ v, v ∈ P ↔ is_Some (V !! v)) as HP.
  { intros v. unfold P. rewrite (right_id_L ∅ (∪)), elem_of_list_to_set, list_elem_of_fmap. unfold iterateValidators. split.
    - intros (w & -> & ([a w'] & -> & Hw%elem_of_store_iterate)%list_elem_of_fmap). rewrite EV in Hw. cbn.
      rewrite (va_key _ HV _ _ Hw). eauto.
    - intros [w Hw]. exists w. rewrite (va_key _ HV _ _ Hw). split; [done|]. apply list_elem_of_fmap.
      exists (v, w). rewrite elem_of_store_iterate, EV. done. }
  assert (P = dom V) as EP by (apply set_eq; intros v; by rewrite HP, elem_of_dom).
  assert (base.filter (λ p : string * string * Dec, p.1.1 ∈ P) S = S) as ES.
  { apply map_filter_id. intros k x Hk. cbn. apply HP. by eapply HS. }
  assert (only P dt' = dt') as EO.
  { unfold only, dt_set_commissions. rewrite map_filter_id; [apply dt_eta|]. intros v c Hc. cbn. apply HP.
    rewrite I4 in Hc. eapply (of_comm _ _ R). eauto. }
  rewrite ES, EO, EP in I1. assert (CheckInitExistedValidatorFlag dt' = true) as Hf' by (by rewrite (steady_flag _ _ I6)).
  unfold records, total. rewrite Hf', Hf. split; [|split; [|split; [by rewrite (sd_params _ _ I6)|done]]].
  - split; [done|]. intros v. by rewrite I2, HP.
  - intros d. unfold pool_of. rewrite I5. cbn [dt0 dt_set_initExisted dt_feePool]. f_equal. apply held_all_ext. intros v.
    unfold held. destruct (dt_outstanding dt' !! v) as [c|] eqn:Hc; [by rewrite (I3 _ _ Hc)|].
    destruct (dt_commissions dt !! v) as [c|] eqn:Hd; [|done]. exfalso.
    assert (is_Some (dt_outstanding dt' !! v)) as [? ?]; [|congruence].
    apply (oi_cur _ _ _ _ _ I1), I2, HP. eapply (of_comm _ _ R). eauto.
Qed.

(** ** Hooks *)

Section Hooks.
Context {C : Type} `{CoinKeeper C} `{!CoinKeeperLaws C} `{StakingConfig} `{DistrConfig}.
Context (distr : string).
Hypothesis Hmod : ck_modaddr (S := C) DistrModuleName = Some distr.
Hypothesis Hblack : ck_Blacklisted (S := C) distr = true.
Implicit Types (k : Distributed C).
#[local] Abbreviation DI := (distr_inv distr).

(** *** A validator is removed *)

Lemma force_run v cm k u k' :
  coins_ok (di_distr k) → forceWithdrawCommission v cm k = (Ok u, k') →
  ∃ coins pool, flow distr k k' (λ d, - amount_of coins d) ∧ (∀ p, pool = Some p → wf_coins p) ∧
    (∀ d, amount_of (default [] pool) d = pool_of (di_distr k) d + amount_of cm d - amount_of coins d) ∧
    di_distr k' = mkDistr pool (dt_proposer (di_distr k)) (dt_withdrawAddrs (di_distr k)) (dt_commissions (di_distr k))
      (dt_initExisted (di_distr k)) (dt_infos (di_distr k)) (dt_historical (di_distr k)) (dt_current (di_distr k))
      (dt_outstanding (di_distr k)) (dt_params (di_distr k)).
Proof.
  intros HC. unfold forceWithdrawCommission. intros ([coins rest] & s & E1 & E)%M_bind_Ok. apply lift_Ok in E1 as [Et ->].
  apply TruncateDecimal_Ok in Et as (Wc & Wr & Asum). apply M_bind_Ok in E as (u1 & k1 & E1 & E).
  unfold GetDelegatorWithdrawAddr in E. apply (pay_run distr Hmod Hblack orPanic) in E; [|by intros * ?%orPanic_Ok].
  destruct E as [Ed F _ _]. exists coins. destruct (DecCoins_IsZero rest) eqn:Hz.
  - apply mret_Ok in E1 as [_ ->]. exists (dt_feePool (di_distr k)). split; [done|]. split; [apply HC|]. split; [|by rewrite Ed, dt_eta].
    intros d. pose proof (Asum d). rewrite (IsZero_amount _ d Hz) in *. unfold pool_of. lia.
  - unfold on_distr in E1. apply zoom_Ok in E1 as (dt1 & E1 & ->). dt_inv.
    match goal with Hp : dt_feePool _ = Some ?p |- _ => rename p into pool; rename Hp into Hpool end.
    match goal with Hp : DecCoins_Add _ _ = Ok ?p |- _ => rename p into pool'; rename Hp into Ep end.
    apply Add_wf in Ep as [Wp Ap]; [|by eapply (co_pool _ HC)|done]. exists (Some pool'). split; [|split; [|split; [|done]]].
    + destruct F as [F1 F2]. split; [exact F1|exact F2].
    + by intros p [= <-].
    + intros d. cbn [default from_option id]. rewrite Ap. unfold pool_of. rewrite Hpool. cbn [default from_option id]. pose proof (Asum d). lia.
Qed.

(** What is left of a validator's rewards and commission, and where it goes:
    to its owner, and to the community pool. *)
Definition retired (v : string) (k k' : Distributed C) (gone : string → Z) : Prop :=
  ∃ coins pool, flow distr k k' (λ d, - amount_of coins d) ∧ (∀ p, pool = Some p → wf_coins p) ∧
    (∀ d, amount_of (default [] pool) d = pool_of (di_distr k) d - amount_of coins d + gone d) ∧
    di_distr k' = removed v pool (di_distr k).

Lemma removed_off v k u k' V :
  off_inv V (di_distr k) →
  (commission ← on_distr (GetValidatorAccumulatedCommission v);
   _ ← (if DecCoins_IsZero commission then mret () else forceWithdrawCommission v commission);
   on_distr (deleteValidatorAccumulatedCommission v)) k = (Ok u, k') →
  retired v k k' (held (dt_commissions (di_distr k)) v).
Proof.
  intros R (cm & k1 & E1 & E)%M_bind_Ok. unfold on_distr in E1. apply zoom_Ok in E1 as (dt1 & E1 & ->).
  unfold GetValidatorAccumulatedCommission in E1. apply gets_Ok in E1 as [-> ->].
  assert (di_set_distr (di_distr k) k = k) as Ek by (by destruct k). rewrite Ek in E. clear Ek.
  set (cm := default [] (dt_commissions (di_distr k) !! v)) in *. change (held _ v) with (λ d, amount_of cm d).
  apply M_bind_Ok in E as (u1 & k1 & E1 & E). unfold on_distr in E. apply zoom_Ok in E as (dt2 & E & ->).
  unfold deleteValidatorAccumulatedCommission in E. apply modify_Ok in E as ->.
  destruct R as [HC R1 R2 R3 R4 _].
  assert (∀ pool, dt_set_commissions (delete v) (mkDistr pool (dt_proposer (di_distr k)) (dt_withdrawAddrs (di_distr k)) (dt_commissions (di_distr k))
      (dt_initExisted (di_distr k)) (dt_infos (di_distr k)) (dt_historical (di_distr k)) (dt_current (di_distr k))
      (dt_outstanding (di_distr k)) (dt_params (di_distr k))) = removed v pool (di_distr k)) as Er.
  { intros pool. unfold removed, dt_set_commissions. cbn. by rewrite R1, R2, R3, R4, map_filter_empty, !delete_empty. }
  destruct (DecCoins_IsZero cm) eqn:Hz.
  - apply mret_Ok in E1 as [_ ->]. exists [], (dt_feePool (di_distr k)). split; [|split; [apply HC|split]].
    + split; [done|]. intros d. cbn. lia.
    + intros d. rewrite (IsZero_amount _ d Hz), amount_of_nil. unfold pool_of. lia.
    + cbn. by rewrite <- Er, dt_eta.
  - apply force_run in E1 as (coins & pool & [F1 F2] & Wp & Ap & Ed); [|done]. exists coins, pool.
    split; [split; [exact F1|exact F2]|]. split; [done|]. split; [|cbn; by rewrite Ed, <- Er].
    intros d. rewrite Ap. lia.
Qed.

Lemma removed_on X old S v k u k' :
  on_inv (λ _, 1) X old S (di_distr k) → afterValidatorRemovedForDistributionProposal v k = (Ok u, k') →
  retired v k k' (held (dt_outstanding (di_distr k)) v).
Proof.
  intros R. pose proof (oi_coins _ _ _ _ _ R) as HC. unfold afterValidatorRemovedForDistributionProposal.
  intros (o & k1 & E1 & E)%M_bind_Ok. unfold on_distr in E1. apply zoom_Ok in E1 as (dt1 & E1 & ->).
  unfold GetValidatorOutstandingRewards in E1. apply get_must_Ok in E1 as [Ho ->].
  assert (di_set_distr (di_distr k) k = k) as Ek by (by destruct k). rewrite Ek in E.
  apply M_bind_Ok in E as (cm & k1 & E1 & E). unfold on_distr in E1. apply zoom_Ok in E1 as (dt1 & E1 & ->).
  unfold GetValidatorAccumulatedCommission in E1. apply gets_Ok in E1 as [-> ->]. rewrite Ek in E. clear Ek.
  set (cm := default [] (dt_commissions (di_distr k) !! v)) in *. assert (wf_coins cm) as Wcm by (apply default_wf, HC).
  apply M_bind_Ok in E as (o' & k1 & E1 & E).
  assert (∃ coins pool, wf_coins o' ∧ flow distr k k1 (λ d, - amount_of coins d) ∧ (∀ p, pool = Some p → wf_coins p) ∧
    (∀ d, amount_of (default [] pool) d + amount_of o' d = pool_of (di_distr k) d + amount_of o d - amount_of coins d) ∧
    di_distr k1 = mkDistr pool (dt_proposer (di_distr k)) (dt_withdrawAddrs (di_distr k)) (dt_commissions (di_distr k))
      (dt_initExisted (di_distr k)) (dt_infos (di_distr k)) (dt_historical (di_distr k)) (dt_current (di_distr k))
      (dt_outstanding (di_distr k)) (dt_params (di_distr k))) as (coins & pool & Wo & F & Wp & Ap & Ed).
  { destruct (DecCoins_IsZero cm).
    - apply mret_Ok in E1 as [-> ->]. exists [], (dt_feePool (di_distr k)). split; [by eapply (co_out _ HC)|].
      split; [split; [done|]; intros d; cbn; lia|]. split; [apply HC|]. split; [|by rewrite dt_eta]. intros d. cbn. unfold pool_of. lia.
    - apply M_bind_Ok in E1 as (o2 & s & E2 & E1). apply lift_Ok in E2 as [E2 ->].
      apply Sub_wf in E2 as [Wo Ao]; [|by eapply (co_out _ HC)|done]. apply M_bind_Ok in E1 as (u1 & k2 & E2 & E1).
      apply mret_Ok in E1 as [-> ->]. apply force_run in E2 as (coins & pool & F & Wp & Ap & Ed); [|done].
      exists coins, pool. split; [done|]. split; [done|]. split; [done|]. split; [|done]. intros d. rewrite Ap, Ao. lia. }
  unfold on_distr in E. apply zoom_Ok in E as (dt2 & E & ->). rewrite Ed in E. clear E1. dt_inv.
  match goal with Hp : dt_feePool _ = Some ?p |- _ => rename p into pl; rename Hp into Hpool end.
  match goal with Hp : DecCoins_Add _ _ = Ok ?p |- _ => rename p into pool'; rename Hp into Ep end.
  cbn in Hpool. subst pool. apply Add_wf in Ep as [W1 A1]; [|by apply Wp|done].
  exists coins, (Some pool'). split; [|split; [by intros p [= <-]|split; [|done]]].
  - destruct F as [F1 F2]. split; [exact F1|exact F2].
  - intros d. cbn [default from_option id]. rewrite A1. pose proof (Ap d) as Hd. cbn [default from_option id] in Hd.
    unfold held. rewrite Ho. cbn [default from_option id]. lia.
Qed.

Lemma inv_removed X old S V ctx v k u k' :
  live ctx (di_distr k) → DI X old S V k → (∀ p x, S !! p = Some x → p.1 = v → p ∈ X) →
  distr_AfterValidatorRemoved ctx v k = (Ok u, k') →
  DI X (old ∖ {[ v ]}) S (delete v V) k' ∧ steady (di_distr k) (di_distr k').
Proof.
  intros Hlive I Hnone. pose proof (dv_records _ _ _ _ _ _ I) as R.
  unfold distr_AfterValidatorRemoved. intros (b & s & E1 & E)%M_bind_Ok. apply gets_Ok in E1 as [-> ->].
  rewrite (live_valid _ _ Hlive) in E.
  assert (retired v k k' (held (if CheckInitExistedValidatorFlag (di_distr k) then dt_outstanding (di_distr k)
    else dt_commissions (di_distr k)) v)) as (coins & pool & F & Wp & Ap & Ed).
  { unfold records in R. destruct (CheckInitExistedValidatorFlag (di_distr k)).
    - eapply removed_on; [apply R|exact E].
    - by eapply removed_off. }
  split; [|by rewrite Ed]. eapply (inv_step_vals distr); [exact I| |apply F|eapply (flow_total distr); [exact F|]|by rewrite Ed|].
  3:{ intros w [x [_ Hx]%lookup_delete_Some]. eauto. }
  - rewrite Ed. by apply removed_records.
  - intros d. rewrite Ed. erewrite total_removed by (exact R || reflexivity). rewrite Ap. unfold held. lia.
Qed.

(** *** A validator is created *)

Lemma inv_created old S V ctx v k u k' :
  live ctx (di_distr k) → DI ∅ old S V k → V !! Va_OperatorAddress v = None →
  ck_Blacklisted (S := C) (Va_OperatorAddress v) = false →
  on_distr (initializeValidator ctx v) k = (Ok u, k') →
  DI ∅ old S (<[Va_OperatorAddress v := v]> V) k' ∧ steady (di_distr k) (di_distr k').
Proof.
  intros Hlive I Hv Hb (dt' & E & ->)%zoom_Ok. eapply records_created in E as (R & T & D); [|done|apply I|done].
  split; [|done]. eapply (inv_step_vals distr); [exact I|done|done| |apply D|]; [intros d; cbn; rewrite T; lia|].
  intros w [x [[<- _]|[_ Hx]]%lookup_insert_Some]; eauto.
Qed.

(** *** Votes that change *)

Lemma total_on dt d : CheckInitExistedValidatorFlag dt = true → total dt d = booked dt d.
Proof. unfold total, booked. by intros ->. Qed.

(** The votes of [del] for the validators in [l]. *)
Definition votes_of (del : string) (l : list string) : gset (string * string) := list_to_set ((λ v, (v, del)) <$> l).
Lemma elem_of_votes_of del l p : p ∈ votes_of del l ↔ p.2 = del ∧ p.1 ∈ l.
Proof.
  unfold votes_of. rewrite elem_of_list_to_set, list_elem_of_fmap. destruct p as [v a]. cbn. split.
  - intros (w & [= -> ->] & Hw). done.
  - intros [-> Hv]. eauto.
Qed.

(** What the staking module knows of a vote before it changes. *)
Definition may_settle (S : Votes) (t : Stakes) (V : Vals) (del a : string) : Prop :=
  ∃ v x, V !! a = Some v ∧ Va_OperatorAddress v = a ∧ voting S t v del x ∧
    votes_on ∅ S a ≤ Va_DelegatorShares v.

Lemma before_modified_on X old S V ctx t vs del l k u k' :
  CheckDistributionProposalValid ctx (di_distr k) = true → CheckInitExistedValidatorFlag (di_distr k) = true →
  DI X old S V k → vs_validators vs = V → NoDup l → (∀ a, a ∈ l → may_settle S t V del a ∧ (a, del) ∉ X) →
  for_each (λ valAddr, v ← deref (vs_validators vs !! valAddr);
             _ ← orPanic (withdrawDelegationRewards ctx t v del); mret ()) l k = (Ok u, k') →
  DI (votes_of del l ∪ X) old S V k' ∧ steady (di_distr k) (di_distr k').
Proof.
  intros Hvalid Hf I EV. revert X k Hvalid Hf I. induction l as [|a l IH]; intros X k Hvalid Hf I Hnd Hl; cbn [for_each].
  { intros [_ ->]%mret_Ok. unfold votes_of. cbn. by rewrite (left_id_L ∅ (∪)). }
  intros (u1 & k1 & E1 & E)%M_bind_Ok. apply NoDup_cons in Hnd as [Ha Hnd].
  destruct (Hl a) as [(v & x & Hv & Ka & Hvote & Hle) HX]; [by left|].
  apply M_bind_Ok in E1 as (v' & s & E2 & E1). apply deref_Ok in E2 as [E2 ->]. rewrite EV, Hv in E2. injection E2 as <-.
  apply M_bind_Ok in E1 as (coins & k2 & E2%orPanic_Ok & E1). apply mret_Ok in E1 as [_ ->].
  pose proof (dv_records _ _ _ _ _ _ I) as R. unfold records in R. rewrite Hf in R. destruct R as [R Rv].
  assert (votes_on X S (Va_OperatorAddress v) ≤ Va_DelegatorShares v) as Hle'.
  { rewrite Ka. etransitivity; [|exact Hle]. apply votes_on_mono; [set_solver|apply R]. }
  assert (0 ≤ Va_DelegatorShares v) as Hsh.
  { etransitivity; [|exact Hle]. apply key_sum_nonneg. intros p y Hp. case_decide; [|done]. by apply (oi_pos _ _ _ _ _ R p). }
  eapply (withdraw_run distr Hmod Hblack) in E2 as (R2 & (k3 & P & Eb) & B & O & _); [|exact R|exact Hvote|by rewrite Ka|done..].
  pose proof (onward_steady _ _ O) as D. pose proof (steady_flag _ _ D) as Hf'. rewrite Hf in Hf'. rewrite Ka in R2.
  assert (DI ({[ (a, del) ]} ∪ X) old S V k2) as I2.
  { eapply (inv_flow distr X old S V _ _ _ k k2 (λ d, - amount_of coins d)); [exact I| | | |apply D].
    - unfold records. rewrite Hf'. split; [exact R2|]. intros w. rewrite (ow_cur _ _ O). apply Rv.
    - destruct P as [_ [F1 F2] _ _]. split; rewrite Eb; done.
    - intros d. rewrite !total_on by done. rewrite B. lia. }
  apply (IH ({[ (a, del) ]} ∪ X)) in E as [I3 D3]; try done.
  - split; [|by etransitivity]. assert (votes_of del (a :: l) ∪ X = votes_of del l ∪ ({[(a, del)]} ∪ X)) as -> by (unfold votes_of; cbn; set_solver). done.
  - unfold CheckDistributionProposalValid in *. rewrite Hf'. by rewrite Hf in Hvalid.
  - intros b Hb. destruct (Hl b) as [? ?]; [by right|]. split; [done|]. assert (b ≠ a) by congruence. set_solver.
Qed.

(** New votes are announced: the periods of the validators end. *)
Lemma before_created_on X old S V ctx vs l k u k' :
  CheckDistributionProposalValid ctx (di_distr k) = true → CheckInitExistedValidatorFlag (di_distr k) = true →
  DI X old S V k → vs_validators vs = V →
  (∀ a v, V !! a = Some v → Va_OperatorAddress v = a ∧ 0 ≤ Va_DelegatorShares v ∧ votes_on X S a ≤ Va_DelegatorShares v) →
  for_each (λ valAddr, v ← deref (vs_validators vs !! valAddr);
             _ ← on_distr (incrementValidatorPeriod ctx v); mret ()) l k = (Ok u, k') →
  DI X old S V k' ∧ steady (di_distr k) (di_distr k') ∧
  (∀ a, period (di_distr k) a ≤ period (di_distr k') a) ∧ (∀ a, a ∈ l → 2 ≤ period (di_distr k') a).
Proof.
  intros Hvalid Hf I EV HV. revert k Hvalid Hf I. induction l as [|a l IH]; intros k Hvalid Hf I; cbn [for_each].
  { intros [_ ->]%mret_Ok. split; [done|]. split; [done|]. split; [done|]. intros a Ha. by apply not_elem_of_nil in Ha. }
  intros (u1 & k1 & E1 & E)%M_bind_Ok. apply M_bind_Ok in E1 as (v & s & E2 & E1). apply deref_Ok in E2 as [Hv ->]. rewrite EV in Hv.
  apply M_bind_Ok in E1 as (p & k2 & E2 & E1). apply mret_Ok in E1 as [_ ->]. unfold on_distr in E2. apply zoom_Ok in E2 as (dt2 & E2 & ->).
  destruct (HV _ _ Hv) as (Ka & Hsh & Hle). pose proof (dv_records _ _ _ _ _ _ I) as R. unfold records in R. rewrite Hf in R. destruct R as [R Rv].
  eapply increment_run in E2 as (c & r & o & pool & Hc & -> & -> & R2 & B); [|done|exact R|by rewrite Ka|done]. rewrite Ka in Hc, R2, B, E.
  set (dt2 := period_ended (di_distr k) a c r o pool) in *.
  assert (∀ w, period dt2 w = if decide (w = a) then Cr_Period c + 1 else period (di_distr k) w) as Hper by (intros w; apply pe_period).
  destruct (pe_per _ _ _ _ _ _ _ R Hc) as (Hp1 & _ & Hp2).
  assert (DI X old S V (di_set_distr dt2 k)) as I2.
  { eapply inv_step; [exact I| |done| |done].
    - unfold records. change (CheckInitExistedValidatorFlag _) with (CheckInitExistedValidatorFlag (di_distr k)). rewrite Hf.
      split; [exact R2|]. intros w. rewrite <- Rv. exact (insert_dom _ _ _ _ _ Hc).
    - intros d. rewrite !total_on by done. cbn [di_distr di_set_distr di_base]. rewrite B. lia. }
  apply IH in E as (I3 & D3 & P3 & L3); [|done..]. split; [done|]. split; [by transitivity dt2|]. cbn [di_distr di_set_distr] in P3. split.
  - intros w. etransitivity; [|apply P3]. rewrite Hper. case_decide as Ew; [subst w; lia|done].
  - intros w [->|Hw]%elem_of_cons; [|by apply L3]. etransitivity; [|apply P3]. rewrite Hper, decide_True by done. lia.
Qed.

(** The changed votes start. *)
Lemma after_modified_on X old S V ctx t del x l k u k' :
  CheckDistributionProposalValid ctx (di_distr k) = true → CheckInitExistedValidatorFlag (di_distr k) = true →
  DI X old S V k → (∃ d, st_delegators t !! del = Some d ∧ De_Shares d = x) → NoDup l →
  (∀ a, a ∈ l → S !! (a, del) = Some x ∧ (a, del) ∈ X) →
  for_each (λ valAddr, on_distr (initializeDelegation ctx t valAddr del)) l k = (Ok u, k') →
  DI (X ∖ votes_of del l) old S V k' ∧ steady (di_distr k) (di_distr k').
Proof.
  intros Hvalid Hf I Hd. revert X k Hvalid Hf I. induction l as [|a l IH]; intros X k Hvalid Hf I Hnd Hl; cbn [for_each].
  { intros [_ ->]%mret_Ok. split; [|done]. assert (X ∖ votes_of del [] = X) as -> by (unfold votes_of; cbn; set_solver). done. }
  intros (u1 & k1 & E1 & E)%M_bind_Ok. apply NoDup_cons in Hnd as [Ha Hnd]. destruct (Hl a) as [Hv HX]; [by left|].
  unfold on_distr in E1. apply zoom_Ok in E1 as (dt1 & E1 & ->).
  pose proof (dv_records _ _ _ _ _ _ I) as R. unfold records in R. rewrite Hf in R. destruct R as [R Rv].
  eapply initialize_run in E1 as (R1 & B & Q); [|done|exact R|exact Hv|done|done].
  assert (steady (di_distr k) dt1) as D by (rewrite Q; done). pose proof (steady_flag _ _ D) as Hf'. rewrite Hf in Hf'.
  assert (DI (X ∖ {[ (a, del) ]}) old S V (di_set_distr dt1 k)) as I1.
  { eapply inv_step; [exact I| |done| |apply D].
    - unfold records. cbn [di_distr di_set_distr]. rewrite Hf'. split; [exact R1|]. intros w. rewrite Q. apply Rv.
    - intros d. cbn [di_distr di_set_distr di_base]. rewrite !total_on by done. rewrite B. lia. }
  apply (IH (X ∖ {[ (a, del) ]})) in E as [I3 D3]; try done.
  - split; [|by transitivity dt1]. assert (X ∖ votes_of del (a :: l) = X ∖ {[(a, del)]} ∖ votes_of del l) as -> by (unfold votes_of; cbn; set_solver). done.
  - cbn [di_distr di_set_distr]. unfold CheckDistributionProposalValid in *. rewrite Hf'. by rewrite Hf in Hvalid.
  - intros b Hb. destruct (Hl b) as [? ?]; [by right|]. split; [done|]. assert (b ≠ a) by congruence. set_solver.
Qed.

(** ** Messages *)

(** What the stores of the staking module say of the votes. *)
Record stakes_ok (S : Votes) (t : Stakes) (V : Vals) : Prop := {
  so_key a d : st_delegators t !! a = Some d → De_DelegatorAddress d = a;
  so_vote a d v : st_delegators t !! a = Some d → v ∈ De_ValidatorAddresses d → S !! (v, a) = Some (De_Shares d);
  so_vals : vals_ok V;
  so_shares a v : V !! a = Some v → votes_on ∅ S a ≤ Va_DelegatorShares v }.

Lemma settle_ready S t V a del d :
  stakes_ok S t V → st_delegators t !! del = Some d → a ∈ De_ValidatorAddresses d → is_Some (V !! a) →
  may_settle S t V del a.
Proof.
  intros HS Hd Ha [v Hv]. exists v, (De_Shares d). pose proof (va_key _ (so_vals _ _ _ HS) _ _ Hv) as Ka.
  split; [done|]. split; [done|]. split; [|by apply (so_shares _ _ _ HS)]. split.
  - rewrite Ka. by eapply so_vote.
  - exists d. split; [done|]. split; [by eapply so_key|done].
Qed.

Lemma inv_withdraw_one old S V ctx t del d a v k c k1 u k' :
  live ctx (di_distr k) → DI ∅ old S V k → stakes_ok S t V → V !! a = Some v →
  st_delegators t !! del = Some d → a ∈ De_ValidatorAddresses d →
  withdrawDelegationRewards ctx t v del k = (Ok c, k1) → on_distr (initializeDelegation ctx t a del) k1 = (Ok u, k') →
  DI ∅ old S V k' ∧ steady (di_distr k) (di_distr k').
Proof.
  intros Hlive I HS Hv Hd Ha E1 E.
  assert (for_each (λ valAddr, on_distr (initializeDelegation ctx t valAddr del)) [a] k1 = (Ok (), k')) as E2.
  { cbn [for_each]. destruct u. by rewrite (M_bind_run _ _ _ _ _ E). }
  clear E. pose proof E1 as (Hvalid & _)%withdraw_split. pose proof (live_valid _ _ Hlive) as Hf. rewrite Hvalid in Hf. symmetry in Hf.
  destruct (settle_ready S t V a del d) as (v' & x & Hv' & Ka & Hvote & Hle); [done|done|done|eauto|].
  rewrite Hv in Hv'. injection Hv' as <-.
  assert (for_each (λ valAddr, v ← deref ((vs_set_validators (λ _, V) (mkValSet ∅ ∅ ∅ ∅ None ∅ [] None None)).(vs_validators) !! valAddr);
             _ ← orPanic (withdrawDelegationRewards ctx t v del); mret ()) [a] k = (Ok (), k1)) as E3.
  { cbn [for_each vs_set_validators vs_validators]. erewrite M_bind_run; [done|]. rewrite Hv. cbn [deref].
    erewrite M_bind_run; [|done]. erewrite M_bind_run; [done|]. unfold orPanic. by rewrite E1. }
  eapply before_modified_on in E3 as [I1 D1]; [|done|done|exact I|done|apply NoDup_singleton|].
  - eapply after_modified_on in E2 as [I2 D2]; [|..|exact I1| | |].
    + split; [|by etransitivity].
      assert ((votes_of del [a] ∪ ∅) ∖ votes_of del [a] = ∅) as E0 by set_solver. by rewrite E0 in I2.
    + rewrite live_valid; [by rewrite (steady_flag _ _ D1)|by eapply live_steady].
    + by rewrite (steady_flag _ _ D1).
    + exists d. split; [done|reflexivity].
    + apply NoDup_singleton.
    + intros b ->%list_elem_of_singleton. split; [by eapply so_vote|]. rewrite (right_id_L ∅ (∪)), elem_of_votes_of. cbn. set_solver.
  - intros b ->%list_elem_of_singleton. split; [|set_solver]. exists v, x. done.
Qed.

Lemma inv_distr_NewHandler old S V ctx t vs msg k u k' :
  live ctx (di_distr k) → DI ∅ old S V k → stakes_ok S t V → vs_validators vs = V →
  distr_NewHandler ctx t vs msg k = (Ok u, k') → DI ∅ old S V k' ∧ steady (di_distr k) (di_distr k').
Proof.
  intros Hlive I HS EV. unfold distr_NewHandler. intros (b & s & E1 & E)%M_bind_Ok. apply gets_Ok in E1 as [-> ->].
  apply M_bind_Ok in E as (u1 & s & E1 & E). apply guard_not_Ok in E1 as [_ ->].
  apply M_bind_Ok in E as (b & s & E1 & E). apply gets_Ok in E1 as [-> ->]. destruct msg as [d w|v|d v|d].
  - unfold on_distr in E. apply zoom_Ok in E as (dt' & E & ->). unfold SetWithdrawAddr in E. dt_inv. split; [|done].
    eapply inv_step; [exact I| |done| |done].
    + eapply records_same; [|apply I]. done.
    + intros d'. erewrite (total_same (di_distr k)) by done. cbn [di_distr di_set_distr di_base]. lia.
  - apply M_bind_Ok in E as (cs & k1 & E & E2). apply mret_Ok in E2 as [_ ->]. by eapply inv_commission.
  - destruct (CheckDistributionProposalValid _ _); [|by apply fail_Ok in E].
    apply M_bind_Ok in E as (cs & k1 & E & E2). apply mret_Ok in E2 as [_ ->].
    unfold WithdrawDelegationRewards in E. rewrite EV in E. destruct (V !! v) as [val|] eqn:Hv; [|by apply fail_Ok in E].
    destruct (st_delegators t !! d) as [del|] eqn:Hd; [|by apply fail_Ok in E].
    apply M_bind_Ok in E as (u2 & s & E1 & E). apply guard_not_Ok in E1 as [Hin ->]. apply negb_false_iff in Hin.
    apply existsb_exists in Hin as (a & Ha & <-%String.eqb_eq). rewrite <- list_elem_of_In in Ha.
    apply M_bind_Ok in E as (c & k2 & E1 & E). apply M_bind_Ok in E as (u3 & k3 & E2 & E). apply mret_Ok in E as [_ ->].
    by eapply inv_withdraw_one.
  - destruct (CheckDistributionProposalValid _ _); [|by apply fail_Ok in E].
    unfold WithdrawDelegationAllRewards in E. destruct (st_delegators t !! d) as [del|] eqn:Hd; [|by apply fail_Ok in E].
    apply M_bind_Ok in E as (u2 & s & E1 & E). apply guard_not_Ok in E1 as [_ ->].
    assert (DI ∅ old S V k ∧ steady (di_distr k) (di_distr k)) as HI by done.
    set (P := λ k1, DI ∅ old S V k1 ∧ steady (di_distr k) (di_distr k1)).
    apply (for_each_inv P) in E; [done| |done]. intros a s0 u3 s1 Ha [I0 D0] E0. rewrite EV in E0.
    destruct (V !! a) as [val|] eqn:Hv; [|by apply fail_Ok in E0].
    apply M_bind_Ok in E0 as (c & k2 & E1 & E2).
    destruct (inv_withdraw_one old S V ctx t d del a val s0 c k2 u3 s1) as [I1 D1]; try done.
    + by eapply live_steady.
    + split; [done|by etransitivity].
Qed.

(** ** Proposals *)

Lemma inv_books X old S V k dt' :
  DI X old S V k → same_books (di_distr k) dt' →
  (GetCommunityTax (di_distr k) ≤ OneDec → GetCommunityTax dt' ≤ OneDec) →
  DI X old S V (di_set_distr dt' k).
Proof.
  intros [W R B T Hv] Hs Ht. split; [done|by eapply records_same|..|done].
  - intros d. cbn. rewrite (total_same _ _ _ Hs). apply B.
  - cbn. auto.
Qed.

Lemma inv_spend X old S V p k u k' :
  DI X old S V k → HandleCommunityPoolSpendProposal p k = (Ok u, k') →
  DI X old S V k' ∧ steady (di_distr k) (di_distr k').
Proof.
  intros I. unfold HandleCommunityPoolSpendProposal, distributeFromFeePool. intros (u1 & s & E1 & E)%M_bind_Ok.
  apply guard_not_Ok in E1 as [_ ->]. apply M_bind_Ok in E as (pool & k1 & E1 & E). unfold on_distr in E1.
  apply zoom_Ok in E1 as (dt1 & E1 & ->). apply GetFeePool_Ok in E1 as [Hpool ->].
  assert (di_set_distr (di_distr k) k = k) as Ek by (by destruct k). rewrite Ek in E. clear Ek.
  apply M_bind_Ok in E as ([pool' neg] & s & E1 & E). apply lift_Ok in E1 as [Es ->].
  apply M_bind_Ok in E as (u2 & s & E1 & E). apply guard_not_Ok in E1 as [-> ->].
  apply M_bind_Ok in E as (u3 & k1 & E1 & E). apply (send_run distr Hmod Hblack) in E1 as (Wa & _ & [F1 F2] & Ed & _).
  unfold on_distr in E. apply zoom_Ok in E as (dt2 & E & ->). unfold SetFeePool in E. apply modify_Ok in E as ->.
  assert (DecCoins_Sub pool (Cs_Amount p) = Ok pool') as Ep by (unfold DecCoins_Sub; rewrite Es; done).
  pose proof (dv_records _ _ _ _ _ _ I) as R.
  apply Sub_wf in Ep as [Wp Ap]; [|by eapply (co_pool _ (records_coins _ _ _ _ _ R))|done].
  cbn [di_distr di_set_distr]. rewrite Ed. split; [|done].
  eapply (inv_flow distr X old S V _ _ _ k _ (λ d, - amount_of (Cs_Amount p) d)); [exact I|by apply pool_records|split; [exact F1|exact F2]| |done].
  intros d. cbn [di_distr di_set_distr]. rewrite pool_total, Ap. unfold pool_of. rewrite Hpool. cbn [default from_option id]. lia.
Qed.

Lemma inv_proposal old S V ctx t vs c k u k' :
  live ctx (di_distr k) → DI ∅ old S V k → stakes_ok S t V → vs_validators vs = V →
  (∀ p x, S !! p = Some x → 0 ≤ x ∧ is_Some (V !! p.1)) →
  DistributionProposalHandler ctx vs c k = (Ok u, k') → ∃ old', DI ∅ old' S V k' ∧ live ctx (di_distr k').
Proof.
  intros Hlive I HS EV Hvotes E.
  assert (∀ m, (if HigherThanVenus2 (BlockHeight ctx) then on_distr m
    else fail "ErrUnknownDistributionCommunityPoolProposaType") k = (Ok u, k') →
    HigherThanVenus2 (BlockHeight ctx) = true ∧ ∃ dt', m (di_distr k) = (Ok u, dt') ∧ k' = di_set_distr dt' k) as Hlater.
  { intros m Hm. destruct (HigherThanVenus2 _); [|by apply fail_Ok in Hm]. unfold on_distr in Hm. by apply zoom_Ok in Hm. }
  destruct c as [p|t1 d1 ty|t1 d1 en|t1 d1 pr]; cbn [DistributionProposalHandler] in E.
  - destruct (inv_spend _ _ _ _ _ _ _ _ I E) as [I' D']. exists old. split; [done|by eapply live_steady].
  - apply Hlater in E as (Hh & dt' & E & ->). unfold HandleChangeDistributionTypeProposal in E.
    apply M_bind_Ok in E as (cur & s & E1 & E). apply gets_Ok in E1 as [-> ->]. destruct (_ =? ty).
    { apply mret_Ok in E as [_ ->]. exists old. split; [|done]. by eapply inv_books. }
    apply M_bind_Ok in E as (b & s & E1 & E). apply gets_Ok in E1 as [-> ->].
    apply M_bind_Ok in E as (u1 & dt1 & E1 & E). unfold SetDistributionType in E. apply modify_Ok in E as ->.
    assert (∃ old', DI ∅ old' S V (di_set_distr dt1 k)) as [old' I1].
    { destruct (CheckInitExistedValidatorFlag (di_distr k)) eqn:Hf.
      - rewrite andb_false_r in E1. apply mret_Ok in E1 as [_ ->]. exists old. by eapply inv_books.
      - destruct (ty =? _); cbn [andb negb] in E1; [|apply mret_Ok in E1 as [_ ->]; exists old; by eapply inv_books].
        apply M_bind_Ok in E1 as (u2 & dt0 & E0 & E1). unfold SetInitExistedValidatorFlag in E0. apply modify_Ok in E0 as ->.
        pose proof (dv_records _ _ _ _ _ _ I) as R. unfold records in R. rewrite Hf in R.
        eapply switch_records in E1 as (R1 & T1 & P1 & _); [|exact R|done|apply HS|done|done].
        exists (dom V). eapply inv_step; [exact I|exact R1|done| |exact P1]. intros d. cbn. rewrite T1. lia. }
    exists old'. split; [|intros _; exact Hh]. change (di_set_distr _ k) with (di_set_distr (dt_set_params (mkDistrParams (Dp_CommunityTax (dt_params dt1))
      (Dp_WithdrawAddrEnabled (dt_params dt1)) (Some ty) (Dp_WithdrawRewardEnabled (dt_params dt1))
      (Dp_RewardTruncatePrecision (dt_params dt1))) dt1) (di_set_distr dt1 k)). by eapply inv_books.
  - apply Hlater in E as (Hh & dt' & E & ->). unfold SetWithdrawRewardEnabled in E. apply modify_Ok in E as ->. exists old.
    split; [|done]. by eapply inv_books.
  - apply Hlater in E as (Hh & dt' & E & ->). unfold SetRewardTruncatePrecision in E. apply modify_Ok in E as ->. exists old.
    split; [|done]. by eapply inv_books.
Qed.
End Hooks.
