(* ===== verification/DistrLaws.v ===== *)
(** * Distribution: the interfaces it keeps

    With the store of the module beside the coins, the laws of the coin keeper
    still hold, and the hooks of the module keep what the staking module
    relies on: they pay only from the account of the module, and not to the
    accounts of other modules. *)
From S2P Require Import Prelude Decimal Denom Coins Bank CoinKeeper DecStr Staking StakingVals StakingVotes Slashing Distribution DistrProps DistrKeeper.
#[local] Open Scope Z_scope.

(** ** What runs that return have in common *)

Section Returns.
Context {W : Type} (R : W → W → Prop) `{!PreOrder R}.
Definition on_return {A} (m : M W A) : Prop := ∀ s a s', m s = (Ok a, s') → R s s'.

Lemma or_bind {A B} (m : M W A) (f : A → M W B) : on_return m → (∀ a, on_return (f a)) → on_return (m ≫= f).
Proof. intros Hm Hf s b s' (a & s1 & H1 & H2)%M_bind_Ok. transitivity s1; [by eapply Hm|by eapply Hf]. Qed.
Lemma or_lift {A} (o : outcome A) : on_return (lift o).
Proof. by intros s a s' [_ ->]%lift_Ok. Qed.
Lemma or_gets {A} (f : W → A) : on_return (gets f).
Proof. by intros s a s' [_ ->]%gets_Ok. Qed.
Lemma or_mret {A} (a : A) : on_return (mret a).
Proof. by intros s b s' [_ ->]%mret_Ok. Qed.
Lemma or_fail {A} n : on_return (fail (A := A) n).
Proof. by intros s b s' ?%fail_Ok. Qed.
Lemma or_guard c n : on_return (guard_not c n).
Proof. by intros s b s' [_ ->]%guard_not_Ok. Qed.
Lemma or_deref {A} (o : option A) : on_return (deref o).
Proof. by intros s b s' [_ ->]%deref_Ok. Qed.
Lemma or_panic {A} (m : M W A) : on_return m → on_return (orPanic m).
Proof. intros Hm s a s' E%orPanic_Ok. by eapply Hm. Qed.
Lemma or_replace {A} n (m : M W A) : on_return m → on_return (replaceErr n m).
Proof. intros Hm s a s' E%replaceErr_Ok. by eapply Hm. Qed.
Lemma or_for_each {A} (f : A → M W unit) l : (∀ a, on_return (f a)) → on_return (for_each f l).
Proof. intros Hf. induction l; cbn [for_each]; [apply or_mret|]. by apply or_bind. Qed.
End Returns.

Ltac returns_step :=
  lazymatch goal with
  | |- on_return _ (_ ≫= _) => apply or_bind; [exact _| |intros ?]
  | |- on_return _ (lift _) => apply or_lift; exact _
  | |- on_return _ (gets _) => apply or_gets; exact _
  | |- on_return _ (mret _) => apply or_mret; exact _
  | |- on_return _ (fail _) => apply or_fail
  | |- on_return _ (guard_not _ _) => apply or_guard; exact _
  | |- on_return _ (deref _) => apply or_deref; exact _
  | |- on_return _ (orPanic _) => apply or_panic
  | |- on_return _ (replaceErr _ _) => apply or_replace
  | |- on_return _ (for_each _ _) => apply or_for_each; [exact _|intros ?]
  | |- on_return _ (let _ := _ in _) => cbv zeta
  | |- on_return _ (if ?c then _ else _) => destruct c
  | |- on_return _ (match ?c with _ => _ end) => destruct c
  | |- on_return _ _ => solve [auto]
  end.
Ltac returns := repeat returns_step.

(** ** The interfaces, with the store of the module beside *)

Section Lifted.
Context {C : Type} `{CoinKeeper C} `{!CoinKeeperLaws C} `{!DelegationKeeper C} `{!DelegationKeeperLaws C}.
Context `{cfgS : StakingConfig} `{DistrConfig}.

Lemma kmove_distributed (k : Distributed C) c' a b amt :
  kmove (di_base k) c' a b amt → kmove k (di_set_base c' k) a b amt.
Proof. by apply (kmove_zoomed di_base di_set_base). Qed.
Lemma on_base_coins_Ok {A} (m : M C A) k a k' :
  on_coins m k = (Ok a, k') → ∃ c', m (di_base k) = (Ok a, c') ∧ k' = di_set_base c' k.
Proof. apply zoom_Ok. Qed.

#[global] Instance distributed_coin_laws : CoinKeeperLaws (Distributed C).
Proof. apply zoomed_laws; [done|by intros []|exact _]. Qed.

#[global] Instance distributed_delegation_laws : DelegationKeeperLaws (Distributed C).
Proof.
  split; cbn.
  - intros a m amt k k' u (x & Hx & ->)%on_base_coins_Ok Hw. apply law_Delegate in Hx as (addr & H1 & H2); [|done].
    exists addr. split; [done|]. by apply kmove_distributed.
  - intros m a amt k k' u (x & Hx & ->)%on_base_coins_Ok Hw Hm. apply law_Undelegate in Hx as (addr & H1 & H2); [|done..].
    exists addr. split; [done|]. by apply kmove_distributed.
  - intros m a amt k k' e Hx. unfold on_coins, zoom in Hx.
    destruct (ck_UndelegateCoinsFromModuleToAccount m a amt (di_base k)) as [[u|e'|p] x] eqn:E; simplify_eq.
    apply law_Undelegate_refused in E as [H1 H2]. split; done.
Qed.

Section Pools.
Context (bonded notBonded distr : string).
Hypothesis Hmod : ck_modaddr (S := C) DistrModuleName = Some distr.
Hypothesis Hb : ck_modaddr (S := C) BondedPoolName = Some bonded.
Hypothesis Hn : ck_modaddr (S := C) NotBondedPoolName = Some notBonded.
Hypothesis Hne : bonded ≠ notBonded.
Hypothesis Hdb : distr ≠ bonded.
Hypothesis Hdn : distr ≠ notBonded.
Hypothesis Hbb : ck_Blacklisted (S := C) bonded = true.
Hypothesis Hbn : ck_Blacklisted (S := C) notBonded = true.

Definition pools_kept (k k' : Distributed C) : Prop := keeps bonded notBonded (di_base k) (di_base k').
#[local] Instance pools_kept_preorder : PreOrder pools_kept.
Proof. split; [intros k; unfold pools_kept; reflexivity|]. intros k1 k2 k3. unfold pools_kept. apply transitivity. Qed.

Lemma or_on_distr {A} (m : M Distr A) : on_return pools_kept (on_distr m).
Proof. intros k a k' (dt & _ & ->)%zoom_Ok. unfold pools_kept. cbn. reflexivity. Qed.
Lemma or_send a coins : on_return pools_kept (sendFromModule a coins).
Proof.
  intros k u k' (c' & E & ->)%on_base_coins_Ok. apply law_ModuleToAccount in E as (Ha & m & Hm & M). rewrite Hmod in Hm. injection Hm as <-.
  split; [apply M|..]; intros d; cbn; rewrite (km_balance _ _ _ _ _ M); unfold at_addr;
    rewrite !decide_False by congruence; lia.
Qed.
#[local] Hint Resolve or_on_distr or_send : core.

Lemma or_withdraw ctx t v d : on_return pools_kept (withdrawDelegationRewards ctx t v d).
Proof. unfold withdrawDelegationRewards. returns. Qed.
Lemma or_force v c : on_return pools_kept (forceWithdrawCommission v c).
Proof. unfold forceWithdrawCommission. returns. Qed.
#[local] Hint Resolve or_withdraw or_force : core.

Lemma or_hook ctx t vs h : on_return pools_kept (distr_hook ctx t vs h).
Proof.
  destruct h; cbn [distr_hook]; unfold distr_AfterValidatorRemoved, afterValidatorRemovedForDistributionProposal; returns.
Qed.

#[local] Hint Resolve or_hook : core.

(** So do its messages, the start of a block, and proposals. *)
Lemma or_NewHandler ctx t vs msg : on_return pools_kept (distr_NewHandler ctx t vs msg).
Proof.
  unfold distr_NewHandler, WithdrawValidatorCommission, WithdrawDelegationRewards, WithdrawDelegationAllRewards. returns.
Qed.
Lemma or_proposal ctx vs c : on_return pools_kept (DistributionProposalHandler ctx vs c).
Proof. unfold DistributionProposalHandler, HandleCommunityPoolSpendProposal, distributeFromFeePool. returns. Qed.
Lemma or_BeginBlocker fee ctx vs votes p :
  ck_modaddr (S := C) dc_feeCollectorName = Some fee → fee ≠ bonded → fee ≠ notBonded →
  on_return pools_kept (distr_BeginBlocker ctx vs votes p).
Proof.
  intros Hfee Hfb Hfn.
  assert (∀ cs, on_return pools_kept (on_coins (ck_SendCoinsFromModuleToModule dc_feeCollectorName DistrModuleName cs))) as Hs.
  { intros cs k u k' (c' & E & ->)%on_base_coins_Ok. apply law_ModuleToModule in E as (a & b & Ha & Hb' & M).
    rewrite Hfee in Ha. rewrite Hmod in Hb'. injection Ha as <-. injection Hb' as <-.
    split; [apply M|..]; intros d; cbn; rewrite (km_balance _ _ _ _ _ M); unfold at_addr;
      rewrite !decide_False by congruence; lia. }
  assert (on_return pools_kept (moduleCoins dc_feeCollectorName)) as Hc.
  { unfold moduleCoins. rewrite Hfee. intros k a k' (c' & E & ->)%on_base_coins_Ok. apply law_GetCoins in E as (-> & _).
    unfold pools_kept. reflexivity. }
  unfold distr_BeginBlocker, AllocateTokens. returns.
Qed.

Lemma distributed_staking_laws : StakingLaws (Distributed C) bonded notBonded.
Proof.
  split; cbn; [done..|]. intros ctx t vs h k k' u E. apply or_hook in E as []. by split.
Qed.
End Pools.
End Lifted.
