(* ===== verification/DistrStaking.v ===== *)
(** * Distribution and staking

    The two modules together: the staking module announces a change of votes
    before and after it, so the records of rewards follow the votes. *)
From S2P Require Import Prelude Decimal Denom Coins Bank CoinKeeper DecStr Token Staking StakingVals StakingVotes StakingProps StakingMsgs Slashing SlashingProps Distribution DistrProps DistrKeeper DistrInv DistrHooks DistrLaws.
#[local] Open Scope Z_scope.

(** ** The votes of the staking module *)

Section Votes.
Context `{cfgS : StakingConfig} `{bansS : !Bans} `{engS : !Engine}.
Implicit Types (D : gmap string Delegator) (S : Votes) (vs : ValSet).

Lemma votes_on_shares D (S : Votes) vs v : votes_inv D S vs → votes_on ∅ S v = map_sum (shares_to v) D.
Proof.
  intros I. pose proof (λ a x, vt_shares _ _ _ I v a x) as HS. clear I. revert S HS.
  induction D as [|a d D Ha IH] using map_ind; intros S HS.
  - unfold votes_on. rewrite (key_sum_ext _ (λ _ _, 0 * 0)); [rewrite key_sum_scale; apply Z.mul_0_r|].
    intros [w a] x Hx. rewrite decide_False; [done|]. intros [Hw _]. cbn in Hw. subst w. apply HS in Hx as (d & Hd & _). done.
  - rewrite map_sum_fresh by done. rewrite <- (IH (delete (v, a) S)).
    + unfold votes_on. rewrite key_sum_delete.
      assert (at_pair (λ k x, if decide (counted ∅ v k) then x else 0) (v, a) (S !! (v, a)) = shares_to v d) as ->; [|lia].
      unfold shares_to. specialize (HS a). setoid_rewrite lookup_insert_eq in HS.
      case_bool_decide as Hv.
      * rewrite (proj2 (HS (De_Shares d))) by eauto. cbn. rewrite decide_True; [done|]. split; [done|set_solver].
      * destruct (S !! (v, a)) as [x|] eqn:Hx; [|done]. destruct (proj1 (HS x) eq_refl) as (d' & [= <-] & ? & _). done.
    + intros b x. rewrite lookup_delete_Some, HS. destruct (decide (b = a)) as [->|Hne].
      * rewrite Ha. split; [by intros [? _]|by intros (d' & ? & _)].
      * rewrite lookup_insert_ne by done. split; [by intros [_ ?]|]. split; [congruence|done].
Qed.
Lemma votes_nonneg D S vs k x : votes_inv D S vs → S !! k = Some x → 0 < x.
Proof.
  destruct k as [v a]. intros I (d & Hd & Hv & ->)%(vt_shares _ _ _ I). apply (vt_pos _ _ _ I a d Hd).
  intros E. rewrite E in Hv. by apply not_elem_of_nil in Hv.
Qed.
Lemma votes_vals_ok D S vs : votes_inv D S vs → vals_ok (vs_validators vs).
Proof.
  intros I. pose proof (proj1 (vt_vals _ _ _ I)) as Hi. split.
  - intros a v Hv. by apply (ii_key _ _ _ _ Hi).
  - intros a v Hv. destruct (ii_val _ _ _ _ Hi _ _ Hv) as [V1 V2 V3 V4 V5 V6]. pose proof (ii_nonneg _ _ _ _ Hi a).
    assert (0 ≤ msd_base v) by (unfold msd_base; by destruct (_ =? 0)). lia.
  - intros a v Hv. apply (ii_val _ _ _ _ Hi _ _ Hv).
Qed.
Lemma votes_shares_le D S vs a v : votes_inv D S vs → vs_validators vs !! a = Some v → votes_on ∅ S a ≤ Va_DelegatorShares v.
Proof.
  intros I Hv. rewrite (votes_on_shares _ _ _ _ I). pose proof (proj1 (vt_vals _ _ _ I)) as Hi.
  destruct (ii_val _ _ _ _ Hi _ _ Hv) as [V1 V2 V3 V4 V5 V6]. assert (0 ≤ msd_base v) by (unfold msd_base; by destruct (_ =? 0)). lia.
Qed.
Lemma votes_stakes_ok t vs : votes_inv (st_delegators t) (st_shares t) vs → stakes_ok (st_shares t) t (vs_validators vs).
Proof.
  intros I. split.
  - apply (vt_key _ _ _ I).
  - intros a d v Hd Hv. apply (vt_shares _ _ _ I). eauto.
  - by eapply votes_vals_ok.
  - intros a v. by apply votes_shares_le with (D := st_delegators t).
Qed.
Lemma votes_on_vals D S vs k x : votes_inv D S vs → S !! k = Some x → is_Some (vs_validators vs !! k.1).
Proof. destruct k as [v a]. intros I (d & Hd & Hv & ->)%(vt_shares _ _ _ I). by eapply listed_exists. Qed.
End Votes.

(** ** Both modules *)

Section Joint.
Context {C : Type} `{CoinKeeper C} `{!CoinKeeperLaws C} `{!DelegationKeeper C} `{!DelegationKeeperLaws C}.
Context `{cfgS : StakingConfig} `{DistrConfig} `{bansS : !Bans} `{engS : !Engine}.
Context (bonded notBonded distr : string) `{!StakingLaws (Distributed C) bonded notBonded}.
Hypothesis Hmod : ck_modaddr (S := C) DistrModuleName = Some distr.
Hypothesis Hblack : ck_Blacklisted (S := C) distr = true.
#[local] Abbreviation K := (Slashed (Distributed C)).
Implicit Types (s : StakingState K).
#[local] Abbreviation DI := (distr_inv distr).
#[local] Abbreviation vals_of s := (vs_validators (sg_vals s)).
#[local] Abbreviation shares_of s := (st_shares (sg_stakes s)).

Definition dist s : Distributed C := sd_base (sg_k s).

(** The records of rewards fit the votes; [X] are votes being changed. *)
Definition joint (X : gset (string * string)) (ctx : Ctx) s : Prop :=
  live ctx (di_distr (dist s)) ∧ ∃ old, DI X old (shares_of s) (vals_of s) (dist s).

(** What is not about votes and rewards. *)
Record quiet s s' : Prop := {
  qu_distr : di_distr (dist s') = di_distr (dist s);
  qu_wf : ck_wf (di_base (dist s)) → ck_wf (di_base (dist s'));
  qu_balance d : ck_balance (di_base (dist s')) distr d = ck_balance (di_base (dist s)) distr d;
  qu_shares : shares_of s' = shares_of s;
  qu_vals v : is_Some (vals_of s' !! v) ↔ is_Some (vals_of s !! v) }.
#[global] Instance quiet_preorder : PreOrder quiet.
Proof.
  split; [by intros s|]. intros s1 s2 s3 [A1 B1 C1 D1 E1] [A2 B2 C2 D2 E2]. split; try congruence; [tauto|].
  intros v. by rewrite E2.
Qed.

Lemma DI_calm X old S V V' k k' :
  DI X old S V k → di_distr k' = di_distr k → (ck_wf (di_base k) → ck_wf (di_base k')) →
  (∀ d, ck_balance (di_base k') distr d = ck_balance (di_base k) distr d) →
  (∀ v, is_Some (V' !! v) ↔ is_Some (V !! v)) → DI X old S V' k'.
Proof.
  intros [W R B T Hv] E Hw Hb HV. split; rewrite ?E; auto; [by eapply records_dom|intros d; by rewrite Hb|]. intros v Hx%HV. auto.
Qed.
Lemma joint_quiet X ctx s s' : quiet s s' → joint X ctx s → joint X ctx s'.
Proof.
  intros [A B Cb D E] [L [old I]]. split; [by rewrite A|]. exists old. rewrite D. by eapply DI_calm.
Qed.

(** Other votes, where those that have changed are marked. *)
Lemma DI_revote X old S S' V V' k :
  DI X old S V k → (∀ p, p ∉ X → S' !! p = S !! p) → (∀ p x, S' !! p = Some x → 0 ≤ x) →
  (∀ v, is_Some (V' !! v) ↔ is_Some (V !! v)) → DI X old S' V' k.
Proof.
  intros [W R B T Hv] HS Hpos HV. split; [done| |done|done|intros v Hx%HV; auto]. eapply records_dom; [exact HV|]. unfold records in *.
  destruct (CheckInitExistedValidatorFlag _); [|done]. destruct R as [R Rv]. split; [by eapply revote_inv|done].
Qed.
Lemma DI_reopen X X' old S V k :
  DI X old S V k → (∀ p x, S !! p = Some x → p ∈ X ↔ p ∈ X') →
  (CheckInitExistedValidatorFlag (di_distr k) = true → ∀ p, p ∈ X' → 2 ≤ period (di_distr k) p.1) → DI X' old S V k.
Proof.
  intros [W R B T Hv] HX Hper. split; [done| |done|done|done]. unfold records in *.
  destruct (CheckInitExistedValidatorFlag _); [|done]. destruct R as [R Rv]. split; [|done]. eapply reopen_inv; [done|done|]. auto.
Qed.
Lemma DI_off X old S X' old' S' V k :
  CheckInitExistedValidatorFlag (di_distr k) = false → DI X old S V k → DI X' old' S' V k.
Proof. intros Hf [W R B T Hv]. split; [done| |done|done|done]. by eapply records_off. Qed.

(** ** Hooks *)

Lemma call_hook_distr ctx h s u s' :
  call_hook ctx h s = (Ok u, s') →
  distr_hook ctx (sg_stakes s) (sg_vals s) h (dist s) = (Ok (), dist s') ∧
  sg_stakes s' = sg_stakes s ∧ sg_vals s' = sg_vals s ∧ sg_params s' = sg_params s.
Proof.
  unfold call_hook, on_keeper. intros (k' & E & ->)%zoom_Ok. cbn [sh_call slashed_hooks] in E.
  apply M_bind_Ok in E as ([] & k1 & E1 & E). apply on_base_Ok in E1 as (c' & E1 & ->). apply zoom_Ok in E as (l' & E & ->).
  split; [exact E1|done].
Qed.

(** The hooks that do nothing. *)
Definition idle_hook (h : hook) : bool :=
  match h with
  | BeforeValidatorModified _ | AfterValidatorBonded _ _ | AfterValidatorBeginUnbonding _ _ | AfterValidatorDestroyed _ _ => true
  | _ => false
  end.
Lemma idle_quiet ctx h s u s' : idle_hook h = true → call_hook ctx h s = (Ok u, s') → quiet s s'.
Proof.
  intros Hi (E & E1 & E2 & _)%call_hook_distr.
  assert (dist s' = dist s) as Ed by (destruct h; try done; by apply mret_Ok in E as [_ ->]).
  split; rewrite ?Ed, ?E1, ?E2; done.
Qed.

(** Votes of [a] are about to change. *)
Lemma joint_before ctx a d s u s' :
  votes_inv_of s → st_delegators (sg_stakes s) !! a = Some d → joint ∅ ctx s →
  call_hook ctx (BeforeDelegationSharesModified a (De_ValidatorAddresses d)) s = (Ok u, s') →
  joint (votes_of a (De_ValidatorAddresses d)) ctx s' ∧
  sg_stakes s' = sg_stakes s ∧ sg_vals s' = sg_vals s ∧ sg_params s' = sg_params s.
Proof.
  intros I Hd [L [old J]] (E & E1 & E2 & E3)%call_hook_distr. split; [|done]. unfold joint. rewrite E1, E2.
  cbn [distr_hook] in E. apply M_bind_Ok in E as (b & k1 & E0 & E). apply gets_Ok in E0 as [-> ->].
  rewrite (live_valid _ _ L) in E. destruct (CheckInitExistedValidatorFlag (di_distr (dist s))) eqn:Hf; cbn [negb] in E.
  - apply (before_modified_on distr Hmod Hblack ∅ old (shares_of s) (vals_of s)) in E as [J' D']; try done.
    + rewrite (right_id_L ∅ (∪)) in J'. split; [by eapply live_steady|eauto].
    + by rewrite live_valid.
    + by eapply vt_nodup.
    + intros v Hv. split; [|set_solver]. eapply settle_ready; [by apply votes_stakes_ok|done|done|by eapply listed_exists].
  - apply mret_Ok in E as [_ E]. rewrite E. split; [done|]. exists old. by eapply DI_off.
Qed.

(** The votes of [a] have changed, to [x]. *)
Lemma joint_after ctx a d l s u s' :
  joint (votes_of a l) ctx s → st_delegators (sg_stakes s) !! a = Some d → NoDup l →
  (∀ v, v ∈ l → shares_of s !! (v, a) = Some (De_Shares d)) →
  call_hook ctx (AfterDelegationModified a l) s = (Ok u, s') →
  joint ∅ ctx s' ∧ sg_stakes s' = sg_stakes s ∧ sg_vals s' = sg_vals s ∧ sg_params s' = sg_params s.
Proof.
  intros [L [old J]] Hd Hnd Hl (E & E1 & E2 & E3)%call_hook_distr. split; [|done]. unfold joint. rewrite E1, E2.
  cbn [distr_hook] in E. apply M_bind_Ok in E as (b & k1 & E0 & E). apply gets_Ok in E0 as [-> ->].
  rewrite (live_valid _ _ L) in E. destruct (CheckInitExistedValidatorFlag (di_distr (dist s))) eqn:Hf; cbn [negb] in E.
  - apply (after_modified_on distr Hmod Hblack (votes_of a l) old (shares_of s) (vals_of s) _ _ _ (De_Shares d)) in E as [J' D']; try done.
    + rewrite difference_diag_L in J'. split; [by eapply live_steady|eauto].
    + by rewrite live_valid.
    + eauto.
    + intros v Hv. split; [by apply Hl|]. by apply elem_of_votes_of.
  - apply mret_Ok in E as [_ E]. rewrite E. split; [done|]. exists old. by eapply DI_off.
Qed.

(** A validator is removed whose votes, if any, are being changed. *)
Lemma joint_remove X ctx v s u s' :
  joint X ctx s → vals_of s !! Va_OperatorAddress v = Some v →
  (∀ p x, shares_of s !! p = Some x → p.1 = Va_OperatorAddress v → p ∈ X) →
  RemoveValidator ctx (Va_OperatorAddress v) s = (Ok u, s') →
  joint X ctx s' ∧ sg_stakes s' = sg_stakes s ∧ vals_of s' = delete (Va_OperatorAddress v) (vals_of s).
Proof.
  intros [L [old J]] Hv Hnone. unfold RemoveValidator. intros (o & s1 & H1 & H2)%M_bind_Ok. apply gets_Ok in H1 as [-> ->].
  rewrite Hv in H2. apply M_bind_Ok in H2 as (u1 & s1 & H1 & H2). apply panic_if_Ok in H1 as [_ ->].
  apply M_bind_Ok in H2 as (u2 & s1 & H1 & H2). apply panic_if_Ok in H1 as [_ ->].
  apply M_bind_Ok in H2 as (u3 & s1 & H1 & H2). apply M_bind_Ok in H2 as (u4 & s2 & H3 & H2).
  apply M_bind_Ok in H2 as (u5 & s3 & H4 & H2).
  assert (dist s3 = dist s ∧ sg_stakes s3 = sg_stakes s ∧ vals_of s3 = delete (Va_OperatorAddress v) (vals_of s)) as (Ed & Es & Ev)
    by (clear H2; st_inv; done).
  apply call_hook_distr in H2 as (E & E1 & E2 & _). rewrite Ed in E. cbn [distr_hook] in E.
  apply (inv_removed distr Hmod Hblack X old (shares_of s) (vals_of s)) in E as [J' D']; [|done..].
  unfold joint. rewrite E1, E2, Es, Ev. split; [|done]. split; [by eapply live_steady|eauto].
Qed.

(** ** The calls that change votes *)

(** In the loops over validators the records of rewards do not change. *)
Lemma revotes_joint X ctx a l x δ s s' :
  joint X ctx s → revotes bonded notBonded a l (Some x) δ s s' → 0 ≤ x → (∀ v, v ∈ l → (v, a) ∈ X) →
  (∀ p y, shares_of s !! p = Some y → 0 ≤ y) → (∀ v, v ∈ l → is_Some (vals_of s !! v)) → joint X ctx s'.
Proof.
  intros [L [old J]] R Hx HX Hpos Hl. unfold joint, dist. rewrite (rv_same _ _ _ _ _ _ _ _ R) by done.
  split; [done|]. exists old. eapply DI_revote; [exact J|..].
  - intros [b c] Hp. rewrite (rv_shares _ _ _ _ _ _ _ _ R), bool_decide_false; [done|]. intros [-> Hb]. by apply Hp, HX.
  - intros [b c] y. rewrite (rv_shares _ _ _ _ _ _ _ _ R). case_bool_decide; [by intros [= <-]|apply Hpos].
  - intros b. destruct (decide (b ∈ l)) as [Hb|Hb]; [|by rewrite (rv_other _ _ _ _ _ _ _ _ R)].
    split; intros _; [by apply Hl|]. apply (rv_keep _ _ _ _ _ _ _ _ R); [done|by apply Hl].
Qed.

Lemma joint_UpdateShares ctx a d tokens s u s' :
  votes_inv_of s → st_delegators (sg_stakes s) !! a = Some d → joint ∅ ctx s →
  (∀ p y, shares_of s' !! p = Some y → 0 ≤ y) →
  UpdateShares ctx a tokens s = (Ok u, s') → joint ∅ ctx s'.
Proof.
  intros I Hd J Hpos. unfold UpdateShares. intros ([vals last] & s1 & H1 & H2)%M_bind_Ok.
  apply (GetLast_Ok _ _ _ _ _ I Hd) in H1 as [-> E]. injection E as -> ->.
  destruct (fetch_listed _ _ _ _ _ I Hd) as [El Ev]. cbn in El, Ev.
  set (vals := omap _ _) in *. destruct (length vals =? 0)%nat eqn:Hlen; [by apply mret_Ok in H2 as [_ ->]|].
  apply M_bind_Ok in H2 as (u1 & s1 & H1 & H2). rewrite El in H1.
  apply (joint_before ctx a d) in H1 as (J1 & E1 & E2 & E3); [|done..].
  apply M_bind_Ok in H2 as (x & s2 & H1 & H2). apply lift_Ok in H1 as [Hx ->].
  apply M_bind_Ok in H2 as (o & s2 & H1 & H2). apply gets_Ok in H1 as [-> ->]. rewrite E1, Hd in H2.
  apply M_bind_Ok in H2 as (u2 & s2 & H1 & H2).
  apply (revotes_loop bonded notBonded a (Some x) (x - De_Shares d)) in H1;
    [|intros; by eapply (updateShares_step_Ok bonded notBonded)|rewrite El; by eapply vt_nodup|by rewrite E2]. rewrite El in H1.
  apply M_bind_Ok in H2 as (u3 & s3 & H3 & H2). rewrite El in H2. rewrite (vt_key _ _ _ I _ _ Hd) in H2.
  assert (dist s3 = dist s2 ∧ shares_of s3 = shares_of s2 ∧ sg_vals s3 = sg_vals s2 ∧
    st_delegators (sg_stakes s3) !! a = Some (de_set_shares x d)) as (Ed3 & Es3 & Ev3 & Hd3).
  { rewrite SetDelegator_run in H3. injection H3 as _ <-. cbn. rewrite (vt_key _ _ _ I _ _ Hd), lookup_insert_eq. done. }
  assert (∀ v, v ∈ De_ValidatorAddresses d → shares_of s3 !! (v, a) = Some x) as Hv3.
  { intros v Hv. rewrite Es3, (rv_shares _ _ _ _ _ _ _ _ H1), bool_decide_true; done. }
  assert (sg_stakes s' = sg_stakes s3) as Es' by (by apply call_hook_distr in H2 as (_ & ? & _)).
  assert (joint (votes_of a (De_ValidatorAddresses d)) ctx s3) as J3.
  { eapply joint_quiet; [|eapply revotes_joint; [exact J1|exact H1|..]].
    - split; rewrite ?Ed3, ?Es3, ?Ev3; done.
    - destruct vals as [|v0 vals'] eqn:Hvals; [done|]. apply (Hpos (Va_OperatorAddress v0, a)). rewrite Es'. apply Hv3.
      rewrite <- El. by left.
    - intros v Hv. by apply elem_of_votes_of.
    - intros p y Hp. rewrite E1 in Hp. apply Z.lt_le_incl. by eapply votes_nonneg.
    - intros v Hv. rewrite E2. by eapply listed_exists. }
  eapply joint_after in H2 as (J' & _); [done|exact J3|exact Hd3|by eapply vt_nodup|done].
Qed.

(** A validator that is removed had no other votes. *)
Lemma withdraw_loop X ctx a last vals : ∀ s u s',
  joint X ctx s → NoDup (Va_OperatorAddress <$> vals) →
  (∀ v, v ∈ vals → vals_of s !! Va_OperatorAddress v = Some v ∧ (Va_OperatorAddress v, a) ∈ X) →
  (∀ v b x, v ∈ vals → Va_MinSelfDelegation v = 0 → Va_DelegatorShares v = last →
    shares_of s !! (Va_OperatorAddress v, b) = Some x → b = a) →
  (∀ p y, shares_of s !! p = Some y → 0 ≤ y) →
  for_each (withdrawShares ctx a last) vals s = (Ok u, s') → joint X ctx s'.
Proof.
  induction vals as [|v vals IH]; intros s u s' J Hnd Hv Hlone Hpos; cbn [for_each]; [by intros [_ ->]%mret_Ok|].
  intros (u1 & s1 & H1 & H2)%M_bind_Ok. rewrite fmap_cons in Hnd. apply NoDup_cons in Hnd as [Hni Hnd].
  destruct (Hv v) as [Hv0 HX]; [by left|]. set (op := Va_OperatorAddress v) in *.
  assert (∀ w, w ∈ vals → Va_OperatorAddress w ≠ op) as Hother.
  { intros w Hw Ew. apply Hni. rewrite <- Ew. by apply list_elem_of_fmap_2. }
  assert (joint X ctx s1 ∧ shares_of s1 = delete (op, a) (shares_of s) ∧
    ∀ b, b ≠ op → vals_of s1 !! b = vals_of s !! b) as (J1 & Es1 & Ev1).
  { clear H2. unfold withdrawShares in H1. apply M_bind_Ok in H1 as (u2 & s2 & H2 & H1). apply M_bind_Ok in H1 as (u3 & s3 & H3 & H1).
    apply M_bind_Ok in H1 as (x & s4 & H4 & H1). apply lift_Ok in H4 as [->%checkDec_value ->]. fold op in H2.
    assert (dist s3 = dist s ∧ shares_of s3 = delete (op, a) (shares_of s) ∧ vals_of s3 = vals_of s) as (Ed & Es & Ev)
      by (clear H1; st_inv; done). clear H2 H3.
    assert (joint X ctx s3) as J3.
    { destruct J as [L [old J]]. unfold joint. rewrite Ed, Es, Ev. split; [done|]. exists old. eapply DI_revote; [exact J|..]; try done.
      - intros p Hp. rewrite lookup_delete_ne; [done|]. intros <-. done.
      - intros p y [_ Hy]%lookup_delete_Some. by eapply Hpos. }
    destruct (_ && _) eqn:Hrem in H1.
    - change (Va_OperatorAddress (va_set_shares _ v)) with op in H1.
      apply (joint_remove X ctx v) in H1 as (J1 & Es1 & Ev1); [|done|by rewrite Ev|].
      + split; [done|]. rewrite Es1, Ev1, Es, Ev. split; [done|]. intros b Hb. by rewrite lookup_delete_ne.
      + intros [w b] y. rewrite Es. intros [Hne Hy]%lookup_delete_Some Ew. cbn in Ew. subst w. exfalso. apply Hne. f_equal. symmetry.
        unfold Dec_IsZero in Hrem. cbn in Hrem. bool_prop. eapply (Hlone v); [by left|lia|lia|exact Hy].
    - assert (dist s1 = dist s3 ∧ shares_of s1 = shares_of s3 ∧ vals_of s1 = <[op := va_set_shares (Va_DelegatorShares v - last) v]> (vals_of s3))
        as (Ed1 & Es1 & Ev1) by (unfold SetValidatorByPowerIndex in H1; clear Hrem; st_inv; done).
      split; [|rewrite Es1, Ev1, Es, Ev; split; [done|]; intros b Hb; by rewrite lookup_insert_ne].
      eapply joint_quiet; [|exact J3]. split; rewrite ?Ed1, ?Es1, ?Ev1; try done. intros b. eapply insert_dom. rewrite Ev. exact Hv0. }
  eapply IH; [exact J1|done|..|exact H2].
  - intros w Hw. rewrite Ev1 by (by apply Hother). apply Hv. by right.
  - intros w b x Hw Hm Hs. rewrite Es1. intros [_ Hx]%lookup_delete_Some. eapply (Hlone w); [by right|done..].
  - intros p y. rewrite Es1. intros [_ Hy]%lookup_delete_Some. by eapply Hpos.
Qed.

Lemma lone_vote D S vs a d v b x :
  votes_inv D S vs → D !! a = Some d → v ∈ De_ValidatorAddresses d →
  ∀ val, vs_validators vs !! v = Some val → Va_MinSelfDelegation val = 0 → Va_DelegatorShares val = De_Shares d →
  S !! (v, b) = Some x → b = a.
Proof.
  intros I Hd Hv val Hval Hm Hs (e & He & Hin & ->)%(vt_shares _ _ _ I). destruct (decide (b = a)) as [|Hne]; [done|exfalso].
  destruct (ii_val _ _ _ _ (proj1 (vt_vals _ _ _ I)) _ _ Hval) as [V1 V2 V3 V4 V5 V6].
  unfold msd_base in V1. rewrite Hm in V1. cbn in V1.
  rewrite <- (insert_delete_id D a d) in V1 by done. rewrite map_sum_fresh in V1 by apply lookup_delete_eq.
  assert (shares_to v d = De_Shares d) as E1 by (unfold shares_to; by rewrite bool_decide_true).
  assert (shares_to v e ≤ map_sum (shares_to v) (delete a D)) as E2.
  { apply (map_sum_ge _ _ b); [|by rewrite lookup_delete_ne]. intros c y [_ Hy]%lookup_delete_Some. by eapply shares_to_nonneg. }
  assert (0 < shares_to v e); [|lia]. unfold shares_to. rewrite bool_decide_true by done. apply (vt_pos _ _ _ I b e He).
  intros E0. rewrite E0 in Hin. by apply not_elem_of_nil in Hin.
Qed.

Lemma joint_WithdrawLastShares ctx a d s u s' :
  votes_inv_of s → st_delegators (sg_stakes s) !! a = Some d → joint ∅ ctx s →
  WithdrawLastShares ctx a (omap (λ v, vals_of s !! v) (De_ValidatorAddresses d)) (De_Shares d) s = (Ok u, s') →
  joint ∅ ctx s'.
Proof.
  intros I Hd J E. pose proof E as (_ & [_ _ _ I' _] & _)%(WithdrawLastShares_Ok bonded notBonded); [|done..]. cbn in I'.
  destruct (fetch_listed _ _ _ _ _ I Hd) as [El Ev]. cbn in El, Ev. unfold WithdrawLastShares in E.
  set (vals := omap _ _) in *. apply M_bind_Ok in E as (u1 & s1 & H1 & H2). rewrite El in H1.
  assert (joint (votes_of a (De_ValidatorAddresses d)) ctx s1 ∧ sg_stakes s1 = sg_stakes s ∧ sg_vals s1 = sg_vals s) as (J1 & E1 & E2).
  { destruct vals as [|v0 vals'] eqn:Hvals; cbn [length Nat.ltb Nat.leb] in H1.
    - apply mret_Ok in H1 as [_ ->]. rewrite <- El. done.
    - apply (joint_before ctx a d) in H1 as (J1 & E1 & E2 & _); done. }
  apply (withdraw_loop (votes_of a (De_ValidatorAddresses d))) in H2.
  - destruct H2 as [L [old J2]]. split; [done|]. exists old. eapply DI_reopen; [exact J2| |set_solver].
    intros [v b] x Hx. split; [|set_solver]. intros [Eb _]%elem_of_votes_of. cbn in Eb. subst b.
    apply (vt_shares _ _ _ I') in Hx as (d' & Hd' & Hin & _). rewrite lookup_insert_eq in Hd'. injection Hd' as <-. cbn in Hin. set_solver.
  - done.
  - rewrite El. exact (vt_nodup _ _ _ I _ _ Hd).
  - intros v Hv. rewrite E2. split; [by apply Ev|]. apply elem_of_votes_of. cbn. split; [done|]. rewrite <- El. by apply list_elem_of_fmap_2.
  - intros v b x Hv Hm Hs. rewrite E1. assert (Va_OperatorAddress v ∈ De_ValidatorAddresses d) as Hin by (rewrite <- El; by apply list_elem_of_fmap_2).
    exact (lone_vote _ _ _ a d _ b x I Hd Hin v (Ev v Hv) Hm Hs).
  - intros p y. rewrite E1. intros Hy. exact (Z.lt_le_incl _ _ (votes_nonneg _ _ _ _ _ I Hy)).
Qed.
End Joint.
