(* ===== verification/DistrMsgs.v ===== *)
(** * Distribution: the messages of the staking module

    Every message of the staking module keeps the records of rewards in step
    with the votes: what it changes is announced before and after. *)
From S2P Require Import Prelude Decimal Denom Coins Bank CoinKeeper DecStr Token Staking StakingVals StakingVotes StakingProps StakingMsgs StakingRun Slashing SlashingProps Distribution DistrProps DistrKeeper DistrInv DistrHooks DistrLaws DistrStaking.
#[local] Open Scope Z_scope.

Section Msgs.
Context {C : Type} `{CoinKeeper C} `{!CoinKeeperLaws C} `{!DelegationKeeper C} `{!DelegationKeeperLaws C}.
Context `{cfgS : StakingConfig} `{DistrConfig} `{bansS : !Bans} `{engS : !Engine}.
Context (bonded notBonded distr : string) `{!StakingLaws (Distributed C) bonded notBonded} (Hw : weights_ok).
Hypothesis Hmod : ck_modaddr (S := C) DistrModuleName = Some distr.
Hypothesis Hblack : ck_Blacklisted (S := C) distr = true.
Hypothesis Hdb : distr ≠ bonded.
Hypothesis Hdn : distr ≠ notBonded.
#[local] Abbreviation K := (Slashed (Distributed C)).
Implicit Types (s : StakingState K).
#[local] Abbreviation SI := (staking_inv bonded notBonded).
#[local] Abbreviation joint := (joint distr).
#[local] Abbreviation quiet := (quiet distr).
#[local] Abbreviation vals_of s := (vs_validators (sg_vals s)).
#[local] Abbreviation dels_of s := (st_delegators (sg_stakes s)).
#[local] Abbreviation shares_of s := (st_shares (sg_stakes s)).

(** Votes and rewards as they are between two changes of votes. *)
Definition settled ctx s : Prop := votes_inv_of s ∧ joint ∅ ctx s.

(** ** Steps that do not change votes *)

(** The module and its records of rewards are left alone. *)
Record calm s s' : Prop := {
  cm_distr : di_distr (dist s') = di_distr (dist s);
  cm_wf : ck_wf (di_base (dist s)) → ck_wf (di_base (dist s'));
  cm_balance d : ck_balance (di_base (dist s')) distr d = ck_balance (di_base (dist s)) distr d;
  cm_shares : shares_of s' = shares_of s;
  cm_vals : sg_vals s' = sg_vals s }.
#[global] Instance calm_preorder : PreOrder calm.
Proof. split; [by intros s|]. intros s1 s2 s3 [A1 B1 C1 D1 E1] [A2 B2 C2 D2 E2]. split; try congruence. tauto. Qed.
Lemma calm_quiet s s' : calm s s' → quiet s s'.
Proof. intros [A B Cb D E]. split; try done. intros v. by rewrite E. Qed.

Lemma settled_calm ctx s s' :
  calm s s' → votes_inv (dels_of s') (shares_of s) (sg_vals s) → settled ctx s → settled ctx s'.
Proof.
  intros Q V [_ J]. split; [|by eapply joint_quiet; [apply calm_quiet|]]. unfold votes_inv_of.
  by rewrite (cm_shares _ _ Q), (cm_vals _ _ Q).
Qed.
Lemma settled_still ctx s s' : calm s s' → dels_of s' = dels_of s → settled ctx s → settled ctx s'.
Proof. intros Q E S. eapply settled_calm; [done| |done]. rewrite E. apply S. Qed.

Lemma calm_put d s : calm s (put_delegator d s).
Proof. done. Qed.
Lemma settled_put ctx a d d' s :
  settled ctx s → dels_of s !! a = Some d → De_DelegatorAddress d' = a →
  De_ValidatorAddresses d' = De_ValidatorAddresses d → De_Shares d' = De_Shares d → settled ctx (put_delegator d' s).
Proof.
  intros S Hd Ha Hl Hx. eapply settled_calm; [apply calm_put| |done]. cbn. rewrite Ha. eapply votes_inv_update; [apply S|done..].
Qed.

(** Coins that move between other accounts. *)
Lemma calm_move s k' a b amt :
  kmove (sg_k s) k' a b amt → di_distr (sd_base k') = di_distr (dist s) → a ≠ distr → b ≠ distr → calm s (sg_set_k k' s).
Proof.
  intros M E Ha Hb. split; [done|exact (km_wf _ _ _ _ _ M)| |done|done]. intros d.
  pose proof (km_balance _ _ _ _ _ M distr d) as Hd. unfold at_addr in Hd. rewrite !decide_False in Hd by congruence.
  rewrite Z.add_0_r, Z.sub_0_r in Hd. exact Hd.
Qed.
Lemma outsider_distr a : outsider (K := K) bonded notBonded a → a ≠ distr.
Proof. intros (_ & _ & _ & Hb) ->. cbn in Hb. congruence. Qed.
Lemma zoomed_distr {A} (m : M C A) (k : K) a k' :
  on_base (on_coins m) k = (Ok a, k') → di_distr (sd_base k') = di_distr (sd_base k).
Proof. intros (c & (c' & _ & ->)%on_base_coins_Ok & ->)%on_base_Ok. done. Qed.

Lemma calm_delegate a token s u s' :
  outsider (K := K) bonded notBonded a → ck_wf (sg_k s) →
  on_keeper (ck_DelegateCoinsFromAccountToModule a BondedPoolName [token]) s = (Ok u, s') → calm s s'.
Proof.
  intros Ho Hk (k' & E & ->)%zoom_Ok. pose proof E as (addr & Ha & M)%law_Delegate; [|done].
  rewrite sl_bonded in Ha. injection Ha as <-. eapply calm_move; [exact M|exact (zoomed_distr _ _ _ _ E)|by apply outsider_distr|done].
Qed.
Lemma calm_bondedToNot token s u s' : bondedTokensToNotBonded token s = (Ok u, s') → calm s s' ∧ sg_stakes s' = sg_stakes s.
Proof.
  unfold bondedTokensToNotBonded. intros (c & s1 & H1 & H2)%M_bind_Ok. apply lift_Ok in H1 as [_ ->]. apply orPanic_Ok in H2.
  apply zoom_Ok in H2 as (k' & E & ->). pose proof E as (x & y & Hx & Hy & M)%law_ModuleToModule.
  rewrite sl_bonded in Hx. rewrite sl_notBonded in Hy. injection Hx as <-. injection Hy as <-.
  split; [|done]. eapply calm_move; [exact M|exact (zoomed_distr _ _ _ _ E)|done|done].
Qed.

(** ** Steps that change votes *)

Lemma settled_UpdateShares ctx a d tokens s u s' :
  settled ctx s → dels_of s !! a = Some d → 0 < tokens → UpdateShares ctx a tokens s = (Ok u, s') → settled ctx s'.
Proof.
  intros [V J] Hd Ht E. destruct (UpdateShares_Ok bonded notBonded _ _ _ _ _ _ _ Hw V Hd Ht E) as [x [_ _ Es Ev _]].
  assert (votes_inv_of s') as V' by (unfold votes_inv_of; by rewrite Es at 1).
  split; [done|]. eapply (joint_UpdateShares bonded notBonded distr Hmod Hblack); [exact V|exact Hd|exact J| |exact E].
  intros p y Hp. exact (Z.lt_le_incl _ _ (votes_nonneg _ _ _ _ _ V' Hp)).
Qed.

Lemma settled_UpdateProxy ctx d P t s u s' :
  settled ctx s → De_ProxyAddress d ≠ "" → dels_of s !! De_ProxyAddress d = Some P →
  0 < De_Tokens P → UpdateProxy ctx d t s = (Ok u, s') → settled ctx s'.
Proof.
  intros S Hp HP Ht E. destruct (UpdateProxy_split _ _ _ _ _ _ _ Hp HP E) as [Hnn E1].
  pose proof (vt_key _ _ _ (proj1 S) _ _ HP) as KP.
  eapply settled_UpdateShares; [..|exact E1]; [|cbn; by rewrite lookup_insert_eq|lia].
  by eapply (settled_put _ _ P).
Qed.

(** ** Deposits and withdrawals *)

Lemma final_pos d y : 0 < De_Tokens d → 0 ≤ De_TotalDelegatedTokens d → finalTokensOf d = Ok y → 0 < y.
Proof. intros Ht Hn. unfold finalTokensOf. destruct (De_IsProxy d); [intros ->%checkDec_value; lia|by intros [= <-]]. Qed.

Lemma settled_Delegate lost ctx a token s u s' :
  SI lost s → settled ctx s → outsider (K := K) bonded notBonded a → Delegate ctx a token s = (Ok u, s') → settled ctx s'.
Proof.
  intros I S Ho. unfold Delegate. intros (m & s1 & H1 & H2)%M_bind_Ok. apply gets_Ok in H1 as [-> ->].
  apply M_bind_Ok in H2 as (u1 & s1 & H1 & H2). apply guard_not_Ok in H1 as [Hlt ->].
  apply M_bind_Ok in H2 as (u2 & s1 & H1 & H2).
  assert (sg_stakes s1 = sg_stakes s) as E1 by (by apply zoom_Ok in H1 as (k' & _ & ->)).
  apply calm_delegate in H1; [|done|exact (mo_wf _ _ _ _ _ _ _ (sv_money _ _ _ _ I))].
  apply (settled_still ctx) in H1; [|by rewrite E1|done].
  apply M_bind_Ok in H2 as (o & s2 & H3 & H2). apply gets_Ok in H3 as [-> ->]. rewrite E1 in H2.
  set (d := default (NewDelegator a) (dels_of s !! a)) in *.
  apply M_bind_Ok in H2 as (x & s2 & H3 & H2). apply lift_Ok in H3 as [->%checkDec_value ->].
  apply M_bind_Ok in H2 as (u3 & s2 & H3 & H2). rewrite SetDelegator_run in H3. injection H3 as _ <-.
  set (d1 := de_set_tokens (De_Tokens d + Amount token) d) in *.
  assert (0 < Amount token) as Hq by (pose proof (pa_min _ (sv_params _ _ _ _ I)); unfold Dec_LT in Hlt; lia).
  assert (settled ctx (put_delegator d1 s1) ∧ 0 < De_Tokens d1 ∧ De_DelegatorAddress d = a ∧ 0 ≤ De_TotalDelegatedTokens d) as (S2 & Ht & Ka & Hn).
  { destruct (dels_of s !! a) as [d0|] eqn:Hd; cbn [default from_option id] in d; subst d.
    - pose proof (vt_key _ _ _ (proj1 S) _ _ Hd) as Ka. pose proof (pr_tokens _ _ (sv_proxy _ _ _ _ I) _ _ Hd).
      pose proof (pr_total_nonneg _ _ (sv_proxy _ _ _ _ I) _ _ Hd).
      split; [|split; [cbn; lia|done]]. eapply (settled_put ctx a d0); try done. by rewrite E1.
    - split; [|split; [cbn; unfold ZeroDec; lia|done]]. eapply settled_calm; [apply calm_put| |done]. cbn. rewrite E1.
      destruct H1 as [V _]. unfold votes_inv_of in V. rewrite E1 in V. by apply votes_inv_add. }
  destruct (HasProxy d1) eqn:Hp.
  - apply HasProxy_spec in Hp. destruct (dels_of s !! a) as [d0|] eqn:Hd; cbn [default from_option id] in d; subst d; [|done].
    destruct (pr_proxy _ _ (sv_proxy _ _ _ _ I) _ _ Hd Hp) as (Hi & _ & P & HP & HiP).
    assert (a ≠ De_ProxyAddress d0) as Hne by (intros E; rewrite <- E in HP; congruence).
    eapply (settled_UpdateProxy ctx d1 P); [done|done| |by eapply (pr_tokens _ _ (sv_proxy _ _ _ _ I))|exact H2].
    cbn. rewrite E1, Ka, lookup_insert_ne by done. exact HP.
  - apply M_bind_Ok in H2 as (y & s2 & H3 & H2). apply lift_Ok in H3 as [Hy ->].
    eapply settled_UpdateShares; [done| | |exact H2]; [cbn; by rewrite lookup_insert_eq|].
    by eapply final_pos.
Qed.

(** The votes of a delegator are taken back. *)
Lemma settled_withdraw_votes ctx a d s r s1 u s' :
  settled ctx s → dels_of s !! a = Some d → GetLastValsAddedSharesExisted a s = (Ok r, s1) →
  WithdrawLastShares ctx a r.1 r.2 s1 = (Ok u, s') →
  joint ∅ ctx s' ∧ dels_of s' = dels_of s ∧
  votes_inv (<[a := set_votes [] 0 d]> (dels_of s)) (shares_of s') (sg_vals s') ∧ sg_params s' = sg_params s.
Proof.
  intros [V J] Hd E1 E2. apply (GetLast_Ok _ _ _ _ _ V Hd) in E1 as [-> ->]. cbn [fst snd] in E2.
  pose proof E2 as (ED & [_ Ep _ Ev _] & _)%(WithdrawLastShares_Ok bonded notBonded); [|done..].
  split; [|done]. by eapply (joint_WithdrawLastShares bonded notBonded distr Hmod Hblack).
Qed.

Lemma calm_queue ctx a q s t s' :
  queue_withdrawal ctx a q s = (Ok t, s') → calm s s' ∧ dels_of s' = dels_of s.
Proof.
  unfold queue_withdrawal. intros (p & s1 & H1 & H2)%M_bind_Ok. apply gets_Ok in H1 as [-> ->].
  apply M_bind_Ok in H2 as (o & s1 & H1 & H2). apply gets_Ok in H1 as [-> ->].
  destruct (st_undelegations (sg_stakes s) !! a); st_inv; done.
Qed.

Lemma settled_Withdraw lost ctx a token s t s' :
  SI lost s → settled ctx s → Denom token = DefaultBondDenom → Withdraw ctx a token s = (Ok t, s') → settled ctx s'.
Proof.
  intros I S Hden. unfold Withdraw. intros (o & s1 & H1 & H2)%M_bind_Ok. apply gets_Ok in H1 as [-> ->].
  destruct (dels_of s !! a) as [d|] eqn:Hd; [|by apply fail_Ok in H2].
  apply M_bind_Ok in H2 as (m & s1 & H1 & H2). apply gets_Ok in H1 as [-> ->].
  apply M_bind_Ok in H2 as (u1 & s1 & H1 & H2). apply guard_not_Ok in H1 as [_ ->].
  apply M_bind_Ok in H2 as (u2 & s1 & H1 & H2). apply guard_not_Ok in H1 as [Hle ->].
  apply M_bind_Ok in H2 as (left & s1 & H1 & H2). apply lift_Ok in H1 as [->%checkDec_value ->].
  apply M_bind_Ok in H2 as (u3 & s1 & H1 & H2). apply guard_not_Ok in H1 as [_ ->].
  apply M_bind_Ok in H2 as (u4 & s1 & H1 & H2).
  pose proof H1 as (k1 & E1 & _)%(bondedToNot_Ok bonded notBonded); [|done|exact (mo_wf _ _ _ _ _ _ _ (sv_money _ _ _ _ I))].
  apply calm_bondedToNot in H1 as [Q1 _]. apply (settled_still ctx) in Q1; [|by subst s1|done]. subst s1. rename Q1 into S1.
  apply M_bind_Ok in H2 as (u5 & s2 & H1 & H2). apply M_bind_Ok in H2 as (u6 & s3 & H3 & H2).
  apply calm_queue in H2 as [Q E]. eapply settled_still; [exact Q|exact E|]. clear Q E s' t.
  pose proof (vt_key _ _ _ (proj1 S) _ _ Hd) as Ka. pose proof (pr_tokens _ _ (sv_proxy _ _ _ _ I) _ _ Hd) as Ht.
  pose proof (pr_total_nonneg _ _ (sv_proxy _ _ _ _ I) _ _ Hd) as Hn.
  assert (settled ctx s2 ∧ dels_of s2 !! a = Some d) as [S2 Hd2].
  { destruct (HasProxy d) eqn:Hp; [|by apply mret_Ok in H1 as [_ ->]]. apply HasProxy_spec in Hp.
    apply M_bind_Ok in H1 as (x & s4 & H1 & H2). apply lift_Ok in H1 as [Hx ->].
    apply M_bind_Ok in H2 as (y & s4 & H1 & H2). apply lift_Ok in H1 as [Hy ->].
    rewrite (mul_minus_one _ _ _ Hx Hy) in H2.
    destruct (pr_proxy _ _ (sv_proxy _ _ _ _ I) _ _ Hd Hp) as (Hi & _ & P & HP & HiP).
    assert (a ≠ De_ProxyAddress d) as Hne by (intros E; rewrite <- E in HP; congruence).
    destruct (UpdateProxy_minus bonded notBonded Hw _ _ _ _ _ _ _ _ _ _ I Hd Hp HP H2) as (P2 & _ & _ & Es & _).
    split; [|rewrite Es; cbn; by rewrite lookup_insert_ne].
    eapply (settled_UpdateProxy ctx d P); [exact S1|done|done|by eapply (pr_tokens _ _ (sv_proxy _ _ _ _ I))|exact H2]. }
  destruct (Dec_IsZero _) eqn:Hz.
  - apply M_bind_Ok in H3 as ([vals last] & s4 & H4 & H3). apply M_bind_Ok in H3 as (u7 & s5 & H5 & H3).
    destruct (settled_withdraw_votes ctx a d s2 (vals, last) s4 u7 s5) as (J5 & E5 & V5 & _); [done..|].
    assert (calm s5 s3 ∧ dels_of s3 = delete a (dels_of s5)) as [Q3 E3] by (destruct (HasProxy d); st_inv; done).
    split; [|by eapply joint_quiet; [apply calm_quiet|]]. unfold votes_inv_of.
    rewrite E3, (cm_shares _ _ Q3), (cm_vals _ _ Q3), E5, <- (delete_insert_eq _ a (set_votes [] 0 d)).
    eapply votes_inv_del; [exact V5|apply lookup_insert_eq|done].
  - apply M_bind_Ok in H3 as (u7 & s4 & H4 & H3). rewrite SetDelegator_run in H4. injection H4 as _ <-.
    set (d1 := de_set_tokens _ d) in *.
    assert (settled ctx (put_delegator d1 s2)) as S4 by (by eapply (settled_put ctx a d)).
    change (HasProxy d1) with (HasProxy d) in H3. destruct (HasProxy d) eqn:Hp; [by apply mret_Ok in H3 as [_ ->]|].
    apply M_bind_Ok in H3 as (y & s4 & H4 & H3). apply lift_Ok in H4 as [Hy ->].
    eapply settled_UpdateShares; [exact S4|cbn; by rewrite lookup_insert_eq| |exact H3].
    assert (0 < De_Tokens d1) as Hd1 by (cbn; unfold Dec_IsZero, Dec_LT in *; lia).
    by eapply final_pos.
Qed.

(** ** Proxies *)

Lemma settled_unbindProxy lost ctx a s u s' :
  SI lost s → settled ctx s → unbindProxy ctx a s = (Ok u, s') → settled ctx s'.
Proof.
  intros I S. unfold unbindProxy. intros (o & s1 & H1 & H2)%M_bind_Ok. apply gets_Ok in H1 as [-> ->].
  destruct (dels_of s !! a) as [d|] eqn:Hd; [|by apply fail_Ok in H2].
  apply M_bind_Ok in H2 as (o & s1 & H1 & H2). apply gets_Ok in H1 as [-> ->].
  destruct (dels_of s !! De_ProxyAddress d) as [P|] eqn:HP; [|by apply fail_Ok in H2].
  pose proof (pr_addr _ _ (sv_proxy _ _ _ _ I) _ _ HP) as Hp.
  apply M_bind_Ok in H2 as (x & s1 & H1 & H2). apply lift_Ok in H1 as [Hx ->].
  apply M_bind_Ok in H2 as (y & s1 & H1 & H2). apply lift_Ok in H1 as [Hy ->]. rewrite (mul_minus_one _ _ _ Hx Hy) in H2.
  apply M_bind_Ok in H2 as (u1 & s1 & H1 & H2). apply replaceErr_Ok in H1.
  destruct (pr_proxy _ _ (sv_proxy _ _ _ _ I) _ _ Hd Hp) as (Hi & _ & P' & HP' & HiP).
  assert (a ≠ De_ProxyAddress d) as Hne by (intros E; rewrite <- E in HP'; congruence).
  pose proof (vt_key _ _ _ (proj1 S) _ _ Hd) as Ka.
  assert (dels_of s1 !! a = Some d) as Hd1.
  { replace s with (sg_set_k (sg_k s) s) in H1 by (by destruct s).
    destruct (UpdateProxy_minus bonded notBonded Hw _ _ _ _ _ _ _ _ _ _ I Hd Hp HP H1) as (P2 & _ & _ & Es & _).
    rewrite Es. cbn. by rewrite lookup_insert_ne. }
  eapply (settled_UpdateProxy ctx d P) in H1; [|done|done|done|by eapply (pr_tokens _ _ (sv_proxy _ _ _ _ I))].
  apply M_bind_Ok in H2 as (u2 & s2 & H3 & H2). rewrite SetDelegator_run in H3. injection H3 as _ <-.
  eapply (settled_put ctx a d (UnbindProxy d)) in H1; [|done..].
  eapply settled_still; [| |exact H1]; clear Ka Hd1; st_inv; done.
Qed.

Lemma settled_BindProxy lost ctx a p s u s' :
  SI lost s → settled ctx s → handleMsgBindProxy ctx a p s = (Ok u, s') → settled ctx s'.
Proof.
  intros I S. unfold handleMsgBindProxy. intros (o & s1 & H1 & H2)%M_bind_Ok. apply gets_Ok in H1 as [-> ->].
  destruct (dels_of s !! a) as [d|] eqn:Hd; [|by apply fail_Ok in H2].
  apply M_bind_Ok in H2 as (u1 & s1 & H1 & H2). apply guard_not_Ok in H1 as [_ ->].
  apply M_bind_Ok in H2 as (u2 & s1 & H1 & H2). apply guard_not_Ok in H1 as [_ ->].
  apply M_bind_Ok in H2 as (o & s1 & H1 & H2). apply gets_Ok in H1 as [-> ->].
  destruct (dels_of s !! p) as [P|] eqn:HP; [|by apply fail_Ok in H2].
  apply M_bind_Ok in H2 as (u3 & s1 & H1 & H2). apply guard_not_Ok in H1 as [_ ->].
  apply M_bind_Ok in H2 as (u4 & s1 & H1 & H2). apply guard_not_Ok in H1 as [HiP ->]. bool_prop.
  apply M_bind_Ok in H2 as (u5 & s1 & H1 & H2). apply guard_not_Ok in H1 as [Hi ->].
  pose proof (vt_key _ _ _ (proj1 S) _ _ Hd) as Ka. pose proof (vt_key _ _ _ (proj1 S) _ _ HP) as KP.
  pose proof (pr_tokens _ _ (sv_proxy _ _ _ _ I) _ _ HP) as HtP. pose proof (pr_tokens _ _ (sv_proxy _ _ _ _ I) _ _ Hd) as Ht.
  pose proof (pr_total_nonneg _ _ (sv_proxy _ _ _ _ I) _ _ HP) as Hn.
  destruct (HasProxy d && _) eqn:Esame.
  { apply M_bind_Ok in H2 as (x & s1 & H1 & H2). apply lift_Ok in H1 as [->%checkDec_value ->]. apply replaceErr_Ok in H2.
    rewrite KP in H2. eapply settled_UpdateShares; [exact S|exact HP| |exact H2]. lia. }
  apply M_bind_Ok in H2 as (u6 & s1 & H1 & H2).
  assert (a ≠ p) as Hne by (intros ->; congruence).
  assert (settled ctx s1 ∧ dels_of s1 !! a = Some (UnbindProxy d) ∧ dels_of s1 !! p = Some P) as (S1 & Hd1 & HP1).
  { destruct (String.length (De_ProxyAddress d) =? 0)%nat eqn:Hlen; cbn [negb] in H1.
    - apply mret_Ok in H1 as [_ ->]. split; [done|]. split; [|done]. rewrite Hd. f_equal.
      destruct d as [? ? ? ? ? ? [|]]; [done|]. cbn in Hlen. done.
    - rewrite Ka in H1. split; [by eapply settled_unbindProxy|].
      apply (inv_unbindProxy bonded notBonded Hw _ _ _ _ _ _ I) in H1 as (_ & d0 & Hd0 & Hp0 & Hd1 & Hb).
      rewrite Hd in Hd0. injection Hd0 as <-. split; [done|].
      rewrite Hb; [done|congruence|]. intros ->. rewrite (proj2 (HasProxy_spec d) Hp0) in Esame. cbn in Esame.
      apply String.eqb_neq in Esame. congruence. }
  apply M_bind_Ok in H2 as (x & s2 & H3 & H2). apply lift_Ok in H3 as [->%checkDec_value ->].
  apply M_bind_Ok in H2 as (u7 & s2 & H3 & H2). rewrite SetDelegator_run in H3. injection H3 as _ <-.
  apply M_bind_Ok in H2 as (u8 & s2 & H3 & H2). rewrite SetDelegator_run in H3. injection H3 as _ <-.
  apply M_bind_Ok in H2 as (u9 & s2 & H3 & H2).
  apply M_bind_Ok in H2 as (x & s3 & H4 & H2). apply lift_Ok in H4 as [->%checkDec_value ->]. apply replaceErr_Ok in H2.
  set (d1 := BindProxy p d) in *. set (P1 := de_set_total _ P) in *.
  assert (settled ctx (put_delegator P1 (put_delegator d1 s1))) as S2.
  { eapply (settled_put ctx p P); [eapply (settled_put ctx a (UnbindProxy d)); done| |done..].
    cbn. by rewrite Ka, lookup_insert_ne. }
  assert (calm (put_delegator P1 (put_delegator d1 s1)) s2 ∧ dels_of s2 = <[p := P1]> (<[a := d1]> (dels_of s1))) as [Q E2].
  { unfold SetProxyBinding, on_stakes in H3. apply zoom_Ok in H3 as (t & H3 & ->). apply modify_Ok in H3 as ->. cbn.
    rewrite Ka, KP. done. }
  eapply settled_UpdateShares; [|..|exact H2].
  - eapply settled_still; [exact Q| |exact S2]. rewrite E2. cbn. by rewrite Ka, KP.
  - change (De_DelegatorAddress P1) with (De_DelegatorAddress P). rewrite KP, E2. apply lookup_insert_eq.
  - cbn. lia.
Qed.

Lemma settled_regProxy lost ctx a s u s' : SI lost s → settled ctx s → regProxy ctx a s = (Ok u, s') → settled ctx s'.
Proof.
  intros I S. unfold regProxy. intros (o & s1 & H1 & H2)%M_bind_Ok. apply gets_Ok in H1 as [-> ->].
  destruct (dels_of s !! a) as [d|] eqn:Hd; [|by apply fail_Ok in H2].
  apply M_bind_Ok in H2 as (u1 & s1 & H1 & H2). apply guard_not_Ok in H1 as [_ ->].
  apply M_bind_Ok in H2 as (u2 & s1 & H1 & H2). apply guard_not_Ok in H1 as [_ ->].
  apply M_bind_Ok in H2 as (u3 & s1 & H1 & H2). rewrite SetDelegator_run in H1. injection H1 as _ <-. apply replaceErr_Ok in H2.
  pose proof (vt_key _ _ _ (proj1 S) _ _ Hd) as Ka.
  eapply settled_UpdateShares; [..|exact H2]; [by eapply (settled_put ctx a d)|apply lookup_insert_eq|].
  exact (pr_tokens _ _ (sv_proxy _ _ _ _ I) _ _ Hd).
Qed.

Lemma settled_unregProxy lost ctx a s u s' : SI lost s → settled ctx s → unregProxy ctx a s = (Ok u, s') → settled ctx s'.
Proof.
  intros I S. unfold unregProxy. intros (o & s1 & H1 & H2)%M_bind_Ok. apply gets_Ok in H1 as [-> ->].
  destruct (dels_of s !! a) as [d|] eqn:Hd; [|by apply fail_Ok in H2].
  apply M_bind_Ok in H2 as (u1 & s1 & H1 & H2). apply guard_not_Ok in H1 as [_ ->].
  apply M_bind_Ok in H2 as (u2 & s1 & H1 & H2). pose proof (vt_key _ _ _ (proj1 S) _ _ Hd) as Ka.
  set (d1 := de_set_total ZeroDec (RegProxy false d)) in *.
  unfold ClearProxy in H1. apply M_bind_Ok in H1 as (l & s2 & H1 & H3). apply gets_Ok in H1 as [-> ->].
  apply (clear_loop bonded notBonded Hw) in H3 as (E1 & E2 & _ & E4 & _ & _ & E7 & _); [|exact (vt_key _ _ _ (proj1 S))].
  change (De_DelegatorAddress d1) with (De_DelegatorAddress d) in E7, H2. rewrite Ka in E7, H2.
  pose proof (cleared_all _ _ _ _ _ _ _ I Hd E7) as ED.
  assert (settled ctx s1) as S1.
  { eapply settled_calm; [|rewrite ED; apply votes_inv_freed, S|done]. split; unfold dist; rewrite ?E1; done. }
  apply M_bind_Ok in H2 as (u3 & s2 & H3 & H2). rewrite SetDelegator_run in H3. injection H3 as _ <-. apply replaceErr_Ok in H2.
  assert (De_DelegatorAddress d1 = a) as Kd1 by exact Ka.
  eapply settled_UpdateShares; [..|exact H2].
  - eapply (settled_put ctx a (free_from a d)); [done|by rewrite ED, lookup_fmap, Hd|done|..]; unfold free_from; by case_bool_decide.
  - rewrite <- Kd1. apply lookup_insert_eq.
  - exact (pr_tokens _ _ (sv_proxy _ _ _ _ I) _ _ Hd).
Qed.

(** ** New votes *)

(** Votes of [a], who has none, are announced. *)
Lemma joint_created ctx a d D l s u s' :
  votes_inv D (shares_of s) (sg_vals s) → D !! a = Some d → De_ValidatorAddresses d = [] → joint ∅ ctx s →
  call_hook ctx (BeforeDelegationCreated a l) s = (Ok u, s') →
  joint (votes_of a l) ctx s' ∧ sg_stakes s' = sg_stakes s ∧ sg_vals s' = sg_vals s ∧ sg_params s' = sg_params s.
Proof.
  intros V Hd Hnil [L [old J]] (E & E1 & E2 & E3)%call_hook_distr. split; [|done]. unfold DistrStaking.joint. rewrite E1, E2.
  cbn [distr_hook] in E. apply M_bind_Ok in E as (b & k1 & E0 & E). apply gets_Ok in E0 as [-> ->].
  rewrite (live_valid _ _ L) in E. destruct (CheckInitExistedValidatorFlag (di_distr (dist s))) eqn:Hf; cbn [negb] in E.
  - pose proof (votes_vals_ok _ _ _ V) as HV.
    apply (before_created_on distr ∅ old (shares_of s) (vals_of s)) in E as (J' & D' & _ & P'); try done.
    + split; [by eapply live_steady|]. exists old. eapply DI_reopen; [exact J'| |].
      * intros [v b] x Hx. split; [set_solver|]. intros [Eb _]%elem_of_votes_of. cbn in Eb. subst b.
        apply (vt_shares _ _ _ V) in Hx as (d' & Hd' & Hin & _). rewrite Hd in Hd'. injection Hd' as <-.
        rewrite Hnil in Hin. by apply not_elem_of_nil in Hin.
      * intros _ [v b] [_ Hv]%elem_of_votes_of. by apply P'.
    + by rewrite live_valid.
    + intros v val Hval. split; [by eapply va_key|]. split; [by eapply va_shares|]. by eapply votes_shares_le.
  - apply mret_Ok in E as [_ E]. rewrite E. split; [done|]. exists old. by eapply DI_off.
Qed.

Lemma joint_AddShares lost ctx a l s u s' :
  SI lost s → settled ctx s → NoDup l → handleMsgAddShares ctx a l s = (Ok u, s') → joint ∅ ctx s'.
Proof.
  intros I S Hnd. unfold handleMsgAddShares. intros (m & s1 & H1 & H2)%M_bind_Ok. apply gets_Ok in H1 as [-> ->].
  apply M_bind_Ok in H2 as (u1 & s1 & H1 & H2). apply guard_not_Ok in H1 as [_ ->].
  apply M_bind_Ok in H2 as (u2 & s1 & H1 & H2). apply guard_not_Ok in H1 as [_ ->].
  apply M_bind_Ok in H2 as (o & s1 & H1 & H2). apply gets_Ok in H1 as [-> ->].
  destruct (dels_of s !! a) as [d|] eqn:Hd; [|by apply fail_Ok in H2].
  apply M_bind_Ok in H2 as (u3 & s1 & H1 & H2). apply guard_not_Ok in H1 as [_ ->].
  apply M_bind_Ok in H2 as (u4 & s1 & H1 & H2). apply guard_not_Ok in H1 as [_ ->].
  apply M_bind_Ok in H2 as ([vals0 last] & s1 & H1 & H2). apply M_bind_Ok in H2 as (u5 & s2 & H3 & H2).
  destruct (settled_withdraw_votes ctx a d s (vals0, last) s1 u5 s2) as (J2 & E2 & V2 & _); [done..|].
  apply M_bind_Ok in H2 as (vals & s3 & H4 & H2). apply GetValidatorsToAddShares_Ok in H4 as [-> Hall].
  apply fetched in Hall as [El Hv]; [|exact (ii_key _ _ _ _ (proj1 (vt_vals _ _ _ V2)))].
  apply M_bind_Ok in H2 as (u6 & s3 & H4 & H2). apply lift_Ok in H4 as [[Hne Hm]%validateSharesAdding_Ok ->].
  apply M_bind_Ok in H2 as (x & s3 & H4 & H2). apply lift_Ok in H4 as [->%checkDec_value ->].
  apply M_bind_Ok in H2 as (u7 & s3 & H4 & H2). rewrite El in H4.
  eapply joint_created in H4 as (J3 & Es & Ev & _); [|exact V2|apply lookup_insert_eq|done|done].
  apply M_bind_Ok in H2 as (y & s4 & H5 & H2).
  pose proof (pr_tokens _ _ (sv_proxy _ _ _ _ I) _ _ Hd) as Ht.
  pose proof (pr_total_nonneg _ _ (sv_proxy _ _ _ _ I) _ _ Hd) as Hn.
  apply (AddSharesToValidators_Ok bonded notBonded ctx a (set_votes [] 0 d)
    (<[a := set_votes [] 0 d]> (dels_of s))) in H5 as [R V4];
    [|done|by rewrite Es, Ev|apply lookup_insert_eq|done|done|by rewrite El|by rewrite Ev|done|lia].
  rewrite insert_insert_eq, El in V4. rewrite El in R, H2.
  assert (0 < y) as Hy.
  { apply (vt_pos _ _ _ V4 a _ (lookup_insert_eq _ _ _)). cbn. rewrite <- El. by destruct vals. }
  eapply revotes_joint in R as J4; [|exact J3|by apply Z.lt_le_incl|intros v Hl; by apply elem_of_votes_of| |].
  2:{ intros p z. rewrite Es. intros Hz. exact (Z.lt_le_incl _ _ (votes_nonneg _ _ _ _ _ V2 Hz)). }
  2:{ intros v Hl. rewrite Ev. rewrite <- El in Hl. apply list_elem_of_fmap in Hl as (w & -> & Hw'). exists w. by apply Hv. }
  apply M_bind_Ok in H2 as (u8 & s5 & H1' & H2). rewrite SetDelegator_run in H1'. injection H1' as _ <-.
  pose proof (vt_key _ _ _ (proj1 S) _ _ Hd) as Ka.
  change (De_ValidatorAddresses _) with l in H2.
  eapply (joint_after distr Hmod Hblack ctx a (set_votes l y d)) in H2 as (J' & _); [exact J'|..|exact Hnd|].
  - eapply joint_quiet; [apply calm_quiet, calm_put|exact J4].
  - cbn. by rewrite Ka, lookup_insert_eq.
  - intros v Hl. cbn. rewrite (rv_shares _ _ _ _ _ _ _ _ R), bool_decide_true; done.
Qed.

(** ** Validators *)

Lemma no_votes_left (D : gmap string Delegator) (S : Votes) (vs : ValSet) v :
  votes_inv D S vs → vs_validators vs !! Va_OperatorAddress v = Some v → Va_DelegatorShares v ≤ msd_base v →
  ∀ p x, S !! p = Some x → p.1 ≠ Va_OperatorAddress v.
Proof.
  intros V Hv Hle [w b] x Hx Ew. cbn in Ew. subst w. pose proof (votes_nonneg _ _ _ _ _ V Hx) as Hpos.
  apply (vt_shares _ _ _ V) in Hx as (d & Hd & Hin & ->).
  destruct (ii_val _ _ _ _ (proj1 (vt_vals _ _ _ V)) _ _ Hv) as [V1 V2 V3 V4 V5 V6].
  assert (shares_to (Va_OperatorAddress v) d ≤ map_sum (shares_to (Va_OperatorAddress v)) D) as Hge.
  { apply (map_sum_ge _ _ b); [|done]. intros c y Hy. by eapply shares_to_nonneg. }
  unfold shares_to at 1 in Hge. rewrite bool_decide_true in Hge by done. lia.
Qed.

Lemma quiet_SetValidator a v w s u s' :
  vals_of s !! a = Some v → Va_OperatorAddress w = a → SetValidator w s = (Ok u, s') → quiet s s' ∧ sg_stakes s' = sg_stakes s.
Proof.
  intros Hv Ha E. st_inv. split; [|done]. split; try done. intros b. cbn. by eapply insert_dom.
Qed.

Lemma quiet_EditValidator lost ds a s u s' : SI lost s → handleMsgEditValidator ds a s = (Ok u, s') → quiet s s'.
Proof.
  intros I. unfold handleMsgEditValidator. intros (o & s1 & H1 & H2)%M_bind_Ok. apply gets_Ok in H1 as [-> ->].
  destruct (vals_of s !! a) as [v|] eqn:Hv; [|by apply fail_Ok in H2].
  apply M_bind_Ok in H2 as (ds' & s1 & H1 & H2). apply lift_Ok in H1 as [_ ->].
  eapply quiet_SetValidator; [exact Hv| |exact H2]. exact (val_key _ _ _ _ _ _ I Hv).
Qed.
Lemma quiet_EditCommission lost ctx r a s u s' :
  SI lost s → handleMsgEditValidatorCommissionRate ctx r a s = (Ok u, s') → quiet s s'.
Proof.
  intros I. unfold handleMsgEditValidatorCommissionRate. intros (o & s1 & H1 & H2)%M_bind_Ok.
  apply gets_Ok in H1 as [-> ->]. destruct (vals_of s !! a) as [v|] eqn:Hv; [|by apply fail_Ok in H2].
  apply M_bind_Ok in H2 as (c & s1 & H1 & H2). apply lift_Ok in H1 as [_ ->].
  apply M_bind_Ok in H2 as (u1 & s1 & H1 & H2). pose proof H1 as (_ & _ & Ev & _)%call_hook_distr.
  apply (idle_quiet distr) in H1; [|done]. etransitivity; [exact H1|].
  eapply quiet_SetValidator; [by rewrite Ev| |exact H2]. exact (val_key _ _ _ _ _ _ I Hv).
Qed.

Lemma joint_CreateValidator lost ctx m s u s' :
  SI lost s → joint ∅ ctx s → outsider (K := K) bonded notBonded (Mc_DelegatorAddress m) →
  Mc_ValidatorAddress m = Mc_DelegatorAddress m →
  handleMsgCreateValidator ctx m s = (Ok u, s') → joint ∅ ctx s'.
Proof.
  intros I [L [old J]] Ho Ead. unfold handleMsgCreateValidator. intros (o & s1 & H1 & H2)%M_bind_Ok. apply gets_Ok in H1 as [-> ->].
  apply M_bind_Ok in H2 as (u1 & s1 & H1 & H2). apply guard_not_Ok in H1 as [Hv ->]. bool_prop. apply eq_None_not_Some in Hv.
  apply M_bind_Ok in H2 as (o & s1 & H1 & H2).
  assert (s1 = s) as -> by (unfold GetValidatorByConsAddr in H1; apply M_bind_Ok in H1 as (x & s2 & H1 & H3);
    apply gets_Ok in H1 as [-> ->]; destruct (vs_byConsAddr _ !! _); st_inv; done).
  clear H1. apply M_bind_Ok in H2 as (u2 & s1 & H1 & H2). apply guard_not_Ok in H1 as [_ ->].
  apply M_bind_Ok in H2 as (u3 & s1 & H1 & H2). apply guard_not_Ok in H1 as [_ ->].
  apply M_bind_Ok in H2 as (u4 & s1 & H1 & H2). apply lift_Ok in H1 as [_ ->].
  apply M_bind_Ok in H2 as (u5 & s1 & H1 & H2).
  assert (s1 = s) as -> by (destruct consensusPubKeyTypes; [by apply guard_not_Ok in H1 as [_ ->]|by apply mret_Ok in H1 as [_ ->]]).
  clear H1. apply M_bind_Ok in H2 as (msd & s1 & H3 & H2). apply gets_Ok in H3 as [-> ->].
  apply M_bind_Ok in H2 as (one & s1 & H3 & H2). apply lift_Ok in H3 as [_ ->].
  apply M_bind_Ok in H2 as (zero & s1 & H3 & H2). apply lift_Ok in H3 as [_ ->].
  apply M_bind_Ok in H2 as (v & s1 & H3 & H2). apply lift_Ok in H3 as [Hcm ->].
  assert (Va_OperatorAddress v = Mc_ValidatorAddress m) as Ha
    by (apply outcome_bind_Ok in Hcm as (u6 & _ & Hcm); by injection Hcm as <-). clear Hcm.
  apply M_bind_Ok in H2 as (u7 & s1 & H3 & H2). apply M_bind_Ok in H2 as (u8 & s2 & H4 & H2).
  apply M_bind_Ok in H2 as (u9 & s3 & H5 & H2). apply M_bind_Ok in H2 as (token & s4 & H6 & H2). apply lift_Ok in H6 as [_ ->].
  apply M_bind_Ok in H2 as (v1 & s4 & H6 & H2). unfold AddSharesAsMinSelfDelegation in H6.
  apply M_bind_Ok in H6 as (u10 & s5 & H6 & H7).
  assert (sg_k s3 = sg_k s ∧ sg_stakes s3 = sg_stakes s ∧ vals_of s3 = <[Mc_ValidatorAddress m := v]> (vals_of s)) as (Ek & Es & Ev)
    by (rewrite <- Ha; clear -H3 H4 H5; st_inv; done). clear H3 H4 H5.
  apply calm_delegate in H6; [|done|rewrite Ek; exact (mo_wf _ _ _ _ _ _ _ (sv_money _ _ _ _ I))].
  destruct H6 as [A B Cb D E].
  assert (dist s4 = dist s5 ∧ sg_stakes s4 = sg_stakes s5 ∧ vals_of s4 = <[Mc_ValidatorAddress m := v1]> (vals_of s) ∧
    Va_OperatorAddress v1 = Mc_ValidatorAddress m) as (Ed4 & Es4 & Ev4 & Ha1).
  { unfold addSharesAsDefaultMinSelfDelegation in H7. rewrite <- Ha in Ev |- *. clear Ha.
    assert (∀ w, <[Va_OperatorAddress v := w]> (vals_of s5) = <[Va_OperatorAddress v := w]> (vals_of s)) as Ew
      by (intros w; rewrite E, Ev; apply insert_insert_eq).
    unfold SetValidatorByPowerIndex in H7. st_inv; cbn; (split; [done|split; [done|split; [apply Ew|done]]]). }
  apply call_hook_distr in H2 as (Eh & E1 & E2 & _). cbn [distr_hook] in Eh. rewrite Ha1, Ev4, lookup_insert_eq in Eh.
  apply M_bind_Ok in Eh as (w & k4 & E0 & Eh). apply deref_Ok in E0 as [[= <-] ->].
  unfold DistrStaking.joint. rewrite E1, E2, Ev4, Es4, D, Es, <- Ha1.
  assert (distr_inv distr ∅ old (shares_of s) (vals_of s) (dist s4)) as J4.
  { eapply DI_calm; [exact J|..]; unfold dist in *; rewrite ?Ed4; [by rewrite A, Ek|by rewrite <- Ek|intros d; by rewrite Cb, Ek|done]. }
  assert (live ctx (di_distr (dist s4))) as L4 by (rewrite Ed4, A; unfold dist; by rewrite Ek).
  eapply inv_created in Eh as [J' D']; [|exact L4|exact J4|by rewrite Ha1|rewrite Ha1, Ead; apply Ho].
  split; [by eapply live_steady|eauto].
Qed.

Lemma mustGet_same c s v s' : mustGetValidatorByConsAddr c s = (Ok v, s') → s' = s.
Proof.
  unfold mustGetValidatorByConsAddr, GetValidatorByConsAddr. intros (o & s1 & H1 & H2)%M_bind_Ok.
  apply M_bind_Ok in H1 as (x & s2 & H1 & H3). apply gets_Ok in H1 as [-> ->].
  destruct (vs_byConsAddr _ !! c); [apply gets_Ok in H3 as [_ ->]|apply mret_Ok in H3 as [_ ->]];
    destruct o; first [by apply mret_Ok in H2 as [_ ->]|by apply panic_Ok in H2].
Qed.

Lemma joint_WithdrawMinSelfDelegation lost ctx a v s t s' :
  SI lost s → joint ∅ ctx s → vals_of s !! a = Some v → WithdrawMinSelfDelegation ctx a v s = (Ok t, s') → joint ∅ ctx s'.
Proof.
  intros I J Hva. pose proof (val_key _ _ _ _ _ _ I Hva) as Kv.
  unfold WithdrawMinSelfDelegation. intros (u1 & s1 & H1 & H2)%M_bind_Ok. apply guard_not_Ok in H1 as [Hm ->].
  apply M_bind_Ok in H2 as (remain & s1 & H1 & H2). apply lift_Ok in H1 as [->%checkDec_value ->].
  apply M_bind_Ok in H2 as (u2 & s1 & H1 & H2). apply guard_not_Ok in H1 as [_ ->].
  apply M_bind_Ok in H2 as (token & s1 & H1 & H2). apply lift_Ok in H1 as [_ ->].
  apply M_bind_Ok in H2 as (u3 & s1 & H1 & H2). apply calm_bondedToNot in H1 as [Q1 E1].
  apply M_bind_Ok in H2 as (ub & s2 & H1 & H2). apply gets_Ok in H1 as [-> ->].
  apply M_bind_Ok in H2 as (u4 & s2 & H1 & H2). apply M_bind_Ok in H2 as (u5 & s3 & H3 & H2).
  assert (calm s1 s3) as Q3 by (clear -H1 H3; st_inv; done). clear H1 H3.
  apply M_bind_Ok in H2 as (u6 & s4 & H4 & H2). pose proof H4 as (_ & E4 & V4 & _)%call_hook_distr.
  apply (idle_quiet distr) in H4; [|done].
  assert (joint ∅ ctx s4) as J4.
  { eapply joint_quiet; [|exact J]. etransitivity; [|exact H4]. apply calm_quiet. by etransitivity. }
  assert (sg_vals s4 = sg_vals s) as Ev by (rewrite V4, (cm_vals _ _ Q3), (cm_vals _ _ Q1); done).
  assert (shares_of s4 = shares_of s) as Es by (rewrite E4, (cm_shares _ _ Q3), E1; done).
  assert (vals_of s4 !! Va_OperatorAddress v = Some v) as Hv4 by (by rewrite Ev, Kv).
  assert (∀ w s5 s6 t6, vals_of s5 = vals_of s4 → Va_OperatorAddress w = Va_OperatorAddress v → quiet s4 s5 →
    (_ ← DeleteValidatorByPowerIndex w; _ ← SetValidator (va_set_shares (Va_DelegatorShares v - getSharesFromDefaultMinSelfDelegation) w);
     mret (BlockTime ctx + Sp_UnbondingTime (sg_params s1))) s5 = (Ok t6, s6) → joint ∅ ctx s6) as Hkick.
  { intros w s5 s6 t6 E5 Ew Q5 E6. eapply joint_quiet; [|exact J4]. etransitivity; [exact Q5|].
    apply M_bind_Ok in E6 as (u7 & s7 & E7 & E6). apply M_bind_Ok in E6 as (u8 & s8 & E8 & E6). apply mret_Ok in E6 as [_ ->].
    assert (vals_of s7 = vals_of s5 ∧ quiet s5 s7) as [Ev7 Q7] by (clear -E7; st_inv; done).
    etransitivity; [exact Q7|]. eapply quiet_SetValidator; [| |exact E8]; [by rewrite Ev7, E5|exact Ew]. }
  cbn [Va_Status va_set_jailed va_set_msd] in H2. destruct (Va_Status v) eqn:Hst.
  - destruct (Dec_IsZero _ && _) eqn:Hz in H2; [|by eapply Hkick in H2].
    apply M_bind_Ok in H2 as (u7 & s5 & H1 & H2). apply mret_Ok in H2 as [_ ->].
    apply (joint_remove distr Hmod Hblack ∅ ctx v) in H1 as (J5 & _); [exact J5|done|done|].
    intros p x Hp Ep. exfalso. rewrite Es in Hp.
    apply (no_votes_left (dels_of s) (shares_of s) (sg_vals s) v (sv_votes _ _ _ _ I) ltac:(by rewrite Kv)) in Hp; [by apply Hp|].
    unfold Dec_IsZero, getSharesFromDefaultMinSelfDelegation in *. bool_prop. unfold msd_base. destruct (Z.eqb_spec (Va_MinSelfDelegation v) 0); lia.
  - by eapply Hkick in H2.
  - apply M_bind_Ok in H2 as (u7 & s5 & H1 & H2). unfold AppendAbandonedValidatorAddrs in H1.
    apply M_bind_Ok in H1 as (w' & s6 & H1 & H3).
    apply mustGet_same in H1 as ->.
    assert (vals_of s5 = vals_of s4 ∧ quiet s4 s5) as [Ev5 Q5] by (clear -H3; st_inv; done).
    eapply (Hkick _ s5) in H2; [done|done|done|done].
Qed.

(** ** Every message *)

Lemma joint_deliver lost h ctx msg s u s' :
  SI lost s → joint ∅ ctx s → outsider (K := K) bonded notBonded (staking_signer msg) →
  staking_deliver h ctx msg s = (Ok u, s') → joint ∅ ctx s'.
Proof.
  intros I J Ho. assert (settled ctx s) as S by (split; [exact (sv_votes _ _ _ _ I)|done]).
  unfold staking_deliver. intros (u1 & s1 & H1 & H2)%M_bind_Ok. apply lift_Ok in H1 as [Hv ->].
  unfold staking_NewHandler in H2. apply M_bind_Ok in H2 as (en & s1 & H1 & H2). apply gets_Ok in H1 as [-> ->].
  apply M_bind_Ok in H2 as (u2 & s1 & H1 & H2). apply guard_not_Ok in H1 as [_ ->].
  destruct msg; cbn [staking_signer] in *.
  - eapply joint_CreateValidator; [done..| |exact H2]. cbn in Hv. unfold MsgCreateValidator_ValidateBasic in Hv.
    destruct (String.eqb_spec (Mc_ValidatorAddress m) (Mc_DelegatorAddress m)); [done|]. by repeat case_match.
  - eapply joint_quiet; [by eapply quiet_EditValidator|done].
  - destruct (HigherThanVenus2 _); [|by apply fail_Ok in H2]. eapply joint_quiet; [by eapply quiet_EditCommission|done].
  - unfold handleMsgDeposit in H2. apply M_bind_Ok in H2 as (u3 & s1 & H1 & H2). apply guard_not_Ok in H1 as [_ ->].
    by eapply settled_Delegate.
  - unfold handleMsgWithdraw in H2. apply M_bind_Ok in H2 as (u3 & s1 & H1 & H2). apply guard_not_Ok in H1 as [Hd ->].
    apply negb_false_iff, String.eqb_eq in Hd. apply M_bind_Ok in H2 as (t & s1 & H1 & H2). apply mret_Ok in H2 as [_ ->].
    by eapply settled_Withdraw.
  - eapply joint_AddShares; [done|done| |done]. apply isValsDuplicate_NoDup.
    cbn in Hv. unfold MsgAddShares_ValidateBasic in Hv. repeat case_match; try done.
  - by eapply settled_BindProxy.
  - by eapply settled_unbindProxy.
  - unfold handleRegProxy in H2. destruct reg; [by eapply settled_regProxy|by eapply settled_unregProxy].
  - unfold handleMsgDestroyValidator in H2. apply M_bind_Ok in H2 as (o & s1 & H1 & H2). apply gets_Ok in H1 as [-> ->].
    destruct (vals_of s !! _) as [v|] eqn:Hva; [|by apply fail_Ok in H2].
    apply M_bind_Ok in H2 as (t & s1 & H1 & H2). apply mret_Ok in H2 as [_ ->].
    by eapply joint_WithdrawMinSelfDelegation.
Qed.
End Msgs.
