(* ===== verification/DistrEnd.v ===== *)
(** * Distribution: the start and the end of a block

    The votes on a block and the evidence, and the changes of the validator
    set, leave the votes of delegators and the records of rewards alone; a
    validator that is removed at the end of a block has no votes left. *)
From S2P Require Import Prelude Decimal Denom Coins Bank CoinKeeper DecStr Token Staking StakingVals StakingVotes StakingProps StakingMsgs StakingFrame StakingSet StakingElect StakingEnd StakingRun Slashing SlashingProps Distribution DistrProps DistrKeeper DistrInv DistrHooks DistrLaws DistrStaking DistrMsgs.
#[local] Open Scope Z_scope.

Section Ends.
Context {C : Type} `{CoinKeeper C} `{!CoinKeeperLaws C} `{!DelegationKeeper C} `{!DelegationKeeperLaws C}.
Context `{cfgS : StakingConfig} `{DistrConfig}.
Context (bonded notBonded distr : string) `{!StakingLaws (Distributed C) bonded notBonded}.
Hypothesis Hmod : ck_modaddr (S := C) DistrModuleName = Some distr.
Hypothesis Hblack : ck_Blacklisted (S := C) distr = true.
Hypothesis Hdn : distr ≠ notBonded.
#[local] Abbreviation K := (Slashed (Distributed C)).
Implicit Types (s : StakingState K).
#[local] Abbreviation joint := (joint distr).
#[local] Abbreviation quiet := (quiet distr).
#[local] Abbreviation vals_of s := (vs_validators (sg_vals s)).

(** ** Changes of the validator set *)

Definition keyed s : Prop := ∀ a v, vals_of s !! a = Some v → Va_OperatorAddress v = a.
(** Validators keep their shares and deposits. *)
Record turned s s' : Prop := {
  tu_quiet : quiet s s';
  tu_stakes : sg_stakes s' = sg_stakes s;
  tu_vals a v' : vals_of s' !! a = Some v' → ∃ v, vals_of s !! a = Some v ∧ Va_OperatorAddress v' = Va_OperatorAddress v ∧
    Va_DelegatorShares v' = Va_DelegatorShares v ∧ Va_MinSelfDelegation v' = Va_MinSelfDelegation v }.
Lemma turned_refl s : turned s s.
Proof. split; [reflexivity|done|eauto 10]. Qed.
Definition turns s s' : Prop := keyed s → turned s s' ∧ keyed s'.
#[global] Instance turns_preorder : PreOrder turns.
Proof.
  split; [intros s Hk; split; [apply turned_refl|done]|]. intros s1 s2 s3 H1 H2 Hk. destruct (H1 Hk) as [[Q1 S1 V1] K1].
  destruct (H2 K1) as [[Q2 S2 V2] K2]. split; [|done]. split; [by etransitivity|congruence|].
  intros a v' (v2 & Hv2 & E1 & E2 & E3)%V2. destruct (V1 _ _ Hv2) as (v & Hv & F1 & F2 & F3). exists v. split; [done|]. split; [congruence|].
  split; congruence.
Qed.

Lemma turns_eq s s' :
  dist s' = dist s → sg_stakes s' = sg_stakes s → vals_of s' = vals_of s → turns s s'.
Proof.
  intros Ed Es Ev Hk. unfold keyed. rewrite Ev. split; [|done]. split; [|done|rewrite Ev; eauto 10].
  split; rewrite ?Ed, ?Es, ?Ev; done.
Qed.
Lemma turns_put v w s s' :
  vals_of s !! Va_OperatorAddress v = Some v → Va_OperatorAddress w = Va_OperatorAddress v →
  Va_DelegatorShares w = Va_DelegatorShares v → Va_MinSelfDelegation w = Va_MinSelfDelegation v →
  dist s' = dist s → sg_stakes s' = sg_stakes s → vals_of s' = <[Va_OperatorAddress v := w]> (vals_of s) → turns s s'.
Proof.
  intros Hv Ea Ex Em Ed Es Ev Hk.
  assert (∀ b x, <[Va_OperatorAddress v := w]> (vals_of s) !! b = Some x → b = Va_OperatorAddress v ∧ x = w ∨ vals_of s !! b = Some x) as Hc.
  { intros b x [[<- <-]|[_ Hx]]%lookup_insert_Some; auto. }
  split.
  - split; [|done|rewrite Ev; intros b x [[-> ->]|Hx]%Hc; eauto 10].
    split; rewrite ?Ed, ?Es, ?Ev; try done. intros b. by eapply insert_dom.
  - intros b x. rewrite Ev. intros [[-> ->]|Hx]%Hc; [done|by apply Hk].
Qed.
Lemma turns_hook ctx h s u s' : idle_hook h = true → call_hook ctx h s = (Ok u, s') → turns s s'.
Proof.
  intros Hi E Hk. pose proof E as (_ & Es & Ev & _)%call_hook_distr. apply (idle_quiet distr) in E; [|done].
  unfold keyed. rewrite Ev. split; [|done]. split; [done|done|rewrite Ev; eauto 10].
Qed.

(** What a run does that starts with the record of [v] in the store. *)
Definition starts {A} (v : Validator) (m : M (StakingState K) A) : Prop :=
  ∀ s a s', vals_of s !! Va_OperatorAddress v = Some v → m s = (Ok a, s') → turns s s'.
Lemma starts_bind {A B} v (m : M (StakingState K) A) (g : A → M (StakingState K) B) :
  starts v m → (∀ a, on_return turns (g a)) → starts v (m ≫= g).
Proof. intros Hm Hg s b s' Hv (a & s1 & H1 & H2)%M_bind_Ok. etransitivity; [by eapply Hm|by eapply Hg]. Qed.
Lemma starts_still {A B} v (m : M (StakingState K) A) (g : A → M (StakingState K) B) :
  on_return eq m → (∀ a, starts v (g a)) → starts v (m ≫= g).
Proof. intros Hm Hg s b s' Hv (a & s1 & H1 & H2)%M_bind_Ok. apply Hm in H1 as <-. by eapply Hg. Qed.
Lemma starts_any {A} v (m : M (StakingState K) A) : on_return turns m → starts v m.
Proof. intros Hm s a s' _. apply Hm. Qed.

Lemma or_must {A} a (f : Validator → M (StakingState K) A) :
  (∀ v, starts v (f v)) → on_return turns (mustGetValidator a ≫= f).
Proof.
  intros Hf s b s' (v & s1 & H1 & H2)%M_bind_Ok Hk. unfold mustGetValidator in H1.
  apply M_bind_Ok in H1 as (o & s2 & H1 & H3). apply gets_Ok in H1 as [-> ->].
  destruct (vals_of s !! a) as [w|] eqn:Hw; [|by apply panic_Ok in H3]. apply mret_Ok in H3 as [-> ->].
  eapply Hf; [|exact H2|done]. by rewrite (Hk _ _ Hw).
Qed.
Lemma or_mustCons {A} c (f : Validator → M (StakingState K) A) :
  (∀ v, starts v (f v)) → on_return turns (mustGetValidatorByConsAddr c ≫= f).
Proof.
  intros Hf s b s' (v & s1 & H1 & H2)%M_bind_Ok Hk. pose proof H1 as ->%mustGet_same. unfold mustGetValidatorByConsAddr, GetValidatorByConsAddr in H1.
  apply M_bind_Ok in H1 as (o & s2 & H1 & H3). apply M_bind_Ok in H1 as (x & s3 & H1 & H4). apply gets_Ok in H1 as [-> ->].
  destruct (vs_byConsAddr _ !! c) as [a|]; [|apply mret_Ok in H4 as [-> _]; by apply panic_Ok in H3].
  apply gets_Ok in H4 as [-> ->]. destruct (vals_of s !! a) as [w|] eqn:Hw; [|by apply panic_Ok in H3]. apply mret_Ok in H3 as [-> _].
  eapply Hf; [|exact H2|done]. by rewrite (Hk _ _ Hw).
Qed.
Lemma or_vals f : (∀ vs, vs_validators (f vs) = vs_validators vs) → on_return turns (on_vals (modify f)).
Proof. intros Hf s u s' (vs & E & ->)%zoom_Ok. apply modify_Ok in E as ->. apply turns_eq; cbn; auto. Qed.
Lemma or_slashing {A} (m : M Slashing A) : on_return turns (in_slashing m).
Proof. intros s u s' (l & _ & ->)%in_slashing_Ok. by apply turns_eq. Qed.
Lemma or_panic_if c n : on_return turns (panic_if c n).
Proof. by intros s u s' [_ ->]%panic_if_Ok. Qed.

Lemma starts_bond ctx v : starts v (bondValidator ctx v).
Proof.
  intros s w s' Hv. unfold bondValidator. intros (u1 & s1 & H1 & H2)%M_bind_Ok. apply M_bind_Ok in H2 as (u2 & s2 & H3 & H2).
  apply M_bind_Ok in H2 as (u3 & s3 & H4 & H2). apply M_bind_Ok in H2 as (u4 & s4 & H5 & H2).
  apply M_bind_Ok in H2 as (u5 & s5 & H6 & H2). apply mret_Ok in H2 as [_ ->].
  transitivity s4; [|by eapply turns_hook; [|exact H6]]. rewrite DeleteValidatorQueue_run in H5. injection H5 as _ <-.
  rewrite SetByPowerIndex_run in H4. injection H4 as _ <-. eapply (turns_put v (UpdateStatus v Bonded)); try done;
    clear H6; st_inv; by destruct (Va_Jailed _).
Qed.
Lemma starts_begin ctx v : starts v (beginUnbondingValidator ctx v).
Proof.
  intros s w s' Hv. unfold beginUnbondingValidator. intros (ub & s1 & H1 & H2)%M_bind_Ok. apply gets_Ok in H1 as [-> ->].
  apply M_bind_Ok in H2 as (u1 & s1 & H1 & H2). apply M_bind_Ok in H2 as (u6 & s0 & H0' & H2). apply panic_if_Ok in H0' as [_ ->].
  apply M_bind_Ok in H2 as (u2 & s2 & H3 & H2).
  apply M_bind_Ok in H2 as (u3 & s3 & H4 & H2). apply M_bind_Ok in H2 as (u4 & s4 & H5 & H2).
  apply M_bind_Ok in H2 as (u5 & s5 & H6 & H2). apply mret_Ok in H2 as [_ ->].
  transitivity s4; [|by eapply turns_hook; [|exact H6]]. rewrite InsertValidatorQueue_run in H5. injection H5 as _ <-.
  rewrite SetByPowerIndex_run in H4. injection H4 as _ <-.
  eapply (turns_put v (va_set_unbonding (BlockHeight ctx) (BlockTime ctx + Sp_UnbondingTime (sg_params s)) (UpdateStatus v Unbonding))); try done;
    clear H6; st_inv; by destruct (Va_Jailed _).
Qed.

(** ** The loops over validators *)

Lemma or_for_acc {A B} (f : B → A → M (StakingState K) B) l :
  (∀ b a, on_return turns (f b a)) → ∀ acc, on_return turns (for_acc f acc l).
Proof. intros Hf. induction l as [|a l IH]; intros acc; cbn [for_acc]; [apply or_mret; exact _|]. by apply or_bind; [exact _| |]. Qed.

Create HintDb turns.
Ltac turning :=
  repeat first
    [ solve [auto 2 with turns nocore] | apply starts_bond | apply starts_begin
    | apply or_must; intros ? | apply or_mustCons; intros ?
    | apply or_slashing | apply or_panic_if
    | apply or_vals; by intros []
    | apply starts_still; [by intros ? ? ? [_ ->]%panic_if_Ok| intros ?]
    | apply starts_still; [by intros ? ? ? [_ ->]%gets_Ok| intros ?]
    | apply starts_bind; [|intros ?]
    | apply or_for_acc; intros ? ?
    | by intros ? ? ? ?%panic_Ok
    | returns_step
    | apply starts_any ].

Lemma or_electLoop ctx addrs : ∀ room last us t, on_return turns (electLoop ctx addrs room last us t).
Proof.
  induction addrs as [|a addrs IH]; intros [|room] last us t; cbn [electLoop]; [by turning..|].
  apply or_must. intros v. apply starts_still; [by intros ? ? ? [_ ->]%panic_if_Ok|intros _].
  destruct (_ =? 0); [by turning|]. apply starts_bind.
  - destruct (Va_Status v); unfold unbondedToBonded, unbondingToBonded; turning.
  - intros w. unfold SetLastValidatorPower. turning.
Qed.
Lemma or_unbond ctx us a : on_return turns (unbond_step ctx us a).
Proof. unfold unbond_step, bondedToUnbonding, DeleteLastValidatorPower. turning. Qed.
Lemma or_promoteLoop ctx addrs : ∀ num last us t, on_return turns (promoteLoop ctx addrs num last us t).
Proof.
  induction addrs as [|a addrs IH]; intros [|num] last us t; cbn [promoteLoop]; [by turning..|].
  destruct (bool_decide _); [apply IH|]. apply or_must. intros v. destruct (_ =? 0); [by turning|]. apply starts_bind.
  - destruct (Va_Status v); unfold unbondedToBonded, unbondingToBonded; turning.
  - intros w. unfold SetLastValidatorPower. turning.
Qed.
Lemma or_discharge ctx last acc a : on_return turns (discharge_step ctx last acc a).
Proof.
  unfold discharge_step. destruct acc as [us t]. apply or_must. intros v. destruct (Va_Status v); [by turning..|].
  unfold bondedToUnbonding, DeleteLastValidatorPower. turning.
Qed.
#[local] Hint Resolve or_electLoop or_unbond or_promoteLoop or_discharge : core turns.
Lemma or_Apply ctx : on_return turns (ApplyAndReturnValidatorSetUpdates ctx).
Proof. unfold ApplyAndReturnValidatorSetUpdates, SetLastTotalPower. turning. Qed.
Lemma or_KickOut ctx : on_return turns (KickOutAndReturnValidatorSetUpdates ctx).
Proof. unfold KickOutAndReturnValidatorSetUpdates, GetLastTotalPower, SetLastTotalPower. turning. Qed.
#[local] Hint Resolve or_Apply or_KickOut : core turns.
Lemma or_updateSet ctx b c : on_return turns (updateSet ctx b c).
Proof. unfold updateSet, SetEpoch, SetTheEndOfLastEpoch, DeleteAbandonedValidatorAddrs. turning. Qed.

(** ** Votes on a block, evidence and jail *)

Lemma starts_write v w f :
  Va_OperatorAddress w = Va_OperatorAddress v → Va_DelegatorShares w = Va_DelegatorShares v →
  Va_MinSelfDelegation w = Va_MinSelfDelegation v → (∀ vs, vs_validators (f vs) = vs_validators vs) →
  starts v (_ ← SetValidator w; on_vals (modify f)).
Proof.
  intros Ea Ex Em Hf s u s' Hv E. eapply (turns_put v w); try done; apply M_bind_Ok in E as (u1 & s1 & E1 & E); st_inv; cbn; try done.
  by rewrite Hf, Ea.
Qed.
Lemma or_Jail c : on_return turns (Jail c).
Proof.
  unfold Jail. apply or_mustCons. intros v. unfold jailValidator. apply starts_still; [by intros ? ? ? [_ ->]%panic_if_Ok|intros _].
  by apply starts_write.
Qed.
Lemma or_Unjail c : on_return turns (Unjail c).
Proof.
  unfold Unjail. apply or_mustCons. intros v. unfold unjailValidator. apply starts_still; [by intros ? ? ? [_ ->]%panic_if_Ok|intros _].
  unfold SetValidatorByPowerIndex. cbn [Va_Jailed va_set_jailed]. by apply starts_write.
Qed.
Lemma or_Append c : on_return turns (AppendAbandonedValidatorAddrs c).
Proof. unfold AppendAbandonedValidatorAddrs. turning. Qed.
Lemma or_GetByCons c : on_return turns (GetValidatorByConsAddr c).
Proof. unfold GetValidatorByConsAddr, GetValidator. turning. Qed.
#[local] Hint Resolve or_Jail or_Unjail or_Append or_GetByCons : core turns.
Lemma or_Signature ctx c p b : on_return turns (HandleValidatorSignature ctx c p b).
Proof. unfold HandleValidatorSignature. turning. Qed.
Lemma or_slashing_BeginBlocker ctx votes : on_return turns (slashing_BeginBlocker ctx votes).
Proof. apply or_for_each; [exact _|]. intros v. apply or_Signature. Qed.
Lemma or_evidence_BeginBlocker ctx m l : on_return turns (evidence_BeginBlocker ctx m l).
Proof. unfold evidence_BeginBlocker, HandleDoubleSign. turning. Qed.
Lemma or_handleMsgUnjail ctx a : on_return turns (handleMsgUnjail ctx a).
Proof. unfold handleMsgUnjail, slashing_Unjail, GetValidator. turning. Qed.

(** ** Validators and undelegations that are due *)

(** No votes go to a validator whose shares are those of its deposit. *)
Definition unvoted s : Prop :=
  ∀ v, vals_of s !! Va_OperatorAddress v = Some v → Va_DelegatorShares v ≤ msd_base v →
  ∀ p x, st_shares (sg_stakes s) !! p = Some x → p.1 ≠ Va_OperatorAddress v.
Lemma unvoted_turned s s' : turned s s' → keyed s → unvoted s → unvoted s'.
Proof.
  intros [_ Es V] Hk Hu v' Hv' Hle p x. rewrite Es. intros Hx. destruct (V _ _ Hv') as (v & Hv & E1 & E2 & E3).
  pose proof (Hk _ _ Hv) as Kv. rewrite <- Kv. eapply (Hu v); [by rewrite Kv| |exact Hx].
  unfold msd_base in *. by rewrite E2, E3 in Hle.
Qed.

Record maturing ctx (t : Stakes) s : Prop := {
  ma_joint : joint ∅ ctx s;
  ma_keyed : keyed s;
  ma_unvoted : unvoted s;
  ma_stakes : sg_stakes s = t }.
Lemma maturing_turns ctx t s s' : turns s s' → maturing ctx t s → maturing ctx t s'.
Proof.
  intros T [J Hk Hu Es]. destruct (T Hk) as [Td Hk']. split; [|done|by eapply unvoted_turned|by rewrite (tu_stakes _ _ Td)].
  eapply joint_quiet; [apply Td|done].
Qed.

Lemma maturing_unbond ctx t a s u s' : maturing ctx t s → unbondMature ctx a s = (Ok u, s') → maturing ctx t s'.
Proof.
  intros M. unfold unbondMature. intros (o & s1 & H1 & H2)%M_bind_Ok. apply gets_Ok in H1 as [-> ->].
  destruct (vals_of s !! a) as [v|] eqn:Hv; [|by apply panic_Ok in H2].
  apply M_bind_Ok in H2 as (u1 & s1 & H1 & H2). apply panic_if_Ok in H1 as [_ ->].
  apply M_bind_Ok in H2 as (w & s1 & H1 & H2). unfold unbondingToUnbonded, completeUnbondingValidator in H1.
  apply M_bind_Ok in H1 as (u2 & s2 & H3 & H1). apply panic_if_Ok in H3 as [_ ->].
  apply M_bind_Ok in H1 as (u3 & s2 & H3 & H1). apply mret_Ok in H1 as [-> ->].
  pose proof (ma_keyed _ _ _ M _ _ Hv) as Kv.
  assert (maturing ctx t s2) as M2.
  { eapply maturing_turns; [|exact M]. eapply (turns_put v (UpdateStatus v Unbonded)); try done; [by rewrite Kv|..];
      clear Kv; st_inv; done. }
  assert (vals_of s2 !! Va_OperatorAddress (UpdateStatus v Unbonded) = Some (UpdateStatus v Unbonded)) as Hw
    by (clear Kv H2 M2; st_inv; cbn; by rewrite lookup_insert_eq).
  destruct (_ && _) eqn:Hz in H2; [|by apply mret_Ok in H2 as [_ ->]]. unfold Dec_IsZero in Hz. bool_prop.
  destruct M2 as [J2 K2 U2 E2].
  apply (joint_remove distr Hmod Hblack ∅ ctx (UpdateStatus v Unbonded)) in H2 as (J' & Es & Ev); [|done|done|].
  - split; [done| | |by rewrite Es].
    + intros b x. rewrite Ev. intros [_ Hx]%lookup_delete_Some. by apply K2.
    + intros x. rewrite Ev, Es. intros [_ Hx]%lookup_delete_Some. by apply U2.
  - intros p x Hp Ep. exfalso. eapply (U2 _ Hw); [|exact Hp|exact Ep]. assert (0 ≤ msd_base (UpdateStatus v Unbonded)) by (unfold msd_base; by destruct (_ =? 0)). lia.
Qed.
Lemma maturing_all ctx t s u s' :
  maturing ctx t s → UnbondAllMatureValidatorQueue ctx s = (Ok u, s') → maturing ctx t s'.
Proof.
  intros M. unfold UnbondAllMatureValidatorQueue. intros (l & s1 & H1 & H2)%M_bind_Ok. apply gets_Ok in H1 as [-> ->].
  apply (for_each_inv (maturing ctx t)) in H2; [done| |done]. intros [t1 l] s1 u1 s2 _ M1 (u2 & s3 & E1 & E2)%M_bind_Ok.
  apply (for_each_inv (maturing ctx t)) in E1; [|intros a s4 u3 s5 _; apply maturing_unbond|done].
  eapply maturing_turns; [|exact E1]. eapply or_vals; [|exact E2]. by intros [].
Qed.

Definition payees s : Prop :=
  ∀ a u, st_undelegations (sg_stakes s) !! a = Some u → Ud_DelegatorAddress u ≠ distr ∧ Ud_DelegatorAddress u ≠ notBonded.

Lemma CompleteUndelegation_Err a s e s' :
  CompleteUndelegation a s = (Err e, s') →
  sg_vals s' = sg_vals s ∧ sg_stakes s' = sg_stakes s ∧ (ck_wf (sg_k s) → ck_wf (sg_k s')) ∧
  (∀ x d, ck_balance (sg_k s') x d = ck_balance (sg_k s) x d) ∧ di_distr (dist s') = di_distr (dist s).
Proof.
  unfold CompleteUndelegation. intros [E|(o & s1 & E & H2)]%M_bind_Err; [done|]. apply gets_Ok in E as [-> ->].
  destruct (st_undelegations (sg_stakes s) !! a) as [ud|]; [|by injection H2 as _ <-].
  apply M_bind_Err in H2 as [E|(coin & s1 & E & H2)]; [unfold lift in E; by injection E as _ <-|].
  apply lift_Ok in E as [_ ->]. apply M_bind_Err in H2 as [E|(u & s1 & E & H2)].
  - unfold on_keeper, zoom in E. destruct (ck_UndelegateCoinsFromModuleToAccount _ _ _ (sg_k s)) as [[u|x|m] k'] eqn:Ek; simplify_eq.
    pose proof Ek as [W B]%law_Undelegate_refused. split; [done|]. split; [done|]. split; [exact W|]. split; [exact B|].
    clear W B. cbn in Ek. unfold on_base, on_coins, zoom in Ek. unfold dist. repeat case_match; by simplify_eq.
  - apply M_bind_Err in H2 as [E2|(u2 & s2 & _ & E2)]; done.
Qed.

Lemma complete_quiet ctx x s u s' :
  joint ∅ ctx s ∧ payees s → completeMature x s = (Ok u, s') → joint ∅ ctx s' ∧ payees s'.
Proof.
  intros [J P]. unfold completeMature. intros (u1 & s1 & H1 & H2)%M_bind_Ok.
  assert (quiet s s1 ∧ st_undelegations (sg_stakes s1) = st_undelegations (sg_stakes s)) as [Q1 E1] by (clear -H1; st_inv; done).
  unfold logErr in H2. destruct (CompleteUndelegation x.2 s1) as [[q|e|m] s2] eqn:E2; simplify_eq.
  - unfold CompleteUndelegation in E2. apply M_bind_Ok in E2 as (o & s3 & H3 & E2). apply gets_Ok in H3 as [-> ->].
    rewrite E1 in E2. destruct (st_undelegations (sg_stakes s) !! x.2) as [ud|] eqn:Hu; [|by apply fail_Ok in E2]. destruct (P _ _ Hu) as [Hd Hn].
    apply M_bind_Ok in E2 as (coin & s3 & H3 & E2). apply lift_Ok in H3 as [_ ->].
    apply M_bind_Ok in E2 as (u2 & s3 & H3 & E2). apply M_bind_Ok in E2 as (u3 & s4 & H4 & E2). apply mret_Ok in E2 as [_ ->].
    apply zoom_Ok in H3 as (k3 & H3 & ->). pose proof (zoomed_distr _ _ _ _ H3) as Ed.
    apply law_Undelegate in H3 as (addr & Ha & M).
    + rewrite sl_notBonded in Ha. injection Ha as <-.
      assert (calm distr s1 (sg_set_k k3 s1)) as Q3 by (by eapply calm_move; [exact M|exact Ed|done|done]).
      assert (quiet (sg_set_k k3 s1) s4 ∧ st_undelegations (sg_stakes s4) = delete x.2 (st_undelegations (sg_stakes s1))) as [Q4 E4]
        by (clear -H4; st_inv; done).
      split; [|intros a y; rewrite E4, E1; intros [_ Hy]%lookup_delete_Some; by eapply P].
      eapply joint_quiet; [|exact J]. etransitivity; [exact Q1|]. etransitivity; [apply calm_quiet, Q3|exact Q4].
    + destruct J as [_ [old J]]. exact (qu_wf _ _ _ Q1 (dv_wf _ _ _ _ _ _ J)).
    + rewrite sl_notBonded. congruence.
  - apply CompleteUndelegation_Err in E2 as (E2 & Es & W & B & Ed). split; [|intros a y; rewrite Es, E1; apply P].
    eapply joint_quiet; [|exact J]. etransitivity; [exact Q1|].
    split; [exact Ed|exact W|intros d; exact (B distr d)|by rewrite Es|intros v; by rewrite E2].
Qed.

Lemma maturing_start `{bansS : !Bans} `{engS : !Engine} lost ctx s :
  staking_inv (K := K) bonded notBonded lost s → joint ∅ ctx s → maturing ctx (sg_stakes s) s.
Proof.
  intros I J. split; [done| | |done].
  - intros a v Hv. exact (val_key _ _ _ _ _ _ I Hv).
  - intros v Hv Hle. exact (no_votes_left _ _ _ _ (sv_votes _ _ _ _ I) Hv Hle).
Qed.
Lemma joint_EndBlocker `{bansS : !Bans} `{engS : !Engine} lost ctx s us s' :
  staking_inv (K := K) bonded notBonded lost s → joint ∅ ctx s → staking_EndBlocker ctx s = (Ok us, s') → joint ∅ ctx s'.
Proof.
  intros I J E. rewrite (EndBlocker_eq bonded notBonded _ _ _ I) in E. apply M_bind_Ok in E as (us1 & s1 & H1 & E).
  apply or_updateSet in H1.
  pose proof (maturing_start _ _ _ I J) as M. apply (maturing_turns ctx (sg_stakes s)) in H1; [|done].
  apply M_bind_Ok in E as (u1 & s2 & H2 & E). eapply maturing_all in H2; [|exact H1].
  apply M_bind_Ok in E as (keys & s3 & H3 & E). apply gets_Ok in H3 as [-> ->].
  apply M_bind_Ok in E as (u2 & s3 & H3 & E). apply mret_Ok in E as [_ ->].
  apply (for_each_inv (λ s, joint ∅ ctx s ∧ payees s)) in H3; [apply H3|intros x t u3 t' _; apply complete_quiet|].
  split; [apply H2|]. intros a u. rewrite (ma_stakes _ _ _ H2). intros [-> Ho]%(ud_key _ _ _ (sv_undel _ _ _ _ I)).
  split; [|apply Ho]. destruct Ho as (_ & _ & _ & Hb). intros ->. cbn in Hb. congruence.
Qed.
End Ends.
