(* ===== verification/DistrOpen.v ===== *)
(** * Distribution: the community pool and the addresses of rewards

    Whatever happens, the community pool stays set once it is, and nobody's
    rewards are directed to an account that may not be paid: messages of this
    module are checked for it, and nothing else writes these addresses.  This
    holds for every call, also for one that fails. *)
From S2P Require Import Prelude Decimal Denom Coins Bank CoinKeeper DecStr Token Staking StakingFrame Slashing SlashingProps Distribution DistrProps DistrKeeper.
#[local] Open Scope Z_scope.

Section Meek.
Context `{StakingConfig} `{DistrConfig}.
Record meek (dt dt' : Distr) : Prop := {
  me_pool : is_Some (dt_feePool dt) → is_Some (dt_feePool dt');
  me_addr d a : dt_withdrawAddrs dt' !! d = Some a → dt_withdrawAddrs dt !! d = Some a ∨ dc_blacklistedAddrs a = false }.
#[global] Instance meek_preorder : PreOrder meek.
Proof.
  split; [split; eauto|]. intros dt1 dt2 dt3 [A1 B1] [A2 B2]. split; [auto|]. intros d a [?%B1|]%B2; auto.
Qed.

Lemma meek_for_acc {A B} (f : B → A → M Distr B) l :
  (∀ b a, frames meek (f b a)) → ∀ acc, frames meek (for_acc f acc l).
Proof.
  intros Hf. induction l as [|a l IH]; intros acc; cbn [for_acc]; [apply frames_mret; exact _|].
  apply frames_bind; [exact _|apply Hf|apply IH].
Qed.
Lemma meek_panic_if c n : frames meek (panic_if c n).
Proof. intros s. destruct c; cbn; reflexivity. Qed.
Lemma meek_modify f :
  (∀ dt, dt_withdrawAddrs (f dt) = dt_withdrawAddrs dt ∧ (is_Some (dt_feePool dt) → is_Some (dt_feePool (f dt)))) →
  frames meek (modify f).
Proof. intros Hf. apply frames_modify. intros dt. destruct (Hf dt) as [E Hp]. split; [done|]. rewrite E. auto. Qed.

Ltac meek_step :=
  lazymatch goal with
  | |- frames _ (for_each _ _) => apply frames_for_each; [exact _|intros ?]
  | |- frames _ (for_acc _ _ _) => apply meek_for_acc; intros ? ?
  | |- frames _ (modify _) => apply meek_modify; intros ?; cbn; split; [reflexivity|solve [eauto]]
  | |- frames _ (panic_if _ _) => apply meek_panic_if
  | |- frames _ (let _ := _ in _) => cbv zeta
  | |- _ => frame_step
  end.
Ltac meekly := unfold must, deref; repeat meek_step.
#[local] Hint Unfold SetFeePool SetPreviousProposerConsAddr SetValidatorAccumulatedCommission deleteValidatorAccumulatedCommission
  SetInitExistedValidatorFlag SetDelegatorStartingInfo DeleteDelegatorStartingInfo SetValidatorHistoricalRewards
  DeleteValidatorHistoricalReward DeleteValidatorHistoricalRewards SetValidatorCurrentRewards DeleteValidatorCurrentRewards
  SetValidatorOutstandingRewards DeleteValidatorOutstandingRewards SetDistributionType SetWithdrawRewardEnabled
  SetRewardTruncatePrecision GetFeePool GetPreviousProposerConsAddr GetDelegatorWithdrawAddr GetValidatorAccumulatedCommission
  GetDelegatorStartingInfo GetValidatorHistoricalRewards GetValidatorCurrentRewards GetValidatorOutstandingRewards : meek.

Lemma meek_initValidator ctx v : frames meek (initializeValidator ctx v).
Proof. unfold initializeValidator, initializeValidatorDistrProposal. autounfold with meek. meekly. Qed.
Lemma meek_initExisted v : frames meek (initExistedValidatorForDistrProposal v).
Proof. unfold initExistedValidatorForDistrProposal. autounfold with meek. meekly. Qed.
Lemma meek_increment v p : frames meek (incrementReferenceCount v p).
Proof. unfold incrementReferenceCount. autounfold with meek. meekly. Qed.
Lemma meek_decrement v p : frames meek (decrementReferenceCount v p).
Proof. unfold decrementReferenceCount. autounfold with meek. meekly. Qed.
#[local] Hint Resolve meek_initValidator meek_initExisted meek_increment meek_decrement : frames.
Lemma meek_period ctx v : frames meek (incrementValidatorPeriod ctx v).
Proof. unfold incrementValidatorPeriod. autounfold with meek. meekly. Qed.
Lemma meek_initDelegation ctx t v d : frames meek (initializeDelegation ctx t v d).
Proof. unfold initializeDelegation. autounfold with meek. meekly. Qed.
Lemma meek_ensure ctx t v d : frames meek (ensureStartingInfo ctx t v d).
Proof. unfold ensureStartingInfo, initExistedDelegationStartInfo. autounfold with meek. meekly. Qed.
Lemma meek_calculate ctx t v d p : frames meek (calculateDelegationRewards ctx t v d p).
Proof. unfold calculateDelegationRewards, calculateDelegationRewardsBetween. autounfold with meek. meekly. Qed.
Lemma meek_toValidator ctx v c : frames meek (AllocateTokensToValidator ctx v c).
Proof. unfold AllocateTokensToValidator, allocateTokensToValidatorForDistributionProposal. autounfold with meek. meekly. Qed.
#[local] Hint Resolve meek_period meek_initDelegation meek_ensure meek_calculate meek_toValidator : frames.
Lemma meek_fees ctx vs c votes : frames meek (distributeFees ctx vs c votes).
Proof. unfold distributeFees, allocateByEqual, allocateByShares. autounfold with meek. meekly. Qed.
Lemma meek_setAddr d w : frames meek (SetWithdrawAddr d w).
Proof.
  intros dt. unfold SetWithdrawAddr, guard_not, gets, SetDelegatorWithdrawAddr, modify. unfold mbind, M_bind.
  destruct (dc_blacklistedAddrs w) eqn:Hw; [reflexivity|]. cbn. destruct (negb _); [reflexivity|].
  split; [done|]. cbn. intros x a [[_ <-]|[_ Hx]]%lookup_insert_Some; auto.
Qed.
Lemma meek_changeType vs ty : frames meek (HandleChangeDistributionTypeProposal vs ty).
Proof. unfold HandleChangeDistributionTypeProposal. autounfold with meek. meekly. Qed.

(** What is so of the store then. *)
Record open_books (dt : Distr) : Prop := {
  ob_pool : is_Some (dt_feePool dt);
  ob_addr d a : dt_withdrawAddrs dt !! d = Some a → dc_blacklistedAddrs a = false }.
Lemma meek_open dt dt' : meek dt dt' → open_books dt → open_books dt'.
Proof. intros [A B] [P Q]. split; [auto|]. intros d a [?%Q|]%B; auto. Qed.

(** *** With the coins *)

Context {C : Type} `{CoinKeeper C}.
Definition meek_in (k k' : Distributed C) : Prop := meek (di_distr k) (di_distr k').
#[global] Instance meek_in_preorder : PreOrder meek_in.
Proof. split; [intros k; unfold meek_in; reflexivity|]. intros k1 k2 k3. unfold meek_in. apply transitivity. Qed.

Lemma meek_on_distr {A} (m : M Distr A) : frames meek m → frames meek_in (on_distr m).
Proof. intros Hm k. specialize (Hm (di_distr k)). unfold on_distr, zoom. by destruct (m (di_distr k)). Qed.
Lemma meek_on_coins {A} (m : M C A) : frames meek_in (on_coins m).
Proof. intros k. unfold on_coins, zoom. destruct (m (di_base k)). unfold meek_in. cbn. reflexivity. Qed.
Lemma meek_orPanic {A} (m : M (Distributed C) A) : frames meek_in m → frames meek_in (orPanic m).
Proof. intros Hm k. specialize (Hm k). unfold orPanic. by destruct (m k) as [[?|?|?] ?]. Qed.
Lemma meek_replaceErr {A} n (m : M (Distributed C) A) : frames meek_in m → frames meek_in (replaceErr n m).
Proof. intros Hm k. specialize (Hm k). unfold replaceErr. by destruct (m k) as [[?|?|?] ?]. Qed.

Ltac meek_in_step :=
  lazymatch goal with
  | |- frames meek_in (on_distr _) => apply meek_on_distr
  | |- frames meek_in (on_coins _) => apply meek_on_coins
  | |- frames meek_in (orPanic _) => apply meek_orPanic
  | |- frames meek_in (replaceErr _ _) => apply meek_replaceErr
  | |- _ => meek_step
  end.
Ltac meekly_in := unfold must, deref, sendFromModule; repeat meek_in_step.
#[local] Hint Resolve meek_fees meek_setAddr meek_changeType : frames.

Lemma meek_withdraw ctx t v d : frames meek_in (withdrawDelegationRewards ctx t v d).
Proof. unfold withdrawDelegationRewards. autounfold with meek. meekly_in. Qed.
Lemma meek_force v c : frames meek_in (forceWithdrawCommission v c).
Proof. unfold forceWithdrawCommission. autounfold with meek. meekly_in. Qed.
#[local] Hint Resolve meek_withdraw meek_force : frames.
Lemma meek_hook ctx t vs h : frames meek_in (distr_hook ctx t vs h).
Proof.
  destruct h; cbn [distr_hook]; unfold distr_AfterValidatorRemoved, afterValidatorRemovedForDistributionProposal; autounfold with meek; meekly_in.
Qed.
Lemma meek_commission ctx v : frames meek_in (WithdrawValidatorCommission ctx v).
Proof. unfold WithdrawValidatorCommission. autounfold with meek. meekly_in. Qed.
Lemma meek_NewHandler ctx t vs msg : frames meek_in (distr_NewHandler ctx t vs msg).
Proof.
  unfold distr_NewHandler, WithdrawValidatorCommission, WithdrawDelegationRewards, WithdrawDelegationAllRewards.
  autounfold with meek. meekly_in.
Qed.
Lemma meek_proposal ctx vs c : frames meek_in (DistributionProposalHandler ctx vs c).
Proof.
  unfold DistributionProposalHandler, HandleCommunityPoolSpendProposal, distributeFromFeePool. autounfold with meek. meekly_in.
Qed.
Lemma meek_BeginBlocker ctx vs votes p : frames meek_in (distr_BeginBlocker ctx vs votes p).
Proof. unfold distr_BeginBlocker, AllocateTokens, moduleCoins. autounfold with meek. meekly_in. Qed.

(** *** With the stores of staking and slashing *)

Definition meek_by (k k' : Slashed (Distributed C)) : Prop := meek_in (sd_base k) (sd_base k').
#[global] Instance meek_by_preorder : PreOrder meek_by.
Proof. split; [intros k; unfold meek_by; reflexivity|]. intros k1 k2 k3. unfold meek_by. apply transitivity. Qed.
Lemma meek_on_base {A} (m : M (Distributed C) A) : frames meek_in m → frames meek_by (on_base m).
Proof. intros Hm k. specialize (Hm (sd_base k)). unfold on_base, zoom. by destruct (m (sd_base k)). Qed.
Lemma meek_on_slashing {A} (m : M Slashing A) : frames meek_by (on_slashing (C := Distributed C) m).
Proof. intros k. unfold on_slashing, zoom. destruct (m (sd_slashing k)). unfold meek_by. cbn. reflexivity. Qed.
Lemma meek_call ctx t vs h : frames meek_by (sh_call (K := Slashed (Distributed C)) ctx t vs h).
Proof. cbn. apply frames_bind; [exact _|apply meek_on_base, meek_hook|intros _; apply meek_on_slashing]. Qed.
End Meek.
