(* ===== verification/DistrPays.v ===== *)
(** * Distribution: payments that return

    When the commission of a validator is paid, nothing fails: amounts are in
    range, the account of the module has the coins, and the recipient may be
    paid.  So a validator can be removed, and the registered invariant on
    withdrawals is never found broken. *)
From S2P Require Import Prelude Decimal Denom Coins Bank CoinKeeper DecStr Token Staking StakingVals StakingVotes StakingSet StakingBank Distribution DistrProps DistrKeeper DistrInv DistrHooks DistrLaws DistrOpen.
#[local] Open Scope Z_scope.

(** ** Amounts in range *)

(** A bit below the width of a number. *)
Definition below (A : list DecCoin) : Prop := ∀ d, amount_of A d < 2 ^ 314.
Lemma Add_returns A B :
  wf_coins A → wf_coins B → (∀ d, amount_of A d + amount_of B d < 2 ^ 314) → ∃ R, DecCoins_Add A B = Ok R.
Proof.
  intros HA HB Hb. destruct (DecCoins_Add_spec A B HA HB) as (R & E & _); [|eauto].
  intros d. pose proof (wf_amount_nonneg A d HA). pose proof (wf_amount_nonneg B d HB). specialize (Hb d). unfold dec_fits. lia.
Qed.
Lemma Sub_returns A B :
  wf_coins A → wf_coins B → below A → (∀ d, amount_of B d ≤ amount_of A d) → ∃ R, DecCoins_Sub A B = Ok R.
Proof.
  intros HA HB Hb Hle. destruct (DecCoins_SafeSub_spec A B HA HB) as (R & neg & E & _ & Hn & _).
  - intros d. pose proof (wf_amount_nonneg B d HB). specialize (Hb d). specialize (Hle d). unfold dec_fits. lia.
  - unfold DecCoins_Sub. rewrite E. cbn. destruct neg; [|eauto]. destruct (proj1 Hn eq_refl) as [d Hd]. specialize (Hle d). lia.
Qed.

Lemma split_returns c :
  validDenom (Denom c) = true → 0 ≤ Amount c < 2 ^ 314 → ∃ t ch, DecCoin_TruncateDecimal c = Ok (t, ch).
Proof.
  intros Hd Ha. unfold DecCoin_TruncateDecimal, Dec_TruncateInt, chopPrecisionAndTruncate.
  set (q := Z.quot (Amount c) precisionReuse).
  assert (0 ≤ q ∧ q * 10 ^ 18 ≤ Amount c) as [Hq Hle].
  { unfold q. change precisionReuse with (10 ^ 18). rewrite Z.quot_div_nonneg by lia. split; [apply Z.div_pos; lia|].
    pose proof (Z.mul_div_le (Amount c) (10 ^ 18)). lia. }
  rewrite (proj2 (NewIntFromBigInt_Ok q q)) by (split; [done|]; lia). cbn [mbind outcome_bind].
  unfold Int_ToDec. rewrite NewDecFromInt_eq. cbn [mbind outcome_bind].
  rewrite (proj2 (Dec_Sub_Ok (Amount c) (q * 10 ^ 18) _)) by (split; [done|]; unfold dec_fits; lia). cbn [mbind outcome_bind NewCoin].
  rewrite (proj2 (NewDecCoin_Ok (Denom c) q _)) by done. cbn [mbind outcome_bind].
  rewrite (proj2 (NewDecCoinFromDec_Ok (Denom c) _ _)) by (split; [done|]; split; [lia|reflexivity]). cbn. eauto.
Qed.
Lemma add_nonzero_returns A p :
  wf_coins A → 0 ≤ Amount p → (∀ d, amount_of A d + (if String.eqb (Denom p) d then Amount p else 0) < 2 ^ 314) →
  ∃ R, (if negb (DecCoin_IsZero p) then DecCoins_Add A [p] else Ok A) = Ok R.
Proof.
  intros HA Hp Hb. rewrite DecCoin_IsZero_eq. destruct (Z.eqb_spec (Amount p) 0); cbn [negb]; [eauto|].
  destruct p as [dn a]. apply Add_returns; [done|apply wf_coins_one; cbn in *; lia|]. intros d. by rewrite amount_of_one.
Qed.
Lemma splitLoop_returns coins : ∀ t ch,
  wf_coins t → wf_coins ch → Forall (λ c, validDenom (Denom c) = true ∧ 0 ≤ Amount c < 2 ^ 314) coins →
  (∀ d, amount_of t d + amount_of ch d + amount_of coins d < 2 ^ 314) →
  ∃ t' ch', DecCoins_splitLoop DecCoin_TruncateDecimal coins t ch = Ok (t', ch').
Proof.
  induction coins as [|c coins IH]; intros t ch Ht Hch Hc Hb; cbn [DecCoins_splitLoop]; [eauto|].
  apply Forall_cons in Hc as [[Hd Ha] Hc]. destruct (split_returns c Hd Ha) as (t1 & ch1 & E1). rewrite E1. cbn [mbind outcome_bind].
  apply TruncateDecimal_splits in E1 as (D1 & D2 & Hsum & P1 & P2).
  assert (∀ d, 0 ≤ amount_of coins d) as Hpos.
  { intros d. clear -Hc. induction Hc as [|c l [_ Hx] _ IHl]; [done|]. rewrite amount_of_cons. destruct (String.eqb (Denom c) d); lia. }
  assert (∀ d, 0 ≤ amount_of t d ∧ 0 ≤ amount_of ch d) as Hn by (intros d; split; by apply wf_amount_nonneg).
  setoid_rewrite amount_of_cons in Hb.
  destruct (add_nonzero_returns t t1 Ht P1) as [t2 E2].
  { intros d. rewrite D1. specialize (Hb d). specialize (Hpos d). destruct (Hn d), (String.eqb _ _); lia. }
  destruct (add_nonzero_returns ch ch1 Hch P2) as [ch2 E3].
  { intros d. rewrite D2. specialize (Hb d). specialize (Hpos d). destruct (Hn d), (String.eqb _ _); lia. }
  rewrite E2, E3. cbn [mbind outcome_bind]. apply IH; [exact (Add_nonzero_wf _ _ _ Ht P1 E2)|exact (Add_nonzero_wf _ _ _ Hch P2 E3)|done|].
  intros d. rewrite (Add_nonzero_Ok _ _ _ d E2), (Add_nonzero_Ok _ _ _ d E3), D1, D2. specialize (Hb d). destruct (String.eqb _ _); lia.
Qed.
Lemma TruncateDecimal_returns A : wf_coins A → good_denoms A → below A → ∃ t ch, DecCoins_TruncateDecimal A = Ok (t, ch).
Proof.
  intros HA Hg Hb. unfold DecCoins_TruncateDecimal. apply splitLoop_returns; [apply wf_coins_nil..| |].
  - apply Forall_forall. intros c Hc. pose proof (proj1 (Forall_forall _ _) Hg c Hc) as [Hd _].
    pose proof (proj1 (Forall_forall _ _) (proj2 HA) c Hc) as Hp. cbn in Hp. split; [done|].
    specialize (Hb (Denom c)). rewrite (amount_of_elem c A) in Hb; [lia|apply HA|done].
  - intros d. rewrite amount_of_nil. specialize (Hb d). lia.
Qed.

(** ** The keeper of coins *)

Definition good_denom (d : string) : Prop := validDenom d = true ∧ ToLower d = d.
(** What exists of a denomination is in range, and what exists has a
    denomination that the bank accepts. *)
Definition payable {C} `{CoinKeeper C} (c : C) : Prop :=
  ∀ d, ck_supply c d < 2 ^ 314 ∧ (0 < ck_supply c d → good_denom d).

(** What the module relies on when it pays: the coins are there, and they can
    be sent to an account that may be paid. *)
Class PayingLaws (C : Type) `{CoinKeeper C} := {
  law_covered (c : C) a d : ck_wf c → ck_balance c a d ≤ ck_supply c d;
  law_pays m addr a amt (c : C) :
    ck_wf c → payable c → ck_modaddr m = Some addr → addr ≠ a → ck_Blacklisted a = false →
    wf_coins amt → (∀ d, amount_of amt d ≤ ck_balance c addr d) →
    ∃ c', ck_SendCoinsFromModuleToAccount m a amt c = (Ok (), c') }.

Section Pays.
Context {C : Type} `{CoinKeeper C} `{!CoinKeeperLaws C} `{!PayingLaws C} `{StakingConfig} `{DistrConfig}.
Context (distr : string).
Hypothesis Hmod : ck_modaddr (S := C) DistrModuleName = Some distr.
Hypothesis Hblack : ck_Blacklisted (S := C) distr = true.
Implicit Types (k : Distributed C).
#[local] Abbreviation DI := (distr_inv distr).
#[local] Abbreviation held_by k d := (ck_balance (di_base k) distr d).

(** Coins that an account has are in range, and have good denominations. *)
Lemma covered_coins (c : C) a amt :
  ck_wf c → payable c → wf_coins amt → (∀ d, amount_of amt d ≤ ck_balance c a d) → below amt ∧ good_denoms amt.
Proof.
  intros Wf Hp Hw Hle. split.
  - intros d. pose proof (law_covered c a d Wf). destruct (Hp d). specialize (Hle d). lia.
  - apply Forall_forall. intros x Hx. pose proof (amount_of_elem x amt (proj1 Hw) Hx) as Ea.
    pose proof (proj1 (Forall_forall _ _) (proj2 Hw) x Hx) as Hpos. cbn in Hpos.
    apply (Hp (Denom x)). pose proof (law_covered c a (Denom x) Wf). specialize (Hle (Denom x)). lia.
Qed.

(** Where the commission of a validator goes. *)
Definition payee (v : string) k : string := default v (dt_withdrawAddrs (di_distr k) !! v).

Lemma send_returns a coins k :
  ck_wf (di_base k) → payable (di_base k) → ck_Blacklisted (S := C) a = false → wf_coins coins →
  (∀ d, amount_of coins d ≤ held_by k d) → ∃ k', sendFromModule a coins k = (Ok (), k').
Proof.
  intros Wf Hp Ha Hw Hle.
  destruct (law_pays DistrModuleName distr a coins (di_base k)) as [c' E]; try done; [congruence|].
  unfold sendFromModule, on_coins, zoom. rewrite E. eauto.
Qed.

Lemma force_returns v cm k :
  ck_wf (di_base k) → payable (di_base k) → coins_ok (di_distr k) → is_Some (dt_feePool (di_distr k)) →
  ck_Blacklisted (S := C) (payee v k) = false → wf_coins cm →
  (∀ d, pool_of (di_distr k) d + amount_of cm d ≤ held_by k d) →
  wp False (forceWithdrawCommission v cm) k (λ _ k', ∃ pool, dt_feePool (di_distr k') = Some pool ∧ wf_coins pool ∧
    ∀ d, amount_of pool d ≤ pool_of (di_distr k) d + amount_of cm d).
Proof.
  intros Wf Hp HC [pool Hpool] Hv Wcm Hle. unfold pool_of in *. rewrite Hpool in *. cbn [default from_option id] in *.
  pose proof (co_pool _ HC _ Hpool) as Wp.
  assert (∀ d, 0 ≤ amount_of pool d) as Ppos by (intros d; by apply wf_amount_nonneg).
  assert (∀ d, amount_of cm d ≤ held_by k d) as Hcm by (intros d; specialize (Hle d); specialize (Ppos d); lia).
  destruct (covered_coins _ _ _ Wf Hp Wcm Hcm) as [Hb Hg].
  destruct (TruncateDecimal_returns cm Wcm Hg Hb) as (coins & rest & Et). unfold forceWithdrawCommission.
  eapply wp_bind_run; [unfold lift; by rewrite Et|]. cbn beta iota. apply TruncateDecimal_Ok in Et as (Wc & Wr & Asum).
  assert (∀ d, 0 ≤ amount_of coins d ∧ 0 ≤ amount_of rest d) as Hpos by (intros d; split; by apply wf_amount_nonneg).
  eapply (wp_bind_mono _ _ _ _ (λ _ k1, di_base k1 = di_base k ∧ payee v k1 = payee v k ∧
    ∃ pool', dt_feePool (di_distr k1) = Some pool' ∧ wf_coins pool' ∧ ∀ d, amount_of pool' d ≤ amount_of pool d + amount_of cm d)).
  { pose proof (λ d, wf_amount_nonneg cm d Wcm) as Cpos. destruct (DecCoins_IsZero rest).
    { eapply wp_run; [reflexivity|]. split; [done|]. split; [done|]. exists pool. split; [done|]. split; [done|]. intros d. specialize (Cpos d). lia. }
    destruct (Add_returns pool rest Wp Wr) as [pool' Ep].
    { intros d. pose proof (law_covered (di_base k) distr d Wf). destruct (Hp d). specialize (Hle d). specialize (Asum d).
      destruct (Hpos d). lia. }
    unfold on_distr. eapply wp_run.
    - unfold zoom, GetFeePool, must, SetFeePool, lift. unfold mbind, M_bind. cbn. rewrite Hpool. cbn. rewrite Ep. reflexivity.
    - apply Add_wf in Ep as [Wp' Ap']; [|done..]. split; [done|]. split; [done|]. exists pool'. split; [done|]. split; [done|].
      intros d. rewrite Ap'. specialize (Asum d). destruct (Hpos d). lia. }
  intros _ k1 (Eb & Ea & Ep). destruct (DecCoins_IsZero coins); [by eapply wp_run; [reflexivity|]|].
  unfold GetDelegatorWithdrawAddr. eapply wp_bind_run; [unfold on_distr, zoom, gets; reflexivity|].
  assert (di_set_distr (di_distr k1) k1 = k1) as -> by (by destruct k1).
  destruct (send_returns (payee v k) coins k1) as [k2 E2]; [by rewrite Eb..|done|done| |].
  - intros d. rewrite Eb. specialize (Hcm d). specialize (Asum d). destruct (Hpos d). lia.
  - eapply wp_run.
    + unfold orPanic. change (default v (dt_withdrawAddrs (di_distr k1) !! v)) with (payee v k1). rewrite Ea, E2. reflexivity.
    + apply zoom_Ok in E2 as (c' & _ & ->). done.
Qed.

Lemma held_le_all (m : gmap string (list DecCoin)) v d :
  (∀ w c, m !! w = Some c → wf_coins c) → held m v d ≤ held_all m d.
Proof.
  intros Hm. assert (∀ w c, m !! w = Some c → 0 ≤ amount_of c d) as Hpos by (intros w c Hc; by eapply wf_amount_nonneg, Hm).
  unfold held, held_all. destruct (m !! v) as [c|] eqn:Hv; [|by apply map_sum_nonneg].
  exact (map_sum_ge (λ c, amount_of c d) m v c Hpos Hv).
Qed.

(** The commission of a validator is a part of what is outstanding to it. *)
Lemma commission_covered X old S dt v d :
  on_inv (λ _, 1) X old S dt → is_Some (dt_current dt !! v) → held (dt_commissions dt) v d ≤ held (dt_outstanding dt) v d.
Proof.
  intros R Hv. pose proof (oi_solvent _ _ _ _ _ R v d Hv) as Hs. pose proof (claims_nonneg R v d) as Hc.
  assert (0 ≤ pending dt v d) as Hpd.
  { unfold pending. destruct (dt_current dt !! v) as [c|] eqn:Ec; [|done].
    apply wf_amount_nonneg. by eapply (co_cur _ (oi_coins _ _ _ _ _ R)). }
  assert (0 < precisionReuse) by done. nia.
Qed.

(** A validator can be removed. *)
Lemma removed_returns X old S V ctx v k :
  live ctx (di_distr k) → DI X old S V k → is_Some (V !! v) → payable (di_base k) →
  is_Some (dt_feePool (di_distr k)) → ck_Blacklisted (S := C) (payee v k) = false →
  wp False (distr_AfterValidatorRemoved ctx v) k (λ _ _, True).
Proof.
  intros Hlive I HV Hp Hpool Hv. pose proof (dv_wf _ _ _ _ _ _ I) as Wf. pose proof (dv_records _ _ _ _ _ _ I) as R.
  pose proof (records_coins _ _ _ _ _ R) as HC. pose proof (dv_money _ _ _ _ _ _ I) as HM. unfold total in HM.
  unfold distr_AfterValidatorRemoved. eapply wp_bind_run; [reflexivity|]. cbv beta. rewrite (live_valid _ _ Hlive).
  unfold records in R. destruct (CheckInitExistedValidatorFlag (di_distr k)) eqn:Hf.
  - destruct R as [R Rv]. pose proof (proj2 (Rv v) HV) as Hc. destruct (proj1 (oi_cur _ _ _ _ _ R v) Hc) as [o Ho].
    pose proof (co_out _ HC _ _ Ho) as Wo. pose proof (λ d, commission_covered _ _ _ _ v d R Hc) as Hle.
    set (cm := default [] (dt_commissions (di_distr k) !! v)). assert (wf_coins cm) as Wcm by (apply default_wf, HC).
    assert (∀ d, amount_of cm d ≤ amount_of o d ∧ pool_of (di_distr k) d + amount_of o d ≤ held_by k d) as Hd.
    { intros d. specialize (Hle d). unfold held in Hle. rewrite Ho in Hle. cbn [default from_option id] in Hle. split; [exact Hle|].
      rewrite HM. pose proof (held_le_all (dt_outstanding (di_distr k)) v d (co_out _ HC)) as Hall. unfold held in Hall. rewrite Ho in Hall.
      cbn [default from_option id] in Hall. lia. }
    assert (∀ d, 0 ≤ pool_of (di_distr k) d) as Ppos.
    { intros d. destruct Hpool as [p Hpl]. unfold pool_of. rewrite Hpl. by apply wf_amount_nonneg, (co_pool _ HC). }
    assert (∀ d, held_by k d < 2 ^ 314) as Hfit.
    { intros d. pose proof (law_covered (di_base k) distr d Wf). destruct (Hp d). lia. }
    destruct (Sub_returns o cm Wo Wcm) as [o' Eo']; [|intros d; apply Hd|].
    { intros d. destruct (Hd d). specialize (Ppos d). specialize (Hfit d). lia. }
    assert (di_set_distr (di_distr k) k = k) as Ek by (by destruct k).
    unfold afterValidatorRemovedForDistributionProposal.
    eapply wp_bind_run; [unfold on_distr, zoom, GetValidatorOutstandingRewards, must; unfold mbind, M_bind; cbn; rewrite Ho; cbn; by rewrite Ek|].
    eapply wp_bind_run; [unfold on_distr, zoom, GetValidatorAccumulatedCommission, gets; cbn; by rewrite Ek|]. fold cm.
    eapply (wp_bind_mono _ _ _ _ (λ o2 k1, wf_coins o2 ∧ ∃ pool, dt_feePool (di_distr k1) = Some pool ∧ wf_coins pool ∧
      ∀ d, amount_of pool d + amount_of o2 d ≤ held_by k d)).
    { destruct (DecCoins_IsZero cm).
      - eapply wp_run; [reflexivity|]. split; [done|]. destruct Hpool as [p Hpl]. exists p. split; [done|]. split; [by eapply (co_pool _ HC)|].
        intros d. destruct (Hd d) as [_ H2]. unfold pool_of in H2. by rewrite Hpl in H2.
      - eapply wp_bind_run; [unfold lift; by rewrite Eo'|].
        eapply wp_bind_mono; [apply force_returns; try done; intros d; destruct (Hd d); lia|].
        intros u k1 (pool & Hpl & Wp & Ap). eapply wp_run; [reflexivity|].
        apply Sub_wf in Eo' as [Wo' Ao']; [|done..]. split; [done|]. exists pool. split; [done|]. split; [done|].
        intros d. specialize (Ap d). rewrite Ao'. destruct (Hd d). lia. }
    intros o2 k1 (Wo2 & pool & Hpl & Wp & Hs).
    destruct (Add_returns pool o2 Wp Wo2) as [pool' Ep]; [intros d; specialize (Hs d); specialize (Hfit d); lia|].
    eapply wp_run; [|done]. unfold on_distr, zoom, GetFeePool, lift. unfold mbind, M_bind. cbn. rewrite Hpl. cbn. rewrite Ep. reflexivity.
  - set (cm := default [] (dt_commissions (di_distr k) !! v)). assert (wf_coins cm) as Wcm by (apply default_wf, HC).
    assert (di_set_distr (di_distr k) k = k) as Ek by (by destruct k).
    eapply wp_bind_run; [unfold on_distr, zoom, GetValidatorAccumulatedCommission, gets; cbn; by rewrite Ek|]. fold cm.
    eapply (wp_bind_mono _ _ _ _ (λ _ _, True)); [|by intros; eapply wp_run; [reflexivity|]].
    destruct (DecCoins_IsZero cm); [by eapply wp_run; [reflexivity|]|].
    eapply wp_mono; [apply force_returns; try done|done]. intros d. rewrite HM.
    pose proof (held_le_all (dt_commissions (di_distr k)) v d (co_comm _ HC)). unfold held in *. subst cm. lia.
Qed.

(** *** The invariant on withdrawals *)

Lemma NewDecCoins_not_Err A e : NewDecCoinsFromCoins A ≠ Err e.
Proof. unfold NewDecCoinsFromCoins, NewCoins. destruct (removeZeroDecCoins A); [done|]. cbv zeta. by repeat case_match. Qed.
Lemma Sub_not_Err A B e : DecCoins_Sub A B ≠ Err e.
Proof.
  unfold DecCoins_Sub, DecCoins_SafeSub. pose proof (safeAdd_not_Err A (DecCoins_negative B)) as Hn.
  destruct (DecCoins_safeAdd A (DecCoins_negative B)) as [D|e'|p]; cbn; [by destruct (DecCoins_IsAnyNegative D)|by destruct (Hn e')|done].
Qed.

(** What a validator has as commission, the account of the module has. *)
Lemma commission_held X old S V k v d :
  DI X old S V k → is_Some (V !! v) → held (dt_commissions (di_distr k)) v d ≤ held_by k d.
Proof.
  intros I HV. pose proof (dv_records _ _ _ _ _ _ I) as R. pose proof (records_coins _ _ _ _ _ R) as HC.
  rewrite (dv_money _ _ _ _ _ _ I d). unfold total. assert (0 ≤ pool_of (di_distr k) d) as Hp.
  { unfold pool_of. destruct (dt_feePool (di_distr k)) as [p|] eqn:Ep; [|done]. by apply wf_amount_nonneg, (co_pool _ HC). }
  unfold records in R. destruct (CheckInitExistedValidatorFlag (di_distr k)).
  - destruct R as [R Rv]. pose proof (commission_covered _ _ _ _ v d R (proj2 (Rv v) HV)) as H1'.
    pose proof (held_le_all (dt_outstanding (di_distr k)) v d (co_out _ HC)). lia.
  - pose proof (held_le_all (dt_commissions (di_distr k)) v d (co_comm _ HC)). lia.
Qed.

Lemma withdrawal_not_refused X old S V ctx v k e k' :
  DI X old S V k → is_Some (V !! v) → payable (di_base k) → ck_Blacklisted (S := C) (payee v k) = false →
  DecCoins_IsZero (default [] (dt_commissions (di_distr k) !! v)) = false →
  WithdrawValidatorCommission ctx v k ≠ (Err e, k').
Proof.
  intros I HV Hp Hv Hz E. pose proof (dv_wf _ _ _ _ _ _ I) as Wf. pose proof (records_coins _ _ _ _ _ (dv_records _ _ _ _ _ _ I)) as HC.
  pose proof (λ d, commission_held _ _ _ _ _ v d I HV) as Hle. unfold held in Hle. set (cm := default [] _) in *.
  assert (wf_coins cm) as Wcm by (apply default_wf, HC). destruct (covered_coins _ _ _ Wf Hp Wcm Hle) as [Hb Hg].
  destruct (TruncateDecimal_returns cm Wcm Hg Hb) as (coins & rest & Et). pose proof Et as (Wc & Wr & Asum)%TruncateDecimal_Ok.
  unfold WithdrawValidatorCommission in E. assert (di_set_distr (di_distr k) k = k) as Ek by (by destruct k).
  rewrite (M_bind_run _ _ cm k k) in E by (unfold on_distr, zoom, GetValidatorAccumulatedCommission, gets; cbn; by rewrite Ek).
  rewrite (M_bind_run _ _ () k k) in E by (unfold guard_not; by rewrite Hz).
  rewrite (M_bind_run _ _ (coins, rest) k k) in E by (unfold lift; by rewrite Et). cbn beta iota in E.
  apply M_bind_Err in E as [E|(u1 & k1 & E1 & E)]; [done|]. unfold on_distr in E1. apply zoom_Ok in E1 as (dt1 & E1 & ->).
  unfold SetValidatorAccumulatedCommission in E1. apply modify_Ok in E1 as ->.
  apply M_bind_Err in E as [E|(b & k1 & E1 & E)]; [done|]. apply gets_Ok in E1 as [-> ->].
  apply M_bind_Err in E as [E|(u2 & k2 & E1 & E)].
  { destruct (CheckDistributionProposalValid _ _); [|done]. apply M_bind_Err in E as [E|(o & k1 & _ & E)].
    - unfold on_distr, zoom, GetValidatorOutstandingRewards, must, gets in E. unfold mbind, M_bind in E. cbn in E.
      by destruct (dt_outstanding _ !! v).
    - apply M_bind_Err in E as [E|(dc & k2 & _ & E)].
      + unfold lift in E. destruct (NewDecCoinsFromCoins coins) as [?|e'|?] eqn:En; [done|by apply NewDecCoins_not_Err in En|done].
      + apply M_bind_Err in E as [E|(l & k3 & _ & E)]; [|done].
        unfold lift in E. destruct (DecCoins_Sub o (omap id dc)) as [?|e'|?] eqn:En; [done|by apply Sub_not_Err in En|done]. }
  assert (di_base k2 = di_base k ∧ payee v k2 = payee v k) as [Eb Ep].
  { destruct (CheckDistributionProposalValid _ _); [|by apply mret_Ok in E1 as [_ ->]].
    apply M_bind_Ok in E1 as (o & k3 & E2 & E1). apply zoom_Ok in E2 as (dt2 & E2 & ->).
    unfold GetValidatorOutstandingRewards in E2. apply get_must_Ok in E2 as [_ ->].
    apply M_bind_Ok in E1 as (dc & k3 & E2 & E1). apply lift_Ok in E2 as [_ ->].
    apply M_bind_Ok in E1 as (l & k3 & E2 & E1). apply lift_Ok in E2 as [_ ->].
    apply zoom_Ok in E1 as (dt2 & E1 & ->). unfold SetValidatorOutstandingRewards in E1. by apply modify_Ok in E1 as ->. }
  apply M_bind_Err in E as [E|(u3 & k3 & _ & E)]; [|done]. destruct (DecCoins_IsZero coins); [done|].
  rewrite (M_bind_run _ _ (payee v k2) k2 k2) in E by (unfold on_distr, zoom, GetDelegatorWithdrawAddr, gets; cbn; by destruct k2).
  destruct (send_returns (payee v k2) coins k2) as [k3 E3]; [by rewrite Eb..|by rewrite Ep|done| |].
  - intros d. rewrite Eb. specialize (Hle d). specialize (Asum d). pose proof (wf_amount_nonneg rest d Wr). lia.
  - unfold replaceErr in E. by rewrite E3 in E.
Qed.

(** *** What can be paid stays so *)

Definition supply_kept k k' : Prop := ∀ d, ck_supply (di_base k') d = ck_supply (di_base k) d.
#[local] Instance supply_kept_preorder : PreOrder supply_kept.
Proof. split; [by intros k d|]. intros k1 k2 k3 E1 E2 d. by rewrite E2. Qed.
Lemma or_supply_distr {A} (m : M Distr A) : on_return supply_kept (on_distr (C := C) m).
Proof. intros k a k' (dt & _ & ->)%zoom_Ok. done. Qed.
Lemma or_supply_send a coins : on_return supply_kept (sendFromModule a coins).
Proof.
  intros k u k' (c' & E & ->)%on_base_coins_Ok. apply law_ModuleToAccount in E as (_ & m & _ & M). intros d. apply (km_supply _ _ _ _ _ M).
Qed.
#[local] Hint Resolve or_supply_distr or_supply_send : core.
Lemma or_supply_commission ctx v : on_return supply_kept (WithdrawValidatorCommission ctx v).
Proof. unfold WithdrawValidatorCommission. returns. Qed.
Lemma or_supply_removed ctx v : on_return supply_kept (distr_AfterValidatorRemoved ctx v).
Proof.
  unfold distr_AfterValidatorRemoved, afterValidatorRemovedForDistributionProposal, forceWithdrawCommission. returns.
Qed.
Lemma payable_kept k k' : supply_kept k k' → payable (di_base k) → payable (di_base k').
Proof. intros E Hp d. rewrite E. apply Hp. Qed.

(** The list of accounts that are not paid is that of the bank. *)
Hypothesis Hlisted : ∀ a, dc_blacklistedAddrs a = false → ck_Blacklisted (S := C) a = false.
Lemma payee_paid X old S V v k :
  DI X old S V k → open_books (di_distr k) → is_Some (V !! v) → ck_Blacklisted (S := C) (payee v k) = false.
Proof.
  intros I O HV. unfold payee. destruct (dt_withdrawAddrs (di_distr k) !! v) as [a|] eqn:Ha; cbn.
  - by apply Hlisted, (ob_addr _ O v).
  - by apply (dv_vals _ _ _ _ _ _ I).
Qed.

Lemma CanWithdraw_holds X old S V ctx vs k b k' :
  live ctx (di_distr k) → DI X old S V k → payable (di_base k) → open_books (di_distr k) →
  vs_validators vs = V → vals_ok V → CanWithdrawInvariant ctx vs k = (Ok b, k') → b = false.
Proof.
  intros L I Hp O EV HV. unfold CanWithdrawInvariant.
  assert (∀ v, v ∈ iterateValidators vs → is_Some (V !! Va_OperatorAddress v)) as Hall.
  { intros v Hv. apply list_elem_of_fmap in Hv as ([a w] & -> & Hw%elem_of_store_iterate). cbn. rewrite EV in Hw.
    rewrite (va_key _ HV _ _ Hw). eauto. }
  clear HV EV. revert k L I Hp O. induction (iterateValidators vs) as [|v l IH]; intros k L I Hp O; cbn [for_acc].
  { by intros [-> _]%mret_Ok. }
  intros (b1 & k1 & E1 & E)%M_bind_Ok. apply M_bind_Ok in E1 as (cm & k2 & E2 & E1).
  unfold on_distr in E2. apply zoom_Ok in E2 as (dt2 & E2 & ->). unfold GetValidatorAccumulatedCommission in E2. apply gets_Ok in E2 as [-> ->].
  assert (di_set_distr (di_distr k) k = k) as Ek by (by destruct k). rewrite Ek in E1.
  assert (is_Some (V !! Va_OperatorAddress v)) as Hv by (apply Hall; by left).
  assert (∀ w, w ∈ l → is_Some (V !! Va_OperatorAddress w)) as Hl by (intros w Hw; apply Hall; by right).
  destruct (DecCoins_IsZero _) eqn:Hz; [apply mret_Ok in E1 as [-> ->]; by apply (IH Hl k)|].
  destruct (WithdrawValidatorCommission ctx (Va_OperatorAddress v) k) as [[cs|e|p] k3] eqn:Ew; [| |done].
  - injection E1 as <- <-. destruct (inv_commission distr Hmod Hblack _ _ _ _ _ _ _ _ _ L I Ew) as [I1 D1].
    apply (IH Hl k3); [by eapply live_steady|done| | |done].
    + eapply payable_kept; [exact (or_supply_commission _ _ _ _ _ Ew)|done].
    + eapply meek_open; [exact (frames_run _ _ _ _ _ (meek_commission _ _) Ew)|done].
  - exfalso. eapply withdrawal_not_refused; [exact I|exact Hv|done|by eapply payee_paid|exact Hz|exact Ew].
Qed.
End Pays.

(** ** The bank *)

Section Bank_.
Context {cfg : BankConfig}.

Lemma balance_le_supply s a d : bank_inv s → balance s a d ≤ supply_of s d.
Proof.
  intros [Hw Hs]. rewrite Hs. unfold total_of. rewrite <- balance_at_key. set (f := λ acc, amount_of (AccCoins acc) d).
  assert (∀ k v, accounts s !! k = Some v → 0 ≤ f v) as Hpos by (intros k v Hv; apply wf_amount_nonneg; by apply (Hw k)).
  destruct (accounts s !! a) as [acc|] eqn:Ha; cbn; [by apply (map_sum_ge f _ a)|by apply map_sum_nonneg].
Qed.

Lemma sound_paying_laws : PayingLaws (H := sound_coin_keeper) Bank.
Proof.
  assert (∀ (c : Bank) a d, bank_sound c → balance c a d ≤ supply_of c d) as Hcov
    by (intros c a d [I _ _ _]; by apply balance_le_supply).
  split; [exact Hcov|]. intros m addr a amt c Wf Hp Hm Hne Hb Hw Hle. cbn in *.
  unfold SendCoinsFromModuleToAccount, guard_not. rewrite Hb, Hm. unfold mbind, M_bind. cbn.
  assert (∀ b coins, wf_coins coins → (∀ d, amount_of coins d ≤ balance c b d) → good_denoms coins) as Hgood.
  { intros b coins Hwc Hlec. apply Forall_forall. intros x Hx. apply (Hp (Denom x)).
    pose proof (amount_of_elem x coins (proj1 Hwc) Hx) as Ea. pose proof (proj1 (Forall_forall _ _) (proj2 Hwc) x Hx) as Hpos. cbn in Hpos.
    pose proof (Hcov c b (Denom x) Wf). specialize (Hlec (Denom x)). cbn. lia. }
  destruct (sound_SendCoins_returns addr a amt c) as (c' & E & _); [done| |done|done|by eapply Hgood|done|eauto].
  split; [|intros d; apply Hp]. intros b acc Hacc. destruct Wf as [[Hbw _] _ _ _]. split; [by apply (Hbw b)|].
  apply (Hgood b); [by apply (Hbw b)|]. intros d. by rewrite (balance_Some _ _ _ _ Hacc).
Qed.
End Bank_.
