(* ===== verification/DistrRun.v ===== *)
(** * Distribution: blocks

    The chain of blocks with staking, penalties and distribution together:
    the fees of a block are allocated at its start, messages of the three
    modules and proposals follow, and the validator set changes at its end.
    The account of the module holds what its records promise, at every
    moment. *)
From S2P Require Import Prelude Decimal Denom Coins Bank CoinKeeper DecStr Token Staking StakingVals StakingVotes StakingProps StakingMsgs StakingFrame StakingSet StakingElect StakingEnd StakingRun Slashing SlashingProps Distribution DistrProps DistrKeeper DistrInv DistrHooks DistrLaws DistrStaking DistrMsgs DistrEnd DistrOpen.
#[local] Open Scope Z_scope.

Section Chain.
Context {C : Type} `{CoinKeeper C} `{!CoinKeeperLaws C} `{!DelegationKeeper C} `{!DelegationKeeperLaws C}.
Context `{cfgS : StakingConfig} `{DistrConfig} `{wbS : !WindowBound}.
Context (bonded notBonded distr fee : string).
(** The accounts of the modules are different ones, to which the bank does
    not pay; the module has the same list of accounts that are not paid. *)
Record accounts_ok : Prop := {
  ac_distr : ck_modaddr (S := C) DistrModuleName = Some distr;
  ac_bonded : ck_modaddr (S := C) BondedPoolName = Some bonded;
  ac_notBonded : ck_modaddr (S := C) NotBondedPoolName = Some notBonded;
  ac_fee : ck_modaddr (S := C) dc_feeCollectorName = Some fee;
  ac_distinct : NoDup [bonded; notBonded; distr; fee];
  ac_black a : a ∈ [bonded; notBonded; distr] → ck_Blacklisted (S := C) a = true;
  ac_listed a : dc_blacklistedAddrs a = false → ck_Blacklisted (S := C) a = false }.
Context (Hac : accounts_ok) (Hw : weights_ok).
#[local] Abbreviation K := (Slashed (Distributed C)).
Implicit Types (s : StakingState K) (k : Distributed C).

Lemma accounts_ne :
  bonded ≠ notBonded ∧ distr ≠ bonded ∧ distr ≠ notBonded ∧ fee ≠ bonded ∧ fee ≠ notBonded ∧ fee ≠ distr.
Proof using Hac. clear Hw. pose proof (ac_distinct Hac) as Hnd. clear CoinKeeperLaws0 DelegationKeeper0 DelegationKeeperLaws0. rewrite !NoDup_cons in Hnd. set_solver. Qed.
#[local] Instance chain_laws : StakingLaws (Distributed C) bonded notBonded.
Proof using -(Hw).
  clear Hw. destruct accounts_ne as (? & ? & ? & _). apply (distributed_staking_laws _ _ distr); try apply Hac; try done; set_solver.
Qed.

Definition set_dist k s : StakingState K := sg_set_k (sd_set_base k (sg_k s)) s.

(** ** Blocks *)

(** Other modules leave the stores of the three and the accounts of the pools
    and of this module alone. *)
Definition distr_other s s' : Prop :=
  ∃ c', keeps bonded notBonded (di_base (dist s)) c' ∧
    (∀ d, ck_balance c' distr d = ck_balance (di_base (dist s)) distr d) ∧
    s' = set_dist (di_set_base c' (dist s)) s.

(** What happens within a block: messages, proposals of the module, changes of
    the parameters of the three modules to values that they accept, and what
    other modules do. *)
Inductive distr_step (ctx : Ctx) : Z → StakingState K → StakingState K → Prop :=
  | ds_staking h msg s s' :
      outsider (K := K) bonded notBonded (staking_signer msg) → staking_deliver h ctx msg s = (Ok (), s') →
      distr_step ctx (stranded msg s) s s'
  | ds_unjail a s s' : handleMsgUnjail ctx a s = (Ok (), s') → distr_step ctx 0 s s'
  | ds_distr msg s k' :
      distr_NewHandler ctx (sg_stakes s) (sg_vals s) msg (dist s) = (Ok (), k') → distr_step ctx 0 s (set_dist k' s)
  | ds_proposal c s k' :
      DistributionProposalHandler ctx (sg_vals s) c (dist s) = (Ok (), k') → distr_step ctx 0 s (set_dist k' s)
  | ds_params sp lp s : params_inv sp → slashing_params_ok lp → distr_step ctx 0 s (set_params sp lp s)
  | ds_distr_params p s :
      DistrParams_ValidateBasic p = Ok () →
      distr_step ctx 0 s (set_dist (di_set_distr (dt_set_params p (di_distr (dist s))) (dist s)) s)
  | ds_other s s' : distr_other s s' → distr_step ctx 0 s s'.
Inductive distr_steps (ctx : Ctx) : Z → StakingState K → StakingState K → Prop :=
  | dss_nil s : distr_steps ctx 0 s s
  | dss_cons x y s s1 s' : distr_step ctx x s s1 → distr_steps ctx y s1 s' → distr_steps ctx (x + y) s s'.

(** The state of the chain: the height, the set of the consensus engine, the
    coins that the pool of undelegations holds without an owner, the
    stores. *)
Record chain_state := mkChain {
  cs_height : Z; cs_engine : gmap PubKey Z; cs_lost : Z; cs_stores : StakingState K }.
(** A block until its end: other modules, the fees, the votes on the block
    before, which are of validators that have not finished unbonding, other
    modules, the evidence; then the steps. *)
Inductive distr_begun (ctx : Ctx) : Z → StakingState K → StakingState K → Prop :=
  | db_begun votes proposer maxAge evidence x s s0 k0 s1 s1' s2 s3 :
      (∀ v, v ∈ votes → voter_ok (Vt_Address v) s) →
      distr_other s s0 →
      distr_BeginBlocker ctx (sg_vals s0) votes proposer (dist s0) = (Ok (), k0) →
      slashing_BeginBlocker ctx votes (set_dist k0 s0) = (Ok (), s1) →
      distr_other s1 s1' →
      evidence_BeginBlocker ctx maxAge evidence s1' = (Ok (), s2) →
      distr_steps ctx x s2 s3 →
      distr_begun ctx x s s3.
Inductive distr_block : chain_state → chain_state → Prop :=
  | db_block ctx E lost x us s s3 s4 :
      distr_begun ctx x s s3 → staking_EndBlocker ctx s3 = (Ok us, s4) →
      distr_block (mkChain (BlockHeight ctx - 1) E lost s) (mkChain (BlockHeight ctx) (engine_apply E us) (lost + x) s4).

(** Between blocks. *)
Record rewards_inv (height : Z) s : Prop := {
  rw_live : CheckInitExistedValidatorFlag (di_distr (dist s)) = true → HigherThanVenus2 height = true;
  rw_inv : ∃ old, distr_inv distr ∅ old (st_shares (sg_stakes s)) (vs_validators (sg_vals s)) (dist s);
  rw_open : open_books (di_distr (dist s)) }.
Definition chain_ok (x : chain_state) : Prop :=
  chain_inv bonded notBonded (cs_engine x) (cs_lost x) (cs_stores x) ∧ rewards_inv (cs_height x) (cs_stores x).

Lemma rewards_joint ctx s :
  joint distr ∅ ctx s → open_books (di_distr (dist s)) → rewards_inv (BlockHeight ctx) s.
Proof. intros [L J] O. by split. Qed.
Lemma later_upgrade h : HigherThanVenus2 (h - 1) = true → HigherThanVenus2 h = true.
Proof. unfold HigherThanVenus2. destruct (_ =? 0); [done|]. rewrite !Z.geb_leb, !Z.leb_le. lia. Qed.

(** ** What a step keeps *)

#[local] Abbreviation SI E B := (staking_inv (K := K) (bansS := B) (engS := E) bonded notBonded).

Lemma SI_keyed E B lost s : SI E B lost s → keyed s.
Proof. intros I a v Hv. exact (val_key _ _ _ _ _ _ I Hv). Qed.

Lemma step_staking ctx x s s' : distr_step ctx x s s' → block_step bonded notBonded ctx x s s'.
Proof.
  destruct accounts_ne as (Hne & Hdb & Hdn & Hfb & Hfn & _).
  assert (∀ t k', pools_kept bonded notBonded (dist t) k' → block_step bonded notBonded ctx 0 t (set_dist k' t)) as Hk.
  { intros t k' [W B N]. apply bs_other. exists k'. split; [by split|done]. }
  assert (ck_Blacklisted (S := C) bonded = true ∧ ck_Blacklisted (S := C) notBonded = true) as [Bb Bn]
    by (split; apply (ac_black Hac); set_solver).
  intros [h msg t t' Ho Hr|a t t' Hr|msg t k' Hr|c t k' Hr|sp lp t Hsp Hlp|p t Hp|t t' (c' & Hc & Hb & ->)].
  - by eapply bs_staking.
  - by eapply bs_unjail.
  - apply Hk. exact (or_NewHandler bonded notBonded distr (ac_distr Hac) Hdb Hdn Bb Bn _ _ _ _ _ _ _ Hr).
  - apply Hk. exact (or_proposal bonded notBonded distr (ac_distr Hac) Hdb Hdn Bb Bn _ _ _ _ _ _ Hr).
  - by apply bs_params.
  - apply Hk. unfold pools_kept. reflexivity.
  - apply Hk. exact Hc.
Qed.

Lemma other_quiet s s' : distr_other s s' → quiet distr s s'.
Proof. intros (c' & [W _ _] & Hb & ->). by split. Qed.
Lemma other_elsewhere s s' : distr_other s s' → elsewhere bonded notBonded s s'.
Proof. intros (c' & [W B N] & _ & ->). exists (di_set_base c' (dist s)). split; [by split|done]. Qed.
Lemma other_refl s : distr_other s s.
Proof. exists (di_base (dist s)). split; [reflexivity|]. split; [done|]. by destruct s as [[[]]]. Qed.
Lemma quiet_rewards h s s' : quiet distr s s' → rewards_inv h s → rewards_inv h s'.
Proof.
  intros [A B Cb D E] [L [old I] O]. split; [by rewrite A| |by rewrite A]. exists old. rewrite D. by eapply DI_calm.
Qed.

Lemma step_joint ctx E B lost x s s' :
  distr_step ctx x s s' → SI E B lost s → joint distr ∅ ctx s → joint distr ∅ ctx s'.
Proof.
  destruct accounts_ne as (Hne & Hdb & Hdn & Hfb & Hfn & _). pose proof (ac_distr Hac) as Hmod.
  assert (ck_Blacklisted (S := C) distr = true) as Hblack by (apply (ac_black Hac); set_solver).
  intros [h msg t t' Ho Hr|a t t' Hr|msg t k' Hr|c t k' Hr|sp lp t Hsp Hlp|p t Hp|t t' Hk] I J.
  - by eapply (joint_deliver bonded notBonded distr Hw Hmod Hblack Hdb Hdn).
  - apply (or_handleMsgUnjail distr) in Hr. eapply (joint_quiet distr); [|exact J]. by apply Hr, (SI_keyed E B lost).
  - destruct J as [L [old J]].
    eapply (inv_distr_NewHandler distr Hmod Hblack old) in Hr as [J' D']; [|exact L|exact J|exact (votes_stakes_ok _ _ (sv_votes _ _ _ _ I))|done].
    split; [by eapply live_steady|by exists old].
  - destruct J as [L [old J]].
    eapply (inv_proposal distr Hmod Hblack old) in Hr as (old' & J' & L'); [|exact L|exact J|exact (votes_stakes_ok _ _ (sv_votes _ _ _ _ I))|done|].
    + split; [done|by exists old'].
    + intros p z Hp. split; [exact (Z.lt_le_incl _ _ (votes_nonneg _ _ _ _ _ (sv_votes _ _ _ _ I) Hp))|].
      exact (votes_on_vals _ _ _ _ _ (sv_votes _ _ _ _ I) Hp).
  - eapply (joint_quiet distr); [|exact J]. done.
  - destruct J as [L [old J]]. split; [exact L|]. exists old. apply (inv_books distr); [exact J|done|].
    intros _. unfold DistrParams_ValidateBasic, Dec_GT in Hp. unfold GetCommunityTax. cbn.
    destruct (Dec_IsNegative _); [done|]. cbn in Hp. destruct (Z.ltb_spec OneDec (Dp_CommunityTax p)); [|done].
    rewrite (proj2 (Z.gtb_lt _ _)) in Hp by lia. done.
  - eapply (joint_quiet distr); [|exact J]. by apply other_quiet.
Qed.

(** The addresses of rewards stay in order. *)
Lemma step_meek ctx E B lost x s s' :
  distr_step ctx x s s' → SI E B lost s → meek (di_distr (dist s)) (di_distr (dist s')).
Proof.
  intros [h msg t t' Ho Hr|a t t' Hr|msg t k' Hr|c t k' Hr|sp lp t Hsp Hlp|p t Hp|t t' Hk] I.
  - assert (frames (behind_k (meek_by (C := C)) anything) (staking_deliver h ctx msg)) as F.
    { unfold staking_deliver. apply (fr_ValidateDeliver meek_by every_hook);
        intros; first [done|apply meek_call|apply meek_on_base, meek_on_coins]. }
    exact (be_k _ _ _ _ _ _ (frames_run _ _ _ _ _ F Hr)).
  - apply (or_handleMsgUnjail distr) in Hr. destruct (Hr (SI_keyed _ _ _ _ I)) as [T _]. by rewrite (qu_distr _ _ _ (tu_quiet _ _ _ T)).
  - exact (frames_run _ _ _ _ _ (meek_NewHandler _ _ _ _) Hr).
  - exact (frames_run _ _ _ _ _ (meek_proposal _ _ _) Hr).
  - reflexivity.
  - split; cbn; auto.
  - by rewrite (qu_distr _ _ _ (other_quiet _ _ Hk)).
Qed.

Lemma steps_ok ctx E B x s s' :
  distr_steps ctx x s s' → ∀ lost, in_block bonded notBonded E B lost s → (∀ c, @banned B c → blocked ctx (slashing_of s) c) →
  joint distr ∅ ctx s →
  in_block bonded notBonded E B (lost + x) s' ∧ joint distr ∅ ctx s' ∧ meek (di_distr (dist s)) (di_distr (dist s')).
Proof.
  induction 1 as [s|x y s s1 s' Hs _ IH]; intros lost I Hb J; [by rewrite Z.add_0_r|].
  pose proof (step_meek _ _ _ _ _ _ _ Hs (ib_inv _ _ _ _ _ _ I)) as M1.
  pose proof (step_joint _ _ _ _ _ _ _ Hs (ib_inv _ _ _ _ _ _ I) J) as J1. apply step_staking in Hs.
  destruct (staking_step_inv bonded notBonded Hw _ _ _ _ _ _ _ Hs I Hb) as [I1 Hb1]. rewrite Z.add_assoc.
  destruct (IH _ I1 Hb1 J1) as (I' & J' & M'). split; [done|]. split; [done|]. by etransitivity.
Qed.

(** The start of a block: fees are allocated first. *)
Lemma begin_ok ctx votes proposer E lost s k0 :
  chain_inv bonded notBonded E lost s → rewards_inv (BlockHeight ctx - 1) s →
  distr_BeginBlocker ctx (sg_vals s) votes proposer (dist s) = (Ok (), k0) →
  chain_inv bonded notBonded E lost (set_dist k0 s) ∧ joint distr ∅ ctx (set_dist k0 s).
Proof.
  destruct accounts_ne as (Hne & Hdb & Hdn & Hfb & Hfn & Hfd). intros [I Ha Hl] [L [old J] O] Hr.
  assert (live ctx (di_distr (dist s))) as Lv by (intros Hf; by apply later_upgrade, L).
  split; [|].
  - apply (or_BeginBlocker bonded notBonded distr (ac_distr Hac) Hdb Hdn fee) in Hr as [W B N]; [|apply Hac|done|done].
    split; [|done|done]. destruct I as [[M1 M2 M3] U P V Pa Ls]. split; try done. split; cbn.
    + exact (W M1).
    + cbn in B. rewrite B. exact M2.
    + cbn in N. rewrite N. exact M3.
  - eapply (inv_BeginBlocker distr (ac_distr Hac) fee (ac_fee Hac) Hfd ∅ old) in Hr as [J' D']; [|done|exact (votes_vals_ok _ _ _ (sv_votes _ _ _ _ I))|exact Lv|exact J].
    split; [by eapply live_steady|by exists old].
Qed.

(** Before the end of a block. *)
Lemma begun_ok ctx E lost x s s' :
  chain_inv bonded notBonded E lost s → rewards_inv (BlockHeight ctx - 1) s → distr_begun ctx x s s' →
  ∃ B, in_block bonded notBonded E B (lost + x) s' ∧ joint distr ∅ ctx s' ∧ open_books (di_distr (dist s')).
Proof.
  intros I R Hb. revert I R. destruct Hb as [votes proposer maxAge evidence y t t0 k0 t1 t1' t2 t3 Hv Ho H0' H1 Hk H2 Hs]. intros I R.
  pose proof (elsewhere_chain bonded notBonded _ _ _ _ I (other_elsewhere _ _ Ho)) as It.
  pose proof (quiet_rewards _ _ _ (other_quiet _ _ Ho) R) as Rt.
  destruct (begin_ok _ _ _ _ _ _ _ It Rt H0') as [I0 J0].
  assert (∀ v, v ∈ votes → voter_ok (Vt_Address v) (set_dist k0 t0)) as Hv0.
  { intros v Hin. apply (elsewhere_voter bonded notBonded _ _ _ (other_elsewhere _ _ Ho) (Hv v Hin)). }
  pose proof (begin_inv bonded notBonded _ _ _ _ _ _ _ _ _ _ _ _ I0 Hv0 H1 (other_elsewhere _ _ Hk) H2) as I2.
  assert (joint distr ∅ ctx t2 ∧ open_books (di_distr (dist t2))) as [J2 O2].
  { apply (or_slashing_BeginBlocker distr) in H1. apply (or_evidence_BeginBlocker distr) in H2.
    destruct (H1 (SI_keyed _ _ _ _ (ch_inv _ _ _ _ _ I0))) as [T1 K1].
    assert (keyed t1') as K1'. { destruct (elsewhere_slashing bonded notBonded _ _ (other_elsewhere _ _ Hk)) as [_ Ev]. unfold keyed. by rewrite Ev. }
    destruct (H2 K1') as [T2 _].
    assert (quiet distr (set_dist k0 t0) t2) as Q by (etransitivity; [apply T1|]; etransitivity; [by apply other_quiet|apply T2]).
    split; [by eapply (joint_quiet distr)|]. rewrite (qu_distr _ _ _ Q). eapply meek_open; [|exact (rw_open _ _ Rt)].
    exact (frames_run _ _ _ _ _ (meek_BeginBlocker _ _ _ _) H0'). }
  exists (blocked ctx (slashing_of t2)). destruct (steps_ok _ _ _ _ _ _ Hs _ I2) as (I3 & J3 & M3); [done|done|].
  split; [done|]. split; [done|]. by eapply meek_open.
Qed.
Lemma block_ok x x' : distr_block x x' → chain_ok x → chain_ok x'.
Proof.
  intros [ctx E lost y us s s3 s4 Hs He] [I R]. cbn in I, R.
  destruct (begun_ok _ _ _ _ _ _ I R Hs) as (B & I3 & J3 & O3).
  split; cbn; [exact (proj2 (end_inv bonded notBonded _ _ _ _ _ _ _ I3 He))|]. apply rewards_joint.
  2:{ eapply meek_open; [|exact O3]. assert (frames (behind_k (meek_by (C := C)) anything) (staking_EndBlocker ctx)) as F
        by (apply (fr_EndBlocker meek_by every_hook); intros; first [done|apply meek_call|apply meek_on_base, meek_on_coins]).
      exact (be_k _ _ _ _ _ _ (frames_run _ _ _ _ _ F He)). }
  destruct accounts_ne as (Hne & Hdb & Hdn & Hfb & Hfn & Hfd).
  eapply (joint_EndBlocker bonded notBonded distr (ac_distr Hac)); [|exact Hdn|exact (ib_inv _ _ _ _ _ _ I3)|exact J3|exact He].
  apply (ac_black Hac). set_solver.
Qed.
Lemma chain_run_ok x x' : rtc distr_block x x' → chain_ok x → chain_ok x'.
Proof. induction 1; [done|]. eauto using block_ok. Qed.
End Chain.
