(* ===== verification/DistrReturns.v ===== *)
(** * Distribution: blocks that end

    With the bank behind the keepers, the end of a block returns, although the
    hook of this module for validators that are removed pays coins and panics
    when it cannot: on a chain in order it can.  So undelegations that are due
    are paid. *)
From S2P Require Import Prelude Decimal Denom Coins Bank CoinKeeper DecStr Token Staking StakingVals StakingVotes StakingProps StakingMsgs StakingFrame StakingSet StakingElect StakingEnd StakingRun StakingBank Slashing SlashingProps Distribution DistrProps DistrKeeper DistrInv DistrHooks DistrLaws DistrStaking DistrMsgs DistrEnd DistrOpen DistrPays DistrRun.
#[local] Open Scope Z_scope.

(** The code that a validator who has unbonded is removed with. *)
Lemma unbond_k {K} `{!StakingHooks K} `{StakingConfig} ctx a (s : StakingState K) u s' :
  unbondMature ctx a s = (Ok u, s') →
  sg_k s' = sg_k s ∨
  ∃ t vs c b u', sh_call ctx t vs (AfterValidatorRemoved c b) (sg_k s) = (Ok u', sg_k s').
Proof.
  unfold unbondMature. intros (o & s1 & H1 & H2)%M_bind_Ok. apply gets_Ok in H1 as [-> ->].
  destruct (_ !! a) as [v|]; [|by apply panic_Ok in H2].
  apply M_bind_Ok in H2 as (u1 & s1 & H1 & H2). apply panic_if_Ok in H1 as [_ ->].
  apply M_bind_Ok in H2 as (w & s1 & H1 & H2). unfold unbondingToUnbonded, completeUnbondingValidator in H1.
  apply M_bind_Ok in H1 as (u2 & s2 & H3 & H1). apply panic_if_Ok in H3 as [_ ->].
  apply M_bind_Ok in H1 as (u3 & s2 & H3 & H1). apply mret_Ok in H1 as [-> ->].
  assert (sg_k s2 = sg_k s) as <- by (clear H2; st_inv; done). clear H3.
  destruct (_ && _); [|apply mret_Ok in H2 as [_ ->]; by left]. unfold RemoveValidator in H2.
  apply M_bind_Ok in H2 as (o & s1 & H1 & H2). apply gets_Ok in H1 as [-> ->].
  destruct (_ !! _) as [x|]; [|apply mret_Ok in H2 as [_ ->]; by left].
  apply M_bind_Ok in H2 as (u4 & s1 & H1 & H2). apply panic_if_Ok in H1 as [_ ->].
  apply M_bind_Ok in H2 as (u5 & s1 & H1 & H2). apply panic_if_Ok in H1 as [_ ->].
  apply M_bind_Ok in H2 as (u6 & s1 & H1 & H2). apply M_bind_Ok in H2 as (u7 & s3 & H3 & H2).
  apply M_bind_Ok in H2 as (u8 & s4 & H4 & H2). assert (sg_k s4 = sg_k s2) as <- by (clear H2; st_inv; done).
  unfold call_hook, on_keeper in H2. apply zoom_Ok in H2 as (k' & E & ->). right. eauto 10.
Qed.

Section Returns.
Context {cfg : BankConfig} `{cfgS : StakingConfig} `{DistrConfig} `{wbS : !WindowBound}.
#[local] Existing Instance sound_coin_keeper.
#[local] Existing Instance sound_delegation_keeper.
#[local] Existing Instance sound_coin_laws.
#[local] Existing Instance sound_delegation_laws.
#[local] Existing Instance sound_paying_laws.
Context (bonded notBonded distr fee : string).
Context (Hac : accounts_ok (C := Bank) bonded notBonded distr fee).
#[local] Abbreviation K := (Slashed (Distributed Bank)).
#[local] Abbreviation bank_of s := (di_base (dist s)).
Implicit Types (s : StakingState K).

(** ** What nobody loses *)

(** Accounts stay, and the balances of those that are not of the modules do
    not fall. *)
Definition unharmed (c c' : Bank) : Prop :=
  roles_kept c c' ∧ ∀ x d, x ∉ [bonded; notBonded; distr] → balance c x d ≤ balance c' x d.
#[local] Instance unharmed_preorder : PreOrder unharmed.
Proof.
  split; [split; [reflexivity|done]|]. intros c1 c2 c3 [A1 B1] [A2 B2]. split; [by etransitivity|].
  intros x d Hx. etransitivity; [by apply B1|by apply B2].
Qed.
Definition unharmed_in (k k' : Distributed Bank) : Prop := unharmed (di_base k) (di_base k').
#[local] Instance unharmed_in_preorder : PreOrder unharmed_in.
Proof. split; [intros k; unfold unharmed_in; reflexivity|]. intros k1 k2 k3. unfold unharmed_in. apply transitivity. Qed.
Definition unharmed_by (k k' : K) : Prop := unharmed_in (sd_base k) (sd_base k').
#[local] Instance unharmed_by_preorder : PreOrder unharmed_by.
Proof. split; [intros k; unfold unharmed_by; reflexivity|]. intros k1 k2 k3. unfold unharmed_by. apply transitivity. Qed.

Lemma unharmed_move (c c' : Bank) a b amt :
  kmove c c' a b amt → a ∈ [bonded; notBonded; distr] → roles_kept c c' → unharmed c c'.
Proof.
  intros M Ha Hr. split; [done|]. intros x d Hx. pose proof (km_balance _ _ _ _ _ M x d) as Hb. cbn in Hb. rewrite Hb.
  pose proof (wf_amount_nonneg amt d (km_amt _ _ _ _ _ M)). unfold at_addr. rewrite (decide_False (P := x = a)) by congruence.
  case_decide; lia.
Qed.
Lemma or_unharmed_send a coins : on_return unharmed_in (sendFromModule a coins).
Proof.
  intros k u k' (c' & E & ->)%on_base_coins_Ok. pose proof E as (_ & m & Hm & M)%law_ModuleToAccount.
  rewrite (ac_distr _ _ _ _ Hac) in Hm. injection Hm as <-. unfold unharmed_in. cbn. eapply unharmed_move; [exact M|set_solver|].
  cbn in E. apply SendCoinsFromModuleToAccount_effect in E as (addr & _ & E & _). by eapply roles_SendCoins.
Qed.
Lemma or_unharmed_distr {A} (m : M Distr A) : on_return unharmed_in (on_distr m).
Proof. intros k a k' (dt & _ & ->)%zoom_Ok. unfold unharmed_in. cbn. reflexivity. Qed.
#[local] Hint Resolve or_unharmed_distr or_unharmed_send : core.
Lemma or_unharmed_removed ctx v : on_return unharmed_in (distr_AfterValidatorRemoved ctx v).
Proof.
  unfold distr_AfterValidatorRemoved, afterValidatorRemovedForDistributionProposal, forceWithdrawCommission. returns.
Qed.

(** ** Payments of undelegations *)

Lemma pay_unharmed a q (k : K) r k' :
  ck_wf k → outsider (K := K) bonded notBonded a → 0 < q →
  ck_UndelegateCoinsFromModuleToAccount NotBondedPoolName a [mkDecCoin DefaultBondDenom q] k = (r, k') →
  is_panic r = false → unharmed_by k k'.
Proof.
  intros Wf (_ & Hne & _) Hq E Hr. pose proof (ac_notBonded _ _ _ _ Hac) as Hn.
  assert (roles_kept (di_base (sd_base k)) (di_base (sd_base k'))) as Hroles.
  { pose proof (frames_roles_undelegate NotBondedPoolName a [mkDecCoin DefaultBondDenom q] (di_base (sd_base k))) as Hf.
    cbn in E. unfold on_base, on_coins, zoom in E.
    destruct (UndelegateCoinsFromModuleToAccount _ a _ (di_base (sd_base k))) as [r' c']. injection E as _ <-. exact Hf. }
  destruct r as [[]|e|p]; [| |done].
  - apply law_Undelegate in E as (addr & Ha & M); [|done|cbn in *; congruence]. cbn in Ha, Hn. rewrite Hn in Ha. injection Ha as <-.
    apply (unharmed_move _ _ notBonded a [mkDecCoin DefaultBondDenom q]); [|set_solver|done]. by destruct M; split.
  - apply law_Undelegate_refused in E as [_ B]. split; [done|]. intros x d _. specialize (B x d). cbn in B. cbn. lia.
Qed.
Lemma pay_returns a q (k : K) :
  ck_wf k → outsider (K := K) bonded notBonded a → 0 < q ≤ ck_balance k notBonded DefaultBondDenom →
  is_panic (ck_UndelegateCoinsFromModuleToAccount NotBondedPoolName a [mkDecCoin DefaultBondDenom q] k).1 = false.
Proof.
  intros Wf (_ & Hne & _) Hq. cbn in *. unfold on_base, on_coins, zoom.
  pose proof (sound_pays a q (di_base (sd_base k)) notBonded Wf (ac_notBonded _ _ _ _ Hac) Hne Hq) as Hp. cbn zeta in Hp.
  destruct (UndelegateCoinsFromModuleToAccount _ a _ (di_base (sd_base k))) as [r c]. cbn in *.
  destruct (accounts (di_base (sd_base k)) !! a); [by destruct r|by rewrite Hp].
Qed.

(** ** Hooks *)

#[local] Instance returns_laws : StakingLaws (Distributed Bank) bonded notBonded.
Proof. exact (chain_laws bonded notBonded distr fee Hac). Qed.

(** The hooks of the slashing module return. *)
Lemma slashing_hook_returns ctx vs h (l : Slashing) :
  match h with AfterValidatorBonded _ _ | AfterValidatorBeginUnbonding _ _ | AfterValidatorRemoved _ _ => True | _ => False end →
  is_ok (slashing_hook ctx vs h l).1 = true.
Proof.
  destruct h; try done; intros _; cbn [slashing_hook]; unfold GetValidatorSigningInfo, gets, deleteAddrPubkeyRelation,
    modifyValidatorStatus, SetValidatorSigningInfo, modify; unfold mbind, M_bind; cbn;
    by destruct (ls_infos l !! consAddr).
Qed.
(** A hook of both modules, when the one of distribution returns. *)
Lemma hook_returns ctx t vs h (k : K) :
  match h with AfterValidatorBonded _ _ | AfterValidatorBeginUnbonding _ _ | AfterValidatorRemoved _ _ => True | _ => False end →
  wp False (distr_hook ctx t vs h) (sd_base k) (λ _ _, True) →
  wp False (sh_call ctx t vs h) k (λ _ k', keeps bonded notBonded k k').
Proof.
  intros Hh Hd. pose proof (hooks_partial (K := K) bonded notBonded ctx t vs h k) as Hp. unfold wp in *.
  pose proof (slashing_hook_returns ctx vs h (sd_slashing k) Hh) as Hs.
  assert (is_ok (sh_call ctx t vs h k).1 = true) as Hok.
  { cbn. unfold on_base, on_slashing, zoom. unfold mbind, M_bind. destruct (distr_hook ctx t vs h (sd_base k)) as [[u|e|p] c]; [|done..].
    cbn. by destruct (slashing_hook ctx vs h (sd_slashing k)) as [[?|?|?] ?]. }
  by destruct (sh_call ctx t vs h k) as [[?|?|?] ?].
Qed.
Lemma set_hook_returns ctx t vs h (k : K) :
  set_hook h = true → ck_wf k → wp False (sh_call ctx t vs h) k (λ _ k', keeps bonded notBonded k k').
Proof. intros Hh _. apply hook_returns; [by destruct h|]. destruct h; by try done. Qed.

(** ** The end of a block *)

(** What holds while validators that have unbonded are worked off. *)
Record ending (ctx : Ctx) s0 s : Prop := {
  eg_maturing : maturing distr ctx (sg_stakes s0) s;
  eg_payable : payable (bank_of s);
  eg_open : open_books (di_distr (dist s));
  eg_unharmed : unharmed_by (sg_k s0) (sg_k s) }.
Lemma ending_queue ctx s0 g s : ending ctx s0 s → ending ctx s0 (sg_set_vals (vs_set_queue g (sg_vals s)) s).
Proof. intros [M P O U]. split; try done. eapply maturing_turns; [|exact M]. by apply turns_eq. Qed.
Lemma ending_unbond ctx s0 a s u s' : ending ctx s0 s → unbondMature ctx a s = (Ok u, s') → ending ctx s0 s'.
Proof.
  intros [M P O U] E. destruct (accounts_ne _ _ _ _ Hac) as (_ & Hdb & Hdn & _).
  assert (ck_Blacklisted (S := Bank) distr = true) as Hblack by (apply (ac_black _ _ _ _ Hac); set_solver).
  pose proof (maturing_unbond distr (ac_distr _ _ _ _ Hac) Hblack _ _ _ _ _ _ M E) as M'.
  destruct (unbond_k _ _ _ _ _ E) as [Ek|(t & vs & c & b & u' & Eh)].
  - split; [done|unfold dist; by rewrite Ek..|by rewrite Ek].
  - cbn in Eh. apply M_bind_Ok in Eh as (u1 & k1 & E1 & E2). apply zoom_Ok in E1 as (k2 & E1 & ->). apply zoom_Ok in E2 as (l & _ & E2).
    assert (dist s' = k2) as Ed by (unfold dist; by rewrite E2).
    split; [done|rewrite Ed|rewrite Ed|].
    + eapply payable_kept; [exact (or_supply_removed _ _ _ _ _ E1)|exact P].
    + eapply meek_open; [exact (frames_run _ _ _ _ _ (meek_hook ctx t vs (AfterValidatorRemoved c b)) E1)|exact O].
    + etransitivity; [exact U|]. unfold unharmed_by. change (sd_base (sg_k s')) with (dist s'). rewrite Ed.
      exact (or_unharmed_removed _ _ _ _ _ E1).
Qed.
Lemma ending_removed ctx s0 t vs c a v s :
  ending ctx s0 s → vs_validators (sg_vals s) !! a = Some v →
  wp False (sh_call ctx t vs (AfterValidatorRemoved c a)) (sg_k s) (λ _ k', keeps bonded notBonded (sg_k s) k').
Proof.
  intros [[[L [old J]] _ _ _] P O _] Hv. apply hook_returns; [done|]. cbn [distr_hook].
  assert (ck_Blacklisted (S := Bank) distr = true) as Hblack by (apply (ac_black _ _ _ _ Hac); set_solver).
  eapply (removed_returns distr (ac_distr _ _ _ _ Hac) Hblack); [exact L|exact J|eauto|exact P|apply O|].
  eapply (payee_paid distr (ac_listed _ _ _ _ Hac)); [exact J|exact O|eauto].
Qed.

(** Changes of the validator set leave the coins and the rewards alone. *)
Definition same_base (k k' : K) : Prop := sd_base k' = sd_base k.
#[local] Instance same_base_preorder : PreOrder same_base.
Proof. split; [by intros k|]. intros k1 k2 k3. unfold same_base. congruence. Qed.
Lemma updateSet_base ctx b c s us s' : updateSet ctx b c s = (Ok us, s') → dist s' = dist s.
Proof.
  intros E. assert (∀ ctx t vs h, set_hook h = true → frames same_base (sh_call (K := K) ctx t vs h)) as Fh.
  { intros ctx' t vs h Hh k. assert (distr_hook ctx' t vs h (sd_base k) = (Ok (), sd_base k)) as Eh by (by destruct h).
    cbn. unfold on_base, on_slashing, zoom, same_base. unfold mbind, M_bind. rewrite Eh. cbn. by destruct (slashing_hook _ _ _ _). }
  assert (frames (behind_k same_base anything) (ApplyAndReturnValidatorSetUpdates ctx)) as F1 by (by apply (fr_Apply same_base set_hook Fh)).
  assert (frames (behind_k same_base anything) (KickOutAndReturnValidatorSetUpdates ctx)) as F2 by (by apply (fr_KickOut same_base set_hook Fh)).
  assert (∀ f : ValSet → ValSet, frames (behind_k same_base anything) (on_vals (K := K) (modify f))) as F3
    by (intros f; apply frames_on_vals; first [exact _|intros vs; split; exact Logic.I]).
  assert (frames (behind_k same_base anything) (updateSet ctx b c)) as F.
  { unfold updateSet, SetEpoch, SetTheEndOfLastEpoch, DeleteAbandonedValidatorAddrs. repeat first [apply F1|apply F2|apply F3|frame_step]. }
  exact (be_k _ _ _ _ _ _ (frames_run _ _ _ _ _ F E)).
Qed.

Lemma end_returns E B lost ctx s :
  in_block bonded notBonded E B lost s → joint distr ∅ ctx s → open_books (di_distr (dist s)) → payable (bank_of s) →
  Z.of_nat (size (vs_validators (sg_vals s))) ≤ 2 ^ 100 →
  ∃ us s', staking_EndBlocker ctx s = (Ok us, s') ∧ ended (bansS := B) (engS := E) bonded notBonded unharmed_by ctx lost s us s'.
Proof.
  intros [I _] J O P Hsz. apply wp_returns.
  eapply (wp_EndBlocker (K := K) bonded notBonded False set_hook_returns (λ _, pay_returns) unharmed_by pay_unharmed ctx (ending ctx s)); try done.
  - apply ending_queue.
  - apply ending_unbond.
  - intros t vs c a v s1 He _ Hv _ _. by eapply ending_removed.
  - intros b c us s1 Hu. pose proof (updateSet_base _ _ _ _ _ _ Hu) as Ed. split; rewrite ?Ed; try done.
    + eapply maturing_turns; [eapply or_updateSet; exact Hu|]. by eapply maturing_start.
    + unfold unharmed_by. change (sd_base (sg_k s1)) with (dist s1). by rewrite Ed.
  - by intros s1 [_ _ _ U].
Qed.
End Returns.

Section Theorems.
Context {cfg : BankConfig} `{cfgS : StakingConfig} `{DistrConfig} `{wbS : !WindowBound}.
#[local] Existing Instance sound_coin_keeper.
#[local] Existing Instance sound_delegation_keeper.
#[local] Existing Instance sound_coin_laws.
#[local] Existing Instance sound_delegation_laws.
#[local] Existing Instance sound_paying_laws.
Context (bonded notBonded distr fee : string).
#[local] Abbreviation K := (Slashed (Distributed Bank)).
#[local] Abbreviation bank_of s := (di_base (dist s)).
#[local] Abbreviation undel_of s := (st_undelegations (sg_stakes s)).
#[local] Abbreviation due_of s := (st_undelegateQueue (sg_stakes s)).
#[local] Abbreviation block := (distr_block (C := Bank) bonded notBonded distr).
#[local] Abbreviation begun := (distr_begun (C := Bank) bonded notBonded distr).
Implicit Types (s : StakingState K).

Lemma block_ends x x' ctx y s :
  accounts_ok (C := Bank) bonded notBonded distr fee → weights_ok →
  chain_ok bonded notBonded distr x → rtc block x x' →
  BlockHeight ctx = cs_height x' + 1 → begun ctx y (cs_stores x') s →
  payable (bank_of s) → Z.of_nat (size (vs_validators (sg_vals s))) ≤ 2 ^ 100 →
  ∃ B us s', staking_inv (K := K) (bansS := B) (engS := cs_engine x') bonded notBonded (cs_lost x' + y) s ∧
    staking_EndBlocker ctx s = (Ok us, s') ∧
    ended (bansS := B) (engS := cs_engine x') bonded notBonded (unharmed_by bonded notBonded distr) ctx (cs_lost x' + y) s us s'.
Proof.
  intros Hac Hw I Hr Hh Hs Hp Hsz. destruct (chain_run_ok bonded notBonded distr fee Hac Hw _ _ Hr I) as [I' R'].
  assert (rewards_inv distr (BlockHeight ctx - 1) (cs_stores x')) as R by (by rewrite Hh, Z.add_simpl_r).
  destruct (begun_ok bonded notBonded distr fee Hac Hw _ _ _ _ _ _ I' R Hs) as (B & I3 & J3 & O3).
  destruct (end_returns bonded notBonded distr fee Hac _ _ _ _ _ I3 J3 O3 Hp Hsz) as (us & s' & E & He).
  exists B, us, s'. split; [apply I3|done].
Qed.

(** C12: the end of a block of staking neither fails nor panics, on any chain
    of blocks with penalties, rewards and their hooks in which votes on blocks
    are of validators that have not finished unbonding, and in a block whose
    start returned: the loops over the power index, the list of those kicked
    out and the two queues find every record they look for, no power overflows,
    undelegations are paid or refused, and the rewards and commissions of
    validators that are removed are paid (a refused payment would panic).  What
    exists of a denomination must be below 2^314 units and have a name that the
    bank accepts, and there are at most 2^100 validators. *)
Theorem EndBlocker_returns x x' ctx y s :
  accounts_ok (C := Bank) bonded notBonded distr fee → weights_ok →
  chain_ok bonded notBonded distr x → rtc block x x' →
  BlockHeight ctx = cs_height x' + 1 → begun ctx y (cs_stores x') s →
  payable (bank_of s) → Z.of_nat (size (vs_validators (sg_vals s))) ≤ 2 ^ 100 →
  is_ok (staking_EndBlocker ctx s).1 = true ∧ vs_abandoned (sg_vals (staking_EndBlocker ctx s).2) = [].
Proof.
  intros Hac Hw I Hr Hh Hs Hp Hsz. destruct (block_ends _ _ _ _ _ Hac Hw I Hr Hh Hs Hp Hsz) as (B & us & s' & _ & -> & He).
  split; [done|apply He].
Qed.

(** C13: an undelegation is paid when it is due.  On any such chain, at the end
    of a block whose time is not before that of its entry in the queue,
    the record of an account that exists is gone and the account has received
    its quantity: its balance has grown by at least that much, the rewards of a
    validator that is removed may come on top.  The pool holds what the other
    records are for and no more than before beyond them; entries that are due
    are gone from the queue, and the others with their records are as before.
    The bounds are those for the end of a block to return. *)
Theorem undelegation_paid x x' ctx y s t a u :
  accounts_ok (C := Bank) bonded notBonded distr fee → weights_ok →
  chain_ok bonded notBonded distr x → rtc block x x' →
  BlockHeight ctx = cs_height x' + 1 → begun ctx y (cs_stores x') s →
  payable (bank_of s) → Z.of_nat (size (vs_validators (sg_vals s))) ≤ 2 ^ 100 →
  (t, a) ∈ due_of s → t ≤ BlockTime ctx → undel_of s !! a = Some u → is_Some (accounts (bank_of s) !! a) →
  ∃ us s', staking_EndBlocker ctx s = (Ok us, s') ∧ undel_of s' !! a = None ∧
    balance (bank_of s) a DefaultBondDenom + Ud_Quantity u ≤ balance (bank_of s') a DefaultBondDenom ∧
    balance (bank_of s') notBonded DefaultBondDenom = map_sum Ud_Quantity (undel_of s') + (cs_lost x' + y) ∧
    (∀ t' b, (t', b) ∈ due_of s' ↔ (t', b) ∈ due_of s ∧ BlockTime ctx < t') ∧
    ∀ b, (∀ t', (t', b) ∈ due_of s → BlockTime ctx < t') → undel_of s' !! b = undel_of s !! b.
Proof.
  intros Hac Hw I Hr Hh Hs Hp Hsz Hin Hle Hu [acc Ha].
  destruct (block_ends _ _ _ _ _ Hac Hw I Hr Hh Hs Hp Hsz) as (B & us & s' & Is & Hrun & He).
  destruct (ud_key _ _ _ (sv_undel _ _ _ _ Is) _ _ Hu) as [_ (Hb & Hn & Hne & Hbl)]. cbn in Hbl.
  assert (a ∉ [bonded; notBonded; distr]) as Hout.
  { intros Hx%(ac_black _ _ _ _ Hac). cbn in Hx. congruence. }
  assert (undel_of s' !! a = None) as Hgone.
  { destruct (en_paid _ _ _ _ _ _ _ _ He t a Hin Hle) as [|(k & q & e & k' & [HR _] & Hwf & Hq & Herr)]; [done|]. exfalso.
    cbn in *. destruct (HR a acc Ha) as (acc' & Ha' & _).
    pose proof (sound_pays a q (di_base (sd_base k)) notBonded Hwf (ac_notBonded _ _ _ _ Hac) Hn Hq) as Hpay. cbn zeta in Hpay. rewrite Ha' in Hpay.
    unfold on_base, on_coins, zoom in Herr. by destruct (UndelegateCoinsFromModuleToAccount _ a _ (di_base (sd_base k))) as [[?|?|?] c]. }
  exists us, s'. split; [done|]. split; [done|]. split_and!.
  - destruct (en_credit _ _ _ _ _ _ _ _ He a u Hu Hgone) as (k1 & k2 & [_ R1] & M & [_ R2]).
    specialize (R1 a DefaultBondDenom Hout). specialize (R2 a DefaultBondDenom Hout). pose proof (km_balance _ _ _ _ _ M a DefaultBondDenom) as HM.
    cbn in HM. unfold at_addr in HM. rewrite decide_True, decide_False in HM by congruence. rewrite amount_of_one in HM. cbn [Denom Amount] in HM.
    rewrite String.eqb_refl in HM. unfold dist. lia.
  - exact (mo_notBonded _ _ _ _ _ _ _ (sv_money _ _ _ _ (en_inv _ _ _ _ _ _ _ _ He))).
  - apply He.
  - apply He.
Qed.
End Theorems.
