(* ===== verification/DistrTheorems.v ===== *)
(** * Distribution: theorems

    What the chain of blocks guarantees to those who earn rewards: the module
    can pay what it owes, a withdrawal pays what the query shows, the fees of a
    block are given out to the last unit, and nothing is lost when the
    distribution moves on chain. *)
From S2P Require Import Prelude Decimal Denom Coins Bank CoinKeeper DecStr Token Staking StakingVals StakingVotes StakingProps StakingMsgs StakingFrame StakingSet StakingElect StakingEnd StakingRun Slashing SlashingProps Distribution DistrProps DistrKeeper DistrInv DistrHooks DistrLaws DistrStaking DistrMsgs DistrEnd DistrOpen DistrPays DistrRun.
#[local] Open Scope Z_scope.

(** ** The registered invariants *)

Lemma sumRewards_Ok l : ∀ acc r, wf_coins acc → Forall wf_coins l → sumCoins acc l = Ok r →
  wf_coins r ∧ ∀ d, amount_of r d = amount_of acc d + foldr (λ x y, x + y) 0 ((λ c, amount_of c d) <$> l).
Proof.
  induction l as [|c l IH]; intros acc r Wa Hl; cbn [sumCoins foldr fmap list_fmap].
  - intros [= <-]. split; [done|]. intros d. lia.
  - apply Forall_cons in Hl as [Wc Hl]. intros (a & E & Hr)%outcome_bind_Ok. apply Add_wf in E as [W1 A1]; [|done..].
    apply IH in Hr as [Wr Ar]; [|done..]. split; [done|]. intros d. rewrite Ar, A1. lia.
Qed.
Lemma GetTotalRewards_Ok dt r : coins_ok dt → GetTotalRewards dt = Ok r →
  wf_coins r ∧ ∀ d, amount_of r d = held_all (dt_outstanding dt) d.
Proof.
  intros HC E. apply sumRewards_Ok in E as [W A]; [|apply wf_coins_nil|].
  - split; [done|]. intros d. rewrite A, amount_of_nil. unfold held_all. rewrite <- sum_iterate, Z.add_0_l.
    by rewrite <- list_fmap_compose.
  - apply Forall_forall. intros c ([v c'] & -> & Hc%elem_of_store_iterate)%list_elem_of_fmap. by eapply (co_out _ HC).
Qed.
Lemma NonNegative_kept dt : coins_ok dt → NonNegativeCommissionsInvariant dt = false.
Proof.
  intros HC. unfold NonNegativeCommissionsInvariant. apply not_true_is_false. intros (c & Hc & Hn)%existsb_exists.
  rewrite <- list_elem_of_In in Hc. apply list_elem_of_fmap in Hc as ([v c'] & -> & Hv%elem_of_store_iterate).
  pose proof (co_comm _ HC _ _ Hv) as W. cbn in Hn.
  apply existsb_exists in Hn as (x & Hx & Hneg). rewrite <- list_elem_of_In in Hx.
  destruct W as [_ W]. unfold coins_pos in W. rewrite Forall_forall in W. pose proof (W _ Hx) as Hp. unfold DecCoin_IsNegative in Hneg. lia.
Qed.

Section Theorems.
Context {C : Type} `{CoinKeeper C} `{!CoinKeeperLaws C} `{!DelegationKeeper C} `{!DelegationKeeperLaws C}.
Context `{cfgS : StakingConfig} `{DistrConfig} `{wbS : !WindowBound}.
Context (bonded notBonded distr fee : string).
#[local] Abbreviation K := (Slashed (Distributed C)).
Implicit Types (s : StakingState K) (k : Distributed C).
#[local] Abbreviation books x := (di_distr (dist (cs_stores x))).
#[local] Abbreviation coins x := (di_base (dist (cs_stores x))).

Lemma ModuleAccount_holds X old S V ctx k b k' :
  ck_modaddr (S := C) DistrModuleName = Some distr → distr_inv distr X old S V k →
  ModuleAccountInvariant ctx k = (Ok b, k') → b = false.
Proof.
  intros Hmod I. unfold ModuleAccountInvariant. intros (valid & k1 & E1 & E)%M_bind_Ok. apply gets_Ok in E1 as [-> ->].
  destruct (CheckDistributionProposalValid ctx (di_distr k)) eqn:Hvalid; cbn [negb] in E; [|by apply mret_Ok in E as [-> _]].
  assert (CheckInitExistedValidatorFlag (di_distr k) = true) as Hf.
  { unfold CheckDistributionProposalValid in Hvalid. by apply andb_true_iff in Hvalid as [_ ?]. }
  pose proof (records_coins _ _ _ _ _ (dv_records _ _ _ _ _ _ I)) as HC.
  apply M_bind_Ok in E as (o & k1 & E1 & E). apply lift_Ok in E1 as [E1 ->]. apply GetTotalRewards_Ok in E1 as [Wo Ao]; [|done].
  apply M_bind_Ok in E as (p & k1 & E1 & E). unfold on_distr in E1. apply zoom_Ok in E1 as (dt1 & E1 & ->).
  apply GetFeePool_Ok in E1 as [Hp ->]. assert (di_set_distr (di_distr k) k = k) as Ek by (by destruct k). rewrite Ek in E. clear Ek.
  apply M_bind_Ok in E as (cs & k1 & E1 & E). unfold moduleCoins in E1. rewrite Hmod in E1.
  apply on_base_coins_Ok in E1 as (c1 & E1 & ->). apply law_GetCoins in E1 as (_ & Ac & Wc). specialize (Wc (dv_wf _ _ _ _ _ _ I)).
  apply M_bind_Ok in E as (ex & k1 & E1 & E). apply lift_Ok in E1 as [E1 ->].
  apply Add_wf in E1 as [We Ae]; [|by eapply (co_pool _ HC)|done].
  apply M_bind_Ok in E as (e & k1 & E1 & E). apply lift_Ok in E1 as [E1 ->]. apply mret_Ok in E as [-> _].
  apply IsEqual_wf in E1 as ->; [done..|]. intros d. rewrite Ac, Ae, Ao, (dv_money _ _ _ _ _ _ I d).
  unfold total, pool_of. rewrite Hf, Hp. done.
Qed.

(** C5: in any run of blocks with staking, penalties, rewards, proposals,
    changes of parameters and what other modules do, in which votes on blocks
    are of validators that have not finished unbonding, the account of the
    distribution module holds exactly the community pool and what is
    outstanding (or the commissions, before the rewards moved on chain), in
    every denomination; each vote has earned no more than is outstanding beside
    the commission of its validator; the records of past periods are referred
    to as often as their counters say; and none of the three registered
    invariants is found broken: that no commission is negative, that the
    account of the module holds what is recorded, and, while what exists of a
    denomination is below 2^314 units and has a name that the bank accepts,
    that every commission can be withdrawn. *)
Theorem distr_run_solvent `{!PayingLaws C} x x' :
  accounts_ok (C := C) bonded notBonded distr fee → weights_ok →
  rtc (distr_block (C := C) bonded notBonded distr) x x' → chain_ok bonded notBonded distr x →
  (∀ d, ck_balance (coins x') distr d = pool_of (books x') d +
    held_all (if CheckInitExistedValidatorFlag (books x') then dt_outstanding (books x') else dt_commissions (books x')) d) ∧
  (CheckInitExistedValidatorFlag (books x') = true →
    (∀ v del y d, st_shares (sg_stakes (cs_stores x')) !! (v, del) = Some y →
      earned (books x') d (v, del) y ≤ precisionReuse * (held (dt_outstanding (books x')) v d - held (dt_commissions (books x')) v d)) ∧
    ∃ old, ∀ p, hcount (dt_historical (books x')) p = refs old (books x') p) ∧
  NonNegativeCommissionsInvariant (books x') = false ∧
  (∀ ctx b k', ModuleAccountInvariant ctx (dist (cs_stores x')) = (Ok b, k') → b = false) ∧
  (∀ ctx b k', BlockHeight ctx = cs_height x' → payable (coins x') →
    CanWithdrawInvariant ctx (sg_vals (cs_stores x')) (dist (cs_stores x')) = (Ok b, k') → b = false).
Proof.
  intros Hac Hw Hr I. destruct (chain_run_ok bonded notBonded distr fee Hac Hw _ _ Hr I) as [Is [L [old J] O]].
  pose proof (dv_records _ _ _ _ _ _ J) as R. pose proof (records_coins _ _ _ _ _ R) as HC. split; [|split; [|split; [|split]]].
  - intros d. rewrite (dv_money _ _ _ _ _ _ J d). unfold total. by destruct (CheckInitExistedValidatorFlag _).
  - unfold records in R. intros Hf. rewrite Hf in R. destruct R as [R _]. split; [|exists old; apply (oi_ref _ _ _ _ _ R)].
    intros v del y d Hy. assert ((v, del) ∉ (∅ : gset (string * string))) as HX by set_solver.
    destruct (oi_vote _ _ _ _ _ R _ _ Hy HX) as [Hc _]. pose proof (earned_le_claims R d _ _ Hy HX) as H1.
    pose proof (oi_solvent _ _ _ _ _ R _ d Hc) as H2. cbn [fst] in H1, H2.
    assert (0 ≤ pending (books x') v d) as H3
      by (unfold pending; destruct (dt_current _ !! v) as [c|] eqn:Ec; [apply wf_amount_nonneg; by eapply (co_cur _ HC)|done]).
    assert (0 < precisionReuse) by done. nia.
  - by apply NonNegative_kept.
  - intros ctx b k'. by eapply ModuleAccount_holds; [apply Hac|].
  - intros ctx b k' Hh Hp. assert (ck_Blacklisted (S := C) distr = true) as Hb by (apply (ac_black _ _ _ _ Hac); set_solver).
    eapply (CanWithdraw_holds distr (ac_distr _ _ _ _ Hac) Hb (ac_listed _ _ _ _ Hac)); try done.
    + intros Hf. rewrite Hh. by apply L.
    + exact (votes_vals_ok _ _ _ (sv_votes _ _ _ _ (ch_inv _ _ _ _ _ Is))).
Qed.

(** C19: what the query shows is what is paid.  On a chain in order, when the
    query for the rewards of a vote returns [raw] and a withdrawal of these
    rewards returns, it pays [raw] cut off at the precision that is set, to the
    address the delegator chose: nothing is held back because too little were
    outstanding; what is cut off stays with the module. *)
Theorem withdrawal_pays_query x ctx del v raw paid_coins k' :
  accounts_ok (C := C) bonded notBonded distr fee → chain_ok bonded notBonded distr x → BlockHeight ctx = cs_height x + 1 →
  let s := cs_stores x in
  query (queryDelegationRewards ctx (sg_stakes s) (sg_vals s) del v) (books x) = Ok raw →
  WithdrawDelegationRewards ctx (sg_stakes s) (sg_vals s) del v (dist s) = (Ok paid_coins, k') →
  let to := default del (dt_withdrawAddrs (books x) !! del) in
  ∃ rest, DecCoins_TruncateWithPrec raw (GetRewardTruncatePrecision (books x)) = Ok (paid_coins, rest) ∧
    (∀ d, amount_of paid_coins d + amount_of rest d = amount_of raw d) ∧
    (∀ y d, ck_balance (di_base k') y d
      = ck_balance (coins x) y d + at_addr to paid_coins y d - at_addr distr paid_coins y d).
Proof.
  intros Hac [I [L [old J] _]] Hh s Hq Hwd to. subst s. assert (live ctx (books x)) as Lv.
  { intros Hf. rewrite Hh. specialize (L Hf). apply later_upgrade. by rewrite Z.add_simpl_r. }
  pose proof (votes_stakes_ok _ _ (sv_votes _ _ _ _ (ch_inv _ _ _ _ _ I))) as HS.
  assert (ck_Blacklisted (S := C) distr = true) as Hb by (apply (ac_black _ _ _ _ Hac); set_solver).
  unfold WithdrawDelegationRewards in Hwd. unfold query in Hq.
  destruct (queryDelegationRewards _ _ _ _ _ (books x)) as [r dt'] eqn:Eq. cbn in Hq. subst r. unfold queryDelegationRewards in Eq.
  apply M_bind_Ok in Eq as (b & dt0 & E1 & Eq). apply gets_Ok in E1 as [-> ->].
  apply M_bind_Ok in Eq as (u1 & dt0 & E1 & Eq). apply guard_not_Ok in E1 as [Hvalid%negb_false_iff ->].
  destruct (vs_validators (sg_vals (cs_stores x)) !! v) as [val|] eqn:Hv; [|by apply fail_Ok in Hwd].
  destruct (st_delegators (sg_stakes (cs_stores x)) !! del) as [d|] eqn:Hd; [|by apply fail_Ok in Hwd].
  apply M_bind_Ok in Hwd as (u2 & k1 & E1 & Hwd). apply guard_not_Ok in E1 as [Hin ->]. pose proof Hin as Hin'. apply negb_false_iff in Hin.
  apply existsb_exists in Hin as (w & Hw & <-%String.eqb_eq). rewrite <- list_elem_of_In in Hw.
  apply M_bind_Ok in Eq as (u3 & dt0 & E1 & Eq). apply guard_not_Ok in E1 as [_ ->].
  apply M_bind_Ok in Hwd as (c & k1 & E1 & Hwd). apply M_bind_Ok in Hwd as (u4 & k2 & E2 & Hwd). apply mret_Ok in Hwd as [-> ->].
  destruct (settle_ready _ _ _ v del d HS Hd Hw ltac:(eauto)) as (val' & y & Hv' & Ka & Hvote & Hle).
  rewrite Hv in Hv'. injection Hv' as <-.
  pose proof (dv_records _ _ _ _ _ _ J) as R. unfold records in R. rewrite <- (live_valid _ _ Lv), Hvalid in R. destruct R as [R _].
  eapply (withdraw_run distr (ac_distr _ _ _ _ Hac) Hb) in E1 as (_ & (k3 & P & Eb) & _ & _ & dt1 & dt2 & p & raw' & rest & F1 & F2 & F3 & F4);
    [|exact R|exact Hvote|set_solver|by rewrite Ka|by eapply (va_shares _ (so_vals _ _ _ HS))].
  apply M_bind_Ok in Eq as (u5 & dt3 & E1 & Eq). rewrite F1 in E1. injection E1 as <- <-.
  apply M_bind_Ok in Eq as (p' & dt4 & E1 & Eq). rewrite F2 in E1. injection E1 as <- <-.
  rewrite F3 in Eq. injection Eq as <- <-. exists rest. split; [exact F4|].
  split; [apply (TruncateWithPrec_Ok _ _ _ _ F4)|]. intros z e. apply zoom_Ok in E2 as (dt5 & _ & ->). cbn [di_base di_set_distr].
  rewrite Eb. apply (pd_balance _ _ _ _ _ P).
Qed.

(** The coins of the fee collector move as a whole. *)
Lemma fees_move ctx vs votes proposer k k0 :
  ck_modaddr (S := C) dc_feeCollectorName = Some fee → ck_modaddr (S := C) DistrModuleName = Some distr → fee ≠ distr →
  BlockHeight ctx > genesisHeight + 1 → distr_BeginBlocker ctx vs votes proposer k = (Ok (), k0) →
  ∀ d, ck_balance (di_base k0) fee d = 0 ∧
    ck_balance (di_base k0) distr d = ck_balance (di_base k) distr d + ck_balance (di_base k) fee d.
Proof.
  intros Hfee Hmod Hne Hh. unfold distr_BeginBlocker. intros (u1 & k1 & E1 & E)%M_bind_Ok.
  apply zoom_Ok in E as (dt & _ & ->). cbn [di_base di_set_distr].
  assert ((BlockHeight ctx >? genesisHeight + 1) = true) as Hg by lia. rewrite Hg in E1.
  apply M_bind_Ok in E1 as (p & k2 & E2 & E1). apply zoom_Ok in E2 as (dt2 & _ & ->). set (k2 := di_set_distr dt2 k) in *.
  unfold AllocateTokens in E1. apply M_bind_Ok in E1 as (fees & k3 & E2 & E1). unfold moduleCoins in E2. rewrite Hfee in E2.
  apply on_base_coins_Ok in E2 as (c3 & E2 & ->). apply law_GetCoins in E2 as (-> & Af & _). change (di_base k2) with (di_base k) in *.
  destruct (DecCoins_Empty fees) eqn:He.
  - apply mret_Ok in E1 as [_ ->]. cbn. intros d. rewrite <- !Af. unfold DecCoins_Empty in He. destruct fees; [cbn; lia|done].
  - apply M_bind_Ok in E1 as (u2 & k3 & E2%orPanic_Ok & E1). apply on_base_coins_Ok in E2 as (c3 & E2 & ->).
    apply law_ModuleToModule in E2 as (a & b & Ha & Hb & M). rewrite Hfee in Ha. rewrite Hmod in Hb. injection Ha as <-. injection Hb as <-.
    assert (di_base k1 = c3) as -> by (destruct (_ =? 0); apply zoom_Ok in E1 as (dt4 & _ & ->); done).
    intros d. rewrite !(km_balance _ _ _ _ _ M). unfold at_addr. cbn [di_base di_set_base].
    rewrite !(decide_True (P := fee = fee)), !(decide_True (P := distr = distr)) by done. rewrite !decide_False by congruence.
    rewrite Af. lia.
Qed.

(** C20: the fees of a block are given out to the last unit.  When the start of
    a block after the first returns, all coins of the fee collector have gone
    to the account of the module, whose balance has grown by exactly as much,
    and the community pool and what is outstanding to validators have grown
    together by exactly as much.  (It does not return when fees are to be split
    among votes of validators that are all jailed by then.) *)
Theorem fees_conserved x ctx votes proposer k0 :
  accounts_ok (C := C) bonded notBonded distr fee → chain_ok bonded notBonded distr x →
  BlockHeight ctx = cs_height x + 1 → BlockHeight ctx > genesisHeight + 1 →
  distr_BeginBlocker ctx (sg_vals (cs_stores x)) votes proposer (dist (cs_stores x)) = (Ok (), k0) →
  ∀ d, ck_balance (di_base k0) fee d = 0 ∧
    ck_balance (di_base k0) distr d = ck_balance (coins x) distr d + ck_balance (coins x) fee d ∧
    total (di_distr k0) d = total (books x) d + ck_balance (coins x) fee d.
Proof.
  intros Hac [I R] Hh Hg E d. destruct (accounts_ne _ _ _ _ Hac) as (_ & _ & _ & _ & _ & Hfd).
  destruct (fees_move _ _ _ _ _ _ (ac_fee _ _ _ _ Hac) (ac_distr _ _ _ _ Hac) Hfd Hg E d) as [F1 F2]. split; [done|]. split; [done|].
  assert (rewards_inv distr (BlockHeight ctx - 1) (cs_stores x)) as R' by (rewrite Hh, Z.add_simpl_r; done).
  destruct (begin_ok bonded notBonded distr fee Hac _ _ _ _ _ _ _ I R' E) as [_ [_ [old' J']]]. destruct R as [_ [old J] _].
  rewrite <- (dv_money _ _ _ _ _ _ J d). pose proof (dv_money _ _ _ _ _ _ J' d) as HM. cbn in HM. rewrite <- HM. exact F2.
Qed.

(** C24: the proposal that moves the distribution on chain loses nothing.  When
    it is carried out for the first time, every validator starts with its
    commission as what is outstanding and with no other rewards, the sum of
    what the module owes stays the same, and every vote starts with nothing
    earned. *)
Theorem switch_on_chain x ctx title desc k' :
  chain_ok bonded notBonded distr x →
  CheckInitExistedValidatorFlag (books x) = false → GetDistributionType (books x) ≠ DistributionTypeOnChain →
  let s := cs_stores x in
  DistributionProposalHandler ctx (sg_vals s) (ChangeDistributionType title desc DistributionTypeOnChain) (dist s) = (Ok (), k') →
  GetDistributionType (di_distr k') = DistributionTypeOnChain ∧ CheckInitExistedValidatorFlag (di_distr k') = true ∧
  di_base k' = di_base (dist s) ∧
  (∀ v, vs_validators (sg_vals s) !! v ≠ None →
    dt_current (di_distr k') !! v = Some (mkCurrent [] 1) ∧
    dt_outstanding (di_distr k') !! v = Some (default [] (dt_commissions (books x) !! v))) ∧
  (∀ d, total (di_distr k') d = total (books x) d) ∧
  (∀ p y d, st_shares (sg_stakes s) !! p = Some y → earned (di_distr k') d p y = 0).
Proof.
  intros [I [L [old J] _]] Hf Ht s E. subst s. pose proof (sv_votes _ _ _ _ (ch_inv _ _ _ _ _ I)) as V.
  cbn [DistributionProposalHandler] in E. destruct (HigherThanVenus2 (BlockHeight ctx)); [|by apply fail_Ok in E].
  apply zoom_Ok in E as (dt' & E & ->). unfold HandleChangeDistributionTypeProposal in E.
  apply M_bind_Ok in E as (ty & dt0 & E1 & E). apply gets_Ok in E1 as [-> ->]. destruct (Z.eqb_spec (GetDistributionType (books x)) DistributionTypeOnChain) as [|_]; [done|].
  apply M_bind_Ok in E as (b & dt0 & E1 & E). apply gets_Ok in E1 as [-> ->]. rewrite Hf in E. cbn [negb andb] in E.
  apply M_bind_Ok in E as (u1 & dt1 & E1 & E). unfold SetDistributionType in E. apply modify_Ok in E as ->.
  apply M_bind_Ok in E1 as (u2 & dt0 & E0 & E1). unfold SetInitExistedValidatorFlag in E0. apply modify_Ok in E0 as ->.
  pose proof (dv_records _ _ _ _ _ _ J) as R. unfold records in R. rewrite Hf in R.
  eapply switch_records in E1 as (R1 & T1 & P1 & O1 & C1 & N1 & F1); [|exact R|done|exact (votes_vals_ok _ _ _ V)| |exact Hf].
  2:{ intros p y Hp. split; [exact (Z.lt_le_incl _ _ (votes_nonneg _ _ _ _ _ V Hp))|exact (votes_on_vals _ _ _ _ _ V Hp)]. }
  cbn [di_distr di_set_distr di_base]. unfold records in R1. rewrite F1 in R1. destruct R1 as [R1 Rv].
  split; [done|]. split; [done|]. split; [done|]. split; [|split; [exact T1|]].
  - intros v [val Hv]%not_eq_None_Some. change (dt_current (dt_set_params _ dt1)) with (dt_current dt1).
    change (dt_outstanding (dt_set_params _ dt1)) with (dt_outstanding dt1).
    destruct (proj2 (Rv v)) as [c Hc]; [eauto|]. destruct (proj1 (oi_cur _ _ _ _ _ R1 v)) as [o Ho]; [eauto|].
    rewrite Hc, Ho, (C1 _ _ Hc), (O1 _ _ Ho). done.
  - intros p y d Hp. unfold earned, started, last, period. cbn [dt_infos dt_current dt_historical dt_set_params].
    rewrite N1, lookup_empty. destruct (proj2 (Rv p.1) (votes_on_vals _ _ _ _ _ V Hp)) as [c Hc]. rewrite Hc, (C1 _ _ Hc).
    change (Cr_Period (mkCurrent [] 1) - 1) with 0. by rewrite Z.sub_diag, Z.mul_0_r.
Qed.

(** When fees were collected, blocks were signed, and everybody who signed is
    jailed by now, the fees that are split equally are divided by zero: no
    start of a block returns. *)
Theorem jailed_voters_halt ctx vs votes proposer k d u k' :
  ck_modaddr (S := C) dc_feeCollectorName = Some fee → BlockHeight ctx > genesisHeight + 1 →
  int64 (foldr Z.add 0 (Vt_Power <$> votes)) ≠ 0 → ck_balance (di_base k) fee d ≠ 0 →
  unjailed (omap (λ vote, validatorByConsAddr vs (Vt_Address vote)) votes) = [] →
  distr_BeginBlocker ctx vs votes proposer k ≠ (Ok u, k').
Proof.
  intros Hfee Hg Hp Hb Hn. unfold distr_BeginBlocker. intros (u1 & k1 & E1 & _)%M_bind_Ok.
  assert ((BlockHeight ctx >? genesisHeight + 1) = true) as Hg' by lia. rewrite Hg' in E1.
  apply M_bind_Ok in E1 as (p & k2 & E2 & E1). apply zoom_Ok in E2 as (dt2 & _ & ->).
  unfold AllocateTokens in E1. apply M_bind_Ok in E1 as (fees & k3 & E2 & E1). unfold moduleCoins in E2. rewrite Hfee in E2.
  apply on_base_coins_Ok in E2 as (c3 & E2 & ->). apply law_GetCoins in E2 as (-> & Af & _). cbn [di_base di_set_distr] in Af.
  destruct (DecCoins_Empty fees) eqn:He.
  { specialize (Af d). destruct fees; [|done]. rewrite amount_of_nil in Af. congruence. }
  apply M_bind_Ok in E1 as (u2 & k3 & _ & E1). apply Z.eqb_neq in Hp. rewrite Hp in E1.
  apply zoom_Ok in E1 as (dt' & E & _). unfold distributeFees in E.
  do 10 (apply M_bind_Ok in E as (? & ? & _ & E)). apply M_bind_Ok in E as (? & ? & E1 & _).
  unfold allocateByEqual in E1. rewrite Hn in E1. apply M_bind_Ok in E1 as (one & ? & Eo%lift_Ok & E1).
  apply M_bind_Ok in E1 as (n & ? & En%lift_Ok & E1). apply M_bind_Ok in E1 as (q & ? & Eq%lift_Ok & E1).
  destruct Eo as [Eo _], En as [En _], Eq as [Eq _]. vm_compute in Eo, En. injection Eo as <-. injection En as <-. by vm_compute in Eq.
Qed.
End Theorems.
