(* ===== verification/DistrDemo.v ===== *)
(** * Distribution: a chain that pays rewards

    A delegator votes for a validator, which is elected; the fees of a block
    become its commission; a proposal moves the distribution on chain, the
    validator lowers its rate, and the fees of the next block are shared with
    the delegator.  Concrete instances of the properties along this chain. *)
From S2P Require Import Prelude Decimal Denom Coins Bank CoinKeeper DecStr Token Staking StakingVals StakingVotes StakingProps StakingMsgs StakingFrame StakingSet StakingElect StakingEnd StakingRun StakingBank StakingDemo Slashing SlashingProps Distribution DistrProps DistrKeeper DistrInv DistrHooks DistrLaws DistrStaking DistrMsgs DistrEnd DistrOpen DistrPays DistrRun DistrReturns DistrTheorems.
#[local] Open Scope Z_scope.

Definition pay_bank_config : BankConfig :=
  mkBankConfig {[ BondedPoolName := ("pool_b", ["burner"; "staking"]);
                  NotBondedPoolName := ("pool_n", ["burner"; "staking"]);
                  DistrModuleName := ("pool_d", []);
                  "fee_collector" := ("fee", []) ]}
               {[ "pool_b" := true; "pool_n" := true; "pool_d" := true; "fee" := true ]}.
Definition pay_config : DistrConfig := mkDistrConfig (BlacklistedAddr (cfg := pay_bank_config)) "fee_collector" 0.
Definition pay_window : WindowBound := 10.
#[local] Existing Instance pay_window.
#[local] Existing Instance pay_bank_config.
#[local] Existing Instance pay_config.
#[local] Existing Instance demo_stake_heights.
#[local] Existing Instance sound_coin_keeper.
#[local] Existing Instance sound_delegation_keeper.
#[local] Existing Instance sound_coin_laws.
#[local] Existing Instance sound_delegation_laws.
#[local] Existing Instance sound_paying_laws.

#[local] Abbreviation pay_chain := (StakingState (Slashed (Distributed Bank))).

Definition pay_bank : Bank :=
  mkBank {[ "bob" := demo_stake_acc unit_okt; "carol" := demo_stake_acc unit_okt; "dave" := demo_stake_acc unit_okt;
            "pool_b" := demo_pool_acc; "pool_n" := demo_pool_acc;
            "pool_d" := mkAccount [] (Some []); "fee" := mkAccount [] (Some []) ]}
         {[ "okt" := 3 * unit_okt ]} true.
Definition pay_distr0 : Distr :=
  mkDistr (Some []) (Some "bob_key") ∅ ∅ None ∅ ∅ ∅ ∅ (mkDistrParams (2 * 10 ^ 16) true None None None).
Definition pay_state0 : pay_chain :=
  mkStakingState
    (mkSlashed (mkDistributed pay_bank pay_distr0) (mkSlashing ∅ ∅ ∅ (mkSlashingParams 10 0 1000 0 0)))
    (mkStakes ∅ ∅ ∅ ∅ ∅)
    (mkValSet ∅ ∅ ∅ ∅ None ∅ [] (Some 4) None)
    (mkStakingParams 10 1 4 30 1 5).

(** ** Blocks *)

Inductive pay_act :=
  | PStaking (m : StakingMsg) | PDistr (m : DistrMsg) | PProposal (c : DistrContent)
  | PFee (from : string) (amount : Z).

Definition pay_do (ctx : Ctx) (a : pay_act) (s : pay_chain) : option (Z * pay_chain) :=
  let distributed {X} (r : outcome X * Distributed Bank) :=
    match r with (Ok _, k') => Some (0, set_dist k' s) | _ => None end in
  match a with
  | PStaking m => match staking_deliver (BlockHeight ctx) ctx m s with (Ok _, s') => Some (stranded m s, s') | _ => None end
  | PDistr m => distributed (distr_NewHandler ctx (sg_stakes s) (sg_vals s) m (dist s))
  | PProposal c => distributed (DistributionProposalHandler ctx (sg_vals s) c (dist s))
  | PFee a n =>
      match ck_SendCoins a "fee" [demo_coin n] (di_base (dist s)) with
      | (Ok _, c') => Some (0, set_dist (di_set_base c' (dist s)) s)
      | _ => None
      end
  end.
Fixpoint pay_dos (ctx : Ctx) (l : list pay_act) (s : pay_chain) : option (Z * pay_chain) :=
  match l with
  | [] => Some (0, s)
  | a :: l => '(x, s1) ← pay_do ctx a s; '(y, s') ← pay_dos ctx l s1; Some (x + y, s')
  end.
(** Who signs is not an account of a module. *)
Definition pay_signed (a : pay_act) : bool :=
  match a with
  | PStaking m => bool_decide (staking_signer m ≠ "pool_b" ∧ staking_signer m ≠ "pool_n" ∧ staking_signer m ≠ "" ∧
      ck_Blacklisted (S := Slashed (Distributed Bank)) (staking_signer m) = false)
  | PFee a _ => bool_decide (a ∉ ["pool_b"; "pool_n"; "pool_d"])
  | _ => true
  end.

Lemma pay_do_step ctx a s x s' : pay_signed a = true → pay_do ctx a s = Some (x, s') →
  distr_step "pool_b" "pool_n" "pool_d" ctx x s s'.
Proof.
  destruct a as [m|m|c|a n]; cbn [pay_signed pay_do].
  - intros Ho%bool_decide_eq_true. destruct (staking_deliver _ ctx m s) as [[[]|e|p] s1] eqn:Hr; [|done..].
    intros [= <- <-]. by eapply ds_staking.
  - intros _. destruct (distr_NewHandler _ _ _ _ _) as [[[]|e|p] k1] eqn:Hr; [|done..]. intros [= <- <-]. by eapply ds_distr.
  - intros _. destruct (DistributionProposalHandler _ _ _ _) as [[[]|e|p] k1] eqn:Hr; [|done..]. intros [= <- <-]. by eapply ds_proposal.
  - intros Ho%bool_decide_eq_true. destruct (ck_SendCoins a "fee" _ _) as [[u|e|p] c1] eqn:Hr; [|done..]. intros [= <- <-].
    apply law_SendCoins in Hr as M.
    assert (∀ y d, y ∈ ["pool_b"; "pool_n"; "pool_d"] → ck_balance c1 y d = ck_balance (di_base (dist s)) y d) as Hb.
    { intros y d Hy. rewrite (km_balance _ _ _ _ _ M). unfold at_addr.
      assert ("fee" ∉ ["pool_b"; "pool_n"; "pool_d"]) as Hfee by (apply (bool_decide_eq_true_1 _); by vm_compute).
      rewrite !decide_False by (intros ?; simplify_eq; done). lia. }
    apply ds_other. exists c1. split; [split; [apply M|intros d; apply Hb; set_solver..]|].
    split; [intros d; apply Hb; set_solver|done].
Qed.
Lemma pay_dos_steps ctx l : ∀ s x s', forallb pay_signed l = true → pay_dos ctx l s = Some (x, s') →
  distr_steps "pool_b" "pool_n" "pool_d" ctx x s s'.
Proof.
  induction l as [|a l IH]; intros s x s' Hf; cbn [pay_dos].
  - intros [= <- <-]. constructor.
  - cbn [forallb] in Hf. apply andb_true_iff in Hf as [Ha Hf]. destruct (pay_do ctx a s) as [[y s1]|] eqn:E1; [|done].
    cbn. destruct (pay_dos ctx l s1) as [[z s2]|] eqn:E2; [|done]. cbn. intros [= <- <-].
    econstructor; [by eapply pay_do_step|by eapply IH].
Qed.

(** The states inside a block, and its updates. *)
Record pay_run := mkPayRun {
  pr_paid : Distributed Bank; pr_voted : pay_chain; pr_begun : pay_chain; pr_mid : pay_chain;
  pr_updates : list ValidatorUpdate; pr_end : pay_chain; pr_lost : Z; pr_ok : bool }.
Definition pay_block (ctx : Ctx) (votes : list Vote) (l : list pay_act) (s : pay_chain) : pay_run :=
  let r0 := distr_BeginBlocker ctx (sg_vals s) votes "bob_key" (dist s) in
  let r1 := slashing_BeginBlocker ctx votes (set_dist r0.2 s) in
  let r2 := evidence_BeginBlocker ctx 1000 [] r1.2 in
  let '(x, s3) := default (0, r2.2) (pay_dos ctx l r2.2) in
  let r := staking_EndBlocker ctx s3 in
  mkPayRun r0.2 r1.2 r2.2 s3 (match r.1 with Ok us => us | _ => [] end) r.2 x
    (is_ok r0.1 && is_ok r1.1 && is_ok r2.1 && bool_decide (is_Some (pay_dos ctx l r2.2)) && is_ok r.1
     && bool_decide (Forall (λ v, map_Forall (λ _ w, ConsAddress w = Vt_Address v → Va_Status w ≠ Unbonded)
          (vs_validators (sg_vals s))) votes)
     && forallb pay_signed l).

Lemma pay_block_parts ctx votes l s :
  let r := pay_block ctx votes l s in pr_ok r = true →
  distr_begun "pool_b" "pool_n" "pool_d" ctx (pr_lost r) s (pr_mid r) ∧
  staking_EndBlocker ctx (pr_mid r) = (Ok (pr_updates r), pr_end r).
Proof.
  cbn zeta. unfold pay_block. destruct (distr_BeginBlocker ctx _ votes _ _) as [o0 k0] eqn:H0. cbn [fst snd].
  destruct (slashing_BeginBlocker ctx votes _) as [o1 s1] eqn:H1. cbn [fst snd].
  destruct (evidence_BeginBlocker ctx 1000 [] s1) as [o2 s2] eqn:H2. cbn [fst snd].
  destruct (pay_dos ctx l s2) as [[x s3]|] eqn:H3; cbn [from_option id].
  2: { rewrite (bool_decide_false (is_Some None)) by (by intros []). cbn. by rewrite !andb_false_r. }
  destruct (staking_EndBlocker ctx s3) as [o s4] eqn:H4. cbn [fst snd pr_ok pr_updates pr_lost pr_mid pr_end].
  rewrite !andb_true_iff, !bool_decide_eq_true.
  intros [[[[[[Ho0 Ho1] Ho2] _] Ho] Hv] Hl]. destruct o0 as [[]| |], o1 as [[]| |], o2 as [[]| |], o as [us| |]; try done.
  split; [|exact H4].
  eapply db_begun; [|apply other_refl|exact H0|exact H1|apply other_refl|exact H2|by eapply pay_dos_steps].
  intros v Hin a w Hw Hc. rewrite Forall_forall in Hv. by apply (Hv v Hin a w).
Qed.

Lemma pay_block_ran ctx votes l s E lost :
  let r := pay_block ctx votes l s in pr_ok r = true →
  distr_block "pool_b" "pool_n" "pool_d" (mkChain (BlockHeight ctx - 1) E lost s)
    (mkChain (BlockHeight ctx) (engine_apply E (pr_updates r)) (lost + pr_lost r) (pr_end r)).
Proof. intros r Hok. destruct (pay_block_parts ctx votes l s Hok) as [Hb He]. by eapply db_block. Qed.

Lemma pay_paid ctx votes l s r : r = pay_block ctx votes l s → pr_ok r = true →
  distr_BeginBlocker ctx (sg_vals s) votes "bob_key" (dist s) = (Ok (), pr_paid r).
Proof.
  intros ->. unfold pay_block. destruct (distr_BeginBlocker ctx _ votes _ _) as [o0 k0]. cbn [fst snd].
  destruct (from_option _ _ _) as [x s3]. cbn [pr_ok pr_paid]. rewrite !andb_true_iff.
  intros [[[[[[Ho0 _] _] _] _] _] _]. by destruct o0 as [[]| |].
Qed.

(** The delegator votes; somebody else changes his mind. *)
Definition pay_ctx3 : Ctx := mkCtx 3 100.
Definition pay_acts3 : list pay_act :=
  [PStaking (demo_create "bob"); PStaking (MsgDeposit "carol" (demo_coin (10 ^ 12)));
   PStaking (MsgAddShares "carol" ["bob"]); PStaking (MsgDeposit "dave" (demo_coin (10 ^ 12)));
   PStaking (MsgWithdraw "dave" (demo_coin (4 * 10 ^ 11)))].
Definition pay_r3 : pay_run := pay_block pay_ctx3 [] pay_acts3 pay_state0.
(** The validator is elected. *)
Definition pay_ctx4 : Ctx := mkCtx 4 200.
Definition pay_acts4 : list pay_act := [PFee "dave" (10 ^ 15)].
Definition pay_r4 : pay_run := pay_block pay_ctx4 [] pay_acts4 (pr_end pay_r3).
(** Fees become its commission. *)
Definition pay_votes : list Vote := [mkVote "bob_key" 24 true].
Definition pay_ctx5 : Ctx := mkCtx 5 (10 ^ 15).
Definition pay_acts5 : list pay_act := [PFee "dave" (10 ^ 15)].
Definition pay_r5 : pay_run := pay_block pay_ctx5 pay_votes pay_acts5 (pr_end pay_r4).
(** The distribution moves on chain and the rate of the validator is set. *)
Definition pay_switch : DistrContent := ChangeDistributionType "on chain" "share the rewards" DistributionTypeOnChain.
Definition pay_ctx6 : Ctx := mkCtx 6 (10 ^ 15 + 1).
Definition pay_acts6 : list pay_act :=
  [PProposal pay_switch; PProposal (RewardTruncatePrecision "precision" "pay fractions" 8);
   PStaking (MsgEditValidatorCommissionRate (10 ^ 17) "bob"); PFee "dave" (10 ^ 15)].
Definition pay_r6 : pay_run := pay_block pay_ctx6 pay_votes pay_acts6 (pr_end pay_r5).
(** The delegator has earned its share. *)
Definition pay_ctx7 : Ctx := mkCtx 7 (10 ^ 15 + 2).
Definition pay_acts7 : list pay_act := [].
Definition pay_r7 : pay_run := pay_block pay_ctx7 pay_votes pay_acts7 (pr_end pay_r6).
#[local] Strategy opaque [pay_block].
Definition pay_ctx8 : Ctx := mkCtx 8 (10 ^ 15 + 3).

(** ** The first state *)

Lemma pay_bank_sound : bank_sound pay_bank.
Proof.
  assert (∀ d, supply_of pay_bank d = if String.eqb "okt" d then 3 * unit_okt else 0) as Hs.
  { intros d. unfold supply_of, pay_bank. cbn [supplies]. destruct (String.eqb_spec "okt" d) as [<-|Hne].
    - by rewrite lookup_singleton_eq.
    - by rewrite lookup_singleton_ne. }
  split.
  - split.
    + unfold bank_wf, pay_bank. cbn [accounts]. do 6 (apply map_Forall_insert_2; [apply IsValid_wf; by vm_compute|]).
      apply map_Forall_singleton, IsValid_wf. by vm_compute.
    + intros d. rewrite Hs. unfold total_of, pay_bank. cbn [accounts].
      do 6 (rewrite map_sum_fresh by (by vm_compute)). rewrite map_sum_singleton.
      unfold demo_stake_acc, demo_pool_acc. cbn [AccCoins]. rewrite !amount_of_one, !amount_of_nil. cbn [Denom Amount].
      destruct (String.eqb "okt" d); unfold unit_okt; lia.
  - intros d. rewrite Hs. by destruct (String.eqb "okt" d).
  - exists "pool_n", demo_pool_acc, ["burner"; "staking"]. split_and!; by vm_compute.
  - intros m addr Hm. unfold GetModuleAddress in Hm. destruct (permAddrs !! m) as [[b ps]|] eqn:Hx; [|done].
    injection Hm as <-. cbn [permAddrs pay_bank_config] in Hx.
    repeat (apply lookup_insert_Some in Hx as [[_ [= <- _]]|[_ Hx]]; [by vm_compute; eauto|]).
    apply lookup_singleton_Some in Hx as [_ [= <- _]]. by vm_compute; eauto.
Qed.
Lemma pay_balance a d : a ∈ ["pool_b"; "pool_n"; "pool_d"] → ck_balance pay_bank a d = 0.
Proof. rewrite !elem_of_cons, elem_of_nil. intros [->|[->|[->|[]]]]; done. Qed.

Lemma pay_accounts : accounts_ok (C := Bank) "pool_b" "pool_n" "pool_d" "fee".
Proof.
  split; [by vm_compute..| | |].
  - apply (bool_decide_eq_true_1 _). by vm_compute.
  - intros a. rewrite !elem_of_cons, elem_of_nil. intros [->|[->|[->|[]]]]; by vm_compute.
  - done.
Qed.

Lemma pay_state0_inv : chain_inv "pool_b" "pool_n" ∅ 0 pay_state0.
Proof.
  apply empty_chain_inv; [exact pay_bank_sound|done| |by split|done].
  split; cbn; try done; by intros.
Qed.
Lemma pay_state0_rewards : rewards_inv "pool_d" 2 pay_state0.
Proof.
  split; [done| |by split]. exists ∅. split; [exact pay_bank_sound| | |by vm_compute|by intros v []].
  - split; try done.
    + split; cbn; try done. intros c [= <-]. apply wf_coins_nil.
    + intros v [? Hv]. cbn in Hv. done.
  - intros d. change (ck_balance pay_bank "pool_d" d = total pay_distr0 d). by rewrite pay_balance by set_solver.
Qed.

(** ** Along the chain *)

#[local] Abbreviation pay_ok := (chain_ok (C := Bank) "pool_b" "pool_n" "pool_d").
#[local] Abbreviation pay_to := (rtc (distr_block (C := Bank) "pool_b" "pool_n" "pool_d")).

Definition pay_next (ctx : Ctx) (r : pay_run) (x : gmap PubKey Z * Z) : gmap PubKey Z * Z :=
  (engine_apply x.1 (pr_updates r), x.2 + pr_lost r).
Definition pay_e3 : gmap PubKey Z * Z := pay_next pay_ctx3 pay_r3 (∅, 0).
Definition pay_e4 : gmap PubKey Z * Z := pay_next pay_ctx4 pay_r4 pay_e3.
Definition pay_e5 : gmap PubKey Z * Z := pay_next pay_ctx5 pay_r5 pay_e4.
Definition pay_e6 : gmap PubKey Z * Z := pay_next pay_ctx6 pay_r6 pay_e5.
Definition pay_e7 : gmap PubKey Z * Z := pay_next pay_ctx7 pay_r7 pay_e6.
#[local] Abbreviation pay_x2 := (mkChain 2 ∅ 0 pay_state0).
#[local] Abbreviation pay_at h e r := (mkChain h (fst e) (snd e) (pr_end r)).
#[local] Abbreviation pay_x5 := (pay_at 5 pay_e5 pay_r5).
#[local] Abbreviation pay_x7 := (pay_at 7 pay_e7 pay_r7).

Lemma pay_oks : pr_ok pay_r3 && pr_ok pay_r4 && pr_ok pay_r5 && pr_ok pay_r6 && pr_ok pay_r7 = true.
Proof. by vm_compute. Qed.
Lemma pay_next_block h ctx votes l e s r :
  r = pay_block ctx votes l s → pr_ok r = true → h = BlockHeight ctx - 1 →
  pay_to (mkChain h (fst e) (snd e) s) (pay_at (BlockHeight ctx) (pay_next ctx r e) r).
Proof. intros -> Hok ->. apply rtc_once. by apply pay_block_ran. Qed.
Lemma pay_to5 : pay_to pay_x2 pay_x5.
Proof.
  pose proof pay_oks as [[[[H3 H4]%andb_true_iff H5]%andb_true_iff _]%andb_true_iff _]%andb_true_iff.
  transitivity (pay_at 3 pay_e3 pay_r3); [exact (pay_next_block 2 pay_ctx3 [] pay_acts3 (∅, 0) pay_state0 pay_r3 eq_refl H3 eq_refl)|].
  transitivity (pay_at 4 pay_e4 pay_r4);
    [exact (pay_next_block 3 pay_ctx4 [] pay_acts4 pay_e3 (pr_end pay_r3) pay_r4 eq_refl H4 eq_refl)|].
  exact (pay_next_block 4 pay_ctx5 pay_votes pay_acts5 pay_e4 (pr_end pay_r4) pay_r5 eq_refl H5 eq_refl).
Qed.
Lemma pay_to7 : pay_to pay_x2 pay_x7.
Proof.
  pose proof pay_oks as [[_ H6]%andb_true_iff H7]%andb_true_iff.
  transitivity (pay_at 5 pay_e5 pay_r5); [exact pay_to5|].
  transitivity (pay_at 6 pay_e6 pay_r6);
    [exact (pay_next_block 5 pay_ctx6 pay_votes pay_acts6 pay_e5 (pr_end pay_r5) pay_r6 eq_refl H6 eq_refl)|].
  exact (pay_next_block 6 pay_ctx7 pay_votes pay_acts7 pay_e6 (pr_end pay_r6) pay_r7 eq_refl H7 eq_refl).
Qed.
Lemma pay_ok2 : pay_ok pay_x2.
Proof. split; [exact pay_state0_inv|exact pay_state0_rewards]. Qed.
Lemma pay_ok5 : pay_ok pay_x5.
Proof. exact (chain_run_ok _ _ _ _ pay_accounts demo_weights _ _ pay_to5 pay_ok2). Qed.
Lemma pay_ok7 : pay_ok pay_x7.
Proof. exact (chain_run_ok _ _ _ _ pay_accounts demo_weights _ _ pay_to7 pay_ok2). Qed.

(** Only one denomination exists. *)
Lemma pay_payable (c : Bank) : supplies c = {[ "okt" := 3 * unit_okt ]} → payable c.
Proof.
  intros Es d. cbn. unfold supply_of. rewrite Es. destruct (decide (d = "okt")) as [->|Hne].
  - rewrite lookup_singleton_eq. by split; [|split].
  - by rewrite lookup_singleton_ne.
Qed.

(** ** The properties, at work *)

(** The commission of the validator, the share of its voter and the pool of
    the community are what the account holds. *)
Lemma distr_run_solvent_witness :
  ck_balance (di_base (dist (pr_end pay_r7))) "pool_d" "okt" = 3 * 10 ^ 15 ∧
  pool_of (di_distr (dist (pr_end pay_r7))) "okt" + held_all (dt_outstanding (di_distr (dist (pr_end pay_r7)))) "okt" = 3 * 10 ^ 15 ∧
  NonNegativeCommissionsInvariant (di_distr (dist (pr_end pay_r7))) = false ∧
  (CanWithdrawInvariant pay_ctx7 (sg_vals (pr_end pay_r7)) (dist (pr_end pay_r7))).1 = Ok false.
Proof.
  destruct (distr_run_solvent "pool_b" "pool_n" "pool_d" "fee" pay_x2 pay_x7 pay_accounts demo_weights pay_to7 pay_ok2)
    as (H1 & _ & H2 & _ & H3). specialize (H1 "okt").
  assert (ck_balance (di_base (dist (cs_stores pay_x7))) "pool_d" "okt" = 3 * 10 ^ 15) as E by by vm_compute.
  assert (CheckInitExistedValidatorFlag (di_distr (dist (cs_stores pay_x7))) = true) as F by by vm_compute.
  assert (supplies (di_base (dist (cs_stores pay_x7))) = {[ "okt" := 3 * unit_okt ]}) as S by by vm_compute.
  assert (is_ok (CanWithdrawInvariant pay_ctx7 (sg_vals (pr_end pay_r7)) (dist (pr_end pay_r7))).1 = true) as Hok by by vm_compute.
  rewrite F, E in H1. split; [exact E|]. split; [symmetry; exact H1|]. split; [exact H2|].
  specialize (H3 pay_ctx7). destruct (CanWithdrawInvariant pay_ctx7 _ _) as [[b|e|p] k'] eqn:Ec; [|discriminate Hok..].
  cbn. f_equal. exact (H3 b k' eq_refl (pay_payable _ S) eq_refl).
Defined.

(** The one who changed his mind is paid when the next block ends. *)
#[local] Abbreviation pay_x3 := (pay_at 3 pay_e3 pay_r3).
Lemma pay_to3 : pay_to pay_x2 pay_x3.
Proof.
  pose proof pay_oks as [[[[H3 _]%andb_true_iff _]%andb_true_iff _]%andb_true_iff _]%andb_true_iff.
  exact (pay_next_block 2 pay_ctx3 [] pay_acts3 (∅, 0) pay_state0 pay_r3 eq_refl H3 eq_refl).
Qed.
Lemma pay_begun4 : distr_begun "pool_b" "pool_n" "pool_d" pay_ctx4 (pr_lost pay_r4) (pr_end pay_r3) (pr_mid pay_r4).
Proof.
  pose proof pay_oks as [[[[_ H4]%andb_true_iff _]%andb_true_iff _]%andb_true_iff _]%andb_true_iff.
  exact (proj1 (pay_block_parts pay_ctx4 [] pay_acts4 (pr_end pay_r3) H4)).
Qed.
Lemma pay_payable4 : payable (di_base (dist (pr_mid pay_r4))).
Proof. apply pay_payable. by vm_compute. Qed.
Lemma pay_few4 : Z.of_nat (size (vs_validators (sg_vals (pr_mid pay_r4)))) ≤ 2 ^ 100.
Proof. by vm_compute. Qed.

Lemma EndBlocker_returns_witness :
  is_ok (staking_EndBlocker pay_ctx4 (pr_mid pay_r4)).1 = true ∧
  vs_abandoned (sg_vals (staking_EndBlocker pay_ctx4 (pr_mid pay_r4)).2) = [].
Proof.
  exact (EndBlocker_returns "pool_b" "pool_n" "pool_d" "fee" pay_x2 pay_x3 pay_ctx4 (pr_lost pay_r4) (pr_mid pay_r4)
    pay_accounts demo_weights pay_ok2 pay_to3 eq_refl pay_begun4 pay_payable4 pay_few4).
Defined.
Lemma undelegation_paid_witness :
  ∃ us s', staking_EndBlocker pay_ctx4 (pr_mid pay_r4) = (Ok us, s') ∧ st_undelegations (sg_stakes s') !! "dave" = None ∧
    balance (di_base (dist (pr_mid pay_r4))) "dave" DefaultBondDenom + 4 * 10 ^ 11
      ≤ balance (di_base (dist s')) "dave" DefaultBondDenom.
Proof.
  destruct (undelegation_paid "pool_b" "pool_n" "pool_d" "fee" pay_x2 pay_x3 pay_ctx4 (pr_lost pay_r4) (pr_mid pay_r4)
    110 "dave" (mkUndelegation "dave" (4 * 10 ^ 11) 110)
    pay_accounts demo_weights pay_ok2 pay_to3 eq_refl pay_begun4 pay_payable4 pay_few4) as (us & s' & H1 & H2 & H3 & _).
  - apply (bool_decide_eq_true_1 _). by vm_compute.
  - by vm_compute.
  - by vm_compute.
  - apply (bool_decide_eq_true_1 _). by vm_compute.
  - exact (ex_intro _ us (ex_intro _ s' (conj H1 (conj H2 H3)))).
Defined.

Definition pay_raw : list DecCoin := [mkDecCoin "okt" 812551181102352].
Definition pay_coins : list DecCoin := [mkDecCoin "okt" 812550000000000].
Definition pay_withdrawn : Distributed Bank :=
  (WithdrawDelegationRewards pay_ctx8 (sg_stakes (pr_end pay_r7)) (sg_vals (pr_end pay_r7)) "carol" "bob" (dist (pr_end pay_r7))).2.
Lemma withdrawal_pays_query_witness :
  ∃ rest, DecCoins_TruncateWithPrec pay_raw 8 = Ok (pay_coins, rest) ∧
    ck_balance (di_base pay_withdrawn) "carol" "okt"
      = ck_balance (di_base (dist (pr_end pay_r7))) "carol" "okt" + 812550000000000.
Proof.
  destruct (withdrawal_pays_query "pool_b" "pool_n" "pool_d" "fee" pay_x7 pay_ctx8 "carol" "bob" pay_raw pay_coins pay_withdrawn
    pay_accounts pay_ok7) as (rest & H1 & _ & H3); [reflexivity|by vm_compute|by vm_compute|].
  exists rest. split; [exact H1|]. rewrite H3. by vm_compute.
Defined.

Lemma fees_conserved_witness :
  ck_balance (di_base (pr_paid pay_r6)) "fee" "okt" = 0 ∧
  ck_balance (di_base (pr_paid pay_r6)) "pool_d" "okt" = ck_balance (di_base (dist (pr_end pay_r5))) "pool_d" "okt" + 10 ^ 15 ∧
  total (di_distr (pr_paid pay_r6)) "okt" = total (di_distr (dist (pr_end pay_r5))) "okt" + 10 ^ 15.
Proof.
  destruct (fees_conserved "pool_b" "pool_n" "pool_d" "fee" pay_x5 pay_ctx6 pay_votes "bob_key" (pr_paid pay_r6)
    pay_accounts pay_ok5) with (d := "okt") as [H1 H2]; [reflexivity|done| |].
  { apply (pay_paid pay_ctx6 pay_votes pay_acts6 (pr_end pay_r5) pay_r6); [reflexivity|by vm_compute]. }
  assert (ck_balance (di_base (dist (cs_stores pay_x5))) "fee" "okt" = 10 ^ 15) as E by by vm_compute.
  rewrite E in H2. exact (conj H1 H2).
Defined.

Definition pay_switched : Distributed Bank :=
  (DistributionProposalHandler pay_ctx6 (sg_vals (pr_end pay_r5)) pay_switch (dist (pr_end pay_r5))).2.
Lemma switch_on_chain_witness :
  dt_outstanding (di_distr pay_switched) !! "bob" = Some [mkDecCoin "okt" 980000000000000] ∧
  total (di_distr pay_switched) "okt" = total (di_distr (dist (pr_end pay_r5))) "okt".
Proof.
  destruct (switch_on_chain "pool_b" "pool_n" "pool_d" pay_x5 pay_ctx6 "on chain" "share the rewards" pay_switched pay_ok5)
    as (_ & _ & _ & H1 & H2 & _); [by vm_compute|by vm_compute|by vm_compute|].
  split; [|apply H2]. destruct (H1 "bob") as [_ ->]; [by vm_compute|by vm_compute].
Defined.
